(* ===== verification/_CoqProject ===== *)
-Q . S2P
Prelude.v
Graph.v
GraphFacts.v
GraphProps.v
GoStrings.v
GoRegexp.v
Types.v
Config.v
Resolver.v
ResolverFacts.v
ResolveLoop.v
ResolverProps.v
Git.v
Names.v
DevContainer.v
Merge.v
Substitute.v
Features.v
FeaturesProps.v
SshConfig.v
SshConfigProps.v
Forward.v
Provider.v
ProviderProps.v
Options.v
OptionsProps.v
Dockerfile.v
DockerfileProps.v
Lifecycle.v
LifecycleProps.v
Home.v
Ide.v
Clients.v
Workspaces.v
Paths.v
Registry.v
RegistryProps.v
Locks.v
ClientsProps.v
WorkspacesProps.v
Commands.v
CommandsProps.v
IdeProps.v
Driver.v
Build.v
Docker.v
CustomDriver.v
Kubernetes.v
KubernetesProps.v
KubernetesDemo.v
CredHelpers.v
CredHelpersProps.v
FileTree.v
FileTreeProps.v
Extract.v
ExtractProps.v
Binaries.v
BinariesProps.v
Agent.v
AgentWorkspace.v
AgentProps.v
IdeServers.v
IdeServersProps.v
Tailnet.v
Netstat.v
NetstatProps.v
Inject.v
DevContainerFile.v
Runner.v
RunnerDemo.v
DevContainerFileProps.v
RunnerProps.v
DockerProps.v
DockerDemo.v
Compose.v
ContainerDaemon.v
ContainerSetup.v
ContainerSetupProps.v
Up.v
UpProps.v
