(* ===== verification/Prelude.v ===== *)
(** * DevPod in Rocq: prelude and guide to the development

    DevPod (src/) creates dev environments: it reads a provider definition and
    the user's configuration, resolves options, prepares the configuration of a
    dev container with its features, and connects to it over SSH.  This
    library models the parts of the Go code that carry this logic and proves
    what makes them correct.

    ** Files

    - Prelude.v: the result and state monads, loops, tactics, list lemmas.
    - Graph.v, GraphFacts.v, GraphProps.v: the dependency graph of
      pkg/devcontainer/graph, used for options and for features.  A node has
      its children as a slice with its backing array, because the code changes the
      array while it ranges over it.
    - GoStrings.v, GoRegexp.v: the functions of strings, strconv, time and encoding/base64,
      and the regular expressions, that the code uses.
    - Types.v: pkg/types, the lenient JSON types.  Config.v:
      pkg/config, contexts, context options, loading and saving.
    - Resolver.v, ResolverFacts.v, ResolveLoop.v, ResolverProps.v:
      pkg/options/resolver.  [rstate] is the state of a
      Resolver, [rconfig] its settings, [world] what it asks of its surroundings.
    - Git.v: pkg/git, references and cloning.
    - Names.v: pkg/workspace/id.go, pkg/encoding, pkg/id and
      pkg/port/parse.go, a Module each.
    - DevContainer.v, Merge.v: the records of
      pkg/devcontainer/config, image metadata, and how it is merged.
    - Substitute.v: variable substitution.
    - Features.v, FeaturesProps.v: pkg/devcontainer/feature.
    - SshConfig.v, SshConfigProps.v: the sections of the ssh config
      (pkg/ssh/config.go), with the limits of the line scanners.
    - Forward.v: the connection counter and port forwarding of pkg/ssh as a
      transition system, with its theorems.
    - Provider.v, ProviderProps.v: provider definitions and their validation
      (pkg/provider/provider.go, parse.go).
    - Options.v, OptionsProps.v: workspaces, machines, their directories and
      environment (pkg/provider), and pkg/options/resolve.go.
    - Dockerfile.v, DockerfileProps.v: pkg/dockerfile, the base image, the user
      and the build information of pkg/devcontainer/build.go.
    - Lifecycle.v, LifecycleProps.v: pkg/devcontainer/setup, lifecycle hooks and
      the environment they run in.
    - Home.v: the home directory as a state [home]: the config files and
      directories of pkg/provider/dir.go, the ssh config, and the provider
      commands that ran (runCommand).  [osys] is the operating system.
    - Paths.v: joined paths of plain names.  Registry.v, RegistryProps.v: the
      registry of workspaces and machines as an abstract specification, and
      that the home directory implements it.
    - Clients.v, ClientsProps.v: pkg/client/clientimplementation, the machine
      and the workspace client.  Locks.v: their locks, as a
      transition system of processes.
    - Ide.v, IdeProps.v: pkg/ide/ideparse.
    - Workspaces.v, WorkspacesProps.v: pkg/workspace; [remote] is the
      platform, the network and the terminal.
    - Driver.v: the interface of the drivers (pkg/driver) as a class over a
      [host], files and an engine, with the laws a client may rely on ([Lawful]).
      Docker.v: pkg/docker and pkg/driver/docker, an instance of it on an arbitrary
      docker command.  CustomDriver.v: pkg/driver/custom.
    - Build.v: features of an image, the rewritten Dockerfile, the prebuild hash
      and the build without docker.  DevContainerFile.v: finding, reading
      and substituting devcontainer.json, the default configuration;
      DevContainerFileProps.v its theorems.
    - Runner.v: the runner of pkg/devcontainer (Up, Build, Stop, Delete).
      RunnerProps.v: its theorems, for every lawful driver.  DockerProps.v: the docker
      driver is lawful.  RunnerDemo.v, DockerDemo.v: concrete worlds for
      examples and witnesses.
    - Compose.v: pkg/compose and pkg/devcontainer/compose.go, the
      workspaces that are docker compose projects, with its theorems.
    - Kubernetes.v: pkg/driver/kubernetes on a cluster
      that is a parameter ([kube_world]; [ClusterOk] is what its API promises);
      KubernetesProps.v its theorems, KubernetesDemo.v a concrete cluster.
    - Commands.v, CommandsProps.v: the commands of cmd/context, cmd/ide, cmd/provider
      and cmd/machine, and cmd/delete.go and cmd/stop.go, over [cstate], the
      configuration file and the home directory.
    - CredHelpers.v, CredHelpersProps.v: git, docker and signing credentials
      (pkg/gitcredentials, pkg/gitsshsigning, pkg/dockercredentials, the handlers of
      pkg/credentials and pkg/agent/tunnelserver, the commands of cmd/agent), over two
      [machine]s, the workspace and the local one.
    - FileTree.v, FileTreeProps.v: a file system with directories and symbolic links
      ([fs], a map from paths to nodes), the system calls on it, and how paths
      resolve.  Extract.v, ExtractProps.v: pkg/extract and pkg/copy on it.
    - Binaries.v, BinariesProps.v: pkg/binaries and pkg/download on it, the binaries of
      a provider; [bin_world] is HTTP, the hashes and the archive formats.
    - Agent.v, AgentWorkspace.v, AgentProps.v: the agent on the machine of a workspace
      (pkg/agent/agent.go and workspace.go, cmd/agent/workspace, cmd/agent/daemon.go).
      The state [agent] is its files, the times they were touched, the clock, and what was
      done outside of the files ([event]); [agent_world] is the rest.
    - Netstat.v, NetstatProps.v: pkg/netstat, on the files of /proc, and the ports of
      pkg/tunnel; a [Forwarder] is what the watcher uses, here or through the tunnel.
    - Inject.v: pkg/inject, with its script as a process ([remote]) that prints and reads
      lines, and pkg/agent/inject.go.
    - IdeServers.v, IdeServersProps.v: pkg/single, pkg/command and the servers of pkg/ide
      that run in a container.  The state [box] is the files of the container, the
      processes that run and what was done ([act]); [box_world] is HTTP, the archives and
      the commands.  Calls of pkg/single that interleave are a transition system, Module [Calls].
    - Tailnet.v: pkg/ts, the names of hosts, waiting for them, and the server of a workspace.
    - ContainerSetup.v, ContainerSetupProps.v: cmd/agent/container/setup.go and the rest of
      pkg/devcontainer/setup, over the state [setup], which joins a box, the container of
      Lifecycle.v and the machine of CredHelpers.v.
    - ContainerDaemon.v: cmd/agent/container/daemon.go, its configuration, and its tasks as a
      step relation over the channel of errors.
    - Up.v, UpProps.v: cmd/up.go from the flags to the opened editor, the editors that are
      opened on the local machine, free ports, and the results of workspaces.  The state
      [session] joins the configuration and the home directory of Commands.v, the locks, the
      results and what was done outside; [up_world] has the agent at the other end.

    ** Conventions

    A Go function with an error result is a function into [result]; code that
    changes an object is in [M S] over the state [S], which is returned also when the
    call fails.  [Panic] is a run-time panic.  A nil map, slice or pointer is [None] of
    an [option] where the code can tell it from an empty one.  Map iteration follows an
    order that is a parameter ([w_iter], [s_iter], or a list of entries); theorems hold for
    every order.  Network, processes, the file system, hash functions and third-party
    libraries are parameters; the classes [WorldOk] and [SysOk] state what is
    assumed of them ([Healthy]: an operating system that fails no call), and
    the witnesses use concrete instances.  [stays R c] says what a stateful call
    may change.  Texts of
    errors of the standard library are left out where the code wraps them.
    Strings are byte strings, and the case and space functions are those of ASCII.

    ** Fuel

    The search for a path or a leaf, and the loops that remove leaves, use
    [search_fuel], the number of nodes plus one; in an acyclic graph every step goes
    to a node not yet seen below, so [bounded_search_fuel] holds and no theorem is
    about runs that stop early.  The resolve loop takes its fuel as an argument;
    [Resolve_terminates] shows how much is enough when sub options are not
    resolved (with them every visit may add options, and a provider can make
    the loop run forever).  The regular expression matcher uses the length of the rest of
    the text, and a repetition must consume.  How often [devpod up] asks a busy
    workspace for its status is an argument ([startWait_connects] says how often it must).

    ** What the theorems show

    - The graph stays acyclic and consistent under every sequence of operations;
      an edge is refused exactly when it closes a cycle; removal and the order in which
      nodes are handed out are characterised.
    - Resolving options terminates, respects dependencies and scopes, uses
      the values of the user after validating them, evaluates defaults with the final values,
      leaves no required option without a value (all this in runs that resolve no sub
      options and skip no required one); what is saved for a workspace, and
      what changes in the configuration, is stated exactly; an override of
      the command line alone is not saved.
    - Feature orders exist exactly when there is no cycle and respect
      [installsAfter] and the override.
    - Merging metadata, substitution, mounts, ports, identifiers, git references and
      clone commands do what their formats promise (round trips, bounds, unions, who wins).
    - Provider definitions are accepted exactly when they are valid.
    - The ssh config keeps what is not DevPod's, and removing a section undoes
      adding it; a forwarding is stopped when it is idle and only then.
    - The home directory is a registry: saving, loading, listing and deleting
      workspaces and machines touch the entry they name and no other.  On
      top of it: a workspace is created as a whole or not at all, an existing one is never
      created again, a deletion forgets a workspace only when its container is
      gone, unless it is forced or there is no command for it, a shared machine goes with its last workspace.
    - Two processes never have the same workspace or machine locked, and
      waiting for locks does not deadlock.
    - Lifecycle hooks run when they are due and creation hooks once; the
      base image and the user of a Dockerfile are those of the chain of FROMs.
    - The container of a workspace: bringing it up reuses it, or removes it only
      once the new image is built; no other workspace is touched; the docker driver
      keeps what these theorems ask of a driver.  The kubernetes driver touches the objects
      of its workspace only; its pods, claims and secrets are characterised.
    - The commands change the context or provider they name and no other, up to maps
      that are empty instead of missing, and a provider in use is not deleted.
    - Credentials: git in a workspace gets the answer of the workspace server or else of the
      local machine to its own request, and nothing when that is not allowed; the helpers leave
      the rest of the git configuration alone and are removed when the server returns; when its
      tunnel closes it exits instead, and they stay.
    - Archives: a zip file is extracted only below its destination (a tar file is
      not, which an example shows); the archive of a folder has every file below it once.
      The calls on a file system keep it a tree.
    - A binary with a checksum is used only if the file has it.  What a client sends about a
      workspace is read back from the disk.  The daemon stops a machine only when it was idle
      for the timeout of the workspace used last, never right after it started, and does stop
      it when every workspace was idle.
    - Installing the agent: the client and the script never wait for each other, the binary is
      there afterwards and the command ran once, and the attempts come to an end.
    - The tables of the kernel are parsed to what was printed, the watcher finds the ports that
      listen, and as long as no call over the tunnel fails exactly those are forwarded.
    - Setting up a container a second time runs no hooks but the postAttach commands, and leaves
      the markers, the environment and the owner of the workspace folder alone; however calls for a
      pid file interleave, at most one process of it is alive (Module [Calls]); the settings of an editor are
      written once; the daemon of a container always comes to an end, and its channel is
      large enough; the host name of a workspace is read back.
    - devpod up: a workspace that does not come up leaves the ssh config alone and opens
      nothing; after a success its result is on the disk and its section in the ssh config;
      the agent is asked under the locks of the workspace and of its machine, and they are given
      back whatever happens, except that of the workspace when that of the machine is refused.
    - Some theorems and examples record behaviour that is not intended, such as
      the loss of an ssh config with a very long line.

    ** Not modelled

    The connections themselves (gRPC over stdio, SSH, tailscale), the clients of the
    platform (the proxy and daemon client, which are parameters of Workspaces.v and Up.v, and
    the forms and the API of DevPod Pro) and the commands that only wire the parts together
    are processes and connections.  The
    credentials that "agent workspace up" configures on the machine, and docker being
    installed while the workspace is prepared, are left out of AgentWorkspace.v. *)

From stdpp Require Import base gmap sets list strings relations.
From Stdlib Require Export Ascii.
From Stdlib Require Import ZArith Lia.

(** Appending reduces on a constructor, so that proofs by induction on
    strings can compute. *)
#[global] Arguments String.append !_ _ / : simpl nomatch.

(** ** Results

    A Go function that returns [(A, error)] becomes a function into
    [result A].  [Err] carries the text of the error, [Panic] is a run-time
    panic (nil dereference, index out of range), and [NoFuel] is the value a
    fuelled loop returns when its fuel is used up; theorems about loops show
    that it is never reached. *)

Inductive result (A : Type) : Type :=
| Ok (a : A)
| Err (e : string)
| Panic
| NoFuel.
Arguments Ok {A} a.
Arguments Err {A} e.
Arguments Panic {A}.
Arguments NoFuel {A}.

#[export] Instance result_ret : MRet result := λ A a, Ok a.
#[export] Instance result_bind : MBind result := λ A B k c,
  match c with
  | Ok a => k a
  | Err e => Err e
  | Panic => Panic
  | NoFuel => NoFuel
  end.
#[export] Instance result_fmap : FMap result := λ A B f c,
  match c with
  | Ok a => Ok (f a)
  | Err e => Err e
  | Panic => Panic
  | NoFuel => NoFuel
  end.

#[export] Instance result_eq_dec {A} `{EqDecision A} : EqDecision (result A).
Proof. solve_decision. Defined.

(** [errors.Wrap(err, msg)] prefixes the message, and is the identity on a
    nil error. *)
Definition wrap {A} (msg : string) (c : result A) : result A :=
  match c with
  | Err e => Err (msg +:+ ": " +:+ e)
  | _ => c
  end.

Definition is_ok {A} (c : result A) : bool :=
  match c with Ok _ => true | _ => false end.

Definition is_err {A} (c : result A) : bool :=
  match c with Err _ => true | _ => false end.

Definition of_option {A} (e : string) (o : option A) : result A :=
  match o with Some a => Ok a | None => Err e end.

(** The result of a call that can only fail with an error. *)
Definition of_sum {A} (c : string + A) : result A :=
  match c with inl e => Err e | inr a => Ok a end.

(** Dereferencing a pointer that may be nil. *)
Definition deref {A} (o : option A) : result A :=
  match o with Some a => Ok a | None => Panic end.

Section Result.
Context {A B : Type}.
Implicit Types (c : result A) (k : A → result B).

Lemma bind_Ok c k b : c ≫= k = Ok b ↔ ∃ a, c = Ok a ∧ k a = Ok b.
Proof. destruct c; cbn; naive_solver. Qed.

Lemma bind_Err c k e :
  c ≫= k = Err e ↔ c = Err e ∨ ∃ a, c = Ok a ∧ k a = Err e.
Proof. destruct c; cbn; naive_solver. Qed.

Lemma wrap_Ok msg c a : wrap msg c = Ok a ↔ c = Ok a.
Proof. destruct c; cbn; naive_solver. Qed.

Lemma deref_Ok (o : option A) a : deref o = Ok a ↔ o = Some a.
Proof. destruct o; cbn; naive_solver. Qed.

Lemma of_option_Ok e (o : option A) a : of_option e o = Ok a ↔ o = Some a.
Proof. destruct o; cbn; naive_solver. Qed.
End Result.

(** ** State and errors

    Code that mutates a shared object is written over [M S]: the state after
    the call is returned also when the call fails, because a Go error does
    not undo the writes made before it. *)

Definition M (S A : Type) : Type := S → result A * S.

#[export] Instance M_ret S : MRet (M S) := λ A a s, (Ok a, s).
#[export] Instance M_bind S : MBind (M S) := λ A B k c s,
  match c s with
  | (Ok a, s') => k a s'
  | (Err e, s') => (Err e, s')
  | (Panic, s') => (Panic, s')
  | (NoFuel, s') => (NoFuel, s')
  end.

Definition getS {S} : M S S := λ s, (Ok s, s).
Definition putS {S} (s : S) : M S unit := λ _, (Ok tt, s).
Definition modifyS {S} (f : S → S) : M S unit := λ s, (Ok tt, f s).
Definition liftR {S A} (c : result A) : M S A := λ s, (c, s).
Definition throw {S A} (e : string) : M S A := λ s, (Err e, s).

(** Go's [for _, x := range l { ... }] with an early return on error. *)
Fixpoint forM_ {S A} (l : list A) (f : A → M S unit) : M S unit :=
  match l with
  | [] => mret ()
  | x :: l' => f x ≫= λ _, forM_ l' f
  end.

Section State.
Context {S A B : Type}.

Lemma M_bind_Ok (c : M S A) (k : A → M S B) s b s' :
  (c ≫= k) s = (Ok b, s') ↔ ∃ a s1, c s = (Ok a, s1) ∧ k a s1 = (Ok b, s').
Proof.
  unfold mbind, M_bind. destruct (c s) as [[] ?]; naive_solver.
Qed.


(** Either the first computation succeeds and the second one runs, or the
    composition stops with the outcome of the first. *)
Lemma M_bind_cases (c : M S A) (k : A → M S B) s :
  (∃ a s', c s = (Ok a, s') ∧ (c ≫= k) s = k a s') ∨
  ((∀ b, ((c ≫= k) s).1 ≠ Ok b) ∧
   (((c ≫= k) s).1 = NoFuel → (c s).1 = NoFuel)).
Proof.
  unfold mbind, M_bind. destruct (c s) as [[a|e| |] s'];
    [left; by exists a, s'|right; done..].
Qed.

Lemma M_ret_Ok (a b : A) (s s' : S) : (mret a : M S A) s = (Ok b, s') → a = b ∧ s = s'.
Proof. by intros [= -> ->]. Qed.
Lemma run_get (k : S → M S B) s : (getS ≫= k) s = k s s.
Proof. done. Qed.
Lemma run_ret (a : A) (k : A → M S B) s : (mret a ≫= k) s = k a s.
Proof. done. Qed.
Lemma run_put s0 (k : unit → M S B) s : (putS s0 ≫= k) s = k () s0.
Proof. done. Qed.
Lemma run_modify f (k : unit → M S B) s : (modifyS f ≫= k) s = k () (f s).
Proof. done. Qed.
Lemma run_throw e (k : A → M S B) s : (throw e ≫= k) s = (Err e, s).
Proof. done. Qed.
Lemma run_lift_Ok (a : A) (k : A → M S B) s : (liftR (Ok a) ≫= k) s = k a s.
Proof. done. Qed.
Lemma run_Ok (c : M S A) (k : A → M S B) s a s' :
  c s = (Ok a, s') → (c ≫= k) s = k a s'.
Proof. unfold mbind, M_bind. by intros ->. Qed.
Lemma run_Err (c : M S A) (k : A → M S B) s e s' :
  c s = (Err e, s') → (c ≫= k) s = (Err e, s').
Proof. unfold mbind, M_bind. by intros ->. Qed.
End State.

Lemma M_bind_assoc {S A B C} (c : M S A) (k : A → M S B) (h : B → M S C) s :
  (c ≫= λ a, k a ≫= h) s = ((c ≫= k) ≫= h) s.
Proof. unfold mbind, M_bind. by destruct (c s) as [[] ?]. Qed.

(** An error that the code handles itself, and one it drops. *)
Definition caught {S A} (c : M S A) : M S (result A) := λ s, let '(r, s') := c s in (Ok r, s').
Lemma caught_Ok {S A} (c : M S A) s a s' : c s = (Ok a, s') → caught c s = (Ok (Ok a), s').
Proof. unfold caught. by intros ->. Qed.
Definition try_ {S A} (c : M S A) : M S unit := λ st,
  let '(r, st') := c st in
  (match r with Ok _ | Err _ => Ok () | Panic => Panic | NoFuel => NoFuel end, st').

(** *** What a call may change

    [stays R c]: the state after [c], whether it fails or not, is related by
    [R] to the state before. *)
Definition stays {S A} (R : S → S → Prop) (c : M S A) : Prop := ∀ s, R s (c s).2.

Section Stays.
Context {S : Type} (R : S → S → Prop) `{!PreOrder R}.

Lemma stays_ret {A} (a : A) : stays R (mret a).
Proof. intros s. cbn. reflexivity. Qed.
Lemma stays_throw {A} e : stays R (throw (A := A) e).
Proof. intros s. cbn. reflexivity. Qed.
Lemma stays_lift {A} (c : result A) : stays R (liftR c).
Proof. intros s. cbn. reflexivity. Qed.
Lemma stays_get : stays R getS.
Proof. intros s. cbn. reflexivity. Qed.
Lemma stays_bind {A B} (c : M S A) (k : A → M S B) :
  stays R c → (∀ a, stays R (k a)) → stays R (c ≫= k).
Proof.
  intros Hc Hk s. specialize (Hc s). unfold mbind, M_bind.
  destruct (c s) as [[a|e| |] s']; cbn in *; [|done..]. etrans; [exact Hc|apply Hk].
Qed.
Lemma stays_caught {A} (c : M S A) : stays R c → stays R (caught c).
Proof. intros Hc s. specialize (Hc s). unfold caught. by destruct (c s). Qed.
Lemma stays_try {A} (c : M S A) : stays R c → stays R (try_ c).
Proof. intros Hc s. specialize (Hc s). unfold try_. by destruct (c s). Qed.
Lemma stays_after {A} (c : M S A) s r s' : stays R c → c s = (r, s') → R s s'.
Proof. intros Hc Hrun. specialize (Hc s). by rewrite Hrun in Hc. Qed.
End Stays.

(** Walk through a program with the lemmas above and those of the database
    [stays]. *)
Create HintDb stays.
#[export] Hint Resolve stays_ret stays_throw stays_lift stays_get stays_caught stays_try : stays.
Ltac stays_step :=
  lazymatch goal with
  | |- stays _ (_ ≫= _) => apply stays_bind; [exact _|auto with stays typeclass_instances|intros ?]
  | |- stays _ (match ?x with _ => _ end) => destruct x
  | |- stays _ (let '(_, _) := ?x in _) => destruct x
  | |- _ => solve [auto 6 with stays typeclass_instances]
  end.
Ltac stays := intros; repeat stays_step.

Section Loops.
Context {S A : Type}.

(** An invariant kept by the body is kept by the loop. *)
Lemma forM_invariant (P : S → Prop) (f : A → M S unit) l s :
  (∀ x s1, x ∈ l → P s1 → P (f x s1).2) → P s → P (forM_ l f s).2.
Proof.
  revert s. induction l as [|x l IH]; intros s Hf Hs; [done|].
  cbn. unfold mbind, M_bind.
  specialize (Hf x s) as Hx. specialize (Hx ltac:(left) Hs).
  destruct (f x s) as [[] s1]; cbn in *; try done.
  apply IH; [|done]. intros y s2 Hy. apply Hf. by right.
Qed.

(** A preorder that the body respects relates the start of the loop to its
    end; and on success, every element was processed between the two. *)
Lemma forM_rel (R : S → S → Prop) `{!PreOrder R} (f : A → M S unit) l s :
  (∀ x s1, x ∈ l → R s1 (f x s1).2) → R s (forM_ l f s).2.
Proof.
  intros Hf. apply (forM_invariant (R s)); [|done].
  intros x s1 Hx Hs1. etrans; [done|]. by apply Hf.
Qed.

Lemma forM_Ok_cons (f : A → M S unit) x l s s' :
  forM_ (x :: l) f s = (Ok (), s') ↔
  ∃ s1, f x s = (Ok (), s1) ∧ forM_ l f s1 = (Ok (), s').
Proof.
  change (forM_ (x :: l) f s) with ((f x ≫= λ _, forM_ l f) s).
  rewrite M_bind_Ok. split.
  - intros ([] & s1 & ? & ?). eauto.
  - intros (s1 & ? & ?). by exists (), s1.
Qed.

Lemma forM_Ok_elem (R : S → S → Prop) `{!PreOrder R} (f : A → M S unit) l s s' x :
  (∀ x s1, x ∈ l → R s1 (f x s1).2) →
  forM_ l f s = (Ok (), s') → x ∈ l →
  ∃ s1 s2, R s s1 ∧ f x s1 = (Ok (), s2) ∧ R s2 s'.
Proof.
  revert s. induction l as [|y l IH]; intros s Hf Hrun Hx; [set_solver|].
  apply forM_Ok_cons in Hrun as (s1 & Hy & Hl).
  assert (∀ x s1, x ∈ l → R s1 (f x s1).2) as Hf'.
  { intros z sz Hz. apply Hf. by right. }
  apply elem_of_cons in Hx as [->|Hx].
  - exists s, s1. split_and!; [done|done|].
    pose proof (forM_rel R f l s1 Hf') as HR. by rewrite Hl in HR.
  - destruct (IH s1 Hf' Hl Hx) as (s2 & s3 & H12 & ? & ?).
    exists s2, s3. split_and!; [|done..]. etrans; [|exact H12].
    specialize (Hf y s). rewrite Hy in Hf. apply Hf. left.
Qed.
End Loops.

Definition newline : string := String.String "010"%char "".

(** ** Automation *)

Create HintDb devpod.

(** Invert the successful run of a chain of binds. *)
Ltac inv_ok :=
  repeat match goal with
  | H : mbind _ _ = Ok _ |- _ =>
      apply bind_Ok in H; destruct H as (? & ? & ?)
  | H : wrap _ _ = Ok _ |- _ => apply wrap_Ok in H
  | H : deref _ = Ok _ |- _ => apply deref_Ok in H
  | H : of_option _ _ = Ok _ |- _ => apply of_option_Ok in H
  | H : mbind _ _ _ = (Ok _, _) |- _ =>
      apply M_bind_Ok in H; destruct H as (? & ? & ? & ?)
  | H : mret _ = Ok _ |- _ => injection H as H
  | H : Ok _ = Ok _ |- _ => injection H as H
  | H : Err _ = Ok _ |- _ => discriminate H
  | H : Panic = Ok _ |- _ => discriminate H
  | H : NoFuel = Ok _ |- _ => discriminate H
  end.

(** Execute the leading primitive of a stateful computation. *)
Ltac runM :=
  repeat (first [ rewrite run_get | rewrite run_put | rewrite run_modify
                | rewrite run_throw | rewrite run_lift_Ok | rewrite run_ret ];
          cbv beta iota).

(** Split every [match] or [if] of the goal, keeping the equations. *)
Ltac split_matches :=
  repeat match goal with
  | |- context [match ?x with _ => _ end] =>
      lazymatch x with
      | context [match _ with _ => _ end] => fail
      | _ => destruct x eqn:?
      end
  end.

(** ** Generic lemmas on lists *)

Section Lists.
Context {A : Type}.
Implicit Types (l : list A) (x y : A).

Lemma NoDup_subset_length `{EqDecision A} l (k : list A) :
  NoDup l → l ⊆ k → length l ≤ length k.
Proof.
  intros Hnd Hsub. apply submseteq_length.
  by apply NoDup_submseteq.
Qed.

(** [List.find] returns the first match. *)
Lemma find_first (f : A → bool) l x :
  List.find f l = Some x →
  ∃ l1 l2, l = l1 ++ x :: l2 ∧ f x = true ∧ ∀ y, y ∈ l1 → f y = false.
Proof.
  induction l as [|y l IH]; cbn; [done|]. destruct (f y) eqn:Hy.
  - intros [= ->]. exists [], l. split_and!; [done..|]. set_solver.
  - intros (l1 & l2 & -> & ? & Hl1)%IH. exists (y :: l1), l2.
    split_and!; [done..|]. intros z [->|?]%elem_of_cons; auto.
Qed.

Lemma find_absent (f : A → bool) l :
  List.find f l = None → ∀ y, y ∈ l → f y = false.
Proof.
  intros H y Hy. eapply List.find_none; [done|]. by apply list_elem_of_In.
Qed.

Lemma filter_all (P : A → Prop) `{∀ x, Decision (P x)} l :
  (∀ x, x ∈ l → P x) → filter P l = l.
Proof.
  induction l as [|x l IH]; intros Hl; [done|].
  rewrite filter_cons_True by (apply Hl; left). f_equal. apply IH.
  intros y Hy. apply Hl. by right.
Qed.

Lemma elem_of_snoc l x y : x ∈ l ++ [y] ↔ x ∈ l ∨ x = y.
Proof. rewrite elem_of_app, list_elem_of_singleton. done. Qed.

Lemma NoDup_snoc l x : NoDup (l ++ [x]) ↔ NoDup l ∧ x ∉ l.
Proof.
  rewrite NoDup_app. split.
  - intros (? & Hx & _). split; [done|]. intros Hin.
    apply (Hx x Hin). by apply list_elem_of_singleton.
  - intros [? Hx]. split_and!; [done| |apply NoDup_singleton].
    intros y Hy ->%list_elem_of_singleton. done.
Qed.
Lemma list_filter_ext_in (P Q : A → Prop) `{∀ x, Decision (P x), ∀ x, Decision (Q x)} (l : list A) :
  (∀ x, x ∈ l → (P x ↔ Q x)) → filter P l = filter Q l.
Proof.
  induction l as [|x l IH]; intros Hl; [done|]. rewrite !filter_cons.
  rewrite IH by (intros y Hy; apply Hl; by right).
  specialize (Hl x ltac:(left)). repeat case_decide; tauto.
Qed.
End Lists.
