(* ===== verification/Graph.v ===== *)
(** * The dependency graph of pkg/devcontainer/graph/graph.go

    A [*Node] pointer is represented by the node's ID.  Every pointer the
    graph holds is to a node registered in [Nodes] under its own ID (the
    invariant [wf] below, kept by every operation), so the two are
    interchangeable; reading an ID that is not registered is a nil
    dereference, [Panic].

    The slice [Childs] is modelled with its backing array, because
    [RemoveNode] shifts that array in place while [RemoveSubGraph] and
    [deleteChildrenOf] are still ranging over it. *)

From S2P Require Import Prelude.
From stdpp Require Import base gmap sets list strings relations.

(** ** Slices that share a backing array *)

(** [sl_live] are the elements below the slice's length and [sl_stale] the
    elements of the array above it, left there by earlier removals. *)
Record slice := Slice { sl_live : list string; sl_stale : list string }.

Definition sl_nil : slice := Slice [] [].
Definition sl_array (s : slice) : list string := sl_live s ++ sl_stale s.

(** [append(s, x)] writes at the slice's length. *)
Definition sl_append (s : slice) (x : string) : slice :=
  Slice (sl_live s ++ [x]) (tail (sl_stale s)).

(** [append(s[:i], s[i+1:]...)] moves the elements after [i] one place down;
    the last array cell keeps its old content. *)
Definition sl_remove (i : nat) (s : slice) : slice :=
  Slice (delete i (sl_live s))
        (match last (sl_live s) with
         | Some x => x :: sl_stale s
         | None => sl_stale s
         end).

(** [i := -1; for idx, c := range l { if c.ID == id { i = idx } }] *)
Fixpoint last_index_from (n : nat) (id : string) (l : list string)
    (i : option nat) : option nat :=
  match l with
  | [] => i
  | c :: l' =>
      last_index_from (S n) id l' (if decide (c = id) then Some n else i)
  end.
Definition last_index (id : string) (l : list string) : option nat :=
  last_index_from 0 id l None.

(** ** Nodes and graphs *)

Section Model.
Context {T : Type}.

Record node := Node {
  node_id : string;
  node_data : T;
  node_parents : list string;
  node_childs : slice;
  node_done : bool;
}.

Record graph := Graph {
  g_nodes : gmap string node;
  g_root : string;
  g_item : string;
}.

Definition NewNode (id : string) (data : T) : node :=
  Node id data [] sl_nil false.

Definition NewGraphOf (root : node) (item : string) : graph :=
  Graph {[ node_id root := root ]} (node_id root) item.

Definition NewGraph (root : node) : graph := NewGraphOf root "".

Definition with_childs (n : node) (cs : slice) : node :=
  Node (node_id n) (node_data n) (node_parents n) cs (node_done n).
Definition with_parents (n : node) (ps : list string) : node :=
  Node (node_id n) (node_data n) ps (node_childs n) (node_done n).
Definition with_data (n : node) (d : T) : node :=
  Node (node_id n) d (node_parents n) (node_childs n) (node_done n).
Definition with_done (n : node) : node :=
  Node (node_id n) (node_data n) (node_parents n) (node_childs n) true.
Definition with_nodes (g : graph) (m : gmap string node) : graph :=
  Graph m (g_root g) (g_item g).

Definition childs (n : node) : list string := sl_live (node_childs n).

(** [Clone] copies nodes and edges with fresh slices; the [Done] flags are
    not copied. *)
Definition clone_node (n : node) : node :=
  Node (node_id n) (node_data n) (node_parents n) (Slice (childs n) []) false.
Definition Clone (g : graph) : graph :=
  with_nodes g (clone_node <$> g_nodes g).

(** [GetNextLeaf] follows first children; the fuel bounds the path. *)
Fixpoint GetNextLeaf (fuel : nat) (g : graph) (start : string)
    : result string :=
  match fuel with
  | 0 => NoFuel
  | S f =>
      n ← deref (g_nodes g !! start);
      match childs n with
      | [] => Ok start
      | c :: _ => GetNextLeaf f g c
      end
  end.

Definition remove_from_parent (id p : string) : M graph unit :=
  g ← getS;
  parent ← liftR (deref (g_nodes g !! p));
  match last_index id (childs parent) with
  | None => throw ("couldn't find " +:+ id +:+ " in parent")
  | Some i =>
      putS (with_nodes g
        (<[p := with_childs parent (sl_remove i (node_childs parent))]>
           (g_nodes g)))
  end.

Definition RemoveNode (id : string) : M graph unit :=
  g ← getS;
  match g_nodes g !! id with
  | None => mret ()
  | Some n =>
      match childs n with
      | _ :: _ =>
          throw ("Cannot remove " +:+ id +:+
                 " from graph because it has still children")
      | [] =>
          forM_ (node_parents n) (remove_from_parent id) ≫= λ _,
          modifyS (λ g', with_nodes g' (delete id (g_nodes g')))
      end
  end.

(** One pass of a [for _, child := range node.Childs] loop whose body
    removes nodes: the length is fixed when the loop starts, the elements
    are read from the shared backing array when they are reached. *)
Definition range_child (id : string) (i : nat) (body : string → M graph unit)
    : M graph unit :=
  g ← getS;
  n ← liftR (deref (g_nodes g !! id));
  c ← liftR (deref (sl_array (node_childs n) !! i));
  body c.

Fixpoint RemoveSubGraph (fuel : nat) (id : string) : M graph unit :=
  match fuel with
  | 0 => liftR NoFuel
  | S f =>
      g ← getS;
      match g_nodes g !! id with
      | None => mret ()
      | Some n =>
          forM_ (seq 0 (length (childs n)))
                (λ i, range_child id i (RemoveSubGraph f)) ≫= λ _,
          RemoveNode id
      end
  end.

(** The depth-first search behind the cycle check.  [vis] is the set of
    nodes on the current path, [path] the list built along it. *)
Fixpoint visit_children
    (rec : string → gset string → list string →
           result (bool * gset string * list string))
    (u : string) (cs : list string) (vis : gset string) (path : list string)
    : result (bool * gset string * list string) :=
  match cs with
  | [] => Ok (false, vis ∖ {[u]}, path)
  | c :: cs' =>
      if decide (c ∈ vis) then visit_children rec u cs' vis path
      else
        match rec c vis (path ++ [c]) with
        | Ok (true, vis', path') => Ok (true, vis', path')
        | Ok (false, vis', path') =>
            visit_children rec u cs' vis'
              (match last_index c path' with
               | Some i => delete i path'
               | None => path'
               end)
        | Err e => Err e
        | Panic => Panic
        | NoFuel => NoFuel
        end
  end.

Fixpoint findFirstPathRecursive (fuel : nat) (g : graph) (d u : string)
    (vis : gset string) (path : list string)
    : result (bool * gset string * list string) :=
  match fuel with
  | 0 => NoFuel
  | S f =>
      let vis := {[u]} ∪ vis in
      if decide (u = d) then Ok (true, vis, path)
      else
        n ← deref (g_nodes g !! u);
        visit_children (findFirstPathRecursive f g d) u (childs n) vis path
  end.

Definition findFirstPath (fuel : nat) (g : graph) (from to : string)
    : result (option (list string)) :=
  '(found, _, path) ← findFirstPathRecursive fuel g to from ∅ [from];
  Ok (if found : bool then Some path else None).

(** [CyclicError.Error] *)
Definition CyclicError_Error (what : string) (path : list string) : string :=
  let what := if decide (what = "") then "dependency" else what in
  "cyclic " +:+ what +:+ " found: " +:+ newline +:+
  String.concat newline
    (default "" (last path) :: path).

Definition search_fuel (g : graph) : nat := S (size (g_nodes g)).

Definition AddEdge (fromID toID : string) : M graph unit :=
  g ← getS;
  match g_nodes g !! fromID with
  | None => throw ("fromID " +:+ fromID +:+ " does not exist")
  | Some from =>
      match g_nodes g !! toID with
      | None => throw ("toID " +:+ toID +:+ " does not exist")
      | Some to =>
          if decide (toID ∈ childs from) then mret ()
          else
            path ← liftR (findFirstPath (search_fuel g) g toID fromID);
            match path with
            | Some p => throw (CyclicError_Error (g_item g) p)
            | None =>
                let m := <[fromID := with_childs from
                             (sl_append (node_childs from) toID)]>
                           (g_nodes g) in
                putS (with_nodes g
                  (alter (λ n, with_parents n (node_parents n ++ [fromID]))
                         toID m))
            end
      end
  end.

Definition AddChild (parentID childID : string) : M graph unit :=
  AddEdge parentID childID.

Definition InsertNodeAt (parentID id : string) (data : T) : M graph string :=
  g ← getS;
  match g_nodes g !! parentID with
  | None => throw ("Parent " +:+ parentID +:+ " does not exist")
  | Some parent =>
      match g_nodes g !! id with
      | Some _ => AddEdge parentID id ≫= λ _, mret id
      | None =>
          let n := with_parents (NewNode id data) [parentID] in
          putS (with_nodes g
            (<[parentID := with_childs parent
                 (sl_append (node_childs parent) id)]>
              (<[id := n]> (g_nodes g)))) ≫= λ _,
          mret id
      end
  end.

(** The loop shared by [NextFromTop] and [computeAutomaticFeatureOrder]:
    take the next leaf below the root, remove it, repeat until the root is
    the only node left. *)
Fixpoint drain (fuel : nat) : M graph (list string) :=
  match fuel with
  | 0 => liftR NoFuel
  | S f =>
      g ← getS;
      leaf ← liftR (GetNextLeaf (search_fuel g) g (g_root g));
      if decide (leaf = g_root g) then mret []
      else
        RemoveNode leaf ≫= λ _,
        rest ← drain f;
        mret (leaf :: rest)
  end.

Definition is_pending (g : graph) (id : string) : bool :=
  match g_nodes g !! id with
  | Some n => negb (node_done n)
  | None => false
  end.

Definition mark_done (g : graph) (id : string) : graph :=
  with_nodes g (alter with_done id (g_nodes g)).

Definition NextFromTop : M graph (option string) := λ g,
  match (drain (search_fuel g) (Clone g)).1 with
  | Ok ordered =>
      match List.find (is_pending g) (reverse ordered) with
      | Some id => (Ok (Some id), mark_done g id)
      | None => (Ok None, g)
      end
  | Err _ => (Ok None, g)
  | Panic => (Panic, g)
  | NoFuel => (NoFuel, g)
  end.
End Model.

Arguments node : clear implicits.
Arguments graph : clear implicits.
#[global] Arguments search_fuel : simpl never.
