(* ===== verification/GraphFacts.v ===== *)
(** * Facts about the dependency graph

    The well-formedness invariant of [Graph.graph], that every operation of
    graph.go keeps it, the correctness of the cycle check, and the order in
    which nodes are handed out. *)

From S2P Require Import Prelude Graph.
From stdpp Require Import base gmap sets list strings relations.

(** ** Slices *)

Lemma last_index_from_spec n id l i :
  last_index_from n id l i = i ∧ id ∉ l ∨
  ∃ j, last_index_from n id l i = Some (n + j) ∧ l !! j = Some id.
Proof.
  revert n i. induction l as [|c l IH]; intros n i; [left; set_solver|]. cbn.
  destruct (IH (S n) (if decide (c = id) then Some n else i))
    as [[-> Hni]|(j & -> & Hj)].
  - case_decide as Hc.
    + right. exists 0. rewrite Nat.add_0_r. naive_solver.
    + left. set_solver.
  - right. exists (S j). split; [f_equal; lia|done].
Qed.

Lemma last_index_None id l : last_index id l = None ↔ id ∉ l.
Proof.
  unfold last_index.
  destruct (last_index_from_spec 0 id l None) as [[-> ?]|(j & -> & Hj)]; [done|].
  split; [done|]. intros []. by eapply list_elem_of_lookup_2.
Qed.

Lemma last_index_Some id l i : last_index id l = Some i → l !! i = Some id.
Proof.
  unfold last_index.
  destruct (last_index_from_spec 0 id l None) as [[-> ?]|(j & -> & Hj)]; [done|].
  cbn. naive_solver.
Qed.

Lemma elem_of_delete_NoDup (l : list string) i x y :
  NoDup l → l !! i = Some x → y ∈ delete i l ↔ y ∈ l ∧ y ≠ x.
Proof.
  intros Hnd Hi. rewrite <-(take_drop_middle l i x Hi) in Hnd |- * at 2.
  rewrite delete_take_drop.
  apply NoDup_app in Hnd as (Ht & Htd & Hd). apply NoDup_cons in Hd as [Hxd Hd].
  rewrite !elem_of_app, elem_of_cons. split.
  - intros [Hy|Hy]; (split; [tauto|]); intros ->; set_solver.
  - naive_solver.
Qed.

Lemma NoDup_delete_list (l : list string) i : NoDup l → NoDup (delete i l).
Proof. intros Hnd. eapply sublist_NoDup; [exact Hnd|apply sublist_delete]. Qed.

Lemma tc_flip {A} (R : relation A) x y : tc (flip R) x y → tc R y x.
Proof. induction 1; [by apply tc_once|]. by eapply tc_r. Qed.

Lemma last_index_snoc id l : last_index id (l ++ [id]) = Some (length l).
Proof.
  enough (∀ n i, last_index_from n id (l ++ [id]) i = Some (n + length l)) as H
    by apply H.
  induction l as [|c l IH]; intros n i; cbn.
  - rewrite decide_True by done. f_equal; lia.
  - rewrite IH. f_equal; lia.
Qed.

Lemma delete_snoc {A} (l : list A) x : delete (length l) (l ++ [x]) = l.
Proof.
  rewrite delete_take_drop, take_app_length, drop_ge; [by rewrite app_nil_r|].
  rewrite length_app. cbn. lia.
Qed.

(** [p] lists the nodes visited after [u] on a path from [u] to [d]. *)
Fixpoint chain {A} (R : relation A) (u : A) (p : list A) (d : A) : Prop :=
  match p with
  | [] => u = d
  | c :: p' => R u c ∧ chain R c p' d
  end.

Lemma chain_rtc {A} (R : relation A) u p d : chain R u p d → rtc R u d.
Proof.
  revert u. induction p as [|c p IH]; intros u; cbn; [by intros ->|].
  intros [??]. eapply rtc_l; eauto.
Qed.

Section Facts.
Context {T : Type}.
Implicit Types (g : graph T) (n : node T).

(** ** Edges and the invariant *)

Definition edge g (a b : string) : Prop :=
  ∃ n, g_nodes g !! a = Some n ∧ b ∈ childs n.

Record core g : Prop := {
  wf_id : ∀ k n, g_nodes g !! k = Some n → node_id n = k;
  wf_child : ∀ a b, edge g a b →
    ∃ nb, g_nodes g !! b = Some nb ∧ a ∈ node_parents nb;
  wf_parent : ∀ a b nb,
    g_nodes g !! b = Some nb → a ∈ node_parents nb → edge g a b;
  wf_nodup_childs : ∀ k n, g_nodes g !! k = Some n → NoDup (childs n);
  wf_nodup_parents : ∀ k n, g_nodes g !! k = Some n → NoDup (node_parents n);
  wf_acyclic : ∀ a, ¬ tc (edge g) a a;
  wf_root : is_Some (g_nodes g !! g_root g);
}.

(** [core], and every node but the root has a parent. *)
Record wf g : Prop := {
  wf_core : core g;
  wf_attached : ∀ k n,
    g_nodes g !! k = Some n → k ≠ g_root g → node_parents n ≠ [];
}.

Lemma edge_Some g a b : edge g a b → is_Some (g_nodes g !! a).
Proof. intros (n & ? & ?). eauto. Qed.

Lemma wf_edge_target g a b : core g → edge g a b → is_Some (g_nodes g !! b).
Proof. intros Hc (nb & ? & ?)%(wf_child g Hc). eauto. Qed.

Lemma wf_rtc_target g a b :
  core g → is_Some (g_nodes g !! a) → rtc (edge g) a b →
  is_Some (g_nodes g !! b).
Proof. intros Hc Ha Hab. induction Hab; eauto using wf_edge_target. Qed.

Lemma tc_target_in_dom g a b : core g → tc (edge g) a b → b ∈ dom (g_nodes g).
Proof.
  intros Hc Hab. rewrite elem_of_dom.
  induction Hab; eauto using wf_edge_target.
Qed.

Lemma wf_no_self_edge g a : core g → ¬ edge g a a.
Proof. intros Hc He. eapply wf_acyclic; [done|]. by apply tc_once. Qed.

(** ** Fuel

    [bounded f x]: every node strictly below [x] lies in a set of fewer
    than [f] nodes.  One step down an edge of an acyclic graph uses up at
    least one of them. *)

Definition bounded g (f : nat) (x : string) : Prop :=
  ∃ S : gset string, (∀ y, tc (edge g) x y → y ∈ S) ∧ size S < f.

Lemma bounded_child g f x c :
  (∀ a, ¬ tc (edge g) a a) → bounded g (S f) x → edge g x c → bounded g f c.
Proof.
  intros Hac (S & HS & Hsz) Hxc. exists (S ∖ {[c]}). split.
  - intros y Hy. apply elem_of_difference. split.
    + apply HS. by eapply tc_l.
    + intros ->%elem_of_singleton. by eapply Hac.
  - assert (c ∈ S) by (by apply HS, tc_once).
    rewrite size_difference by set_solver. rewrite size_singleton.
    assert (size S ≠ 0); [|lia].
    intros ?%size_empty_inv. set_solver.
Qed.

Lemma bounded_search_fuel g x : core g → bounded g (search_fuel g) x.
Proof.
  intros Hc. exists (dom (g_nodes g)). split.
  - intros y. by apply tc_target_in_dom.
  - unfold search_fuel. rewrite size_dom. lia.
Qed.

Lemma bounded_positive g f x : bounded g f x → f ≠ 0.
Proof. intros (S & ? & ?). lia. Qed.

(** Every node hangs below the root. *)
Lemma wf_sn_up g x : core g → sn (flip (edge g)) x.
Proof.
  intros Hc. apply tc_finite_sn.
  - intros a Ha. eapply wf_acyclic; [done|]. by apply tc_flip in Ha.
  - exists (elements (dom (g_nodes g))). intros y Hy%tc_flip.
    apply elem_of_elements, elem_of_dom. inversion Hy; subst;
      eauto using edge_Some.
Qed.

Lemma wf_reachable g k :
  wf g → is_Some (g_nodes g !! k) → rtc (edge g) (g_root g) k.
Proof.
  intros [Hc Hatt]. induction (wf_sn_up g k Hc) as [k _ IH]. intros [n Hk].
  destruct (decide (k = g_root g)) as [->|Hne]; [done|].
  destruct (node_parents n) as [|p ps] eqn:Hp.
  { by eapply Hatt in Hp. }
  assert (edge g p k) as He.
  { eapply wf_parent; [done..|]. rewrite Hp. left. }
  eapply rtc_r; [|done]. apply IH; [done|]. by eapply edge_Some.
Qed.

Lemma wf_root_no_parent g a : wf g → ¬ edge g a (g_root g).
Proof.
  intros Hwf He. eapply (wf_acyclic g (wf_core g Hwf) (g_root g)), tc_rtc_l.
  - apply wf_reachable; [done|]. by eapply edge_Some.
  - by apply tc_once.
Qed.

(** ** The cycle check *)

Definition search_spec g (d u : string) (vis : gset string) (path : list string)
    (r : result (bool * gset string * list string)) : Prop :=
  (∃ vis' p, r = Ok (true, vis', path ++ p) ∧ chain (edge g) u p d) ∨
  (r = Ok (false, vis, path) ∧ ¬ rtc (edge g) u d).

Lemma visit_children_spec g d u rec (vis : gset string) :
  core g →
  (∀ v, v ∈ vis → tc (edge g) v u) →
  (∀ c path, edge g u c →
     search_spec g d c ({[u]} ∪ vis) path (rec c ({[u]} ∪ vis) path)) →
  ∀ cs path,
  (∀ c, c ∈ cs → edge g u c) →
  (∃ vis' p, visit_children rec u cs ({[u]} ∪ vis) path
               = Ok (true, vis', path ++ p) ∧ p ≠ [] ∧ chain (edge g) u p d) ∨
  (visit_children rec u cs ({[u]} ∪ vis) path = Ok (false, vis, path) ∧
   ∀ c, c ∈ cs → ¬ rtc (edge g) c d).
Proof.
  intros Hc Hvis Hrec. induction cs as [|c cs IH]; intros path Hcs; cbn.
  - right. split; [|set_solver]. do 3 f_equal.
    assert (u ∉ vis) by (intros Hu; by eapply wf_acyclic, Hvis). set_solver.
  - assert (edge g u c) as Huc by (apply Hcs; left).
    rewrite decide_False; last first.
    { intros [->%elem_of_singleton|Hcv%Hvis]%elem_of_union.
      - by eapply wf_no_self_edge.
      - by eapply (wf_acyclic g Hc c), tc_r. }
    destruct (Hrec c (path ++ [c]) Huc) as [(vis' & p & -> & Hp)|[-> Hn]].
    + left. exists vis', (c :: p). rewrite <-app_assoc. cbn. naive_solver.
    + rewrite last_index_snoc, delete_snoc.
      destruct (IH path) as [?|[-> ?]]; [set_solver|by left|].
      right. split; [done|]. set_solver.
Qed.

Lemma findFirstPathRecursive_spec g d : core g → ∀ f u vis path,
  is_Some (g_nodes g !! u) → bounded g f u →
  (∀ v, v ∈ vis → tc (edge g) v u) →
  search_spec g d u vis path (findFirstPathRecursive f g d u vis path).
Proof.
  intros Hc. induction f as [|f IH]; intros u vis path Hu Hb Hvis.
  { by apply bounded_positive in Hb. }
  cbn. case_decide as Hd.
  { left. exists ({[u]} ∪ vis), []. by rewrite app_nil_r. }
  destruct Hu as [n Hn]. rewrite Hn. cbn.
  destruct (visit_children_spec g d u (findFirstPathRecursive f g d) vis Hc
              Hvis) with (cs := childs n) (path := path)
    as [(vis' & p & -> & _ & Hp)|[-> Hno]].
  - intros c path' Huc. apply IH.
    + by eapply wf_edge_target.
    + by eapply bounded_child; [apply wf_acyclic|..].
    + intros v [->%elem_of_singleton|Hv%Hvis]%elem_of_union;
        [by apply tc_once|by eapply tc_r].
  - intros c Hin. by exists n.
  - left. eauto.
  - right. split; [done|]. intros [->|(c & Huc & Hcd)]%rtc_inv; [done|].
    destruct Huc as (n' & Hn' & Hin). naive_solver.
Qed.

Lemma findFirstPath_spec g from to :
  core g → is_Some (g_nodes g !! from) →
  (∃ p, findFirstPath (search_fuel g) g from to = Ok (Some (from :: p)) ∧
        chain (edge g) from p to) ∨
  (findFirstPath (search_fuel g) g from to = Ok None ∧
   ¬ rtc (edge g) from to).
Proof.
  intros Hc Hf. unfold findFirstPath.
  destruct (findFirstPathRecursive_spec g to Hc (search_fuel g) from ∅ [from])
    as [(vis' & p & -> & Hp)|[-> Hn]]; cbn; eauto.
  - by apply bounded_search_fuel.
  - set_solver.
Qed.
(** ** Adding an edge *)

(** The effect on node [k] of adding the edge [a -> b]. *)
Definition link (a b k : string) n : node T :=
  let n1 := if decide (k = a) then with_childs n (sl_append (node_childs n) b)
            else n in
  if decide (k = b) then with_parents n1 (node_parents n1 ++ [a]) else n1.

Definition linked g (a b : string) (m : gmap string (node T)) : Prop :=
  ∀ k, m !! k = link a b k <$> g_nodes g !! k.

Lemma link_id a b k n : node_id (link a b k n) = node_id n.
Proof. unfold link. by repeat case_decide. Qed.

Lemma link_data a b k n : node_data (link a b k n) = node_data n.
Proof. unfold link. by repeat case_decide. Qed.

Lemma link_done a b k n : node_done (link a b k n) = node_done n.
Proof. unfold link. by repeat case_decide. Qed.

Lemma link_childs a b k n :
  childs (link a b k n) = childs n ++ (if decide (k = a) then [b] else []).
Proof.
  unfold link, childs. repeat case_decide; cbn; by rewrite ?app_nil_r.
Qed.

Lemma link_parents a b k n :
  node_parents (link a b k n) =
  node_parents n ++ (if decide (k = b) then [a] else []).
Proof. unfold link. repeat case_decide; cbn; by rewrite ?app_nil_r. Qed.

Lemma linked_lookup g a b m k n' :
  linked g a b m → m !! k = Some n' →
  ∃ n, g_nodes g !! k = Some n ∧ n' = link a b k n.
Proof. intros Hl. rewrite Hl. rewrite fmap_Some. naive_solver. Qed.

Lemma linked_edge g a b m x y :
  is_Some (g_nodes g !! a) → linked g a b m →
  edge (with_nodes g m) x y ↔ edge g x y ∨ x = a ∧ y = b.
Proof.
  intros [na Ha] Hl. split.
  - intros (n' & Hn' & Hy). cbn in Hn'.
    destruct (linked_lookup _ _ _ _ _ _ Hl Hn') as (n & Hn & ->).
    rewrite link_childs in Hy. apply elem_of_app in Hy as [Hy|Hy].
    + left. by exists n.
    + case_decide; set_solver.
  - intros [(n & Hn & Hy)|[-> ->]].
    + exists (link a b x n). cbn. rewrite Hl, Hn. split; [done|].
      rewrite link_childs. set_solver.
    + exists (link a b a na). cbn. rewrite Hl, Ha. split; [done|].
      rewrite link_childs, decide_True by done. set_solver.
Qed.

(** A path of the new graph either avoids the new edge or uses it. *)
Lemma linked_tc g a b m x y :
  is_Some (g_nodes g !! a) → linked g a b m →
  tc (edge (with_nodes g m)) x y →
  tc (edge g) x y ∨ rtc (edge g) x a ∧ rtc (edge g) b y.
Proof.
  intros Ha Hl Hxy.
  induction Hxy as [x y Hxy|x y z Hxy _ IH];
    apply (linked_edge g a b m _ _ Ha Hl) in Hxy as [Hxy|[-> ->]].
  - left. by apply tc_once.
  - by right.
  - destruct IH as [?|[??]]; [left; by eapply tc_l|].
    right. split; [by eapply rtc_l|done].
  - right. split; [done|]. destruct IH as [?|[??]]; [by apply tc_rtc|done].
Qed.

Lemma linked_core g a b m :
  core g → is_Some (g_nodes g !! a) → is_Some (g_nodes g !! b) →
  ¬ rtc (edge g) b a → ¬ edge g a b → linked g a b m →
  core (with_nodes g m).
Proof.
  intros Hc Ha Hb Hba Hab Hl.
  assert (∀ k n', m !! k = Some n' →
            ∃ n, g_nodes g !! k = Some n ∧ n' = link a b k n) as Hm
    by (intros; by eapply linked_lookup).
  split; cbn.
  - intros k n' (n & Hn & ->)%Hm. rewrite link_id. by eapply wf_id.
  - intros x y Hxy. apply (linked_edge g a b m _ _ Ha Hl) in Hxy as [Hxy|[-> ->]].
    + destruct (wf_child g Hc x y Hxy) as (ny & Hny & Hx).
      exists (link a b y ny). rewrite Hl, Hny. split; [done|].
      rewrite link_parents. set_solver.
    + destruct Hb as [nb Hb]. exists (link a b b nb). rewrite Hl, Hb.
      split; [done|]. rewrite link_parents, decide_True by done. set_solver.
  - intros x y ny' (ny & Hny & ->)%Hm. rewrite link_parents.
    intros Hx. apply (linked_edge g a b m _ _ Ha Hl).
    apply elem_of_app in Hx as [Hx|Hx]; [left; by eapply wf_parent|].
    case_decide; set_solver.
  - intros k n' (n & Hn & ->)%Hm. rewrite link_childs. case_decide; subst.
    + apply NoDup_snoc. split; [by eapply wf_nodup_childs|].
      intros ?. apply Hab. by exists n.
    + rewrite app_nil_r. by eapply wf_nodup_childs.
  - intros k n' (n & Hn & ->)%Hm. rewrite link_parents. case_decide; subst.
    + apply NoDup_snoc. split; [by eapply wf_nodup_parents|].
      intros ?. apply Hab. by eapply wf_parent.
    + rewrite app_nil_r. by eapply wf_nodup_parents.
  - intros x Hx. apply (linked_tc g a b m _ _ Ha Hl) in Hx as [Hx|[??]].
    + by eapply wf_acyclic.
    + apply Hba. by etrans.
  - rewrite Hl. destruct (wf_root g Hc) as [r ->]. by eexists.
Qed.

Lemma linked_wf g a b m :
  wf g → is_Some (g_nodes g !! a) → is_Some (g_nodes g !! b) →
  ¬ rtc (edge g) b a → ¬ edge g a b → linked g a b m → wf (with_nodes g m).
Proof.
  intros [Hc Hatt] Ha Hb Hba Hab Hl. split; [by apply (linked_core g a b)|].
  intros k n' Hn' Hk Hp. cbn in *.
  destruct (linked_lookup _ _ _ _ _ _ Hl Hn') as (n & Hn & ->).
  rewrite link_parents in Hp. apply app_nil in Hp as [Hp _].
  by eapply Hatt.
Qed.

(** [AddEdge] on every branch. *)
Inductive AddEdge_result g (a b : string) : result unit * graph T → Prop :=
| add_no_from :
    g_nodes g !! a = None →
    AddEdge_result g a b (Err ("fromID " +:+ a +:+ " does not exist"), g)
| add_no_to :
    is_Some (g_nodes g !! a) → g_nodes g !! b = None →
    AddEdge_result g a b (Err ("toID " +:+ b +:+ " does not exist"), g)
| add_present :
    edge g a b → is_Some (g_nodes g !! b) → AddEdge_result g a b (Ok (), g)
| add_cyclic p :
    is_Some (g_nodes g !! a) → is_Some (g_nodes g !! b) →
    ¬ edge g a b → chain (edge g) b p a →
    AddEdge_result g a b (Err (CyclicError_Error (g_item g) (b :: p)), g)
| add_new m :
    is_Some (g_nodes g !! a) → is_Some (g_nodes g !! b) →
    ¬ edge g a b → ¬ rtc (edge g) b a → linked g a b m →
    AddEdge_result g a b (Ok (), with_nodes g m).

Lemma AddEdge_spec g a b : core g → AddEdge_result g a b (AddEdge a b g).
Proof.
  intros Hc. unfold AddEdge. runM.
  destruct (g_nodes g !! a) as [na|] eqn:Ha; [|by constructor].
  destruct (g_nodes g !! b) as [nb|] eqn:Hb; [|by constructor; eauto].
  case_decide as Hin.
  { apply add_present; [by exists na|by eauto]. }
  assert (¬ edge g a b) as Hab by (intros (n' & ? & ?); simplify_eq; done).
  destruct (findFirstPath_spec g b a) as [(p & -> & Hp)|[-> Hn]];
    [done|by eauto|..]; runM.
  - apply add_cyclic; eauto.
  - apply add_new; eauto. intros k.
    assert (a ≠ b) by (intros ->; done). unfold link.
    destruct (decide (k = b)) as [->|Hkb].
    + rewrite lookup_alter_eq, lookup_insert_ne, Hb by done. cbn.
      by rewrite decide_False by done.
    + rewrite lookup_alter_ne by done. destruct (decide (k = a)) as [->|Hka].
      * rewrite lookup_insert_eq, Ha. done.
      * rewrite lookup_insert_ne by done. by destruct (g_nodes g !! k).
Qed.
Lemma AddEdge_wf g a b : wf g → wf (AddEdge a b g).2.
Proof.
  intros Hwf.
  destruct (AddEdge_spec g a b (wf_core g Hwf)); cbn; [done..|].
  by apply (linked_wf g a b).
Qed.

(** ** Inserting a node *)

Definition isolated g (id : string) (data : T) : graph T :=
  with_nodes g (<[id := NewNode id data]> (g_nodes g)).

Lemma isolated_edge g id data x y :
  g_nodes g !! id = None → edge (isolated g id data) x y ↔ edge g x y.
Proof.
  intros Hid. unfold edge, isolated. cbn. split.
  - intros (n & Hn & Hy). destruct (decide (x = id)) as [->|].
    + rewrite lookup_insert_eq in Hn. simplify_eq. cbn in Hy. set_solver.
    + rewrite lookup_insert_ne in Hn by done. eauto.
  - intros (n & Hn & Hy). exists n. split; [|done].
    rewrite lookup_insert_ne by congruence. done.
Qed.

Lemma isolated_core g id data :
  core g → g_nodes g !! id = None → core (isolated g id data).
Proof.
  intros Hc Hid.
  assert (∀ k n, g_nodes (isolated g id data) !! k = Some n →
            k = id ∧ n = NewNode id data ∨ g_nodes g !! k = Some n) as Hl.
  { intros k n. cbn. rewrite lookup_insert. case_decide; naive_solver. }
  assert (∀ k n, g_nodes g !! k = Some n →
            g_nodes (isolated g id data) !! k = Some n) as Hr.
  { intros k n Hk. cbn. rewrite lookup_insert_ne by congruence. done. }
  split.
  - intros k n [[-> ->]|Hk]%Hl; [done|by eapply wf_id].
  - intros x y (n & ? & ?)%isolated_edge%wf_child; [|done..]. eauto.
  - intros x y n [[-> ->]|Hy]%Hl Hx; cbn in Hx; [set_solver|].
    apply isolated_edge; [done|]. by eapply wf_parent.
  - intros k n [[-> ->]|Hk]%Hl; [constructor|by eapply wf_nodup_childs].
  - intros k n [[-> ->]|Hk]%Hl; [constructor|by eapply wf_nodup_parents].
  - intros x Hx. eapply (wf_acyclic g Hc x).
    apply (tc_congruence (λ k, k)) with (R' := edge g) in Hx; [done|].
    intros a b. by apply isolated_edge.
  - destruct (wf_root g Hc) as [r Hroot]. exists r. by apply Hr.
Qed.

Inductive InsertNodeAt_result g (p id : string) (data : T)
  : result string * graph T → Prop :=
| ins_no_parent :
    g_nodes g !! p = None →
    InsertNodeAt_result g p id data
      (Err ("Parent " +:+ p +:+ " does not exist"), g)
| ins_existing r g' :
    is_Some (g_nodes g !! p) → is_Some (g_nodes g !! id) →
    AddEdge_result g p id (r, g') →
    InsertNodeAt_result g p id data ((λ _, id) <$> r, g')
| ins_new m :
    is_Some (g_nodes g !! p) → g_nodes g !! id = None →
    linked (isolated g id data) p id m →
    InsertNodeAt_result g p id data (Ok id, with_nodes g m).

Lemma InsertNodeAt_spec g p id data :
  core g → InsertNodeAt_result g p id data (InsertNodeAt p id data g).
Proof.
  intros Hc. unfold InsertNodeAt. runM.
  destruct (g_nodes g !! p) as [np|] eqn:Hp; [|by constructor].
  destruct (g_nodes g !! id) as [n|] eqn:Hid.
  - pose proof (AddEdge_spec g p id Hc) as Hadd.
    destruct (AddEdge p id g) as [r g'] eqn:Heq.
    assert ((AddEdge p id ≫= λ _, mret id) g = ((λ _, id) <$> r, g')) as ->.
    { unfold mbind, M_bind. rewrite Heq. by destruct r. }
    apply ins_existing; eauto.
  - runM. apply ins_new; [by eauto|done|]. intros k.
    assert (p ≠ id) by congruence. unfold link, isolated. cbn.
    destruct (decide (k = p)) as [->|Hkp].
    + rewrite lookup_insert_eq, lookup_insert_ne, Hp by done. cbn.
      by rewrite decide_False by done.
    + rewrite !(lookup_insert_ne _ p) by done.
      destruct (decide (k = id)) as [->|Hki].
      * rewrite !lookup_insert_eq. done.
      * rewrite !lookup_insert_ne by done. by destruct (g_nodes g !! k).
Qed.

Lemma InsertNodeAt_wf g p id data :
  wf g → wf (InsertNodeAt p id data g).2.
Proof.
  intros Hwf. pose proof (InsertNodeAt_spec g p id data (wf_core g Hwf)) as Hr.
  destruct Hr as [|r g' _ _ Hadd|m Hp Hid Hl]; cbn; [done|..].
  - inversion Hadd; subst; [done..|]. by apply (linked_wf g p id).
  - assert (p ≠ id) by (intros ->; destruct Hp; congruence).
    assert (is_Some (g_nodes (isolated g id data) !! p)).
    { cbn. by rewrite lookup_insert_ne. }
    assert (∀ y, ¬ edge (isolated g id data) id y).
    { intros y Hy%isolated_edge; [|done].
      apply edge_Some in Hy as [??]. congruence. }
    split.
    + eapply (linked_core (isolated g id data) p id m); try done.
      * by apply isolated_core, Hid; apply wf_core.
      * cbn. rewrite lookup_insert_eq. eauto.
      * intros [?|(y & Hy & _)]%rtc_inv; naive_solver.
      * intros He%isolated_edge%wf_child; [|by apply wf_core|done].
        destruct He as (? & ? & ?). congruence.
    + intros k n' Hk Hne Hnil. cbn in *.
      destruct (linked_lookup _ _ _ _ _ _ Hl Hk) as (n & Hn & ->).
      rewrite link_parents in Hnil. apply app_nil in Hnil as [Hnil Hif].
      cbn in Hn. rewrite lookup_insert in Hn. case_decide; [subst; by case_decide|].
      by eapply wf_attached.
Qed.

Lemma NewGraphOf_wf (root : node T) item :
  node_parents root = [] → childs root = [] → wf (NewGraphOf root item).
Proof.
  intros Hp Hcs.
  assert (∀ k n, g_nodes (NewGraphOf root item) !! k = Some n →
            k = node_id root ∧ n = root) as Hl.
  { intros k n. cbn. rewrite lookup_singleton. case_decide; naive_solver. }
  assert (∀ x y, ¬ edge (NewGraphOf root item) x y) as He.
  { intros x y (n & [-> ->]%Hl & Hy). rewrite Hcs in Hy. set_solver. }
  split; [split|].
  - intros k n [-> ->]%Hl. done.
  - intros x y []%He.
  - intros x y n [-> ->]%Hl Hx. rewrite Hp in Hx. set_solver.
  - intros k n [-> ->]%Hl. rewrite Hcs. constructor.
  - intros k n [-> ->]%Hl. rewrite Hp. constructor.
  - intros x Hx. inversion Hx; by eapply He.
  - cbn. rewrite lookup_singleton_eq. eauto.
  - intros k n [-> ->]%Hl. done.
Qed.

(** ** Removing a node *)

Definition drop_child (id : string) n : node T :=
  match last_index id (childs n) with
  | Some i => with_childs n (sl_remove i (node_childs n))
  | None => n
  end.

Lemma drop_child_elem id n y :
  NoDup (childs n) → y ∈ childs (drop_child id n) ↔ y ∈ childs n ∧ y ≠ id.
Proof.
  intros Hnd. unfold drop_child. destruct (last_index id (childs n)) as [i|] eqn:Hi.
  - apply elem_of_delete_NoDup; [done|]. by apply last_index_Some.
  - apply last_index_None in Hi. naive_solver.
Qed.

Lemma drop_child_NoDup id n : NoDup (childs n) → NoDup (childs (drop_child id n)).
Proof.
  intros Hnd. unfold drop_child.
  destruct (last_index id (childs n)); [by apply NoDup_delete_list|done].
Qed.

Lemma drop_child_frame id n :
  node_id (drop_child id n) = node_id n ∧
  node_data (drop_child id n) = node_data n ∧
  node_parents (drop_child id n) = node_parents n ∧
  node_done (drop_child id n) = node_done n.
Proof. unfold drop_child. by destruct (last_index id (childs n)). Qed.

Lemma remove_from_parent_run g id p n :
  g_nodes g !! p = Some n → id ∈ childs n →
  remove_from_parent id p g =
  (Ok (), with_nodes g (alter (drop_child id) p (g_nodes g))).
Proof.
  intros Hp Hin. unfold remove_from_parent. runM. rewrite Hp. cbn [deref].
  runM. destruct (last_index id (childs n)) as [i|] eqn:Hi.
  - unfold putS. f_equal. f_equal. apply map_eq. intros k.
    destruct (decide (k = p)) as [->|].
    + rewrite lookup_insert_eq, lookup_alter_eq, Hp. cbn.
      unfold drop_child. by rewrite Hi.
    + by rewrite lookup_insert_ne, lookup_alter_ne by done.
  - by apply last_index_None in Hi.
Qed.

Definition unlinked g (id : string) (ps : list string) g' : Prop :=
  g_root g' = g_root g ∧ g_item g' = g_item g ∧
  ∀ k, g_nodes g' !! k =
       (λ n, if decide (k ∈ ps) then drop_child id n else n) <$> g_nodes g !! k.

Lemma parents_loop id ps g :
  NoDup ps → (∀ p, p ∈ ps → edge g p id) →
  ∃ g', forM_ ps (remove_from_parent id) g = (Ok (), g') ∧ unlinked g id ps g'.
Proof.
  revert g. induction ps as [|p ps IH]; intros g Hnd He.
  { exists g. split; [done|]. split_and!; [done..|]. intros k.
    by destruct (g_nodes g !! k). }
  apply NoDup_cons in Hnd as [Hp Hnd].
  destruct (He p) as (n & Hn & Hin); [left|].
  set (g1 := with_nodes g (alter (drop_child id) p (g_nodes g))).
  destruct (IH g1) as (g' & Hrun & Hroot & Hitem & Hl); [done|..].
  { intros q Hq. destruct (He q) as (nq & Hnq & Hinq); [by right|].
    exists nq. split; [|done]. cbn. rewrite lookup_alter_ne by congruence. done. }
  exists g'. split.
  - apply forM_Ok_cons. exists g1. split; [|done].
    by eapply remove_from_parent_run.
  - split_and!; [done..|]. intros k. rewrite Hl. cbn.
    destruct (decide (k = p)) as [->|Hk].
    + rewrite lookup_alter_eq, Hn. cbn.
      rewrite decide_False, decide_True by set_solver. done.
    + rewrite lookup_alter_ne by done. destruct (g_nodes g !! k); [|done]. cbn.
      f_equal. destruct (decide (k ∈ ps)), (decide (k ∈ p :: ps)); set_solver.
Qed.

(** What stays of a node of which [n] was the old version; the cells of the
    backing array from the last child on are not written. *)
Record same_but_childs n n' : Prop := {
  sb_id : node_id n' = node_id n;
  sb_data : node_data n' = node_data n;
  sb_parents : node_parents n' = node_parents n;
  sb_done : node_done n' = node_done n;
  sb_nodup : NoDup (childs n) → NoDup (childs n');
  sb_length : length (childs n') ≤ length (childs n);
  sb_array : ∀ j, length (childs n) ≤ S j →
    sl_array (node_childs n') !! j = sl_array (node_childs n) !! j;
}.

(** The graph without the nodes of [X]. *)
Record pruned g (X : string → Prop) g' : Prop := {
  rm_root : g_root g' = g_root g;
  rm_item : g_item g' = g_item g;
  rm_gone : ∀ k, X k → g_nodes g' !! k = None;
  rm_fwd : ∀ k n, ¬ X k → g_nodes g !! k = Some n →
    ∃ n', g_nodes g' !! k = Some n' ∧ same_but_childs n n';
  rm_bwd : ∀ k n', g_nodes g' !! k = Some n' →
    ∃ n, g_nodes g !! k = Some n ∧ same_but_childs n n';
  rm_edge : ∀ a b, edge g' a b ↔ edge g a b ∧ ¬ X b;
}.
Definition removed g (id : string) g' : Prop := pruned g (λ k, k = id) g'.

Lemma pruned_not g X g' k n' : pruned g X g' → g_nodes g' !! k = Some n' → ¬ X k.
Proof. intros Hr Hk HX. by rewrite (rm_gone _ _ _ Hr k HX) in Hk. Qed.

Lemma pruned_core g X g' :
  core g → pruned g X g' → ¬ X (g_root g) → core g'.
Proof.
  intros Hc Hr Hroot. split.
  - intros k n' (n & Hn & Hs)%(rm_bwd _ _ _ Hr). rewrite (sb_id _ _ Hs).
    by eapply wf_id.
  - intros a b [He Hne]%(rm_edge _ _ _ Hr).
    destruct (wf_child g Hc a b He) as (nb & Hnb & ?).
    destruct (rm_fwd _ _ _ Hr b nb Hne Hnb) as (nb' & ? & Hs).
    exists nb'. by rewrite (sb_parents _ _ Hs).
  - intros a b nb Hnb Ha. apply (rm_edge _ _ _ Hr).
    split; [|by eapply pruned_not].
    destruct (rm_bwd _ _ _ Hr b nb Hnb) as (n & ? & Hs).
    rewrite (sb_parents _ _ Hs) in Ha. by eapply wf_parent.
  - intros k n' (n & Hn & Hs)%(rm_bwd _ _ _ Hr).
    eapply (sb_nodup _ _ Hs), wf_nodup_childs; done.
  - intros k n' (n & Hn & Hs)%(rm_bwd _ _ _ Hr). rewrite (sb_parents _ _ Hs).
    by eapply wf_nodup_parents.
  - intros x Hx. apply (tc_congruence (λ k, k)) with (R' := edge g) in Hx.
    + by eapply wf_acyclic.
    + intros a b He. by apply (rm_edge _ _ _ Hr) in He as [??].
  - destruct (wf_root g Hc) as [r Hrt]. rewrite (rm_root _ _ _ Hr).
    destruct (rm_fwd _ _ _ Hr _ r Hroot Hrt) as (r' & ? & _). eauto.
Qed.

Lemma pruned_wf g X g' : wf g → pruned g X g' → ¬ X (g_root g) → wf g'.
Proof.
  intros [Hc Hatt] Hr Hroot. split; [by eapply pruned_core|].
  intros k n' (n & Hn & Hs)%(rm_bwd _ _ _ Hr). rewrite (sb_parents _ _ Hs).
  rewrite (rm_root _ _ _ Hr). by eapply Hatt.
Qed.

Lemma removed_wf g id g' : wf g → removed g id g' → id ≠ g_root g → wf g'.
Proof. intros Hwf Hr Hne. eapply (pruned_wf g); [done|exact Hr|]. cbn. congruence. Qed.

Lemma removed_gone g id g' : removed g id g' → g_nodes g' !! id = None.
Proof. intros Hr. by apply (rm_gone _ _ _ Hr). Qed.

Lemma sl_remove_array i sl j :
  length (sl_live sl) ≤ S j →
  is_Some (sl_live sl !! i) →
  sl_array (sl_remove i sl) !! j = sl_array sl !! j.
Proof.
  destruct sl as [live stale]. unfold sl_array, sl_remove. cbn. intros Hj Hi.
  assert (i < length live) as Hlt by (by apply lookup_lt_is_Some).
  destruct live as [|x l _] using rev_ind; [cbn in Hlt; lia|].
  rewrite last_snoc. rewrite length_app in Hj, Hlt. cbn in Hj, Hlt.
  assert (length (delete i (l ++ [x])) = length l) as Hd.
  { rewrite length_delete; [|done]. rewrite length_app. cbn. lia. }
  rewrite lookup_app_r by lia. rewrite Hd, <-app_assoc, lookup_app_r by lia. done.
Qed.

Lemma drop_child_same id n : same_but_childs n (drop_child id n).
Proof.
  destruct (drop_child_frame id n) as (? & ? & ? & ?).
  split; [done..|apply drop_child_NoDup| |]; unfold drop_child;
    destruct (last_index id (childs n)) as [i|] eqn:Hi; try done;
    apply last_index_Some in Hi.
  - unfold childs in *. cbn. rewrite length_delete by eauto. lia.
  - intros j Hj. apply sl_remove_array; [done|]. unfold childs in Hi. eauto.
Qed.

Lemma same_but_childs_refl n : same_but_childs n n.
Proof. by split. Qed.

Lemma same_but_childs_trans n1 n2 n3 :
  same_but_childs n1 n2 → same_but_childs n2 n3 → same_but_childs n1 n3.
Proof.
  intros [? ? ? ? ? ? A] [? ? ? ? ? ? A']. split; try congruence; [auto|lia|].
  intros j Hj. rewrite A' by lia. by apply A.
Qed.

(** Cutting [id] out of its parents and deleting it removes it. *)
Lemma unlinked_removed g id n g1 :
  core g → g_nodes g !! id = Some n → childs n = [] →
  unlinked g id (node_parents n) g1 →
  removed g id (with_nodes g1 (delete id (g_nodes g1))).
Proof.
  intros Hc Hid Hleaf (Hr & Hi & Hl).
  set (upd k n0 := if decide (k ∈ node_parents n) then drop_child id n0 else n0).
  assert (∀ k n0, same_but_childs n0 (upd k n0)) as Hsame.
  { intros k n0. unfold upd. case_decide;
      [apply drop_child_same|apply same_but_childs_refl]. }
  assert (∀ k n', delete id (g_nodes g1) !! k = Some n' ↔
            k ≠ id ∧ ∃ n0, g_nodes g !! k = Some n0 ∧ n' = upd k n0) as Hlk.
  { intros k n'. rewrite lookup_delete_Some, Hl, fmap_Some. naive_solver. }
  split; cbn; [done|done|intros k ->; apply lookup_delete_eq|..].
  - intros k n0 Hk Hn0. exists (upd k n0). rewrite Hlk. naive_solver.
  - intros k n' (Hk & n0 & Hn0 & ->)%Hlk. eauto.
  - intros a b. unfold edge. cbn. setoid_rewrite Hlk. split.
    + intros (n' & (Ha & n0 & Hn0 & ->) & Hb). unfold upd in Hb.
      assert (NoDup (childs n0)) by (by eapply wf_nodup_childs).
      case_decide as Hpar; [apply drop_child_elem in Hb; naive_solver|].
      split; [by eauto|]. intros ->. apply Hpar.
      destruct (wf_child g Hc a id) as (nb & ? & ?); [by exists n0|naive_solver].
    + intros [(n0 & Hn0 & Hb) Hne]. exists (upd a n0). split.
      * split; [|by eauto]. intros ->. simplify_eq. rewrite Hleaf in Hb. set_solver.
      * unfold upd. case_decide; [|done].
        apply drop_child_elem; [by eapply wf_nodup_childs|done].
Qed.

Lemma RemoveNode_leaf g id n :
  core g → g_nodes g !! id = Some n → childs n = [] →
  ∃ g', RemoveNode id g = (Ok (), g') ∧ removed g id g'.
Proof.
  intros Hc Hid Hleaf.
  destruct (parents_loop id (node_parents n) g) as (g1 & Hrun & Hl).
  { by eapply wf_nodup_parents. }
  { intros p Hp. by eapply wf_parent. }
  exists (with_nodes g1 (delete id (g_nodes g1))). split.
  - unfold RemoveNode. runM. rewrite Hid, Hleaf.
    by rewrite (run_Ok _ _ _ _ _ Hrun).
  - by eapply unlinked_removed.
Qed.

Inductive RemoveNode_result g (id : string) : result unit * graph T → Prop :=
| rem_absent : g_nodes g !! id = None → RemoveNode_result g id (Ok (), g)
| rem_busy c :
    edge g id c →
    RemoveNode_result g id
      (Err ("Cannot remove " +:+ id +:+
            " from graph because it has still children"), g)
| rem_leaf g' :
    is_Some (g_nodes g !! id) → (∀ c, ¬ edge g id c) → removed g id g' →
    RemoveNode_result g id (Ok (), g').

Lemma RemoveNode_spec g id : core g → RemoveNode_result g id (RemoveNode id g).
Proof.
  intros Hc. destruct (g_nodes g !! id) as [n|] eqn:Hid.
  - destruct (childs n) as [|c cs] eqn:Hcs.
    + destruct (RemoveNode_leaf g id n) as (g' & -> & Hr); [done..|].
      apply rem_leaf; [by eauto| |done].
      intros c (n0 & ? & Hin). simplify_eq. rewrite Hcs in Hin. set_solver.
    + unfold RemoveNode. runM. rewrite Hid, Hcs. apply (rem_busy g id c).
      exists n. rewrite Hcs. split; [done|left].
  - unfold RemoveNode. runM. rewrite Hid. by apply rem_absent.
Qed.

(** ** Leaves and the draining loop *)

Lemma GetNextLeaf_spec g : core g → ∀ f start,
  is_Some (g_nodes g !! start) → bounded g f start →
  ∃ leaf n, GetNextLeaf f g start = Ok leaf ∧ rtc (edge g) start leaf ∧
            g_nodes g !! leaf = Some n ∧ childs n = [].
Proof.
  intros Hc. induction f as [|f IH]; intros start [n Hn] Hb.
  { by apply bounded_positive in Hb. }
  cbn. rewrite Hn. cbn. destruct (childs n) as [|c cs] eqn:Hcs.
  { exists start, n. split_and!; [done|apply rtc_refl|done..]. }
  assert (edge g start c) by (exists n; rewrite Hcs; split; [done|left]).
  destruct (IH c) as (leaf & nl & ? & ? & ? & ?).
  - by eapply wf_edge_target.
  - by eapply bounded_child; [apply wf_acyclic|..].
  - exists leaf, nl. split_and!; [done|by eapply rtc_l|done..].
Qed.

(** [l] lists the nodes below the root, children before their parents. *)
Record leaves_first g (l : list string) : Prop := {
  lf_nodup : NoDup l;
  lf_elem : ∀ k, k ∈ l ↔ is_Some (g_nodes g !! k) ∧ k ≠ g_root g;
  lf_order : ∀ i j a b,
    l !! i = Some a → l !! j = Some b → edge g a b → j < i;
}.

Lemma root_leaf_drained g n :
  wf g → g_nodes g !! g_root g = Some n → childs n = [] → leaves_first g [].
Proof.
  intros Hwf Hn Hcs. split; [constructor| |set_solver].
  intros k. split; [set_solver|]. intros [Hk Hne].
  apply (wf_reachable g k Hwf) in Hk.
  apply rtc_inv in Hk as [?|(y & (n' & ? & Hy) & _)]; [naive_solver|].
  simplify_eq. rewrite Hcs in Hy. set_solver.
Qed.

Lemma removed_leaves_first g id g' l :
  core g → removed g id g' → is_Some (g_nodes g !! id) → id ≠ g_root g →
  (∀ c, ¬ edge g id c) → leaves_first g' l → leaves_first g (id :: l).
Proof.
  intros Hc Hr Hid Hroot Hleaf [Hnd Hel Hord].
  assert (∀ k, k ≠ id → is_Some (g_nodes g' !! k) ↔ is_Some (g_nodes g !! k)) as Hdom.
  { intros k Hk. split.
    - intros [n' (n & ? & _)%(rm_bwd _ _ _ Hr)]. eauto.
    - intros [n Hn]. destruct (rm_fwd _ _ _ Hr k n Hk Hn) as (n' & ? & _). eauto. }
  split.
  - apply NoDup_cons. split; [|done]. intros [[n Hn] _]%Hel.
    by rewrite (removed_gone _ _ _ Hr) in Hn.
  - intros k. rewrite elem_of_cons, Hel, (rm_root _ _ _ Hr).
    destruct (decide (k = id)) as [->|Hk]; [naive_solver|].
    rewrite Hdom by done. naive_solver.
  - intros [|i] [|j] a b Ha Hb He; cbn in *; simplify_eq.
    + by edestruct wf_no_self_edge.
    + by edestruct Hleaf.
    + lia.
    + enough (j < i) by lia. apply (Hord i j a b); [done..|]. apply (rm_edge _ _ _ Hr).
      split; [done|]. intros ->.
      assert (id ∈ l) as [[n Hn] _]%Hel by (by eapply list_elem_of_lookup_2).
      by rewrite (removed_gone _ _ _ Hr) in Hn.
Qed.

Lemma removed_size g id g' :
  removed g id g' → is_Some (g_nodes g !! id) →
  size (g_nodes g) = S (size (g_nodes g')).
Proof.
  intros Hr Hid. rewrite <-!size_dom.
  replace (dom (g_nodes g)) with ({[id]} ∪ dom (g_nodes g')).
  - rewrite size_union, size_singleton; [done|].
    intros k ->%elem_of_singleton [n Hn]%elem_of_dom.
    by rewrite (removed_gone _ _ _ Hr) in Hn.
  - apply set_eq. intros k. rewrite elem_of_union, elem_of_singleton, !elem_of_dom.
    destruct (decide (k = id)) as [->|Hk]; [naive_solver|]. split.
    + intros [?|[n' (n & ? & _)%(rm_bwd _ _ _ Hr)]]; [done|eauto].
    + intros [n Hn]. right.
      destruct (rm_fwd _ _ _ Hr k n Hk Hn) as (n' & ? & _). eauto.
Qed.

(** The loop never runs out of fuel, panics or fails, and lists every node
    below the root once, children first. *)
Lemma drain_spec : ∀ f g, wf g → size (g_nodes g) ≤ f →
  ∃ l g', drain f g = (Ok l, g') ∧ leaves_first g l.
Proof.
  induction f as [|f IH]; intros g Hwf Hsz.
  { destruct (wf_root g (wf_core g Hwf)) as [r Hr].
    apply Nat.le_0_r, map_size_empty_inv in Hsz. rewrite Hsz in Hr. done. }
  assert (core g) as Hc by (by apply wf_core).
  cbn [drain]. runM.
  destruct (GetNextLeaf_spec g Hc (search_fuel g) (g_root g))
    as (leaf & n & -> & Hreach & Hn & Hcs);
    [by apply wf_root|by apply bounded_search_fuel|].
  runM. case_decide as Hroot.
  { subst. exists [], g. split; [done|]. by eapply root_leaf_drained. }
  destruct (RemoveNode_leaf g leaf n Hc Hn Hcs) as (g1 & Hrun & Hrm).
  rewrite (run_Ok _ _ _ _ _ Hrun).
  destruct (IH g1) as (l & g' & Hl & Hlf).
  - by eapply removed_wf.
  - apply removed_size in Hrm; [lia|by eauto].
  - exists (leaf :: l), g'. rewrite (run_Ok _ _ _ _ _ Hl). split; [done|].
    eapply removed_leaves_first; eauto.
    intros c (n0 & ? & Hin). simplify_eq. rewrite Hcs in Hin. set_solver.
Qed.

(** ** Clone and NextFromTop *)

Lemma Clone_edge g a b : edge (Clone g) a b ↔ edge g a b.
Proof.
  unfold edge, Clone. cbn. split.
  - intros (n & Hn & Hb). rewrite lookup_fmap, fmap_Some in Hn.
    destruct Hn as (n0 & ? & ->). by exists n0.
  - intros (n & Hn & Hb). exists (clone_node n).
    by rewrite lookup_fmap, Hn.
Qed.

Lemma Clone_wf g : wf g → wf (Clone g).
Proof.
  intros [Hc Hatt].
  assert (∀ k n', g_nodes (Clone g) !! k = Some n' →
            ∃ n, g_nodes g !! k = Some n ∧ n' = clone_node n) as Hl.
  { intros k n'. cbn. rewrite lookup_fmap, fmap_Some. naive_solver. }
  split; [split|].
  - intros k n' (n & Hn & ->)%Hl. exact (wf_id g Hc k n Hn).
  - intros a b He. rewrite Clone_edge in He. destruct (wf_child g Hc a b He) as (nb & Hnb & ?).
    exists (clone_node nb). cbn. by rewrite lookup_fmap, Hnb.
  - intros a b nb' (nb & Hnb & ->)%Hl Ha. apply Clone_edge. by eapply wf_parent.
  - intros k n' (n & Hn & ->)%Hl. exact (wf_nodup_childs g Hc k n Hn).
  - intros k n' (n & Hn & ->)%Hl. exact (wf_nodup_parents g Hc k n Hn).
  - intros x Hx. eapply (wf_acyclic g Hc x).
    apply (tc_congruence (λ k, k)) with (R' := edge g) in Hx; [done|].
    intros a b. by rewrite Clone_edge.
  - cbn. rewrite lookup_fmap. destruct (wf_root g Hc) as [r ->]. by eexists.
  - intros k n' (n & Hn & ->)%Hl. exact (Hatt k n Hn).
Qed.

Lemma Clone_leaves_first g l : leaves_first (Clone g) l → leaves_first g l.
Proof.
  intros [Hnd Hel Hord]. split; [done|..].
  - intros k. rewrite Hel. cbn. by rewrite lookup_fmap, fmap_is_Some.
  - intros i j a b ?? He. eapply Hord; [done..|]. by apply Clone_edge.
Qed.

Lemma mark_done_lookup g id k :
  g_nodes (mark_done g id) !! k =
  (λ n, if decide (k = id) then with_done n else n) <$> g_nodes g !! k.
Proof.
  cbn. rewrite lookup_alter. case_decide as Hk; subst.
  - destruct (g_nodes g !! k); cbn; [by rewrite decide_True|done].
  - destruct (g_nodes g !! k); cbn; [by rewrite decide_False by congruence|done].
Qed.

(** The contract of [NextFromTop]: it hands out a node that is not done
    and whose parents are all done, and marks exactly that node. *)
Definition pending g (k : string) : Prop :=
  k ≠ g_root g ∧ ∃ n, g_nodes g !! k = Some n ∧ node_done n = false.

Lemma is_pending_spec g k :
  k ≠ g_root g → is_pending g k = true ↔ pending g k.
Proof.
  intros Hk. unfold is_pending, pending.
  destruct (g_nodes g !! k) as [n|]; [|naive_solver].
  rewrite negb_true_iff. naive_solver.
Qed.

Inductive NextFromTop_result g : result (option string) * graph T → Prop :=
| next_none :
    (∀ k, ¬ pending g k) → NextFromTop_result g (Ok None, g)
| next_some id :
    pending g id → (∀ p, edge g p id → ¬ pending g p) →
    NextFromTop_result g (Ok (Some id), mark_done g id).

Lemma NextFromTop_spec g : wf g → NextFromTop_result g (NextFromTop g).
Proof.
  intros Hwf. unfold NextFromTop.
  destruct (drain_spec (search_fuel g) (Clone g)) as (l & g' & -> & Hlf).
  { by apply Clone_wf. }
  { cbn. rewrite map_size_fmap. unfold search_fuel. lia. }
  cbn. apply Clone_leaves_first in Hlf as [Hnd Hel Hord].
  destruct (List.find (is_pending g) (reverse l)) as [id|] eqn:Hf.
  - apply find_first in Hf as (l1 & l2 & Hrev & Hp & Hbefore).
    assert (l = reverse l2 ++ id :: reverse l1) as Hl.
    { rewrite <-(reverse_involutive l), Hrev, reverse_app, reverse_cons.
      by rewrite <-app_assoc. }
    assert (id ∈ l) as Hid%Hel by (rewrite Hl; set_solver).
    destruct Hid as [_ Hroot].
    apply next_some; [by apply is_pending_spec|].
    intros p He [Hpr Hpend].
    assert (p ∈ l) as Hpl.
    { apply Hel. split; [by eapply edge_Some|done]. }
    apply list_elem_of_lookup in Hpl as [i Hi].
    assert (l !! length (reverse l2) = Some id) as Hj.
    { rewrite Hl. by rewrite lookup_app_r, Nat.sub_diag by lia. }
    pose proof (Hord i _ p id Hi Hj He) as Hlt.
    rewrite Hl, lookup_app_r in Hi by lia.
    destruct (i - length (reverse l2)) as [|i'] eqn:Hsub; [lia|]. cbn in Hi.
    apply list_elem_of_lookup_2 in Hi. rewrite elem_of_reverse in Hi.
    apply Hbefore in Hi.
    assert (is_pending g p = true) by (by apply is_pending_spec). congruence.
  - apply next_none. intros k [Hk Hpend].
    assert (k ∈ reverse l) as Hkl.
    { apply elem_of_reverse, Hel. split; [|done]. destruct Hpend as (n & ? & _). eauto. }
    apply (find_absent _ _ Hf) in Hkl.
    assert (is_pending g k = true) by (by apply is_pending_spec). congruence.
Qed.

(** ** Relabelling: data and flags do not matter to the structure *)

Definition relabels g (m : gmap string (node T)) : Prop :=
  ∀ k, match g_nodes g !! k, m !! k with
       | Some n, Some n' => node_id n' = node_id n ∧ childs n' = childs n ∧
                            node_parents n' = node_parents n
       | None, None => True
       | _, _ => False
       end.

Lemma relabels_bwd g m k n' : relabels g m → m !! k = Some n' →
  ∃ n, g_nodes g !! k = Some n ∧ node_id n' = node_id n ∧
       childs n' = childs n ∧ node_parents n' = node_parents n.
Proof.
  intros Hr Hk. specialize (Hr k). rewrite Hk in Hr.
  destruct (g_nodes g !! k); [naive_solver|done].
Qed.

Lemma relabels_fwd g m k n : relabels g m → g_nodes g !! k = Some n →
  ∃ n', m !! k = Some n' ∧ node_id n' = node_id n ∧
        childs n' = childs n ∧ node_parents n' = node_parents n.
Proof.
  intros Hr Hk. specialize (Hr k). rewrite Hk in Hr.
  destruct (m !! k); [naive_solver|done].
Qed.

Lemma relabels_edge g m a b : relabels g m → edge (with_nodes g m) a b ↔ edge g a b.
Proof.
  intros Hr. split.
  - intros (n' & (n & ? & _ & Hc & _)%(relabels_bwd g m _ _ Hr) & Hb).
    exists n. by rewrite <-Hc.
  - intros (n & (n' & ? & _ & Hc & _)%(relabels_fwd g m _ _ Hr) & Hb).
    exists n'. by rewrite Hc.
Qed.

Lemma relabels_wf g m : wf g → relabels g m → wf (with_nodes g m).
Proof.
  intros [Hc Hatt] Hr. pose proof (relabels_bwd g m) as Hb.
  pose proof (relabels_edge g m) as He. split; [split|]; cbn.
  - intros k n' (n & ? & -> & _)%Hb; [by eapply wf_id|done].
  - intros a b Hab. rewrite He in Hab by done.
    destruct (wf_child g Hc a b Hab) as (nb & Hnb & Ha).
    destruct (relabels_fwd g m b nb Hr Hnb) as (n' & ? & _ & _ & Hp).
    exists n'. by rewrite Hp.
  - intros a b nb (n & ? & _ & _ & ->)%Hb; [|done].
    intros ?. apply He; [done|]. by eapply wf_parent.
  - intros k n' (n & ? & _ & -> & _)%Hb; [by eapply wf_nodup_childs|done].
  - intros k n' (n & ? & _ & _ & ->)%Hb; [by eapply wf_nodup_parents|done].
  - intros x Hx. eapply (wf_acyclic g Hc x).
    apply (tc_congruence (λ k, k)) with (R' := edge g) in Hx; [done|].
    intros a b. by rewrite He.
  - destruct (wf_root g Hc) as [r Hrt].
    destruct (relabels_fwd g m _ r Hr Hrt) as (n' & ? & _). eauto.
  - intros k n' (n & ? & _ & _ & ->)%Hb; [by eapply Hatt|done].
Qed.

Lemma mark_done_relabels g id : relabels g (g_nodes (mark_done g id)).
Proof.
  intros k. rewrite mark_done_lookup. destruct (g_nodes g !! k); [|done]. cbn.
  by case_decide.
Qed.

Lemma mark_done_wf g id : wf g → wf (mark_done g id).
Proof. intros Hwf. apply (relabels_wf g _ Hwf), mark_done_relabels. Qed.

Lemma mark_done_edge g id a b : edge (mark_done g id) a b ↔ edge g a b.
Proof. apply (relabels_edge g), mark_done_relabels. Qed.

Lemma pending_mark_done g id k :
  pending (mark_done g id) k ↔ pending g k ∧ k ≠ id.
Proof.
  unfold pending. setoid_rewrite mark_done_lookup. setoid_rewrite fmap_Some.
  change (g_root (mark_done g id)) with (g_root g). split.
  - intros (Hr & ? & (n & Hn & ->) & Hd). case_decide; naive_solver.
  - intros ((Hr & n & Hn & Hd) & Hk). split; [done|]. exists n.
    split; [|done]. exists n. by rewrite decide_False.
Qed.

Lemma NextFromTop_wf g : wf g → wf (NextFromTop g).2.
Proof.
  intros Hwf. destruct (NextFromTop_spec g Hwf); cbn; [done|by apply mark_done_wf].
Qed.
End Facts.
