(* ===== verification/GraphProps.v ===== *)
(** * Properties of the dependency graph

    Removal of sub graphs, and the theorems about pkg/devcontainer/graph
    that its two clients (the option resolver and the feature order) rely
    on. *)

From S2P Require Import Prelude Graph GraphFacts.
From stdpp Require Import base gmap sets list strings relations.

Section Prune.
Context {T : Type}.
Implicit Types (g : graph T).

(** ** Composing prunings *)

Lemma pruned_proper g X Y g' :
  (∀ k, X k ↔ Y k) → pruned g X g' → pruned g Y g'.
Proof.
  intros HXY [Hr Hi Hgone Hfwd Hbwd He]. split; [done|done|..].
  - intros k ?%HXY. auto.
  - intros k n Hk. apply Hfwd. by rewrite HXY.
  - done.
  - intros a b. by rewrite He, HXY.
Qed.

Lemma pruned_trans g1 X g2 Y g3 :
  pruned g1 X g2 → pruned g2 Y g3 → pruned g1 (λ k, X k ∨ Y k) g3.
Proof.
  intros H12 H23. split.
  - by rewrite (rm_root _ _ _ H23), (rm_root _ _ _ H12).
  - by rewrite (rm_item _ _ _ H23), (rm_item _ _ _ H12).
  - intros k [HX|HY]; [|by apply (rm_gone _ _ _ H23)].
    destruct (g_nodes g3 !! k) as [n3|] eqn:H3; [|done].
    apply (rm_bwd _ _ _ H23) in H3 as (n2 & H2 & _).
    by rewrite (rm_gone _ _ _ H12) in H2.
  - intros k n1 Hk H1.
    destruct (rm_fwd _ _ _ H12 k n1) as (n2 & H2 & S12); [naive_solver|done|].
    destruct (rm_fwd _ _ _ H23 k n2) as (n3 & H3 & S23); [naive_solver|done|].
    exists n3. split; [done|]. by eapply same_but_childs_trans.
  - intros k n3 (n2 & H2 & S23)%(rm_bwd _ _ _ H23).
    destruct (rm_bwd _ _ _ H12 k n2 H2) as (n1 & H1 & S12).
    exists n1. split; [done|]. by eapply same_but_childs_trans.
  - intros a b. rewrite (rm_edge _ _ _ H23), (rm_edge _ _ _ H12). naive_solver.
Qed.

Lemma pruned_nothing g : pruned g (λ _, False) g.
Proof.
  split; try done.
  - intros k n _ Hk. exists n. by split; [|apply same_but_childs_refl].
  - intros k n Hk. exists n. by split; [|apply same_but_childs_refl].
  - intros a b. split; [by split; [|intros []]|by intros [? _]].
Qed.

Lemma pruned_absent g id : wf g → g_nodes g !! id = None → pruned g (rtc (edge g) id) g.
Proof.
  intros Hwf Hid.
  assert (∀ k, rtc (edge g) id k → k = id) as Hrtc.
  { intros k [->|(y & Hy & _)]%rtc_inv; [done|].
    apply edge_Some in Hy as [??]. congruence. }
  split; [done|done|by intros k ->%Hrtc|..].
  - intros k n _ Hn. exists n. split; [done|apply same_but_childs_refl].
  - intros k n Hn. exists n. split; [done|apply same_but_childs_refl].
  - intros a b. split; [|naive_solver]. intros He. split; [done|].
    intros ->%Hrtc. apply (wf_edge_target g a id (wf_core g Hwf)) in He as [??].
    congruence.
Qed.

(** Reachability is decided by the search of [AddEdge]. *)
Lemma reach_dec g a b :
  wf g → rtc (edge g) a b ∨ ¬ rtc (edge g) a b.
Proof.
  intros Hwf. destruct (g_nodes g !! a) as [n|] eqn:Hn; last first.
  { destruct (decide (a = b)) as [->|Hne]; [by left|right].
    intros [?|(y & Hy & _)]%rtc_inv; [done|]. apply edge_Some in Hy as [??]. congruence. }
  assert (is_Some (g_nodes g !! a)) as Ha by eauto.
  destruct (findFirstPath_spec g a b (wf_core g Hwf) Ha) as [(p & _ & Hp)|[_ Hno]];
    [left; by eapply chain_rtc|by right].
Qed.

(** What is reachable below [c1] after the sub graph of [c0] is gone. *)
Lemma pruned_reach g c0 g1 c1 k :
  wf g → is_Some (g_nodes g !! c0) → pruned g (rtc (edge g) c0) g1 →
  rtc (edge g) c0 k ∨ rtc (edge g1) c1 k ↔ rtc (edge g) c0 k ∨ rtc (edge g) c1 k.
Proof.
  intros Hwf H0 Hp. split.
  - intros [?|Hk]; [by left|]. right. clear -Hk Hp.
    induction Hk as [|x y z Hxy _ IH]; [done|].
    apply (rm_edge _ _ _ Hp) in Hxy as [? _]. by eapply rtc_l.
  - intros [?|Hk]; [by left|]. revert k Hk. apply rtc_ind_r.
    { by right. }
    intros y z Hy Hyz IH.
    destruct (reach_dec g c0 z Hwf) as [?|Hz]; [by left|].
    destruct IH as [IH|IH]; [left; by eapply rtc_r|].
    right. eapply rtc_r; [done|]. by apply (rm_edge _ _ _ Hp).
Qed.

(** ** RemoveSubGraph with at most two children per node *)

Definition narrow g : Prop :=
  ∀ k n, g_nodes g !! k = Some n → length (childs n) ≤ 2.

Lemma pruned_narrow g X g' : narrow g → pruned g X g' → narrow g'.
Proof.
  intros Hn Hp k n' (n & Hk & Hs)%(rm_bwd _ _ _ Hp).
  pose proof (sb_length _ _ Hs). specialize (Hn k n Hk). lia.
Qed.

Lemma pruned_bounded g X g' f x : pruned g X g' → bounded g f x → bounded g' f x.
Proof.
  intros Hp (S & HS & Hsz). exists S. split; [|done]. intros y Hy. apply HS.
  apply (tc_congruence (λ k, k)) with (R' := edge g) in Hy; [done|].
  intros a b He. by apply (rm_edge _ _ _ Hp) in He as [??].
Qed.

Lemma range_child_run g id n i c body :
  g_nodes g !! id = Some n → sl_array (node_childs n) !! i = Some c →
  range_child id i body g = body c g.
Proof. intros Hn Hi. unfold range_child. runM. by rewrite Hn; cbn [deref]; runM; rewrite Hi. Qed.

Definition removes g (f : nat) (c : string) : Prop :=
  ∃ g', RemoveSubGraph f c g = (Ok (), g') ∧ pruned g (rtc (edge g) c) g'.

(** The children of [id] are gone: [id] itself goes. *)
Lemma remove_after_children g X g2 id n :
  wf g → pruned g X g2 → g_nodes g !! id = Some n → ¬ X id → ¬ X (g_root g) →
  (∀ c, c ∈ childs n → X c) →
  ∃ g3, RemoveNode id g2 = (Ok (), g3) ∧ pruned g (λ k, X k ∨ k = id) g3.
Proof.
  intros Hwf Hp Hn HX Hroot Hall.
  destruct (rm_fwd _ _ _ Hp id n HX Hn) as (n2 & Hn2 & _).
  assert (childs n2 = []) as Hleaf.
  { destruct (childs n2) as [|c cs] eqn:Hcs; [done|].
    assert (edge g2 id c) as He by (exists n2; rewrite Hcs; split; [done|left]).
    apply (rm_edge _ _ _ Hp) in He as [(n' & Hn' & Hin) Hno].
    rewrite Hn in Hn'. injection Hn' as <-. exfalso. by apply Hno, Hall. }
  destruct (RemoveNode_leaf g2 id n2) as (g3 & Hrun & Hrm);
    [by eapply pruned_core; [apply wf_core|..]|done..|].
  exists g3. split; [done|]. by eapply pruned_trans.
Qed.

(** One level of the recursion, for a node [id] whose children can be
    removed with fuel [f]. *)
Section Level.
Context (f : nat) (g : graph T) (id : string) (n : node T).
Context (IH : ∀ g id, wf g → narrow g → id ≠ g_root g → bounded g f id →
                      removes g f id).
Context (Hwf : wf g) (Hnar : narrow g) (Hb : bounded g (S f) id)
        (Hn : g_nodes g !! id = Some n).

Lemma level_edge c : c ∈ childs n → edge g id c.
Proof. intros Hc. by exists n. Qed.

Lemma level_child_root c : c ∈ childs n → c ≠ g_root g.
Proof. intros Hc ->. by eapply wf_root_no_parent, level_edge. Qed.

Lemma level_back c : c ∈ childs n → ¬ rtc (edge g) c id.
Proof.
  intros Hc Hr. eapply (wf_acyclic g (wf_core g Hwf) id), tc_rtc_r; [|done].
  by apply tc_once, level_edge.
Qed.

Lemma level_not_root c : c ∈ childs n → ¬ rtc (edge g) c (g_root g).
Proof.
  intros Hc [->|(y & _ & Hy)]%rtc_inv_r; [by eapply level_child_root|].
  by eapply wf_root_no_parent.
Qed.

Lemma level_bounded c : c ∈ childs n → bounded g f c.
Proof.
  intros Hc. eapply bounded_child; [apply wf_acyclic, wf_core, Hwf|done|].
  by apply level_edge.
Qed.

Lemma level_removes c : c ∈ childs n → removes g f c.
Proof.
  intros Hc. apply IH; [done..|by apply level_child_root|by apply level_bounded].
Qed.

Lemma level_reach k :
  rtc (edge g) id k ↔ (∃ c, c ∈ childs n ∧ rtc (edge g) c k) ∨ k = id.
Proof.
  split.
  - intros [->|(c & (n' & Hn' & Hc) & Hck)]%rtc_inv; [by right|].
    left. exists c. split; [congruence|done].
  - intros [(c & Hc & Hck)| ->]; [|done].
    eapply rtc_l; [by apply level_edge|done].
Qed.

(** The loop over the children ends in a graph without their sub graphs. *)
Lemma level_finish X g2 :
  (∀ k, X k ↔ ∃ c, c ∈ childs n ∧ rtc (edge g) c k) → pruned g X g2 →
  forM_ (seq 0 (length (childs n)))
    (λ i, range_child id i (RemoveSubGraph f)) g = (Ok (), g2) →
  removes g (S f) id.
Proof.
  intros HX Hp Hloop.
  destruct (remove_after_children g X g2 id n) as (g3 & Hrun & Hp3); try done.
  - rewrite HX. intros (c & Hc & Hr). by eapply level_back.
  - rewrite HX. intros (c & Hc & Hr). by eapply level_not_root.
  - intros c Hc. apply HX. by exists c.
  - exists g3. split.
    + cbn [RemoveSubGraph]. runM. rewrite Hn. by erewrite run_Ok.
    + eapply pruned_proper; [|exact Hp3]. intros k. by rewrite level_reach, HX.
Qed.

Lemma level_none : childs n = [] → removes g (S f) id.
Proof.
  intros Hcs. apply (level_finish (λ _, False) g).
  - intros k. rewrite Hcs. set_solver.
  - apply pruned_nothing.
  - by rewrite Hcs.
Qed.

Lemma level_array i c : childs n !! i = Some c → sl_array (node_childs n) !! i = Some c.
Proof. intros Hi. unfold sl_array. by apply lookup_app_l_Some. Qed.

Lemma level_one c0 : childs n = [c0] → removes g (S f) id.
Proof.
  intros Hcs. destruct (level_removes c0) as (g1 & Hr1 & Hp1); [rewrite Hcs; left|].
  eapply (level_finish _ g1); [|exact Hp1|].
  { intros k. rewrite Hcs. setoid_rewrite list_elem_of_singleton. naive_solver. }
  rewrite Hcs. apply forM_Ok_cons. exists g1. split; [|done].
  erewrite range_child_run; [exact Hr1|done|]. apply level_array. by rewrite Hcs.
Qed.

Lemma level_two c0 c1 : childs n = [c0; c1] → removes g (S f) id.
Proof.
  intros Hcs.
  assert (c0 ∈ childs n) as Hc0 by (rewrite Hcs; left).
  assert (c1 ∈ childs n) as Hc1 by (rewrite Hcs; set_solver).
  assert (is_Some (g_nodes g !! c0)) as Hs0
    by (eapply wf_edge_target; [by apply wf_core|by apply level_edge]).
  destruct (level_removes c0 Hc0) as (g1 & Hr1 & Hp1).
  destruct (rm_fwd _ _ _ Hp1 id n) as (n1 & Hn1 & Hs1); [by apply level_back|done|].
  destruct (IH g1 c1) as (g2 & Hr2 & Hp2).
  { eapply pruned_wf; [done..|by apply level_not_root]. }
  { by eapply pruned_narrow. }
  { rewrite (rm_root _ _ _ Hp1). by apply level_child_root. }
  { eapply pruned_bounded; [done|by apply level_bounded]. }
  eapply (level_finish _ g2); [|exact (pruned_trans _ _ _ _ _ Hp1 Hp2)|].
  { intros k. cbn beta. rewrite (pruned_reach g c0 g1 c1 k) by done. rewrite Hcs.
    setoid_rewrite elem_of_cons. setoid_rewrite list_elem_of_singleton.
    naive_solver. }
  rewrite Hcs. apply forM_Ok_cons. exists g1. split.
  { erewrite range_child_run; [exact Hr1|done|]. apply level_array. by rewrite Hcs. }
  apply forM_Ok_cons. exists g2. split; [|done].
  erewrite range_child_run; [exact Hr2|done|].
  rewrite (sb_array _ _ Hs1 1) by (rewrite Hcs; done).
  apply level_array. by rewrite Hcs.
Qed.
End Level.

Lemma RemoveSubGraph_spec f : ∀ g id,
  wf g → narrow g → id ≠ g_root g → bounded g f id → removes g f id.
Proof.
  induction f as [|f IH]; intros g id Hwf Hnar Hroot Hb.
  { by apply bounded_positive in Hb. }
  destruct (g_nodes g !! id) as [n|] eqn:Hn; last first.
  { exists g. cbn [RemoveSubGraph]. runM. rewrite Hn.
    split; [done|by apply pruned_absent]. }
  specialize (Hnar id n Hn) as Hlen.
  destruct (childs n) as [|c0 [|c1 [|c2 cs]]] eqn:Hcs; [..|cbn in Hlen; lia].
  - by eapply level_none.
  - by eapply level_one.
  - by eapply level_two.
Qed.
End Prune.

(** ** The graph operations *)

Lemma pruned_None {T} (g : graph T) id g' :
  pruned g (rtc (edge g) id) g' → wf g →
  ∀ k, g_nodes g' !! k = None ↔ g_nodes g !! k = None ∨ rtc (edge g) id k.
Proof.
  intros Hp Hwf k. split.
  - intros Hk. destruct (g_nodes g !! k) as [n|] eqn:Hn; [right|by left].
    destruct (reach_dec g id k Hwf) as [?|Hno]; [done|].
    destruct (rm_fwd _ _ _ Hp k n Hno Hn) as (? & ? & _). congruence.
  - intros [Hk|Hr]; [|by apply (rm_gone _ _ _ Hp)].
    destruct (g_nodes g' !! k) as [n'|] eqn:Hn; [|done].
    destruct (rm_bwd _ _ _ Hp k n' Hn) as (? & ? & _). congruence.
Qed.

(** C1: [AddEdge] decides cycles exactly and never corrupts the graph.  It
    never panics; when it succeeds the edges are the old ones and the
    requested one; when it fails the graph is unchanged and either an
    endpoint is missing or the nodes listed in the error are a genuine path
    from the target back to the source.  Every result is again a well-formed
    acyclic graph. *)
Theorem AddEdge_correct {T} (g : graph T) a b :
  wf g →
  wf (AddEdge a b g).2 ∧
  match AddEdge a b g with
  | (Ok _, g') =>
      is_Some (g_nodes g !! a) ∧ is_Some (g_nodes g !! b) ∧
      ¬ rtc (edge g) b a ∧
      dom (g_nodes g') = dom (g_nodes g) ∧
      ∀ x y, edge g' x y ↔ edge g x y ∨ x = a ∧ y = b
  | (Err e, g') =>
      g' = g ∧
      (g_nodes g !! a = None ∧ e = "fromID " +:+ a +:+ " does not exist" ∨
       g_nodes g !! b = None ∧ e = "toID " +:+ b +:+ " does not exist" ∨
       ∃ p, chain (edge g) b p a ∧ e = CyclicError_Error (g_item g) (b :: p))
  | _ => False
  end.
Proof.
  intros Hwf. split; [by apply AddEdge_wf|]. pose proof (wf_core g Hwf) as Hc.
  destruct (AddEdge_spec g a b Hc) as [H|? H|He Hb|p Ha Hb Hab Hp|m Ha Hb Hab Hba Hl];
    [by auto..| | |].
  - split_and!; [by eapply edge_Some|done| |done|naive_solver].
    intros Hr. eapply (wf_acyclic g Hc a), tc_rtc_r; [|done]. by apply tc_once.
  - naive_solver.
  - split_and!; [done..| |by intros; apply linked_edge].
    apply set_eq. intros k. rewrite !elem_of_dom. cbn. rewrite (Hl k).
    by rewrite fmap_is_Some.
Qed.

(** What [InsertNodeAt] does with a fresh identifier. *)
Record inserted {T} (g : graph T) (p id : string) (data : T) (g1 : graph T) : Prop := {
  in_root : g_root g1 = g_root g;
  in_new : ∃ n, g_nodes g1 !! id = Some n ∧ node_data n = data ∧ childs n = [] ∧
                node_done n = false;
  in_old : ∀ k, k ≠ id → g_nodes g1 !! k = link p id k <$> g_nodes g !! k;
  in_edge : ∀ x y, edge g1 x y ↔ edge g x y ∨ x = p ∧ y = id;
}.

Lemma InsertNodeAt_fresh {T} (g : graph T) p id data :
  core g → is_Some (g_nodes g !! p) → g_nodes g !! id = None →
  ∃ g1, InsertNodeAt p id data g = (Ok id, g1) ∧ inserted g p id data g1.
Proof.
  intros Hc Hp Hid. assert (p ≠ id) as Hpi by (intros ->; destruct Hp; congruence).
  pose proof (InsertNodeAt_spec g p id data Hc) as Hr. inversion Hr as [| |m _ _ Hl];
    subst; try (by destruct Hp; congruence); try (by destruct H0; congruence).
  exists (with_nodes g m). split; [done|]. split; cbn; [done|..].
  - rewrite (Hl id). cbn. rewrite lookup_insert_eq. cbn. eexists. split; [done|].
    by rewrite link_data, link_childs, link_done, decide_False.
  - intros k Hk. rewrite (Hl k). cbn. by rewrite lookup_insert_ne.
  - intros x y. rewrite <-(isolated_edge g id data) by done.
    apply (linked_edge (isolated g id data)); [|done]. cbn.
    by rewrite lookup_insert_ne.
Qed.

Lemma inserted_removed {T} (g : graph T) p id data g1 g2 :
  core g → g_nodes g !! id = None → inserted g p id data g1 → removed g1 id g2 →
  (∀ x y, edge g2 x y ↔ edge g x y) ∧
  ∀ k, option_relation (λ n n', node_data n' = node_data n ∧
         node_parents n' = node_parents n ∧ node_done n' = node_done n)
         (λ _, False) (λ _, False) (g_nodes g !! k) (g_nodes g2 !! k).
Proof.
  intros Hc Hid Hi Hr. split.
  - intros x y. rewrite (rm_edge _ _ _ Hr), (in_edge _ _ _ _ _ Hi).
    split; [naive_solver|]. intros He. split; [by left|]. intros ->.
    apply (wf_edge_target g _ _ Hc) in He as [??]. congruence.
  - intros k. destruct (decide (k = id)) as [->|Hk].
    { by rewrite Hid, (rm_gone _ _ _ Hr id). }
    pose proof (in_old _ _ _ _ _ Hi k Hk) as Ho.
    destruct (g_nodes g !! k) as [n|]; cbn in Ho.
    + destruct (rm_fwd _ _ _ Hr k _ Hk Ho) as (n' & -> & Hs). cbn.
      rewrite (sb_data _ _ Hs), (sb_parents _ _ Hs), (sb_done _ _ Hs).
      by rewrite link_data, link_parents, link_done, decide_False, app_nil_r.
    + destruct (g_nodes g2 !! k) as [n'|] eqn:Hk'; [|done].
      destruct (rm_bwd _ _ _ Hr k n' Hk') as (? & ? & _). congruence.
Qed.

(** Inserting a fresh node and removing it again restores the graph:
    the same nodes with the same data, parents and flags, and the same
    edges. *)
Lemma InsertNodeAt_RemoveNode {T} (g : graph T) p id data :
  wf g → is_Some (g_nodes g !! p) → g_nodes g !! id = None →
  ∃ g1 g2,
    InsertNodeAt p id data g = (Ok id, g1) ∧ wf g1 ∧
    (node_data <$> g_nodes g1 !! id) = Some data ∧
    (∀ x y, edge g1 x y ↔ edge g x y ∨ x = p ∧ y = id) ∧
    RemoveNode id g1 = (Ok (), g2) ∧ wf g2 ∧
    (∀ x y, edge g2 x y ↔ edge g x y) ∧
    ∀ k, option_relation (λ n n', node_data n' = node_data n ∧
           node_parents n' = node_parents n ∧ node_done n' = node_done n)
           (λ _, False) (λ _, False) (g_nodes g !! k) (g_nodes g2 !! k).
Proof.
  intros Hwf Hp Hid. pose proof (InsertNodeAt_wf g p id data Hwf) as Hwf1.
  destruct (InsertNodeAt_fresh g p id data (wf_core g Hwf) Hp Hid) as (g1 & Hins & Hi).
  rewrite Hins in Hwf1. cbn in Hwf1.
  destruct (in_new _ _ _ _ _ Hi) as (n1 & Hn1 & Hd & Hcs & _).
  destruct (RemoveNode_leaf g1 id n1) as (g2 & Hrm & Hr); [by apply wf_core|done..|].
  destruct (inserted_removed g p id data g1 g2 (wf_core g Hwf) Hid Hi Hr) as [He Hk].
  exists g1, g2. split_and!; try done.
  - by rewrite Hn1, <-Hd.
  - apply (in_edge _ _ _ _ _ Hi).
  - eapply removed_wf; [done..|]. rewrite (in_root _ _ _ _ _ Hi). intros ->.
    destruct (wf_root g (wf_core g Hwf)). congruence.
Qed.

(** [NextFromTop] hands out the nodes top down.  On every well-formed
    graph it terminates; it returns nothing exactly when no node below the
    root is pending; otherwise the node it returns was pending, every parent
    of it was already done (or is the root), and it is the only node whose
    flag changes. *)
Theorem NextFromTop_correct {T} (g : graph T) :
  wf g →
  wf (NextFromTop g).2 ∧
  (∀ x y, edge (NextFromTop g).2 x y ↔ edge g x y) ∧
  match NextFromTop g with
  | (Ok None, g') => g' = g ∧ ∀ k, ¬ pending g k
  | (Ok (Some id), g') =>
      pending g id ∧ (∀ p, edge g p id → ¬ pending g p) ∧
      ∀ k, pending g' k ↔ pending g k ∧ k ≠ id
  | _ => False
  end.
Proof.
  intros Hwf. split; [by apply NextFromTop_wf|].
  destruct (NextFromTop_spec g Hwf) as [Hn|id Hp Hpar]; cbn [fst snd]; [done|].
  split; [intros; apply mark_done_edge|]. split_and!; [done..|].
  intros k. apply pending_mark_done.
Qed.

(** on a well-formed graph in which no node has more than two children,
    [RemoveSubGraph] succeeds within the search bound and removes exactly
    the nodes reachable from [id]; the other nodes keep their data, their
    parents and the edges among them, and the graph stays well-formed. *)
Theorem RemoveSubGraph_exact {T} (g : graph T) id :
  wf g → narrow g → id ≠ g_root g →
  ∃ g', RemoveSubGraph (search_fuel g) id g = (Ok (), g') ∧ wf g' ∧
    (∀ k, g_nodes g' !! k = None ↔ g_nodes g !! k = None ∨ rtc (edge g) id k) ∧
    (∀ x y, edge g' x y ↔ edge g x y ∧ ¬ rtc (edge g) id y) ∧
    ∀ k n n', g_nodes g !! k = Some n → g_nodes g' !! k = Some n' →
      node_data n' = node_data n ∧ node_parents n' = node_parents n.
Proof.
  intros Hwf Hnar Hroot.
  destruct (RemoveSubGraph_spec (search_fuel g) g id) as (g' & Hrun & Hp);
    [done..|by apply bounded_search_fuel, wf_core|].
  assert (¬ rtc (edge g) id (g_root g)) as Hno.
  { intros [?|(y & _ & Hy)]%rtc_inv_r; [done|]. by eapply wf_root_no_parent. }
  exists g'. split_and!; [done|by eapply pruned_wf|by apply pruned_None|apply Hp|].
  intros k n n' Hk (n0 & Hk0 & Hs)%(rm_bwd _ _ _ Hp). simplify_eq.
  split; apply Hs.
Qed.

(** ** Histories of a graph

    The operations a client may apply, in any order.  [RemoveNode] is not
    applied to the root: graph.go does not guard against it, and no caller
    does it. *)
Inductive graph_op (T : Type) : Type :=
| OpAddEdge (a b : string)
| OpInsert (p id : string) (data : T)
| OpRemove (id : string)
| OpNext.
Arguments OpAddEdge {T} _ _.
Arguments OpInsert {T} _ _ _.
Arguments OpRemove {T} _.
Arguments OpNext {T}.

Inductive op_step {T} : graph T → graph_op T → graph T → Prop :=
| step_add g a b : op_step g (OpAddEdge a b) (AddEdge a b g).2
| step_child g p c : op_step g (OpAddEdge p c) (AddChild p c g).2
| step_insert g p id data : op_step g (OpInsert p id data) (InsertNodeAt p id data g).2
| step_remove g id : id ≠ g_root g → op_step g (OpRemove id) (RemoveNode id g).2
| step_next g : op_step g OpNext (NextFromTop g).2.

Inductive op_steps {T} : graph T → list (graph_op T) → graph T → Prop :=
| steps_nil g : op_steps g [] g
| steps_cons g1 o g2 os g3 :
    op_step g1 o g2 → op_steps g2 os g3 → op_steps g1 (o :: os) g3.

Lemma op_step_wf {T} (g : graph T) o g' : op_step g o g' → wf g → wf g'.
Proof.
  destruct 1 as [g a b|g a b|g p id data|g id Hid|g]; intros Hwf.
  - by apply AddEdge_wf.
  - by apply AddEdge_wf.
  - by apply InsertNodeAt_wf.
  - destruct (RemoveNode_spec g id (wf_core g Hwf)); cbn; try done.
    by eapply removed_wf.
  - by apply NextFromTop_wf.
Qed.

(** C39: every history of [AddEdge], [AddChild], [InsertNodeAt], [NextFromTop] and
    [RemoveNode] on nodes other than the root, on a fresh graph and with failed operations
    included, ends in a well-formed graph: node identifiers are the map's
    keys, parent and child lists mirror each other without duplicates, no
    cycle exists, and every node is reachable from the root, which has no
    parent. *)
Theorem graph_histories {T} (id : string) (data : T) item os g :
  op_steps (NewGraphOf (NewNode id data) item) os g →
  wf g ∧ (∀ k, is_Some (g_nodes g !! k) → rtc (edge g) (g_root g) k) ∧
  (∀ a, ¬ edge g a (g_root g)) ∧ ∀ a, ¬ tc (edge g) a a.
Proof.
  intros Hs. assert (wf g) as Hwf.
  { assert (wf (NewGraphOf (NewNode id data) item)) as H0 by by apply NewGraphOf_wf.
    induction Hs as [|g1 o g2 os' g3 Ho Hs IH]; [done|].
    by eapply IH, op_step_wf. }
  split_and!; [done|by intros; apply wf_reachable|by intros; apply wf_root_no_parent|].
  apply wf_acyclic, wf_core, Hwf.
Qed.

(** ** Concrete graphs *)

Definition demo_root : graph nat := NewGraphOf (NewNode "root" 0) "option".
Definition demo_graph : graph nat :=
  (InsertNodeAt "b" "c" 3 (InsertNodeAt "a" "b" 2
     (InsertNodeAt "root" "a" 1 demo_root).2).2).2.

Lemma demo_wf : wf demo_graph.
Proof. by do 3 apply InsertNodeAt_wf; apply NewGraphOf_wf. Qed.

Lemma demo_narrow : narrow demo_graph.
Proof.
  intros k n Hk. apply elem_of_map_to_list in Hk.
  revert Hk. vm_compute map_to_list. intros Hk.
  repeat (apply elem_of_cons in Hk as [[= -> ->]|Hk]; [vm_compute; lia|]).
  by apply not_elem_of_nil in Hk.
Qed.

Lemma AddEdge_correct_witness :
  ∃ e, AddEdge "c" "a" demo_graph = (Err e, demo_graph) ∧
       e = CyclicError_Error "option" ["a"; "b"; "c"] ∧ wf demo_graph.
Proof.
  destruct (AddEdge_correct demo_graph "c" "a" demo_wf) as [Hwf _].
  eexists. split_and!; [vm_compute; reflexivity|vm_compute; reflexivity|].
  replace (demo_graph) with (AddEdge "c" "a" demo_graph).2 by reflexivity. done.
Defined.

Lemma InsertNodeAt_RemoveNode_witness :
  ∃ g1 g2, InsertNodeAt "c" "d" 4 demo_graph = (Ok "d", g1) ∧ wf g1 ∧
    RemoveNode "d" g1 = (Ok (), g2) ∧ wf g2.
Proof.
  destruct (InsertNodeAt_RemoveNode demo_graph "c" "d" 4 demo_wf)
    as (g1 & g2 & ? & ? & _ & _ & ? & ? & _); [vm_compute; eauto|reflexivity|].
  by exists g1, g2.
Defined.

Lemma NextFromTop_correct_witness :
  (NextFromTop demo_graph).1 = Ok (Some "a") ∧ pending demo_graph "a" ∧
  ∀ p, edge demo_graph p "a" → ¬ pending demo_graph p.
Proof.
  pose proof (NextFromTop_correct demo_graph demo_wf) as (_ & _ & H).
  replace (NextFromTop demo_graph)
    with (Ok (Some "a") : result (option string), mark_done demo_graph "a") in H |- *
    by reflexivity.
  destruct H as (? & ? & _). by split.
Defined.

Lemma RemoveSubGraph_exact_witness :
  ∃ g', RemoveSubGraph (search_fuel demo_graph) "b" demo_graph = (Ok (), g') ∧ wf g'.
Proof.
  destruct (RemoveSubGraph_exact demo_graph "b" demo_wf demo_narrow) as (g' & ? & ? & _);
    [done|]. by exists g'.
Defined.

Lemma graph_histories_witness : wf demo_graph.
Proof.
  apply (graph_histories "root" 0 "option"
    [OpInsert "root" "a" 1; OpInsert "a" "b" 2; OpInsert "b" "c" 3]).
  repeat (eapply steps_cons; [apply step_insert|]). apply steps_nil.
Defined.

(** A node with three children cannot be removed: while the loop of
    [RemoveSubGraph] ranges over the children, removing the first shifts the
    other two in the same array, so the second is skipped. *)
Definition fan_graph : graph nat :=
  (InsertNodeAt "a" "d" 4 (InsertNodeAt "a" "c" 3 (InsertNodeAt "a" "b" 2
     (InsertNodeAt "root" "a" 1 demo_root).2).2).2).2.

Example RemoveSubGraph_three_children :
  let '(r, g') := RemoveSubGraph (search_fuel fan_graph) "a" fan_graph in
  r = Err "Cannot remove a from graph because it has still children" ∧
  is_pending g' "c" = true ∧ is_pending g' "b" = false ∧ is_pending g' "d" = false.
Proof. by vm_compute. Qed.
