(* ===== verification/GoStrings.v ===== *)
(** * The parts of Go's strings and strconv packages that DevPod uses

    A Go string is a sequence of bytes, modelled by [string].  The functions
    that depend on character classes ([ToLower], [TrimSpace]) are the ones of
    Go on ASCII input. *)

From S2P Require Import Prelude.
From stdpp Require Import base list strings.
From Stdlib Require Import ZArith Lia.

Local Open Scope string_scope.

(** ** Characters *)

Definition code (c : ascii) : nat := nat_of_ascii c.
Definition in_range (lo hi : nat) (c : ascii) : bool :=
  ((lo <=? code c) && (code c <=? hi))%nat.
Definition is_digit (c : ascii) : bool := in_range 48 57 c.
Definition is_lower (c : ascii) : bool := in_range 97 122 c.
Definition is_upper (c : ascii) : bool := in_range 65 90 c.
Definition is_alpha (c : ascii) : bool := is_lower c || is_upper c.
Definition is_alnum (c : ascii) : bool := is_alpha c || is_digit c.
(** [\w] *)
Definition is_word (c : ascii) : bool := is_alnum c || (code c =? 95)%nat.
(** tab, newline, vertical tab, form feed, carriage return, space *)
Definition is_space (c : ascii) : bool := in_range 9 13 c || (code c =? 32)%nat.

Definition lower_char (c : ascii) : ascii :=
  if is_upper c then ascii_of_nat (code c + 32) else c.
Definition upper_char (c : ascii) : ascii :=
  if is_lower c then ascii_of_nat (code c - 32) else c.

(** ** Functions on strings *)

Fixpoint smap (f : ascii → ascii) (s : string) : string :=
  match s with
  | "" => ""
  | String c s' => String (f c) (smap f s')
  end.
Definition ToLower : string → string := smap lower_char.
Definition ToUpper : string → string := smap upper_char.

Fixpoint sfilter (p : ascii → bool) (s : string) : string :=
  match s with
  | "" => ""
  | String c s' => if p c then String c (sfilter p s') else sfilter p s'
  end.

Fixpoint sforall (p : ascii → bool) (s : string) : bool :=
  match s with
  | "" => true
  | String c s' => p c && sforall p s'
  end.

Definition HasPrefix (s p : string) : bool := String.prefix p s.

Fixpoint sdrop (n : nat) (s : string) : string :=
  match n, s with
  | S n', String _ s' => sdrop n' s'
  | _, _ => s
  end.
Fixpoint stake (n : nat) (s : string) : string :=
  match n, s with
  | S n', String c s' => String c (stake n' s')
  | _, _ => ""
  end.

Definition HasSuffix (s suf : string) : bool :=
  (String.length suf <=? String.length s)%nat &&
  bool_decide (sdrop (String.length s - String.length suf) s = suf).

Definition TrimPrefix (s p : string) : string :=
  if HasPrefix s p then sdrop (String.length p) s else s.
Definition TrimSuffix (s suf : string) : string :=
  if HasSuffix s suf then stake (String.length s - String.length suf) s else s.

(** [strings.Split(s, sep)] for a separator of one byte. *)
Fixpoint Split (sep : ascii) (s : string) : list string :=
  match s with
  | "" => [""]
  | String c s' =>
      if decide (c = sep) then "" :: Split sep s'
      else match Split sep s' with
           | [] => [String c ""]
           | p :: ps => String c p :: ps
           end
  end.

(** [strings.Join] *)
Definition Join (l : list string) (sep : string) : string := String.concat sep l.

Fixpoint trim_left (p : ascii → bool) (s : string) : string :=
  match s with
  | "" => ""
  | String c s' => if p c then trim_left p s' else s
  end.
Fixpoint trim_right (p : ascii → bool) (s : string) : string :=
  match s with
  | "" => ""
  | String c s' =>
      match trim_right p s' with
      | "" => if p c then "" else String c ""
      | t => String c t
      end
  end.
Definition trim_by (p : ascii → bool) (s : string) : string :=
  trim_right p (trim_left p s).
Definition TrimSpace : string → string := trim_by is_space.

Fixpoint scontains_char (c : ascii) (s : string) : bool :=
  match s with
  | "" => false
  | String d s' => bool_decide (d = c) || scontains_char c s'
  end.
(** [strings.Trim(s, cutset)] *)
Definition Trim (s cutset : string) : string :=
  trim_by (λ c, scontains_char c cutset) s.

(** [s[strings.LastIndex(s, "c")+1:]], or [None] when [c] does not occur. *)
Fixpoint after_last (sep : ascii) (s : string) : option string :=
  match s with
  | "" => None
  | String c s' =>
      match after_last sep s' with
      | Some t => Some t
      | None => if decide (c = sep) then Some s' else None
      end
  end.

(** [strings.ReplaceAll(s, old, new)] for a non-empty [old]; the fuel is the
    length of [s], which every step shortens. *)
Fixpoint replace_all (fuel : nat) (s old new : string) : string :=
  match fuel with
  | 0 => s
  | S f =>
      match s with
      | "" => ""
      | String c s' =>
          if String.prefix old s
          then new +:+ replace_all f (sdrop (String.length old) s) old new
          else String c (replace_all f s' old new)
      end
  end.
Definition ReplaceAll (s old new : string) : string :=
  replace_all (String.length s) s old new.

(** ** strconv *)

Definition digit_value (c : ascii) : Z := Z.of_nat (code c) - 48.

Fixpoint parse_digits (acc : Z) (s : string) : option Z :=
  match s with
  | "" => Some acc
  | String c s' =>
      if is_digit c then parse_digits (acc * 10 + digit_value c)%Z s' else None
  end.

Definition max_int64 : Z := 9223372036854775807.
Definition min_int64 : Z := -9223372036854775808.

(** [strconv.ParseInt(s, 10, 64)], and [strconv.Atoi] on a 64-bit platform:
    an optional sign, then at least one digit, within the int64 range. *)
Definition ParseInt (s : string) : option Z :=
  let '(neg, body) :=
    match s with
    | String "+"%char s' => (false, s')
    | String "-"%char s' => (true, s')
    | _ => (false, s)
    end in
  match body with
  | "" => None
  | _ =>
      v ← parse_digits 0 body;
      let v := if neg : bool then (- v)%Z else v in
      if (min_int64 <=? v)%Z && (v <=? max_int64)%Z then Some v else None
  end.
Definition Atoi : string → option Z := ParseInt.

(** [strconv.ParseBool] *)
Definition ParseBool (s : string) : option bool :=
  if bool_decide (s ∈ ["1"; "t"; "T"; "TRUE"; "true"; "True"]) then Some true
  else if bool_decide (s ∈ ["0"; "f"; "F"; "FALSE"; "false"; "False"])
  then Some false else None.

(** [strconv.FormatBool] *)
Definition FormatBool (b : bool) : string := if b then "true" else "false".

(** ** time.ParseDuration

    Durations are nanoseconds.  The fractional part of a component is
    computed by exact integer division where Go divides 64-bit floats, so a
    fraction may differ by one nanosecond; whether a string is accepted does
    not depend on it. *)

Definition unit_ns (u : string) : option Z :=
  if bool_decide (u = "ns") then Some 1%Z
  else if bool_decide (u = "us" ∨ u = "µs" ∨ u = "μs") then Some 1000%Z
  else if bool_decide (u = "ms") then Some 1000000%Z
  else if bool_decide (u = "s") then Some 1000000000%Z
  else if bool_decide (u = "m") then Some 60000000000%Z
  else if bool_decide (u = "h") then Some 3600000000000%Z
  else None.

Definition two63 : Z := 9223372036854775808.

(** [leadingInt]: the leading digits as a number, or [None] on overflow. *)
Fixpoint leadingInt (x : Z) (s : string) : option (Z * string) :=
  match s with
  | String c s' =>
      if is_digit c then
        if (two63 / 10 <? x)%Z then None
        else
          let x' := (x * 10 + digit_value c)%Z in
          if (two63 <? x')%Z then None else leadingInt x' s'
      else Some (x, s)
  | "" => Some (x, s)
  end.

(** [leadingFraction]: digits, the power of ten they stand over, the rest;
    digits that would overflow are skipped. *)
Fixpoint leadingFraction (x scale : Z) (overflow : bool) (s : string)
    : Z * Z * string :=
  match s with
  | String c s' =>
      if is_digit c then
        if overflow then leadingFraction x scale true s'
        else if ((two63 - 1) / 10 <? x)%Z then leadingFraction x scale true s'
        else
          let y := (x * 10 + digit_value c)%Z in
          if (two63 <? y)%Z then leadingFraction x scale true s'
          else leadingFraction y (scale * 10)%Z false s'
      else (x, scale, s)
  | "" => (x, scale, s)
  end.

Fixpoint span_unit (s : string) : string * string :=
  match s with
  | String c s' =>
      if is_digit c || bool_decide (c = "."%char) then ("", s)
      else let '(u, r) := span_unit s' in (String c u, r)
  | "" => ("", "")
  end.

Definition parse_component (s : string) : option (Z * string) :=
  '(v, s1) ← leadingInt 0 s;
  let pre := negb (String.length s =? String.length s1)%nat in
  let '(f, scale, s2, post) :=
    match s1 with
    | String "."%char s1' =>
        let '(f, scale, s2) := leadingFraction 0 1 false s1' in
        (f, scale, s2, negb (String.length s1' =? String.length s2)%nat)
    | _ => (0%Z, 1%Z, s1, false)
    end in
  if negb pre && negb post then None
  else
    let '(u, s3) := span_unit s2 in
    unit ← unit_ns u;
    if (two63 / unit <? v)%Z then None
    else
      let v := (v * unit + (f * unit) / scale)%Z in
      if (two63 <? v)%Z then None else Some (v, s3).

Fixpoint parse_components (fuel : nat) (d : Z) (s : string) : option Z :=
  match s with
  | "" => Some d
  | _ =>
      match fuel with
      | 0 => None
      | S f =>
          '(v, s') ← parse_component s;
          if (two63 <? d + v)%Z then None else parse_components f (d + v)%Z s'
      end
  end.

Definition ParseDuration (s : string) : option Z :=
  let '(neg, body) :=
    match s with
    | String "+"%char s' => (false, s')
    | String "-"%char s' => (true, s')
    | _ => (false, s)
    end in
  if bool_decide (body = "0") then Some 0%Z
  else if bool_decide (body = "") then None
  else
    d ← parse_components (String.length body) 0 body;
    if neg : bool then Some (- d)%Z
    else if (max_int64 <? d)%Z then None else Some d.

Example ParseDuration_ex :
  map ParseDuration ["10s"; "5m"; "24h"; "1h30m"; "1.5s"; "-2ms"; "10"; "s"; "0"; ""]
  = [Some 10000000000; Some 300000000000; Some 86400000000000;
     Some 5400000000000; Some 1500000000; Some (-2000000); None; None;
     Some 0; None]%Z.
Proof. vm_compute. reflexivity. Qed.

(** ** Lemmas *)

Lemma sapp_nil_r (s : string) : s +:+ "" = s.
Proof. induction s as [|c s IH]; [done|]. cbn. by rewrite IH. Qed.

Lemma sapp_assoc (a b c : string) : (a +:+ b) +:+ c = a +:+ (b +:+ c).
Proof. induction a as [|d a IH]; [done|]. cbn. by rewrite IH. Qed.

Lemma sapp_cons c (a b : string) : String c a +:+ b = String c (a +:+ b).
Proof. done. Qed.

Lemma slength_app (a b : string) :
  String.length (a +:+ b) = (String.length a + String.length b)%nat.
Proof. induction a as [|d a IH]; [done|]. cbn. by rewrite IH. Qed.

Lemma sdrop_app (a b : string) : sdrop (String.length a) (a +:+ b) = b.
Proof. by induction a. Qed.

Lemma stake_app (a b : string) : stake (String.length a) (a +:+ b) = a.
Proof. induction a as [|d a IH]; [done|]. cbn. by rewrite IH. Qed.

Lemma prefix_app (a b : string) : String.prefix a (a +:+ b) = true.
Proof.
  induction a as [|c a IH]; cbn; [by destruct b|].
  by destruct (ascii_dec c c).
Qed.

Lemma HasPrefix_spec s p : HasPrefix s p = true ↔ ∃ r, s = p +:+ r.
Proof.
  unfold HasPrefix. split; [|intros [r ->]; apply prefix_app].
  revert s. induction p as [|c p IH]; intros s Hp.
  { by exists s. }
  destruct s as [|d s]; [done|]. cbn in Hp.
  destruct (ascii_dec c d) as [->|]; [|done].
  destruct (IH s Hp) as [r ->]. by exists r.
Qed.

Lemma HasPrefix_length s p :
  HasPrefix s p = true → (String.length p ≤ String.length s)%nat.
Proof. intros [r ->]%HasPrefix_spec. rewrite slength_app. lia. Qed.

Lemma sforall_app p (a b : string) :
  sforall p (a +:+ b) = sforall p a && sforall p b.
Proof. induction a as [|c a IH]; cbn; [done|]. by rewrite IH, andb_assoc. Qed.

Lemma sfilter_id p s : sforall p s = true → sfilter p s = s.
Proof.
  induction s as [|c s IH]; cbn; [done|].
  rewrite andb_true_iff. intros [-> ?]. by rewrite IH.
Qed.

Lemma sfilter_forall p s : sforall p (sfilter p s) = true.
Proof.
  induction s as [|c s IH]; cbn; [done|]. destruct (p c) eqn:?; cbn; [|done].
  by rewrite IH, andb_true_r.
Qed.

Lemma sforall_impl (p q : ascii → bool) s :
  (∀ c, p c = true → q c = true) → sforall p s = true → sforall q s = true.
Proof.
  intros Hpq. induction s as [|c s IH]; cbn; [done|].
  rewrite !andb_true_iff. naive_solver.
Qed.

Lemma stake_app_le n a b :
  (n ≤ String.length a)%nat → stake n (a +:+ b) = stake n a.
Proof.
  revert a. induction n as [|n IH]; intros [|c a] H; cbn in *; try done; try lia.
  f_equal. apply IH. lia.
Qed.

Lemma sforall_stake p n s : sforall p s = true → sforall p (stake n s) = true.
Proof.
  revert s. induction n as [|n IH]; intros [|c s]; cbn; try done.
  rewrite !andb_true_iff. naive_solver.
Qed.

Lemma stake_length n s : (String.length (stake n s) ≤ n)%nat.
Proof.
  revert s. induction n as [|n IH]; intros [|c s]; cbn; [lia..|].
  specialize (IH s). lia.
Qed.

(** [free c s]: the byte [c] does not occur in [s]. *)
Definition free (c : ascii) (s : string) : bool :=
  sforall (λ d, negb (bool_decide (d = c))) s.

Lemma free_cons c d s : free c (String d s) = true ↔ d ≠ c ∧ free c s = true.
Proof.
  unfold free. cbn. rewrite andb_true_iff, negb_true_iff, bool_decide_eq_false.
  done.
Qed.

Lemma Split_nonempty sep s : Split sep s ≠ [].
Proof.
  destruct s as [|c s]; cbn; [done|]. case_decide; [done|].
  by destruct (Split sep s).
Qed.

Lemma Split_free sep s : free sep s = true → Split sep s = [s].
Proof.
  induction s as [|c s IH]; cbn; [done|].
  intros [Hc ->%IH]%free_cons. by rewrite decide_False.
Qed.

Lemma Split_app sep a b :
  free sep a = true → Split sep (a +:+ String sep b) = a :: Split sep b.
Proof.
  induction a as [|c a IH]; cbn; [by rewrite decide_True|].
  intros [Hc Ha]%free_cons. by rewrite decide_False, (IH Ha).
Qed.

Lemma Split_parts_free sep s : ∀ p, p ∈ Split sep s → free sep p = true.
Proof.
  induction s as [|c s IH]; cbn; intros p Hp.
  - by apply list_elem_of_singleton in Hp as ->.
  - case_decide as Hc.
    + apply elem_of_cons in Hp as [->|Hp]; [done|by apply IH].
    + destruct (Split sep s) as [|q qs] eqn:Hs; [by apply Split_nonempty in Hs|].
      apply elem_of_cons in Hp as [->|Hp].
      * apply free_cons. split; [done|]. apply IH. left.
      * apply IH. by right.
Qed.

Lemma Join_cons2 a b l sep :
  Join (a :: b :: l) sep = a +:+ sep +:+ Join (b :: l) sep.
Proof. done. Qed.

(** Splitting and joining with the separator gives the string back. *)
Lemma Join_Split sep s : Join (Split sep s) (String sep "") = s.
Proof.
  induction s as [|c s IH]; cbn [Split]; [done|].
  destruct (Split sep s) as [|q qs] eqn:Hs; [by apply Split_nonempty in Hs|].
  case_decide as Hc.
  - rewrite Join_cons2, IH. by rewrite Hc.
  - rewrite <-IH. by destruct qs.
Qed.

Lemma Split_Join sep l :
  l ≠ [] → (∀ p, p ∈ l → free sep p = true) →
  Split sep (Join l (String sep "")) = l.
Proof.
  induction l as [|a l IH]; intros Hne Hf; [done|].
  destruct l as [|b l].
  - apply Split_free, Hf. left.
  - rewrite Join_cons2. cbn [String.append].
    rewrite Split_app by (apply Hf; left). f_equal. apply IH; [done|].
    intros p Hp. apply Hf. by right.
Qed.

Lemma TrimSuffix_app a b : TrimSuffix (a +:+ b) b = a.
Proof.
  unfold TrimSuffix, HasSuffix. rewrite slength_app.
  replace (String.length a + String.length b - String.length b)%nat with (String.length a) by lia.
  rewrite sdrop_app, stake_app, bool_decide_true by done.
  rewrite (proj2 (Nat.leb_le _ _)) by lia. done.
Qed.

Lemma trim_left_spec p s : ∃ l, s = l +:+ trim_left p s ∧ sforall p l = true.
Proof.
  induction s as [|c s (l & Hl & Hp)]; cbn; [by exists ""|].
  destruct (p c) eqn:Hc; [|by exists ""].
  exists (String c l). cbn. by rewrite Hc, <-Hl.
Qed.

Lemma trim_right_spec p s : ∃ r, s = trim_right p s +:+ r ∧ sforall p r = true.
Proof.
  induction s as [|c s (r & Hr & Hp)]; cbn; [by exists ""|].
  destruct (trim_right p s) as [|d t] eqn:Ht.
  - destruct (p c) eqn:Hc; [|exists s; cbn in Hr; by subst s].
    exists (String c s). cbn. by rewrite Hc, Hr.
  - exists r. by rewrite Hr at 1.
Qed.

(** * encoding/base64

    The standard encoding with padding, on the bits of the bytes, and that
    decoding undoes encoding. *)

(** A digit of the encoding, most significant bit first. *)
Record sextet := Sextet { b5 : bool; b4 : bool; b3 : bool; b2 : bool; b1 : bool; b0 : bool }.

Definition nat_of_sextet (x : sextet) : nat :=
  nat_of_ascii (Ascii (b0 x) (b1 x) (b2 x) (b3 x) (b4 x) (b5 x) false false).
Definition sextet_of_nat (n : nat) : sextet :=
  match ascii_of_nat n with Ascii x0 x1 x2 x3 x4 x5 _ _ => Sextet x5 x4 x3 x2 x1 x0 end.

Definition digit_of (x : sextet) : ascii :=
  let n := nat_of_sextet x in
  ascii_of_nat (if (n <? 26)%nat then 65 + n
                else if (n <? 52)%nat then 97 + (n - 26)
                else if (n <? 62)%nat then 48 + (n - 52)
                else if (n =? 62)%nat then 43 else 47).
Definition sextet_of (c : ascii) : option sextet :=
  let n := code c in
  if is_upper c then Some (sextet_of_nat (n - 65))
  else if is_lower c then Some (sextet_of_nat (n - 97 + 26))
  else if is_digit c then Some (sextet_of_nat (n - 48 + 52))
  else if (n =? 43)%nat then Some (sextet_of_nat 62)
  else if (n =? 47)%nat then Some (sextet_of_nat 63)
  else None.

(** The sextets of three bytes. *)
Definition high6 (a : ascii) : sextet :=
  let '(Ascii _ _ a2 a3 a4 a5 a6 a7) := a in Sextet a7 a6 a5 a4 a3 a2.
Definition mid1 (a b : ascii) : sextet :=
  let '(Ascii a0 a1 _ _ _ _ _ _) := a in
  let '(Ascii _ _ _ _ b4 b5 b6 b7) := b in Sextet a1 a0 b7 b6 b5 b4.
Definition mid2 (b c : ascii) : sextet :=
  let '(Ascii b0 b1 b2 b3 _ _ _ _) := b in
  let '(Ascii _ _ _ _ _ _ c6 c7) := c in Sextet b3 b2 b1 b0 c7 c6.
Definition low6 (c : ascii) : sextet :=
  let '(Ascii c0 c1 c2 c3 c4 c5 _ _) := c in Sextet c5 c4 c3 c2 c1 c0.

Definition byte1 (x y : sextet) : ascii :=
  Ascii (b4 y) (b5 y) (b0 x) (b1 x) (b2 x) (b3 x) (b4 x) (b5 x).
Definition byte2 (y z : sextet) : ascii :=
  Ascii (b2 z) (b3 z) (b4 z) (b5 z) (b0 y) (b1 y) (b2 y) (b3 y).
Definition byte3 (z t : sextet) : ascii :=
  Ascii (b0 t) (b1 t) (b2 t) (b3 t) (b4 t) (b5 t) (b0 z) (b1 z).

Definition zero : ascii := "000"%char.
Definition pad : ascii := "="%char.

Fixpoint EncodeToString (s : string) : string :=
  match s with
  | String a (String b (String c s')) =>
      String (digit_of (high6 a)) (String (digit_of (mid1 a b))
        (String (digit_of (mid2 b c)) (String (digit_of (low6 c)) (EncodeToString s'))))
  | String a (String b "") =>
      String (digit_of (high6 a)) (String (digit_of (mid1 a b))
        (String (digit_of (mid2 b zero)) (String pad "")))
  | String a "" =>
      String (digit_of (high6 a)) (String (digit_of (mid1 a zero)) (String pad (String pad "")))
  | "" => ""
  end.

Fixpoint decode (s : string) : option string :=
  match s with
  | "" => Some ""
  | String p (String q (String r (String t s'))) =>
      x ← sextet_of p;
      y ← sextet_of q;
      if decide (r = pad) then
        if decide (t = pad ∧ s' = "") then Some (String (byte1 x y) "") else None
      else
        z ← sextet_of r;
        if decide (t = pad) then
          if decide (s' = "") then Some (String (byte1 x y) (String (byte2 y z) "")) else None
        else
          u ← sextet_of t;
          rest ← decode s';
          Some (String (byte1 x y) (String (byte2 y z) (String (byte3 z u) rest)))
  | _ => None
  end.
(** The decoder skips the ends of lines. *)
Definition line_end (c : ascii) : bool := (code c =? 10)%nat || (code c =? 13)%nat.
Definition DecodeString (s : string) : option string := decode (sfilter (λ c, negb (line_end c)) s).

Lemma sextet_digit x : sextet_of (digit_of x) = Some x ∧ digit_of x ≠ pad.
Proof. by destruct x as [[] [] [] [] [] []]. Qed.
Lemma sextet_of_digit x : sextet_of (digit_of x) = Some x.
Proof. apply sextet_digit. Qed.
Lemma digit_not_pad x : digit_of x ≠ pad.
Proof. apply sextet_digit. Qed.
Lemma byte1_back a b : byte1 (high6 a) (mid1 a b) = a.
Proof. by destruct a, b. Qed.
Lemma byte2_back a b c : byte2 (mid1 a b) (mid2 b c) = b.
Proof. by destruct a, b, c. Qed.
Lemma byte3_back b c : byte3 (mid2 b c) (low6 c) = c.
Proof. by destruct b, c. Qed.

(** Every text of bytes, by groups of three. *)
Lemma three_ind (P : string → Prop) :
  P "" → (∀ a, P (String a "")) → (∀ a b, P (String a (String b ""))) →
  (∀ a b c s, P s → P (String a (String b (String c s)))) → ∀ s, P s.
Proof.
  intros H0 H1 H2 H3. assert (∀ s, P s ∧ (∀ a, P (String a s)) ∧ (∀ a b, P (String a (String b s)))) as H;
    [|intros s; apply H].
  induction s as [|c s (IH0 & IH1 & IH2)]; [auto|]. split_and!; [apply IH1|intros a; apply IH2|].
  intros a b. by apply H3.
Qed.

Lemma decode_encode s : decode (EncodeToString s) = Some s.
Proof.
  induction s as [|a|a b|a b c s IH] using three_ind; [done|..]; cbn [EncodeToString decode];
    rewrite !sextet_of_digit; cbn [mbind option_bind].
  - by rewrite byte1_back.
  - rewrite decide_False by apply digit_not_pad. cbn. by rewrite byte1_back, byte2_back.
  - rewrite !decide_False by apply digit_not_pad. rewrite IH. cbn.
    by rewrite byte1_back, byte2_back, byte3_back.
Qed.
Lemma digit_line x : line_end (digit_of x) = false.
Proof. by destruct x as [[] [] [] [] [] []]. Qed.
Lemma encode_lines s : sfilter (λ c, negb (line_end c)) (EncodeToString s) = EncodeToString s.
Proof.
  induction s as [|a|a b|a b c s IH] using three_ind; [done|..]; cbn [EncodeToString sfilter];
    rewrite !digit_line; [done..|]. cbn [negb]. by rewrite IH.
Qed.
Lemma DecodeString_EncodeToString s : DecodeString (EncodeToString s) = Some s.
Proof. unfold DecodeString. by rewrite encode_lines, decode_encode. Qed.

Example EncodeToString_ex :
  EncodeToString "user:pass" = "dXNlcjpwYXNz" ∧ EncodeToString "a" = "YQ==" ∧
  EncodeToString "ab" = "YWI=" ∧ DecodeString "YWI" = None.
Proof. done. Qed.
