(* ===== verification/GoRegexp.v ===== *)
(** * Go's regexp package

    The expressions DevPod compiles are written in the syntax [re], with the
    leftmost-first (backtracking) semantics of package regexp.  [matches] is
    the declarative semantics and the matcher is proved sound and complete
    for it.  Every class the code uses is a class of ASCII bytes or the
    complement of one, for which matching bytes and matching UTF-8 runes
    agree. *)

From S2P Require Import Prelude GoStrings.
From stdpp Require Import base sets list strings.
From Stdlib Require Import Lia.

Local Open Scope string_scope.

Inductive re : Type :=
| Eps
| Chr (p : ascii → bool)
| Cat (a b : re)
| Alt (a b : re)
| Star (greedy : bool) (a : re)
| Grp (n : nat) (a : re)
| Bot (* ^ *)
| Eot (* $ *)
| Bol (* ^ under (?m) *)
| Eol (* $ under (?m) *).

Definition Plus (greedy : bool) (a : re) : re := Cat a (Star greedy a).
Definition Opt (a : re) : re := Alt a Eps.
Definition chr (c : ascii) : re := Chr (λ d, bool_decide (d = c)).
Fixpoint lit (s : string) : re :=
  match s with
  | "" => Eps
  | String c "" => chr c
  | String c s' => Cat (chr c) (lit s')
  end.

(** Captures, the latest first. *)
Definition caps : Type := list (nat * string).
Fixpoint cap (cs : caps) (n : nat) : option string :=
  match cs with
  | [] => None
  | (m, s) :: cs' => if decide (m = n) then Some s else cap cs' n
  end.
(** A group that did not take part is the empty string in
    [FindStringSubmatch]. *)
Definition sub (cs : caps) (n : nat) : string := default "" (cap cs n).

Definition consumed (s s' : string) : string :=
  stake (String.length s - String.length s') s.

Definition at_bol (prev : option ascii) : bool :=
  match prev with None => true | Some c => bool_decide (c = "010"%char) end.
Definition at_eol (s : string) : bool :=
  match s with "" => true | String c _ => bool_decide (c = "010"%char) end.

(** The matcher, in continuation-passing style: [prev] is the byte before
    the position, [s] the text from it on. *)
Section Matcher.
Context {X : Type}.

Fixpoint star_loop (greedy : bool)
    (body : option ascii → string → caps →
            (option ascii → string → caps → option X) → option X)
    (k : option ascii → string → caps → option X)
    (fuel : nat) (prev : option ascii) (s : string) (cs : caps) : option X :=
  let more :=
    match fuel with
    | 0 => None
    | S f =>
        body prev s cs (λ prev' s' cs',
          if (String.length s' <? String.length s)%nat
          then star_loop greedy body k f prev' s' cs' else None)
    end in
  if greedy
  then match more with Some x => Some x | None => k prev s cs end
  else match k prev s cs with Some x => Some x | None => more end.

Fixpoint rmatch (r : re) (prev : option ascii) (s : string) (cs : caps)
    (k : option ascii → string → caps → option X) : option X :=
  match r with
  | Eps => k prev s cs
  | Chr p =>
      match s with
      | String c s' => if p c then k (Some c) s' cs else None
      | "" => None
      end
  | Cat a b =>
      rmatch a prev s cs (λ prev' s' cs', rmatch b prev' s' cs' k)
  | Alt a b =>
      match rmatch a prev s cs k with
      | Some x => Some x
      | None => rmatch b prev s cs k
      end
  | Star greedy a => star_loop greedy (rmatch a) k (String.length s) prev s cs
  | Grp n a =>
      rmatch a prev s cs (λ prev' s' cs',
        k prev' s' ((n, consumed s s') :: cs'))
  | Bot => match prev with None => k prev s cs | Some _ => None end
  | Eot => match s with "" => k prev s cs | _ => None end
  | Bol => if at_bol prev then k prev s cs else None
  | Eol => if at_eol s then k prev s cs else None
  end.
End Matcher.

(** ** Searching *)

Record rmatched := Matched {
  m_before : string;      (* text skipped before the match *)
  m_text : string;        (* the matched text, submatch 0 *)
  m_caps : caps;
  m_prev : option ascii;  (* the byte before the remaining text *)
  m_after : string;       (* the remaining text *)
}.

Definition match_here (r : re) (prev : option ascii) (s : string)
    : option (option ascii * string * caps) :=
  rmatch r prev s [] (λ prev' s' cs', Some (prev', s', cs')).

Fixpoint find_from (r : re) (prev : option ascii) (s : string)
    : option rmatched :=
  match match_here r prev s with
  | Some (prev', s', cs') => Some (Matched "" (consumed s s') cs' prev' s')
  | None =>
      match s with
      | "" => None
      | String c s' =>
          m ← find_from r (Some c) s';
          Some (Matched (String c (m_before m)) (m_text m) (m_caps m)
                        (m_prev m) (m_after m))
      end
  end.

(** [FindStringSubmatch] *)
Definition FindStringSubmatch (r : re) (s : string) : option caps :=
  m_caps <$> find_from r None s.
(** [MatchString] *)
Definition MatchString (r : re) (s : string) : bool :=
  match find_from r None s with Some _ => true | None => false end.

(** [ReplaceAllStringFunc]; the function sees the match and its captures.
    None of the expressions matches the empty string, but the step past an
    empty match is the one of Go. *)
Fixpoint replace_from (r : re) (f : string → caps → string) (fuel : nat)
    (prev : option ascii) (s : string) : string :=
  match fuel with
  | 0 => s
  | S n =>
      match find_from r prev s with
      | None => s
      | Some m =>
          m_before m +:+ f (m_text m) (m_caps m) +:+
          match m_text m, m_after m with
          | "", "" => ""
          | "", String c s' => String c (replace_from r f n (Some c) s')
          | _, s' => replace_from r f n (m_prev m) s'
          end
      end
  end.
Definition ReplaceAllFunc (r : re) (s : string) (f : string → caps → string)
    : string := replace_from r f (S (String.length s)) None s.
Definition ReplaceAllString (r : re) (s repl : string) : string :=
  ReplaceAllFunc r s (λ _ _, repl).

(** [FindAllStringSubmatch(s, -1)] *)
Fixpoint find_all_from (r : re) (fuel : nat) (prev : option ascii) (s : string)
    : list caps :=
  match fuel with
  | 0 => []
  | S n =>
      match find_from r prev s with
      | None => []
      | Some m =>
          m_caps m ::
          match m_text m, m_after m with
          | "", "" => []
          | "", String c s' => find_all_from r n (Some c) s'
          | _, s' => find_all_from r n (m_prev m) s'
          end
      end
  end.
Definition FindAllStringSubmatch (r : re) (s : string) : list caps :=
  find_all_from r (S (String.length s)) None s.

(** ** Declarative semantics *)

(** [matches r prev s cs prev' s' cs']: [r] matches from the position
    [(prev, s)] to the position [(prev', s')]. *)
Inductive matches : re → option ascii → string → caps →
                    option ascii → string → caps → Prop :=
| mt_eps prev s cs : matches Eps prev s cs prev s cs
| mt_chr p prev c s cs :
    p c = true → matches (Chr p) prev (String c s) cs (Some c) s cs
| mt_cat a b prev s cs p1 s1 c1 p2 s2 c2 :
    matches a prev s cs p1 s1 c1 → matches b p1 s1 c1 p2 s2 c2 →
    matches (Cat a b) prev s cs p2 s2 c2
| mt_alt_l a b prev s cs p1 s1 c1 :
    matches a prev s cs p1 s1 c1 → matches (Alt a b) prev s cs p1 s1 c1
| mt_alt_r a b prev s cs p1 s1 c1 :
    matches b prev s cs p1 s1 c1 → matches (Alt a b) prev s cs p1 s1 c1
| mt_star_nil g a prev s cs : matches (Star g a) prev s cs prev s cs
| mt_star_cons g a prev s cs p1 s1 c1 p2 s2 c2 :
    matches a prev s cs p1 s1 c1 →
    String.length s1 < String.length s →
    matches (Star g a) p1 s1 c1 p2 s2 c2 →
    matches (Star g a) prev s cs p2 s2 c2
| mt_grp n a prev s cs p1 s1 c1 :
    matches a prev s cs p1 s1 c1 →
    matches (Grp n a) prev s cs p1 s1 ((n, consumed s s1) :: c1)
| mt_bot s cs : matches Bot None s cs None s cs
| mt_eot prev cs : matches Eot prev "" cs prev "" cs
| mt_bol prev s cs : at_bol prev = true → matches Bol prev s cs prev s cs
| mt_eol prev s cs : at_eol s = true → matches Eol prev s cs prev s cs.
#[export] Hint Constructors matches : devpod.

Lemma matches_suffix r prev s cs p' s' c' :
  matches r prev s cs p' s' c' → s = consumed s s' +:+ s'.
Proof.
  enough (matches r prev s cs p' s' c' → ∃ w, s = w +:+ s') as H.
  { intros [w ->]%H. unfold consumed. rewrite slength_app.
    replace (String.length w + String.length s' - String.length s')%nat
      with (String.length w) by lia. by rewrite stake_app. }
  induction 1; try (by exists ""); try done.
  - by exists (String c "").
  - destruct IHmatches1 as [w1 ->], IHmatches2 as [w2 ->].
    exists (w1 +:+ w2). by rewrite sapp_assoc.
  - destruct IHmatches1 as [w1 ->], IHmatches2 as [w2 ->].
    exists (w1 +:+ w2). by rewrite sapp_assoc.
Qed.

Lemma consumed_app w s : consumed (w +:+ s) s = w.
Proof.
  unfold consumed. rewrite slength_app.
  replace (String.length w + String.length s - String.length s)%nat
    with (String.length w) by lia. apply stake_app.
Qed.

#[local] Arguments Nat.ltb : simpl never.
Local Ltac found := intros; do 3 eexists; split; [|eassumption]; eauto with devpod.

(** The matcher finds only real matches... *)
Lemma rmatch_sound {X} r : ∀ prev s cs (k : _ → _ → _ → option X) x,
  rmatch r prev s cs k = Some x →
  ∃ p' s' c', matches r prev s cs p' s' c' ∧ k p' s' c' = Some x.
Proof.
  induction r as [|p|a IHa b IHb|a IHa b IHb|g a IHa|n a IHa| | | |];
    intros prev s cs k x; cbn.
  - found.
  - destruct s as [|c s]; [done|]. destruct (p c) eqn:Hc; [|done].
    found.
  - intros (p1 & s1 & c1 & H1 & (p2 & s2 & c2 & H2 & Hk)%IHb)%IHa.
    found.
  - destruct (rmatch a prev s cs k) as [y|] eqn:Ha.
    + intros [= <-]. apply IHa in Ha as (p1 & s1 & c1 & ? & ?).
      found.
    + intros (p1 & s1 & c1 & ? & ?)%IHb. found.
  - generalize (String.length s) at 1 as fuel. intros fuel.
    revert prev s cs. induction fuel as [|f IHf]; intros prev s cs; cbn.
    { destruct g, (k prev s cs) eqn:?; try done; intros [= ->]; found. }
    set (more := rmatch a prev s cs _).
    assert (more = Some x → ∃ p' s' c',
      matches (Star g a) prev s cs p' s' c' ∧ k p' s' c' = Some x) as Hmore.
    { intros (p1 & s1 & c1 & H1 & Hk)%IHa.
      destruct (String.length s1 <? String.length s)%nat eqn:Hlt; [|done].
      apply Nat.ltb_lt in Hlt.
      apply IHf in Hk as (p2 & s2 & c2 & H2 & Hk).
      found. }
    destruct g, more, (k prev s cs) eqn:?; try done; intros [= ->]; auto; found.
  - intros (p1 & s1 & c1 & H1 & Hk)%IHa. found.
  - destruct prev; [done|]. found.
  - destruct s; [|done]. found.
  - destruct (at_bol prev) eqn:?; [|done]. found.
  - destruct (at_eol s) eqn:?; [|done]. found.
Qed.

(** ... and misses none. *)
Lemma rmatch_complete {X} r : ∀ prev s cs (k : _ → _ → _ → option X) p' s' c',
  matches r prev s cs p' s' c' → is_Some (k p' s' c') →
  is_Some (rmatch r prev s cs k).
Proof.
  induction r as [|p|a IHa b IHb|a IHa b IHb|g a IHa|n a IHa| | | |];
    intros prev s cs k p' s' c' Hm Hk; cbn.
  - by inversion Hm; subst.
  - inversion Hm as [|? ? ? ? ? Hp| | | | | | | | | |]; subst. by rewrite Hp.
  - inversion Hm; subst. eauto.
  - destruct (rmatch a prev s cs k) eqn:Ha; [by eauto|].
    inversion Hm; subst; [|by eauto].
    edestruct IHa as [? Hy]; [done..|]. congruence.
  - assert (String.length s ≤ String.length s)%nat as Hfuel by lia.
    revert Hfuel. generalize (String.length s) at 2 3 as fuel. intros fuel.
    remember (Star g a) as r eqn:Hr. revert fuel.
    induction Hm as [| | | | |g0 a0 prev s cs
                     |g0 a0 prev s cs p1 s1 c1 p2 s2 c2 H1 _ Hlt H2 IH| | | | |];
      intros fuel Hfuel; simplify_eq.
    + destruct fuel; cbn; destruct g, Hk as [y ->]; cbn; try by eexists.
      by destruct (rmatch _ _ _ _ _); eexists.
    + destruct fuel as [|f]; [lia|]. cbn.
      assert (is_Some (rmatch a prev s cs (λ prev' s' cs',
        if (String.length s' <? String.length s)%nat
        then star_loop g (rmatch a) k f prev' s' cs' else None))) as [y ->].
      { eapply IHa; [done|]. rewrite (proj2 (Nat.ltb_lt _ _)) by done.
        apply IH; [done..|lia]. }
      destruct g, (k prev s cs); eauto.
  - inversion Hm; subst. eauto.
  - by inversion Hm; subst.
  - by inversion Hm; subst.
  - inversion Hm as [| | | | | | | | | |? ? ? Hb|]; subst. by rewrite Hb.
  - inversion Hm as [| | | | | | | | | | |? ? ? Hb]; subst. by rewrite Hb.
Qed.

Lemma match_here_sound r prev s p' s' c' :
  match_here r prev s = Some (p', s', c') → matches r prev s [] p' s' c'.
Proof. intros (p1 & s1 & c1 & ? & ?)%rmatch_sound. naive_solver. Qed.

Lemma match_here_None r prev s :
  match_here r prev s = None ↔ ∀ p' s' c', ¬ matches r prev s [] p' s' c'.
Proof.
  split.
  - intros Hn p' s' c' Hm.
    destruct (rmatch_complete r prev s [] (λ p s c, Some (p, s, c)) p' s' c')
      as [y Hy]; [done|by eexists|]. unfold match_here in Hn. congruence.
  - intros Hn. destruct (match_here r prev s) as [[[p' s'] c']|] eqn:Hm; [|done].
    by apply match_here_sound, Hn in Hm.
Qed.

(** What [find_from] returns splits the text around a match. *)
Lemma find_from_spec r prev s m :
  find_from r prev s = Some m →
  s = m_before m +:+ m_text m +:+ m_after m ∧
  ∃ prev0, matches r prev0 (m_text m +:+ m_after m) [] (m_prev m) (m_after m)
             (m_caps m) ∧
           (m_before m = "" → prev0 = prev) ∧ (m_before m ≠ "" → prev0 ≠ None).
Proof.
  revert prev m. induction s as [|c s IH]; intros prev m; cbn [find_from].
  - destruct (match_here r prev "") as [[[p' s'] c']|] eqn:Hm; [|done].
    intros [= <-]. apply match_here_sound in Hm.
    pose proof (matches_suffix _ _ _ _ _ _ _ Hm) as Hs.
    cbn [m_before m_text m_after m_prev m_caps]. rewrite <-Hs.
    split; [done|]. exists prev. by split_and!.
  - destruct (match_here r prev (String c s)) as [[[p' s'] c']|] eqn:Hm.
    + intros [= <-]. apply match_here_sound in Hm.
      pose proof (matches_suffix _ _ _ _ _ _ _ Hm) as Hs.
      cbn [m_before m_text m_after m_prev m_caps]. rewrite <-Hs.
      split; [done|]. exists prev. by split_and!.
    + destruct (find_from r (Some c) s) as [m'|] eqn:Hf; [|done].
      intros [= <-]. apply IH in Hf as (-> & prev0 & Hm' & H1 & H2). cbn.
      split; [done|]. exists prev0. split_and!; [done|done|].
      intros _. destruct (decide (m_before m' = "")); [|by auto].
      rewrite H1 by done. done.
Qed.

Lemma find_from_None r prev s :
  find_from r prev s = None → match_here r prev s = None.
Proof. destruct s; cbn; by destruct (match_here r prev _) as [[[??]?]|]. Qed.

(** ** Character classes: [[...]] and [[...]+] *)

Definition snone (p : ascii → bool) (s : string) : bool := sforall (λ c, negb (p c)) s.

Lemma matches_chr p prev s cs p' s' c' :
  matches (Chr p) prev s cs p' s' c' →
  ∃ c, s = String c s' ∧ p c = true ∧ c' = cs ∧ p' = Some c.
Proof. inversion 1; subst. eauto. Qed.

Lemma matches_star_chr g p prev s cs p' s' c' :
  matches (Star g (Chr p)) prev s cs p' s' c' →
  ∃ w, s = w +:+ s' ∧ sforall p w = true ∧ c' = cs.
Proof.
  remember (Star g (Chr p)) as r eqn:Hr.
  induction 1; simplify_eq; [by exists ""|].
  match goal with H : matches (Chr p) _ _ _ _ _ _ |- _ =>
    apply matches_chr in H as (c & -> & Hc & -> & _) end.
  destruct IHmatches2 as (w & -> & Hw & ->); [done|].
  exists (String c w). cbn. by rewrite Hc.
Qed.

Definition is_class (r : re) (p : ascii → bool) : Prop :=
  r = Chr p ∨ ∃ g, r = Plus g (Chr p).

Lemma is_class_matches r p prev s cs p' s' c' :
  is_class r p → matches r prev s cs p' s' c' →
  ∃ c w, s = String c w +:+ s' ∧ sforall p (String c w) = true.
Proof.
  intros [->|[g ->]] Hm.
  - apply matches_chr in Hm as (c & -> & Hc & _ & _).
    exists c, "". cbn. by rewrite Hc.
  - inversion Hm; subst.
    match goal with H : matches (Chr p) _ _ _ _ _ _ |- _ =>
      apply matches_chr in H as (c & -> & Hc & -> & _) end.
    match goal with H : matches (Star _ _) _ _ _ _ _ _ |- _ =>
      apply matches_star_chr in H as (w & -> & Hw & _) end.
    exists c, w. cbn. by rewrite Hc.
Qed.

Lemma is_class_match_here r p prev c s :
  is_class r p → p c = true → match_here r prev (String c s) ≠ None.
Proof.
  intros Hr Hc Hn. eapply match_here_None in Hn. apply Hn.
  destruct Hr as [->|[g ->]]; [by constructor|].
  eapply mt_cat; [by constructor|apply mt_star_nil].
Qed.

Lemma find_class_spec r p prev s :
  is_class r p →
  match find_from r prev s with
  | None => snone p s = true
  | Some m =>
      s = m_before m +:+ m_text m +:+ m_after m ∧
      snone p (m_before m) = true ∧ sforall p (m_text m) = true ∧ m_text m ≠ ""
  end.
Proof.
  intros Hr. revert prev. induction s as [|c s IH]; intros prev; cbn [find_from].
  - destruct (match_here r prev "") as [[[p' s'] c']|] eqn:Hm; [|done].
    apply match_here_sound, (is_class_matches _ _ _ _ _ _ _ _ Hr) in Hm.
    by destruct Hm as (? & ? & ? & _).
  - destruct (match_here r prev (String c s)) as [[[p' s'] c']|] eqn:Hm.
    + apply match_here_sound, (is_class_matches _ _ _ _ _ _ _ _ Hr) in Hm.
      destruct Hm as (d & w & Heq & Hw). cbn [m_before m_text m_after].
      rewrite Heq, consumed_app. done.
    + assert (p c = false) as Hc.
      { apply not_true_iff_false. intros Hc. by eapply is_class_match_here in Hm. }
      specialize (IH (Some c)). destruct (find_from r (Some c) s) as [m|]; cbn.
      * destruct IH as (-> & Hb & Ht & Hne). cbn.
        split_and!; [done| |done|done].
        unfold snone. cbn. by rewrite Hc.
      * unfold snone. cbn. by rewrite Hc.
Qed.

(** [MatchString] of a class finds whether some byte is in the class. *)
Lemma MatchString_class r p s :
  is_class r p → MatchString r s = negb (snone p s).
Proof.
  intros Hr. unfold MatchString. pose proof (find_class_spec r p None s Hr) as H.
  destruct (find_from r None s) as [m|]; [|by rewrite H].
  destruct H as (-> & _ & Ht & Hne). unfold snone. rewrite !sforall_app.
  destruct (m_text m) as [|c t]; [done|]. cbn in *.
  apply andb_true_iff in Ht as [-> _]. cbn. by rewrite andb_false_r.
Qed.

Lemma sfilter_app q (a b : string) :
  sfilter q (a +:+ b) = sfilter q a +:+ sfilter q b.
Proof.
  induction a as [|c a IH]; cbn; [done|]. destruct (q c); by rewrite IH.
Qed.

Lemma sfilter_none p s : sforall p s = true → sfilter (λ c, negb (p c)) s = "".
Proof.
  induction s as [|c s IH]; cbn; [done|].
  rewrite andb_true_iff. intros [-> ?]. by apply IH.
Qed.

(** Replacing a class by the empty string keeps the other bytes. *)
Lemma ReplaceAll_class_empty r p s :
  is_class r p → ReplaceAllString r s "" = sfilter (λ c, negb (p c)) s.
Proof.
  intros Hr. unfold ReplaceAllString, ReplaceAllFunc.
  assert (String.length s < S (String.length s)) as Hlt by lia. revert Hlt.
  generalize (S (String.length s)) as fuel. intros fuel. generalize (@None ascii).
  revert s. induction fuel as [|f IH]; intros s prev Hlt; [lia|]. cbn.
  pose proof (find_class_spec r p prev s Hr) as H.
  destruct (find_from r prev s) as [m|].
  - destruct H as (-> & Hb & Ht & Hne).
    rewrite !sfilter_app, (sfilter_id _ (m_before m)) by done.
    rewrite (sfilter_none p (m_text m)) by done. cbn.
    rewrite !slength_app in Hlt. f_equal.
    destruct (m_text m) as [|c t]; [done|]. apply IH. cbn in Hlt. lia.
  - by rewrite sfilter_id.
Qed.

Lemma smap_id_none p d s :
  snone p s = true → smap (λ c, if p c : bool then d else c) s = s.
Proof.
  unfold snone. induction s as [|c s IH]; cbn; [done|].
  rewrite andb_true_iff, negb_true_iff. intros [-> ?]. by rewrite IH.
Qed.

Lemma smap_app f (a b : string) : smap f (a +:+ b) = smap f a +:+ smap f b.
Proof. induction a as [|c a IH]; cbn; [done|]. by rewrite IH. Qed.

Lemma find_chr_text p prev s m :
  find_from (Chr p) prev s = Some m → ∃ c, m_text m = String c "" ∧ p c = true.
Proof.
  intros (_ & prev0 & Hm & _)%find_from_spec.
  apply matches_chr in Hm as (c & Heq & Hc & _). exists c. split; [|done].
  change (String c (m_after m)) with (String c "" +:+ m_after m) in Heq.
  rewrite <-(consumed_app (m_text m) (m_after m)), Heq. apply consumed_app.
Qed.

(** Replacing single bytes of a class replaces each of them. *)
Fixpoint sflat (f : ascii → string) (s : string) : string :=
  match s with "" => "" | String c s' => f c +:+ sflat f s' end.
Definition replace_char (p : ascii → bool) (repl : string) (c : ascii) : string :=
  if p c then repl else String c "".
Lemma sflat_app f a b : sflat f (a +:+ b) = sflat f a +:+ sflat f b.
Proof. induction a as [|c a IH]; [done|]. cbn. by rewrite IH, sapp_assoc. Qed.
Lemma sflat_none p repl s :
  sforall (λ c, negb (p c)) s = true → sflat (replace_char p repl) s = s.
Proof.
  induction s as [|c s IH]; [done|]. cbn. intros [Hc Hs]%andb_true_iff.
  unfold replace_char at 1. apply negb_true_iff in Hc. rewrite Hc. cbn. by rewrite IH.
Qed.
Lemma ReplaceAll_chr_str p s repl :
  ReplaceAllString (Chr p) s repl = sflat (replace_char p repl) s.
Proof.
  unfold ReplaceAllString, ReplaceAllFunc.
  assert (String.length s < S (String.length s)) as Hlt by lia. revert Hlt.
  generalize (S (String.length s)) as fuel. intros fuel. generalize (@None ascii).
  revert s. induction fuel as [|f IH]; intros s prev Hlt; [lia|]. cbn.
  pose proof (find_class_spec (Chr p) p prev s (or_introl eq_refl)) as H.
  destruct (find_from (Chr p) prev s) as [m|] eqn:Hf; [|by rewrite sflat_none].
  destruct H as (-> & Hb & _ & _).
  destruct (find_chr_text _ _ _ _ Hf) as (c & Ht & Hc). rewrite Ht in *.
  rewrite !sflat_app, sflat_none by done. cbn. unfold replace_char at 1. rewrite Hc.
  rewrite sapp_nil_r. do 2 f_equal.
  apply IH. rewrite !slength_app in Hlt. cbn in Hlt. lia.
Qed.
Lemma ReplaceAll_chr p s d :
  ReplaceAllString (Chr p) s (String d "") =
  smap (λ c, if p c : bool then d else c) s.
Proof.
  rewrite ReplaceAll_chr_str. induction s as [|c s IH]; [done|]. cbn. rewrite IH.
  unfold replace_char. by destruct (p c).
Qed.

(** ** Groups *)

Lemma matches_plus_chr g p prev s cs p' s' c' :
  matches (Plus g (Chr p)) prev s cs p' s' c' →
  sforall p (consumed s s') = true ∧ consumed s s' ≠ "" ∧ c' = cs.
Proof.
  inversion 1; subst.
  match goal with H : matches (Chr p) _ _ _ _ _ _ |- _ =>
    apply matches_chr in H as (c & -> & Hc & -> & _) end.
  match goal with H : matches (Star _ _) _ _ _ _ _ _ |- _ =>
    apply matches_star_chr in H as (w & -> & Hw & ->) end.
  change (String c (w +:+ s')) with (String c w +:+ s').
  rewrite consumed_app. cbn. by rewrite Hc, Hw.
Qed.

(** Groups with other numbers do not change a capture. *)
Fixpoint groups (r : re) : list nat :=
  match r with
  | Grp n a => n :: groups a
  | Cat a b | Alt a b => groups a ++ groups b
  | Star _ a => groups a
  | _ => []
  end.

Lemma matches_cap r prev s cs p' s' c' n :
  matches r prev s cs p' s' c' → n ∉ groups r → cap c' n = cap cs n.
Proof.
  induction 1; cbn; intros Hn; try done;
    repeat match goal with
    | H : n ∉ (_ ++ _)%list |- _ => apply not_elem_of_app in H as [??]
    | H : n ∉ _ :: _ |- _ => apply not_elem_of_cons in H as [??]
    end; auto.
  - rewrite IHmatches2, IHmatches1; done.
  - rewrite IHmatches2, IHmatches1; done.
  - rewrite decide_False by congruence. auto.
Qed.

(** Every element of [FindAllStringSubmatch] comes from a match. *)
Lemma find_all_from_matches r fuel : ∀ prev s cs,
  cs ∈ find_all_from r fuel prev s →
  ∃ prev0 s0 p1 s1, matches r prev0 s0 [] p1 s1 cs.
Proof.
  induction fuel as [|f IH]; intros prev s cs; cbn; [set_solver|].
  destruct (find_from r prev s) as [m|] eqn:Hf; [|set_solver].
  intros [->|Hin]%elem_of_cons.
  - apply find_from_spec in Hf as (_ & prev0 & Hm & _). eauto.
  - destruct (m_text m), (m_after m); eauto; set_solver.
Qed.

(** ** Matching the matched text again

    A continuation [k'] over prefixes [u] agrees with [k] over [u ++ rest] as
    far as finding the result [x] is concerned.  The relation is kept by the
    matcher of an expression without anchors, so that an expression that
    matched a text matches the text alone with the same captures. *)
Fixpoint anchor_free (r : re) : bool :=
  match r with
  | Eps | Chr _ => true
  | Cat a b | Alt a b => anchor_free a && anchor_free b
  | Star _ a | Grp _ a => anchor_free a
  | Bot | Eot | Bol | Eol => false
  end.

Section Restrict.
Context {X : Type} (rest : string) (x : X).
Notation cont := (option ascii → string → caps → option X).

Record below (k k' : cont) : Prop := {
  below_found : ∀ p p' u c, k p (u +:+ rest) c = Some x → k' p' u c = Some x;
  below_none : ∀ p p' u c, k p (u +:+ rest) c = None → k' p' u c = None;
  below_past : ∀ p s c, k p s c = Some x → ∃ u, s = u +:+ rest;
}.

Lemma consumed_restrict u u' : consumed (u +:+ rest) (u' +:+ rest) = consumed u u'.
Proof.
  unfold consumed. rewrite !slength_app.
  replace (String.length u + String.length rest -
           (String.length u' + String.length rest))%nat
    with (String.length u - String.length u')%nat by lia.
  apply stake_app_le. lia.
Qed.

Lemma below_chr p k k' : below k k' →
  below (λ q s c, rmatch (Chr p) q s c k) (λ q s c, rmatch (Chr p) q s c k').
Proof.
  intros [Hf Hn Hp]. split; cbn.
  - intros q q' [|d u] c; cbn.
    + destruct rest as [|d r] eqn:Hr; [done|]. destruct (p d); [|done].
      intros (u & Hu)%Hp. apply (f_equal String.length) in Hu.
      rewrite slength_app in Hu. cbn in Hu. lia.
    + destruct (p d); [apply Hf|done].
  - intros q q' [|d u] c; cbn; [done|]. destruct (p d); [apply Hn|done].
  - intros q [|d s] c; [done|]. destruct (p d); [|done].
    intros (u & ->)%Hp. by exists (String d u).
Qed.

Lemma below_grp n k k' : below k k' → ∀ u0,
  below (λ q s c, k q s ((n, consumed (u0 +:+ rest) s) :: c))
        (λ q s c, k' q s ((n, consumed u0 s) :: c)).
Proof.
  intros [Hf Hn Hp] u0. split.
  - intros q q' u c. rewrite consumed_restrict. apply Hf.
  - intros q q' u c. rewrite consumed_restrict. apply Hn.
  - intros q s c. apply Hp.
Qed.

(** Whoever finds [x] ends before [rest]. *)
Lemma past_rmatch r (k : cont) :
  (∀ p s c, k p s c = Some x → ∃ u, s = u +:+ rest) →
  ∀ p s c, rmatch r p s c k = Some x → ∃ u, s = u +:+ rest.
Proof.
  intros Hk p s c (p' & s' & c' & Hm & (u & ->)%Hk)%rmatch_sound.
  apply matches_suffix in Hm. exists (consumed s (u +:+ rest) +:+ u).
  by rewrite sapp_assoc.
Qed.

Lemma past_star g a (k : cont) :
  (∀ p s c, k p s c = Some x → ∃ u, s = u +:+ rest) →
  ∀ f p s c, star_loop g (rmatch a) k f p s c = Some x → ∃ u, s = u +:+ rest.
Proof.
  intros Hk. induction f as [|f IH]; intros p s c; cbn.
  - destruct g, (k p s c) eqn:Hkk; try done; intros [= ->]; by eapply Hk.
  - set (more := rmatch a p s c _).
    assert (more = Some x → ∃ u, s = u +:+ rest) as Hmore.
    { apply past_rmatch. intros p1 s1 c1. case_match; [apply IH|done]. }
    destruct g, more as [y|] eqn:Hm, (k p s c) as [z|] eqn:Hkk; try done;
      intros [= ->]; eauto.
Qed.

Lemma star_unfold g a (k : cont) f p s c :
  (String.length s ≤ f)%nat →
  star_loop g (rmatch a) k f p s c =
  let more := rmatch a p s c (λ p' s' c',
    if (String.length s' <? String.length s)%nat
    then star_loop g (rmatch a) k (pred f) p' s' c' else None) in
  if g then match more with Some y => Some y | None => k p s c end
  else match k p s c with Some y => Some y | None => more end.
Proof.
  destruct f as [|f]; [|done]. intros Hs. cbv zeta.
  destruct (rmatch a p s c _) as [y|] eqn:Hm; [|done].
  apply rmatch_sound in Hm as (p' & s' & c' & _ & Hk).
  destruct (String.length s' <? String.length s)%nat eqn:Hlt; [|done].
  apply Nat.ltb_lt in Hlt. lia.
Qed.

Definition restricts (a : re) : Prop :=
  ∀ k k', below k k' → below (λ q s c, rmatch a q s c k) (λ q s c, rmatch a q s c k').

Lemma star_below g a k k' : restricts a → below k k' → ∀ n u f f' p p' c,
  (String.length u ≤ n)%nat → (String.length (u +:+ rest) ≤ f)%nat →
  (String.length u ≤ f')%nat →
  (star_loop g (rmatch a) k f p (u +:+ rest) c = Some x →
   star_loop g (rmatch a) k' f' p' u c = Some x) ∧
  (star_loop g (rmatch a) k f p (u +:+ rest) c = None →
   star_loop g (rmatch a) k' f' p' u c = None).
Proof.
  intros Ha Hb. induction n as [n IH] using lt_wf_ind.
  intros u f f' p p' c Hn Hf Hf'.
  rewrite !(star_unfold g a) by done. cbv zeta.
  pose proof (below_found _ _ Hb p p' u c) as Kf.
  pose proof (below_none _ _ Hb p p' u c) as Kn.
  set (K := λ q s1 c1, if (String.length s1 <? String.length (u +:+ rest))%nat
                       then _ else None).
  set (K' := λ q s1 c1, if (String.length s1 <? String.length u)%nat
                        then star_loop g (rmatch a) k' _ q s1 c1 else None).
  assert (below K K') as HK.
  { assert (∀ u', (String.length (u' +:+ rest) <? String.length (u +:+ rest))%nat =
                  (String.length u' <? String.length u)%nat) as Hlt.
    { intros u'. rewrite !slength_app. apply eq_true_iff_eq.
      rewrite !Nat.ltb_lt. lia. }
    split; subst K K'; cbn beta.
    1, 2: intros q q' u' c1; rewrite Hlt; case_match eqn:Hl; [|done];
      apply Nat.ltb_lt in Hl; rewrite slength_app in Hf;
      apply (IH (String.length u')); rewrite ?slength_app; lia.
    intros q s1 c1. case_match; [|done]. apply past_star, (below_past _ _ Hb). }
  pose proof (below_found _ _ (Ha K K' HK) p p' u c) as Mf.
  pose proof (below_none _ _ (Ha K K' HK) p p' u c) as Mn. cbn beta in Mf, Mn.
  destruct g, (rmatch a p (u +:+ rest) c K) as [y|] eqn:HM,
    (k p (u +:+ rest) c) as [z|] eqn:Hk; split; intros; simplify_eq;
    first [by rewrite Mf | by rewrite Mn, Kf | by rewrite Mn, Kn
          |by rewrite Kf | by rewrite Kn, Mf | by rewrite Kn, Mn].
Qed.

Lemma rmatch_restricts r : anchor_free r = true → restricts r.
Proof.
  induction r as [|p|a IHa b IHb|a IHa b IHb|g a IHa|n a IHa| | | |]; cbn;
    intros Haf k k' Hb; try done; try apply andb_true_iff in Haf as [Ha Hb'].
  - by apply below_chr.
  - by apply (IHa Ha), (IHb Hb').
  - pose proof (IHa Ha k k' Hb) as [Af An Ap]. pose proof (IHb Hb' k k' Hb) as [Bf Bn Bp].
    split; cbn [rmatch]; cbn beta in *.
    + intros p p' u c. specialize (Af p p' u c). specialize (An p p' u c).
      specialize (Bf p p' u c). destruct (rmatch a p (u +:+ rest) c k); intros;
        [rewrite Af by congruence; done|]. rewrite An by done. by apply Bf.
    + intros p p' u c. specialize (An p p' u c). specialize (Bn p p' u c).
      case_match; [done|]. intros. rewrite An by done. by apply Bn.
    + intros p s c. specialize (Ap p s c). case_match; [|apply Bp].
      intros [= ->]. by apply Ap.
  - split; cbn [rmatch]; cbn beta.
    + intros p p' u c. by eapply (star_below g a k k' (IHa Haf) Hb).
    + intros p p' u c. by eapply (star_below g a k k' (IHa Haf) Hb).
    + intros p s c. apply past_star, (below_past _ _ Hb).
  - split; cbn [rmatch]; cbn beta.
    + intros p p' u c. apply (below_found _ _ (IHa Haf _ _ (below_grp n k k' Hb u))).
    + intros p p' u c. apply (below_none _ _ (IHa Haf _ _ (below_grp n k k' Hb u))).
    + intros p s c. apply past_rmatch. intros ???. apply (below_past _ _ Hb).
Qed.
End Restrict.

Lemma star_loop_ext {X} g a (k k' : _ → _ → _ → option X) :
  (∀ prev s cs (k k' : _ → _ → _ → option X),
     (∀ p s c, k p s c = k' p s c) → rmatch a prev s cs k = rmatch a prev s cs k') →
  (∀ p s c, k p s c = k' p s c) →
  ∀ n prev s cs,
  star_loop g (rmatch a) k n prev s cs = star_loop g (rmatch a) k' n prev s cs.
Proof.
  intros Ha Hk. induction n as [|n IH]; intros prev s cs; cbn; rewrite Hk; [done|].
  erewrite Ha; [reflexivity|]. intros p' s' c'. cbn. by rewrite IH.
Qed.

Lemma rmatch_ext {X} r : ∀ prev s cs (k k' : _ → _ → _ → option X),
  (∀ p s c, k p s c = k' p s c) → rmatch r prev s cs k = rmatch r prev s cs k'.
Proof.
  induction r as [|p|a IHa b IHb|a IHa b IHb|g a IHa|n a IHa| | | |];
    intros prev s cs k k' Hk; cbn; rewrite ?Hk; try done.
  - case_match; [done|]. by rewrite Hk.
  - apply IHa. intros. by apply IHb.
  - by rewrite (IHa _ _ _ _ k'), (IHb _ _ _ _ k').
  - by apply star_loop_ext.
  - apply IHa. intros. apply Hk.
Qed.

Lemma star_loop_fmap {X Y} (f : X → Y) g a (k : _ → _ → _ → option X) :
  (∀ prev s cs (k : _ → _ → _ → option X),
     rmatch a prev s cs (λ p s c, f <$> k p s c) = f <$> rmatch a prev s cs k) →
  ∀ n prev s cs,
  star_loop g (rmatch a) (λ p s c, f <$> k p s c) n prev s cs =
  f <$> star_loop g (rmatch a) k n prev s cs.
Proof.
  intros Ha. induction n as [|n IH]; intros prev s cs; cbn.
  - by destruct g, (k prev s cs).
  - set (K := λ (p' : option ascii) (s' : string) (c' : caps),
      if (String.length s' <? String.length s)%nat
      then star_loop g (rmatch a) k n p' s' c' else None).
    rewrite (rmatch_ext a prev s cs _ (λ p s c, f <$> K p s c)).
    + rewrite Ha. destruct g, (rmatch a prev s cs K), (k prev s cs); done.
    + intros p' s' c'. subst K. cbn beta. case_match; [by rewrite IH|done].
Qed.

Lemma rmatch_fmap {X Y} (f : X → Y) r : ∀ prev s cs (k : _ → _ → _ → option X),
  rmatch r prev s cs (λ p s c, f <$> k p s c) = f <$> rmatch r prev s cs k.
Proof.
  induction r as [|p|a IHa b IHb|a IHa b IHb|g a IHa|n a IHa| | | |];
    intros prev s cs k; cbn; try (by repeat case_match).
  - rewrite <-IHa. apply rmatch_ext. intros. apply IHb.
  - rewrite IHa, IHb. by destruct (rmatch a prev s cs k).
  - by apply star_loop_fmap.
Qed.

Lemma match_here_again r prev prev' s p' s' cs' :
  anchor_free r = true → match_here r prev s = Some (p', s', cs') →
  ∃ p'', match_here r prev' (consumed s s') = Some (p'', "", cs').
Proof.
  intros Haf Hm. pose proof (matches_suffix _ _ _ _ _ _ _ (match_here_sound _ _ _ _ _ _ Hm))
    as Hs. set (u := consumed s s') in *. unfold match_here in *.
  set (k1 := λ (_ : option ascii) (v : string) (c : caps), Some (v, c)).
  set (k2 := λ (_ : option ascii) (v : string) (c : caps), Some (v +:+ s', c)).
  assert (rmatch r prev (u +:+ s') [] k1 = Some (s', cs')) as H1.
  { rewrite <-Hs. transitivity ((λ q : option ascii * string * caps, (q.1.2, q.2)) <$>
      rmatch r prev s [] (λ p v c, Some (p, v, c))); [|by rewrite Hm].
    by rewrite <-rmatch_fmap. }
  assert (below s' (s', cs') k1 k2) as Hb.
  { split; subst k1 k2; cbn; try done.
    intros p v c [= -> ->]. by exists "". }
  apply (below_found _ _ _ _ (rmatch_restricts s' (s', cs') r Haf k1 k2 Hb) prev prev') in H1.
  assert (rmatch r prev' u [] k2 = (λ q : option ascii * string * caps, (q.1.2 +:+ s', q.2)) <$>
    rmatch r prev' u [] (λ p v c, Some (p, v, c))) as H2 by by rewrite <-rmatch_fmap.
  cbn beta in H1. rewrite H1 in H2.
  destruct (rmatch r prev' u [] (λ p v c, Some (p, v, c))) as [[[q v] c]|]; [|done].
  cbn in H2. injection H2 as Hv ->. exists q.
  enough (v = "") as -> by done. apply (f_equal String.length) in Hv.
  rewrite slength_app in Hv. destruct v; [done|]. cbn in Hv. lia.
Qed.

Lemma find_from_here r prev s p' s' cs' :
  match_here r prev s = Some (p', s', cs') →
  find_from r prev s = Some (Matched "" (consumed s s') cs' p' s').
Proof. intros Hm. by destruct s; cbn [find_from]; rewrite Hm. Qed.

(** An expression that matched a text finds the same captures in the text
    alone. *)
Lemma FindStringSubmatch_again r prev s m :
  anchor_free r = true → find_from r prev s = Some m →
  FindStringSubmatch r (m_text m) = Some (m_caps m).
Proof.
  intros Haf. revert prev m. induction s as [|c s IH]; intros prev m; cbn [find_from];
    destruct (match_here r prev _) as [[[p' s'] cs']|] eqn:Hm; try done.
  1, 2: intros [= <-]; cbn [m_text m_caps]; unfold FindStringSubmatch;
    destruct (match_here_again r prev None _ _ _ _ Haf Hm) as [q Hq];
    by rewrite (find_from_here _ _ _ _ _ _ Hq).
  destruct (find_from r (Some c) s) as [m'|] eqn:Hf; [|done].
  intros [= <-]. cbn [m_text m_caps]. by apply (IH (Some c)).
Qed.

(** ** Replacing what is found *)

Lemma replace_from_ext r f f' n : ∀ prev s,
  (∀ p t m, find_from r p t = Some m → m_caps m ∈ find_all_from r n prev s →
     f (m_text m) (m_caps m) = f' (m_text m) (m_caps m)) →
  replace_from r f n prev s = replace_from r f' n prev s.
Proof.
  induction n as [|n IH]; intros prev s Hf; cbn in *; [done|].
  destruct (find_from r prev s) as [m|] eqn:Hm; [|done].
  rewrite (Hf _ _ _ Hm) by left. do 2 f_equal.
  destruct (m_text m), (m_after m); try done;
    first [apply IH | apply (f_equal (String _)), IH];
    intros p t m' Hm' Hin; apply (Hf _ _ _ Hm'); by right.
Qed.

Lemma ReplaceAllFunc_ext r s f f' :
  (∀ p t m, find_from r p t = Some m → m_caps m ∈ FindAllStringSubmatch r s →
     f (m_text m) (m_caps m) = f' (m_text m) (m_caps m)) →
  ReplaceAllFunc r s f = ReplaceAllFunc r s f'.
Proof. apply replace_from_ext. Qed.

(** ** Independence of the context

    Without anchors a match does not depend on the byte before it. *)
Lemma match_here_prev r p q s :
  anchor_free r = true →
  (λ m : option ascii * string * caps, (m.1.2, m.2)) <$> match_here r p s =
  (λ m : option ascii * string * caps, (m.1.2, m.2)) <$> match_here r q s.
Proof.
  intros Haf. unfold match_here. rewrite <-!rmatch_fmap. cbn.
  set (k := λ (_ : option ascii) (v : string) (c : caps), Some (v, c)).
  change (rmatch r p s [] k = rmatch r q s [] k).
  assert (∀ x, below "" x k k) as Hb.
  { intros x. split; subst k; cbn; try done.
    - intros _ _ u c. by rewrite sapp_nil_r.
    - intros _ v c _. exists v. by rewrite sapp_nil_r. }
  destruct (rmatch r p s [] k) as [x|] eqn:Hp; symmetry.
  - eapply (below_found _ _ _ _ (rmatch_restricts "" x r Haf k k (Hb x)) p q).
    by rewrite sapp_nil_r.
  - eapply (below_none _ _ _ _ (rmatch_restricts "" ("", []) r Haf k k (Hb _)) p q).
    by rewrite sapp_nil_r.
Qed.

(** What a search finds, without the byte before the rest. *)
Definition found (m : rmatched) : string * string * caps * string :=
  (m_before m, m_text m, m_caps m, m_after m).

Lemma find_from_prev r p q s :
  anchor_free r = true → found <$> find_from r p s = found <$> find_from r q s.
Proof.
  intros Haf. revert p q. induction s as [|c s IH]; intros p q; cbn [find_from];
    pose proof (match_here_prev r p q) as Hm.
  - specialize (Hm "" Haf).
    destruct (match_here r p "") as [[[??]?]|], (match_here r q "") as [[[??]?]|];
      cbn in *; try done. by injection Hm as -> ->.
  - specialize (Hm (String c s) Haf).
    destruct (match_here r p (String c s)) as [[[??]?]|],
      (match_here r q (String c s)) as [[[??]?]|]; cbn in *; try done.
    by injection Hm as -> ->.
Qed.

Lemma replace_from_prev r f n : anchor_free r = true → ∀ p q s,
  replace_from r f n p s = replace_from r f n q s.
Proof.
  intros Haf. induction n as [|n IH]; intros p q s; cbn; [done|].
  pose proof (find_from_prev r p q s Haf) as Hf.
  destruct (find_from r p s) as [m|], (find_from r q s) as [m'|]; cbn in Hf; try done.
  unfold found in Hf. injection Hf as Hb Ht Hc Ha. rewrite Hb, Ht, Hc, Ha.
  do 2 f_equal. destruct (m_text m'), (m_after m'); try done; apply IH.
Qed.

(** More fuel than the length of the text makes no difference. *)
Lemma replace_from_fuel r f : ∀ n n' p s,
  (String.length s < n)%nat → (String.length s < n')%nat →
  replace_from r f n p s = replace_from r f n' p s.
Proof.
  induction n as [|n IH]; intros [|n'] p s Hn Hn'; try lia. cbn.
  destruct (find_from r p s) as [m|] eqn:Hf; [|done].
  apply find_from_spec in Hf as (Hs & _). rewrite Hs, !slength_app in Hn, Hn'.
  do 2 f_equal. destruct (m_text m) as [|c t], (m_after m) as [|d a]; try done;
    cbn in Hn, Hn'.
  - f_equal. apply IH; lia.
  - apply IH; cbn; lia.
  - apply IH; cbn; lia.
Qed.

(** The text before the first match, the match and the rest. *)
Lemma ReplaceAllFunc_step r s f m :
  anchor_free r = true → find_from r None s = Some m → m_text m ≠ "" →
  ReplaceAllFunc r s f =
  m_before m +:+ f (m_text m) (m_caps m) +:+ ReplaceAllFunc r (m_after m) f.
Proof.
  intros Haf Hf Hne. unfold ReplaceAllFunc.
  remember (S (String.length (m_after m))) as n' eqn:Hn. cbn [replace_from]. rewrite Hf.
  apply find_from_spec in Hf as (Hs & _). do 2 f_equal.
  destruct (m_text m) as [|c t]; [done|].
  assert (String.length (m_after m) < String.length s)%nat.
  { rewrite Hs, !slength_app. cbn. lia. }
  rewrite (replace_from_prev r f _ Haf (m_prev m) None).
  transitivity (replace_from r f (String.length s) None (m_after m));
    [by destruct (m_after m)|apply replace_from_fuel; lia].
Qed.

Lemma ReplaceAllFunc_none r s f : find_from r None s = None → ReplaceAllFunc r s f = s.
Proof. intros Hf. unfold ReplaceAllFunc. cbn [replace_from]. by rewrite Hf. Qed.
