(* ===== verification/Types.v ===== *)
(** * pkg/types: option definitions and the lenient JSON types

    A decoded JSON document ([interface{}] after [json.Unmarshal]) is a value
    of [json].  An object is the list of its members in the order Go's map
    iteration visits them.  The decoder itself is not modelled: a document
    that does not decode is [None]. *)

From S2P Require Import Prelude GoStrings.
From stdpp Require Import base gmap list strings pretty.
From Stdlib Require Import ZArith QArith.

Local Open Scope string_scope.
Local Open Scope Z_scope.

Inductive json : Type :=
| JNull
| JBool (b : bool)
| JNum (q : Q)                       (* float64 *)
| JStr (s : string)
| JArr (l : list json)
| JObj (m : list (string * json)).

Definition ErrUnsupportedType : string := "unsupported type".

(** [strconv.Itoa(int(f))]: the conversion truncates towards zero. *)
Definition Itoa (z : Z) : string := pretty z.
Definition int_of_float (q : Q) : Z := Z.quot (Qnum q) (Zpos (Qden q)).

(** [types.OptionEnum], [types.Option] *)
Record OptionEnum := { enum_value : string; enum_display : string }.

Record Option_ := {
  o_displayName : string;
  o_description : string;
  o_required : bool;
  o_password : bool;
  o_type : string;
  o_validationPattern : string;
  o_validationMessage : string;
  o_suggestions : list string;
  o_enum : list OptionEnum;
  o_hidden : bool;
  o_local : bool;
  o_global : bool;
  o_default : string;
  o_cache : string;
  o_command : string;
  o_subOptionsCommand : string;
  o_mutable : bool;
}.

Definition empty_option : Option_ := {|
  o_displayName := ""; o_description := ""; o_required := false;
  o_password := false; o_type := ""; o_validationPattern := "";
  o_validationMessage := ""; o_suggestions := []; o_enum := [];
  o_hidden := false; o_local := false; o_global := false; o_default := "";
  o_cache := ""; o_command := ""; o_subOptionsCommand := "";
  o_mutable := false |}.

(** [StrIntArray.UnmarshalJSON] *)
Definition str_int_elem (v : json) : result string :=
  match v with
  | JStr s => Ok s
  | JNum q => Ok (Itoa (int_of_float q))
  | _ => Err ErrUnsupportedType
  end.
Fixpoint mapR {A B} (f : A → result B) (l : list A) : result (list B) :=
  match l with
  | [] => Ok []
  | x :: l' => y ← f x; ys ← mapR f l'; Ok (y :: ys)
  end.
Definition StrIntArray_Unmarshal (data : option json) : result (list string) :=
  match data with
  | None => Err "unmarshal str int array"
  | Some (JStr s) => Ok [s]
  | Some (JNum q) => Ok [Itoa (int_of_float q)]
  | Some (JArr l) => mapR str_int_elem l
  | Some _ => Err ErrUnsupportedType
  end.

(** [StrArray.UnmarshalJSON] *)
Definition str_elem (v : json) : result string :=
  match v with JStr s => Ok s | _ => Err ErrUnsupportedType end.
Definition StrArray_Unmarshal (data : option json) : result (list string) :=
  match data with
  | None => Err "json"
  | Some (JStr s) => Ok [s]
  | Some (JArr l) => mapR str_elem l
  | Some _ => Err ErrUnsupportedType
  end.

(** [LifecycleHook.UnmarshalJSON].  In the named form the elements of an
    array are read with the unchecked assertion [v.(string)], which panics
    on anything else. *)
Definition assert_string (v : json) : result string :=
  match v with JStr s => Ok s | _ => Panic end.
Definition hook_entry (v : json) : result (list string) :=
  match v with
  | JStr s => Ok [s]
  | JArr l => mapR assert_string l
  | _ => Err ErrUnsupportedType
  end.
Fixpoint hook_entries (m : list (string * json)) (acc : gmap string (list string))
    : result (gmap string (list string)) :=
  match m with
  | [] => Ok acc
  | (k, v) :: m' => cmd ← hook_entry v; hook_entries m' (<[k := cmd]> acc)
  end.
Definition LifecycleHook_Unmarshal (data : option json)
    : result (gmap string (list string)) :=
  match data with
  | None => Err "json"
  | Some (JStr s) => Ok {[ "" := [s] ]}
  | Some (JArr l) => cmd ← mapR str_elem l; Ok {[ "" := cmd ]}
  | Some (JObj m) => hook_entries m ∅
  | Some _ => Err ErrUnsupportedType
  end.

(** [StrBool] *)
Definition StrBool_Unmarshal (data : option json) : result string :=
  match data with
  | None => Err "json"
  | Some (JStr s) => Ok s
  | Some (JBool b) => Ok (FormatBool b)
  | Some _ => Err ErrUnsupportedType
  end.
(** [StrBool.Bool]: a nil pointer is false. *)
Definition StrBool_Bool (s : option string) : result bool :=
  match s with
  | None => Ok false
  | Some s => of_option ("strconv.ParseBool: parsing " +:+ s) (ParseBool s)
  end.

(** [OptionEnumArray.UnmarshalJSON]: the type of the first element decides
    how the others are read; in an array of strings other elements are
    skipped. *)
Fixpoint obj_get (m : list (string * json)) (k : string) : option json :=
  match m with
  | [] => None
  | (k', v) :: m' => if decide (k' = k) then Some v else obj_get m' k
  end.
Definition str_field (m : list (string * json)) (k : string) : string :=
  match obj_get m k with Some (JStr s) => s | _ => "" end.
Fixpoint enum_strings (l : list json) : list OptionEnum :=
  match l with
  | [] => []
  | JStr s :: l' => {| enum_value := s; enum_display := "" |} :: enum_strings l'
  | _ :: l' => enum_strings l'
  end.
Definition enum_object (v : json) : result OptionEnum :=
  match v with
  | JObj m => Ok {| enum_value := str_field m "value";
                    enum_display := str_field m "displayName" |}
  | _ => Err ErrUnsupportedType
  end.
Definition OptionEnumArray_Unmarshal (data : option json)
    : result (list OptionEnum) :=
  match data with
  | None => Err "json"
  | Some (JArr []) => Ok []
  | Some (JArr ((JStr _ :: _) as l)) => Ok (enum_strings l)
  | Some (JArr ((JObj _ :: _) as l)) => mapR enum_object l
  | Some _ => Err ErrUnsupportedType
  end.
