(* ===== verification/Config.v ===== *)
(** * pkg/config: the DevPod configuration file and its contexts

    A Go map that may be nil is a [gomap]: reading a nil map is reading an
    empty one, writing to it is a panic. *)

From S2P Require Import Prelude GoStrings Types.
From stdpp Require Import base gmap list strings.
From Stdlib Require Import ZArith Lia.

Local Open Scope string_scope.

Definition gomap (V : Type) : Type := option (gmap string V).
Definition gm_get {V} (m : gomap V) (k : string) : option V :=
  match m with Some m => m !! k | None => None end.
Definition gm_set {V} (m : gomap V) (k : string) (v : V) : result (gomap V) :=
  match m with None => Panic | Some m => Ok (Some (<[k := v]> m)) end.
Definition gm_elems {V} (m : gomap V) : gmap string V := default ∅ m.

(** [config.OptionValue]; [ov_filled] is a time in nanoseconds. *)
Record OptionValue := {
  ov_value : string;
  ov_userProvided : bool;
  ov_filled : option Z;
  ov_children : list string;
}.
Definition zero_value : OptionValue := {|
  ov_value := ""; ov_userProvided := false; ov_filled := None;
  ov_children := [] |}.
Definition ov_with_children (v : OptionValue) (cs : list string) : OptionValue :=
  {| ov_value := ov_value v; ov_userProvided := ov_userProvided v;
     ov_filled := ov_filled v; ov_children := cs |}.

Notation OptionDefinitions := (gmap string Option_).

Record ProviderConfig := {
  pc_initialized : bool;
  pc_singleMachine : bool;
  pc_options : gomap OptionValue;
  pc_dynamicOptions : gomap Option_;
  pc_creationTimestamp : Z;
}.
Record IDEConfig := { ide_options : gomap OptionValue }.

(** [ContextConfig]; the values of [Providers] and [IDEs] are pointers. *)
Record ContextConfig := {
  cc_defaultProvider : string;
  cc_defaultIDE : string;
  cc_options : gomap OptionValue;
  cc_ides : gomap (option IDEConfig);
  cc_providers : gomap (option ProviderConfig);
  cc_originalProvider : string;
}.
Definition empty_context : ContextConfig := {|
  cc_defaultProvider := ""; cc_defaultIDE := ""; cc_options := None;
  cc_ides := None; cc_providers := None; cc_originalProvider := "" |}.

Record Config := {
  c_defaultContext : string;
  c_contexts : gomap (option ContextConfig);
  c_origin : string;
  c_originalContext : string;
}.

(** ** Reading *)

(** [c.Current()], nil when the context does not exist. *)
Definition Current (c : Config) : option ContextConfig :=
  mjoin (gm_get (c_contexts c) (c_defaultContext c)).

Definition IDEOptions (c : ContextConfig) (ide : string) : gmap string OptionValue :=
  match gm_get (cc_ides c) ide with
  | Some (Some i) => gm_elems (ide_options i)
  | _ => ∅
  end.
Definition ProviderOptions (c : ContextConfig) (provider : string)
    : gmap string OptionValue :=
  match gm_get (cc_providers c) provider with
  | Some (Some p) => gm_elems (pc_options p)
  | _ => ∅
  end.
Definition DynamicProviderOptionDefinitions (c : ContextConfig) (provider : string)
    : OptionDefinitions :=
  match gm_get (cc_providers c) provider with
  | Some (Some p) => gm_elems (pc_dynamicOptions p)
  | _ => ∅
  end.
Definition IsSingleMachine (c : ContextConfig) (provider : string) : bool :=
  match gm_get (cc_providers c) provider with
  | Some (Some p) => pc_singleMachine p
  | _ => false
  end.

(** ** Context options *)

Record ContextOption_ := {
  co_name : string;
  co_default : string;
  co_enum : list string;
}.
Definition context_option (name dflt : string) (enum : list string)
    : ContextOption_ := {| co_name := name; co_default := dflt; co_enum := enum |}.

Definition ContextOptions : list ContextOption_ := [
  context_option "SSH_ADD_PRIVATE_KEYS" "true" ["true"; "false"];
  context_option "EXIT_AFTER_TIMEOUT" "true" ["true"; "false"];
  context_option "GPG_AGENT_FORWARDING" "false" ["true"; "false"];
  context_option "GIT_SSH_SIGNATURE_FORWARDING" "true" ["true"; "false"];
  context_option "SSH_INJECT_DOCKER_CREDENTIALS" "true" ["true"; "false"];
  context_option "SSH_INJECT_GIT_CREDENTIALS" "true" ["true"; "false"];
  context_option "SSH_AGENT_FORWARDING" "true" ["true"; "false"];
  context_option "TELEMETRY" "true" ["true"; "false"];
  context_option "AGENT_URL" "" [];
  context_option "DOTFILES_URL" "" [];
  context_option "DOTFILES_SCRIPT" "" [];
  context_option "SSH_CONFIG_PATH" "" [];
  context_option "AGENT_INJECT_TIMEOUT" "20" [];
  context_option "REGISTRY_CACHE" "" [];
  context_option "SSH_STRICT_HOST_KEY_CHECKING" "false" ["true"; "false"]
].

(** The search for a default stops at the first option of that name. *)
Definition context_default (option : string) : string :=
  match List.find (λ o, bool_decide (co_name o = option)) ContextOptions with
  | Some o => co_default o
  | None => ""
  end.

Definition ContextOption (c : Config) (option : string) : result string :=
  match gm_get (c_contexts c) (c_defaultContext c) with
  | Some None => Panic
  | Some (Some ctx) =>
      match gm_get (cc_options ctx) option with
      | Some v =>
          if bool_decide (ov_value v = "") then Ok (context_default option)
          else Ok (ov_value v)
      | None => Ok (context_default option)
      end
  | None => Ok (context_default option)
  end.

(** [strings.SplitN(v, "=", 2)] with both parts present. *)
Fixpoint split_env (v : string) : option (string * string) :=
  match v with
  | "" => None
  | String c s =>
      if decide (c = "="%char) then Some ("", s)
      else '(k, r) ← split_env s; Some (String c k, r)
  end.
Definition env_map (environ : list string) : gmap string string :=
  foldl (λ m v, match split_env v with
                | Some (k, x) => <[k := x]> m
                | None => m
                end) ∅ environ.

(** [MergeContextOptions(contextConfig, environ)] at time [now]. *)
Definition merge_context_option (env : gmap string string) (now : Z)
    (o : ContextOption_) (opts : gomap OptionValue) : result (gomap OptionValue) :=
  match env !! co_name o with
  | None => Ok opts
  | Some v =>
      match gm_get opts (co_name o) with
      | Some _ => Ok opts
      | None =>
          gm_set opts (co_name o)
            {| ov_value := v; ov_userProvided := true; ov_filled := Some now;
               ov_children := [] |}
      end
  end.
Fixpoint merge_context_options (env : gmap string string) (now : Z)
    (os : list ContextOption_) (opts : gomap OptionValue)
    : result (gomap OptionValue) :=
  match os with
  | [] => Ok opts
  | o :: os' =>
      opts' ← merge_context_option env now o opts;
      merge_context_options env now os' opts'
  end.
Definition MergeContextOptions (opts : gomap OptionValue) (environ : list string)
    (now : Z) : result (gomap OptionValue) :=
  merge_context_options (env_map environ) now ContextOptions opts.

(** [ParseTimeOption] in seconds; [time.Duration(timeout) * time.Second] wraps
    at 64 bits. *)
Definition wrap64 (z : Z) : Z :=
  ((z + 9223372036854775808) mod 18446744073709551616 - 9223372036854775808)%Z.
Definition ParseTimeOption (c : Config) (opt : string) : result Z :=
  s ← ContextOption c opt;
  let timeout := default 20%Z (ParseInt s) in
  Ok (wrap64 (timeout * 1000000000)%Z).

(** ** Loading, cloning and saving *)

(** What a JSON round trip with [omitempty] does to a map: an empty one is
    left out and comes back nil. *)
Definition omit_empty {V} (m : gomap V) : gomap V :=
  match m with
  | Some m => if decide (m = ∅) then None else Some m
  | None => None
  end.

Definition clone_provider (p : ProviderConfig) : ProviderConfig := {|
  pc_initialized := pc_initialized p; pc_singleMachine := pc_singleMachine p;
  pc_options := omit_empty (pc_options p);
  pc_dynamicOptions := omit_empty (pc_dynamicOptions p);
  pc_creationTimestamp := pc_creationTimestamp p |}.
Definition clone_ide (i : IDEConfig) : IDEConfig :=
  {| ide_options := omit_empty (ide_options i) |}.

(** A context after the round trip; [CloneConfig] then makes [Providers] and
    [IDEs] non-nil and restores [OriginalProvider], which is not encoded.  A
    nil context makes both accesses panic. *)
Definition clone_context (ctx : ContextConfig) : ContextConfig := {|
  cc_defaultProvider := cc_defaultProvider ctx;
  cc_defaultIDE := cc_defaultIDE ctx;
  cc_options := omit_empty (cc_options ctx);
  cc_ides := Some (fmap (M := option) clone_ide <$> gm_elems (cc_ides ctx));
  cc_providers :=
    Some (fmap (M := option) clone_provider <$> gm_elems (cc_providers ctx));
  cc_originalProvider := cc_originalProvider ctx |}.
Definition CloneConfig (c : Config) : result Config :=
  let ctxs := gm_elems (c_contexts c) in
  if decide (map_Forall (λ _ ctx, is_Some ctx) ctxs) then
    Ok {| c_defaultContext := c_defaultContext c;
          c_contexts := omit_empty (Some (fmap (M := option) clone_context <$> ctxs));
          c_origin := c_origin c;
          c_originalContext := c_originalContext c |}
  else Panic.

Definition DefaultContext : string := "default".

Definition with_default {A} (d : A) (o : option A) : option A := Some (default d o).

(** What the config file holds: absent, or the decoded document. *)
Inductive config_file :=
| NoFile
| Unreadable (e : string)
| Decoded (c : Config).

(** [LoadConfig(contextOverride, providerOverride)]; [origin] is the path. *)
Definition fresh_config (context provider origin : string) : Config := {|
  c_defaultContext := context;
  c_contexts := Some {[ context := Some {|
    cc_defaultProvider := provider; cc_defaultIDE := "";
    cc_options := Some ∅; cc_ides := Some ∅; cc_providers := Some ∅;
    cc_originalProvider := "" |} ]};
  c_origin := origin; c_originalContext := "" |}.

Definition init_context (ctx : option ContextConfig) (providerOverride : string)
    : ContextConfig :=
  let c := default empty_context ctx in
  let override := negb (bool_decide (providerOverride = "")) in {|
    cc_defaultProvider :=
      if override then providerOverride else cc_defaultProvider c;
    cc_defaultIDE := cc_defaultIDE c;
    cc_options := with_default ∅ (cc_options c);
    cc_ides := with_default ∅ (cc_ides c);
    cc_providers := with_default ∅ (cc_providers c);
    cc_originalProvider :=
      if override then cc_defaultProvider c else cc_originalProvider c |}.

Definition LoadConfig (file : config_file) (origin contextOverride providerOverride
    : string) : result Config :=
  match file with
  | Unreadable e => Err ("read config: " +:+ e)
  | NoFile =>
      let context := if bool_decide (contextOverride = "") then DefaultContext
                     else contextOverride in
      Ok (fresh_config context providerOverride origin)
  | Decoded c =>
      let '(ctxName, original) :=
        if bool_decide (contextOverride = "") then
          (if bool_decide (c_defaultContext c = "") then DefaultContext
           else c_defaultContext c, c_originalContext c)
        else (contextOverride, c_defaultContext c) in
      let ctxs := gm_elems (c_contexts c) in
      let ctx := init_context (mjoin (ctxs !! ctxName)) providerOverride in
      Ok {| c_defaultContext := ctxName;
            c_contexts := Some (<[ctxName := Some ctx]> ctxs);
            c_origin := origin;
            c_originalContext := original |}
  end.

(** [SaveConfig]: the document that is written. *)
Definition restore_provider (ctx : ContextConfig) : ContextConfig :=
  if bool_decide (cc_originalProvider ctx = "") then ctx
  else {| cc_defaultProvider := cc_originalProvider ctx;
          cc_defaultIDE := cc_defaultIDE ctx; cc_options := cc_options ctx;
          cc_ides := cc_ides ctx; cc_providers := cc_providers ctx;
          cc_originalProvider := cc_originalProvider ctx |}.
Definition SaveConfig (c : Config) : result Config :=
  c ← CloneConfig c;
  let name := if bool_decide (c_originalContext c = "") then c_defaultContext c
              else c_originalContext c in
  match gm_get (c_contexts c) name with
  | Some (Some ctx) =>
      m ← gm_set (c_contexts c) name (Some (restore_provider ctx));
      Ok {| c_defaultContext := name; c_contexts := m; c_origin := c_origin c;
            c_originalContext := c_originalContext c |}
  | _ => Panic
  end.

(** * Properties of the configuration: overrides and the environment *)

(** ** Overrides of the command line *)

(** A configuration as it comes from a file: the originals are not stored. *)
Record from_file (c : Config) : Prop := {
  ff_context : c_originalContext c = "";
  ff_contexts : ∀ n ctx, gm_elems (c_contexts c) !! n = Some ctx →
    ∃ ctx', ctx = Some ctx' ∧ cc_originalProvider ctx' = "";
}.

(** Cloning a configuration all contexts of which exist. *)
Lemma CloneConfig_total c m n ctx :
  c_contexts c = Some m → map_Forall (λ _ x, is_Some x) m → m !! n = Some (Some ctx) →
  CloneConfig c = Ok {|
    c_defaultContext := c_defaultContext c;
    c_contexts := Some (fmap (M := option) clone_context <$> m);
    c_origin := c_origin c; c_originalContext := c_originalContext c |}.
Proof.
  intros Hm Hall Hn. unfold CloneConfig. rewrite Hm. cbn [gm_elems default].
  rewrite decide_True by done. unfold omit_empty. rewrite decide_False; [done|].
  intros He. apply fmap_empty_inv in He. cbn in He.
  rewrite He, lookup_empty in Hn. done.
Qed.

(** Saving, when the context that is restored exists. *)
Lemma SaveConfig_total c m ctx :
  let name := if bool_decide (c_originalContext c = "") then c_defaultContext c
              else c_originalContext c in
  c_contexts c = Some m → map_Forall (λ _ x, is_Some x) m → m !! name = Some (Some ctx) →
  SaveConfig c = Ok {|
    c_defaultContext := name;
    c_contexts := Some (<[name := Some (restore_provider (clone_context ctx))]>
                          (fmap (M := option) clone_context <$> m));
    c_origin := c_origin c; c_originalContext := c_originalContext c |}.
Proof.
  intros name Hm Hall Hn. unfold SaveConfig.
  rewrite (CloneConfig_total c m name ctx) by done. cbn [mbind result_bind].
  cbn [c_contexts c_originalContext c_defaultContext c_origin gm_get].
  fold name. by rewrite lookup_fmap, Hn.
Qed.

Lemma from_file_insert c n ctx :
  from_file c →
  map_Forall (λ _ x, is_Some x) (<[n := Some ctx]> (gm_elems (c_contexts c))).
Proof.
  intros [_ H]. apply map_Forall_insert_2; [by eexists|].
  intros k x (y & -> & _)%H. by eexists.
Qed.

(** C38: An override given alone on the command line is not written to the
    configuration file: when the file names a default context, saving after a run with
    another context leaves it, and when that context has a default provider, saving after a
    run with another provider leaves it.  (With both overrides at once, or without these
    defaults, they are written: [both_overrides_saved] and the examples beside it.) *)
Theorem overrides_not_saved (c : Config) (ctx : ContextConfig) (origin override : string) :
  from_file c → c_defaultContext c ≠ "" → Current c = Some ctx → override ≠ "" →
  (∃ c1 c2, LoadConfig (Decoded c) origin override "" = Ok c1 ∧
     c_defaultContext c1 = override ∧ SaveConfig c1 = Ok c2 ∧
     c_defaultContext c2 = c_defaultContext c) ∧
  (cc_defaultProvider ctx ≠ "" →
   ∃ c1 c2 ctx1 ctx2, LoadConfig (Decoded c) origin "" override = Ok c1 ∧
     Current c1 = Some ctx1 ∧ cc_defaultProvider ctx1 = override ∧
     SaveConfig c1 = Ok c2 ∧ c_defaultContext c2 = c_defaultContext c ∧
     Current c2 = Some ctx2 ∧ cc_defaultProvider ctx2 = cc_defaultProvider ctx).
Proof.
  intros Hff Hdef Hctx Hov. pose proof (ff_context c Hff) as Horig.
  assert (gm_elems (c_contexts c) !! c_defaultContext c = Some (Some ctx)) as Hget.
  { unfold Current in Hctx. destruct (c_contexts c) as [m|]; [|done]. cbn in *.
    by destruct (m !! c_defaultContext c) as [[x|]|]; simplify_eq/=. }
  unfold LoadConfig. rewrite (bool_decide_eq_false_2 (override = "")) by done.
  rewrite (bool_decide_eq_true_2 ("" = "")) by done.
  rewrite (bool_decide_eq_false_2 (c_defaultContext c = "")) by done. split.
  - set (ctxs := gm_elems (c_contexts c)) in *.
    set (new := init_context (mjoin (ctxs !! override)) "").
    assert (∃ x, <[override := Some new]> ctxs !! c_defaultContext c = Some (Some x)) as [x Hx].
    { destruct (decide (override = c_defaultContext c)) as [<-|Hne].
      - rewrite lookup_insert_eq. eauto.
      - rewrite lookup_insert_ne by done. eauto. }
    eexists _, _. split_and!; [reflexivity|reflexivity| |].
    + eapply (SaveConfig_total _ _ x); [reflexivity|by apply from_file_insert|].
      cbn. by rewrite bool_decide_eq_false_2.
    + cbn. by rewrite bool_decide_eq_false_2.
  - intros Hprov. rewrite Hget. cbn [mjoin option_join]. eexists _, _, _, _.
    split_and!; [reflexivity| | | | | |].
    + unfold Current. cbn. by rewrite lookup_insert_eq.
    + cbn. by rewrite bool_decide_eq_false_2.
    + eapply SaveConfig_total; [reflexivity|by apply from_file_insert|].
      cbn. rewrite Horig. cbn. apply lookup_insert_eq.
    + cbn. rewrite Horig. done.
    + unfold Current. cbn. rewrite Horig. cbn. by rewrite lookup_insert_eq.
    + unfold restore_provider, clone_context, init_context. cbn.
      rewrite (bool_decide_eq_false_2 (override = "")) by done. cbn.
      by rewrite (bool_decide_eq_false_2 (cc_defaultProvider ctx = "")).
Qed.

(** ** The environment *)

Lemma merge_context_options_spec env now os : ∀ m,
  ∃ m', merge_context_options env now os (Some m) = Ok (Some m') ∧
  ∀ k, m' !! k =
    match m !! k with
    | Some v => Some v
    | None => if decide (k ∈ co_name <$> os)
              then (λ v, {| ov_value := v; ov_userProvided := true; ov_filled := Some now;
                            ov_children := [] |}) <$> env !! k
              else None
    end.
Proof.
  induction os as [|o os IH]; intros m.
  { exists m. split; [done|]. intros k. cbn. by destruct (m !! k). }
  cbn [merge_context_options]. unfold merge_context_option. cbn [gm_get gm_set].
  destruct (env !! co_name o) as [v|] eqn:He; [destruct (m !! co_name o) as [x|] eqn:Hm|];
    cbn [mbind result_bind].
  - destruct (IH m) as (m' & -> & Hk). exists m'. split; [done|]. intros k. rewrite Hk.
    destruct (m !! k) eqn:Hmk; [done|]. rewrite fmap_cons. 
    destruct (decide (k ∈ co_name <$> os)) as [H|H], (decide (k ∈ co_name o :: (co_name <$> os)))
      as [H'|H']; [done|set_solver| |done].
    apply elem_of_cons in H' as [->|?]; [congruence|done].
  - destruct (IH (<[co_name o := {| ov_value := v; ov_userProvided := true;
      ov_filled := Some now; ov_children := [] |}]> m)) as (m' & -> & Hk).
    exists m'. split; [done|]. intros k. rewrite Hk, fmap_cons.
    destruct (decide (k = co_name o)) as [->|Hne].
    + rewrite lookup_insert_eq, Hm, decide_True by left. by rewrite He.
    + rewrite lookup_insert_ne by done. destruct (m !! k); [done|].
      destruct (decide (k ∈ co_name <$> os)), (decide (k ∈ co_name o :: (co_name <$> os)));
        set_solver.
  - destruct (IH m) as (m' & -> & Hk). exists m'. split; [done|]. intros k. rewrite Hk.
    destruct (m !! k) eqn:Hmk; [done|]. rewrite fmap_cons.
    destruct (decide (k ∈ co_name <$> os)) as [H|H], (decide (k ∈ co_name o :: (co_name <$> os)))
      as [H'|H']; [done|set_solver| |done].
    apply elem_of_cons in H' as [->|?]; [by rewrite He|done].
Qed.

(** The environment fills in context options but never overrides them: an
    option set in the context keeps its value, a known option that is not set gets the
    value of the variable of the same name, and nothing else is added. *)
Theorem MergeContextOptions_fills (m : gmap string OptionValue) (environ : list string)
    (now : Z) :
  ∃ m', MergeContextOptions (Some m) environ now = Ok (Some m') ∧
  ∀ k, m' !! k =
    match m !! k with
    | Some v => Some v
    | None => if decide (k ∈ co_name <$> ContextOptions)
              then (λ v, {| ov_value := v; ov_userProvided := true; ov_filled := Some now;
                            ov_children := [] |}) <$> env_map environ !! k
              else None
    end.
Proof. apply merge_context_options_spec. Qed.

(** ** Examples *)

Definition sample_context (provider : string) : ContextConfig := {|
  cc_defaultProvider := provider; cc_defaultIDE := "vscode"; cc_options := None;
  cc_ides := None; cc_providers := None; cc_originalProvider := "" |}.
Definition sample_config (default provider : string) : Config := {|
  c_defaultContext := default;
  c_contexts := Some {["default" := Some (sample_context provider)]};
  c_origin := ""; c_originalContext := "" |}.

Lemma overrides_not_saved_witness :
  ∃ c1 c2, LoadConfig (Decoded (sample_config "default" "docker")) "/c" "work" "" = Ok c1 ∧
    SaveConfig c1 = Ok c2 ∧ c_defaultContext c2 = "default".
Proof.
  destruct (overrides_not_saved (sample_config "default" "docker") (sample_context "docker")
    "/c" "work") as [(c1 & c2 & H1 & _ & H2 & H3) _].
  - split; [reflexivity|]. intros n ctx H. cbn in H.
    apply lookup_singleton_Some in H as [_ <-]. by eexists.
  - discriminate.
  - reflexivity.
  - discriminate.
  - exists c1, c2. auto.
Defined.

(** Without a default provider in the context, the override of the provider
    is saved; without a default context in the file, that of the context is. *)
Definition saved (c : Config) (context provider : string) : result (string * option string) :=
  c1 ← LoadConfig (Decoded c) "/c" context provider;
  c2 ← SaveConfig c1;
  Ok (c_defaultContext c2, cc_defaultProvider <$> Current c2).
Example provider_override_saved :
  saved (sample_config "default" "") "" "kubernetes" = Ok ("default", Some "kubernetes").
Proof. vm_compute. reflexivity. Qed.
(** With both, the override of the provider replaces that of the context that was named. *)
Definition two_contexts : Config := {|
  c_defaultContext := "default";
  c_contexts := Some {["default" := Some (sample_context "docker");
                       "work" := Some (sample_context "aws")]};
  c_origin := ""; c_originalContext := "" |}.
Example both_overrides_saved :
  (c1 ← LoadConfig (Decoded two_contexts) "/c" "work" "kubernetes";
   c2 ← SaveConfig c1;
   Ok (c_defaultContext c2,
       cc_defaultProvider <$> mjoin (gm_elems (c_contexts c2) !! "work"))) =
  Ok ("default", Some "kubernetes").
Proof. vm_compute. reflexivity. Qed.
Example context_override_saved :
  saved (sample_config "" "docker") "work" "" = Ok ("work", Some "").
Proof. vm_compute. reflexivity. Qed.
