(* ===== verification/Resolver.v ===== *)
(** * pkg/options/resolver: resolving provider options

    The resolver keeps a dependency graph of option definitions, the values
    the user gave, and the map of resolved values it fills; [rstate] holds
    the three, because a call that fails keeps the writes made before it.

    What lies outside the repository is a parameter of the section: the
    regular-expression compiler on a provider's own pattern, the emulated
    shell, the YAML decoder of sub options, the terminal question, the clock
    and the order in which Go iterates over a map. *)

From S2P Require Import Prelude GoStrings GoRegexp Types Graph Config.
From stdpp Require Import base gmap sets list strings sorting.
From Stdlib Require Import ZArith.

Local Open Scope string_scope.

Definition rootID : string := "root".

(** ** Variables in defaults and commands *)

(** [\$\{?([A-Z0-9_]+)(:(-|\+)([^\}]+))?\}?] *)
Definition is_var_char (c : ascii) : bool :=
  is_upper c || is_digit c || bool_decide (c = "_"%char).
Definition not_brace (c : ascii) : bool := negb (bool_decide (c = "}"%char)).
Definition variableExpression : re :=
  Cat (chr "$") (Cat (Opt (chr "{")) (Cat (Grp 1 (Plus true (Chr is_var_char)))
    (Cat (Opt (Grp 2 (Cat (chr ":") (Cat (Grp 3 (Alt (chr "-") (chr "+")))
                                         (Grp 4 (Plus true (Chr not_brace)))))))
         (Opt (chr "}"))))).

(** The submatches of the matched text [s]; a match always matches again. *)
Definition ResolveDefaultValue (val : string) (resolvedOptions : gmap string string)
    : string :=
  ReplaceAllFunc variableExpression val (λ s _,
    match FindStringSubmatch variableExpression s with
    | Some submatch => default s (resolvedOptions !! sub submatch 1)
    | None => s
    end).

Definition ResolveDefaultValues (vals resolvedOptions : gmap string string)
    : gmap string string :=
  omap (λ v, let r := ResolveDefaultValue v resolvedOptions in
             if bool_decide (r = "") then None else Some r) vals.

(** The sorted variable names of [str], without duplicates. *)
Definition findVariables (str : string) : list string :=
  merge_sort String.le
    (elements (list_to_set ((λ m, sub m 1) <$>
       FindAllStringSubmatch variableExpression str) : gset string)).

Definition mergeMaps {V} (existing newOpts : gmap string V) : gmap string V :=
  newOpts ∪ existing.

Definition combine (resolvedOptions : gmap string OptionValue)
    (extraValues : gmap string string) : gmap string string :=
  (ov_value <$> resolvedOptions) ∪ extraValues.

(** ** The world outside *)

Record world := {
  (* regexp.Compile and MatchString on a provider's pattern *)
  w_regexp : string → string → string + bool;
  (* shell.RunEmulatedShell: the error with what was printed (standard output
     and error), or the standard output, for a command and the variables
     added to the environment *)
  w_exec : string → gmap string string → (string * string) + string;
  (* yaml.Unmarshal into SubOptions *)
  w_suboptions : string → string + OptionDefinitions;
  (* log.Question for an option *)
  w_terminal : bool;
  w_ask : string → Option_ → string + string;
  w_now : Z;
  (* the order of a map iteration *)
  w_iter : gset string → list string;
}.

(** Documented behaviour of Go's map iteration: every key once, in some
    order. *)
Class WorldOk (w : world) : Prop := {
  w_iter_perm : ∀ s, w_iter w s ≡ₚ elements s;
}.

Record rconfig := {
  r_extraValues : gmap string string;
  r_resolveLocal : bool;
  r_resolveGlobal : bool;
  r_resolveSubOptions : bool;
  r_skipRequired : bool;
}.

Notation ograph := (graph (option Option_)).

Record rstate := RState {
  r_graph : ograph;
  r_userOptions : gmap string string;
  r_values : gmap string OptionValue;
}.

Section Resolver.
Context (w : world) (cfg : rconfig).

Definition onGraph {A} (c : M ograph A) : M rstate A := λ s,
  let '(r, g) := c (r_graph s) in
  (r, RState g (r_userOptions s) (r_values s)).
(** [errors.Wrap] around a call. *)
Definition wrapM {A} (msg : string) (c : M rstate A) : M rstate A := λ s,
  let '(r, s') := c s in (wrap msg r, s').
Definition setValues (f : gmap string OptionValue → gmap string OptionValue)
    : M rstate unit :=
  modifyS (λ s, RState (r_graph s) (r_userOptions s) (f (r_values s))).
Definition setUser (f : gmap string string → gmap string string)
    : M rstate unit :=
  modifyS (λ s, RState (r_graph s) (f (r_userOptions s)) (r_values s)).

(** ** parse.go *)

Definition quoted (s : string) : string := "'" +:+ s +:+ "'".
Definition invalid_value (userValue optionName reason : string) : string :=
  "invalid value " +:+ quoted userValue +:+ " for option " +:+
  quoted optionName +:+ ", " +:+ reason.

Definition validate_pattern (optionName userValue : string) (o : Option_)
    : result unit :=
  if bool_decide (o_validationPattern o = "") then Ok ()
  else match w_regexp w (o_validationPattern o) userValue with
       | inl e => Err e
       | inr true => Ok ()
       | inr false =>
           if bool_decide (o_validationMessage o = "") then
             Err (invalid_value userValue optionName
                    ("has to match the following regEx: " +:+
                     o_validationPattern o))
           else Err (o_validationMessage o)
       end.

(** [%v] of an [OptionEnumArray] *)
Definition format_enum (l : list OptionEnum) : string :=
  "[" +:+ String.concat " " ((λ e, "{" +:+ enum_value e +:+ " " +:+
                                   enum_display e +:+ "}") <$> l) +:+ "]".

Definition validate_enum (optionName userValue : string) (o : Option_)
    : result unit :=
  match o_enum o with
  | [] => Ok ()
  | _ =>
      if existsb (λ e, bool_decide (userValue = enum_value e)) (o_enum o) then Ok ()
      else Err (invalid_value userValue optionName
                  ("has to match one of the following values: " +:+
                   format_enum (o_enum o)))
  end.

Definition validate_type (optionName userValue : string) (o : Option_)
    : result unit :=
  if bool_decide (o_type o = "number") then
    if ParseInt userValue then Ok ()
    else Err (invalid_value userValue optionName "must be a number")
  else if bool_decide (o_type o = "boolean") then
    if ParseBool userValue then Ok ()
    else Err (invalid_value userValue optionName "must be a boolean")
  else if bool_decide (o_type o = "duration") then
    if ParseDuration userValue then Ok ()
    else Err (invalid_value userValue optionName
                "must be a duration like 10s, 5m or 24h")
  else Ok ().

Definition validateUserValue (optionName userValue : string) (o : Option_)
    : result unit :=
  validate_pattern optionName userValue o ≫= λ _,
  validate_enum optionName userValue o ≫= λ _,
  validate_type optionName userValue o.

(** ** util.go *)

Definition cannot_depend (what dep optionName place : string) : string :=
  "cannot use a " +:+ what +:+ ". Option " +:+ quoted dep +:+ " used in " +:+
  place +:+ " of option " +:+ quoted optionName.
Definition global_dep : string :=
  "global option as a dependency of a non-global option".
Definition local_dep : string :=
  "non-local option as a dependency of a local option".

Definition node_option (id : string) : M ograph Option_ :=
  g ← getS;
  n ← liftR (deref (g_nodes g !! id));
  liftR (deref (node_data n)).

(** The children recorded with the option's value come after it; the data of the child is not
    looked at when the option is global and not local. *)
Definition add_child_dependency (optionName : string) (opt : Option_)
    (childName : string) : M ograph unit :=
  g ← getS;
  match g_nodes g !! childName with
  | None => mret ()
  | Some _ =>
      if decide (childName = optionName) then mret ()
      else if o_global opt && negb (o_local opt) then AddChild optionName childName
      else
        child ← node_option childName;
        if negb (o_global opt) && o_global child then
          throw (cannot_depend global_dep childName optionName "command")
        else if o_local opt && negb (o_local child) then
          throw (cannot_depend local_dep childName optionName "default")
        else AddChild optionName childName
  end.

(** An option comes after the options its default or command mentions, whose data is not looked
    at when the option is local and not global. *)
Definition add_variable_dependency (optionName : string) (opt : Option_)
    (place dep : string) : M ograph unit :=
  g ← getS;
  match g_nodes g !! dep with
  | None => mret ()
  | Some _ =>
      if decide (dep = optionName) then mret ()
      else if negb (o_global opt) && o_local opt then AddChild dep optionName
      else
        d ← node_option dep;
        if o_global opt && negb (o_global d) then
          throw (cannot_depend global_dep dep optionName place)
        else if negb (o_local opt) && o_local d then
          throw (cannot_depend local_dep dep optionName "default")
        else AddChild dep optionName
  end.

Definition addDependency (optionValues : gmap string OptionValue)
    (optionName : string) : M ograph unit :=
  opt ← node_option optionName;
  forM_ (ov_children (default zero_value (optionValues !! optionName)))
        (add_child_dependency optionName opt) ≫= λ _,
  forM_ (findVariables (o_default opt))
        (add_variable_dependency optionName opt "default") ≫= λ _,
  forM_ (findVariables (o_command opt))
        (add_variable_dependency optionName opt "command").

Definition remove_root_parent (id : string) : M ograph unit :=
  g ← getS;
  node ← liftR (deref (g_nodes g !! id));
  if decide (1 < length (node_parents node))%nat then
    let newParents := filter (λ p, p ≠ rootID) (node_parents node) in
    let removed := bool_decide (rootID ∈ node_parents node) in
    let m := <[id := with_parents node newParents]> (g_nodes g) in
    if removed then
      match m !! g_root g with
      | None => liftR Panic
      | Some root =>
          putS (with_nodes g
            (<[g_root g := with_childs root
                 (Slice (filter (λ c, c ≠ node_id node) (childs root)) [])]> m))
      end
    else putS (with_nodes g m)
  else mret ().

Definition removeRootParent : M ograph unit :=
  g ← getS;
  forM_ (w_iter w (dom (g_nodes g))) remove_root_parent.

Definition addDependencies (options : OptionDefinitions)
    (optionValues : gmap string OptionValue) : M ograph unit :=
  forM_ (w_iter w (dom options)) (addDependency optionValues) ≫= λ _,
  removeRootParent.

Definition add_option (optionDefinitions : OptionDefinitions)
    (optionName : string) : M ograph unit :=
  opt ← liftR (deref (optionDefinitions !! optionName));
  g ← getS;
  match g_nodes g !! optionName with
  | Some n =>
      putS (with_nodes g
        (<[optionName := with_data n (Some opt)]> (g_nodes g)))
  | None => InsertNodeAt rootID optionName (Some opt) ≫= λ _, mret ()
  end.

Definition addOptionsToGraph (optionDefinitions : OptionDefinitions)
    (optionValues : gmap string OptionValue) : M ograph unit :=
  forM_ (w_iter w (dom optionDefinitions)) (add_option optionDefinitions) ≫= λ _,
  addDependencies optionDefinitions optionValues.

(** The loop [for _, child := range node.Childs] over a node whose children
    are being removed; a failed removal of a child is returned. *)
Definition deleteChildrenOf (id : string) : M ograph unit :=
  g ← getS;
  node ← liftR (deref (g_nodes g !! id));
  forM_ (seq 0 (length (childs node)))
        (λ i, range_child id i (RemoveSubGraph (search_fuel g))).

(** ** sub_options.go *)

Definition execOptionCommand (command : string)
    (values : gmap string OptionValue) : result string :=
  match w_exec w command (combine values (r_extraValues cfg)) with
  | inl (err, printed) => wrap ("exec command: " +:+ printed) (Err err)
  | inr stdout => Ok stdout
  end.

Definition resolveFromCommand (opt : Option_)
    (values : gmap string OptionValue) : result OptionValue :=
  out ← wrap "run command" (execOptionCommand (o_command opt) values);
  Ok {| ov_value := TrimSpace out; ov_userProvided := false;
        ov_filled := Some (w_now w); ov_children := [] |}.

Definition resolveSubOptions (opt : Option_)
    (values : gmap string OptionValue) : result OptionDefinitions :=
  out ← wrap "run subOptionsCommand"
          (execOptionCommand (o_subOptionsCommand opt) values);
  wrap ("parse subOptionsCommand: " +:+ out) (of_sum (w_suboptions w out)).

(** ** resolve.go *)

Record current := {
  cur_user : option string;
  cur_before : option OptionValue;
}.

Definition getValue (optionName : string) (opt : Option_)
    : M rstate current :=
  s ← getS;
  let userValue := r_userOptions s !! optionName in
  let beforeValue := r_values s !! optionName in
  (match userValue with
   | Some v => liftR (validateUserValue optionName v opt)
   | None => mret ()
   end) ≫= λ _,
  match beforeValue with
  | None => mret {| cur_user := userValue; cur_before := None |}
  | Some b =>
      match validateUserValue optionName (ov_value b) opt with
      | Ok _ => mret {| cur_user := userValue; cur_before := Some b |}
      | Panic => liftR Panic
      | NoFuel => liftR NoFuel
      | Err _ =>
          setValues (delete optionName) ≫= λ _,
          mret {| cur_user := userValue; cur_before := None |}
      end
  end.

(** Whether an option without a user value keeps what it has: its old value
    is the user's, is not cached, or has not expired; or it is of a kind
    this run does not resolve. *)
Definition keep_value (optionName : string) (opt : Option_)
    (before : option OptionValue) : result bool :=
  still_valid ←
    (match before with
     | None => Ok false
     | Some b =>
         if ov_userProvided b || bool_decide (o_cache opt = "") then Ok true
         else
           duration ← of_option ("parse cache duration of option " +:+ optionName)
                        (ParseDuration (o_cache opt));
           Ok (match ov_filled b with
               | Some f => (w_now w <? f + duration)%Z
               | None => false
               end)
     end);
  if still_valid : bool then Ok true
  else Ok (negb (o_required opt) &&
           ((negb (r_resolveGlobal cfg) && o_global opt) ||
            (negb (r_resolveLocal cfg) && o_local opt))).

Definition new_value (opt : Option_) (user : option string)
    (before : OptionValue) (values : gmap string OptionValue)
    : result OptionValue :=
  match user with
  | Some v =>
      Ok {| ov_value := v; ov_userProvided := true; ov_filled := None;
            ov_children := ov_children before |}
  | None =>
      if negb (bool_decide (o_default opt = "")) then
        Ok {| ov_value := ResolveDefaultValue (o_default opt)
                            (combine values (r_extraValues cfg));
              ov_userProvided := false; ov_filled := None;
              ov_children := ov_children before |}
      else if negb (bool_decide (o_command opt = "")) then
        v ← resolveFromCommand opt values;
        Ok (ov_with_children v (ov_children before))
      else
        match o_enum opt with
        | [e] =>
            Ok {| ov_value := enum_value e; ov_userProvided := false;
                  ov_filled := None; ov_children := ov_children before |}
        | _ =>
            Ok {| ov_value := ""; ov_userProvided := false; ov_filled := None;
                  ov_children := ov_children before |}
        end
  end.

(** The children of a changed option are recomputed, unless the user gave
    their value. *)
Definition drop_child_values (cs : list string) (values : gmap string OptionValue)
    : gmap string OptionValue :=
  foldl (λ m c, match m !! c with
                | Some v => if ov_userProvided v then m else delete c m
                | None => m
                end) values cs.

(** The value has changed: recompute the children. *)
Definition propagate_change (optionName : string) (cur : current)
    : M rstate unit :=
  let before := default zero_value (cur_before cur) in
  s ← getS;
  node ← liftR (deref (g_nodes (r_graph s) !! optionName));
  let v := default zero_value (r_values s !! optionName) in
  if bool_decide (ov_value before = ov_value v) then mret ()
  else setValues (drop_child_values (childs node)).

(** The part after a value was stored: required options, changed values. *)
Definition finish_option (optionName : string) (opt : Option_)
    (cur : current) : M rstate unit :=
  s ← getS;
  let v := default zero_value (r_values s !! optionName) in
  if bool_decide (cur_user cur = None) && o_required opt &&
     bool_decide (ov_value v = "") && negb (ov_userProvided v)
  then
    if r_skipRequired cfg then
      setValues (delete optionName) ≫= λ _,
      onGraph (deleteChildrenOf optionName)
    else if negb (w_terminal w) then
      throw ("option " +:+ optionName +:+ " is required, but no value provided")
    else
      answer ← liftR (of_sum (w_ask w optionName opt));
      setValues (<[optionName := {| ov_value := answer; ov_userProvided := true;
                                    ov_filled := None; ov_children := [] |}]>) ≫= λ _,
      propagate_change optionName cur
  else propagate_change optionName cur.

Definition resolveOption (optionName : string) : M rstate unit :=
  opt ← onGraph (node_option optionName);
  cur ← getValue optionName opt;
  keep ← (match cur_user cur with
          | Some _ => mret false
          | None => liftR (keep_value optionName opt (cur_before cur))
          end);
  if keep : bool then mret ()
  else
    s ← getS;
    v ← liftR (new_value opt (cur_user cur)
                 (default zero_value (cur_before cur)) (r_values s));
    setValues (<[optionName := v]>) ≫= λ _,
    finish_option optionName opt cur.

Definition changed_option (oldOptions : OptionDefinitions)
    (values : gmap string OptionValue) (k : string) (newV : Option_) : bool :=
  match oldOptions !! k, values !! k with
  | None, _ | _, None => true
  | Some oldV, Some oldValue =>
      match o_enum newV with
      | [] => false
      | _ => negb (bool_decide (ov_value oldValue ∈ enum_value <$> o_enum newV))
      end ||
      (negb (ov_userProvided oldValue) &&
       negb (bool_decide (o_default oldV = o_default newV)))
  end.

Definition getChangedOptions (oldOptions newOptions : OptionDefinitions)
    (values : gmap string OptionValue) : OptionDefinitions :=
  map_imap (λ k v, if changed_option oldOptions values k v then Some v else None)
           newOptions ∪
  map_imap (λ k v, match newOptions !! k with None => Some v | Some _ => None end)
           oldOptions.

Definition dynamicOptionsForNode (g : ograph) (children : list string)
    : OptionDefinitions :=
  foldr (λ c m, match g_nodes g !! c ≫= node_data with
                | Some o => <[c := o]> m
                | None => m
                end) ∅ children.

Definition refreshSubOptions (optionName : string) : M rstate unit :=
  s ← getS;
  match g_nodes (r_graph s) !! optionName with
  | None => mret ()
  | Some node =>
      if negb (r_resolveSubOptions cfg) then mret () else
      opt ← liftR (deref (node_data node));
      if bool_decide (o_subOptionsCommand opt = "") then mret ()
      else
        match r_values s !! optionName with
        | None => mret ()
        | Some val =>
            newDynamicOptions ← liftR (resolveSubOptions opt (r_values s));
            let changed :=
              getChangedOptions
                (dynamicOptionsForNode (r_graph s) (ov_children val))
                newDynamicOptions (r_values s) in
            forM_ (w_iter w (dom changed)) (λ childID,
              setValues (delete childID) ≫= λ _,
              s' ← getS;
              onGraph (RemoveSubGraph (search_fuel (r_graph s')) childID)) ≫= λ _,
            setUser (map_imap (λ k v,
              match newDynamicOptions !! k with
              | Some o =>
                  if is_err (validateUserValue k v o) then None else Some v
              | None => Some v
              end)) ≫= λ _,
            setValues (λ m, <[optionName := ov_with_children
              (default zero_value (m !! optionName))
              (w_iter w (dom newDynamicOptions))]> m) ≫= λ _,
            s'' ← getS;
            wrapM "add sub options"
              (onGraph (addOptionsToGraph newDynamicOptions (r_values s'')))
        end
  end.

(** The loop over [NextFromTop].  Sub-option commands can add options, so
    the number of rounds is not bounded by the definitions; the fuel is. *)
Fixpoint resolve_loop (fuel : nat) : M rstate unit :=
  match fuel with
  | 0 => liftR NoFuel
  | S f =>
      next ← onGraph NextFromTop;
      match next with
      | None => mret ()
      | Some id =>
          wrapM ("resolve option " +:+ id) (resolveOption id) ≫= λ _,
          wrapM ("refresh sub options for " +:+ id) (refreshSubOptions id) ≫= λ _,
          resolve_loop f
      end
  end.

(** ** resolver.go *)

Definition has_child (values : gmap string OptionValue) (k : string) : bool :=
  existsb (λ v, bool_decide (k ∈ ov_children v)) (snd <$> map_to_list values).

Definition new_dynamic (g : ograph) (optionDefinitions : OptionDefinitions)
    (values : gmap string OptionValue) : OptionDefinitions :=
  map_imap (λ k n,
    if bool_decide (k = rootID) || bool_decide (is_Some (optionDefinitions !! k))
    then None
    else if has_child values k then node_data n else None) (g_nodes g).

Definition keep_defined (dynamic defs : OptionDefinitions)
    (values : gmap string OptionValue) : gmap string OptionValue :=
  map_imap (λ k v,
    match dynamic !! k, defs !! k with
    | None, None => None
    | _, _ => Some v
    end) values.

Definition initial_graph : ograph :=
  NewGraphOf (NewNode rootID None) "provider option".

Definition Resolve (fuel : nat) (userOptions : gmap string string)
    (dynamicDefinitions optionDefinitions : OptionDefinitions)
    (optionValues : gmap string OptionValue)
    : result (gmap string OptionValue * OptionDefinitions) :=
  let merged := mergeMaps dynamicDefinitions optionDefinitions in
  match addOptionsToGraph merged optionValues initial_graph with
  | (Ok _, g) =>
      match resolve_loop fuel (RState g userOptions optionValues) with
      | (Ok _, s) =>
          let dynamic := new_dynamic (r_graph s) optionDefinitions (r_values s) in
          Ok (keep_defined dynamic optionDefinitions (r_values s), dynamic)
      | (Err e, _) => Err e
      | (Panic, _) => Panic
      | (NoFuel, _) => NoFuel
      end
  | (Err e, _) => Err e
  | (Panic, _) => Panic
  | (NoFuel, _) => NoFuel
  end.
End Resolver.
