(* ===== verification/ResolverFacts.v ===== *)
(** * Facts about the option resolver

    That the option graph is well formed and has an edge for every variable
    an option mentions, what resolving one option does, and that the loop
    over the options ends with every option resolved. *)

From S2P Require Import Prelude GoStrings GoRegexp Types Graph GraphFacts Config.
From S2P Require Import Resolver.
From stdpp Require Import base gmap sets list strings sorting relations.
From Stdlib Require Import ZArith.

Local Open Scope string_scope.

(** ** The graph of options *)

Definition graph_inv (g : ograph) : Prop := wf g ∧ g_root g = rootID.

Lemma initial_graph_inv : graph_inv initial_graph.
Proof. split; [|done]. by apply NewGraphOf_wf. Qed.

Lemma AddEdge_root (a b : string) (g : ograph) : g_root (AddEdge a b g).2 = g_root g.
Proof.
  unfold AddEdge. runM. split_matches; try done.
  unfold mbind, M_bind, liftR.
  destruct (findFirstPath _ _ _ _) as [[]| | |]; done.
Qed.

Lemma AddEdge_inv a b g : graph_inv g → graph_inv (AddEdge a b g).2.
Proof. intros [??]. split; [by apply AddEdge_wf|by rewrite AddEdge_root]. Qed.

(** Data of the nodes, as a map. *)
Definition data_of (g : ograph) : gmap string (option Option_) :=
  node_data <$> g_nodes g.

Lemma data_of_lookup g k n :
  g_nodes g !! k = Some n → data_of g !! k = Some (node_data n).
Proof. intros H. unfold data_of. by rewrite lookup_fmap, H. Qed.

(** One step of building the dependencies: edges are only added, from and to
    nodes whose data does not change. *)
Definition grows (g g' : ograph) : Prop :=
  graph_inv g → graph_inv g' ∧ data_of g' = data_of g ∧
                ∀ a b, edge g a b → edge g' a b.

#[export] Instance grows_preorder : PreOrder grows.
Proof.
  split.
  - intros g Hg. done.
  - intros g1 g2 g3 H12 H23 H1. destruct (H12 H1) as (H2 & D12 & E12).
    destruct (H23 H2) as (H3 & D23 & E23).
    split_and!; [done|congruence|auto].
Qed.

Lemma linked_data (g : ograph) a b m :
  linked g a b m → data_of (with_nodes g m) = data_of g.
Proof.
  intros Hl. apply map_eq. intros k. unfold data_of. cbn.
  rewrite !lookup_fmap, Hl. destruct (g_nodes g !! k) as [n|]; [|done]. cbn.
  by rewrite link_data.
Qed.

Lemma AddEdge_grows a b g : grows g (AddEdge a b g).2.
Proof.
  intros Hg. split; [by apply AddEdge_inv|]. destruct Hg as [Hwf _].
  destruct (AddEdge_spec g a b (wf_core g Hwf)) as [| | | |m Ha Hb Hab Hba Hl];
    cbn; try done.
  split; [by eapply linked_data|]. intros x y Hxy.
  apply (linked_edge g a b m); [done..|by left].
Qed.

Lemma AddEdge_Ok_edge a b g g' :
  graph_inv g → AddEdge a b g = (Ok (), g') → edge g' a b.
Proof.
  intros [Hwf _] Hrun. pose proof (AddEdge_spec g a b (wf_core g Hwf)) as Hr.
  rewrite Hrun in Hr. inversion Hr; subst; [done|].
  apply (linked_edge g a b m); [done..|by right].
Qed.

(** A computation that does not touch the state, followed by another. *)
Lemma node_option_run id (k : Option_ → M ograph unit) g :
  (∃ o, data_of g !! id = Some (Some o) ∧ (node_option id ≫= k) g = k o g) ∨
  (node_option id ≫= k) g = (Panic, g) ∧
  (∀ o, data_of g !! id ≠ Some (Some o)).
Proof.
  unfold node_option, data_of. rewrite lookup_fmap.
  unfold mbind, M_bind, getS, liftR.
  destruct (g_nodes g !! id) as [n|] eqn:Hid; rewrite ?Hid; cbn;
    [|right; split; [done|congruence]].
  destruct (node_data n) as [o|] eqn:Hn; rewrite ?Hn; cbn;
    [left; by exists o|right; split; [done|congruence]].
Qed.

Lemma add_child_dependency_grows k o c g :
  grows g (add_child_dependency k o c g).2.
Proof.
  unfold add_child_dependency. runM. destruct (g_nodes g !! c); [|done].
  case_decide; [done|].
  destruct (o_global o && negb (o_local o)); [apply AddEdge_grows|].
  edestruct (node_option_run c) as [(d & _ & ->)|[-> _]]; [|done].
  split_matches; [done..|apply AddEdge_grows].
Qed.

Lemma add_variable_dependency_grows k o place d g :
  grows g (add_variable_dependency k o place d g).2.
Proof.
  unfold add_variable_dependency. runM. destruct (g_nodes g !! d); [|done].
  case_decide; [done|].
  destruct (negb (o_global o) && o_local o); [apply AddEdge_grows|].
  edestruct (node_option_run d) as [(x & _ & ->)|[-> _]]; [|done].
  split_matches; [done..|apply AddEdge_grows].
Qed.

(** The rule on scopes that [addDependency] enforces between an option and
    the option it mentions. *)
Definition scope_ok (opt dep : Option_) : Prop :=
  (o_global opt = true → o_global dep = true) ∧
  (o_local dep = true → o_local opt = true).

Lemma add_variable_dependency_Ok k o place d g g' :
  graph_inv g → add_variable_dependency k o place d g = (Ok (), g') →
  is_Some (g_nodes g !! d) → d ≠ k →
  edge g' d k ∧ ∀ od, data_of g !! d = Some (Some od) → scope_ok o od.
Proof.
  intros Hg. unfold add_variable_dependency. runM. intros Hrun [n Hn] Hne.
  rewrite Hn in Hrun. rewrite decide_False in Hrun by done.
  destruct (negb (o_global o) && o_local o) eqn:Hfree.
  { apply andb_true_iff in Hfree as [Hgl%negb_true_iff Hlo].
    split; [by eapply AddEdge_Ok_edge|]. intros od _. split; congruence. }
  edestruct (node_option_run d) as [(x & Hx & Heq)|[Heq _]]; rewrite Heq in Hrun; [|done].
  cbv beta in Hrun.
  destruct (o_global o && negb (o_global x)) eqn:Hgl; [done|].
  destruct (negb (o_local o) && o_local x) eqn:Hlo; [done|].
  split; [by eapply AddEdge_Ok_edge|]. intros od Hod. assert (od = x) as -> by congruence.
  unfold scope_ok. destruct (o_global o), (o_global x), (o_local o), (o_local x);
    done.
Qed.

Lemma addDependency_grows vals k g : grows g (addDependency vals k g).2.
Proof.
  unfold addDependency.
  edestruct (node_option_run k) as [(o & _ & ->)|[-> _]]; [|done].
  set (cs := ov_children _). cbv beta.
  assert (∀ g1, grows g1 (forM_ cs (add_child_dependency k o) g1).2) as H1.
  { intros g1. apply forM_rel; [apply _|]. intros. apply add_child_dependency_grows. }
  assert (∀ p l g1, grows g1 (forM_ l (add_variable_dependency k o p) g1).2) as H2.
  { intros p l g1. apply forM_rel; [apply _|].
    intros. apply add_variable_dependency_grows. }
  unfold mbind, M_bind. specialize (H1 g).
  destruct (forM_ cs _ g) as [[[]| | |] g1]; cbn in H1; try done.
  specialize (H2 "default" (findVariables (o_default o)) g1) as H3.
  destruct (forM_ (findVariables (o_default o)) _ g1) as [[[]| | |] g2]; cbn in H3;
    try (by etrans).
  etrans; [exact H1|]. etrans; [exact H3|]. apply H2.
Qed.

(** The variables an option depends on. *)
Definition mentions (o : Option_) (d : string) : Prop :=
  d ∈ findVariables (o_default o) ∨ d ∈ findVariables (o_command o).

Lemma addDependency_Ok vals k o g g' d :
  graph_inv g → addDependency vals k g = (Ok (), g') →
  data_of g !! k = Some (Some o) → mentions o d →
  is_Some (data_of g !! d) → d ≠ k →
  edge g' d k ∧ ∀ od, data_of g !! d = Some (Some od) → scope_ok o od.
Proof.
  intros Hg Hrun Hk Hd Hin Hne. unfold addDependency in Hrun.
  edestruct (node_option_run k) as [(o0 & Ho0 & Heq)|[_ Hno]]; [|by edestruct Hno].
  rewrite Heq in Hrun. assert (o0 = o) as -> by congruence. cbv beta in Hrun.
  apply M_bind_Ok in Hrun as ([] & g1 & H1 & Hrun).
  apply M_bind_Ok in Hrun as ([] & g2 & H2 & H3).
  assert (grows g g1) as G1.
  { pose proof (forM_rel grows (add_child_dependency k o)
      (ov_children (default zero_value (vals !! k))) g) as G.
    rewrite H1 in G. apply G. intros. apply add_child_dependency_grows. }
  assert (∀ p x s, grows s (add_variable_dependency k o p x s).2) as GV
    by (intros; apply add_variable_dependency_grows).
  assert (grows g1 g2) as G2.
  { pose proof (forM_rel grows (add_variable_dependency k o "default")
      (findVariables (o_default o)) g1) as G. rewrite H2 in G. by apply G. }
  assert (∀ p x s1 s2, grows g s1 → add_variable_dependency k o p x s1 = (Ok (), s2) →
    grows s2 g' → x = d → edge g' d k ∧
    ∀ od, data_of g !! d = Some (Some od) → scope_ok o od) as Hcase.
  { intros p x s1 s2 Gs1 Hx Gs2 ->. destruct (Gs1 Hg) as (Hs1 & D & _).
    assert (is_Some (g_nodes s1 !! d)).
    { rewrite <-D in Hin. unfold data_of in Hin. rewrite lookup_fmap in Hin.
      by apply fmap_is_Some in Hin. }
    pose proof (GV p d s1 Hs1) as (Hs2 & _ & _). rewrite Hx in Hs2. cbn in Hs2.
    destruct (add_variable_dependency_Ok k o p d s1 s2) as (He & Hs);
      [done..|].
    split; [by apply (Gs2 Hs2)|]. by rewrite <-D. }
  destruct Hd as [Hd|Hd].
  - destruct (forM_Ok_elem grows _ _ _ _ d (λ x s _, GV "default" x s) H2 Hd)
      as (s1 & s2 & R1 & Hx & R2).
    eapply Hcase; [by etrans|exact Hx| |done]. etrans; [exact R2|].
    pose proof (forM_rel grows (add_variable_dependency k o "command")
      (findVariables (o_command o)) g2) as G. rewrite H3 in G. by apply G.
  - destruct (forM_Ok_elem grows _ _ _ _ d (λ x s _, GV "command" x s) H3 Hd)
      as (s1 & s2 & R1 & Hx & R2).
    eapply Hcase; [|exact Hx|done|done]. do 2 (etrans; [eassumption|]). done.
Qed.

(** ** Detaching options from the root *)

(** Only edges from the root are lost. *)
Definition detaches (g g' : ograph) : Prop :=
  graph_inv g → graph_inv g' ∧ data_of g' = data_of g ∧
                ∀ a b, a ≠ rootID → edge g a b ↔ edge g' a b.

#[export] Instance detaches_preorder : PreOrder detaches.
Proof.
  split.
  - intros g Hg. done.
  - intros g1 g2 g3 H12 H23 H1. destruct (H12 H1) as (H2 & D12 & E12).
    destruct (H23 H2) as (H3 & D23 & E23).
    split_and!; [done|congruence|]. intros a b Ha. by rewrite E12, E23.
Qed.

Definition cut_node (root id k : string) (n : node (option Option_)) :=
  if decide (k = id) then with_parents n (filter (λ p, p ≠ root) (node_parents n))
  else if decide (k = root) then
    with_childs n (Slice (filter (λ c, c ≠ id) (childs n)) [])
  else n.

Lemma cut_node_frame root id k n :
  node_id (cut_node root id k n) = node_id n ∧
  node_data (cut_node root id k n) = node_data n.
Proof. unfold cut_node. by repeat case_decide. Qed.

Lemma cut_node_childs root id k n b :
  id ≠ root →
  b ∈ childs (cut_node root id k n) ↔ b ∈ childs n ∧ ¬ (k = root ∧ b = id).
Proof.
  intros Hne. unfold cut_node. repeat case_decide; subst; cbn.
  - naive_solver.
  - unfold childs at 1. cbn. rewrite list_elem_of_filter. naive_solver.
  - naive_solver.
Qed.

Lemma cut_node_parents root id k n a :
  a ∈ node_parents (cut_node root id k n) ↔
  a ∈ node_parents n ∧ ¬ (a = root ∧ k = id).
Proof.
  unfold cut_node. repeat case_decide; subst; cbn; [|naive_solver..].
  rewrite list_elem_of_filter. naive_solver.
Qed.

Lemma filter_root_nonempty (l : list string) root :
  NoDup l → 1 < length l → filter (λ p, p ≠ root) l ≠ [].
Proof.
  intros Hnd Hlen Hf. destruct l as [|a [|b l]]; cbn in Hlen; [lia..|].
  apply NoDup_cons in Hnd as [Hab _].
  assert (∀ x, x ∈ a :: b :: l → x = root) as Hall.
  { intros x Hx. destruct (decide (x = root)); [done|].
    assert (x ∈ filter (λ p, p ≠ root) (a :: b :: l)) as Hin
      by (by apply list_elem_of_filter). rewrite Hf in Hin. set_solver. }
  assert (a = b) by (rewrite (Hall a), (Hall b); [done|set_solver..]).
  set_solver.
Qed.

Lemma cut_edge (g : ograph) id m :
  id ≠ g_root g → (∀ k, m !! k = cut_node (g_root g) id k <$> g_nodes g !! k) →
  ∀ a b, edge (with_nodes g m) a b ↔ edge g a b ∧ ¬ (a = g_root g ∧ b = id).
Proof.
  intros Hid Hm a b. unfold edge. cbn. setoid_rewrite Hm. split.
  - intros (n' & Hn' & Hb). apply fmap_Some in Hn' as (n & Hn & ->).
    apply cut_node_childs in Hb; [|done]. naive_solver.
  - intros [(n & Hn & Hb) Hno]. exists (cut_node (g_root g) id a n).
    rewrite Hn. split; [done|]. by apply cut_node_childs.
Qed.

Lemma cut_wf (g : ograph) id n m :
  wf g → g_nodes g !! id = Some n → 1 < length (node_parents n) →
  id ≠ g_root g → (∀ k, m !! k = cut_node (g_root g) id k <$> g_nodes g !! k) →
  wf (with_nodes g m).
Proof.
  intros [Hc Hatt] Hn Hlen Hid Hm.
  pose proof (cut_edge g id m Hid Hm) as Hedge.
  assert (∀ k n', m !! k = Some n' → ∃ n0, g_nodes g !! k = Some n0 ∧
            n' = cut_node (g_root g) id k n0) as Hl.
  { intros k n'. rewrite Hm, fmap_Some. naive_solver. }
  split; [split|]; cbn.
  - intros k n' (n0 & Hn0 & ->)%Hl.
    rewrite (proj1 (cut_node_frame _ _ _ _)). by eapply wf_id.
  - intros a b [He Hno]%Hedge. destruct (wf_child g Hc a b He) as (nb & Hnb & Ha).
    exists (cut_node (g_root g) id b nb). rewrite Hm, Hnb. split; [done|].
    apply cut_node_parents. split; [done|naive_solver].
  - intros a b nb' (nb & Hnb & ->)%Hl [Ha Hno]%cut_node_parents.
    apply Hedge. split; [by eapply wf_parent|naive_solver].
  - intros k n' (n0 & Hn0 & ->)%Hl. pose proof (wf_nodup_childs g Hc k n0 Hn0).
    unfold cut_node. repeat case_decide; [done| |done].
    unfold childs. cbn. by apply NoDup_filter.
  - intros k n' (n0 & Hn0 & ->)%Hl. pose proof (wf_nodup_parents g Hc k n0 Hn0).
    unfold cut_node. repeat case_decide; [|done..]. cbn. by apply NoDup_filter.
  - intros x Hx. apply (tc_congruence (λ k, k)) with (R' := edge g) in Hx.
    + by eapply wf_acyclic.
    + intros a b He. by apply Hedge in He as [??].
  - rewrite Hm. destruct (wf_root g Hc) as [r ->]. by eexists.
  - intros k n' (n0 & Hn0 & ->)%Hl Hk. unfold cut_node.
    destruct (decide (k = id)) as [->|].
    + simplify_eq. cbn. apply filter_root_nonempty; [|done].
      by eapply wf_nodup_parents.
    + rewrite decide_False by done. by eapply Hatt.
Qed.

Lemma remove_root_parent_detaches id g : detaches g (remove_root_parent id g).2.
Proof.
  intros [Hwf Hroot]. unfold remove_root_parent. runM.
  destruct (g_nodes g !! id) as [n|] eqn:Hn; [|done]. cbn [deref]. runM.
  case_decide as Hlen; [|done].
  assert (id ≠ g_root g) as Hid.
  { intros ->. destruct (node_parents n) as [|p ps] eqn:Hps; [cbn in Hlen; lia|].
    apply (wf_root_no_parent g p Hwf). eapply wf_parent; [by apply wf_core|done|].
    rewrite Hps. left. }
  assert (node_id n = id) as Hnid by (eapply wf_id; [by apply wf_core|done]).
  destruct (wf_root g (wf_core g Hwf)) as [r Hr].
  assert (∀ m, (∀ k, m !! k = cut_node (g_root g) id k <$> g_nodes g !! k) →
    graph_inv (with_nodes g m) ∧ data_of (with_nodes g m) = data_of g ∧
    ∀ a b, a ≠ rootID → edge g a b ↔ edge (with_nodes g m) a b) as Hdone.
  { intros m Hm. split_and!.
    - split; [by apply (cut_wf g id n)|done].
    - apply map_eq. intros k. unfold data_of. cbn. rewrite !lookup_fmap, Hm.
      destruct (g_nodes g !! k) as [n0|]; [|done]. cbn.
      by rewrite (proj2 (cut_node_frame _ _ _ _)).
    - intros a b Ha. rewrite (cut_edge g id m Hid Hm). split; [|naive_solver].
      intros He. split; [done|]. rewrite Hroot. naive_solver. }
  case_bool_decide as Hin.
  - rewrite lookup_insert_ne, Hr by done. apply Hdone. intros k. unfold cut_node.
    destruct (decide (k = id)) as [->|Hki].
    + rewrite lookup_insert_ne, lookup_insert_eq, Hn, Hroot by done. done.
    + rewrite lookup_insert. case_decide as Hkr.
      * subst k. rewrite Hr. cbn. by rewrite decide_True, Hnid by done.
      * rewrite lookup_insert_ne by done. destruct (g_nodes g !! k); [|done]. cbn.
        by rewrite decide_False by done.
  - cbn. replace (<[id:=_]> (g_nodes g)) with (g_nodes g).
    { replace (with_nodes g (g_nodes g)) with g by (by destruct g). done. }
    symmetry. apply insert_id. rewrite Hn. f_equal.
    rewrite filter_all; [by destruct n|]. intros p Hp ->. done.
Qed.

Lemma removeRootParent_detaches w g : detaches g (removeRootParent w g).2.
Proof.
  unfold removeRootParent. runM. apply forM_rel; [apply _|].
  intros. apply remove_root_parent_detaches.
Qed.

(** ** Registering the definitions *)

Section Define.
Context (defs : OptionDefinitions).

(** Nodes whose data is the definition stay that way, and no node or edge
    is lost. *)
Definition defines (g g' : ograph) : Prop :=
  graph_inv g →
  graph_inv g' ∧
  (∀ k o, defs !! k = Some o → data_of g !! k = Some (Some o) →
          data_of g' !! k = Some (Some o)) ∧
  (∀ k, is_Some (data_of g !! k) → is_Some (data_of g' !! k)) ∧
  (∀ a b, edge g a b → edge g' a b).

#[export] Instance defines_preorder : PreOrder defines.
Proof.
  split.
  - intros g Hg. done.
  - intros g1 g2 g3 R12 R23 Hg1. destruct (R12 Hg1) as (Hg2 & D12 & N12 & E12).
    destruct (R23 Hg2) as (Hg3 & D23 & N23 & E23). split_and!; auto.
Qed.

Lemma set_data_relabels (g : ograph) k n o :
  g_nodes g !! k = Some n → relabels g (<[k := with_data n o]> (g_nodes g)).
Proof.
  intros Hk j. destruct (decide (j = k)) as [->|].
  - by rewrite Hk, lookup_insert_eq.
  - rewrite lookup_insert_ne by done. by destruct (g_nodes g !! j).
Qed.

Lemma set_data_lookup (g : ograph) k n o j :
  data_of (with_nodes g (<[k := with_data n o]> (g_nodes g))) !! j =
  if decide (j = k) then Some o else data_of g !! j.
Proof.
  unfold data_of. cbn. rewrite !lookup_fmap, lookup_insert.
  repeat case_decide; subst; done.
Qed.

Lemma InsertNodeAt_new_data (g : ograph) p k o m j :
  g_nodes g !! k = None → linked (isolated g k o) p k m →
  data_of (with_nodes g m) !! j = if decide (j = k) then Some o else data_of g !! j.
Proof.
  intros Hk Hl. unfold data_of. cbn. rewrite !lookup_fmap, Hl. cbn.
  rewrite lookup_insert. repeat case_decide; subst; try done; cbn.
  - by rewrite link_data.
  - destruct (g_nodes g !! j); cbn; [by rewrite link_data|done].
Qed.

Lemma InsertNodeAt_new_edges (g : ograph) p k o m a b :
  core g → g_nodes g !! k = None → is_Some (g_nodes g !! p) →
  linked (isolated g k o) p k m →
  edge (with_nodes g m) a b ↔ edge g a b ∨ a = p ∧ b = k.
Proof.
  intros Hc Hk Hp Hl. rewrite <-(isolated_edge g k o) by done.
  apply (linked_edge (isolated g k o) p k m); [|done].
  cbn. rewrite lookup_insert. case_decide; [by eexists|done].
Qed.

Lemma add_option_cases k g :
  graph_inv g →
  defs !! k = None ∧ add_option defs k g = (Panic, g) ∨
  ∃ o g', defs !! k = Some o ∧ add_option defs k g = (Ok (), g') ∧
          graph_inv g' ∧
          (∀ j, data_of g' !! j =
                if decide (j = k) then Some (Some o) else data_of g !! j) ∧
          (∀ a b, edge g a b → edge g' a b).
Proof.
  intros [Hwf Hroot]. unfold add_option.
  destruct (defs !! k) as [o|] eqn:Hd; [|by left]. right. cbn [deref]. runM.
  destruct (g_nodes g !! k) as [n|] eqn:Hk.
  - pose proof (set_data_relabels g k n (Some o) Hk) as Hr.
    exists o. eexists. split_and!; [done|reflexivity|..].
    + split; [by apply relabels_wf|done].
    + intros j. apply set_data_lookup.
    + intros a b. by rewrite (relabels_edge g _ a b Hr).
  - pose proof (InsertNodeAt_spec g rootID k (Some o) (wf_core g Hwf)) as Hins.
    pose proof (InsertNodeAt_wf g rootID k (Some o) Hwf) as Hwf'.
    destruct (wf_root g (wf_core g Hwf)) as [r Hr]. rewrite Hroot in Hr.
    destruct (InsertNodeAt rootID k (Some o) g) as [res g'] eqn:Hrun.
    inversion Hins as [Hno|? ? ? [? Hex]|m Hp Hnone Hl]; subst; [congruence..|].
    rewrite (run_Ok _ _ _ _ _ Hrun).
    exists o. eexists. split_and!; [done|reflexivity|by split|..].
    + intros j. by eapply InsertNodeAt_new_data.
    + intros a b Hab. apply (InsertNodeAt_new_edges g rootID k (Some o) m a b);
        [by apply wf_core|done..|by left].
Qed.

Lemma add_option_defines k g : defines g (add_option defs k g).2.
Proof.
  intros Hg.
  destruct (add_option_cases k g Hg) as [[_ ->]|(o & g' & Hd & -> & Hg' & Hdata & He)];
    [done|]. cbn. split_and!; [done|..|done].
  - intros j o' Hj Hjd. rewrite Hdata. case_decide; [congruence|done].
  - intros j Hj. rewrite Hdata. case_decide; [by eexists|done].
Qed.

Lemma add_option_data k g g' o :
  graph_inv g → add_option defs k g = (Ok (), g') → defs !! k = Some o →
  data_of g' !! k = Some (Some o).
Proof.
  intros Hg Hrun Hk.
  destruct (add_option_cases k g Hg) as [[? _]|(o' & g0 & Hd & Hr & _ & Hdata & _)];
    [congruence|]. assert (g0 = g') as -> by congruence.
  rewrite Hdata, decide_True by done. congruence.
Qed.
End Define.

(** ** addOptionsToGraph *)

Lemma add_options_defined w `{!WorldOk w} defs g g' :
  graph_inv g →
  forM_ (w_iter w (dom defs)) (add_option defs) g = (Ok (), g') →
  graph_inv g' ∧ ∀ k o, defs !! k = Some o → data_of g' !! k = Some (Some o).
Proof.
  intros Hg Hrun.
  assert (∀ x s, x ∈ w_iter w (dom defs) → defines defs s (add_option defs x s).2)
    as Hd by (intros; apply add_option_defines).
  split.
  - pose proof (forM_rel (defines defs) _ _ g Hd Hg) as (H & _).
    by rewrite Hrun in H.
  - intros k o Hk.
    assert (k ∈ w_iter w (dom defs)) as Hin.
    { rewrite w_iter_perm, elem_of_elements. by eapply elem_of_dom_2. }
    destruct (forM_Ok_elem _ _ _ _ _ k Hd Hrun Hin) as (s1 & s2 & R1 & Hk1 & R2).
    destruct (R1 Hg) as (Hs1 & _).
    assert (graph_inv s2) as Hs2.
    { destruct (add_option_defines defs k s1 Hs1) as (H & _). by rewrite Hk1 in H. }
    destruct (R2 Hs2) as (_ & Hkeep & _).
    apply Hkeep; [done|]. by apply (add_option_data defs k s1 s2).
Qed.

(** When the options were added, the graph is well formed, holds every
    definition, and has an edge from every mentioned option, with compatible
    scopes. *)
Lemma addOptionsToGraph_spec w `{!WorldOk w} defs vals g g' :
  graph_inv g → addOptionsToGraph w defs vals g = (Ok (), g') →
  graph_inv g' ∧
  (∀ k o, defs !! k = Some o → data_of g' !! k = Some (Some o)) ∧
  (∀ k o d, defs !! k = Some o → mentions o d → is_Some (g_nodes g' !! d) →
     d ≠ k → d ≠ rootID →
     edge g' d k ∧ ∀ od, data_of g' !! d = Some (Some od) → scope_ok o od).
Proof.
  intros Hg Hrun. unfold addOptionsToGraph, addDependencies in Hrun.
  apply M_bind_Ok in Hrun as ([] & g1 & H1 & Hrun).
  apply M_bind_Ok in Hrun as ([] & g2 & H2 & H3).
  destruct (add_options_defined w defs g g1 Hg H1) as [Hg1 Hdef].
  assert (∀ x s, x ∈ w_iter w (dom defs) → grows s (addDependency vals x s).2)
    as Hgr by (intros; apply addDependency_grows).
  destruct (forM_rel grows _ _ g1 Hgr Hg1) as (Hg2 & D2 & _).
  rewrite H2 in Hg2, D2. cbn in Hg2, D2.
  destruct (removeRootParent_detaches w g2 Hg2) as (Hg3 & D3 & E3).
  rewrite H3 in Hg3, D3, E3. cbn in Hg3, D3, E3.
  split; [done|]. split; [intros k o Hk; rewrite D3, D2; by apply Hdef|].
  intros k o d Hk Hm Hd Hne Hroot.
  assert (k ∈ w_iter w (dom defs)) as Hin.
  { rewrite w_iter_perm, elem_of_elements. by eapply elem_of_dom_2. }
  destruct (forM_Ok_elem grows _ _ _ _ k Hgr H2 Hin) as (s1 & s2 & R1 & Hk1 & R2).
  destruct (R1 Hg1) as (Hs1 & D1 & _).
  assert (graph_inv s2) as Hs2.
  { destruct (addDependency_grows vals k s1 Hs1) as (H & _). by rewrite Hk1 in H. }
  destruct (R2 Hs2) as (_ & _ & E2).
  destruct (addDependency_Ok vals k o s1 s2 d) as (He & Hs); try done.
  - rewrite D1. by apply Hdef.
  - rewrite D1, <-D2, <-D3. unfold data_of. by rewrite lookup_fmap, fmap_is_Some.
  - split; [apply E3; [done|by apply E2]|].
    by rewrite D3, D2, <-D1.
Qed.

(** ** The names of variables *)

Lemma variableExpression_sub prev s p' s' cs :
  matches variableExpression prev s [] p' s' cs →
  sforall is_var_char (sub cs 1) = true ∧ sub cs 1 ≠ "".
Proof.
  unfold variableExpression. intros Hm.
  inversion Hm as [| |? ? ? ? ? p1 s1 c1 ? ? ? _ H1| | | | | | | | |]; subst.
  inversion H1 as [| |? ? ? ? ? p2 s2 c2 ? ? ? _ H2| | | | | | | | |]; subst.
  inversion H2 as [| |? ? ? ? ? p3 s3 c3 ? ? ? H3 H4| | | | | | | | |]; subst.
  apply (matches_cap _ _ _ _ _ _ _ 1) in H4; [|cbn; set_solver].
  inversion H3 as [| | | | | | |? ? ? ? ? ? ? ? H5| | | |]; subst.
  apply matches_plus_chr in H5 as (Hall & Hne & _).
  unfold sub. rewrite H4. cbn. done.
Qed.

Lemma findVariables_name str d :
  d ∈ findVariables str → sforall is_var_char d = true ∧ d ≠ "".
Proof.
  unfold findVariables. rewrite merge_sort_Permutation, elem_of_elements.
  rewrite elem_of_list_to_set, list_elem_of_fmap. intros (cs & -> & Hcs).
  apply find_all_from_matches in Hcs as (prev & s & p' & s' & Hm).
  by eapply variableExpression_sub.
Qed.

Lemma mentions_not_root o : ¬ mentions o rootID.
Proof. by intros [[H _]%findVariables_name|[H _]%findVariables_name]. Qed.
