(* ===== verification/ResolveLoop.v ===== *)
(** * Resolving options one by one

    What [resolveOption] does to the state, and the behaviour of the loop
    over [NextFromTop]: dependencies first, every option once, and an end. *)

From S2P Require Import Prelude Graph GraphFacts GoStrings GoRegexp Types Config Resolver ResolverFacts.
From stdpp Require Import base gmap sets list strings sorting relations.
From Stdlib Require Import ZArith.

Local Open Scope string_scope.

(** ** Computations that leave the graph alone *)

(** [c] does not change the graph and does not run out of fuel. *)
Definition keeps_graph {A} (c : M rstate A) : Prop :=
  ∀ s, r_graph (c s).2 = r_graph s ∧ (c s).1 ≠ NoFuel.

Create HintDb keeps.

Section Keeps.
Context {A B : Type}.

Lemma keeps_bind (c : M rstate A) (k : A → M rstate B) :
  keeps_graph c → (∀ a, keeps_graph (k a)) → keeps_graph (c ≫= k).
Proof.
  intros Hc Hk s. destruct (Hc s) as [Hg Hn]. unfold mbind, M_bind.
  destruct (c s) as [[a| | |] s1]; cbn in *; try done.
  destruct (Hk a s1). split; [congruence|done].
Qed.
Lemma keeps_ret (a : A) : keeps_graph (mret a).
Proof. done. Qed.
Lemma keeps_get : keeps_graph getS.
Proof. done. Qed.
Lemma keeps_throw e : keeps_graph (A := A) (throw e).
Proof. done. Qed.
Lemma keeps_lift (c : result A) : c ≠ NoFuel → keeps_graph (liftR c).
Proof. done. Qed.
Lemma keeps_setValues f : keeps_graph (setValues f).
Proof. done. Qed.
Lemma keeps_wrapM msg (c : M rstate A) : keeps_graph c → keeps_graph (wrapM msg c).
Proof.
  intros Hc s. destruct (Hc s) as [? Hn]. unfold wrapM.
  destruct (c s) as [[] ?]; done.
Qed.
End Keeps.
#[export] Hint Resolve keeps_bind keeps_ret keeps_get keeps_throw keeps_lift
  keeps_setValues keeps_wrapM : keeps.

(** No step of the resolver outside the graph runs out of fuel. *)
Lemma bind_fuel {A B} (c : result A) (k : A → result B) :
  c ≠ NoFuel → (∀ a, k a ≠ NoFuel) → c ≫= k ≠ NoFuel.
Proof. destruct c; cbn; auto. Qed.
Lemma wrap_fuel {A} msg (c : result A) : c ≠ NoFuel → wrap msg c ≠ NoFuel.
Proof. by destruct c. Qed.
Lemma of_sum_fuel {A} (c : string + A) : of_sum c ≠ NoFuel.
Proof. by destruct c. Qed.
Lemma of_option_fuel {A} e (o : option A) : of_option e o ≠ NoFuel.
Proof. by destruct o. Qed.
Lemma deref_fuel {A} (o : option A) : deref o ≠ NoFuel.
Proof. by destruct o. Qed.
Lemma Ok_fuel {A} (a : A) : Ok a ≠ NoFuel.
Proof. done. Qed.
Lemma Err_fuel {A} e : Err (A := A) e ≠ NoFuel.
Proof. done. Qed.
#[export] Hint Resolve bind_fuel wrap_fuel of_sum_fuel of_option_fuel deref_fuel
  Ok_fuel Err_fuel : keeps.

Section Loop.
Context (w : world) (cfg : rconfig).

Lemma validateUserValue_fuel k v o : validateUserValue w k v o ≠ NoFuel.
Proof.
  unfold validateUserValue, validate_pattern, validate_enum, validate_type.
  repeat (apply bind_fuel; [|intros ?]); split_matches; done.
Qed.
Hint Resolve validateUserValue_fuel : keeps.

Lemma validate_cases k v o :
  validateUserValue w k v o = Ok () ∨ ∃ e, validateUserValue w k v o = Err e.
Proof.
  unfold validateUserValue, validate_pattern, validate_enum, validate_type,
    mbind, result_bind. split_matches; eauto.
Qed.

Lemma keep_value_fuel k o b : keep_value w cfg k o b ≠ NoFuel.
Proof.
  unfold keep_value. apply bind_fuel; [|intros []; done].
  destruct b; [|done]. case_match; [done|]. auto with keeps.
Qed.

Lemma new_value_fuel o u b vals : new_value w cfg o u b vals ≠ NoFuel.
Proof.
  unfold new_value, resolveFromCommand, execOptionCommand.
  split_matches; auto 10 with keeps.
Qed.
Hint Resolve keep_value_fuel new_value_fuel : keeps.

Lemma node_option_keeps k : keeps_graph (onGraph (node_option k)).
Proof.
  intros s. unfold onGraph, node_option, mbind, M_bind, getS, liftR.
  destruct (g_nodes (r_graph s) !! k) as [n|] eqn:Hk; rewrite ?Hk; cbn; [|done].
  destruct (node_data n); done.
Qed.

Lemma getValue_keeps k o : keeps_graph (getValue w k o).
Proof.
  unfold getValue. apply keeps_bind; [apply keeps_get|intros s].
  apply keeps_bind; [case_match; auto with keeps|intros _].
  case_match; [|apply keeps_ret].
  pose proof (validateUserValue_fuel k (ov_value o0) o).
  case_match; auto with keeps.
Qed.
Hint Resolve node_option_keeps getValue_keeps : keeps.

Lemma propagate_change_keeps k cur : keeps_graph (propagate_change k cur).
Proof.
  apply keeps_bind; [apply keeps_get|intros s].
  apply keeps_bind; [apply keeps_lift, deref_fuel|intros n].
  cbv zeta. case_match; auto with keeps.
Qed.
Hint Resolve propagate_change_keeps : keeps.

Lemma finish_option_keeps k o cur :
  r_skipRequired cfg = false → keeps_graph (finish_option w cfg k o cur).
Proof.
  intros Hskip. unfold finish_option. rewrite Hskip.
  apply keeps_bind; [apply keeps_get|intros s].
  cbv zeta. case_match; [|auto with keeps]. case_match; auto with keeps.
Qed.

Lemma resolveOption_keeps k :
  r_skipRequired cfg = false → keeps_graph (resolveOption w cfg k).
Proof.
  intros Hskip. unfold resolveOption.
  apply keeps_bind; [auto with keeps|intros o].
  apply keeps_bind; [auto with keeps|intros cur].
  apply keeps_bind; [case_match; auto with keeps|intros [|]]; [apply keeps_ret|].
  apply keeps_bind; [apply keeps_get|intros s].
  apply keeps_bind; [auto with keeps|intros v].
  apply keeps_bind; [apply keeps_setValues|intros _].
  by apply finish_option_keeps.
Qed.

Lemma refreshSubOptions_keeps k :
  r_resolveSubOptions cfg = false → keeps_graph (refreshSubOptions w cfg k).
Proof.
  intros Hsub. unfold refreshSubOptions. rewrite Hsub.
  apply keeps_bind; [apply keeps_get|intros s]. case_match; apply keeps_ret.
Qed.

(** ** The loop without sub options *)

(** The nodes still to be handed out; every round marks one of them. *)
Definition pending_set (g : ograph) : gset string :=
  filter (λ k, is_pending g k = true) (dom (g_nodes g)).

Lemma is_pending_mark_done (g : ograph) id k :
  is_pending (mark_done g id) k = is_pending g k && negb (bool_decide (k = id)).
Proof.
  unfold is_pending. rewrite mark_done_lookup.
  destruct (g_nodes g !! k) as [n|]; [|done]. cbn.
  case_decide; case_bool_decide; try done; cbn.
  - by rewrite andb_false_r.
  - by rewrite andb_true_r.
Qed.

Lemma mark_done_pending_set (g : ograph) id :
  pending g id → size (pending_set (mark_done g id)) < size (pending_set g).
Proof.
  intros [Hroot (n & Hn & Hdone)]. apply subset_size.
  assert (dom (g_nodes (mark_done g id)) = dom (g_nodes g)) as Hdom.
  { cbn. apply dom_alter_L. }
  split.
  - intros k. unfold pending_set. rewrite !elem_of_filter, Hdom, is_pending_mark_done.
    rewrite andb_true_iff. naive_solver.
  - intros Hsub. specialize (Hsub id). unfold pending_set in Hsub.
    rewrite !elem_of_filter, Hdom, is_pending_mark_done in Hsub.
    rewrite bool_decide_eq_true_2, andb_false_r in Hsub by done.
    destruct Hsub as [? _]; [|done]. split.
    + unfold is_pending. by rewrite Hn, Hdone.
    + by eapply elem_of_dom_2.
Qed.

Lemma onGraph_NextFromTop s :
  graph_inv (r_graph s) →
  (∀ k, ¬ pending (r_graph s) k) ∧ onGraph NextFromTop s = (Ok None, s) ∨
  ∃ id, pending (r_graph s) id ∧
    (∀ p, edge (r_graph s) p id → ¬ pending (r_graph s) p) ∧
    onGraph NextFromTop s =
    (Ok (Some id), RState (mark_done (r_graph s) id) (r_userOptions s) (r_values s)).
Proof.
  intros [Hwf Hroot]. unfold onGraph.
  destruct (NextFromTop_spec (r_graph s) Hwf) as [Hnone|id Hp Hpar].
  - left. split; [done|]. by destruct s.
  - right. by exists id.
Qed.

Lemma mark_done_data (g : ograph) id : data_of (mark_done g id) = data_of g.
Proof.
  apply map_eq. intros k. unfold data_of. cbn.
  rewrite !lookup_fmap, lookup_alter. case_decide; [subst|done].
  by destruct (g_nodes g !! k).
Qed.

Lemma mark_done_inv (g : ograph) id : graph_inv g → graph_inv (mark_done g id).
Proof. intros [??]. split; [by apply mark_done_wf|done]. Qed.

Context (Hskip : r_skipRequired cfg = false)
        (Hsub : r_resolveSubOptions cfg = false).

(** The body of the loop leaves the graph as [NextFromTop] returned it. *)
Lemma loop_body_keeps id :
  keeps_graph (wrapM ("resolve option " +:+ id) (resolveOption w cfg id) ≫= λ _,
               wrapM ("refresh sub options for " +:+ id) (refreshSubOptions w cfg id)).
Proof.
  apply keeps_bind; [|intros _]; apply keeps_wrapM;
    [by apply resolveOption_keeps|by apply refreshSubOptions_keeps].
Qed.

Lemma resolve_loop_spec fuel : ∀ s,
  graph_inv (r_graph s) → size (pending_set (r_graph s)) < fuel →
  (resolve_loop w cfg fuel s).1 ≠ NoFuel ∧
  ((resolve_loop w cfg fuel s).1 = Ok () →
   ∀ k, ¬ pending (r_graph (resolve_loop w cfg fuel s).2) k).
Proof.
  induction fuel as [|f IH]; intros s Hg Hsz; [lia|]. cbn [resolve_loop].
  destruct (onGraph_NextFromTop s Hg) as [[Hnone Hrun]|(id & Hp & _ & Hrun)];
    rewrite (run_Ok _ _ _ _ _ Hrun); [done|].
  rewrite (M_bind_assoc _ _ (λ _, resolve_loop w cfg f)).
  set (s1 := RState _ _ _). destruct (loop_body_keeps id s1) as [G N].
  match goal with |- context [(?c ≫= ?k) s1] =>
    destruct (M_bind_cases c k s1) as [(a & s' & Hc & ->)|[Hno Hf]] end.
  - rewrite Hc in G. cbn in G. apply IH; rewrite G; [by apply mark_done_inv|].
    pose proof (mark_done_pending_set (r_graph s) id Hp). cbn in *. lia.
  - split; [auto|]. intros Hok. by apply Hno in Hok.
Qed.

(** The rounds of the loop as a transition system. *)
Inductive loop_reach (s0 : rstate) : rstate → Prop :=
| reach_refl : loop_reach s0 s0
| reach_round s id s1 s2 s3 :
    loop_reach s0 s →
    onGraph NextFromTop s = (Ok (Some id), s1) →
    resolveOption w cfg id s1 = (Ok (), s2) →
    refreshSubOptions w cfg id s2 = (Ok (), s3) →
    loop_reach s0 s3.

Lemma loop_reach_graph s0 s :
  graph_inv (r_graph s0) → loop_reach s0 s →
  graph_inv (r_graph s) ∧ data_of (r_graph s) = data_of (r_graph s0) ∧
  ∀ a b, edge (r_graph s) a b ↔ edge (r_graph s0) a b.
Proof.
  intros H0. induction 1 as [|s id s1 s2 s3 _ (Hinv & Hdata & Hedge) Hn H1 H2];
    [done|].
  destruct (resolveOption_keeps id Hskip s1) as [G1 _]. rewrite H1 in G1.
  destruct (refreshSubOptions_keeps id Hsub s2) as [G2 _]. rewrite H2 in G2.
  cbn in G1, G2. rewrite G2, G1.
  destruct (onGraph_NextFromTop s Hinv) as [[_ Hrun]|(id' & _ & _ & Hrun)];
    rewrite Hrun in Hn; simplify_eq. cbn.
  split_and!; [by apply mark_done_inv| |].
  - rewrite <-Hdata. apply mark_done_data.
  - intros a b. by rewrite mark_done_edge.
Qed.
End Loop.

(** ** Resolving one option *)

Section One.
Context (w : world) (cfg : rconfig) (k : string) (o : Option_) (s : rstate).
Context (Hg : graph_inv (r_graph s))
        (Hk : data_of (r_graph s) !! k = Some (Some o)).

Lemma onGraph_node_option : onGraph (node_option k) s = (Ok o, s).
Proof.
  unfold onGraph, node_option, mbind, M_bind, getS, liftR.
  unfold data_of in Hk. rewrite lookup_fmap in Hk.
  destruct (g_nodes (r_graph s) !! k) as [n|] eqn:Hn; [|done]. cbn in Hk.
  cbn. replace (node_data n) with (Some o) by congruence. cbn.
  by destruct s.
Qed.

Definition user_ok : Prop :=
  match r_userOptions s !! k with
  | Some v => validateUserValue w k v o = Ok ()
  | None => True
  end.

(** The old value, when it is still valid. *)
Definition valid_before : option OptionValue :=
  match r_values s !! k with
  | Some b => if is_ok (validateUserValue w k (ov_value b) o) then Some b else None
  | None => None
  end.
Definition after_getValue : rstate :=
  match valid_before with
  | Some _ => s
  | None => RState (r_graph s) (r_userOptions s) (delete k (r_values s))
  end.

Lemma getValue_run :
  user_ok →
  getValue w k o s =
  (Ok {| cur_user := r_userOptions s !! k; cur_before := valid_before |},
   after_getValue).
Proof.
  intros Hu. unfold getValue. runM.
  erewrite run_Ok; last first.
  { unfold user_ok in Hu. destruct (r_userOptions s !! k); [|reflexivity].
    unfold liftR. rewrite Hu. reflexivity. }
  cbv beta. unfold after_getValue, valid_before.
  destruct (r_values s !! k) as [b|] eqn:Hb.
  - by destruct (validate_cases w k (ov_value b) o) as [->|[e ->]].
  - unfold mret, M_ret. rewrite delete_id by done. by destruct s.
Qed.

Lemma after_getValue_frame :
  r_graph after_getValue = r_graph s ∧
  r_userOptions after_getValue = r_userOptions s ∧
  (∀ j, j ≠ k → r_values after_getValue !! j = r_values s !! j).
Proof.
  unfold after_getValue. destruct valid_before; [done|]. cbn.
  split_and!; [done..|]. intros j Hj. by rewrite lookup_delete_ne.
Qed.

Lemma drop_child_values_ne cs m j : j ∉ cs → drop_child_values cs m !! j = m !! j.
Proof.
  unfold drop_child_values. revert m.
  induction cs as [|c cs IH]; intros m Hj; [done|]. cbn.
  apply not_elem_of_cons in Hj as [Hne Hj]. rewrite IH by done.
  destruct (m !! c) as [v|]; [|done]. destruct (ov_userProvided v); [done|].
  by rewrite lookup_delete_ne.
Qed.

(** Propagating a change does not touch the option itself. *)
Lemma propagate_change_run cur s1 :
  r_graph s1 = r_graph s →
  ∃ s2, propagate_change k cur s1 = (Ok (), s2) ∧ r_graph s2 = r_graph s ∧
        r_values s2 !! k = r_values s1 !! k.
Proof.
  intros G1. unfold propagate_change. runM. rewrite G1.
  unfold data_of in Hk. rewrite lookup_fmap in Hk.
  destruct (g_nodes (r_graph s) !! k) as [n|] eqn:Hn; [|done].
  cbn [deref]. runM. case_bool_decide; [by exists s1|].
  eexists. split; [reflexivity|]. cbn. split; [done|].
  apply drop_child_values_ne. intros Hin.
  apply (wf_no_self_edge (r_graph s) k); [by apply wf_core, Hg|]. by exists n.
Qed.

Lemma resolveOption_user_run v :
  r_userOptions s !! k = Some v → validateUserValue w k v o = Ok () →
  ∃ s', resolveOption w cfg k s = (Ok (), s') ∧ r_graph s' = r_graph s ∧
    r_values s' !! k =
    Some {| ov_value := v; ov_userProvided := true; ov_filled := None;
            ov_children := ov_children (default zero_value valid_before) |}.
Proof.
  intros Hu Hv. unfold resolveOption.
  rewrite (run_Ok _ _ _ _ _ onGraph_node_option).
  rewrite (run_Ok _ _ _ _ _ (getValue_run ltac:(unfold user_ok; by rewrite Hu))).
  cbn [cur_user cur_before]. rewrite Hu. runM. unfold new_value. runM.
  unfold setValues. runM. unfold finish_option. runM. cbn.
  destruct after_getValue_frame as (G & _ & _).
  edestruct propagate_change_run as (s2 & -> & G2 & Hv2); [exact G|].
  exists s2. split_and!; [done..|]. rewrite Hv2. cbn. by rewrite lookup_insert_eq.
Qed.

Lemma resolveOption_user_error v e :
  r_userOptions s !! k = Some v → validateUserValue w k v o = Err e →
  resolveOption w cfg k s = (Err e, s).
Proof.
  intros Hu Hv. unfold resolveOption.
  rewrite (run_Ok _ _ _ _ _ onGraph_node_option).
  apply run_Err. unfold getValue. runM. apply run_Err. rewrite Hu.
  unfold liftR. by rewrite Hv.
Qed.
End One.

(** * What a run of the resolver leaves behind

    Every option is visited once, and its value is final when it was visited:
    later rounds write only the option they visit and drop values of its
    children, which are visited after it. *)

(** ** What a round may write *)

Definition writes (id : string) (s s' : rstate) : Prop :=
  r_userOptions s' = r_userOptions s ∧ r_graph s' = r_graph s ∧
  ∀ j, j ≠ id → r_values s' !! j = r_values s !! j ∨
                edge (r_graph s) id j ∧ r_values s' !! j = None.

#[export] Instance writes_preorder id : PreOrder (writes id).
Proof.
  split.
  - intros s. split_and!; [done..|]. by left.
  - intros s1 s2 s3 (U12 & G12 & V12) (U23 & G23 & V23).
    split_and!; [congruence..|]. intros j Hj.
    destruct (V23 j Hj) as [->|[? ->]]; [by apply V12|]. right. by rewrite <-G12.
Qed.

Definition frames {A} (id : string) (c : M rstate A) : Prop :=
  ∀ s, writes id s (c s).2.

Create HintDb frames.

Section Frames.
Context {A B : Type} (id : string).

Lemma frames_bind (c : M rstate A) (k : A → M rstate B) :
  frames id c → (∀ a, frames id (k a)) → frames id (c ≫= k).
Proof.
  intros Hc Hk s. specialize (Hc s). unfold mbind, M_bind.
  destruct (c s) as [[a| | |] s1]; cbn in *; try done.
  etransitivity; [exact Hc|apply Hk].
Qed.
Lemma frames_ret (a : A) : frames id (mret a).
Proof. intros s. reflexivity. Qed.
Lemma frames_get : frames id getS.
Proof. intros s. reflexivity. Qed.
Lemma frames_throw e : frames id (A := A) (throw e).
Proof. intros s. reflexivity. Qed.
Lemma frames_lift (c : result A) : frames id (liftR c).
Proof. intros s. reflexivity. Qed.
Lemma frames_node_option k : frames id (onGraph (node_option k)).
Proof.
  intros s. unfold onGraph, node_option, mbind, M_bind, getS, liftR.
  destruct s as [g u v]. cbn. destruct (deref (g_nodes g !! k)); cbn; reflexivity.
Qed.
Lemma frames_insert v : frames id (setValues (<[id := v]>)).
Proof.
  intros s. split_and!; [done..|]. intros j Hj. left. cbn. by rewrite lookup_insert_ne.
Qed.
Lemma frames_delete : frames id (setValues (delete id)).
Proof.
  intros s. split_and!; [done..|]. intros j Hj. left. cbn. by rewrite lookup_delete_ne.
Qed.
End Frames.
#[export] Hint Resolve frames_bind frames_ret frames_get frames_throw frames_lift
  frames_node_option frames_insert frames_delete : frames.

Lemma drop_child_values_cases cs m j :
  drop_child_values cs m !! j = m !! j ∨
  j ∈ cs ∧ drop_child_values cs m !! j = None.
Proof.
  unfold drop_child_values. revert m. induction cs as [|c cs IH]; intros m; [by left|].
  cbn. destruct (m !! c) as [v|] eqn:Hc.
  - destruct (ov_userProvided v); [destruct (IH m); set_solver|].
    destruct (IH (delete c m)) as [->|[? ->]]; [|set_solver].
    destruct (decide (j = c)) as [->|]; [right|left].
    + rewrite lookup_delete_eq. set_solver.
    + by rewrite lookup_delete_ne.
  - destruct (IH m); set_solver.
Qed.

Section Visits.
Context (w : world) (cfg : rconfig).
Context (Hskip : r_skipRequired cfg = false)
        (Hsub : r_resolveSubOptions cfg = false).

Lemma propagate_change_frames id cur : frames id (propagate_change id cur).
Proof.
  intros s. unfold propagate_change. runM.
  destruct (g_nodes (r_graph s) !! id) as [n|] eqn:Hn; [|reflexivity].
  cbn [deref]. runM. case_bool_decide; [reflexivity|].
  split_and!; [done..|]. intros j Hj. cbn.
  destruct (drop_child_values_cases (childs n) (r_values s) j) as [?|[??]];
    [by left|right]. split; [by exists n|done].
Qed.
Hint Resolve propagate_change_frames : frames.

Lemma getValue_frames id o : frames id (getValue w id o).
Proof.
  apply frames_bind; [apply frames_get|intros s].
  apply frames_bind; [case_match; auto with frames|intros _].
  repeat (case_match; auto with frames).
Qed.

Lemma finish_option_frames id o cur : frames id (finish_option w cfg id o cur).
Proof.
  unfold finish_option. rewrite Hskip.
  apply frames_bind; [apply frames_get|intros s]. cbv zeta.
  repeat (case_match; auto 6 with frames).
Qed.
Hint Resolve getValue_frames finish_option_frames : frames.

Lemma resolveOption_frames id : frames id (resolveOption w cfg id).
Proof.
  apply frames_bind; [auto with frames|intros o].
  apply frames_bind; [auto with frames|intros cur].
  apply frames_bind; [case_match; auto with frames|intros [|]]; auto 6 with frames.
Qed.

Lemma refreshSubOptions_none id s : refreshSubOptions w cfg id s = (Ok (), s).
Proof. unfold refreshSubOptions. runM. rewrite Hsub. by case_match. Qed.

(** A pending option has only pending dependents. *)
Definition settled (g : ograph) : Prop :=
  ∀ a b, edge g a b → pending g a → pending g b.

Lemma settled_mark_done (g : ograph) id :
  settled g → (∀ p, edge g p id → ¬ pending g p) → settled (mark_done g id).
Proof.
  intros Hs Hpar a b Hab%mark_done_edge. rewrite !pending_mark_done.
  intros [Ha Hne]. split; [by eapply Hs|]. intros ->. by eapply Hpar.
Qed.

(** One round from a settled state. *)
Record round (s : rstate) (id : string) (s1 s2 : rstate) : Prop := {
  rd_next : onGraph NextFromTop s = (Ok (Some id), s1);
  rd_run : resolveOption w cfg id s1 = (Ok (), s2);
  rd_pending : pending (r_graph s) id;
  rd_parents : ∀ p, edge (r_graph s) p id → ¬ pending (r_graph s) p;
  rd_state : s1 = RState (mark_done (r_graph s) id) (r_userOptions s) (r_values s);
  rd_graph : r_graph s2 = mark_done (r_graph s) id;
}.

Lemma resolve_loop_cases f s s' :
  graph_inv (r_graph s) → resolve_loop w cfg (S f) s = (Ok (), s') →
  (∀ k, ¬ pending (r_graph s) k) ∧ s' = s ∨
  ∃ id s1 s2, round s id s1 s2 ∧ resolve_loop w cfg f s2 = (Ok (), s').
Proof.
  intros Hg. cbn [resolve_loop].
  destruct (onGraph_NextFromTop s Hg) as [[Hnone Hrun]|(id & Hp & Hpar & Hrun)];
    rewrite (run_Ok _ _ _ _ _ Hrun).
  - intros [= <-]. by left.
  - intros Hloop. right. apply M_bind_Ok in Hloop as ([] & s2 & H2 & Hloop).
    apply M_bind_Ok in Hloop as ([] & s3 & H3 & Hloop).
    unfold wrapM in H2, H3. rewrite refreshSubOptions_none in H3. cbn in H3.
    injection H3 as <-.
    destruct (resolveOption w cfg id _) as [[[]| | |] s2'] eqn:Hr; try done.
    injection H2 as <-. eexists id, _, s2'. split; [|done].
    destruct (resolveOption_frames id (RState (mark_done (r_graph s) id)
      (r_userOptions s) (r_values s))) as (_ & G & _). rewrite Hr in G.
    by split.
Qed.

Lemma round_inv s id s1 s2 :
  graph_inv (r_graph s) → settled (r_graph s) → round s id s1 s2 →
  graph_inv (r_graph s2) ∧ settled (r_graph s2) ∧
  (∀ k, pending (r_graph s2) k ↔ pending (r_graph s) k ∧ k ≠ id) ∧
  writes id s1 s2.
Proof.
  intros Hg Hs [Hn Hr Hp Hpar -> HG]. rewrite HG. split_and!.
  - by apply mark_done_inv.
  - by apply settled_mark_done.
  - intros k. apply pending_mark_done.
  - pose proof (resolveOption_frames id (RState (mark_done (r_graph s) id)
      (r_userOptions s) (r_values s))) as F. by rewrite Hr in F.
Qed.

Lemma round_reach s id s1 s2 : round s id s1 s2 → loop_reach w cfg s s2.
Proof.
  intros [Hn Hr _ _ _ _]. eapply reach_round; [apply reach_refl|done..|].
  apply refreshSubOptions_none.
Qed.

Lemma loop_reach_trans s1 s2 s3 :
  loop_reach w cfg s1 s2 → loop_reach w cfg s2 s3 → loop_reach w cfg s1 s3.
Proof. intros H12. induction 1; [done|]. by eapply reach_round. Qed.

(** Values that are final stay as they are. *)
Lemma resolve_loop_stable f : ∀ s s',
  graph_inv (r_graph s) → settled (r_graph s) →
  resolve_loop w cfg f s = (Ok (), s') →
  ∀ k, ¬ pending (r_graph s) k → r_values s' !! k = r_values s !! k.
Proof.
  induction f as [|f IH]; intros s s' Hg Hs Hrun k Hk; [done|].
  destruct (resolve_loop_cases f s s' Hg Hrun) as [[_ ->]|(id & s1 & s2 & Hrd & Hloop)];
    [done|].
  destruct (round_inv s id s1 s2 Hg Hs Hrd) as (Hg2 & Hs2 & Hp2 & (_ & _ & Hv)).
  rewrite (IH s2 s' Hg2 Hs2 Hloop k) by (rewrite Hp2; naive_solver).
  rewrite (rd_state _ _ _ _ Hrd) in Hv. cbn in Hv.
  destruct (Hv k) as [->|[He%mark_done_edge _]]; [|done|].
  - intros ->. apply Hk, (rd_pending _ _ _ _ Hrd).
  - exfalso. eapply Hk, Hs; [done|apply (rd_pending _ _ _ _ Hrd)].
Qed.

(** What the visit of [k] saw: the state [s] it started from agrees with the
    final state [s'] on everything that was no longer pending, and its
    outcome is final. *)
Record visit (s0 s' : rstate) (k : string) (s s1 s2 : rstate) : Prop := {
  vs_reach : loop_reach w cfg s0 s;
  vs_round : round s k s1 s2;
  vs_inv : graph_inv (r_graph s);
  vs_settled : settled (r_graph s);
  vs_final : r_values s' !! k = r_values s2 !! k;
  vs_user : r_userOptions s = r_userOptions s0;
  vs_before : r_values s !! k = r_values s0 !! k ∨ r_values s !! k = None;
  vs_others : ∀ d, d ≠ k → ¬ pending (r_graph s) d →
    r_values s !! d = r_values s' !! d;
}.

Lemma visit_first f s k s1 s2 s' :
  graph_inv (r_graph s) → settled (r_graph s) → round s k s1 s2 →
  resolve_loop w cfg f s2 = (Ok (), s') → visit s s' k s s1 s2.
Proof.
  intros Hg Hs Hrd Hloop.
  destruct (round_inv s k s1 s2 Hg Hs Hrd) as (Hg2 & Hs2 & Hp2 & (_ & _ & Hv)).
  rewrite (rd_state _ _ _ _ Hrd) in Hv. cbn in Hv.
  split; try done; [apply reach_refl| |by left|].
  - eapply resolve_loop_stable; [done..|]. rewrite Hp2. naive_solver.
  - intros d Hd Hnp. rewrite (resolve_loop_stable f s2 s' Hg2 Hs2 Hloop d)
      by (rewrite Hp2; naive_solver).
    destruct (Hv d Hd) as [->|[He%mark_done_edge _]]; [done|].
    exfalso. eapply Hnp, Hs; [done|apply (rd_pending _ _ _ _ Hrd)].
Qed.

Lemma resolve_loop_visits f : ∀ s0 s',
  graph_inv (r_graph s0) → settled (r_graph s0) →
  resolve_loop w cfg f s0 = (Ok (), s') →
  ∀ k, pending (r_graph s0) k → ∃ s s1 s2, visit s0 s' k s s1 s2.
Proof.
  induction f as [|f IH]; intros s0 s' Hg Hs Hrun k Hk; [done|].
  destruct (resolve_loop_cases f s0 s' Hg Hrun)
    as [[Hno _]|(id & sa & sb & Hrd & Hloop)]; [by apply Hno in Hk|].
  destruct (decide (k = id)) as [->|Hne].
  { exists s0, sa, sb. by eapply visit_first. }
  destruct (round_inv s0 id sa sb Hg Hs Hrd) as (Hg2 & Hs2 & Hp2 & (HU & _ & Hv)).
  rewrite (rd_state _ _ _ _ Hrd) in Hv, HU. cbn in Hv, HU.
  destruct (IH sb s' Hg2 Hs2 Hloop k) as (s & s1 & s2 & [Hre ? ? ? ? Hu Hb ?]);
    [by rewrite Hp2|].
  exists s, s1, s2. split; try done; [|congruence|].
  - eapply loop_reach_trans; [by eapply round_reach|done].
  - destruct Hb as [->|]; [|by right]. destruct (Hv k Hne) as [->|[_ ?]]; auto.
Qed.
End Visits.

(** ** Resolving an option that has no value yet *)

Section Fresh.
Context (w : world) (cfg : rconfig) (k : string) (o : Option_) (s : rstate).
Context (Hskip : r_skipRequired cfg = false).
Context (Hg : graph_inv (r_graph s))
        (Hk : data_of (r_graph s) !! k = Some (Some o))
        (Huser : r_userOptions s !! k = None)
        (Hfresh : r_values s !! k = None).

(** This run leaves options of the kind alone. *)
Definition not_resolved : bool :=
  negb (o_required o) && (negb (r_resolveGlobal cfg) && o_global o ||
                          negb (r_resolveLocal cfg) && o_local o).

(** The user has to be asked. *)
Definition has_to_ask (v : OptionValue) : bool :=
  o_required o && bool_decide (ov_value v = "") && negb (ov_userProvided v).

Lemma fresh_delete : delete k (r_values s) = r_values s.
Proof. by apply delete_id. Qed.

Lemma getValue_fresh :
  getValue w k o s = (Ok {| cur_user := None; cur_before := None |}, s).
Proof.
  unfold getValue. runM. rewrite Huser, Hfresh. done.
Qed.

Lemma resolveOption_fresh s' :
  resolveOption w cfg k s = (Ok (), s') →
  not_resolved = true ∧ s' = s ∨
  not_resolved = false ∧ ∃ v, new_value w cfg o None zero_value (r_values s) = Ok v ∧
    (has_to_ask v = false ∧ r_values s' !! k = Some v ∨
     has_to_ask v = true ∧ ∃ answer, w_ask w k o = inr answer ∧
       r_values s' !! k = Some {| ov_value := answer; ov_userProvided := true;
                                  ov_filled := None; ov_children := [] |}).
Proof.
  unfold resolveOption.
  rewrite (run_Ok _ _ _ _ _ (onGraph_node_option k o s Hg Hk)).
  rewrite (run_Ok _ _ _ _ _ getValue_fresh). cbn [cur_user cur_before].
  change (keep_value w cfg k o None) with (Ok not_resolved). runM.
  destruct not_resolved eqn:Hnr; [intros [= <-]; by left|]. runM. intros Hrun.
  right. split; [done|]. change (default zero_value None) with zero_value in Hrun.
  destruct (new_value w cfg o None zero_value (r_values s)) as [v| | |]; try done.
  exists v. split; [done|]. revert Hrun. runM. unfold finish_option, setValues. runM.
  cbn [r_values r_graph r_userOptions cur_user]. rewrite lookup_insert_eq, Hskip.
  cbn [default]. rewrite bool_decide_eq_true_2, andb_true_l by done.
  change (o_required o && _ && _) with (has_to_ask v).
  destruct (has_to_ask v) eqn:Hask.
  - destruct (w_terminal w); [|done]. cbn [negb].
    destruct (w_ask w k o) as [|answer]; [done|]. cbn [of_sum]. runM.
    edestruct (propagate_change_run k o s Hg Hk) as (s2 & -> & _ & Hv2);
      [done|]. intros [= <-]. right. split; [done|]. exists answer.
    split; [done|]. rewrite Hv2. cbn. by rewrite lookup_insert_eq.
  - edestruct (propagate_change_run k o s Hg Hk) as (s2 & -> & _ & Hv2);
      [done|]. intros [= <-]. left. split; [done|]. rewrite Hv2. cbn.
    by rewrite lookup_insert_eq.
Qed.
End Fresh.
