(* ===== verification/ResolverProps.v ===== *)
(** * Properties of the option resolver

    The theorems about pkg/options/resolver: termination, the order of
    dependencies, which value an option ends up with, and what the result
    contains. *)

From S2P Require Import Prelude GoStrings GoRegexp Types Graph GraphFacts Config.
From S2P Require Import Resolver ResolverFacts ResolveLoop.
From stdpp Require Import base gmap sets list strings sorting relations.
From Stdlib Require Import ZArith.

Local Open Scope string_scope.

(** ** The graph the resolver starts from *)

Definition done_of (g : ograph) : gmap string bool := node_done <$> g_nodes g.

Lemma done_of_lookup g k : done_of g !! k = node_done <$> g_nodes g !! k.
Proof. apply lookup_fmap. Qed.

(** Nodes are only added for [defs], and none is marked. *)
Definition unvisited (defs : OptionDefinitions) (g g' : ograph) : Prop :=
  ∀ k, done_of g' !! k = done_of g !! k ∨
       is_Some (defs !! k) ∧ done_of g' !! k = Some false.

#[export] Instance unvisited_preorder defs : PreOrder (unvisited defs).
Proof.
  split.
  - intros g k. by left.
  - intros g1 g2 g3 H12 H23 k. destruct (H23 k) as [->|]; auto.
Qed.

Lemma done_unvisited defs g g' : done_of g' = done_of g → unvisited defs g g'.
Proof. intros H k. left. by rewrite H. Qed.

Lemma AddEdge_done a b (g : ograph) : done_of (AddEdge a b g).2 = done_of g.
Proof.
  unfold AddEdge. runM. destruct (g_nodes g !! a) as [na|] eqn:Ha; [|done].
  destruct (g_nodes g !! b) as [nb|]; [|done]. case_decide; [done|].
  unfold mbind, M_bind, liftR.
  destruct (findFirstPath _ _ _ _) as [[p|]| | |]; try done.
  apply map_eq. intros k. rewrite !done_of_lookup. cbn. rewrite lookup_alter.
  destruct (decide (b = k)) as [<-|].
  - rewrite lookup_insert. case_decide; [subst; by rewrite Ha|].
    by destruct (g_nodes g !! b).
  - rewrite lookup_insert. case_decide; [subst; by rewrite Ha|done].
Qed.

Lemma remove_root_parent_done id (g : ograph) :
  done_of (remove_root_parent id g).2 = done_of g.
Proof.
  unfold remove_root_parent. runM.
  destruct (g_nodes g !! id) as [n|] eqn:Hn; [|done]. cbn [deref]. runM.
  case_decide; [|done].
  assert (done_of (with_nodes g (<[id:=with_parents n
    (filter (λ p, p ≠ rootID) (node_parents n))]> (g_nodes g))) = done_of g) as H1.
  { unfold done_of. cbn. rewrite fmap_insert. cbn. apply insert_id.
    by rewrite lookup_fmap, Hn. }
  case_bool_decide; [|done].
  destruct (<[id:=_]> (g_nodes g) !! g_root g) as [r|] eqn:Hr; [|done].
  rewrite <-H1. unfold done_of. cbn. rewrite (fmap_insert _ _ (g_root g)). cbn.
  apply insert_id. by rewrite lookup_fmap, Hr.
Qed.

Lemma node_option_same id (g : ograph) : (node_option id g).2 = g.
Proof.
  unfold node_option, mbind, M_bind, getS, liftR. cbn.
  by destruct (deref (g_nodes g !! id)); cbn.
Qed.

Lemma addDependency_done vals k (g : ograph) :
  done_of (addDependency vals k g).2 = done_of g.
Proof.
  assert (∀ f : string → M ograph unit, (∀ x g, done_of (f x g).2 = done_of g) →
            ∀ l g, done_of (forM_ l f g).2 = done_of g) as Hfor.
  { intros f Hf l g0. apply (forM_invariant (λ g1, done_of g1 = done_of g0)); [|done].
    intros x s _ <-. apply Hf. }
  assert (∀ c (k0 : unit → M ograph unit) g, done_of (c g).2 = done_of g →
    (∀ a g, done_of (k0 a g).2 = done_of g) → done_of ((c ≫= k0) g).2 = done_of g) as Hb.
  { intros c k0 g0 Hc Hk. unfold mbind, M_bind. destruct (c g0) as [[] s1]; cbn in *;
      rewrite ?Hk; done. }
  unfold addDependency.
  edestruct (node_option_run k) as [(o & _ & ->)|[-> _]]; [|done].
  apply Hb; [|intros _ g1; apply Hb; [|intros _ g2]]; apply Hfor; intros x g'.
  1: unfold add_child_dependency. 2, 3: unfold add_variable_dependency.
  all: runM; destruct (g_nodes g' !! x); [|done]; case_decide; [done|].
  1: destruct (o_global o && negb (o_local o)); [apply AddEdge_done|].
  2,3: destruct (negb (o_global o) && o_local o); [apply AddEdge_done|].
  all: edestruct (node_option_run x) as [(d & _ & ->)|[-> _]]; [|done];
    split_matches; [done..|apply AddEdge_done].
Qed.

Lemma add_option_unvisited defs k g : unvisited defs g (add_option defs k g).2.
Proof.
  unfold add_option. destruct (defs !! k) as [o|] eqn:Hk; [|reflexivity].
  cbn [deref]. runM. destruct (g_nodes g !! k) as [n|] eqn:Hn.
  - apply done_unvisited. unfold done_of. cbn. rewrite fmap_insert. cbn.
    apply insert_id. by rewrite lookup_fmap, Hn.
  - unfold InsertNodeAt, mbind, M_bind, getS, putS, mret, M_ret, throw.
    destruct (g_nodes g !! rootID) as [r|] eqn:Hr; [|reflexivity].
    rewrite Hn. intros j. rewrite !done_of_lookup. cbn.
    rewrite !lookup_insert.
    case_decide; [subst; left; by rewrite Hr|].
    case_decide; [subst; right; by rewrite Hk|by left].
Qed.

Lemma addOptionsToGraph_unvisited w defs vals g :
  unvisited defs g (addOptionsToGraph w defs vals g).2.
Proof.
  unfold addOptionsToGraph, addDependencies.
  pose proof (forM_rel (unvisited defs) (add_option defs) (w_iter w (dom defs)) g
    (λ x s _, add_option_unvisited defs x s)) as R1.
  unfold mbind, M_bind. destruct (forM_ _ (add_option defs) g) as [[] g1]; try done.
  etrans; [exact R1|]. cbn [snd].
  pose proof (forM_rel (unvisited defs) (addDependency vals) (w_iter w (dom defs)) g1
    (λ x s _, done_unvisited defs _ _ (addDependency_done vals x s))) as R2.
  destruct (forM_ _ (addDependency vals) g1) as [[] g2]; try done.
  etrans; [exact R2|]. unfold removeRootParent. runM. apply forM_rel; [apply _|].
  intros. apply done_unvisited, remove_root_parent_done.
Qed.

Section Start.
Context (w : world) `{!WorldOk w} (defs : OptionDefinitions)
        (vals : gmap string OptionValue) (g : ograph).
Context (Hadd : addOptionsToGraph w defs vals initial_graph = (Ok (), g)).

Lemma start_inv : graph_inv g.
Proof. by eapply (addOptionsToGraph_spec w); [apply initial_graph_inv|]. Qed.

Lemma start_defined k o : defs !! k = Some o → data_of g !! k = Some (Some o).
Proof. intros Hk. 
  by eapply (addOptionsToGraph_spec w); [apply initial_graph_inv|..]. Qed.

Lemma start_nodes k n :
  g_nodes g !! k = Some n →
  node_done n = false ∧ (k = rootID ∨ is_Some (defs !! k)).
Proof.
  intros Hn. pose proof (addOptionsToGraph_unvisited w defs vals initial_graph k) as Hu.
  rewrite Hadd in Hu. cbn [snd] in Hu. rewrite !done_of_lookup, Hn in Hu. cbn in Hu.
  rewrite lookup_insert in Hu. case_decide; naive_solver.
Qed.

Lemma start_pending k : pending g k ↔ k ≠ rootID ∧ is_Some (g_nodes g !! k).
Proof.
  unfold pending. rewrite (proj2 start_inv). split; [naive_solver|].
  intros [? [n Hn]]. split; [done|]. exists n. split; [done|]. by eapply start_nodes.
Qed.

Lemma start_settled : settled g.
Proof.
  intros a b Hab _. rewrite start_pending. destruct start_inv as [Hwf Hr]. split.
  - intros ->. rewrite <-Hr in Hab. by eapply wf_root_no_parent.
  - by eapply wf_edge_target; [apply wf_core|].
Qed.

Lemma start_size : (size (pending_set g) ≤ S (size defs))%nat.
Proof.
  transitivity (size ({[rootID]} ∪ dom defs : gset string)).
  - apply subseteq_size. intros k. unfold pending_set.
    rewrite elem_of_filter, !elem_of_dom. intros [_ [n Hn]].
    rewrite elem_of_union, elem_of_singleton, elem_of_dom. by eapply start_nodes.
  - rewrite size_union_alt, size_singleton, <-size_dom.
    assert (size (dom defs ∖ {[rootID]} : gset string) ≤ size (dom defs))%nat
      by (apply subseteq_size; set_solver). lia.
Qed.
End Start.

(** The steps that build the graph do not run out of fuel. *)
Section Building.
Context (w : world) `{!WorldOk w} (defs : OptionDefinitions)
        (vals : gmap string OptionValue).

Definition calm (c : M ograph unit) : Prop :=
  ∀ g, graph_inv g → graph_inv (c g).2 ∧ (c g).1 ≠ NoFuel.

Lemma calm_forM {A} (f : A → M ograph unit) l : (∀ x, calm (f x)) → calm (forM_ l f).
Proof.
  intros Hf. induction l as [|x l IH]; intros g Hg; [done|]. cbn.
  destruct (Hf x g Hg) as [Hg1 Hn]. unfold mbind, M_bind.
  destruct (f x g) as [[] g1]; try done. by apply IH.
Qed.
Lemma calm_bind (c c' : M ograph unit) : calm c → calm c' → calm (c ≫= λ _, c').
Proof.
  intros Hc Hc' g Hg. destruct (Hc g Hg) as [Hg1 Hn]. unfold mbind, M_bind.
  destruct (c g) as [[] g1]; try done. by apply Hc'.
Qed.
Lemma calm_AddEdge a b : calm (AddEdge a b).
Proof.
  intros g Hg. split; [by apply AddEdge_inv|]. destruct Hg as [Hwf _].
  by destruct (AddEdge_spec g a b (wf_core g Hwf)).
Qed.
Lemma calm_node_option id (k : Option_ → M ograph unit) :
  (∀ o, calm (k o)) → calm (node_option id ≫= k).
Proof.
  intros Hk g Hg. destruct (node_option_run id k g) as [(o & _ & ->)|[-> _]]; [|done].
  by apply Hk.
Qed.

Lemma calm_addDependency k : calm (addDependency vals k).
Proof.
  apply calm_node_option. intros o.
  assert (∀ p x, calm (add_variable_dependency k o p x)) as HV.
  { intros p x g Hg. unfold add_variable_dependency. runM.
    destruct (g_nodes g !! x); [|done]. case_decide; [done|].
    destruct (negb (o_global o) && o_local o); [by apply calm_AddEdge|].
    apply calm_node_option; [|done]. intros d. repeat (case_match; [done|]).
    apply calm_AddEdge. }
  repeat apply calm_bind; apply calm_forM; try apply HV.
  intros x g Hg. unfold add_child_dependency. runM.
  destruct (g_nodes g !! x); [|done]. case_decide; [done|].
  destruct (o_global o && negb (o_local o)); [by apply calm_AddEdge|].
  apply calm_node_option; [|done]. intros d. repeat (case_match; [done|]).
  apply calm_AddEdge.
Qed.

Lemma calm_remove_root_parent id : calm (remove_root_parent id).
Proof.
  intros g Hg. split; [by apply remove_root_parent_detaches|].
  unfold remove_root_parent. runM.
  destruct (g_nodes g !! id) as [n|]; [|done]. cbn [deref]. runM.
  repeat case_match; done.
Qed.

Lemma calm_add_option k : calm (add_option defs k).
Proof.
  intros g Hg. split; [by apply (add_option_defines defs k g)|].
  unfold add_option. destruct (defs !! k) as [o|]; [|done]. cbn [deref]. runM.
  destruct (g_nodes g !! k) eqn:Hk; [done|].
  unfold InsertNodeAt, mbind, M_bind, getS, putS, mret, M_ret, throw.
  destruct (g_nodes g !! rootID); [|done]. by rewrite Hk.
Qed.

Lemma calm_addOptionsToGraph : calm (addOptionsToGraph w defs vals).
Proof.
  apply calm_bind; [apply calm_forM, calm_add_option|].
  apply calm_bind; [apply calm_forM, calm_addDependency|].
  intros g Hg. unfold removeRootParent. runM.
  by apply calm_forM; [apply calm_remove_root_parent|].
Qed.
End Building.

(** ** Defaults *)

Lemma elem_of_findVariables d str :
  d ∈ findVariables str ↔
  ∃ cs, cs ∈ FindAllStringSubmatch variableExpression str ∧ sub cs 1 = d.
Proof.
  unfold findVariables. rewrite merge_sort_Permutation, elem_of_elements.
  rewrite elem_of_list_to_set, list_elem_of_fmap. naive_solver.
Qed.

(** The value of a default depends only on the variables it mentions. *)
Lemma ResolveDefaultValue_ext str (m m' : gmap string string) :
  (∀ d, d ∈ findVariables str → m !! d = m' !! d) →
  ResolveDefaultValue str m = ResolveDefaultValue str m'.
Proof.
  intros Hm. apply ReplaceAllFunc_ext. intros p t mt Hf Hin.
  rewrite (FindStringSubmatch_again variableExpression _ _ _ eq_refl Hf).
  by rewrite (Hm (sub (m_caps mt) 1)) by (apply elem_of_findVariables; eauto).
Qed.

(** ** Runs of Resolve *)

Section Run.
Context (w : world) `{!WorldOk w} (cfg : rconfig).
Context (Hskip : r_skipRequired cfg = false)
        (Hsub : r_resolveSubOptions cfg = false).
Context (fuel : nat) (user : gmap string string)
        (dyn defs : OptionDefinitions) (vals : gmap string OptionValue).

Record resolved (res : gmap string OptionValue) (g : ograph) (s' : rstate) : Prop := {
  rs_add : addOptionsToGraph w (mergeMaps dyn defs) vals initial_graph = (Ok (), g);
  rs_loop : resolve_loop w cfg fuel (RState g user vals) = (Ok (), s');
  rs_res : ∀ k, is_Some (defs !! k) → res !! k = r_values s' !! k;
  rs_sub : ∀ k v, res !! k = Some v → r_values s' !! k = Some v;
}.

Lemma Resolve_inv res dyn' :
  Resolve w cfg fuel user dyn defs vals = Ok (res, dyn') →
  (∃ g s', resolved res g s') ∧
  ∀ k, is_Some (res !! k) → is_Some (defs !! k) ∨ is_Some (dyn' !! k).
Proof.
  unfold Resolve.
  destruct (addOptionsToGraph w _ vals initial_graph) as [[[]| | |] g] eqn:Hadd;
    try done.
  destruct (resolve_loop w cfg fuel _) as [[[]| | |] s'] eqn:Hloop; try done.
  intros [= <- <-]. split.
  - exists g, s'. split; [done..| |]; intros k; unfold keep_defined;
      rewrite map_lookup_imap; [intros [o Ho]; rewrite Ho|intros v].
    + destruct (r_values s' !! k); cbn; [|done]. by case_match.
    + destruct (r_values s' !! k) as [v'|]; [|done]. cbn.
      repeat case_match; congruence.
  - intros k [v Hv]. unfold keep_defined in Hv. rewrite map_lookup_imap in Hv.
    destruct (r_values s' !! k); [|done]. cbn in Hv.
    destruct (new_dynamic _ _ _ !! k), (defs !! k); eauto; done.
Qed.

Context (res : gmap string OptionValue) (g : ograph) (s' : rstate).
Context (Hres : resolved res g s').
Notation s0 := (RState g user vals).

Lemma merged_defs k o : defs !! k = Some o → mergeMaps dyn defs !! k = Some o.
Proof. intros Hk. unfold mergeMaps. by apply lookup_union_Some_l. Qed.

Lemma run_inv : graph_inv g.
Proof. exact (start_inv w _ _ _ (rs_add _ _ _ Hres)). Qed.

Lemma run_settled : settled g.
Proof. exact (start_settled w _ _ _ (rs_add _ _ _ Hres)). Qed.

(** Every defined option is visited, and what the visit left is the
    result. *)
Record visited (k : string) (o : Option_) (s s1 s2 : rstate) : Prop := {
  vd_visit : visit w cfg s0 s' k s s1 s2;
  vd_inv : graph_inv (r_graph s1);
  vd_data : data_of (r_graph s1) !! k = Some (Some o);
  vd_run : resolveOption w cfg k s1 = (Ok (), s2);
  vd_user : r_userOptions s1 = user;
  vd_values : r_values s1 = r_values s;
  vd_result : res !! k = r_values s2 !! k;
}.

Lemma resolved_visited k o :
  defs !! k = Some o → k ≠ rootID → ∃ s s1 s2, visited k o s s1 s2.
Proof.
  intros Hk Hroot. pose proof run_inv as Hg. pose proof run_settled as Hs.
  assert (data_of g !! k = Some (Some o)) as Hdata
    by (apply (start_defined w _ _ _ (rs_add _ _ _ Hres)); by apply merged_defs).
  assert (pending g k) as Hp.
  { apply (start_pending w _ _ _ (rs_add _ _ _ Hres)). split; [done|].
    unfold data_of in Hdata. rewrite lookup_fmap in Hdata.
    apply fmap_Some in Hdata as (n & -> & _). eauto. }
  destruct (resolve_loop_visits w cfg Hskip Hsub fuel s0 s' Hg Hs
    (rs_loop _ _ _ Hres) k Hp) as (s & s1 & s2 & Hv).
  pose proof (vs_round _ _ _ _ _ _ _ _ Hv) as [Hn Hr _ _ -> _].
  destruct (loop_reach_graph w cfg Hskip Hsub s0 s Hg (vs_reach _ _ _ _ _ _ _ _ Hv))
    as (_ & Hd & _).
  exists s, (RState (mark_done (r_graph s) k) (r_userOptions s) (r_values s)), s2.
  split; try done; cbn [r_graph r_userOptions r_values].
  - apply mark_done_inv, (vs_inv _ _ _ _ _ _ _ _ Hv).
  - by rewrite mark_done_data, Hd.
  - apply (vs_user _ _ _ _ _ _ _ _ Hv).
  - rewrite (rs_res _ _ _ Hres) by eauto. apply (vs_final _ _ _ _ _ _ _ _ Hv).
Qed.

Lemma visited_fresh k o s s1 s2 :
  visited k o s s1 s2 → vals !! k = None → r_values s1 !! k = None.
Proof.
  intros Hv Hk. rewrite (vd_values _ _ _ _ _ Hv).
  destruct (vs_before _ _ _ _ _ _ _ _ (vd_visit _ _ _ _ _ Hv)) as [->|]; done.
Qed.

Lemma visited_user k o s s1 s2 v :
  visited k o s s1 s2 → user !! k = Some v →
  validateUserValue w k v o = Ok () ∧
  ∃ ov, res !! k = Some ov ∧ ov_value ov = v ∧ ov_userProvided ov = true.
Proof.
  intros [Hv Hg Hd Hrun Hus _ Hr] Hu. rewrite <-Hus in Hu. rewrite Hr.
  destruct (validate_cases w k v o) as [Hok|[e He]].
  - split; [done|].
    destruct (resolveOption_user_run w cfg k o s1 Hg Hd v Hu Hok)
      as (s3 & Hrun3 & _ & Hval).
    rewrite Hrun in Hrun3. injection Hrun3 as ->. by eexists.
  - by rewrite (resolveOption_user_error w cfg k o s1 Hg Hd v e Hu He) in Hrun.
Qed.

(** The visit of [k] saw the final value of what [k] mentions. *)
Lemma visited_dependency k o s s1 s2 d od :
  visited k o s s1 s2 → defs !! k = Some o → defs !! d = Some od →
  mentions o d → d ≠ k → r_values s1 !! d = res !! d.
Proof.
  intros Hvd Hk Hd Hm Hdk. pose proof (vd_visit _ _ _ _ _ Hvd) as Hv.
  rewrite (vd_values _ _ _ _ _ Hvd), (rs_res _ _ _ Hres) by eauto.
  apply (vs_others _ _ _ _ _ _ _ _ Hv); [done|].
  apply (rd_parents _ _ _ _ _ _ (vs_round _ _ _ _ _ _ _ _ Hv)).
  destruct (loop_reach_graph w cfg Hskip Hsub s0 s run_inv (vs_reach _ _ _ _ _ _ _ _ Hv))
    as (_ & _ & He). apply He.
  apply (addOptionsToGraph_spec w _ vals initial_graph g initial_graph_inv
    (rs_add _ _ _ Hres)) with o; [by apply merged_defs|done| |done|].
  - pose proof (start_defined w _ _ _ (rs_add _ _ _ Hres) d od (merged_defs d od Hd)) as Hn.
    unfold data_of in Hn. rewrite lookup_fmap in Hn.
    apply fmap_Some in Hn as (n & -> & _). eauto.
  - intros ->. by eapply mentions_not_root.
Qed.

Lemma visited_undefined k o s s1 s2 d :
  visited k o s s1 s2 → d ≠ k → d ≠ rootID → defs !! d = None → dyn !! d = None →
  vals !! d = None → r_values s1 !! d = None ∧ res !! d = None.
Proof.
  intros Hvd Hdk Hroot Hd Hdy Hv0. pose proof (vd_visit _ _ _ _ _ Hvd) as Hv.
  assert (g_nodes g !! d = None) as Hno.
  { destruct (g_nodes g !! d) as [n|] eqn:Hn; [|done].
    destruct (start_nodes w _ _ _ (rs_add _ _ _ Hres) d n Hn) as [_ [?|[o' Ho']]]; [done|].
    unfold mergeMaps in Ho'. by rewrite lookup_union, Hd, Hdy in Ho'. }
  destruct (loop_reach_graph w cfg Hskip Hsub s0 s run_inv (vs_reach _ _ _ _ _ _ _ _ Hv))
    as (_ & Hdata & _).
  assert (¬ pending (r_graph s) d) as Hnp.
  { intros (_ & n & Hn & _). apply data_of_lookup in Hn. rewrite Hdata in Hn.
    unfold data_of in Hn. cbn in Hn. by rewrite lookup_fmap, Hno in Hn. }
  assert (r_values s' !! d = None) as Hfin.
  { rewrite (resolve_loop_stable w cfg Hskip Hsub fuel s0 s' run_inv run_settled
      (rs_loop _ _ _ Hres) d); [done|]. intros (_ & n & Hn & _). cbn in Hn. congruence. }
  rewrite (vd_values _ _ _ _ _ Hvd), (vs_others _ _ _ _ _ _ _ _ Hv d Hdk Hnp), Hfin.
  split; [done|]. destruct (res !! d) as [v|] eqn:Hr; [|done].
  apply (rs_sub _ _ _ Hres) in Hr. congruence.
Qed.

(** All variables of a default. *)
Lemma visited_variable k o s s1 s2 d :
  visited k o s s1 s2 → defs !! k = Some o → mentions o d → d ≠ k →
  is_Some (defs !! d) ∨ vals !! d = None ∧ dyn !! d = None →
  r_values s1 !! d = res !! d.
Proof.
  intros Hvd Hk Hm Hdk Hcase. destruct (defs !! d) as [od|] eqn:Hd.
  - by eapply visited_dependency.
  - destruct Hcase as [[? ?]|[Hv Hy]]; [done|].
    destruct (visited_undefined k o s s1 s2 d) as [-> ->]; try done.
    intros ->. by eapply mentions_not_root.
Qed.
End Run.

(** ** The properties *)

(** C5: when sub options are not resolved and required options are not skipped, [Resolve]
    terminates: one round more than there are definitions (and the root) is
    enough, whatever the commands and the terminal answer. *)
Theorem Resolve_terminates w `{!WorldOk w} cfg fuel user dyn defs vals :
  r_skipRequired cfg = false → r_resolveSubOptions cfg = false →
  (S (size (mergeMaps dyn defs)) < fuel)%nat →
  Resolve w cfg fuel user dyn defs vals ≠ NoFuel.
Proof.
  intros Hskip Hsub Hfuel. unfold Resolve.
  destruct (calm_addOptionsToGraph w (mergeMaps dyn defs) vals initial_graph
    initial_graph_inv) as [_ Hn].
  destruct (addOptionsToGraph w _ vals initial_graph) as [[[]| | |] g] eqn:Hadd; try done.
  destruct (resolve_loop_spec w cfg Hskip Hsub fuel (RState g user vals)) as [Hl _].
  { exact (start_inv w _ _ _ Hadd). }
  { pose proof (start_size w _ _ _ Hadd). cbn. lia. }
  by destruct (resolve_loop w cfg fuel _) as [[[]| | |] s'].
Qed.

Lemma Resolve_user w `{!WorldOk w} cfg fuel user dyn defs vals res dyn' k o v :
  r_skipRequired cfg = false → r_resolveSubOptions cfg = false →
  Resolve w cfg fuel user dyn defs vals = Ok (res, dyn') →
  defs !! k = Some o → k ≠ rootID → user !! k = Some v →
  validateUserValue w k v o = Ok () ∧
  ∃ ov, res !! k = Some ov ∧ ov_value ov = v ∧ ov_userProvided ov = true.
Proof.
  intros Hskip Hsub [(g & s' & Hr) _]%Resolve_inv Hk Hroot Hu.
  destruct (resolved_visited w cfg Hskip Hsub fuel user dyn defs vals res g s' Hr k o Hk Hroot)
    as (s & s1 & s2 & Hvd). by eapply visited_user.
Qed.

(** C3: the user's values win and are valid, in a run that does not resolve sub
    options and does not skip required ones.  When it succeeds, every
    defined option, not named root, that the user gave a value for has exactly that value in the
    result, marked as user provided, and the value passed the option's
    pattern, enum and type checks. *)
Theorem Resolve_user_value w `{!WorldOk w} cfg fuel user dyn defs vals res dyn' k o v :
  r_skipRequired cfg = false → r_resolveSubOptions cfg = false →
  Resolve w cfg fuel user dyn defs vals = Ok (res, dyn') →
  defs !! k = Some o → k ≠ rootID → user !! k = Some v →
  validateUserValue w k v o = Ok () ∧
  ∃ ov, res !! k = Some ov ∧ ov_value ov = v ∧ ov_userProvided ov = true.
Proof. apply Resolve_user; apply _. Qed.

(** required options end up with a value.  When [Resolve] succeeds, a
    required option that had no value before is in the result with a
    non-empty value or with the answer of the user. *)
Theorem Resolve_required w `{!WorldOk w} cfg fuel user dyn defs vals res dyn' k o :
  r_skipRequired cfg = false → r_resolveSubOptions cfg = false →
  Resolve w cfg fuel user dyn defs vals = Ok (res, dyn') →
  defs !! k = Some o → k ≠ rootID → o_required o = true → vals !! k = None →
  ∃ v, res !! k = Some v ∧ (ov_value v ≠ "" ∨ ov_userProvided v = true).
Proof.
  intros Hskip Hsub HR Hk Hroot Hreq Hv0.
  apply Resolve_inv in HR as [(g & s' & Hr) _].
  destruct (resolved_visited w cfg Hskip Hsub fuel user dyn defs vals res g s' Hr k o Hk Hroot)
    as (s & s1 & s2 & Hvd).
  destruct (user !! k) as [uv|] eqn:Hu.
  { destruct (visited_user w cfg user vals res g s' k o s s1 s2 uv Hvd Hu)
      as (_ & v & ? & _ & ?); eauto. }
  pose proof Hvd as [_ Hg Hd Hrun Hus _ Hres].
  rewrite <-Hus in Hu. rewrite Hres.
  pose proof (visited_fresh w cfg user vals res g s' k o s s1 s2 Hvd Hv0) as Hfr.
  destruct (resolveOption_fresh w cfg k o s1 Hskip Hg Hd Hu Hfr s2 Hrun)
    as [[Hnr _]|(_ & v & _ & [[Hask Hv]|[_ (a & _ & Hv)]])].
  - unfold not_resolved in Hnr. by rewrite Hreq in Hnr.
  - exists v. split; [done|]. unfold has_to_ask in Hask. rewrite Hreq in Hask.
    destruct (ov_userProvided v); [by right|left].
    case_bool_decide; [|done]. by rewrite ?andb_true_l in Hask.
  - rewrite Hv. eexists. split; [done|]. by right.
Qed.

(** C2: defaults are computed from final values, in a run that does not resolve sub
    options and does not skip required ones.  When it succeeds, an
    option of its scope, not named root, that has neither a value of the user nor an earlier one (an earlier
    one is kept), and that has a default, has the text of its default with every variable
    replaced by the value the result holds for it: dependencies are complete before
    they are used.  Left out are a default that mentions its own option or a variable for
    which only a stale value or a dynamic definition exists, and a required
    option whose default turns out empty, which the user is asked for. *)
Theorem Resolve_default w `{!WorldOk w} cfg fuel user dyn defs vals res dyn' k o :
  r_skipRequired cfg = false → r_resolveSubOptions cfg = false →
  Resolve w cfg fuel user dyn defs vals = Ok (res, dyn') →
  defs !! k = Some o → k ≠ rootID → user !! k = None → vals !! k = None →
  not_resolved cfg o = false → o_default o ≠ "" →
  (∀ d, d ∈ findVariables (o_default o) →
     d ≠ k ∧ (is_Some (defs !! d) ∨ vals !! d = None ∧ dyn !! d = None)) →
  let text := ResolveDefaultValue (o_default o) (Resolver.combine res (r_extraValues cfg)) in
  (o_required o = true → text ≠ "") →
  ∃ v, res !! k = Some v ∧ ov_value v = text ∧ ov_userProvided v = false.
Proof.
  intros Hskip Hsub [(g & s' & Hr) _]%Resolve_inv Hk Hroot Hu Hv0 Hnr Hdef Hvars text Htext.
  destruct (resolved_visited w cfg Hskip Hsub fuel user dyn defs vals res g s' Hr k o Hk Hroot)
    as (s & s1 & s2 & Hvd).
  assert (ResolveDefaultValue (o_default o) (Resolver.combine (r_values s1) (r_extraValues cfg))
          = text) as Heq.
  { apply ResolveDefaultValue_ext. intros d Hd. destruct (Hvars d Hd) as [Hdk Hcase].
    unfold Resolver.combine. rewrite !lookup_union, !lookup_fmap. do 2 f_equal.
    eapply visited_variable; try done. by left. }
  pose proof Hvd as [_ Hg Hd Hrun Hus _ Hres]. rewrite <-Hus in Hu.
  pose proof (visited_fresh w cfg user vals res g s' k o s s1 s2 Hvd Hv0) as Hfr.
  destruct (resolveOption_fresh w cfg k o s1 Hskip Hg Hd Hu Hfr s2 Hrun)
    as [[Hnr' _]|(_ & v & Hnew & Hcases)]; [congruence|].
  unfold new_value in Hnew. rewrite bool_decide_eq_false_2 in Hnew by done.
  cbn [negb] in Hnew. rewrite Heq in Hnew. injection Hnew as <-. rewrite Hres.
  destruct Hcases as [[_ Hv]|[Hask _]]; [by eexists|].
  unfold has_to_ask in Hask. cbn in Hask.
  destruct (o_required o); [|done]. rewrite bool_decide_eq_false_2 in Hask; [done|auto].
Qed.

(** C4: in a run that does not resolve sub options and does not skip required ones, an
    option is visited after the options it mentions, and only options
    of a compatible scope are mentioned.  In every state the loop reaches,
    when [NextFromTop] hands out an option, each option its default or
    command mentions has been visited before; a global option mentions only
    global ones, and a local option is mentioned only by local ones. *)
Theorem Resolve_dependencies_first w `{!WorldOk w} cfg user defs vals g s s1 k o d od :
  r_skipRequired cfg = false → r_resolveSubOptions cfg = false →
  addOptionsToGraph w defs vals initial_graph = (Ok (), g) →
  loop_reach w cfg (RState g user vals) s →
  onGraph NextFromTop s = (Ok (Some k), s1) →
  defs !! k = Some o → defs !! d = Some od → mentions o d → d ≠ k →
  is_pending (r_graph s) k = true ∧ is_pending (r_graph s) d = false ∧ scope_ok o od.
Proof.
  intros Hskip Hsub Hadd Hreach Hnext Hk Hd Hm Hne.
  assert (d ≠ rootID) as Hdr by (intros ->; by eapply mentions_not_root).
  destruct (addOptionsToGraph_spec w defs vals initial_graph g initial_graph_inv Hadd)
    as (Hg & Hdata & Hdep).
  destruct (Hdep k o d Hk Hm) as (He & Hsc); [|done..|].
  { specialize (Hdata d od Hd). unfold data_of in Hdata. rewrite lookup_fmap in Hdata.
    apply fmap_Some in Hdata as (n & -> & _). eauto. }
  specialize (Hsc od (Hdata d od Hd)).
  destruct (loop_reach_graph w cfg Hskip Hsub (RState g user vals) s Hg Hreach)
    as (Hgs & _ & Hes).
  destruct (onGraph_NextFromTop s Hgs) as [[_ Hrun]|(id & Hp & Hpar & Hrun)];
    rewrite Hrun in Hnext; [done|]. injection Hnext as -> _.
  assert (k ≠ g_root (r_graph s)) as Hkr by apply Hp.
  assert (d ≠ g_root (r_graph s)) as Hdr' by (by rewrite (proj2 Hgs)).
  split_and!; [by apply is_pending_spec| |done].
  apply not_true_is_false. rewrite is_pending_spec by done. by apply Hpar, Hes.
Qed.

(** ** A concrete run

    Two options: [REGION] with a default, and a required [DISK] whose default
    mentions it; the user gives [SIZE]. *)

Definition demo_world : world := {|
  w_regexp := λ _ _, inr true;
  w_exec := λ command _, inr command;
  w_suboptions := λ _, inl "no sub options";
  w_terminal := false;
  w_ask := λ _ _, inl "no terminal";
  w_now := 0%Z;
  w_iter := elements;
|}.
#[export] Instance demo_world_ok : WorldOk demo_world.
Proof. by split. Qed.

Definition demo_cfg : rconfig := {|
  r_extraValues := ∅; r_resolveLocal := true; r_resolveGlobal := true;
  r_resolveSubOptions := false; r_skipRequired := false;
|}.

Definition demo_option (required : bool) (dflt : string) : Option_ := {|
  o_displayName := ""; o_description := ""; o_required := required;
  o_password := false; o_type := ""; o_validationPattern := "";
  o_validationMessage := ""; o_suggestions := []; o_enum := [];
  o_hidden := false; o_local := false; o_global := false; o_default := dflt;
  o_cache := ""; o_command := ""; o_subOptionsCommand := ""; o_mutable := false |}.

Definition demo_defs : OptionDefinitions := {[
  "DISK" := demo_option true "disk-${REGION}";
  "REGION" := demo_option false "eu";
  "SIZE" := demo_option true "" ]}.
Definition demo_user : gmap string string := {[ "SIZE" := "40" ]}.

Definition demo_result : gmap string OptionValue * OptionDefinitions :=
  match Resolve demo_world demo_cfg 5 demo_user ∅ demo_defs ∅ with
  | Ok r => r
  | _ => (∅, ∅)
  end.

Lemma demo_resolve :
  Resolve demo_world demo_cfg 5 demo_user ∅ demo_defs ∅ =
  Ok (demo_result.1, demo_result.2).
Proof. by vm_compute. Qed.

Example demo_values :
  ov_value <$> demo_result.1 !! "DISK" = Some "disk-eu" ∧
  ov_value <$> demo_result.1 !! "SIZE" = Some "40".
Proof. by vm_compute. Qed.

Lemma Resolve_terminates_witness :
  Resolve demo_world demo_cfg 5 demo_user ∅ demo_defs ∅ ≠ NoFuel.
Proof. apply (Resolve_terminates demo_world); [done|done|]. vm_compute. lia. Defined.

Lemma Resolve_user_value_witness :
  ∃ ov, demo_result.1 !! "SIZE" = Some ov ∧ ov_value ov = "40" ∧ ov_userProvided ov = true.
Proof.
  exact (proj2 (Resolve_user_value demo_world demo_cfg 5 demo_user ∅ demo_defs ∅
    _ _ "SIZE" _ "40" eq_refl eq_refl demo_resolve eq_refl ltac:(done) eq_refl)).
Defined.

Lemma Resolve_required_witness :
  ∃ v, demo_result.1 !! "DISK" = Some v ∧ (ov_value v ≠ "" ∨ ov_userProvided v = true).
Proof.
  exact (Resolve_required demo_world demo_cfg 5 demo_user ∅ demo_defs ∅
    _ _ "DISK" _ eq_refl eq_refl demo_resolve eq_refl ltac:(done) eq_refl eq_refl).
Defined.

Lemma Resolve_default_witness :
  ∃ v, demo_result.1 !! "DISK" = Some v ∧ ov_value v = "disk-eu" ∧
       ov_userProvided v = false.
Proof.
  refine (Resolve_default demo_world demo_cfg 5 demo_user ∅ demo_defs ∅
    _ _ "DISK" _ eq_refl eq_refl demo_resolve eq_refl ltac:(done) eq_refl eq_refl
    eq_refl ltac:(done) _ _).
  - intros d. replace (findVariables _) with ["REGION"] by by vm_compute.
    intros ->%list_elem_of_singleton. split; [done|]. left. by eexists.
  - intros _. by vm_compute.
Defined.

Definition demo_start : rstate :=
  RState (addOptionsToGraph demo_world demo_defs ∅ initial_graph).2 demo_user ∅.
(** The loop after its first round, which visits [REGION]. *)
Definition demo_mark : rstate := (onGraph NextFromTop demo_start).2.
Definition demo_next : rstate := (resolveOption demo_world demo_cfg "REGION" demo_mark).2.

Lemma Resolve_dependencies_first_witness :
  is_pending (r_graph demo_next) "DISK" = true ∧
  is_pending (r_graph demo_next) "REGION" = false.
Proof.
  pose proof (Resolve_dependencies_first demo_world demo_cfg demo_user demo_defs ∅
    (r_graph demo_start) demo_next (onGraph NextFromTop demo_next).2 "DISK"
    (demo_option true "disk-${REGION}") "REGION" (demo_option false "eu")
    eq_refl eq_refl) as H.
  destruct H as (? & ? & _); [by vm_compute| |by vm_compute|done|done| |done|by split].
  - eapply (reach_round _ _ _ demo_start "REGION" demo_mark demo_next demo_next);
      [apply reach_refl|by vm_compute..].
  - left. replace (findVariables _) with ["REGION"] by by vm_compute.
    by apply list_elem_of_singleton.
Defined.
