(* ===== verification/Git.v ===== *)
(** * pkg/git: repository strings and cloning

    [NormalizeRepository] splits a source given on the command line into the
    repository and what to check out; [CloneRepositoryWithEnv] turns it into
    git commands.  Running a command is a parameter: it yields an error or
    succeeds, and the commands that were run are recorded in order. *)

From S2P Require Import Prelude GoStrings GoRegexp.
From stdpp Require Import base list strings sets.
From Stdlib Require Import Lia.

Local Open Scope string_scope.

(** ** The expressions *)

Definition CommitDelimiter : string := "@sha256:".
Definition SubPathDelimiter : string := "@subpath:".

Definition not_in (cs : string) (c : ascii) : bool := negb (scontains_char c cs).
Definition seg (excluded : string) : re :=
  Plus true (Chr (not_in (excluded +:+ newline))).

(** [((?:(?:https?|git|ssh|file):\/\/)?\/?(?:[^@\/\n]+@)?(?:[^:\/\n]+)(?:[:\/][^\/\n]+)+(?:\.git)?)] *)
Definition repoBaseRegEx : re :=
  Grp 1
    (Cat (Opt (Cat (Alt (Cat (lit "http") (Opt (chr "s")))
                        (Alt (lit "git") (Alt (lit "ssh") (lit "file"))))
                   (lit "://")))
    (Cat (Opt (chr "/"))
    (Cat (Opt (Cat (seg "@/") (chr "@")))
    (Cat (seg ":/")
    (Cat (Plus true (Cat (Chr (λ c, scontains_char c ":/")) (seg "/")))
         (Opt (lit ".git"))))))).

(** [[a-zA-Z0-9\./\-\_]] *)
Definition is_ref_char (c : ascii) : bool := is_alnum c || scontains_char c "./-_".

Definition anchored (r : re) : re := Cat Bot (Cat r Eot).

(** [pull/([0-9]+)/head]; the group has another number where the expression
    is used inside [prReferenceRegEx]. *)
Definition PullRequestReference (n : nat) : re :=
  Cat (lit "pull/") (Cat (Grp n (Plus true (Chr is_digit))) (lit "/head")).

Definition branchRegEx : re :=
  anchored (Cat repoBaseRegEx (Cat (chr "@") (Grp 2 (Plus true (Chr is_ref_char))))).
Definition commitRegEx : re :=
  anchored (Cat repoBaseRegEx
    (Cat (lit CommitDelimiter) (Grp 2 (Plus true (Chr is_alnum))))).
Definition prReferenceRegEx : re :=
  anchored (Cat repoBaseRegEx (Cat (chr "@") (Grp 2 (PullRequestReference 3)))).
Definition subPathRegEx : re :=
  anchored (Cat repoBaseRegEx
    (Cat (lit SubPathDelimiter) (Grp 2 (Plus true (Chr is_ref_char))))).

(** ** NormalizeRepository *)

Record GitInfo := {
  gi_repository : string;
  gi_branch : string;
  gi_commit : string;
  gi_pr : string;
  gi_subpath : string;
}.

Definition NewGitInfo (repository branch commit pr subpath : string) : GitInfo :=
  {| gi_repository := repository; gi_branch := branch; gi_commit := commit;
     gi_pr := pr; gi_subpath := subpath |}.

(** A source without a scheme is one for https. *)
Definition with_scheme (str : string) : string :=
  if negb (HasPrefix str "ssh://") && negb (HasPrefix str "git@") &&
     negb (HasPrefix str "http://") && negb (HasPrefix str "https://") &&
     negb (HasPrefix str "file://")
  then "https://" +:+ str else str.

(** The first two groups when the expression matches. *)
Definition submatches (r : re) (str : string) : option (string * string) :=
  cs ← FindStringSubmatch r str; Some (sub cs 1, sub cs 2).

(** The repository, the pull request, the branch, the commit and the sub
    path. *)
Definition NormalizeRepository (str : string)
    : string * string * string * string * string :=
  let str := with_scheme str in
  match submatches prReferenceRegEx str with
  | Some (m1, m2) => (m1, m2, "", "", "")
  | None =>
      let '(str, subpath) :=
        match submatches subPathRegEx str with
        | Some (m1, m2) => (m1, TrimSuffix m2 "/")
        | None => (str, "")
        end in
      let '(str, branch) :=
        match submatches branchRegEx str with
        | Some (m1, m2) => (m1, m2)
        | None => (str, "")
        end in
      let '(str, commit) :=
        match submatches commitRegEx str with
        | Some (m1, m2) => (m1, m2)
        | None => (str, "")
        end in
      (str, "", branch, commit, subpath)
  end.

Definition NormalizeRepositoryGitInfo (str : string) : GitInfo :=
  let '(repository, pr, branch, commit, subpath) := NormalizeRepository str in
  NewGitInfo repository branch commit pr subpath.

Definition GetBranchNameForPR (ref : string) : string :=
  ReplaceAllFunc (PullRequestReference 1) ref (λ _ cs, "PR" +:+ sub cs 1).
Definition GetIDForPR (ref : string) : string :=
  ReplaceAllFunc (PullRequestReference 1) ref (λ _ cs, "pr" +:+ sub cs 1).

(** ** Cloning *)

Inductive CloneStrategy := FullClone | BloblessClone | TreelessClone | ShallowClone | BareClone.

(** [CloneStrategy.Set] *)
Definition CloneStrategy_Set (v : string) : result CloneStrategy :=
  if decide (v = "") then Ok FullClone
  else if decide (v = "blobless") then Ok BloblessClone
  else if decide (v = "treeless") then Ok TreelessClone
  else if decide (v = "shallow") then Ok ShallowClone
  else if decide (v = "bare") then Ok BareClone
  else Err ("CloneStrategy " +:+ v +:+ " not supported").
Definition CloneStrategy_String (s : CloneStrategy) : string :=
  match s with
  | FullClone => ""
  | BloblessClone => "blobless"
  | TreelessClone => "treeless"
  | ShallowClone => "shallow"
  | BareClone => "bare"
  end.

Record cloner := {
  c_extraArgs : list string;
  c_cloneStrategy : CloneStrategy;
  c_skipLFS : bool;
}.

Inductive CloneOption :=
| WithCloneStrategy (s : CloneStrategy)
| WithRecursiveSubmodules
| WithSkipLFS.

Definition apply_option (c : cloner) (o : CloneOption) : cloner :=
  match o with
  | WithCloneStrategy s =>
      {| c_extraArgs := c_extraArgs c; c_cloneStrategy := s; c_skipLFS := c_skipLFS c |}
  | WithRecursiveSubmodules =>
      {| c_extraArgs := c_extraArgs c ++ ["--recurse-submodules"];
         c_cloneStrategy := c_cloneStrategy c; c_skipLFS := c_skipLFS c |}
  | WithSkipLFS =>
      {| c_extraArgs := c_extraArgs c; c_cloneStrategy := c_cloneStrategy c;
         c_skipLFS := true |}
  end%list.
Definition NewClonerWithOpts (options : list CloneOption) : cloner :=
  foldl apply_option
    {| c_extraArgs := []; c_cloneStrategy := FullClone; c_skipLFS := false |} options.

Definition initialArgs (c : cloner) : list string :=
  match c_cloneStrategy c with
  | BloblessClone => ["clone"; "--filter=blob:none"]
  | TreelessClone => ["clone"; "--filter=tree:0"]
  | ShallowClone => ["clone"; "--depth=1"]
  | BareClone => ["clone"; "--bare"; "--depth=1"]
  | FullClone => ["clone"]
  end.

(** A git command: its arguments, what is added to the environment, and the
    directory it runs in, when one is set. *)
Record command := Command {
  cmd_args : list string;
  cmd_env : list string;
  cmd_dir : option string;
}.

Section Cloning.
(** The outcome of running a command. *)
Context (run_git : command → string + unit).

(** Runs a command and records it. *)
Definition run_command (c : command) : M (list command) unit :=
  modifyS (λ l, l ++ [c])%list ≫= λ _, liftR (of_sum (run_git c)).

Definition wrap_run {A} (msg : string) (c : M (list command) A) : M (list command) A :=
  λ l, let '(r, l') := c l in (wrap msg r, l').

Definition Clone_git (c : cloner) (repository targetDir : string)
    (extraArgs extraEnv : list string) : M (list command) unit :=
  run_command (Command
    (initialArgs c ++ extraArgs ++ c_extraArgs c ++ [repository; targetDir] ++
     ["--progress"])
    (if c_skipLFS c then extraEnv ++ ["GIT_LFS_SKIP_SMUDGE=1"] else extraEnv)
    None)%list.

Definition checkoutPR (gitInfo : GitInfo) (extraEnv : list string)
    (targetDir : string) : M (list command) unit :=
  let prBranch := GetBranchNameForPR (gi_pr gitInfo) in
  wrap_run "fetch pull request reference"
    (run_command (Command ["fetch"; "origin"; gi_pr gitInfo +:+ ":" +:+ prBranch]
                          extraEnv (Some targetDir))) ≫= λ _,
  wrap_run "switch to branch"
    (run_command (Command ["switch"; prBranch] extraEnv (Some targetDir))).

Definition checkoutCommit (gitInfo : GitInfo) (extraEnv : list string)
    (targetDir : string) : M (list command) unit :=
  wrap_run "reset head to commit"
    (run_command (Command ["reset"; "--hard"; gi_commit gitInfo] extraEnv
                          (Some targetDir))).

Definition GetDefaultExtraEnv (strictHostKeyChecking : bool) : list string :=
  ["GIT_TERMINAL_PROMPT=0";
   "GIT_SSH_COMMAND=ssh -oBatchMode=yes -oStrictHostKeyChecking=" +:+
   if strictHostKeyChecking then "yes" else "no"].

Definition CloneRepositoryWithEnv (gitInfo : GitInfo) (extraEnv : list string)
    (targetDir helper : string) (strictHostKeyChecking : bool)
    (cloneOptions : list CloneOption) : M (list command) unit :=
  let cloner := NewClonerWithOpts cloneOptions in
  let extraEnv := (GetDefaultExtraEnv strictHostKeyChecking ++ extraEnv)%list in
  let extraArgs :=
    ((if decide (helper = "") then []
      else ["--config"; "credential.helper=" +:+ helper]) ++
     (if decide (gi_branch gitInfo = "") then []
      else ["--branch"; gi_branch gitInfo]))%list in
  Clone_git cloner (gi_repository gitInfo) targetDir extraArgs extraEnv ≫= λ _,
  if negb (bool_decide (gi_pr gitInfo = "")) then checkoutPR gitInfo extraEnv targetDir
  else if negb (bool_decide (gi_commit gitInfo = "")) then
    checkoutCommit gitInfo extraEnv targetDir
  else mret ().

Definition CloneRepository (gitInfo : GitInfo) (targetDir helper : string)
    (strictHostKeyChecking : bool) (cloneOptions : list CloneOption)
    : M (list command) unit :=
  CloneRepositoryWithEnv gitInfo [] targetDir helper strictHostKeyChecking cloneOptions.
End Cloning.

(** * Properties of repository strings and of cloning *)

(** ** Shapes of matches *)

Lemma matches_cat a b prev s cs p' s' c' :
  matches (Cat a b) prev s cs p' s' c' →
  ∃ p1 s1 c1, matches a prev s cs p1 s1 c1 ∧ matches b p1 s1 c1 p' s' c'.
Proof. inversion 1; subst. eauto 6. Qed.

Lemma matches_grp n a prev s cs p' s' c' :
  matches (Grp n a) prev s cs p' s' c' →
  ∃ c1, matches a prev s cs p' s' c1 ∧ c' = (n, consumed s s') :: c1.
Proof. inversion 1; subst. eauto. Qed.

Lemma matches_lit w prev s cs p' s' c' :
  matches (lit w) prev s cs p' s' c' → s = w +:+ s' ∧ c' = cs.
Proof.
  revert prev s cs. induction w as [|c w IH]; intros prev s cs.
  { cbn. by inversion 1; subst. }
  destruct w as [|d w].
  - cbn. intros (x & -> & Hx & -> & ->)%matches_chr.
    apply bool_decide_eq_true in Hx as ->. done.
  - intros (p1 & s1 & c1 & (x & -> & Hx & -> & ->)%matches_chr & [-> ->]%IH)%matches_cat.
    apply bool_decide_eq_true in Hx as ->. done.
Qed.

Lemma matches_eot prev s cs p' s' c' :
  matches Eot prev s cs p' s' c' → s = "" ∧ s' = "" ∧ c' = cs.
Proof. by inversion 1. Qed.

(** A match of an anchored expression is one of the whole text. *)
Lemma find_anchored r s cs :
  FindStringSubmatch (anchored r) s = Some cs →
  ∃ p', matches r None s [] p' "" cs.
Proof.
  unfold FindStringSubmatch. intros (m & Hf & ->)%fmap_Some.
  apply find_from_spec in Hf as (Hs & prev0 & Hm & H0 & H1).
  apply matches_cat in Hm as (p1 & s1 & c1 & Hbot & Hm).
  inversion Hbot; subst.
  assert (m_before m = "") as Hb by (destruct (m_before m); [done|by destruct H1]).
  apply matches_cat in Hm as (p2 & s2 & c2 & Hm & Heot).
  apply matches_eot in Heot as (-> & Ha & ->).
  rewrite Hb. cbn. rewrite Ha in *. eauto.
Qed.

Lemma consumed_all s : consumed s "" = s.
Proof. rewrite <-(sapp_nil_r s) at 1. apply consumed_app. Qed.

(** The repository, a delimiter and a second group. *)
Lemma submatches_shape (D X : re) d s m1 m2 :
  (∀ prev s cs p' s' c', matches D prev s cs p' s' c' → s = d +:+ s' ∧ c' = cs) →
  1 ∉ groups X → 2 ∉ groups X →
  submatches (anchored (Cat repoBaseRegEx (Cat D (Grp 2 X)))) s = Some (m1, m2) →
  s = m1 +:+ d +:+ m2 ∧ ∃ prev cs p' cs', matches X prev m2 cs p' "" cs'.
Proof.
  intros HD H1 H2. unfold submatches. intros (cs & Hf & Hm)%bind_Some.
  injection Hm as <- <-. apply find_anchored in Hf as [p' Hm].
  apply matches_cat in Hm as (p1 & s1 & c1 & Hbase & Hm).
  pose proof (matches_suffix _ _ _ _ _ _ _ Hbase) as Hs.
  apply matches_grp in Hbase as (c0 & _ & ->).
  apply matches_cat in Hm as (p2 & s2 & c2 & [-> ->]%HD & Hm).
  apply matches_grp in Hm as (c3 & Hx & ->). rewrite consumed_all.
  pose proof (matches_cap X _ _ _ _ _ _ 1 Hx H1) as Hc1.
  unfold sub. cbn. cbn in Hc1. rewrite Hc1. cbn. split; [done|]. eauto.
Qed.

Lemma submatches_lit d X s m1 m2 :
  1 ∉ groups X → 2 ∉ groups X →
  submatches (anchored (Cat repoBaseRegEx (Cat (lit d) (Grp 2 X)))) s = Some (m1, m2) →
  s = m1 +:+ d +:+ m2 ∧ ∃ prev cs p' cs', matches X prev m2 cs p' "" cs'.
Proof. intros. eapply submatches_shape; [apply matches_lit|done..]. Qed.

Lemma submatches_class d p s m1 m2 :
  submatches (anchored (Cat repoBaseRegEx (Cat (lit d) (Grp 2 (Plus true (Chr p)))))) s
    = Some (m1, m2) →
  s = m1 +:+ d +:+ m2 ∧ m2 ≠ "" ∧ sforall p m2 = true.
Proof.
  intros (-> & prev & cs & p' & cs' & Hm)%submatches_lit; [|set_solver..].
  apply matches_plus_chr in Hm as (Hp & Hne & _). by rewrite consumed_all in *.
Qed.

(** [pull/<number>/head] *)
Definition is_pr_reference (pr : string) : Prop :=
  ∃ n, pr = "pull/" +:+ n +:+ "/head" ∧ n ≠ "" ∧ sforall is_digit n = true.

Lemma matches_pr n prev s cs p' cs' :
  matches (PullRequestReference n) prev s cs p' "" cs' → is_pr_reference s.
Proof.
  intros (p1 & s1 & c1 & [-> ->]%matches_lit & Hm)%matches_cat.
  apply matches_cat in Hm as (p2 & s2 & c2 & Hg & [-> ->]%matches_lit).
  apply matches_grp in Hg as (c3 & Hp & _).
  pose proof (matches_suffix _ _ _ _ _ _ _ Hp) as Hs.
  apply matches_plus_chr in Hp as (Hd & Hne & _). rewrite sapp_nil_r in *.
  eexists. by rewrite <-Hs.
Qed.

(** ** Repository strings *)

(** What is left of a source once a part was split off, with the part. *)
Definition part (delimiter value : string) : string :=
  if decide (value = "") then "" else delimiter +:+ value.

Definition split_off (r : re) (s : string) : string * string :=
  match submatches r s with Some (m1, m2) => (m1, m2) | None => (s, "") end.

Lemma split_off_part d p s s' v :
  split_off (anchored (Cat repoBaseRegEx (Cat (lit d) (Grp 2 (Plus true (Chr p)))))) s
    = (s', v) →
  s = s' +:+ part d v ∧ sforall p v = true.
Proof.
  unfold split_off.
  destruct (submatches _ s) as [[m1 m2]|] eqn:Hm; intros [= <- <-].
  - apply submatches_class in Hm as (-> & Hne & ?). unfold part. by rewrite decide_False.
  - cbn. by rewrite sapp_nil_r.
Qed.

Lemma NormalizeRepository_split str :
  submatches prReferenceRegEx (with_scheme str) = None →
  NormalizeRepository str =
  let '(s1, path) := split_off subPathRegEx (with_scheme str) in
  let '(s2, branch) := split_off branchRegEx s1 in
  let '(s3, commit) := split_off commitRegEx s2 in
  (s3, "", branch, commit, TrimSuffix path "/").
Proof.
  intros Hpr. unfold NormalizeRepository, split_off. rewrite Hpr.
  destruct (submatches subPathRegEx _) as [[??]|];
    destruct (submatches branchRegEx _) as [[??]|];
    by destruct (submatches commitRegEx _) as [[??]|].
Qed.

(** [NormalizeRepository] loses nothing of the source and puts every part
    in its place.  A pull request comes alone and has the form
    [pull/<number>/head]; otherwise the source (with https for a missing
    scheme) is the repository followed by the commit, the branch and the sub
    path, each behind its delimiter and of its characters. *)
Theorem NormalizeRepository_parts str :
  let '(repo, pr, branch, commit, subpath) := NormalizeRepository str in
  (pr ≠ "" ∧ is_pr_reference pr ∧ branch = "" ∧ commit = "" ∧ subpath = "" ∧
   with_scheme str = repo +:+ "@" +:+ pr) ∨
  (pr = "" ∧ sforall is_ref_char branch = true ∧ sforall is_alnum commit = true ∧
   sforall is_ref_char subpath = true ∧
   ∃ path, subpath = TrimSuffix path "/" ∧
     with_scheme str = repo +:+ part CommitDelimiter commit +:+ part "@" branch +:+
                       part SubPathDelimiter path).
Proof.
  destruct (submatches prReferenceRegEx (with_scheme str)) as [[m1 m2]|] eqn:Hpr.
  { unfold NormalizeRepository. rewrite Hpr. left.
    apply (submatches_lit "@" (PullRequestReference 3)) in Hpr
      as (-> & prev & cs & p' & cs' & Hm); [|set_solver..].
    apply matches_pr in Hm. destruct Hm as (n & -> & ?). split_and!; try done.
    by exists n. }
  rewrite (NormalizeRepository_split str Hpr).
  destruct (split_off subPathRegEx (with_scheme str)) as [s1 path] eqn:E1.
  destruct (split_off branchRegEx s1) as [s2 branch] eqn:E2.
  destruct (split_off commitRegEx s2) as [s3 commit] eqn:E3.
  apply split_off_part in E1 as [-> P1].
  apply (split_off_part "@") in E2 as [-> P2].
  apply split_off_part in E3 as [-> P3]. right.
  split_and!; try done.
  - unfold TrimSuffix. case_match; [by apply sforall_stake|done].
  - exists path. by rewrite !sapp_assoc.
Qed.

(** ** Pull requests *)

Lemma lit_matches w : ∀ prev s cs, ∃ p', matches (lit w) prev (w +:+ s) cs p' s cs.
Proof.
  induction w as [|c w IH]; intros prev s cs; [eexists; constructor|].
  assert (matches (chr c) prev (String c (w +:+ s)) cs (Some c) (w +:+ s) cs) as Hc
    by (constructor; by apply bool_decide_eq_true).
  destruct w as [|d w]; [by eexists|].
  destruct (IH (Some c) s cs) as [p' Hp]. exists p'. eapply mt_cat; [exact Hc|exact Hp].
Qed.

Lemma plus_matches p w : ∀ prev s cs, w ≠ "" → sforall p w = true →
  ∃ p', matches (Plus true (Chr p)) prev (w +:+ s) cs p' s cs.
Proof.
  assert (∀ w prev s cs, sforall p w = true →
    ∃ p', matches (Star true (Chr p)) prev (w +:+ s) cs p' s cs) as Hstar.
  { induction w0 as [|c w0 IH]; intros prev s cs Hw; [eexists; apply mt_star_nil|].
    cbn in Hw. apply andb_true_iff in Hw as [Hc Hw].
    destruct (IH (Some c) s cs Hw) as [p' Hp']. exists p'.
    eapply mt_star_cons; [by apply mt_chr| |exact Hp']. apply Nat.lt_succ_diag_r. }
  intros prev s cs Hne Hw. destruct w as [|c w]; [done|].
  cbn in Hw. apply andb_true_iff in Hw as [Hc Hw].
  destruct (Hstar w (Some c) s cs Hw) as [p' Hp']. exists p'.
  eapply mt_cat; [by apply mt_chr|exact Hp'].
Qed.

Lemma sapp_inj w (a b : string) : w +:+ a = w +:+ b → a = b.
Proof. induction w; cbn; [done|]. intros [= ?]. auto. Qed.

(** A run of a class is delimited by the first character outside it. *)
Lemma class_delimited p c (n d x y : string) :
  sforall p n = true → sforall p d = true → p c = false →
  n +:+ String c x = d +:+ String c y → n = d ∧ x = y.
Proof.
  intros Hn Hd Hc. revert d Hn Hd.
  induction n as [|a n IH]; intros [|b d] Hn Hd Heq; cbn in *.
  - by injection Heq as ->.
  - injection Heq as <- _. by rewrite Hc in Hd.
  - injection Heq as -> _. by rewrite Hc in Hn.
  - injection Heq as -> Heq. apply andb_true_iff in Hn as [_ Hn], Hd as [_ Hd].
    by destruct (IH d Hn Hd Heq) as [-> ->].
Qed.

Lemma pr_match n prev s' p' cs :
  sforall is_digit n = true →
  matches (PullRequestReference 1) prev ("pull/" +:+ n +:+ "/head") [] p' s' cs →
  s' = "" ∧ sub cs 1 = n.
Proof.
  intros Hn (p1 & s1 & c1 & [H1 ->]%matches_lit & Hm)%matches_cat.
  apply (sapp_inj "pull/") in H1 as <-.
  apply matches_cat in Hm as (p2 & s2 & c2 & Hg & [-> ->]%matches_lit).
  apply matches_grp in Hg as (c3 & Hp & ->).
  pose proof (matches_suffix _ _ _ _ _ _ _ Hp) as Hs.
  apply matches_plus_chr in Hp as (Hd & Hne & _).
  set (d := consumed _ _) in *.
  destruct (class_delimited is_digit "/" n d "head" ("head" +:+ s'))
    as [Hnd Hh]; try done.
  apply (sapp_inj "head" "" s') in Hh as <-. by rewrite Hnd.
Qed.

Lemma pr_find n : n ≠ "" → sforall is_digit n = true →
  ∃ m, find_from (PullRequestReference 1) None ("pull/" +:+ n +:+ "/head") = Some m ∧
    m_before m = "" ∧ m_text m ≠ "" ∧ m_after m = "" ∧ sub (m_caps m) 1 = n.
Proof.
  intros Hne Hn. set (s := "pull/" +:+ n +:+ "/head").
  destruct (match_here (PullRequestReference 1) None s) as [[[p' s'] cs]|] eqn:Hm.
  - rewrite (find_from_here _ _ _ _ _ _ Hm). eexists. split; [done|]. cbn [m_before m_text m_after m_caps].
    apply match_here_sound in Hm.
    apply pr_match in Hm as [-> Hs]; [|done]. by rewrite consumed_all.
  - exfalso. unfold s in Hm.
    destruct (lit_matches "pull/" None (n +:+ "/head") []) as [p1 H1].
    destruct (plus_matches is_digit n p1 "/head" [] Hne Hn) as [p2 H2].
    destruct (lit_matches "/head" p2 "" [(1, consumed (n +:+ "/head") "/head")])
      as [p3 H3].
    eapply (proj1 (match_here_None _ _ _) Hm).
    eapply mt_cat; [exact H1|]. eapply mt_cat; [apply mt_grp; exact H2|exact H3].
Qed.

Lemma replace_from_nil n f p' :
  replace_from (PullRequestReference 1) f n p' "" = "".
Proof. by destruct n. Qed.

(** The branch checked out for a pull request and the workspace name for
    it carry its number: [pull/996/head] becomes [PR996] and [pr996]. *)
Lemma GetBranchNameForPR_number n :
  n ≠ "" → sforall is_digit n = true →
  GetBranchNameForPR ("pull/" +:+ n +:+ "/head") = "PR" +:+ n ∧
  GetIDForPR ("pull/" +:+ n +:+ "/head") = "pr" +:+ n.
Proof.
  intros Hne Hn. destruct (pr_find n Hne Hn) as (m & Hf & Hb & Ht & Ha & Hs).
  unfold GetBranchNameForPR, GetIDForPR, ReplaceAllFunc. cbn [replace_from].
  rewrite Hf, Hb, Hs, Ha. destruct (m_text m) as [|c t]; [done|].
  cbn [String.append]. rewrite !replace_from_nil. split; by rewrite sapp_nil_r.
Qed.

(** ** Cloning *)

(** The commands a clone consists of. *)
Definition clone_plan (info : GitInfo) (env : list string) (dir helper : string)
    (strict : bool) (opts : list CloneOption) : list command :=
  let c := NewClonerWithOpts opts in
  let env := (GetDefaultExtraEnv strict ++ env)%list in
  let flag f v := if decide (v = "") then [] else [f; v] in
  Command
    (initialArgs c ++
     (if decide (helper = "") then [] else ["--config"; "credential.helper=" +:+ helper]) ++
     flag "--branch" (gi_branch info) ++
     c_extraArgs c ++ [gi_repository info; dir; "--progress"])
    (if c_skipLFS c then env ++ ["GIT_LFS_SKIP_SMUDGE=1"] else env) None ::
  (if decide (gi_pr info = "") then
     if decide (gi_commit info = "") then []
     else [Command ["reset"; "--hard"; gi_commit info] env (Some dir)]
   else [Command ["fetch"; "origin"; gi_pr info +:+ ":" +:+ GetBranchNameForPR (gi_pr info)]
           env (Some dir);
         Command ["switch"; GetBranchNameForPR (gi_pr info)] env (Some dir)])%list.

(** Runs commands in order until one fails. *)
Fixpoint execute (run : command → string + unit) (plan : list command)
    : list command * bool :=
  match plan with
  | [] => ([], true)
  | c :: plan' =>
      match run c with
      | inl _ => ([c], false)
      | inr _ => let '(l, ok) := execute run plan' in (c :: l, ok)
      end
  end.

(** cloning runs exactly the commands of its plan, in order, and stops at
    the first failure: the clone with the branch, then either the fetch and
    the switch to the pull request or the reset to the commit, never both.
    It succeeds exactly when all of them do. *)
Theorem CloneRepositoryWithEnv_executes run info env dir helper strict opts :
  let '(r, commands) :=
    CloneRepositoryWithEnv run info env dir helper strict opts [] in
  execute run (clone_plan info env dir helper strict opts) = (commands, is_ok r) ∧
  (is_ok r = false → is_err r = true).
Proof.
  unfold CloneRepositoryWithEnv, Clone_git, clone_plan, run_command, checkoutPR,
    checkoutCommit, run_command, wrap_run, modifyS, liftR, mbind, M_bind.
  rewrite <-!app_assoc. cbn [execute app].
  destruct (run _) as [e|[]]; [done|]. cbn [of_sum].
  destruct (decide (gi_pr info = "")) as [Hp|Hp].
  - rewrite bool_decide_eq_true_2 by done. cbn [negb].
    destruct (decide (gi_commit info = "")) as [Hc|Hc].
    + by rewrite bool_decide_eq_true_2.
    + rewrite bool_decide_eq_false_2 by done. cbn. by destruct (run _) as [e|[]].
  - rewrite bool_decide_eq_false_2 by done. cbn.
    destruct (run (Command ["fetch"; _; _] _ _)) as [e|[]]; [done|]. cbn.
    by destruct (run (Command ["switch"; _] _ _)) as [e|[]].
Qed.

Lemma GetBranchNameForPR_number_witness :
  GetBranchNameForPR ("pull/" +:+ "996" +:+ "/head") = "PR996".
Proof. exact (proj1 (GetBranchNameForPR_number "996" ltac:(done) eq_refl)). Defined.
