(* ===== verification/Names.v ===== *)
(** * Names and addresses

    [ToID] of pkg/workspace/id.go, the names with a bounded length of
    pkg/encoding and pkg/id, and the port specifications of pkg/port.  The
    digest, the random identifiers and [net.ParseIP] are parameters. *)

From S2P Require Import Prelude GoStrings GoRegexp Git.
From stdpp Require Import base sets list strings.
From Stdlib Require Import ZArith Lia.

Local Open Scope string_scope.

(** ** pkg/workspace/id.go *)

Module WorkspaceID.

(** [[^\w\-]] *)
Definition workspaceIDRegEx1 : re :=
  Chr (λ c, negb (is_word c || bool_decide (c = "-"%char))).
(** [[^0-9a-z\-]+] *)
Definition is_id_char (c : ascii) : bool :=
  is_digit c || is_lower c || bool_decide (c = "-"%char).
Definition workspaceIDRegEx2 : re := Plus true (Chr (λ c, negb (is_id_char c))).
(** [[^a-zA-Z0-9\.\-]+] *)
Definition branchRegEx : re :=
  Plus true (Chr (λ c, negb (is_alnum c || scontains_char c ".-"))).
Definition prReferenceRegEx : re := PullRequestReference 1.

(** The part of the source the name is taken from. *)
Definition id_source (str : string) : string :=
  let splitted := Split "@" str in
  match splitted with
  | [s0; s1] =>
      if MatchString prReferenceRegEx str then
        ReplaceAllFunc prReferenceRegEx s1 (λ s _, GetIDForPR s)
      else
        let s := TrimSuffix s1 ".git" in
        if negb (MatchString branchRegEx s) then s0 else s
  | _ =>
      let s := TrimSuffix str "/" in
      match after_last "/" s with
      | Some s' => TrimSuffix s' ".git"
      | None => s
      end
  end.

Definition ToID (str : string) : string :=
  let str := id_source (ToLower str) in
  let str := ReplaceAllString workspaceIDRegEx2
               (ReplaceAllString workspaceIDRegEx1 str "-") "" in
  let str := if decide (48 < String.length str)%nat then stake 48 str else str in
  Trim str "-".

Example ToID_tests :
  ToID <$> ["github.com/loft-sh/devpod"; "https://github.com/loft-sh/devpod.git";
            "github.com/loft-sh/devpod/"; "myrepo"; "/home/loft/devpod";
            "github.com/loft-sh/devpod@feature1";
            "github.com/loft-sh/devpod@feat/feature1";
            "github.com/loft-sh/devpod@pr/123";
            "github.com/loft-sh/devpodreallylongreponame_that_exceeds_48_characters_total_length"]
  = ["devpod"; "devpod"; "devpod"; "myrepo"; "devpod"; "github-com-loft-sh-devpod";
     "feat-feature1"; "pr-123"; "devpodreallylongreponamethatexceeds48characterst"].
Proof. by vm_compute. Qed.

End WorkspaceID.

(** ** pkg/encoding/encoding.go *)

Module Encoding.

Definition WorkspaceUIDLength : nat := 16.
Definition MachineUIDLength : nat := 40.

Definition IsLegacyUID (uid : string) : bool :=
  negb (String.length uid =? WorkspaceUIDLength)%nat &&
  negb (String.length uid =? MachineUIDLength)%nat.

Section Digest.
(** [hex.EncodeToString(sha256.Sum256(s))] *)
Context (sha256_hex : string → string).

Definition SafeConcatNameMax (name : list string) (max : nat) : string :=
  let fullPath := GoStrings.Join name "-" in
  if decide (max < String.length fullPath)%nat then
    let digestEncoded := sha256_hex fullPath in
    let trimmedPath := stake (max - 6) fullPath in
    if HasSuffix trimmedPath "-" then trimmedPath +:+ stake 6 digestEncoded
    else trimmedPath +:+ "-" +:+ stake 5 digestEncoded
  else fullPath.

(** [uuid] is [uuid.New().String()] of the two calls, one after the other. *)
Definition CreateNewUID (uuid context id : string) : string :=
  let uid := ReplaceAll uuid "-" "" in
  SafeConcatNameMax
    ((if decide (context = "") then [] else [context]) ++
     (if decide (id = "") then [] else [id]) ++ [uid])%list
    WorkspaceUIDLength.

Definition CreateNewUIDShort (uuid id : string) : string :=
  let uid := stake 5 (ReplaceAll uuid "-" "") in
  SafeConcatNameMax [id; uid] WorkspaceUIDLength.
End Digest.

End Encoding.

(** ** pkg/id/id.go *)

Module ID.

(** [[^a-z0-9\-_]+] *)
Definition is_image_char (c : ascii) : bool :=
  is_lower c || is_digit c || scontains_char c "-_".
Definition dockerImageNameRegEx : re := Plus true (Chr (λ c, negb (is_image_char c))).

Section Digest.
Context (sha256_hex : string → string).

Definition SafeConcatNameMax (name : list string) (max : nat) : string :=
  let fullPath := GoStrings.Join name "-" in
  if decide (max < String.length fullPath)%nat then
    ReplaceAll (stake (max - 8) fullPath +:+ "-" +:+ stake 7 (sha256_hex fullPath))
               ".-" "-"
  else fullPath.

Definition SafeConcatName (name : list string) : string := SafeConcatNameMax name 63.
End Digest.

Definition ToDockerImageName (name : string) : string :=
  ReplaceAllString dockerImageNameRegEx (ToLower name) "".

End ID.

(** ** pkg/port/parse.go *)

Module Port.

Record Address := { Protocol : string; Address_ : string }.
Record Mapping := { Host : Address; Container : Address }.

Section Parse.
(** [net.ParseIP(s) != nil] *)
Context (is_ip : string → bool).

Definition toAddress (ip port : string) : result Address :=
  if Atoi port then
    let ip := if decide (ip = "") then "localhost" else ip in
    if negb (bool_decide (ip = "localhost")) && negb (is_ip ip) then
      Err ("not an ip address " +:+ ip)
    else Ok {| Protocol := "tcp"; Address_ := ip +:+ ":" +:+ port |}
  else if negb (bool_decide (ip = "")) then
    Err ("unexpected ip address for unix socket: " +:+ ip)
  else Ok {| Protocol := "unix"; Address_ := port |}.

Definition splitParts (rawport : string)
    : result (string * string * string * string) :=
  match Split ":" rawport with
  | [c] => Ok ("", c, "", c)
  | [h; c] => Ok ("", h, "", c)
  | [p0; p1; c] =>
      if bool_decide (p1 = "localhost") || is_ip p1 then Ok ("", p0, p1, c)
      else Ok (p0, p1, "", c)
  | [p0; p1; p2; p3] => Ok (p0, p1, p2, p3)
  | _ => Err ("unexpected port format: " +:+ rawport)
  end.

Definition ParsePortSpec (port : string) : result Mapping :=
  '(hostIP, hostPort, containerIP, containerPort) ← splitParts port;
  hostAddress ← wrap "parse host address" (toAddress hostIP hostPort);
  containerAddress ← wrap "parse container address" (toAddress containerIP containerPort);
  Ok {| Host := hostAddress; Container := containerAddress |}.
End Parse.

End Port.

(** * Properties of names and addresses *)

(** ** Trimming *)

Lemma sforall_trim_left p q s :
  sforall q s = true → sforall q (trim_left p s) = true.
Proof.
  destruct (trim_left_spec p s) as (l & Hs & _). rewrite Hs at 1.
  rewrite sforall_app, andb_true_iff. by intros [_ ?].
Qed.

Lemma sforall_trim_right p q s :
  sforall q s = true → sforall q (trim_right p s) = true.
Proof.
  destruct (trim_right_spec p s) as (r & Hs & _). rewrite Hs at 1.
  rewrite sforall_app, andb_true_iff. by intros [? _].
Qed.

Lemma trim_left_length p s : (String.length (trim_left p s) ≤ String.length s)%nat.
Proof.
  destruct (trim_left_spec p s) as (l & Hs & _). rewrite Hs at 2.
  rewrite slength_app. lia.
Qed.

Lemma trim_right_length p s : (String.length (trim_right p s) ≤ String.length s)%nat.
Proof.
  destruct (trim_right_spec p s) as (r & Hs & _). rewrite Hs at 2.
  rewrite slength_app. lia.
Qed.

(** The first and the last character. *)
Definition shead (s : string) : option ascii :=
  match s with String c _ => Some c | "" => None end.
Fixpoint slast (s : string) : option ascii :=
  match s with
  | "" => None
  | String c "" => Some c
  | String _ s' => slast s'
  end.

Lemma shead_trim_left p s c : shead (trim_left p s) = Some c → p c = false.
Proof.
  induction s as [|d s IH]; cbn; [done|]. destruct (p d) eqn:Hd; [done|].
  cbn. by intros [= <-].
Qed.

Lemma slast_trim_right p s c : slast (trim_right p s) = Some c → p c = false.
Proof.
  induction s as [|d s IH]; cbn; [done|].
  destruct (trim_right p s) as [|e t] eqn:Ht; [|exact IH].
  destruct (p d) eqn:Hd; [done|]. by intros [= <-].
Qed.

Lemma shead_trim_right p s :
  shead (trim_right p s) = None ∨ shead (trim_right p s) = shead s.
Proof.
  destruct s as [|d s]; cbn; [by left|].
  destruct (trim_right p s) as [|e t]; [|by right].
  destruct (p d); [by left|by right].
Qed.

(** ** Workspace names *)

Lemma ToID_chars str : sforall WorkspaceID.is_id_char (WorkspaceID.ToID str) = true.
Proof.
  unfold WorkspaceID.ToID. cbv zeta.
  rewrite (ReplaceAll_class_empty _ (λ c, negb (WorkspaceID.is_id_char c)))
    by (right; by eexists).
  apply sforall_trim_right, sforall_trim_left.
  assert (∀ x, sforall WorkspaceID.is_id_char
    (sfilter (λ c, negb (negb (WorkspaceID.is_id_char c))) x) = true) as Hf.
  { intros x. eapply sforall_impl; [|apply sfilter_forall]. intros c. cbn beta.
    by rewrite negb_involutive. }
  case_decide; [by apply sforall_stake|done].
Qed.

(** C40: [ToID] always yields a usable workspace name: at most 48 characters,
    only digits, lower case letters and dashes, and no dash at either end. *)
Theorem ToID_wellformed str :
  let id := WorkspaceID.ToID str in
  (String.length id ≤ 48)%nat ∧
  sforall WorkspaceID.is_id_char id = true ∧
  shead id ≠ Some "-"%char ∧ slast id ≠ Some "-"%char.
Proof.
  intros id. split_and!; [|apply ToID_chars|..]; subst id; unfold WorkspaceID.ToID; cbv zeta;
    unfold Trim, trim_by.
  - etrans; [apply trim_right_length|]. etrans; [apply trim_left_length|].
    case_decide; [apply stake_length|lia].
  - match goal with |- shead (trim_right ?p ?l) ≠ _ => intros Hh;
      destruct (shead_trim_right p l) as [H|H] end;
      rewrite H in Hh; [done|]. by apply shead_trim_left in Hh.
  - intros Hh. by apply slast_trim_right in Hh.
Qed.

(** ** Bounded names *)

Lemma stake_length_ge n s :
  (n ≤ String.length s)%nat → String.length (stake n s) = n.
Proof.
  revert s. induction n as [|n IH]; intros [|c s]; cbn; intros; [lia..|].
  rewrite IH; lia.
Qed.

Lemma SafeConcatNameMax_long sha256_hex name max :
  (∀ s, String.length (sha256_hex s) = 64%nat) → (6 ≤ max)%nat →
  let full := GoStrings.Join name "-" in
  let safe := Encoding.SafeConcatNameMax sha256_hex name max in
  (max < String.length full)%nat →
  String.length safe = max ∧ stake (max - 6) safe = stake (max - 6) full.
Proof.
  intros Hsha Hmax. cbv zeta. unfold Encoding.SafeConcatNameMax.
  set (full := GoStrings.Join name "-"). intros Hlen. rewrite decide_True by done.
  assert (String.length (stake (max - 6) full) = (max - 6)%nat) as Hl
    by (apply stake_length_ge; lia).
  assert (∀ t, stake (max - 6) (stake (max - 6) full +:+ t) = stake (max - 6) full) as Hk.
  { intros t. rewrite <-Hl at 1. apply stake_app. }
  case_match; rewrite Hk; split; try done; rewrite !slength_app, Hl.
  - rewrite stake_length_ge by (rewrite Hsha; lia). lia.
  - cbn [String.length]. rewrite stake_length_ge by (rewrite Hsha; lia). lia.
Qed.

(** the identifiers of pkg/encoding respect their bound: a name that is
    too long is replaced by one of exactly the maximal length that keeps the
    beginning of the name; a name that fits is kept. *)
Theorem Encoding_SafeConcatNameMax_bound sha256_hex name max :
  (∀ s, String.length (sha256_hex s) = 64%nat) → (6 ≤ max)%nat →
  let full := GoStrings.Join name "-" in
  let safe := Encoding.SafeConcatNameMax sha256_hex name max in
  ((String.length full ≤ max)%nat → safe = full) ∧
  ((max < String.length full)%nat →
   String.length safe = max ∧ stake (max - 6) safe = stake (max - 6) full).
Proof.
  intros Hsha Hmax. split; [|by apply SafeConcatNameMax_long].
  intros Hlen. unfold Encoding.SafeConcatNameMax. by rewrite decide_False by lia.
Qed.

Lemma concat_last_length l (x sep : string) :
  (String.length x ≤ String.length (String.concat sep (l ++ [x])))%nat.
Proof.
  induction l as [|y l IH]; cbn; [done|].
  destruct (l ++ [x])%list eqn:E; [by destruct l|].
  rewrite !slength_app. lia.
Qed.

(** a new workspace UID has exactly the length by which the agent tells
    it from a legacy one, for every context and workspace name. *)
Theorem CreateNewUID_length sha256_hex uuid context id :
  (∀ s, String.length (sha256_hex s) = 64%nat) →
  String.length (ReplaceAll uuid "-" "") = 64%nat →
  let uid := Encoding.CreateNewUID sha256_hex uuid context id in
  String.length uid = Encoding.WorkspaceUIDLength ∧ Encoding.IsLegacyUID uid = false.
Proof.
  intros Hsha Huuid. cbv zeta.
  assert (String.length (Encoding.CreateNewUID sha256_hex uuid context id) =
          Encoding.WorkspaceUIDLength) as Hl.
  { unfold Encoding.CreateNewUID. cbv zeta. rewrite app_assoc.
    match goal with |- context [(?l ++ [?x])%list] =>
      pose proof (concat_last_length l x "-") as Hc end.
    apply SafeConcatNameMax_long; [done|unfold Encoding.WorkspaceUIDLength; lia|].
    unfold Encoding.WorkspaceUIDLength, GoStrings.Join. lia. }
  split; [done|]. unfold Encoding.IsLegacyUID. by rewrite Hl.
Qed.

Lemma replace_all_shrinks old new : ∀ fuel s,
  (String.length new ≤ String.length old)%nat →
  (String.length (replace_all fuel s old new) ≤ String.length s)%nat.
Proof.
  induction fuel as [|f IH]; intros s Hl; cbn; [done|].
  destruct s as [|c s]; [done|].
  destruct (String.prefix old (String c s)) eqn:Hp.
  - apply (HasPrefix_spec (String c s) old) in Hp as [r Hr].
    rewrite Hr, sdrop_app, !slength_app. specialize (IH r Hl). lia.
  - cbn. specialize (IH s Hl). lia.
Qed.

(** The names of pkg/id (Kubernetes objects, compose projects) never
    exceed their bound. *)
Lemma ID_SafeConcatNameMax_bound sha256_hex name max :
  (∀ s, String.length (sha256_hex s) = 64%nat) → (8 ≤ max)%nat →
  (String.length (ID.SafeConcatNameMax sha256_hex name max) ≤ max)%nat.
Proof.
  intros Hsha Hmax. unfold ID.SafeConcatNameMax. cbv zeta. case_decide; [|lia].
  etrans; [apply replace_all_shrinks; cbn; lia|].
  rewrite !slength_app, !stake_length_ge by (rewrite ?Hsha; lia).
  cbn [String.length]. lia.
Qed.

(** ** Port specifications *)

(** An address the code may listen on or connect to. *)
Definition valid_address (is_ip : string → bool) (a : Port.Address) : Prop :=
  (Port.Protocol a = "tcp" ∧ ∃ ip port, Port.Address_ a = ip +:+ ":" +:+ port ∧
     is_Some (Atoi port) ∧ (ip = "localhost" ∨ is_ip ip = true)) ∨
  (Port.Protocol a = "unix" ∧ Atoi (Port.Address_ a) = None).

Lemma toAddress_valid is_ip ip port a :
  Port.toAddress is_ip ip port = Ok a → valid_address is_ip a.
Proof.
  unfold Port.toAddress. destruct (Atoi port) as [n|] eqn:Hp.
  - set (ip' := if decide (ip = "") then "localhost" else ip).
    destruct (bool_decide (ip' = "localhost")) eqn:Hl; cbn [negb andb].
    + intros [= <-]. left. split; [done|]. exists ip', port.
      apply bool_decide_eq_true in Hl. split_and!; [done|by rewrite Hp|by left].
    + destruct (is_ip ip') eqn:Hi; [|done]. cbn. intros [= <-]. left.
      split; [done|]. exists ip', port. split_and!; [done|by rewrite Hp|by right].
  - case_bool_decide; [|done]. intros [= <-]. by right.
Qed.

(** Whatever [ParsePortSpec] accepts has two usable ends: a tcp address of
    a numeric port on localhost or an IP address, or a unix socket. *)
Lemma ParsePortSpec_valid is_ip spec m :
  Port.ParsePortSpec is_ip spec = Ok m →
  valid_address is_ip (Port.Host m) ∧ valid_address is_ip (Port.Container m).
Proof.
  unfold Port.ParsePortSpec.
  intros ([[[hi hp] ci] cp] & _ & Hm)%bind_Ok.
  apply bind_Ok in Hm as (h & Hh%wrap_Ok & Hm).
  apply bind_Ok in Hm as (c & Hc%wrap_Ok & [= <-]).
  split; by eapply toAddress_valid.
Qed.

(** a specification with all four parts is read back part by part. *)
Theorem ParsePortSpec_full is_ip hip hp cip cp :
  (∀ p, p ∈ [hip; hp; cip; cp] → free ":" p = true) →
  is_Some (Atoi hp) → is_Some (Atoi cp) →
  hip ≠ "" → cip ≠ "" → is_ip hip = true → is_ip cip = true →
  Port.ParsePortSpec is_ip (GoStrings.Join [hip; hp; cip; cp] ":") =
  Ok {| Port.Host := {| Port.Protocol := "tcp"; Port.Address_ := hip +:+ ":" +:+ hp |};
        Port.Container :=
          {| Port.Protocol := "tcp"; Port.Address_ := cip +:+ ":" +:+ cp |} |}.
Proof.
  intros Hf [n Hn] [m Hm] Hh Hc Hih Hic. unfold Port.ParsePortSpec, Port.splitParts.
  rewrite (Split_Join ":" [hip; hp; cip; cp]) by done. cbn.
  unfold Port.toAddress. rewrite Hn, Hm, !decide_False, Hih, Hic by done. cbn.
  by rewrite !andb_false_r.
Qed.

(** ** Concrete names *)

Definition demo_digest (s : string) : string :=
  "0123456789abcdef0123456789abcdef0123456789abcdef0123456789abcdef".
Definition demo_uuid : string :=
  "6ba7b810-9dad-11d1-80b4-00c04fd430c86ba7b810-9dad-11d1-80b4-00c04fd430c8".
Definition demo_is_ip (s : string) : bool :=
  bool_decide (s = "127.0.0.1") || bool_decide (s = "0.0.0.0").

Lemma Encoding_SafeConcatNameMax_bound_witness :
  String.length (Encoding.SafeConcatNameMax demo_digest ["default"; "my-workspace"] 16) = 16%nat.
Proof.
  apply (Encoding_SafeConcatNameMax_bound demo_digest ["default"; "my-workspace"] 16);
    [done|lia|vm_compute; lia].
Defined.

Lemma CreateNewUID_length_witness :
  Encoding.IsLegacyUID (Encoding.CreateNewUID demo_digest demo_uuid "default" "app") = false.
Proof.
  apply (CreateNewUID_length demo_digest demo_uuid "default" "app"); [done|by vm_compute].
Defined.

Lemma ID_SafeConcatNameMax_bound_witness :
  (String.length (ID.SafeConcatNameMax demo_digest ["devpod"; "a-long-project-name"] 20)
   ≤ 20)%nat.
Proof. apply (ID_SafeConcatNameMax_bound demo_digest); [done|lia]. Defined.

Lemma ParsePortSpec_valid_witness :
  ∃ m, Port.ParsePortSpec demo_is_ip "8080:80" = Ok m ∧
       valid_address demo_is_ip (Port.Host m).
Proof.
  eexists. split; [vm_compute; reflexivity|].
  apply (ParsePortSpec_valid demo_is_ip "8080:80"). by vm_compute.
Defined.

Lemma ParsePortSpec_full_witness :
  is_ok (Port.ParsePortSpec demo_is_ip "127.0.0.1:8080:0.0.0.0:80") = true.
Proof.
  pose proof (ParsePortSpec_full demo_is_ip "127.0.0.1" "8080" "0.0.0.0" "80") as H.
  change "127.0.0.1:8080:0.0.0.0:80"
    with (GoStrings.Join ["127.0.0.1"; "8080"; "0.0.0.0"; "80"] ":").
  rewrite H; [done| |by vm_compute; eauto..].
  intros p Hp. repeat (apply elem_of_cons in Hp as [->|Hp]; [by vm_compute|]).
  by apply not_elem_of_nil in Hp.
Defined.

(** [CreateNewUIDShort] does not always yield 16 characters, as its comment
    says: a short workspace name gives a shorter identifier. *)
Example CreateNewUIDShort_short :
  Encoding.CreateNewUIDShort demo_digest demo_uuid "app" = "app-6ba7b" ∧
  Encoding.IsLegacyUID (Encoding.CreateNewUIDShort demo_digest demo_uuid "app") = true.
Proof. by vm_compute. Qed.
