(* ===== verification/DevContainer.v ===== *)
(** * devcontainer.json: data, mounts and metadata

    The types of pkg/devcontainer/config (config.go, feature.go, metadata.go),
    mounts and their two notations, and the conversions of
    pkg/devcontainer/metadata.  A nil and an empty slice or map are both the
    empty list or map: the code only takes their length and ranges over them,
    and [omitempty] writes neither. *)

From S2P Require Import Prelude GoStrings Types.
From stdpp Require Import base gmap list strings.
From Stdlib Require Import ZArith.

Local Open Scope string_scope.

Definition LifecycleHook : Type := gmap string (list string).

(** ** Mounts *)

Record Mount := {
  mount_type : string;
  mount_source : string;
  mount_target : string;
  mount_external : bool;
  mount_other : list string;
}.
Definition empty_mount : Mount := {|
  mount_type := ""; mount_source := ""; mount_target := "";
  mount_external := false; mount_other := [] |}.

(** [Mount.String] *)
Definition flag (key value : string) : list string :=
  if decide (value = "") then [] else [key +:+ "=" +:+ value].
Definition Mount_String (m : Mount) : string :=
  GoStrings.Join
    (flag "type" (mount_type m) ++ flag "src" (mount_source m) ++
     flag "dst" (mount_target m) ++
     (if mount_external m then ["external=" +:+ FormatBool (mount_external m)] else []) ++
     mount_other m)%list ",".

(** One pass of the loop of [ParseMount]; [splitted2[1]] is out of range when
    the component has no [=]. *)
Definition mount_component (m : Mount) (split : string) : result Mount :=
  let splitted2 := Split "=" split in
  let key := default "" (splitted2 !! 0) in
  let value := deref (splitted2 !! 1) in
  if bool_decide (key ∈ ["src"; "source"]) then
    v ← value;
    Ok {| mount_type := mount_type m; mount_source := v; mount_target := mount_target m;
          mount_external := mount_external m; mount_other := mount_other m |}
  else if bool_decide (key ∈ ["dst"; "destination"; "target"]) then
    v ← value;
    Ok {| mount_type := mount_type m; mount_source := mount_source m; mount_target := v;
          mount_external := mount_external m; mount_other := mount_other m |}
  else if bool_decide (key = "type") then
    v ← value;
    Ok {| mount_type := v; mount_source := mount_source m; mount_target := mount_target m;
          mount_external := mount_external m; mount_other := mount_other m |}
  else if bool_decide (key = "external") then
    v ← value;
    Ok {| mount_type := mount_type m; mount_source := mount_source m;
          mount_target := mount_target m;
          mount_external := default false (ParseBool v); mount_other := mount_other m |}
  else
    Ok {| mount_type := mount_type m; mount_source := mount_source m;
          mount_target := mount_target m; mount_external := mount_external m;
          mount_other := mount_other m ++ [split] |}%list.

Fixpoint mount_components (m : Mount) (l : list string) : result Mount :=
  match l with
  | [] => Ok m
  | split :: l' => m' ← mount_component m split; mount_components m' l'
  end.
Definition ParseMount (str : string) : result Mount :=
  mount_components empty_mount (Split "," str).

(** [Mount.UnmarshalJSON] for the decoded value; [None] is invalid JSON. *)
Definition str_or (o : option json) (d : string) : string :=
  match o with Some (JStr s) => s | _ => d end.
Definition Mount_Unmarshal (data : option json) (m : Mount) : result Mount :=
  match data with
  | None => Err "invalid JSON"
  | Some (JStr s) => ParseMount s
  | Some (JObj obj) =>
      other ← (match obj_get obj "other" with
               | Some (JArr l) => mapR assert_string l
               | _ => Ok (mount_other m)
               end);
      Ok {| mount_source := str_or (obj_get obj "source") (mount_source m);
            mount_target := str_or (obj_get obj "target") (mount_target m);
            mount_type := str_or (obj_get obj "type") (mount_type m);
            mount_external := match obj_get obj "external" with
                              | Some (JBool b) => b
                              | _ => mount_external m
                              end;
            mount_other := other |}
  | Some _ => Err ErrUnsupportedType
  end.

(** ** Configuration *)

Record HostRequirements := {
  hr_cpus : Z; hr_memory : string; hr_storage : string; hr_gpu : string }.

Record PortAttribute := {
  pa_onAutoForward : string; pa_elevateIfNeeded : bool; pa_label : string;
  pa_requireLocalPort : bool; pa_protocol : string }.

Record DevContainerConfigBase := {
  b_name : string;
  b_features : gmap string json;
  b_overrideFeatureInstallOrder : list string;
  b_forwardPorts : list string;
  b_portsAttributes : gmap string PortAttribute;
  b_otherPortsAttributes : option PortAttribute;
  b_updateRemoteUserUID : option bool;
  b_remoteEnv : gmap string string;
  b_remoteUser : string;
  b_initializeCommand : LifecycleHook;
  b_shutdownAction : string;
  b_waitFor : string;
  b_userEnvProbe : string;
  b_hostRequirements : option HostRequirements;
  b_overrideCommand : option bool;
  b_workspaceFolder : string;
  b_settings : gmap string json;
  b_extensions : list string;
  b_devPort : Z;
}.
Definition empty_base : DevContainerConfigBase := {|
  b_name := ""; b_features := ∅; b_overrideFeatureInstallOrder := [];
  b_forwardPorts := []; b_portsAttributes := ∅; b_otherPortsAttributes := None;
  b_updateRemoteUserUID := None; b_remoteEnv := ∅; b_remoteUser := "";
  b_initializeCommand := ∅; b_shutdownAction := ""; b_waitFor := "";
  b_userEnvProbe := ""; b_hostRequirements := None; b_overrideCommand := None;
  b_workspaceFolder := ""; b_settings := ∅; b_extensions := []; b_devPort := 0%Z |}.

Record DevContainerActions := {
  a_onCreateCommand : LifecycleHook;
  a_updateContentCommand : LifecycleHook;
  a_postCreateCommand : LifecycleHook;
  a_postStartCommand : LifecycleHook;
  a_postAttachCommand : LifecycleHook;
  a_customizations : gmap string json;
}.

Record UpdatedConfigProperties := {
  u_entrypoints : list string;
  u_onCreateCommands : list LifecycleHook;
  u_updateContentCommands : list LifecycleHook;
  u_postCreateCommands : list LifecycleHook;
  u_postStartCommands : list LifecycleHook;
  u_postAttachCommands : list LifecycleHook;
  u_customizations : gmap string (list json);
}.

Record ComposeContainer := {
  cc_dockerComposeFile : list string; cc_service : string; cc_runServices : list string }.

Record NonComposeBase := {
  n_appPort : list string;
  n_containerEnv : gmap string string;
  n_containerUser : string;
  n_mounts : list Mount;
  n_init : option bool;
  n_privileged : option bool;
  n_capAdd : list string;
  n_securityOpt : list string;
  n_runArgs : list string;
  n_workspaceMount : string;
}.

Record ConfigBuildOptions := {
  bo_dockerfile : string; bo_context : string; bo_target : string;
  bo_args : gmap string string; bo_cacheFrom : list string; bo_options : list string }.

Record DockerfileContainer := {
  df_dockerfile : string; df_context : string; df_build : option ConfigBuildOptions }.

Definition GetDockerfile (d : DockerfileContainer) : string :=
  if decide (df_dockerfile d ≠ "") then df_dockerfile d
  else match df_build d with Some b => bo_dockerfile b | None => "" end.
Definition GetContext (d : DockerfileContainer) : string :=
  if decide (df_context d ≠ "") then df_context d
  else match df_build d with Some b => bo_context b | None => "" end.
Definition GetTarget (d : DockerfileContainer) : string :=
  match df_build d with Some b => bo_target b | None => "" end.
Definition GetArgs (d : DockerfileContainer) : gmap string string :=
  match df_build d with Some b => bo_args b | None => ∅ end.
Definition GetOptions (d : DockerfileContainer) : list string :=
  match df_build d with Some b => bo_options b | None => [] end.
Definition GetCacheFrom (d : DockerfileContainer) : list string :=
  match df_build d with Some b => bo_cacheFrom b | None => [] end.

Record DevContainerConfig := {
  dc_base : DevContainerConfigBase;
  dc_actions : DevContainerActions;
  dc_nonCompose : NonComposeBase;
  dc_image : string;
  dc_compose : ComposeContainer;
  dc_dockerfile : DockerfileContainer;
  dc_containerID : string;
  dc_origin : string;
}.

Record MergedDevContainerConfig := {
  mc_base : DevContainerConfigBase;
  mc_updated : UpdatedConfigProperties;
  mc_nonCompose : NonComposeBase;
  mc_image : string;
  mc_compose : ComposeContainer;
  mc_dockerfile : DockerfileContainer;
  mc_containerID : string;
  mc_origin : string;
}.

(** ** Image metadata *)

Record ImageMetadata := {
  im_id : string;
  im_entrypoint : string;
  im_base : DevContainerConfigBase;
  im_actions : DevContainerActions;
  im_nonCompose : NonComposeBase;
}.
Record ImageMetadataConfig := {
  imc_raw : list ImageMetadata;
  imc_config : list ImageMetadata;
}.

Record FeatureConfigOption := {
  fo_default : string; fo_description : string; fo_type : string;
  fo_enum : list string; fo_proposals : list string }.

Record FeatureConfig := {
  f_id : string;
  f_name : string;
  f_version : string;
  f_description : string;
  f_entrypoint : string;
  f_deprecated : bool;
  f_legacyIds : list string;
  f_options : gmap string FeatureConfigOption;
  f_documentationURL : string;
  f_licenseURL : string;
  f_capAdd : list string;
  f_init : option bool;
  f_privileged : option bool;
  f_securityOpt : list string;
  f_mounts : list Mount;
  f_installsAfter : list string;
  f_containerEnv : gmap string string;
  f_customizations : gmap string json;
  f_origin : string;
}.

Record FeatureSet := {
  fs_configID : string;
  fs_folder : string;
  fs_config : FeatureConfig;
  fs_options : json;
}.

(** [FeatureConfigToImageMetadata] *)
Definition FeatureConfigToImageMetadata (feature : FeatureConfig) : ImageMetadata := {|
  im_id := "";
  im_entrypoint := f_entrypoint feature;
  im_base := empty_base;
  im_actions := {| a_onCreateCommand := ∅; a_updateContentCommand := ∅;
                   a_postCreateCommand := ∅; a_postStartCommand := ∅;
                   a_postAttachCommand := ∅;
                   a_customizations := f_customizations feature |};
  im_nonCompose := {| n_appPort := []; n_containerEnv := ∅; n_containerUser := "";
                      n_mounts := f_mounts feature; n_init := f_init feature;
                      n_privileged := f_privileged feature;
                      n_capAdd := f_capAdd feature; n_securityOpt := f_securityOpt feature;
                      n_runArgs := []; n_workspaceMount := "" |} |}.

(** [DevContainerConfigToImageMetadata] *)
Definition DevContainerConfigToImageMetadata (devConfig : DevContainerConfig)
    : ImageMetadata :=
  let b := dc_base devConfig in
  let n := dc_nonCompose devConfig in {|
  im_id := "";
  im_entrypoint := "";
  im_base := {|
    b_name := ""; b_features := ∅; b_overrideFeatureInstallOrder := [];
    b_forwardPorts := b_forwardPorts b; b_portsAttributes := b_portsAttributes b;
    b_otherPortsAttributes := b_otherPortsAttributes b;
    b_updateRemoteUserUID := b_updateRemoteUserUID b; b_remoteEnv := b_remoteEnv b;
    b_remoteUser := b_remoteUser b; b_initializeCommand := ∅;
    b_shutdownAction := b_shutdownAction b; b_waitFor := b_waitFor b;
    b_userEnvProbe := b_userEnvProbe b; b_hostRequirements := b_hostRequirements b;
    b_overrideCommand := b_overrideCommand b; b_workspaceFolder := "";
    b_settings := ∅; b_extensions := []; b_devPort := 0%Z |};
  im_actions := dc_actions devConfig;
  im_nonCompose := {|
    n_appPort := []; n_containerEnv := n_containerEnv n;
    n_containerUser := n_containerUser n; n_mounts := n_mounts n; n_init := n_init n;
    n_privileged := n_privileged n; n_capAdd := n_capAdd n;
    n_securityOpt := n_securityOpt n; n_runArgs := []; n_workspaceMount := "" |} |}.

Record SubstitutedConfig := {
  sc_config : DevContainerConfig;
  sc_raw : DevContainerConfig;
}.

Section Metadata.
(** [Substitute] on a metadata entry: the substitution of Substitute.v between
    an encoding and a decoding by encoding/json. *)
Context (substitute : ImageMetadata → result ImageMetadata).

Definition GetDevContainerMetadata (baseImageMetadata : ImageMetadataConfig)
    (devContainerConfig : SubstitutedConfig) (featuresConfig : list FeatureSet)
    : result ImageMetadataConfig :=
  let featuresRaw := (λ fs, FeatureConfigToImageMetadata (fs_config fs)) <$> featuresConfig in
  features ← mapR substitute featuresRaw;
  Ok {| imc_raw := imc_raw baseImageMetadata ++ featuresRaw ++
                   [DevContainerConfigToImageMetadata (sc_raw devContainerConfig)];
        imc_config := imc_config baseImageMetadata ++ features ++
                      [DevContainerConfigToImageMetadata (sc_config devContainerConfig)] |}%list.

(** [GetImageMetadata] and [GetImageMetadataFromContainer] on the label, with
    the decoders of a list and of a single entry. *)
Definition substituteConfig (raw : list ImageMetadata) : result ImageMetadataConfig :=
  cfg ← mapR substitute raw; Ok {| imc_raw := raw; imc_config := cfg |}.

Definition GetImageMetadata (multiple : string → option (list ImageMetadata))
    (single : string → option ImageMetadata) (label : option string)
    : result ImageMetadataConfig :=
  let label := default "" label in
  if decide (label = "") then Ok {| imc_raw := []; imc_config := [] |}
  else match multiple label with
       | Some l => substituteConfig l
       | None =>
           match single label with
           | Some m => substituteConfig [m]
           | None => Ok {| imc_raw := []; imc_config := [] |}
           end
       end.
End Metadata.
