(* ===== verification/Merge.v ===== *)
(** * pkg/devcontainer/config/merge.go

    Merging devcontainer.json with the metadata entries of the base image and
    of the features.  The entries come in the order of
    [GetDevContainerMetadata]: base image first, devcontainer.json last. *)

From S2P Require Import Prelude GoStrings Types DevContainer.
From stdpp Require Import base gmap sets list strings.
From Stdlib Require Import ZArith Lia.

Local Open Scope string_scope.

(** ** The helpers *)

(** [ReverseSlice] *)
Definition ReverseSlice {A} (s : list A) : list A := reverse s.

Definition some {A} (entries : list A) (m : A → option bool) : option bool :=
  foldr (λ e r, match m e with Some b => Some b | None => r end) None entries.

Definition firstString {A} (entries : list A) (m : A → string) : string :=
  foldr (λ e r, if decide (m e ≠ "") then m e else r) "" entries.

(** [mergeOtherPortsAttributes] and [mergeHostRequirements] *)
Definition firstPtr {A B} (entries : list A) (m : A → option B) : option B :=
  foldr (λ e r, match m e with Some x => Some x | None => r end) None entries.
Definition mergeOtherPortsAttributes (entries : list ImageMetadata) : option PortAttribute :=
  firstPtr entries (λ e, b_otherPortsAttributes (im_base e)).
Definition mergeHostRequirements (entries : list ImageMetadata) : option HostRequirements :=
  firstPtr entries (λ e, b_hostRequirements (im_base e)).

(** A later entry overwrites an earlier one. *)
Definition mergeMaps {A K} (entries : list A) (m : A → gmap string K) : gmap string K :=
  foldl (λ ret e, m e ∪ ret) ∅ entries.

(** The loop of [unique] and of the two functions below: an element is kept
    unless its key was seen. *)
Fixpoint keep_new {A} (key : A → string) (seen : gset string) (l : list A) : list A :=
  match l with
  | [] => []
  | x :: l' =>
      if decide (key x ∈ seen) then keep_new key seen l'
      else x :: keep_new key ({[key x]} ∪ seen) l'
  end.

Definition unique (s : list string) : list string := keep_new id ∅ s.

Definition unionOrNil {A T} (entries : list A) (m : A → list T) : list T := entries ≫= m.

Definition collectOrNil {A} (entries : list A) (m : A → string) : list string :=
  filter (λ s, s ≠ "") (m <$> entries).

Definition mergeLifestyleHooks {A} (entries : list A) (m : A → LifecycleHook)
    : list LifecycleHook :=
  filter (λ h, size h ≠ 0) (m <$> entries).

(** A number and the number on localhost are the same port. *)
Definition port_key (port : string) : string :=
  if Atoi port then "localhost:" +:+ port else port.
Definition mergeForwardPorts (entries : list ImageMetadata) : list string :=
  keep_new port_key ∅ (entries ≫= λ e, b_forwardPorts (im_base e)).

Definition mergeMounts (entries : list ImageMetadata) : list Mount :=
  ReverseSlice (keep_new mount_target ∅
    (ReverseSlice entries ≫= λ e, n_mounts (im_nonCompose e))).

(** [customizations[k] = append(customizations[k], v)] over all entries. *)
Definition add_customizations (c : gmap string (list json)) (e : ImageMetadata)
    : gmap string (list json) :=
  merge (λ old new, match old, new with
                    | Some l, Some v => Some (l ++ [v])
                    | None, Some v => Some [v]
                    | _, None => old
                    end)%list c (a_customizations (im_actions e)).
Definition merge_customizations (entries : list ImageMetadata) : gmap string (list json) :=
  foldl add_customizations ∅ entries.

(** ** MergeConfiguration *)

Definition MergeConfiguration (config : DevContainerConfig)
    (imageMetadataEntries : list ImageMetadata) : result MergedDevContainerConfig :=
  let reversed := ReverseSlice imageMetadataEntries in
  let b := dc_base config in
  let n := dc_nonCompose config in
  Ok {|
    mc_base := {|
      b_name := b_name b; b_features := b_features b;
      b_overrideFeatureInstallOrder := b_overrideFeatureInstallOrder b;
      b_forwardPorts := mergeForwardPorts reversed;
      b_portsAttributes := mergeMaps reversed (λ e, b_portsAttributes (im_base e));
      b_otherPortsAttributes := mergeOtherPortsAttributes reversed;
      b_updateRemoteUserUID := some reversed (λ e, b_updateRemoteUserUID (im_base e));
      b_remoteEnv := mergeMaps reversed (λ e, b_remoteEnv (im_base e));
      b_remoteUser := firstString reversed (λ e, b_remoteUser (im_base e));
      b_initializeCommand := b_initializeCommand b;
      b_shutdownAction := firstString reversed (λ e, b_shutdownAction (im_base e));
      b_waitFor := firstString reversed (λ e, b_waitFor (im_base e));
      b_userEnvProbe := firstString reversed (λ e, b_userEnvProbe (im_base e));
      b_hostRequirements := mergeHostRequirements reversed;
      b_overrideCommand := some reversed (λ e, b_overrideCommand (im_base e));
      b_workspaceFolder := b_workspaceFolder b;
      b_settings := b_settings b; b_extensions := b_extensions b;
      b_devPort := b_devPort b |};
    mc_updated := {|
      u_entrypoints := collectOrNil reversed im_entrypoint;
      u_onCreateCommands :=
        mergeLifestyleHooks reversed (λ e, a_onCreateCommand (im_actions e));
      u_updateContentCommands :=
        mergeLifestyleHooks reversed (λ e, a_updateContentCommand (im_actions e));
      u_postCreateCommands :=
        mergeLifestyleHooks reversed (λ e, a_postCreateCommand (im_actions e));
      u_postStartCommands :=
        mergeLifestyleHooks reversed (λ e, a_postStartCommand (im_actions e));
      u_postAttachCommands :=
        mergeLifestyleHooks reversed (λ e, a_postAttachCommand (im_actions e));
      u_customizations := merge_customizations imageMetadataEntries |};
    mc_nonCompose := {|
      n_appPort := n_appPort n;
      n_containerEnv := mergeMaps reversed (λ e, n_containerEnv (im_nonCompose e));
      n_containerUser := firstString reversed (λ e, n_containerUser (im_nonCompose e));
      n_mounts := mergeMounts reversed;
      n_init := some reversed (λ e, n_init (im_nonCompose e));
      n_privileged := some reversed (λ e, n_privileged (im_nonCompose e));
      n_capAdd := unique (unionOrNil reversed (λ e, n_capAdd (im_nonCompose e)));
      n_securityOpt := unique (unionOrNil reversed (λ e, n_securityOpt (im_nonCompose e)));
      n_runArgs := n_runArgs n; n_workspaceMount := n_workspaceMount n |};
    mc_image := dc_image config;
    mc_compose := dc_compose config;
    mc_dockerfile := dc_dockerfile config;
    mc_containerID := "";
    mc_origin := "" |}.

(** * Properties of mounts and of merging *)

(** ** Keeping first occurrences *)

Lemma keep_new_subset {A} (key : A → string) l : ∀ seen x,
  x ∈ keep_new key seen l → x ∈ l ∧ key x ∉ seen.
Proof.
  induction l as [|y l IH]; intros seen x; cbn; [set_solver|].
  case_decide as Hy; [set_solver|].
  intros [->|Hx]%elem_of_cons; [set_solver|]. apply IH in Hx. set_solver.
Qed.

Lemma keep_new_NoDup {A} (key : A → string) l : ∀ seen,
  NoDup (key <$> keep_new key seen l).
Proof.
  induction l as [|y l IH]; intros seen; cbn; [constructor|].
  case_decide; [apply IH|]. cbn. constructor; [|apply IH].
  intros (x & Hk & Hx)%list_elem_of_fmap. apply keep_new_subset in Hx as [_ Hx].
  set_solver.
Qed.

(** Every key is kept, with the first element that has it. *)
Lemma keep_new_first {A} (key : A → string) l : ∀ seen i x,
  l !! i = Some x → key x ∉ seen →
  (∀ j y, (j < i)%nat → l !! j = Some y → key y ≠ key x) →
  x ∈ keep_new key seen l.
Proof.
  induction l as [|y l IH]; intros seen i x Hi Hs Hf; [done|]. cbn.
  destruct i as [|i]; cbn in Hi.
  - simplify_eq. rewrite decide_False by done. left.
  - assert (key y ≠ key x) by (apply (Hf 0 y); [lia|done]).
    assert (∀ j z, (j < i)%nat → l !! j = Some z → key z ≠ key x)
      by (intros j z Hj Hz; apply (Hf (S j) z); [lia|done]).
    case_decide; [by eapply IH|]. right. eapply IH; [done|set_solver|done].
Qed.

Lemma keep_new_keys {A} (key : A → string) l : ∀ seen k,
  k ∈ key <$> keep_new key seen l ↔ k ∈ key <$> l ∧ k ∉ seen.
Proof.
  induction l as [|y l IH]; intros seen k; cbn; [set_solver|].
  case_decide as Hy; cbn; rewrite ?elem_of_cons, IH; [set_solver|].
  destruct (decide (k = key y)) as [->|]; set_solver.
Qed.

(** ** Choosing among the entries *)

Lemma firstString_last {A} (entries : list A) e (m : A → string) :
  firstString (ReverseSlice (entries ++ [e])) m =
  if decide (m e ≠ "") then m e else firstString (ReverseSlice entries) m.
Proof. unfold ReverseSlice. by rewrite reverse_snoc. Qed.

Lemma some_last {A} (entries : list A) e (m : A → option bool) :
  some (ReverseSlice (entries ++ [e])) m =
  match m e with Some b => Some b | None => some (ReverseSlice entries) m end.
Proof. unfold ReverseSlice. by rewrite reverse_snoc. Qed.

Lemma firstPtr_last {A B} (entries : list A) e (m : A → option B) :
  firstPtr (ReverseSlice (entries ++ [e])) m =
  match m e with Some b => Some b | None => firstPtr (ReverseSlice entries) m end.
Proof. unfold ReverseSlice. by rewrite reverse_snoc. Qed.

Lemma mergeMaps_first {A K} (entries : list A) (m : A → gmap string K) k :
  mergeMaps (ReverseSlice entries) m !! k = firstPtr entries (λ e, m e !! k).
Proof.
  unfold mergeMaps, ReverseSlice. induction entries as [|e l IH]; [done|].
  rewrite reverse_cons, foldl_app. cbn [foldl]. rewrite lookup_union, IH.
  unfold firstPtr. cbn [foldr].
  destruct (m e !! k), (foldr _ None l); reflexivity.
Qed.

(** ** The properties *)

(** scalar settings of devcontainer.json win.  For the metadata built by
    [GetDevContainerMetadata], a user, flag or requirement that
    devcontainer.json sets is the merged one; what it leaves out comes from
    the last feature or base image entry that sets it. *)
Theorem merge_scalars_devcontainer_wins substitute base sc features md merged :
  GetDevContainerMetadata substitute base sc features = Ok md →
  MergeConfiguration (sc_config sc) (imc_config md) = Ok merged →
  let c := sc_config sc in
  let below := ReverseSlice (take (length (imc_config md) - 1) (imc_config md)) in
  let pick v m := if decide (v ≠ "") then v else firstString below m in
  let pickb (o : option bool) m :=
    match o with Some b => Some b | None => some below m end in
  b_remoteUser (mc_base merged) =
    pick (b_remoteUser (dc_base c)) (λ e, b_remoteUser (im_base e)) ∧
  n_containerUser (mc_nonCompose merged) =
    pick (n_containerUser (dc_nonCompose c)) (λ e, n_containerUser (im_nonCompose e)) ∧
  b_waitFor (mc_base merged) =
    pick (b_waitFor (dc_base c)) (λ e, b_waitFor (im_base e)) ∧
  n_init (mc_nonCompose merged) =
    pickb (n_init (dc_nonCompose c)) (λ e, n_init (im_nonCompose e)) ∧
  n_privileged (mc_nonCompose merged) =
    pickb (n_privileged (dc_nonCompose c)) (λ e, n_privileged (im_nonCompose e)) ∧
  b_overrideCommand (mc_base merged) =
    pickb (b_overrideCommand (dc_base c)) (λ e, b_overrideCommand (im_base e)) ∧
  b_hostRequirements (mc_base merged) =
    match b_hostRequirements (dc_base c) with
    | Some r => Some r
    | None => firstPtr below (λ e, b_hostRequirements (im_base e))
    end.
Proof.
  intros (fs & _ & [= <-])%bind_Ok [= <-]. cbv zeta. cbn [imc_config].
  rewrite app_assoc, length_app. cbn [length].
  rewrite Nat.add_sub, take_app_length.
  cbn [mc_base mc_nonCompose b_remoteUser n_containerUser b_waitFor n_init n_privileged
       b_overrideCommand b_hostRequirements].
  unfold mergeHostRequirements.
  rewrite !firstString_last, !some_last, !firstPtr_last. done.
Qed.

(** in the maps (environments and port attributes) it is the other way
    round: a variable has the value of the first entry that sets it, so the
    base image overrides devcontainer.json. *)
Theorem merge_env_first_entry_wins config entries merged k :
  MergeConfiguration config entries = Ok merged →
  b_remoteEnv (mc_base merged) !! k =
    firstPtr entries (λ e, b_remoteEnv (im_base e) !! k) ∧
  n_containerEnv (mc_nonCompose merged) !! k =
    firstPtr entries (λ e, n_containerEnv (im_nonCompose e) !! k) ∧
  b_portsAttributes (mc_base merged) !! k =
    firstPtr entries (λ e, b_portsAttributes (im_base e) !! k).
Proof. intros [= <-]. cbn. by rewrite !mergeMaps_first. Qed.

(** merged mounts do not collide and none is forgotten: the targets are
    pairwise different, are exactly the targets of all entries, and every
    merged mount is the first one declared for its target. *)
Theorem merge_mounts config entries merged :
  MergeConfiguration config entries = Ok merged →
  let declared := entries ≫= λ e, n_mounts (im_nonCompose e) in
  let mounts := n_mounts (mc_nonCompose merged) in
  NoDup (mount_target <$> mounts) ∧
  (∀ t, t ∈ mount_target <$> mounts ↔ t ∈ mount_target <$> declared) ∧
  ∀ i m, declared !! i = Some m →
    (∀ j m', (j < i)%nat → declared !! j = Some m' → mount_target m' ≠ mount_target m) →
    m ∈ mounts.
Proof.
  intros [= <-]. cbn. unfold mergeMounts, ReverseSlice. rewrite reverse_involutive.
  set (declared := entries ≫= _). rewrite fmap_reverse. split_and!.
  - rewrite reverse_Permutation. apply keep_new_NoDup.
  - intros t. rewrite elem_of_reverse, keep_new_keys. set_solver.
  - intros i m Hi Hf. rewrite elem_of_reverse.
    eapply keep_new_first; [done|set_solver|done].
Qed.

(** capabilities and security options are the union of all entries,
    without duplicates. *)
Theorem merge_capabilities config entries merged :
  MergeConfiguration config entries = Ok merged →
  NoDup (n_capAdd (mc_nonCompose merged)) ∧
  NoDup (n_securityOpt (mc_nonCompose merged)) ∧
  (∀ c, c ∈ n_capAdd (mc_nonCompose merged) ↔
        ∃ e, e ∈ entries ∧ c ∈ n_capAdd (im_nonCompose e)) ∧
  (∀ c, c ∈ n_securityOpt (mc_nonCompose merged) ↔
        ∃ e, e ∈ entries ∧ c ∈ n_securityOpt (im_nonCompose e)).
Proof.
  assert (∀ l : list string, NoDup (unique l) ∧ ∀ c, c ∈ unique l ↔ c ∈ l) as Hu.
  { intros l. unfold unique. pose proof (keep_new_NoDup id l ∅) as Hn.
    pose proof (keep_new_keys id l ∅) as Hk. rewrite list_fmap_id in Hn.
    split; [done|]. intros c. specialize (Hk c). rewrite !list_fmap_id in Hk. set_solver. }
  intros [= <-]. cbn. split_and!; [apply Hu|apply Hu|..]; intros c;
    rewrite (proj2 (Hu _)); unfold unionOrNil; rewrite list_elem_of_bind;
    unfold ReverseSlice; setoid_rewrite elem_of_reverse; naive_solver.
Qed.

(** forwarded ports are listed once, also when one entry gives the number
    and another the number on localhost, and none is dropped. *)
Theorem merge_forward_ports config entries merged :
  MergeConfiguration config entries = Ok merged →
  NoDup (port_key <$> b_forwardPorts (mc_base merged)) ∧
  ∀ e p, e ∈ entries → p ∈ b_forwardPorts (im_base e) →
    port_key p ∈ port_key <$> b_forwardPorts (mc_base merged).
Proof.
  intros [= <-]. cbn. unfold mergeForwardPorts, ReverseSlice. split.
  - apply keep_new_NoDup.
  - intros e p He Hp. apply keep_new_keys. split; [|set_solver].
    apply list_elem_of_fmap_2, list_elem_of_bind. exists e.
    by rewrite elem_of_reverse.
Qed.

(** ** Mounts *)

Lemma mount_components_app l1 l2 : ∀ m,
  mount_components m (l1 ++ l2) =
  m' ← mount_components m l1; mount_components m' l2.
Proof.
  induction l1 as [|x l1 IH]; intros m; [done|]. cbn.
  destruct (mount_component m x); cbn; [apply IH|done..].
Qed.

Lemma Split_flag key v :
  free "=" key = true → free "=" v = true → Split "=" (key +:+ "=" +:+ v) = [key; v].
Proof.
  intros Hk Hv. apply (Split_Join "=" [key; v]); [done|].
  intros p [->|[->|[]%not_elem_of_nil]%elem_of_cons]%elem_of_cons; done.
Qed.

(** The keys [ParseMount] knows. *)
Definition mount_keys : list string :=
  ["src"; "source"; "dst"; "destination"; "target"; "type"; "external"].

(** A mount whose text can be read back: the values contain no separator, a
    target is given, and no other option starts with a known key. *)
Record printable (m : Mount) : Prop := {
  pr_type : free "," (mount_type m) = true ∧ free "=" (mount_type m) = true;
  pr_source : free "," (mount_source m) = true ∧ free "=" (mount_source m) = true;
  pr_target : free "," (mount_target m) = true ∧ free "=" (mount_target m) = true;
  pr_given : mount_target m ≠ "";
  pr_other : ∀ o, o ∈ mount_other m → free "," o = true ∧
               default "" (Split "=" o !! 0) ∉ mount_keys;
}.

Lemma mount_others l : ∀ m,
  (∀ o, o ∈ l → default "" (Split "=" o !! 0) ∉ mount_keys) →
  mount_components m l =
  Ok {| mount_type := mount_type m; mount_source := mount_source m;
        mount_target := mount_target m; mount_external := mount_external m;
        mount_other := mount_other m ++ l |}%list.
Proof.
  induction l as [|o l IH]; intros m Ho; cbn.
  { rewrite app_nil_r. by destruct m. }
  assert (default "" (Split "=" o !! 0) ∉ mount_keys) as Hk by (apply Ho; left).
  unfold mount_component. revert Hk. generalize (default "" (Split "=" o !! 0)) as key.
  intros key Hk. unfold mount_keys in Hk.
  rewrite !bool_decide_eq_false_2 by set_solver. cbn.
  rewrite IH by (intros; apply Ho; by right). cbn. by rewrite <-app_assoc.
Qed.

Lemma mount_flags m : printable m →
  mount_components empty_mount
    (flag "type" (mount_type m) ++ flag "src" (mount_source m) ++
     flag "dst" (mount_target m) ++
     (if mount_external m then ["external=" +:+ FormatBool (mount_external m)] else []))
  = Ok {| mount_type := mount_type m; mount_source := mount_source m;
          mount_target := mount_target m; mount_external := mount_external m;
          mount_other := [] |}.
Proof.
  intros [[_ Ht] [_ Hs] [_ Hd] Hg _]. unfold flag.
  assert (∀ m0 (l : list string) v k f,
    (v ≠ "" → free "=" v = true) →
    (v ≠ "" → mount_component m0 (k +:+ "=" +:+ v) = Ok (f v)) → (v = "" → f v = m0) →
    mount_components m0
      ((if decide (v = "") then [] else [k +:+ "=" +:+ v]) ++ l) =
    mount_components (f v) l) as Hstep.
  { intros m0 l v k f _ Hne He. case_decide as Hv; cbn [app mount_components];
      [by rewrite (He Hv)|]. by rewrite (Hne Hv). }
  rewrite (Hstep _ _ _ "type" (λ v, {| mount_type := v; mount_source := "";
    mount_target := ""; mount_external := false; mount_other := [] |}));
    [|done|intros _; unfold mount_component; by rewrite Split_flag|by intros ->].
  rewrite (Hstep _ _ _ "src" (λ v, {| mount_type := mount_type m; mount_source := v;
    mount_target := ""; mount_external := false; mount_other := [] |}));
    [|done|intros _; unfold mount_component; by rewrite Split_flag|by intros ->].
  rewrite (Hstep _ _ _ "dst" (λ v, {| mount_type := mount_type m;
    mount_source := mount_source m; mount_target := v; mount_external := false;
    mount_other := [] |}));
    [|done|intros _; unfold mount_component; by rewrite Split_flag|by intros ->].
  by destruct (mount_external m).
Qed.

(** [ParseMount] reads back what [Mount.String] prints, for mounts whose
    parts contain no separators. *)
Theorem ParseMount_String m : printable m → ParseMount (Mount_String m) = Ok m.
Proof.
  intros Hp. unfold ParseMount, Mount_String.
  rewrite (Split_Join ",").
  - rewrite !app_assoc, mount_components_app, <-!app_assoc, mount_flags by done.
    cbn. rewrite mount_others by (intros; by apply Hp). by destruct m.
  - unfold flag. rewrite (decide_False (P := mount_target m = "")) by apply Hp.
    intros Hnil. apply app_nil in Hnil as [_ Hnil].
    by apply app_nil in Hnil as [_ Hnil].
  - destruct Hp as [[Ht _] [Hs _] [Hd _] _ Ho].
    assert (∀ k v p, free "," k = true → free "," v = true → p ∈ flag k v →
              free "," p = true) as Hf.
    { intros k v p Hk Hv. unfold flag. case_decide; [set_solver|].
      intros ->%list_elem_of_singleton. unfold free in *.
      by rewrite !sforall_app, Hk, Hv. }
    intros p. rewrite !elem_of_app.
    intros [Hp|[Hp|[Hp|[Hp|Hp]]]];
      [by apply (Hf "type" (mount_type m))|by apply (Hf "src" (mount_source m))
      |by apply (Hf "dst" (mount_target m))| |by apply Ho].
    destruct (mount_external m); [|set_solver].
    by apply list_elem_of_singleton in Hp as ->.
Qed.

Definition demo_mount : Mount := {|
  mount_type := "bind"; mount_source := "/src"; mount_target := "/workspaces/app";
  mount_external := true; mount_other := ["consistency=cached"] |}.

Lemma ParseMount_String_witness :
  ParseMount "type=bind,src=/src,dst=/workspaces/app,external=true,consistency=cached"
  = Ok demo_mount.
Proof.
  apply (ParseMount_String demo_mount). split; try done.
  intros o ->%list_elem_of_singleton. split; [done|]. vm_compute. 
  intros H. repeat (inversion H as [|? ? ? H' E]; subst; clear H; rename H' into H).
Defined.

(** A component that is only a key makes [ParseMount] panic. *)
Example ParseMount_panics : ParseMount "type=bind,src" = Panic.
Proof. by vm_compute. Qed.

(** ** A concrete merge *)

Definition demo_metadata (user : string) (env : gmap string string) (mounts : list Mount)
    : ImageMetadata := {|
  im_id := ""; im_entrypoint := "";
  im_base := {|
    b_name := ""; b_features := ∅; b_overrideFeatureInstallOrder := [];
    b_forwardPorts := ["8080"]; b_portsAttributes := ∅; b_otherPortsAttributes := None;
    b_updateRemoteUserUID := None; b_remoteEnv := env; b_remoteUser := user;
    b_initializeCommand := ∅; b_shutdownAction := ""; b_waitFor := "";
    b_userEnvProbe := ""; b_hostRequirements := None; b_overrideCommand := None;
    b_workspaceFolder := ""; b_settings := ∅; b_extensions := []; b_devPort := 0%Z |};
  im_actions := {| a_onCreateCommand := ∅; a_updateContentCommand := ∅;
    a_postCreateCommand := ∅; a_postStartCommand := ∅; a_postAttachCommand := ∅;
    a_customizations := ∅ |};
  im_nonCompose := {| n_appPort := []; n_containerEnv := ∅; n_containerUser := "";
    n_mounts := mounts; n_init := None; n_privileged := Some true;
    n_capAdd := ["SYS_PTRACE"]; n_securityOpt := []; n_runArgs := [];
    n_workspaceMount := "" |} |}.

Definition demo_config (user : string) (env : gmap string string) : DevContainerConfig :=
  let m := demo_metadata user env [] in {|
  dc_base := im_base m; dc_actions := im_actions m; dc_nonCompose := im_nonCompose m;
  dc_image := "image"; dc_compose := {| cc_dockerComposeFile := []; cc_service := "";
  cc_runServices := [] |};
  dc_dockerfile := {| df_dockerfile := ""; df_context := ""; df_build := None |};
  dc_containerID := ""; dc_origin := "" |}.

Definition demo_image : ImageMetadataConfig :=
  let m := demo_metadata "vscode" {[ "PATH" := "/usr/bin" ]} [demo_mount] in
  {| imc_raw := [m]; imc_config := [m] |}.
Definition demo_substituted : SubstitutedConfig :=
  let c := demo_config "root" {[ "PATH" := "/opt/bin" ]} in
  {| sc_config := c; sc_raw := c |}.
Definition demo_md : ImageMetadataConfig :=
  default demo_image (match GetDevContainerMetadata Ok demo_image demo_substituted [] with
                      | Ok md => Some md | _ => None end).
Definition demo_merged : MergedDevContainerConfig :=
  match MergeConfiguration (sc_config demo_substituted) (imc_config demo_md) with
  | Ok m => m
  | _ => {| mc_base := empty_base; mc_updated := {| u_entrypoints := [];
      u_onCreateCommands := []; u_updateContentCommands := []; u_postCreateCommands := [];
      u_postStartCommands := []; u_postAttachCommands := []; u_customizations := ∅ |};
      mc_nonCompose := im_nonCompose (demo_metadata "" ∅ []); mc_image := "";
      mc_compose := dc_compose (demo_config "" ∅);
      mc_dockerfile := dc_dockerfile (demo_config "" ∅); mc_containerID := "";
      mc_origin := "" |}
  end.

Lemma merge_scalars_devcontainer_wins_witness :
  b_remoteUser (mc_base demo_merged) = "root".
Proof.
  exact (proj1 (merge_scalars_devcontainer_wins Ok demo_image demo_substituted []
    demo_md demo_merged eq_refl eq_refl)).
Defined.

Lemma merge_env_first_entry_wins_witness :
  b_remoteEnv (mc_base demo_merged) !! "PATH" = Some "/usr/bin".
Proof.
  exact (proj1 (merge_env_first_entry_wins (sc_config demo_substituted)
    (imc_config demo_md) demo_merged "PATH" eq_refl)).
Defined.

Lemma merge_mounts_witness : demo_mount ∈ n_mounts (mc_nonCompose demo_merged).
Proof.
  apply (proj2 (proj2 (merge_mounts (sc_config demo_substituted) (imc_config demo_md)
    demo_merged eq_refl)) 0); [done|]. intros j m' Hj. lia.
Defined.

Lemma merge_capabilities_witness : NoDup (n_capAdd (mc_nonCompose demo_merged)).
Proof.
  exact (proj1 (merge_capabilities (sc_config demo_substituted) (imc_config demo_md)
    demo_merged eq_refl)).
Defined.

Lemma merge_forward_ports_witness :
  NoDup (port_key <$> b_forwardPorts (mc_base demo_merged)).
Proof.
  exact (proj1 (merge_forward_ports (sc_config demo_substituted) (imc_config demo_md)
    demo_merged eq_refl)).
Defined.
