(* ===== verification/Substitute.v ===== *)
(** * pkg/devcontainer/config/substitute.go

    Variables of devcontainer.json.  [Substitute] works on the decoded JSON
    document of a configuration; the conversion between a configuration and
    its document is encoding/json's. *)

From S2P Require Import Prelude GoStrings GoRegexp Types.
From stdpp Require Import base gmap sets list strings.
From Stdlib Require Import Lia.

Local Open Scope string_scope.

(** [\${(.*?)}]; the dot does not match a newline. *)
Definition not_newline (c : ascii) : bool := negb (bool_decide (c = "010"%char)).
Definition VariableRegExp : re :=
  Cat (lit "${") (Cat (Grp 1 (Star false (Chr not_newline))) (lit "}")).

Record SubstitutionContext := {
  ctx_devContainerID : string;
  ctx_localWorkspaceFolder : string;
  ctx_containerWorkspaceFolder : string;
  ctx_env : gmap string string;
  ctx_workspaceMount : string;
}.

(** [filepath.Base] with slashes. *)
Definition is_slash (c : ascii) : bool := bool_decide (c = "/"%char).
Definition filepath_Base (path : string) : string :=
  if decide (path = "") then "."
  else
    let p := trim_right is_slash path in
    if decide (p = "") then "/" else default p (after_last "/" p).

(** [match[2 : len(match)-1]] *)
Definition inner (m : string) : string := stake (String.length m - 3) (sdrop 2 m).

Definition ReplaceFunction : Type := string → string → list string → string.

Definition ResolveString (val : string) (replace : ReplaceFunction) : string :=
  ReplaceAllFunc VariableRegExp val (λ m _,
    match Split ":" (inner m) with
    | variable :: ((_ :: _) as args) => replace m variable args
    | _ => replace m (inner m) []
    end).

Definition lookupValue (isWindows : bool) (env : gmap string string)
    (args : list string) (m : string) : string :=
  match args with
  | [] => m
  | name :: rest =>
      let name := if isWindows then ToLower name else name in
      match env !! name with
      | Some v => v
      | None => match rest with d :: _ => d | [] => "" end
      end
  end.

Definition replaceWithContainerEnv (containerEnv : gmap string string) : ReplaceFunction :=
  λ m variable args,
    if decide (variable = "containerEnv") then lookupValue false containerEnv args m
    else m.

Definition or_match (v m : string) (f : string → string) : string :=
  if decide (v = "") then m else f v.

Definition replaceWithContext (isWindows : bool) (ctx : SubstitutionContext)
    : ReplaceFunction :=
  λ m variable args,
    if decide (variable = "devcontainerId") then or_match (ctx_devContainerID ctx) m id
    else if decide (variable = "env" ∨ variable = "localEnv") then
      lookupValue isWindows (ctx_env ctx) args m
    else if decide (variable = "localWorkspaceFolder") then
      or_match (ctx_localWorkspaceFolder ctx) m id
    else if decide (variable = "localWorkspaceFolderBasename") then
      or_match (ctx_localWorkspaceFolder ctx) m filepath_Base
    else if decide (variable = "containerWorkspaceFolder") then
      or_match (ctx_containerWorkspaceFolder ctx) m id
    else if decide (variable = "containerWorkspaceFolderBasename") then
      or_match (ctx_containerWorkspaceFolder ctx) m filepath_Base
    else m.

(** [substitute0]: strings everywhere in the document, but not its keys. *)
Fixpoint substitute0 (replace : ReplaceFunction) (val : json) : json :=
  match val with
  | JStr s => JStr (ResolveString s replace)
  | JArr l => JArr (substitute0 replace <$> l)
  | JObj m => JObj ((λ kv, (kv.1, substitute0 replace kv.2)) <$> m)
  | _ => val
  end.

(** [Substitute] on a document; the container folder of the context is
    resolved first and stays resolved in the caller's context.  On Windows
    the names of the environment are folded to lower case (which of two names
    that differ only in case wins is not determined). *)
Definition fold_env (isWindows : bool) (env : gmap string string) : gmap string string :=
  if isWindows then list_to_map ((λ kv, (ToLower kv.1, kv.2)) <$> map_to_list env)
  else env.

Definition with_env (ctx : SubstitutionContext) (env : gmap string string) := {|
  ctx_devContainerID := ctx_devContainerID ctx;
  ctx_localWorkspaceFolder := ctx_localWorkspaceFolder ctx;
  ctx_containerWorkspaceFolder := ctx_containerWorkspaceFolder ctx;
  ctx_env := env; ctx_workspaceMount := ctx_workspaceMount ctx |}.
Definition with_container_folder (ctx : SubstitutionContext) (folder : string) := {|
  ctx_devContainerID := ctx_devContainerID ctx;
  ctx_localWorkspaceFolder := ctx_localWorkspaceFolder ctx;
  ctx_containerWorkspaceFolder := folder;
  ctx_env := ctx_env ctx; ctx_workspaceMount := ctx_workspaceMount ctx |}.

Definition Substitute (isWindows : bool) (ctx : SubstitutionContext) (config : json)
    : json * SubstitutionContext :=
  let ctx := with_env ctx (fold_env isWindows (ctx_env ctx)) in
  let ctx :=
    if decide (ctx_containerWorkspaceFolder ctx = "") then ctx
    else with_container_folder ctx
           (ResolveString (ctx_containerWorkspaceFolder ctx)
              (replaceWithContext isWindows ctx)) in
  (substitute0 (replaceWithContext isWindows ctx) config, ctx).

Definition SubstituteContainerEnv (containerEnv : gmap string string) (config : json)
    : json :=
  substitute0 (replaceWithContainerEnv containerEnv) config.

(** ** Environments as lists *)

(** [ObjectToList], in the order of [keys] in which the map is visited. *)
Definition ObjectToList (object : list (string * string)) : list string :=
  (λ kv, kv.1 +:+ "=" +:+ kv.2) <$> object.

Definition list_entry (ret : gmap string string) (l : string) : gmap string string :=
  match Split "=" l with
  | k :: ((_ :: _) as vs) => <[k := GoStrings.Join vs "="]> ret
  | _ => ret
  end.
Definition ListToObject (l : list string) : gmap string string := foldl list_entry ∅ l.

(** * Properties of variable substitution *)

(** ** The first variable of a text *)

(** A lazy star stops at the first [c]. *)
Lemma lazy_until {X} (p : ascii → bool) c (k : option ascii → string → caps → option X) b y :
  (∀ x prev s cs, x ≠ c → k prev (String x s) cs = None) →
  ∀ v fuel prev cs,
  sforall p v = true → free c v = true → (String.length v ≤ fuel)%nat →
  (∀ prev', k prev' (String c b) cs = Some y) →
  star_loop false (rmatch (Chr p)) k fuel prev (v +:+ String c b) cs = Some y.
Proof.
  intros Hk v. induction v as [|x v IH]; intros fuel prev cs Hp Hf Hl Hy.
  { destruct fuel; cbn; by rewrite Hy. }
  apply free_cons in Hf as [Hx Hf]. cbn in Hp. apply andb_true_iff in Hp as [Hpx Hp].
  destruct fuel as [|fuel]; cbn in Hl; [lia|].
  cbn [star_loop]. rewrite sapp_cons, Hk by done. cbn [rmatch]. rewrite Hpx.
  rewrite (proj2 (Nat.ltb_lt _ _)) by (cbn [String.length]; lia).
  apply IH; [done|done|lia|done].
Qed.

Definition variable_text (v : string) : string := "${" +:+ v +:+ "}".

Lemma match_variable prev v b :
  free "}" v = true → sforall not_newline v = true →
  ∃ p' cs, match_here VariableRegExp prev (variable_text v +:+ b) = Some (p', b, cs).
Proof.
  intros Hv Hn. unfold match_here, variable_text, VariableRegExp.
  rewrite !sapp_assoc. cbn [String.append]. unfold lit, chr. cbn [rmatch].
  rewrite !bool_decide_eq_true_2 by done.
  eexists _, _. apply lazy_until; try done.
  - intros x q s cs Hx. cbn. by rewrite bool_decide_eq_false_2.
  - rewrite slength_app. lia.
Qed.

Lemma match_needs_dollar prev c s :
  c ≠ "$"%char → match_here VariableRegExp prev (String c s) = None.
Proof.
  intros Hc. unfold match_here, VariableRegExp. cbn.
  by rewrite bool_decide_eq_false_2.
Qed.

Lemma find_variable a v b : ∀ prev,
  free "$" a = true → free "}" v = true → sforall not_newline v = true →
  ∃ m, find_from VariableRegExp prev (a +:+ variable_text v +:+ b) = Some m ∧
    m_before m = a ∧ m_text m = variable_text v ∧ m_after m = b.
Proof.
  induction a as [|c a IH]; intros prev Ha Hv Hn.
  - destruct (match_variable prev v b Hv Hn) as (p' & cs & Hm).
    change ("" +:+ variable_text v +:+ b) with (variable_text v +:+ b).
    rewrite (find_from_here _ _ _ _ _ _ Hm). eexists.
    split; [done|]. cbn [m_before m_text m_after]. by rewrite consumed_app.
  - apply free_cons in Ha as [Hc Ha]. rewrite sapp_cons. cbn [find_from].
    rewrite match_needs_dollar by done.
    destruct (IH (Some c) Ha Hv Hn) as (m & -> & <- & <- & <-). cbn. by eexists.
Qed.

Lemma find_variable_none s : ∀ prev,
  free "$" s = true → find_from VariableRegExp prev s = None.
Proof.
  induction s as [|c s IH]; intros prev Hs; [done|].
  apply free_cons in Hs as [Hc Hs]. cbn [find_from].
  rewrite match_needs_dollar by done. by rewrite IH.
Qed.

Lemma inner_variable v : inner (variable_text v) = v.
Proof.
  unfold inner, variable_text. rewrite !slength_app. cbn [String.length].
  replace (2 + (String.length v + 1) - 3)%nat with (String.length v) by lia.
  rewrite (sdrop_app "${"). apply stake_app.
Qed.

(** How a variable is passed on: its name and the arguments behind colons. *)
Definition resolve_variable (replace : ReplaceFunction) (v : string) : string :=
  match Split ":" v with
  | name :: ((_ :: _) as args) => replace (variable_text v) name args
  | _ => replace (variable_text v) v []
  end.

Lemma ResolveString_literal s f : free "$" s = true → ResolveString s f = s.
Proof. intros Hs. by apply ReplaceAllFunc_none, find_variable_none. Qed.

Lemma ResolveString_step a v b f :
  free "$" a = true → free "}" v = true → sforall not_newline v = true →
  ResolveString (a +:+ variable_text v +:+ b) f =
  a +:+ resolve_variable f v +:+ ResolveString b f.
Proof.
  intros Ha Hv Hn.
  destruct (find_variable a v b None Ha Hv Hn) as (m & Hf & <- & Ht & <-).
  unfold ResolveString. rewrite (ReplaceAllFunc_step _ _ _ m); [|done|done|by rewrite Ht].
  unfold resolve_variable. by rewrite Ht, inner_variable.
Qed.

(** [ResolveString] replaces variables from left to right and nothing
    else: text without a dollar sign is kept, and in front of a variable it
    is copied, the variable is replaced by what the function gives for its
    name and arguments, and the text behind it is treated on its own, so that
    a value is never scanned again. *)
Theorem ResolveString_left_to_right a v b f :
  free "$" a = true → free "}" v = true → sforall not_newline v = true →
  ResolveString a f = a ∧
  ResolveString (a +:+ variable_text v +:+ b) f =
  a +:+ resolve_variable f v +:+ ResolveString b f.
Proof. split; [by apply ResolveString_literal|by apply ResolveString_step]. Qed.

(** environment lookups.  [${localEnv:NAME}] is the value of the variable,
    or empty when it is not set; [${localEnv:NAME:default}] is the default
    then; a variable nobody knows stays as it is. *)
Theorem replace_local_env ctx name dflt :
  (∀ s, s ∈ [name; dflt] →
     free ":" s = true ∧ free "}" s = true ∧ sforall not_newline s = true) →
  let env := ctx_env ctx in
  let resolve s := ResolveString s (replaceWithContext false ctx) in
  resolve (variable_text ("localEnv:" +:+ name)) = default "" (env !! name) ∧
  resolve (variable_text ("localEnv:" +:+ name +:+ ":" +:+ dflt)) =
    default dflt (env !! name) ∧
  resolve (variable_text ("containerEnv:" +:+ name)) =
    variable_text ("containerEnv:" +:+ name).
Proof.
  intros Hs. destruct (Hs name) as (Hn1 & Hn2 & Hn3); [left|].
  destruct (Hs dflt) as (Hd1 & Hd2 & Hd3); [set_solver|]. cbv zeta.
  assert (∀ v, free "}" v = true → sforall not_newline v = true →
    ResolveString (variable_text v) (replaceWithContext false ctx) =
    resolve_variable (replaceWithContext false ctx) v) as Hr.
  { intros v Hv Hn. rewrite <-(sapp_nil_r (variable_text v)).
    change (variable_text v +:+ "") with ("" +:+ variable_text v +:+ "") at 1.
    rewrite ResolveString_step by done. rewrite ResolveString_literal by done.
    by rewrite sapp_nil_r. }
  unfold free in *. rewrite !Hr; try by rewrite ?sforall_app, ?Hn2, ?Hn3, ?Hd2, ?Hd3.
  unfold resolve_variable.
  change ("localEnv:" +:+ name) with ("localEnv" +:+ String ":" name).
  change ("localEnv:" +:+ name +:+ ":" +:+ dflt)
    with ("localEnv" +:+ String ":" (name +:+ String ":" dflt)).
  change ("containerEnv:" +:+ name) with ("containerEnv" +:+ String ":" name).
  rewrite !Split_app, !Split_free by done.
  unfold replaceWithContext, lookupValue. cbn.
  split_and!; [by destruct (ctx_env ctx !! name)..|done].
Qed.

(** ** Environments *)

Lemma list_entry_insert ret k v :
  free "=" k = true → list_entry ret (k +:+ "=" +:+ v) = <[k := v]> ret.
Proof.
  intros Hk. unfold list_entry. change (k +:+ "=" +:+ v) with (k +:+ String "=" v).
  rewrite Split_app by done.
  destruct (Split "=" v) as [|x l] eqn:Hs; [by apply Split_nonempty in Hs|].
  by rewrite <-Hs, Join_Split.
Qed.

Lemma ListToObject_fold l : ∀ acc : gmap string string,
  NoDup l.*1 → (∀ kv, kv ∈ l → free "=" kv.1 = true) →
  foldl list_entry acc (ObjectToList l) = list_to_map l ∪ acc.
Proof.
  induction l as [|[k v] l IH]; intros acc Hnd Hf.
  { cbn. by rewrite (left_id_L ∅ (∪)). }
  change (foldl list_entry acc (ObjectToList ((k, v) :: l)))
    with (foldl list_entry (list_entry acc (k +:+ "=" +:+ v)) (ObjectToList l)).
  change (list_to_map ((k, v) :: l)) with (<[k := v]> (list_to_map l : gmap string string)).
  apply NoDup_cons in Hnd as [Hk Hnd].
  rewrite list_entry_insert by (by apply (Hf (k, v)); left).
  rewrite IH by (try done; intros; apply Hf; by right).
  rewrite <-insert_union_l, <-insert_union_r; [done|].
  by apply not_elem_of_list_to_map.
Qed.

(** an environment survives being written as a list of [NAME=value]
    lines and read back, in whatever order the map is visited, also when
    values contain equal signs. *)
Theorem ListToObject_ObjectToList (m : gmap string string) l :
  l ≡ₚ map_to_list m → (∀ k, is_Some (m !! k) → free "=" k = true) →
  ListToObject (ObjectToList l) = m.
Proof.
  intros Hl Hf. unfold ListToObject. rewrite ListToObject_fold.
  - rewrite (right_id_L ∅ (∪)).
    rewrite <-(list_to_map_to_list m). apply list_to_map_proper; [|done].
    rewrite Hl. apply NoDup_fst_map_to_list.
  - rewrite Hl. apply NoDup_fst_map_to_list.
  - intros [k v] Hkv. apply Hf. rewrite Hl in Hkv. apply elem_of_map_to_list in Hkv.
    cbn. eauto.
Qed.

Definition demo_context : SubstitutionContext := {|
  ctx_devContainerID := "id"; ctx_localWorkspaceFolder := "/home/me/app";
  ctx_containerWorkspaceFolder := "/workspaces/${localWorkspaceFolderBasename}";
  ctx_env := {[ "HOME" := "/home/me" ]}; ctx_workspaceMount := "" |}.

Lemma ResolveString_left_to_right_witness :
  ResolveString ("a " +:+ variable_text "localEnv:HOME" +:+ " b")
    (replaceWithContext false demo_context) = "a /home/me b".
Proof.
  exact (proj2 (ResolveString_left_to_right "a " "localEnv:HOME" " b"
    (replaceWithContext false demo_context) eq_refl eq_refl eq_refl)).
Defined.

Lemma replace_local_env_witness :
  ResolveString "${localEnv:SHELL:bash}" (replaceWithContext false demo_context) = "bash".
Proof.
  refine (proj1 (proj2 (replace_local_env demo_context "SHELL" "bash" _))).
  intros s [->|H]%elem_of_cons; [done|]. by apply list_elem_of_singleton in H as ->.
Defined.

Lemma ListToObject_ObjectToList_witness :
  ListToObject ["B=x=y"; "A=1"] = {[ "A" := "1"; "B" := "x=y" ]}.
Proof.
  apply (ListToObject_ObjectToList {[ "A" := "1"; "B" := "x=y" ]} [("B", "x=y"); ("A", "1")]).
  - vm_compute. apply Permutation_swap || reflexivity.
  - intros k Hk. apply elem_of_dom in Hk. rewrite dom_insert, dom_singleton in Hk.
    apply elem_of_union in Hk as [Hk|Hk]; by apply elem_of_singleton in Hk as ->.
Defined.

Example Substitute_nested :
  (Substitute false demo_context
     (JObj [("workspaceFolder", JStr "${containerWorkspaceFolder}");
            ("runArgs", JArr [JStr "--name=${devcontainerId}"; JBool true])])).1 =
  JObj [("workspaceFolder", JStr "/workspaces/app");
        ("runArgs", JArr [JStr "--name=id"; JBool true])].
Proof. by vm_compute. Qed.
