(* ===== verification/Features.v ===== *)
(** * pkg/devcontainer/feature: features of a dev container

    The order in which features are installed (extend.go), the options they
    are installed with (options.go), and the texts generated for the build:
    the layers of the Dockerfile and the wrapper script (features.go).
    Downloading a feature, and reading it, are parameters, and so are the
    normalisation of a feature reference by go-containerregistry and the
    order of a map iteration. *)

From S2P Require Import Prelude GoStrings GoRegexp Types Graph DevContainer Merge.
From stdpp Require Import base gmap sets list strings sorting pretty.
From Stdlib Require Import ZArith.

Local Open Scope string_scope.

Notation fgraph := (graph (option FeatureSet)).

(** ** The installation order *)

Definition feature_lookup (features : list FeatureSet) : gmap string FeatureSet :=
  foldl (λ m f, <[fs_configID f := f]> m) ∅ features.

Definition insert_after (lookup : gmap string FeatureSet) (id installAfter : string)
    : M fgraph unit :=
  match lookup !! installAfter with
  | None => mret ()
  | Some f => InsertNodeAt id installAfter (Some f) ≫= λ _, mret ()
  end.

Definition insert_feature (lookup : gmap string FeatureSet) (feature : FeatureSet)
    : M fgraph unit :=
  InsertNodeAt "root" (fs_configID feature) (Some feature) ≫= λ _,
  forM_ (f_installsAfter (fs_config feature))
        (insert_after lookup (fs_configID feature)).

(** Removes leaf after leaf and collects their data; a feature without data
    is a nil pointer in the result. *)
Fixpoint remove_leaves (fuel : nat) : M fgraph (list (option FeatureSet)) :=
  match fuel with
  | 0 => liftR NoFuel
  | S n =>
      g ← getS;
      leaf ← liftR (GetNextLeaf (search_fuel g) g (g_root g));
      if decide (leaf = g_root g) then mret []
      else
        node ← liftR (deref (g_nodes g !! leaf));
        RemoveNode leaf ≫= λ _,
        rest ← remove_leaves n;
        mret (node_data node :: rest)
  end.

Definition feature_root : fgraph := NewGraph (NewNode "root" None).

Definition computeAutomaticFeatureOrder (features : list FeatureSet)
    : result (list (option FeatureSet)) :=
  let build :=
    forM_ features (insert_feature (feature_lookup features)) ≫= λ _,
    g ← getS; remove_leaves (search_fuel g) in
  (build feature_root).1.

Section Fetch.
(** [NormalizeFeatureID] *)
Context (NormalizeFeatureID : string → string).

(** One pass of the loop over the override: the features with the identifier
    move to the end of the ordered ones. *)
Definition move_feature (acc : list FeatureSet * list FeatureSet) (feature : string)
    : list FeatureSet * list FeatureSet :=
  let '(ordered, automatic) := acc in
  let featureID := NormalizeFeatureID feature in
  (ordered ++ filter (λ f, fs_configID f = featureID) automatic,
   filter (λ f, fs_configID f ≠ featureID) automatic)%list.

Definition all_present (l : list (option FeatureSet)) : result (list FeatureSet) :=
  deref (mapM id l).

Definition computeFeatureOrder (override : list string) (features : list FeatureSet)
    : result (list FeatureSet) :=
  automatic ← computeAutomaticFeatureOrder features;
  automaticOrder ← all_present automatic;
  match override with
  | [] => Ok automaticOrder
  | _ =>
      let '(ordered, rest) := foldl move_feature ([], automaticOrder) override in
      Ok (ordered ++ rest)%list
  end.

(** [fetchFeatures], over the features in the order they are visited. *)
Definition fetch_feature (process : string → string + string)
    (parse : string → string + FeatureConfig) (feature : string * json)
    : result FeatureSet :=
  let '(featureID, options) := feature in
  folder ← wrap ("process feature " +:+ featureID) (of_sum (process featureID));
  config ← wrap ("parse feature " +:+ featureID) (of_sum (parse folder));
  Ok {| fs_configID := NormalizeFeatureID featureID; fs_folder := folder;
        fs_config := config; fs_options := options |}.

Definition fetchFeatures (process : string → string + string)
    (parse : string → string + FeatureConfig) (override : list string)
    (features : list (string * json)) : result (list FeatureSet) :=
  featureSets ← mapR (fetch_feature process parse) features;
  wrap "compute feature order" (computeFeatureOrder override featureSets).
End Fetch.

(** ** Options *)

(** [[^\w_]] and [^[\d_]+] *)
Definition featureSafeIDRegex1 : re := Chr (λ c, negb (is_word c)).
Definition is_digit_or_underscore (c : ascii) : bool :=
  is_digit c || bool_decide (c = "_"%char).
Definition featureSafeIDRegex2 : re := Cat Bot (Plus true (Chr is_digit_or_underscore)).

Definition getFeatureSafeID (featureID : string) : string :=
  ToUpper (ReplaceAllString featureSafeIDRegex2
             (ReplaceAllString featureSafeIDRegex1 featureID "_") "_").

Definition getFeatureDefaults (feature : FeatureConfig) : gmap string json :=
  (λ o, JStr (fo_default o)) <$> f_options feature.

Definition getFeatureValueObject (feature : FeatureConfig) (featureOptions : json)
    : gmap string json :=
  let defaults := getFeatureDefaults feature in
  match featureOptions with
  | JObj t => list_to_map t ∪ defaults
  | JStr t =>
      match f_options feature !! "version" with
      | Some _ => <["version" := JStr t]> defaults
      | None => defaults
      end
  | _ => defaults
  end.

Section Variables.
(** [%v] of a number, an array or an object. *)
Context (fmt_value : json → string).

Definition fmt_v (v : json) : string :=
  match v with
  | JStr s => s
  | JBool b => FormatBool b
  | JNull => "<nil>"
  | _ => fmt_value v
  end.

Definition getFeatureEnvVariables (feature : FeatureConfig) (featureOptions : json)
    : list string :=
  merge_sort String.le
    ((λ kv, getFeatureSafeID kv.1 +:+ "=" +:+ String "034"%char (fmt_v kv.2) +:+
            String "034"%char "") <$>
     map_to_list (getFeatureValueObject feature featureOptions)).
End Variables.

(** ** Users *)

Definition findContainerUsers (baseImageMetadata : ImageMetadataConfig)
    (composeServiceUser imageUser : string) : string * string :=
  let reversed := ReverseSlice (imc_config baseImageMetadata) in
  let or_default user :=
    if decide (user ≠ "") then user
    else if decide (composeServiceUser ≠ "") then composeServiceUser else imageUser in
  (or_default (firstString reversed (λ e, n_containerUser (im_nonCompose e))),
   or_default (firstString reversed (λ e, b_remoteUser (im_base e)))).

(** ** Generated texts *)

Definition squote : string := "'".
Definition escapeQuotesForShell (str : string) : string :=
  ReplaceAll str squote "'\''".

Definition lines (l : list string) : string := String.concat newline l.

(** [generateContainerEnvs], with the variables in the order they are
    visited. *)
Definition generateContainerEnvs (env : list (string * string)) : string :=
  lines ((λ kv, "ENV " +:+ kv.1 +:+ "=" +:+ kv.2) <$> env).

Definition builtin_env : string := "/tmp/build-features/devcontainer-features.builtin.env".
Definition dquote : string := String "034"%char "".
Definition echo_home (variable user : string) : string :=
  "echo " +:+ dquote +:+ variable +:+ "=$(getent passwd " +:+ user +:+ " | cut -d: -f6)" +:+
  dquote +:+ " >> " +:+ builtin_env.

(** The layers of the features, numbered from [i]. *)
Fixpoint feature_layers (i : nat) (envs : list (list (string * string))) : string :=
  match envs with
  | [] => ""
  | env :: envs' =>
      generateContainerEnvs env +:+
      lines [""; "RUN cd /tmp/build-features/" +:+ pretty i +:+ " \";
             "&& chmod +x ./devcontainer-features-install.sh \";
             "&& ./devcontainer-features-install.sh"; ""; ""] +:+
      feature_layers (S i) envs'
  end.
Definition getFeatureLayers (containerUser remoteUser : string)
    (envs : list (list (string * string))) : string :=
  lines ["RUN \"; echo_home "_CONTAINER_USER_HOME" containerUser +:+ " && \";
         echo_home "_REMOTE_USER_HOME" remoteUser; ""; ""] +:+
  feature_layers 0 envs.

(** [getFeatureInstallWrapperScript] *)
Definition tab : string := String "009"%char "".
Definition warning_header : string :=
  "(!) WARNING: Using the deprecated Feature " +:+ dquote +:+
  "${escapeQuotesForShell(feature.id)}" +:+ dquote +:+
  ". This Feature will no longer receive any further updates/support.\n".
Definition rule : string :=
  "echo ===========================================================================".
Definition getFeatureInstallWrapperScript (idWithoutVersion : string)
    (feature : FeatureConfig) (options : list string) : string :=
  let id := escapeQuotesForShell idWithoutVersion in
  let name := escapeQuotesForShell (f_name feature) in
  let description := escapeQuotesForShell (f_description feature) in
  let version := escapeQuotesForShell (f_version feature) in
  let documentation := escapeQuotesForShell (f_documentationURL feature) in
  let optionsIndented :=
    escapeQuotesForShell ("    " +:+ GoStrings.Join options (newline +:+ "    ")) in
  let echoWarning :=
    if f_deprecated feature then "echo '" +:+ warning_header +:+ "'" else "" in
  let errorMessage :=
    "ERROR: Feature " +:+ dquote +:+ name +:+ dquote +:+ " (" +:+ id +:+
    ") failed to install!" in
  let troubleshootingMessage :=
    if decide (documentation ≠ "") then
      " Look at the documentation at ${documentation} for help troubleshooting this error."
    else "" in
  lines ["#!/bin/sh"; "set -e"; ""; "on_exit () {";
         tab +:+ "[ $? -eq 0 ] && exit";
         tab +:+ "echo '" +:+ errorMessage +:+ troubleshootingMessage +:+ "'"; "}"; "";
         "trap on_exit EXIT"; ""; "set -a"; ". ../devcontainer-features.builtin.env";
         ". ./devcontainer-features.env"; "set +a"; ""; rule; echoWarning;
         "echo 'Feature       : " +:+ name +:+ "'";
         "echo 'Description   : " +:+ description +:+ "'";
         "echo 'Id            : " +:+ id +:+ "'";
         "echo 'Version       : " +:+ version +:+ "'";
         "echo 'Documentation : " +:+ documentation +:+ "'";
         "echo 'Options       :'"; "echo '" +:+ optionsIndented +:+ "'";
         "echo 'Environment   :'"; "printenv"; rule; ""; "chmod +x ./install.sh";
         "./install.sh"; ""].

(** [FEATURE_BASE_DOCKERFILE] and the Dockerfile of the features. *)
Definition FEATURE_BASE_DOCKERFILE : string :=
  lines [""; "FROM $_DEV_CONTAINERS_BASE_IMAGE AS dev_containers_target_stage"; "";
         "USER root"; "";
         "COPY ./.devpod-internal/ /tmp/build-features/";
         "RUN chmod -R 0755 /tmp/build-features && ls /tmp/build-features"; "";
         "#{featureLayer}"; ""; "ARG _DEV_CONTAINERS_IMAGE_USER=root";
         "USER $_DEV_CONTAINERS_IMAGE_USER"; ""].
Definition feature_dockerfile (containerUser remoteUser : string)
    (envs : list (list (string * string))) : string :=
  ReplaceAll FEATURE_BASE_DOCKERFILE "#{featureLayer}"
    (getFeatureLayers containerUser remoteUser envs).
