(* ===== verification/FeaturesProps.v ===== *)
(** * Properties of features *)

From S2P Require Import Prelude GoStrings GoRegexp Types Graph GraphFacts GraphProps.
From S2P Require Import DevContainer Merge Features.
From stdpp Require Import base gmap sets list strings relations sorting.
From Stdlib Require Import ZArith Lia.

Local Open Scope string_scope.

(** ** Building the graph *)

Lemma InsertNodeAt_existing {T} (g : graph T) p id data :
  is_Some (g_nodes g !! p) → is_Some (g_nodes g !! id) →
  InsertNodeAt p id data g = ((λ _, id) <$> (AddEdge p id g).1, (AddEdge p id g).2).
Proof.
  intros [np Hp] [n Hid]. unfold InsertNodeAt. runM. rewrite Hp, Hid.
  unfold mbind, M_bind. by destruct (AddEdge p id g) as [[] g'].
Qed.

Lemma tc_mono {A} (R S : relation A) x y :
  (∀ a b, R a b → S a b) → tc R x y → tc S x y.
Proof. intros H. induction 1; [by apply tc_once, H|]. eapply tc_l; eauto. Qed.

Section Order.
Context (features : list FeatureSet).
Context (Hnd : NoDup (fs_configID <$> features))
        (Hroot : "root" ∉ fs_configID <$> features).

(** [a] is installed after [b], and both are wanted. *)
Definition installs_after (a b : string) : Prop :=
  ∃ f g, f ∈ features ∧ g ∈ features ∧ fs_configID f = a ∧ fs_configID g = b ∧
         b ∈ f_installsAfter (fs_config f).

Lemma feature_lookup_spec k f :
  feature_lookup features !! k = Some f ↔ f ∈ features ∧ fs_configID f = k.
Proof.
  unfold feature_lookup. clear Hroot.
  enough (∀ (m : gmap string FeatureSet),
    (∀ k f, m !! k = Some f → fs_configID f = k ∧ k ∉ fs_configID <$> features) →
    foldl (λ m f, <[fs_configID f := f]> m) m features !! k = Some f ↔
    m !! k = Some f ∨ f ∈ features ∧ fs_configID f = k) as H.
  { rewrite H; [|intros ??; by rewrite lookup_empty]. rewrite lookup_empty. naive_solver. }
  revert Hnd. induction features as [|x l IH]; intros Hnd' m Hm; cbn; [set_solver|].
  cbn in Hnd'. apply NoDup_cons in Hnd' as [Hx Hl]. rewrite IH; [|done|].
  - destruct (decide (k = fs_configID x)) as [->|Hk].
    + rewrite lookup_insert_eq. split; [naive_solver set_solver|].
      intros [Hk|[[->|Hf]%elem_of_cons Hk]].
      * apply Hm in Hk as [_ []]. cbn. set_solver.
      * by left.
      * exfalso. apply Hx. rewrite <-Hk. by apply list_elem_of_fmap_2.
    + rewrite lookup_insert_ne by done. set_solver.
  - intros k' f'. rewrite lookup_insert. case_decide; [naive_solver|].
    intros Hk. apply Hm in Hk. set_solver.
Qed.

(** What the graph holds while it is built. *)
Record built (g : fgraph) : Prop := {
  bt_wf : wf g;
  bt_root : g_root g = "root";
  bt_data : ∀ k n, g_nodes g !! k = Some n → k ≠ "root" →
    ∃ f, node_data n = Some f ∧ f ∈ features ∧ fs_configID f = k;
  bt_edge : ∀ a b, edge g a b → a = "root" ∨ installs_after a b;
}.

(** [g'] has all nodes and edges of [g]. *)
Definition extends (g g' : fgraph) : Prop :=
  (∀ k, is_Some (g_nodes g !! k) → is_Some (g_nodes g' !! k)) ∧
  ∀ a b, edge g a b → edge g' a b.

#[local] Instance extends_preorder : PreOrder extends.
Proof.
  split; [by intros g|]. intros g1 g2 g3 [A1 B1] [A2 B2]. split; eauto.
Qed.

(** Inserting a wanted feature below a node: the graph is extended by the node
    and the edge, or the edge closes a cycle. *)
Lemma insert_wanted g p f :
  built g → is_Some (g_nodes g !! p) → f ∈ features →
  (p = "root" ∨ installs_after p (fs_configID f)) →
  (∃ g', InsertNodeAt p (fs_configID f) (Some f) g = (Ok (fs_configID f), g') ∧
     built g' ∧ extends g g' ∧ is_Some (g_nodes g' !! fs_configID f) ∧
     edge g' p (fs_configID f)) ∨
  (∃ e, InsertNodeAt p (fs_configID f) (Some f) g = (Err e, g) ∧
     rtc (edge g) (fs_configID f) p).
Proof.
  intros [Hwf Hr Hd He] Hp Hf Hrel. set (id := fs_configID f) in *.
  pose proof (InsertNodeAt_wf g p id (Some f) Hwf) as Hwf'.
  destruct (g_nodes g !! id) as [n|] eqn:Hid.
  - rewrite (InsertNodeAt_existing g p id) in Hwf' |- * by eauto.
    destruct (AddEdge_spec g p id (wf_core g Hwf)) as [H|? H|Hed Hb|q Ha Hb Hab Hq|m Ha Hb Hab Hba Hl];
      cbn [fst snd] in *; [by destruct Hp; congruence|congruence| | |].
    + left. exists g. split_and!; [done|by split|done|by eauto|done].
    + right. eexists. split; [done|]. by eapply chain_rtc.
    + left. exists (with_nodes g m).
      assert (∀ x y, edge (with_nodes g m) x y ↔ edge g x y ∨ x = p ∧ y = id) as Hedge
        by (intros; by apply linked_edge).
      assert (∀ k, is_Some (g_nodes g !! k) → is_Some (m !! k)) as Hk.
      { intros k Hk. rewrite (Hl k). by apply fmap_is_Some. }
      split_and!; [done| |split| |by apply Hedge; right].
      * split; [done|done| |].
        -- intros k n' Hk' Hne. cbn in Hk'. rewrite (Hl k) in Hk'.
           apply fmap_Some in Hk' as (n0 & Hn0 & ->). rewrite link_data. by apply Hd.
        -- intros a b [?|[-> ->]]%Hedge; eauto.
      * cbn. done.
      * intros a b Hab'. apply Hedge. by left.
      * cbn. apply Hk. by rewrite Hid.
  - left. destruct (InsertNodeAt_fresh g p id (Some f) (wf_core g Hwf) Hp Hid)
      as (g' & Hins & Hi). rewrite Hins in Hwf'. exists g'.
    destruct (in_new _ _ _ _ _ Hi) as (n1 & Hn1 & Hd1 & _).
    split_and!; [done| |split|by eauto|by apply (in_edge _ _ _ _ _ Hi); right].
    + split; [done|by rewrite (in_root _ _ _ _ _ Hi)| |].
      * intros k n' Hk' Hne. destruct (decide (k = id)) as [->|Hki].
        { exists f. rewrite Hk' in Hn1. injection Hn1 as ->. by rewrite Hd1. }
        rewrite (in_old _ _ _ _ _ Hi k Hki) in Hk'.
        apply fmap_Some in Hk' as (n0 & Hn0 & ->). rewrite link_data. by apply Hd.
      * intros a b [?|[-> ->]]%(in_edge _ _ _ _ _ Hi); eauto.
    + intros k Hk. destruct (decide (k = id)) as [->|Hki]; [by eauto|].
      rewrite (in_old _ _ _ _ _ Hi k Hki). by apply fmap_is_Some.
    + intros a b Hab. apply (in_edge _ _ _ _ _ Hi). by left.
Qed.

(** Some feature is, directly or not, installed after itself. *)
Definition cyclic : Prop := ∃ a, tc installs_after a a.

Lemma path_installs_after g a b :
  built g → a ≠ "root" → rtc (edge g) a b → rtc installs_after a b.
Proof.
  intros Hg Ha Hr. induction Hr as [|a y b Hay _ IH]; [done|].
  assert (y ≠ "root") as Hy.
  { intros ->. rewrite <-(bt_root g Hg) in Hay.
    by eapply wf_root_no_parent; [apply bt_wf|]. }
  destruct (bt_edge g Hg a y Hay) as [?|?]; [done|]. eapply rtc_l; eauto.
Qed.

(** A step of the construction: it establishes [P] or finds a cycle. *)
Definition step_ok (P : fgraph → Prop) (c : M fgraph unit) (g : fgraph) : Prop :=
  (∃ g', c g = (Ok (), g') ∧ built g' ∧ extends g g' ∧ P g') ∨
  (∃ e g', c g = (Err e, g') ∧ cyclic).
Definition monotone (P : fgraph → Prop) : Prop := ∀ g g', extends g g' → P g → P g'.

Lemma forM_steps {A} (Pre : fgraph → Prop) (P : A → fgraph → Prop) f l : ∀ g,
  monotone Pre → (∀ x, monotone (P x)) →
  (∀ x g, x ∈ l → built g → Pre g → step_ok (P x) (f x) g) →
  built g → Pre g → step_ok (λ g', ∀ x, x ∈ l → P x g') (forM_ l f) g.
Proof.
  induction l as [|x l IH]; intros g Hpre HP Hf Hg Hp.
  { left. exists g. split_and!; try done. set_solver. }
  unfold step_ok. change (forM_ (x :: l) f g) with ((f x ≫= λ _, forM_ l f) g).
  destruct (Hf x g) as [(g1 & H1 & Hg1 & E1 & P1)|(e & g1 & H1 & Hc)];
    [left|done|done| |].
  - rewrite (run_Ok _ _ _ _ _ H1).
    destruct (IH g1) as [(g2 & H2 & Hg2 & E2 & P2)|(e & g2 & H2 & Hc)];
      [done|done|intros; apply Hf; [by right|done..]|done|by eapply Hpre| |].
    + left. exists g2. split_and!; [done|done|by etrans|].
      intros y [->|Hy]%elem_of_cons; [by eapply HP|by apply P2].
    + right. by exists e, g2.
  - right. exists e, g1. split; [by apply run_Err|done].
Qed.

Lemma wanted_not_root f : f ∈ features → fs_configID f ≠ "root".
Proof. intros Hf Heq. apply Hroot. rewrite <-Heq. by apply list_elem_of_fmap_2. Qed.

Definition has_edge (a b : string) (g : fgraph) : Prop :=
  b ∈ fs_configID <$> features → edge g a b.

Lemma insert_after_step f ia g :
  f ∈ features → ia ∈ f_installsAfter (fs_config f) → built g →
  is_Some (g_nodes g !! fs_configID f) →
  step_ok (has_edge (fs_configID f) ia)
          (insert_after (feature_lookup features) (fs_configID f) ia) g.
Proof.
  intros Hf Hia Hg Hn. unfold step_ok, insert_after.
  destruct (feature_lookup features !! ia) as [h|] eqn:Hl.
  - apply feature_lookup_spec in Hl as [Hh <-].
    assert (installs_after (fs_configID f) (fs_configID h)) as Hrel by (by exists f, h).
    destruct (insert_wanted g (fs_configID f) h) as
      [(g' & Hins & Hg' & E & _ & He)|(e & Hins & Hr)]; [done..|by right| |].
    + left. exists g'. rewrite (run_Ok _ _ _ _ _ Hins).
      split_and!; [done..|]. by intros _.
    + right. exists e, g. split; [by apply run_Err|]. exists (fs_configID f).
      eapply tc_rtc_r; [by apply tc_once|].
      by eapply path_installs_after; [|apply wanted_not_root|].
  - left. exists g. split_and!; try done. intros (h & -> & Hh)%list_elem_of_fmap.
    exfalso. eapply eq_None_not_Some; [exact Hl|]. exists h.
    by apply feature_lookup_spec.
Qed.

(** What a feature that was inserted left in the graph. *)
Definition placed (f : FeatureSet) (g : fgraph) : Prop :=
  is_Some (g_nodes g !! fs_configID f) ∧
  ∀ ia, ia ∈ f_installsAfter (fs_config f) → has_edge (fs_configID f) ia g.

Lemma insert_feature_step f g :
  f ∈ features → built g → True →
  step_ok (placed f) (insert_feature (feature_lookup features) f) g.
Proof.
  intros Hf Hg _. unfold step_ok, insert_feature.
  assert (is_Some (g_nodes g !! "root")) as Hr.
  { rewrite <-(bt_root g Hg). apply wf_root, wf_core, Hg. }
  destruct (insert_wanted g "root" f) as
    [(g1 & H1 & Hg1 & E1 & Hn & _)|(e & _ & Hrt)]; [done..|by left| |].
  - rewrite (run_Ok _ _ _ _ _ H1).
    destruct (forM_steps (λ g, is_Some (g_nodes g !! fs_configID f))
      (has_edge (fs_configID f)) (insert_after (feature_lookup features) (fs_configID f))
      (f_installsAfter (fs_config f)) g1) as
      [(g2 & H2 & Hg2 & E2 & P2)|(e & g2 & H2 & Hc)]; try done.
    + intros g' g'' [Hk _]. apply Hk.
    + intros x g' g'' [_ He] Hh Hx. by apply He, Hh.
    + intros x g' Hx Hg' Hp. by apply insert_after_step.
    + left. exists g2. split_and!; [done|done|by etrans|]. split; [by apply E2|done].
    + right. by exists e, g2.
  - exfalso. apply rtc_inv_r in Hrt as [?|(y & _ & Hy)];
      [by eapply wanted_not_root|].
    rewrite <-(bt_root g Hg) in Hy. by eapply wf_root_no_parent; [apply bt_wf|].
Qed.

Lemma feature_root_built : built feature_root.
Proof.
  split; [by apply NewGraphOf_wf|done| |].
  - intros k n Hk Hne. cbn in Hk. by rewrite lookup_insert_ne in Hk.
  - intros a b (n & Hn & Hb). cbn in Hn. rewrite lookup_insert in Hn.
    case_decide; [|done]. injection Hn as <-. by apply not_elem_of_nil in Hb.
Qed.

Lemma build_graph :
  (∃ g, forM_ features (insert_feature (feature_lookup features)) feature_root =
        (Ok (), g) ∧ built g ∧ ∀ f, f ∈ features → placed f g) ∨
  (∃ e g, forM_ features (insert_feature (feature_lookup features)) feature_root =
        (Err e, g) ∧ cyclic).
Proof.
  destruct (forM_steps (λ _, True) placed
    (insert_feature (feature_lookup features)) features feature_root)
    as [(g & H & Hg & _ & P)|(e & g & H & Hc)]; try done.
  - intros f g g' [Hk He] [Hf Hia]. split; [by apply Hk|].
    intros ia Hi Hx. by apply He, Hia.
  - intros f g Hf Hg _. by apply insert_feature_step.
  - apply feature_root_built.
  - left. by exists g.
  - right. by exists e, g.
Qed.
End Order.

(** ** Draining it *)

(** The data of the nodes named by a list. *)
Definition data_of {T} (g : graph (option T)) (k : string) : option T :=
  n ← g_nodes g !! k; node_data n.

Lemma removed_data_of {T} (g g1 : graph (option T)) leaf k :
  removed g leaf g1 → is_Some (g_nodes g1 !! k) → data_of g1 k = data_of g k.
Proof.
  intros Hr [n1 Hn1]. destruct (rm_bwd _ _ _ Hr k n1 Hn1) as (n & Hn & Hs).
  unfold data_of. rewrite Hn1, Hn. apply (sb_data _ _ Hs).
Qed.

(** The loop returns the data of all nodes below the root, children first. *)
Lemma remove_leaves_spec : ∀ f g, wf g → (size (g_nodes g) ≤ f)%nat →
  ∃ l g', remove_leaves f g = (Ok (data_of g <$> l), g') ∧ leaves_first g l.
Proof.
  induction f as [|f IH]; intros g Hwf Hsz.
  { destruct (wf_root g (wf_core g Hwf)) as [r Hr].
    apply Nat.le_0_r, map_size_empty_inv in Hsz. rewrite Hsz in Hr. done. }
  assert (core g) as Hc by (by apply wf_core).
  cbn [remove_leaves]. runM.
  destruct (GetNextLeaf_spec g Hc (search_fuel g) (g_root g))
    as (leaf & n & -> & Hreach & Hn & Hcs);
    [by apply wf_root|by apply bounded_search_fuel|].
  runM. case_decide as Hroot.
  { subst. exists [], g. split; [done|]. by eapply root_leaf_drained. }
  rewrite Hn. cbn [deref]. runM.
  destruct (RemoveNode_leaf g leaf n Hc Hn Hcs) as (g1 & Hrun & Hrm).
  rewrite (run_Ok _ _ _ _ _ Hrun).
  destruct (IH g1) as (l & g' & Hl & Hlf).
  - by eapply removed_wf.
  - apply removed_size in Hrm; [lia|by eauto].
  - exists (leaf :: l), g'. rewrite (run_Ok _ _ _ _ _ Hl). split.
    + unfold mret, M_ret. do 2 f_equal. rewrite fmap_cons. f_equal.
      * unfold data_of. by rewrite Hn.
      * apply list_fmap_ext. intros i k Hk. eapply removed_data_of; [done|].
        apply (lf_elem _ _ Hlf k). by eapply list_elem_of_lookup_2.
    + eapply removed_leaves_first; eauto.
      intros c (n0 & ? & Hin). simplify_eq. rewrite Hcs in Hin. set_solver.
Qed.

Section Drained.
Context (features : list FeatureSet).
Context (Hnd : NoDup (fs_configID <$> features))
        (Hroot : "root" ∉ fs_configID <$> features).

(** The order: the wanted features, each after those it is installed after. *)
Definition install_order (ordered : list FeatureSet) : Prop :=
  ordered ≡ₚ features ∧
  ∀ i j f h, ordered !! i = Some f → ordered !! j = Some h →
    fs_configID h ∈ f_installsAfter (fs_config f) → (j < i)%nat.

Lemma built_data g (l : list string) :
  built features g → (∀ k, k ∈ l → is_Some (g_nodes g !! k) ∧ k ≠ "root") →
  ∃ fs : list FeatureSet, data_of g <$> l = Some <$> fs ∧ fs_configID <$> fs = l ∧
        ∀ f, f ∈ fs → f ∈ features.
Proof.
  intros Hg. induction l as [|k l IH]; intros Hl; [exists []; set_solver|].
  destruct IH as (fs & H1 & H2 & H3); [set_solver|].
  destruct (Hl k) as [[n Hn] Hk]; [set_solver|].
  destruct (bt_data _ _ Hg k n Hn Hk) as (f & Hf & Hin & <-).
  exists (f :: fs). rewrite !fmap_cons, H1, H2. split_and!; [|done|set_solver].
  f_equal. unfold data_of. by rewrite Hn.
Qed.

Lemma drained_install_order g (l : list string) (fs : list FeatureSet) :
  built features g → (∀ f, f ∈ features → placed features f g) → leaves_first g l →
  fs_configID <$> fs = l → (∀ f, f ∈ fs → f ∈ features) → install_order fs.
Proof.
  intros Hg Hp [Hl1 Hl2 Hl3] Hids Hin. rewrite <-Hids in *. split.
  - apply NoDup_Permutation; [by eapply NoDup_fmap_1|by eapply NoDup_fmap_1|].
    intros f. split; [apply Hin|]. intros Hf.
    assert (fs_configID f ∈ fs_configID <$> fs) as Hk.
    { apply Hl2. split; [by apply Hp|]. rewrite (bt_root _ _ Hg).
      by eapply wanted_not_root. }
    apply list_elem_of_fmap in Hk as (f' & Heq & Hf').
    enough (f = f') as -> by done. apply Hin in Hf'.
    assert (∀ x, x ∈ features → feature_lookup features !! fs_configID x = Some x) as HL.
    { intros x Hx. by apply feature_lookup_spec. }
    apply HL in Hf, Hf'. rewrite Heq in Hf. congruence.
  - intros i j f h Hi Hj Hia.
    apply (Hl3 i j (fs_configID f) (fs_configID h));
      [by rewrite list_lookup_fmap, Hi|by rewrite list_lookup_fmap, Hj|].
    apply list_elem_of_lookup_2, Hin in Hi, Hj. apply (Hp f Hi); [done|].
    by apply list_elem_of_fmap_2.
Qed.

Lemma placed_acyclic g :
  built features g → (∀ f, f ∈ features → placed features f g) → ¬ cyclic features.
Proof.
  intros Hg Hp [a Ha]. eapply (wf_acyclic g (wf_core g (bt_wf _ _ Hg)) a).
  eapply tc_mono; [|exact Ha].
  intros x y (f & h & Hf & Hh & <- & <- & Hia). apply (Hp f Hf); [done|].
  by apply list_elem_of_fmap_2.
Qed.

(** Every outcome of the automatic order. *)
Lemma computeAutomaticFeatureOrder_cases :
  (¬ cyclic features ∧ ∃ ordered,
     computeAutomaticFeatureOrder features = Ok (Some <$> ordered) ∧
     install_order ordered) ∨
  (cyclic features ∧ ∃ e, computeAutomaticFeatureOrder features = Err e).
Proof.
  unfold computeAutomaticFeatureOrder.
  destruct (build_graph features Hnd Hroot) as [(g & Hb & Hg & Hp)|(e & g & Hb & Hc)].
  - left. split; [by eapply placed_acyclic|]. rewrite (run_Ok _ _ _ _ _ Hb). runM.
    destruct (remove_leaves_spec (search_fuel g) g (bt_wf _ _ Hg)) as (l & g' & -> & Hl).
    { unfold search_fuel. lia. }
    destruct (built_data g l Hg) as (fs & -> & Hids & Hin).
    { intros k Hk. rewrite <-(bt_root _ _ Hg). by apply (lf_elem _ _ Hl). }
    exists fs. split; [done|]. by eapply drained_install_order.
  - right. split; [done|]. exists e. by rewrite (run_Err _ _ _ _ _ Hb).
Qed.
End Drained.

(** ** The theorems *)

(** C6: For features whose ids are different once their versions are removed and are not the
    name of the root of the graph, the automatic installation order exists exactly when no feature is,
    directly or through others, installed after itself; it then lists every
    wanted feature once, each one after all features its [installsAfter]
    names; otherwise an error is returned.  There is no other outcome: the
    loop over the leaves terminates, and no nil pointer is dereferenced. *)
Theorem computeAutomaticFeatureOrder_correct (features : list FeatureSet) :
  NoDup (fs_configID <$> features) → "root" ∉ fs_configID <$> features →
  (¬ cyclic features ∧ ∃ ordered,
     computeAutomaticFeatureOrder features = Ok (Some <$> ordered) ∧
     install_order features ordered) ∨
  (cyclic features ∧ ∃ e, computeAutomaticFeatureOrder features = Err e).
Proof. apply computeAutomaticFeatureOrder_cases. Qed.

Definition test_feature (id : string) (after : list string) : FeatureSet :=
  {| fs_configID := id; fs_folder := "/tmp/" +:+ id;
     fs_config := {| f_id := id; f_name := id; f_version := "1"; f_description := "";
       f_entrypoint := ""; f_deprecated := false; f_legacyIds := []; f_options := ∅;
       f_documentationURL := ""; f_licenseURL := ""; f_capAdd := []; f_init := None;
       f_privileged := None; f_securityOpt := []; f_mounts := [];
       f_installsAfter := after; f_containerEnv := ∅; f_customizations := ∅;
       f_origin := "" |};
     fs_options := JNull |}.
Definition test_features : list FeatureSet :=
  [test_feature "node" ["git"; "java"]; test_feature "go" ["node"; "common"];
   test_feature "git" []].

(** Two versions of one feature have the same id here: one of them is not installed. *)
Definition other_version : FeatureSet :=
  {| fs_configID := "git"; fs_folder := "/tmp/git-2"; fs_config := fs_config (test_feature "git" []);
     fs_options := JNull |}.
Example versions_collide :
  computeAutomaticFeatureOrder [test_feature "git" []; other_version] = Ok [Some (test_feature "git" [])].
Proof. vm_compute. reflexivity. Qed.

Lemma computeAutomaticFeatureOrder_correct_witness :
  computeAutomaticFeatureOrder test_features =
    Ok (Some <$> [test_feature "git" []; test_feature "node" ["git"; "java"];
                  test_feature "go" ["node"; "common"]]) ∧
  ¬ cyclic test_features.
Proof.
  split; [vm_compute; reflexivity|].
  destruct (computeAutomaticFeatureOrder_correct test_features) as [[H _]|[_ [e He]]].
  - refine (bool_decide_unpack _ _). vm_compute. exact I.
  - refine (bool_decide_unpack _ _). vm_compute. exact I.
  - exact H.
  - vm_compute in He. discriminate He.
Defined.

(** ** The override *)

(** The place of an identifier in the override; the length of the override
    when it is not in it. *)
Fixpoint rank (ids : list string) (id : string) : nat :=
  match ids with
  | [] => 0
  | x :: ids' => if decide (id = x) then 0 else S (rank ids' id)
  end.

Fixpoint pin (ids : list string) (l : list FeatureSet) : list FeatureSet :=
  match ids with
  | [] => l
  | x :: ids' => filter (λ f, fs_configID f = x) l ++
                 pin ids' (filter (λ f, fs_configID f ≠ x) l)
  end.

Lemma foldl_move_feature NormalizeFeatureID override o a :
  let r := foldl (move_feature NormalizeFeatureID) (o, a) override in
  (r.1 ++ r.2)%list = (o ++ pin (NormalizeFeatureID <$> override) a)%list.
Proof.
  revert o a. induction override as [|x l IH]; intros o a; [done|].
  cbn [foldl fmap list_fmap pin]. unfold move_feature at 2. cbn zeta in IH |- *.
  rewrite IH, <-app_assoc. done.
Qed.

Lemma pin_Permutation ids l : pin ids l ≡ₚ l.
Proof.
  revert l. induction ids as [|x ids IH]; intros l; [done|]. cbn [pin].
  rewrite IH. apply filter_app_complement.
Qed.

Lemma pin_rank ids : ∀ l i j f h,
  pin ids l !! i = Some f → pin ids l !! j = Some h →
  (rank ids (fs_configID f) < rank ids (fs_configID h) → i < j)%nat.
Proof.
  induction ids as [|x ids IH]; intros l i j f h; cbn [pin rank]; [lia|].
  set (l1 := filter _ l). set (l2 := filter _ l).
  intros [Hi|[Hi1 Hi]]%lookup_app_Some [Hj|[Hj1 Hj]]%lookup_app_Some.
  - apply list_elem_of_lookup_2, list_elem_of_filter in Hj as [-> _].
    rewrite (decide_True (P := x = x)) by done. lia.
  - intros _. apply lookup_lt_Some in Hi. lia.
  - apply list_elem_of_lookup_2, list_elem_of_filter in Hj as [-> _].
    rewrite (decide_True (P := x = x)) by done. lia.
  - repeat case_decide; try lia.
    + apply list_elem_of_lookup_2 in Hi. rewrite pin_Permutation in Hi.
      apply list_elem_of_filter in Hi as [[] _]. done.
    + intros Hr. enough (i - length l1 < j - length l1)%nat by lia.
      apply (IH l2 _ _ f h); [done..|lia].
Qed.

(** The features the override does not name keep their order. *)
Lemma pin_unpinned ids : ∀ l,
  filter (λ f, fs_configID f ∉ ids) (pin ids l) =
  filter (λ f, fs_configID f ∉ ids) l.
Proof.
  induction ids as [|x ids IH]; intros l; cbn [pin]; [done|].
  assert (∀ m : list FeatureSet, filter (λ f, fs_configID f ∉ x :: ids) m =
    filter (λ f, fs_configID f ∉ ids) (filter (λ f, fs_configID f ≠ x) m)) as Hsplit.
  { intros m. rewrite list_filter_filter. apply list_filter_iff. set_solver. }
  rewrite filter_app, !Hsplit.
  assert (filter (λ f, fs_configID f ≠ x) (filter (λ f, fs_configID f = x) l) = []) as ->.
  { rewrite list_filter_filter. induction l as [|y l' IHl]; [done|].
    rewrite filter_cons_False by tauto. apply IHl. }
  rewrite <-(IH (filter (λ f, fs_configID f ≠ x) l)).
  rewrite filter_nil, app_nil_l.
  f_equal. apply filter_all. intros f.
  rewrite pin_Permutation. by intros [? _]%list_elem_of_filter.
Qed.

Lemma all_present_Some (l : list FeatureSet) : all_present (Some <$> l) = Ok l.
Proof.
  unfold all_present. enough (mapM id (Some <$> l) = Some l) as -> by done.
  induction l as [|x l IH]; [done|]. rewrite fmap_cons. cbn. by rewrite IH.
Qed.
(** With [overrideFeatureInstallOrder], the features it names come first
    and in the order it names them, the others follow in the automatic order,
    and every wanted feature is installed exactly once. *)
Theorem computeFeatureOrder_override (Norm : string → string) (override : list string)
    (features automatic : list FeatureSet) :
  computeAutomaticFeatureOrder features = Ok (Some <$> automatic) →
  ∃ ordered,
    computeFeatureOrder Norm override features = Ok ordered ∧
    ordered ≡ₚ automatic ∧
    (∀ i j f h, ordered !! i = Some f → ordered !! j = Some h →
       rank (Norm <$> override) (fs_configID f) < rank (Norm <$> override) (fs_configID h) →
       i < j)%nat ∧
    filter (λ f, fs_configID f ∉ Norm <$> override) ordered =
    filter (λ f, fs_configID f ∉ Norm <$> override) automatic.
Proof.
  intros Ha. exists (pin (Norm <$> override) automatic). split_and!.
  - unfold computeFeatureOrder. rewrite Ha. cbn [mbind result_bind].
    rewrite all_present_Some. cbn [mbind result_bind].
    destruct override as [|x l]; [done|].
    pose proof (foldl_move_feature Norm (x :: l) [] automatic) as Hf.
    destruct (foldl _ _ (x :: l)) as [o r].
    cbn zeta in Hf. rewrite app_nil_l in Hf. by rewrite <-Hf.
  - apply pin_Permutation.
  - apply pin_rank.
  - apply pin_unpinned.
Qed.

Lemma computeFeatureOrder_override_witness :
  computeFeatureOrder (λ s, s) ["go"; "unknown"] test_features =
    Ok [test_feature "go" ["node"; "common"]; test_feature "git" [];
        test_feature "node" ["git"; "java"]].
Proof.
  destruct (computeFeatureOrder_override (λ s, s) ["go"; "unknown"] test_features
    [test_feature "git" []; test_feature "node" ["git"; "java"];
     test_feature "go" ["node"; "common"]]) as (ordered & H & _ & _ & _).
  - vm_compute. reflexivity.
  - transitivity (Ok ordered); [exact H|]. rewrite <-H. vm_compute. reflexivity.
Defined.

(** ** Shell quoting *)

(** A word of a POSIX shell from quotes, escapes and other characters: the
    text up to the first character that ends it, and the rest.  The state says
    whether a single-quoted part is open. *)
Fixpoint sh_word (quoted : bool) (s : string) : option (string * string) :=
  match quoted, s with
  | true, "" => None
  | true, String c s' =>
      if decide (c = "'"%char) then sh_word false s'
      else prod_map (String c) id <$> sh_word true s'
  | false, "" => Some ("", "")
  | false, String c s' =>
      if decide (c = "'"%char) then sh_word true s'
      else if decide (c = "\"%char) then
        match s' with
        | "" => None
        | String d s2 => prod_map (String d) id <$> sh_word false s2
        end
      else if decide (c = " "%char ∨ c = "010"%char) then Some ("", s)
      else prod_map (String c) id <$> sh_word false s'
  end.

Lemma replace_squotes_char fuel c s :
  c ≠ "'"%char →
  replace_all (S fuel) (String c s) squote "'\''" = String c (replace_all fuel s squote "'\''").
Proof.
  intros Hc. cbn [replace_all]. unfold squote. cbn [String.prefix].
  by destruct (ascii_dec "'" c) as [<-|].
Qed.

Lemma replace_squotes_quote fuel s :
  replace_all (S fuel) (String "'" s) squote "'\''" =
  "'\''" +:+ replace_all fuel s squote "'\''".
Proof.
  cbn [replace_all].
  replace (String.prefix squote (String "'" s)) with true by (by destruct s).
  change (String "'" s) with (squote +:+ s). by rewrite sdrop_app.
Qed.

Lemma sh_word_escaped s : ∀ fuel rest,
  (String.length s ≤ fuel)%nat →
  sh_word true (replace_all fuel s squote "'\''" +:+ squote +:+ rest) =
  prod_map (String.append s) id <$> sh_word false rest.
Proof.
  induction s as [|c s IH]; intros fuel rest Hf.
  - destruct fuel; cbn; by destruct (sh_word false rest) as [[]|].
  - destruct fuel as [|fuel]; cbn [String.length] in Hf; [lia|].
    destruct (decide (c = "'"%char)) as [->|Hc].
    + rewrite replace_squotes_quote.
      change (sh_word true (("'\''" +:+ ?t) +:+ ?u)) with
        (prod_map (String "'") id <$> sh_word true (t +:+ u)).
      rewrite IH by lia. by destruct (sh_word false rest) as [[]|].
    + rewrite replace_squotes_char by done.
      change (String c ?t +:+ ?u) with (String c (t +:+ u)). cbn [sh_word].
      rewrite decide_False, IH by (done || lia).
      by destruct (sh_word false rest) as [[]|].
Qed.

(** A text that is escaped and put between single quotes is read back by
    the shell as exactly that text, whatever it contains: a feature cannot
    break out of the quotes of the wrapper script's [echo] lines. *)
Theorem escapeQuotesForShell_safe (str rest : string) :
  sh_word false (squote +:+ escapeQuotesForShell str +:+ squote +:+ newline +:+ rest) =
  Some (str, newline +:+ rest).
Proof.
  change (sh_word false (squote +:+ ?t)) with (sh_word true t).
  unfold escapeQuotesForShell, ReplaceAll. rewrite sh_word_escaped by done.
  change (sh_word false (newline +:+ rest)) with (Some ("", newline +:+ rest)).
  cbn. unfold prod_map. cbn. by rewrite sapp_nil_r.
Qed.
