(* ===== verification/SshConfig.v ===== *)
(** * pkg/ssh: the user's SSH configuration, and idle connections

    DevPod keeps one marked section per workspace in the user's ssh config.
    The file is the state; [os.Executable] and the outcome of a write are
    parameters.  The connection counter of the port forwarder follows, as a
    transition system. *)

From S2P Require Import Prelude GoStrings.
From stdpp Require Import base list strings.
From Stdlib Require Import ZArith.

Local Open Scope string_scope.

(** ** Line scanners *)

(** The lines of a text; a last line that is empty is not one. *)
Fixpoint drop_last_empty (l : list string) : list string :=
  match l with
  | [] => []
  | [x] => if decide (x = "") then [] else [x]
  | x :: l' => x :: drop_last_empty l'
  end.
Definition text_lines (s : string) : list string := drop_last_empty (Split "010" s).

(** [bufio.Scanner] with a split function for lines: a line that does not fit
    the buffer together with its newline ends the scan with an error. *)
Definition fits (max : N) (line : string) : bool := (N.of_nat (String.length line) <? max)%N.
Fixpoint scan (max : N) (lines : list string) : list string * bool :=
  match lines with
  | [] => ([], false)
  | l :: ls =>
      if fits max l then let '(r, err) := scan max ls in (l :: r, err) else ([], true)
  end.

(** The [dropCR] of [bufio.ScanLines]. *)
Definition dropCR (s : string) : string := TrimSuffix s (String "013" "").

(** [scanner.NewScanner] of loft-sh/log: 1 MiB, carriage returns are kept;
    [bufio.NewScanner]: 64 KiB, carriage returns are dropped. *)
Definition log_scan (s : string) : list string * bool := scan 1048576 (text_lines s).
Definition bufio_scan (s : string) : list string * bool :=
  let '(l, err) := scan 65536 (text_lines s) in (dropCR <$> l, err).

(** ** Sections *)

Definition MarkerStartPrefix : string := "# DevPod Start ".
Definition MarkerEndPrefix : string := "# DevPod End ".

(** What [os.Open] finds. *)
Inductive ssh_file :=
| Absent
| Unopenable (e : string)
| Content (s : string).

Section Transform.
Context {St : Type} (transform : St → string → string * St).

Fixpoint transform_lines (startMarker endMarker : string) (inSection : bool) (st : St)
    (lines : list string) : list string * St :=
  match lines with
  | [] => ([], st)
  | text :: ls =>
      if HasPrefix text startMarker then transform_lines startMarker endMarker true st ls
      else if HasPrefix text endMarker then transform_lines startMarker endMarker false st ls
      else if negb inSection then
        let '(r, st') := transform_lines startMarker endMarker inSection st ls in
        (text :: r, st')
      else
        let '(text', st1) := transform st text in
        let '(r, st') := transform_lines startMarker endMarker inSection st1 ls in
        (if decide (text' = "") then r else text' :: r, st')
  end.

Definition strip_first_empty (l : list string) : list string :=
  match l with "" :: l' => l' | _ => l end.

(** When the scanner fails, [errors.Wrap] is applied to the nil error of
    [os.Open], so the function returns the empty text and no error. *)
Definition transformHostSection (file : ssh_file) (host : string) (st : St)
    : result (string * St) :=
  let run s :=
    let '(lines, err) := log_scan s in
    let '(newLines, st') :=
      transform_lines (MarkerStartPrefix +:+ host) (MarkerEndPrefix +:+ host) false st lines in
    if err : bool then Ok ("", st')
    else Ok (GoStrings.Join (strip_first_empty newLines) newline, st') in
  match file with
  | Unopenable e => Err e
  | Absent => run ""
  | Content s => run s
  end.
End Transform.

Definition removeFromConfig (file : ssh_file) (host : string) : result string :=
  fst <$> transformHostSection (λ st _, ("", st)) file host ().

(** [GetUser], with the path already resolved. *)
Definition user_line (user line : string) : string * string :=
  match Split " " (ToLower (TrimSpace line)) with
  | [key; value] =>
      (line, if decide (key = "user") then Trim value (String "034" "") else user)
  | _ => (line, user)
  end.
Definition GetUser (file : ssh_file) (workspaceID : string) : result string :=
  snd <$> transformHostSection user_line file (workspaceID +:+ ".devpod") "root".

(** ** Adding a host *)

Definition quoted (s : string) : string := String "034" (s +:+ String "034" "").

Definition proxyCommand (execPath user context workspace workdir command : string)
    (gpgagent : bool) (devPodHome : string) : string :=
  let p := if decide (command ≠ "") then "  ProxyCommand " +:+ quoted command
           else "  ProxyCommand " +:+ quoted execPath +:+ " ssh --stdio --context " +:+
                context +:+ " --user " +:+ user +:+ " " +:+ workspace in
  let p := if decide (devPodHome ≠ "") then p +:+ " --devpod-home " +:+ quoted devPodHome
           else p in
  let p := if decide (workdir ≠ "") then p +:+ " --workdir " +:+ quoted workdir else p in
  if gpgagent then p +:+ " --gpg-agent-forwarding" else p.

Definition host_section (execPath host user context workspace workdir command : string)
    (gpgagent : bool) (devPodHome : string) : list string :=
  [MarkerStartPrefix +:+ host; "Host " +:+ host; "  ForwardAgent yes"; "  LogLevel error";
   "  StrictHostKeyChecking no"; "  UserKnownHostsFile /dev/null";
   "  HostKeyAlgorithms rsa-sha2-256,rsa-sha2-512,ssh-rsa";
   proxyCommand execPath user context workspace workdir command gpgagent devPodHome;
   "  User " +:+ user; MarkerEndPrefix +:+ host].

Definition is_host_line (line : string) : bool := HasPrefix (TrimSpace line) "Host".
Definition is_comment_line (line : string) : bool := HasPrefix (TrimSpace line) "#".

(** The line number at which the section is inserted. *)
Fixpoint insert_line (found : bool) (lineNumber commentLines : nat) (lines : list string)
    : nat :=
  match lines with
  | [] => lineNumber
  | line :: ls =>
      let '(found, lineNumber) :=
        if is_host_line line && negb found then (true, lineNumber - commentLines)
        else (found, lineNumber) in
      let commentLines := if is_comment_line line then S commentLines else 0 in
      insert_line found (if found then lineNumber else S lineNumber) commentLines ls
  end.

(** [slices.Insert] panics when the index is out of range. *)
Definition slices_Insert {A} (l : list A) (i : nat) (v : list A) : result (list A) :=
  if decide (i ≤ length l)%nat then Ok (take i l ++ v ++ drop i l)%list else Panic.

Definition addHostSection (isWindows : bool)
    (config execPath host user context workspace workdir command : string)
    (gpgagent : bool) (devPodHome : string) : result string :=
  let newLines := host_section execPath host user context workspace workdir command
                    gpgagent devPodHome in
  let '(lines, err) := bufio_scan config in
  if err : bool then Err "bufio.Scanner: token too long"
  else
    lines ← slices_Insert lines (insert_line false 0 0 lines) newLines;
    Ok (GoStrings.Join lines (if isWindows then String "013" newline else newline)).

Definition addHost (isWindows : bool) (executable : string + string) (file : ssh_file)
    (host user context workspace workdir command : string) (gpgagent : bool)
    (devPodHome : string) : result string :=
  newConfig ← removeFromConfig file host;
  execPath ← of_sum executable;
  addHostSection isWindows newConfig execPath host user context workspace workdir command
    gpgagent devPodHome.

(** [writeSSHConfig]: a write fails with [fail], or replaces the file. *)
Definition writeSSHConfig (fail : option string) (content : string) : M ssh_file unit :=
  match fail with
  | Some e => throw ("write ssh config: " +:+ e)
  | None => putS (Content content)
  end.

Definition ConfigureSSHConfig (isWindows : bool) (executable : string + string)
    (fail : option string) (context workspace user workdir : string) (gpgagent : bool)
    (devPodHome : string) : M ssh_file unit :=
  file ← getS;
  newFile ← liftR (wrap "parse ssh config"
    (addHost isWindows executable file (workspace +:+ ".devpod") user context workspace
       workdir "" gpgagent devPodHome));
  writeSSHConfig fail newFile.

Definition RemoveFromConfig (fail : option string) (workspaceID : string)
    : M ssh_file unit :=
  file ← getS;
  newFile ← liftR (wrap "parse ssh config"
    (removeFromConfig file (workspaceID +:+ ".devpod")));
  writeSSHConfig fail newFile.
