(* ===== verification/SshConfigProps.v ===== *)
(** * Properties of the SSH configuration

    Where the section of a workspace is put, what stays of the rest of the
    file, and what removing it again gives. *)

From S2P Require Import Prelude GoStrings SshConfig.
From stdpp Require Import base list strings.
From Stdlib Require Import ZArith Lia.

Local Open Scope string_scope.

(** ** Lines and texts *)

Definition newline_free (s : string) : Prop := free "010" s = true.

Lemma text_lines_Join l :
  Forall newline_free l → text_lines (GoStrings.Join l newline) = drop_last_empty l.
Proof.
  intros Hl. destruct l as [|x l]; [done|]. unfold text_lines, newline.
  rewrite Split_Join; [done|done|]. by rewrite <-Forall_forall.
Qed.

Lemma text_lines_newline_free s : Forall newline_free (text_lines s).
Proof.
  assert (∀ l : list string, Forall newline_free l → Forall newline_free (drop_last_empty l)) as H.
  { induction l as [|x [|y l] IH]; intros Hl; [done|cbn; by case_decide|].
    inversion Hl; subst. constructor; [done|]. by apply IH. }
  apply H, Forall_forall, Split_parts_free.
Qed.

Lemma drop_last_empty_id l : last l ≠ Some "" → drop_last_empty l = l.
Proof.
  induction l as [|x [|y l] IH]; intros Hl; [done| |].
  - cbn. rewrite decide_False; [done|]. by intros ->.
  - change (drop_last_empty (x :: y :: l)) with (x :: drop_last_empty (y :: l)).
    by rewrite IH.
Qed.

Lemma drop_last_empty_snoc l : drop_last_empty (l ++ [""])%list = l.
Proof.
  induction l as [|x l IH]; [done|]. cbn [app].
  destruct (l ++ [""])%list as [|y k] eqn:Hk; [by destruct l|].
  change (x :: drop_last_empty (y :: k) = x :: l). by rewrite IH.
Qed.

Lemma drop_last_empty_sub l : drop_last_empty l `sublist_of` l.
Proof.
  induction l as [|x [|y l] IH]; [done| |].
  - cbn. case_decide; [by constructor|done].
  - change (drop_last_empty (x :: y :: l)) with (x :: drop_last_empty (y :: l)).
    by apply sublist_skip.
Qed.

Definition fit (max : N) (l : string) : Prop := fits max l = true.

#[export] Instance fit_dec max l : Decision (fit max l).
Proof. unfold fit. apply _. Defined.

Lemma scan_fits max l : Forall (fit max) l → scan max l = (l, false).
Proof. induction 1 as [|x l Hx _ IH]; [done|]. cbn. by rewrite Hx, IH. Qed.

Lemma scan_too_long max l : ¬ Forall (fit max) l → (scan max l).2 = true.
Proof.
  induction l as [|x l IH]; [by intros []|]. cbn. intros Hn.
  destruct (fits max x) eqn:Hx; [|done]. destruct (scan max l) as [r e]. cbn in *.
  apply IH. intros Hl. apply Hn. by constructor.
Qed.

Lemma fit_64K_1M l : Forall (fit 65536) l → Forall (fit 1048576) l.
Proof.
  intros H. eapply Forall_impl; [exact H|]. intros s. unfold fit, fits.
  rewrite !N.ltb_lt. lia.
Qed.

(** ** The section of a host *)

Definition marker (host line : string) : bool :=
  HasPrefix line (MarkerStartPrefix +:+ host) || HasPrefix line (MarkerEndPrefix +:+ host).

(** The lines outside the sections of a host. *)
Definition keep (host : string) (lines : list string) : list string :=
  (transform_lines (λ st _, ("", st)) (MarkerStartPrefix +:+ host)
     (MarkerEndPrefix +:+ host) false () lines).1.

Lemma removeFromConfig_keep c host :
  Forall (fit 1048576) (text_lines c) →
  removeFromConfig (Content c) host =
  Ok (GoStrings.Join (strip_first_empty (keep host (text_lines c))) newline).
Proof.
  intros Hf. unfold removeFromConfig, transformHostSection, log_scan, keep.
  rewrite scan_fits by done. by destruct (transform_lines _ _ _ _ _ _) as [l []].
Qed.

Lemma keep_app host l1 l2 :
  Forall (λ l, marker host l = false) l1 → keep host (l1 ++ l2) = (l1 ++ keep host l2)%list.
Proof.
  unfold keep. induction 1 as [|x l1 [H1 H2]%orb_false_iff _ IH]; [done|].
  cbn [app transform_lines negb]. rewrite H1, H2.
  destruct (transform_lines _ _ _ _ _ (l1 ++ l2)) as [r st]. cbn in *. by rewrite IH.
Qed.

Lemma keep_id host l : Forall (λ l, marker host l = false) l → keep host l = l.
Proof. intros H. rewrite <-(app_nil_r l) at 1. rewrite keep_app by done. apply app_nil_r. Qed.

(** After the start marker the lines are dropped up to the end marker. *)
Lemma keep_section host body l :
  Forall (λ l, HasPrefix l (MarkerEndPrefix +:+ host) = false) body →
  keep host ((MarkerStartPrefix +:+ host) :: body ++ (MarkerEndPrefix +:+ host) :: l) =
  keep host l.
Proof.
  intros Hb. unfold keep. cbn [transform_lines].
  assert (∀ m : string, HasPrefix m m = true) as Hself.
  { intros m. apply HasPrefix_spec. exists "". by rewrite sapp_nil_r. }
  rewrite Hself.
  induction Hb as [|x body Hx _ IH].
  - cbn [app transform_lines]. by rewrite Hself.
  - cbn [app transform_lines]. rewrite Hx.
    destruct (HasPrefix x (MarkerStartPrefix +:+ host)); [done|].
    cbn [negb]. destruct (transform_lines _ _ _ _ _ _) as [r st]. exact IH.
Qed.

Definition section (execPath workspace user context workdir : string) (gpgagent : bool)
    (devPodHome : string) : list string :=
  host_section execPath (workspace +:+ ".devpod") user context workspace workdir ""
    gpgagent devPodHome.

Lemma keep_host_section execPath workspace user context workdir gpg home l :
  keep (workspace +:+ ".devpod")
    (section execPath workspace user context workdir gpg home ++ l) =
  keep (workspace +:+ ".devpod") l.
Proof.
  unfold section, host_section.
  set (p := proxyCommand _ _ _ _ _ _ _ _).
  assert (∃ q, p = "  ProxyCommand " +:+ q) as [q Hq].
  { subst p. unfold proxyCommand. rewrite (decide_False (P := "" ≠ "")) by tauto.
    repeat case_decide; destruct gpg; rewrite ?sapp_assoc; by eexists. }
  rewrite Hq. clearbody p.
  exact (keep_section (workspace +:+ ".devpod")
    ["Host " +:+ (workspace +:+ ".devpod"); "  ForwardAgent yes"; "  LogLevel error";
     "  StrictHostKeyChecking no"; "  UserKnownHostsFile /dev/null";
     "  HostKeyAlgorithms rsa-sha2-256,rsa-sha2-512,ssh-rsa"; "  ProxyCommand " +:+ q;
     "  User " +:+ user] l ltac:(repeat constructor)).
Qed.

(** ** Where the section goes *)

Lemma insert_line_found n cl l : insert_line true n cl l = n.
Proof.
  revert cl. induction l as [|x l IH]; intros cl; [done|]. cbn [insert_line].
  rewrite andb_false_r. apply IH.
Qed.

(** The place splits the lines: no [Host] before it; behind it comments up to
    the first [Host]. *)
Definition place (before comments after : list string) : Prop :=
  Forall (λ l, is_host_line l = false) before ∧
  Forall (λ l, is_comment_line l = true) comments ∧
  (after = [] → comments = []) ∧
  ∀ h, head after = Some h → is_host_line h = true.

Lemma insert_line_spec l : ∀ before comments,
  Forall (λ l, is_host_line l = false) (before ++ comments) →
  Forall (λ l, is_comment_line l = true) comments →
  ∃ b c a, (before ++ comments ++ l)%list = (b ++ c ++ a)%list ∧
    insert_line false (length before + length comments) (length comments) l = length b ∧
    place b c a.
Proof.
  induction l as [|x l IH]; intros before comments Hb Hc; cbn [insert_line].
  - exists (before ++ comments)%list, [], []. rewrite !app_nil_r, length_app. split_and!; [done..|].
    by split_and!.
  - destruct (is_host_line x) eqn:Hx; cbn [andb negb].
    + rewrite insert_line_found. exists before, comments, (x :: l).
      apply Forall_app in Hb as [Hb _]. split_and!; [done|lia|]. split_and!; [done..|].
      cbn. by intros h [= <-].
    + destruct (is_comment_line x) eqn:Hcx.
      * destruct (IH before (comments ++ [x])%list) as (b & c & a & Heq & Hi & Hp).
        -- rewrite app_assoc. apply Forall_app. split; [done|by repeat constructor].
        -- apply Forall_app. split; [done|by repeat constructor].
        -- exists b, c, a. rewrite <-Heq, <-!app_assoc. split_and!; [done| |done].
           rewrite <-Hi, length_app. cbn. f_equal; lia.
      * destruct (IH (before ++ comments ++ [x])%list []) as (b & c & a & Heq & Hi & Hp).
        -- rewrite app_nil_r, app_assoc. apply Forall_app. split; [done|by repeat constructor].
        -- done.
        -- exists b, c, a. rewrite <-Heq, <-!app_assoc. split_and!; [done| |done].
           rewrite <-Hi, !length_app. cbn. f_equal; lia.
Qed.

(** ** What stays of the file *)

Lemma keep_sublist host l : keep host l `sublist_of` l.
Proof.
  unfold keep. generalize false. induction l as [|x l IH]; intros b; [done|].
  cbn [transform_lines].
  destruct (HasPrefix x (MarkerStartPrefix +:+ host)); [by apply sublist_cons|].
  destruct (HasPrefix x (MarkerEndPrefix +:+ host)); [by apply sublist_cons|].
  specialize (IH b). destruct b; cbn [negb];
    destruct (transform_lines _ _ _ _ _ l) as [r st]; cbn in *;
    [by apply sublist_cons|by apply sublist_skip].
Qed.

Lemma strip_first_empty_sublist l : strip_first_empty l `sublist_of` l.
Proof. destruct l as [|[|c s] l]; [done| |done]. by apply sublist_cons. Qed.

Lemma Forall_sublist {A} (P : A → Prop) (l k : list A) :
  l `sublist_of` k → Forall P k → Forall P l.
Proof.
  intros Hs. rewrite !Forall_forall. intros H x Hx.
  apply H. by eapply elem_of_sublist.
Qed.

(** The lines of a file that do not belong to a section of the host, without
    an empty first and an empty last line. *)
Definition user_lines (host c : string) : list string :=
  dropCR <$> drop_last_empty (strip_first_empty (keep host (text_lines c))).

Lemma kept_Forall (P : string → Prop) host c :
  Forall P (text_lines c) → Forall P (strip_first_empty (keep host (text_lines c))).
Proof.
  intros HP. eapply Forall_sublist; [|exact HP].
  etrans; [apply strip_first_empty_sublist|apply keep_sublist].
Qed.

Lemma bufio_scan_Join l :
  Forall newline_free l → Forall (fit 65536) l →
  bufio_scan (GoStrings.Join l newline) = (dropCR <$> drop_last_empty l, false).
Proof.
  intros Hn Hf. unfold bufio_scan. rewrite text_lines_Join by done.
  rewrite scan_fits; [done|]. eapply Forall_sublist; [apply drop_last_empty_sub|done].
Qed.

Lemma Insert_split {A} (b c v : list A) :
  slices_Insert (b ++ c) (length b) v = Ok (b ++ v ++ c)%list.
Proof.
  unfold slices_Insert. rewrite decide_True by (rewrite length_app; lia).
  by rewrite take_app_length, drop_app_length.
Qed.

Lemma addHost_split c exec ws user ctx workdir gpg home :
  Forall (fit 65536) (text_lines c) →
  ∃ b cm a, user_lines (ws +:+ ".devpod") c = (b ++ cm ++ a)%list ∧ place b cm a ∧
    addHost false (inr exec) (Content c) (ws +:+ ".devpod") user ctx ws workdir "" gpg home =
    Ok (GoStrings.Join (b ++ section exec ws user ctx workdir gpg home ++ cm ++ a) newline).
Proof.
  intros Hf. set (host := ws +:+ ".devpod").
  destruct (insert_line_spec (user_lines host c) [] []) as (b & cm & a & Heq & Hi & Hp);
    [done..|].
  exists b, cm, a. split_and!; [done..|]. unfold addHost.
  rewrite removeFromConfig_keep by (by apply fit_64K_1M).
  cbn [mbind result_bind of_sum]. unfold addHostSection.
  rewrite bufio_scan_Join; [|apply kept_Forall, text_lines_newline_free|by apply kept_Forall].
  fold (user_lines host c). cbn in Heq, Hi. rewrite Hi, Heq, Insert_split. done.
Qed.

(** Configuring a workspace puts its section into the file before the
    first [Host] line and the comments directly above it, and behind everything else, so
    that it takes precedence over the user's hosts but not over includes; an
    earlier section of the workspace is replaced, and all other lines are kept
    in their order (an empty first and last line and carriage returns apart). *)
Theorem ConfigureSSHConfig_places (c exec ws user ctx workdir home : string) (gpg : bool) :
  Forall (fit 65536) (text_lines c) →
  ∃ before comments after,
    ConfigureSSHConfig false (inr exec) None ctx ws user workdir gpg home (Content c) =
      (Ok (), Content (GoStrings.Join
         (before ++ section exec ws user ctx workdir gpg home ++ comments ++ after) newline)) ∧
    user_lines (ws +:+ ".devpod") c = (before ++ comments ++ after)%list ∧
    place before comments after.
Proof.
  intros Hf. destruct (addHost_split c exec ws user ctx workdir gpg home Hf)
    as (b & cm & a & Heq & Hp & Ha).
  exists b, cm, a. split_and!; [|done|done].
  unfold ConfigureSSHConfig. runM. rewrite Ha. cbn [wrap]. by runM.
Qed.

Definition test_ssh : string :=
  GoStrings.Join ["Include other"; "# my hosts"; "Host a"; "  User b"; "# DevPod Start ws.devpod";
    "Host ws.devpod"; "# DevPod End ws.devpod"; "Host c"; ""] newline.

Lemma ConfigureSSHConfig_places_witness :
  ConfigureSSHConfig false (inr "/bin/devpod") None "default" "ws" "me" "" false ""
    (Content test_ssh) =
  (Ok (), Content (GoStrings.Join (["Include other"] ++
     section "/bin/devpod" "ws" "me" "default" "" false "" ++
     ["# my hosts"; "Host a"; "  User b"; "Host c"]) newline)) ∧
  user_lines "ws.devpod" test_ssh =
    ["Include other"; "# my hosts"; "Host a"; "  User b"; "Host c"].
Proof.
  destruct (ConfigureSSHConfig_places test_ssh "/bin/devpod" "ws" "me" "default" "" "" false)
    as (b & cm & a & H & Hu & _).
  - refine (bool_decide_unpack _ _). vm_compute. exact I.
  - split; [|vm_compute; reflexivity]. rewrite H. rewrite <-H. vm_compute. reflexivity.
Defined.

(** ** Removing the section again *)

(** A file DevPod has no section in, as it would write it itself. *)
Record clean (host c : string) : Prop := {
  cl_fit : Forall (fit 65536) (text_lines c);
  cl_marker : Forall (λ l, marker host l = false) (text_lines c);
  cl_cr : Forall (λ l, dropCR l = l) (text_lines c);
  cl_head : head (text_lines c) ≠ Some "";
  cl_last : last (text_lines c) ≠ Some "";
}.

Lemma strip_first_empty_id l : head l ≠ Some "" → strip_first_empty l = l.
Proof. by destruct l as [|[|] l]. Qed.

Lemma clean_user_lines host c : clean host c → user_lines host c = text_lines c.
Proof.
  intros [_ Hm Hcr Hh Hl]. unfold user_lines.
  rewrite (keep_id host _ Hm), strip_first_empty_id, drop_last_empty_id by done.
  clear -Hcr. induction Hcr as [|x l Hx _ IH]; [done|]. cbn. by rewrite Hx, IH.
Qed.

Lemma keep_around_section host b m a sec :
  Forall (λ l, marker host l = false) (b ++ m ++ a) →
  (∀ l, keep host (sec ++ l) = keep host l) →
  keep host (b ++ sec ++ m ++ a) = (b ++ m ++ a)%list.
Proof.
  intros [Hb Ha]%Forall_app Hsec. rewrite keep_app by done. by rewrite Hsec, keep_id.
Qed.

Lemma last_section (b m a sec : list string) e :
  last (b ++ m ++ a) ≠ Some "" → last sec = Some e → e ≠ "" →
  last (b ++ sec ++ m ++ a) ≠ Some "".
Proof.
  intros Hl Hs He. rewrite !last_app in *. rewrite Hs.
  destruct (last a); [done|]. destruct (last m); [done|]. congruence.
Qed.

Section RemoveAgain.
Context (c exec ws user ctx workdir home : string) (gpg : bool).
Notation host := (ws +:+ ".devpod").
Notation sec := (section exec ws user ctx workdir gpg home).
Context (Hclean : clean host c)
        (Hsec : Forall (λ l, newline_free l ∧ fit 1048576 l) sec).

Lemma configured_lines b m a :
  text_lines c = (b ++ m ++ a)%list →
  text_lines (GoStrings.Join (b ++ sec ++ m ++ a) newline) = (b ++ sec ++ m ++ a)%list ∧
  Forall (fit 1048576) (b ++ sec ++ m ++ a).
Proof.
  intros Heq. pose proof (text_lines_newline_free c) as Hn. rewrite Heq in Hn.
  pose proof (fit_64K_1M _ (cl_fit _ _ Hclean)) as Hf. rewrite Heq in Hf.
  apply Forall_app in Hn as [Hnb Hn], Hf as [Hfb Hf]. apply Forall_and in Hsec as [Hs1 Hs2].
  split; [|by rewrite !Forall_app in *].
  rewrite text_lines_Join by (by rewrite !Forall_app in *).
  apply drop_last_empty_id.
  eapply (last_section _ _ _ _ (MarkerEndPrefix +:+ host)); [|done|done].
  rewrite <-Heq. apply (cl_last _ _ Hclean).
Qed.

Lemma remove_configured b m a :
  text_lines c = (b ++ m ++ a)%list →
  removeFromConfig (Content (GoStrings.Join (b ++ sec ++ m ++ a) newline)) host =
  Ok (GoStrings.Join (text_lines c) newline).
Proof.
  intros Heq. destruct (configured_lines b m a Heq) as [Hlines Hfit].
  rewrite removeFromConfig_keep; rewrite Hlines; [|done].
  rewrite keep_around_section.
  - rewrite <-Heq, strip_first_empty_id; [done|apply (cl_head _ _ Hclean)].
  - rewrite <-Heq. apply (cl_marker _ _ Hclean).
  - intros l. apply keep_host_section.
Qed.
End RemoveAgain.

(** C35: Deleting a workspace gives the SSH configuration back.  In a file without a section
    of the workspace, whose first and last line are not empty, which has no carriage
    returns and only lines that the scanner can read, and not on Windows, configuring the
    workspace and removing it afterwards leaves exactly the lines the file had. *)
Theorem Configure_then_Remove (c exec ws user ctx workdir home : string) (gpg : bool) :
  clean (ws +:+ ".devpod") c →
  Forall (λ l, newline_free l ∧ fit 1048576 l) (section exec ws user ctx workdir gpg home) →
  (ConfigureSSHConfig false (inr exec) None ctx ws user workdir gpg home ≫= λ _,
   RemoveFromConfig None ws) (Content c) =
  (Ok (), Content (GoStrings.Join (text_lines c) newline)).
Proof.
  intros Hc Hs.
  destruct (addHost_split c exec ws user ctx workdir gpg home) as (b & m & a & Heq & _ & Ha);
    [apply (cl_fit _ _ Hc)|].
  rewrite clean_user_lines in Heq by done.
  erewrite run_Ok; [|unfold ConfigureSSHConfig; runM; rewrite Ha; cbn [wrap]; runM; reflexivity].
  unfold RemoveFromConfig. runM.
  rewrite (remove_configured c exec ws user ctx workdir home gpg Hc Hs b m a Heq).
  cbn [wrap]. by runM.
Qed.

Definition test_clean : string :=
  GoStrings.Join ["Include other"; ""; "# my hosts"; "Host a"; "  User b"; ""] newline.
Lemma Configure_then_Remove_witness :
  (ConfigureSSHConfig false (inr "/bin/devpod") None "default" "ws" "me" "/work" true "" ≫= λ _,
   RemoveFromConfig None "ws") (Content test_clean) =
  (Ok (), Content (GoStrings.Join ["Include other"; ""; "# my hosts"; "Host a"; "  User b"] newline)).
Proof.
  apply (Configure_then_Remove test_clean "/bin/devpod" "ws" "me" "default" "/work" "" true).
  - split; refine (bool_decide_unpack _ _); vm_compute; exact I.
  - refine (bool_decide_unpack _ _). vm_compute. exact I.
Defined.

(** ** Two defects *)

(** A line of 1 MiB or more anywhere in the file makes the scanner stop
    with an error that is dropped, and the file is overwritten with the
    section of the workspace alone: the user's whole configuration is lost,
    and no error is reported. *)
Theorem ConfigureSSHConfig_loses_file (c exec ws user ctx workdir home : string) (gpg : bool) :
  ¬ Forall (fit 1048576) (text_lines c) →
  ConfigureSSHConfig false (inr exec) None ctx ws user workdir gpg home (Content c) =
  (Ok (), Content (GoStrings.Join (section exec ws user ctx workdir gpg home) newline)).
Proof.
  intros Hn. apply scan_too_long in Hn.
  unfold ConfigureSSHConfig, addHost, removeFromConfig, transformHostSection, log_scan. runM.
  destruct (scan 1048576 (text_lines c)) as [l e]. cbn in Hn. subst e.
  destruct (transform_lines _ _ _ _ _ _) as [r st].
  done.
Qed.

(** A line of [n] letters. *)
Fixpoint long_line (n : nat) : string :=
  match n with O => "" | S m => String "a" (long_line m) end.
Lemma long_line_length n : String.length (long_line n) = n.
Proof. induction n as [|n IH]; [done|]. cbn. by rewrite IH. Qed.
Lemma long_line_lines n : n ≠ 0%nat → text_lines (long_line n) = [long_line n].
Proof.
  intros Hn. unfold text_lines. rewrite Split_free.
  - by destruct n.
  - clear Hn. induction n as [|n IH]; [done|]. by apply free_cons.
Qed.

Lemma ConfigureSSHConfig_loses_file_witness :
  ConfigureSSHConfig false (inr "/bin/devpod") None "default" "ws" "me" "" false ""
    (Content (long_line (N.to_nat 1048576))) =
  (Ok (), Content (GoStrings.Join (section "/bin/devpod" "ws" "me" "default" "" false "") newline)).
Proof.
  apply ConfigureSSHConfig_loses_file. rewrite long_line_lines by lia.
  rewrite Forall_singleton. unfold fit, fits. intros H.
  rewrite long_line_length, N2Nat.id in H. discriminate H.
Defined.

(** The user name is read back in lower case. *)
Example GetUser_lowercases :
  GetUser (Content (GoStrings.Join (section "/bin/devpod" "ws" "Admin" "default" "" false "")
             newline)) "ws" = Ok "admin".
Proof. vm_compute. reflexivity. Qed.
