(* ===== verification/Forward.v ===== *)
(** * pkg/ssh: port forwarding and its idle timeout

    connection_counter.go and the accept loop of forward.go as a transition
    system: the events are the atomic sections (each runs under the mutex of
    the counter), the passing of time, and the cancellation of the context.
    A timer goroutine is an entry of [timers] with the generation it was
    started for and the time its channel becomes ready.  The counters are
    unbounded here: [generation] grows by one per closed connection, so its 64
    bits do not overflow. *)

From S2P Require Import Prelude.
From stdpp Require Import base list sets.
From Stdlib Require Import ZArith Lia.

Local Open Scope Z_scope.

Record connectionCounter := {
  timeout : Z;
  connections : Z;
  generation : Z;
  timers : list (Z * Z);     (* generation, deadline *)
  timeouts : nat;            (* calls of onTimeout *)
}.

Definition newConnectionCounter (timeout : Z) : connectionCounter := {|
  timeout := timeout; connections := 0; generation := 0; timers := []; timeouts := 0 |}.

Definition Add (c : connectionCounter) : connectionCounter := {|
  timeout := timeout c; connections := connections c + 1; generation := generation c;
  timers := timers c; timeouts := timeouts c |}.

Definition Dec (now : Z) (c : connectionCounter) : connectionCounter :=
  let n := connections c - 1 in
  if decide (n ≤ 0 ∧ 0 < timeout c) then {|
    timeout := timeout c; connections := n; generation := generation c + 1;
    timers := (generation c + 1, now + timeout c) :: timers c;
    timeouts := timeouts c |}
  else {|
    timeout := timeout c; connections := n; generation := generation c;
    timers := timers c; timeouts := timeouts c |}.

(** The goroutine after [time.After]; [gen] is its argument. *)
Definition expire (gen : Z) (rest : list (Z * Z)) (c : connectionCounter)
    : connectionCounter := {|
  timeout := timeout c; connections := connections c; generation := generation c;
  timers := rest;
  timeouts := if decide (generation c = gen ∧ connections c ≤ 0) then S (timeouts c)
              else timeouts c |}.

(** The goroutine after [ctx.Done]. *)
Definition stop_timer (rest : list (Z * Z)) (c : connectionCounter) : connectionCounter := {|
  timeout := timeout c; connections := connections c; generation := generation c;
  timers := rest; timeouts := timeouts c |}.

(** ** The accept loop *)

Record forwarding := {
  now : Z;
  cancelled : bool;
  forwards : nat;            (* goroutines that forward a connection *)
  counter : connectionCounter;
}.

Inductive event :=
| EAccept                    (* Accept returns, Add *)
| EClose                     (* a forwarding goroutine ends, Dec *)
| ETick (d : Z)
| EExpire (i : nat)          (* timer i takes the time.After branch *)
| ECancel
| EStop (i : nat).           (* timer i takes the ctx.Done branch *)

Definition with_counter (s : forwarding) (n : nat) (c : connectionCounter) : forwarding :=
  {| now := now s; cancelled := cancelled s; forwards := n; counter := c |}.

Definition step (s : forwarding) (e : event) : option forwarding :=
  let c := counter s in
  match e with
  | EAccept => Some (with_counter s (S (forwards s)) (Add c))
  | EClose =>
      match forwards s with
      | O => None
      | S n => Some (with_counter s n (Dec (now s) c))
      end
  | ETick d =>
      if decide (0 ≤ d) then
        Some {| now := now s + d; cancelled := cancelled s; forwards := forwards s;
                counter := c |}
      else None
  | EExpire i =>
      '(gen, deadline) ← timers c !! i;
      if decide (deadline ≤ now s) then
        Some (with_counter s (forwards s) (expire gen (delete i (timers c)) c))
      else None
  | ECancel =>
      Some {| now := now s; cancelled := true; forwards := forwards s; counter := c |}
  | EStop i =>
      _ ← timers c !! i;
      if cancelled s then
        Some (with_counter s (forwards s) (stop_timer (delete i (timers c)) c))
      else None
  end.

Definition portForwarding (timeout : Z) : forwarding :=
  {| now := 0; cancelled := false; forwards := 0; counter := newConnectionCounter timeout |}.

(** A history is a list of events, the oldest first. *)
Fixpoint run (s : forwarding) (h : list event) : option forwarding :=
  match h with
  | [] => Some s
  | e :: h' => s' ← step s e; run s' h'
  end.

(** ** Histories *)

Definition is_traffic (e : event) : bool :=
  match e with EAccept | EClose => true | _ => false end.
Fixpoint elapsed (h : list event) : Z :=
  match h with
  | [] => 0
  | ETick d :: h' => d + elapsed h'
  | _ :: h' => elapsed h'
  end.

Lemma run_snoc s h e : run s (h ++ [e]) = run s h ≫= λ s', step s' e.
Proof.
  revert s. induction h as [|e' h IH]; intros s; cbn.
  - by destruct (step s e).
  - destruct (step s e') as [s'|]; [apply IH|done].
Qed.

Lemma elapsed_snoc h e :
  elapsed (h ++ [e]) = elapsed h + match e with ETick d => d | _ => 0 end.
Proof.
  induction h as [|e' h IH]; cbn; [destruct e; lia|]. destruct e'; rewrite IH; lia.
Qed.

(** The last connection was closed, and nothing was accepted or closed in the [h2]
    that followed. *)
Definition idle_since (h h2 : list event) : Prop :=
  ∃ h1, h = h1 ++ EClose :: h2 ∧ Forall (λ e, is_traffic e = false) h2.

(** What holds of every reachable state: the counter is the number of running
    forwards; timers belong to generations up to the current one, at most one to
    each; and a timer of the current generation of an idle forwarding was started when
    the last connection was closed. *)
Record inv (t : Z) (h : list event) (s : forwarding) : Prop := {
  inv_timeout : timeout (counter s) = t;
  inv_count : connections (counter s) = Z.of_nat (forwards s);
  inv_gen : ∀ g d, (g, d) ∈ timers (counter s) → g ≤ generation (counter s);
  inv_nodup : NoDup (timers (counter s)).*1;
  inv_armed : ∀ g d, (g, d) ∈ timers (counter s) → g = generation (counter s) →
    forwards s = O → ∃ h2, idle_since h h2 ∧ d = now s - elapsed h2 + t;
}.

Lemma idle_since_snoc h h2 e :
  idle_since h h2 → is_traffic e = false → idle_since (h ++ [e]) (h2 ++ [e]).
Proof.
  intros (h1 & -> & Hf) He. exists h1. split; [by rewrite <-app_assoc|].
  apply Forall_app. by repeat constructor.
Qed.

Lemma delete_timers_nodup (l : list (Z * Z)) i : NoDup l.*1 → NoDup (delete i l).*1.
Proof.
  intros H. eapply sublist_NoDup; [exact H|]. clear H. revert i.
  induction l as [|x l IH]; intros [|i]; cbn; [done|done|by apply sublist_cons|].
  apply sublist_skip, IH.
Qed.

Lemma elem_of_delete_timers (l : list (Z * Z)) i x : x ∈ delete i l → x ∈ l.
Proof. intros H. eapply elem_of_sublist; [exact H|apply sublist_delete]. Qed.

(** ** The invariant *)

Lemma inv_init t : inv t [] (portForwarding t).
Proof. split; cbn; [done|done|set_solver|constructor|set_solver]. Qed.

(** Steps that neither accept nor close: timers may go, time may pass. *)
Lemma inv_quiet t h e s s' :
  inv t h s → is_traffic e = false →
  forwards s' = forwards s →
  connections (counter s') = connections (counter s) →
  generation (counter s') = generation (counter s) →
  timeout (counter s') = timeout (counter s) →
  (∀ x, x ∈ timers (counter s') → x ∈ timers (counter s)) →
  NoDup (timers (counter s')).*1 →
  now s' = now s + elapsed [e] → inv t (h ++ [e]) s'.
Proof.
  intros [Ht Hc Hg Hn Ha] He Hf Hcn Hgn Htn Htm Hnd Hnow. split.
  - congruence.
  - congruence.
  - intros g d Hgd. rewrite Hgn. eapply Hg. by apply Htm.
  - done.
  - intros g d Hgd Heq H0. rewrite Hgn in Heq. rewrite Hf in H0.
    destruct (Ha g d) as (h2 & Hi & ->); [by apply Htm|done|done|].
    exists (h2 ++ [e]). split; [by apply idle_since_snoc|].
    rewrite elapsed_snoc, Hnow. destruct e; cbn; lia.
Qed.

Lemma inv_accept t h s :
  inv t h s → inv t (h ++ [EAccept]) (with_counter s (S (forwards s)) (Add (counter s))).
Proof. intros [Ht Hc Hg Hn Ha]. split; cbn; [done|lia|done|done|done]. Qed.

Lemma inv_close t h s n :
  0 < t → inv t h s → forwards s = S n →
  inv t (h ++ [EClose]) (with_counter s n (Dec (now s) (counter s))).
Proof.
  intros Hpos [Ht Hc Hg Hn Ha] Hf. unfold Dec. case_decide as Hd; split; cbn; try done; try lia.
  - intros g d [[= -> ->]|Hgd]%elem_of_cons; [lia|]. apply Hg in Hgd. lia.
  - constructor; [|done]. intros ([g d] & Heq & Hgd)%list_elem_of_fmap. cbn in Heq. subst g.
    apply Hg in Hgd. lia.
  - intros g d [[= -> ->]|Hgd]%elem_of_cons Hge H0; [|apply Hg in Hgd; lia].
    exists []. split; [|cbn; lia]. exists h. by rewrite Forall_nil.
Qed.

Lemma inv_step t h e s s' : 0 < t → inv t h s → step s e = Some s' → inv t (h ++ [e]) s'.
Proof.
  intros Hpos Hi Hs. destruct e as [| |d|i| |i]; cbn in Hs.
  - injection Hs as <-. by apply inv_accept.
  - destruct (forwards s) as [|n] eqn:Hf; [done|]. injection Hs as <-.
    by apply inv_close.
  - case_decide; [|done]. injection Hs as <-.
    eapply inv_quiet; [done..|apply (inv_nodup _ _ _ Hi)|cbn; lia].
  - destruct (timers (counter s) !! i) as [[g d]|]; [|done]. cbn in Hs.
    case_decide; [|done]. injection Hs as <-.
    eapply inv_quiet; [done..| | |cbn; lia];
      [intros x; apply elem_of_delete_timers|apply delete_timers_nodup, Hi].
  - injection Hs as <-. eapply inv_quiet; [done..|apply (inv_nodup _ _ _ Hi)|cbn; lia].
  - destruct (timers (counter s) !! i) as [x|]; [|done]. cbn in Hs.
    destruct (cancelled s); [|done]. injection Hs as <-.
    eapply inv_quiet; [done..| | |cbn; lia];
      [intros y; apply elem_of_delete_timers|apply delete_timers_nodup, Hi].
Qed.

Lemma inv_run t h s : 0 < t → run (portForwarding t) h = Some s → inv t h s.
Proof.
  intros Hpos. revert s. induction h as [|e h IH] using rev_ind; intros s.
  - intros [= <-]. apply inv_init.
  - rewrite run_snoc. destruct (run (portForwarding t) h) as [s0|] eqn:Hr; [|done].
    cbn. intros Hs. eapply inv_step; [done|by apply IH|done].
Qed.

(** ** The theorems *)

(** C36: [onTimeout] is called only after the forwarding was idle for the whole
    timeout: no connection is open, the last event of any connection is the closing of
    one, and at least the timeout has passed since then. *)
Theorem onTimeout_only_when_idle (t : Z) (h : list event) (s s' : forwarding) (e : event) :
  0 < t → run (portForwarding t) h = Some s → step s e = Some s' →
  (timeouts (counter s) < timeouts (counter s'))%nat →
  forwards s = O ∧ ∃ h2, idle_since h h2 ∧ t ≤ elapsed h2.
Proof.
  intros Hpos Hr Hs Hlt. apply inv_run in Hr; [|done].
  destruct e as [| |d|i| |i]; cbn in Hs.
  - injection Hs as <-. cbn in Hlt. lia.
  - destruct (forwards s); [done|]. injection Hs as <-. unfold Dec in Hlt.
    case_decide; cbn in Hlt; lia.
  - case_decide; [|done]. injection Hs as <-. cbn in Hlt. lia.
  - destruct (timers (counter s) !! i) as [[g d]|] eqn:Hi; [|done]. cbn in Hs.
    case_decide as Hd; [|done]. injection Hs as <-. cbn in Hlt.
    case_decide as Hg; [|lia]. destruct Hg as [Hg Hc].
    rewrite (inv_count _ _ _ Hr) in Hc. assert (forwards s = O) as H0 by lia.
    split; [done|]. apply list_elem_of_lookup_2 in Hi.
    destruct (inv_armed _ _ _ Hr g d Hi) as (h2 & Hid & ->); [done|done|].
    exists h2. split; [done|lia].
  - injection Hs as <-. cbn in Hlt. lia.
  - destruct (timers (counter s) !! i) as [x|]; [|done]. cbn in Hs.
    destruct (cancelled s); [|done]. injection Hs as <-. cbn in Hlt. lia.
Qed.

Definition busy_history : list event :=
  [EAccept; ETick 5; EClose; ETick 7; EAccept; ETick 1; EClose; ETick 3; EExpire 1; ETick 7].
Lemma onTimeout_only_when_idle_witness :
  run (portForwarding 10) (busy_history ++ [EExpire 0]) =
    Some {| now := 23; cancelled := false; forwards := 0;
            counter := {| timeout := 10; connections := 0; generation := 2; timers := [];
                          timeouts := 1 |} |} ∧
  ∃ h2, idle_since busy_history h2 ∧ 10 ≤ elapsed h2.
Proof.
  split; [vm_compute; reflexivity|].
  eapply (onTimeout_only_when_idle 10 busy_history _ _ (EExpire 0)).
  - lia.
  - vm_compute. reflexivity.
  - vm_compute. reflexivity.
  - cbn. lia.
Defined.

(** The timer of the current idle period, while it has not run. *)
Definition pending (h2 : list event) : Prop :=
  Forall (λ e, match e with ETick _ | ECancel => True | _ => False end) h2.

Lemma run_app s h1 h2 : run s (h1 ++ h2) = run s h1 ≫= λ s', run s' h2.
Proof.
  revert s. induction h1 as [|e h1 IH]; intros s; cbn; [done|].
  destruct (step s e); [apply IH|done].
Qed.

(** While only time passes the counter does not change. *)
Lemma run_pending h2 : ∀ s s',
  pending h2 → run s h2 = Some s' → counter s' = counter s ∧ now s' = now s + elapsed h2.
Proof.
  induction h2 as [|e h2 IH]; intros s s' Hp; [intros [= <-]; cbn; split; [done|lia]|].
  inversion Hp as [|?? He Hp']; subst.
  destruct e as [| |d| | |]; try done; cbn.
  - case_decide; [|done]. cbn. intros Hr. apply IH in Hr as [Hc Hn]; [|done].
    cbn in *. split; [done|lia].
  - intros Hr. apply IH in Hr as [Hc Hn]; [|done]. by split.
Qed.

(** An idle forwarding is stopped: once the last connection was closed and
    at least the timeout has passed without another one, the timer that was started on
    closing it is ready, and running it calls [onTimeout]. *)
Theorem onTimeout_when_idle (t : Z) (h h2 : list event) (s0 s : forwarding) :
  0 < t → run (portForwarding t) (h ++ [EClose]) = Some s0 → forwards s0 = O →
  run s0 h2 = Some s → pending h2 → t ≤ elapsed h2 →
  ∃ i s', step s (EExpire i) = Some s' ∧
          timeouts (counter s') = S (timeouts (counter s)).
Proof.
  intros Hpos Hr0 H0 Hr Hp He. exists O.
  destruct (run_pending h2 s0 s Hp Hr) as [Hc Hn].
  rewrite run_snoc in Hr0. destruct (run (portForwarding t) h) as [s1|] eqn:H1; [|done].
  apply inv_run in H1; [|done]. cbn in Hr0.
  destruct (forwards s1) as [|n] eqn:Hf; [done|]. injection Hr0 as <-. cbn in *.
  rewrite Hc. unfold Dec in *. pose proof (inv_count _ _ _ H1) as Hcount.
  pose proof (inv_timeout _ _ _ H1) as Ht. subst n.
  rewrite decide_True by lia. cbn. rewrite decide_True by lia.
  eexists. split; [reflexivity|]. cbn. by rewrite decide_True by lia.
Qed.

Lemma onTimeout_when_idle_witness :
  ∃ i s', step {| now := 16; cancelled := true; forwards := 0;
    counter := {| timeout := 10; connections := 0; generation := 1; timers := [(1, 15)];
                  timeouts := 0 |} |} (EExpire i) = Some s' ∧
    timeouts (counter s') = 1%nat.
Proof.
  eapply (onTimeout_when_idle 10 [EAccept; ETick 5] [ETick 4; ECancel; ETick 7]).
  - lia.
  - vm_compute. reflexivity.
  - reflexivity.
  - vm_compute. reflexivity.
  - repeat constructor.
  - cbn. lia.
Defined.

(** ** The wait group of a forwarded connection

    [forward] and [reverseForward] start a goroutine that ends with
    [waitGroup.Done] and call [waitGroup.Add(1)] only afterwards, twice.  [Done] on a
    counter of zero is a run-time panic. *)
Module WaitGroup.
Inductive instr := Go | AddOne | Wait.
Definition forward : list instr := [Go; AddOne; Go; AddOne; Wait].

(** The instructions left, the goroutines that have not ended, the counter. *)
Record state := { rest : list instr; running : nat; wg : nat }.

Inductive action := Main | Done.
Definition wg_step (s : state) (a : action) : result state :=
  match a, rest s with
  | Main, Go :: r => Ok {| rest := r; running := S (running s); wg := wg s |}
  | Main, AddOne :: r => Ok {| rest := r; running := running s; wg := S (wg s) |}
  | Main, Wait :: r => match wg s with O => Ok {| rest := r; running := running s; wg := O |}
                       | S _ => Ok s end
  | Main, [] => Ok s
  | Done, _ =>
      match running s with
      | O => Ok s
      | S n => match wg s with O => Panic | S w => Ok {| rest := rest s; running := n; wg := w |} end
      end
  end.
Fixpoint wg_run (s : state) (l : list action) : result state :=
  match l with [] => Ok s | a :: l' => s' ← wg_step s a; wg_run s' l' end.

(** A goroutine that ends before [Add] runs panics. *)
Example forward_panics :
  wg_run {| rest := forward; running := 0; wg := 0 |} [Main; Done] = Panic.
Proof. reflexivity. Qed.
End WaitGroup.
