(* ===== verification/Provider.v ===== *)
(** * pkg/provider: provider definitions

    The provider.yaml document (provider.go), its validation, and the options
    given on the command line (parse.go).  A slice or map that may be nil is
    an [option]; a pointer that may be nil is an [option] too.  A map that is
    iterated is the list of its entries in the order they are visited.  The
    YAML decoder, [semver.Parse] and [regexp.Compile] are parameters. *)

From S2P Require Import Prelude GoStrings GoRegexp Types Config.
From stdpp Require Import base gmap list strings pretty.
From Stdlib Require Import ZArith.

Local Open Scope string_scope.

(** ** provider.go *)

Notation StrArray := (option (list string)).
(** [len(a)] of a possibly nil slice. *)
Definition len {A} (a : option (list A)) : nat := length (default [] a).

Record ProviderOptionGroup := {
  og_name : string; og_options : StrArray; og_defaultVisible : bool }.

Record ProviderSource := {
  ps_internal : bool; ps_github : string; ps_file : string; ps_url : string;
  ps_raw : string }.

Record ProviderBinary := {
  pb_OS : string; pb_Arch : string; pb_Checksum : string; pb_Path : string;
  pb_ArchivePath : string; pb_Name : string }.
#[export] Instance ProviderBinary_eq_dec : EqDecision ProviderBinary.
Proof. solve_decision. Defined.

(** [map[string]ProviderBinary pointers] *)
Notation Binaries := (option (list (string * option (list (option ProviderBinary))))).

Record ProviderDockerlessOptions := {
  dl_disabled : string; dl_image : string; dl_ignorePaths : string;
  dl_registryCache : string; dl_disableDockerCredentials : string }.
#[export] Instance ProviderDockerlessOptions_eq_dec : EqDecision ProviderDockerlessOptions.
Proof. solve_decision. Defined.

Record ProviderCustomDriverConfig := {
  cd_findDevContainer : StrArray;
  cd_commandDevContainer : StrArray;
  cd_targetArchitecture : StrArray;
  cd_runDevContainer : StrArray;
  cd_startDevContainer : StrArray;
  cd_stopDevContainer : StrArray;
  cd_deleteDevContainer : StrArray;
  cd_canReprovision : string;
  cd_getDevContainerLogs : StrArray }.
#[export] Instance ProviderCustomDriverConfig_eq_dec : EqDecision ProviderCustomDriverConfig.
Proof. solve_decision. Defined.

Record ProviderDockerDriverConfig := {
  dd_path : string; dd_install : string; dd_builder : string; dd_env : gomap string }.
#[export] Instance ProviderDockerDriverConfig_eq_dec : EqDecision ProviderDockerDriverConfig.
Proof. unfold gomap. solve_decision. Defined.

Record ProviderKubernetesDriverConfig := {
  k_kubernetesContext : string; k_kubernetesConfig : string;
  k_kubernetesNamespace : string; k_podTimeout : string;
  k_kubernetesPullSecretsEnabled : string; k_createNamespace : string;
  k_clusterRole : string; k_serviceAccount : string;
  k_architecture : string; k_inactivityTimeout : string; k_storageClass : string;
  k_diskSize : string; k_pvcAccessMode : string; k_pvcAnnotations : string;
  k_nodeSelector : string; k_resources : string; k_workspaceVolumeMount : string;
  k_podManifestTemplate : string; k_labels : string; k_strictSecurity : string }.
#[export] Instance ProviderKubernetesDriverConfig_eq_dec :
  EqDecision ProviderKubernetesDriverConfig.
Proof. solve_decision. Defined.

Record ProviderAgentConfigExec := { ae_shutdown : StrArray }.
#[export] Instance ProviderAgentConfigExec_eq_dec : EqDecision ProviderAgentConfigExec.
Proof. solve_decision. Defined.

Record ProviderAgentConfig := {
  a_local : string;
  a_path : string;
  a_dataPath : string;
  a_downloadURL : string;
  a_timeout : string;
  a_containerTimeout : string;
  a_injectGitCredentials : string;
  a_injectDockerCredentials : string;
  a_exec : ProviderAgentConfigExec;
  a_binaries : Binaries;
  a_dockerless : ProviderDockerlessOptions;
  a_driver : string;
  a_docker : ProviderDockerDriverConfig;
  a_custom : ProviderCustomDriverConfig;
  a_kubernetes : ProviderKubernetesDriverConfig }.
#[export] Instance ProviderAgentConfig_eq_dec : EqDecision ProviderAgentConfig.
Proof. solve_decision. Defined.

(** [ProviderAgentConfig{}] *)
Definition zero_agent : ProviderAgentConfig := {|
  a_local := ""; a_path := ""; a_dataPath := ""; a_downloadURL := ""; a_timeout := "";
  a_containerTimeout := ""; a_injectGitCredentials := ""; a_injectDockerCredentials := "";
  a_exec := {| ae_shutdown := None |}; a_binaries := None;
  a_dockerless := {| dl_disabled := ""; dl_image := ""; dl_ignorePaths := "";
                     dl_registryCache := ""; dl_disableDockerCredentials := "" |};
  a_driver := "";
  a_docker := {| dd_path := ""; dd_install := ""; dd_builder := ""; dd_env := None |};
  a_custom := {| cd_findDevContainer := None; cd_commandDevContainer := None;
    cd_targetArchitecture := None; cd_runDevContainer := None;
    cd_startDevContainer := None; cd_stopDevContainer := None;
    cd_deleteDevContainer := None; cd_canReprovision := "";
    cd_getDevContainerLogs := None |};
  a_kubernetes := {| k_kubernetesContext := ""; k_kubernetesConfig := "";
    k_kubernetesNamespace := ""; k_podTimeout := ""; k_kubernetesPullSecretsEnabled := "";
    k_createNamespace := ""; k_clusterRole := ""; k_serviceAccount := "";
    k_architecture := ""; k_inactivityTimeout := ""; k_storageClass := "";
    k_diskSize := ""; k_pvcAccessMode := ""; k_pvcAnnotations := ""; k_nodeSelector := "";
    k_resources := ""; k_workspaceVolumeMount := ""; k_podManifestTemplate := "";
    k_labels := ""; k_strictSecurity := "" |} |}.

Definition DockerDriver : string := "docker".
Definition KubernetesDriver : string := "kubernetes".
Definition CustomDriver : string := "custom".
Definition IsDockerDriver (a : ProviderAgentConfig) : bool :=
  bool_decide (a_driver a = "" ∨ a_driver a = DockerDriver).

Record CreateProxyCommands := { cp_workspace : StrArray }.
Record GetProxyCommands := { gp_workspace : StrArray; gp_self : StrArray; gp_version : StrArray }.
Record ListProxyCommands := {
  lp_workspaces : StrArray; lp_projects : StrArray; lp_templates : StrArray;
  lp_clusters : StrArray }.
Record WatchProxyCommands := { wp_workspaces : StrArray }.
Record UpdateProxyCommands := { up_workspace : StrArray }.
Record ProxyCommands := {
  px_up : StrArray; px_stop : StrArray; px_delete : StrArray; px_ssh : StrArray;
  px_status : StrArray; px_health : StrArray; px_create : CreateProxyCommands;
  px_get : GetProxyCommands; px_list : ListProxyCommands; px_watch : WatchProxyCommands;
  px_update : UpdateProxyCommands }.
Record DaemonCommands := { dm_start : StrArray; dm_status : StrArray }.

Record ProviderCommands := {
  e_init : StrArray;
  e_command : StrArray;
  e_create : StrArray;
  e_delete : StrArray;
  e_start : StrArray;
  e_stop : StrArray;
  e_status : StrArray;
  e_proxy : option ProxyCommands;
  e_daemon : option DaemonCommands }.

Record ProviderConfig := {
  p_name : string;
  p_version : string;
  p_icon : string;
  p_iconDark : string;
  p_home : string;
  p_source : ProviderSource;
  p_description : string;
  p_optionGroups : list ProviderOptionGroup;
  p_options : list (string * option Option_);
  p_agent : ProviderAgentConfig;
  p_exec : ProviderCommands;
  p_binaries : Binaries }.

Definition IsMachineProvider (c : ProviderConfig) : bool := (0 <? len (e_create (p_exec c)))%nat.
Definition IsProxyProvider (c : ProviderConfig) : bool := bool_decide (is_Some (e_proxy (p_exec c))).
Definition HasHealthCheck (c : ProviderConfig) : bool :=
  match e_proxy (p_exec c) with
  | Some p => (0 <? len (px_health p))%nat
  | None => false
  end.
Definition IsDaemonProvider (c : ProviderConfig) : bool :=
  bool_decide (is_Some (e_daemon (p_exec c))).

(** ** parse.go *)

Definition is_name_char (c : ascii) : bool :=
  is_lower c || is_digit c || bool_decide (c = "-"%char).
Definition ProviderNameRegEx : re := Plus true (Chr (λ c, negb (is_name_char c))).
Definition is_option_char (c : ascii) : bool :=
  is_upper c || is_digit c || bool_decide (c = "_"%char).
Definition optionNameRegEx : re := Plus true (Chr (λ c, negb (is_option_char c))).
Definition allowedTypes : list string :=
  ["string"; "multiline"; "duration"; "number"; "boolean"].

(** [if cond { return fmt.Errorf(msg) }] *)
Definition fail_if (cond : bool) (msg : string) : result unit :=
  if cond then Err msg else Ok ().
Definition nonempty {A} (a : option (list A)) : bool := (0 <? len a)%nat.
Definition sempty (s : string) : bool := bool_decide (s = "").

(** [for ... range l { ... }] without state. *)
Fixpoint eachR {A} (l : list A) (f : A → result unit) : result unit :=
  match l with
  | [] => Ok ()
  | x :: l' => f x ≫= λ _, eachR l' f
  end.

Definition validate_binary (prefix binaryName : string) (b : option ProviderBinary)
    : result unit :=
  b ← deref b;
  _ ← fail_if (bool_decide (pb_OS b ∉ ["linux"; "darwin"; "windows"]))
        ("unsupported binary operating system '" +:+ pb_OS b +:+
         "', must be 'linux', 'darwin' or 'windows'");
  _ ← fail_if (sempty (pb_Path b))
        (prefix +:+ "." +:+ binaryName +:+ ".path required binary path, cannot be empty");
  _ ← fail_if (sempty (pb_ArchivePath b) &&
               (HasSuffix (pb_Path b) ".gz" || HasSuffix (pb_Path b) ".tar" ||
                HasSuffix (pb_Path b) ".tgz" || HasSuffix (pb_Path b) ".zip"))
        (prefix +:+ "." +:+ binaryName +:+
         ".archivePath required because binary path is an archive");
  fail_if (sempty (pb_Arch b))
    (prefix +:+ "." +:+ binaryName +:+ ".arch required, cannot be empty").

Definition validateBinaries (prefix : string) (binaries : Binaries) : result unit :=
  eachR (default [] binaries) (λ '(binaryName, binaryArr),
    _ ← fail_if (MatchString optionNameRegEx binaryName)
          ("binary name '" +:+ binaryName +:+ "' can only consist of upper case letters, numbers or underscores. E.g. MY_BINARY, KUBECTL");
    eachR (default [] binaryArr) (validate_binary prefix binaryName)).

Definition validateOptionGroups (config : ProviderConfig) : result unit :=
  eachR (imap pair (p_optionGroups config)) (λ '(idx, group),
    fail_if (sempty (og_name group))
      ("optionGroups[" +:+ pretty idx +:+ "].name cannot be empty")).

(** The checks shared by proxy and daemon providers. *)
Definition validate_no_machine (config : ProviderConfig) (kind : string) : result unit :=
  let exec := p_exec config in
  let create := "exec.create is not allowed in " +:+ kind +:+ " providers" in
  _ ← fail_if (bool_decide (p_agent config ≠ zero_agent))
        ("agent config is not allowed for " +:+ kind +:+ " providers");
  _ ← fail_if (nonempty (e_command exec))
        ("exec.command is not allowed in " +:+ kind +:+ " providers");
  _ ← fail_if (nonempty (e_create exec)) create;
  _ ← fail_if (nonempty (e_start exec)) create;
  _ ← fail_if (nonempty (e_stop exec)) create;
  _ ← fail_if (nonempty (e_status exec)) create;
  fail_if (nonempty (e_delete exec)) create.

Definition required (a : StrArray) (msg : string) : result unit :=
  fail_if (negb (nonempty a)) msg.

Definition validate_proxy (config : ProviderConfig) (p : ProxyCommands) : result unit :=
  _ ← validate_no_machine config "proxy";
  _ ← required (px_status p) "exec.proxy.status is required for proxy providers";
  _ ← required (px_stop p) "exec.proxy.stop is required for proxy providers";
  _ ← required (px_delete p) "exec.proxy.delete is required for proxy providers";
  _ ← required (px_ssh p) "exec.proxy.ssh is required for proxy providers";
  required (px_up p) "exec.proxy.up is required for proxy providers".

Definition validate_daemon (config : ProviderConfig) (d : DaemonCommands) : result unit :=
  _ ← validate_no_machine config "daemon";
  required (dm_start d) "exec.daemon.start is required for daemon providers".

Definition validate_custom (c : ProviderCustomDriverConfig) : result unit :=
  _ ← required (cd_targetArchitecture c) "agent.custom.targetArchitecture is required";
  _ ← required (cd_startDevContainer c) "agent.custom.startDevContainer is required";
  _ ← required (cd_stopDevContainer c) "agent.custom.stopDevContainer is required";
  _ ← required (cd_runDevContainer c) "agent.custom.runDevContainer is required";
  _ ← required (cd_deleteDevContainer c) "agent.custom.deleteDevContainer is required";
  _ ← required (cd_findDevContainer c) "agent.custom.findDevContainer is required";
  required (cd_commandDevContainer c) "agent.custom.commandDevContainer is required".

Definition validateProviderType (config : ProviderConfig) : result unit :=
  let exec := p_exec config in
  let driver := a_driver (p_agent config) in
  match e_proxy exec, e_daemon exec with
  | Some p, _ => validate_proxy config p
  | None, Some d => validate_daemon config d
  | None, None =>
      _ ← fail_if (bool_decide (driver ∉ [""; CustomDriver; DockerDriver; KubernetesDriver]))
            "agent.driver can only be docker, kubernetes or custom";
      _ ← (if decide (driver = CustomDriver) then validate_custom (a_custom (p_agent config))
           else Ok ());
      _ ← validateBinaries "agent.binaries" (a_binaries (p_agent config));
      _ ← required (e_command exec) "exec.command is required";
      _ ← fail_if (nonempty (e_create exec) && negb (nonempty (e_delete exec)))
            "exec.delete is required";
      _ ← fail_if (negb (nonempty (e_create exec)) && nonempty (e_delete exec))
            "exec.create is required";
      _ ← fail_if (negb (nonempty (e_start exec)) && nonempty (e_stop exec))
            "exec.start is required";
      _ ← fail_if (negb (nonempty (e_stop exec)) && nonempty (e_start exec))
            "exec.start is required";
      _ ← fail_if (negb (nonempty (e_status exec)) && nonempty (e_start exec))
            "exec.status is required";
      fail_if (negb (nonempty (e_create exec)) && nonempty (e_start exec))
        "exec.create is required"
  end.

Section Validate.
(** [semver.Parse] and [regexp.Compile]: the error, if there is one. *)
Context (semver_Parse regexp_Compile : string → option string).

(** The text of the error of [time.ParseDuration] is left out. *)
Definition validate_option (opt : string * option Option_) : result unit :=
  let '(optionName, optionValue) := opt in
  let q := "'" +:+ optionName +:+ "'" in
  _ ← fail_if (MatchString optionNameRegEx optionName)
        ("provider option " +:+ q +:+ " can only consist of upper case letters, numbers or underscores. E.g. MY_OPTION, MY_OTHER_OPTION");
  o ← deref optionValue;
  _ ← (if sempty (o_validationPattern o) then Ok ()
       else match regexp_Compile (o_validationPattern o) with
            | Some e => Err ("error parsing validation pattern '" +:+ o_validationPattern o +:+
                             "' for option " +:+ q +:+ ": " +:+ e)
            | None => Ok ()
            end);
  _ ← fail_if (negb (sempty (o_default o)) && negb (sempty (o_command o)))
        ("default and command cannot be used together in option " +:+ q);
  _ ← fail_if (o_global o && negb (sempty (o_cache o)))
        ("global and cache cannot be used together in option " +:+ q);
  _ ← fail_if (o_global o && o_mutable o)
        ("global and mutable cannot be used together in option " +:+ q);
  _ ← fail_if (negb (sempty (o_cache o)) && bool_decide (ParseDuration (o_cache o) = None))
        ("invalid cache value for option " +:+ q);
  _ ← fail_if (negb (sempty (o_type o)) && bool_decide (o_type o ∉ allowedTypes))
        ("type can only be one of in option " +:+ q +:+
         ": [string multiline duration number boolean]");
  fail_if (negb (sempty (o_cache o)) && sempty (o_command o))
    ("cache can only be used with command in option " +:+ q).

Definition validate (config : ProviderConfig) : result unit :=
  _ ← fail_if (sempty (p_name config)) "name is missing in provider.yaml";
  _ ← fail_if (MatchString ProviderNameRegEx (p_name config))
        "provider name can only include lowercase letters, numbers or dashes";
  _ ← fail_if (32 <? String.length (p_name config))%nat
        "provider name cannot be longer than 32 characters";
  _ ← (if sempty (p_version config) then Ok ()
       else match semver_Parse (TrimPrefix (p_version config) "v") with
            | Some e => Err ("parse provider version: " +:+ e)
            | None => Ok ()
            end);
  _ ← eachR (p_options config) validate_option;
  _ ← validateBinaries "binaries" (p_binaries config);
  _ ← validateProviderType config;
  validateOptionGroups config.

(** [ParseProvider], with the decoded document. *)
Definition ParseProvider (decoded : string + ProviderConfig) : result ProviderConfig :=
  config ← wrap "parse provider config" (of_sum decoded);
  _ ← wrap "validate" (validate config);
  Ok config.
End Validate.

(** [ParseOptions] *)
Definition parse_option (option : string) : result (string * string) :=
  match Split "=" option with
  | key :: ((_ :: _) as value) => Ok (ToUpper (TrimSpace key), GoStrings.Join value "=")
  | _ => Err ("invalid option '" +:+ option +:+ "', expected format KEY=VALUE")
  end.
Fixpoint parse_options (retMap : gmap string string) (options : list string)
    : result (gmap string string) :=
  match options with
  | [] => Ok retMap
  | option :: options' =>
      '(key, value) ← parse_option option;
      parse_options (<[key := value]> retMap) options'
  end.
Definition ParseOptions (options : list string) : result (gmap string string) :=
  parse_options ∅ options.
