(* ===== verification/ProviderProps.v ===== *)
(** * Properties of provider definitions *)

From S2P Require Import Prelude GoStrings GoRegexp Types Config Provider.
From stdpp Require Import base gmap list strings.
From Stdlib Require Import ZArith Lia.

Local Open Scope string_scope.

(** ** Sequences of checks *)

Lemma bind_unit_Ok {A} (c : result unit) (k : result A) a :
  (c ≫= λ _, k) = Ok a ↔ c = Ok () ∧ k = Ok a.
Proof. destruct c as [[]| | |]; cbn; naive_solver. Qed.
Lemma fail_if_Ok b msg : fail_if b msg = Ok () ↔ b = false.
Proof. by destruct b. Qed.
Lemma eachR_Ok {A} (l : list A) f : eachR l f = Ok () ↔ ∀ x, x ∈ l → f x = Ok ().
Proof.
  induction l as [|x l IH]; cbn; [split; [by intros _ x ?%not_elem_of_nil|done]|].
  rewrite bind_unit_Ok, IH. split.
  - intros [Hx Hl] y [->|Hy]%elem_of_cons; auto.
  - intros H. split; [apply H; left|]. intros y Hy. apply H. by right.
Qed.
Lemma deref_bind_Ok {A B} (o : option A) (k : A → result B) b :
  (deref o ≫= k) = Ok b ↔ ∃ a, o = Some a ∧ k a = Ok b.
Proof. destruct o; cbn; naive_solver. Qed.
Lemma sempty_true s : sempty s = true ↔ s = "".
Proof. apply bool_decide_eq_true. Qed.
Lemma sempty_false s : sempty s = false ↔ s ≠ "".
Proof. apply bool_decide_eq_false. Qed.
Lemma nonempty_true {A} (a : option (list A)) : nonempty a = true ↔ default [] a ≠ [].
Proof.
  unfold nonempty, len. rewrite Nat.ltb_lt.
  destruct (default [] a); cbn; split; intros; [lia|done|done|lia].
Qed.

Create HintDb checks.
#[export] Hint Rewrite @bind_unit_Ok fail_if_Ok @deref_bind_Ok sempty_true sempty_false
  negb_true_iff negb_false_iff andb_true_iff andb_false_iff orb_true_iff orb_false_iff
  bool_decide_eq_true bool_decide_eq_false : checks.

(** A name accepted by [optionNameRegEx] or [ProviderNameRegEx]. *)
Lemma MatchString_complement p s :
  MatchString (Plus true (Chr (λ c, negb (p c)))) s = false ↔ sforall p s = true.
Proof.
  rewrite (MatchString_class _ (λ c, negb (p c)) s) by (right; by eexists).
  rewrite negb_false_iff. unfold snone.
  induction s as [|c s IH]; [done|]. cbn. by rewrite negb_involutive, !andb_true_iff, IH.
Qed.

Lemma optionName_ok s :
  MatchString optionNameRegEx s = false ↔ sforall is_option_char s = true.
Proof. apply MatchString_complement. Qed.
Lemma providerName_ok s :
  MatchString ProviderNameRegEx s = false ↔ sforall is_name_char s = true.
Proof. apply MatchString_complement. Qed.

(** ** What a valid provider is *)

Section Spec.
Context (semver_Parse regexp_Compile : string → option string).

Record option_ok (name : string) (o : Option_) : Prop := {
  ok_name : sforall is_option_char name = true;
  ok_pattern : o_validationPattern o ≠ "" → regexp_Compile (o_validationPattern o) = None;
  ok_source : o_default o = "" ∨ o_command o = "";
  ok_global : o_global o = true → o_cache o = "" ∧ o_mutable o = false;
  ok_cache : o_cache o ≠ "" → o_command o ≠ "" ∧ ParseDuration (o_cache o) ≠ None;
  ok_type : o_type o = "" ∨ o_type o ∈ allowedTypes;
}.

Definition is_archive (path : string) : bool :=
  HasSuffix path ".gz" || HasSuffix path ".tar" || HasSuffix path ".tgz" ||
  HasSuffix path ".zip".

Record binary_ok (b : ProviderBinary) : Prop := {
  bin_os : pb_OS b ∈ ["linux"; "darwin"; "windows"];
  bin_path : pb_Path b ≠ "";
  bin_archive : is_archive (pb_Path b) = true → pb_ArchivePath b ≠ "";
  bin_arch : pb_Arch b ≠ "";
}.

Definition binaries_ok (bs : Binaries) : Prop :=
  ∀ name arr, (name, arr) ∈ default [] bs →
    sforall is_option_char name = true ∧
    ∀ b, b ∈ default [] arr → ∃ b', b = Some b' ∧ binary_ok b'.

(** A command is defined. *)
Definition has (a : StrArray) : Prop := default [] a ≠ [].

(** A provider that is reached through a proxy or a daemon has no machine of its own. *)
Record no_machine (c : ProviderConfig) : Prop := {
  nm_agent : p_agent c = zero_agent;
  nm_command : ¬ has (e_command (p_exec c));
  nm_create : ¬ has (e_create (p_exec c));
  nm_start : ¬ has (e_start (p_exec c));
  nm_stop : ¬ has (e_stop (p_exec c));
  nm_status : ¬ has (e_status (p_exec c));
  nm_delete : ¬ has (e_delete (p_exec c));
}.

Record custom_ok (c : ProviderCustomDriverConfig) : Prop := {
  cu_arch : has (cd_targetArchitecture c);
  cu_start : has (cd_startDevContainer c);
  cu_stop : has (cd_stopDevContainer c);
  cu_run : has (cd_runDevContainer c);
  cu_delete : has (cd_deleteDevContainer c);
  cu_find : has (cd_findDevContainer c);
  cu_command : has (cd_commandDevContainer c);
}.

(** Machines can be created and deleted, or neither; started and stopped, or
    neither, and then they have a status and can be created. *)
Record machine_ok (c : ProviderConfig) : Prop := {
  mc_driver : a_driver (p_agent c) ∈ [""; CustomDriver; DockerDriver; KubernetesDriver];
  mc_custom : a_driver (p_agent c) = CustomDriver → custom_ok (a_custom (p_agent c));
  mc_binaries : binaries_ok (a_binaries (p_agent c));
  mc_command : has (e_command (p_exec c));
  mc_create : has (e_create (p_exec c)) ↔ has (e_delete (p_exec c));
  mc_start : has (e_start (p_exec c)) ↔ has (e_stop (p_exec c));
  mc_status : has (e_start (p_exec c)) → has (e_status (p_exec c)) ∧ has (e_create (p_exec c));
}.

Definition type_ok (c : ProviderConfig) : Prop :=
  match e_proxy (p_exec c), e_daemon (p_exec c) with
  | Some p, _ => no_machine c ∧ has (px_status p) ∧ has (px_stop p) ∧ has (px_delete p) ∧
                 has (px_ssh p) ∧ has (px_up p)
  | None, Some d => no_machine c ∧ has (dm_start d)
  | None, None => machine_ok c
  end.

Record valid_provider (c : ProviderConfig) : Prop := {
  vp_name : p_name c ≠ "" ∧ sforall is_name_char (p_name c) = true ∧
            (String.length (p_name c) ≤ 32)%nat;
  vp_version : p_version c ≠ "" → semver_Parse (TrimPrefix (p_version c) "v") = None;
  vp_options : ∀ name o, (name, o) ∈ p_options c → ∃ o', o = Some o' ∧ option_ok name o';
  vp_binaries : binaries_ok (p_binaries c);
  vp_type : type_ok c;
  vp_groups : ∀ g, g ∈ p_optionGroups c → og_name g ≠ "";
}.

Lemma nonempty_has a : nonempty a = true ↔ has a.
Proof. apply nonempty_true. Qed.
Lemma nonempty_not a : nonempty a = false ↔ ¬ has a.
Proof. rewrite <-not_true_iff_false, nonempty_has. done. Qed.
Lemma required_Ok a msg : required a msg = Ok () ↔ has a.
Proof. unfold required. rewrite fail_if_Ok, negb_false_iff. apply nonempty_has. Qed.

(** Turn a sequence of checks into the conjunction of what they check. *)
Ltac checks := autorewrite with checks; rewrite ?required_Ok, ?nonempty_has, ?nonempty_not.

Lemma validate_option_Ok name o :
  validate_option regexp_Compile (name, o) = Ok () ↔ ∃ o', o = Some o' ∧ option_ok name o'.
Proof.
  unfold validate_option. rewrite bind_unit_Ok, fail_if_Ok, optionName_ok.
  rewrite deref_bind_Ok.
  assert (∀ o',
    (if sempty (o_validationPattern o') then Ok ()
     else match regexp_Compile (o_validationPattern o') with
          | Some e => Err ("error parsing validation pattern '" +:+ o_validationPattern o' +:+
              "' for option " +:+ ("'" +:+ name +:+ "'") +:+ ": " +:+ e)
          | None => Ok () end) = Ok () ↔
    (o_validationPattern o' ≠ "" → regexp_Compile (o_validationPattern o') = None)) as Hpat.
  { intros o'. destruct (sempty (o_validationPattern o')) eqn:He.
    - apply sempty_true in He. naive_solver.
    - apply sempty_false in He.
      destruct (regexp_Compile (o_validationPattern o')); naive_solver. }
  split.
  - intros [Hn (o' & -> & Ho)]. exists o'. split; [done|].
    rewrite !bind_unit_Ok, Hpat in Ho. autorewrite with checks in Ho.
    destruct Ho as (? & ? & ? & ? & ? & ? & ?).
    split; [done|done|tauto| |tauto|].
    + intros Hg. rewrite Hg in *. split; [naive_solver|].
      destruct (o_mutable o'); naive_solver.
    + destruct (decide (o_type o' ∈ allowedTypes)); naive_solver.
  - intros (o' & -> & []). split; [done|]. exists o'. split; [done|].
    rewrite !bind_unit_Ok, Hpat. autorewrite with checks.
    destruct (o_global o') eqn:?, (o_mutable o') eqn:?,
      (decide (o_cache o' = "")), (decide (o_command o' = "")); naive_solver.
Qed.
Lemma validate_binary_Ok prefix name b :
  validate_binary prefix name b = Ok () ↔ ∃ b', b = Some b' ∧ binary_ok b'.
Proof.
  unfold validate_binary. rewrite deref_bind_Ok.
  apply exist_proper. intros b'. apply and_iff_compat_l.
  rewrite !bind_unit_Ok, !fail_if_Ok, andb_false_iff. fold (is_archive (pb_Path b')).
  autorewrite with checks. split.
  - intros (? & ? & ? & ?). split; [by apply dec_stable|done| |done].
    intros Ha. rewrite Ha in *. naive_solver.
  - intros [? ? Ha ?]. split_and!; [naive_solver|done| |done].
    destruct (is_archive (pb_Path b')); naive_solver.
Qed.

Lemma validateBinaries_Ok prefix bs : validateBinaries prefix bs = Ok () ↔ binaries_ok bs.
Proof.
  unfold validateBinaries, binaries_ok. rewrite eachR_Ok. split.
  - intros H name arr Hin. specialize (H _ Hin). cbn in H.
    rewrite bind_unit_Ok, fail_if_Ok, optionName_ok, eachR_Ok in H.
    destruct H as [Hn Hb]. split; [done|]. intros b Hb'.
    by eapply validate_binary_Ok, Hb.
  - intros H [name arr] Hin. destruct (H name arr Hin) as [Hn Hb].
    rewrite bind_unit_Ok, fail_if_Ok, optionName_ok, eachR_Ok. split; [done|].
    intros b Hb'. by apply validate_binary_Ok, Hb.
Qed.

Lemma validate_no_machine_Ok c kind : validate_no_machine c kind = Ok () ↔ no_machine c.
Proof.
  unfold validate_no_machine. rewrite !bind_unit_Ok, !fail_if_Ok, !nonempty_not.
  rewrite bool_decide_eq_false. split.
  - intros (? & ? & ? & ? & ? & ? & ?). split; try done. by apply dec_stable.
  - intros [-> ??????]. split_and!; [naive_solver|done..].
Qed.

Lemma validate_custom_Ok c : validate_custom c = Ok () ↔ custom_ok c.
Proof.
  unfold validate_custom. rewrite !bind_unit_Ok, !required_Ok. split.
  - intros (? & ? & ? & ? & ? & ? & ?). by split.
  - by intros [].
Qed.

Lemma has_dec a : {has a} + {¬ has a}.
Proof. unfold has. destruct (default [] a); [right|left]; naive_solver. Qed.

Lemma pair_check a b msg :
  fail_if (nonempty a && negb (nonempty b)) msg = Ok () ↔ (has a → has b).
Proof.
  rewrite fail_if_Ok, andb_false_iff, negb_false_iff, nonempty_not, nonempty_has.
  destruct (has_dec a), (has_dec b); naive_solver.
Qed.
Lemma pair_check' a b msg :
  fail_if (negb (nonempty a) && nonempty b) msg = Ok () ↔ (has b → has a).
Proof. rewrite andb_comm. apply pair_check. Qed.

Lemma validateProviderType_Ok c : validateProviderType c = Ok () ↔ type_ok c.
Proof.
  unfold validateProviderType, type_ok.
  destruct (e_proxy (p_exec c)) as [p|]; [|destruct (e_daemon (p_exec c)) as [d|]].
  - unfold validate_proxy. by rewrite !bind_unit_Ok, validate_no_machine_Ok, !required_Ok.
  - unfold validate_daemon. by rewrite !bind_unit_Ok, validate_no_machine_Ok, !required_Ok.
  - rewrite !bind_unit_Ok, !pair_check, !pair_check', validateBinaries_Ok, required_Ok.
    rewrite fail_if_Ok, bool_decide_eq_false.
    assert ((if decide (a_driver (p_agent c) = CustomDriver)
             then validate_custom (a_custom (p_agent c)) else Ok ()) = Ok () ↔
            (a_driver (p_agent c) = CustomDriver → custom_ok (a_custom (p_agent c)))) as ->.
    { case_decide; [rewrite validate_custom_Ok|]; naive_solver. }
    split.
    + intros (? & ? & ? & ? & ? & ? & ? & ? & ? & ?). split; try done; try tauto.
      by apply dec_stable.
    + intros [? ? ? ? ? ? ?]. split_and!; try done; try tauto. 
Qed.

Lemma validateOptionGroups_Ok c :
  validateOptionGroups c = Ok () ↔ ∀ g, g ∈ p_optionGroups c → og_name g ≠ "".
Proof.
  unfold validateOptionGroups. rewrite eachR_Ok. split.
  - intros H g [i Hi]%list_elem_of_lookup. apply sempty_false.
    eapply fail_if_Ok, (H (i, g)). apply list_elem_of_lookup. exists i.
    by rewrite list_lookup_imap, Hi.
  - intros H [i g] Hin. apply list_elem_of_lookup in Hin as [j Hj].
    rewrite list_lookup_imap in Hj. apply fmap_Some in Hj as (g' & Hg & [= -> ->]).
    apply fail_if_Ok, sempty_false, H. by eapply list_elem_of_lookup_2.
Qed.

(** C34: A provider definition is accepted exactly when it is valid: a name of
    at most 32 lower case letters, digits and dashes, a semantic version, option
    and binary names of the right form, options that do not combine attributes that
    exclude each other, binaries that can be located and unpacked, and the commands
    the kind of provider needs: a proxy or daemon provider has no machine commands, a
    machine provider that can create machines can delete them, and one that can
    start them can stop them, ask for their status and create them. *)
Theorem validate_accepts_valid (c : ProviderConfig) :
  validate semver_Parse regexp_Compile c = Ok () ↔ valid_provider c.
Proof.
  unfold validate. rewrite !bind_unit_Ok, !fail_if_Ok, sempty_false, providerName_ok.
  rewrite Nat.ltb_ge, eachR_Ok, validateBinaries_Ok, validateProviderType_Ok,
    validateOptionGroups_Ok.
  assert ((if sempty (p_version c) then Ok ()
    else match semver_Parse (TrimPrefix (p_version c) "v") with
         | Some e => Err ("parse provider version: " +:+ e) | None => Ok () end) = Ok () ↔
    (p_version c ≠ "" → semver_Parse (TrimPrefix (p_version c) "v") = None)) as ->.
  { destruct (sempty (p_version c)) eqn:He.
    - apply sempty_true in He. naive_solver.
    - apply sempty_false in He.
      destruct (semver_Parse (TrimPrefix (p_version c) "v")); naive_solver. }
  split.
  - intros (? & ? & ? & ? & Ho & ? & ? & ?). split; try done.
    intros name o Hin. by apply validate_option_Ok, Ho.
  - intros [(? & ? & ?) ? Ho ? ? ?]. split_and!; try done.
    intros [name o] Hin. by apply validate_option_Ok, Ho.
Qed.
End Spec.

(** ** Options on the command line *)

Lemma parse_option_Ok raw v :
  free "=" raw = true → parse_option (raw +:+ "=" +:+ v) = Ok (ToUpper (TrimSpace raw), v).
Proof.
  intros Hf. unfold parse_option. change ("=" +:+ v) with (String "=" v).
  rewrite Split_app by done. pose proof (Join_Split "=" v) as HJ.
  destruct (Split "=" v) as [|p ps] eqn:Hs; [by apply Split_nonempty in Hs|].
  by rewrite HJ.
Qed.

(** Every option has a "=", the key of which is found by [parse_option]. *)
Definition key_of (option : string) : string :=
  match parse_option option with Ok (k, _) => k | _ => "" end.

Lemma parse_options_total l : ∀ m,
  Forall (λ o, free "=" o = false) l → ∃ m', parse_options m l = Ok m' ∧
  ∀ k, k ∉ key_of <$> l → m' !! k = m !! k.
Proof.
  induction l as [|o l IH]; intros m Hl; [exists m; split; [done|done]|].
  inversion Hl as [|?? Ho Hl']; subst. cbn [parse_options].
  assert (∃ k v, parse_option o = Ok (k, v)) as (k & v & Hp).
  { unfold parse_option. destruct (Split "=" o) as [|p [|q ps]] eqn:Hs.
    - by apply Split_nonempty in Hs.
    - pose proof (Join_Split "=" o) as HJ. rewrite Hs in HJ. cbn in HJ. subst p.
      assert (free "=" o = true); [|congruence]. apply Split_parts_free with o.
      rewrite Hs. left.
    - by eexists _, _. }
  rewrite Hp. cbn [mbind result_bind]. destruct (IH (<[k := v]> m) Hl') as (m' & Hm & Hk).
  exists m'. split; [done|]. intros k' Hk'.
  assert (key_of o = k) as Hko by (unfold key_of; by rewrite Hp).
  rewrite fmap_cons, not_elem_of_cons, Hko in Hk'. destruct Hk' as [Hne Hk'].
  rewrite Hk by done. by rewrite lookup_insert_ne.
Qed.

Lemma parse_options_app m l1 l2 :
  parse_options m (l1 ++ l2) = parse_options m l1 ≫= λ m', parse_options m' l2.
Proof.
  revert m. induction l1 as [|o l1 IH]; intros m; cbn; [done|].
  destruct (parse_option o) as [[k v]| | |]; cbn; [apply IH|done..].
Qed.

(** [ParseOptions] reads [KEY=VALUE]: the value is everything behind the
    first equals sign, the key is trimmed and in upper case, and of several values for a key
    the last one counts. *)
Theorem ParseOptions_last_wins (l1 l2 : list string) (raw v : string) :
  Forall (λ o, free "=" o = false) (l1 ++ l2) → free "=" raw = true →
  ToUpper (TrimSpace raw) ∉ key_of <$> l2 →
  ∃ m, ParseOptions (l1 ++ (raw +:+ "=" +:+ v) :: l2) = Ok m ∧
       m !! ToUpper (TrimSpace raw) = Some v.
Proof.
  intros [H1 H2]%Forall_app Hraw Hk. unfold ParseOptions. rewrite parse_options_app.
  destruct (parse_options_total l1 ∅ H1) as (m1 & -> & _).
  cbn [mbind result_bind parse_options]. rewrite parse_option_Ok by done.
  cbn [mbind result_bind].
  destruct (parse_options_total l2 (<[ToUpper (TrimSpace raw) := v]> m1) H2)
    as (m2 & -> & Hm2).
  exists m2. split; [done|]. rewrite Hm2 by done. apply lookup_insert_eq.
Qed.

Lemma ParseOptions_last_wins_witness :
  ∃ m, ParseOptions ["A=1"; " path=x=y"; "B=2"] = Ok m ∧ m !! "PATH" = Some "x=y".
Proof.
  apply (ParseOptions_last_wins ["A=1"] ["B=2"] " path" "x=y").
  - repeat constructor.
  - reflexivity.
  - refine (bool_decide_unpack _ _). vm_compute. exact I.
Defined.

(** An option without an equals sign is an error. *)
Lemma ParseOptions_rejects (l1 l2 : list string) (o : string) :
  Forall (λ o, free "=" o = false) l1 → free "=" o = true →
  ParseOptions (l1 ++ o :: l2) =
  Err ("invalid option '" +:+ o +:+ "', expected format KEY=VALUE").
Proof.
  intros H1 Ho. unfold ParseOptions. rewrite parse_options_app.
  destruct (parse_options_total l1 ∅ H1) as (m1 & -> & _).
  cbn [mbind result_bind parse_options]. unfold parse_option. by rewrite Split_free.
Qed.

(** ** A provider.yaml with an empty option

    An option written as a key without a value decodes to a nil pointer. *)
Definition test_provider (options : list (string * option Option_)) : ProviderConfig := {|
  p_name := "docker"; p_version := "v0.0.1"; p_icon := ""; p_iconDark := ""; p_home := "";
  p_source := {| ps_internal := true; ps_github := ""; ps_file := ""; ps_url := "";
                 ps_raw := "" |};
  p_description := "DevPod on Docker"; p_optionGroups := []; p_options := options;
  p_agent := zero_agent;
  p_exec := {| e_init := None; e_command := Some ["sh"]; e_create := None; e_delete := None;
    e_start := None; e_stop := None; e_status := None; e_proxy := None; e_daemon := None |};
  p_binaries := None |}.
Example validate_docker :
  validate (λ _, None) (λ _, None) (test_provider [("DOCKER_PATH", Some empty_option)]) = Ok ().
Proof. vm_compute. reflexivity. Qed.
Example validate_nil_option_panics :
  validate (λ _, None) (λ _, None) (test_provider [("DOCKER_PATH", None)]) = Panic.
Proof. vm_compute. reflexivity. Qed.
