(* ===== verification/Options.v ===== *)
(** * Workspaces, machines, and the options commands run with

    pkg/provider: the records of a workspace and a machine (workspace.go,
    machine.go), their directories (dir.go) and the environment of a provider
    command (env.go); pkg/options/resolve.go: what is resolved and what of it is
    saved.  The resolver itself is in Resolver.v.  The operating system is the
    record [sys]; a stored config file is a state. *)

From S2P Require Import Prelude GoStrings GoRegexp Types Config Resolver Git Names Provider.
From S2P Require DevContainer.
From stdpp Require Import base gmap list strings.
From Stdlib Require Import ZArith.

Local Open Scope string_scope.

(** ** Workspaces and machines *)

Record ProMetadata := {
  pro_instanceName : string; pro_project : string; pro_displayName : string }.
Record WorkspaceIDEConfig := { wi_name : string; wi_options : gomap OptionValue }.
Record WorkspaceMachineConfig := { wm_id : string; wm_autoDelete : bool }.
Record WorkspaceProviderConfig := { wpr_name : string; wpr_options : gomap OptionValue }.

Record WorkspaceSource := {
  ws_gitRepository : string; ws_gitBranch : string; ws_gitCommit : string;
  ws_gitPRReference : string; ws_gitSubPath : string; ws_localFolder : string;
  ws_image : string; ws_container : string }.
Definition empty_source : WorkspaceSource := {|
  ws_gitRepository := ""; ws_gitBranch := ""; ws_gitCommit := ""; ws_gitPRReference := "";
  ws_gitSubPath := ""; ws_localFolder := ""; ws_image := ""; ws_container := "" |}.

Record Workspace := {
  w_id : string;
  w_uid : string;
  w_picture : string;
  w_provider : WorkspaceProviderConfig;
  w_machine : WorkspaceMachineConfig;
  w_ide : WorkspaceIDEConfig;
  w_source : WorkspaceSource;
  w_devContainerImage : string;
  w_devContainerPath : string;
  w_devContainerConfig : option DevContainer.DevContainerConfig;
  w_creationTimestamp : Z;
  w_lastUsedTimestamp : Z;
  w_context : string;
  w_imported : bool;
  w_origin : string;
  w_pro : option ProMetadata;
  w_sshConfigPath : string }.
Definition IsPro (w : Workspace) : bool := bool_decide (is_Some (w_pro w)).

Record MachineProviderConfig := { mp_name : string; mp_options : gomap OptionValue }.
Record Machine := {
  mc_id : string;
  mc_provider : MachineProviderConfig;
  mc_creationTimestamp : Z;
  mc_context : string;
  mc_origin : string }.

Definition WorkspaceSourceGit : string := "git:".
Definition WorkspaceSourceLocal : string := "local:".
Definition WorkspaceSourceImage : string := "image:".
Definition WorkspaceSourceContainer : string := "container:".
Definition WorkspaceSourceUnknown : string := "unknown:".

Definition WorkspaceSource_String (w : WorkspaceSource) : string :=
  let repo := WorkspaceSourceGit +:+ ws_gitRepository w in
  if negb (sempty (ws_gitRepository w)) then
    if negb (sempty (ws_gitPRReference w)) then repo +:+ "@" +:+ ws_gitPRReference w
    else if negb (sempty (ws_gitBranch w)) then repo +:+ "@" +:+ ws_gitBranch w
    else if negb (sempty (ws_gitCommit w)) then repo +:+ CommitDelimiter +:+ ws_gitCommit w
    else repo
  else if negb (sempty (ws_localFolder w)) then WorkspaceSourceLocal +:+ ws_localFolder w
  else if negb (sempty (ws_image w)) then WorkspaceSourceImage +:+ ws_image w
  else if negb (sempty (ws_container w)) then WorkspaceSourceContainer +:+ ws_container w
  else "".

Definition WorkspaceSource_Type (w : WorkspaceSource) : string :=
  if negb (sempty (ws_gitRepository w)) then
    if negb (sempty (ws_gitPRReference w)) then WorkspaceSourceGit +:+ "pr"
    else if negb (sempty (ws_gitBranch w)) then WorkspaceSourceGit +:+ "branch"
    else if negb (sempty (ws_gitCommit w)) then WorkspaceSourceGit +:+ "commit"
    else WorkspaceSourceGit
  else if negb (sempty (ws_localFolder w)) then WorkspaceSourceLocal
  else if negb (sempty (ws_image w)) then WorkspaceSourceImage
  else if negb (sempty (ws_container w)) then WorkspaceSourceContainer
  else WorkspaceSourceUnknown.

(** [ParseWorkspaceSource], nil when the prefix is unknown. *)
Definition ParseWorkspaceSource (source : string) : option WorkspaceSource :=
  if HasPrefix source WorkspaceSourceGit then
    let '(gitRepo, gitPRReference, gitBranch, gitCommit, gitSubdir) :=
      NormalizeRepository (TrimPrefix source WorkspaceSourceGit) in
    Some {| ws_gitRepository := gitRepo; ws_gitBranch := gitBranch;
            ws_gitCommit := gitCommit; ws_gitPRReference := gitPRReference;
            ws_gitSubPath := gitSubdir; ws_localFolder := ""; ws_image := "";
            ws_container := "" |}
  else if HasPrefix source WorkspaceSourceLocal then
    Some {| ws_gitRepository := ""; ws_gitBranch := ""; ws_gitCommit := "";
            ws_gitPRReference := ""; ws_gitSubPath := "";
            ws_localFolder := TrimPrefix source WorkspaceSourceLocal; ws_image := "";
            ws_container := "" |}
  else if HasPrefix source WorkspaceSourceImage then
    Some {| ws_gitRepository := ""; ws_gitBranch := ""; ws_gitCommit := "";
            ws_gitPRReference := ""; ws_gitSubPath := ""; ws_localFolder := "";
            ws_image := TrimPrefix source WorkspaceSourceImage; ws_container := "" |}
  else if HasPrefix source WorkspaceSourceContainer then
    Some {| ws_gitRepository := ""; ws_gitBranch := ""; ws_gitCommit := "";
            ws_gitPRReference := ""; ws_gitSubPath := ""; ws_localFolder := "";
            ws_image := ""; ws_container := TrimPrefix source WorkspaceSourceContainer |}
  else None.

(** ** Paths *)

(** [filepath.Clean] and [filepath.Join] with a slash as separator. *)
Fixpoint clean_parts (rooted : bool) (stack parts : list string) : list string :=
  match parts with
  | [] => reverse stack
  | p :: ps =>
      if decide (p = "" ∨ p = ".") then clean_parts rooted stack ps
      else if decide (p = "..") then
        match stack with
        | top :: rest =>
            if decide (top = "..") then clean_parts rooted (".." :: stack) ps
            else clean_parts rooted rest ps
        | [] => clean_parts rooted (if rooted then [] else [".."]) ps
        end
      else clean_parts rooted (p :: stack) ps
  end.
Definition filepath_Clean (path : string) : string :=
  let rooted := HasPrefix path "/" in
  let parts := GoStrings.Join (clean_parts rooted [] (Split "/" path)) "/" in
  if rooted then "/" +:+ parts else if sempty parts then "." else parts.
Fixpoint filepath_Join (elem : list string) : string :=
  match elem with
  | [] => ""
  | e :: es => if sempty e then filepath_Join es
               else filepath_Clean (GoStrings.Join elem "/")
  end.

Example filepath_Join_ex :
  filepath_Join ["/home/me/.devpod"; "contexts"; "default"; "workspaces"; "ws"] =
    "/home/me/.devpod/contexts/default/workspaces/ws" ∧
  filepath_Join [""; "a//b"; "./c/../d"] = "a/b/d" ∧ filepath_Join ["/"; ".."] = "/" ∧
  filepath_Join [""; ""] = "".
Proof. vm_compute. done. Qed.

(** What the code asks the operating system for. *)
Record sys := {
  s_isWindows : bool;
  s_executable : string;              (* os.Executable, the error is ignored *)
  s_GOOS : string;
  s_GOARCH : string;
  s_logLevel : string;
  s_configDir : string + string;      (* config.GetConfigDir *)
  s_environ : list string;            (* os.Environ *)
  s_agentURL : string;                (* os.Getenv(DEVPOD_AGENT_URL) *)
  s_version : string;                 (* version.GetVersion *)
  s_devVersion : string;              (* version.DevVersion *)
  s_iter : ∀ {V}, gmap string V → list (string * V);  (* range over a map *)
}.
(** Documented behaviour of a range over a map: every entry once. *)
Class SysOk (s : sys) : Prop := {
  s_iter_perm : ∀ V (m : gmap string V), s_iter s m ≡ₚ map_to_list m;
}.

Section Env.
Context (s : sys).

Definition ToSlash (p : string) : string :=
  if s_isWindows s then ReplaceAll p "\" "/" else p.

(** *** dir.go *)
Definition context_dir (context : string) (elem : list string) : result string :=
  configDir ← of_sum (s_configDir s);
  Ok (filepath_Join ([configDir; "contexts"; context] ++ elem)).
Definition GetProInstancesDir (context : string) : result string := context_dir context ["pro"].
Definition GetMachinesDir (context : string) : result string := context_dir context ["machines"].
Definition GetLocksDir (context : string) : result string := context_dir context ["locks"].
Definition GetWorkspacesDir (context : string) : result string :=
  context_dir context ["workspaces"].
Definition GetProvidersDir (context : string) : result string :=
  context_dir context ["providers"].
Definition GetDaemonDir (context providerName : string) : result string :=
  context_dir context ["providers"; providerName; "daemon"].
Definition GetProviderDir (context providerName : string) : result string :=
  context_dir context ["providers"; providerName].
Definition GetMachineDir (context machineID : string) : result string :=
  if sempty machineID then Err "machine id is empty"
  else context_dir context ["machines"; machineID].
Definition GetWorkspaceDir (context workspaceID : string) : result string :=
  if sempty workspaceID then Err "workspace id is empty"
  else context_dir context ["workspaces"; workspaceID].

Definition GetProviderBinariesDir (context providerName : string) : result string :=
  providerDir ← GetProviderDir context providerName;
  Ok (filepath_Join [providerDir; "binaries"]).

Definition proInstanceIDRegEx1 : re :=
  Chr (λ c, negb (is_word c || bool_decide (c = "-"%char))).
Definition proInstanceIDRegEx2 : re :=
  Plus true (Chr (λ c, negb (is_digit c || is_lower c || bool_decide (c = "-"%char)))).
(** [sha256] is a parameter. *)
Definition ToProInstanceID (sha256 : string → string) (url : string) : string :=
  let url := ToLower (TrimPrefix url "https://") in
  let url := ReplaceAllString proInstanceIDRegEx2
               (ReplaceAllString proInstanceIDRegEx1 url "-") "" in
  ID.SafeConcatNameMax sha256 [Trim url "-"] 32.
Definition GetProInstanceDir (sha256 : string → string) (context proInstanceHost : string)
    : result string :=
  if sempty proInstanceHost then Err "pro instance host is empty"
  else context_dir context ["pro"; ToProInstanceID sha256 proInstanceHost].

(** [v, _ := f()]: the zero value when the call fails. *)
Definition or_empty (r : result string) : string :=
  match r with Ok v => v | _ => "" end.

(** *** env.go *)
Definition combineOptions (resolvedOptions otherOptions : gmap string OptionValue)
    : gmap string OptionValue := otherOptions ∪ resolvedOptions.

Definition CombineOptions (workspace : option Workspace) (machine : option Machine)
    (options : gomap OptionValue) : gmap string OptionValue :=
  let m := match options with Some o => combineOptions ∅ o | None => ∅ end in
  let m := match workspace with
           | Some w => combineOptions m (gm_elems (wpr_options (w_provider w)))
           | None => m
           end in
  match machine with
  | Some mc => combineOptions m (gm_elems (mp_options (mc_provider mc)))
  | None => m
  end.

Definition Merge (m1 m2 : gmap string string) : gmap string string := m2 ∪ m1.

Definition GetBaseEnvironment (context provider : string) : gmap string string :=
  <["DEVPOD_LOG_LEVEL" := s_logLevel s]>
  (<["PROVIDER_FOLDER" := ToSlash (or_empty (GetProviderDir context provider))]>
  (<["PROVIDER_CONTEXT" := context]>
  (<["PROVIDER_ID" := provider]>
  (<["DEVPOD_ARCH" := s_GOARCH s]>
  (<["DEVPOD_OS" := s_GOOS s]>
  (<["DEVPOD" := ToSlash (s_executable s)]> ∅)))))).

(** [if v != "" { retVars[k] = v }] *)
Definition set_if (k v : string) (m : gmap string string) : gmap string string :=
  if sempty v then m else <[k := v]> m.

Definition ToOptionsWorkspace (workspace : option Workspace) : gmap string string :=
  match workspace with
  | None => ∅
  | Some w =>
      let m := set_if "WORKSPACE_ID" (w_id w) ∅ in
      let m := set_if "WORKSPACE_UID" (w_uid w) m in
      let m := <["WORKSPACE_FOLDER" :=
                 ToSlash (or_empty (GetWorkspaceDir (w_context w) (w_id w)))]> m in
      let m := set_if "MACHINE_CONTEXT" (w_context w)
                 (set_if "WORKSPACE_CONTEXT" (w_context w) m) in
      let m := if sempty (w_origin w) then m
               else <["WORKSPACE_ORIGIN" := ToSlash (w_origin w)]> m in
      let m := set_if "WORKSPACE_PICTURE" (w_picture w) m in
      let m := <["WORKSPACE_SOURCE" := WorkspaceSource_String (w_source w)]> m in
      let m := set_if "WORKSPACE_PROVIDER" (wpr_name (w_provider w)) m in
      let m := if sempty (wm_id (w_machine w)) then m
               else <["MACHINE_FOLDER" :=
                      ToSlash (or_empty (GetMachineDir (w_context w) (wm_id (w_machine w))))]>
                    (<["MACHINE_ID" := wm_id (w_machine w)]> m) in
      let m := match w_pro w with
               | Some pro => set_if "LOFT_PROJECT" (pro_project pro) m
               | None => m
               end in
      GetBaseEnvironment (w_context w) (wpr_name (w_provider w)) ∪ m
  end.

Definition ToOptionsMachine (machine : option Machine) : gmap string string :=
  match machine with
  | None => ∅
  | Some mc =>
      let m := set_if "MACHINE_ID" (mc_id mc) ∅ in
      let m := <["MACHINE_FOLDER" :=
                 ToSlash (or_empty (GetMachineDir (mc_context mc) (mc_id mc)))]> m in
      let m := set_if "MACHINE_CONTEXT" (mc_context mc) m in
      let m := set_if "MACHINE_PROVIDER" (mp_name (mc_provider mc)) m in
      GetBaseEnvironment (mc_context mc) (mp_name (mc_provider mc)) ∪ m
  end.

(** The loop writes the options under their upper case names. *)
Definition upper_options (l : list (string * OptionValue)) : gmap string string :=
  foldl (λ m kv, <[ToUpper kv.1 := ov_value kv.2]> m) ∅ l.

Definition ToOptions (workspace : option Workspace) (machine : option Machine)
    (options : gomap OptionValue) : gmap string string :=
  let retVars := upper_options (s_iter s (CombineOptions workspace machine options)) in
  Merge (Merge retVars (ToOptionsWorkspace workspace)) (ToOptionsMachine machine).

Definition ToEnvironment (workspace : option Workspace) (machine : option Machine)
    (options : gomap OptionValue) (extraEnv : gmap string string) : list string :=
  let entry kv := kv.1 +:+ "=" +:+ kv.2 in
  (s_environ s ++ (entry <$> s_iter s (ToOptions workspace machine options)) ++
   (entry <$> s_iter s extraEnv))%list.

Definition GetProviderOptions (workspace : option Workspace) (server : option Machine)
    (devConfig : option Config) : result (gmap string OptionValue) :=
  let providerName := match workspace with Some w => wpr_name (w_provider w) | None => "" end in
  let providerName := match server with Some m => mp_name (mc_provider m) | None => providerName end in
  match devConfig with
  | Some c =>
      if sempty providerName then Ok ∅
      else ctx ← deref (Current c); Ok (ProviderOptions ctx providerName)
  | None => Ok ∅
  end.
End Env.

(** ** Config files *)

#[export] Instance OptionValue_eq_dec : EqDecision OptionValue.
Proof. solve_decision. Defined.

(** The config files of a kind, by path. *)
Notation store V := (gmap string V).
Definition read_file {V} (path : string) : M (store V) V := λ m,
  (of_option ("open " +:+ path +:+ ": no such file or directory") (m !! path), m).

Section Files.
Context (s : sys) (write_fails : option string).

(** [os.MkdirAll] and [os.WriteFile] of an encoded value. *)
Definition write_file {V} (path : string) (v : V) : M (store V) unit :=
  match write_fails with
  | Some e => throw e
  | None => modifyS (<[path := v]>)
  end.

Definition with_machine_options (mc : Machine) (o : gomap OptionValue) : Machine := {|
  mc_id := mc_id mc; mc_provider := {| mp_name := mp_name (mc_provider mc); mp_options := o |};
  mc_creationTimestamp := mc_creationTimestamp mc; mc_context := mc_context mc;
  mc_origin := mc_origin mc |}.
(** What is in the file: an empty map and the origin are not encoded. *)
Definition encode_machine (mc : Machine) : Machine :=
  let mc := with_machine_options mc (omit_empty (mp_options (mc_provider mc))) in {|
  mc_id := mc_id mc; mc_provider := mc_provider mc;
  mc_creationTimestamp := mc_creationTimestamp mc; mc_context := mc_context mc;
  mc_origin := "" |}.

Definition LoadMachineConfig (context machineID : string) : M (store Machine) Machine :=
  machineDir ← liftR (GetMachineDir s context machineID);
  let file := filepath_Join [machineDir; "machine.json"] in
  mc ← read_file file;
  mret {| mc_id := mc_id mc; mc_provider := mc_provider mc;
          mc_creationTimestamp := mc_creationTimestamp mc; mc_context := context;
          mc_origin := file |}.
Definition SaveMachineConfig (mc : Machine) : M (store Machine) unit :=
  machineDir ← liftR (GetMachineDir s (mc_context mc) (mc_id mc));
  write_file (filepath_Join [machineDir; "machine.json"]) (encode_machine mc).

Definition with_workspace_options (w : Workspace) (o : gomap OptionValue) : Workspace := {|
  w_id := w_id w; w_uid := w_uid w; w_picture := w_picture w;
  w_provider := {| wpr_name := wpr_name (w_provider w); wpr_options := o |};
  w_machine := w_machine w; w_ide := w_ide w; w_source := w_source w;
  w_devContainerImage := w_devContainerImage w; w_devContainerPath := w_devContainerPath w;
  w_devContainerConfig := w_devContainerConfig w; w_creationTimestamp := w_creationTimestamp w;
  w_lastUsedTimestamp := w_lastUsedTimestamp w; w_context := w_context w;
  w_imported := w_imported w; w_origin := w_origin w; w_pro := w_pro w;
  w_sshConfigPath := w_sshConfigPath w |}.
Definition with_workspace_place (w : Workspace) (ide : WorkspaceIDEConfig)
    (context origin : string) : Workspace := {|
  w_id := w_id w; w_uid := w_uid w; w_picture := w_picture w; w_provider := w_provider w;
  w_machine := w_machine w; w_ide := ide; w_source := w_source w;
  w_devContainerImage := w_devContainerImage w; w_devContainerPath := w_devContainerPath w;
  w_devContainerConfig := w_devContainerConfig w; w_creationTimestamp := w_creationTimestamp w;
  w_lastUsedTimestamp := w_lastUsedTimestamp w; w_context := context;
  w_imported := w_imported w; w_origin := origin; w_pro := w_pro w;
  w_sshConfigPath := w_sshConfigPath w |}.
Definition encode_workspace (w : Workspace) : Workspace :=
  with_workspace_place
    (with_workspace_options w (omit_empty (wpr_options (w_provider w))))
    {| wi_name := wi_name (w_ide w); wi_options := omit_empty (wi_options (w_ide w)) |}
    (w_context w) "".

Definition LoadWorkspaceConfig (context workspaceID : string)
    : M (store Workspace) Workspace :=
  workspaceDir ← liftR (GetWorkspaceDir s context workspaceID);
  let file := filepath_Join [workspaceDir; "workspace.json"] in
  w ← read_file file;
  mret (with_workspace_place w (w_ide w) context file).
Definition SaveWorkspaceConfig (w : Workspace) : M (store Workspace) unit :=
  workspaceDir ← liftR (GetWorkspaceDir s (w_context w) (w_id w));
  write_file (filepath_Join [workspaceDir; "workspace.json"]) (encode_workspace w).

(** ** pkg/options/resolve.go *)

(** [filterResolvedOptions]: whether an option stays. *)
Definition keep_option (before providerValues : gomap OptionValue)
    (providerOptions : OptionDefinitions) (userOptions : gmap string string) (k : string)
    : bool :=
  bool_decide (is_Some (userOptions !! k)) ||
  bool_decide (is_Some (gm_get before k)) ||
  match providerValues with
  | Some m => bool_decide (m !! k = None)
  | None => false
  end ||
  match providerOptions !! k with
  | Some o => negb (o_global o)
  | None => true
  end.
Definition filterResolvedOptions (resolvedOptions : gmap string OptionValue)
    (before providerValues : gomap OptionValue) (providerOptions : OptionDefinitions)
    (userOptions : gmap string string) : gmap string OptionValue :=
  filter (λ kv, keep_option before providerValues providerOptions userOptions kv.1 = true)
    resolvedOptions.

(** [provider.Options] as the resolver reads it. *)
Definition option_definitions (p : Provider.ProviderConfig) : result OptionDefinitions :=
  list_to_map <$> mapR (λ kv, o ← deref kv.2; Ok (kv.1, o)) (p_options p).

Definition current_context (devConfig : Config) : result ContextConfig :=
  deref (Current devConfig).

(** [GetBinaries] is a parameter. *)
Context (w : world) (fuel : nat)
        (GetBinaries : string → Provider.ProviderConfig → string + gmap string string).

Definition resolver_config (extraValues : gmap string string)
    (local global subOptions skipRequired : bool) : rconfig := {|
  r_extraValues := extraValues; r_resolveLocal := local; r_resolveGlobal := global;
  r_resolveSubOptions := subOptions; r_skipRequired := skipRequired |}.

Definition resolve_values (cfg : rconfig) (devConfig : Config)
    (provider : Provider.ProviderConfig) (userOptions : gmap string string)
    (values : gmap string OptionValue) (before : gomap OptionValue)
    : result (gmap string OptionValue) :=
  ctx ← current_context devConfig;
  defs ← option_definitions provider;
  '(resolved, _) ← Resolve w cfg fuel userOptions
     (DynamicProviderOptionDefinitions ctx (p_name provider)) defs values;
  Ok (filterResolvedOptions resolved before (Some (ProviderOptions ctx (p_name provider)))
        defs userOptions).

Definition ResolveAndSaveOptionsMachine (devConfig : Config)
    (provider : Provider.ProviderConfig) (originalMachine : Machine)
    (userOptions : gmap string string) : M (store Machine) Machine :=
  machine ← LoadMachineConfig (mc_context originalMachine) (mc_id originalMachine);
  let before := mp_options (mc_provider machine) in
  binaryPaths ← liftR (of_sum (GetBinaries (c_defaultContext devConfig) provider));
  ctx ← liftR (current_context devConfig);
  resolved ← liftR (resolve_values
    (resolver_config (Merge (ToOptionsMachine s (Some machine)) binaryPaths)
       true false false false)
    devConfig provider userOptions
    (CombineOptions None (Some machine) (Some (ProviderOptions ctx (p_name provider))))
    before);
  let machine := with_machine_options machine (Some resolved) in
  _ ← (if decide (before = Some resolved) then mret () else SaveMachineConfig machine);
  mret machine.

Definition ResolveAndSaveOptionsWorkspace (devConfig : Config)
    (provider : Provider.ProviderConfig) (originalWorkspace : Workspace)
    (userOptions : gmap string string) (subOptions : bool)
    : M (store Workspace) Workspace :=
  workspace ← LoadWorkspaceConfig (w_context originalWorkspace) (w_id originalWorkspace);
  let before := wpr_options (w_provider workspace) in
  binaryPaths ← liftR (of_sum (GetBinaries (c_defaultContext devConfig) provider));
  ctx ← liftR (current_context devConfig);
  resolved ← liftR (resolve_values
    (resolver_config (Merge (ToOptionsWorkspace s (Some workspace)) binaryPaths)
       true false subOptions false)
    devConfig provider userOptions
    (CombineOptions (Some workspace) None (Some (ProviderOptions ctx (p_name provider))))
    before);
  let workspace := with_workspace_options workspace (Some resolved) in
  _ ← (if decide (before = Some resolved) then mret () else SaveWorkspaceConfig workspace);
  mret workspace.

Definition ResolveAndSaveOptionsProxy (devConfig : Config)
    (provider : Provider.ProviderConfig) (originalWorkspace : Workspace)
    (userOptions : gmap string string) : M (store Workspace) Workspace :=
  ResolveAndSaveOptionsWorkspace devConfig provider originalWorkspace userOptions true.

(** The provider entry after resolving. *)
Definition zero_provider : Config.ProviderConfig := {|
  pc_initialized := false; pc_singleMachine := false; pc_options := None;
  pc_dynamicOptions := None; pc_creationTimestamp := 0 |}.
Definition with_resolved (p : Config.ProviderConfig) (values : gmap string OptionValue)
    (dynamic : OptionDefinitions) (singleMachine : option bool) : Config.ProviderConfig := {|
  pc_initialized := pc_initialized p;
  pc_singleMachine := default (pc_singleMachine p) singleMachine;
  pc_options := Some values; pc_dynamicOptions := Some dynamic;
  pc_creationTimestamp := pc_creationTimestamp p |}.
Definition with_provider (ctx : ContextConfig) (name : string) (p : Config.ProviderConfig)
    : ContextConfig := {|
  cc_defaultProvider := cc_defaultProvider ctx; cc_defaultIDE := cc_defaultIDE ctx;
  cc_options := cc_options ctx; cc_ides := cc_ides ctx;
  cc_providers := Some (<[name := Some p]> (gm_elems (cc_providers ctx)));
  cc_originalProvider := cc_originalProvider ctx |}.

(** Writing through the pointer [devConfig.Current()]. *)
Definition set_current (c : Config) (ctx : ContextConfig) : Config := {|
  c_defaultContext := c_defaultContext c;
  c_contexts := Some (<[c_defaultContext c := Some ctx]> (gm_elems (c_contexts c)));
  c_origin := c_origin c; c_originalContext := c_originalContext c |}.

Definition ResolveOptions (devConfig : Config) (provider : Provider.ProviderConfig)
    (userOptions : gmap string string) (skipRequired skipSubOptions : bool)
    (singleMachine : option bool) : result Config :=
  let name := p_name provider in
  binaryPaths ← of_sum (GetBinaries (c_defaultContext devConfig) provider);
  ctx ← current_context devConfig;
  defs ← option_definitions provider;
  '(values, dynamic) ← Resolve w
     (resolver_config (Merge (GetBaseEnvironment s (c_defaultContext devConfig) name) binaryPaths)
        false true (negb skipSubOptions) skipRequired)
     fuel userOptions ∅ defs (ProviderOptions ctx name);
  devConfig ← CloneConfig devConfig;
  ctx ← current_context devConfig;
  let p := default zero_provider (mjoin (gm_get (cc_providers ctx) name)) in
  Ok (set_current devConfig
        (with_provider ctx name (with_resolved p values dynamic singleMachine))).

(** ** The agent configuration *)

Definition RemoteDevPodHelperLocation : string := "/tmp/devpod".
Definition defaultAgentDownloadURL : string :=
  "https://github.com/loft-sh/devpod/releases/download/".
Definition slash_end (url : string) : string := TrimSuffix url "/" +:+ "/".
Definition DefaultAgentDownloadURL : string :=
  if negb (sempty (s_agentURL s)) then slash_end (s_agentURL s)
  else if decide (s_version s = s_devVersion s)
  then "https://github.com/loft-sh/devpod/releases/latest/download/"
  else defaultAgentDownloadURL +:+ s_version s.

Definition resolveAgentDownloadURL (devConfig : Config) : result string :=
  if negb (sempty (s_agentURL s)) then Ok (slash_end (s_agentURL s))
  else
    ctx ← current_context devConfig;
    match gm_get (cc_options ctx) "AGENT_URL" with
    | Some v => if sempty (ov_value v) then Ok DefaultAgentDownloadURL
                else Ok (slash_end (ov_value v))
    | None => Ok DefaultAgentDownloadURL
    end.

Definition resolve_kubernetes (r : string → string) (k : ProviderKubernetesDriverConfig)
    : ProviderKubernetesDriverConfig := {|
  k_kubernetesContext := r (k_kubernetesContext k);
  k_kubernetesConfig := r (k_kubernetesConfig k);
  k_kubernetesNamespace := r (k_kubernetesNamespace k);
  k_podTimeout := r (k_podTimeout k);
  k_kubernetesPullSecretsEnabled := r (k_kubernetesPullSecretsEnabled k);
  k_createNamespace := r (k_createNamespace k);
  k_clusterRole := r (k_clusterRole k);
  k_serviceAccount := r (k_serviceAccount k);
  k_architecture := r (k_architecture k);
  k_inactivityTimeout := r (k_inactivityTimeout k);
  k_storageClass := r (k_storageClass k);
  k_diskSize := r (k_diskSize k);
  k_pvcAccessMode := r (k_pvcAccessMode k);
  k_pvcAnnotations := r (k_pvcAnnotations k);
  k_nodeSelector := r (k_nodeSelector k);
  k_resources := r (k_resources k);
  k_workspaceVolumeMount := r (k_workspaceVolumeMount k);
  k_podManifestTemplate := r (k_podManifestTemplate k);
  k_labels := r (k_labels k);
  k_strictSecurity := r (k_strictSecurity k) |}.
Definition resolve_docker (options : gmap string string) (d : ProviderDockerDriverConfig)
    : ProviderDockerDriverConfig :=
  let r v := ResolveDefaultValue v options in {|
  dd_path := r (dd_path d); dd_install := r (dd_install d); dd_builder := r (dd_builder d);
  dd_env := Some (ResolveDefaultValues (gm_elems (dd_env d)) options) |}.

Definition ResolveAgentConfig (devConfig : Config) (provider : Provider.ProviderConfig)
    (workspace : option Workspace) (machine : option Machine) : result ProviderAgentConfig :=
  ctx ← current_context devConfig;
  let options := ToOptions s workspace machine (Some (ProviderOptions ctx (p_name provider))) in
  let r v := ResolveDefaultValue v options in
  let a := p_agent provider in
  registryCache ← ContextOption devConfig "REGISTRY_CACHE";
  let local := r (a_local a) in
  let path := r (a_path a) in
  let path := if sempty path && bool_decide (local = "true") then s_executable s
              else if sempty path then RemoteDevPodHelperLocation else path in
  let url := r (a_downloadURL a) in
  url ← (if sempty url then resolveAgentDownloadURL devConfig else Ok url);
  inject ← ContextOption devConfig "SSH_INJECT_GIT_CREDENTIALS";
  Ok {|
    a_local := local;
    a_path := path;
    a_dataPath := r (a_dataPath a);
    a_downloadURL := url;
    a_timeout := r (a_timeout a);
    a_containerTimeout := r (a_containerTimeout a);
    a_injectGitCredentials := if sempty inject then r (a_injectGitCredentials a) else inject;
    a_injectDockerCredentials := r (a_injectDockerCredentials a);
    a_exec := a_exec a;
    a_binaries := a_binaries a;
    a_dockerless := {|
      dl_disabled := r (dl_disabled (a_dockerless a));
      dl_image := r (dl_image (a_dockerless a));
      dl_ignorePaths := r (dl_ignorePaths (a_dockerless a));
      dl_registryCache := registryCache;
      dl_disableDockerCredentials := dl_disableDockerCredentials (a_dockerless a) |};
    a_driver := r (a_driver a);
    a_docker := resolve_docker options (a_docker a);
    a_custom := a_custom a;
    a_kubernetes := resolve_kubernetes r (a_kubernetes a) |}.
End Files.
