(* ===== verification/OptionsProps.v ===== *)
(** * Properties of workspaces, machines and their options *)

From S2P Require Import Prelude GoStrings GoRegexp Types Config Resolver ResolverProps.
From S2P Require Import Git Provider Options.
From stdpp Require Import base gmap list strings.
From Stdlib Require Import ZArith Lia.

Local Open Scope string_scope.

(** ** Where a workspace comes from *)

Lemma TrimPrefix_app p r : TrimPrefix (p +:+ r) p = r.
Proof.
  unfold TrimPrefix, HasPrefix. rewrite GoStrings.prefix_app. apply sdrop_app.
Qed.

Definition local_source (folder : string) : WorkspaceSource := {|
  ws_gitRepository := ""; ws_gitBranch := ""; ws_gitCommit := ""; ws_gitPRReference := "";
  ws_gitSubPath := ""; ws_localFolder := folder; ws_image := ""; ws_container := "" |}.
Definition image_source (image : string) : WorkspaceSource := {|
  ws_gitRepository := ""; ws_gitBranch := ""; ws_gitCommit := ""; ws_gitPRReference := "";
  ws_gitSubPath := ""; ws_localFolder := ""; ws_image := image; ws_container := "" |}.
Definition container_source (container : string) : WorkspaceSource := {|
  ws_gitRepository := ""; ws_gitBranch := ""; ws_gitCommit := ""; ws_gitPRReference := "";
  ws_gitSubPath := ""; ws_localFolder := ""; ws_image := ""; ws_container := container |}.

(** The text of a source that is not a repository is read back exactly. *)
Lemma ParseWorkspaceSource_String src v :
  v ≠ "" → src ∈ [local_source v; image_source v; container_source v] →
  ParseWorkspaceSource (WorkspaceSource_String src) = Some src.
Proof.
  intros Hv. assert (sempty v = false) as He by (by apply bool_decide_eq_false).
  rewrite !elem_of_cons, elem_of_nil. unfold ParseWorkspaceSource.
  assert (∀ p, HasPrefix (p +:+ v) p = true) as Hp by (intros p; apply GoStrings.prefix_app).
  intros [->|[->|[->|[]]]].
  - assert (WorkspaceSource_String (local_source v) = WorkspaceSourceLocal +:+ v) as ->
      by (unfold WorkspaceSource_String; cbn -[sempty String.append]; by rewrite He).
    change (HasPrefix (WorkspaceSourceLocal +:+ v) WorkspaceSourceGit) with false.
    by rewrite Hp, TrimPrefix_app.
  - assert (WorkspaceSource_String (image_source v) = WorkspaceSourceImage +:+ v) as ->
      by (unfold WorkspaceSource_String; cbn -[sempty String.append]; by rewrite He).
    change (HasPrefix (WorkspaceSourceImage +:+ v) WorkspaceSourceGit) with false.
    change (HasPrefix (WorkspaceSourceImage +:+ v) WorkspaceSourceLocal) with false.
    by rewrite Hp, TrimPrefix_app.
  - assert (WorkspaceSource_String (container_source v) = WorkspaceSourceContainer +:+ v) as ->
      by (unfold WorkspaceSource_String; cbn -[sempty String.append]; by rewrite He).
    change (HasPrefix (WorkspaceSourceContainer +:+ v) WorkspaceSourceGit) with false.
    change (HasPrefix (WorkspaceSourceContainer +:+ v) WorkspaceSourceLocal) with false.
    change (HasPrefix (WorkspaceSourceContainer +:+ v) WorkspaceSourceImage) with false.
    by rewrite Hp, TrimPrefix_app.
Qed.

(** The sub path of a git source is not part of its text. *)
Example WorkspaceSource_String_loses_subpath :
  WorkspaceSource_String {|
    ws_gitRepository := "https://github.com/loft-sh/devpod"; ws_gitBranch := "main";
    ws_gitCommit := ""; ws_gitPRReference := ""; ws_gitSubPath := "examples/simple";
    ws_localFolder := ""; ws_image := ""; ws_container := "" |} =
  "git:https://github.com/loft-sh/devpod@main".
Proof. vm_compute. reflexivity. Qed.

(** ** The variables of a command *)

Section Variables.
Context (s : sys) `{!SysOk s}.

(** An option wins over the same option of a more general place. *)
Lemma CombineOptions_lookup ws mc opts k :
  CombineOptions ws mc opts !! k =
  union (mc ≫= λ m, gm_get (mp_options (mc_provider m)) k)
    (union (ws ≫= λ w, gm_get (wpr_options (w_provider w)) k) (gm_get opts k)).
Proof.
  assert (∀ (m : gomap OptionValue) (n : gmap string OptionValue),
    combineOptions n (gm_elems m) !! k = union (gm_get m k) (n !! k)) as Hc.
  { intros m n. unfold combineOptions. rewrite lookup_union. by destruct m. }
  assert (∀ o : gomap OptionValue,
    (match o with Some o => combineOptions ∅ o | None => ∅ end : gmap string OptionValue) !! k =
    gm_get o k) as Ho.
  { intros [o|]; [|done]. unfold combineOptions. by rewrite map_union_empty. }
  unfold CombineOptions. destruct mc as [m|], ws as [w|]; cbn;
    rewrite ?Hc, ?Ho; by rewrite ?(left_id_L None union).
Qed.

Lemma upper_options_lookup (l : list (string * OptionValue)) k :
  (∀ kv, kv ∈ l → ToUpper kv.1 = kv.1) → NoDup l.*1 →
  upper_options l !! k = ov_value <$> (list_to_map l : gmap string OptionValue) !! k.
Proof.
  intros Hup Hnd. unfold upper_options.
  enough (∀ m : gmap string string,
    foldl (λ m kv, <[ToUpper kv.1 := ov_value kv.2]> m) m l !! k =
    union (ov_value <$> (list_to_map l : gmap string OptionValue) !! k) (m !! k)) as H.
  { rewrite H, lookup_empty. apply (right_id_L None union). }
  induction l as [|[x v] l IH]; intros m; cbn -[ToUpper].
  { rewrite lookup_empty. cbn. by rewrite (left_id_L None union). }
  cbn in Hnd. apply NoDup_cons in Hnd as [Hx Hnd].
  rewrite IH; [|intros kv Hkv; apply Hup; by right|done].
  assert (ToUpper x = x) as -> by (apply (Hup (x, v)), elem_of_cons; by left).
  destruct (decide (k = x)) as [->|Hne].
  - rewrite !lookup_insert_eq, (not_elem_of_list_to_map_1 l x Hx). by destruct (m !! x).
  - by rewrite !lookup_insert_ne by done.
Qed.

(** The variables a provider command sees: the variables of the machine
    come before those of the workspace, and these before the options; an option of
    the machine overrides that of the workspace, which overrides that of the
    provider.  (Option names are in upper case, as validation requires.) *)
Theorem ToOptions_precedence (ws : option Workspace) (mc : option Machine)
    (opts : gomap OptionValue) (k : string) :
  (∀ x, is_Some (CombineOptions ws mc opts !! x) → ToUpper x = x) →
  ToOptions s ws mc opts !! k =
  union (ToOptionsMachine s mc !! k)
    (union (ToOptionsWorkspace s ws !! k)
       (ov_value <$> union (mc ≫= λ m, gm_get (mp_options (mc_provider m)) k)
          (union (ws ≫= λ w, gm_get (wpr_options (w_provider w)) k) (gm_get opts k)))).
Proof.
  intros Hup. unfold ToOptions, Options.Merge. cbn zeta. rewrite !lookup_union.
  rewrite upper_options_lookup.
  - rewrite (list_to_map_proper _ (map_to_list (CombineOptions ws mc opts)));
      [|rewrite s_iter_perm; apply NoDup_fst_map_to_list|apply s_iter_perm].
    by rewrite list_to_map_to_list, CombineOptions_lookup.
  - intros [x v]. rewrite s_iter_perm. intros Hx%elem_of_map_to_list. apply Hup. eauto.
  - rewrite s_iter_perm. apply NoDup_fst_map_to_list.
Qed.
End Variables.

(** ** What is saved *)

Lemma filterResolvedOptions_lookup resolved before values defs user k :
  filterResolvedOptions resolved before values defs user !! k =
  if keep_option before values defs user k then resolved !! k else None.
Proof.
  unfold filterResolvedOptions. rewrite map_lookup_filter.
  destruct (resolved !! k); cbn; [|by case_match].
  destruct (keep_option before values defs user k) eqn:Hk.
  - by rewrite option_guard_True.
  - by rewrite option_guard_False.
Qed.

(** A global option with a value of the provider is dropped. *)
Lemma keep_option_global before values defs user k o :
  keep_option before (Some values) defs user k = true →
  defs !! k = Some o → o_global o = true → is_Some (values !! k) →
  is_Some (user !! k) ∨ is_Some (gm_get before k).
Proof.
  unfold keep_option. intros Hk Hd Hg [v Hv]. rewrite Hd, Hg, Hv in Hk. cbn in Hk.
  rewrite !orb_false_r in Hk. apply orb_true_iff in Hk as [H|H];
    apply bool_decide_eq_true in H; auto.
Qed.

Lemma keep_option_user before values defs user k :
  is_Some (user !! k) → keep_option before values defs user k = true.
Proof. intros H. unfold keep_option. by rewrite bool_decide_eq_true_2. Qed.

Section Saved.
Context (s : sys) (w : world) `{!WorldOk w} (fuel : nat)
  (GetBinaries : string → Provider.ProviderConfig → string + gmap string string).
Context (devConfig : Config) (ctx : ContextConfig) (provider : Provider.ProviderConfig)
  (defs : OptionDefinitions) (user : gmap string string).
Context (Hctx : Current devConfig = Some ctx)
        (Hdefs : option_definitions provider = Ok defs).

(** The options that are stored with a workspace or a machine. *)
Record stored_options (before : gomap OptionValue) (opts : gmap string OptionValue) : Prop := {
  so_global : ∀ k o, is_Some (opts !! k) → defs !! k = Some o → o_global o = true →
    is_Some (ProviderOptions ctx (p_name provider) !! k) →
    is_Some (user !! k) ∨ is_Some (gm_get before k);
  so_user : ∀ k o v, defs !! k = Some o → k ≠ rootID → user !! k = Some v →
    ∃ ov, opts !! k = Some ov ∧ ov_value ov = v ∧ ov_userProvided ov = true;
}.

Lemma resolve_values_stored cfg values before opts :
  r_skipRequired cfg = false → r_resolveSubOptions cfg = false →
  resolve_values w fuel cfg devConfig provider user values before = Ok opts →
  stored_options before opts.
Proof.
  intros Hskip Hsub. unfold resolve_values, current_context. rewrite Hctx, Hdefs. cbn.
  intros ([resolved dyn] & Hr & [= <-])%bind_Ok. split.
  - intros k o [v Hv] Hk Hg Hp. rewrite filterResolvedOptions_lookup in Hv.
    destruct (keep_option _ _ _ _ k) eqn:Hkeep; [|done]. by eapply keep_option_global.
  - intros k o v Hk Hroot Hu. rewrite filterResolvedOptions_lookup, keep_option_user by eauto.
    by eapply Resolve_user.
Qed.
End Saved.

Lemma liftR_Ok {S A} (c : result A) (st st' : S) a :
  liftR c st = (Ok a, st') ↔ c = Ok a ∧ st' = st.
Proof. unfold liftR. naive_solver. Qed.

Lemma LoadWorkspaceConfig_Ok s context id st ws st' :
  LoadWorkspaceConfig s context id st = (Ok ws, st') →
  ∃ dir ws0, GetWorkspaceDir s context id = Ok dir ∧ st' = st ∧
    st !! filepath_Join [dir; "workspace.json"] = Some ws0 ∧
    ws = with_workspace_place ws0 (w_ide ws0) context (filepath_Join [dir; "workspace.json"]).
Proof.
  intros (dir & st1 & [Hd ->]%liftR_Ok & Hrun)%M_bind_Ok.
  apply M_bind_Ok in Hrun as (ws0 & st2 & Hr & [= <- <-]).
  unfold read_file in Hr. injection Hr as Hr <-. apply of_option_Ok in Hr. eauto 10.
Qed.

Lemma SaveWorkspaceConfig_Ok s ws dir st st' :
  GetWorkspaceDir s (w_context ws) (w_id ws) = Ok dir →
  SaveWorkspaceConfig s None ws st = (Ok (), st') →
  st' = <[filepath_Join [dir; "workspace.json"] := encode_workspace ws]> st.
Proof.
  intros Hd Hrun. unfold SaveWorkspaceConfig in Hrun. rewrite Hd in Hrun.
  rewrite run_lift_Ok in Hrun. by injection Hrun as <-.
Qed.

(** C33: Resolving the options of a workspace, without sub options, stores what the workspace needs:
    every value the user gave for a defined option, and no value of a global
    option of the provider that the user did not set for this workspace.  Nothing is written
    when the options are those that were stored; when they are others, the config file of
    the workspace is written and no other (its content names the workspace it belongs to). *)
Theorem ResolveAndSaveOptionsWorkspace_stores
    (s : sys) (w : world) (fuel : nat)
    (GetBinaries : string → Provider.ProviderConfig → string + gmap string string)
    (devConfig : Config) (ctx : ContextConfig) (provider : Provider.ProviderConfig)
    (defs : OptionDefinitions) (user : gmap string string) (original ws' : Workspace)
    (st st' : gmap string Workspace) :
  WorldOk w → Current devConfig = Some ctx → option_definitions provider = Ok defs →
  ResolveAndSaveOptionsWorkspace s None w fuel GetBinaries devConfig provider original user
    false st = (Ok ws', st') →
  ∃ file ws opts,
    w_origin ws' = file ∧ st !! file = Some ws ∧ wpr_options (w_provider ws') = Some opts ∧
    stored_options ctx provider defs user (wpr_options (w_provider ws)) opts ∧
    (wpr_options (w_provider ws) = Some opts → st' = st) ∧
    (wpr_options (w_provider ws) ≠ Some opts → w_id ws = w_id original →
     st' = <[file := encode_workspace ws']> st).
Proof.
  intros Hw Hctx Hdefs Hrun. unfold ResolveAndSaveOptionsWorkspace in Hrun.
  apply M_bind_Ok in Hrun as (ws1 & st1 & Hload & Hrun).
  apply LoadWorkspaceConfig_Ok in Hload as (dir & ws & Hdir & -> & Hws & ->).
  apply M_bind_Ok in Hrun as (bin & st1 & [_ ->]%liftR_Ok & Hrun).
  apply M_bind_Ok in Hrun as (ctx' & st1 & [Hctx' ->]%liftR_Ok & Hrun).
  apply M_bind_Ok in Hrun as (opts & st1 & [Hr ->]%liftR_Ok & Hrun).
  apply M_bind_Ok in Hrun as ([] & st1 & Hsave & [= <- <-]).
  apply (resolve_values_stored w fuel devConfig ctx provider defs user Hctx Hdefs) in Hr; [|done..].
  eexists _, ws, opts. split_and!; [reflexivity|exact Hws|done|exact Hr|..].
  - intros Hsame. rewrite decide_True in Hsave by exact Hsame. by injection Hsave as <-.
  - intros Hdiff Hid. rewrite decide_False in Hsave by exact Hdiff.
    eapply SaveWorkspaceConfig_Ok; [|exact Hsave]. cbn. by rewrite Hid.
Qed.

(** ** An example *)

Definition demo_sys : sys := {|
  s_isWindows := false; s_executable := "/usr/bin/devpod"; s_GOOS := "linux";
  s_GOARCH := "amd64"; s_logLevel := "info"; s_configDir := inr "/home/me/.devpod";
  s_environ := ["HOME=/home/me"]; s_agentURL := ""; s_version := "v0.6.0";
  s_devVersion := "v0.0.0"; s_iter := λ V m, map_to_list m |}.
#[export] Instance demo_sys_ok : SysOk demo_sys.
Proof. by split. Qed.

Definition plain_value (v : string) : OptionValue := {|
  ov_value := v; ov_userProvided := false; ov_filled := None; ov_children := [] |}.

Definition demo_machine : Machine := {|
  mc_id := "m1"; mc_provider := {| mp_name := "aws"; mp_options := Some {["SIZE" := plain_value "40"]} |};
  mc_creationTimestamp := 0; mc_context := "default"; mc_origin := "" |}.

Lemma ToOptions_precedence_witness :
  ToOptions demo_sys None (Some demo_machine)
    (Some {["SIZE" := plain_value "20"; "REGION" := plain_value "eu"]}) !! "SIZE" = Some "40" ∧
  ToOptions demo_sys None (Some demo_machine)
    (Some {["SIZE" := plain_value "20"; "REGION" := plain_value "eu"]}) !! "MACHINE_FOLDER" =
  Some "/home/me/.devpod/contexts/default/machines/m1".
Proof.
  split.
  - rewrite (ToOptions_precedence demo_sys); [vm_compute; reflexivity|].
    intros x [v Hx]. apply elem_of_map_to_list in Hx. vm_compute in Hx.
    repeat (apply elem_of_cons in Hx as [Hx|Hx]; [injection Hx as -> ->; reflexivity|]).
    exfalso. exact (proj1 (elem_of_nil _) Hx).
  - vm_compute. reflexivity.
Defined.

Definition demo_provider : Provider.ProviderConfig := {|
  p_name := "aws"; p_version := ""; p_icon := ""; p_iconDark := ""; p_home := "";
  p_source := {| ps_internal := true; ps_github := ""; ps_file := ""; ps_url := "";
                 ps_raw := "" |};
  p_description := ""; p_optionGroups := [];
  p_options := (λ kv, (kv.1, Some kv.2)) <$> map_to_list demo_defs;
  p_agent := zero_agent;
  p_exec := {| e_init := None; e_command := Some ["sh"]; e_create := None; e_delete := None;
    e_start := None; e_stop := None; e_status := None; e_proxy := None; e_daemon := None |};
  p_binaries := None |}.
Definition demo_ctx : ContextConfig := {|
  cc_defaultProvider := "aws"; cc_defaultIDE := ""; cc_options := None; cc_ides := None;
  cc_providers := None; cc_originalProvider := "" |}.
Definition demo_config : Config := {|
  c_defaultContext := "default"; c_contexts := Some {["default" := Some demo_ctx]};
  c_origin := ""; c_originalContext := "" |}.
Definition demo_workspace : Workspace := {|
  w_id := "ws"; w_uid := "default-ws-1"; w_picture := "";
  w_provider := {| wpr_name := "aws"; wpr_options := None |};
  w_machine := {| wm_id := ""; wm_autoDelete := false |};
  w_ide := {| wi_name := ""; wi_options := None |}; w_source := local_source "/src";
  w_devContainerImage := ""; w_devContainerPath := ""; w_devContainerConfig := None;
  w_creationTimestamp := 0; w_lastUsedTimestamp := 0; w_context := "default";
  w_imported := false; w_origin := ""; w_pro := None; w_sshConfigPath := "" |}.
Definition demo_file : string := "/home/me/.devpod/contexts/default/workspaces/ws/workspace.json".

Definition demo_run : result Workspace * gmap string Workspace :=
  ResolveAndSaveOptionsWorkspace demo_sys None demo_world 5 (λ _ _, inr ∅) demo_config
    demo_provider demo_workspace demo_user false {[demo_file := demo_workspace]}.
Definition demo_saved : Workspace :=
  match demo_run.1 with Ok w => w | _ => demo_workspace end.
Lemma demo_run_Ok : demo_run = (Ok demo_saved, demo_run.2).
Proof. vm_compute. reflexivity. Qed.

Lemma ResolveAndSaveOptionsWorkspace_stores_witness :
  w_origin demo_saved = demo_file ∧
  ∃ opts ov, wpr_options (w_provider demo_saved) = Some opts ∧
    opts !! "SIZE" = Some ov ∧ ov_value ov = "40".
Proof.
  destruct (ResolveAndSaveOptionsWorkspace_stores demo_sys demo_world 5 (λ _ _, inr ∅) demo_config
    demo_ctx demo_provider demo_defs demo_user demo_workspace demo_saved
    {[demo_file := demo_workspace]} demo_run.2) as (file & ws & opts & Ho & _ & Hopts & [_ Hu] & _).
  - apply demo_world_ok.
  - reflexivity.
  - vm_compute. reflexivity.
  - exact demo_run_Ok.
  - split; [vm_compute; reflexivity|].
    destruct (Hu "SIZE" (demo_option true "") "40") as (ov & ? & ? & _);
      [reflexivity|discriminate|reflexivity|]. eauto.
Defined.

(** ** The agent configuration *)

(** The download URL that is used when the provider has none. *)
Lemma slash_end_nonempty url : slash_end url ≠ "".
Proof. unfold slash_end. by destruct (TrimSuffix url "/"). Qed.
Lemma DefaultAgentDownloadURL_nonempty s : DefaultAgentDownloadURL s ≠ "".
Proof.
  unfold DefaultAgentDownloadURL. destruct (negb _); [apply slash_end_nonempty|].
  by case_decide.
Qed.
Lemma resolveAgentDownloadURL_nonempty s c url :
  resolveAgentDownloadURL s c = Ok url → url ≠ "".
Proof.
  unfold resolveAgentDownloadURL. destruct (negb _).
  { intros [= <-]. apply slash_end_nonempty. }
  intros (ctx & _ & H)%bind_Ok.
  destruct (gm_get _ _) as [v|]; [destruct (sempty (ov_value v))|]; injection H as <-;
    auto using slash_end_nonempty, DefaultAgentDownloadURL_nonempty.
Qed.

Lemma ContextOption_default_nonempty c o v :
  ContextOption c o = Ok v → context_default o ≠ "" → v ≠ "".
Proof.
  intros H Hd. unfold ContextOption in H.
  repeat case_match; simplify_eq/=; try done. by case_bool_decide.
Qed.

(** The agent configuration is complete: it has a download URL, and a
    path unless DevPod runs locally without a known executable; and whether git
    credentials are injected is decided by the context alone, because its option has
    a default, so the provider's own setting never takes effect. *)
Theorem ResolveAgentConfig_complete (s : sys) (devConfig : Config)
    (provider : Provider.ProviderConfig) (ws : option Workspace) (mc : option Machine)
    (a : ProviderAgentConfig) :
  ResolveAgentConfig s devConfig provider ws mc = Ok a →
  a_downloadURL a ≠ "" ∧ (a_path a = "" → a_local a = "true" ∧ s_executable s = "") ∧
  ContextOption devConfig "SSH_INJECT_GIT_CREDENTIALS" = Ok (a_injectGitCredentials a).
Proof.
  unfold ResolveAgentConfig. intros H.
  apply bind_Ok in H as (ctx & _ & H). apply bind_Ok in H as (cache & _ & H).
  apply bind_Ok in H as (url & Hurl & H). apply bind_Ok in H as (inject & Hi & H).
  injection H as <-. cbn [a_downloadURL a_path a_local a_injectGitCredentials].
  assert (sempty inject = false) as ->.
  { apply bool_decide_eq_false. by eapply ContextOption_default_nonempty. }
  split_and!; [| |done].
  - destruct (sempty (ResolveDefaultValue _ _)) eqn:He in Hurl.
    + by eapply resolveAgentDownloadURL_nonempty.
    + injection Hurl as <-. by apply bool_decide_eq_false in He.
  - destruct (sempty (ResolveDefaultValue (a_path _) _)) eqn:He; cbn; [|by apply bool_decide_eq_false in He].
    by case_bool_decide.
Qed.

Lemma ResolveAgentConfig_complete_witness :
  ∃ a, ResolveAgentConfig demo_sys demo_config demo_provider (Some demo_workspace) None = Ok a ∧
    a_downloadURL a ≠ "" ∧ a_injectGitCredentials a = "true".
Proof.
  destruct (ResolveAgentConfig demo_sys demo_config demo_provider (Some demo_workspace) None)
    as [a| | |] eqn:Ha; [|vm_compute in Ha; discriminate Ha..].
  exists a. split; [reflexivity|].
  destruct (ResolveAgentConfig_complete demo_sys demo_config demo_provider (Some demo_workspace)
    None a Ha) as (Hu & _ & Hi).
  split; [exact Hu|]. vm_compute in Hi. injection Hi as Hi. symmetry. exact Hi.
Defined.

(** ** The options of a provider *)

Lemma gm_get_omit_empty {V} (m : gomap V) k : gm_get (omit_empty m) k = gm_get m k.
Proof.
  destruct m as [m|]; [|done]. unfold omit_empty. case_decide; [|done].
  subst m. cbn. by rewrite lookup_empty.
Qed.
Lemma gm_elems_omit_empty {V} (m : gomap V) : gm_elems (omit_empty m) = gm_elems m.
Proof. destruct m as [m|]; [|done]. unfold omit_empty. by case_decide. Qed.

Lemma CloneConfig_Ok c c' : CloneConfig c = Ok c' →
  c_defaultContext c' = c_defaultContext c ∧
  ∀ n, gm_get (c_contexts c') n = fmap (M := option) clone_context <$> gm_get (c_contexts c) n.
Proof.
  unfold CloneConfig. case_decide; [|done]. intros [= <-]. split; [done|]. intros n.
  trans (gm_get (omit_empty (Some (fmap (M := option) clone_context <$>
    gm_elems (c_contexts c)))) n); [done|].
  rewrite gm_get_omit_empty. cbn. rewrite lookup_fmap.
  destruct (c_contexts c); cbn; [done|]. by rewrite lookup_empty.
Qed.

Lemma clone_context_ProviderOptions ctx p :
  ProviderOptions (clone_context ctx) p = ProviderOptions ctx p.
Proof.
  unfold ProviderOptions, clone_context. cbn. rewrite lookup_fmap.
  destruct (cc_providers ctx) as [m|]; cbn; [|by rewrite lookup_empty].
  destruct (m !! p) as [[q|]|]; cbn; [apply gm_elems_omit_empty|done..].
Qed.
Lemma clone_context_IsSingleMachine ctx p :
  IsSingleMachine (clone_context ctx) p = IsSingleMachine ctx p.
Proof.
  unfold IsSingleMachine, clone_context. cbn. rewrite lookup_fmap.
  destruct (cc_providers ctx) as [m|]; cbn; [|by rewrite lookup_empty].
  by destruct (m !! p) as [[q|]|].
Qed.

(** Resolving the options of a provider changes the configuration only
    where it has to: the provider's entry of the current context holds the resolved
    values and the dynamic definitions, the options of all other
    providers and all other contexts are as before. *)
Theorem ResolveOptions_updates (s : sys) (w : world) (fuel : nat)
    (GetBinaries : string → Provider.ProviderConfig → string + gmap string string)
    (devConfig c' : Config) (ctx : ContextConfig) (provider : Provider.ProviderConfig)
    (user : gmap string string) (skipRequired skipSub : bool) (single : option bool) :
  Current devConfig = Some ctx →
  ResolveOptions s w fuel GetBinaries devConfig provider user skipRequired skipSub single = Ok c' →
  ∃ cfg defs values dynamic ctx',
    Resolve w cfg fuel user ∅ defs (ProviderOptions ctx (p_name provider)) = Ok (values, dynamic) ∧
    option_definitions provider = Ok defs ∧
    Current c' = Some ctx' ∧
    ProviderOptions ctx' (p_name provider) = values ∧
    DynamicProviderOptionDefinitions ctx' (p_name provider) = dynamic ∧
    IsSingleMachine ctx' (p_name provider) =
      default (IsSingleMachine ctx (p_name provider)) single ∧
    (∀ p, p ≠ p_name provider → ProviderOptions ctx' p = ProviderOptions ctx p) ∧
    c_defaultContext c' = c_defaultContext devConfig ∧
    ∀ n, n ≠ c_defaultContext devConfig →
      gm_get (c_contexts c') n = fmap (M := option) clone_context <$> gm_get (c_contexts devConfig) n.
Proof.
  intros Hctx H. unfold ResolveOptions, current_context in H. cbn zeta in H.
  apply bind_Ok in H as (bin & _ & H). rewrite Hctx in H. cbn [deref mbind result_bind] in H.
  apply bind_Ok in H as (defs & Hdefs & H). apply bind_Ok in H as ([values dynamic] & Hr & H).
  apply bind_Ok in H as (c1 & Hclone & H). apply bind_Ok in H as (ctx1 & Hctx1 & H).
  apply deref_Ok in Hctx1. injection H as <-.
  apply CloneConfig_Ok in Hclone as [Hdef Hget].
  assert (ctx1 = clone_context ctx) as ->.
  { unfold Current in Hctx, Hctx1. rewrite Hget, Hdef in Hctx1.
    destruct (gm_get (c_contexts devConfig) (c_defaultContext devConfig)) as [[x|]|];
      cbn in *; congruence. }
  set (name := p_name provider) in *.
  eexists _, defs, values, dynamic, _. split_and!; [exact Hr|done|..].
  - unfold Current. cbn. by rewrite lookup_insert_eq.
  - unfold ProviderOptions. cbn. by rewrite lookup_insert_eq.
  - unfold DynamicProviderOptionDefinitions. cbn. by rewrite lookup_insert_eq.
  - unfold IsSingleMachine at 1. cbn. rewrite lookup_insert_eq. cbn. f_equal.
    rewrite <-(clone_context_IsSingleMachine ctx name). unfold IsSingleMachine, clone_context. cbn.
    rewrite lookup_fmap.
    by destruct (gm_elems (cc_providers ctx) !! name) as [[q|]|].
  - intros p Hp. rewrite <-(clone_context_ProviderOptions ctx p).
    unfold ProviderOptions. cbn. by rewrite lookup_insert_ne.
  - done.
  - intros n Hn. cbn. rewrite lookup_insert_ne by congruence.
    rewrite <-Hget. by destruct (c_contexts c1).
Qed.

Definition demo_resolved : result Config :=
  ResolveOptions demo_sys demo_world 5 (λ _ _, inr ∅) demo_config demo_provider demo_user
    false true (Some true).
Definition demo_config' : Config :=
  match demo_resolved with Ok c => c | _ => demo_config end.
Lemma demo_resolved_Ok :
  ResolveOptions demo_sys demo_world 5 (λ _ _, inr ∅) demo_config demo_provider demo_user
    false true (Some true) = Ok demo_config'.
Proof. vm_compute. reflexivity. Qed.

Lemma ResolveOptions_updates_witness :
  ∃ ctx', Current demo_config' = Some ctx' ∧ IsSingleMachine ctx' "aws" = true ∧
    c_defaultContext demo_config' = "default".
Proof.
  destruct (ResolveOptions_updates demo_sys demo_world 5 (λ _ _, inr ∅) demo_config demo_config'
    demo_ctx demo_provider demo_user false true (Some true)
    ltac:(reflexivity) demo_resolved_Ok)
    as (cfg & defs & values & dynamic & ctx' & _ & _ & Hc & _ & _ & Hs & _ & Hd & _).
  exists ctx'. split; [exact Hc|]. split; [exact Hs|exact Hd].
Defined.
