(* ===== verification/Dockerfile.v ===== *)
(** * pkg/dockerfile/parse.go

    What DevPod reads from a Dockerfile: its stages, the base image and the
    user of the image a stage builds, the files a build copies, and the name
    of the last stage, which is added when it is missing.  The syntax tree is
    the one of buildkit's parser, whose result is a parameter.

    A [*Stage] is the index of the stage in [Stages]; the pointer to the
    [BaseStage] of the preamble is [RPreamble].  [replaceVariables] and
    [findValue] call each other and need not return: [find_loop] has fuel,
    and [NoFuel] is the exhausted stack. *)

From S2P Require Import Prelude GoStrings GoRegexp Substitute SshConfig.
From stdpp Require Import base gmap sets list strings.
From Stdlib Require Import ZArith.

Local Open Scope string_scope.
Local Open Scope list_scope.

(** [parser.Node], less the children, heredocs and attributes, which the
    code does not look at. *)
Inductive Node : Type := MkNode {
  n_Value : string;
  n_Next : option Node;
  n_Original : string;
  n_Flags : list string;
  n_StartLine : Z;
  n_EndLine : Z;
  n_PrevComment : list string;
}.

Record KeyValue := MkKV { kv_Key : string; kv_Value : string; kv_Line : Z }.

Record BaseStage := MkBase {
  bs_Image : string;
  bs_Target : string;
  bs_Envs : list KeyValue;
  bs_Args : list KeyValue;
  bs_Instructions : list Node;
}.

Record Stage := MkStage { st_Base : BaseStage; st_Users : list KeyValue }.

Record Directive := { dir_Name : string; dir_Value : string }.

Record Dockerfile := MkDockerfile {
  d_Raw : string;
  d_Directives : list Directive;
  d_Preamble : BaseStage;
  d_Syntax : string;
  d_Stages : list Stage;
  d_StagesByTarget : gmap string nat;
}.

(** ** Parsing *)

Definition parseUser (instruction : Node) : result KeyValue :=
  next ← deref (n_Next instruction);
  match Split ":" (n_Value next) with
  | [] => Panic
  | name :: _ => Ok (MkKV name "" (n_StartLine instruction))
  end.

Definition parseArg (instruction : Node) : result KeyValue :=
  let line := n_StartLine instruction in
  node ← deref (n_Next instruction);
  match n_Next node with
  | Some value => Ok (MkKV (n_Value node) (n_Value value) line)
  | None =>
      if scontains_char "=" (n_Value node)
      then match Split "=" (n_Value node) with
           | [] => Panic
           | k :: vs => Ok (MkKV k (GoStrings.Join vs "=") line)
           end
      else Ok (MkKV (n_Value node) "" line)
  end.

Definition quotes : string := String "034" "'".

Fixpoint env_pairs (line : Z) (node : Node) : list KeyValue :=
  match n_Next node with
  | None => []
  | Some value =>
      MkKV (TrimSpace (n_Value node)) (Trim (ReplaceAll (n_Value value) "\" "") quotes) line
      :: match n_Next value with
         | None => []
         | Some node' => env_pairs line node'
         end
  end.
Definition parseEnv (instruction : Node) : list KeyValue :=
  match n_Next instruction with
  | None => []
  | Some node => env_pairs (n_StartLine instruction) node
  end.

Definition parseStage (instruction : Node) : Stage :=
  let image := match n_Next instruction with Some n => n_Value n | None => "" end in
  let target :=
    match n_Next instruction ≫= n_Next with
    | Some n2 =>
        if decide (ToLower (n_Value n2) = "as")
        then match n_Next n2 with Some n3 => n_Value n3 | None => "" end
        else ""
    | None => ""
    end in
  MkStage (MkBase image target [] [] [instruction]) [].

Definition is_cmd (name : string) (n : Node) : bool :=
  bool_decide (ToLower (n_Value n) = name).

Definition add_instruction (n : Node) (b : BaseStage) : BaseStage :=
  MkBase (bs_Image b) (bs_Target b) (bs_Envs b) (bs_Args b) (bs_Instructions b ++ [n]).
Definition add_envs (l : list KeyValue) (b : BaseStage) : BaseStage :=
  MkBase (bs_Image b) (bs_Target b) (bs_Envs b ++ l) (bs_Args b) (bs_Instructions b).
Definition add_arg (kv : KeyValue) (b : BaseStage) : BaseStage :=
  MkBase (bs_Image b) (bs_Target b) (bs_Envs b) (bs_Args b ++ [kv]) (bs_Instructions b).

(** The instructions before the first FROM. *)
Definition preamble_step (b : BaseStage) (n : Node) : result BaseStage :=
  let b := add_instruction n b in
  if is_cmd "env" n then Ok (add_envs (parseEnv n) b)
  else if is_cmd "arg" n then kv ← parseArg n; Ok (add_arg kv b)
  else Ok b.

(** The instructions of a stage. *)
Definition stage_step (s : Stage) (n : Node) : result Stage :=
  let b := add_instruction n (st_Base s) in
  if is_cmd "env" n then Ok (MkStage (add_envs (parseEnv n) b) (st_Users s))
  else if is_cmd "arg" n then kv ← parseArg n; Ok (MkStage (add_arg kv b) (st_Users s))
  else if is_cmd "user" n then kv ← parseUser n; Ok (MkStage b (st_Users s ++ [kv]))
  else Ok (MkStage b (st_Users s)).

(** The loop over the instructions; [last] is the stage being filled and
    [stages] those before it. *)
Fixpoint parse_stages (stages : list Stage) (last : Stage) (l : list Node)
    : result (list Stage) :=
  match l with
  | [] => Ok (stages ++ [last])
  | n :: l' =>
      if is_cmd "from" n then parse_stages (stages ++ [last]) (parseStage n) l'
      else last' ← stage_step last n; parse_stages stages last' l'
  end.

Fixpoint parse_preamble (b : BaseStage) (l : list Node)
    : result (BaseStage * list Stage) :=
  match l with
  | [] => Ok (b, [])
  | n :: l' =>
      if is_cmd "from" n then stages ← parse_stages [] (parseStage n) l'; Ok (b, stages)
      else b' ← preamble_step b n; parse_preamble b' l'
  end.

(** [StagesByTarget]: a later stage of the same name replaces the earlier. *)
Definition map_stage (m : gmap string nat) (p : nat * Stage) : gmap string nat :=
  if decide (bs_Target (st_Base p.2) = "") then m
  else <[bs_Target (st_Base p.2) := p.1]> m.
Definition map_stages (stages : list Stage) : gmap string nat :=
  foldl map_stage ∅ (imap pair stages).

Definition find_syntax (l : list Directive) : string :=
  match List.find (λ dir, bool_decide (dir_Name dir = "syntax")) l with
  | Some dir => dir_Value dir
  | None => ""
  end.

Section Parse.
(** [parser.Parse] and [DirectiveParser.ParseAll] of buildkit. *)
Context (parser_Parse : string → string + list Node).
Context (parser_Directives : string → string + list Directive).

Definition Parse (dockerfileContent : string) : result Dockerfile :=
  instructions ← of_sum (parser_Parse dockerfileContent);
  match instructions with
  | [] => Err "received empty Dockerfile"
  | _ :: _ =>
      directives ← of_sum (parser_Directives dockerfileContent);
      '(preamble, stages) ← parse_preamble (MkBase "" "" [] [] []) instructions;
      Ok (MkDockerfile dockerfileContent directives preamble (find_syntax directives)
            stages (map_stages stages))
  end.
End Parse.

(** ** Variables *)

(** [\$\{?([a-zA-Z0-9_]+)(:(-|\+)([^\}]+))?\}?] *)
Definition argumentExpression : re :=
  Cat (chr "$") (Cat (Opt (chr "{")) (Cat (Grp 1 (Plus true (Chr is_word)))
    (Cat (Opt (Grp 2 (Cat (chr ":") (Cat (Grp 3 (Alt (chr "-") (chr "+")))
           (Grp 4 (Plus true (Chr (λ c, negb (bool_decide (c = "}"%char))))))))))
         (Opt (chr "}"))))).

(** [^[\s\t]*#[\s\t]*syntax=.*$] with (?m) *)
Definition re_space (c : ascii) : bool :=
  is_space c && negb (bool_decide (c = "011"%char)).
Definition dockerfileSyntax : re :=
  Cat Bol (Cat (Star true (Chr re_space)) (Cat (chr "#")
    (Cat (Star true (Chr re_space)) (Cat (lit "syntax=")
      (Cat (Star true (Chr not_newline)) Eol))))).

Definition RemoveSyntaxVersion (dockerfileContent : string) : string :=
  ReplaceAllString dockerfileSyntax dockerfileContent "".

Definition getExpressionValue (option : string) (isSet : bool)
    (defaultValue value : string) : string :=
  let output :=
    if decide (option = "-") then (if isSet then value else defaultValue)
    else if decide (option = "+") then (if isSet then defaultValue else value)
    else "" in
  Trim output quotes.

(** [ReplaceAllFunc] with a callback that may panic. *)
Fixpoint mreplace_from (r : re) (f : string → result string) (fuel : nat)
    (prev : option ascii) (s : string) : result string :=
  match fuel with
  | 0 => NoFuel
  | S n =>
      match find_from r prev s with
      | None => Ok s
      | Some m =>
          v ← f (m_text m);
          rest ← match m_text m, m_after m with
                 | "", "" => Ok ""
                 | "", String c s' => String c <$> mreplace_from r f n (Some c) s'
                 | _, s' => mreplace_from r f n (m_prev m) s'
                 end;
          Ok (m_before m +:+ v +:+ rest)
      end
  end.

(** The callback of [replaceVariables], for the [findValue] it calls. *)
Definition variable_value (find : string → result string) (m : string) : result string :=
  match FindStringSubmatch argumentExpression m with
  | None => Panic
  | Some subMatches =>
      value ← find (sub subMatches 1);
      Ok (if decide (sub subMatches 2 ≠ "")
          then getExpressionValue (sub subMatches 3) (negb (bool_decide (value = "")))
                 (sub subMatches 4) value
          else value)
  end.
Definition replace_variables (find : string → result string) (val : string)
    : result string :=
  mreplace_from argumentExpression (variable_value find) (S (String.length val)) None val.

Definition stageID (stage : BaseStage) : string :=
  bs_Image stage +:+ "-" +:+ bs_Target stage.

Inductive stage_ref := RPreamble | RStage (i : nat).
#[export] Instance stage_ref_eq_dec : EqDecision stage_ref.
Proof. solve_decision. Defined.

Definition base_of (d : Dockerfile) (r : stage_ref) : result BaseStage :=
  match r with
  | RPreamble => Ok (d_Preamble d)
  | RStage i => st_Base <$> deref (d_Stages d !! i)
  end.

(** [d.Stages[0].Instructions[0].StartLine] *)
Definition first_line (d : Dockerfile) : result Z :=
  stage ← deref (d_Stages d !! 0);
  n ← deref (bs_Instructions (st_Base stage) !! 0);
  Ok (n_StartLine n).

(** [buildArgs[key]], with a missing key the empty string. *)
Definition lookup_str (m : gmap string string) (key : string) : string :=
  default "" (m !! key).

(** The last entry for [variable] before [untilLine] that gives a value. *)
Definition usable (buildArgs : gmap string string) (variable : string) (untilLine : Z)
    (kv : KeyValue) : bool :=
  bool_decide (kv_Key kv = variable) && (kv_Line kv <? untilLine)%Z &&
  negb (bool_decide (lookup_str buildArgs (kv_Key kv) = "" ∧ kv_Value kv = "")).
Definition search_kv (buildArgs : gmap string string) (variable : string) (untilLine : Z)
    (l : list KeyValue) : option KeyValue :=
  List.find (usable buildArgs variable untilLine) (reverse l).

Section FindValue.
Context (d : Dockerfile) (buildArgs baseImageEnv : gmap string string).

Fixpoint find_loop (fuel : nat) (variable : string) (r : stage_ref) (untilLine : Z)
    (considerArg : bool) (seenStages : gset string) : result string :=
  match fuel with
  | 0 => NoFuel
  | S f =>
      let replaceVariables val r' until :=
        replace_variables (λ v, find_loop f v r' until true ∅) val in
      stage ← base_of d r;
      if decide (stageID stage ∈ seenStages) then Ok ""
      else
        let seenStages := {[ stageID stage ]} ∪ seenStages in
        match (if considerArg : bool
               then search_kv buildArgs variable untilLine (bs_Args stage) else None) with
        | Some arg =>
            if decide (lookup_str buildArgs (kv_Key arg) ≠ "")
            then Ok (Trim (lookup_str buildArgs (kv_Key arg)) quotes)
            else v ← replaceVariables (kv_Value arg) r (kv_Line arg); Ok (Trim v quotes)
        | None =>
            match search_kv ∅ variable untilLine (bs_Envs stage) with
            | Some env => replaceVariables (kv_Value env) r (kv_Line env)
            | None =>
                if decide (r = RPreamble) then Ok (lookup_str baseImageEnv variable)
                else
                  first ← first_line d;
                  image ← replaceVariables (bs_Image stage) RPreamble first;
                  match d_StagesByTarget d !! image with
                  | None => find_loop f variable RPreamble first true seenStages
                  | Some j =>
                      found ← base_of d (RStage j);
                      n ← deref (last (bs_Instructions found));
                      find_loop f variable (RStage j) (n_StartLine n + 1)%Z false seenStages
                  end
            end
        end
  end.

Definition findValue (fuel : nat) (variable : string) (r : stage_ref) (untilLine : Z)
    : result string := find_loop fuel variable r untilLine true ∅.

Definition replaceVariables (fuel : nat) (val : string) (r : stage_ref) (untilLine : Z)
    : result string :=
  replace_variables (λ v, findValue fuel v r untilLine) val.
End FindValue.

(** Fuel for [findValue] that is enough when no stage builds on itself: one
    unit for every definition and every stage. *)
Definition entries (b : BaseStage) : nat := length (bs_Args b) + length (bs_Envs b).
Definition weight (l : list Stage) : nat :=
  sum_list_with (λ s, S (entries (st_Base s))) l.
Definition find_fuel (d : Dockerfile) : nat :=
  S (entries (d_Preamble d)) + weight (d_Stages d).

(** ** The base image and the user *)

(** The stage to build: the one of the name, or the last. *)
Definition target_stage (d : Dockerfile) (target : string) : result nat :=
  match d_StagesByTarget d !! target with
  | Some i => Ok i
  | None =>
      match length (d_Stages d) with
      | 0 => Panic
      | S n => Ok n
      end
  end.

(** The name after FROM, with its variables replaced. *)
Definition stage_image (d : Dockerfile) (buildArgs baseImageEnv : gmap string string)
    (i : nat) : result string :=
  stage ← base_of d (RStage i);
  first ← first_line d;
  replaceVariables d buildArgs baseImageEnv (find_fuel d) (bs_Image stage) RPreamble first.

Fixpoint base_loop (d : Dockerfile) (buildArgs : gmap string string) (fuel : nat)
    (visited : gset nat) (i : nat) : result string :=
  match fuel with
  | 0 => NoFuel
  | S f =>
      if decide (i ∈ visited) then Ok ""
      else
        nextTarget ← stage_image d buildArgs ∅ i;
        match d_StagesByTarget d !! nextTarget with
        | None => Ok nextTarget
        | Some j => base_loop d buildArgs f ({[ i ]} ∪ visited) j
        end
  end.

Definition FindBaseImage (d : Dockerfile) (buildArgs : gmap string string)
    (target : string) : result string :=
  i ← target_stage d target;
  base_loop d buildArgs (S (length (d_Stages d))) ∅ i.

(** [depth] is the stack [replaceVariables] may use. *)
Fixpoint user_loop (d : Dockerfile) (buildArgs baseImageEnv : gmap string string)
    (depth fuel : nat) (seenStages : gset string) (i : nat) : result string :=
  match fuel with
  | 0 => NoFuel
  | S f =>
      stage ← deref (d_Stages d !! i);
      if decide (stageID (st_Base stage) ∈ seenStages) then Ok ""
      else
        match last (st_Users stage) with
        | Some lastUser =>
            replaceVariables d buildArgs baseImageEnv depth (kv_Key lastUser)
              (RStage i) (kv_Line lastUser)
        | None =>
            if decide (bs_Image (st_Base stage) = "") then Ok ""
            else
              image ← stage_image d buildArgs baseImageEnv i;
              match d_StagesByTarget d !! image with
              | None => Ok ""
              | Some j =>
                  user_loop d buildArgs baseImageEnv depth f
                    ({[ stageID (st_Base stage) ]} ∪ seenStages) j
              end
        end
  end.

Definition FindUserStatement (d : Dockerfile)
    (buildArgs baseImageEnv : gmap string string) (depth : nat) (target : string)
    : result string :=
  i ← target_stage d target;
  user_loop d buildArgs baseImageEnv depth (S (length (d_Stages d))) ∅ i.

(** ** The files a build copies *)

Definition instruction_files (n : Node) : list string :=
  if HasPrefix (n_Value n) "ADD" || HasPrefix (n_Value n) "COPY" then
    let parts := Split " " (n_Original n) in
    if (2 <? length parts)%nat then take (length parts - 2) (drop 1 parts) else []
  else [].
Definition BuildContextFiles (d : Dockerfile) : list string :=
  concat ((λ s, concat (instruction_files <$> bs_Instructions (st_Base s))) <$> d_Stages d).

(** ** Printing *)

Fixpoint DumpNode (node : Node) : string :=
  let out :=
    match n_PrevComment node with
    | [] => ""
    | c => "# " +:+ GoStrings.Join c (newline +:+ "# ")
    end in
  let out :=
    if decide (n_Value node = "") then out
    else
      (match n_PrevComment node with [] => out | _ => out +:+ newline end) +:+
      n_Value node in
  let out := foldl (λ acc child, acc +:+ " " +:+ child) out (n_Flags node) in
  match n_Next node with
  | None => out
  | Some next => out +:+ " " +:+ DumpNode next
  end.

Definition DumpAll (l : list Node) : string := GoStrings.Join (DumpNode <$> l) newline.

Definition nonempty (s : string) : Prop := s ≠ "".
#[export] Instance nonempty_dec s : Decision (nonempty s).
Proof. unfold nonempty. apply _. Defined.

Definition Dump (d : Dockerfile) : string :=
  let strs := DumpAll (bs_Instructions (d_Preamble d)) ::
    ((λ s, DumpAll (bs_Instructions (st_Base s))) <$> d_Stages d) in
  GoStrings.Join (filter nonempty strs) newline.

(** ** The name of the last stage *)

Fixpoint replace_lines (node : Node) (lineNumber : Z) (lines : list string)
    : list string :=
  match lines with
  | [] => []
  | l :: ls =>
      let lineNumber := (lineNumber + 1)%Z in
      (if decide (n_StartLine node ≤ lineNumber ≤ n_EndLine node)%Z
       then DumpNode node else l) :: replace_lines node lineNumber ls
  end.

Definition ReplaceInDockerfile (dockerfileContent : string) (node : Node) : string :=
  GoStrings.Join (replace_lines node 0 (log_scan dockerfileContent).1) newline.

Definition with_next (n : Node) (next : option Node) : Node :=
  MkNode (n_Value n) next (n_Original n) (n_Flags n) (n_StartLine n) (n_EndLine n)
         (n_PrevComment n).
Definition word (s : string) (next : option Node) : Node := MkNode s next "" [] 0 0 [].

(** [lastChild.Next.Next = "AS" -> name] *)
Definition name_stage (lastChild image : Node) (name : string) : Node :=
  with_next lastChild
    (Some (with_next image (Some (word "AS" (Some (word name None)))))).

Definition last_from (l : list Node) : option Node := last (filter (λ n, is_cmd "from" n) l).

(** The name an AS gives. *)
Definition as_name (image : Node) : option string :=
  match n_Next image with
  | Some n2 =>
      match n_Next n2 with
      | Some n3 => if decide (ToLower (n_Value n2) = "as") then Some (n_Value n3) else None
      | None => None
      end
  | None => None
  end.

Definition EnsureDockerfileHasFinalStageName (parser_Parse : string → string + list Node)
    (dockerfileContent defaultLastStageName : string) : result (string * string) :=
  children ← of_sum (parser_Parse dockerfileContent);
  match last_from children with
  | None => Err "no FROM statement in dockerfile"
  | Some lastChild =>
      match n_Next lastChild with
      | None => Err "cannot parse FROM statement in dockerfile"
      | Some image =>
          match as_name image with
          | Some name => Ok (name, "")
          | None =>
              Ok (defaultLastStageName,
                  ReplaceInDockerfile dockerfileContent
                    (name_stage lastChild image defaultLastStageName))
          end
      end
  end.

(** ** pkg/devcontainer/build.go *)

Record ImageDetails := {
  img_ID : string;
  img_User : string;
  img_Env : list string;
  img_Labels : gmap string string;
  img_Entrypoint : list string;
  img_Cmd : list string;
}.

Record ImageBuildInfo (Metadata : Type) := MkInfo {
  ibi_User : string;
  ibi_Metadata : Metadata;
  ibi_Dockerfile : option Dockerfile;
  ibi_ImageDetails : option ImageDetails;
}.
Arguments MkInfo {_}.
Arguments ibi_User {_}.
Arguments ibi_Metadata {_}.
Arguments ibi_Dockerfile {_}.
Arguments ibi_ImageDetails {_}.

Section BuildInfo.
Context {S Metadata : Type}.
Context (parser_Parse : string → string + list Node).
Context (parser_Directives : string → string + list Directive).
(** [r.inspectImage] asks the driver or a registry; [GetImageMetadata]
    decodes a label of the image. *)
Context (inspectImage : string → M S ImageDetails).
Context (GetImageMetadata : ImageDetails → result Metadata).

Definition getImageBuildInfoFromImage (imageName : string)
    : M S (ImageBuildInfo Metadata) :=
  imageDetails ← inspectImage imageName;
  let user := if decide (img_User imageDetails ≠ "") then img_User imageDetails else "root" in
  imageMetadata ← liftR (wrap "get image metadata" (GetImageMetadata imageDetails));
  mret (MkInfo user imageMetadata None (Some imageDetails)).

Definition getImageBuildInfoFromDockerfile (depth : nat) (dockerFileContent : string)
    (buildArgs : gmap string string) (target : string)
    : M S (ImageBuildInfo Metadata) :=
  parsedDockerfile ← liftR (wrap "parse dockerfile"
    (Parse parser_Parse parser_Directives dockerFileContent));
  if decide (target ≠ "" ∧ d_StagesByTarget parsedDockerfile !! target = None)
  then throw "build target does not exist"
  else
    baseImage ← liftR (FindBaseImage parsedDockerfile buildArgs target);
    if decide (baseImage = "") then throw ("find base image " +:+ target)
    else
      inspected ← caught (inspectImage baseImage);
      imageDetails ← liftR (wrap ("inspect image " +:+ baseImage) inspected);
      user ← liftR (FindUserStatement parsedDockerfile buildArgs
               (ListToObject (img_Env imageDetails)) depth target);
      let user := if decide (user = "") then img_User imageDetails else user in
      let user := if decide (user = "") then "root" else user in
      metadata ← liftR (wrap "get image metadata" (GetImageMetadata imageDetails));
      mret (MkInfo user metadata (Some parsedDockerfile) None).
End BuildInfo.
