(* ===== verification/DockerfileProps.v ===== *)
(** * Properties of the Dockerfile component

    How the instructions are divided into stages; the chain of FROMs that
    [FindBaseImage] follows; when the replacement of variables returns; the
    user of the image; the name given to the last stage. *)

From S2P Require Import Prelude GoStrings GoRegexp Substitute SshConfig.
From S2P Require Import SshConfigProps Dockerfile.
From stdpp Require Import base gmap sets list strings.
From Stdlib Require Import ZArith Lia.

Local Open Scope string_scope.
Local Open Scope list_scope.

(** ** The division into stages *)

Notation not_from := (λ n, is_cmd "from" n = false).

(** What a stage holds of its instructions. *)
Record stage_of (s : Stage) (from : Node) (body : list Node) : Prop := {
  so_instructions : bs_Instructions (st_Base s) = from :: body;
  so_from : is_cmd "from" from = true;
  so_body : Forall not_from body;
  so_image : bs_Image (st_Base s) = bs_Image (st_Base (parseStage from));
  so_target : bs_Target (st_Base s) = bs_Target (st_Base (parseStage from));
  so_envs : bs_Envs (st_Base s) = concat (parseEnv <$> filter (λ n, is_cmd "env" n) body);
  so_args : Forall2 (λ n kv, parseArg n = Ok kv)
              (filter (λ n, is_cmd "arg" n) body) (bs_Args (st_Base s));
  so_users : Forall2 (λ n kv, parseUser n = Ok kv)
               (filter (λ n, is_cmd "user" n) body) (st_Users s);
}.

Lemma parseStage_of n : is_cmd "from" n = true → stage_of (parseStage n) n [].
Proof. intros Hn. by split; try constructor. Qed.

Lemma is_cmd_excl a b n : a ≠ b → is_cmd a n = true → is_cmd b n = false.
Proof. unfold is_cmd. rewrite bool_decide_eq_true, bool_decide_eq_false. congruence. Qed.

Lemma filter_snoc {A} (p : A → bool) l x :
  filter (λ y, p y) (l ++ [x]) = filter (λ y, p y) l ++ (if p x then [x] else []).
Proof.
  rewrite filter_app. f_equal. rewrite filter_cons, filter_nil.
  by destruct (p x).
Qed.

Lemma stage_step_of s s' from body n :
  stage_of s from body → is_cmd "from" n = false → stage_step s n = Ok s' →
  stage_of s' from (body ++ [n]).
Proof.
  intros [Hi Hf Hb Him Ht He Ha Hu] Hn.
  assert (Forall not_from (body ++ [n])) as Hb' by (apply Forall_app; by repeat constructor).
  assert (bs_Instructions (st_Base s) ++ [n] = from :: body ++ [n]) as Hi' by by rewrite Hi.
  unfold stage_step.
  destruct (is_cmd "env" n) eqn:Henv; [|destruct (is_cmd "arg" n) eqn:Harg;
    [|destruct (is_cmd "user" n) eqn:Huser]].
  - intros [= <-]. pose proof (is_cmd_excl "env" "arg" n ltac:(done) Henv) as Harg.
    pose proof (is_cmd_excl "env" "user" n ltac:(done) Henv) as Huser.
    split; rewrite ?filter_snoc, ?Henv, ?Harg, ?Huser, ?app_nil_r; cbn; try done.
    by rewrite He, fmap_app, concat_app; cbn; rewrite app_nil_r.
  - pose proof (is_cmd_excl "arg" "user" n ltac:(done) Harg) as Huser.
    intros (kv & Hkv & [= <-])%bind_Ok.
    split; rewrite ?filter_snoc, ?Henv, ?Harg, ?Huser, ?app_nil_r; cbn; try done.
    apply Forall2_app; by repeat constructor.
  - intros (kv & Hkv & [= <-])%bind_Ok.
    split; rewrite ?filter_snoc, ?Henv, ?Harg, ?Huser, ?app_nil_r; cbn; try done.
    apply Forall2_app; by repeat constructor.
  - intros [= <-].
    by split; rewrite ?filter_snoc, ?Henv, ?Harg, ?Huser, ?app_nil_r; cbn.
Qed.

(** The stages are the groups of instructions between the FROMs. *)
Definition stages_of (stages : list Stage) (l : list Node) : Prop :=
  ∃ groups : list (Node * list Node),
    Forall2 (λ s g, stage_of s g.1 g.2) stages groups ∧
    concat ((λ g, g.1 :: g.2) <$> groups) = l.

Lemma stages_of_snoc stages l s from body :
  stages_of stages l → stage_of s from body →
  stages_of (stages ++ [s]) (l ++ from :: body).
Proof.
  intros (groups & Hg & <-) Hs. exists (groups ++ [(from, body)]). split.
  - apply Forall2_app; [done|]. constructor; [done|constructor].
  - rewrite fmap_app, concat_app. cbn. by rewrite app_nil_r.
Qed.

Lemma parse_stages_of l : ∀ stages last from body done_ r,
  stages_of stages done_ → stage_of last from body →
  parse_stages stages last l = Ok r → stages_of r (done_ ++ (from :: body) ++ l).
Proof.
  induction l as [|n l IH]; intros stages last from body done_ r Hst Hl; cbn.
  - intros [= <-]. rewrite app_nil_r. by apply stages_of_snoc.
  - destruct (is_cmd "from" n) eqn:Hn.
    + intros Hr. eapply IH in Hr; [|by apply stages_of_snoc|by apply parseStage_of].
      by rewrite <-(assoc_L app) in Hr.
    + intros (last' & Hs & Hr)%bind_Ok.
      eapply IH in Hr; [|done|by eapply stage_step_of].
      cbn in Hr. by rewrite <-(assoc_L app) in Hr.
Qed.

(** The preamble holds its instructions, and no FROM is among them. *)
Record preamble_of (b : BaseStage) (l : list Node) : Prop := {
  po_instructions : bs_Instructions b = l;
  po_body : Forall not_from l;
  po_envs : bs_Envs b = concat (parseEnv <$> filter (λ n, is_cmd "env" n) l);
  po_args : Forall2 (λ n kv, parseArg n = Ok kv) (filter (λ n, is_cmd "arg" n) l) (bs_Args b);
  po_image : bs_Image b = "";
  po_target : bs_Target b = "";
}.

Lemma preamble_step_of b b' l n :
  preamble_of b l → is_cmd "from" n = false → preamble_step b n = Ok b' →
  preamble_of b' (l ++ [n]).
Proof.
  intros [Hi Hb He Ha Him Ht] Hn.
  assert (Forall not_from (l ++ [n])) as Hb' by (apply Forall_app; by repeat constructor).
  assert (bs_Instructions b ++ [n] = l ++ [n]) as Hi' by by rewrite Hi.
  unfold preamble_step.
  destruct (is_cmd "env" n) eqn:Henv; [|destruct (is_cmd "arg" n) eqn:Harg].
  - intros [= <-]. pose proof (is_cmd_excl "env" "arg" n ltac:(done) Henv) as Harg.
    split; rewrite ?filter_snoc, ?Henv, ?Harg, ?app_nil_r; cbn; try done.
    by rewrite He, fmap_app, concat_app; cbn; rewrite app_nil_r.
  - intros (kv & Hkv & [= <-])%bind_Ok.
    split; rewrite ?filter_snoc, ?Henv, ?Harg, ?app_nil_r; cbn; try done.
    apply Forall2_app; by repeat constructor.
  - intros [= <-]. by split; rewrite ?filter_snoc, ?Henv, ?Harg, ?app_nil_r; cbn.
Qed.

Lemma parse_preamble_of l : ∀ b done_ b' stages,
  preamble_of b done_ → parse_preamble b l = Ok (b', stages) →
  ∃ pre post, done_ ++ l = pre ++ post ∧ preamble_of b' pre ∧ stages_of stages post.
Proof.
  induction l as [|n l IH]; intros b done_ b' stages Hb; cbn.
  - intros [= <- <-]. exists done_, []. split_and!; try done. exists []. by split.
  - destruct (is_cmd "from" n) eqn:Hn.
    + intros (st & Hst & [= <- <-])%bind_Ok. exists done_, (n :: l). split_and!; try done.
      apply (parse_stages_of l [] (parseStage n) n [] []); [by exists []|by apply parseStage_of|done].
    + intros (b1 & Hb1 & Hr)%bind_Ok.
      eapply IH in Hr as (pre & post & Heq & ? & ?); [|by eapply preamble_step_of].
      exists pre, post. split_and!; try done. by rewrite <-Heq, <-(assoc_L app).
Qed.

Section Parse.
Context (parser_Parse : string → string + list Node).
Context (parser_Directives : string → string + list Directive).
Notation Parse := (Parse parser_Parse parser_Directives).

Lemma Parse_inv content d :
  Parse content = Ok d →
  ∃ children pre post, parser_Parse content = inr children ∧ children = pre ++ post ∧
    preamble_of (d_Preamble d) pre ∧ stages_of (d_Stages d) post ∧
    d_StagesByTarget d = map_stages (d_Stages d).
Proof.
  unfold Dockerfile.Parse. intros (children & Hc & H)%bind_Ok.
  destruct (parser_Parse content) as [e|ch] eqn:Hp; [done|]. injection Hc as ->.
  destruct children as [|n l]; [done|].
  apply bind_Ok in H as (dirs & _ & H). apply bind_Ok in H as ([b st] & Hpp & [= <-]).
  eapply (parse_preamble_of _ _ []) in Hpp as (pre & post & Heq & ? & ?);
    [|by split; repeat constructor].
  by exists (n :: l), pre, post.
Qed.

(** Parse loses nothing and reorders nothing: the instructions of the
    file are those of the preamble followed by those of the stages in order,
    no FROM is in the preamble, and every stage begins with its FROM, has no
    other FROM, takes its image and its name from it, and holds exactly the
    variables, arguments and users its own ENV, ARG and USER instructions
    give, in order. *)
Theorem Parse_stages content d children :
  parser_Parse content = inr children → Parse content = Ok d →
  ∃ groups : list (Node * list Node),
    children = bs_Instructions (d_Preamble d) ++ concat ((λ g, g.1 :: g.2) <$> groups) ∧
    Forall not_from (bs_Instructions (d_Preamble d)) ∧
    Forall2 (λ s g, stage_of s g.1 g.2) (d_Stages d) groups.
Proof.
  intros Hc (ch & pre & post & Hch & -> & Hp & (groups & Hg & <-) & _)%Parse_inv.
  rewrite Hc in Hch. injection Hch as ->. exists groups.
  rewrite (po_instructions _ _ Hp). split_and!; [done|by apply (po_body _ _ Hp)|done].
Qed.

(** *** Printing *)

Lemma Join_app_ne a b sep :
  a ≠ [] → b ≠ [] → GoStrings.Join (a ++ b) sep =
  GoStrings.Join a sep +:+ sep +:+ GoStrings.Join b sep.
Proof.
  intros Ha Hb. induction a as [|x a IH]; [done|].
  destruct a as [|y a].
  - destruct b as [|z b]; [done|]. cbn [app]. by rewrite Join_cons2.
  - cbn [app] in *. rewrite !Join_cons2, IH by done. by rewrite !sapp_assoc.
Qed.

Lemma Join_concat (l : list (list string)) sep :
  Forall (λ x, x ≠ []) l →
  GoStrings.Join ((λ x, GoStrings.Join x sep) <$> l) sep = GoStrings.Join (concat l) sep.
Proof.
  induction 1 as [|x l Hx Hl IH]; [done|].
  destruct l as [|y l]; [cbn; by rewrite app_nil_r|].
  cbn [fmap list_fmap] in IH |- *. rewrite Join_cons2, IH.
  change (concat (x :: y :: l)) with (x ++ concat (y :: l)).
  rewrite Join_app_ne; [done|done|].
  inversion Hl as [|? ? Hy]; subst. by destruct y.
Qed.

Lemma DumpNode_ne n : n_Value n ≠ "" → DumpNode n ≠ "".
Proof.
  intros Hv. destruct n as [v next o fl sl el pc]. cbn in Hv.
  assert (∀ (l : list string) out, out ≠ "" →
            foldl (λ acc child, acc +:+ " " +:+ child) out l ≠ "") as Hfold.
  { intros l. induction l as [|x l IH]; intros out Hout; cbn; [done|]. apply IH.
    by destruct out. }
  cbn. rewrite decide_False by done.
  assert (∀ a b : string, a ≠ "" → a +:+ b ≠ "") as Happ by by intros [].
  destruct next; [apply Happ|]; apply Hfold; destruct pc; cbn; try done.
Qed.

Lemma DumpAll_ne l : l ≠ [] → Forall (λ n, n_Value n ≠ "") l → DumpAll l ≠ "".
Proof.
  intros Hl. destruct 1 as [|n l Hn]; [done|]. apply DumpNode_ne in Hn. unfold DumpAll.
  rewrite fmap_cons. destruct l as [|n' l]; [done|]. rewrite fmap_cons, Join_cons2.
  by destruct (DumpNode n).
Qed.

Lemma Dump_instructions d :
  let groups := bs_Instructions (d_Preamble d) ::
                ((λ s, bs_Instructions (st_Base s)) <$> d_Stages d) in
  Forall (λ n, n_Value n ≠ "") (concat groups) → Dump d = DumpAll (concat groups).
Proof.
  intros groups Hne. unfold Dump, DumpAll.
  replace (_ :: _) with (DumpAll <$> groups) by (subst groups; cbn; by rewrite <-list_fmap_compose).
  assert (filter nonempty (DumpAll <$> groups) =
          (λ x, GoStrings.Join x newline) <$> ((fmap DumpNode) <$> filter (λ g, g ≠ []) groups)) as ->.
  { clearbody groups. induction groups as [|g gs IH]; [done|].
    cbn [concat] in Hne. apply Forall_app in Hne as [Hg Hgs].
    rewrite fmap_cons, !filter_cons, IH by done. destruct (decide (g = [])) as [->|Hgne].
    - rewrite decide_False by (unfold nonempty; by intros []).
      by rewrite decide_False by (by intros []).
    - rewrite decide_True by by apply DumpAll_ne.
      by rewrite decide_True by done. }
  rewrite Join_concat.
  - f_equal. clear Hne. clearbody groups. induction groups as [|g gs IH]; [done|].
    rewrite filter_cons. cbn [concat]. rewrite fmap_app, <-IH.
    destruct (decide (g ≠ [])) as [|Hg]; [done|]. by destruct g; [|destruct Hg].
  - apply Forall_fmap, Forall_forall. intros g [Hg _]%list_elem_of_filter.
    by destruct g.
Qed.

Lemma stages_of_concat stages l :
  stages_of stages l → concat ((λ s, bs_Instructions (st_Base s)) <$> stages) = l.
Proof.
  intros (groups & Hg & <-). induction Hg as [|s g stages groups Hs Hg IH]; [done|].
  rewrite !fmap_cons. cbn [concat]. by rewrite IH, (so_instructions _ _ _ Hs).
Qed.

(** Printing a parsed Dockerfile prints its instructions one after the
    other, in the order of the file and none twice, whatever the division
    into a preamble and stages. *)
Theorem Dump_Parse content d children :
  parser_Parse content = inr children → Parse content = Ok d →
  Forall (λ n, n_Value n ≠ "") children → Dump d = DumpAll children.
Proof.
  intros Hc (ch & pre & post & Hch & -> & Hp & Hst & _)%Parse_inv Hne.
  rewrite Hc in Hch. injection Hch as ->.
  apply stages_of_concat in Hst. rewrite <-(po_instructions _ _ Hp), <-Hst in *.
  by rewrite Dump_instructions.
Qed.
End Parse.

(** ** Well-formed Dockerfiles *)

Record wf (d : Dockerfile) : Prop := {
  wf_stages : d_Stages d ≠ [];
  wf_instructions : Forall (λ s, bs_Instructions (st_Base s) ≠ []) (d_Stages d);
  wf_targets : d_StagesByTarget d = map_stages (d_Stages d);
}.

Lemma map_stages_snoc l s :
  map_stages (l ++ [s]) = map_stage (map_stages l) (length l, s).
Proof.
  unfold map_stages. rewrite imap_app, foldl_app. cbn. by rewrite Nat.add_0_r.
Qed.

Lemma map_stages_unnamed l : map_stages l !! "" = None.
Proof.
  induction l as [|s l IH] using rev_ind; [done|].
  rewrite map_stages_snoc. unfold map_stage. cbn [fst snd].
  case_decide; [done|]. by rewrite lookup_insert_ne.
Qed.

(** A name stands for the last stage that has it. *)
Lemma map_stages_Some l t i :
  map_stages l !! t = Some i →
  ∃ s, l !! i = Some s ∧ bs_Target (st_Base s) = t ∧
       ∀ j s', (i < j)%nat → l !! j = Some s' → bs_Target (st_Base s') ≠ t.
Proof.
  revert i. induction l as [|s l IH] using rev_ind; intros i; [done|].
  rewrite map_stages_snoc. unfold map_stage. cbn [fst snd]. intros H.
  assert (bs_Target (st_Base s) = t ∧ i = length l ∨
          (bs_Target (st_Base s) ≠ t ∨ bs_Target (st_Base s) = "") ∧ map_stages l !! t = Some i)
    as [[Ht ->]|[Hne Hl]].
  { case_decide; [by auto|]. apply lookup_insert_Some in H as [[? <-]|[]]; auto. }
  - exists s. split_and!; [by rewrite lookup_app_r, Nat.sub_diag|done|].
    intros j s' Hj Hl%lookup_lt_Some. rewrite length_app in Hl. cbn in Hl. lia.
  - destruct (IH _ Hl) as (s0 & Hs0 & Ht0 & Hlast). exists s0. split_and!; [|done|].
    { apply lookup_app_l_Some. done. }
    intros j s' Hj [Hl'|[Hge Hl']]%lookup_app_Some; [by eapply Hlast|].
    apply list_lookup_singleton_Some in Hl' as [_ <-].
    destruct Hne as [|Hnil]; [done|]. intros <-.
    by rewrite Hnil, map_stages_unnamed in Hl.
Qed.

Lemma wf_target d t i : wf d → d_StagesByTarget d !! t = Some i → ∃ s, d_Stages d !! i = Some s.
Proof. intros [_ _ ->] (s & ? & _)%map_stages_Some. eauto. Qed.

Lemma Parse_wf pp pd content d :
  Parse pp pd content = Ok d → d_Stages d ≠ [] → wf d.
Proof.
  intros (ch & pre & post & _ & _ & _ & (groups & Hg & _) & Ht)%Parse_inv Hne.
  split; [done| |done]. clear -Hg. induction Hg as [|s g ? ? Hs]; constructor; [|done].
  by rewrite (so_instructions _ _ _ Hs).
Qed.

Lemma wf_first d : wf d → ∃ z, first_line d = Ok z.
Proof.
  intros [Hne Hi _]. unfold first_line. destruct (d_Stages d) as [|s l]; [done|]. cbn.
  inversion Hi as [|? ? Hs]; subst. destruct (bs_Instructions (st_Base s)); [done|].
  eexists. reflexivity.
Qed.

Lemma wf_last d i s : wf d → d_Stages d !! i = Some s →
  ∃ n, last (bs_Instructions (st_Base s)) = Some n.
Proof.
  intros [_ Hi _] Hs. apply (Forall_lookup_1 _ _ _ _ Hi) in Hs.
  apply not_eq_None_Some. by rewrite last_None.
Qed.

(** ** Replacing variables *)

Lemma mreplace_from_total r f : anchor_free r = true →
  (∀ prev s m, find_from r prev s = Some m → ∃ v, f (m_text m) = Ok v) →
  ∀ n prev s, (String.length s < n)%nat → ∃ v, mreplace_from r f n prev s = Ok v.
Proof.
  intros Haf Hf n. induction n as [|n IH]; intros prev s Hn; [lia|]. cbn.
  destruct (find_from r prev s) as [m|] eqn:Hm; [|by eexists].
  destruct (Hf _ _ _ Hm) as [v ->]. cbn.
  apply find_from_spec in Hm as (Hs & _). rewrite Hs, !slength_app in Hn.
  destruct (m_text m) as [|c t], (m_after m) as [|c' a]; cbn in Hn.
  - by eexists.
  - destruct (IH (Some c') a) as [w Hw]; [lia|]. rewrite Hw. by eexists.
  - destruct (IH (m_prev m) "") as [w Hw]; [cbn; lia|]. rewrite Hw. by eexists.
  - destruct (IH (m_prev m) (String c' a)) as [w Hw]; [cbn; lia|]. rewrite Hw. by eexists.
Qed.

Lemma replace_variables_total find val :
  (∀ v, ∃ x, find v = Ok x) → ∃ x, replace_variables find val = Ok x.
Proof.
  intros Hf. apply mreplace_from_total; [reflexivity| |lia].
  intros prev s m Hm. unfold variable_value.
  rewrite (FindStringSubmatch_again argumentExpression _ _ _ eq_refl Hm).
  destruct (Hf (sub (m_caps m) 1)) as [x ->]. by eexists.
Qed.

Lemma mreplace_from_mono r f g : (∀ t x, f t = Ok x → g t = Ok x) →
  ∀ n prev s x, mreplace_from r f n prev s = Ok x → mreplace_from r g n prev s = Ok x.
Proof.
  intros Hfg n. induction n as [|n IH]; intros prev s x; cbn; [done|].
  destruct (find_from r prev s) as [m|]; [|done].
  intros (v & Hv & (rest & Hrest & [= <-])%bind_Ok)%bind_Ok.
  rewrite (Hfg _ _ Hv). cbn.
  enough (match m_text m, m_after m with
          | "", "" => Ok ""
          | "", String c s' => String c <$> mreplace_from r g n (Some c) s'
          | _, s' => mreplace_from r g n (m_prev m) s'
          end = Ok rest) as -> by done.
  destruct (m_text m), (m_after m) as [|c0 a0]; try done; try by apply IH.
  destruct (mreplace_from r f n (Some c0) a0) as [y| | |] eqn:Hy; try done.
  by rewrite (IH _ _ _ Hy).
Qed.

Lemma replace_variables_mono find find' val x :
  (∀ v y, find v = Ok y → find' v = Ok y) →
  replace_variables find val = Ok x → replace_variables find' val = Ok x.
Proof.
  intros Hf. apply mreplace_from_mono. intros t y. unfold variable_value.
  destruct (FindStringSubmatch _ _); [|done].
  intros (v & Hv & Hy)%bind_Ok. by rewrite (Hf _ _ Hv).
Qed.

(** More stack does not change a value. *)
Lemma find_loop_mono d ba be f : ∀ f' v r until c seen x,
  (f ≤ f')%nat → find_loop d ba be f v r until c seen = Ok x →
  find_loop d ba be f' v r until c seen = Ok x.
Proof.
  induction f as [|f IH]; intros [|f'] v r until c seen x Hle; try done; [lia|].
  assert (∀ val r' u y, replace_variables (λ v, find_loop d ba be f v r' u true ∅) val = Ok y →
    replace_variables (λ v, find_loop d ba be f' v r' u true ∅) val = Ok y) as Hr.
  { intros val r' u y. apply replace_variables_mono. intros w z. apply IH. lia. }
  cbn [find_loop]. intros (stage & Hst & H)%bind_Ok. rewrite Hst. cbn [mbind result_bind].
  case_decide; [done|].
  destruct (if c then _ else _) as [arg|].
  { case_decide; [done|]. apply bind_Ok in H as (w & Hw & [= <-]).
    by rewrite (Hr _ _ _ _ Hw). }
  destruct (search_kv _ _ _ _) as [env|]; [by apply Hr|].
  case_decide; [done|].
  apply bind_Ok in H as (first & Hfi & H). rewrite Hfi. cbn [mbind result_bind].
  apply bind_Ok in H as (image & Him & H). rewrite (Hr _ _ _ _ Him). cbn [mbind result_bind].
  destruct (d_StagesByTarget d !! image) as [j|]; [|by apply IH; [lia|]].
  apply bind_Ok in H as (found & Hfo & H). rewrite Hfo. cbn [mbind result_bind].
  apply bind_Ok in H as (n & Hn & H). rewrite Hn. cbn [mbind result_bind]. apply IH; [lia|done].
Qed.

(** Definitions of a stage before a line. *)
Definition below (until : Z) (b : BaseStage) : nat :=
  length (filter (λ kv, (kv_Line kv < until)%Z) (bs_Args b)) +
  length (filter (λ kv, (kv_Line kv < until)%Z) (bs_Envs b)).

Lemma below_entries until b : (below until b ≤ entries b)%nat.
Proof. unfold below, entries. apply Nat.add_le_mono; apply length_filter. Qed.

Lemma filter_lines_le l k u : (k ≤ u)%Z →
  (length (filter (λ kv, (kv_Line kv < k)%Z) l) ≤
   length (filter (λ kv, (kv_Line kv < u)%Z) l))%nat.
Proof.
  intros Hku. induction l as [|x l IH]; [done|]. rewrite !filter_cons.
  repeat case_decide; cbn; lia.
Qed.
Lemma filter_lines_lt l kv u : kv ∈ l → (kv_Line kv < u)%Z →
  (length (filter (λ kv', (kv_Line kv' < kv_Line kv)%Z) l) <
   length (filter (λ kv', (kv_Line kv' < u)%Z) l))%nat.
Proof.
  intros Hin Hu. induction l as [|x l IH]; [by apply elem_of_nil in Hin|].
  rewrite !filter_cons. apply elem_of_cons in Hin as [<-|Hin].
  - rewrite decide_False by lia. rewrite decide_True by done. cbn.
    pose proof (filter_lines_le l (kv_Line kv) u). lia.
  - specialize (IH Hin). repeat case_decide; cbn; lia.
Qed.

Lemma search_kv_Some ba v until l kv :
  search_kv ba v until l = Some kv → kv ∈ l ∧ kv_Key kv = v ∧ (kv_Line kv < until)%Z.
Proof.
  unfold search_kv. intros [Hin Hu]%find_some.
  rewrite <-list_elem_of_In, elem_of_reverse in Hin. split; [done|].
  unfold usable in Hu. apply andb_true_iff in Hu as [[Hk Hl]%andb_true_iff _].
  apply bool_decide_eq_true in Hk. apply Z.ltb_lt in Hl. done.
Qed.

Lemma below_arg ba v until b kv :
  search_kv ba v until (bs_Args b) = Some kv → (below (kv_Line kv) b < below until b)%nat.
Proof.
  intros (Hin & _ & Hlt)%search_kv_Some. unfold below.
  pose proof (filter_lines_lt _ _ _ Hin Hlt).
  pose proof (filter_lines_le (bs_Envs b) (kv_Line kv) until). lia.
Qed.
Lemma below_env ba v until b kv :
  search_kv ba v until (bs_Envs b) = Some kv → (below (kv_Line kv) b < below until b)%nat.
Proof.
  intros (Hin & _ & Hlt)%search_kv_Some. unfold below.
  pose proof (filter_lines_lt _ _ _ Hin Hlt).
  pose proof (filter_lines_le (bs_Args b) (kv_Line kv) until). lia.
Qed.

(** In the preamble a definition only looks at earlier lines. *)
Lemma find_loop_preamble d ba be f : ∀ v until c seen,
  (below until (d_Preamble d) < f)%nat →
  ∃ x, find_loop d ba be f v RPreamble until c seen = Ok x.
Proof.
  induction f as [|f IH]; intros v until c seen Hf; [lia|].
  cbn [find_loop base_of mbind result_bind].
  case_decide; [by eexists|].
  destruct (if c then _ else _) as [arg|] eqn:Harg.
  { case_decide; [by eexists|]. destruct c; [|done]. apply below_arg in Harg.
    edestruct (replace_variables_total
      (λ v, find_loop d ba be f v RPreamble (kv_Line arg) true ∅)) as [x ->]; [|by eexists].
    intros w. apply IH. lia. }
  destruct (search_kv ∅ _ _ _) as [env|] eqn:Henv; [|by eexists].
  apply below_env in Henv. apply replace_variables_total. intros w. apply IH. lia.
Qed.

(** The values of the preamble do not depend on the stack left. *)
Lemma replaceVariables_preamble d ba be f f' val until :
  (entries (d_Preamble d) < f)%nat → (entries (d_Preamble d) < f')%nat →
  ∃ x, replaceVariables d ba be f val RPreamble until = Ok x ∧
       replaceVariables d ba be f' val RPreamble until = Ok x.
Proof.
  intros Hf Hf'. set (g := f `min` f').
  destruct (replace_variables_total (λ v, findValue d ba be g v RPreamble until) val) as [x Hx].
  { intros v. apply find_loop_preamble. pose proof (below_entries until (d_Preamble d)). lia. }
  exists x. split; (eapply replace_variables_mono; [|done]);
    intros v y; apply find_loop_mono; lia.
Qed.

Lemma find_fuel_preamble d : (entries (d_Preamble d) < find_fuel d)%nat.
Proof. unfold find_fuel. lia. Qed.

Lemma stage_image_total d ba be i s : wf d → d_Stages d !! i = Some s →
  ∃ image, stage_image d ba be i = Ok image.
Proof.
  intros Hwf Hs. unfold stage_image. cbn [base_of]. rewrite Hs.
  destruct (wf_first d Hwf) as [z ->].
  cbn [deref fmap result_fmap mbind result_bind].
  edestruct replaceVariables_preamble as (x & Hx & _);
    [apply find_fuel_preamble..|]. exists x. exact Hx.
Qed.

(** ** The base image *)

(** The stage [i] builds on the stage [j]. *)
Definition builds_on (d : Dockerfile) (ba be : gmap string string) (i j : nat) : Prop :=
  ∃ image, stage_image d ba be i = Ok image ∧ d_StagesByTarget d !! image = Some j.

(** The image at the end of the chain of FROMs. *)
Inductive base_image (d : Dockerfile) (ba : gmap string string) : nat → string → Prop :=
| bi_image i image :
    stage_image d ba ∅ i = Ok image → d_StagesByTarget d !! image = None →
    base_image d ba i image
| bi_stage i j image :
    builds_on d ba ∅ i j → base_image d ba j image → base_image d ba i image.

Lemma builds_on_fun d ba be i j k : builds_on d ba be i j → builds_on d ba be i k → j = k.
Proof. intros (? & ? & ?) (? & ? & ?). congruence. Qed.

Lemma builds_on_cycle d ba i image : tc (builds_on d ba ∅) i i → ¬ base_image d ba i image.
Proof.
  intros Hc Hb. induction Hb as [i image Him Hn|i j image Hij _ IH].
  - assert (∃ k, builds_on d ba ∅ i k) as (k & im & ? & ?) by (inversion Hc; eauto).
    congruence.
  - apply IH. inversion Hc as [? ? Hii|? k ? Hik Hki]; subst.
    + by rewrite <-(builds_on_fun _ _ _ _ _ _ Hii Hij) in Hij |- *; apply tc_once.
    + rewrite (builds_on_fun _ _ _ _ _ _ Hik Hij) in Hki. by eapply tc_r.
Qed.

Lemma base_loop_correct d ba f : wf d → ∀ visited i,
  (i < length (d_Stages d))%nat → visited ⊆ set_seq 0 (length (d_Stages d)) →
  (length (d_Stages d) < f + size visited)%nat →
  (∀ v, v ∈ visited → tc (builds_on d ba ∅) v i) →
  ∃ im, base_loop d ba f visited i = Ok im ∧
        (base_image d ba i im ∨ im = "" ∧ ∀ r, ¬ base_image d ba i r).
Proof.
  intros Hwf. induction f as [|f IH]; intros visited i Hi Hsub Hsize Hv.
  { apply subseteq_size in Hsub. rewrite size_set_seq in Hsub. lia. }
  cbn [base_loop]. case_decide as Hin.
  { exists "". split; [done|]. right. split; [done|]. intros r. by apply builds_on_cycle, Hv. }
  destruct (lookup_lt_is_Some_2 _ _ Hi) as [s Hs].
  destruct (stage_image_total d ba ∅ i s Hwf Hs) as [image Him]. rewrite Him.
  cbn [mbind result_bind].
  destruct (d_StagesByTarget d !! image) as [j|] eqn:Hj.
  2: { exists image. split; [done|]. left. by apply bi_image. }
  assert (builds_on d ba ∅ i j) as Hij by by eexists.
  destruct (wf_target _ _ _ Hwf Hj) as [sj Hsj].
  destruct (IH ({[i]} ∪ visited) j) as (im & Hl & Hcase).
  - by eapply lookup_lt_Some.
  - apply union_subseteq. split; [|done]. apply singleton_subseteq_l, elem_of_set_seq. lia.
  - rewrite size_union by set_solver. rewrite size_singleton. lia.
  - intros v [->%elem_of_singleton|Hvin]%elem_of_union; [by apply tc_once|].
    eapply tc_r; [by apply Hv|done].
  - exists im. split; [done|]. destruct Hcase as [Hb|[-> Hno]].
    + left. by eapply bi_stage.
    + right. split; [done|]. intros r Hr.
      inversion Hr as [? ? Him' Hn|? k ? Hik Hk]; subst; [congruence|].
      rewrite (builds_on_fun _ _ _ _ _ _ Hik Hij) in Hk. by eapply Hno.
Qed.

Lemma target_stage_total d target : wf d →
  ∃ i, target_stage d target = Ok i ∧ (i < length (d_Stages d))%nat.
Proof.
  intros Hwf. unfold target_stage.
  destruct (d_StagesByTarget d !! target) as [i|] eqn:Hi.
  - destruct (wf_target _ _ _ Hwf Hi) as [s Hs]. exists i. split; [done|].
    by eapply lookup_lt_Some.
  - destruct Hwf as [Hne _ _]. destruct (d_Stages d); [done|]. cbn. eexists. split; [done|]. lia.
Qed.

(** Every stage builds on stages before it. *)
Definition ordered (d : Dockerfile) (ba be : gmap string string) : Prop :=
  ∀ i j, builds_on d ba be i j → (j < i)%nat.

Lemma ordered_base_image d ba i : wf d → ordered d ba ∅ → (i < length (d_Stages d))%nat →
  ∃ im, base_image d ba i im.
Proof.
  intros Hwf Ho. induction i as [i IH] using lt_wf_ind. intros Hi.
  destruct (lookup_lt_is_Some_2 _ _ Hi) as [s Hs].
  destruct (stage_image_total d ba ∅ i s Hwf Hs) as [image Him].
  destruct (d_StagesByTarget d !! image) as [j|] eqn:Hj.
  - assert (builds_on d ba ∅ i j) as Hij by by eexists.
    pose proof (Ho _ _ Hij) as Hlt.
    destruct (IH j Hlt) as [im Him']; [lia|]. exists im. by eapply bi_stage.
  - exists image. by apply bi_image.
Qed.

(** FindBaseImage always returns, for every Dockerfile with a FROM: what
    it returns is the image at the end of the chain of FROMs that starts at
    the target, and the empty string only when that chain runs in a circle,
    which cannot happen when every stage builds on earlier ones. *)
Theorem FindBaseImage_correct pp pd content d ba target :
  Parse pp pd content = Ok d → d_Stages d ≠ [] →
  ∃ i im, target_stage d target = Ok i ∧ FindBaseImage d ba target = Ok im ∧
    (base_image d ba i im ∨ im = "" ∧ ∀ r, ¬ base_image d ba i r) ∧
    (ordered d ba ∅ → base_image d ba i im).
Proof.
  intros Hp Hne. pose proof (Parse_wf _ _ _ _ Hp Hne) as Hwf.
  destruct (target_stage_total d target Hwf) as (i & Hi & Hlt).
  destruct (base_loop_correct d ba (S (length (d_Stages d))) Hwf ∅ i) as (im & Hl & Hcase);
    [done|set_solver|rewrite size_empty; lia|set_solver|].
  exists i, im. unfold FindBaseImage. rewrite Hi. split_and!; try done.
  intros Ho. destruct Hcase as [|[_ Hno]]; [done|].
  destruct (ordered_base_image d ba i Hwf Ho Hlt) as [r Hr]. by destruct (Hno r).
Qed.

(** ** When the replacement of variables returns *)

Lemma weight_app l k : weight (l ++ k) = (weight l + weight k)%nat.
Proof. unfold weight. apply sum_list_with_app. Qed.

Lemma weight_take_lt l i j s : (j < i)%nat → l !! j = Some s →
  (S (entries (st_Base s)) + weight (take j l) ≤ weight (take i l))%nat.
Proof.
  intros Hji Hs.
  assert (take (S j) l = take (S j) (take i l)) as Ht by (rewrite take_take; f_equal; lia).
  rewrite (take_S_r _ _ _ Hs) in Ht.
  rewrite <-(take_drop (S j) (take i l)), <-Ht, !weight_app.
  replace (weight [s]) with (S (entries (st_Base s))); [lia|]. unfold weight. cbn. lia.
Qed.

Lemma find_loop_stage d ba be f : wf d → ordered d ba be → ∀ i s v until c seen,
  d_Stages d !! i = Some s →
  (below until (st_Base s) + weight (take i (d_Stages d)) + S (entries (d_Preamble d)) < f)%nat →
  ∃ x, find_loop d ba be f v (RStage i) until c seen = Ok x.
Proof.
  intros Hwf Ho. induction f as [|f IH]; intros i s v until c seen Hs Hf; [lia|].
  cbn [find_loop base_of]. rewrite Hs. cbn [deref fmap result_fmap mbind result_bind].
  case_decide; [by eexists|].
  destruct (if c then _ else _) as [arg|] eqn:Harg.
  { case_decide; [by eexists|]. destruct c; [|done]. apply below_arg in Harg.
    edestruct (replace_variables_total
      (λ v, find_loop d ba be f v (RStage i) (kv_Line arg) true ∅)) as [x ->]; [|by eexists].
    intros w. eapply IH; [done|lia]. }
  destruct (search_kv ∅ _ _ _) as [env|] eqn:Henv.
  { apply below_env in Henv. apply replace_variables_total. intros w. eapply IH; [done|lia]. }
  rewrite decide_False by done.
  destruct (wf_first d Hwf) as [first Hfirst]. rewrite Hfirst. cbn [mbind result_bind].
  destruct (replaceVariables_preamble d ba be f (find_fuel d) (bs_Image (st_Base s)) first)
    as (image & Him & Him'); [lia|apply find_fuel_preamble|].
  unfold replaceVariables, findValue in Him. rewrite Him. cbn [mbind result_bind].
  destruct (d_StagesByTarget d !! image) as [j|] eqn:Hj.
  - assert (builds_on d ba be i j) as Hij.
    { exists image. split; [|done]. unfold stage_image. cbn [base_of]. rewrite Hs, Hfirst.
      exact Him'. }
    pose proof (Ho _ _ Hij) as Hlt. destruct (wf_target _ _ _ Hwf Hj) as [sj Hsj].
    rewrite Hsj. cbn [deref fmap result_fmap mbind result_bind].
    destruct (wf_last _ _ _ Hwf Hsj) as [n Hn]. rewrite Hn. cbn [deref mbind result_bind].
    eapply IH; [done|].
    pose proof (below_entries (n_StartLine n + 1) (st_Base sj)).
    pose proof (weight_take_lt _ _ _ _ Hlt Hsj). lia.
  - apply find_loop_preamble. pose proof (below_entries first (d_Preamble d)). lia.
Qed.

Lemma replaceVariables_stage d ba be depth val i s until :
  wf d → ordered d ba be → d_Stages d !! i = Some s → (find_fuel d ≤ depth)%nat →
  ∃ x, replaceVariables d ba be depth val (RStage i) until = Ok x.
Proof.
  intros Hwf Ho Hs Hd. apply replace_variables_total. intros v.
  eapply find_loop_stage; [done..|].
  pose proof (below_entries until (st_Base s)).
  pose proof (weight_take_lt _ (length (d_Stages d)) i s (lookup_lt_Some _ _ _ Hs) Hs) as Hw.
  rewrite firstn_all in Hw. unfold find_fuel in Hd. lia.
Qed.

(** ** The user *)

(** The user of the image a stage builds: its last USER, or else the user
    of the stage it builds on. *)
Inductive user_of (d : Dockerfile) (ba be : gmap string string) (depth : nat)
    : nat → string → Prop :=
| uo_user i s kv user :
    d_Stages d !! i = Some s → last (st_Users s) = Some kv →
    replaceVariables d ba be depth (kv_Key kv) (RStage i) (kv_Line kv) = Ok user →
    user_of d ba be depth i user
| uo_image i s image :
    d_Stages d !! i = Some s → last (st_Users s) = None →
    stage_image d ba be i = Ok image → d_StagesByTarget d !! image = None →
    user_of d ba be depth i ""
| uo_stage i s j user :
    d_Stages d !! i = Some s → last (st_Users s) = None →
    builds_on d ba be i j → user_of d ba be depth j user →
    user_of d ba be depth i user.

Definition ids (d : Dockerfile) : list string := (λ s, stageID (st_Base s)) <$> d_Stages d.

Lemma ids_inj d i j s s' : NoDup (ids d) → d_Stages d !! i = Some s →
  d_Stages d !! j = Some s' → stageID (st_Base s) = stageID (st_Base s') → i = j.
Proof.
  intros Hnd Hs Hs' Heq.
  eapply (NoDup_lookup (ids d) _ _ (stageID (st_Base s))); [done|..];
    unfold ids; rewrite list_lookup_fmap; [by rewrite Hs|by rewrite Hs', Heq].
Qed.

Lemma stage_image_empty d ba be i s image : d_Stages d !! i = Some s →
  bs_Image (st_Base s) = "" → stage_image d ba be i = Ok image → image = "".
Proof.
  intros Hs Hi. unfold stage_image. cbn [base_of]. rewrite Hs.
  cbn [deref fmap result_fmap mbind result_bind]. rewrite Hi.
  intros (z & _ & H)%bind_Ok. by injection H as <-.
Qed.

Lemma user_loop_correct d ba be depth f : wf d → ordered d ba be → NoDup (ids d) →
  (find_fuel d ≤ depth)%nat → ∀ seen i,
  (i < f)%nat → (i < length (d_Stages d))%nat →
  (∀ id, id ∈ seen → ∃ j s, (i < j)%nat ∧ d_Stages d !! j = Some s ∧ id = stageID (st_Base s)) →
  ∃ user, user_loop d ba be depth f seen i = Ok user ∧ user_of d ba be depth i user.
Proof.
  intros Hwf Ho Hnd Hd. induction f as [|f IH]; intros seen i Hif Hi Hseen; [lia|].
  destruct (lookup_lt_is_Some_2 _ _ Hi) as [s Hs]. cbn [user_loop]. rewrite Hs.
  cbn [deref mbind result_bind]. rewrite decide_False.
  2: { intros (j & s' & Hij & Hs' & Heq)%Hseen. pose proof (ids_inj _ _ _ _ _ Hnd Hs Hs' Heq). lia. }
  destruct (stage_image_total d ba be i s Hwf Hs) as [image Him].
  destruct (last (st_Users s)) as [kv|] eqn:Hl.
  { destruct (replaceVariables_stage d ba be depth (kv_Key kv) i s (kv_Line kv) Hwf Ho Hs Hd)
      as [user Hu]. rewrite Hu. exists user. split; [done|]. by eapply uo_user. }
  case_decide as Himg.
  { exists "". split; [done|]. eapply uo_image; [done..|].
    rewrite (stage_image_empty _ _ _ _ _ _ Hs Himg Him), (wf_targets _ Hwf).
    apply map_stages_unnamed. }
  rewrite Him. cbn [mbind result_bind].
  destruct (d_StagesByTarget d !! image) as [j|] eqn:Hj.
  2: { exists "". split; [done|]. by eapply uo_image. }
  assert (builds_on d ba be i j) as Hij by by eexists. pose proof (Ho _ _ Hij) as Hlt.
  destruct (IH ({[stageID (st_Base s)]} ∪ seen) j) as (user & Hu & Huo); [lia|lia| |].
  - intros id [->%elem_of_singleton|Hid]%elem_of_union; [by eauto|].
    destruct (Hseen _ Hid) as (k & s' & ? & ? & ?). exists k, s'. split_and!; [lia|done..].
  - exists user. split; [done|]. by eapply uo_stage.
Qed.

(** FindUserStatement returns the user of the last USER of the target
    stage, with its variables replaced, or else of the nearest stage it
    builds on that has one, and the empty string when none has; it returns
    whenever every stage builds on earlier ones (the identifiers of the
    stages being different), and the stack it needs is one frame for every
    definition and stage of the file. *)
Theorem FindUserStatement_correct pp pd content d ba be depth target :
  Parse pp pd content = Ok d → d_Stages d ≠ [] → ordered d ba be → NoDup (ids d) →
  (find_fuel d ≤ depth)%nat →
  ∃ i user, target_stage d target = Ok i ∧
    FindUserStatement d ba be depth target = Ok user ∧ user_of d ba be depth i user.
Proof.
  intros Hp Hne Ho Hnd Hd. pose proof (Parse_wf _ _ _ _ Hp Hne) as Hwf.
  destruct (target_stage_total d target Hwf) as (i & Hi & Hlt).
  destruct (user_loop_correct d ba be depth (S (length (d_Stages d))) Hwf Ho Hnd Hd ∅ i)
    as (user & Hu & Huo); [lia|done|set_solver|].
  exists i, user. unfold FindUserStatement. rewrite Hi. by split_and!.
Qed.

(** ** ENV

    buildkit's parser gives an ENV three nodes for every variable: its name,
    its value and the separator. *)

Fixpoint env_nodes (l : list (string * string * string)) : option Node :=
  match l with
  | [] => None
  | (k, v, sep) :: l' => Some (word k (Some (word v (Some (word sep (env_nodes l'))))))
  end.
Definition env_instruction (line : Z) (l : list (string * string * string)) : Node :=
  MkNode "ENV" (env_nodes l) "" [] line line [].
Definition env_value (v : string) : string := Trim (ReplaceAll v "\" "") quotes.

Fixpoint every_other {A} (l : list A) : list A :=
  match l with
  | x :: _ :: l' => x :: every_other l'
  | _ => l
  end.

(** parseEnv takes the nodes of an ENV two by two, where the parser gives
    three for a variable: of [ENV a=1 b=2 c=3 d=4] it records a, a variable
    called =, a variable called 2, c, and so on.  The first, third, fifth, ...
    variable is recorded with its value and the others are lost: a variable
    that is neither a separator nor a value of the instruction is in the
    result exactly when it is at such a place. *)
Theorem parseEnv_every_other line l k :
  Forall (λ t, TrimSpace t.1.1 = t.1.1 ∧ TrimSpace t.1.2 ≠ k ∧ TrimSpace t.2 ≠ k) l →
  (∃ v, MkKV k v line ∈ parseEnv (env_instruction line l)) ↔
  ∃ v sep, (k, v, sep) ∈ every_other l.
Proof.
  unfold parseEnv, env_instruction. cbn [n_Next n_StartLine].
  induction l as [l IH] using (induction_ltof1 _ length). unfold ltof in IH.
  destruct l as [|[[a v] sep] [|[[b w] sep'] l]]; intros Hl.
  - cbn. split; [intros (? & []%elem_of_nil)|intros (? & ? & []%elem_of_nil)].
  - apply Forall_singleton in Hl as (Ha & Hv & Hs).
    cbn [env_nodes env_pairs word n_Next n_Value every_other fst snd] in *.
    setoid_rewrite list_elem_of_singleton. split.
    + intros (x & [= -> _]). exists v, sep. by rewrite Ha.
    + intros (x & y & [= -> -> ->]). eexists. by rewrite Ha.
  - apply Forall_cons in Hl as [(Ha & Hv & Hs) [(Hb & Hw & Hs') Hl]%Forall_cons].
    specialize (IH l ltac:(cbn; lia) Hl). cbn [every_other].
    setoid_rewrite elem_of_cons.
    transitivity (k = a ∨ ∃ v, MkKV k v line ∈
      match env_nodes l with Some node => env_pairs line node | None => [] end).
    + cbn [env_nodes env_pairs word n_Next n_Value fst snd] in *.
      repeat setoid_rewrite elem_of_cons.
      split.
      * intros (x & [[= -> _]|[[= -> _]|[[= -> _]|H]]]); try done; [by left|].
        right. by exists x.
      * intros [->|(x & H)]; [eexists; left; by rewrite Ha|]. exists x. by do 3 right.
    + rewrite IH. split.
      * intros [->|(x & y & H)]; [exists v, sep; by left|exists x, y; by right].
      * intros (x & y & [[= -> -> ->]|H]); [by left|right; by exists x, y].
Qed.

(** ** The name of the last stage *)

Lemma replace_lines_insert node lines : ∀ (n : Z) (k : nat),
  n_StartLine node = (n + 1 + Z.of_nat k)%Z → n_EndLine node = n_StartLine node →
  replace_lines node n lines = <[k := DumpNode node]> lines.
Proof.
  induction lines as [|l ls IH]; intros n k Hs He; cbn [replace_lines]; [done|].
  destruct k as [|k].
  - rewrite decide_True by lia. cbn. f_equal.
    clear IH. assert (n_StartLine node ≤ n + 1)%Z as Hle by lia. revert Hle. clear Hs.
    generalize (n + 1)%Z as m. induction ls as [|l' ls IH]; intros m Hle; cbn [replace_lines]; [done|].
    rewrite decide_False by lia. f_equal. apply IH. lia.
  - rewrite decide_False by lia. cbn. f_equal. apply IH; [lia|done].
Qed.

Lemma DumpNode_name n image name :
  DumpNode (name_stage n image name) =
  DumpNode (with_next n (Some (with_next image None))) +:+ " AS " +:+ name.
Proof.
  destruct n as [v1 x1 o1 f1 s1 e1 c1], image as [v2 x2 o2 f2 s2 e2 c2].
  assert (∀ nm, DumpNode (word nm None) = nm) as Hw.
  { intros nm. cbn. by case_decide as Hn. }
  unfold name_stage, with_next. cbn [DumpNode n_Next n_Value n_Flags n_PrevComment].
  change (DumpNode (word "AS" (Some (word name None))))
    with ("AS" +:+ " " +:+ DumpNode (word name None)).
  rewrite Hw, !sapp_assoc. done.
Qed.

(** EnsureDockerfileHasFinalStageName gives the last FROM a name and
    changes nothing else: when the FROM is on one line, that line becomes the
    FROM with its flags and image followed by AS and the name, every other
    line is kept, and the name is returned. *)
Theorem EnsureDockerfileHasFinalStageName_names pp content name children lastChild image k :
  pp content = inr children → last_from children = Some lastChild →
  n_Next lastChild = Some image → as_name image = None →
  n_StartLine lastChild = Z.of_nat (S k) → n_EndLine lastChild = n_StartLine lastChild →
  Forall (fit 1048576) (text_lines content) →
  EnsureDockerfileHasFinalStageName pp content name =
  Ok (name,
      GoStrings.Join
        (<[k := DumpNode (with_next lastChild (Some (with_next image None))) +:+ " AS " +:+ name]>
           (text_lines content)) newline).
Proof.
  intros Hp Hl Hi Ha Hs He Hfit. unfold EnsureDockerfileHasFinalStageName.
  rewrite Hp. cbn [of_sum mbind result_bind]. rewrite Hl, Hi, Ha. unfold ReplaceInDockerfile.
  unfold log_scan. rewrite (scan_fits _ _ Hfit). cbn [fst].
  rewrite (replace_lines_insert _ _ 0 k), DumpNode_name; cbn; [done|lia|done].
Qed.

(** ** The files of a COPY *)

(** The words of a COPY or ADD between the instruction and the last one,
    when single spaces separate them. *)
Lemma instruction_files_words n cmd files dst :
  n_Value n = cmd → HasPrefix cmd "ADD" || HasPrefix cmd "COPY" = true →
  Forall (λ w, free " " w = true) (cmd :: files ++ [dst]) →
  n_Original n = GoStrings.Join (cmd :: files ++ [dst]) " " →
  instruction_files n = files.
Proof.
  intros Hv Hp Hfree Ho. unfold instruction_files. rewrite Hv, Hp, Ho.
  rewrite Split_Join; [|done|by intros w Hw; eapply Forall_forall in Hfree].
  cbn [length drop]. rewrite length_app. cbn [length].
  destruct files as [|f files]; [done|].
  rewrite (proj2 (Nat.ltb_lt _ _)) by (cbn; lia).
  replace (S (length (f :: files) + 1) - 2)%nat with (length (f :: files)) by (cbn; lia).
  apply (take_app_length (f :: files)).
Qed.

(** ** Examples *)

Fixpoint words (l : list string) : option Node :=
  match l with [] => None | w :: l' => Some (word w (words l')) end.
Definition inst (line : Z) (cmd : string) (args : list string) : Node :=
  MkNode cmd (words args) (GoStrings.Join (cmd :: args) " ") [] line line [].
Definition parsed (l : list Node) : result Dockerfile := Parse (λ _, inr l) (λ _, inr []) "".

(** [ARG V=18], [FROM node:${V:-20} AS base], [USER $WHO], [FROM base],
    [ENV A=1]. *)
Definition two_stages : list Node :=
  [inst 1 "ARG" ["V=18"]; inst 2 "FROM" ["node:${V:-20}"; "AS"; "base"];
   inst 3 "USER" ["$WHO"]; inst 4 "FROM" ["base"]; env_instruction 5 [("A", "1", "=")]].

Definition two_stages_file : Dockerfile :=
  match parsed two_stages with Ok d => d | _ => MkDockerfile "" [] (MkBase "" "" [] [] []) "" [] ∅ end.

Lemma two_stages_parsed : parsed two_stages = Ok two_stages_file.
Proof. reflexivity. Qed.

Lemma Parse_stages_witness :
  ∃ groups : list (Node * list Node),
    two_stages = bs_Instructions (d_Preamble two_stages_file) ++
                 concat ((λ g, g.1 :: g.2) <$> groups) ∧
    Forall not_from (bs_Instructions (d_Preamble two_stages_file)) ∧
    Forall2 (λ s g, stage_of s g.1 g.2) (d_Stages two_stages_file) groups.
Proof.
  apply (Parse_stages (λ _, inr two_stages) (λ _, inr []) "");
    [reflexivity|apply two_stages_parsed].
Defined.

Lemma Dump_Parse_witness : Dump two_stages_file = DumpAll two_stages.
Proof.
  apply (Dump_Parse (λ _, inr two_stages) (λ _, inr []) "");
    [reflexivity|apply two_stages_parsed|]. by repeat constructor.
Defined.

Lemma FindBaseImage_correct_witness :
  FindBaseImage two_stages_file {["V" := "22"]} "" = Ok "node:22" ∧
  ∃ i im, target_stage two_stages_file "" = Ok i ∧
    FindBaseImage two_stages_file {["V" := "22"]} "" = Ok im ∧
    (base_image two_stages_file {["V" := "22"]} i im ∨
     im = "" ∧ ∀ r, ¬ base_image two_stages_file {["V" := "22"]} i r) ∧
    (ordered two_stages_file {["V" := "22"]} ∅ → base_image two_stages_file {["V" := "22"]} i im).
Proof.
  split; [vm_compute; reflexivity|].
  apply (FindBaseImage_correct (λ _, inr two_stages) (λ _, inr []) "");
    [apply two_stages_parsed|done].
Defined.

Lemma two_stages_ordered : ordered two_stages_file ∅ {["WHO" := "node"]}.
Proof.
  intros i j (image & Him & Hj).
  destruct i as [|[|i]]; [| |by vm_compute in Him].
  - vm_compute in Him. injection Him as <-. by vm_compute in Hj.
  - vm_compute in Him. injection Him as <-. vm_compute in Hj. injection Hj as <-. lia.
Qed.

Lemma FindUserStatement_correct_witness :
  FindUserStatement two_stages_file ∅ {["WHO" := "node"]} (find_fuel two_stages_file) "" = Ok "node" ∧
  ∃ i user, target_stage two_stages_file "" = Ok i ∧
    FindUserStatement two_stages_file ∅ {["WHO" := "node"]} (find_fuel two_stages_file) "" = Ok user ∧
    user_of two_stages_file ∅ {["WHO" := "node"]} (find_fuel two_stages_file) i user.
Proof.
  split; [vm_compute; reflexivity|].
  apply (FindUserStatement_correct (λ _, inr two_stages) (λ _, inr []) "");
    [apply two_stages_parsed|done|apply two_stages_ordered| |done].
  by apply (bool_decide_eq_true_1 _); vm_compute.
Defined.

(** The second variable of an ENV is not recorded. *)
Lemma parseEnv_every_other_witness :
  (∃ v, MkKV "B" v 1 ∈ parseEnv (env_instruction 1 [("A", "1", "="); ("B", "2", "=")])) ↔
  ∃ v sep, ("B", v, sep) ∈ every_other [("A", "1", "="); ("B", "2", "=")].
Proof. apply parseEnv_every_other. by repeat constructor. Defined.

Lemma EnsureDockerfileHasFinalStageName_names_witness :
  EnsureDockerfileHasFinalStageName (λ _, inr two_stages)
    (DumpAll two_stages) "dev_container_auto_added_stage_label" =
  Ok ("dev_container_auto_added_stage_label",
      GoStrings.Join (<[3%nat := "FROM base AS dev_container_auto_added_stage_label"]>
        (text_lines (DumpAll two_stages))) newline).
Proof.
  apply (EnsureDockerfileHasFinalStageName_names (λ _, inr two_stages) _ _ two_stages
           (inst 4 "FROM" ["base"]) (word "base" None) 3); try reflexivity.
  by apply (bool_decide_eq_true_1 _); vm_compute.
Defined.

(** ** What goes wrong *)

(** [FROM node AS node]: the name of a stage hides the image it builds on,
    and no base image is found. *)
Example FindBaseImage_own_name :
  (d ← parsed [inst 1 "FROM" ["node"; "AS"; "node"]]; FindBaseImage d ∅ "") = Ok "".
Proof. reflexivity. Qed.

(** [FROM a-b AS a], [USER me], [FROM a AS b-a]: the two stages have the same
    identifier, and the user of the first is not found from the second. *)
Example FindUserStatement_same_id :
  (d ← parsed [inst 1 "FROM" ["a-b"; "AS"; "a"]; inst 2 "USER" ["me"];
               inst 3 "FROM" ["a"; "AS"; "b-a"]];
   FindUserStatement d ∅ ∅ (find_fuel d) "") = Ok "".
Proof. vm_compute. reflexivity. Qed.

(** [USER ${WHO:-me}] loses its default with the group. *)
Example FindUserStatement_default_lost :
  (d ← parsed [inst 1 "FROM" ["a"]; inst 2 "USER" ["${WHO:-me}"]];
   FindUserStatement d ∅ ∅ (find_fuel d) "") = Ok "".
Proof. vm_compute. reflexivity. Qed.

(** [ARG A=1 B=2] is one argument called [A=1]. *)
Example parseArg_two : parseArg (inst 1 "ARG" ["A=1"; "B=2"]) = Ok (MkKV "A=1" "B=2" 1).
Proof. reflexivity. Qed.

(** A USER or ARG without a value, or a file without FROM. *)
Example Parse_bare_user : parsed [inst 1 "FROM" ["a"]; inst 2 "USER" []] = Panic.
Proof. reflexivity. Qed.
Example FindBaseImage_no_from :
  (d ← parsed [inst 1 "ARG" ["A=1"]]; FindBaseImage d ∅ "") = Panic.
Proof. reflexivity. Qed.

(** An ARG hides a later ENV of the same name. *)
Example findValue_arg_before_env :
  (d ← parsed [inst 1 "FROM" ["a"]; inst 2 "ARG" ["WHO=x"];
               env_instruction 3 [("WHO", "y", "=")]; inst 4 "USER" ["$WHO"]];
   FindUserStatement d ∅ ∅ (find_fuel d) "") = Ok "x".
Proof. vm_compute. reflexivity. Qed.

(** A FROM on two lines is written twice. *)
Example ReplaceInDockerfile_two_lines :
  ReplaceInDockerfile ("FROM \" +:+ newline +:+ "  a" +:+ newline +:+ "RUN b")
    (MkNode "FROM" (words ["a"; "AS"; "x"]) "" [] 1 2 []) =
  "FROM a AS x" +:+ newline +:+ "FROM a AS x" +:+ newline +:+ "RUN b".
Proof. vm_compute. reflexivity. Qed.

(** [FROM a AS b], [ENV X=$Y], [FROM b AS a], [ENV Y=$X], [USER $Y]. *)
Definition circle : list Node :=
  [inst 1 "FROM" ["a"; "AS"; "b"]; env_instruction 2 [("X", "$Y", "=")];
   inst 3 "FROM" ["b"; "AS"; "a"]; env_instruction 4 [("Y", "$X", "=")];
   inst 5 "USER" ["$Y"]].
Definition circle_file : Dockerfile :=
  match parsed circle with Ok d => d | _ => two_stages_file end.

Lemma replace_variable_NoFuel find name :
  find name = NoFuel → name = "X" ∨ name = "Y" →
  replace_variables find (String "$" name) = NoFuel.
Proof. intros Hf [-> | ->]; vm_compute; by rewrite Hf. Qed.

Lemma replace_letter find s : s = "a" ∨ s = "b" → replace_variables find s = Ok s.
Proof. intros [-> | ->]; reflexivity. Qed.

Notation circle_find := (find_loop circle_file ∅ ∅).


(** One unfolding of the loop at each of the five states it goes through. *)
Lemma circle_env f u c seen :
  c = true ∧ u = 5%Z ∧ seen = ∅ ∨ c = false ∧ u = 6%Z ∧ seen = {["a-b"]} ∪ ∅ →
  circle_find (S f) "Y" (RStage 1) u c seen =
  replace_variables (λ v, circle_find f v (RStage 1) 4 true ∅) "$X".
Proof. intros [(-> & -> & ->)|(-> & -> & ->)]; reflexivity. Qed.

Lemma circle_env_b f :
  circle_find (S f) "X" (RStage 0) 3 false ({["b-a"]} ∪ ∅) =
  replace_variables (λ v, circle_find f v (RStage 0) 2 true ∅) "$Y".
Proof. reflexivity. Qed.

(** The step to the stage an image stands for. *)
Definition circle_next (f : nat) (v id image : string) : result string :=
  match d_StagesByTarget circle_file !! image with
  | None => circle_find f v RPreamble 1 true ({[id]} ∪ ∅)
  | Some j =>
      found ← base_of circle_file (RStage j);
      n ← deref (last (bs_Instructions found));
      circle_find f v (RStage j) (n_StartLine n + 1) false ({[id]} ∪ ∅)
  end.

Lemma circle_from f v r u image id :
  v = "X" ∧ r = RStage 1 ∧ u = 4%Z ∧ image = "b" ∧ id = "b-a" ∨
  v = "Y" ∧ r = RStage 0 ∧ u = 2%Z ∧ image = "a" ∧ id = "a-b" →
  circle_find (S f) v r u true ∅ = circle_next f v id image.
Proof.
  intros Hcase. transitivity
    (image ← replace_variables (λ v, circle_find f v RPreamble 1 true ∅) image;
     circle_next f v id image).
  - by destruct Hcase as [(-> & -> & -> & -> & ->)|(-> & -> & -> & -> & ->)].
  - rewrite replace_letter; [done|].
    destruct Hcase as [(_ & _ & _ & -> & _)|(_ & _ & _ & -> & _)]; auto.
Qed.

Lemma circle_NoFuel f :
  circle_find f "Y" (RStage 1) 5 true ∅ = NoFuel ∧
  circle_find f "Y" (RStage 1) 6 false ({["a-b"]} ∪ ∅) = NoFuel ∧
  circle_find f "X" (RStage 1) 4 true ∅ = NoFuel ∧
  circle_find f "X" (RStage 0) 3 false ({["b-a"]} ∪ ∅) = NoFuel ∧
  circle_find f "Y" (RStage 0) 2 true ∅ = NoFuel.
Proof.
  induction f as [|f (H1 & H2 & H3 & H4 & H5)]; [done|].
  split_and!.
  - rewrite circle_env by auto. apply replace_variable_NoFuel; auto.
  - rewrite circle_env by auto 6. apply replace_variable_NoFuel; auto.
  - rewrite (circle_from _ _ _ _ "b" "b-a") by auto 7. exact H4.
  - rewrite circle_env_b. apply replace_variable_NoFuel; auto.
  - rewrite (circle_from _ _ _ _ "a" "a-b") by auto 7. exact H2.
Qed.

(** Docker builds [FROM a AS b], [ENV X=$Y], [FROM b AS a], [ENV Y=$X]:
    the first FROM is an image and the second the stage before it.  In
    FindUserStatement the two stages build on each other, the guard against
    circles is started anew for every variable, and the search does not
    return: it exhausts every stack. *)
Theorem FindUserStatement_overflows :
  parsed circle = Ok circle_file ∧
  ∀ depth, FindUserStatement circle_file ∅ ∅ depth "" = NoFuel.
Proof.
  split; [reflexivity|]. intros depth.
  transitivity (replace_variables (λ v, circle_find depth v (RStage 1) 5 true ∅) "$Y");
    [reflexivity|].
  apply replace_variable_NoFuel; [apply circle_NoFuel|auto].
Qed.

(** A lower-case instruction is not seen, and a flag is taken for a file. *)
Example instruction_files_lower : instruction_files (inst 1 "copy" ["a"; "/a"]) = [].
Proof. reflexivity. Qed.
Example instruction_files_flag :
  instruction_files (inst 1 "COPY" ["--from=build"; "a"; "/a"]) = ["--from=build"; "a"].
Proof. reflexivity. Qed.

(** ** Build information *)

Section BuildInfo.
Context {S Metadata : Type}.
Context (parser_Parse : string → string + list Node).
Context (parser_Directives : string → string + list Directive).
Context (inspectImage : string → M S ImageDetails).
Context (GetImageMetadata : ImageDetails → result Metadata).

(** The user of the image is never empty, and is the one of the Dockerfile
    when it has one. *)
Lemma getImageBuildInfoFromDockerfile_user depth content ba target s info s' :
  getImageBuildInfoFromDockerfile parser_Parse parser_Directives inspectImage
    GetImageMetadata depth content ba target s = (Ok info, s') →
  ∃ d image details user,
    Parse parser_Parse parser_Directives content = Ok d ∧ ibi_Dockerfile info = Some d ∧
    FindBaseImage d ba target = Ok image ∧ image ≠ "" ∧
    inspectImage image s = (Ok details, s') ∧
    FindUserStatement d ba (ListToObject (img_Env details)) depth target = Ok user ∧
    (user ≠ "" → ibi_User info = user) ∧
    (user = "" → img_User details ≠ "" → ibi_User info = img_User details) ∧
    ibi_User info ≠ "".
Proof.
  unfold getImageBuildInfoFromDockerfile.
  intros (d & s1 & [= Hd%wrap_Ok <-] & H)%M_bind_Ok.
  case_decide; [done|]. apply M_bind_Ok in H as (image & s2 & [= Him <-] & H).
  case_decide as Hne; [done|]. apply M_bind_Ok in H as (c & s3 & Hin & H).
  unfold caught in Hin. destruct (inspectImage image s) as [r s4] eqn:Hi.
  injection Hin as <- <-. apply M_bind_Ok in H as (details & s5 & [= Hr%wrap_Ok <-] & H).
  subst r. apply M_bind_Ok in H as (user & s6 & [= Hu <-] & H).
  apply M_bind_Ok in H as (md & s7 & [= _ <-] & [= <- <-]).
  exists d, image, details, user. cbn. split_and!; try done; repeat case_decide; naive_solver.
Qed.
End BuildInfo.
