(* ===== verification/Lifecycle.v ===== *)
(** * pkg/devcontainer/setup: the container after it started

    The lifecycle hooks of devcontainer.json and the marker files that say
    which of them ran (setup/lifecyclehooks.go, setup/setup.go), the
    environment the hooks see (config/userenvprobe.go, pkg/envfile), and the
    user they run as (config/result.go).

    The state is the container: its marker files, its environment file, the
    environment of the process and the commands it started.  The outcome of
    a command, the errors of the file system and the order in which Go ranges
    over a hook's commands are parameters. *)

From S2P Require Import Prelude GoStrings GoRegexp Types DevContainer Substitute SshConfig.
From S2P Require Import Options.
From stdpp Require Import base gmap sets list strings sorting.
From Stdlib Require Import ZArith.

Local Open Scope string_scope.
Local Open Scope list_scope.

(** ** config/result.go *)

Record ContainerDetails := {
  cd_ID : string;
  cd_Created : string;
  cd_Status : string;
  cd_StartedAt : string;
  cd_Labels : gmap string string;
  cd_WorkingDir : string;
  cd_LegacyUser : string;
}.

Record Result := {
  (** the raw devcontainer.json and its path in the workspace folder *)
  res_Config : option (DevContainerConfig * string);
  res_MergedConfig : option MergedDevContainerConfig;
  res_SubstitutionContext : option SubstitutionContext;
  res_ContainerDetails : option ContainerDetails;
}.

Definition UserLabel : string := "devpod.user".

Definition GetRemoteUser (result : option Result) : string :=
  let merged := result ≫= res_MergedConfig in
  let details := result ≫= res_ContainerDetails in
  match merged with
  | Some m =>
      if decide (b_remoteUser (mc_base m) ≠ "") then b_remoteUser (mc_base m)
      else match details ≫= (λ c, cd_Labels c !! UserLabel) with
           | Some u => if decide (u ≠ "") then u else "root"
           | None => "root"
           end
  | None =>
      match details ≫= (λ c, cd_Labels c !! UserLabel) with
      | Some u => if decide (u ≠ "") then u else "root"
      | None => "root"
      end
  end.

(** ** config/userenvprobe.go *)

Inductive UserEnvProbe :=
| LoginInteractiveShellProbe | LoginShellProbe | InteractiveShellProbe | NoneProbe.
Definition DefaultUserEnvProbe : UserEnvProbe := LoginInteractiveShellProbe.

(** [None] is the error for an unknown probe. *)
Definition NewUserEnvProbe (probe : string) : option UserEnvProbe :=
  if decide (probe = "loginInteractiveShell") then Some LoginInteractiveShellProbe
  else if decide (probe = "loginShell") then Some LoginShellProbe
  else if decide (probe = "interactiveShell") then Some InteractiveShellProbe
  else if decide (probe = "none") then Some NoneProbe
  else if decide (probe = "") then Some DefaultUserEnvProbe
  else None.

Definition getShellArgs (userEnvProbe : UserEnvProbe) (command : string) : list string :=
  match userEnvProbe with
  | LoginInteractiveShellProbe => ["-lic"; command]
  | LoginShellProbe => ["-lc"; command]
  | InteractiveShellProbe => ["-ic"; command]
  | NoneProbe => ["-c"; command]
  end.

(** A scanned entry; what follows a second = is dropped. *)
Definition probe_entry (retEnv : gmap string string) (text : string) : gmap string string :=
  match Split "=" (TrimSpace text) with
  | k :: v :: _ => <[k := v]> retEnv
  | _ => retEnv
  end.

Section Probe.
(** The shell of a user, and the output of a command run as the user. *)
Context (GetShell : string → string + list string).
Context (output : list string → string → string + string).

Definition doProbe (userEnvProbe : UserEnvProbe) (preferredShell : list string)
    (userName probeCmd : string) (sep : ascii) : result (gmap string string) :=
  out ← of_sum (output (preferredShell ++ getShellArgs userEnvProbe probeCmd) userName);
  let '(lines, err) := scan 65536 (drop_last_empty (Split sep out)) in
  if err : bool then Err "scan shell output"
  else Ok (delete "PWD" (foldl probe_entry ∅ lines)).

Definition ProbeUserEnv (probe userName : string) : result (gmap string string) :=
  let userEnvProbe := default DefaultUserEnvProbe (NewUserEnvProbe probe) in
  match userEnvProbe with
  | NoneProbe => Ok ∅
  | _ =>
      preferredShell ← wrap ("find shell for user " +:+ userName) (of_sum (GetShell userName));
      match doProbe userEnvProbe preferredShell userName "cat /proc/self/environ" "000" with
      | Ok probedEnv => Ok probedEnv
      | Err _ =>
          match doProbe userEnvProbe preferredShell userName "printenv" "010" with
          | Ok newProbedEnv => Ok newProbedEnv
          | Err _ => Ok ∅
          | Panic => Panic
          | NoFuel => NoFuel
          end
      | Panic => Panic
      | NoFuel => NoFuel
      end
  end.
End Probe.

(** ** Merging the environments *)

(** [/sbin(/|$)] *)
Definition sbinRegex : re := Cat (lit "/sbin") (Alt (chr "/") Eot).

(** [slices.Index] *)
Fixpoint index_of (l : list string) (e : string) : option nat :=
  match l with
  | [] => None
  | x :: l' => if decide (x = e) then Some 0 else S <$> index_of l' e
  end.
(** [slices.Insert(l, i, e)] *)
Definition slice_insert (l : list string) (i : nat) (e : string) : result (list string) :=
  if (i <=? length l)%nat then Ok (take i l ++ e :: drop i l) else Panic.

Fixpoint merge_path (remoteUser : string) (probedTokens : list string) (insertAt : nat)
    (remote : list string) : result (list string) :=
  match remote with
  | [] => Ok probedTokens
  | e :: remote' =>
      match index_of probedTokens e with
      | None =>
          if bool_decide (remoteUser = "root") || negb (MatchString sbinRegex e) then
            probedTokens' ← slice_insert probedTokens insertAt e;
            merge_path remoteUser probedTokens' insertAt remote'
          else merge_path remoteUser probedTokens insertAt remote'
      | Some i => merge_path remoteUser probedTokens (S i) remote'
      end
  end.

Definition mergeRemoteEnv (remoteEnv probedEnv : gmap string string) (remoteUser : string)
    : result (gmap string string) :=
  let retEnv := remoteEnv ∪ probedEnv in
  match probedEnv !! "PATH", remoteEnv !! "PATH" with
  | Some probedPath, Some remotePath =>
      tokens ← merge_path remoteUser (Split ":" probedPath) 0 (Split ":" remotePath);
      Ok (<["PATH" := GoStrings.Join tokens ":"]> retEnv)
  | _, _ => Ok retEnv
  end.

(** ** The container *)

(** A command that was started: [cmd.Env] is the process environment followed
    by the entries of the hooks' environment, of which the last of a name
    counts. *)
Record ran := Ran {
  r_args : list string;
  r_dir : string;
  r_env : gmap string string;
}.

(** What the file of package envfile holds. *)
Inductive env_file := EnvAbsent | EnvUnreadable | EnvInvalid | EnvFile (env : gmap string string).

Record container := Container {
  c_markers : gmap string string;
  c_envfile : env_file;
  c_env : gmap string string;
  c_chowns : list (string * string * bool);  (* path, user, recursive *)
  c_ran : list ran;
}.

Definition with_marker (path content : string) (s : container) : container :=
  Container (<[path := content]> (c_markers s)) (c_envfile s) (c_env s) (c_chowns s) (c_ran s).
Definition with_env_file (f : env_file) (s : container) : container :=
  Container (c_markers s) f (c_env s) (c_chowns s) (c_ran s).
Definition with_process_env (env : gmap string string) (s : container) : container :=
  Container (c_markers s) (c_envfile s) (env ∪ c_env s) (c_chowns s) (c_ran s).
Definition with_chown (p : string * string * bool) (s : container) : container :=
  Container (c_markers s) (c_envfile s) (c_env s) (c_chowns s ++ [p]) (c_ran s).
Definition with_ran (r : ran) (s : container) : container :=
  Container (c_markers s) (c_envfile s) (c_env s) (c_chowns s) (c_ran s ++ [r]).

Inductive outcome := Success | StartFails (e : string) | Fails (e : string).

Record world := {
  (** errors of reading and of writing a file *)
  w_read : string → option string;
  w_write : string → option string;
  (** [user.Current] *)
  w_currentUser : string + string;
  (** what a command does, after those that ran before it *)
  w_exec : list ran → ran → outcome;
  (** the order of [range] over a hook *)
  w_range : LifecycleHook → list (string * list string);
  (** [shellescape.QuoteCommand] *)
  w_QuoteCommand : list string → string;
}.

Section Setup.
Context (w : world).

Definition marker_path (markerName : string) : string :=
  "/var/devpod/" +:+ markerName +:+ ".marker".

Definition markerFileExists (markerName markerContent : string) : M container bool :=
  let path := marker_path markerName in
  s ← getS;
  let write :=
    match w_write w path with
    | Some e => throw ("write marker: " +:+ e)
    | None => _ ← modifyS (with_marker path markerContent); mret false
    end in
  match w_read w path with
  | Some e => throw e
  | None =>
      match c_markers s !! path with
      | Some t =>
          if decide (markerContent = "" ∨ t = markerContent) then mret true else write
      | None => write
      end
  end.

(** [command.Quote] *)
Definition Quote (args : list string) : string :=
  match args with
  | [] => ""
  | [a] => a
  | _ => w_QuoteCommand w args
  end.

Definition hook_args (currentUser remoteUser : string) (c : list string) : list string :=
  if decide (remoteUser ≠ currentUser) then ["su"; remoteUser; "-c"; Quote c]
  else ["sh"; "-c"; Quote c].

Definition run_command (remoteUser dir : string) (remoteEnv : gmap string string)
    (c : list string) : M container unit :=
  currentUser ← liftR (of_sum (w_currentUser w));
  s ← getS;
  let r := Ran (hook_args currentUser remoteUser c) dir (remoteEnv ∪ c_env s) in
  match w_exec w (c_ran s) r with
  | Success => modifyS (with_ran r)
  | StartFails e => throw ("failed to start command: " +:+ e)
  | Fails e =>
      _ ← modifyS (with_ran r);
      throw ("failed to run: " +:+ GoStrings.Join c " " +:+ ", error: " +:+ e)
  end.

Definition run_commands (commands : list LifecycleHook) (remoteUser dir : string)
    (remoteEnv : gmap string string) : M container unit :=
  forM_ commands (λ cmd,
    if decide (cmd = ∅) then mret ()
    else forM_ (w_range w cmd) (λ kc, run_command remoteUser dir remoteEnv kc.2)).

Definition run (commands : list LifecycleHook) (remoteUser dir : string)
    (remoteEnv : gmap string string) (name content : string) : M container unit :=
  match commands with
  | [] => mret ()
  | _ :: _ =>
      exists_ ← (if decide (content ≠ "") then markerFileExists name content else mret false);
      if exists_ : bool then mret ()
      else run_commands commands remoteUser dir remoteEnv
  end.

(** The probe is a parameter of the hooks; its error is only logged. *)
Definition RunLifecycleHooks (probe : string → string → result (gmap string string))
    (setupInfo : Result) : M container unit :=
  mergedConfig ← liftR (deref (res_MergedConfig setupInfo));
  let remoteUser := GetRemoteUser (Some setupInfo) in
  let probedEnv :=
    match probe (b_userEnvProbe (mc_base mergedConfig)) remoteUser with
    | Ok env => env
    | _ => ∅
    end in
  remoteEnv ← liftR (mergeRemoteEnv (b_remoteEnv (mc_base mergedConfig)) probedEnv remoteUser);
  ctx ← liftR (deref (res_SubstitutionContext setupInfo));
  containerDetails ← liftR (deref (res_ContainerDetails setupInfo));
  let hooks := mc_updated mergedConfig in
  let workspaceFolder := ctx_containerWorkspaceFolder ctx in
  _ ← run (u_onCreateCommands hooks) remoteUser workspaceFolder remoteEnv
        "onCreateCommands" (cd_Created containerDetails);
  _ ← run (u_updateContentCommands hooks) remoteUser workspaceFolder remoteEnv
        "updateContentCommands" (cd_Created containerDetails);
  _ ← run (u_postCreateCommands hooks) remoteUser workspaceFolder remoteEnv
        "postCreateCommands" (cd_Created containerDetails);
  _ ← run (u_postStartCommands hooks) remoteUser workspaceFolder remoteEnv
        "postStartCommands" (cd_StartedAt containerDetails);
  run (u_postAttachCommands hooks) remoteUser workspaceFolder remoteEnv
    "postAttachCommands" "".

(** ** pkg/envfile *)

Definition envfile_location : string := "/etc/envfile.json".

Definition Apply : M container unit :=
  s ← getS;
  match c_envfile s with
  | EnvFile env => modifyS (with_process_env env)
  | _ => mret ()
  end.

Definition MergeAndApply (env : gmap string string) : M container unit :=
  if decide (env = ∅) then mret ()
  else
    s ← getS;
    let merged :=
      match c_envfile s with
      | EnvUnreadable | EnvInvalid => None
      | EnvAbsent => Some env
      | EnvFile old => Some (env ∪ old)
      end in
    match merged with
    | None => mret ()
    | Some env' =>
        match w_write w envfile_location with
        | Some _ => mret ()
        | None =>
            _ ← modifyS (with_env_file (EnvFile env'));
            modifyS (with_process_env env')
        end
    end.

(** ** The other marked steps of setup.go *)

Definition filepath_Dir (path : string) : string :=
  match after_last "/" path with
  | None => "."
  | Some base => filepath_Clean (stake (String.length path - String.length base) path)
  end.

(** An error of chown is only logged. *)
Definition ChownWorkspace (setupInfo : Result) (recursive : bool) : M container unit :=
  let user := GetRemoteUser (Some setupInfo) in
  exists_ ← markerFileExists "chownWorkspace" "";
  if exists_ : bool then mret ()
  else
    ctx ← liftR (deref (res_SubstitutionContext setupInfo));
    let folder := ctx_containerWorkspaceFolder ctx in
    _ ← (if decide (filepath_Dir folder ≠ "/")
         then modifyS (with_chown (filepath_Dir folder, user, false)) else mret ());
    if recursive then modifyS (with_chown (folder, user, true)) else mret ().

(** [sort.Strings] also sorts the slice of the caller. *)
Definition PatchEtcEnvironmentFlags (workspaceEnv : list string) : M container unit :=
  match workspaceEnv with
  | [] => mret ()
  | _ :: _ =>
      let workspaceEnv := merge_sort String.le workspaceEnv in
      exists_ ← markerFileExists "patchEtcEnvironmentFlags"
                  (GoStrings.Join workspaceEnv newline);
      if exists_ : bool then mret () else MergeAndApply (ListToObject workspaceEnv)
  end.

Definition quoted_entry (kv : string * string) : string :=
  kv.1 +:+ "=" +:+ String "034" (kv.2 +:+ String "034" "").

Definition PatchEtcEnvironment (mergedConfig : MergedDevContainerConfig) : M container unit :=
  let remoteEnv := b_remoteEnv (mc_base mergedConfig) in
  if decide (remoteEnv = ∅) then mret ()
  else
    let remoteEnvs := merge_sort String.le (quoted_entry <$> map_to_list remoteEnv) in
    exists_ ← markerFileExists "patchEtcEnvironment" (GoStrings.Join remoteEnvs newline);
    if exists_ : bool then mret () else MergeAndApply remoteEnv.
End Setup.

(** [containsError] classifies the lines a hook writes to stderr. *)
Fixpoint Contains (s sub : string) : bool :=
  String.prefix sub s ||
  match s with "" => false | String _ s' => Contains s' sub end.
Definition containsError (line : string) : bool := Contains (ToLower line) "error".
