(* ===== verification/LifecycleProps.v ===== *)
(** * Properties of the container setup

    Which hooks a call of [RunLifecycleHooks] runs, and that a second call for
    the same container runs only what is due again; how the PATH of
    devcontainer.json is merged with the one of the user's shell. *)

From S2P Require Import Prelude GoStrings GoRegexp Types DevContainer Substitute SshConfig.
From S2P Require Import Lifecycle.
From stdpp Require Import base gmap sets list strings.
From Stdlib Require Import ZArith Lia.

Local Open Scope string_scope.
Local Open Scope list_scope.

(** ** PATH *)

Lemma index_of_None l e : index_of l e = None ↔ e ∉ l.
Proof.
  induction l as [|x l IH]; cbn; [set_solver|]. case_decide as Hx.
  - subst. set_solver.
  - rewrite fmap_None, IH. set_solver.
Qed.

Lemma index_of_Some l e i : index_of l e = Some i → l !! i = Some e.
Proof.
  revert i. induction l as [|x l IH]; intros i; cbn; [done|]. case_decide.
  - intros [= <-]. by subst.
  - intros (j & Hj & ->)%fmap_Some. by apply IH.
Qed.

(** The entries a user may get on the PATH. *)
Definition admitted (remoteUser e : string) : bool :=
  bool_decide (remoteUser = "root") || negb (MatchString sbinRegex e).

Lemma merge_path_spec remoteUser remote : ∀ probed at_,
  (at_ ≤ length probed)%nat →
  ∃ out, merge_path remoteUser probed at_ remote = Ok out ∧
    probed `sublist_of` out ∧
    (∀ e, e ∈ out ↔ e ∈ probed ∨ e ∈ remote ∧ admitted remoteUser e = true) ∧
    (NoDup probed → NoDup out).
Proof.
  induction remote as [|e remote IH]; intros probed at_ Hat; cbn.
  { exists probed. split_and!; [done|done| |done]. set_solver. }
  destruct (index_of probed e) as [i|] eqn:Hi.
  - apply index_of_Some in Hi. pose proof (lookup_lt_Some _ _ _ Hi).
    destruct (IH probed (S i)) as (out & -> & Hs & Hin & Hnd); [lia|].
    exists out. split_and!; try done. intros x. rewrite Hin.
    apply list_elem_of_lookup_2 in Hi. set_solver.
  - apply index_of_None in Hi. fold (admitted remoteUser e).
    destruct (admitted remoteUser e) eqn:Had.
    + unfold slice_insert. rewrite (proj2 (Nat.leb_le _ _)) by done. cbn.
      destruct (IH (take at_ probed ++ e :: drop at_ probed) at_) as (out & -> & Hs & Hin & Hnd).
      { rewrite length_app, length_take. lia. }
      assert (take at_ probed ++ e :: drop at_ probed ≡ₚ e :: probed) as Hp.
      { by rewrite <-Permutation_middle, take_drop. }
      exists out. split_and!; [done| | |].
      * etransitivity; [|done]. rewrite <-(take_drop at_ probed) at 1.
        apply sublist_app; [done|by apply sublist_cons].
      * intros x. rewrite Hin, Hp, !elem_of_cons. intuition (subst; auto).
      * intros Hn. apply Hnd. rewrite Hp. by constructor.
    + destruct (IH probed at_ Hat) as (out & -> & Hs & Hin & Hnd).
      exists out. split_and!; try done. intros x. rewrite Hin, !elem_of_cons. intuition congruence.
Qed.

(** mergeRemoteEnv returns for all environments.  A variable of
    devcontainer.json wins over the one of the user's shell, and every other
    variable is kept; the PATH, when both give one, keeps the directories of
    the shell in their order, has every directory of devcontainer.json except
    the sbin directories of a user who is not root, has no other directory,
    and repeats none that the shell's PATH did not. *)
Theorem mergeRemoteEnv_merges remoteEnv probedEnv remoteUser :
  ∃ env, mergeRemoteEnv remoteEnv probedEnv remoteUser = Ok env ∧
    (∀ k v, k ≠ "PATH" → remoteEnv !! k = Some v → env !! k = Some v) ∧
    (∀ k, k ≠ "PATH" ∨ probedEnv !! k = None ∨ remoteEnv !! k = None →
          env !! k = (remoteEnv ∪ probedEnv) !! k) ∧
    (∀ p r, probedEnv !! "PATH" = Some p → remoteEnv !! "PATH" = Some r →
      ∃ path, env !! "PATH" = Some path ∧
        Split ":" p `sublist_of` Split ":" path ∧
        (∀ d, d ∈ Split ":" path ↔
              d ∈ Split ":" p ∨ d ∈ Split ":" r ∧ admitted remoteUser d = true) ∧
        (NoDup (Split ":" p) → NoDup (Split ":" path))).
Proof.
  unfold mergeRemoteEnv.
  destruct (probedEnv !! "PATH") as [p|] eqn:Hp;
    [destruct (remoteEnv !! "PATH") as [r|] eqn:Hr|].
  2, 3: (eexists; split_and!; [done| |done|naive_solver];
         intros k v _ Hk; by apply lookup_union_Some_l).
  destruct (merge_path_spec remoteUser (Split ":" r) (Split ":" p) 0)
    as (out & -> & Hs & Hin & Hnd); [lia|].
  assert (Split ":" (GoStrings.Join out ":") = out) as Hout.
  { apply Split_Join.
    - intros ->. apply (Split_nonempty ":" p). by apply sublist_nil_r.
    - intros d [Hd|[Hd _]]%Hin; by apply Split_parts_free in Hd. }
  eexists. split_and!; [done|..].
  - intros k v Hk Hkv. rewrite lookup_insert_ne by done. by apply lookup_union_Some_l.
  - intros k Hk. rewrite lookup_insert_ne; [done|]. intros <-. naive_solver.
  - intros p' r' [= <-] [= <-]. exists (GoStrings.Join out ":").
    rewrite lookup_insert_eq, Hout. by split_and!.
Qed.

(** New directories at the head of the PATH of devcontainer.json come out in
    the reverse of their order. *)
Lemma merge_path_new remoteUser remote probed at_ :
  (at_ ≤ length probed)%nat →
  Forall (λ e, e ∉ probed ∧ admitted remoteUser e = true) remote → NoDup remote →
  merge_path remoteUser probed at_ remote =
  Ok (take at_ probed ++ reverse remote ++ drop at_ probed).
Proof.
  revert probed. induction remote as [|e remote IH]; intros probed Hat Hf Hnd; cbn [merge_path].
  { by rewrite reverse_nil, (left_id_L [] app), take_drop. }
  apply Forall_cons in Hf as [[He Had] Hf]. apply NoDup_cons in Hnd as [Hne Hnd].
  rewrite (proj2 (index_of_None _ _) He). fold (admitted remoteUser e). rewrite Had.
  unfold slice_insert. rewrite (proj2 (Nat.leb_le _ _)) by done.
  cbn [mbind result_bind].
  assert (length (take at_ probed) = at_) as Hlen by (rewrite length_take; lia).
  rewrite IH.
  - rewrite reverse_cons, <-(assoc_L app). f_equal.
    rewrite take_app_le, take_take, Nat.min_id by lia.
    rewrite drop_app_ge, Hlen, Nat.sub_diag by lia. done.
  - rewrite length_app. lia.
  - apply Forall_forall. intros x Hx. apply (proj1 (Forall_forall _ _) Hf) in Hx as Hx'.
    destruct Hx' as [Hxp Hxa]. split; [|done].
    rewrite elem_of_app, elem_of_cons. intros Hin.
    rewrite <-(take_drop at_ probed), elem_of_app in Hxp.
    destruct Hin as [|[->|]]; tauto.
  - done.
Qed.

(** The loop of mergeRemoteEnv does not advance the position it inserts
    at, so directories that only devcontainer.json has, written one after the
    other, end up on the PATH in the reverse of the order they are written
    in: the last of them is searched first. *)
Theorem mergeRemoteEnv_reverses remoteEnv probedEnv remoteUser p new :
  probedEnv !! "PATH" = Some p → remoteEnv !! "PATH" = Some (GoStrings.Join new ":") →
  new ≠ [] → Forall (λ d, free ":" d = true) new → NoDup new →
  Forall (λ d, d ∉ Split ":" p ∧ admitted remoteUser d = true) new →
  mergeRemoteEnv remoteEnv probedEnv remoteUser =
  Ok (<["PATH" := GoStrings.Join (reverse new ++ Split ":" p) ":"]> (remoteEnv ∪ probedEnv)).
Proof.
  intros Hp Hr Hne Hfree Hnd Hf. unfold mergeRemoteEnv. rewrite Hp, Hr.
  rewrite Split_Join; [|done|by apply Forall_forall].
  by rewrite merge_path_new by (done || lia).
Qed.

Lemma mergeRemoteEnv_reverses_witness :
  mergeRemoteEnv {["PATH" := "/a:/b"]} {["PATH" := "/usr/bin:/bin"]} "me" =
  Ok {["PATH" := "/b:/a:/usr/bin:/bin"]}.
Proof.
  etransitivity;
    [apply (mergeRemoteEnv_reverses _ _ _ "/usr/bin:/bin" ["/a"; "/b"])
    |vm_compute; reflexivity];
    try reflexivity; try done; apply (bool_decide_eq_true_1 _); vm_compute; reflexivity.
Defined.

(** ** Marker files and hooks *)

(** The file system works and the current user is known. *)
Definition files_work (w : world) : Prop := ∀ path, w_read w path = None ∧ w_write w path = None.
Definition commands_work (w : world) : Prop :=
  (∃ user, w_currentUser w = inr user) ∧ ∀ before r, w_exec w before r = Success.

Lemma marker_path_inj a b : marker_path a = marker_path b → a = b.
Proof.
  unfold marker_path. intros H. apply (inj (String.append _)) in H.
  apply (f_equal String.length) in H as Hl. rewrite !slength_app in Hl.
  apply (f_equal (stake (String.length a))) in H. rewrite stake_app in H.
  assert (String.length a = String.length b) as Hab by lia.
  by rewrite Hab, stake_app in H.
Qed.

Section Hooks.
Context (w : world) (Hw : files_work w).

(** [content] for the marker [name] is new. *)
Definition fresh (s : container) (name content : string) : Prop :=
  content = "" ∨ c_markers s !! marker_path name ≠ Some content.
#[global] Instance fresh_dec s name content : Decision (fresh s name content).
Proof. unfold fresh. apply _. Defined.

Definition mark (name content : string) (s : container) : container :=
  if decide (content = "") then s else with_marker (marker_path name) content s.

Lemma markerFileExists_fresh name content s : content ≠ "" →
  markerFileExists w name content s =
  if decide (fresh s name content)
  then (Ok false, with_marker (marker_path name) content s) else (Ok true, s).
Proof.
  intros Hne. unfold markerFileExists. destruct (Hw (marker_path name)) as [-> ->].
  runM. destruct (decide (fresh s name content)) as [[->|Hf]|Hf]; [done|..].
  - destruct (c_markers s !! marker_path name) as [t|]; [|done].
    rewrite decide_False by naive_solver. done.
  - assert (c_markers s !! marker_path name = Some content) as ->.
    { apply dec_stable. intros Hn. apply Hf. by right. }
    rewrite decide_True by by right. done.
Qed.

Lemma run_fresh c cs user dir env name content s :
  run w (c :: cs) user dir env name content s =
  if decide (fresh s name content)
  then run_commands w (c :: cs) user dir env (mark name content s) else (Ok (), s).
Proof.
  unfold run, mark. destruct (decide (content = "")) as [->|Hne].
  - rewrite decide_False by (by intros []).
    destruct (decide (fresh s name "")) as [|Hf]; [done|]. destruct Hf. by left.
  - rewrite decide_True by done. unfold mbind, M_bind.
    rewrite markerFileExists_fresh by done. by case_decide.
Qed.

(** The commands change nothing but the list of what ran. *)
Definition same_files (s s' : container) : Prop :=
  c_markers s' = c_markers s ∧ c_env s' = c_env s ∧ c_envfile s' = c_envfile s ∧
  c_chowns s' = c_chowns s.
#[global] Instance same_files_preorder : PreOrder same_files.
Proof. split; unfold same_files; [done|]. intros ? ? ? (->&->&->&->) (->&->&->&->). done. Qed.

Lemma run_command_files user dir env c s : same_files s (run_command w user dir env c s).2.
Proof.
  unfold run_command. destruct (w_currentUser w); cbn; [done|].
  unfold mbind, M_bind; cbn. by destruct (w_exec _ _ _); cbn.
Qed.

Lemma run_commands_files cs user dir env s : same_files s (run_commands w cs user dir env s).2.
Proof.
  apply (forM_rel same_files). intros h s1 _. case_decide; [done|].
  apply (forM_rel same_files). intros kc s2 _. apply run_command_files.
Qed.

(** Whatever its outcome, a hook leaves its marker, and touches no other. *)
Lemma run_marks cs user dir env name content s s' r :
  run w cs user dir env name content s = (r, s') →
  (∀ path, path ≠ marker_path name → c_markers s' !! path = c_markers s !! path) ∧
  (cs ≠ [] → content ≠ "" → c_markers s' !! marker_path name = Some content) ∧
  (cs = [] ∨ content = "" → c_markers s' = c_markers s).
Proof.
  destruct cs as [|c cs]; [by intros [= <- <-]|]. rewrite run_fresh.
  destruct (decide (fresh s name content)) as [Hf|Hf].
  - intros Hrun. pose proof (run_commands_files (c :: cs) user dir env (mark name content s)) as Hs.
    rewrite Hrun in Hs. cbn in Hs. destruct Hs as (-> & _). unfold mark.
    case_decide as Hc; [by subst|]. cbn. split_and!.
    + intros path Hp. by rewrite lookup_insert_ne.
    + intros _ _. by rewrite lookup_insert_eq.
    + by intros [|].
  - intros [= <- <-]. split_and!; [done| |done]. intros _ Hne.
    apply dec_stable. intros Hn. apply Hf. by right.
Qed.

(** A hook whose marker has the content is skipped. *)
Lemma run_marked cs user dir env name content s :
  cs = [] ∨ content ≠ "" ∧ c_markers s !! marker_path name = Some content →
  run w cs user dir env name content s = (Ok (), s).
Proof.
  destruct cs as [|c cs]; [done|]. intros [|[Hne Hm]]; [done|].
  rewrite run_fresh, decide_False; [done|]. by intros [].
Qed.
End Hooks.

(** ** What a call runs *)

Record phase := Phase {
  ph_name : string;
  ph_content : string;
  ph_hooks : list LifecycleHook;
}.

Definition phases (hooks : UpdatedConfigProperties) (details : ContainerDetails) : list phase :=
  [Phase "onCreateCommands" (cd_Created details) (u_onCreateCommands hooks);
   Phase "updateContentCommands" (cd_Created details) (u_updateContentCommands hooks);
   Phase "postCreateCommands" (cd_Created details) (u_postCreateCommands hooks);
   Phase "postStartCommands" (cd_StartedAt details) (u_postStartCommands hooks);
   Phase "postAttachCommands" "" (u_postAttachCommands hooks)].

(** What [RunLifecycleHooks] reads before it runs the hooks. *)
Record hook_call := HookCall {
  hc_user : string;
  hc_dir : string;
  hc_env : gmap string string;
  hc_hooks : UpdatedConfigProperties;
  hc_details : ContainerDetails;
}.

Definition call_of (probe : string → string → result (gmap string string)) (info : Result)
    (c : hook_call) : Prop :=
  ∃ merged ctx,
    res_MergedConfig info = Some merged ∧ res_SubstitutionContext info = Some ctx ∧
    res_ContainerDetails info = Some (hc_details c) ∧
    hc_user c = GetRemoteUser (Some info) ∧ hc_dir c = ctx_containerWorkspaceFolder ctx ∧
    hc_hooks c = mc_updated merged ∧
    mergeRemoteEnv (b_remoteEnv (mc_base merged))
      match probe (b_userEnvProbe (mc_base merged)) (GetRemoteUser (Some info)) with
      | Ok env => env | _ => ∅ end (GetRemoteUser (Some info)) = Ok (hc_env c).

Definition run_phase (w : world) (c : hook_call) (p : phase) : M container unit :=
  run w (ph_hooks p) (hc_user c) (hc_dir c) (hc_env c) (ph_name p) (ph_content p).

Lemma forM_last {S A} (f : A → M S unit) x s : (f x ≫= λ _, mret ()) s = f x s.
Proof. unfold mbind, M_bind. by destruct (f x s) as [[[]| | |] ?]. Qed.

Lemma bind_ext {S A B} (c : M S A) (k k' : A → M S B) s :
  (∀ a s', k a s' = k' a s') → (c ≫= k) s = (c ≫= k') s.
Proof. intros Hk. unfold mbind, M_bind. by destruct (c s) as [[] ?]. Qed.

Lemma RunLifecycleHooks_phases w probe info c s :
  call_of probe info c →
  RunLifecycleHooks w probe info s =
  forM_ (phases (hc_hooks c) (hc_details c)) (run_phase w c) s.
Proof.
  intros (merged & ctx & Hm & Hc & Hd & Hu & Hdir & Hh & He).
  unfold RunLifecycleHooks. rewrite Hm, Hc, Hd. cbn [deref]. rewrite run_lift_Ok, He.
  rewrite !run_lift_Ok, <-Hu, <-Hdir, <-Hh.
  do 4 (apply bind_ext; intros _ ?). symmetry.
  apply (forM_last (run_phase w c) (Phase "postAttachCommands" "" _)).
Qed.

(** Go visits every command of a hook once, in some order. *)
Definition range_ok (w : world) : Prop := ∀ h, w_range w h ≡ₚ map_to_list h.

(** The commands of a phase, for the user of the process and its
    environment. *)
Definition command_run (w : world) (user : string) (c : hook_call) (env : gmap string string)
    (kc : string * list string) : ran :=
  Ran (hook_args w user (hc_user c) kc.2) (hc_dir c) (hc_env c ∪ env).
Definition phase_runs (w : world) (user : string) (c : hook_call) (env : gmap string string)
    (p : phase) : list ran :=
  concat ((λ h, command_run w user c env <$> w_range w h) <$> ph_hooks p).

Definition appended (s s' : container) (l : list ran) : Prop :=
  same_files s s' ∧ c_ran s' = c_ran s ++ l.

(** Loops whose steps succeed and append. *)
Lemma forM_appends {A} (f : A → M container unit) (g : A → list ran) l : ∀ s,
  (∀ x s1, x ∈ l → same_files s s1 → ∃ s2, f x s1 = (Ok (), s2) ∧ appended s1 s2 (g x)) →
  ∃ s', forM_ l f s = (Ok (), s') ∧ appended s s' (concat (g <$> l)).
Proof.
  induction l as [|x l IH]; intros s Hf.
  { exists s. split; [done|]. split; [done|]. by rewrite app_nil_r. }
  destruct (Hf x s) as (s1 & H1 & Hfi & Hr); [left|done|].
  destruct (IH s1) as (s2 & H2 & Hfi2 & Hr2).
  { intros y s' Hy Hs. apply Hf; [by right|by etrans]. }
  exists s2. split; [by apply forM_Ok_cons; eauto|]. split; [by etrans|].
  rewrite Hr2, Hr. cbn. by rewrite <-(assoc_L app).
Qed.

Lemma run_commands_appends w user c hooks s :
  w_currentUser w = inr user → (∀ before r, w_exec w before r = Success) → range_ok w →
  ∃ s', run_commands w hooks (hc_user c) (hc_dir c) (hc_env c) s = (Ok (), s') ∧
        appended s s' (phase_runs w user c (c_env s) (Phase "" "" hooks)).
Proof.
  intros Hu He Hr. unfold run_commands, phase_runs. cbn [ph_hooks].
  apply forM_appends. intros h s1 _ Hs1. case_decide as Hh.
  - exists s1. split; [done|]. split; [done|]. subst h.
    assert (w_range w ∅ = []) as ->; [|by rewrite app_nil_r].
    apply Permutation_nil_r. etransitivity; [apply Hr|].
    assert (map_to_list (∅ : LifecycleHook) = []) as ->; [|done].
    apply (map_to_list_empty (M := gmap string)).
  - destruct (forM_appends (λ kc, run_command w (hc_user c) (hc_dir c) (hc_env c) kc.2)
      (λ kc, [command_run w user c (c_env s) kc]) (w_range w h) s1) as (s2 & H2 & Hf & Happ).
    { intros kc s2 _ Hs2. unfold run_command. rewrite Hu. cbn [of_sum]. runM. rewrite He.
      eexists. split; [done|]. split; [done|]. cbn. unfold command_run.
      destruct Hs1 as (_ & Henv1 & _), Hs2 as (_ & Henv2 & _). by rewrite Henv2, Henv1. }
    exists s2. split; [done|]. split; [done|]. rewrite Happ. f_equal.
    clear. induction (w_range w h) as [|kc l IH]; [done|]. cbn. by rewrite <-IH.
Qed.

Lemma NoDup_phases hooks details : NoDup (ph_name <$> phases hooks details).
Proof. apply (bool_decide_eq_true_1 _). reflexivity. Qed.

Lemma run_phases_due w user c l : files_work w → w_currentUser w = inr user →
  (∀ before r, w_exec w before r = Success) → range_ok w → NoDup (ph_name <$> l) →
  ∀ s, ∃ s', forM_ l (run_phase w c) s = (Ok (), s') ∧ c_env s' = c_env s ∧
    c_ran s' = c_ran s ++ concat (phase_runs w user c (c_env s) <$>
      filter (λ p, fresh s (ph_name p) (ph_content p)) l).
Proof.
  intros Hw Hu He Hr. induction l as [|p l IH]; intros Hnd s.
  { exists s. split_and!; [done|done|]. by rewrite app_nil_r. }
  rewrite fmap_cons in Hnd. apply NoDup_cons in Hnd as [Hp Hnd].
  assert (∃ s1, run_phase w c p s = (Ok (), s1) ∧ c_env s1 = c_env s ∧
    c_ran s1 = c_ran s ++ (if decide (fresh s (ph_name p) (ph_content p))
                           then phase_runs w user c (c_env s) p else [])) as (s1 & H1 & Henv & Hran).
  { unfold run_phase. destruct (ph_hooks p) as [|h hs] eqn:Hh.
    - exists s. split_and!; [done|done|]. unfold phase_runs. rewrite Hh.
      by case_decide; rewrite app_nil_r.
    - rewrite run_fresh by done. case_decide.
      + destruct (run_commands_appends w user c (h :: hs)
          (mark (ph_name p) (ph_content p) s) Hu He Hr) as (s1 & -> & (_ & Henv & _) & Hran).
        exists s1. unfold phase_runs in *. rewrite Hh. unfold mark in *. split; [done|].
        by case_decide.
      + exists s. by rewrite app_nil_r. }
  destruct (IH Hnd s1) as (s2 & H2 & Henv2 & Hran2).
  exists s2. split_and!; [by apply forM_Ok_cons; eauto|congruence|].
  rewrite Hran2, Hran, Henv, filter_cons, <-(assoc_L app). f_equal.
  assert (filter (λ p0, fresh s1 (ph_name p0) (ph_content p0)) l =
          filter (λ p0, fresh s (ph_name p0) (ph_content p0)) l) as ->.
  { apply run_marks in H1 as (Hother & _); [|done].
    clear -Hp Hother. apply list_filter_ext_in. intros q Hq. unfold fresh.
    rewrite Hother; [done|]. intros Heq%marker_path_inj. apply Hp. rewrite <-Heq.
    by apply list_elem_of_fmap_2. }
  by case_decide.
Qed.

(** When files can be written and no command fails, RunLifecycleHooks
    runs exactly the hooks that are due, in the order onCreate,
    updateContent, postCreate, postStart, postAttach and within one in the
    order of the list: a hook of the creation is due when it did not run for
    this creation of the container, postStart when it did not run for this
    start, postAttach always.  Every command runs in the workspace folder, as
    the remote user, with the merged environment. *)
Theorem RunLifecycleHooks_runs_due w probe info c user s :
  files_work w → w_currentUser w = inr user → (∀ before r, w_exec w before r = Success) →
  range_ok w → call_of probe info c →
  ∃ s', RunLifecycleHooks w probe info s = (Ok (), s') ∧
    c_ran s' = c_ran s ++ concat (phase_runs w user c (c_env s) <$>
      filter (λ p, fresh s (ph_name p) (ph_content p)) (phases (hc_hooks c) (hc_details c))).
Proof.
  intros Hw Hu He Hr Hc. rewrite (RunLifecycleHooks_phases _ _ _ _ _ Hc).
  destruct (run_phases_due w user c (phases (hc_hooks c) (hc_details c)) Hw Hu He Hr
              (NoDup_phases _ _) s) as (s' & ? & _ & ?).
  by exists s'.
Qed.

(** Markers after the phases of a call, whatever its outcome: what was
    marked with its content stays so, and on success all are. *)
Definition marked (s : container) (p : phase) : Prop :=
  ph_hooks p = [] ∨ ph_content p ≠ "" ∧
  c_markers s !! marker_path (ph_name p) = Some (ph_content p).

Lemma run_phase_marks w c p s r s' : files_work w → run_phase w c p s = (r, s') →
  (ph_content p ≠ "" → marked s' p) ∧
  ∀ q, ph_name q ≠ ph_name p → marked s q → marked s' q.
Proof.
  intros Hw Hrun. apply run_marks in Hrun as (Hother & Hset & _); [|done]. split.
  - intros Hne. destruct (ph_hooks p) eqn:Hh; [by left|]. right. split; [done|]. by apply Hset.
  - intros q Hq [|[Hne Hm]]; [by left|]. right. split; [done|].
    rewrite Hother; [done|]. by intros ?%marker_path_inj.
Qed.

Lemma run_phases_keep w c l q : files_work w → ph_name q ∉ (ph_name <$> l) → ∀ s r s',
  forM_ l (run_phase w c) s = (r, s') → marked s q → marked s' q.
Proof.
  intros Hw Hq s r s' Hrun Hm.
  pose proof (forM_invariant (λ s, marked s q) (run_phase w c) l s) as Hinv.
  rewrite Hrun in Hinv. apply Hinv; [|done]. intros p s1 Hp Hm1.
  destruct (run_phase w c p s1) as [r1 s2] eqn:H1.
  apply (run_phase_marks _ _ _ _ _ _ Hw H1); [|done].
  intros Heq. apply Hq. rewrite Heq. by apply list_elem_of_fmap_2.
Qed.

Lemma run_phases_Ok w c l : files_work w → NoDup (ph_name <$> l) → ∀ s s',
  forM_ l (run_phase w c) s = (Ok (), s') →
  ∀ p, p ∈ l → ph_content p ≠ "" → marked s' p.
Proof.
  intros Hw. induction l as [|q l IH]; intros Hnd s s' Hrun p Hp Hne; [by apply elem_of_nil in Hp|].
  rewrite fmap_cons in Hnd. apply NoDup_cons in Hnd as [Hq Hnd].
  apply forM_Ok_cons in Hrun as (s1 & H1 & H2). apply elem_of_cons in Hp as [->|Hp].
  - eapply run_phases_keep; [done|exact Hq|done|]. by eapply run_phase_marks in H1 as [? _]; [auto|].
  - by eapply IH.
Qed.

Lemma run_phase_marked w c p s : files_work w → marked s p → run_phase w c p s = (Ok (), s).
Proof. intros Hw Hm. by apply run_marked. Qed.

(** Phases that are marked can be dropped from the front. *)
Lemma run_phases_skip w c l k s : files_work w → Forall (marked s) l →
  forM_ (l ++ k) (run_phase w c) s = forM_ k (run_phase w c) s.
Proof.
  intros Hw Hl. induction Hl as [|p l Hp Hl IH]; [done|]. cbn.
  by rewrite (run_Ok _ _ _ _ _ (run_phase_marked w c p s Hw Hp)).
Qed.

(** After a call that succeeded, a call for the same creation and start of the
    container runs postAttach only. *)
Lemma RunLifecycleHooks_again w1 w2 probe1 probe2 info1 info2 c1 c2 s s1 :
  files_work w1 → files_work w2 → call_of probe1 info1 c1 → call_of probe2 info2 c2 →
  hc_hooks c2 = hc_hooks c1 →
  cd_Created (hc_details c2) = cd_Created (hc_details c1) →
  cd_StartedAt (hc_details c2) = cd_StartedAt (hc_details c1) →
  cd_Created (hc_details c1) ≠ "" → cd_StartedAt (hc_details c1) ≠ "" →
  RunLifecycleHooks w1 probe1 info1 s = (Ok (), s1) →
  RunLifecycleHooks w2 probe2 info2 s1 =
  run_phase w2 c2 (Phase "postAttachCommands" "" (u_postAttachCommands (hc_hooks c2))) s1.
Proof.
  intros Hw1 Hw2 Hc1 Hc2 Hh Hcr Hst Hne Hsne Hrun.
  rewrite (RunLifecycleHooks_phases _ _ _ _ _ Hc2), Hh.
  rewrite (RunLifecycleHooks_phases _ _ _ _ _ Hc1) in Hrun.
  pose proof (NoDup_phases (hc_hooks c1) (hc_details c1)) as Hnd.
  pose proof (run_phases_Ok _ _ _ Hw1 Hnd _ _ Hrun) as Hall.
  unfold phases. rewrite Hcr, Hst.
  etransitivity; [apply (run_phases_skip w2 c2 [_; _; _; _] [_]); [done|]|by apply forM_last].
  repeat (apply Forall_cons; split; [apply Hall; [unfold phases; set_solver|done]|]).
  constructor.
Qed.

(** C37: Hooks run once.  After a call for a container, whatever became of it,
    no later call for the same creation of the container runs onCreate again
    (not even when it had failed); and after a call that succeeded, a later
    call with the same hooks does only postStart and postAttach, and only
    postAttach when the container was not restarted. *)
Theorem RunLifecycleHooks_once w1 w2 probe1 probe2 info1 info2 c1 c2 s r s1 :
  files_work w1 → files_work w2 → call_of probe1 info1 c1 → call_of probe2 info2 c2 →
  hc_hooks c2 = hc_hooks c1 → cd_Created (hc_details c2) = cd_Created (hc_details c1) →
  cd_Created (hc_details c1) ≠ "" →
  RunLifecycleHooks w1 probe1 info1 s = (r, s1) →
  let start := Phase "postStartCommands" (cd_StartedAt (hc_details c2))
                 (u_postStartCommands (hc_hooks c2)) in
  let attach := Phase "postAttachCommands" "" (u_postAttachCommands (hc_hooks c2)) in
  run_phase w2 c2 (Phase "onCreateCommands" (cd_Created (hc_details c2))
                     (u_onCreateCommands (hc_hooks c2))) s1 = (Ok (), s1) ∧
  (r = Ok () → RunLifecycleHooks w2 probe2 info2 s1 = forM_ [start; attach] (run_phase w2 c2) s1) ∧
  (r = Ok () → cd_StartedAt (hc_details c2) = cd_StartedAt (hc_details c1) →
   cd_StartedAt (hc_details c1) ≠ "" →
   RunLifecycleHooks w2 probe2 info2 s1 = run_phase w2 c2 attach s1).
Proof.
  intros Hw1 Hw2 Hc1 Hc2 Hh Hcr Hne Hrun start attach. subst start attach.
  split_and!; [| |intros -> Hst Hsne; by apply (RunLifecycleHooks_again w1 w2 probe1 probe2 info1 info2 c1 c2 s)].
  all: rewrite (RunLifecycleHooks_phases _ _ _ _ _ Hc1) in Hrun;
    pose proof (NoDup_phases (hc_hooks c1) (hc_details c1)) as Hnd;
    rewrite ?(RunLifecycleHooks_phases _ _ _ _ _ Hc2), ?Hh, ?Hcr.
  - apply run_phase_marked; [done|]. cbn in Hnd. apply NoDup_cons in Hnd as [Hn _].
    unfold phases in Hrun. cbn [forM_] in Hrun. unfold mbind, M_bind at 1 in Hrun.
    destruct (run_phase w1 c1 _ s) as [r1 s2] eqn:H1.
    apply (run_phase_marks _ _ _ _ _ _ Hw1) in H1 as [H1 _]. specialize (H1 Hne).
    destruct r1; [|by injection Hrun as <- <-..].
    eapply (run_phases_keep w1 c1 (drop 1 (phases (hc_hooks c1) (hc_details c1))));
      [done|exact Hn|exact Hrun|done].
  - intros ->. pose proof (run_phases_Ok _ _ _ Hw1 Hnd _ _ Hrun) as Hall.
    unfold phases. rewrite Hcr. apply (run_phases_skip w2 c2 [_; _; _] [_; _]); [done|].
    repeat (apply Forall_cons; split; [apply Hall; [unfold phases; set_solver|done]|]).
    constructor.
Qed.

(** ** Witnesses *)

Definition hook (s : string) : LifecycleHook := {["" := [s]]}.
Definition some_hooks : UpdatedConfigProperties := {|
  u_entrypoints := []; u_onCreateCommands := [hook "make deps"];
  u_updateContentCommands := []; u_postCreateCommands := [hook "make"];
  u_postStartCommands := [hook "serve"]; u_postAttachCommands := [hook "status"];
  u_customizations := ∅ |}.
Definition some_base : DevContainerConfigBase := empty_base.
Definition some_merged : MergedDevContainerConfig := {|
  mc_base := some_base; mc_updated := some_hooks;
  mc_nonCompose := {| n_appPort := []; n_containerEnv := ∅; n_containerUser := "";
    n_mounts := []; n_init := None; n_privileged := None; n_capAdd := [];
    n_securityOpt := []; n_runArgs := []; n_workspaceMount := "" |};
  mc_image := ""; mc_compose := {| cc_dockerComposeFile := []; cc_service := "";
    cc_runServices := [] |};
  mc_dockerfile := {| df_dockerfile := ""; df_context := ""; df_build := None |};
  mc_containerID := ""; mc_origin := "" |}.
Definition some_details : ContainerDetails := {|
  cd_ID := "c"; cd_Created := "monday"; cd_Status := "running"; cd_StartedAt := "tuesday";
  cd_Labels := ∅; cd_WorkingDir := ""; cd_LegacyUser := "" |}.
Definition some_info : Result := {|
  res_Config := None; res_MergedConfig := Some some_merged;
  res_SubstitutionContext := Some {| ctx_devContainerID := ""; ctx_localWorkspaceFolder := "";
    ctx_containerWorkspaceFolder := "/workspaces/app"; ctx_env := ∅; ctx_workspaceMount := "" |};
  res_ContainerDetails := Some some_details |}.
Definition some_world : world := {|
  w_read := λ _, None; w_write := λ _, None; w_currentUser := inr "root";
  w_exec := λ _ _, Success; w_range := map_to_list; w_QuoteCommand := λ l, GoStrings.Join l " " |}.
Definition some_call : hook_call :=
  HookCall "root" "/workspaces/app" ∅ some_hooks some_details.
Definition no_probe : string → string → result (gmap string string) := λ _ _, Ok ∅.
Definition new_container : container := Container ∅ EnvAbsent ∅ [] [].

Lemma some_call_of : call_of no_probe some_info some_call.
Proof. eexists _, _. by split_and!. Qed.

Lemma some_files_work : files_work some_world.
Proof. done. Qed.

Lemma RunLifecycleHooks_runs_due_witness :
  r_args <$> c_ran (RunLifecycleHooks some_world no_probe some_info new_container).2 =
    [["sh"; "-c"; "make deps"]; ["sh"; "-c"; "make"]; ["sh"; "-c"; "serve"];
     ["sh"; "-c"; "status"]] ∧
  ∃ s', RunLifecycleHooks some_world no_probe some_info new_container = (Ok (), s') ∧
    c_ran s' = c_ran new_container ++ concat (phase_runs some_world "root" some_call ∅ <$>
      filter (λ p, fresh new_container (ph_name p) (ph_content p))
        (phases some_hooks some_details)).
Proof.
  split; [vm_compute; reflexivity|].
  apply (RunLifecycleHooks_runs_due some_world no_probe some_info some_call "root" new_container);
    [done|done|done|by intros h|apply some_call_of].
Defined.

Lemma RunLifecycleHooks_once_witness :
  let s1 := (RunLifecycleHooks some_world no_probe some_info new_container).2 in
  RunLifecycleHooks some_world no_probe some_info s1 =
  run_phase some_world some_call (Phase "postAttachCommands" "" [hook "status"]) s1.
Proof.
  intros s1.
  apply (RunLifecycleHooks_once some_world some_world no_probe no_probe some_info some_info
           some_call some_call new_container (Ok ()) s1);
    try done; apply some_call_of.
Defined.

(** A value with an = in it is cut off at the second =. *)
Example probe_entry_cut : probe_entry ∅ "OPTS=--a=b" = {["OPTS" := "--a"]}.
Proof. vm_compute. reflexivity. Qed.

Lemma probe_entry_value env k v : free "=" k = true → free "=" v = true →
  TrimSpace (k +:+ "=" +:+ v) = k +:+ "=" +:+ v →
  probe_entry env (k +:+ "=" +:+ v) = <[k := v]> env.
Proof.
  intros Hk Hv Ht. unfold probe_entry. rewrite Ht.
  change ("=" +:+ v) with (String "=" v). rewrite Split_app by done.
  by rewrite (Split_free _ _ Hv).
Qed.
