(* ===== verification/Home.v ===== *)
(** * The DevPod home directory

    The files DevPod keeps about workspaces, machines and providers
    (pkg/provider/dir.go), the ssh config, and the provider commands that were
    run, as one state.  Directories are kept beside the files because the code
    asks for the existence of a directory and lists directories.  What the
    operating system answers is the record [osys]. *)

From S2P Require Import Prelude GoStrings Types Config Names Provider Options SshConfig.
From S2P Require Resolver.
From stdpp Require Import base gmap sets list strings sorting.
From Stdlib Require Import ZArith.

Local Open Scope string_scope.
Local Open Scope list_scope.

(** ** State *)

(** A provider command: its name in provider.yaml, its words, and its
    environment. *)
Record provider_cmd := ProviderCmd {
  x_name : string;
  x_command : list string;
  x_environ : list string;
}.

(** What a command wrote, and its error. *)
Record exec_result := ExecResult {
  xr_stdout : string;
  xr_stderr : string;
  xr_err : option string;
}.

Record home := Home {
  h_dirs : gset string;
  h_workspaces : store Workspace;
  h_machines : store Machine;
  h_providers : store Provider.ProviderConfig;
  h_ssh : gmap string string;
  h_ran : list provider_cmd;
}.

Record osys := {
  o_sys : sys;
  (** the error of writing a file or creating a directory *)
  o_write : string → option string;
  (** the error of [os.RemoveAll] *)
  o_remove : string → option string;
  (** the error of [os.ReadDir], when it is not that the directory is missing *)
  o_readDir : string → option string;
  (** [types.Now] *)
  o_now : Z;
  (** [util.UserHomeDir] and [filepath.Abs] *)
  o_userHome : string + string;
  o_Abs : string → string + string;
  (** what a command does after those that ran before it *)
  o_exec : list provider_cmd → provider_cmd → exec_result;
  (** [binaries.GetBinaries] *)
  o_GetBinaries : string → Provider.ProviderConfig → string + gmap string string;
  (** [ParseProvider] of a decoded file *)
  o_validate : Provider.ProviderConfig → result Provider.ProviderConfig;
  (** the world of the option resolver and the fuel of its loop *)
  o_world : Resolver.world;
  o_fuel : nat;
}.

Definition set_dirs (d : gset string) (h : home) : home :=
  Home d (h_workspaces h) (h_machines h) (h_providers h) (h_ssh h) (h_ran h).
Definition set_workspaces (m : store Workspace) (h : home) : home :=
  Home (h_dirs h) m (h_machines h) (h_providers h) (h_ssh h) (h_ran h).
Definition set_machines (m : store Machine) (h : home) : home :=
  Home (h_dirs h) (h_workspaces h) m (h_providers h) (h_ssh h) (h_ran h).
Definition set_providers (m : store Provider.ProviderConfig) (h : home) : home :=
  Home (h_dirs h) (h_workspaces h) (h_machines h) m (h_ssh h) (h_ran h).
Definition set_ssh (m : gmap string string) (h : home) : home :=
  Home (h_dirs h) (h_workspaces h) (h_machines h) (h_providers h) m (h_ran h).
Definition add_ran (c : provider_cmd) (h : home) : home :=
  Home (h_dirs h) (h_workspaces h) (h_machines h) (h_providers h) (h_ssh h) (h_ran h ++ [c]).

(** Run code that only uses a part of the state. *)
Definition zoom {S T A} (get : S → T) (set : T → S → S) (c : M T A) : M S A := λ s,
  let '(r, t) := c (get s) in (r, set t s).

(** ** Directories *)

Definition under (dir path : string) : bool := HasPrefix path (dir +:+ "/").

(** [os.RemoveAll] *)
Definition keep_outside {V} (dir : string) (m : store V) : store V :=
  filter (λ kv, under dir kv.1 = false) m.
Definition remove_all (dir : string) (h : home) : home :=
  Home (filter (λ d, d ≠ dir ∧ under dir d = false) (h_dirs h))
       (keep_outside dir (h_workspaces h)) (keep_outside dir (h_machines h))
       (keep_outside dir (h_providers h)) (h_ssh h) (h_ran h).

(** The name of [path] in [dir], when it is an entry of it. *)
Definition entry_name (dir path : string) : option string :=
  if under dir path then
    let name := TrimPrefix path (dir +:+ "/") in
    if free "/" name && negb (sempty name) then Some name else None
  else None.
(** [os.ReadDir], sorted by name. *)
Definition dir_entries (dir : string) (h : home) : list string :=
  merge_sort String.le (omap (entry_name dir) (elements (h_dirs h))).

Section Home.
Context (o : osys).
Notation s := (o_sys o).

(** [os.RemoveAll] *)
Definition RemoveAll (dir : string) : M home unit :=
  match o_remove o dir with
  | Some e => throw e
  | None => modifyS (remove_all dir)
  end.

Definition MkdirAll (dir : string) : M home unit :=
  match o_write o dir with
  | Some e => throw e
  | None => modifyS (λ h, set_dirs ({[ dir ]} ∪ h_dirs h) h)
  end.

(** [os.ReadDir] with a missing directory taken for an empty one. *)
Definition ReadDir (dir : string) : M home (list string) :=
  match o_readDir o dir with
  | Some e => throw e
  | None => h ← getS; mret (dir_entries dir h)
  end.

(** [os.Stat(dir)] succeeds *)
Definition dir_exists (dir : result string) : M home bool :=
  h ← getS;
  mret match dir with Ok d => bool_decide (d ∈ h_dirs h) | _ => false end.

(** ** pkg/provider/dir.go *)

Definition WorkspaceExists (context workspaceID : string) : M home bool :=
  dir_exists (GetWorkspaceDir s context workspaceID).
Definition MachineExists (context machineID : string) : M home bool :=
  dir_exists (GetMachineDir s context machineID).
Definition ProviderExists (context provider : string) : M home bool :=
  dir_exists (GetProviderDir s context provider).

Definition workspace_file (dir : string) : string := filepath_Join [dir; "workspace.json"].
Definition machine_file (dir : string) : string := filepath_Join [dir; "machine.json"].
Definition provider_file (dir : string) : string := filepath_Join [dir; "provider.json"].

Definition saveWorkspaceConfig (w : Workspace) : M home unit :=
  dir ← liftR (GetWorkspaceDir s (w_context w) (w_id w));
  _ ← MkdirAll dir;
  zoom h_workspaces set_workspaces (SaveWorkspaceConfig s (o_write o (workspace_file dir)) w).
Definition loadWorkspaceConfig (context workspaceID : string) : M home Workspace :=
  zoom h_workspaces set_workspaces (LoadWorkspaceConfig s context workspaceID).

Definition saveMachineConfig (mc : Machine) : M home unit :=
  dir ← liftR (GetMachineDir s (mc_context mc) (mc_id mc));
  _ ← MkdirAll dir;
  zoom h_machines set_machines (SaveMachineConfig s (o_write o (machine_file dir)) mc).
Definition loadMachineConfig (context machineID : string) : M home Machine :=
  zoom h_machines set_machines (LoadMachineConfig s context machineID).

Definition SaveProviderConfig (context : string) (p : Provider.ProviderConfig) : M home unit :=
  dir ← liftR (GetProviderDir s context (p_name p));
  _ ← MkdirAll dir;
  zoom h_providers set_providers (write_file (o_write o (provider_file dir)) (provider_file dir) p).
(** The stored provider is validated again when it is read. *)
Definition LoadProviderConfig (context provider : string) : M home Provider.ProviderConfig :=
  dir ← liftR (GetProviderDir s context provider);
  p ← zoom h_providers set_providers (read_file (provider_file dir));
  liftR (o_validate o p).

(** ** pkg/ssh: ResolveSSHConfigPath *)

Definition ResolveSSHConfigPath (sshConfigPath : string) : result string :=
  homeDir ← wrap "get home dir" (of_sum (o_userHome o));
  if sempty sshConfigPath then Ok (filepath_Join [homeDir; ".ssh"; "config"])
  else
    let path := if HasPrefix sshConfigPath "~/" then homeDir +:+ sdrop 1 sshConfigPath
                else sshConfigPath in
    of_sum (o_Abs o path).

(** The ssh config file at a path. *)
Definition ssh_file_at (path : string) (h : home) : ssh_file :=
  match h_ssh h !! path with Some c => Content c | None => Absent end.
Definition set_ssh_file (path : string) (f : ssh_file) (h : home) : home :=
  match f with Content c => set_ssh (<[path := c]> (h_ssh h)) h | _ => h end.

(** ** Folders that are deleted: clientimplementation/workspace_client.go *)

Definition DeleteMachineFolder (context machineID : string) : M home unit :=
  machineDir ← liftR (GetMachineDir s context machineID);
  RemoveAll machineDir.

Definition DeleteWorkspaceFolder (context workspaceID sshConfigPath : string) : M home unit :=
  path ← liftR (ResolveSSHConfigPath sshConfigPath);
  _ ← try_ (zoom (ssh_file_at path) (set_ssh_file path)
              (RemoveFromConfig (o_write o path) workspaceID));
  workspaceFolder ← liftR (GetWorkspaceDir s context workspaceID);
  RemoveAll workspaceFolder.

(** ** Provider commands *)

Definition ToEnvironmentWithBinaries (context : string) (workspace : option Workspace)
    (machine : option Machine) (options : gomap OptionValue)
    (config : Provider.ProviderConfig) (extraEnv : gmap string string)
    : result (list string) :=
  let environ := ToEnvironment s workspace machine options extraEnv in
  binariesMap ← of_sum (o_GetBinaries o context config);
  Ok (environ ++ ((λ kv, kv.1 +:+ "=" +:+ kv.2) <$> s_iter s binariesMap)).

(** [runCommand]: an empty command does nothing; under the debug level the
    command is told so. *)
Definition runCommand (name : string) (command : StrArray) (environ : list string)
    : M home exec_result :=
  match command with
  | None | Some [] => mret (ExecResult "" "" None)
  | Some ((_ :: _) as words) =>
      let environ := if decide (s_logLevel s = "debug") then environ ++ ["DEVPOD_DEBUG=true"]
                     else environ in
      h ← getS;
      let c := ProviderCmd name words environ in
      _ ← modifyS (add_ran c);
      mret (o_exec o (h_ran h) c)
  end.

Definition RunCommandWithBinaries (name : string) (command : StrArray) (context : string)
    (workspace : option Workspace) (machine : option Machine) (options : gomap OptionValue)
    (config : Provider.ProviderConfig) (extraEnv : gmap string string)
    : M home exec_result :=
  environ ← liftR (ToEnvironmentWithBinaries context workspace machine options config extraEnv);
  runCommand name command environ.

(** [err := RunCommandWithBinaries(...); if err != nil { return err }] *)
Definition must_run (name : string) (command : StrArray) (context : string)
    (workspace : option Workspace) (machine : option Machine) (options : gomap OptionValue)
    (config : Provider.ProviderConfig) (extraEnv : gmap string string) : M home unit :=
  r ← RunCommandWithBinaries name command context workspace machine options config extraEnv;
  match xr_err r with Some e => throw e | None => mret () end.
End Home.
