(* ===== verification/Ide.v ===== *)
(** * pkg/ide/ideparse/parse.go

    The IDE of a workspace and its options.  The table of supported IDEs is
    an argument, the compiler of regular expressions a parameter. *)

From S2P Require Import Prelude GoStrings Types Config Provider Options Home.
From stdpp Require Import base gmap sets list strings.
From Stdlib Require Import ZArith.

Local Open Scope string_scope.
Local Open Scope list_scope.

(** [ide.Option] *)
Record IDEOption := {
  io_description : string;
  io_default : string;
  io_enum : list string;
  io_validationPattern : string;
  io_validationMessage : string;
}.

Record AllowedIDE := {
  ai_name : string;
  ai_ideOptions : gmap string IDEOption;
}.

Definition user_value (v : string) : OptionValue := {|
  ov_value := v; ov_userProvided := true; ov_filled := None; ov_children := [] |}.

Section Ide.
Context (AllowedIDEs : list AllowedIDE).
(** [regexp.Compile] *)
Context (compile : string → string + (string → bool)).

Definition GetIDEOptions (ide : string) : result (gmap string IDEOption) :=
  match List.find (λ a, bool_decide (ai_name a = ide)) AllowedIDEs with
  | Some a => Ok (ai_ideOptions a)
  | None => Err ("unrecognized ide '" +:+ ide +:+ "', please use one of: [" +:+
                 GoStrings.Join (ai_name <$> AllowedIDEs) " " +:+ "]")
  end.

(** The checks of one value. *)
Definition check_value (key value : string) (opt : IDEOption) : result unit :=
  _ ← (if sempty (io_validationPattern opt) then Ok ()
       else
         matcher ← of_sum (compile (io_validationPattern opt));
         if (matcher : string → bool) value then Ok ()
         else if negb (sempty (io_validationMessage opt)) then Err (io_validationMessage opt)
         else Err ("invalid value '" +:+ value +:+ "' for option '" +:+ key +:+
                   "', has to match the following regEx: " +:+ io_validationPattern opt));
  if (0 <? length (io_enum opt))%nat && negb (bool_decide (value ∈ io_enum opt))
  then Err ("invalid value '" +:+ value +:+ "' for option '" +:+ key +:+
            "', has to match one of the following values: [" +:+
            GoStrings.Join (io_enum opt) " " +:+ "]")
  else Ok ().

Fixpoint ide_ParseOptions (ideOptions : gmap string IDEOption) (options : list string)
    (retMap : gmap string OptionValue) : result (gmap string OptionValue) :=
  match options with
  | [] => Ok retMap
  | option :: options' =>
      match Split "=" option with
      | k :: ((_ :: _) as vs) =>
          let key := ToUpper (TrimSpace k) in
          let value := GoStrings.Join vs "=" in
          match ideOptions !! key with
          | None => Err ("invalid option '" +:+ key +:+ "', allowed options are: [" +:+
                         GoStrings.Join ((map_to_list ideOptions).*1) " " +:+ "]")
          | Some opt =>
              _ ← check_value key value opt;
              ide_ParseOptions ideOptions options' (<[key := user_value value]> retMap)
          end
      | _ => Err ("invalid option '" +:+ option +:+ "', expected format KEY=VALUE")
      end
  end.

(** [detect]: whether the command [code] exists. *)
Context (has_code : bool).
Definition detect : string := if has_code then "vscode" else "openvscode".

Definition plain_value (v : OptionValue) : OptionValue := {|
  ov_value := ov_value v; ov_userProvided := false; ov_filled := None; ov_children := [] |}.

Definition RefreshIDEOptions (o : osys) (devPodConfig : Config) (workspace : Workspace)
    (ide : string) (options : list string) : M home Workspace :=
  ctx ← liftR (current_context devPodConfig);
  let ide := ToLower ide in
  let ide := if negb (sempty ide) then ide
             else if negb (sempty (wi_name (w_ide workspace))) then wi_name (w_ide workspace)
             else if negb (sempty (cc_defaultIDE ctx)) then cc_defaultIDE ctx
             else detect in
  ideOptions ← liftR (GetIDEOptions ide);
  let retValues := plain_value <$> IDEOptions ctx ide in
  let retValues :=
    if decide (ide = wi_name (w_ide workspace))
    then filter (λ kv, ov_userProvided kv.2 = true) (gm_elems (wi_options (w_ide workspace)))
         ∪ retValues
    else retValues in
  values ← liftR (wrap "parse options" (ide_ParseOptions ideOptions options ∅));
  let retValues := values ∪ retValues in
  if decide (wi_name (w_ide workspace) ≠ ide ∨ wi_options (w_ide workspace) ≠ Some retValues) then
    let workspace := with_workspace_place workspace
      {| wi_name := ide; wi_options := Some retValues |}
      (w_context workspace) (w_origin workspace) in
    r ← (λ h, let '(r, h') := saveWorkspaceConfig o workspace h in (Ok r, h'));
    _ ← liftR (wrap "save workspace" r);
    mret workspace
  else mret workspace.

End Ide.
