(* ===== verification/Clients.v ===== *)
(** * pkg/client and pkg/client/clientimplementation

    The clients through which a command acts on a machine
    (machine_client.go) and on a workspace (workspace_client.go): status,
    creation, start, stop and deletion, and what the agent is told.  They run
    the commands of the provider and keep the files of the home directory. *)

From S2P Require Import Prelude GoStrings Types Config Provider Options SshConfig Home.
From S2P Require DevContainer.
From stdpp Require Import base gmap sets list strings.
From Stdlib Require Import ZArith.

Local Open Scope string_scope.
Local Open Scope list_scope.

(** ** client.go *)

Inductive Status := StatusRunning | StatusBusy | StatusStopped | StatusNotFound.
#[export] Instance Status_eq_dec : EqDecision Status.
Proof. solve_decision. Defined.
Definition Status_String (st : Status) : string :=
  match st with
  | StatusRunning => "Running" | StatusBusy => "Busy"
  | StatusStopped => "Stopped" | StatusNotFound => "NotFound"
  end.

Definition ParseStatus (in_ : string) : result Status :=
  let in_ := ToUpper (TrimSpace in_) in
  if decide (in_ = "RUNNING") then Ok StatusRunning
  else if decide (in_ = "BUSY") then Ok StatusBusy
  else if decide (in_ = "STOPPED") then Ok StatusStopped
  else if decide (in_ = "NOTFOUND") then Ok StatusNotFound
  else Err ("error parsing status: '" +:+ in_ +:+
            "' unrecognized status, needs to be one of: [Running Busy Stopped NotFound]").

Record DeleteOptions := {
  do_platformEnabled : bool;
  do_ignoreNotFound : bool;
  do_force : bool;
  do_gracePeriod : string;
}.

(** The options of the command line that are passed on to the agent. *)
(** [devpod.PlatformOptions], as far as the code reads it. *)
Record PlatformBuildOptions := { pb_repository : string; pb_remoteAddress : string }.
Record PlatformOptions := {
  po_enabled : bool;
  po_accessKey : string;
  po_workspaceHost : string;
  po_platformHost : string;
  po_environmentTemplate : string;
  po_environmentTemplateVersion : string;
  po_build : option PlatformBuildOptions;
}.
Definition no_platform : PlatformOptions := {|
  po_enabled := false; po_accessKey := ""; po_workspaceHost := ""; po_platformHost := "";
  po_environmentTemplate := ""; po_environmentTemplateVersion := ""; po_build := None |}.

Record CLIOptions := {
  cli_platform : PlatformOptions;
  cli_id : string;
  cli_source : string;
  cli_ide : string;
  cli_ideOptions : list string;
  cli_prebuildRepositories : list string;
  cli_devContainerImage : string;
  cli_devContainerPath : string;
  cli_workspaceEnv : list string;
  cli_workspaceEnvFile : list string;
  cli_initEnv : list string;
  cli_recreate : bool;
  cli_reset : bool;
  cli_disableDaemon : bool;
  cli_daemonInterval : string;
  cli_gitCloneStrategy : string;
  cli_gitCloneRecursiveSubmodules : bool;
  cli_fallbackImage : string;
  cli_gitSSHSigningKey : string;
  cli_sshAuthSockID : string;
  cli_strictHostKeyChecking : bool;
  cli_repository : string;
  cli_skipPush : bool;
  cli_platforms : list string;
  cli_tag : list string;
  cli_forceBuild : bool;
  cli_forceDockerless : bool;
  cli_forceInternalBuildKit : bool;
}.
Definition cli_platformEnabled (c : CLIOptions) : bool := po_enabled (cli_platform c).
(** [CLIOptions{}] with platform options. *)
Definition platform_cli (p : PlatformOptions) : CLIOptions := {|
  cli_platform := p; cli_id := ""; cli_source := ""; cli_ide := ""; cli_ideOptions := [];
  cli_prebuildRepositories := []; cli_devContainerImage := ""; cli_devContainerPath := "";
  cli_workspaceEnv := []; cli_workspaceEnvFile := []; cli_initEnv := [];
  cli_recreate := false; cli_reset := false; cli_disableDaemon := false;
  cli_daemonInterval := ""; cli_gitCloneStrategy := "";
  cli_gitCloneRecursiveSubmodules := false; cli_fallbackImage := "";
  cli_gitSSHSigningKey := ""; cli_sshAuthSockID := ""; cli_strictHostKeyChecking := false;
  cli_repository := ""; cli_skipPush := false; cli_platforms := []; cli_tag := [];
  cli_forceBuild := false; cli_forceDockerless := false;
  cli_forceInternalBuildKit := false |}.
Definition no_cli : CLIOptions := platform_cli no_platform.

(** [AgentWorkspaceInfo], less the last devcontainer.json. *)
Record AgentWorkspaceInfo := {
  ai_workspaceOrigin : string;
  ai_workspace : Workspace;
  ai_machine : option Machine;
  ai_cliOptions : CLIOptions;
  ai_agent : ProviderAgentConfig;
  ai_options : gmap string OptionValue;
  ai_contentFolder : string;
  ai_origin : string;
  ai_injectTimeout : Z;
  ai_registryCache : string;
}.

(** [CloneWorkspace] and [CloneMachine]: the JSON round trip with the origin
    put back. *)
Definition CloneWorkspace (w : Workspace) : Workspace :=
  let c := encode_workspace w in with_workspace_place c (w_ide c) (w_context c) (w_origin w).
Definition CloneMachine (mc : Machine) : Machine :=
  let c := encode_machine mc in {|
  mc_id := mc_id c; mc_provider := mc_provider c;
  mc_creationTimestamp := mc_creationTimestamp c; mc_context := mc_context c;
  mc_origin := mc_origin mc |}.

Definition with_credentials (a : ProviderAgentConfig) : ProviderAgentConfig := {|
  a_local := a_local a; a_path := a_path a; a_dataPath := a_dataPath a;
  a_downloadURL := a_downloadURL a; a_timeout := a_timeout a;
  a_containerTimeout := a_containerTimeout a; a_injectGitCredentials := "true";
  a_injectDockerCredentials := "true"; a_exec := a_exec a; a_binaries := a_binaries a;
  a_dockerless := a_dockerless a; a_driver := a_driver a; a_docker := a_docker a;
  a_custom := a_custom a; a_kubernetes := a_kubernetes a |}.

Definition CustomDriver : string := "custom".

Section Clients.
Context (o : osys) (devPodConfig : Config).
Notation s := (o_sys o).

(** [devPodConfig.ProviderOptions(name)] *)
Definition provider_options (name : string) : result (gmap string OptionValue) :=
  ctx ← current_context devPodConfig; Ok (ProviderOptions ctx name).

(** ** machine_client.go *)

Record machineClient := MachineClient {
  mcl_config : Provider.ProviderConfig;
  mcl_machine : Machine;
}.

Definition NewMachineClient (provider : Provider.ProviderConfig) (machine : option Machine)
    : result machineClient :=
  if negb (IsMachineProvider provider) then
    Err ("provider '" +:+ p_name provider +:+
         "' is not a machine provider. Please use another provider")
  else match machine with
  | None => Err "machine doesn't exist. Seems like it was deleted without the workspace being deleted"
  | Some m => Ok (MachineClient provider m)
  end.

(** The commands of the provider for the machine. *)
Definition machine_command (c : machineClient) (name : string) (command : StrArray)
    (extraEnv : gmap string string) : M home exec_result :=
  opts ← liftR (provider_options (p_name (mcl_config c)));
  RunCommandWithBinaries o name command (mc_context (mcl_machine c)) None
    (Some (mcl_machine c)) (Some opts) (mcl_config c) extraEnv.

Definition succeed (c : M home exec_result) : M home unit :=
  r ← c; match xr_err r with Some e => throw e | None => mret () end.

Definition machine_Create (c : machineClient) : M home unit :=
  succeed (machine_command c "create" (e_create (p_exec (mcl_config c))) ∅).
Definition machine_Start (c : machineClient) : M home unit :=
  succeed (machine_command c "start" (e_start (p_exec (mcl_config c))) ∅).
Definition machine_Stop (c : machineClient) : M home unit :=
  succeed (machine_command c "stop" (e_stop (p_exec (mcl_config c))) ∅).
Definition machine_Command (c : machineClient) (command : string) : M home unit :=
  succeed (machine_command c "command" (e_command (p_exec (mcl_config c)))
             {["COMMAND" := command]}).

Definition machine_Status (c : machineClient) : M home Status :=
  r ← caught (machine_command c "status" (e_status (p_exec (mcl_config c))) ∅);
  match r with
  | Ok r =>
      match xr_err r with
      | Some _ => throw ("get status: " +:+ TrimSpace (xr_stdout r) +:+ TrimSpace (xr_stderr r))
      | None => liftR (ParseStatus (xr_stdout r))
      end
  | Err _ => throw "get status: "
  | Panic => liftR Panic
  | NoFuel => liftR NoFuel
  end.

(** The grace period only bounds the time the command may take. *)
Definition machine_Delete (c : machineClient) (options : DeleteOptions) : M home unit :=
  r ← caught (succeed (machine_command c "delete" (e_delete (p_exec (mcl_config c))) ∅));
  match r with
  | Err e =>
      if do_force options
      then DeleteMachineFolder o (mc_context (mcl_machine c)) (mc_id (mcl_machine c))
      else throw e
  | Ok _ => DeleteMachineFolder o (mc_context (mcl_machine c)) (mc_id (mcl_machine c))
  | Panic => liftR Panic
  | NoFuel => liftR NoFuel
  end.

Definition machine_RefreshOptions (c : machineClient) (userOptionsRaw : list string)
    : M home machineClient :=
  userOptions ← liftR (wrap "parse options" (ParseOptions userOptionsRaw));
  let dir := or_empty (GetMachineDir s (mc_context (mcl_machine c)) (mc_id (mcl_machine c))) in
  machine ← zoom h_machines set_machines
    (ResolveAndSaveOptionsMachine s (o_write o (machine_file dir)) (o_world o) (o_fuel o)
       (o_GetBinaries o) devPodConfig (mcl_config c) (mcl_machine c) userOptions);
  mret (MachineClient (mcl_config c) machine).

(** ** workspace_client.go *)

Record workspaceClient := WorkspaceClient {
  wc_config : Provider.ProviderConfig;
  wc_workspace : Workspace;
  wc_machine : option Machine;
}.

Definition NewWorkspaceClient (prov : Provider.ProviderConfig) (workspace : Workspace)
    (machine : option Machine) : result workspaceClient :=
  if decide (wm_id (w_machine workspace) ≠ "" ∧ machine = None) then
    Err "workspace machine is not found"
  else if IsMachineProvider prov && sempty (wm_id (w_machine workspace)) then
    Err "workspace machine ID is empty, but machine provider found"
  else Ok (WorkspaceClient prov workspace machine).

Definition isMachineProvider (c : workspaceClient) : bool := IsMachineProvider (wc_config c).

(** What the agent is told. *)
Definition agentInfo (c : workspaceClient) (cliOptions : CLIOptions)
    : result AgentWorkspaceInfo :=
  agent ← ResolveAgentConfig s devPodConfig (wc_config c) (Some (wc_workspace c)) (wc_machine c);
  options ← provider_options (p_name (wc_config c));
  let agent := if cli_platformEnabled cliOptions then with_credentials agent else agent in
  let hide := negb (bool_decide (a_driver agent = CustomDriver)) &&
              (cli_platformEnabled cliOptions || cli_disableDaemon cliOptions) in
  injectTimeout ← ParseTimeOption devPodConfig "AGENT_INJECT_TIMEOUT";
  registryCache ← ContextOption devPodConfig "REGISTRY_CACHE";
  Ok {|
    ai_workspaceOrigin := w_origin (wc_workspace c);
    ai_workspace := if hide then with_workspace_options (CloneWorkspace (wc_workspace c)) (Some ∅)
                    else wc_workspace c;
    ai_machine := if hide then (λ mc, with_machine_options (CloneMachine mc) (Some ∅)) <$> wc_machine c
                  else wc_machine c;
    ai_cliOptions := cliOptions;
    ai_agent := agent;
    ai_options := if hide then ∅ else options;
    ai_contentFolder := ""; ai_origin := "";
    ai_injectTimeout := injectTimeout;
    ai_registryCache := registryCache |}.

(** The encoding of the information in a command line. *)
Context (compress : AgentWorkspaceInfo → string + string).

Definition compressedAgentInfo (c : workspaceClient) (cliOptions : CLIOptions)
    : result (string * AgentWorkspaceInfo) :=
  info ← agentInfo c cliOptions;
  compressed ← of_sum (compress info);
  Ok (compressed, info).

(** The information for a command of the agent; the error is replaced. *)
Definition agent_info (c : workspaceClient) (msg : string)
    : M home (string * AgentWorkspaceInfo) :=
  liftR match compressedAgentInfo c no_cli with
        | Err _ => Err msg
        | r => r
        end.
(** A command of the agent, run with the provider's command. *)
Definition agent_command (c : workspaceClient) (info : string * AgentWorkspaceInfo)
    (action : string) : M home exec_result :=
  let command := "'" +:+ a_path (ai_agent info.2) +:+ "' agent workspace " +:+ action +:+
                 " --workspace-info '" +:+ info.1 +:+ "'" in
  opts ← liftR (provider_options (p_name (wc_config c)));
  RunCommandWithBinaries o "command" (e_command (p_exec (wc_config c)))
    (w_context (wc_workspace c)) (Some (wc_workspace c)) (wc_machine c) (Some opts)
    (wc_config c) {["COMMAND" := command]}.

Definition RefreshOptions (c : workspaceClient) (userOptionsRaw : list string)
    : M home workspaceClient :=
  userOptions ← liftR (wrap "parse options" (ParseOptions userOptionsRaw));
  if isMachineProvider c then
    match wc_machine c with
    | None => mret c
    | Some machine =>
        let dir := or_empty (GetMachineDir s (mc_context machine) (mc_id machine)) in
        machine' ← zoom h_machines set_machines
          (ResolveAndSaveOptionsMachine s (o_write o (machine_file dir)) (o_world o) (o_fuel o)
             (o_GetBinaries o) devPodConfig (wc_config c) machine userOptions);
        mret (WorkspaceClient (wc_config c) (wc_workspace c) (Some machine'))
    end
  else
    let dir := or_empty (GetWorkspaceDir s (w_context (wc_workspace c)) (w_id (wc_workspace c))) in
    workspace' ← zoom h_workspaces set_workspaces
      (ResolveAndSaveOptionsWorkspace s (o_write o (workspace_file dir)) (o_world o) (o_fuel o)
         (o_GetBinaries o) devPodConfig (wc_config c) (wc_workspace c) userOptions false);
    mret (WorkspaceClient (wc_config c) workspace' (wc_machine c)).

Definition Create (c : workspaceClient) : M home unit :=
  if negb (isMachineProvider c) then mret ()
  else match wc_machine c with
  | None => throw "machine is not defined"
  | Some machine =>
      machineClient ← liftR (NewMachineClient (wc_config c) (Some machine));
      machineStatus ← machine_Status machineClient;
      if decide (machineStatus ≠ StatusNotFound) then mret ()
      else machine_Create machineClient
  end.

Definition isMachineRunning (c : workspaceClient) : M home bool :=
  if negb (isMachineProvider c) then mret true
  else
    machineClient ← liftR (NewMachineClient (wc_config c) (wc_machine c));
    r ← caught (machine_Status machineClient);
    match r with
    | Ok status => mret (bool_decide (status = StatusRunning))
    | Err e => throw ("retrieve machine status: " +:+ e)
    | Panic => liftR Panic
    | NoFuel => liftR NoFuel
    end.

(** Delete the container of a machine that is kept, or the machine. *)
Definition delete_container (c : workspaceClient) (opt : DeleteOptions) : M home unit :=
  r ← caught (isMachineRunning c);
  match r with
  | Err e => if do_force opt then mret () else throw e
  | Ok false => mret ()
  | Ok true =>
      info ← agent_info c "agent info";
      r ← caught (succeed (agent_command c info "delete"));
      match r with
      | Ok _ => mret ()
      | Err e => if do_force opt then mret () else throw e
      | Panic => liftR Panic
      | NoFuel => liftR NoFuel
      end
  | Panic => liftR Panic
  | NoFuel => liftR NoFuel
  end.

Definition Delete (c : workspaceClient) (opt : DeleteOptions) : M home unit :=
  _ ← (if negb (isMachineProvider c) || negb (wm_autoDelete (w_machine (wc_workspace c)))
       then delete_container c opt
       else match wc_machine c with
       | Some machine =>
           if negb (sempty (wm_id (w_machine (wc_workspace c)))) &&
              (0 <? len (e_delete (p_exec (wc_config c))))%nat
           then machineClient ← liftR (NewMachineClient (wc_config c) (Some machine));
                machine_Delete machineClient opt
           else mret ()
       | None => mret ()
       end);
  DeleteWorkspaceFolder o (w_context (wc_workspace c)) (w_id (wc_workspace c))
    (w_sshConfigPath (wc_workspace c)).

Definition Start (c : workspaceClient) : M home unit :=
  match wc_machine c with
  | Some machine =>
      if isMachineProvider c
      then machineClient ← liftR (NewMachineClient (wc_config c) (Some machine));
           machine_Start machineClient
      else mret ()
  | None => mret ()
  end.

Definition Stop (c : workspaceClient) : M home unit :=
  if negb (isMachineProvider c) || negb (wm_autoDelete (w_machine (wc_workspace c)))
  then info ← agent_info c "agent info"; succeed (agent_command c info "stop")
  else machineClient ← liftR (NewMachineClient (wc_config c) (wc_machine c));
       machine_Stop machineClient.

Definition getContainerStatus (c : workspaceClient) : M home Status :=
  info ← agent_info c "get agent info";
  r ← caught (agent_command c info "status");
  match r with
  | Ok r =>
      let buf := xr_stdout r +:+ xr_stderr r in
      match xr_err r with
      | Some e => throw ("error retrieving container status: " +:+ buf +:+ e)
      | None =>
          match ParseStatus (xr_stdout r) with
          | Err e => throw ("error parsing container status: " +:+ buf +:+ e)
          | r => liftR r
          end
      end
  | Err e => throw ("error retrieving container status: " +:+ e)
  | Panic => liftR Panic
  | NoFuel => liftR NoFuel
  end.

Definition workspace_Status (c : workspaceClient) (containerStatus : bool) : M home Status :=
  if isMachineProvider c && (0 <? len (e_status (p_exec (wc_config c))))%nat then
    match wc_machine c with
    | None => mret StatusNotFound
    | Some machine =>
        machineClient ← liftR (NewMachineClient (wc_config c) (Some machine));
        status ← machine_Status machineClient;
        if bool_decide (status = StatusRunning) && containerStatus
        then getContainerStatus c else mret status
    end
  else if containerStatus then getContainerStatus c
  else
    workspaceFolder ← liftR (GetWorkspaceDir s (w_context (wc_workspace c)) (w_id (wc_workspace c)));
    h ← getS;
    mret (if decide (workspaceFolder ∈ h_dirs h) then StatusRunning else StatusNotFound).
End Clients.
