(* ===== verification/Workspaces.v ===== *)
(** * pkg/workspace

    Listing, finding, creating, importing and deleting workspaces
    (workspace.go, list.go, delete.go), machines (machine.go) and providers
    (provider.go) over the home directory of Home.v, and the IDE a workspace
    is opened with (pkg/ide/ideparse).  The platform, the network and the
    terminal are the record [remote]. *)

From S2P Require Import Prelude GoStrings GoRegexp Types Config Git Names Provider Options.
From S2P Require Import Home Ide Clients.
From stdpp Require Import base gmap sets list strings sorting.
From Stdlib Require Import ZArith.

Local Open Scope string_scope.
Local Open Scope list_scope.

(** ** Assignments to fields of a workspace *)

Definition with_imported (v : bool) (w : Workspace) : Workspace := {|
  w_id := w_id w; w_uid := w_uid w; w_picture := w_picture w; w_provider := w_provider w;
  w_machine := w_machine w; w_ide := w_ide w; w_source := w_source w; w_devContainerImage
  := w_devContainerImage w; w_devContainerPath := w_devContainerPath w;
  w_devContainerConfig := w_devContainerConfig w; w_creationTimestamp :=
  w_creationTimestamp w; w_lastUsedTimestamp := w_lastUsedTimestamp w; w_context :=
  w_context w; w_imported := v; w_origin := w_origin w; w_pro := w_pro w; w_sshConfigPath
  := w_sshConfigPath w |}.
Definition with_lastUsedTimestamp (v : Z) (w : Workspace) : Workspace := {|
  w_id := w_id w; w_uid := w_uid w; w_picture := w_picture w; w_provider := w_provider w;
  w_machine := w_machine w; w_ide := w_ide w; w_source := w_source w; w_devContainerImage
  := w_devContainerImage w; w_devContainerPath := w_devContainerPath w;
  w_devContainerConfig := w_devContainerConfig w; w_creationTimestamp :=
  w_creationTimestamp w; w_lastUsedTimestamp := v; w_context := w_context w; w_imported :=
  w_imported w; w_origin := w_origin w; w_pro := w_pro w; w_sshConfigPath :=
  w_sshConfigPath w |}.
Definition with_sshConfigPath (v : string) (w : Workspace) : Workspace := {|
  w_id := w_id w; w_uid := w_uid w; w_picture := w_picture w; w_provider := w_provider w;
  w_machine := w_machine w; w_ide := w_ide w; w_source := w_source w; w_devContainerImage
  := w_devContainerImage w; w_devContainerPath := w_devContainerPath w;
  w_devContainerConfig := w_devContainerConfig w; w_creationTimestamp :=
  w_creationTimestamp w; w_lastUsedTimestamp := w_lastUsedTimestamp w; w_context :=
  w_context w; w_imported := w_imported w; w_origin := w_origin w; w_pro := w_pro w;
  w_sshConfigPath := v |}.
Definition with_machine (v : WorkspaceMachineConfig) (w : Workspace) : Workspace := {|
  w_id := w_id w; w_uid := w_uid w; w_picture := w_picture w; w_provider := w_provider w;
  w_machine := v; w_ide := w_ide w; w_source := w_source w; w_devContainerImage :=
  w_devContainerImage w; w_devContainerPath := w_devContainerPath w; w_devContainerConfig
  := w_devContainerConfig w; w_creationTimestamp := w_creationTimestamp w;
  w_lastUsedTimestamp := w_lastUsedTimestamp w; w_context := w_context w; w_imported :=
  w_imported w; w_origin := w_origin w; w_pro := w_pro w; w_sshConfigPath :=
  w_sshConfigPath w |}.
Definition with_source (v : WorkspaceSource) (w : Workspace) : Workspace := {|
  w_id := w_id w; w_uid := w_uid w; w_picture := w_picture w; w_provider := w_provider w;
  w_machine := w_machine w; w_ide := w_ide w; w_source := v; w_devContainerImage :=
  w_devContainerImage w; w_devContainerPath := w_devContainerPath w; w_devContainerConfig
  := w_devContainerConfig w; w_creationTimestamp := w_creationTimestamp w;
  w_lastUsedTimestamp := w_lastUsedTimestamp w; w_context := w_context w; w_imported :=
  w_imported w; w_origin := w_origin w; w_pro := w_pro w; w_sshConfigPath :=
  w_sshConfigPath w |}.
Definition with_picture (v : string) (w : Workspace) : Workspace := {|
  w_id := w_id w; w_uid := w_uid w; w_picture := v; w_provider := w_provider w; w_machine
  := w_machine w; w_ide := w_ide w; w_source := w_source w; w_devContainerImage :=
  w_devContainerImage w; w_devContainerPath := w_devContainerPath w; w_devContainerConfig
  := w_devContainerConfig w; w_creationTimestamp := w_creationTimestamp w;
  w_lastUsedTimestamp := w_lastUsedTimestamp w; w_context := w_context w; w_imported :=
  w_imported w; w_origin := w_origin w; w_pro := w_pro w; w_sshConfigPath :=
  w_sshConfigPath w |}.
Definition with_ide (v : WorkspaceIDEConfig) (w : Workspace) : Workspace := {|
  w_id := w_id w; w_uid := w_uid w; w_picture := w_picture w; w_provider := w_provider w;
  w_machine := w_machine w; w_ide := v; w_source := w_source w; w_devContainerImage :=
  w_devContainerImage w; w_devContainerPath := w_devContainerPath w; w_devContainerConfig
  := w_devContainerConfig w; w_creationTimestamp := w_creationTimestamp w;
  w_lastUsedTimestamp := w_lastUsedTimestamp w; w_context := w_context w; w_imported :=
  w_imported w; w_origin := w_origin w; w_pro := w_pro w; w_sshConfigPath :=
  w_sshConfigPath w |}.
Definition with_devContainerImage (v : string) (w : Workspace) : Workspace := {|
  w_id := w_id w; w_uid := w_uid w; w_picture := w_picture w; w_provider := w_provider w;
  w_machine := w_machine w; w_ide := w_ide w; w_source := w_source w; w_devContainerImage
  := v; w_devContainerPath := w_devContainerPath w; w_devContainerConfig :=
  w_devContainerConfig w; w_creationTimestamp := w_creationTimestamp w;
  w_lastUsedTimestamp := w_lastUsedTimestamp w; w_context := w_context w; w_imported :=
  w_imported w; w_origin := w_origin w; w_pro := w_pro w; w_sshConfigPath :=
  w_sshConfigPath w |}.
Definition with_devContainerPath (v : string) (w : Workspace) : Workspace := {|
  w_id := w_id w; w_uid := w_uid w; w_picture := w_picture w; w_provider := w_provider w;
  w_machine := w_machine w; w_ide := w_ide w; w_source := w_source w; w_devContainerImage
  := w_devContainerImage w; w_devContainerPath := v; w_devContainerConfig :=
  w_devContainerConfig w; w_creationTimestamp := w_creationTimestamp w;
  w_lastUsedTimestamp := w_lastUsedTimestamp w; w_context := w_context w; w_imported :=
  w_imported w; w_origin := w_origin w; w_pro := w_pro w; w_sshConfigPath :=
  w_sshConfigPath w |}.

(** The value [strconv.ParseInt] returns also when it fails: the nearest bound
    when the number does not fit, and zero for anything else. *)
Definition parsed_or_clamped (v : string) : Z :=
  match ParseInt v with
  | Some z => z
  | None =>
      let '(neg, digits) :=
        match v with
        | String c v' => if decide (c = "-"%char) then (true, v')
                         else if decide (c = "+"%char) then (false, v') else (false, v)
        | "" => (false, "")
        end in
      if sempty digits || negb (sforall is_digit digits) then 0%Z
      else if neg then min_int64 else max_int64
  end.

(** An instance of a workspace on the platform. *)
Record Instance := {
  in_name : string;
  in_labels : gomap string;
  in_annotations : gomap string;
  in_displayName : string;
  in_sleepMode : option Z;           (* the last activity, in seconds *)
  in_creationTimestamp : Z;
}.

Record ProviderWithOptions := {
  pwo_config : Provider.ProviderConfig;
  pwo_state : option Config.ProviderConfig;
}.

Record remote := {
  (** [DevPodWorkspaceInstance]s of a pro provider, and whether one exists *)
  rm_instances : string → string + list Instance;
  rm_exists : Workspace → bool;
  (** [file.IsLocalDir] *)
  rm_isLocalDir : string → bool * string;
  (** [git.PingRepository], [image.GetImage] and [getProjectImage] *)
  rm_ping : string → bool;
  rm_image : string → bool;
  rm_picture : string → string;
  (** random identifiers and the digest *)
  rm_uuid : string;
  rm_sha : string → string;
  rm_machineUID : string;
  (** the terminal: the workspace selected from a form *)
  rm_isTerminal : bool;
  rm_choose : list Workspace → string + option Workspace;
  (** the provider's own creation of an instance *)
  rm_createInstance : Workspace → M home unit;
  (** the status and the deletion of an instance, and the lock of a workspace *)
  rm_status : Workspace → M home Status;
  rm_delete : Workspace → DeleteOptions → M home unit;
  rm_lock : Workspace → option string;
  (** [download.File] and [binaries.DownloadBinaries] *)
  rm_download : string → string + string;
  rm_downloadBinaries : Provider.ProviderConfig → string → option string;
}.

Section Workspaces.
Context (o : osys) (rm : remote) (devPodConfig : Config).
Notation s := (o_sys o).
Notation context := (c_defaultContext devPodConfig).

(** ** provider.go *)

Definition LoadAllProviders : M home (gmap string ProviderWithOptions) :=
  ctx ← liftR (current_context devPodConfig);
  let load_known (acc : gmap string ProviderWithOptions)
      (kv : string * option Config.ProviderConfig) : M home (gmap string ProviderWithOptions) :=
    r ← caught (LoadProviderConfig o context kv.1);
    match r with
    | Ok p => mret (<[kv.1 := {| pwo_config := p; pwo_state := kv.2 |}]> acc)
    | Panic => liftR Panic
    | NoFuel => liftR NoFuel
    | Err _ => mret acc
    end in
  let load_entry (acc : gmap string ProviderWithOptions) (entry : string)
      : M home (gmap string ProviderWithOptions) :=
    if bool_decide (is_Some (acc !! entry)) || HasPrefix entry ".DS_Store" then mret acc
    else
      p ← LoadProviderConfig o context entry;
      mret (<[p_name p := {| pwo_config := p; pwo_state := None |}]> acc) in
  let fix known acc l :=
    match l with [] => mret acc | kv :: l' => acc' ← load_known acc kv; known acc' l' end in
  let fix rest acc l :=
    match l with [] => mret acc | e :: l' => acc' ← load_entry acc e; rest acc' l' end in
  retProviders ← known ∅ (s_iter s (gm_elems (cc_providers ctx)));
  providerDir ← liftR (GetProvidersDir s context);
  entries ← ReadDir o providerDir;
  rest retProviders entries.

Definition FindProvider (name : string) : M home ProviderWithOptions :=
  retProviders ← LoadAllProviders;
  match retProviders !! name with
  | Some p => mret p
  | None => throw ("couldn't find provider with name " +:+ name +:+
                   ". Please make sure to add the provider via 'devpod provider add'")
  end.

Definition LoadProviders : M home (ProviderWithOptions * gmap string ProviderWithOptions) :=
  defaultContext ← liftR (current_context devPodConfig);
  retProviders ← LoadAllProviders;
  if sempty (cc_defaultProvider defaultContext) then
    throw "no default provider found. Please make sure to run 'devpod provider use'"
  else match retProviders !! cc_defaultProvider defaultContext with
  | None => throw ("couldn't find default provider " +:+ cc_defaultProvider defaultContext +:+
                   ". Please make sure to add the provider via 'devpod provider add'")
  | Some p => mret (p, retProviders)
  end.

(** ** list.go *)

Fixpoint load_entries (skipPro : bool) (entries : list string) : M home (list Workspace) :=
  match entries with
  | [] => mret []
  | entry :: entries' =>
      if HasPrefix entry "." then load_entries skipPro entries'
      else
        r ← caught (loadWorkspaceConfig o context entry);
        match r with
        | Ok w =>
            rest ← load_entries skipPro entries';
            mret (if skipPro && IsPro w then rest else w :: rest)
        | Err _ => load_entries skipPro entries'
        | Panic => liftR Panic
        | NoFuel => liftR NoFuel
        end
  end.
Definition ListLocalWorkspaces (skipPro : bool) : M home (list Workspace) :=
  workspaceDir ← liftR (GetWorkspacesDir s context);
  entries ← ReadDir o workspaceDir;
  load_entries skipPro entries.

Definition ProjectLabel : string := "loft.sh/project".
Definition label (m : gomap string) (k : string) : string := default "" (gm_get m k).

(** One instance of the platform as a workspace. *)
Definition instance_workspace (provider : string) (i : Instance) : option Workspace :=
  let id := label (in_labels i) "loft.sh/workspace-id" in
  let uid := label (in_labels i) "loft.sh/workspace-uid" in
  let rawSource := label (in_annotations i) "loft.sh/workspace-source" in
  let source := if sempty rawSource then empty_source
                else default empty_source (ParseWorkspaceSource rawSource) in
  let lastUsed :=
    match in_sleepMode i with
    | Some t => t
    | None =>
        match gm_get (in_annotations i) "sleepmode.loft.sh/last-activity" with
        | Some v => parsed_or_clamped v
        | None => 0%Z
        end
    end in
  match in_labels i with
  | None => None
  | Some _ =>
      if sempty id || sempty uid then None
      else Some {|
        w_id := id; w_uid := uid; w_picture := "";
        w_provider := {| wpr_name := provider; wpr_options := None |};
        w_machine := {| wm_id := ""; wm_autoDelete := false |};
        w_ide := {| wi_name := ""; wi_options := None |};
        w_source := source; w_devContainerImage := ""; w_devContainerPath := "";
        w_devContainerConfig := None; w_creationTimestamp := in_creationTimestamp i;
        w_lastUsedTimestamp := lastUsed; w_context := context; w_imported := false;
        w_origin := "";
        w_pro := Some {| pro_instanceName := in_name i;
                         pro_project := label (in_labels i) ProjectLabel;
                         pro_displayName := in_displayName i |};
        w_sshConfigPath := "" |}
  end.

Definition listProWorkspacesForProvider (provider : string) : string + list Workspace :=
  match rm_instances rm provider with
  | inl e => inl e
  | inr instances => inr (omap (instance_workspace provider) instances)
  end.

(** The results by provider; the goroutines write to different keys. *)
Fixpoint list_pro (l : list (string * option Config.ProviderConfig))
    : M home (gmap string (string + list Workspace)) :=
  match l with
  | [] => mret ∅
  | (provider, st) :: l' =>
      st ← liftR (deref st);
      if negb (pc_initialized st) then list_pro l'
      else
        r ← caught (LoadProviderConfig o context provider);
        match r with
        | Ok p =>
            results ← list_pro l';
            mret (if IsProxyProvider p || IsDaemonProvider p
                  then <[provider := listProWorkspacesForProvider provider]> results else results)
        | Err _ => list_pro l'
        | Panic => liftR Panic
        | NoFuel => liftR NoFuel
        end
  end.
Definition listProWorkspaces : M home (gmap string (string + list Workspace)) :=
  ctx ← liftR (current_context devPodConfig);
  list_pro (s_iter s (gm_elems (cc_providers ctx))).

Definition shouldDeleteLocalWorkspace (localWorkspace : Workspace)
    (proWorkspaceResults : gmap string (string + list Workspace)) : bool :=
  match proWorkspaceResults !! wpr_name (w_provider localWorkspace) with
  | None | Some (inl _) => false
  | Some (inr workspaces) =>
      if w_imported localWorkspace && rm_exists rm localWorkspace then false
      else negb (existsb (λ w, bool_decide (w_uid localWorkspace = w_uid w)) workspaces)
  end.

(** The loop that drops local workspaces whose instance is gone; [all] is
    the whole list, which is appended for every workspace that stays. *)
Fixpoint clean_local (results : gmap string (string + list Workspace)) (all : list Workspace)
    (l : list Workspace) : M home (list Workspace) :=
  match l with
  | [] => mret []
  | w :: l' =>
      if IsPro w && shouldDeleteLocalWorkspace w results then
        _ ← try_ (DeleteWorkspaceFolder o context (w_id w) "");
        clean_local results all l'
      else
        rest ← clean_local results all l';
        mret (all ++ rest)
  end.

Definition by_uid (l : list Workspace) : gmap string Workspace :=
  foldl (λ m w, <[w_uid w := w]> m) ∅ l.
(** A pro workspace replaces the local one of the same uid and keeps its IDE. *)
Definition merge_pro (m : gmap string Workspace) (w : Workspace) : gmap string Workspace :=
  match m !! w_uid w with
  | Some l => <[w_uid w := with_ide (w_ide l) w]> m
  | None => <[w_uid w := w]> m
  end.

Definition List (skipPro : bool) : M home (list Workspace) :=
  localWorkspaces ← ListLocalWorkspaces skipPro;
  '(localWorkspaces, proWorkspaces) ←
    (if skipPro then mret (localWorkspaces, [])
     else
       results ← listProWorkspaces;
       let pro := concat ((λ r, match r.2 with inr l => l | inl _ => [] end) <$> s_iter s results) in
       cleaned ← clean_local results localWorkspaces localWorkspaces;
       mret (cleaned, pro));
  mret ((s_iter s (foldl merge_pro (by_uid localWorkspaces) proWorkspaces)).*2).

(** ** workspace.go: finding *)

Definition ensureWorkspaceID (args : list string) (workspaceID : string) : string :=
  if sempty workspaceID then
    match args with
    | [] => ""
    | a :: _ => WorkspaceID.ToID (rm_isLocalDir rm a).2
    end
  else workspaceID.

Definition findLocalWorkspace (args : list string) (workspaceID : string)
    : M home (option Workspace) :=
  let workspaceID := ensureWorkspaceID args workspaceID in
  if sempty workspaceID then mret None
  else
    r ← caught (ListLocalWorkspaces false);
    match r with
    | Ok all => mret (List.find (λ w, bool_decide (w_id w = workspaceID)) all)
    | Err _ => mret None
    | Panic => liftR Panic
    | NoFuel => liftR NoFuel
    end.

Definition findWorkspace (args : list string) (workspaceID : string)
    : M home (option Workspace) :=
  let workspaceID := ensureWorkspaceID args workspaceID in
  if sempty workspaceID then mret None
  else
    r ← caught (List false);
    match r with
    | Ok all =>
        match List.find (λ w, bool_decide (w_id w = workspaceID)) all with
        | None => mret None
        | Some w =>
            if IsPro w then
              let w := with_imported true w in
              r ← caught (saveWorkspaceConfig o w);
              match r with
              | Ok _ => mret (Some w)
              | Err _ => mret None
              | Panic => liftR Panic
              | NoFuel => liftR NoFuel
              end
            else mret (Some w)
        end
    | Err _ => mret None
    | Panic => liftR Panic
    | NoFuel => liftR NoFuel
    end.

Definition Exists (args : list string) (workspaceID : string) : M home string :=
  w ← findWorkspace args workspaceID;
  mret match w with Some w => w_id w | None => "" end.

Notation loaded := (Provider.ProviderConfig * Workspace * option Machine)%type.

Definition loadExistingWorkspace (workspaceID : string) (changeLastUsed : bool)
    : M home loaded :=
  workspaceConfig ← loadWorkspaceConfig o context workspaceID;
  provider ← FindProvider (wpr_name (w_provider workspaceConfig));
  let workspaceConfig := if changeLastUsed then with_lastUsedTimestamp (o_now o) workspaceConfig
                         else workspaceConfig in
  _ ← (if changeLastUsed then saveWorkspaceConfig o workspaceConfig else mret ());
  machineConfig ←
    (if sempty (wm_id (w_machine workspaceConfig)) then mret None
     else
       r ← caught (loadMachineConfig o (w_context workspaceConfig) (wm_id (w_machine workspaceConfig)));
       liftR match r with
             | Ok m => Ok (Some m)
             | Err e => Err ("load machine config: " +:+ e)
             | Panic => Panic
             | NoFuel => NoFuel
             end);
  mret (pwo_config provider, workspaceConfig, machineConfig).

(** [sort.SliceStable] by the last use, the latest first. *)
Fixpoint insert_by_use (w : Workspace) (l : list Workspace) : list Workspace :=
  match l with
  | [] => [w]
  | x :: l' =>
      if (w_lastUsedTimestamp x <? w_lastUsedTimestamp w)%Z then w :: l
      else x :: insert_by_use w l'
  end.
Definition sort_by_use (l : list Workspace) : list Workspace :=
  foldl (λ acc w, insert_by_use w acc) [] l.

Definition errProvideWorkspaceArg : string :=
  "please provide a workspace name. E.g. 'devpod up ./my-folder', 'devpod up github.com/my-org/my-repo' or 'devpod up ubuntu'".

Definition selectWorkspace (changeLastUsed : bool) (sshConfigPath : string) : M home loaded :=
  if negb (rm_isTerminal rm) then throw errProvideWorkspaceArg
  else
    r ← caught (List false);
    workspaces ← liftR match r with Err e => Err ("list workspaces: " +:+ e) | r => r end;
    let workspaces := sort_by_use workspaces in
    match workspaces with
    | [] => throw ("no workspace found" +:+ newline +:+ errProvideWorkspaceArg)
    | _ :: _ =>
        selected ← liftR (of_sum (rm_choose rm workspaces));
        match selected with
        | None => throw "no workspace selected"
        | Some selected =>
            match List.find (λ w, bool_decide (w_id w = w_id selected) && IsPro w) workspaces with
            | Some w =>
                let w := if sempty (w_sshConfigPath w) && negb (sempty sshConfigPath)
                         then with_sshConfigPath sshConfigPath w else w in
                let w := with_imported true w in
                _ ← saveWorkspaceConfig o w;
                p ← LoadProviderConfig o context (wpr_name (w_provider w));
                mret (p, w, None)
            | None => loadExistingWorkspace (w_id selected) changeLastUsed
            end
        end
    end.

(** ** workspace.go: creating *)

Definition new_workspace (provider workspaceID sshConfigPath uid : string) : Workspace := {|
  w_id := workspaceID; w_uid := uid; w_picture := "";
  w_provider := {| wpr_name := provider; wpr_options := None |};
  w_machine := {| wm_id := ""; wm_autoDelete := false |};
  w_ide := {| wi_name := ""; wi_options := None |};
  w_source := empty_source; w_devContainerImage := ""; w_devContainerPath := "";
  w_devContainerConfig := None; w_creationTimestamp := o_now o;
  w_lastUsedTimestamp := o_now o; w_context := context; w_imported := false;
  w_origin := ""; w_pro := None; w_sshConfigPath := sshConfigPath |}.

Definition git_source (repo pr branch commit subdir : string) : WorkspaceSource := {|
  ws_gitRepository := repo; ws_gitBranch := branch; ws_gitCommit := commit;
  ws_gitPRReference := pr; ws_gitSubPath := subdir; ws_localFolder := "";
  ws_image := ""; ws_container := "" |}.
Definition local_source (folder : string) : WorkspaceSource := {|
  ws_gitRepository := ""; ws_gitBranch := ""; ws_gitCommit := ""; ws_gitPRReference := "";
  ws_gitSubPath := ""; ws_localFolder := folder; ws_image := ""; ws_container := "" |}.
Definition image_source (image : string) : WorkspaceSource := {|
  ws_gitRepository := ""; ws_gitBranch := ""; ws_gitCommit := ""; ws_gitPRReference := "";
  ws_gitSubPath := ""; ws_localFolder := ""; ws_image := image; ws_container := "" |}.

Definition resolveWorkspaceConfig (defaultProvider : ProviderWithOptions) (name workspaceID : string)
    (source : option WorkspaceSource) (isLocalPath : bool) (sshConfigPath uid : string)
    : Workspace :=
  let uid := if sempty uid then Encoding.CreateNewUID (rm_sha rm) (rm_uuid rm) context workspaceID
             else uid in
  let workspace := new_workspace (p_name (pwo_config defaultProvider)) workspaceID sshConfigPath uid in
  match source with
  | Some src => with_source src workspace
  | None =>
      if isLocalPath then with_source (local_source name) workspace
      else
        let '(repo, pr, branch, commit, subdir) := NormalizeRepository name in
        if HasSuffix name ".git" || rm_ping rm repo then
          with_source (git_source repo pr branch commit subdir)
            (with_picture (rm_picture rm name) workspace)
        else if rm_image rm name then with_source (image_source name) workspace
        else with_source (git_source (if sempty repo then name else repo) pr branch commit subdir)
               workspace
  end.

Definition createMachine (ctx machineID providerName : string) : M home Machine :=
  machineDir ← liftR (GetMachineDir s ctx machineID);
  let machine := {|
    mc_id := machineID; mc_provider := {| mp_name := providerName; mp_options := None |};
    mc_creationTimestamp := o_now o; mc_context := ctx; mc_origin := machine_file machineDir |} in
  r ← caught (saveMachineConfig o machine);
  match r with
  | Ok _ => mret machine
  | Err e => _ ← try_ (RemoveAll o machineDir); throw e
  | Panic => liftR Panic
  | NoFuel => liftR NoFuel
  end.

Fixpoint load_machines (entries : list string) : M home (list Machine) :=
  match entries with
  | [] => mret []
  | entry :: entries' =>
      r ← caught (loadMachineConfig o context entry);
      match r with
      | Ok m => rest ← load_machines entries'; mret (m :: rest)
      | Err _ => load_machines entries'
      | Panic => liftR Panic
      | NoFuel => liftR NoFuel
      end
  end.
Definition listMachines : M home (list Machine) :=
  machineDir ← liftR (GetMachinesDir s context);
  entries ← ReadDir o machineDir;
  load_machines entries.

Definition SingleMachineName (provider : string) : M home string :=
  let legacyMachineName := "devpod-shared-" +:+ provider in
  r ← caught listMachines;
  let legacy := match r with
                | Ok l => existsb (λ m, bool_decide (mp_name (mc_provider m) = provider ∧
                                                     mc_id m = legacyMachineName)) l
                | _ => false
                end in
  match r with
  | Panic => liftR Panic
  | NoFuel => liftR NoFuel
  | _ =>
      mret (if legacy then legacyMachineName
            else Encoding.SafeConcatNameMax (rm_sha rm)
                   ["devpod-shared"; provider; rm_machineUID rm] Encoding.MachineUIDLength)
  end.

(** [if err != nil { DeleteMachineFolder(...); return err }] *)
Definition or_delete_machine {A} (machine : Machine) (c : M home A) : M home A :=
  r ← caught c;
  match r with
  | Ok a => mret a
  | Err e => _ ← try_ (DeleteMachineFolder o (mc_context machine) (mc_id machine)); throw e
  | Panic => liftR Panic
  | NoFuel => liftR NoFuel
  end.

(** A machine for a new workspace. *)
Definition create_machine (provider : Provider.ProviderConfig) (ctx machineID : string)
    (providerUserOptions : list string) : M home Machine :=
  machineConfig ← createMachine ctx machineID (p_name provider);
  _ ← or_delete_machine machineConfig
    (machineClient ← liftR (NewMachineClient provider (Some machineConfig));
     machineClient ← machine_RefreshOptions o devPodConfig machineClient providerUserOptions;
     machine_Create o devPodConfig machineClient);
  mret machineConfig.

Definition save_config (w : Workspace) : M home unit :=
  r ← caught (saveWorkspaceConfig o w);
  liftR (match r with Err e => Err ("save config: " +:+ e) | r => r end).
Definition load_machine (ctx machineID : string) : M home Machine :=
  r ← caught (loadMachineConfig o ctx machineID);
  liftR (match r with Err e => Err ("load machine config: " +:+ e) | r => r end).

Definition resolveProInstance (providerName : string) (workspace : Workspace) : M home unit :=
  provider ← FindProvider providerName;
  if IsProxyProvider (pwo_config provider) || IsDaemonProvider (pwo_config provider)
  then rm_createInstance rm workspace
  else
    _ ← liftR (NewWorkspaceClient (pwo_config provider) workspace None);
    throw "client does not support remote workspaces".

Definition createWorkspace (workspaceID name desiredMachine : string)
    (providerUserOptions : list string) (sshConfigPath : string)
    (source : option WorkspaceSource) (isLocalPath : bool) (uid : string) : M home loaded :=
  '(provider, _) ← LoadProviders;
  let p := pwo_config provider in
  match pwo_state provider with
  | None => throw ("provider '" +:+ p_name p +:+ "' is not initialized, please make sure to run 'devpod provider use " +:+ p_name p +:+ "' at least once before using this provider")
  | Some st =>
      if negb (pc_initialized st) then
        throw ("provider '" +:+ p_name p +:+ "' is not initialized, please make sure to run 'devpod provider use " +:+ p_name p +:+ "' at least once before using this provider")
      else
        let workspace := resolveWorkspaceConfig provider name workspaceID source isLocalPath
                           sshConfigPath uid in
        exists_ ← MachineExists o (w_context workspace) desiredMachine;
        workspace ← liftR
          (if sempty desiredMachine then Ok workspace
           else if negb (IsMachineProvider p) then
             Err ("provider " +:+ p_name p +:+ " cannot create servers and cannot be used")
           else if negb exists_ then
             Err ("server " +:+ desiredMachine +:+ " doesn't exist and cannot be used")
           else Ok (with_machine {| wm_id := desiredMachine; wm_autoDelete := false |} workspace));
        if IsMachineProvider p && sempty (wm_id (w_machine workspace)) then
          machine ← (if pc_singleMachine st
                     then id ← SingleMachineName (p_name p);
                          mret {| wm_id := id; wm_autoDelete := wm_autoDelete (w_machine workspace) |}
                     else mret {| wm_id := Encoding.CreateNewUIDShort (rm_sha rm) (rm_uuid rm)
                                             (w_id workspace);
                                  wm_autoDelete := true |});
          let workspace := with_machine machine workspace in
          _ ← save_config workspace;
          exists_ ← MachineExists o context (wm_id machine);
          machineConfig ←
            (if negb exists_
             then create_machine p (w_context workspace) (wm_id machine) providerUserOptions
             else load_machine (w_context workspace) (wm_id machine));
          mret (p, workspace, Some machineConfig)
        else if IsProxyProvider p || IsDaemonProvider p then
          _ ← save_config workspace;
          _ ← resolveProInstance (p_name p) workspace;
          workspace ← loadWorkspaceConfig o (w_context workspace) (w_id workspace);
          mret (p, workspace, None)
        else
          _ ← save_config workspace;
          machineConfig ←
            (if IsMachineProvider p && negb (sempty (wm_id (w_machine workspace)))
             then m ← load_machine (w_context workspace) (wm_id (w_machine workspace)); mret (Some m)
             else mret None);
          mret (p, workspace, machineConfig)
  end.

Definition resolveWorkspace (args : list string) (desiredID desiredMachine : string)
    (providerUserOptions : list string) (sshConfigPath : string)
    (source : option WorkspaceSource) (uid : string) (changeLastUsed : bool) : M home loaded :=
  match args with
  | [] =>
      if sempty desiredID then selectWorkspace changeLastUsed sshConfigPath
      else
        w ← findWorkspace [] desiredID;
        match w with
        | None => throw ("workspace " +:+ desiredID +:+ " doesn't exist")
        | Some w => loadExistingWorkspace (w_id w) changeLastUsed
        end
  | arg :: _ =>
      let '(isLocalPath, name) := rm_isLocalDir rm arg in
      let workspaceID := if sempty desiredID then WorkspaceID.ToID name else desiredID in
      existing ← Exists [] workspaceID;
      if negb (sempty existing) then loadExistingWorkspace workspaceID changeLastUsed
      else
        r ← caught (createWorkspace workspaceID name desiredMachine providerUserOptions
                      sshConfigPath source isLocalPath uid);
        match r with
        | Ok l => mret l
        | Err e => _ ← try_ (DeleteWorkspaceFolder o context workspaceID sshConfigPath); throw e
        | Panic => liftR Panic
        | NoFuel => liftR NoFuel
        end
  end.

(** ** Clients *)

Inductive BaseWorkspaceClient :=
| LocalClient (c : workspaceClient)
| RemoteClient (provider : Provider.ProviderConfig) (w : Workspace).

Definition getWorkspaceClient (provider : Provider.ProviderConfig) (workspace : Workspace)
    (machine : option Machine) : result BaseWorkspaceClient :=
  if IsProxyProvider provider || IsDaemonProvider provider
  then Ok (RemoteClient provider workspace)
  else LocalClient <$> NewWorkspaceClient provider workspace machine.

(** [WorkspaceConfig] and [Provider] of a client. *)
Definition client_workspace (c : BaseWorkspaceClient) : Workspace :=
  match c with LocalClient c => wc_workspace c | RemoteClient _ w => w end.
Definition client_provider (c : BaseWorkspaceClient) : string :=
  match c with LocalClient c => p_name (wc_config c) | RemoteClient p _ => p_name p end.

Definition Get (args : list string) (changeLastUsed localOnly : bool)
    : M home BaseWorkspaceClient :=
  '(provider, workspace, machine) ←
    match args with
    | [] => selectWorkspace changeLastUsed ""
    | a :: _ =>
        w ← (if localOnly then findLocalWorkspace args "" else findWorkspace args "");
        match w with
        | None => throw ("workspace " +:+ a +:+ " doesn't exist")
        | Some w => loadExistingWorkspace (w_id w) changeLastUsed
        end
    end;
  liftR (getWorkspaceClient provider workspace machine).

(** ** machine.go *)

Definition loadExistingMachine (machineID : string) : M home machineClient :=
  machineConfig ← loadMachineConfig o context machineID;
  provider ← FindProvider (mp_name (mc_provider machineConfig));
  liftR (NewMachineClient (pwo_config provider) (Some machineConfig)).

(** [GetMachine] with a name. *)
Definition GetMachine (name : string) : M home machineClient :=
  let machineID := WorkspaceID.ToID (rm_isLocalDir rm name).2 in
  exists_ ← MachineExists o context machineID;
  if negb exists_ then throw ("machine " +:+ machineID +:+ " doesn't exist")
  else loadExistingMachine machineID.

Definition resolveMachine (args : list string) : M home machineClient :=
  match args with
  | [] => throw "please specify the machine name"
  | a :: _ =>
      let machineID := WorkspaceID.ToID a in
      exists_ ← MachineExists o context machineID;
      if exists_ : bool then loadExistingMachine machineID
      else
        '(defaultProvider, _) ← LoadProviders;
        let p := pwo_config defaultProvider in
        machineObj ← createMachine context machineID (p_name p);
        r ← caught (liftR (NewMachineClient p (Some machineObj)));
        match r with
        | Ok c => mret c
        | Err e =>
            _ ← try_ (machineDir ← liftR (GetMachineDir s context machineID);
                      RemoveAll o machineDir);
            throw e
        | Panic => liftR Panic
        | NoFuel => liftR NoFuel
        end
  end.

Definition ResolveMachine (args userOptions : list string) : M home machineClient :=
  machineClient ← resolveMachine args;
  machine_RefreshOptions o devPodConfig machineClient userOptions.

(** ** delete.go *)

Context (compress : AgentWorkspaceInfo → string + string).

Definition client_Status (c : BaseWorkspaceClient) : M home Status :=
  match c with
  | LocalClient c => workspace_Status o devPodConfig compress c false
  | RemoteClient _ w => rm_status rm w
  end.
Definition client_Delete (c : BaseWorkspaceClient) (opt : DeleteOptions) : M home unit :=
  match c with
  | LocalClient c => Clients.Delete o devPodConfig compress c opt
  | RemoteClient _ w => rm_delete rm w opt
  end.

(** Another workspace that is on the machine. *)
Definition other_on_machine (id machineID : string) (w : Workspace) : bool :=
  negb (bool_decide (w_id w = id)) && bool_decide (wm_id (w_machine w) = machineID).

Definition deleteSingleMachine (client : BaseWorkspaceClient) (deleteOptions : DeleteOptions)
    : M home bool :=
  let w := client_workspace client in
  singleMachineName ← SingleMachineName (client_provider client);
  ctx ← liftR (current_context devPodConfig);
  if negb (IsSingleMachine ctx (client_provider client)) ||
     negb (bool_decide (wm_id (w_machine w) = singleMachineName))
  then mret false
  else
    r ← caught (List false);
    workspaces ← liftR (wrap "list workspaces" r);
    if existsb (other_on_machine (w_id w) singleMachineName) workspaces then mret false
    else
      r ← caught (GetMachine singleMachineName);
      machineClient ← liftR (wrap "get machine" r);
      r ← caught (machine_Delete o devPodConfig machineClient deleteOptions);
      _ ← liftR (wrap "delete machine" r);
      _ ← DeleteWorkspaceFolder o (w_context w) (w_id w) (w_sshConfigPath w);
      mret true.

Definition delete_loaded (client : BaseWorkspaceClient) (force : bool)
    (deleteOptions : DeleteOptions) : M home string :=
  let w := client_workspace client in
  if negb force && w_imported w then
    _ ← DeleteWorkspaceFolder o context (w_id w) (w_sshConfigPath w);
    mret (w_id w)
  else
    _ ← (if force then mret ()
         else
           _ ← liftR (if do_platformEnabled deleteOptions then Ok ()
                      else match rm_lock rm w with Some e => Err e | None => Ok () end);
           instanceStatus ← client_Status client;
           if decide (instanceStatus = StatusNotFound)
           then throw "cannot delete workspace because it couldn't be found. Run with --force to ignore this error"
           else mret ());
    wasDeleted ← deleteSingleMachine client deleteOptions;
    if wasDeleted : bool then mret (w_id w)
    else
      _ ← client_Delete client deleteOptions;
      mret (w_id w).

Definition Delete_workspace (args : list string) (ignoreNotFound force : bool)
    (deleteOptions : DeleteOptions) : M home string :=
  r ← caught (Get args false false);
  match r with
  | Ok client => delete_loaded client force deleteOptions
  | Err e =>
      match args with
      | [] => throw ("cannot delete workspace because there was an error loading the workspace: " +:+ e +:+ ". Please specify the id of the workspace you want to delete. E.g. 'devpod delete my-workspace --force'")
      | a :: _ =>
          workspaceID ← Exists args "";
          if sempty workspaceID then
            if ignoreNotFound then mret "" else throw ("couldn't find workspace " +:+ a)
          else if negb force then throw e
          else
            _ ← DeleteWorkspaceFolder o context workspaceID "";
            mret workspaceID
      end
  | Panic => liftR Panic
  | NoFuel => liftR NoFuel
  end.

(** ** workspace.go: Resolve *)

Context (AllowedIDEs : list AllowedIDE) (compile : string → string + (string → bool))
        (has_code : bool).

Definition save_workspace (w : Workspace) : M home unit :=
  r ← caught (saveWorkspaceConfig o w);
  liftR (match r with Err e => Err ("save workspace: " +:+ e) | r => r end).

(** [client.RefreshOptions]; the options of an instance are those of the
    proxy. *)
Definition client_RefreshOptions (c : BaseWorkspaceClient) (userOptions : list string)
    : M home BaseWorkspaceClient :=
  match c with
  | LocalClient c => c' ← RefreshOptions o devPodConfig c userOptions; mret (LocalClient c')
  | RemoteClient p w =>
      opts ← liftR (wrap "parse options" (ParseOptions userOptions));
      let dir := or_empty (GetWorkspaceDir s (w_context w) (w_id w)) in
      w' ← zoom h_workspaces set_workspaces
        (ResolveAndSaveOptionsProxy s (o_write o (workspace_file dir)) (o_world o) (o_fuel o)
           (o_GetBinaries o) devPodConfig p w opts);
      mret (RemoteClient p w')
  end.

Definition check_desired_id (desiredID : string) : result unit :=
  if sempty desiredID then Ok ()
  else if MatchString ProviderNameRegEx desiredID then
    Err "workspace name can only include smaller case letters, numbers or dashes"
  else if (48 <? String.length desiredID)%nat then
    Err "workspace name cannot be longer than 48 characters"
  else Ok ().

Definition Resolve_workspace (ide : string) (ideOptions args : list string)
    (desiredID desiredMachine : string) (providerUserOptions : list string)
    (devContainerImage devContainerPath sshConfigPath : string)
    (source : option WorkspaceSource) (uid : string) (changeLastUsed : bool)
    : M home BaseWorkspaceClient :=
  _ ← liftR (check_desired_id desiredID);
  '(provider, workspace, machine) ← resolveWorkspace args desiredID desiredMachine
     providerUserOptions sshConfigPath source uid changeLastUsed;
  workspace ← RefreshIDEOptions AllowedIDEs compile has_code o devPodConfig workspace ide ideOptions;
  workspace ←
    (if negb (sempty devContainerImage) &&
        negb (bool_decide (w_devContainerImage workspace = devContainerImage))
     then let workspace := with_devContainerImage devContainerImage workspace in
          _ ← save_workspace workspace; mret workspace
     else mret workspace);
  workspace ←
    (if negb (sempty devContainerPath) &&
        negb (bool_decide (w_devContainerPath workspace = devContainerPath))
     then let workspace := with_devContainerPath devContainerPath workspace in
          _ ← save_workspace workspace; mret workspace
     else mret workspace);
  _ ← (if sempty (ws_container (w_source workspace)) then mret () else save_workspace workspace);
  client ← liftR (getWorkspaceClient provider workspace machine);
  client_RefreshOptions client providerUserOptions.

(** ** provider.go: installing *)

Definition with_name_source (p : Provider.ProviderConfig) (name : string)
    (source : ProviderSource) : Provider.ProviderConfig := {|
  p_name := if sempty name then p_name p else name; p_version := p_version p;
  p_icon := p_icon p; p_iconDark := p_iconDark p; p_home := p_home p; p_source := source;
  p_description := p_description p; p_optionGroups := p_optionGroups p;
  p_options := p_options p; p_agent := p_agent p; p_exec := p_exec p;
  p_binaries := p_binaries p |}.

Definition provider_state (name : string) : result (option Config.ProviderConfig) :=
  ctx ← current_context devPodConfig;
  Ok (mjoin (gm_get (cc_providers ctx) name)).

Definition already_exists (name : string) : string :=
  "provider " +:+ name +:+ " already exists. Please run 'devpod provider delete " +:+ name +:+
  "' before adding the provider".

Definition installProvider (providerConfig : Provider.ProviderConfig) (providerName : string)
    (source : ProviderSource) : M home Provider.ProviderConfig :=
  let p := with_name_source providerConfig providerName source in
  st ← liftR (provider_state (p_name p));
  if bool_decide (is_Some st) then throw (already_exists (p_name p))
  else
    providerDir ← liftR (GetProviderDir s context (p_name p));
    h ← getS;
    if decide (providerDir ∈ h_dirs h) then throw (already_exists (p_name p))
    else
      binariesDir ← liftR (wrap "get binaries dir" (GetProviderBinariesDir s context (p_name p)));
      match rm_downloadBinaries rm p binariesDir with
      | Some e => _ ← try_ (RemoveAll o providerDir); throw ("download binaries: " +:+ e)
      | None => _ ← SaveProviderConfig o context p; mret p
      end.

(** [AddProviderRaw] with the parsed definition: the configuration after the
    call, which is also saved. *)
Definition AddProviderRaw (parsed : result Provider.ProviderConfig) (providerName : string)
    (providerSource : ProviderSource) : M home (Provider.ProviderConfig * Config) :=
  parsed ← liftR parsed;
  p ← installProvider parsed providerName providerSource;
  ctx ← liftR (current_context devPodConfig);
  let st := default {| pc_initialized := false; pc_singleMachine := false; pc_options := None;
                       pc_dynamicOptions := None; pc_creationTimestamp := o_now o |}
              (mjoin (gm_get (cc_providers ctx) (p_name p))) in
  let config := set_current devPodConfig (with_provider ctx (p_name p) st) in
  _ ← liftR (wrap "save config" (SaveConfig config));
  mret (p, config).

(** [updateProvider] with the parsed definition: options the new definition
    does not have are dropped from the configuration, which is saved before the
    binaries are downloaded. *)
Definition update_state (parsed : result Provider.ProviderConfig) (providerName : string)
    (source : ProviderSource) : result (Provider.ProviderConfig * Config) :=
  parsed ← parsed;
  let p := with_name_source parsed providerName source in
  ctx ← current_context devPodConfig;
  st ← deref (mjoin (gm_get (cc_providers ctx) (p_name p)));
  let st := {|
    pc_initialized := pc_initialized st; pc_singleMachine := pc_singleMachine st;
    pc_options :=
      match pc_options st with
      | Some m => Some (filter (λ kv : string * OptionValue, kv.1 ∈ (p_options p).*1) m)
      | None => None
      end;
    pc_dynamicOptions := pc_dynamicOptions st;
    pc_creationTimestamp := pc_creationTimestamp st |} in
  Ok (p, set_current devPodConfig (with_provider ctx (p_name p) st)).
Definition update_files (p : Provider.ProviderConfig) : M home unit :=
  binariesDir ← liftR (wrap "get binaries dir" (GetProviderBinariesDir s context (p_name p)));
  match rm_downloadBinaries rm p binariesDir with
  | Some e => _ ← try_ (RemoveAll o binariesDir); throw ("download binaries: " +:+ e)
  | None => SaveProviderConfig o context p
  end.
Definition updateProvider (parsed : result Provider.ProviderConfig) (providerName : string)
    (source : ProviderSource) : M home (Provider.ProviderConfig * Config) :=
  '(p, config) ← liftR (update_state parsed providerName source);
  _ ← liftR (SaveConfig config);
  _ ← update_files p;
  mret (p, config).

Definition CloneProvider (providerName providerSourceRaw : string) : M home ProviderWithOptions :=
  p ← FindProvider providerSourceRaw;
  c ← installProvider (pwo_config p) providerName (p_source (pwo_config p));
  mret {| pwo_config := c; pwo_state := pwo_state p |}.

Definition ResolveProviderSource (providerName : string) : M home string :=
  r ← caught (FindProvider providerName);
  p ← liftR (wrap "find provider" r);
  let src := p_source (pwo_config p) in
  if ps_internal src then
    mret (if sempty (ps_raw src) then p_name (pwo_config p) else ps_raw src)
  else if negb (sempty (ps_url src)) then mret (ps_url src)
  else if negb (sempty (ps_file src)) then mret (ps_file src)
  else if negb (sempty (ps_github src)) then mret (ps_github src)
  else throw ("provider " +:+ providerName +:+ " is missing a source. Please run `devpod provider update " +:+ providerName +:+ " SOURCE`").
End Workspaces.

(** [DownloadProviderGithub]: the address of a provider, and the path that is
    recorded as its source; [None] when the text has three parts or more. *)
Definition before_last (sep : ascii) (str : string) : option string :=
  rest ← after_last sep str;
  Some (stake (String.length str - String.length rest - 1) str).
Definition github_request (originalPath : string) : option (string * string) :=
  let path := TrimPrefix originalPath "github.com/" in
  let '(release, path) :=
    match after_last "@" path, before_last "@" path with
    | Some release, Some p => (release, p)
    | _, _ => ("", path)
    end in
  let path :=
    match Split "/" (TrimSuffix path "/") with
    | [_] => Some ("loft-sh/devpod-provider-" +:+ path)
    | [_; _] => Some path
    | _ => None
    end in
  path ← path;
  Some (if sempty release
        then "https://github.com/" +:+ path +:+ "/releases/latest/download/provider.yaml"
        else "https://github.com/" +:+ path +:+ "/releases/download/" +:+ release +:+ "/provider.yaml",
        path).
