(* ===== verification/Paths.v ===== *)
(** * Paths of the home directory

    The directories of workspaces, machines and providers are joined from the
    configuration directory and names.  For plain names the joined path is the
    list of its names, so that different names have different paths and a path
    is under a directory exactly when the names of the directory begin it.
    With them, the files of [Home.v] are looked up by context and name. *)

From S2P Require Import Prelude GoStrings Types Provider Options Home.
From stdpp Require Import base gmap sets list strings.

Local Open Scope string_scope.
Local Open Scope list_scope.

(** A name that [filepath.Clean] leaves alone. *)
Definition plain (n : string) : bool :=
  free "/" n && negb (bool_decide (n ∈ [""; "."; ".."])).
Notation plains l := (Forall (λ n, plain n = true) l).

(** The absolute path of a list of names. *)
Definition abs (l : list string) : string := "/" +:+ GoStrings.Join l "/".

Lemma plain_free n : plain n = true → free "/" n = true.
Proof. unfold plain. by intros [? _]%andb_prop. Qed.
Lemma plain_not n : plain n = true → n ≠ "" ∧ n ≠ "." ∧ n ≠ "..".
Proof.
  unfold plain. intros [_ H]%andb_prop. apply negb_true_iff, bool_decide_eq_false in H.
  set_solver.
Qed.

Lemma Split_Join_cons a ns :
  plains ns → Split "/" (GoStrings.Join (a :: ns) "/") = Split "/" a ++ ns.
Proof.
  intros Hns. rewrite <- (Join_Split "/" a) at 1.
  assert (∀ p, p ≠ [] → GoStrings.Join (GoStrings.Join p "/" :: ns) "/" =
                        GoStrings.Join (p ++ ns) "/") as ->.
  { intros p Hp. induction p as [|x p IH]; [done|]. destruct p as [|y p].
    - by destruct ns.
    - specialize (IH ltac:(done)). destruct ns as [|n ns]; [by rewrite app_nil_r|].
      rewrite Join_cons2 in IH |- *. cbn [app] in *. rewrite !Join_cons2, !sapp_assoc.
      by rewrite IH. }
  - apply Split_Join.
    + intros []%app_eq_nil. by apply (Split_nonempty "/" a).
    + intros p [Hp|Hp]%elem_of_app; [by eapply Split_parts_free|].
      apply plain_free. by eapply Forall_forall in Hns.
  - apply Split_nonempty.
Qed.

Lemma clean_parts_plain rooted stack ps :
  plains ps → clean_parts rooted stack ps = reverse stack ++ ps.
Proof.
  intros Hps. revert stack. induction Hps as [|p ps Hp Hps IH]; intros stack; cbn [clean_parts].
  - by rewrite app_nil_r.
  - apply plain_not in Hp as (? & ? & ?). rewrite !decide_False by naive_solver.
    rewrite IH, reverse_cons, <- app_assoc. done.
Qed.

Lemma Split_abs l : plains l → l ≠ [] → Split "/" (abs l) = "" :: l.
Proof.
  intros Hl Hne. unfold abs. cbn [String.append Split]. rewrite decide_True by done.
  f_equal. apply Split_Join; [done|]. intros p Hp. apply plain_free.
  by eapply Forall_forall in Hl.
Qed.

(** Joining plain names to an absolute path appends them. *)
Lemma Join_abs l ns :
  plains l → plains ns → filepath_Join (abs l :: ns) = abs (l ++ ns).
Proof.
  intros Hl Hns. cbn [filepath_Join]. change (sempty (abs l)) with false. cbv iota.
  unfold filepath_Clean.
  assert (HasPrefix (GoStrings.Join (abs l :: ns) "/") "/" = true) as ->
    by (apply HasPrefix_spec; destruct ns; eexists; reflexivity).
  rewrite Split_Join_cons by done. unfold abs at 2. do 2 f_equal.
  destruct l as [|x l].
  - change (Split "/" (abs [])) with [""; ""]. cbn [app clean_parts].
    rewrite !decide_True by auto. by rewrite clean_parts_plain.
  - rewrite Split_abs by done. transitivity (clean_parts true [] ((x :: l) ++ ns)); [done|].
    rewrite clean_parts_plain; [done|]. by apply Forall_app.
Qed.

(** Different names have different paths. *)
Lemma abs_inj l l' : plains l → plains l' → abs l = abs l' → l = l'.
Proof.
  intros Hl Hl' He. destruct l as [|x l], l' as [|y l'].
  - done.
  - apply (f_equal (Split "/")) in He. rewrite (Split_abs (y :: l')) in He by done. cbn in He.
    injection He as <- <-. by apply Forall_cons in Hl' as [(? & ? & ?)%plain_not _].
  - apply (f_equal (Split "/")) in He. rewrite (Split_abs (x :: l)) in He by done. cbn in He.
    injection He as -> ->. by apply Forall_cons in Hl as [(? & ? & ?)%plain_not _].
  - apply (f_equal (Split "/")) in He. rewrite !Split_abs in He by done. congruence.
Qed.

Lemma Split_app_sep sep a b :
  Split sep (a +:+ String sep b) = Split sep a ++ Split sep b.
Proof.
  induction a as [|c a IH]; cbn; [by rewrite decide_True|].
  case_decide; [by rewrite IH|]. rewrite IH.
  destruct (Split sep a) as [|q qs] eqn:Hq; [by apply Split_nonempty in Hq|done].
Qed.

Lemma abs_app l ns :
  l ≠ [] → ns ≠ [] → abs (l ++ ns) = abs l +:+ "/" +:+ GoStrings.Join ns "/".
Proof.
  intros Hl Hns. unfold abs. rewrite !sapp_assoc. f_equal.
  induction l as [|x l IH]; [done|]. destruct l as [|y l].
  - by destruct ns.
  - cbn [app]. rewrite !Join_cons2, !sapp_assoc. do 2 f_equal. by apply IH.
Qed.

(** A path is under a directory when the names of the directory begin it. *)
Lemma under_abs l l' :
  plains l → plains l' → l ≠ [] →
  under (abs l) (abs l') = true ↔ ∃ ns, ns ≠ [] ∧ l' = l ++ ns.
Proof.
  intros Hl Hl' Hne. unfold under. rewrite HasPrefix_spec. split.
  - intros [r Hr]. rewrite sapp_assoc in Hr. apply (f_equal (Split "/")) in Hr.
    cbn [String.append] in Hr. rewrite Split_app_sep, (Split_abs l) in Hr by done.
    destruct l' as [|y l'].
    { cbn in Hr. injection Hr as Hr. destruct l as [|x l]; [done|]. injection Hr as <- Hr.
      by apply Forall_cons in Hl as [(? & ? & ?)%plain_not _]. }
    rewrite Split_abs in Hr by done. injection Hr as Hr.
    exists (Split "/" r). split; [apply Split_nonempty|done].
  - intros (ns & Hns & ->). exists (GoStrings.Join ns "/").
    by rewrite abs_app, sapp_assoc.
Qed.

(** The entries of a directory are the paths one name longer. *)
Lemma entry_name_abs l l' n :
  plains l → plains l' → l ≠ [] →
  entry_name (abs l) (abs l') = Some n ↔ l' = l ++ [n].
Proof.
  intros Hl Hl' Hne. unfold entry_name. destruct (under _ _) eqn:Hu.
  - apply under_abs in Hu as (ns & Hns & ->); [|done..].
    apply Forall_app in Hl' as [_ Hp].
    rewrite abs_app by done. unfold TrimPrefix.
    rewrite (proj2 (HasPrefix_spec _ _)) by (eexists; by rewrite sapp_assoc).
    rewrite <- sapp_assoc, sdrop_app.
    destruct ns as [|m [|m' ns]]; [done| |].
    + apply Forall_cons in Hp as [Hm _]. cbn [GoStrings.Join String.concat].
      rewrite (plain_free m) by done. unfold sempty.
      rewrite bool_decide_eq_false_2 by (by apply plain_not in Hm as [? _]). cbn.
      split; [by intros [= ->]|by intros [= ->]%app_inv_head].
    + rewrite Join_cons2. unfold free. rewrite !sforall_app. cbn.
      rewrite andb_false_r. cbn. split; [done|by intros ?%app_inv_head].
  - split; [done|]. intros ->. assert (under (abs l) (abs (l ++ [n])) = true); [|congruence].
    apply under_abs; [done..|]. by exists [n].
Qed.

(** ** Looking a workspace or a machine up *)

Section Places.
Context (root : list string).

(** The directory of a workspace, a machine or a provider of a context. *)
Definition place (kind ctx id : string) : list string := root ++ ["contexts"; ctx; kind; id].

Context (s : sys) (Hdir : s_configDir s = inr (abs root)) (Hroot : plains root).

Lemma plains_place kind ctx id ns :
  plain kind = true → plain ctx = true → plain id = true → plains ns →
  plains (place kind ctx id ++ ns).
Proof.
  intros ????. unfold place. rewrite !Forall_app. split_and!; [done|by repeat constructor|done].
Qed.

Lemma place_inj kind ctx id kind' ctx' id' ns ns' :
  place kind ctx id ++ ns = place kind' ctx' id' ++ ns' →
  kind = kind' ∧ ctx = ctx' ∧ id = id' ∧ ns = ns'.
Proof. unfold place. rewrite <- !app_assoc. intros [= -> -> -> ->]%app_inv_head. done. Qed.

Lemma abs_place_inj kind ctx id ns kind' ctx' id' ns' :
  plain kind = true → plain ctx = true → plain id = true → plains ns →
  plain kind' = true → plain ctx' = true → plain id' = true → plains ns' →
  abs (place kind ctx id ++ ns) = abs (place kind' ctx' id' ++ ns') →
  kind = kind' ∧ ctx = ctx' ∧ id = id' ∧ ns = ns'.
Proof.
  intros ????????. intros ?%abs_inj; [by eapply place_inj|by apply plains_place..].
Qed.

(** A path of one place is under another place only if the places agree. *)
Lemma under_place kind ctx id kind' ctx' id' ns :
  plain kind = true → plain ctx = true → plain id = true →
  plain kind' = true → plain ctx' = true → plain id' = true → plains ns →
  under (abs (place kind ctx id)) (abs (place kind' ctx' id' ++ ns)) = true ↔
  kind = kind' ∧ ctx = ctx' ∧ id = id' ∧ ns ≠ [].
Proof.
  intros. rewrite under_abs.
  - split.
    + intros (ns' & ? & Heq). symmetry in Heq. apply place_inj in Heq. naive_solver.
    + intros (<- & <- & <- & ?). eauto.
  - rewrite <- (app_nil_r (place _ _ _)). by apply plains_place.
  - by apply plains_place.
  - unfold place. by intros [_ ?]%app_eq_nil.
Qed.

Lemma context_dir_abs ctx ns :
  plain ctx = true → plains ns →
  context_dir s ctx ns = Ok (abs (root ++ "contexts" :: ctx :: ns)).
Proof.
  intros Hctx Hns. unfold context_dir. rewrite Hdir. cbn [of_sum mbind result_bind app].
  rewrite Join_abs; [done..|]. by repeat constructor.
Qed.

Lemma GetWorkspaceDir_abs ctx id :
  plain ctx = true → plain id = true →
  GetWorkspaceDir s ctx id = Ok (abs (place "workspaces" ctx id)).
Proof.
  intros Hctx Hid. unfold GetWorkspaceDir, sempty.
  rewrite bool_decide_eq_false_2 by (by apply plain_not in Hid as (? & _)).
  rewrite context_dir_abs; [done..|]. by repeat constructor.
Qed.
Lemma GetMachineDir_abs ctx id :
  plain ctx = true → plain id = true →
  GetMachineDir s ctx id = Ok (abs (place "machines" ctx id)).
Proof.
  intros Hctx Hid. unfold GetMachineDir, sempty.
  rewrite bool_decide_eq_false_2 by (by apply plain_not in Hid as (? & _)).
  rewrite context_dir_abs; [done..|]. by repeat constructor.
Qed.
End Places.
