(* ===== verification/Registry.v ===== *)
(** * The registry of workspaces and machines

    What the home directory promises to the code that uses it: a map from a
    context and a name to a workspace, and one to a machine, with no paths,
    directories or file contents in it.  [run_op] performs an operation of
    pkg/provider/dir.go, clientimplementation and pkg/workspace/list.go on the
    home directory of Home.v, [spec_op] on the registry; the two agree. *)

From S2P Require Import Prelude GoStrings Types Config Provider Options SshConfig.
From S2P Require Import Home Clients Workspaces Paths.
From stdpp Require Import base gmap sets list strings sorting.

Local Open Scope string_scope.
Local Open Scope list_scope.

(** ** Entries of one kind *)

Lemma lookup_keep_outside {V} dir (m : store V) p :
  keep_outside dir m !! p = if under dir p then None else m !! p.
Proof.
  unfold keep_outside. destruct (under dir p) eqn:E.
  - apply map_lookup_filter_None_2. right. intros ? _. cbn [fst]. congruence.
  - destruct (m !! p) eqn:Hp.
    + by apply map_lookup_filter_Some_2.
    + apply map_lookup_filter_None_2. by left.
Qed.

Section Shelf.
Context (root : list string) (Hroot : plains root).
Context {V : Type} (kind file : string) (Hkind : plain kind = true) (Hfile : plain file = true).
Notation pl k := (plain k.1 = true ∧ plain k.2 = true) (only parsing).

Record shelf (dirs : gset string) (m : store V) (r : gmap (string * string) V) : Prop := Shelf {
  shelf_files ctx id : plain ctx = true → plain id = true →
    m !! abs (place root kind ctx id ++ [file]) = r !! (ctx, id);
  shelf_dirs ctx id : plain ctx = true → plain id = true →
    abs (place root kind ctx id) ∈ dirs ↔ is_Some (r !! (ctx, id));
  shelf_keys k : is_Some (r !! k) → pl k;
}.

Lemma shelf_save dirs m r ctx id v :
  plain ctx = true → plain id = true → shelf dirs m r →
  shelf ({[ abs (place root kind ctx id) ]} ∪ dirs)
    (<[abs (place root kind ctx id ++ [file]) := v]> m) (<[(ctx, id) := v]> r).
Proof.
  intros Hc Hi [Hf Hd Hk]. split.
  - intros ctx' id' ??. destruct (decide ((ctx, id) = (ctx', id'))) as [[= <- <-]|Hne].
    + by rewrite !lookup_insert_eq.
    + rewrite !lookup_insert_ne; [by apply Hf|done|].
      intros He. apply Hne. apply (abs_place_inj root Hroot) in He; [naive_solver|done..| | | | |];
        by repeat constructor.
  - intros ctx' id' ??. rewrite elem_of_union, elem_of_singleton, Hd, lookup_insert_is_Some by done.
    destruct (decide ((ctx, id) = (ctx', id'))) as [[= <- <-]|Hne]; [naive_solver|].
    split; [|naive_solver]. intros [He|?]; [|naive_solver]. exfalso. apply Hne.
    rewrite <- (app_nil_r (place root kind ctx' id')), <- (app_nil_r (place root kind ctx id)) in He.
    apply (abs_place_inj root Hroot) in He; [naive_solver|done..].
  - intros k [<-|[? ?]]%lookup_insert_is_Some; [done|by apply Hk].
Qed.

(** A directory of another kind is of no concern. *)
Lemma shelf_other_dir kind' dirs m r ctx id :
  kind ≠ kind' → plain kind' = true → plain ctx = true → plain id = true → shelf dirs m r →
  shelf ({[ abs (place root kind' ctx id) ]} ∪ dirs) m r.
Proof.
  intros Hne Hk' Hc Hi [Hf Hd Hk]. split; [done| |done].
  intros ctx' id' ??. rewrite elem_of_union, elem_of_singleton, <- Hd by done.
  split; [|by right]. intros [He|?]; [|done]. exfalso. apply Hne.
  rewrite <- (app_nil_r (place root kind' ctx id)), <- (app_nil_r (place root kind ctx' id')) in He.
  apply (abs_place_inj root Hroot) in He; [naive_solver|done..].
Qed.

(** Removing the directory of an entry removes the entry and nothing else. *)
Lemma shelf_remove kind' dirs m r ctx id :
  plain kind' = true → plain ctx = true → plain id = true → shelf dirs m r →
  shelf (filter (λ d, d ≠ abs (place root kind' ctx id) ∧
                      under (abs (place root kind' ctx id)) d = false) dirs)
    (keep_outside (abs (place root kind' ctx id)) m)
    (if decide (kind' = kind) then delete (ctx, id) r else r).
Proof.
  intros Hk' Hc Hi [Hf Hd Hk].
  assert (Hu : ∀ ctx' id' ns, plain ctx' = true → plain id' = true → plains ns →
    under (abs (place root kind' ctx id)) (abs (place root kind ctx' id' ++ ns)) = true ↔
    kind' = kind ∧ ctx = ctx' ∧ id = id' ∧ ns ≠ []) by (intros; by apply under_place).
  split.
  - intros ctx' id' Hc' Hi'. specialize (Hu ctx' id' [file] Hc' Hi' ltac:(by repeat constructor)).
    rewrite lookup_keep_outside, (Hf _ _ Hc' Hi').
    destruct (under _ _).
    + destruct Hu as [(-> & <- & <- & _) _]; [done|]. rewrite decide_True by done.
      by rewrite lookup_delete_eq.
    + case_decide; [|done]. rewrite lookup_delete_ne; [done|]. intros [= <- <-].
      destruct Hu as [_ Hu]. by discriminate (Hu ltac:(done)).
  - intros ctx' id' Hc' Hi'. specialize (Hu ctx' id' [] Hc' Hi' ltac:(constructor)).
    rewrite app_nil_r in Hu. rewrite elem_of_filter, Hd by done.
    assert (abs (place root kind ctx' id') = abs (place root kind' ctx id) ↔
            kind' = kind ∧ ctx = ctx' ∧ id = id') as He.
    { split; [|by intros (-> & -> & ->)]. intros He.
      rewrite <- (app_nil_r (place root kind ctx' id')), <- (app_nil_r (place root kind' ctx id)) in He.
      apply (abs_place_inj root Hroot) in He; [naive_solver|done..]. }
    rewrite He. destruct (under _ _) eqn:E.
    { by destruct Hu as [(_ & _ & _ & []) _]. }
    clear Hu He E Hf Hd Hk. case_decide.
    + rewrite lookup_delete_is_Some. naive_solver.
    + naive_solver.
  - intros k Hs. apply Hk. case_decide; [|done]. by apply lookup_delete_is_Some in Hs as [_ ?].
Qed.
End Shelf.

(** ** The registry *)

Record registry := Registry {
  r_workspaces : gmap (string * string) Workspace;
  r_machines : gmap (string * string) Machine;
}.

(** What is seen of a loaded entry, less the path of its file. *)
Definition forget_origin (w : Workspace) : Workspace :=
  with_workspace_place w (w_ide w) (w_context w) "".
Definition forget_machine_origin (m : Machine) : Machine := {|
  mc_id := mc_id m; mc_provider := mc_provider m;
  mc_creationTimestamp := mc_creationTimestamp m; mc_context := mc_context m;
  mc_origin := "" |}.

Inductive op :=
| OpSave (w : Workspace)
| OpLoad (ctx id : string)
| OpExists (ctx id : string)
| OpDelete (ctx id sshConfigPath : string)
| OpList (skipPro : bool)
| OpSaveMachine (m : Machine)
| OpLoadMachine (ctx id : string)
| OpMachineExists (ctx id : string)
| OpDeleteMachine (ctx id : string).

Inductive answer :=
| Done
| AWorkspace (w : Workspace)
| AMachine (m : Machine)
| AWorkspaces (l : list Workspace)
| ABool (b : bool).

(** What a caller sees of a call, less the text of an error. *)
Inductive outcome := Returned (a : answer) | Failed | Crashed.
Definition observe (r : result answer) : outcome :=
  match r with Ok a => Returned a | Err _ => Failed | Panic | NoFuel => Crashed end.

Definition plain_op (x : op) : bool :=
  match x with
  | OpSave w => plain (w_context w) && plain (w_id w)
  | OpSaveMachine m => plain (mc_context m) && plain (mc_id m)
  | OpLoad ctx id | OpExists ctx id | OpDelete ctx id _ | OpLoadMachine ctx id
  | OpMachineExists ctx id | OpDeleteMachine ctx id => plain ctx && plain id
  | OpList _ => true
  end.

(** The names of a context in the order of a directory listing. *)
Definition names_in {V} (ctx : string) (r : gmap (string * string) V) : list string :=
  merge_sort String.le
    (omap (λ kv, if decide (kv.1.1 = ctx) then Some kv.1.2 else None) (map_to_list r)).

Definition at_context (ctx : string) (w : Workspace) : Workspace :=
  with_workspace_place w (w_ide w) ctx "".
Definition machine_at_context (ctx : string) (m : Machine) : Machine := {|
  mc_id := mc_id m; mc_provider := mc_provider m;
  mc_creationTimestamp := mc_creationTimestamp m; mc_context := ctx; mc_origin := "" |}.

(** A workspace of a listing: hidden names are skipped. *)
Definition listed (ctx : string) (skipPro : bool) (r : gmap (string * string) Workspace)
    (id : string) : option Workspace :=
  if HasPrefix id "." then None
  else w ← r !! (ctx, id);
       if skipPro && IsPro w then None else Some (at_context ctx w).

Definition spec_op (context : string) (x : op) (r : registry) : outcome * registry :=
  match x with
  | OpSave w =>
      (Returned Done, Registry (<[(w_context w, w_id w) := encode_workspace w]> (r_workspaces r))
                               (r_machines r))
  | OpLoad ctx id =>
      (match r_workspaces r !! (ctx, id) with
       | Some w => Returned (AWorkspace (at_context ctx w)) | None => Failed end, r)
  | OpExists ctx id => (Returned (ABool (bool_decide (is_Some (r_workspaces r !! (ctx, id))))), r)
  | OpDelete ctx id _ =>
      (Returned Done, Registry (delete (ctx, id) (r_workspaces r)) (r_machines r))
  | OpList skipPro =>
      (Returned (AWorkspaces (omap (listed context skipPro (r_workspaces r))
                                   (names_in context (r_workspaces r)))), r)
  | OpSaveMachine m =>
      (Returned Done, Registry (r_workspaces r)
                               (<[(mc_context m, mc_id m) := encode_machine m]> (r_machines r)))
  | OpLoadMachine ctx id =>
      (match r_machines r !! (ctx, id) with
       | Some m => Returned (AMachine (machine_at_context ctx m)) | None => Failed end, r)
  | OpMachineExists ctx id =>
      (Returned (ABool (bool_decide (is_Some (r_machines r !! (ctx, id))))), r)
  | OpDeleteMachine ctx id =>
      (Returned Done, Registry (r_workspaces r) (delete (ctx, id) (r_machines r)))
  end.

Section Refinement.
Context (o : osys) (devPodConfig : Config).

Definition run_op (x : op) : M home answer :=
  match x with
  | OpSave w => _ ← saveWorkspaceConfig o w; mret Done
  | OpLoad ctx id => w ← loadWorkspaceConfig o ctx id; mret (AWorkspace (forget_origin w))
  | OpExists ctx id => b ← WorkspaceExists o ctx id; mret (ABool b)
  | OpDelete ctx id ssh => _ ← DeleteWorkspaceFolder o ctx id ssh; mret Done
  | OpList skipPro =>
      l ← ListLocalWorkspaces o devPodConfig skipPro; mret (AWorkspaces (forget_origin <$> l))
  | OpSaveMachine m => _ ← saveMachineConfig o m; mret Done
  | OpLoadMachine ctx id =>
      m ← loadMachineConfig o ctx id; mret (AMachine (forget_machine_origin m))
  | OpMachineExists ctx id => b ← MachineExists o ctx id; mret (ABool b)
  | OpDeleteMachine ctx id => _ ← DeleteMachineFolder o ctx id; mret Done
  end.

Fixpoint run_ops (l : list op) (h : home) : list outcome * home :=
  match l with
  | [] => ([], h)
  | x :: l' => let '(a, h') := run_op x h in
               let '(as_, h'') := run_ops l' h' in (observe a :: as_, h'')
  end.
Fixpoint spec_ops (l : list op) (r : registry) : list outcome * registry :=
  match l with
  | [] => ([], r)
  | x :: l' => let '(a, r') := spec_op (c_defaultContext devPodConfig) x r in
               let '(as_, r'') := spec_ops l' r' in (a :: as_, r'')
  end.
End Refinement.
