(* ===== verification/RegistryProps.v ===== *)
(** * The home directory implements the registry *)

From S2P Require Import Prelude GoStrings Types Config Provider Options SshConfig.
From S2P Require Import Home Clients Workspaces Paths Registry.
From S2P Require ResolverProps OptionsProps.
From stdpp Require Import base gmap sets list strings sorting.

Local Open Scope string_scope.
Local Open Scope list_scope.

(** An operating system that fails no call, with an absolute configuration
    directory. *)
Class Healthy (o : osys) (root : list string) : Prop := {
  healthy_config : s_configDir (o_sys o) = inr (abs root);
  healthy_root : plains root;
  healthy_write p : o_write o p = None;
  healthy_remove p : o_remove o p = None;
  healthy_readDir p : o_readDir o p = None;
  healthy_home : is_ok (of_sum (o_userHome o)) = true;
  healthy_Abs p : is_ok (of_sum (o_Abs o p)) = true;
}.

Section Refines.
Context (root : list string) (o : osys) `{!Healthy o root}.
Notation s := (o_sys o).
Notation wfile := "workspace.json".
Notation mfile := "machine.json".

Record refines (h : home) (r : registry) : Prop := Refines {
  ref_clean d : d ∈ h_dirs h → ∃ l, plains l ∧ d = abs l;
  ref_workspaces : shelf root "workspaces" wfile (h_dirs h) (h_workspaces h) (r_workspaces r);
  ref_machines : shelf root "machines" mfile (h_dirs h) (h_machines h) (r_machines r);
  ref_wid ctx id w : r_workspaces r !! (ctx, id) = Some w →
    w_context w = ctx ∧ w_id w = id ∧ encode_workspace w = w;
  ref_mid ctx id m : r_machines r !! (ctx, id) = Some m → mc_context m = ctx ∧ mc_id m = id;
}.

(** The empty home directory is the empty registry. *)
Definition empty_home : home := Home ∅ ∅ ∅ ∅ ∅ [].
Lemma refines_empty : refines empty_home (Registry ∅ ∅).
Proof.
  split; [set_solver| | |done|done]; (split; [done| |by intros k []]); intros; cbn;
    rewrite lookup_empty; split; [set_solver|by intros []|set_solver|by intros []].
Qed.

Lemma workspace_dir ctx id : plain ctx = true → plain id = true →
  GetWorkspaceDir s ctx id = Ok (abs (place root "workspaces" ctx id)).
Proof. apply GetWorkspaceDir_abs; [apply healthy_config|apply healthy_root]. Qed.
Lemma machine_dir ctx id : plain ctx = true → plain id = true →
  GetMachineDir s ctx id = Ok (abs (place root "machines" ctx id)).
Proof. apply GetMachineDir_abs; [apply healthy_config|apply healthy_root]. Qed.

Lemma join_file kind ctx id file :
  plain kind = true → plain ctx = true → plain id = true → plain file = true →
  filepath_Join [abs (place root kind ctx id); file] = abs (place root kind ctx id ++ [file]).
Proof.
  intros. apply Join_abs; [|by repeat constructor].
  rewrite <- (app_nil_r (place _ _ _ _)). by apply (plains_place root healthy_root).
Qed.

Lemma clean_dirs_add h kind ctx id d :
  plain kind = true → plain ctx = true → plain id = true →
  (∀ d, d ∈ h_dirs h → ∃ l, plains l ∧ d = abs l) →
  d ∈ {[ abs (place root kind ctx id) ]} ∪ h_dirs h → ∃ l, plains l ∧ d = abs l.
Proof.
  intros ??? Hc [->%elem_of_singleton|?]%elem_of_union; [|by apply Hc].
  exists (place root kind ctx id). split; [|done].
  rewrite <- (app_nil_r (place _ _ _ _)). by apply (plains_place root healthy_root).
Qed.

Lemma omit_empty_idemp {V} (m : gomap V) : omit_empty (omit_empty m) = omit_empty m.
Proof. unfold omit_empty. destruct m as [m|]; [|done]. by case_decide; [|rewrite decide_False]. Qed.
Lemma encode_workspace_idemp w : encode_workspace (encode_workspace w) = encode_workspace w.
Proof.
  unfold encode_workspace, with_workspace_place, with_workspace_options. cbn.
  by rewrite !omit_empty_idemp.
Qed.

(** What a save does to the state. *)
Lemma saveWorkspaceConfig_run w h :
  plain (w_context w) = true → plain (w_id w) = true →
  saveWorkspaceConfig o w h =
    (Ok (), set_workspaces
       (<[abs (place root "workspaces" (w_context w) (w_id w) ++ [wfile]) := encode_workspace w]>
          (h_workspaces h))
       (set_dirs ({[ abs (place root "workspaces" (w_context w) (w_id w)) ]} ∪ h_dirs h) h)).
Proof.
  intros Hc Hi. unfold saveWorkspaceConfig, MkdirAll, SaveWorkspaceConfig, write_file.
  rewrite workspace_dir by done. runM. rewrite !healthy_write. runM.
  unfold zoom. runM. by rewrite join_file.
Qed.
Lemma saveMachineConfig_run m h :
  plain (mc_context m) = true → plain (mc_id m) = true →
  saveMachineConfig o m h =
    (Ok (), set_machines
       (<[abs (place root "machines" (mc_context m) (mc_id m) ++ [mfile]) := encode_machine m]>
          (h_machines h))
       (set_dirs ({[ abs (place root "machines" (mc_context m) (mc_id m)) ]} ∪ h_dirs h) h)).
Proof.
  intros Hc Hi. unfold saveMachineConfig, MkdirAll, SaveMachineConfig, write_file.
  rewrite machine_dir by done. runM. rewrite !healthy_write. runM.
  unfold zoom. runM. by rewrite join_file.
Qed.

Lemma set_workspaces_same h : set_workspaces (h_workspaces h) h = h.
Proof. by destruct h. Qed.
Lemma set_machines_same h : set_machines (h_machines h) h = h.
Proof. by destruct h. Qed.

Lemma loadWorkspaceConfig_run ctx id h r :
  plain ctx = true → plain id = true → refines h r →
  loadWorkspaceConfig o ctx id h =
    (match r_workspaces r !! (ctx, id) with
     | Some w => Ok (with_workspace_place w (w_ide w) ctx
                       (abs (place root "workspaces" ctx id ++ [wfile])))
     | None => Err ("open " +:+ abs (place root "workspaces" ctx id ++ [wfile]) +:+
                    ": no such file or directory")
     end, h).
Proof.
  intros Hc Hi [_ Hw _ _ _]. unfold loadWorkspaceConfig, zoom, LoadWorkspaceConfig, read_file.
  rewrite workspace_dir by done. runM. rewrite join_file by done.
  unfold mbind, M_bind. rewrite (shelf_files _ _ _ _ _ _ Hw) by done.
  destruct (_ !! _); cbn; by rewrite set_workspaces_same.
Qed.
Lemma loadMachineConfig_run ctx id h r :
  plain ctx = true → plain id = true → refines h r →
  loadMachineConfig o ctx id h =
    (match r_machines r !! (ctx, id) with
     | Some m => Ok {| mc_id := mc_id m; mc_provider := mc_provider m;
                       mc_creationTimestamp := mc_creationTimestamp m; mc_context := ctx;
                       mc_origin := abs (place root "machines" ctx id ++ [mfile]) |}
     | None => Err ("open " +:+ abs (place root "machines" ctx id ++ [mfile]) +:+
                    ": no such file or directory")
     end, h).
Proof.
  intros Hc Hi [_ _ Hm _ _]. unfold loadMachineConfig, zoom, LoadMachineConfig, read_file.
  rewrite machine_dir by done. runM. rewrite join_file by done.
  unfold mbind, M_bind. rewrite (shelf_files _ _ _ _ _ _ Hm) by done.
  destruct (_ !! _); cbn; by rewrite set_machines_same.
Qed.

Lemma refines_save h r w :
  plain (w_context w) = true → plain (w_id w) = true → refines h r →
  refines (saveWorkspaceConfig o w h).2
    (Registry (<[(w_context w, w_id w) := encode_workspace w]> (r_workspaces r)) (r_machines r)).
Proof.
  intros Hc Hi [Hd Hw Hm Hwi Hmi]. rewrite saveWorkspaceConfig_run by done. split; cbn.
  - intros d. by apply clean_dirs_add.
  - by apply (shelf_save root healthy_root).
  - by apply (shelf_other_dir root healthy_root).
  - intros ctx id w' [[[= <- <-] <-]|[_ ?]]%lookup_insert_Some; [|by apply Hwi].
    split_and!; [done..|apply encode_workspace_idemp].
  - done.
Qed.
Lemma refines_save_machine h r m :
  plain (mc_context m) = true → plain (mc_id m) = true → refines h r →
  refines (saveMachineConfig o m h).2
    (Registry (r_workspaces r) (<[(mc_context m, mc_id m) := encode_machine m]> (r_machines r))).
Proof.
  intros Hc Hi [Hd Hw Hm Hwi Hmi]. rewrite saveMachineConfig_run by done. split; cbn.
  - intros d. by apply clean_dirs_add.
  - by apply (shelf_other_dir root healthy_root).
  - by apply (shelf_save root healthy_root).
  - done.
  - intros ctx id m' [[[= <- <-] <-]|[_ ?]]%lookup_insert_Some; [done|by apply Hmi].
Qed.

Lemma refines_remove kind h r ctx id :
  plain kind = true → plain ctx = true → plain id = true → refines h r →
  refines (remove_all (abs (place root kind ctx id)) h)
    (Registry (if decide (kind = "workspaces") then delete (ctx, id) (r_workspaces r)
               else r_workspaces r)
              (if decide (kind = "machines") then delete (ctx, id) (r_machines r)
               else r_machines r)).
Proof.
  intros Hk Hc Hi [Hd Hw Hm Hwi Hmi]. split; cbn.
  - intros d [_ ?]%elem_of_filter. by apply Hd.
  - by apply (shelf_remove root healthy_root).
  - by apply (shelf_remove root healthy_root).
  - intros ctx' id' w Hl. apply Hwi. case_decide; [|done]. by apply lookup_delete_Some in Hl as [_ ?].
  - intros ctx' id' m Hl. apply Hmi. case_decide; [|done]. by apply lookup_delete_Some in Hl as [_ ?].
Qed.

Lemma RemoveAll_run dir h : RemoveAll o dir h = (Ok (), remove_all dir h).
Proof. unfold RemoveAll. by rewrite healthy_remove. Qed.

Lemma ResolveSSHConfigPath_ok path : ∃ q, ResolveSSHConfigPath o path = Ok q.
Proof.
  unfold ResolveSSHConfigPath. pose proof healthy_home as Hh.
  destruct (o_userHome o) as [?|dir]; [done|]. cbn. destruct (sempty path); [by eexists|].
  match goal with |- context [o_Abs o ?p] => pose proof (healthy_Abs p); destruct (o_Abs o p) end;
    [done|by eexists].
Qed.

(** A change of the ssh config alone. *)
Definition same_files (h h' : home) : Prop :=
  h_dirs h = h_dirs h' ∧ h_workspaces h = h_workspaces h' ∧ h_machines h = h_machines h' ∧
  h_providers h = h_providers h'.
Lemma refines_same h h' r : same_files h h' → refines h r → refines h' r.
Proof.
  intros (Hd & Hw & Hm & _) [? ? ? ? ?]. by split; rewrite <- ?Hd, <- ?Hw, <- ?Hm.
Qed.

Lemma removeFromConfig_total f host :
  match removeFromConfig f host with Ok _ | Err _ => True | _ => False end.
Proof.
  unfold removeFromConfig, transformHostSection.
  destruct f as [|e|c]; [destruct (log_scan "") as [l []]|done|destruct (log_scan c) as [l []]];
    by destruct (transform_lines _ _ _ _ _ _).
Qed.
Lemma set_ssh_same path f h : same_files h (set_ssh_file path f h).
Proof. by destruct f. Qed.

Lemma remove_ssh_run path id h :
  ∃ h', try_ (zoom (ssh_file_at path) (set_ssh_file path)
                (RemoveFromConfig (o_write o path) id)) h = (Ok (), h') ∧ same_files h h'.
Proof.
  unfold try_, zoom, RemoveFromConfig, writeSSHConfig. rewrite healthy_write. runM.
  pose proof (removeFromConfig_total (ssh_file_at path h) (id +:+ ".devpod")) as Ht.
  unfold mbind, M_bind, liftR. destruct (removeFromConfig _ _); [| |done..]; cbn [wrap];
    eexists; (split; [reflexivity|apply set_ssh_same]).
Qed.

Lemma DeleteWorkspaceFolder_run ctx id ssh h r :
  plain ctx = true → plain id = true → refines h r →
  ∃ h', DeleteWorkspaceFolder o ctx id ssh h = (Ok (), h') ∧
    refines h' (Registry (delete (ctx, id) (r_workspaces r)) (r_machines r)).
Proof.
  intros Hc Hi Hr. unfold DeleteWorkspaceFolder.
  destruct (ResolveSSHConfigPath_ok ssh) as [path ->]. runM.
  destruct (remove_ssh_run path id h) as (h1 & Hrun & Hsame).
  rewrite (run_Ok _ _ _ _ _ Hrun). rewrite workspace_dir by done. runM.
  rewrite RemoveAll_run. eexists. split; [done|].
  by apply (refines_remove "workspaces"), (refines_same h).
Qed.
Lemma DeleteMachineFolder_run ctx id h r :
  plain ctx = true → plain id = true → refines h r →
  ∃ h', DeleteMachineFolder o ctx id h = (Ok (), h') ∧
    refines h' (Registry (r_workspaces r) (delete (ctx, id) (r_machines r))).
Proof.
  intros Hc Hi Hr. unfold DeleteMachineFolder. rewrite machine_dir by done. runM.
  rewrite RemoveAll_run. eexists. split; [done|]. by apply (refines_remove "machines").
Qed.

Lemma omap_NoDup {A B} (f : A → option B) (l : list A) :
  (∀ x y b, x ∈ l → y ∈ l → f x = Some b → f y = Some b → x = y) →
  NoDup l → NoDup (omap f l).
Proof.
  intros Hf Hnd. induction Hnd as [|x l Hx Hnd IH]; [constructor|].
  specialize (IH ltac:(intros y z b ??; apply Hf; by right)). cbn.
  destruct (f x) as [b|] eqn:Hb; [|done]. constructor; [|done].
  intros (y & Hy & Hfy)%list_elem_of_omap. apply Hx.
  by rewrite (Hf x y b ltac:(left) ltac:(by right) Hb Hfy).
Qed.
Lemma merge_sort_eq (l k : list string) :
  NoDup l → NoDup k → (∀ x, x ∈ l ↔ x ∈ k) → merge_sort String.le l = merge_sort String.le k.
Proof.
  intros ?? Hlk. apply (StronglySorted_unique String.le).
  - apply (StronglySorted_merge_sort _).
  - apply (StronglySorted_merge_sort _).
  - rewrite !merge_sort_Permutation. by apply NoDup_Permutation.
Qed.

Lemma dir_entries_names h r ctx :
  plain ctx = true → refines h r →
  dir_entries (abs (root ++ ["contexts"; ctx; "workspaces"])) h = names_in ctx (r_workspaces r).
Proof.
  intros Hc [Hd Hw _ _ _]. pose proof healthy_root as Hr.
  assert (plains (root ++ ["contexts"; ctx; "workspaces"])) as Hb
    by (apply Forall_app; split; [done|by repeat constructor]).
  assert (root ++ ["contexts"; ctx; "workspaces"] ≠ []) as Hne by (by intros [_ ?]%app_eq_nil).
  assert (∀ l n, plains l → entry_name (abs (root ++ ["contexts"; ctx; "workspaces"])) (abs l) = Some n
            ↔ l = place root "workspaces" ctx n) as He.
  { intros l n Hl. rewrite entry_name_abs by done. unfold place. by rewrite <- app_assoc. }
  apply merge_sort_eq.
  - apply omap_NoDup; [|apply NoDup_elements].
    intros d d' n (l & Hl & ->)%elem_of_elements%Hd (l' & Hl' & ->)%elem_of_elements%Hd.
    rewrite !He by done. congruence.
  - apply omap_NoDup; [|apply NoDup_map_to_list].
    intros [[c i] v] [[c' i'] v'] n Hx%elem_of_map_to_list Hy%elem_of_map_to_list; cbn.
    repeat case_decide; naive_solver.
  - intros n. rewrite !list_elem_of_omap. split.
    + intros (d & Hin%elem_of_elements & Hn).
      destruct (Hd d Hin) as (l & Hl & ->). apply He in Hn as ->; [|done].
      assert (plain n = true) as Hpn.
      { unfold place in Hl. rewrite !Forall_app, !Forall_cons in Hl. naive_solver. }
      apply (shelf_dirs _ _ _ _ _ _ Hw) in Hin as [w Hin]; [|done..].
      exists ((ctx, n), w). split; [by apply elem_of_map_to_list|]. cbn. by rewrite decide_True.
    + intros ([[c i] w] & Hin%elem_of_map_to_list & Hn). cbn in Hn. case_decide; [|done].
      injection Hn as ->. subst c.
      destruct (shelf_keys _ _ _ _ _ _ Hw (ctx, n)) as [_ Hpn]; [by eexists|]. cbn in Hpn.
      exists (abs (place root "workspaces" ctx n)).
      rewrite elem_of_elements, (shelf_dirs _ _ _ _ _ _ Hw) by done. split; [by eexists|].
      apply He; [|done]. rewrite <- (app_nil_r (place _ _ _ _)). by apply (plains_place root Hr).
Qed.

Context (devPodConfig : Config) (Hctx : plain (c_defaultContext devPodConfig) = true).
Notation ctx0 := (c_defaultContext devPodConfig).

(** A workspace of a listing, with the path of its file. *)
Definition loaded (skipPro : bool) (r : registry) (id : string) : option Workspace :=
  if HasPrefix id "." then None
  else w ← r_workspaces r !! (ctx0, id);
       if skipPro && IsPro w then None
       else Some (with_workspace_place w (w_ide w) ctx0
                    (abs (place root "workspaces" ctx0 id ++ [wfile]))).

Lemma forget_loaded skipPro r (l : list string) :
  forget_origin <$> omap (loaded skipPro r) l = omap (listed ctx0 skipPro (r_workspaces r)) l.
Proof.
  induction l as [|id l IH]; [done|]. cbn. unfold loaded at 1, listed at 1.
  destruct (HasPrefix id "."); [done|]. destruct (r_workspaces r !! _) as [w|]; cbn; [|done].
  destruct (skipPro && IsPro w); [done|]. cbn. by rewrite IH.
Qed.

Lemma load_entries_run skipPro entries h r :
  plains entries → refines h r →
  load_entries o devPodConfig skipPro entries h = (Ok (omap (loaded skipPro r) entries), h).
Proof.
  intros Hp Hr. induction Hp as [|e entries He _ IH]; [done|].
  cbn [load_entries omap list_omap]. unfold loaded at 1.
  destruct (HasPrefix e "."); [done|].
  pose proof (loadWorkspaceConfig_run ctx0 e h r Hctx He Hr) as Hrun.
  unfold mbind at 1, M_bind at 1, caught. rewrite Hrun.
  destruct (r_workspaces r !! (ctx0, e)) as [w|] eqn:Hw; cbn [mbind option_bind]; cbv iota beta.
  - rewrite (run_Ok _ _ _ _ _ IH).
    change (IsPro (with_workspace_place w _ _ _)) with (IsPro w).
    by destruct (skipPro && IsPro w).
  - done.
Qed.

Lemma names_in_plain h r : refines h r → plains (names_in ctx0 (r_workspaces r)).
Proof.
  intros [_ Hw _ _ _]. apply Forall_forall. intros n Hn. unfold names_in in Hn.
  rewrite (merge_sort_Permutation String.le) in Hn.
  apply list_elem_of_omap in Hn as ([[c i] w] & Hin%elem_of_map_to_list & Hn).
  cbn in Hn. case_decide; [|done]. injection Hn as <-.
  by destruct (shelf_keys _ _ _ _ _ _ Hw (c, i)) as [_ ?]; [by eexists|].
Qed.

Lemma ListLocalWorkspaces_run skipPro h r :
  refines h r →
  ListLocalWorkspaces o devPodConfig skipPro h =
    (Ok (omap (loaded skipPro r) (names_in ctx0 (r_workspaces r))), h).
Proof.
  intros Hr. unfold ListLocalWorkspaces, GetWorkspacesDir, ReadDir.
  rewrite (context_dir_abs root) by (apply healthy_config || apply healthy_root || done || by repeat constructor).
  runM. rewrite healthy_readDir. runM.
  rewrite (run_Ok _ _ _ (names_in ctx0 (r_workspaces r)) h).
  - apply load_entries_run; [by eapply names_in_plain|done].
  - runM. rewrite <- (dir_entries_names h r ctx0 Hctx Hr). done.
Qed.

Lemma run_op_refines x h r :
  plain_op x = true → refines h r →
  ∃ a h', run_op o devPodConfig x h = (a, h') ∧
    observe a = (spec_op ctx0 x r).1 ∧ refines h' (spec_op ctx0 x r).2.
Proof.
  intros Hx Hr. destruct x as [w|c i|c i|c i p|b|m|c i|c i|c i]; cbn in Hx;
    try apply andb_prop in Hx as [Hc Hi]; cbn [run_op spec_op fst snd].
  - pose proof (refines_save h r w Hc Hi Hr) as H.
    rewrite saveWorkspaceConfig_run in H by done.
    rewrite (run_Ok _ _ _ _ _ (saveWorkspaceConfig_run w h Hc Hi)). by eexists _, _.
  - unfold mbind, M_bind. rewrite (loadWorkspaceConfig_run c i h r) by done.
    destruct (r_workspaces r !! (c, i)); by eexists _, _.
  - unfold WorkspaceExists. rewrite workspace_dir by done. eexists _, _. split; [done|].
    split; [|done]. cbn. do 2 f_equal. apply bool_decide_ext.
    by apply (shelf_dirs _ _ _ _ _ _ (ref_workspaces _ _ Hr)).
  - destruct (DeleteWorkspaceFolder_run c i p h r) as (h' & Hrun & ?); [done..|].
    rewrite (run_Ok _ _ _ _ _ Hrun). by eexists _, _.
  - rewrite (run_Ok _ _ _ _ _ (ListLocalWorkspaces_run b h r Hr)). eexists _, _.
    split; [done|]. cbn. by rewrite forget_loaded.
  - pose proof (refines_save_machine h r m Hc Hi Hr) as H.
    rewrite saveMachineConfig_run in H by done.
    rewrite (run_Ok _ _ _ _ _ (saveMachineConfig_run m h Hc Hi)). by eexists _, _.
  - unfold mbind, M_bind. rewrite (loadMachineConfig_run c i h r) by done.
    destruct (r_machines r !! (c, i)); by eexists _, _.
  - unfold MachineExists. rewrite machine_dir by done. eexists _, _. split; [done|].
    split; [|done]. cbn. do 2 f_equal. apply bool_decide_ext.
    by apply (shelf_dirs _ _ _ _ _ _ (ref_machines _ _ Hr)).
  - destruct (DeleteMachineFolder_run c i h r) as (h' & Hrun & ?); [done..|].
    rewrite (run_Ok _ _ _ _ _ Hrun). by eexists _, _.
Qed.

(** C7: the home directory implements the registry: whatever sequence of saves,
    loads, existence checks, deletions and listings is run on it, with plain
    names and an operating system that fails no call, every call answers what
    the registry answers, and the state after it again represents the
    registry.  A deletion therefore removes its entry and no other, and a
    listing shows exactly what was saved and not deleted. *)
Theorem home_refines_registry ops h r :
  Forall (λ x, plain_op x = true) ops → refines h r →
  (run_ops o devPodConfig ops h).1 = (spec_ops devPodConfig ops r).1 ∧
  refines (run_ops o devPodConfig ops h).2 (spec_ops devPodConfig ops r).2.
Proof.
  intros Hops. revert h r. induction Hops as [|x ops Hx _ IH]; intros h r Hr; [done|].
  destruct (run_op_refines x h r Hx Hr) as (a & h' & Hrun & Ha & Hr').
  cbn [run_ops spec_ops]. rewrite Hrun. destruct (spec_op ctx0 x r) as [b r'].
  cbn [fst snd] in Ha, Hr'. specialize (IH h' r' Hr').
  destruct (run_ops o devPodConfig ops h'), (spec_ops devPodConfig ops r').
  cbn in *. destruct IH as [-> ?]. by rewrite Ha.
Qed.
End Refines.

(** ** An example *)

Definition demo_osys : osys := {|
  o_sys := OptionsProps.demo_sys; o_write := λ _, None; o_remove := λ _, None;
  o_readDir := λ _, None; o_now := 7; o_userHome := inr "/home/me"; o_Abs := inr;
  o_exec := λ _ _, ExecResult "" "" None; o_GetBinaries := λ _ _, inr ∅; o_validate := Ok;
  o_world := ResolverProps.demo_world; o_fuel := 5 |}.
#[export] Instance demo_healthy : Healthy demo_osys ["home"; "me"; ".devpod"].
Proof. split; [done|by repeat constructor|done..]. Qed.

Definition demo_other : Workspace := with_sshConfigPath "/home/me/ssh"
  (with_picture "p" (with_workspace_place
     {| w_id := "api"; w_uid := "default-api-2"; w_picture := "";
        w_provider := {| wpr_name := "aws"; wpr_options := None |};
        w_machine := {| wm_id := "m1"; wm_autoDelete := false |};
        w_ide := {| wi_name := ""; wi_options := None |}; w_source := empty_source;
        w_devContainerImage := ""; w_devContainerPath := ""; w_devContainerConfig := None;
        w_creationTimestamp := 0; w_lastUsedTimestamp := 3; w_context := "default";
        w_imported := false; w_origin := ""; w_pro := None; w_sshConfigPath := "" |}
     {| wi_name := "vscode"; wi_options := None |} "default" "")).
Definition demo_ops : list op :=
  [OpSave OptionsProps.demo_workspace; OpSave demo_other; OpList false;
   OpDelete "default" "ws" ""; OpExists "default" "ws"; OpLoad "default" "ws"; OpList true].

Lemma home_refines_registry_witness :
  (run_ops demo_osys OptionsProps.demo_config demo_ops empty_home).1 =
    [Returned Done; Returned Done;
     Returned (AWorkspaces [demo_other; OptionsProps.demo_workspace]);
     Returned Done; Returned (ABool false); Failed; Returned (AWorkspaces [demo_other])].
Proof.
  destruct (home_refines_registry ["home"; "me"; ".devpod"] demo_osys OptionsProps.demo_config
    eq_refl demo_ops empty_home (Registry ∅ ∅)) as [H _].
  - by repeat constructor.
  - exact (refines_empty _ demo_osys).
  - rewrite H. vm_compute. reflexivity.
Defined.
