(* ===== verification/Locks.v ===== *)
(** * Workspace and machine locks

    clientimplementation/workspace_client.go and proxy_client.go: the files
    that DevPod processes lock, and the order in which they lock them.  The
    processes of a computer are a transition system over the holders of the
    files; a lock belongs to a process and ends with it. *)

From S2P Require Import Prelude GoStrings Types Provider Options Home Paths.
From S2P Require OptionsProps.
From stdpp Require Import base gmap sets list strings.

Local Open Scope string_scope.
Local Open Scope list_scope.

(** ** initLock *)

Record lock_client := LockClient {
  lc_workspaceLock : string;
  lc_machineLock : option string;
}.

Definition workspace_lock_name (id : string) : string := id +:+ ".workspace.lock".
Definition machine_lock_name (id : string) : string := id +:+ ".machine.lock".

(** [workspaceClient.initLock]; the machine is nil for a proxy client, whose
    [initLock] is the same otherwise. *)
Definition initLock (s : sys) (w : Workspace) (machine : option Machine) : result lock_client :=
  match GetLocksDir s (w_context w) with
  | Ok dir =>
      Ok {| lc_workspaceLock := filepath_Join [dir; workspace_lock_name (w_id w)];
            lc_machineLock := (λ m, filepath_Join [dir; machine_lock_name (mc_id m)]) <$> machine |}
  | _ => Panic
  end.

(** ** Processes *)

(** Where a process is in [Lock], the code between, and [Unlock]. *)
Inductive pc :=
| Begin            (** before [Lock] *)
| AtWorkspace      (** in [tryLock] of the workspace *)
| AtMachine        (** in [tryLock] of the machine *)
| Critical         (** [Lock] has returned nil *)
| UnlockingMachine
| UnlockingWorkspace
| Finished
| FailedWorkspace  (** [Lock] has returned an error *)
| FailedMachine.
#[export] Instance pc_eq_dec : EqDecision pc.
Proof. solve_decision. Defined.

Notation pid := nat.
Record lstate := LState {
  l_holder : gmap string pid;
  l_procs : gmap pid (lock_client * pc);
}.

Inductive action :=
| Spawn (p : pid) (c : lock_client)
| Advance (p : pid)   (** the next statement, a poll that succeeds *)
| GiveUp (p : pid)    (** [tryLock] times out, is cancelled or fails *)
| Exit (p : pid).     (** the process ends, at any point *)

(** [lock.TryLock] and [lock.Unlock] *)
Definition TryLock (path : string) (p : pid) (h : gmap string pid) : option (gmap string pid) :=
  match h !! path with None => Some (<[path := p]> h) | Some _ => None end.
Definition Flock_Unlock (path : string) (p : pid) (h : gmap string pid) : gmap string pid :=
  if decide (h !! path = Some p) then delete path h else h.

(** The next statement of [Lock] or [Unlock]; [None] when it has to wait. *)
Definition advance (p : pid) (c : lock_client) (at_ : pc) (h : gmap string pid)
    : option (gmap string pid * pc) :=
  match at_ with
  | Begin => Some (h, AtWorkspace)
  | AtWorkspace =>
      h' ← TryLock (lc_workspaceLock c) p h;
      Some (h', match lc_machineLock c with Some _ => AtMachine | None => Critical end)
  | AtMachine =>
      match lc_machineLock c with
      | Some m => h' ← TryLock m p h; Some (h', Critical)
      | None => Some (h, Critical)
      end
  | Critical => Some (h, UnlockingMachine)
  | UnlockingMachine =>
      Some (match lc_machineLock c with Some m => Flock_Unlock m p h | None => h end, UnlockingWorkspace)
  | UnlockingWorkspace => Some (Flock_Unlock (lc_workspaceLock c) p h, Finished)
  | Finished | FailedWorkspace | FailedMachine => None
  end.

Definition act (a : action) (st : lstate) : option lstate :=
  match a with
  | Spawn p c =>
      match l_procs st !! p with
      | Some _ => None
      | None => Some (LState (l_holder st) (<[p := (c, Begin)]> (l_procs st)))
      end
  | Advance p =>
      '(c, at_) ← l_procs st !! p;
      '(h, at') ← advance p c at_ (l_holder st);
      Some (LState h (<[p := (c, at')]> (l_procs st)))
  | GiveUp p =>
      '(c, at_) ← l_procs st !! p;
      match at_ with
      | AtWorkspace => Some (LState (l_holder st) (<[p := (c, FailedWorkspace)]> (l_procs st)))
      | AtMachine => Some (LState (l_holder st) (<[p := (c, FailedMachine)]> (l_procs st)))
      | _ => None
      end
  | Exit p =>
      _ ← l_procs st !! p;
      Some (LState (filter (λ kv, kv.2 ≠ p) (l_holder st)) (delete p (l_procs st)))
  end.

Definition idle : lstate := LState ∅ ∅.
(** The states that processes with clients of [initLock] reach. *)
Inductive reachable (s : sys) : lstate → Prop :=
| reach_idle : reachable s idle
| reach_step a st st' :
    reachable s st →
    (∀ p c, a = Spawn p c → ∃ w machine,
       plain (w_context w) = true ∧ plain (w_id w) = true ∧
       (∀ m, machine = Some m → plain (mc_id m) = true) ∧ initLock s w machine = Ok c) →
    act a st = Some st' →
    reachable s st'.

(** * The locks exclude and do not deadlock *)

(** ** Names of lock files *)

Lemma free_app c a b : free c (a +:+ b) = free c a && free c b.
Proof. apply sforall_app. Qed.
Lemma plain_suffix n suffix :
  plain n = true → free "/" suffix = true → (2 < String.length suffix)%nat →
  plain (n +:+ suffix) = true.
Proof.
  intros Hn Hs Hlen. unfold plain. rewrite free_app, (plain_free n Hn), Hs. cbn [andb].
  apply negb_true_iff, bool_decide_eq_false. intros Hin.
  assert (Hl : (String.length (n +:+ suffix) ≤ 2)%nat).
  { apply elem_of_cons in Hin as [->|Hin]; [cbn; lia|].
    apply elem_of_cons in Hin as [->|Hin]; [cbn; lia|].
    apply list_elem_of_singleton in Hin as ->. cbn; lia. }
  rewrite slength_app in Hl. lia.
Qed.

Lemma sapp_inj_r a b x y :
  String.length x = String.length y → a +:+ x = b +:+ y → x = y.
Proof.
  intros Hl He. assert (String.length a = String.length b) as Hab.
  { apply (f_equal String.length) in He. rewrite !slength_app in He. lia. }
  rewrite <- (sdrop_app a x), He, Hab. apply sdrop_app.
Qed.
Lemma lock_names_differ i j : workspace_lock_name i ≠ machine_lock_name j.
Proof.
  unfold workspace_lock_name, machine_lock_name. intros He.
  change ".workspace.lock" with (".w" +:+ "orkspace.lock") in He.
  rewrite <- sapp_assoc in He. by apply sapp_inj_r in He.
Qed.

(** ** Who holds what *)

(** The locks of a client at a point of the code. *)
Definition held (c : lock_client) (at_ : pc) : list string :=
  match at_ with
  | Begin | AtWorkspace | Finished | FailedWorkspace => []
  | AtMachine | FailedMachine | UnlockingWorkspace => [lc_workspaceLock c]
  | Critical | UnlockingMachine => lc_workspaceLock c :: option_list (lc_machineLock c)
  end.

Section Invariant.
Context (isW isM : string → Prop) (Hdisj : ∀ l, isW l → isM l → False).
Definition ok_client (c : lock_client) : Prop :=
  isW (lc_workspaceLock c) ∧ ∀ m, lc_machineLock c = Some m → isM m.

(** The holders of the files are the processes that are past the lock and not
    past the unlock. *)
Record linv (st : lstate) : Prop := {
  inv_held path p : l_holder st !! path = Some p ↔
    ∃ c a, l_procs st !! p = Some (c, a) ∧ path ∈ held c a;
  inv_ok p c a : l_procs st !! p = Some (c, a) → ok_client c;
  inv_machine p c : l_procs st !! p = Some (c, AtMachine) → is_Some (lc_machineLock c);
}.

Lemma ws_not_machine c m : ok_client c → lc_machineLock c = Some m → m ≠ lc_workspaceLock c.
Proof. intros [? Hm] ?%Hm ->. by eapply Hdisj. Qed.

(** A process that moves changes its own locks and no others. *)
Lemma linv_move st p c a h' a' :
  linv st → l_procs st !! p = Some (c, a) →
  (∀ path q, q ≠ p → h' !! path = Some q ↔ l_holder st !! path = Some q) →
  (∀ path, h' !! path = Some p ↔ path ∈ held c a') →
  (a' = AtMachine → is_Some (lc_machineLock c)) →
  linv (LState h' (<[p := (c, a')]> (l_procs st))).
Proof.
  intros [Hh Hok Hm] Hp Ho Hs Ha. split; cbn.
  - intros path q. destruct (decide (q = p)) as [->|Hq].
    + rewrite Hs, lookup_insert_eq. split; [eauto|]. by intros (? & ? & [= <- <-] & ?).
    + by rewrite Ho, Hh, lookup_insert_ne.
  - intros q c' b. destruct (decide (q = p)) as [->|Hq].
    + rewrite lookup_insert_eq. intros [= <- <-]. by eapply Hok.
    + rewrite lookup_insert_ne by done. apply Hok.
  - intros q c'. destruct (decide (q = p)) as [->|Hq].
    + rewrite lookup_insert_eq. intros [= <- ->]. by apply Ha.
    + rewrite lookup_insert_ne by done. apply Hm.
Qed.

Lemma own_held st p c a path :
  linv st → l_procs st !! p = Some (c, a) → l_holder st !! path = Some p ↔ path ∈ held c a.
Proof.
  intros Hi Hp. rewrite (inv_held _ Hi). split; [|eauto].
  intros (c' & a' & Hp' & ?). rewrite Hp in Hp'. by injection Hp' as <- <-.
Qed.

Lemma linv_advance st p c a h' a' :
  linv st → l_procs st !! p = Some (c, a) → advance p c a (l_holder st) = Some (h', a') →
  linv (LState h' (<[p := (c, a')]> (l_procs st))).
Proof.
  intros Hi Hp Hadv. pose proof (own_held st p c a) as Hown.
  pose proof (inv_ok _ Hi _ _ _ Hp) as Hc. pose proof (ws_not_machine c) as Hne.
  assert (Htake : ∀ path h1, TryLock path p (l_holder st) = Some h1 →
    (∀ q' path', q' ≠ p → h1 !! path' = Some q' ↔ l_holder st !! path' = Some q') ∧
    ∀ path', h1 !! path' = Some p ↔ path' = path ∨ l_holder st !! path' = Some p).
  { unfold TryLock. intros path h1. destruct (l_holder st !! path) eqn:E; [done|]. intros [= <-].
    split; [intros q' path' Hq|intros path'];
      (destruct (decide (path' = path)) as [->|];
        [rewrite lookup_insert_eq|rewrite lookup_insert_ne by done]); naive_solver. }
  assert (Hrel : ∀ path h1, Flock_Unlock path p (l_holder st) = h1 →
    (∀ q' path', q' ≠ p → h1 !! path' = Some q' ↔ l_holder st !! path' = Some q') ∧
    ∀ path', h1 !! path' = Some p ↔ path' ≠ path ∧ l_holder st !! path' = Some p).
  { unfold Flock_Unlock. intros path h1 <-. case_decide as E.
    - split; [intros q' path' Hq|intros path'];
        (destruct (decide (path' = path)) as [->|];
          [rewrite lookup_delete_eq|rewrite lookup_delete_ne by done]); naive_solver.
    - split; [done|]. intros path'. destruct (decide (path' = path)) as [->|]; naive_solver. }
  destruct a; cbn in Hadv; try discriminate.
  - injection Hadv as <- <-. apply (linv_move _ _ _ Begin); [done..|by intros; apply Hown|done].
  - apply bind_Some in Hadv as (h1 & [Ho Hs]%Htake & [= <- <-]).
    eapply linv_move; [done..|by intros; apply Ho| |by destruct (lc_machineLock c)].
    intros path. rewrite Hs, Hown by done. clear. destruct (lc_machineLock c) eqn:Hm; cbn; rewrite ?Hm; cbn;
      rewrite ?elem_of_cons, ?elem_of_nil; tauto.
  - destruct (inv_machine _ Hi _ _ Hp) as [m Hm]. rewrite Hm in Hadv.
    apply bind_Some in Hadv as (h1 & [Ho Hs]%Htake & [= <- <-]).
    eapply linv_move; [done..|by intros; apply Ho| |done].
    intros path. rewrite Hs, Hown by done. cbn. rewrite Hm. clear. cbn.
    rewrite ?elem_of_cons, ?elem_of_nil. tauto.
  - injection Hadv as <- <-. apply (linv_move _ _ _ Critical); [done..|by intros; apply Hown|done].
  - injection Hadv as <- <-. destruct (lc_machineLock c) as [m|] eqn:Hm.
    + destruct (Hrel m _ eq_refl) as [Ho Hs].
      eapply linv_move; [done..|by intros; apply Ho| |done].
      intros path. rewrite Hs, Hown by done. specialize (Hne m Hc eq_refl). cbn. rewrite Hm.
      cbn. clear -Hne. rewrite ?elem_of_cons, ?elem_of_nil. naive_solver.
    + eapply linv_move; [done..| |done]. intros path. rewrite Hown by done. cbn. by rewrite Hm.
  - injection Hadv as <- <-. destruct (Hrel (lc_workspaceLock c) _ eq_refl) as [Ho Hs].
    eapply linv_move; [done..|by intros; apply Ho| |done].
    intros path. rewrite Hs, Hown by done. cbn. clear. rewrite ?elem_of_cons, ?elem_of_nil. tauto.
Qed.

Lemma linv_act a st st' :
  linv st → (∀ p c, a = Spawn p c → ok_client c) → act a st = Some st' → linv st'.
Proof.
  intros Hi Hc. destruct a as [p c|p|p|p]; cbn.
  - destruct (l_procs st !! p) eqn:Hp; [done|]. intros [= <-].
    destruct Hi as [Hh Hok Hm]. split; cbn.
    + intros path q. rewrite Hh. destruct (decide (q = p)) as [->|?].
      * rewrite lookup_insert_eq, Hp. split; [by intros (? & ? & ? & _)|].
        by intros (? & ? & [= <- <-] & ?%elem_of_nil).
      * by rewrite lookup_insert_ne.
    + intros q c' b. destruct (decide (q = p)) as [->|?].
      * rewrite lookup_insert_eq. intros [= <- <-]. by eapply Hc.
      * rewrite lookup_insert_ne by done. apply Hok.
    + intros q c'. destruct (decide (q = p)) as [->|?].
      * by rewrite lookup_insert_eq.
      * rewrite lookup_insert_ne by done. apply Hm.
  - intros ([c at_] & Hp & H)%bind_Some. apply bind_Some in H as ([h a'] & Hadv & [= <-]).
    by eapply linv_advance.
  - intros ([c at_] & Hp & H)%bind_Some. pose proof (own_held st p c at_) as Hown.
    destruct at_; try discriminate H; injection H as <-;
      (eapply linv_move; [done..|by intros; apply Hown|done]).
  - intros ([c at_] & Hp & [= <-])%bind_Some. destruct Hi as [Hh Hok Hm]. split; cbn.
    + intros path q. rewrite map_lookup_filter_Some. cbn. rewrite Hh.
      destruct (decide (q = p)) as [->|?].
      * rewrite lookup_delete_eq. naive_solver.
      * rewrite lookup_delete_ne by done. naive_solver.
    + intros q c' b [_ ?]%lookup_delete_Some. by eapply Hok.
    + intros q c' [_ ?]%lookup_delete_Some. by eapply Hm.
Qed.
End Invariant.

Section Reachable.
Context (root : list string) (s : sys) (Hdir : s_configDir s = inr (abs root))
        (Hroot : plains root).

Definition lock_path (ctx name : string) : list string := root ++ ["contexts"; ctx; "locks"; name].
Definition is_workspace_lock (l : string) : Prop :=
  ∃ ctx id, plain ctx = true ∧ plain id = true ∧ l = abs (lock_path ctx (workspace_lock_name id)).
Definition is_machine_lock (l : string) : Prop :=
  ∃ ctx id, plain ctx = true ∧ plain id = true ∧ l = abs (lock_path ctx (machine_lock_name id)).

Lemma plains_lock_path ctx id name :
  plain ctx = true → plain id = true → name ∈ [".workspace.lock"; ".machine.lock"] →
  plains (lock_path ctx (id +:+ name)).
Proof.
  intros Hc Hi Hn. apply Forall_app. split; [done|].
  assert (plain (id +:+ name) = true).
  { apply elem_of_cons in Hn as [->|Hn]; [|apply list_elem_of_singleton in Hn as ->];
      (apply plain_suffix; [done|reflexivity|cbn; lia]). }
  by repeat constructor.
Qed.

Lemma locks_disjoint l : is_workspace_lock l → is_machine_lock l → False.
Proof.
  intros (c & i & ? & ? & ->) (c' & i' & ? & ? & He).
  apply abs_inj in He; [|by apply plains_lock_path; [..|set_solver]..].
  unfold lock_path in He. apply app_inv_head in He. injection He as _ He.
  by eapply lock_names_differ.
Qed.

Lemma initLock_paths w machine c :
  plain (w_context w) = true → plain (w_id w) = true →
  (∀ m, machine = Some m → plain (mc_id m) = true) →
  initLock s w machine = Ok c →
  lc_workspaceLock c = abs (lock_path (w_context w) (workspace_lock_name (w_id w))) ∧
  lc_machineLock c = (λ m, abs (lock_path (w_context w) (machine_lock_name (mc_id m)))) <$> machine.
Proof.
  intros Hc Hi Hm. unfold initLock, GetLocksDir.
  rewrite (context_dir_abs root) by (done || by repeat constructor). intros [= <-]. cbn.
  assert (plains (root ++ ["contexts"; w_context w; "locks"]))
    by (apply Forall_app; split; [done|by repeat constructor]).
  assert (∀ id n, plain id = true → n ∈ [".workspace.lock"; ".machine.lock"] →
    filepath_Join [abs (root ++ ["contexts"; w_context w; "locks"]); id +:+ n] =
    abs (lock_path (w_context w) (id +:+ n))) as Hj.
  { intros id n Hid Hn. rewrite Join_abs; [|done|].
    - unfold lock_path. by rewrite <- app_assoc.
    - pose proof (plains_lock_path (w_context w) id n Hc Hid Hn) as Hp.
      unfold lock_path in Hp. apply Forall_app in Hp as [_ Hp].
      rewrite !Forall_cons in Hp. constructor; [naive_solver|constructor]. }
  split; [apply Hj; [done|set_solver]|]. destruct machine as [m|]; [|done]. cbn. f_equal.
  apply Hj; [by apply Hm|set_solver].
Qed.

Lemma reachable_inv st : reachable s st → linv is_workspace_lock is_machine_lock st.
Proof.
  induction 1 as [|a st st' _ IH Hsp Hact].
  - split; cbn.
    + intros path p. split; [by intros ?%lookup_empty_Some|].
      by intros (? & ? & ?%lookup_empty_Some & _).
    + by intros ? ? ? ?%lookup_empty_Some.
    + by intros ? ? ?%lookup_empty_Some.
  - eapply linv_act; [apply locks_disjoint|done| |done].
    intros p c ->. destruct (Hsp p c eq_refl) as (w & machine & ? & ? & Hm & Hl).
    apply initLock_paths in Hl as [Hw Hma]; [|done..]. split.
    + rewrite Hw. by exists (w_context w), (w_id w).
    + intros m. rewrite Hma. destruct machine as [mc|]; [|done]. intros [= <-].
      exists (w_context w), (mc_id mc). eauto.
Qed.

(** Whoever is past the lock holds it. *)
Lemma critical_holds st p c l :
  reachable s st → l_procs st !! p = Some (c, Critical) →
  l ∈ lc_workspaceLock c :: option_list (lc_machineLock c) → l_holder st !! l = Some p.
Proof. intros Hr Hp Hl. apply (inv_held _ _ _ (reachable_inv _ Hr)). by exists c, Critical. Qed.

(** C18: mutual exclusion: in every reachable state, two processes for which
    [Lock] has returned and which are not yet in [Unlock] are the same process
    when their workspaces have the same context and name, or when they use
    the same machine of a context, whatever interleaving, time-outs and
    crashes came before. *)
Theorem locks_exclude st p q c c' w w' machine machine' :
  reachable s st →
  l_procs st !! p = Some (c, Critical) → l_procs st !! q = Some (c', Critical) →
  initLock s w machine = Ok c → initLock s w' machine' = Ok c' →
  w_context w = w_context w' →
  w_id w = w_id w' ∨ (∃ m m', machine = Some m ∧ machine' = Some m' ∧ mc_id m = mc_id m') →
  p = q.
Proof.
  intros Hr Hp Hq Hc Hc' Hctx Hsame.
  assert (∃ l, l ∈ lc_workspaceLock c :: option_list (lc_machineLock c) ∧
               l ∈ lc_workspaceLock c' :: option_list (lc_machineLock c')) as (l & Hl & Hl').
  { unfold initLock in Hc, Hc'. rewrite <- Hctx in Hc'.
    destruct (GetLocksDir s (w_context w)) as [dir| | |]; [|done..].
    injection Hc as <-. injection Hc' as <-. cbn.
    destruct Hsame as [<-|(m & m' & -> & -> & Hid)].
    - eexists. split; apply elem_of_cons; by left.
    - cbn. rewrite <- Hid. eexists. split; apply elem_of_cons; right; by apply list_elem_of_singleton. }
  apply (critical_holds _ _ _ _ Hr Hp) in Hl. apply (critical_holds _ _ _ _ Hr Hq) in Hl'.
  congruence.
Qed.

(** The statements a process still has to run. *)
Definition remaining (a : pc) : nat :=
  match a with
  | Begin => 6 | AtWorkspace => 5 | AtMachine => 4 | Critical => 3 | UnlockingMachine => 2
  | UnlockingWorkspace => 1 | Finished | FailedWorkspace | FailedMachine => 0
  end.
Definition work (st : lstate) : nat :=
  sum_list ((λ kv, remaining kv.2.2) <$> map_to_list (l_procs st)).

Lemma work_insert h (m : gmap pid (lock_client * pc)) p c a :
  m !! p = None →
  work (LState h (<[p := (c, a)]> m)) = (remaining a + work (LState h m))%nat.
Proof. intros Hp. unfold work; cbn. by rewrite map_to_list_insert. Qed.
Lemma work_move h h' m p c a c' a' :
  m !! p = Some (c, a) → (remaining a' < remaining a)%nat →
  (work (LState h' (<[p := (c', a')]> m)) < work (LState h m))%nat.
Proof.
  intros Hp Hlt. rewrite <- (insert_delete_id m p (c, a) Hp), insert_insert_eq.
  rewrite !work_insert by (apply lookup_delete_eq).
  unfold work at 1 2; cbn. lia.
Qed.

Lemma advance_remaining p c a h h' a' :
  advance p c a h = Some (h', a') → (remaining a' < remaining a)%nat.
Proof.
  unfold advance. destruct (lc_machineLock c); destruct a; try discriminate;
    first [intros (? & _ & [= _ <-])%bind_Some | intros [= _ <-]]; cbn; lia.
Qed.

(** A process that is not at a [tryLock], or at one whose file is free, can go
    on. *)
Lemma can_advance st p c a :
  l_procs st !! p = Some (c, a) → (0 < remaining a)%nat →
  (a = AtWorkspace → l_holder st !! lc_workspaceLock c = None) →
  (∀ m, a = AtMachine → lc_machineLock c = Some m → l_holder st !! m = None) →
  ∃ st', act (Advance p) st = Some st' ∧ (work st' < work st)%nat.
Proof.
  intros Hp Hr Hw Hm.
  assert (∃ h' a', advance p c a (l_holder st) = Some (h', a')) as (h' & a' & Ha).
  { destruct a; cbn in Hr |- *; try lia; try by eauto.
    - unfold TryLock. rewrite (Hw eq_refl). by eauto.
    - destruct (lc_machineLock c) as [m|] eqn:E; [|by eauto].
      unfold TryLock. rewrite (Hm m eq_refl eq_refl). by eauto. }
  eexists. cbn. rewrite Hp. cbn. rewrite Ha. cbn. split; [done|].
  destruct st as [h m]. eapply work_move; [done|]. by eapply advance_remaining.
Qed.

(** C19: no deadlock: in every reachable state in which some process is in [Lock]
    or [Unlock] or between them, some process can run its next statement, and
    doing so leaves less to do; so the processes finish after at most six
    statements each.  The only exception is a process whose [Lock] failed at the
    machine: it keeps the workspace locked until it ends. *)
Theorem locks_progress st p c a :
  reachable s st → l_procs st !! p = Some (c, a) → (0 < remaining a)%nat →
  (∃ q st', act (Advance q) st = Some st' ∧ (work st' < work st)%nat) ∨
  (∃ q c', l_procs st !! q = Some (c', FailedMachine) ∧ a = AtWorkspace ∧
           l_holder st !! lc_workspaceLock c = Some q).
Proof.
  intros Hr Hp Ha. pose proof (reachable_inv _ Hr) as Hi.
  assert (Hmach : ∀ q d m, l_procs st !! q = Some (d, AtMachine) →
    lc_machineLock d = Some m → ∃ q' st', act (Advance q') st = Some st' ∧ (work st' < work st)%nat).
  { intros q d m Hq Hm. destruct (l_holder st !! m) as [q'|] eqn:Hh.
    - apply (inv_held _ _ _ Hi) in Hh as (d' & a' & Hq' & Hin). exists q'.
      eapply can_advance; [done|..].
      all: destruct a'; cbn in Hin |- *; try (by apply elem_of_nil in Hin); try lia; try done.
      all: apply list_elem_of_singleton in Hin.
      all: exfalso; eapply (locks_disjoint m); [rewrite Hin; exact (proj1 (inv_ok _ _ _ Hi _ _ _ Hq'))|].
      all: exact (proj2 (inv_ok _ _ _ Hi _ _ _ Hq) m Hm).
    - exists q. eapply can_advance; [done|cbn; lia|done|]. intros m' _ Hm'. congruence. }
  destruct (decide (a = AtMachine)) as [->|Hnm].
  { left. destruct (inv_machine _ _ _ Hi _ _ Hp) as [m Hm]. by eapply Hmach. }
  destruct (decide (a = AtWorkspace)) as [->|Hnw].
  2: { left. exists p. by eapply can_advance. }
  destruct (l_holder st !! lc_workspaceLock c) as [q|] eqn:Hh.
  2: { left. exists p. eapply can_advance; [done|cbn; lia|done|done]. }
  pose proof Hh as Hh'. apply (inv_held _ _ _ Hi) in Hh as (d & b & Hq & Hin).
  destruct (decide (b = AtMachine)) as [->|Hb].
  { left. destruct (inv_machine _ _ _ Hi _ _ Hq) as [m Hm]. by eapply Hmach. }
  destruct (decide (b = FailedMachine)) as [->|Hf]; [right; by eauto|].
  left. exists q. eapply can_advance; [done|..|by intros m ->].
  - destruct b; cbn in Hin |- *; try lia; try done; by apply elem_of_nil in Hin.
  - intros ->. by apply elem_of_nil in Hin.
Qed.
End Reachable.

(** ** An example: two processes for one workspace on one machine *)

Fixpoint acts (l : list action) (st : lstate) : option lstate :=
  match l with [] => Some st | a :: l' => st' ← act a st; acts l' st' end.

Lemma reachable_acts s l st st' :
  reachable s st →
  Forall (λ a, ∀ p c, a = Spawn p c → ∃ w machine,
    plain (w_context w) = true ∧ plain (w_id w) = true ∧
    (∀ m, machine = Some m → plain (mc_id m) = true) ∧ initLock s w machine = Ok c) l →
  acts l st = Some st' → reachable s st'.
Proof.
  intros Hr Hl. revert st Hr. induction Hl as [|a l Ha _ IH]; cbn; intros st Hr.
  - by intros [= <-].
  - intros (st1 & H1 & H2)%bind_Some. eapply IH; [|done]. by eapply reach_step.
Qed.

Definition demo_lock_client : lock_client :=
  {| lc_workspaceLock := "/home/me/.devpod/contexts/default/locks/ws.workspace.lock";
     lc_machineLock := Some "/home/me/.devpod/contexts/default/locks/m1.machine.lock" |}.
Definition demo_procs : lstate :=
  default idle (acts [Spawn 1 demo_lock_client; Spawn 2 demo_lock_client; Advance 2; Advance 1;
                      Advance 1; Advance 1] idle).

Lemma demo_initLock :
  initLock OptionsProps.demo_sys OptionsProps.demo_workspace (Some OptionsProps.demo_machine) =
  Ok demo_lock_client.
Proof. vm_compute. reflexivity. Qed.

Lemma demo_reachable : reachable OptionsProps.demo_sys demo_procs.
Proof.
  apply (reachable_acts _ [Spawn 1 demo_lock_client; Spawn 2 demo_lock_client; Advance 2;
    Advance 1; Advance 1; Advance 1] idle); [apply reach_idle| |vm_compute; reflexivity].
  rewrite !Forall_cons. split_and!; [..|constructor];
    intros p c [=]; subst; exists OptionsProps.demo_workspace, (Some OptionsProps.demo_machine);
    (split_and!; [done|done|by intros m [= <-]|apply demo_initLock]).
Qed.

Lemma locks_exclude_witness :
  l_procs demo_procs !! 1 = Some (demo_lock_client, Critical) ∧
  l_procs demo_procs !! 2 = Some (demo_lock_client, AtWorkspace) ∧
  ∀ q, l_procs demo_procs !! q = Some (demo_lock_client, Critical) → 1 = q.
Proof.
  split_and!; [vm_compute; reflexivity..|]. intros q Hq.
  eapply (locks_exclude ["home"; "me"; ".devpod"] OptionsProps.demo_sys).
  - reflexivity.
  - by repeat constructor.
  - exact demo_reachable.
  - vm_compute. reflexivity.
  - exact Hq.
  - exact demo_initLock.
  - exact demo_initLock.
  - reflexivity.
  - left. reflexivity.
Defined.

Lemma locks_progress_witness :
  ∃ q st', act (Advance q) demo_procs = Some st' ∧ (work st' < work demo_procs)%nat.
Proof.
  destruct (locks_progress ["home"; "me"; ".devpod"] OptionsProps.demo_sys eq_refl
    ltac:(by repeat constructor) demo_procs 2 demo_lock_client AtWorkspace) as [H|(q & c & H & _)].
  - exact demo_reachable.
  - vm_compute. reflexivity.
  - cbn. lia.
  - exact H.
  - exfalso. apply elem_of_map_to_list in H. vm_compute in H.
    repeat (apply elem_of_cons in H as [[=]|H]). by apply elem_of_nil in H.
Defined.

(** A process whose [Lock] failed at the machine still has the workspace. *)
Example failed_lock_keeps_workspace :
  (st ← acts [Spawn 1 demo_lock_client; Spawn 2 (LockClient "other" (lc_machineLock demo_lock_client));
             Advance 2; Advance 2; Advance 2; Advance 1; Advance 1; GiveUp 1] idle;
   Some (l_procs st !! 1, l_holder st !! lc_workspaceLock demo_lock_client)) =
  Some (Some (demo_lock_client, FailedMachine), Some 1).
Proof. vm_compute. reflexivity. Qed.
