(* ===== verification/ClientsProps.v ===== *)
(** * What the clients promise

    Deleting a workspace, what the agent is told, and the status texts. *)

From S2P Require Import Prelude GoStrings Types Config Provider Options SshConfig.
From S2P Require Import Home Clients Workspaces Paths Registry RegistryProps.
From S2P Require OptionsProps Ide.
From stdpp Require Import base gmap sets list strings.

Local Open Scope string_scope.
Local Open Scope list_scope.

(** ** Commands change nothing but the history *)

Definition ran_only (h h' : home) : Prop :=
  same_files h h' ∧ h_ssh h = h_ssh h' ∧ h_ran h `prefix_of` h_ran h'.
#[export] Instance ran_only_preorder : PreOrder ran_only.
Proof.
  split.
  - intros h. unfold ran_only, same_files. split_and!; done.
  - intros h1 h2 h3 ((? & ? & ? & ?) & ? & ?) ((? & ? & ? & ?) & ? & ?).
    unfold ran_only, same_files. split_and!; congruence || by etrans.
Qed.

Section Commands.
Context (o : osys) (cfg : Config) (compress : AgentWorkspaceInfo → string + string).

Lemma stays_run name command environ : stays ran_only (runCommand o name command environ).
Proof.
  unfold runCommand. destruct command as [[|w ws]|]; [stays| |stays].
  intros h. cbn. unfold ran_only, same_files. split_and!; try done. by eexists.
Qed.
#[local] Hint Resolve stays_run : stays.
Lemma stays_run_binaries name command context workspace machine options config env :
  stays ran_only
    (RunCommandWithBinaries o name command context workspace machine options config env).
Proof. unfold RunCommandWithBinaries. stays. Qed.
#[local] Hint Resolve stays_run_binaries : stays.
Lemma stays_machine_command c name command env :
  stays ran_only (machine_command o cfg c name command env).
Proof. unfold machine_command. stays. Qed.
#[local] Hint Resolve stays_machine_command : stays.
Lemma stays_succeed c : stays ran_only c → stays ran_only (succeed c).
Proof. unfold succeed. stays. Qed.
#[local] Hint Resolve stays_succeed : stays.
Lemma stays_machine_Status c : stays ran_only (machine_Status o cfg c).
Proof. unfold machine_Status. stays. Qed.
#[local] Hint Resolve stays_machine_Status : stays.
Lemma stays_isMachineRunning c : stays ran_only (isMachineRunning o cfg c).
Proof. unfold isMachineRunning. stays. Qed.
#[local] Hint Resolve stays_isMachineRunning : stays.
Lemma stays_agent_command c info action : stays ran_only (agent_command o cfg c info action).
Proof. unfold agent_command. stays. Qed.
#[local] Hint Resolve stays_agent_command : stays.
Lemma stays_delete_container c opt : stays ran_only (delete_container o cfg compress c opt).
Proof. unfold delete_container, agent_info. stays. Qed.
Lemma stays_Status c b : stays ran_only (workspace_Status o cfg compress c b).
Proof. unfold workspace_Status, getContainerStatus, agent_info. stays. Qed.
End Commands.
#[export] Hint Resolve stays_run stays_run_binaries stays_machine_command stays_succeed
  stays_machine_Status stays_isMachineRunning stays_agent_command stays_delete_container
  stays_Status : stays.

(** ** Deleting *)

Lemma NewMachineClient_Ok p m mcl :
  NewMachineClient p m = Ok mcl →
  mcl_config mcl = p ∧ m = Some (mcl_machine mcl) ∧ IsMachineProvider p = true.
Proof.
  unfold NewMachineClient. destruct (IsMachineProvider p); [|done]. cbn.
  destruct m; [|done]. by intros [= <-].
Qed.

Section Delete.
Context (root : list string) (o : osys) `{!Healthy o root} `{!SysOk (o_sys o)} (cfg : Config)
        (compress : AgentWorkspaceInfo → string + string).

Definition words (c : StrArray) : list string := default [] c.

(** The last command that ran, with at least the variables [env], and what it answered. *)
Definition last_ran (h : home) (name : string) (command : list string)
    (env : gmap string string) (r : exec_result) : Prop :=
  ∃ before environ, h_ran h = before ++ [ProviderCmd name command environ] ∧
    o_exec o before (ProviderCmd name command environ) = r ∧
    ∀ k v, env !! k = Some v → k +:+ "=" +:+ v ∈ environ.

Lemma ToEnvironmentWithBinaries_extra context workspace machine options config env environ k v :
  ToEnvironmentWithBinaries o context workspace machine options config env = Ok environ →
  env !! k = Some v → k +:+ "=" +:+ v ∈ environ.
Proof.
  unfold ToEnvironmentWithBinaries, ToEnvironment. intros (b & _ & [= <-])%bind_Ok Hk.
  apply elem_of_app. left. apply elem_of_app. right. apply elem_of_app. right.
  apply list_elem_of_fmap. exists (k, v). split; [done|].
  rewrite (s_iter_perm _ env). by apply elem_of_map_to_list.
Qed.

Lemma RunCommandWithBinaries_ran name command context workspace machine options config env h r h' :
  RunCommandWithBinaries o name command context workspace machine options config env h = (Ok r, h') →
  (words command = [] ∧ r = ExecResult "" "" None) ∨ last_ran h' name (words command) env r.
Proof.
  unfold RunCommandWithBinaries. intros (environ & h1 & H1 & H2)%M_bind_Ok.
  injection H1 as H1 <-. destruct command as [[|w ws]|]; cbn in H2.
  - injection H2 as <- _. by left.
  - right. injection H2 as <- <-. eexists _, _. split_and!; [done..|]. intros k v Hk.
    pose proof (ToEnvironmentWithBinaries_extra _ _ _ _ _ _ _ _ _ H1 Hk).
    case_decide; [apply elem_of_app; by left|done].
  - injection H2 as <- _. by left.
Qed.
Lemma succeed_Ok (c : M home exec_result) h h' :
  succeed c h = (Ok (), h') → ∃ r, c h = (Ok r, h') ∧ xr_err r = None.
Proof.
  unfold succeed. intros (r & h1 & H1 & H2)%M_bind_Ok. exists r.
  destruct (xr_err r) eqn:E; [done|]. injection H2 as <-. done.
Qed.

(** What the agent on the machine is told. *)
Definition removal_command (info : string * AgentWorkspaceInfo) : string :=
  "'" +:+ a_path (ai_agent info.2) +:+ "' agent workspace delete --workspace-info '" +:+
  info.1 +:+ "'".
(** What is known about the container or the machine of the workspace when
    it was deleted: the command that deletes it was the last one and succeeded,
    the machine was not running, or there is no machine or no such command. *)
Definition remote_gone (c : workspaceClient) (h : home) : Prop :=
  let exec := p_exec (wc_config c) in
  if negb (isMachineProvider c) || negb (wm_autoDelete (w_machine (wc_workspace c))) then
    words (e_command exec) = [] ∨
    (∃ r info, compressedAgentInfo o cfg compress c no_cli = Ok info ∧
       last_ran h "command" (words (e_command exec)) {["COMMAND" := removal_command info]} r ∧
       xr_err r = None) ∨
    (isMachineProvider c = true ∧ ∃ r st, last_ran h "status" (words (e_status exec)) ∅ r ∧
       ParseStatus (xr_stdout r) = Ok st ∧ st ≠ StatusRunning)
  else
    wc_machine c = None ∨ wm_id (w_machine (wc_workspace c)) = "" ∨
    words (e_delete exec) = [] ∨
    (∃ r, last_ran h "delete" (words (e_delete exec)) ∅ r ∧ xr_err r = None).

Lemma last_ran_same h h' name command env r :
  h_ran h = h_ran h' → last_ran h name command env r → last_ran h' name command env r.
Proof. intros He (b & e & Hr & ?). exists b, e. by rewrite <- He. Qed.
Lemma remote_gone_same c h h' : h_ran h = h_ran h' → remote_gone c h → remote_gone c h'.
Proof.
  intros He. unfold remote_gone. destruct (negb _ || negb _); intros H.
  - destruct H as [?|[(r & info & ? & ? & ?)|(? & r & st & ? & ? & ?)]]; [by left|right; left|right; right].
    + exists r, info. split_and!; [done|by eapply last_ran_same|done].
    + split; [done|]. exists r, st. split; [by eapply last_ran_same|done].
  - destruct H as [?|[?|[?|(r & ? & ?)]]]; [by left|right; by left|right; right; by left|].
    do 3 right. exists r. split; [by eapply last_ran_same|done].
Qed.

Lemma machine_Status_Ok mcl h st h' :
  machine_Status o cfg mcl h = (Ok st, h') →
  ∃ r, machine_command o cfg mcl "status" (e_status (p_exec (mcl_config mcl))) ∅ h = (Ok r, h') ∧
       ParseStatus (xr_stdout r) = Ok st.
Proof.
  unfold machine_Status. intros (r & h1 & H1 & H2)%M_bind_Ok. unfold caught in H1.
  destruct (machine_command _ _ _ _ _ _ _) as [r1 h2]. injection H1 as <- <-.
  destruct r1 as [r1|e| |]; [|done..]. exists r1.
  destruct (xr_err r1); [done|]. injection H2 as -> ->. done.
Qed.

Lemma machine_command_ran mcl name command env h r h' :
  machine_command o cfg mcl name command env h = (Ok r, h') →
  (words command = [] ∧ r = ExecResult "" "" None) ∨ last_ran h' name (words command) env r.
Proof.
  unfold machine_command. intros (opts & h1 & H1 & H2)%M_bind_Ok. injection H1 as _ <-.
  by eapply RunCommandWithBinaries_ran.
Qed.

(** Without force, the container is known to be gone. *)
Lemma delete_container_Ok c opt h h' :
  negb (isMachineProvider c) || negb (wm_autoDelete (w_machine (wc_workspace c))) = true →
  delete_container o cfg compress c opt h = (Ok (), h') →
  do_force opt = true ∨ remote_gone c h'.
Proof.
  intros Hc H. unfold delete_container in H. unfold remote_gone. rewrite Hc.
  destruct (do_force opt) eqn:Hf; [by left|right].
  apply M_bind_Ok in H as (r & h1 & H1 & H2). unfold caught in H1.
  destruct (isMachineRunning o cfg c h) as [r1 h2] eqn:Hrun. injection H1 as <- <-.
  destruct r1 as [[]|e| |]; [| |done..].
  - apply M_bind_Ok in H2 as (info & h3 & H3 & H4). injection H3 as Hinfo <-.
    apply M_bind_Ok in H4 as (r & h4 & H4 & H5). unfold caught in H4.
    destruct (succeed _ h2) as [r2 h5] eqn:Hs. injection H4 as <- <-.
    destruct r2 as [[]|e| |]; [|done..]. injection H5 as <-.
    apply succeed_Ok in Hs as (r & Hr & Hn). unfold agent_command in Hr.
    apply M_bind_Ok in Hr as (opts & h6 & H6 & H7). injection H6 as _ <-.
    apply RunCommandWithBinaries_ran in H7 as [[? _]|Hlast]; [by left|]. right; left.
    exists r, info. split_and!; [|exact Hlast|done].
    by destruct (compressedAgentInfo o cfg compress c no_cli).
  - injection H2 as <-. unfold isMachineRunning in Hrun.
    destruct (isMachineProvider c) eqn:Hm; [|done]. cbn [negb] in Hrun.
    apply M_bind_Ok in Hrun as (mcl & h3 & H3 & H4). injection H3 as Hmcl <-.
    apply M_bind_Ok in H4 as (r & h4 & H4 & H5). unfold caught in H4.
    destruct (machine_Status o cfg mcl h) as [r2 h5] eqn:Hs. injection H4 as <- <-.
    destruct r2 as [st|e| |]; [|done..]. injection H5 as Hst <-.
    apply machine_Status_Ok in Hs as (r & Hr & Hp).
    assert (mcl_config mcl = wc_config c) as Hcfg.
    { by apply NewMachineClient_Ok in Hmcl as (? & ?). }
    right; right. split; [done|]. rewrite Hcfg in Hr.
    apply machine_command_ran in Hr as [[? ->]|?].
    + vm_compute in Hp. done.
    + exists r, st. split_and!; [done..|]. by apply bool_decide_eq_false in Hst.
Qed.

Lemma refines_ran root' h h' r : ran_only h h' → refines root' h r → refines root' h' r.
Proof. intros [? _]. by apply refines_same. Qed.

Lemma DeleteWorkspaceFolder_ran ctx id ssh h r h' :
  DeleteWorkspaceFolder o ctx id ssh h = (r, h') → h_ran h = h_ran h'.
Proof.
  intros H. pose proof (f_equal (h_ran ∘ snd) H) as Hh. cbn in Hh. rewrite <- Hh. clear.
  assert (stays (λ h h', h_ran h = h_ran h') (DeleteWorkspaceFolder o ctx id ssh)) as Hs; [|apply Hs].
  unfold DeleteWorkspaceFolder, RemoveAll. assert (PreOrder (λ h h' : home, h_ran h = h_ran h')).
  { split; [by intros ?|by intros ??? -> ->]. }
  stays.
  - apply stays_try. intros h0. unfold zoom. destruct (RemoveFromConfig _ _ _) as [? []]; done.
  - by intros h0.
Qed.

(** Deleting the machine: its record is removed exactly when the call
    succeeds, and without force only after the provider's command did. *)
Lemma machine_Delete_run mcl opt h r :
  plain (mc_context (mcl_machine mcl)) = true → plain (mc_id (mcl_machine mcl)) = true →
  refines root h r →
  let '(res, h') := machine_Delete o cfg mcl opt h in
  match res with
  | Ok _ => refines root h' (Registry (r_workspaces r)
              (delete (mc_context (mcl_machine mcl), mc_id (mcl_machine mcl)) (r_machines r))) ∧
            (do_force opt = true ∨ words (e_delete (p_exec (mcl_config mcl))) = [] ∨
             ∃ x, last_ran h' "delete" (words (e_delete (p_exec (mcl_config mcl)))) ∅ x ∧
                  xr_err x = None)
  | _ => refines root h' r
  end.
Proof.
  intros Hc Hi Hr. unfold machine_Delete. unfold mbind at 1, M_bind at 1, caught.
  pose proof (stays_succeed _ (stays_machine_command o cfg mcl "delete"
    (e_delete (p_exec (mcl_config mcl))) ∅) h) as Hstay.
  destruct (succeed _ h) as [res h1] eqn:Hs. cbn in Hstay.
  pose proof (refines_ran _ _ _ _ Hstay Hr) as Hr1.
  destruct (DeleteMachineFolder_run root o (mc_context (mcl_machine mcl))
    (mc_id (mcl_machine mcl)) h1 r) as (h2 & Hrun & Hr2); [done..|].
  destruct res as [[]|e| |]; cbv iota beta; [|destruct (do_force opt) eqn:Hf|done..].
  - rewrite Hrun. split; [done|]. right. apply succeed_Ok in Hs as (x & Hx & ?).
    apply machine_command_ran in Hx as [[? _]|Hx]; [by left|right].
    exists x. split; [|done]. eapply last_ran_same; [|exact Hx].
    unfold DeleteMachineFolder in Hrun. apply M_bind_Ok in Hrun as (d & h3 & [= _ <-] & Hrm).
    rewrite (RemoveAll_run root o) in Hrm. by injection Hrm as <-.
  - rewrite Hrun. split; [done|by left].
  - done.
Qed.

(** The machine whose record goes with the workspace. *)
Definition deleted_machine (c : workspaceClient) (ms : gmap (string * string) Machine)
    : gmap (string * string) Machine :=
  match wc_machine c with
  | Some m =>
      if isMachineProvider c && wm_autoDelete (w_machine (wc_workspace c)) &&
         negb (sempty (wm_id (w_machine (wc_workspace c)))) &&
         (0 <? len (e_delete (p_exec (wc_config c))))%nat
      then delete (mc_context m, mc_id m) ms else ms
  | None => ms
  end.

(** The part of [Delete] before the folder of the workspace. *)
Definition delete_remote (c : workspaceClient) (opt : DeleteOptions) : M home unit :=
  if negb (isMachineProvider c) || negb (wm_autoDelete (w_machine (wc_workspace c)))
  then delete_container o cfg compress c opt
  else match wc_machine c with
       | Some machine =>
           if negb (sempty (wm_id (w_machine (wc_workspace c)))) &&
              (0 <? len (e_delete (p_exec (wc_config c))))%nat
           then machineClient ← liftR (NewMachineClient (wc_config c) (Some machine));
                machine_Delete o cfg machineClient opt
           else mret ()
       | None => mret ()
       end.

Lemma len_words (a : StrArray) : (0 <? len a)%nat = false → words a = [].
Proof. by destruct a as [[]|]. Qed.

Lemma delete_remote_run c opt h r :
  (∀ m, wc_machine c = Some m → plain (mc_context m) = true ∧ plain (mc_id m) = true) →
  refines root h r →
  let '(res, h') := delete_remote c opt h in
  match res with
  | Ok _ => refines root h' (Registry (r_workspaces r) (deleted_machine c (r_machines r))) ∧
            (do_force opt = true ∨ remote_gone c h')
  | _ => refines root h' r
  end.
Proof.
  intros Hm Hr. unfold delete_remote, deleted_machine.
  destruct (negb (isMachineProvider c) || _) eqn:Hc.
  - pose proof (stays_delete_container o cfg compress c opt h) as Hs.
    pose proof (delete_container_Ok c opt h) as Hok.
    destruct (delete_container _ _ _ _ _ _) as [res h1]. cbn in Hs.
    pose proof (refines_ran _ _ _ _ Hs Hr) as Hr1. destruct res as [[]|e| |]; [|done..].
    split; [|by apply Hok]. destruct r as [ws ms]; cbn [r_workspaces r_machines].
    destruct (wc_machine c); [|done].
    apply orb_true_iff in Hc as [->%negb_true_iff| ->%negb_true_iff]; [done|].
    by rewrite andb_false_r.
  - assert (isMachineProvider c = true ∧ wm_autoDelete (w_machine (wc_workspace c)) = true) as [Hp Ha].
    { by apply orb_false_iff in Hc as [?%negb_false_iff ?%negb_false_iff]. }
    unfold remote_gone. rewrite Hc, Hp, Ha. cbn [andb].
    destruct (wc_machine c) as [m|] eqn:Hw.
    2: { cbn. split; [by destruct r|]. right. by left. }
    destruct (negb (sempty _)) eqn:Hid; cbn [andb].
    2: { cbn. split; [by destruct r|]. right. right. left.
         by apply negb_false_iff, bool_decide_eq_true in Hid. }
    destruct (0 <? len _)%nat eqn:Hl.
    2: { cbn. split; [by destruct r|]. do 3 right. left. by apply len_words. }
    assert (NewMachineClient (wc_config c) (Some m) = Ok (MachineClient (wc_config c) m)) as ->.
    { unfold NewMachineClient. unfold isMachineProvider in Hp. by rewrite Hp. }
    runM. destruct (Hm m eq_refl).
    pose proof (machine_Delete_run (MachineClient (wc_config c) m) opt h r) as Hd.
    destruct (machine_Delete _ _ _ _ _) as [res h1]. cbn in Hd. specialize (Hd ltac:(done) ltac:(done) Hr).
    destruct res; [|done..]. destruct Hd as [? Hd]. split; [done|].
    destruct Hd as [?|Hd]; [by left|right]. right. right. exact Hd.
Qed.

(** C17: deleting a workspace: when the call succeeds the workspace is gone from
    the registry, with its machine when that is deleted with it, and nothing
    else has changed.  Unless it was forced, the last command before was, without an error,
    the one that tells the agent to delete the container, or the one that deletes the
    machine when that goes with the workspace; or there was nothing to run: the machine did
    not run, there is none, or the provider has no such command.  When the call
    fails, nothing is lost and it can be repeated. *)
Theorem Delete_outcome c opt h r :
  plain (w_context (wc_workspace c)) = true → plain (w_id (wc_workspace c)) = true →
  (∀ m, wc_machine c = Some m → plain (mc_context m) = true ∧ plain (mc_id m) = true) →
  refines root h r →
  let '(res, h') := Clients.Delete o cfg compress c opt h in
  match res with
  | Ok _ =>
      refines root h' (Registry (delete (w_context (wc_workspace c), w_id (wc_workspace c))
                                   (r_workspaces r))
                                (deleted_machine c (r_machines r))) ∧
      (do_force opt = true ∨ remote_gone c h')
  | _ => refines root h' r
  end.
Proof.
  intros Hc Hi Hm Hr. change (Clients.Delete o cfg compress c opt) with
    (delete_remote c opt ≫= λ _, DeleteWorkspaceFolder o (w_context (wc_workspace c))
       (w_id (wc_workspace c)) (w_sshConfigPath (wc_workspace c))).
  pose proof (delete_remote_run c opt h r Hm Hr) as Hd. unfold mbind, M_bind.
  destruct (delete_remote c opt h) as [[[]|e| |] h1]; [|done..].
  destruct Hd as [Hr1 Hg].
  destruct (DeleteWorkspaceFolder_run root o (w_context (wc_workspace c)) (w_id (wc_workspace c))
    (w_sshConfigPath (wc_workspace c)) h1 _ Hc Hi Hr1) as (h2 & Hrun & Hr2).
  rewrite Hrun. split; [done|]. destruct Hg as [?|Hg]; [by left|right].
  eapply remote_gone_same; [|exact Hg]. by eapply DeleteWorkspaceFolder_ran.
Qed.
End Delete.

(** ** What the agent is told *)

(** without a custom driver, an agent of the platform, or one whose daemon is
    disabled, is told no provider option: not those of the context, of the
    workspace or of the machine, so that a privileged container cannot keep
    them.  In every other case the agent gets all of them. *)
Theorem agentInfo_hides o cfg c cli info :
  agentInfo o cfg c cli = Ok info →
  let hidden := cli_platformEnabled cli || cli_disableDaemon cli in
  (hidden = true → a_driver (ai_agent info) ≠ CustomDriver →
     ai_options info = ∅ ∧ gm_elems (wpr_options (w_provider (ai_workspace info))) = ∅ ∧
     ∀ m, ai_machine info = Some m → gm_elems (mp_options (mc_provider m)) = ∅) ∧
  (hidden = false ∨ a_driver (ai_agent info) = CustomDriver →
     provider_options cfg (p_name (wc_config c)) = Ok (ai_options info) ∧
     ai_workspace info = wc_workspace c ∧ ai_machine info = wc_machine c).
Proof.
  unfold agentInfo. intros H. inv_ok. subst info. cbn -[provider_options].
  match goal with |- context [a_driver ?a = CustomDriver] => set (agent := a) in * end.
  destruct (cli_platformEnabled cli || cli_disableDaemon cli) eqn:Hh.
  - rewrite !andb_true_r. split.
    + intros _ Hd. rewrite bool_decide_eq_false_2 by done. cbn. split_and!; [done|done|].
      intros m. destruct (wc_machine c); [|done]. by intros [= <-].
    + intros [|Hd]; [done|]. by rewrite bool_decide_eq_true_2.
  - rewrite !andb_false_r. done.
Qed.

(** ** Status texts *)

Lemma ParseStatus_spec x st :
  ParseStatus x = Ok st ↔ ToUpper (TrimSpace x) = ToUpper (Status_String st).
Proof.
  unfold ParseStatus. split.
  - repeat case_decide; try done; intros [= <-]; done.
  - intros ->. by destruct st.
Qed.

(** ** An example *)

Definition demo_home : home :=
  (run_ops demo_osys OptionsProps.demo_config
     [OpSave OptionsProps.demo_workspace; OpSave demo_other] empty_home).2.
Definition demo_registry : registry :=
  (spec_ops OptionsProps.demo_config
     [OpSave OptionsProps.demo_workspace; OpSave demo_other] (Registry ∅ ∅)).2.
Lemma demo_refines : refines ["home"; "me"; ".devpod"] demo_home demo_registry.
Proof.
  pose proof (run_op_refines ["home"; "me"; ".devpod"] demo_osys OptionsProps.demo_config eq_refl
    (OpSave OptionsProps.demo_workspace) empty_home (Registry ∅ ∅) eq_refl
    (refines_empty _ demo_osys)) as (a & h1 & H1 & _ & R1).
  pose proof (run_op_refines ["home"; "me"; ".devpod"] demo_osys OptionsProps.demo_config eq_refl
    (OpSave demo_other) h1 _ eq_refl R1) as (b & h2 & H2 & _ & R2).
  unfold demo_home, demo_registry. cbn [run_ops]. rewrite H1, H2. exact R2.
Qed.

Definition demo_client : workspaceClient :=
  WorkspaceClient OptionsProps.demo_provider OptionsProps.demo_workspace None.
Definition demo_delete : DeleteOptions :=
  {| do_platformEnabled := false; do_ignoreNotFound := false; do_force := false;
     do_gracePeriod := "" |}.
Definition demo_deleted : result unit * home :=
  Clients.Delete demo_osys OptionsProps.demo_config (λ _, inr "info") demo_client demo_delete demo_home.

#[local] Instance demo_osys_sys : SysOk (o_sys demo_osys) := OptionsProps.demo_sys_ok.
Lemma Delete_outcome_witness :
  demo_deleted.1 = Ok () ∧
  refines ["home"; "me"; ".devpod"] demo_deleted.2
    (Registry {[("default", "api") := encode_workspace demo_other]} ∅) ∧
  remote_gone demo_osys OptionsProps.demo_config (λ _, inr "info") demo_client demo_deleted.2.
Proof.
  pose proof (Delete_outcome ["home"; "me"; ".devpod"] demo_osys OptionsProps.demo_config
    (λ _, inr "info") demo_client demo_delete demo_home demo_registry eq_refl eq_refl
    ltac:(done) demo_refines) as H.
  assert (demo_deleted.1 = Ok ()) as Hok by (vm_compute; reflexivity).
  fold demo_deleted in H. destruct demo_deleted as [res h']. cbn in Hok. subst res.
  destruct H as [Hr [Hf|Hg]]; [done|]. split; [done|]. split; [|exact Hg].
  exact Hr.
Defined.

Definition demo_info : result AgentWorkspaceInfo :=
  agentInfo demo_osys OptionsProps.demo_config
    (WorkspaceClient OptionsProps.demo_provider
       (with_workspace_options OptionsProps.demo_workspace (Some {["TOKEN" := Ide.user_value "s3cret"]}))
       None)
    (platform_cli {| po_enabled := true; po_accessKey := ""; po_workspaceHost := "";
       po_platformHost := ""; po_environmentTemplate := "";
       po_environmentTemplateVersion := ""; po_build := None |}).
Lemma agentInfo_hides_witness :
  ∃ info, demo_info = Ok info ∧ gm_elems (wpr_options (w_provider (ai_workspace info))) = ∅.
Proof.
  destruct demo_info as [info| | |] eqn:E; [|vm_compute in E; discriminate E..].
  exists info. split; [reflexivity|].
  destruct (agentInfo_hides _ _ _ _ _ E) as [H _]. apply H; [reflexivity|].
  vm_compute in E. injection E as <-. discriminate.
Defined.
