(* ===== verification/WorkspacesProps.v ===== *)
(** * Listing, creating and deleting workspaces *)

From S2P Require Import Prelude GoStrings Types Config Git Names Provider Options SshConfig.
From S2P Require Import Home Clients Workspaces Paths Registry RegistryProps ClientsProps.
From S2P Require Names OptionsProps Ide.
From stdpp Require Import base gmap sets list strings sorting.
From Stdlib Require Import ZArith.

Local Open Scope string_scope.
Local Open Scope list_scope.

(** ** Names that the code makes *)

Lemma id_char_plain n :
  sforall WorkspaceID.is_id_char n = true → n ≠ "" → plain n = true.
Proof.
  intros Hn Hne. unfold plain. apply andb_true_intro. split.
  - eapply sforall_impl; [|exact Hn]. intros c Hc. cbn beta.
    apply negb_true_iff, bool_decide_eq_false. by intros ->.
  - apply negb_true_iff, bool_decide_eq_false. intros Hin.
    apply elem_of_cons in Hin as [->|Hin]; [done|].
    apply elem_of_cons in Hin as [->|Hin]; [done|].
    by apply list_elem_of_singleton in Hin as ->.
Qed.
Lemma ToID_plain x : WorkspaceID.ToID x ≠ "" → plain (WorkspaceID.ToID x) = true.
Proof. apply id_char_plain, Names.ToID_chars. Qed.

(** ** What only reads *)

Section Reading.
Context (o : osys) (rm : remote) (cfg : Config).

Lemma stays_zoom_read {T A} (get : home → T) (set : T → home → home) (c : M T A) :
  (∀ h, set (get h) h = h) → stays eq c → stays eq (zoom get set c).
Proof.
  intros Hg Hc h. unfold zoom. specialize (Hc (get h)).
  destruct (c (get h)) as [r t]. cbn in *. by rewrite <- Hc, Hg.
Qed.
Lemma stays_read_file {V} path : stays eq (read_file (V := V) path).
Proof. by intros m. Qed.
#[local] Hint Resolve stays_read_file : stays.
Lemma stays_loadWorkspaceConfig ctx id : stays eq (loadWorkspaceConfig o ctx id).
Proof.
  apply stays_zoom_read; [by intros []|]. unfold LoadWorkspaceConfig. stays.
Qed.
Lemma stays_loadMachineConfig ctx id : stays eq (loadMachineConfig o ctx id).
Proof.
  apply stays_zoom_read; [by intros []|]. unfold LoadMachineConfig. stays.
Qed.
Lemma stays_LoadProviderConfig ctx p : stays eq (LoadProviderConfig o ctx p).
Proof.
  unfold LoadProviderConfig. stays. apply stays_zoom_read; [by intros []|]. stays.
Qed.
#[local] Hint Resolve stays_loadWorkspaceConfig stays_loadMachineConfig
  stays_LoadProviderConfig : stays.
Lemma stays_ReadDir dir : stays eq (ReadDir o dir).
Proof. unfold ReadDir. stays. Qed.
#[local] Hint Resolve stays_ReadDir : stays.
Lemma stays_load_machines l : stays eq (load_machines o cfg l).
Proof. induction l; cbn; stays. Qed.
#[local] Hint Resolve stays_load_machines : stays.
Lemma stays_SingleMachineName p : stays eq (SingleMachineName o rm cfg p).
Proof.
  unfold SingleMachineName, listMachines. stays. apply stays_caught. stays.
Qed.
Lemma stays_LoadAllProviders : stays eq (LoadAllProviders o cfg).
Proof.
  unfold LoadAllProviders. stays.
  - generalize (∅ : gmap string ProviderWithOptions).
    induction (s_iter _ _) as [|kv l IH]; intros acc; stays.
  - match goal with |- stays _ (_ ?a ?l) => revert a; induction l as [|e l IH] end; intros acc; stays.
Qed.
#[local] Hint Resolve stays_LoadAllProviders : stays.
Lemma stays_FindProvider name : stays eq (FindProvider o cfg name).
Proof. unfold FindProvider. stays. Qed.
#[local] Hint Resolve stays_FindProvider : stays.
Lemma stays_LoadProviders : stays eq (LoadProviders o cfg).
Proof. unfold LoadProviders. stays. Qed.
Lemma stays_loadExistingMachine id : stays eq (loadExistingMachine o cfg id).
Proof. unfold loadExistingMachine. stays. Qed.
#[local] Hint Resolve stays_loadExistingMachine : stays.
Lemma stays_dir_exists d : stays eq (dir_exists d).
Proof. unfold dir_exists. stays. Qed.
Lemma stays_GetMachine name : stays eq (GetMachine o rm cfg name).
Proof. unfold GetMachine, MachineExists. stays. apply stays_dir_exists. Qed.
End Reading.

(** ** Deduplication by UID *)

Lemma by_uid_snoc l w : by_uid (l ++ [w]) = <[w_uid w := w]> (by_uid l).
Proof. unfold by_uid. by rewrite foldl_app. Qed.

Definition uids_apart (l : list Workspace) : Prop :=
  ∀ w w', w ∈ l → w' ∈ l → w_uid w = w_uid w' → w = w'.

Lemma by_uid_lookup l u w :
  uids_apart l → by_uid l !! u = Some w ↔ w ∈ l ∧ w_uid w = u.
Proof.
  revert u w. induction l as [|x l IH] using rev_ind; intros u w Hd.
  - cbn. rewrite lookup_empty. split; [done|by intros [?%elem_of_nil _]].
  - assert (uids_apart l) as Hl by (intros ????; apply Hd; apply elem_of_app; by left).
    rewrite by_uid_snoc, lookup_insert_Some, (IH _ _ Hl), elem_of_snoc. split.
    + intros [[<- ->]|(Hne & Hin & Hu)]; [split; [by right|done]|split; [by left|done]].
    + intros [[Hin|<-] Hu]; [|by left].
      destruct (decide (w_uid x = u)) as [Hx|Hx]; [left|by right].
      split; [done|]. apply Hd; [apply elem_of_snoc; by right|apply elem_of_snoc; by left|congruence].
Qed.

Lemma by_uid_ext l k :
  uids_apart l → (∀ w, w ∈ k ↔ w ∈ l) → by_uid k = by_uid l.
Proof.
  intros Hl Hk. apply map_eq. intros u. apply option_eq. intros w.
  rewrite !by_uid_lookup; [by rewrite Hk|done|].
  intros x y Hx%Hk Hy%Hk. by apply Hl.
Qed.

Section List.
Context (root : list string) (o : osys) `{!Healthy o root} `{!SysOk (o_sys o)}.
Context (rm : remote) (cfg : Config) (Hctx : plain (c_defaultContext cfg) = true).
Notation ctx0 := (c_defaultContext cfg).

(** No provider of the platform is set up. *)
Definition no_platform (h : home) : Prop := listProWorkspaces o rm cfg h = (Ok ∅, h).

Lemma clean_local_empty all l h :
  clean_local o rm cfg ∅ all l h = (Ok (concat (replicate (length l) all)), h).
Proof.
  induction l as [|w l IH]; [done|]. cbn [clean_local length replicate concat].
  unfold shouldDeleteLocalWorkspace. rewrite lookup_empty, andb_false_r.
  by rewrite (run_Ok _ _ _ _ _ IH).
Qed.

Lemma iter_nil {V} : s_iter (o_sys o) (∅ : gmap string V) = [].
Proof. apply Permutation_nil_r. rewrite s_iter_perm. by rewrite map_to_list_empty. Qed.

Lemma elem_of_copies {A} (l : list A) x : x ∈ concat (replicate (length l) l) ↔ x ∈ l.
Proof.
  rewrite list_elem_of_In, in_concat. split.
  - intros (k & Hk%list_elem_of_In & Hx%list_elem_of_In).
    by apply elem_of_replicate in Hk as [-> _].
  - intros Hx. exists l. rewrite <- !list_elem_of_In. split; [|done].
    apply elem_of_replicate. split; [done|]. destruct l; [by apply elem_of_nil in Hx|done].
Qed.

Definition local_workspaces (skipPro : bool) (r : registry) : list Workspace :=
  omap (loaded root cfg skipPro r) (names_in ctx0 (r_workspaces r)).

(** [List] returns the local workspaces, each once. *)
Lemma List_run skipPro h r :
  no_platform h → refines root h r → uids_apart (local_workspaces skipPro r) →
  ∃ l, List o rm cfg skipPro h = (Ok l, h) ∧
       l ≡ₚ (map_to_list (by_uid (local_workspaces skipPro r))).*2.
Proof.
  intros Hpro Hr Hd. unfold List.
  rewrite (run_Ok _ _ _ _ _ (ListLocalWorkspaces_run root o cfg Hctx skipPro h r Hr)).
  fold (local_workspaces skipPro r). destruct skipPro.
  - runM. eexists. split; [done|]. cbn. by rewrite s_iter_perm.
  - eexists. split.
    + unfold mbind, M_bind. rewrite Hpro, clean_local_empty. cbn. reflexivity.
    + rewrite iter_nil. cbn [fmap list_fmap concat foldl]. rewrite s_iter_perm.
      rewrite (by_uid_ext (local_workspaces false r)); [done|done|].
      intros w. apply elem_of_copies.
Qed.

Lemma List_elem skipPro h r :
  no_platform h → refines root h r → uids_apart (local_workspaces skipPro r) →
  ∃ l, List o rm cfg skipPro h = (Ok l, h) ∧ ∀ w, w ∈ l ↔ w ∈ local_workspaces skipPro r.
Proof.
  intros Hpro Hr Hd. destruct (List_run skipPro h r Hpro Hr Hd) as (l & Hrun & Hl).
  exists l. split; [done|]. intros w. rewrite Hl, list_elem_of_fmap. split.
  - intros ([u w'] & -> & Hin%elem_of_map_to_list). cbn. by apply by_uid_lookup in Hin as [? _].
  - intros Hin. exists (w_uid w, w). split; [done|]. apply elem_of_map_to_list.
    by apply by_uid_lookup.
Qed.

Lemma names_in_elem {V} (m : gmap (string * string) V) ctx id :
  id ∈ names_in ctx m ↔ is_Some (m !! (ctx, id)).
Proof.
  unfold names_in. rewrite (merge_sort_Permutation String.le), list_elem_of_omap. split.
  - intros ([[c i] v] & Hin%elem_of_map_to_list & He). cbn in He. case_decide; [|done].
    injection He as <-. subst c. by eexists.
  - intros [v Hv]. exists ((ctx, id), v). split; [by apply elem_of_map_to_list|].
    cbn. by rewrite decide_True.
Qed.

(** The visible workspaces of the registry are in the listing. *)
Lemma local_workspaces_elem r id w :
  r_workspaces r !! (ctx0, id) = Some w → HasPrefix id "." = false →
  ∃ w', w' ∈ local_workspaces false r ∧ w_id w' = w_id w ∧ w_machine w' = w_machine w ∧
        w_uid w' = w_uid w ∧ w_pro w' = w_pro w.
Proof.
  intros Hw Hh. eexists. split.
  - apply list_elem_of_omap. exists id. split; [apply names_in_elem; by eexists|].
    unfold loaded. rewrite Hh, Hw. reflexivity.
  - done.
Qed.

Lemma stays_eq_run {A} (c : M home A) h r h' : stays eq c → c h = (r, h') → h' = h.
Proof. intros Hs Hc. specialize (Hs h). rewrite Hc in Hs. done. Qed.

Lemma GetMachine_Ok name h r mcl h' :
  refines root h r → GetMachine o rm cfg name h = (Ok mcl, h') →
  mc_context (mcl_machine mcl) = ctx0 ∧
  mc_id (mcl_machine mcl) = WorkspaceID.ToID (rm_isLocalDir rm name).2 ∧
  plain (mc_id (mcl_machine mcl)) = true.
Proof.
  intros Hr H. unfold GetMachine in H. set (id := WorkspaceID.ToID _) in *.
  apply M_bind_Ok in H as (b & h1 & H1 & H2). apply stays_eq_run in H1 as ->; [|apply stays_dir_exists].
  destruct b; [|done]. cbn [negb] in H2. unfold loadExistingMachine in H2.
  apply M_bind_Ok in H2 as (m & h2 & H2 & H3).
  assert (plain id = true) as Hid.
  { apply ToID_plain. fold id. intros He. rewrite He in H2. discriminate H2. }
  rewrite (loadMachineConfig_run root o ctx0 id h r Hctx Hid Hr) in H2.
  destruct (r_machines r !! (ctx0, id)) as [m0|] eqn:Hm0; [|done]. injection H2 as <- <-.
  apply M_bind_Ok in H3 as (p & h3 & _ & H4). injection H4 as H4 _.
  apply NewMachineClient_Ok in H4 as (_ & [= <-] & _). cbn.
  by destruct (ref_mid root _ _ Hr _ _ _ Hm0) as [_ ->].
Qed.

(** the machine that workspaces share is deleted with a workspace only when
    no other workspace of the context is on it; exactly the workspace and the
    machine are then gone.  When it is kept nothing has changed. *)
Theorem deleteSingleMachine_safe client opt h r b h' :
  let w := client_workspace client in
  plain (w_context w) = true → plain (w_id w) = true →
  no_platform h → refines root h r → uids_apart (local_workspaces false r) →
  deleteSingleMachine o rm cfg client opt h = (Ok b, h') →
  if b : bool then
    (∀ id w', r_workspaces r !! (ctx0, id) = Some w' → HasPrefix id "." = false →
       wm_id (w_machine w') = wm_id (w_machine w) → w_id w' = w_id w) ∧
    refines root h' (Registry (delete (w_context w, w_id w) (r_workspaces r))
      (delete (ctx0, WorkspaceID.ToID (rm_isLocalDir rm (wm_id (w_machine w))).2) (r_machines r)))
  else h' = h.
Proof.
  intros w Hc Hi Hpro Hr Hd H. unfold deleteSingleMachine in H. fold w in H.
  apply M_bind_Ok in H as (name & h1 & H1 & H).
  apply stays_eq_run in H1 as ->; [|apply stays_SingleMachineName].
  apply M_bind_Ok in H as (ctx & h2 & H2 & H). injection H2 as Hcur <-.
  destruct (negb (IsSingleMachine ctx _) || _) eqn:Hs; [by injection H as <- <-|].
  apply orb_false_iff in Hs as [_ Hname%negb_false_iff%bool_decide_eq_true].
  destruct (List_elem false h r Hpro Hr Hd) as (l & Hl & Hin).
  unfold mbind at 1, M_bind at 1, caught at 1 in H. rewrite Hl in H. cbn [wrap] in H.
  rewrite run_lift_Ok in H. cbv beta in H.
  destruct (existsb _ l) eqn:Ho; [by injection H as <- <-|].
  apply M_bind_Ok in H as (rg & h3 & H3 & H). unfold caught in H3.
  destruct (GetMachine o rm cfg name h) as [rg' hg] eqn:Hg. injection H3 as <- <-.
  apply M_bind_Ok in H as (mcl & h4 & H4 & H). injection H4 as H4 <-. apply wrap_Ok in H4 as ->.
  pose proof Hg as Hg'. apply stays_eq_run in Hg' as ->; [|apply stays_GetMachine].
  destruct (GetMachine_Ok _ _ _ _ _ Hr Hg) as (Hmc & Hmi & Hmp).
  apply M_bind_Ok in H as (rd & h5 & H5 & H). unfold caught in H5.
  pose proof (machine_Delete_run root o cfg mcl opt h r) as Hdel.
  destruct (machine_Delete o cfg mcl opt h) as [rd' hd]. injection H5 as <- <-.
  apply M_bind_Ok in H as ([] & h6 & H6 & H). injection H6 as H6 <-. apply wrap_Ok in H6 as ->.
  rewrite Hmc in Hdel. destruct (Hdel Hctx Hmp Hr) as [Hrd _].
  apply M_bind_Ok in H as ([] & h7 & H7 & H). injection H as <- <-.
  destruct (DeleteWorkspaceFolder_run root o (w_context w) (w_id w) (w_sshConfigPath w) _ _ Hc Hi Hrd)
    as (h8 & H8 & Hr8). rewrite H8 in H7. injection H7 as <-. split.
  - intros id w' Hw' Hh Hm. destruct (local_workspaces_elem r id w' Hw' Hh) as (x & Hx & Hxi & Hxm & _).
    apply Hin in Hx. apply not_true_iff_false in Ho. destruct (decide (w_id w' = w_id w)); [done|].
    exfalso. apply Ho, existsb_exists. exists x. split; [by apply list_elem_of_In|].
    unfold other_on_machine. rewrite bool_decide_eq_false_2 by congruence.
    rewrite bool_decide_eq_true_2 by congruence. done.
  - rewrite Hname, <- Hmi. exact Hr8.
Qed.
End List.

(** ** Creating *)

Section Create.
Context (root : list string) (o : osys) `{!Healthy o root} `{!SysOk (o_sys o)}.
Context (rm : remote) (cfg : Config) (Hctx : plain (c_defaultContext cfg) = true).
Notation ctx0 := (c_defaultContext cfg).

(** The machines of a registry differ at one place at most. *)
Definition but_at (k : string * string) (ms ms' : gmap (string * string) Machine) : Prop :=
  ∀ k', k' ≠ k → ms' !! k' = ms !! k'.

Lemma machine_store_save h r ctx id m :
  plain ctx = true → plain id = true → refines root h r →
  is_Some (r_machines r !! (ctx, id)) → mc_context m = ctx → mc_id m = id →
  refines root (set_machines (<[abs (place root "machines" ctx id ++ ["machine.json"]) := m]>
                                (h_machines h)) h)
    (Registry (r_workspaces r) (<[(ctx, id) := m]> (r_machines r))).
Proof.
  intros Hc Hi [Hd Hw Hm Hwi Hmi] Hs <- <-. split; cbn; [done|done| |done|].
  - pose proof (proj2 (shelf_dirs _ _ _ _ _ _ Hm _ _ Hc Hi) Hs) as Hin.
    rewrite <- (subseteq_union_1_L {[ abs (place root "machines" (mc_context m) (mc_id m)) ]} (h_dirs h))
      by set_solver.
    by apply (shelf_save root healthy_root).
  - intros c i m' [[[= <- <-] <-]|[_ ?]]%lookup_insert_Some; [done|by apply Hmi].
Qed.

Lemma machine_RefreshOptions_run mcl opts h r :
  plain (mc_context (mcl_machine mcl)) = true → plain (mc_id (mcl_machine mcl)) = true →
  refines root h r →
  ∃ ms', refines root (machine_RefreshOptions o cfg mcl opts h).2 (Registry (r_workspaces r) ms') ∧
    but_at (mc_context (mcl_machine mcl), mc_id (mcl_machine mcl)) (r_machines r) ms'.
Proof.
  intros Hc Hi Hr. set (c := mc_context _) in *. set (i := mc_id _) in *.
  assert (∃ ms', refines root h (Registry (r_workspaces r) ms') ∧ but_at (c, i) (r_machines r) ms')
    as Hsame by (exists (r_machines r); split; [by destruct r|by intros ?]).
  unfold machine_RefreshOptions. destruct (ParseOptions opts) as [user|e| |]; try exact Hsame.
  cbn [wrap]. rewrite run_lift_Ok. cbv beta.
  unfold zoom, ResolveAndSaveOptionsMachine, LoadMachineConfig, read_file, mbind, M_bind, mret, M_ret, liftR.
  fold c i. rewrite (machine_dir root o c i Hc Hi). cbv beta iota zeta.
  rewrite (join_file root o) by done.
  rewrite (shelf_files _ _ _ _ _ _ (ref_machines _ _ _ Hr)) by done.
  destruct (r_machines r !! (c, i)) as [m|] eqn:Hm; cbn [of_option].
  2: { cbn. by rewrite set_machines_same. }
  cbv beta iota.
  destruct (of_sum _) as [bins|e| |]; try (cbn; by rewrite set_machines_same).
  destruct (current_context cfg) as [ctx|e| |]; try (cbn; by rewrite set_machines_same).
  destruct (resolve_values _ _ _ _ _ _ _ _) as [vals|e| |];
    try (cbn; by rewrite set_machines_same).
  case_decide; [cbn; by rewrite set_machines_same|].
  destruct (ref_mid _ _ _ Hr _ _ _ Hm) as [_ Hmi].
  unfold SaveMachineConfig. cbn [mc_context mc_id with_machine_options]. rewrite Hmi.
  unfold mbind, M_bind, liftR. rewrite (machine_dir root o c i Hc Hi). unfold write_file.
  rewrite healthy_write, (join_file root o) by done. cbn [modifyS fst snd]. eexists. split.
  - apply machine_store_save; [done..|by eexists|done|done].
  - intros k Hk. by rewrite lookup_insert_ne.
Qed.

Lemma but_at_refl k ms : but_at k ms ms.
Proof. by intros ?. Qed.
Lemma but_at_trans k ms1 ms2 ms3 : but_at k ms1 ms2 → but_at k ms2 ms3 → but_at k ms1 ms3.
Proof. intros H1 H2 k' Hk. by rewrite H2, H1. Qed.
Lemma but_at_delete k ms ms' : ms !! k = None → but_at k ms ms' → delete k ms' = ms.
Proof.
  intros Hk Hb. apply map_eq. intros k'. destruct (decide (k' = k)) as [->|?].
  - by rewrite lookup_delete_eq.
  - rewrite lookup_delete_ne by done. by apply Hb.
Qed.

Definition new_machine (ctx id provider : string) : Machine := {|
  mc_id := id; mc_provider := {| mp_name := provider; mp_options := None |};
  mc_creationTimestamp := o_now o; mc_context := ctx;
  mc_origin := abs (place root "machines" ctx id ++ ["machine.json"]) |}.

Lemma createMachine_run id provider h r :
  plain id = true → refines root h r →
  ∃ h', createMachine o ctx0 id provider h = (Ok (new_machine ctx0 id provider), h') ∧
    refines root h' (Registry (r_workspaces r)
      (<[(ctx0, id) := encode_machine (new_machine ctx0 id provider)]> (r_machines r))).
Proof.
  intros Hi Hr. unfold createMachine. rewrite (machine_dir root o ctx0 id Hctx Hi). runM.
  unfold machine_file. rewrite (join_file root o) by done. cbv zeta.
  fold (new_machine ctx0 id provider).
  pose proof (refines_save_machine root o h r (new_machine ctx0 id provider) Hctx Hi Hr) as Hs.
  pose proof (saveMachineConfig_run root o (new_machine ctx0 id provider) h Hctx Hi) as Hrun.
  rewrite Hrun in Hs. unfold mbind, M_bind, caught. rewrite Hrun. eexists. split; [done|exact Hs].
Qed.

Lemma create_machine_run p id opts h r :
  plain id = true → r_machines r !! (ctx0, id) = None → refines root h r →
  let '(res, h') := create_machine o cfg p ctx0 id opts h in
  match res with
  | Ok m => mc_id m = id ∧
      ∃ ms', refines root h' (Registry (r_workspaces r) ms') ∧ but_at (ctx0, id) (r_machines r) ms'
  | Err _ => refines root h' r
  | _ => True
  end.
Proof.
  intros Hi Hnone Hr. unfold create_machine.
  destruct (createMachine_run id (p_name p) h r Hi Hr) as (h1 & Hrun & Hr1).
  rewrite (run_Ok _ _ _ _ _ Hrun). set (m := new_machine _ _ _) in *.
  set (body := liftR _ ≫= _).
  assert (∃ ms', refines root (body h1).2 (Registry (r_workspaces r) ms') ∧
                 but_at (ctx0, id) (r_machines r) ms') as (ms' & Hr2 & Hb).
  { subst body. destruct (NewMachineClient p (Some m)) as [mcl|e| |] eqn:Hm.
    2-4: eexists; (split; [exact Hr1|]); intros k Hk; by rewrite lookup_insert_ne.
    apply NewMachineClient_Ok in Hm as (_ & [= Hm] & _). rewrite run_lift_Ok.
    destruct (machine_RefreshOptions_run mcl opts h1 _ ltac:(by rewrite <- Hm) ltac:(by rewrite <- Hm) Hr1)
      as (ms' & Hr2 & Hb). rewrite <- Hm in Hb. cbn in Hb.
    exists ms'. split.
    - unfold mbind, M_bind. destruct (machine_RefreshOptions o cfg mcl opts h1) as [[mcl'|e| |] h2];
        [|exact Hr2..].
      eapply refines_ran; [|exact Hr2].
      apply (stays_succeed _ (stays_machine_command o cfg mcl' "create" _ ∅)).
    - eapply but_at_trans; [|exact Hb]. intros k Hk. by rewrite lookup_insert_ne. }
  unfold mbind at 1, M_bind at 1, or_delete_machine. unfold mbind at 1, M_bind at 1, caught.
  destruct (body h1) as [[a|e| |] h2]; cbn in Hr2 |- *.
  - split; [done|]. by exists ms'.
  - destruct (DeleteMachineFolder_run root o ctx0 id h2 _ Hctx Hi Hr2) as (h3 & H3 & Hr3).
    unfold mbind, M_bind, try_. cbn [mc_context mc_id new_machine m].
    rewrite H3. cbn. cbn in Hr3. rewrite (but_at_delete _ _ _ Hnone Hb) in Hr3. by destruct r.
  - done.
  - done.
Qed.

Lemma resolveWorkspaceConfig_names p name id source isLocal ssh uid :
  let w := resolveWorkspaceConfig o rm cfg p name id source isLocal ssh uid in
  w_id w = id ∧ w_context w = ctx0 ∧ wm_id (w_machine w) = "".
Proof.
  unfold resolveWorkspaceConfig. destruct source; [done|]. destruct isLocal; [done|].
  destruct (NormalizeRepository name) as [[[[? ?] ?] ?] ?]. by repeat case_match.
Qed.

Lemma save_config_run w h r :
  w_context w = ctx0 → plain (w_id w) = true → refines root h r →
  ∃ h', save_config o w h = (Ok (), h') ∧
    refines root h' (Registry (<[(ctx0, w_id w) := encode_workspace w]> (r_workspaces r)) (r_machines r)).
Proof.
  intros Hc Hi Hr. pose proof (refines_save root o h r w ltac:(by rewrite Hc) Hi Hr) as Hs.
  pose proof (saveWorkspaceConfig_run root o w h ltac:(by rewrite Hc) Hi) as Hrun.
  rewrite Hrun in Hs. unfold save_config, mbind, M_bind, caught. rewrite Hrun.
  rewrite Hc in Hs |- *. eexists. split; [reflexivity|exact Hs].
Qed.

Lemma stays_load_machine ctx id : stays eq (load_machine o ctx id).
Proof.
  unfold load_machine. apply stays_bind; [exact _| |intros a; apply stays_lift, _].
  apply stays_caught, stays_loadMachineConfig.
Qed.

(** What a creation leaves behind. *)
Definition created (id : string) (r : registry)
    (res : result (Provider.ProviderConfig * Workspace * option Machine)) (h' : home) : Prop :=
  match res with
  | Ok (_, w, _) =>
      w_id w = id ∧ w_context w = ctx0 ∧
      ∃ ms', refines root h' (Registry (<[(ctx0, id) := encode_workspace w]> (r_workspaces r)) ms') ∧
             but_at (ctx0, wm_id (w_machine w)) (r_machines r) ms'
  | Err _ => ∃ ws', refines root h' (Registry ws' (r_machines r)) ∧
                    delete (ctx0, id) ws' = r_workspaces r
  | _ => True
  end.

Lemma created_unsaved id r h e :
  r_workspaces r !! (ctx0, id) = None → refines root h r → created id r (Err e) h.
Proof.
  intros Hn Hr. exists (r_workspaces r). split; [by destruct r|]. by apply delete_id.
Qed.
Lemma created_saved id w r h e :
  r_workspaces r !! (ctx0, id) = None →
  refines root h (Registry (<[(ctx0, id) := w]> (r_workspaces r)) (r_machines r)) →
  created id r (Err e) h.
Proof. intros Hn Hr. eexists. split; [exact Hr|]. by rewrite delete_insert_id. Qed.

(** The default provider is not one of the platform, and the names of new
    machines are plain. *)
Record local_setup (id : string) (h : home) : Prop := {
  setup_pro : no_platform o rm cfg h;
  setup_provider p ps h' : LoadProviders o cfg h = (Ok (p, ps), h') →
    IsProxyProvider (pwo_config p) = false ∧ IsDaemonProvider (pwo_config p) = false ∧
    ∀ n h'', SingleMachineName o rm cfg (p_name (pwo_config p)) h = (Ok n, h'') → plain n = true;
  setup_short : plain (Encoding.CreateNewUIDShort (rm_sha rm) (rm_uuid rm) id) = true;
}.

(** The machine of a new workspace: a shared one or one of its own. *)
Lemma new_machine_id (single : bool) provider (w : Workspace) h res h' :
  (∀ n h'', SingleMachineName o rm cfg provider h = (Ok n, h'') → plain n = true) →
  plain (Encoding.CreateNewUIDShort (rm_sha rm) (rm_uuid rm) (w_id w)) = true →
  (if single
   then id ← SingleMachineName o rm cfg provider;
        mret {| wm_id := id; wm_autoDelete := wm_autoDelete (w_machine w) |}
   else mret {| wm_id := Encoding.CreateNewUIDShort (rm_sha rm) (rm_uuid rm) (w_id w);
                wm_autoDelete := true |}) h = (res, h') →
  h' = h ∧ match res with Ok m => plain (wm_id m) = true | Err _ => True | _ => True end.
Proof.
  intros Hshared Hshort H. destruct single.
  - unfold mbind, M_bind in H. destruct (SingleMachineName o rm cfg provider h) as [r1 h1] eqn:E.
    pose proof (stays_eq_run _ _ _ _ (stays_SingleMachineName o rm cfg provider) E) as ->.
    destruct r1 as [n|e| |]; injection H as <- <-; [|done..]. split; [done|]. by eapply Hshared.
  - by injection H as <- <-.
Qed.

(** With the workspace saved, its machine is created or loaded. *)
Lemma machine_for_workspace p w opts h1 h r :
  w_context w = ctx0 → plain (w_id w) = true → plain (wm_id (w_machine w)) = true →
  r_workspaces r !! (ctx0, w_id w) = None →
  refines root h (Registry (<[(ctx0, w_id w) := encode_workspace w]> (r_workspaces r)) (r_machines r)) →
  h1 = h →
  let '(res, h') :=
    (exists_ ← MachineExists o ctx0 (wm_id (w_machine w));
     machineConfig ←
       (if negb exists_ then create_machine o cfg p (w_context w) (wm_id (w_machine w)) opts
        else load_machine o (w_context w) (wm_id (w_machine w)));
     mret (p, w, Some machineConfig)) h1 in created (w_id w) r res h'.
Proof.
  intros Hc Hi Hm Hn Hr ->. rewrite Hc. unfold MachineExists.
  rewrite (machine_dir root o ctx0 _ Hctx Hm). unfold dir_exists.
  unfold mbind at 1, M_bind at 1. runM. cbn [mret M_ret]. cbv beta iota.
  pose proof (shelf_dirs _ _ _ _ _ _ (ref_machines _ _ _ Hr) _ _ Hctx Hm) as Hdir. cbn in Hdir.
  destruct (bool_decide (_ ∈ h_dirs h)) eqn:Hb; cbn [negb].
  - unfold mbind, M_bind. destruct (load_machine o ctx0 _ h) as [[m|e| |] h'] eqn:Hl;
      pose proof (stays_eq_run _ _ _ _ (stays_load_machine ctx0 _) Hl) as ->; [|by eapply created_saved|done..].
    split_and!; [done..|]. exists (r_machines r). split; [exact Hr|apply but_at_refl].
  - apply bool_decide_eq_false in Hb. rewrite Hdir in Hb. apply eq_None_not_Some in Hb.
    pose proof (create_machine_run p _ opts h (Registry _ (r_machines r)) Hm Hb Hr) as Hcr. unfold mbind, M_bind.
    destruct (create_machine o cfg p ctx0 _ opts h) as [[m|e| |] h']; [|by eapply created_saved|done..].
    destruct Hcr as (_ & ms' & Hr' & Hbut). split_and!; [done..|]. by exists ms'.
Qed.

Lemma createWorkspace_run id name dm opts ssh source isLocal uid h r :
  plain id = true → r_workspaces r !! (ctx0, id) = None → local_setup id h → refines root h r →
  let '(res, h') := createWorkspace o rm cfg id name dm opts ssh source isLocal uid h in
  created id r res h'.
Proof.
  intros Hid Hn [_ Hlocal Hshort] Hr. unfold createWorkspace. unfold mbind at 1, M_bind at 1.
  destruct (LoadProviders o cfg h) as [[[pw ps]|e| |] h1] eqn:Hlp;
    pose proof (stays_eq_run _ _ _ _ (stays_LoadProviders o cfg) Hlp) as ->;
    [|by apply created_unsaved|done..].
  destruct (Hlocal _ _ _ eq_refl) as (Hprox & Hdaem & Hshared). clear Hlocal Hlp.
  destruct (pwo_state pw) as [st|]; [|by apply created_unsaved].
  destruct (negb (pc_initialized st)); [by apply created_unsaved|].
  set (w0 := resolveWorkspaceConfig _ _ _ _ _ _ _ _ _ _).
  destruct (resolveWorkspaceConfig_names pw name id source isLocal ssh uid) as (Hw1 & Hw2 & Hw3).
  fold w0 in Hw1, Hw2, Hw3. unfold mbind at 1, M_bind at 1.
  destruct (MachineExists o (w_context w0) dm h) as [[ex|e| |] h1] eqn:Hex;
    pose proof (stays_eq_run _ _ _ _ (stays_dir_exists _) Hex) as ->; [|discriminate Hex..].
  match goal with |- context [liftR ?c ≫= _] => destruct c as [w1|e| |] eqn:Hw end;
    [|by apply created_unsaved|done..].
  assert (w_id w1 = id ∧ w_context w1 = ctx0) as [Hi1 Hc1].
  { revert Hw. destruct (sempty dm), (negb (IsMachineProvider (pwo_config pw))), (negb ex);
      by intros [= <-]. }
  clear Hex Hw. rewrite run_lift_Ok. cbv beta. rewrite Hprox, Hdaem. cbn [orb].
  destruct (IsMachineProvider (pwo_config pw) && sempty (wm_id (w_machine w1))).
  - unfold mbind at 1, M_bind at 1.
    match goal with |- context [(if pc_singleMachine st then ?a else ?b) h] =>
      destruct ((if pc_singleMachine st then a else b) h) as [res h1] eqn:Hm end.
    apply new_machine_id in Hm as [-> Hm]; [|done|by rewrite Hi1].
    destruct res as [wm|e| |]; [|by apply created_unsaved|done..]. cbv beta iota zeta.
    destruct (save_config_run (with_machine wm w1) h r Hc1 ltac:(cbn; by rewrite Hi1) Hr)
      as (h2 & Hrun & Hr2).
    rewrite (run_Ok _ _ _ _ _ Hrun). cbn [w_id with_machine] in Hr2. rewrite Hi1 in Hr2.
    pose proof (machine_for_workspace (pwo_config pw) (with_machine wm w1) opts h2 h2 r Hc1) as Hfor.
    cbn [w_id with_machine w_machine] in Hfor. rewrite Hi1 in Hfor. by apply Hfor.
  - destruct (save_config_run w1 h r Hc1 ltac:(by rewrite Hi1) Hr) as (h2 & Hrun & Hr2).
    rewrite (run_Ok _ _ _ _ _ Hrun). rewrite Hi1 in Hr2. unfold mbind, M_bind.
    destruct (IsMachineProvider (pwo_config pw) && negb (sempty (wm_id (w_machine w1)))).
    + destruct (load_machine o (w_context w1) _ h2) as [[m|e| |] h3] eqn:Hl;
        pose proof (stays_eq_run _ _ _ _ (stays_load_machine _ _) Hl) as ->;
        [|by eapply created_saved|done..].
      split_and!; [done..|]. exists (r_machines r). split; [exact Hr2|apply but_at_refl].
    + split_and!; [done..|]. exists (r_machines r). split; [exact Hr2|apply but_at_refl].
Qed.


Lemma local_workspaces_id r h w :
  refines root h r → w ∈ local_workspaces root cfg false r →
  ∃ w0, r_workspaces r !! (ctx0, w_id w) = Some w0 ∧ HasPrefix (w_id w) "." = false ∧ w_pro w = w_pro w0.
Proof.
  intros Hr (id & _ & Hl)%list_elem_of_omap. unfold loaded in Hl.
  destruct (HasPrefix id ".") eqn:Hh; [done|].
  destruct (r_workspaces r !! (ctx0, id)) as [w0|] eqn:Hw; [|done].
  injection Hl as <-. cbn. destruct (ref_wid _ _ _ Hr _ _ _ Hw) as (_ & -> & _). by exists w0.
Qed.

Lemma findWorkspace_none id h r :
  id ≠ "" → no_platform o rm cfg h → refines root h r →
  uids_apart (local_workspaces root cfg false r) →
  r_workspaces r !! (ctx0, id) = None → findWorkspace o rm cfg [] id h = (Ok None, h).
Proof.
  intros Hne Hpro Hr Hd Hn. unfold findWorkspace, ensureWorkspaceID.
  assert (sempty id = false) as He by (by apply bool_decide_eq_false). rewrite He, He.
  destruct (List_elem root o rm cfg Hctx false h r Hpro Hr Hd) as (l & Hl & Hin).
  unfold mbind, M_bind, caught. rewrite Hl. destruct (List.find _ l) as [w|] eqn:Hf; [|done].
  apply List.find_some in Hf as [Hw%list_elem_of_In Hid%bool_decide_eq_true].
  apply Hin, (local_workspaces_id r h) in Hw as (w0 & Hw & _); [|done]. congruence.
Qed.

Lemma findWorkspace_some id w h r :
  id ≠ "" → HasPrefix id "." = false → no_platform o rm cfg h → refines root h r →
  uids_apart (local_workspaces root cfg false r) →
  r_workspaces r !! (ctx0, id) = Some w → w_pro w = None →
  ∃ w', findWorkspace o rm cfg [] id h = (Ok (Some w'), h) ∧ w_id w' = id.
Proof.
  intros Hne Hh Hpro Hr Hd Hw Hp. unfold findWorkspace, ensureWorkspaceID.
  assert (sempty id = false) as He by (by apply bool_decide_eq_false). rewrite He, He.
  destruct (List_elem root o rm cfg Hctx false h r Hpro Hr Hd) as (l & Hl & Hin).
  unfold mbind, M_bind, caught. rewrite Hl.
  destruct (List.find _ l) as [x|] eqn:Hf.
  - apply List.find_some in Hf as [Hx%list_elem_of_In Hid%bool_decide_eq_true].
    apply Hin, (local_workspaces_id r h) in Hx as (w0 & Hx & _ & Hxp); [|done].
    rewrite Hid, Hw in Hx. injection Hx as <-. unfold IsPro.
    rewrite bool_decide_eq_false_2 by (rewrite Hxp, Hp; by intros []). by exists x.
  - exfalso. destruct (local_workspaces_elem root cfg r id w Hw Hh) as (x & Hx & Hxi & _).
    apply Hin in Hx. pose proof (find_absent _ _ Hf x Hx) as Habs. cbn in Habs.
    apply bool_decide_eq_false in Habs. destruct (ref_wid _ _ _ Hr _ _ _ Hw) as (_ & ? & _).
    congruence.
Qed.

Definition resolved_id (arg desiredID : string) : string :=
  if sempty desiredID then WorkspaceID.ToID (rm_isLocalDir rm arg).2 else desiredID.


Lemma encode_placed w path ctx :
  encode_workspace w = w → w_context w = ctx →
  encode_workspace (with_workspace_place w (w_ide w) ctx path) = w.
Proof. intros He <-. by transitivity (encode_workspace w). Qed.
Lemma encode_used t w : encode_workspace (with_lastUsedTimestamp t w) =
  with_lastUsedTimestamp t (encode_workspace w).
Proof. done. Qed.
Lemma used_same w : with_lastUsedTimestamp (w_lastUsedTimestamp w) w = w.
Proof. by destruct w. Qed.
Lemma registry_same r ctx id w :
  r_workspaces r !! (ctx, id) = Some w →
  Registry (<[(ctx, id) := w]> (r_workspaces r)) (r_machines r) = r.
Proof. intros Hw. rewrite insert_id by done. by destruct r. Qed.

(** What loading leaves behind: the workspace with another time of last use. *)
Definition loaded_existing (id : string) (w : Workspace) (r : registry) (change : bool)
    (res : result (Provider.ProviderConfig * Workspace * option Machine)) (h' : home) : Prop :=
  ∃ t, refines root h' (Registry (<[(ctx0, id) := with_lastUsedTimestamp t w]> (r_workspaces r))
                                 (r_machines r)) ∧
       (change = false → t = w_lastUsedTimestamp w) ∧
       match res with
       | Ok (_, x, _) => encode_workspace x = with_lastUsedTimestamp t w
       | _ => True
       end.

Lemma loaded_unchanged id w r change h e :
  refines root h r → r_workspaces r !! (ctx0, id) = Some w →
  match e with Ok _ => False | _ => True end → loaded_existing id w r change e h.
Proof.
  intros Hr Hw He. exists (w_lastUsedTimestamp w). rewrite used_same, registry_same by done.
  split_and!; [done..|]. by destruct e.
Qed.

Lemma loadExistingWorkspace_run id w change h r :
  plain id = true → refines root h r → r_workspaces r !! (ctx0, id) = Some w →
  let '(res, h') := loadExistingWorkspace o cfg id change h in
  loaded_existing id w r change res h'.
Proof.
  intros Hid Hr Hw. unfold loadExistingWorkspace.
  destruct (ref_wid _ _ _ Hr _ _ _ Hw) as (Hwc & Hwi & Hwe).
  pose proof (loadWorkspaceConfig_run root o ctx0 id h r Hctx Hid Hr) as Hl. rewrite Hw in Hl.
  rewrite (run_Ok _ _ _ _ _ Hl). clear Hl. set (path := abs _).
  unfold mbind at 1, M_bind at 1.
  destruct (FindProvider o cfg _ h) as [[p|e| |] h1] eqn:Hf;
    pose proof (stays_eq_run _ _ _ _ (stays_FindProvider o cfg _) Hf) as ->;
    [|by apply loaded_unchanged..].
  set (w1 := with_workspace_place w (w_ide w) ctx0 path) in *. cbv zeta.
  set (w2 := if change then _ else _).
  assert (w_id w2 = id ∧ w_context w2 = ctx0) as [Hi2 Hc2] by (by destruct change).
  assert (∃ h2 t, (if change then saveWorkspaceConfig o w2 else mret ()) h = (Ok (), h2) ∧
    refines root h2 (Registry (<[(ctx0, id) := with_lastUsedTimestamp t w]> (r_workspaces r))
                              (r_machines r)) ∧
    (change = false → t = w_lastUsedTimestamp w) ∧
    encode_workspace w2 = with_lastUsedTimestamp t w) as (h2 & t & Hrun & Hr2 & Ht & He2).
  { assert (encode_workspace w1 = w) as He1 by (by apply encode_placed).
    destruct change.
    - exists (saveWorkspaceConfig o w2 h).2, (o_now o).
      pose proof (refines_save root o h r w2 ltac:(by rewrite Hc2) ltac:(by rewrite Hi2) Hr) as Hs.
      rewrite (saveWorkspaceConfig_run root o w2 h) in Hs |- * by (by rewrite ?Hi2, ?Hc2).
      assert (encode_workspace w2 = with_lastUsedTimestamp (o_now o) w) as He2.
      { unfold w2. by rewrite encode_used, He1. }
      rewrite Hi2, Hc2, He2 in Hs. rewrite Hi2, Hc2, He2. split_and!; [reflexivity|exact Hs|done|done].
    - exists h, (w_lastUsedTimestamp w). rewrite used_same, registry_same by done.
      split_and!; done. }
  rewrite (run_Ok _ _ _ _ _ Hrun). unfold mbind at 1, M_bind at 1.
  match goal with |- context [match ?c h2 with _ => _ end] => destruct (c h2) as [res h3] eqn:Hm end.
  assert (h3 = h2) as ->.
  { destruct (sempty _); [by injection Hm as _ <-|]. eapply stays_eq_run; [|exact Hm].
    apply stays_bind; [exact _|apply stays_caught, stays_loadMachineConfig|].
    intros ?. apply stays_lift, _. }
  destruct res; exists t; split_and!; done.
Qed.

(** a workspace that exists is loaded and never created again: whatever name it
    is asked for with, the registry keeps it and everything else, and only its time
    of last use may change. *)
Theorem resolveWorkspace_existing arg args desiredID dm opts ssh source uid change w h r :
  let id := resolved_id arg desiredID in
  plain id = true → HasPrefix id "." = false →
  r_workspaces r !! (ctx0, id) = Some w → w_pro w = None →
  no_platform o rm cfg h → refines root h r →
  uids_apart (local_workspaces root cfg false r) →
  let '(res, h') := resolveWorkspace o rm cfg (arg :: args) desiredID dm opts ssh source uid
                      change h in
  ∃ t, refines root h' (Registry (<[(ctx0, id) := with_lastUsedTimestamp t w]> (r_workspaces r))
                                 (r_machines r)) ∧
       (change = false → t = w_lastUsedTimestamp w) ∧
       match res with
       | Ok (_, x, _) => encode_workspace x = with_lastUsedTimestamp t w
       | _ => True
       end.
Proof.
  intros id Hid Hh Hw Hp Hpro Hr Hd. cbn [resolveWorkspace].
  destruct (rm_isLocalDir rm arg) as [isLocal name] eqn:Hloc.
  assert ((if sempty desiredID then WorkspaceID.ToID name else desiredID) = id) as ->.
  { unfold id, resolved_id. by rewrite Hloc. }
  assert (id ≠ "") as Hne by (by apply plain_not in Hid as [? _]).
  unfold Workspaces.Exists. unfold mbind at 1, M_bind at 1. unfold mbind at 1, M_bind at 1.
  destruct (findWorkspace_some id w h r Hne Hh Hpro Hr Hd Hw Hp) as (w' & -> & Hi').
  cbn [mret M_ret]. cbv beta iota. rewrite Hi'.
  assert (sempty id = false) as -> by (by apply bool_decide_eq_false). cbn [negb].
  apply (loadExistingWorkspace_run id w change h r Hid Hr Hw).
Qed.
End Create.

(** ** An example: a provider whose workspaces share a machine *)

Definition demo_machine_provider : Provider.ProviderConfig := {|
  p_name := "aws"; p_version := ""; p_icon := ""; p_iconDark := ""; p_home := "";
  p_source := {| ps_internal := true; ps_github := ""; ps_file := ""; ps_url := "";
                 ps_raw := "" |};
  p_description := ""; p_optionGroups := []; p_options := []; p_agent := zero_agent;
  p_exec := {| e_init := None; e_command := Some ["run"]; e_create := Some ["create"];
    e_delete := Some ["delete"]; e_start := None; e_stop := None; e_status := Some ["status"];
    e_proxy := None; e_daemon := None |};
  p_binaries := None |}.
Definition demo_machine_config : Config := {|
  c_defaultContext := "default";
  c_contexts := Some {["default" := Some {|
    cc_defaultProvider := "aws"; cc_defaultIDE := ""; cc_options := None; cc_ides := None;
    cc_providers := Some {["aws" := Some {| pc_initialized := true; pc_singleMachine := true;
      pc_options := None; pc_dynamicOptions := None; pc_creationTimestamp := 0%Z |}]};
    cc_originalProvider := "" |}]};
  c_origin := ""; c_originalContext := "" |}.
Definition demo_remote : remote := {|
  rm_instances := λ _, inl "no platform"; rm_exists := λ _, false;
  rm_isLocalDir := λ s, (false, s); rm_ping := λ _, true; rm_image := λ _, false;
  rm_picture := λ _, ""; rm_uuid := "12-34-56"; rm_sha := λ _, "0123456789abcdef";
  rm_machineUID := "b0a"; rm_isTerminal := false; rm_choose := λ _, inl "no terminal";
  rm_createInstance := λ _, throw "no platform"; rm_status := λ _, throw "no platform";
  rm_delete := λ _ _, throw "no platform"; rm_lock := λ _, None;
  rm_download := λ _, inl "no network"; rm_downloadBinaries := λ _ _, None |}.
Definition provider_home : home :=
  set_providers {["/home/me/.devpod/contexts/default/providers/aws/provider.json" :=
                   demo_machine_provider]} empty_home.
Lemma provider_home_refines : refines ["home"; "me"; ".devpod"] provider_home (Registry ∅ ∅).
Proof. by destruct (refines_empty ["home"; "me"; ".devpod"] demo_osys); split. Qed.

#[export] Instance demo_osys_ok : SysOk (o_sys demo_osys) := OptionsProps.demo_sys_ok.
Definition demo_resolve (arg : string) (h : home) :=
  resolveWorkspace demo_osys demo_remote demo_machine_config [arg] "" "" [] "" None "" true h.
Definition setup_check (h : home) : bool :=
  match (LoadProviders demo_osys demo_machine_config h).1 with
  | Ok (p, _) =>
      negb (IsProxyProvider (pwo_config p)) && negb (IsDaemonProvider (pwo_config p)) &&
      match (SingleMachineName demo_osys demo_remote demo_machine_config
               (p_name (pwo_config p)) h).1 with
      | Ok n => plain n
      | _ => true
      end
  | _ => true
  end.
Lemma demo_setup : local_setup demo_osys demo_remote demo_machine_config "devpod" provider_home.
Proof.
  assert (setup_check provider_home = true) as Hc by (vm_compute; reflexivity).
  split; [vm_compute; reflexivity| |vm_compute; reflexivity].
  intros p ps h' H. unfold setup_check in Hc. rewrite H in Hc. cbn [fst] in Hc.
  apply andb_prop in Hc as [[?%negb_true_iff ?%negb_true_iff]%andb_prop Hc].
  split_and!; [done..|]. intros n h'' Hn. by rewrite Hn in Hc.
Qed.

Lemma demo_id : resolved_id demo_remote "github.com/loft-sh/devpod" "" = "devpod".
Proof. vm_compute. reflexivity. Qed.
Lemma demo_uids : uids_apart (local_workspaces ["home"; "me"; ".devpod"] demo_machine_config false
                                (Registry ∅ ∅)).
Proof. intros w w' Hw. by apply elem_of_nil in Hw. Qed.


(** The same provider with one workspace on the shared machine. *)
Definition shared_machine : Machine := {|
  mc_id := "devpod-shared-aws-b0a"; mc_provider := {| mp_name := "aws"; mp_options := None |};
  mc_creationTimestamp := 0; mc_context := "default"; mc_origin := "" |}.
Definition shared_workspace : Workspace :=
  with_machine {| wm_id := "devpod-shared-aws-b0a"; wm_autoDelete := false |}
    (new_workspace demo_osys demo_machine_config "aws" "devpod" "" "default-de-1").
Definition shared_home : home :=
  (saveWorkspaceConfig demo_osys shared_workspace
     (saveMachineConfig demo_osys shared_machine provider_home).2).2.
Definition shared_registry : registry :=
  Registry {[("default", "devpod") := encode_workspace shared_workspace]}
           {[("default", "devpod-shared-aws-b0a") := encode_machine shared_machine]}.
Lemma shared_refines : refines ["home"; "me"; ".devpod"] shared_home shared_registry.
Proof.
  pose proof (refines_save_machine ["home"; "me"; ".devpod"] demo_osys provider_home _ shared_machine
    eq_refl eq_refl provider_home_refines) as H1.
  exact (refines_save ["home"; "me"; ".devpod"] demo_osys _ _ shared_workspace eq_refl eq_refl H1).
Qed.
Lemma uids_apart_short l : (length l ≤ 1)%nat → uids_apart l.
Proof.
  destruct l as [|x [|y l]]; cbn; intros Hl w w' Hw Hw'; [by apply elem_of_nil in Hw| |lia].
  apply list_elem_of_singleton in Hw as ->. by apply list_elem_of_singleton in Hw' as ->.
Qed.
Lemma shared_uids :
  uids_apart (local_workspaces ["home"; "me"; ".devpod"] demo_machine_config false shared_registry).
Proof. apply uids_apart_short. vm_compute. lia. Qed.

Definition demo_single : result bool * home :=
  deleteSingleMachine demo_osys demo_remote demo_machine_config
    (LocalClient (WorkspaceClient demo_machine_provider shared_workspace (Some shared_machine)))
    demo_delete shared_home.
Lemma deleteSingleMachine_safe_witness :
  demo_single.1 = Ok true ∧
  refines ["home"; "me"; ".devpod"] demo_single.2 (Registry ∅ ∅).
Proof.
  assert (demo_single.1 = Ok true) as E by (vm_compute; reflexivity).
  destruct demo_single as [res h'] eqn:Hs. cbn in E. subst res. split; [reflexivity|].
  destruct (deleteSingleMachine_safe ["home"; "me"; ".devpod"] demo_osys demo_remote
    demo_machine_config eq_refl
    (LocalClient (WorkspaceClient demo_machine_provider shared_workspace (Some shared_machine)))
    demo_delete shared_home shared_registry true h' eq_refl eq_refl
    ltac:(vm_compute; reflexivity) shared_refines shared_uids Hs) as [_ Hr].
  exact Hr.
Defined.

Lemma resolveWorkspace_existing_witness :
  ∃ t w, (demo_resolve "github.com/loft-sh/devpod" shared_home).1 = Ok w ∧
    refines ["home"; "me"; ".devpod"] (demo_resolve "github.com/loft-sh/devpod" shared_home).2
      (Registry {[("default", "devpod") := with_lastUsedTimestamp t (encode_workspace shared_workspace)]}
                (r_machines shared_registry)).
Proof.
  pose proof (resolveWorkspace_existing ["home"; "me"; ".devpod"] demo_osys demo_remote
    demo_machine_config eq_refl "github.com/loft-sh/devpod" [] "" "" [] "" None "" true
    (encode_workspace shared_workspace) shared_home shared_registry) as H.
  cbv zeta in H. rewrite demo_id in H.
  specialize (H eq_refl eq_refl ltac:(vm_compute; reflexivity) eq_refl
    ltac:(vm_compute; reflexivity) shared_refines shared_uids).
  fold (demo_resolve "github.com/loft-sh/devpod" shared_home) in H.
  assert (is_ok (demo_resolve "github.com/loft-sh/devpod" shared_home).1 = true) as E
    by (vm_compute; reflexivity).
  destruct (demo_resolve "github.com/loft-sh/devpod" shared_home) as [[w|e| |] h'];
    [|discriminate E..].
  destruct H as (t & Hr & _). exists t, w. split; [reflexivity|]. exact Hr.
Defined.

(** ** A workspace that is deleted and still listed *)

(** A provider of the platform that has no instance left. *)
Definition pro_config : Config := {|
  c_defaultContext := "default";
  c_contexts := Some {["default" := Some {|
    cc_defaultProvider := "pro"; cc_defaultIDE := ""; cc_options := None; cc_ides := None;
    cc_providers := Some {["pro" := Some {| pc_initialized := true; pc_singleMachine := false;
      pc_options := None; pc_dynamicOptions := None; pc_creationTimestamp := 0%Z |}]};
    cc_originalProvider := "" |}]};
  c_origin := ""; c_originalContext := "" |}.
Definition pro_provider : Provider.ProviderConfig := {|
  p_name := "pro"; p_version := ""; p_icon := ""; p_iconDark := ""; p_home := "";
  p_source := {| ps_internal := false; ps_github := ""; ps_file := ""; ps_url := "";
                 ps_raw := "" |};
  p_description := ""; p_optionGroups := []; p_options := []; p_agent := zero_agent;
  p_exec := {| e_init := None; e_command := None; e_create := None; e_delete := None;
    e_start := None; e_stop := None; e_status := None; e_proxy := None;
    e_daemon := Some {| dm_start := Some ["start"]; dm_status := Some ["status"] |} |};
  p_binaries := None |}.
Definition pro_workspace : Workspace := {|
  w_id := "gone"; w_uid := "u1"; w_picture := "";
  w_provider := {| wpr_name := "pro"; wpr_options := None |};
  w_machine := {| wm_id := ""; wm_autoDelete := false |};
  w_ide := {| wi_name := ""; wi_options := None |}; w_source := empty_source;
  w_devContainerImage := ""; w_devContainerPath := ""; w_devContainerConfig := None;
  w_creationTimestamp := 0; w_lastUsedTimestamp := 0; w_context := "default";
  w_imported := false; w_origin := "";
  w_pro := Some {| pro_instanceName := "i"; pro_project := "p"; pro_displayName := "" |};
  w_sshConfigPath := "" |}.
Definition pro_remote : remote := {|
  rm_instances := λ _, inr []; rm_exists := λ _, false;
  rm_isLocalDir := λ s, (false, s); rm_ping := λ _, true; rm_image := λ _, false;
  rm_picture := λ _, ""; rm_uuid := ""; rm_sha := λ _, ""; rm_machineUID := "";
  rm_isTerminal := false; rm_choose := λ _, inl "no terminal";
  rm_createInstance := λ _, throw "no platform"; rm_status := λ _, throw "no platform";
  rm_delete := λ _ _, throw "no platform"; rm_lock := λ _, None;
  rm_download := λ _, inl "no network"; rm_downloadBinaries := λ _ _, None |}.

(** Whoever stays keeps everyone: as soon as one local workspace stays, the
    loop returns the whole list, the workspaces it has just deleted included. *)
Lemma clean_local_keeps o rm cfg results all l w :
  w ∈ l → (IsPro w && shouldDeleteLocalWorkspace rm w results) = false →
  ∀ h l' h', clean_local o rm cfg results all l h = (Ok l', h') → ∀ x, x ∈ all → x ∈ l'.
Proof.
  intros Hw Hs. induction l as [|y l IH]; intros h l' h' H x Hx; [by apply elem_of_nil in Hw|].
  cbn [clean_local] in H. destruct (IsPro y && _) eqn:Hy.
  - apply M_bind_Ok in H as (u & h1 & _ & H).
    apply elem_of_cons in Hw as [->|Hw]; [congruence|]. by eapply IH.
  - apply M_bind_Ok in H as (rest & h1 & _ & H). injection H as <- _.
    apply elem_of_app. by left.
Qed.

Definition pro_home (l : list Workspace) : home :=
  set_providers {["/home/me/.devpod/contexts/default/providers/pro/provider.json" := pro_provider]}
    (run_ops demo_osys pro_config (OpSave <$> l) empty_home).2.
Definition listed_ids (l : list Workspace) : option (list string * bool) :=
  let '(r, h) := List demo_osys pro_remote pro_config false (pro_home l) in
  match r with
  | Ok ws => Some (w_id <$> ws,
                   match (WorkspaceExists demo_osys "default" "gone" h).1 with Ok b => b | _ => true end)
  | _ => None
  end.
(** Alone, the workspace whose instance is gone is deleted and not listed; with
    another one beside it, it is deleted and still listed. *)
Example List_deleted_still_listed :
  listed_ids [pro_workspace] = Some ([], false) ∧
  listed_ids [pro_workspace; OptionsProps.demo_workspace] = Some (["gone"; "ws"], false).
Proof. vm_compute. split; reflexivity. Qed.

(** The trailing slash of a repository stays in the address. *)
Example github_request_slash :
  github_request "github.com/org/repo@v1" =
    Some ("https://github.com/org/repo/releases/download/v1/provider.yaml", "org/repo") ∧
  github_request "github.com/org/repo/" =
    Some ("https://github.com/org/repo//releases/latest/download/provider.yaml", "org/repo/").
Proof. vm_compute. split; reflexivity. Qed.
