(* ===== verification/Commands.v ===== *)
(** * cmd: the commands that change the configuration

    The commands of cmd/context, cmd/provider, cmd/ide and cmd/machine and
    the commands delete, stop and status of cmd, on the state of the user's
    machine: the configuration file and the home directory of Home.v.

    A command loads the configuration with the overrides of its flags, changes it and saves
    it.  What the next command reads is what was written ([stored]). *)

From S2P Require Import Prelude GoStrings GoRegexp Types Config Names Provider Options Home Ide Clients Workspaces.
From stdpp Require Import base gmap list strings sorting.
From Stdlib Require Import ZArith.

Local Open Scope string_scope.
Local Open Scope list_scope.

(** ** The state of the machine *)

Record cstate := CState { st_file : config_file; st_home : home }.
Definition set_file (f : config_file) (st : cstate) : cstate := CState f (st_home st).
Definition set_home (h : home) (st : cstate) : cstate := CState (st_file st) h.

(** What a document holds of a configuration: the originals are not encoded,
    and empty maps are left out. *)
Definition stored_context (ctx : ContextConfig) : ContextConfig := {|
  cc_defaultProvider := cc_defaultProvider ctx; cc_defaultIDE := cc_defaultIDE ctx;
  cc_options := omit_empty (cc_options ctx); cc_ides := omit_empty (cc_ides ctx);
  cc_providers := omit_empty (cc_providers ctx); cc_originalProvider := "" |}.
Definition stored (c : Config) : Config := {|
  c_defaultContext := c_defaultContext c;
  c_contexts := omit_empty (Some (fmap (M := option) stored_context <$> gm_elems (c_contexts c)));
  c_origin := ""; c_originalContext := "" |}.

(** ** Assignments to fields of a context *)

Definition with_default_provider (name : string) (ctx : ContextConfig) : ContextConfig := {|
  cc_defaultProvider := name; cc_defaultIDE := cc_defaultIDE ctx; cc_options := cc_options ctx;
  cc_ides := cc_ides ctx; cc_providers := cc_providers ctx;
  cc_originalProvider := cc_originalProvider ctx |}.
Definition with_default_ide (name : string) (ctx : ContextConfig) : ContextConfig := {|
  cc_defaultProvider := cc_defaultProvider ctx; cc_defaultIDE := name;
  cc_options := cc_options ctx; cc_ides := cc_ides ctx; cc_providers := cc_providers ctx;
  cc_originalProvider := cc_originalProvider ctx |}.
Definition with_context_options (m : gmap string OptionValue) (ctx : ContextConfig)
    : ContextConfig := {|
  cc_defaultProvider := cc_defaultProvider ctx; cc_defaultIDE := cc_defaultIDE ctx;
  cc_options := Some m; cc_ides := cc_ides ctx; cc_providers := cc_providers ctx;
  cc_originalProvider := cc_originalProvider ctx |}.
Definition with_ides (m : gmap string (option IDEConfig)) (ctx : ContextConfig)
    : ContextConfig := {|
  cc_defaultProvider := cc_defaultProvider ctx; cc_defaultIDE := cc_defaultIDE ctx;
  cc_options := cc_options ctx; cc_ides := Some m; cc_providers := cc_providers ctx;
  cc_originalProvider := cc_originalProvider ctx |}.
Definition with_providers (m : gomap (option Config.ProviderConfig)) (ctx : ContextConfig)
    : ContextConfig := {|
  cc_defaultProvider := cc_defaultProvider ctx; cc_defaultIDE := cc_defaultIDE ctx;
  cc_options := cc_options ctx; cc_ides := cc_ides ctx; cc_providers := m;
  cc_originalProvider := cc_originalProvider ctx |}.

Definition find_context (c : Config) (name : string) : option ContextConfig :=
  mjoin (gm_get (c_contexts c) name).
Definition put_context (c : Config) (name : string) (ctx : ContextConfig) : Config := {|
  c_defaultContext := c_defaultContext c;
  c_contexts := Some (<[name := Some ctx]> (gm_elems (c_contexts c)));
  c_origin := c_origin c; c_originalContext := c_originalContext c |}.
Definition default_context (c : Config) (name : string) : Config := {|
  c_defaultContext := name; c_contexts := c_contexts c; c_origin := c_origin c;
  c_originalContext := c_originalContext c |}.

(** [delete(m, k)], which does nothing to a nil map *)
Definition gm_delete {V} (k : string) (m : gomap V) : gomap V :=
  match m with Some m => Some (delete k m) | None => None end.
(** [fmt] of a list of texts *)
Definition show_list (l : list string) : string := "[" +:+ GoStrings.Join l " " +:+ "]".

(** ** Context options *)

Definition find_option (key : string) : option ContextOption_ :=
  List.find (λ c, bool_decide (co_name c = key)) ContextOptions.
Definition check_enum (key value : string) (opt : ContextOption_) : result unit :=
  match co_enum opt with
  | [] => Ok ()
  | enum =>
      if bool_decide (value ∈ enum) then Ok ()
      else Err ("invalid value '" +:+ value +:+ "' for option '" +:+ key +:+
                "', has to match one of the following values: " +:+ show_list enum)
  end.
Fixpoint context_parseOptions (options : list string) (retMap : gmap string OptionValue)
    : result (gmap string OptionValue) :=
  match options with
  | [] => Ok retMap
  | option :: options' =>
      match Split "=" option with
      | k :: ((_ :: _) as vs) =>
          let key := ToUpper (TrimSpace k) in
          let value := GoStrings.Join vs "=" in
          match find_option key with
          | None => Err ("invalid option '" +:+ key +:+ "', allowed options are: " +:+
                         show_list (co_name <$> ContextOptions))
          | Some opt =>
              _ ← check_enum key value opt;
              context_parseOptions options' (<[key := user_value value]> retMap)
          end
      | _ => Err ("invalid option '" +:+ option +:+ "', expected format KEY=VALUE")
      end
  end.

Definition context_missing (name : string) : string := "context '" +:+ name +:+ "' doesn't exist".
(** [setOptions] of cmd/context *)
Definition context_setOptions (c : Config) (context : string) (options : list string)
    : result Config :=
  optionValues ← context_parseOptions options ∅;
  ctx ← of_option (context_missing context) (find_context c context);
  Ok (put_context c context
        (with_context_options (optionValues ∪ gm_elems (cc_options ctx)) ctx)).
Definition context_flag_options (c : Config) (context : string) (options : list string)
    : result Config :=
  match options with [] => Ok c | _ => context_setOptions c context options end.

(** ** Provider options *)

Fixpoint getUserOption (allOptions : list string) (optionKey : string) : option string :=
  match allOptions with
  | [] => None
  | option :: allOptions' =>
      match Split "=" option with
      | k :: _ :: _ => if decide (k = optionKey) then Some option
                       else getUserOption allOptions' optionKey
      | _ => getUserOption allOptions' optionKey
      end
  end.
(** [mergeOptions]; the keys are those of the definition, in some order. *)
Definition mergeOptions (desiredOptions : list string) (stateOptions : gmap string OptionValue)
    (userOptions : list string) : list string :=
  omap (λ key,
    match getUserOption userOptions key with
    | Some o => Some o
    | None => (λ v, key +:+ "=" +:+ ov_value v) <$> stateOptions !! key
    end) desiredOptions.

Definition MergeDynamicOptions (options dynamicOptions : gmap string Option_)
    : gmap string Option_ := dynamicOptions ∪ options.

(** A row of [printOptions]: the options, and the value that is shown. *)
Definition shown_options (showHidden : bool) (srcOptions : gmap string Option_)
    : gmap string Option_ :=
  filter (λ kv : string * Option_, showHidden = true ∨ o_hidden kv.2 = false) srcOptions.
Definition plain_value_of (entry : Option_) (v : option OptionValue) : string :=
  let value := default "" (ov_value <$> v) in
  if decide (value ≠ "" ∧ o_password entry = true) then "********" else value.
Definition plain_rows (showHidden : bool) (srcOptions : gmap string Option_)
    (entryOptions : gmap string OptionValue) : list (list string) :=
  (λ kv : string * Option_,
    [kv.1; FormatBool (o_required kv.2); o_description kv.2; o_default kv.2;
     plain_value_of kv.2 (entryOptions !! kv.1)])
  <$> merge_sort (λ a b : string * Option_, String.le a.1 b.1)
        (map_to_list (shown_options showHidden srcOptions)).

(** ** Running commands *)

Section Commands.
Context (o : osys) (rm : remote) (compress : AgentWorkspaceInfo → string + string).
Context (AllowedIDEs : list AllowedIDE) (compile : string → string + (string → bool)).
(** the path of the configuration file *)
Context (origin : string).
(** [ResolveProvider]: the parsed definition and its source *)
Context (resolve : string → string + (result Provider.ProviderConfig * ProviderSource)).
(** the pro instances of a context: provider and host *)
Context (proInstances : string → string + list (string * string)).
(** stopping an instance of the platform *)
Context (remote_stop : Workspace → M home unit).
Notation C := (M cstate).
Notation s := (o_sys o).

Definition in_home {A} (c : M home A) : C A := zoom st_home set_home c.

Definition load_config (context provider : string) : C Config :=
  st ← getS; liftR (LoadConfig (st_file st) origin context provider).
Definition save_file (c : Config) : C unit :=
  saved ← liftR (SaveConfig c);
  match o_write o origin with
  | Some e => throw e
  | None => modifyS (set_file (Decoded (stored saved)))
  end.
Definition save (c : Config) : C unit :=
  r ← caught (save_file c); liftR (wrap "save config" r).

(** *** cmd/context; the flag is --provider *)

Definition check_context_name (context : string) : result unit :=
  if MatchString ProviderNameRegEx context then
    Err "context name can only include smaller case letters, numbers or dashes"
  else if (48 <? String.length context)%nat then
    Err "context name cannot be longer than 48 characters"
  else Ok ().

Definition context_Create (provider : string) (options : list string) (context : string)
    : C unit :=
  c ← load_config "" provider;
  match find_context c context with
  | Some _ => throw ("context '" +:+ context +:+ "' already exists")
  | None =>
      _ ← liftR (check_context_name context);
      c ← liftR (context_flag_options (put_context c context empty_context) context options);
      save (default_context c context)
  end.

Definition context_Delete (provider context : string) : C unit :=
  c ← load_config context provider;
  name ← liftR (if decide (context = "") then Ok (c_defaultContext c)
                else match find_context c context with
                     | Some _ => Ok context
                     | None => Err (context_missing context)
                     end);
  if decide (name = "default") then throw "cannot delete 'default' context"
  else
    save {| c_defaultContext := if decide (c_defaultContext c = name) then "default"
                                else c_defaultContext c;
            c_contexts := gm_delete name (c_contexts c);
            c_origin := c_origin c;
            c_originalContext := if decide (c_originalContext c = name) then "default"
                                 else c_originalContext c |}.

Definition context_Use (provider : string) (options : list string) (context : string) : C unit :=
  c ← load_config "" provider;
  match find_context c context with
  | None => throw (context_missing context)
  | Some _ =>
      c ← liftR (context_flag_options c context options);
      save (default_context c context)
  end.

Definition context_SetOptions (provider : string) (options : list string) (context : string)
    : C unit :=
  c ← load_config "" provider;
  name ← liftR (if decide (context = "") then Ok (c_defaultContext c)
                else match find_context c context with
                     | Some _ => Ok context
                     | None => Err (context_missing context)
                     end);
  c ← liftR (context_flag_options c name options);
  save c.

(** *** cmd/ide *)

(** [setOptions] of cmd/ide *)
Definition ide_setOptions (c : Config) (ide : string) (options : list string)
    (ideOptions : gmap string IDEOption) : result Config :=
  optionValues ← ide_ParseOptions compile ideOptions options ∅;
  ctx ← current_context c;
  Ok (set_current c (with_ides
        (<[ide := Some {| ide_options := Some (optionValues ∪ IDEOptions ctx ide) |}]>
           (gm_elems (cc_ides ctx))) ctx)).
Definition ide_flag_options (c : Config) (ide : string) (options : list string)
    (ideOptions : gmap string IDEOption) : result Config :=
  match options with [] => Ok c | _ => ide_setOptions c ide options ideOptions end.

Definition ide_Use (context provider : string) (options : list string) (ide : string) : C unit :=
  c ← load_config context provider;
  let ide := ToLower ide in
  ideOptions ← liftR (GetIDEOptions AllowedIDEs ide);
  c ← liftR (ide_flag_options c ide options ideOptions);
  ctx ← liftR (current_context c);
  save (set_current c (with_default_ide ide ctx)).

Definition ide_SetOptions (context provider : string) (options : list string) (ide : string)
    : C unit :=
  c ← load_config context provider;
  let ide := ToLower ide in
  ideOptions ← liftR (GetIDEOptions AllowedIDEs ide);
  c ← liftR (ide_flag_options c ide options ideOptions);
  save c.

(** *** cmd/provider *)

(** The stored values of the user stay unless they are given again. *)
Definition merge_old (reconfigure : bool) (options : gmap string string)
    (old : gmap string OptionValue) : gmap string string :=
  if reconfigure then options
  else options ∪ omap (λ v, if ov_userProvided v then Some (ov_value v) else None) old.

Definition with_initialized (p : Config.ProviderConfig) : Config.ProviderConfig := {|
  pc_initialized := true; pc_singleMachine := pc_singleMachine p; pc_options := pc_options p;
  pc_dynamicOptions := pc_dynamicOptions p;
  pc_creationTimestamp := pc_creationTimestamp p |}.
Definition initProvider (c : Config) (provider : Provider.ProviderConfig) : C Config :=
  ctx ← liftR (current_context c);
  let name := p_name provider in
  r ← caught (in_home (must_run o "init" (e_init (p_exec provider)) (c_defaultContext c)
                         None None (Some (ProviderOptions ctx name)) provider ∅));
  _ ← liftR (wrap "init" r);
  let p := default zero_provider (mjoin (gm_get (cc_providers ctx) name)) in
  mret (set_current c (with_provider ctx name (with_initialized p))).

(** [setOptions] of cmd/provider *)
Definition provider_setOptions (provider : Provider.ProviderConfig) (context : string)
    (userOptions : list string) (reconfigure skipRequired skipInit skipSubOptions : bool)
    (singleMachine : option bool) : C Config :=
  c ← load_config context "";
  options ← liftR (wrap "parse options" (ParseOptions userOptions));
  ctx ← liftR (current_context c);
  let options := merge_old reconfigure options (ProviderOptions ctx (p_name provider)) in
  c ← liftR (wrap "resolve options"
    (ResolveOptions s (o_world o) (o_fuel o) (o_GetBinaries o) c provider options skipRequired
       skipSubOptions singleMachine));
  if skipInit then mret c else initProvider c provider.

Definition ConfigureProvider (provider : Provider.ProviderConfig) (context : string)
    (userOptions : list string) (reconfigure skipInit skipSubOptions : bool)
    (singleMachine : option bool) : C unit :=
  c ← provider_setOptions provider context userOptions reconfigure false skipInit
        skipSubOptions singleMachine;
  ctx ← liftR (current_context c);
  save (set_current c (with_default_provider (p_name provider) ctx)).

Definition provider_Use (context provider : string) (reconfigure singleMachine skipInit : bool)
    (options : list string) (providerName : string) : C unit :=
  c ← load_config context provider;
  p ← in_home (FindProvider o c providerName);
  if decide (reconfigure = true ∨ options ≠ [] ∨ pwo_state p = None ∨ singleMachine = true) then
    ConfigureProvider (pwo_config p) (c_defaultContext c) options reconfigure skipInit false
      (Some singleMachine)
  else
    ctx ← liftR (current_context c);
    save (set_current c (with_default_provider (p_name (pwo_config p)) ctx)).

(** The provider named by the arguments, or the default one. *)
Definition named_provider (c : Config) (args : list string) (missing : string) : result string :=
  ctx ← current_context c;
  match args with
  | a :: _ => Ok a
  | [] => if decide (cc_defaultProvider ctx = "") then Err missing
          else Ok (cc_defaultProvider ctx)
  end.

(** A dry run prints the options instead of saving them. *)
Definition provider_SetOptions (context provider : string) (dry reconfigure singleMachine : bool)
    (ui : string) (options args : list string) : C unit :=
  c ← load_config context provider;
  providerName ← liftR (named_provider c args "please specify a provider");
  if decide (ui = "" ∧ options = []) then throw "please specify option"
  else
    p ← in_home (FindProvider o c providerName);
    c' ← provider_setOptions (pwo_config p) (c_defaultContext c) options reconfigure dry dry
           false (Some singleMachine);
    if dry then mret () else save c'.

Definition DeleteProviderConfig (c : Config) (provider : string) (ignoreNotFound : bool)
    : C unit :=
  ctx ← liftR (current_context c);
  let ctx := if decide (cc_defaultProvider ctx = provider) then with_default_provider "" ctx
             else ctx in
  let c := set_current c (with_providers (gm_delete provider (cc_providers ctx)) ctx) in
  _ ← save c;
  providerDir ← liftR (GetProviderDir s (c_defaultContext c) provider);
  there ← in_home (dir_exists (Ok providerDir));
  if there : bool then
    r ← caught (in_home (RemoveAll o providerDir));
    liftR (wrap "delete provider dir" r)
  else if ignoreNotFound then mret ()
  else throw ("provider '" +:+ provider +:+ "' does not exist").

(** What still uses a provider. *)
Definition check_pro (provider : string) (instances : list (string * string)) : result unit :=
  match List.find (λ i, bool_decide (i.1 = provider)) instances with
  | Some i => Err ("cannot delete provider '" +:+ i.1 +:+
      "', because it is connected to Pro instance '" +:+ i.2 +:+
      "'. Removing the Pro instance will automatically delete this provider")
  | None => Ok ()
  end.
Definition check_workspaces (provider : string) (workspaces : list Workspace) : result unit :=
  match List.find (λ w, bool_decide (wpr_name (w_provider w) = provider)) workspaces with
  | Some w => Err ("cannot delete provider '" +:+ provider +:+ "', because workspace '" +:+
      w_id w +:+ "' is still using it. Please delete the workspace '" +:+ w_id w +:+
      "' before deleting the provider")
  | None => Ok ()
  end.
Definition DeleteProvider (c : Config) (provider : string) (ignoreNotFound force : bool)
    : C unit :=
  _ ← (if force then mret ()
       else
         instances ← liftR (wrap "list pro instances"
                              (of_sum (proInstances (c_defaultContext c))));
         _ ← liftR (check_pro provider instances);
         workspaces ← in_home (List o rm c true);
         liftR (check_workspaces provider workspaces));
  DeleteProviderConfig c provider ignoreNotFound.

Definition provider_Delete (context provider : string) (ignoreNotFound force : bool)
    (args : list string) : C unit :=
  if (1 <? length args)%nat then throw "please specify a provider to delete"
  else
    c ← load_config context provider;
    name ← liftR (named_provider c args "please specify a provider to delete");
    DeleteProvider c name ignoreNotFound force.

Definition check_add (c : Config) (name fromExisting : string) (args : list string)
    : result unit :=
  if decide (length args ≠ 1 ∧ fromExisting = "") then
    Err ("please specify either a local file, url or git repository. E.g. devpod provider add "
         +:+ "https://path/to/my/provider.yaml")
  else if decide (name ≠ "" ∧ MatchString ProviderNameRegEx name = true) then
    Err "provider name can only include smaller case letters, numbers or dashes"
  else if decide (name ≠ "" ∧ (32 < String.length name)%nat) then
    Err "provider name cannot be longer than 32 characters"
  else match Current c with
       | Some ctx =>
           if decide (fromExisting ≠ "" ∧ mjoin (gm_get (cc_providers ctx) fromExisting) = None)
           then Err ("provider " +:+ fromExisting +:+ " does not exist")
           else Ok ()
       | None => Ok ()
       end.

(** [AddProvider]: the definition is installed and the configuration saved. *)
Definition AddProvider (c : Config) (providerName source : string) : C Provider.ProviderConfig :=
  '(parsed, src) ← liftR (of_sum (resolve source));
  '(p, c') ← in_home (AddProviderRaw o rm c parsed providerName src);
  _ ← save c';
  mret p.

Definition add_definition (c : Config) (name fromExisting : string) (options args : list string)
    : C (Provider.ProviderConfig * list string) :=
  if decide (fromExisting ≠ "") then
    p ← in_home (CloneProvider o rm c name fromExisting);
    state ← liftR (deref (pwo_state p));
    mret (pwo_config p,
          mergeOptions (p_options (pwo_config p)).*1 (gm_elems (pc_options state)) options)
  else
    source ← liftR (deref (head args));
    p ← AddProvider c name source;
    mret (p, options).

Definition provider_Add (context provider : string) (use singleMachine : bool)
    (name fromExisting : string) (options args : list string) : C unit :=
  c ← load_config context provider;
  _ ← liftR (check_add c name fromExisting args);
  '(p, options) ← add_definition c name fromExisting options args;
  if use then
    configured ← caught (ConfigureProvider p (c_defaultContext c) options true false false
                           (Some singleMachine));
    match configured with
    | Err e =>
        c ← load_config context "";
        r ← caught (DeleteProvider c (p_name p) true true);
        _ ← liftR (wrap "delete provider" r);
        throw ("configure provider: " +:+ e)
    | r => liftR r
    end
  else mret ().

(** [UpdateProvider] *)
Definition UpdateProvider (c : Config) (providerName source : string)
    : C Provider.ProviderConfig :=
  ctx ← liftR (current_context c);
  match mjoin (gm_get (cc_providers ctx) providerName) with
  | None => throw ("provider " +:+ providerName +:+
      " doesn't exist. Please run 'devpod provider add " +:+ source +:+ "' instead")
  | Some _ =>
      source ← (if decide (source = "") then in_home (ResolveProviderSource o c providerName)
                else mret source);
      '(parsed, src) ← liftR (of_sum (resolve source));
      '(p, c') ← liftR (update_state c parsed providerName src);
      _ ← save_file c';
      _ ← in_home (update_files o rm c p);
      mret p
  end.
Definition provider_Update (context provider : string) (use : bool) (options args : list string)
    : C unit :=
  c ← load_config context provider;
  match args with
  | name :: rest =>
      if (1 <? length rest)%nat then throw "please specify either a local file, url or git repository"
      else
        p ← UpdateProvider c name (default "" (head rest));
        if use then
          r ← caught (ConfigureProvider p (c_defaultContext c) options false false false None);
          liftR (wrap "configure provider" r)
        else mret ()
  | [] => throw "please specify either a local file, url or git repository"
  end.

(** *** cmd/machine, with the name of a machine *)

Definition machine_create (context provider : string) (options args : list string) : C unit :=
  c ← load_config context provider;
  in_home (m ← ResolveMachine o c args options; machine_Create o c m).

Definition check_machine (machineID : string) (workspaces : list Workspace) : result unit :=
  match List.find (λ w, bool_decide (wm_id (w_machine w) = machineID)) workspaces with
  | Some w => Err ("cannot delete machine '" +:+ machineID +:+ "', because workspace '" +:+
      w_id w +:+ "' is still using it. Please delete the workspace '" +:+ w_id w +:+
      "' before deleting the machine")
  | None => Ok ()
  end.
Definition machine_delete (context provider : string) (opt : DeleteOptions) (name : string)
    : C unit :=
  c ← load_config context provider;
  in_home (
    m ← GetMachine o rm c name;
    workspaces ← List o rm c false;
    _ ← liftR (check_machine (mc_id (mcl_machine m)) workspaces);
    machine_Delete o c m opt).
Definition machine_start (context provider name : string) : C unit :=
  c ← load_config context provider;
  in_home (m ← GetMachine o rm c name; machine_Start o c m).
Definition machine_stop (context provider name : string) : C unit :=
  c ← load_config context provider;
  in_home (m ← GetMachine o rm c name; machine_Stop o c m).
Definition machine_status (context provider name : string) : C Status :=
  c ← load_config context provider;
  in_home (m ← GetMachine o rm c name; machine_Status o c m).

(** *** delete and stop *)

(** An error of one of several workspaces is only logged. *)
Fixpoint delete_each (c : Config) (ignoreNotFound force : bool) (opt : DeleteOptions)
    (args : list string) : M home unit :=
  match args with
  | [] => mret ()
  | arg :: args' =>
      _ ← try_ (Delete_workspace o rm c compress [arg] ignoreNotFound force opt);
      delete_each c ignoreNotFound force opt args'
  end.
Definition delete_command (context provider : string) (ignoreNotFound force : bool)
    (opt : DeleteOptions) (args : list string) : C unit :=
  c ← load_config context provider;
  in_home (match args with
           | [] => _ ← Delete_workspace o rm c compress [] ignoreNotFound force opt; mret ()
           | _ => delete_each c ignoreNotFound force opt args
           end).

Definition client_Stop (c : Config) (client : BaseWorkspaceClient) : M home unit :=
  match client with
  | LocalClient w => Clients.Stop o c compress w
  | RemoteClient _ w => remote_stop w
  end.
(** Whether the machine of the workspace was stopped with it. *)
Definition stopSingleMachine (c : Config) (client : BaseWorkspaceClient) : M home bool :=
  let w := client_workspace client in
  singleMachineName ← SingleMachineName o rm c (client_provider client);
  ctx ← liftR (current_context c);
  if negb (IsSingleMachine ctx (client_provider client)) ||
     negb (bool_decide (wm_id (w_machine w) = singleMachineName))
  then mret false
  else
    r ← caught (List o rm c false);
    workspaces ← liftR (wrap "list workspaces" r);
    if existsb (other_on_machine (w_id w) singleMachineName) workspaces then mret false
    else
      r ← caught (GetMachine o rm c singleMachineName);
      machineClient ← liftR (wrap "get machine" r);
      r ← caught (machine_Stop o c machineClient);
      _ ← liftR (wrap "delete machine" r);
      mret true.
Definition stop_loaded (c : Config) (platformEnabled : bool) (client : BaseWorkspaceClient)
    : M home unit :=
  _ ← liftR (if platformEnabled then Ok ()
             else match rm_lock rm (client_workspace client) with
                  | Some e => Err e | None => Ok () end);
  instanceStatus ← client_Status o rm c compress client;
  if decide (instanceStatus = StatusRunning) then
    wasStopped ← stopSingleMachine c client;
    if wasStopped : bool then mret () else client_Stop c client
  else throw ("cannot stop workspace because it is '" +:+ Status_String instanceStatus +:+ "'").
Definition stop_command (context provider : string) (platformEnabled : bool) (args : list string)
    : C unit :=
  c ← load_config context provider;
  in_home (client ← Get o rm c args false false; stop_loaded c platformEnabled client).
End Commands.
