(* ===== verification/CommandsProps.v ===== *)
(** * Properties of the commands

    What a command writes is what the next one reads, up to maps that are
    empty or missing; creating, using and deleting contexts and providers change what
    they name and nothing else; a dry run changes nothing. *)

From S2P Require Import Prelude GoStrings GoRegexp Types Config Names Provider Options Home Ide Clients Workspaces Registry RegistryProps Commands WorkspacesProps.
From stdpp Require Import base gmap list strings sorting.
From Stdlib Require Import ZArith Lia.

Local Open Scope string_scope.
Local Open Scope list_scope.

(** ** Configurations up to empty maps *)

(** A nil map and an empty one hold the same. *)
#[export] Instance gomap_equiv {V} `{Equiv V} : Equiv (gomap V) :=
  λ a b, gm_elems a ≡ gm_elems b.
#[export] Instance OptionValue_equiv : Equiv OptionValue := eq.
#[export] Instance Option_equiv : Equiv Option_ := eq.
#[export] Instance provider_equiv : Equiv Config.ProviderConfig := λ a b,
  pc_initialized a = pc_initialized b ∧ pc_singleMachine a = pc_singleMachine b ∧
  pc_options a ≡ pc_options b ∧ pc_dynamicOptions a ≡ pc_dynamicOptions b ∧
  pc_creationTimestamp a = pc_creationTimestamp b.
#[export] Instance ide_equiv : Equiv IDEConfig := λ a b, ide_options a ≡ ide_options b.
(** The original provider is not a part of the configuration. *)
#[export] Instance context_equiv : Equiv ContextConfig := λ a b,
  cc_defaultProvider a = cc_defaultProvider b ∧ cc_defaultIDE a = cc_defaultIDE b ∧
  cc_options a ≡ cc_options b ∧ cc_ides a ≡ cc_ides b ∧ cc_providers a ≡ cc_providers b.

#[export] Instance gomap_equivalence {V} `{Equiv V} :
  Equivalence (≡@{V}) → Equivalence (≡@{gomap V}).
Proof.
  intros HV. split.
  - intros a. change (gm_elems a ≡ gm_elems a). reflexivity.
  - intros a b Hab. change (gm_elems b ≡ gm_elems a). by symmetry.
  - intros a b c Hab Hbc. change (gm_elems a ≡ gm_elems c). by trans (gm_elems b).
Qed.
#[export] Instance OptionValue_equivalence : Equivalence (≡@{OptionValue}).
Proof. unfold equiv, OptionValue_equiv. apply _. Qed.
#[export] Instance Option_equivalence : Equivalence (≡@{Option_}).
Proof. unfold equiv, Option_equiv. apply _. Qed.
#[export] Instance provider_equivalence : Equivalence (≡@{Config.ProviderConfig}).
Proof.
  split.
  - intros a. by repeat split.
  - intros a b (H1 & H2 & H3 & H4 & H5). by repeat split.
  - intros a b c (H1 & H2 & H3 & H4 & H5) (G1 & G2 & G3 & G4 & G5).
    repeat split; [congruence|congruence|by trans (pc_options b)|by trans (pc_dynamicOptions b)|congruence].
Qed.
#[export] Instance ide_equivalence : Equivalence (≡@{IDEConfig}).
Proof.
  split.
  - intros a. change (ide_options a ≡ ide_options a). reflexivity.
  - intros a b Hab. change (ide_options b ≡ ide_options a). by symmetry.
  - intros a b c Hab Hbc. change (ide_options a ≡ ide_options c). by trans (ide_options b).
Qed.
#[export] Instance context_equivalence : Equivalence (≡@{ContextConfig}).
Proof.
  split.
  - intros a. by repeat split.
  - intros a b (H1 & H2 & H3 & H4 & H5). by repeat split.
  - intros a b c (H1 & H2 & H3 & H4 & H5) (G1 & G2 & G3 & G4 & G5).
    repeat split; [congruence|congruence|by trans (cc_options b)|by trans (cc_ides b)|by trans (cc_providers b)].
Qed.

Lemma omit_elems {V} (m : gomap V) : gm_elems (omit_empty m) = gm_elems m.
Proof. destruct m as [m|]; [|done]. cbn. by case_decide as H; [subst|]. Qed.
Lemma omit_empty_equiv {V} `{Equiv V, !Equivalence (≡@{V})} (m : gomap V) : omit_empty m ≡ m.
Proof. change (gm_elems (omit_empty m) ≡ gm_elems m). by rewrite omit_elems. Qed.
Lemma fmap_equiv {V} `{Equiv V} (f : V → V) (m : gmap string (option V)) :
  (∀ v, f v ≡ v) → (fmap (M := option) f <$> m) ≡ m.
Proof.
  intros Hf k. rewrite lookup_fmap. destruct (m !! k) as [[v|]|]; cbn; repeat constructor.
  apply Hf.
Qed.
Lemma clone_provider_equiv p : clone_provider p ≡ p.
Proof. repeat split; apply (omit_empty_equiv _). Qed.
Lemma clone_ide_equiv i : clone_ide i ≡ i.
Proof. apply (omit_empty_equiv (ide_options i)). Qed.
Lemma clone_context_equiv ctx : clone_context ctx ≡ ctx.
Proof.
  repeat split.
  - apply (omit_empty_equiv (cc_options ctx)).
  - apply (fmap_equiv clone_ide), clone_ide_equiv.
  - apply (fmap_equiv clone_provider), clone_provider_equiv.
Qed.
Lemma stored_context_equiv ctx : stored_context ctx ≡ ctx.
Proof. repeat split; apply (omit_empty_equiv _). Qed.
Lemma with_default_equiv {V} `{Equiv V, !Equivalence (≡@{V})} (m : gomap V) :
  with_default ∅ m ≡ m.
Proof. change (gm_elems (with_default ∅ m) ≡ gm_elems m). by destruct m. Qed.
Lemma init_context_equiv ctx : init_context (Some ctx) "" ≡ ctx.
Proof. repeat split; apply (with_default_equiv _). Qed.
Lemma restore_provider_none ctx : cc_originalProvider ctx = "" → restore_provider ctx = ctx.
Proof. intros H. unfold restore_provider. by rewrite H. Qed.
Lemma find_contexts c n : find_context c n = mjoin (gm_elems (c_contexts c) !! n).
Proof. unfold find_context. by destruct (c_contexts c). Qed.

(** ** Saving and loading *)

(** The context that is saved as the default one. *)
Definition saved_name (c : Config) : string :=
  if bool_decide (c_originalContext c = "") then c_defaultContext c else c_originalContext c.
(** A configuration whose provider no flag overrides, all contexts of which exist. *)
Record plain (c : Config) : Prop := {
  plain_contexts : map_Forall (λ _ x, is_Some x) (gm_elems (c_contexts c));
  plain_current : ∃ ctx, find_context c (saved_name c) = Some ctx ∧
                         cc_originalProvider ctx = "";
}.

Definition same_contexts (c c' : Config) : Prop :=
  ∀ n, find_context c' n ≡ find_context c n.


Lemma stored_spec c : map_Forall (λ _ x, is_Some x) (gm_elems (c_contexts c)) →
  from_file (stored c) ∧ c_defaultContext (stored c) = c_defaultContext c ∧
  same_contexts c (stored c).
Proof.
  intros Hall. split_and!; [|done|].
  - split; [done|]. intros n ctx. unfold stored. cbn [c_contexts]. rewrite omit_elems. cbn.
    rewrite lookup_fmap. destruct (gm_elems (c_contexts c) !! n) as [x|] eqn:Hx; [|done].
    intros [= <-]. destruct (Hall _ _ Hx) as [y ->]. by eexists.
  - intros n. rewrite !find_contexts. unfold stored. cbn [c_contexts]. rewrite omit_elems. cbn.
    rewrite lookup_fmap. destruct (gm_elems (c_contexts c) !! n) as [[x|]|]; cbn; constructor.
    apply stored_context_equiv.
Qed.

(** A plain configuration is saved with its contexts. *)
Lemma SaveConfig_plain c c' : plain c → SaveConfig c = Ok c' →
  map_Forall (λ _ x, is_Some x) (gm_elems (c_contexts c')) ∧
  c_defaultContext c' = saved_name c ∧ same_contexts c c'.
Proof.
  intros [Hall (ctx & Hctx & Hp)] Hs. rewrite find_contexts in Hctx.
  destruct (c_contexts c) as [m|] eqn:Hm; [|done]. cbn in Hctx, Hall.
  assert (m !! saved_name c = Some (Some ctx)) as Hget
    by (destruct (m !! saved_name c) as [[]|]; by simplify_eq/=).
  rewrite (SaveConfig_total c m ctx Hm Hall Hget) in Hs. fold (saved_name c) in Hs.
  injection Hs as <-. cbn [c_contexts c_defaultContext gm_elems default].
  rewrite restore_provider_none by done. split_and!; [|done|].
  - apply map_Forall_insert_2; [by eexists|]. intros n x. rewrite lookup_fmap.
    destruct (m !! n) as [y|] eqn:Hy; [|done]. intros [= <-].
    destruct (Hall _ _ Hy) as [z ->]. by eexists.
  - intros n. rewrite !find_contexts, Hm. cbn. destruct (decide (n = saved_name c)) as [->|Hn].
    + rewrite lookup_insert_eq, Hget. constructor. apply clone_context_equiv.
    + rewrite lookup_insert_ne, lookup_fmap by done.
      destruct (m !! n) as [[x|]|]; cbn; constructor. apply clone_context_equiv.
Qed.

(** Every context of the first configuration is in the second one. *)
Definition keeps (c c' : Config) : Prop :=
  ∀ n ctx, find_context c n = Some ctx → ∃ ctx', find_context c' n = Some ctx' ∧ ctx' ≡ ctx.
#[export] Instance keeps_preorder : PreOrder keeps.
Proof.
  split; [intros c n ctx H; by exists ctx|]. intros a b c Hab Hbc n ctx Hn.
  destruct (Hab n ctx Hn) as (x & Hx & Hxe). destruct (Hbc n x Hx) as (y & Hy & Hye).
  exists y. split; [done|]. by trans x.
Qed.
Lemma same_keeps c c' : same_contexts c c' → keeps c c'.
Proof.
  intros Hs n ctx Hn. specialize (Hs n). rewrite Hn in Hs. inversion Hs; subst. by eexists.
Qed.
Lemma same_None c c' n : same_contexts c c' → find_context c n = None → find_context c' n = None.
Proof. intros Hs Hn. specialize (Hs n). rewrite Hn in Hs. by inversion Hs. Qed.

Section Files.
Context (o : osys) (origin : string).
Notation save := (save o origin).
Notation load_config := (load_config origin).

(** [Written c st st']: the file has [c], as it is read back. *)
Definition written (c : Config) (st st' : cstate) : Prop :=
  st_home st' = st_home st ∧ ∃ c', st_file st' = Decoded c' ∧ from_file c' ∧
    c_defaultContext c' = saved_name c ∧ same_contexts c c'.

Lemma save_spec c st r st' : plain c → save c st = (r, st') →
  (r = Ok () ∧ written c st st') ∨ (r ≠ Ok () ∧ st' = st).
Proof.
  intros Hp. unfold Commands.save, save_file, caught, mbind, M_bind, liftR.
  destruct (SaveConfig c) as [c'|e| |] eqn:Hs; cbn; try (intros [= <- <-]; by right).
  destruct (o_write o origin) as [e|]; cbn; intros [= <- <-]; [by right|].
  left. split; [done|]. split; [done|]. exists (stored c'). split; [done|].
  destruct (SaveConfig_plain c c' Hp Hs) as (Hall & Hd & Hsame).
  destruct (stored_spec c' Hall) as (Hf & Hd' & Hsame').
  split_and!; [done|by rewrite Hd'|]. intros n. trans (find_context c' n); [apply Hsame'|apply Hsame].
Qed.

(** Loading without flags makes sure that the default context exists. *)
Lemma load_spec c override c1 : from_file c →
  LoadConfig (Decoded c) origin override "" = Ok c1 →
  let name := c_defaultContext c1 in
  name = (if bool_decide (override = "") then
            if bool_decide (c_defaultContext c = "") then DefaultContext else c_defaultContext c
          else override) ∧
  c_originalContext c1 = (if bool_decide (override = "") then "" else c_defaultContext c) ∧
  gm_elems (c_contexts c1) =
    <[name := Some (init_context (mjoin (gm_elems (c_contexts c) !! name)) "")]>
      (gm_elems (c_contexts c)) ∧
  map_Forall (λ _ x, is_Some x) (gm_elems (c_contexts c1)) ∧ keeps c c1.
Proof.
  intros Hf. unfold LoadConfig. intros Hload. pose proof (ff_context c Hf) as Ho.
  assert (∀ n, keeps c {| c_defaultContext := c_defaultContext c1; c_origin := c_origin c1;
      c_originalContext := c_originalContext c1;
      c_contexts := Some (<[n := Some (init_context (mjoin (gm_elems (c_contexts c) !! n)) "")]>
                            (gm_elems (c_contexts c))) |}) as Hk.
  { intros n k ctx. rewrite !find_contexts. cbn. intros Hget.
    destruct (decide (n = k)) as [->|Hne]; [|rewrite lookup_insert_ne by done; by exists ctx].
    rewrite lookup_insert_eq, Hget. cbn. eexists. split; [done|apply init_context_equiv]. }
  case_bool_decide; injection Hload as <-; rewrite ?Ho; cbn;
    (split_and!; [done|done|done|by apply from_file_insert|apply Hk]).
Qed.

Lemma find_put c n ctx k :
  find_context (put_context c n ctx) k = if decide (k = n) then Some ctx else find_context c k.
Proof.
  rewrite !find_contexts. cbn. case_decide as Hk; [subst; by rewrite lookup_insert_eq|].
  by rewrite lookup_insert_ne.
Qed.
Lemma keeps_new c c' name : find_context c name = None →
  (∀ n, n ≠ name → find_context c' n = find_context c n) → keeps c c'.
Proof. intros Hn Heq k x Hk. exists x. by rewrite Heq by congruence. Qed.
Lemma init_original c n : from_file c →
  cc_originalProvider (init_context (mjoin (gm_elems (c_contexts c) !! n)) "") = "".
Proof.
  intros Hf. destruct (gm_elems (c_contexts c) !! n) as [y|] eqn:Hy; [|done].
  destruct (ff_contexts c Hf _ _ Hy) as (z & -> & Hz). done.
Qed.
Lemma original_empty c n ctx : from_file c → find_context c n = Some ctx →
  cc_originalProvider ctx = "".
Proof.
  intros Hf. rewrite find_contexts. destruct (gm_elems (c_contexts c) !! n) as [x|] eqn:Hx; [|done].
  destruct (ff_contexts c Hf _ _ Hx) as (z & -> & Hz). by intros [= <-].
Qed.
Lemma plain_loaded c c1 : from_file c → LoadConfig (Decoded c) origin "" "" = Ok c1 → plain c1.
Proof.
  intros Hf Hl. destruct (load_spec c "" c1 Hf Hl) as (_ & Ho & Hc & Hall & _).
  split; [done|]. unfold saved_name. rewrite Ho. rewrite !bool_decide_true by done.
  rewrite find_contexts, Hc, lookup_insert_eq. eexists. split; [reflexivity|].
  by apply init_original.
Qed.

#[local] Instance OptionValue_leibniz : LeibnizEquiv OptionValue.
Proof. by intros a b. Qed.
Lemma options_equal ctx ctx' : ctx' ≡ ctx → gm_elems (cc_options ctx') = gm_elems (cc_options ctx).
Proof. intros (_ & _ & Ho & _). apply leibniz_equiv. exact Ho. Qed.

(** A new context with the options of the flags. *)
Lemma new_context_options c name options c3 :
  context_flag_options (put_context c name empty_context) name options = Ok c3 →
  c_originalContext c3 = c_originalContext c ∧
  ∃ ctx, find_context c3 name = Some ctx ∧ cc_originalProvider ctx = "" ∧
    context_parseOptions options ∅ = Ok (gm_elems (cc_options ctx)) ∧
    (∀ n, n ≠ name → find_context c3 n = find_context c n) ∧
    (map_Forall (λ _ x, is_Some x) (gm_elems (c_contexts c)) →
     map_Forall (λ _ x, is_Some x) (gm_elems (c_contexts c3))).
Proof.
  unfold context_flag_options. intros Hopt. destruct options as [|op ops].
  - injection Hopt as <-. split; [done|]. exists empty_context.
    rewrite find_put, decide_True by done. split_and!; [done..| |].
    + intros n Hn. by rewrite find_put, decide_False.
    + intros H. by apply map_Forall_insert_2; [eexists|].
  - unfold context_setOptions in Hopt. apply bind_Ok in Hopt as (m & Hm & Hopt).
    rewrite find_put, decide_True in Hopt by done. injection Hopt as <-.
    split; [done|]. eexists. rewrite find_put, decide_True by done. split; [reflexivity|].
    split_and!; [done|by rewrite (right_id_L ∅ (∪))| |].
    + intros n Hn. by rewrite !find_put, !decide_False.
    + intros H. by repeat (apply map_Forall_insert_2; [by eexists|]).
Qed.

(** Creating a context.  It succeeds only for a new name that is allowed,
    and then the new context is the default one and has the given
    options, every other context is kept, and nothing else in the home
    directory changes; when it fails nothing changes. *)
Theorem context_Create_outcome c name options st r st' :
  st_file st = Decoded c → from_file c →
  context_Create o origin "" options name st = (r, st') →
  st_home st' = st_home st ∧ (r ≠ Ok () → st' = st) ∧
  (r = Ok () → find_context c name = None ∧ check_context_name name = Ok () ∧
     ∃ c' ctx, st_file st' = Decoded c' ∧ from_file c' ∧ c_defaultContext c' = name ∧
       find_context c' name = Some ctx ∧ keeps c c' ∧
       context_parseOptions options ∅ = Ok (gm_elems (cc_options ctx))).
Proof.
  intros Hfile Hf. unfold context_Create, Commands.load_config, mbind, M_bind, getS, liftR.
  rewrite Hfile.
  destruct (LoadConfig (Decoded c) origin "" "") as [c1|e| |] eqn:Hl; try (by intros [= <- <-]).
  destruct (load_spec c "" c1 Hf Hl) as (_ & Ho & _ & Hall & Hk).
  destruct (find_context c1 name) as [x|] eqn:Hname; [by intros [= <- <-]|].
  destruct (check_context_name name) as [[]|e| |]; try (by intros [= <- <-]).
  destruct (context_flag_options _ name options) as [c3|e| |] eqn:Hopt; try (by intros [= <- <-]).
  apply new_context_options in Hopt as (Ho3 & ctx & Hctx & Hp & Hm & Hother & Hall3).
  assert (saved_name (default_context c3 name) = name) as Hs.
  { unfold saved_name. cbn. by rewrite Ho3, Ho. }
  assert (plain (default_context c3 name)) as Hplain.
  { split; [by apply Hall3|]. rewrite Hs. by exists ctx. }
  intros Hsave. destruct (save_spec _ _ _ _ Hplain Hsave) as [[-> [Hh Hw]]|[Hr ->]]; [|done].
  split; [done|]. split; [done|]. intros _. split.
  { destruct (find_context c name) as [y|] eqn:Hy; [|done].
    destruct (Hk _ _ Hy) as (z & Hz & _). congruence. }
  split; [done|]. destruct Hw as (c' & Hc' & Hf' & Hd & Hsame). rewrite Hs in Hd.
  assert (keeps (default_context c3 name) c') as Hk' by by apply same_keeps.
  destruct (Hk' name ctx Hctx) as (ctx' & Hctx' & Heq). exists c', ctx'.
  split_and!; [done..| |by rewrite (options_equal ctx)].
  etrans; [exact Hk|]. etrans; [|exact Hk']. by apply (keeps_new c1 c3 name).
Qed.

(** Deleting a context that is not the default one removes it
    and nothing else; when it was the current one, the context default becomes
    current. *)
Theorem context_Delete_outcome c name st r st' :
  st_file st = Decoded c → from_file c → name ≠ "" → c_defaultContext c ≠ "" →
  is_Some (find_context c "default") → is_Some (find_context c (c_defaultContext c)) →
  context_Delete o origin "" name st = (r, st') →
  st_home st' = st_home st ∧ (r ≠ Ok () → st' = st) ∧
  (r = Ok () → name ≠ "default" ∧ ∃ c', st_file st' = Decoded c' ∧ from_file c' ∧
     find_context c' name = None ∧
     c_defaultContext c' = (if decide (c_defaultContext c = name) then "default"
                            else c_defaultContext c) ∧
     ∀ n ctx, n ≠ name → find_context c n = Some ctx →
       ∃ ctx', find_context c' n = Some ctx' ∧ ctx' ≡ ctx).
Proof.
  intros Hfile Hf Hne Hdef [d Hd] [cur Hcur].
  unfold context_Delete, Commands.load_config, mbind, M_bind, getS, liftR. rewrite Hfile.
  destruct (LoadConfig (Decoded c) origin name "") as [c1|e| |] eqn:Hl; try (by intros [= <- <-]).
  destruct (load_spec c name c1 Hf Hl) as (Hn1 & Ho & Hc & Hall & Hk).
  rewrite bool_decide_false in Hn1, Ho by done. rewrite decide_False by done.
  destruct (find_context c1 name) as [x|] eqn:Hname; [|by intros [= <- <-]].
  case_decide as Hdn; [by intros [= <- <-]|]. rewrite Hn1, decide_True by done.
  set (orig := if decide (c_originalContext c1 = name) then "default" else c_originalContext c1).
  assert (orig ≠ "" ∧ orig ≠ name) as [Ho1 Ho2].
  { unfold orig. rewrite Ho. by case_decide. }
  match goal with |- save ?x _ = _ → _ => set (c2 := x) end.
  assert (∀ n, n ≠ name → find_context c2 n = find_context c n) as Hother.
  { intros n Hn. rewrite !find_contexts. unfold c2. cbn.
    destruct (c_contexts c1) as [m|] eqn:Hm1; cbn in Hc |- *;
      [|unfold find_context in Hname; by rewrite Hm1 in Hname].
    rewrite lookup_delete_ne by done. rewrite Hc, Hn1, lookup_insert_ne by done. done. }
  assert (find_context c2 name = None) as Hgone.
  { rewrite find_contexts. unfold c2. cbn. destruct (c_contexts c1); cbn; [by rewrite lookup_delete_eq|done]. }
  assert (saved_name c2 = orig) as Hs.
  { unfold saved_name. cbn. fold orig. by rewrite bool_decide_false. }
  assert (plain c2) as Hplain.
  { split.
    - unfold c2. cbn. destruct (c_contexts c1) as [m|]; [|done]. cbn in Hall |- *.
      by apply map_Forall_delete.
    - rewrite Hs, Hother by done. destruct (decide (c_defaultContext c = name)) as [Heq|Heq].
      + assert (orig = "default") as -> by (unfold orig; rewrite Ho; by rewrite decide_True).
        exists d. split; [done|]. by eapply original_empty.
      + assert (orig = c_defaultContext c) as -> by (unfold orig; rewrite Ho; by rewrite decide_False).
        exists cur. split; [done|]. by eapply original_empty. }
  intros Hsave. destruct (save_spec _ _ _ _ Hplain Hsave) as [[-> [Hh Hw]]|[Hr ->]]; [|done].
  split; [done|]. split; [done|]. intros _. split; [done|].
  destruct Hw as (c' & Hc' & Hf' & Hd' & Hsame). exists c'. split_and!; [done|done| | |].
  - by eapply same_None.
  - rewrite Hd', Hs. unfold orig. by rewrite Ho.
  - intros n ctx Hn Hctx. rewrite <- Hother in Hctx by done. by apply (same_keeps _ _ Hsame).
Qed.
End Files.

(** ** Providers *)

Section Providers.
Context (o : osys) (rm : remote) (origin : string).
Context (proInstances : string → string + list (string * string)).

(** *** Steps that change nothing, or not the file *)

Lemma stays_in_home {A} (c : M home A) : stays eq c → stays eq (in_home c).
Proof.
  intros Hc [f h]. unfold in_home, zoom. cbn. specialize (Hc h). destruct (c h) as [r h'].
  cbn in *. by subst h'.
Qed.
Lemma stays_load context provider : stays eq (load_config origin context provider).
Proof. unfold load_config. stays. Qed.
#[local] Hint Resolve stays_in_home stays_load stays_FindProvider stays_ReadDir
  stays_loadWorkspaceConfig : stays.

Definition same_file (st st' : cstate) : Prop := st_file st' = st_file st.
#[local] Instance same_file_preorder : PreOrder same_file.
Proof. unfold same_file. split; [done|]. intros a b c H1 H2. congruence. Qed.
Lemma file_eq {A} (c : M cstate A) : stays eq c → stays same_file c.
Proof. intros Hc st. unfold same_file. by rewrite <- (Hc st). Qed.
Lemma file_in_home {A} (c : M home A) : stays same_file (in_home c).
Proof. intros [f h]. unfold in_home, zoom. cbn. by destruct (c h). Qed.
#[local] Hint Resolve file_in_home : stays.
Lemma file_load context provider : stays same_file (load_config origin context provider).
Proof. apply file_eq, stays_load. Qed.
#[local] Hint Resolve file_load : stays.
Lemma file_initProvider c p : stays same_file (initProvider o c p).
Proof. unfold initProvider. stays. Qed.
#[local] Hint Resolve file_initProvider : stays.
Lemma file_setOptions p context options a b d e m :
  stays same_file (provider_setOptions o origin p context options a b d e m).
Proof. unfold provider_setOptions. stays. Qed.

Lemma dry_setOptions p context options a b e m :
  stays eq (provider_setOptions o origin p context options a b true e m).
Proof. unfold provider_setOptions. stays. Qed.
#[local] Hint Resolve dry_setOptions : stays.

(** A dry run of setting the options of a provider changes neither the
    configuration file nor the home directory, whatever its outcome; in particular no
    command of the provider is run for its initialisation. *)
Theorem provider_dry_run context provider reconfigure single ui options args :
  stays eq (provider_SetOptions o origin context provider true reconfigure single ui options args).
Proof. unfold provider_SetOptions. stays. Qed.

(** *** Writing the current context *)

Lemma find_current c ctx n :
  find_context (set_current c ctx) n =
  if decide (n = c_defaultContext c) then Some ctx else find_context c n.
Proof.
  rewrite !find_contexts. cbn. case_decide as Hk; [subst; by rewrite lookup_insert_eq|].
  by rewrite lookup_insert_ne.
Qed.
Lemma current_find c : Current c = find_context c (c_defaultContext c).
Proof. done. Qed.
Lemma plain_set_current c ctx : plain c → c_originalContext c = "" →
  cc_originalProvider ctx = "" → plain (set_current c ctx).
Proof.
  intros [Hall _] Ho Hctx. split; [apply map_Forall_insert_2; [by eexists|done]|].
  assert (saved_name (set_current c ctx) = c_defaultContext c) as ->.
  { unfold saved_name. cbn. by rewrite Ho, bool_decide_true. }
  exists ctx. by rewrite find_current, decide_True.
Qed.
Lemma loaded_current c c1 ctx : from_file c → LoadConfig (Decoded c) origin "" "" = Ok c1 →
  Current c1 = Some ctx → plain c1 ∧ c_originalContext c1 = "" ∧ cc_originalProvider ctx = "".
Proof.
  intros Hf Hl Hcur. destruct (load_spec origin c "" c1 Hf Hl) as (_ & Ho & Hc & _).
  split; [by eapply plain_loaded|]. rewrite bool_decide_true in Ho by done. split; [done|].
  rewrite current_find, find_contexts, Hc, lookup_insert_eq in Hcur. injection Hcur as <-.
  by apply init_original.
Qed.

(** What deleting a provider leaves. *)
Record provider_gone (c c' : Config) (p : string) : Prop := {
  gone_contexts : ∀ n, n ≠ c_defaultContext c → find_context c' n ≡ find_context c n;
  gone_provider : ∃ ctx ctx', Current c = Some ctx ∧
    find_context c' (c_defaultContext c) = Some ctx' ∧
    gm_elems (cc_providers ctx') !! p = None ∧
    (p ≠ "" → cc_defaultProvider ctx' ≠ p) ∧
    ∀ q, q ≠ p → gm_elems (cc_providers ctx') !! q ≡ gm_elems (cc_providers ctx) !! q;
}.
Lemma elems_delete {V} k (m : gomap V) : gm_elems (gm_delete k m) = delete k (gm_elems m).
Proof. destruct m; cbn; [done|by rewrite delete_empty]. Qed.
Lemma deleted_provider p (m m' : gomap (option Config.ProviderConfig)) :
  m' ≡ gm_delete p m → gm_elems m' !! p = None.
Proof.
  intros Hm. specialize (Hm p). rewrite elems_delete, lookup_delete_eq in Hm. by inversion Hm.
Qed.
Lemma DeleteProviderConfig_Ok c p ign st st' :
  plain c → c_originalContext c = "" → (∀ ctx, Current c = Some ctx → cc_originalProvider ctx = "") →
  DeleteProviderConfig o origin c p ign st = (Ok (), st') →
  ∃ c' dir, st_file st' = Decoded c' ∧ from_file c' ∧ c_defaultContext c' = c_defaultContext c ∧
    provider_gone c c' p ∧ GetProviderDir (o_sys o) (c_defaultContext c) p = Ok dir ∧
    dir ∉ h_dirs (st_home st') ∧
    (st_home st' = st_home st ∨ st_home st' = remove_all dir (st_home st)).
Proof.
  intros Hp Ho Horig. unfold DeleteProviderConfig, current_context.
  destruct (Current c) as [ctx|] eqn:Hcur; [|done]. specialize (Horig ctx eq_refl).
  cbn [deref]. rewrite run_lift_Ok.
  set (ctx1 := if decide (cc_defaultProvider ctx = p) then with_default_provider "" ctx else ctx).
  set (ctx2 := with_providers (gm_delete p (cc_providers ctx1)) ctx1).
  assert (cc_originalProvider ctx2 = "") as Horig2 by (unfold ctx2, ctx1; by case_decide).
  intros ([] & st1 & Hsave & H)%M_bind_Ok.
  assert (saved_name (set_current c ctx2) = c_defaultContext c) as Hs.
  { unfold saved_name. cbn. by rewrite Ho, bool_decide_true. }
  destruct (save_spec o origin _ _ _ _ (plain_set_current _ _ Hp Ho Horig2) Hsave)
    as [[_ [Hh (c' & Hc' & Hf' & Hd & Hsame)]]|[? _]]; [|done]. rewrite Hs in Hd.
  apply M_bind_Ok in H as (dir & st2 & Hdir & H). injection Hdir as Hdir <-.
  assert (st_file st' = st_file st1 ∧ dir ∉ h_dirs (st_home st') ∧
    (st_home st' = st_home st ∨ st_home st' = remove_all dir (st_home st))) as (Hfile & Hgone & Hhome).
  { rewrite <- Hh. clear Hh Hsave. destruct st1 as [f h]. unfold dir_exists, in_home, zoom in H. cbn in H.
    unfold mbind, M_bind at 1 in H. cbn in H. case_bool_decide as Hin; cbn in H.
    - unfold RemoveAll, caught, mbind, M_bind, zoom, liftR in H.
      destruct (o_remove o dir); cbn in H; [done|]. injection H as <-. cbn.
      split; [done|]. split; [|by right]. rewrite elem_of_filter. naive_solver.
    - destruct ign; [|done]. injection H as <-. split; [done|]. split; [done|by left]. }
  exists c', dir. rewrite Hfile. split_and!; [done..| |exact Hdir|done|done]. split.
  - intros n Hn. etrans; [apply Hsame|]. by rewrite find_current, decide_False.
  - pose proof (Hsame (c_defaultContext c)) as Hx. rewrite find_current, decide_True in Hx by done.
    inversion Hx as [ctx' ? Heq Hc|]; subst. destruct Heq as (Hdp & _ & _ & _ & Hps).
    exists ctx, ctx'. split_and!; [done|done|..].
    + apply (deleted_provider p _ _ Hps).
    + rewrite Hdp. unfold ctx2, ctx1. cbn. case_decide as Hd2; cbn; congruence.
    + intros q Hq. etrans; [apply Hps|].
      change (gm_elems (gm_delete p (cc_providers ctx1)) !! q ≡ gm_elems (cc_providers ctx) !! q).
      rewrite elems_delete, lookup_delete_ne by done. unfold ctx1. by case_decide.
Qed.

Lemma load_config_Ok context provider st c1 st1 :
  load_config origin context provider st = (Ok c1, st1) →
  st1 = st ∧ LoadConfig (st_file st) origin context provider = Ok c1.
Proof. unfold load_config, mbind, M_bind, getS, liftR. by intros [= H <-]. Qed.
Lemma file_List c : stays eq (List o rm c true).
Proof.
  assert (∀ l, stays eq (load_entries o c true l)) as Hl.
  { induction l as [|x l IH]; cbn [load_entries]; stays. }
  unfold List, ListLocalWorkspaces. stays.
Qed.

Lemma find_none {A} (P : A → Prop) `{∀ x, Decision (P x)} (l : list A) :
  List.find (λ x, bool_decide (P x)) l = None → ∀ x, x ∈ l → ¬ P x.
Proof.
  intros Hf x Hx. apply list_elem_of_In in Hx.
  exact (proj1 (bool_decide_eq_false _) (List.find_none _ _ Hf x Hx)).
Qed.
Lemma check_pro_Ok p instances : check_pro p instances = Ok () → ∀ i, i ∈ instances → i.1 ≠ p.
Proof. unfold check_pro. case_match eqn:Hf; [done|]. intros _. exact (find_none (λ i, i.1 = p) _ Hf). Qed.
Lemma check_workspaces_Ok p ws :
  check_workspaces p ws = Ok () → ∀ w, w ∈ ws → wpr_name (w_provider w) ≠ p.
Proof. unfold check_workspaces. case_match eqn:Hf; [done|]. intros _.
  exact (find_none (λ w, wpr_name (w_provider w) = p) _ Hf). Qed.

(** Nothing uses the provider. *)
Definition unused (c : Config) (p : string) (h : home) : Prop :=
  (∃ instances, proInstances (c_defaultContext c) = inr instances ∧
     ∀ i, i ∈ instances → i.1 ≠ p) ∧
  (∃ workspaces, (List o rm c true h).1 = Ok workspaces ∧
     ∀ w, w ∈ workspaces → wpr_name (w_provider w) ≠ p).

Lemma DeleteProvider_unused c p ign st st' :
  DeleteProvider o rm origin proInstances c p ign false st = (Ok (), st') →
  unused c p (st_home st) ∧ DeleteProviderConfig o origin c p ign st = (Ok (), st').
Proof.
  unfold DeleteProvider. intros ([] & st1 & Hcheck & Hdel)%M_bind_Ok.
  apply M_bind_Ok in Hcheck as (l & st2 & Hl & Hcheck). injection Hl as Hl <-.
  apply M_bind_Ok in Hcheck as ([] & st2 & Hpro & Hcheck). injection Hpro as Hpro <-.
  apply M_bind_Ok in Hcheck as (ws & st2 & Hws & Hcheck).
  pose proof (stays_after eq _ _ _ _ (stays_in_home _ (file_List c)) Hws) as <-.
  injection Hcheck as Hcheck <-. split; [|done]. split.
  - apply wrap_Ok in Hl. exists l. destruct (proInstances (c_defaultContext c)); [done|].
    injection Hl as ->. split; [done|]. by apply check_pro_Ok.
  - exists ws. split; [|by apply check_workspaces_Ok]. unfold in_home, zoom in Hws.
    by destruct (List o rm c true (st_home st)); injection Hws as -> _.
Qed.

(** C28: Deleting a provider without force is refused while a pro instance or a workspace of the
    context uses it.  When it succeeds, the file holds the configuration
    without the provider, which is no longer the default one; every other context and
    every other provider is as it was, and of the home directory nothing
    but the directory of the provider is removed. *)
Theorem provider_Delete_safe c ign args st st' :
  st_file st = Decoded c → from_file c →
  provider_Delete o rm origin proInstances "" "" ign false args st = (Ok (), st') →
  ∃ c1 p c' dir, LoadConfig (Decoded c) origin "" "" = Ok c1 ∧
    named_provider c1 args "please specify a provider to delete" = Ok p ∧
    unused c1 p (st_home st) ∧
    st_file st' = Decoded c' ∧ from_file c' ∧ c_defaultContext c' = c_defaultContext c1 ∧
    provider_gone c1 c' p ∧ GetProviderDir (o_sys o) (c_defaultContext c1) p = Ok dir ∧
    dir ∉ h_dirs (st_home st') ∧
    (st_home st' = st_home st ∨ st_home st' = remove_all dir (st_home st)).
Proof.
  intros Hfile Hf. unfold provider_Delete. destruct (1 <? length args)%nat; [done|].
  intros (c1 & st1 & [-> Hl]%load_config_Ok & H)%M_bind_Ok. rewrite Hfile in Hl.
  apply M_bind_Ok in H as (p & st1 & Hp & H). injection Hp as Hp <-.
  apply DeleteProvider_unused in H as [Hun H].
  destruct (Current c1) as [ctx|] eqn:Hcur;
    [|unfold named_provider, current_context in Hp; rewrite Hcur in Hp; by destruct args].
  destruct (loaded_current c c1 ctx Hf Hl Hcur) as (Hplain & Ho & Horig).
  destruct (DeleteProviderConfig_Ok c1 p ign st st' Hplain Ho) as (c' & dir & Hc'); [|done|].
  { intros x Hx. congruence. }
  exists c1, p, c', dir. split_and!; try done; apply Hc'.
Qed.
End Providers.

(** ** Concrete runs *)

Definition demo_provider_state : Config.ProviderConfig := {|
  pc_initialized := true; pc_singleMachine := false; pc_options := None;
  pc_dynamicOptions := None; pc_creationTimestamp := 0 |}.
Definition demo_context : ContextConfig := {|
  cc_defaultProvider := "aws"; cc_defaultIDE := ""; cc_options := None; cc_ides := None;
  cc_providers := Some {["aws" := Some demo_provider_state]}; cc_originalProvider := "" |}.
Definition demo_file : Config := {|
  c_defaultContext := "default";
  c_contexts := Some {["default" := Some demo_context; "work" := Some empty_context]};
  c_origin := ""; c_originalContext := "" |}.
Definition demo_start : cstate := {|
  st_file := Decoded demo_file;
  st_home := set_dirs {["/home/me/.devpod/contexts/default/providers/aws"]} provider_home |}.

Lemma demo_from_file : from_file demo_file.
Proof.
  split; [done|]. intros n x. cbn.
  intros [[<- <-]|[_ [<- <-]%lookup_singleton_Some]]%lookup_insert_Some; by eexists.
Defined.

Lemma context_Create_outcome_witness :
  let run := context_Create demo_osys "config.yaml" "" ["EXIT_AFTER_TIMEOUT=false"] "mine" demo_start in
  run.1 = Ok () ∧ st_home run.2 = st_home demo_start.
Proof.
  intros run. destruct run as [r st'] eqn:Hrun.
  destruct (context_Create_outcome demo_osys "config.yaml" demo_file "mine" ["EXIT_AFTER_TIMEOUT=false"] demo_start r st' eq_refl
    demo_from_file Hrun) as (Hh & _ & _).
  split; [|exact Hh]. cbn. assert (run.1 = Ok ()) as H by (vm_compute; reflexivity).
  by rewrite Hrun in H.
Defined.
Lemma context_Delete_outcome_witness :
  let run := context_Delete demo_osys "config.yaml" "" "work" demo_start in
  run.1 = Ok () ∧ ∃ c', st_file run.2 = Decoded c' ∧ find_context c' "work" = None.
Proof.
  intros run. destruct run as [r st'] eqn:Hrun.
  assert (r = Ok ()) as ->.
  { assert (run.1 = Ok ()) as H by (vm_compute; reflexivity). by rewrite Hrun in H. }
  destruct (context_Delete_outcome demo_osys "config.yaml" demo_file "work" demo_start (Ok ()) st' eq_refl
    demo_from_file ltac:(done) ltac:(done) ltac:(exists demo_context; vm_compute; reflexivity)
    ltac:(exists demo_context; vm_compute; reflexivity) Hrun)
    as (_ & _ & Hok).
  destruct (Hok eq_refl) as (_ & c' & Hc' & _ & Hgone & _). split; [reflexivity|]. exists c'. exact (conj Hc' Hgone).
Defined.
Lemma provider_Delete_safe_witness :
  let run := provider_Delete demo_osys demo_remote "config.yaml" (λ _, inr []) "" "" false false ["aws"] demo_start in
  run.1 = Ok () ∧ ∃ c' dir, st_file run.2 = Decoded c' ∧ dir ∉ h_dirs (st_home run.2).
Proof.
  intros run. destruct run as [r st'] eqn:Hrun.
  assert (r = Ok ()) as ->.
  { assert (run.1 = Ok ()) as H by (vm_compute; reflexivity). by rewrite Hrun in H. }
  destruct (provider_Delete_safe demo_osys demo_remote "config.yaml" (λ _, inr []) demo_file false ["aws"] demo_start st' eq_refl
    demo_from_file Hrun) as (c1 & p & c' & dir & _ & _ & _ & Hc' & _ & _ & _ & _ & Hdir & _).
  split; [reflexivity|]. exists c', dir. exact (conj Hc' Hdir).
Defined.

(** Deleting the current context of a configuration without a context of the name default
    panics. *)
Example context_Delete_panics :
  (context_Delete demo_osys "config.yaml" "" "work"
     {| st_file := Decoded {| c_defaultContext := "work";
          c_contexts := Some {["work" := Some empty_context]};
          c_origin := ""; c_originalContext := "" |};
        st_home := empty_home |}).1 = Panic.
Proof. vm_compute. reflexivity. Qed.
(** Deleting a context that does not exist succeeds. *)
Example context_Delete_unknown :
  (context_Delete demo_osys "config.yaml" "" "never" demo_start).1 = Ok ().
Proof. vm_compute. reflexivity. Qed.
