(* ===== verification/IdeProps.v ===== *)
(** * The IDE of a workspace: which options win *)

From S2P Require Import Prelude GoStrings Types Config Provider Options Home Ide.
From S2P Require Import Paths Registry RegistryProps.
From S2P Require OptionsProps.
From stdpp Require Import base gmap sets list strings.

Local Open Scope string_scope.
Local Open Scope list_scope.

Section Ide.
Context (AllowedIDEs : list AllowedIDE) (compile : string → string + (string → bool))
        (has_code : bool).

(** A value of the command line that was accepted. *)
Definition valid_ide_value (defs : gmap string IDEOption) (k : string) (v : OptionValue) : Prop :=
  ∃ d, defs !! k = Some d ∧ check_value compile k (ov_value v) d = Ok () ∧
       v = user_value (ov_value v).

Lemma ide_ParseOptions_valid defs l m m' :
  ide_ParseOptions compile defs l m = Ok m' →
  map_Forall (valid_ide_value defs) m → map_Forall (valid_ide_value defs) m'.
Proof.
  revert m. induction l as [|x l IH]; cbn; intros m H Hm; [by injection H as <-|].
  destruct (Split "=" x) as [|k [|v vs]]; [done..|].
  destruct (defs !! ToUpper (TrimSpace k)) as [d|] eqn:Hd; [|done].
  apply bind_Ok in H as ([] & Hc & H). eapply IH; [exact H|].
  apply map_Forall_insert_2; [|done]. by exists d.
Qed.

(** The IDE: the one asked for, that of the workspace, the default, or what
    is installed. *)
Definition chosen_ide (ctx : ContextConfig) (w : Workspace) (ide : string) : string :=
  if negb (sempty (ToLower ide)) then ToLower ide
  else if negb (sempty (wi_name (w_ide w))) then wi_name (w_ide w)
  else if negb (sempty (cc_defaultIDE ctx)) then cc_defaultIDE ctx
  else detect has_code.

(** The value of an option: of the command line, else what the user once set
    for this IDE on this workspace, else the value of the context. *)
Definition ide_value (ctx : ContextConfig) (w : Workspace) (ide : string)
    (given : gmap string OptionValue) (k : string) : option OptionValue :=
  match given !! k with
  | Some v => Some v
  | None =>
      match (if decide (ide = wi_name (w_ide w)) then gm_elems (wi_options (w_ide w)) !! k else None) with
      | Some v => if ov_userProvided v then Some v else plain_value <$> IDEOptions ctx ide !! k
      | None => plain_value <$> IDEOptions ctx ide !! k
      end
  end.

Lemma lookup_user_provided (m : gmap string OptionValue) k :
  filter (λ kv, ov_userProvided kv.2 = true) m !! k =
  match m !! k with Some v => if ov_userProvided v then Some v else None | None => None end.
Proof.
  destruct (m !! k) as [v|] eqn:Hv.
  - destruct (ov_userProvided v) eqn:Hu.
    + by apply map_lookup_filter_Some_2.
    + apply map_lookup_filter_None_2. right. intros v' Hv'. cbn. congruence.
  - apply map_lookup_filter_None_2. by left.
Qed.

(** opening a workspace with an IDE: the IDE is the one asked for, else the one
    of the workspace, else the default of the context; each of its options has the
    value of the command line, which has been validated, else what the user set
    before for the same IDE, else the value of the context; and the workspace in
    the registry is the one returned. *)
Theorem RefreshIDEOptions_precedence o cfg ctx w ide options h w' h' :
  current_context cfg = Ok ctx →
  RefreshIDEOptions AllowedIDEs compile has_code o cfg w ide options h = (Ok w', h') →
  ∃ defs given opts,
    GetIDEOptions AllowedIDEs (chosen_ide ctx w ide) = Ok defs ∧
    ide_ParseOptions compile defs options ∅ = Ok given ∧
    map_Forall (valid_ide_value defs) given ∧
    w' = with_workspace_place w {| wi_name := chosen_ide ctx w ide; wi_options := Some opts |}
           (w_context w) (w_origin w) ∧
    (∀ k, opts !! k = ide_value ctx w (chosen_ide ctx w ide) given k) ∧
    (w' = w ∧ h' = h ∨ saveWorkspaceConfig o w' h = (Ok (), h')).
Proof.
  intros Hctx H. unfold RefreshIDEOptions in H. rewrite Hctx, run_lift_Ok in H.
  cbv beta zeta in H. fold (chosen_ide ctx w ide) in H. set (n := chosen_ide ctx w ide) in *.
  apply M_bind_Ok in H as (defs & h1 & H1 & H). injection H1 as Hdefs <-.
  apply M_bind_Ok in H as (given & h2 & H2 & H). injection H2 as Hgiven <-. apply wrap_Ok in Hgiven.
  set (opts := given ∪ _) in H.
  assert (∀ k, opts !! k = ide_value ctx w n given k) as Hopts.
  { intros k. unfold opts, ide_value. rewrite lookup_union.
    destruct (given !! k) as [v|]; cbn; [by destruct (_ !! k)|].
    destruct (decide (n = wi_name (w_ide w))).
    - rewrite lookup_union, lookup_user_provided, lookup_fmap.
      destruct (gm_elems (wi_options (w_ide w)) !! k) as [v|]; [destruct (ov_userProvided v)|];
        by destruct (IDEOptions ctx n !! k).
    - rewrite lookup_fmap. by destruct (IDEOptions ctx n !! k). }
  exists defs, given, opts. split_and!; [done..| | | |].
  - eapply ide_ParseOptions_valid; [done|apply map_Forall_empty].
  - case_decide as Hd.
    + apply M_bind_Ok in H as (r & h3 & _ & H). apply M_bind_Ok in H as (u & h4 & _ & H).
      by injection H as <- _.
    + injection H as <- _. apply Decidable.not_or in Hd as [H1%dec_stable H2%dec_stable].
      rewrite <- H1, <- H2. by destruct w as [????? [] ???????????].
  - done.
  - case_decide as Hd.
    + apply M_bind_Ok in H as (r & h3 & H3 & H). apply M_bind_Ok in H as ([] & h4 & H4 & H).
      injection H as <- <-. injection H4 as H4 <-. apply wrap_Ok in H4 as ->.
      right. destruct (saveWorkspaceConfig _ _ h) as [r h5]. by injection H3 as <- <-.
    + left. by injection H as <- <-.
Qed.
End Ide.

(** ** An example *)

Definition demo_ides : list AllowedIDE :=
  [{| ai_name := "vscode"; ai_ideOptions := {["OPEN_NEW_WINDOW" := {| io_description := "";
      io_default := "true"; io_enum := ["true"; "false"]; io_validationPattern := "";
      io_validationMessage := "" |}]} |}].
Definition demo_ide_run : result Workspace * home :=
  RefreshIDEOptions demo_ides (λ _, inl "no regexp") true demo_osys
    OptionsProps.demo_config OptionsProps.demo_workspace "VSCode" ["open_new_window=false"] empty_home.
Lemma RefreshIDEOptions_precedence_witness :
  ∃ w' opts, demo_ide_run.1 = Ok w' ∧
    wi_name (w_ide w') = "vscode" ∧ wi_options (w_ide w') = Some opts ∧
    ov_value <$> opts !! "OPEN_NEW_WINDOW" = Some "false".
Proof.
  assert (is_ok demo_ide_run.1 = true) as Hok by (vm_compute; reflexivity).
  destruct demo_ide_run as [[w'|e| |] h'] eqn:E; [|discriminate Hok..].
  destruct (RefreshIDEOptions_precedence demo_ides (λ _, inl "no regexp") true demo_osys
    OptionsProps.demo_config OptionsProps.demo_ctx OptionsProps.demo_workspace "VSCode"
    ["open_new_window=false"] empty_home w' h' eq_refl E)
    as (defs & given & opts & Hd & Hg & _ & -> & Hv & _).
  eexists _, opts. split_and!; [reflexivity..|].
  assert (ov_value <$> given !! "OPEN_NEW_WINDOW" = Some "false") as Hgv.
  { assert (match GetIDEOptions demo_ides "vscode" with
            | Ok d => match ide_ParseOptions (λ _, inl "no regexp") d ["open_new_window=false"] ∅ with
                      | Ok g => ov_value <$> g !! "OPEN_NEW_WINDOW" | _ => None end
            | _ => None end = Some "false") as Hc by (vm_compute; reflexivity).
    change (chosen_ide _ _ _ _) with "vscode" in Hd. by rewrite Hd, Hg in Hc. }
  rewrite Hv. unfold ide_value. by destruct (given !! "OPEN_NEW_WINDOW").
Defined.
