(* ===== verification/Driver.v ===== *)
(** * pkg/driver: what runs dev containers

    The interfaces [driver.Driver], [driver.ReprovisioningDriver] and
    [driver.DockerDriver] as one class, with the records their methods
    exchange (pkg/driver/types.go, config/build.go, feature/extend.go,
    provider/workspace.go).  The runner of Runner.v is written against the
    class; Docker.v and CustomDriver.v are instances of it.

    The methods work on a [host]: the files of the machine the runner is on,
    and the engine that has the containers.  [Lawful] says what a client may
    expect of a driver. *)

From S2P Require Import Prelude GoStrings Types Config DevContainer Dockerfile Lifecycle Options Clients.
From stdpp Require Import base gmap list strings.

Local Open Scope string_scope.

(** ** The host *)

Record host (E : Type) := Host {
  h_fs : gmap string string;
  h_eng : E;
}.
Arguments Host {_}.
Arguments h_fs {_}.
Arguments h_eng {_}.

Definition set_fs {E} (fs : gmap string string) (h : host E) : host E := Host fs (h_eng h).
Definition set_eng {E} (e : E) (h : host E) : host E := Host (h_fs h) e.

(** What the operating system of the host answers. *)
Record hostsys := {
  (** the error of writing a file or of creating a directory *)
  hs_write : string → option string;
  (** the error of reading a file that exists *)
  hs_read : string → option string;
  (** [filepath.Abs] and [runtime.GOOS], [runtime.GOARCH] *)
  hs_Abs : string → string + string;
  hs_GOOS : string;
  hs_GOARCH : string;
  (** [os.Getuid] and the ids of [user.Current] *)
  hs_uid : string;
  hs_current : string + (string * string);
  (** the order of a [range] over a map *)
  hs_range : gmap string string → list (string * string);
}.

Section Files.
Context {E : Type} (hs : hostsys).

(** [os.WriteFile], [os.MkdirAll], [os.Remove] and [os.RemoveAll] *)
Definition WriteFile (path content : string) : M (host E) unit :=
  match hs_write hs path with
  | Some e => throw e
  | None => modifyS (λ h, set_fs (<[path := content]> (h_fs h)) h)
  end.
Definition MkdirAll (path : string) : M (host E) unit :=
  match hs_write hs path with Some e => throw e | None => mret () end.
Definition Remove (path : string) : M (host E) unit :=
  modifyS (λ h, set_fs (delete path (h_fs h)) h).
Definition RemoveAll (dir : string) : M (host E) unit :=
  modifyS (λ h, set_fs (filter (λ kv, kv.1 ≠ dir ∧ HasPrefix kv.1 (dir +:+ "/") = false)
                               (h_fs h)) h).
(** [os.ReadFile] *)
Definition ErrNotExist : string := "no such file or directory".
Definition ReadFile (path : string) : M (host E) string :=
  h ← getS;
  match h_fs h !! path with
  | None => throw ErrNotExist
  | Some c => match hs_read hs path with Some e => throw e | None => mret c end
  end.
(** [os.Stat] finds the file *)
Definition Stat (path : string) : M (host E) bool :=
  h ← getS; mret (bool_decide (is_Some (h_fs h !! path))).
End Files.

(** [filepath.Rel]; [None] is its error *)
Definition path_parts (path : string) : list string :=
  filter (λ p, p ≠ "" ∧ p ≠ ".") (Split "/" (filepath_Clean path)).
Fixpoint rel_parts (base target : list string) : option (list string) :=
  match base with
  | [] => Some target
  | b :: base' =>
      if decide (head target = Some b) then rel_parts base' (tail target)
      else if decide (b = "..") then None
      else Some (((λ _, "..") <$> base) ++ target)%list
  end.
Definition filepath_Rel (basepath targpath : string) : option string :=
  if decide (HasPrefix (filepath_Clean basepath) "/" = HasPrefix (filepath_Clean targpath) "/")
  then (λ l, match l with [] => "." | _ => GoStrings.Join l "/" end) <$>
       rel_parts (path_parts basepath) (path_parts targpath)
  else None.

(** ** Records *)

Record RunOptions := {
  ro_UID : string;
  ro_Image : string;
  ro_User : string;
  ro_Entrypoint : string;
  ro_Cmd : list string;
  ro_Env : gmap string string;
  ro_CapAdd : list string;
  ro_SecurityOpt : list string;
  ro_Labels : list string;
  ro_Privileged : option bool;
  ro_WorkspaceMount : option Mount;
  ro_Mounts : list Mount;
}.
Definition with_env (o : RunOptions) (env : gmap string string) : RunOptions := {|
  ro_UID := ro_UID o; ro_Image := ro_Image o; ro_User := ro_User o;
  ro_Entrypoint := ro_Entrypoint o; ro_Cmd := ro_Cmd o; ro_Env := env;
  ro_CapAdd := ro_CapAdd o; ro_SecurityOpt := ro_SecurityOpt o; ro_Labels := ro_Labels o;
  ro_Privileged := ro_Privileged o; ro_WorkspaceMount := ro_WorkspaceMount o;
  ro_Mounts := ro_Mounts o |}.

(** config/build.go *)
Definition DockerIDLabel : string := "dev.containers.id".
Definition DockerfileDefaultTarget : string := "dev_container_auto_added_stage_label".
Definition DevPodContextFeatureFolder : string := ".devpod-internal".
Definition WorkspaceDaemonConfigExtraEnvVar : string := "DEVPOD_WORKSPACE_DAEMON_CONFIG".
Definition ImageMetadataLabel : string := "devcontainer.metadata".
Definition GetDockerLabelForID (id : string) : list string := [DockerIDLabel +:+ "=" +:+ id].

Record BuildInfoDockerless := {
  bd_Context : string;
  bd_Dockerfile : string;
  bd_BuildArgs : gmap string string;
  bd_Target : string;
  bd_User : string;
}.
Record BuildInfo := {
  bi_ImageDetails : option ImageDetails;
  bi_ImageMetadata : ImageMetadataConfig;
  bi_ImageName : string;
  bi_PrebuildHash : string;
  bi_RegistryCache : string;
  bi_Tags : list string;
  bi_Dockerless : option BuildInfoDockerless;
}.

(** feature/extend.go *)
Record FeaturesBuildInfo := {
  fb_FeaturesFolder : string;
  fb_DockerfileContent : string;
  fb_OverrideTarget : string;
  fb_DockerfilePrefixContent : string;
  fb_BuildArgs : gmap string string;
}.
Record ExtendedBuildInfo := {
  eb_Features : list FeatureSet;
  eb_FeaturesBuildInfo : option FeaturesBuildInfo;
  eb_MetadataConfig : ImageMetadataConfig;
  eb_MetadataLabel : string;
}.

(** provider.BuildOptions *)
Record BuildOptions := {
  bp_cli : CLIOptions;
  bp_Platform : string;
  bp_RegistryCache : string;
  bp_ExportCache : bool;
  bp_NoBuild : bool;
}.

(** ** Interfaces *)

Record DockerOps (E : Type) := {
  InspectImage : string → M (host E) ImageDetails;
  GetImageTag : string → M (host E) string;
  RunDockerDevContainer : string → RunOptions → DevContainerConfig → option bool →
    string → M (host E) unit;
  BuildDevContainer : string → SubstitutedConfig → ExtendedBuildInfo → string → string →
    string → BuildOptions → M (host E) BuildInfo;
  PushDevContainer : string → M (host E) unit;
  TagDevContainer : string → string → M (host E) unit;
}.
Arguments InspectImage {_}.
Arguments GetImageTag {_}.
Arguments RunDockerDevContainer {_}.
Arguments BuildDevContainer {_}.
Arguments PushDevContainer {_}.
Arguments TagDevContainer {_}.

Class Driver (E : Type) := {
  FindDevContainer : string → M (host E) (option ContainerDetails);
  (** the user, the command and its standard input *)
  CommandDevContainer : string → string → string → option string → M (host E) string;
  RunDevContainer : string → option RunOptions → M (host E) unit;
  TargetArchitecture : string → M (host E) string;
  DeleteDevContainer : string → M (host E) unit;
  StartDevContainer : string → M (host E) unit;
  StopDevContainer : string → M (host E) unit;
  GetDevContainerLogs : string → M (host E) string;
  (** [r.Driver.(driver.ReprovisioningDriver)] and [CanReprovision] of it *)
  Reprovisions : option bool;
  (** [r.Driver.(driver.DockerDriver)] *)
  AsDocker : option (DockerOps E);
}.

(** ** What a client may expect *)

Definition is_running (c : ContainerDetails) : bool :=
  bool_decide (ToLower (cd_Status c) = "running").

(** [strings.Cut] *)
Fixpoint Cut (sep : ascii) (s : string) : string * string * bool :=
  match s with
  | "" => ("", "", false)
  | String c s' =>
      if decide (c = sep) then ("", s', true)
      else let '(before, after, found) := Cut sep s' in (String c before, after, found)
  end.

(** Neither the labels of the options nor the run arguments of
    devcontainer.json set the label that names the workspace, and the image
    cannot be taken for a flag. *)
Definition label_free (args : list string) : Prop :=
  Forall (λ a, HasPrefix a "-l" = false ∧ HasPrefix a "--label" = false) args.
Definition own_labels (o : RunOptions) (cfg : DevContainerConfig) : Prop :=
  label_free (n_runArgs (dc_nonCompose cfg)) ∧ HasPrefix (ro_Image o) "-" = false ∧
  Forall (λ l, (Cut "=" l).1.1 ≠ DockerIDLabel) (ro_Labels o).

(** An engine seen as the container of every workspace.  [engine_ok] is an
    invariant of the engine, such as that no workspace has two containers. *)
Class Containers (E : Type) := {
  engine_ok : E → Prop;
  container : E → string → option ContainerDetails;
}.

Section Relations.
Context {E : Type} `{!Containers E}.

(** No container changed, and only that of workspace [id] changed. *)
Definition unchanged (h h' : host E) : Prop :=
  engine_ok (h_eng h) →
  engine_ok (h_eng h') ∧ ∀ id, container (h_eng h') id = container (h_eng h) id.
Definition changes (id : string) (h h' : host E) : Prop :=
  engine_ok (h_eng h) →
  engine_ok (h_eng h') ∧ ∀ id', id' ≠ id → container (h_eng h') id' = container (h_eng h) id'.

#[export] Instance unchanged_preorder : PreOrder unchanged.
Proof.
  split; [by intros h|]. intros a b c Hab Hbc Ha. destruct (Hab Ha) as [Hb Heq].
  destruct (Hbc Hb) as [Hc Heq']. split; [done|]. intros id. by rewrite Heq', Heq.
Qed.
#[export] Instance changes_preorder id : PreOrder (changes id).
Proof.
  split; [by intros h|]. intros a b c Hab Hbc Ha. destruct (Hab Ha) as [Hb Heq].
  destruct (Hbc Hb) as [Hc Heq']. split; [done|]. intros id' Hid. by rewrite Heq', Heq.
Qed.
Lemma unchanged_changes id {A} (c : M (host E) A) :
  stays unchanged c → stays (changes id) c.
Proof. intros Hc h Hok. destruct (Hc h Hok) as [? Heq]. auto. Qed.
End Relations.

(** What the methods of a driver do.  A method that fails leaves the container
    where it is, except that a deletion may still have removed it. *)
Class Lawful (E : Type) `{!Driver E, !Containers E} : Prop := {
  law_find : ∀ id, stays unchanged (FindDevContainer id);
  law_found : ∀ id h c h', engine_ok (h_eng h) → FindDevContainer id h = (Ok c, h') →
    c = container (h_eng h) id;
  law_start : ∀ id, stays (changes id) (StartDevContainer id);
  law_started : ∀ id h r h', engine_ok (h_eng h) → StartDevContainer id h = (r, h') →
    cd_ID <$> container (h_eng h') id = cd_ID <$> container (h_eng h) id ∧
    (r = Ok () → ∃ c, container (h_eng h') id = Some c ∧ is_running c = true);
  law_stop : ∀ id, stays (changes id) (StopDevContainer id);
  law_stopped : ∀ id h r h', engine_ok (h_eng h) → StopDevContainer id h = (r, h') →
    cd_ID <$> container (h_eng h') id = cd_ID <$> container (h_eng h) id ∧
    (r = Ok () → ∀ c, container (h_eng h') id = Some c → is_running c = false);
  law_delete : ∀ id, stays (changes id) (DeleteDevContainer id);
  law_deleted : ∀ id h r h', engine_ok (h_eng h) → DeleteDevContainer id h = (r, h') →
    (container (h_eng h') id = container (h_eng h) id ∨ container (h_eng h') id = None) ∧
    (r = Ok () → container (h_eng h') id = None);
  law_run : ∀ id o, stays (changes id) (RunDevContainer id o);
  law_ran : ∀ id o h h', engine_ok (h_eng h) → RunDevContainer id o h = (Ok (), h') →
    is_Some (container (h_eng h') id);
  (** a docker engine runs a container for a workspace that has none *)
  law_docker_run : ∀ d id o cfg init ide h r h', AsDocker = Some d → own_labels o cfg →
    engine_ok (h_eng h) → container (h_eng h) id = None →
    RunDockerDevContainer d id o cfg init ide h = (r, h') →
    changes id h h' ∧ (r = Ok () → is_Some (container (h_eng h') id));
  (** building and inspecting images concerns no container *)
  law_architecture : ∀ id, stays unchanged (TargetArchitecture id);
  law_inspect : ∀ d image, AsDocker = Some d → stays unchanged (InspectImage d image);
  law_build : ∀ d hash cfg ext path content folder o, AsDocker = Some d →
    stays unchanged (BuildDevContainer d hash cfg ext path content folder o);
}.
