(* ===== verification/Build.v ===== *)
(** * Building the image of a dev container

    What is built: the features copied next to the Dockerfile and the
    Dockerfile that installs them (pkg/devcontainer/feature/extend.go), the
    options of the build (pkg/devcontainer/build/options.go), the hash that
    names a prebuilt image (config/prebuild.go), and the fallback that builds
    inside of the container (pkg/devcontainer/build.go).

    Files are written to the file system of a [host].  Encoders, hashes, the
    download of features and the matcher of .dockerignore are parameters. *)

From S2P Require Import Prelude GoStrings GoRegexp Types Config Names DevContainer Merge Substitute Features Options Dockerfile Lifecycle Clients Driver.
From stdpp Require Import base gmap list strings pretty.

Local Open Scope string_scope.
Local Open Scope list_scope.

Record build_world := {
  bw_sys : hostsys;
  (** [hash.String] and encoding/json *)
  bw_hash : string → string;
  bw_marshalConfig : DevContainerConfig → string + string;
  bw_marshalMetadata : list ImageMetadata → string + string;
  (** [ProcessFeatureID], [ParseDevContainerFeature], [NormalizeFeatureID] *)
  bw_process : DevContainerConfig → bool → string → string + string;
  bw_feature : string → string + FeatureConfig;
  bw_normalize : string → string;
  (** [%v] of an option that is no string *)
  bw_fmt : json → string;
  (** [config.Substitute] on a metadata entry *)
  bw_substitute : SubstitutionContext → ImageMetadata → result ImageMetadata;
  (** [ignorefile.ReadAll], [patternmatcher.MatchesOrParentMatches], and
      [DirectoryHash] of a folder *)
  bw_ignore : string → string + list string;
  bw_matches : string → list string → bool;
  bw_directory : gmap string string → string → list string → list string → string + string;
  (** the order of a [range] over the features *)
  bw_features : gmap string json → list (string * json);
}.

(** ** config.go *)

(** [GetContextPath] *)
Definition GetContextPath (parsedConfig : DevContainerConfig) : string :=
  let context := GetContext (dc_dockerfile parsedConfig) in
  let dockerfilePath := GetDockerfile (dc_dockerfile parsedConfig) in
  let configDir := filepath_Dir (dc_origin parsedConfig) in
  if decide (context ≠ "") then filepath_Join [configDir; context]
  else if decide (dockerfilePath ≠ "") then
    filepath_Join [configDir; filepath_Dir dockerfilePath]
  else configDir.

Section Build.
Context {E : Type} (w : build_world).
Notation B := (M (host E)).
Notation hs := (bw_sys w).

(** ** feature/extend.go *)

(** [copy.Directory], for regular files *)
Definition copied (src dst : string) (fs : gmap string string) : gmap string string :=
  list_to_map (omap (λ kv,
    if HasPrefix kv.1 (src +:+ "/")
    then Some (filepath_Join [dst; TrimPrefix kv.1 (src +:+ "/")], kv.2) else None)
    (map_to_list fs)) ∪ fs.
Definition copy_directory (src dst : string) : B unit :=
  _ ← MkdirAll hs dst;
  match hs_read hs src with
  | Some e => throw e
  | None => modifyS (λ h, set_fs (copied src dst (h_fs h)) h)
  end.

Definition in_feature {A} (msg : string) (f : FeatureSet) (c : B A) : B A :=
  r ← caught c; liftR (wrap (msg +:+ fs_configID f) r).

Fixpoint copy_features (targetDir : string) (i : nat) (features : list FeatureSet) : B unit :=
  match features with
  | [] => mret ()
  | feature :: features' =>
      let featureDir := filepath_Join [targetDir; pretty i] in
      _ ← MkdirAll hs featureDir;
      _ ← in_feature "copy feature " feature (copy_directory (fs_folder feature) featureDir);
      let variables := getFeatureEnvVariables (bw_fmt w) (fs_config feature)
                         (fs_options feature) in
      _ ← in_feature "write variables of feature " feature
            (WriteFile hs (filepath_Join [featureDir; "devcontainer-features.env"])
               (GoStrings.Join variables newline));
      _ ← in_feature "write install wrapper script for feature " feature
            (WriteFile hs (filepath_Join [featureDir; "devcontainer-features-install.sh"])
               (getFeatureInstallWrapperScript (fs_configID feature) (fs_config feature)
                  variables));
      copy_features targetDir (S i) features'
  end.
Definition copyFeaturesToDestination (features : list FeatureSet) (targetDir : string)
    : B unit :=
  _ ← RemoveAll targetDir;
  copy_features targetDir 0 features.

Definition getFeatureBuildOptions (contextPath : string)
    (imageBuildInfo : ImageBuildInfo ImageMetadataConfig) (target : string)
    (features : list FeatureSet) : B FeaturesBuildInfo :=
  let '(containerUser, remoteUser) :=
    findContainerUsers (ibi_Metadata imageBuildInfo) "" (ibi_User imageBuildInfo) in
  let featureFolder := filepath_Join [contextPath; DevPodContextFeatureFolder] in
  _ ← copyFeaturesToDestination features featureFolder;
  _ ← WriteFile hs (filepath_Join [featureFolder; "devcontainer-features.builtin.env"])
        ("_CONTAINER_USER=" +:+ containerUser +:+ newline +:+
         "_REMOTE_USER=" +:+ remoteUser +:+ newline);
  let syntax :=
    match ibi_Dockerfile imageBuildInfo with
    | Some d => if decide (d_Syntax d ≠ "") then d_Syntax d
                else "docker.io/docker/dockerfile:1.4"
    | None => "docker.io/docker/dockerfile:1.4"
    end in
  mret {| fb_FeaturesFolder := featureFolder;
          fb_DockerfileContent :=
            feature_dockerfile containerUser remoteUser
              ((λ f, hs_range hs (f_containerEnv (fs_config f))) <$> features);
          fb_DockerfilePrefixContent :=
            newline +:+ "# syntax=" +:+ syntax +:+ newline +:+
            "ARG _DEV_CONTAINERS_BASE_IMAGE=placeholder";
          fb_OverrideTarget := "dev_containers_target_stage";
          fb_BuildArgs := {[ "_DEV_CONTAINERS_BASE_IMAGE" := target;
                             "_DEV_CONTAINERS_IMAGE_USER" := ibi_User imageBuildInfo ]} |}.

Definition GetExtendedBuildInfo (ctx : SubstitutionContext)
    (imageBuildInfo : ImageBuildInfo ImageMetadataConfig) (target : string)
    (devContainerConfig : SubstitutedConfig) (forceBuild : bool) : B ExtendedBuildInfo :=
  let cfg := sc_config devContainerConfig in
  features ← liftR (wrap "fetch features"
    (fetchFeatures (bw_normalize w) (bw_process w cfg forceBuild) (bw_feature w)
       (b_overrideFeatureInstallOrder (dc_base cfg))
       (bw_features w (b_features (dc_base cfg)))));
  merged ← liftR (wrap "get dev container metadata"
    (GetDevContainerMetadata (bw_substitute w ctx) (ibi_Metadata imageBuildInfo)
       devContainerConfig features));
  marshalled ← liftR (of_sum (bw_marshalMetadata w (imc_raw merged)));
  match features with
  | [] => mret {| eb_Features := []; eb_FeaturesBuildInfo := None;
                  eb_MetadataConfig := merged; eb_MetadataLabel := marshalled |}
  | _ =>
      buildInfo ← getFeatureBuildOptions (GetContextPath cfg) imageBuildInfo target features;
      mret {| eb_Features := features; eb_FeaturesBuildInfo := Some buildInfo;
              eb_MetadataConfig := merged; eb_MetadataLabel := marshalled |}
  end.

(** ** build/options.go *)

Definition GetBuildArgsAndTarget (parsedConfig : SubstitutedConfig)
    (extendedBuildInfo : ExtendedBuildInfo) : gmap string string * string :=
  let d := dc_dockerfile (sc_config parsedConfig) in
  match eb_FeaturesBuildInfo extendedBuildInfo with
  | Some f => (fb_BuildArgs f ∪ GetArgs d,
               if decide (fb_OverrideTarget f ≠ "") then fb_OverrideTarget f else GetTarget d)
  | None => (GetArgs d, GetTarget d)
  end.

(** The empty path stands for a Dockerfile that stays as it is. *)
Definition RewriteDockerfile (dockerfileContent : string)
    (extendedBuildInfo : ExtendedBuildInfo) : B string :=
  match eb_FeaturesBuildInfo extendedBuildInfo with
  | Some f =>
      let finalDockerfileContent :=
        TrimSpace (GoStrings.Join
          [fb_DockerfilePrefixContent f; TrimSpace (RemoveSyntaxVersion dockerfileContent);
           fb_DockerfileContent f] newline) in
      let finalDockerfilePath :=
        filepath_Join [fb_FeaturesFolder f; "Dockerfile-with-features"] in
      r ← caught (WriteFile hs finalDockerfilePath finalDockerfileContent);
      _ ← liftR (wrap "write Dockerfile with features" r);
      mret finalDockerfilePath
  | None => mret ""
  end.

Record ImageBuild := {
  ib_BuildArgs : gmap string string;
  ib_Labels : gmap string string;
  ib_CliOpts : list string;
  ib_Images : list string;
  ib_CacheFrom : list string;
  ib_CacheTo : list string;
  ib_Dockerfile : string;
  ib_Context : string;
  ib_Contexts : gmap string string;
  ib_Target : string;
  ib_Load : bool;
}.

Definition NewOptions (dockerfilePath dockerfileContent : string)
    (parsedConfig : SubstitutedConfig) (extendedBuildInfo : ExtendedBuildInfo)
    (imageName : string) (options : BuildOptions) (prebuildHash : string) : B ImageBuild :=
  let '(buildArgs, target) := GetBuildArgsAndTarget parsedConfig extendedBuildInfo in
  let cli := bp_cli options in
  dockerfile ← RewriteDockerfile dockerfileContent extendedBuildInfo;
  mret {| ib_BuildArgs := if decide (bp_RegistryCache options ≠ "") then buildArgs
                          else <["BUILDKIT_INLINE_CACHE" := "1"]> buildArgs;
          ib_Labels := if decide (eb_MetadataLabel extendedBuildInfo ≠ "")
                       then {[ ImageMetadataLabel := eb_MetadataLabel extendedBuildInfo ]}
                       else ∅;
          ib_CliOpts := GetOptions (dc_dockerfile (sc_config parsedConfig));
          ib_Images := (if decide (imageName ≠ "") then [imageName] else []) ++
                       (if decide (cli_repository cli ≠ "")
                        then [cli_repository cli +:+ ":" +:+ prebuildHash] else []) ++
                       ((λ p, p +:+ ":" +:+ prebuildHash) <$> cli_prebuildRepositories cli);
          ib_CacheFrom := if decide (bp_RegistryCache options ≠ "")
                          then ["type=registry,ref=" +:+ bp_RegistryCache options] else [];
          ib_CacheTo := if decide (bp_RegistryCache options ≠ "" ∧ bp_ExportCache options = true)
                        then ["type=registry,ref=" +:+ bp_RegistryCache options +:+
                              ",mode=max,image-manifest=true"] else [];
          ib_Dockerfile := if decide (dockerfile = "") then dockerfilePath else dockerfile;
          ib_Context := GetContextPath (sc_config parsedConfig);
          ib_Contexts := ∅;
          ib_Target := target;
          ib_Load := true |}.

Definition GetImageName (localWorkspaceFolder prebuildHash : string) : string :=
  let imageHash := stake 5 (bw_hash w localWorkspaceFolder) in
  ID.ToDockerImageName (filepath_Base localWorkspaceFolder) +:+ "-" +:+ imageHash +:+ ":" +:+
  prebuildHash.

(** ** config/prebuild.go *)

(** What of the configuration matters for the image. *)
Definition no_actions : DevContainerActions := {|
  a_onCreateCommand := ∅; a_updateContentCommand := ∅; a_postCreateCommand := ∅;
  a_postStartCommand := ∅; a_postAttachCommand := ∅; a_customizations := ∅ |}.
Definition no_nonCompose : NonComposeBase := {|
  n_appPort := []; n_containerEnv := ∅; n_containerUser := ""; n_mounts := [];
  n_init := None; n_privileged := None; n_capAdd := []; n_securityOpt := [];
  n_runArgs := []; n_workspaceMount := "" |}.
Definition no_compose : ComposeContainer := {|
  cc_dockerComposeFile := []; cc_service := ""; cc_runServices := [] |}.
Definition build_relevant (c : DevContainerConfig) : DevContainerConfig := {|
  dc_base := {|
    b_name := b_name (dc_base c); b_features := b_features (dc_base c);
    b_overrideFeatureInstallOrder := b_overrideFeatureInstallOrder (dc_base c);
    b_forwardPorts := []; b_portsAttributes := ∅; b_otherPortsAttributes := None;
    b_updateRemoteUserUID := None; b_remoteEnv := ∅; b_remoteUser := "";
    b_initializeCommand := ∅; b_shutdownAction := ""; b_waitFor := "";
    b_userEnvProbe := ""; b_hostRequirements := None; b_overrideCommand := None;
    b_workspaceFolder := ""; b_settings := ∅; b_extensions := []; b_devPort := 0%Z |};
  dc_actions := no_actions; dc_nonCompose := no_nonCompose; dc_image := dc_image c;
  dc_compose := no_compose; dc_dockerfile := dc_dockerfile c;
  dc_containerID := dc_containerID c; dc_origin := "" |}.

Definition target_architecture (platform architecture : string) : string :=
  match Split "/" platform with
  | [os; arch] => if decide (os = "linux") then arch else architecture
  | _ => architecture
  end.

Definition keep_file (file : string) (excludes : list string) : list string :=
  if bw_matches w file excludes then excludes ++ ["!" +:+ file] else excludes.
Definition ensureDockerIgnoreAndDockerFile (excludes : list string)
    (dockerfile dockerignorefilepath : string) : list string :=
  keep_file dockerfile (keep_file (filepath_Base dockerignorefilepath) excludes).

(** The excludes of <Dockerfile>.dockerignore, or of .dockerignore. *)
Definition readDockerignore (contextDir dockerfile : string) : B (list string) :=
  let read path name :=
    content ← ReadFile hs path;
    excludes ← liftR (of_sum (bw_ignore w content));
    mret (ensureDockerIgnoreAndDockerFile excludes dockerfile name) in
  let own := dockerfile +:+ ".dockerignore" in
  let ownPath := if HasPrefix own "/" then own else filepath_Join [contextDir; own] in
  let sharedPath := filepath_Join [contextDir; ".dockerignore"] in
  hasOwn ← Stat ownPath;
  hasShared ← Stat sharedPath;
  if hasOwn : bool then read ownPath own
  else if hasShared : bool then read sharedPath ".dockerignore"
  else mret (ensureDockerIgnoreAndDockerFile [] dockerfile ".dockerignore").

Definition CalculatePrebuildHash (originalConfig : DevContainerConfig)
    (platform architecture contextPath dockerfilePath dockerfileContent : string)
    (buildInfo : ImageBuildInfo ImageMetadataConfig) : B string :=
  configStr ← liftR (of_sum (bw_marshalConfig w (build_relevant originalConfig)));
  excludes ← caught (readDockerignore contextPath dockerfilePath);
  excludes ← liftR (wrap "Error reading .dockerignore" excludes);
  let includes :=
    match ibi_Dockerfile buildInfo with Some d => BuildContextFiles d | None => [] end in
  h ← getS;
  contextHash ← liftR (of_sum (bw_directory w (h_fs h) contextPath
                   (excludes ++ [DevPodContextFeatureFolder +:+ "/"]) includes));
  mret ("devpod-" +:+ stake 32 (bw_hash w
    (target_architecture platform architecture +:+ configStr +:+ dockerfileContent +:+
     contextHash))).

(** ** pkg/devcontainer/build.go: building inside of the container *)

(** The paths of the build as the container sees them. *)
Definition getContainerContextAndDockerfile (localWorkspaceFolder containerWorkspaceFolder
    contextPath devPodDockerfile : string) : string * string :=
  let prefixPath := filepath_Clean localWorkspaceFolder in
  (filepath_Join [containerWorkspaceFolder; TrimPrefix (filepath_Clean contextPath) prefixPath],
   filepath_Join [containerWorkspaceFolder;
                  TrimPrefix (filepath_Clean devPodDockerfile) prefixPath]).

Definition dockerlessFallback (localWorkspaceFolder containerWorkspaceFolder : string)
    (parsedConfig : SubstitutedConfig) (buildInfo : ImageBuildInfo ImageMetadataConfig)
    (extendedBuildInfo : ExtendedBuildInfo) (dockerfileContent : string)
    (options : BuildOptions) : B BuildInfo :=
  let contextPath := GetContextPath (sc_config parsedConfig) in
  let devPodInternalFolder := filepath_Join [contextPath; DevPodContextFeatureFolder] in
  c ← caught (MkdirAll hs devPodInternalFolder);
  _ ← liftR (wrap "create devpod folder" c);
  c ← caught (RewriteDockerfile dockerfileContent extendedBuildInfo);
  devPodDockerfile ← liftR (wrap "rewrite dockerfile" c);
  devPodDockerfile ←
    (if decide (devPodDockerfile = "") then
       let path := filepath_Join [devPodInternalFolder; "Dockerfile-without-features"] in
       c ← caught (WriteFile hs path dockerfileContent);
       _ ← liftR (wrap "write devpod dockerfile" c);
       mret path
     else mret devPodDockerfile);
  let '(containerContext, containerDockerfile) :=
    getContainerContextAndDockerfile localWorkspaceFolder containerWorkspaceFolder
      contextPath devPodDockerfile in
  let '(buildArgs, target) := GetBuildArgsAndTarget parsedConfig extendedBuildInfo in
  mret {| bi_ImageDetails := None;
          bi_ImageMetadata := eb_MetadataConfig extendedBuildInfo;
          bi_ImageName := ""; bi_PrebuildHash := "";
          bi_RegistryCache := bp_RegistryCache options;
          bi_Tags := cli_tag (bp_cli options);
          bi_Dockerless := Some {| bd_Context := containerContext;
                                   bd_Dockerfile := containerDockerfile;
                                   bd_BuildArgs := buildArgs; bd_Target := target;
                                   bd_User := ibi_User buildInfo |} |}.

Definition cleanupBuildInformation (c : DevContainerConfig) : B unit :=
  RemoveAll (filepath_Join [GetContextPath c; DevPodContextFeatureFolder]).
End Build.
