(* ===== verification/Docker.v ===== *)
(** * pkg/docker and pkg/driver/docker: containers run by docker

    The helper that builds docker command lines and reads their output
    (pkg/docker/helper.go), and the driver on top of it
    (pkg/driver/docker/docker.go and build.go), as an instance of the class
    of Driver.v.

    The docker binary is the parameter [exec]: a command with its arguments
    and extra environment changes the host and returns an output.  The
    decoders of its JSON, the compiler of regular expressions, the registry
    and the builder inside DevPod are parameters as well. *)

From S2P Require Import Prelude GoStrings GoRegexp Types Config Names DevContainer Dockerfile Lifecycle SshConfig Substitute Provider Options Clients Driver Build.
From stdpp Require Import base gmap list strings pretty.
From Stdlib Require Import ZArith.

Local Open Scope string_scope.
Local Open Scope list_scope.

(** ** pkg/docker/helper.go *)

Inductive DockerBuilder := DockerBuilderDefault | DockerBuilderBuildX | DockerBuilderBuildKit.
#[export] Instance DockerBuilder_eq_dec : EqDecision DockerBuilder.
Proof. solve_decision. Defined.

Definition DockerBuilder_String (db : DockerBuilder) : string :=
  match db with
  | DockerBuilderDefault => ""
  | DockerBuilderBuildX => "buildx"
  | DockerBuilderBuildKit => "buildkit"
  end.
Definition DockerBuilderFromString (s : string) : result DockerBuilder :=
  if decide (s = "") then Ok DockerBuilderDefault
  else if decide (s = "buildkit") then Ok DockerBuilderBuildKit
  else if decide (s = "buildx") then Ok DockerBuilderBuildX
  else Err "invalid docker builder".

Record DockerHelper := {
  dh_DockerCommand : string;
  dh_ContainerID : string;
  dh_Environment : list string;
  dh_Builder : DockerBuilder;
}.

(** What a command wrote to both of its outputs, to standard output alone,
    and its error. *)
Record cmd_output := CmdOutput {
  co_combined : string;
  co_stdout : string;
  co_err : option string;
}.

(** The code that is not DevPod's. *)
Record docker_world (E : Type) := {
  dw_build : build_world;
  dw_exec : string → list string → list string → M (host E) cmd_output;
  (** encoding/json on the output of [docker inspect] *)
  dw_containers : string → string + list ContainerDetails;
  dw_images : string → string + list ImageDetails;
  (** [image.GetImageConfig]: the user, the environment, the labels, the
      entrypoint and the command in the registry *)
  dw_remote : string → string + ImageDetails;
  (** [regexp.MustCompile] with [SubexpNames]; [None] is its panic *)
  dw_compile : string → option (re * list string);
  (** the name of [os.CreateTemp] *)
  dw_temp : string → string + string;
  (** [d.internalBuild]: buildkit through the socket of the engine *)
  dw_buildkit : string → ImageBuild → M (host E) unit;
}.
Arguments dw_build {_}.
Arguments dw_exec {_}.
Arguments dw_containers {_}.
Arguments dw_images {_}.
Arguments dw_remote {_}.
Arguments dw_compile {_}.
Arguments dw_temp {_}.
Arguments dw_buildkit {_}.

Section Helper.
Context {E : Type} (w : docker_world E) (r : DockerHelper).
Notation D := (M (host E)).

Definition buildCmd (args : list string) : D cmd_output :=
  dw_exec w (dh_DockerCommand r) args (dh_Environment r).

(** [Output] and [CombinedOutput] with the way their error is wrapped, and
    [Run]. *)
Definition Output (args : list string) : D string :=
  o ← buildCmd args;
  match co_err o with Some e => throw e | None => mret (co_stdout o) end.
Definition CombinedOutput (args : list string) : D string :=
  o ← buildCmd args;
  match co_err o with
  | Some e => throw (co_combined o +:+ ": " +:+ e)
  | None => mret (co_combined o)
  end.
Definition Run (args : list string) : D unit :=
  o ← buildCmd args;
  match co_err o with Some e => throw e | None => mret () end.

Definition GPUSupportEnabled : D bool :=
  out ← Output ["info"; "-f"; "{{.Runtimes.nvidia}}"];
  mret (Contains out "nvidia-container-runtime").

Definition IsPodman : D bool :=
  out ← caught (Output ["--version"]);
  mret (match out with Ok out => Contains out "podman" | _ => false end).
Definition IsNerdctl : D bool :=
  out ← caught (Output ["--version"]);
  mret (match out with Ok out => Contains out "nerdctl" | _ => false end).

(** [Inspect] with the decoder of the type of [obj] *)
Definition Inspect {A} (decode : string → string + A) (ids : list string)
    (inspectType : string) : D A :=
  out ← caught (Output (["inspect"; "--type"; inspectType] ++ ids));
  match out with
  | Ok out => liftR (wrap "parse inspect output" (of_sum (decode out)))
  | c => liftR (wrap "inspect container" c ≫= λ _, Err "")
  end.

Definition InspectContainers (ids : list string) : D (list ContainerDetails) :=
  Inspect (dw_containers w) ids "container".

Definition with_status (c : ContainerDetails) (status : string) : ContainerDetails := {|
  cd_ID := cd_ID c; cd_Created := cd_Created c; cd_Status := status;
  cd_StartedAt := cd_StartedAt c; cd_Labels := cd_Labels c;
  cd_WorkingDir := cd_WorkingDir c; cd_LegacyUser := cd_LegacyUser c |}.
Definition first_live (l : list ContainerDetails) : option ContainerDetails :=
  (λ c, with_status c (ToLower (cd_Status c))) <$>
  List.find (λ c, negb (bool_decide (ToLower (cd_Status c) = "removing"))) l.
Definition FindContainerByID (containerIds : list string) : D (option ContainerDetails) :=
  containerDetails ← InspectContainers containerIds;
  mret (first_live containerDetails).

(** One container of [FindContainerJSON]: each label overwrites what the one
    before it found. *)
Definition label_matches (labels : gmap string string) (found : bool) (label : string) : bool :=
  let parts := Split "=" label in
  let key := default "" (head parts) in
  let value := GoStrings.Join (tail parts) "=" in
  bool_decide (default "" (labels !! key) = value).
Fixpoint find_json (labels ids : list string) : D (list string) :=
  match ids with
  | [] => mret []
  | id :: ids' =>
      let id := TrimSpace id in
      containers ← caught (InspectContainers [id]);
      match containers with
      | Ok containers =>
          found ← match labels with
                  | [] => mret true
                  | _ => c ← liftR (deref (head containers));
                         mret (foldl (label_matches (cd_Labels c)) true labels)
                  end;
          rest ← find_json labels ids';
          mret (if found : bool then id :: rest else rest)
      | Panic => liftR Panic
      | _ => find_json labels ids'
      end
  end.
Definition FindContainerJSON (labels : list string) : D (list string) :=
  out ← Output ["ps"; "-q"; "-a"];
  find_json labels (Split "010" (TrimSuffix out newline)).

Definition FindContainer (labels : list string) : D (list string) :=
  let args := ["ps"; "-q"; "-a"] ++ (labels ≫= λ label, ["--filter"; "label=" +:+ label]) in
  out ← caught (Output args);
  match out with
  | Ok out => mret (TrimSpace <$> (log_scan out).1)
  | _ => FindContainerJSON labels
  end.

Definition FindByLabels (labels : list string) : D (option ContainerDetails) :=
  containers ← caught (FindContainer labels);
  containers ← liftR (wrap "docker ps" containers);
  match containers with
  | [] => mret None
  | _ => FindContainerByID containers
  end.

Definition DeleteVolume (volume : string) : D unit :=
  if decide (volume = "") then mret ()
  else
    out ← caught (CombinedOutput ["volume"; "list"; "-q"; "--filter"; "name=" +:+ volume]);
    match out with
    | Ok out =>
        if decide (out = "") then mret ()
        else _ ← CombinedOutput ["volume"; "rm"; volume]; mret ()
    | _ => mret ()
    end.
Definition Stop (id : string) : D unit := _ ← CombinedOutput ["stop"; id]; mret ().
Definition Pull (image : string) : D unit := Run ["pull"; image].
Definition Remove (id : string) : D unit := _ ← CombinedOutput ["rm"; id]; mret ().
Definition StartContainer (containerId : string) : D unit :=
  out ← caught (CombinedOutput ["start"; containerId]);
  _ ← liftR (wrap "start command" out);
  container ← FindContainerByID [containerId];
  match container with None => throw "container not found" | Some _ => mret () end.

(** [tagSplits[1]] is out of range for an image without a tag. *)
Definition GetImageTag_ (imageID : string) : D string :=
  repoTag ← Output ["inspect"; "--type"; "image"; "--format";
                    "{{if .RepoTags}}{{index .RepoTags 0}}{{end}}"; imageID];
  tag ← liftR (deref (Split ":" repoTag !! 1));
  mret (TrimSpace tag).

Definition InspectImage_ (imageName : string) (tryRemote : bool) : D ImageDetails :=
  imageDetails ← caught (Inspect (dw_images w) [imageName] "image");
  match imageDetails with
  | Ok [] => throw ("cannot find image details for " +:+ imageName)
  | Ok (d :: _) => mret d
  | Err e =>
      if tryRemote then
        c ← liftR (wrap "get image config remotely" (of_sum (dw_remote w imageName)));
        mret {| img_ID := imageName; img_User := img_User c; img_Env := img_Env c;
                img_Labels := img_Labels c; img_Entrypoint := img_Entrypoint c;
                img_Cmd := img_Cmd c |}
      else throw e
  | c => liftR (c ≫= λ _, Err "")
  end.
Definition GetContainerLogs (id : string) : D string := Output ["logs"; id].
End Helper.

(** ** pkg/driver/docker/docker.go *)

Section Driver.
Context {E : Type} (w : docker_world E) (d : DockerHelper).
Notation D := (M (host E)).
Notation hs := (bw_sys (dw_build w)).

Definition with_labels (c : ContainerDetails) (labels : gmap string string)
    : ContainerDetails := {|
  cd_ID := cd_ID c; cd_Created := cd_Created c; cd_Status := cd_Status c;
  cd_StartedAt := cd_StartedAt c; cd_Labels := labels; cd_WorkingDir := cd_WorkingDir c;
  cd_LegacyUser := cd_LegacyUser c |}.
(** A container of an earlier release has its user outside of the labels. *)
Definition legacy_user (c : ContainerDetails) : ContainerDetails :=
  if decide (cd_LegacyUser c ≠ "" ∧ default "" (cd_Labels c !! UserLabel) = "")
  then with_labels c (<[UserLabel := cd_LegacyUser c]> (cd_Labels c)) else c.

Definition docker_Find (workspaceId : string) : D (option ContainerDetails) :=
  containerDetails ←
    (if decide (dh_ContainerID d ≠ "") then FindContainerByID w d [dh_ContainerID d]
     else FindByLabels w d [DockerIDLabel +:+ "=" +:+ workspaceId]);
  mret (legacy_user <$> containerDetails).

Definition found (workspaceId : string) (k : ContainerDetails → D unit) : D unit :=
  container ← docker_Find workspaceId;
  match container with None => throw "container not found" | Some c => k c end.

Definition docker_Command (workspaceId user command : string) (stdin : option string)
    : D string :=
  container ← docker_Find workspaceId;
  match container with
  | None => throw "container not found"
  | Some c => Output w d (["exec"] ++ (if stdin then ["-i"] else []) ++
                          ["-u"; user; cd_ID c; "sh"; "-c"; command])
  end.
Definition docker_Push (image : string) : D unit :=
  c ← caught (Run w d ["push"; image]); liftR (wrap "push image" c).
Definition docker_Tag (image tag : string) : D unit :=
  c ← caught (Run w d ["tag"; image; tag]); liftR (wrap "tag image" c).
Definition docker_Delete (workspaceId : string) : D unit :=
  container ← docker_Find workspaceId;
  match container with None => mret () | Some c => Docker.Remove w d (cd_ID c) end.
Definition docker_Start (workspaceId : string) : D unit :=
  found workspaceId (λ c, StartContainer w d (cd_ID c)).
Definition docker_Stop (workspaceId : string) : D unit :=
  found workspaceId (λ c, Stop w d (cd_ID c)).
Definition docker_Logs (workspaceId : string) : D string :=
  container ← docker_Find workspaceId;
  match container with
  | None => throw "container not found"
  | Some c => GetContainerLogs w d (cd_ID c)
  end.

Definition EnsureImage (image : string) : D unit :=
  c ← caught (InspectImage_ w d image false);
  match c with Err _ => Pull w d image | c => liftR (c ≫= λ _, Ok ()) end.

(** [strings.Replace] with a count of one *)
Fixpoint replace_first (s old new : string) : string :=
  if HasPrefix s old then new +:+ sdrop (String.length old) s
  else match s with "" => "" | String c s' => String c (replace_first s' old new) end.

Definition backslash : string := String "092"%char "".
Definition unix_path (source : string) : string :=
  "/mnt/" +:+ ReplaceAll (replace_first source "C:" "c") backslash "/".
Definition EnsurePath (m : Mount) : Mount :=
  if decide (hs_GOOS hs = "windows" ∧
             existsb (λ v, Contains v "DOCKER_HOST=tcp://") (dh_Environment d) = true)
  then {| mount_type := mount_type m; mount_source := unix_path (mount_source m);
          mount_target := mount_target m; mount_external := mount_external m;
          mount_other := mount_other m |}
  else m.

(** *** The arguments of docker run *)

Definition port_args (appPort : string) : list string :=
  match Atoi appPort with
  | None => ["-p"; appPort]
  | Some n => ["-p"; "127.0.0.1:" +:+ pretty n +:+ ":" +:+ pretty n]
  end.

Definition consistency : string := ",consistency='consistent'".
Definition workspace_mount_args (m : option Mount) : D (list string) :=
  match m with
  | None => mret []
  | Some m =>
      let mountPath := Mount_String (EnsurePath m) in
      nerdctl ← IsNerdctl w d;
      mret ["--mount"; if (nerdctl && Contains mountPath consistency)%bool
                       then replace_first mountPath consistency "" else mountPath]
  end.

Definition jetbrains_ides : list string :=
  ["goland"; "rustrover"; "pycharm"; "phpstorm"; "intellij"; "clion"; "rider"; "rubymine";
   "webstorm"; "dataspell"].
(** [GetVolume] of the server of the IDE *)
Definition GetVolume (ide : string) : string :=
  "type=volume,src=devpod-" +:+ ide +:+ ",dst=/var/devpod/" +:+ ide.
Definition ide_args (ide : string) : list string :=
  if bool_decide (ide ∈ jetbrains_ides) then ["--mount"; GetVolume ide] else [].

Definition flags (name : string) (l : list string) : list string := l ≫= λ v, [name; v].
Definition env_args (env : gmap string string) : list string :=
  hs_range hs env ≫= λ kv, ["-e"; kv.1 +:+ "=" +:+ kv.2].

(** The host asks for a GPU; the second check adds [--gpus=all] only when
    [StrBool.Bool] fails and still answers true, which it never does. *)
Definition gpu_args (requirements : option HostRequirements) (runArgs : list string)
    : D (list string) :=
  match requirements with
  | None => mret []
  | Some h =>
      enabled ← (if decide (hr_gpu h = "true") then
                   e ← caught (GPUSupportEnabled w d);
                   mret (match e with Ok b => b | _ => false end)
                 else mret false);
      let '(usesGpu, err) :=
        match ParseBool (hr_gpu h) with Some b => (b, false) | None => (false, true) end in
      mret ((if enabled : bool then ["--gpus"; "all"] else []) ++
            (if (err && usesGpu && negb (bool_decide ("--gpus=all" ∈ runArgs)))%bool
             then ["--gpus=all"] else []))
  end.

Definition run_args (workspaceId : string) (options : RunOptions)
    (parsedConfig : DevContainerConfig) (ide : string) : D (list string) :=
  let n := dc_nonCompose parsedConfig in
  nerdctl ← IsNerdctl w d;
  mount ← workspace_mount_args (ro_WorkspaceMount options);
  podman ← IsPodman w d;
  gpu ← gpu_args (b_hostRequirements (dc_base parsedConfig)) (n_runArgs n);
  mret (["run"] ++ (if nerdctl : bool then [] else ["--sig-proxy=false"]) ++
        (n_appPort n ≫= port_args) ++ mount ++
        (if decide (ro_User options = "") then [] else ["-u"; ro_User options]) ++
        env_args (ro_Env options) ++
        (if decide (ro_Privileged options = Some true) then ["--privileged"] else []) ++
        (if (podman && negb (bool_decide (hs_uid hs = "0")))%bool
         then ["--userns"; "keep-id"] else []) ++
        flags "--cap-add" (ro_CapAdd options) ++
        flags "--security-opt" (ro_SecurityOpt options) ++
        flags "--mount" (Mount_String <$> ro_Mounts options) ++ ide_args ide ++
        flags "-l" (GetDockerLabelForID workspaceId ++ ro_Labels options) ++
        gpu ++ n_runArgs n ++ ["-d"] ++
        (if decide (ro_Entrypoint options = "") then []
         else ["--entrypoint"; ro_Entrypoint options]) ++
        [ro_Image options] ++ ro_Cmd options).

(** *** The ids of the user in the container *)

(** A scanned line with its groups by name. *)
Definition named (names : list string) (cs : caps) : gmap string string :=
  foldl (λ m p, if decide (p.1 ≠ 0 ∧ p.2 ≠ "") then <[p.2 := sub cs p.1]> m else m) ∅
    (imap pair names).
Definition group (m : gmap string string) (name : string) : string := default "" (m !! name).

Definition passwd_regexp (user : string) : string :=
  "^" +:+ user +:+
  ":(?P<password>x?):(?P<uid>.*):(?P<gid>.*):(?P<gcos>.*):(?P<home>.*):(?P<shell>.*)$".
Definition group_regexp (gid : string) : string :=
  "^(?P<group>.*):(?P<password>x?):" +:+ gid +:+ ":(?P<group_list>.*)$".

(** What the scan of /etc/passwd knows of the user. *)
Record passwd_user := PasswdUser { pu_uid : string; pu_gid : string; pu_home : string }.

Fixpoint passwd_lines (rx : re * list string) (user localUid localGid : string)
    (u : passwd_user) (lines : list string) : string * passwd_user :=
  match lines with
  | [] => ("", u)
  | text :: lines' =>
      let '(line, u) :=
        match FindStringSubmatch rx.1 text with
        | None => (text, u)
        | Some cs =>
            let m := named rx.2 cs in
            (GoStrings.Join [user; group m "password"; localUid; localGid; group m "gcos";
                             group m "home"; group m "shell"] ":",
             PasswdUser (group m "uid") (group m "gid") (group m "home"))
        end in
      let '(out, u) := passwd_lines rx user localUid localGid u lines' in
      (line +:+ newline +:+ out, u)
  end.
Fixpoint group_lines (rx : re * list string) (localGid : string) (lines : list string)
    : string :=
  match lines with
  | [] => ""
  | text :: lines' =>
      match FindStringSubmatch rx.1 text with
      | None => text
      | Some cs =>
          let m := named rx.2 cs in
          GoStrings.Join [group m "group"; group m "password"; localGid;
                          group m "group_list"] ":"
      end +:+ newline +:+ group_lines rx localGid lines'
  end.

(** [os.CreateTemp] and the deferred [os.Remove] *)
Definition with_temp {A} (pattern : string) (k : string → D A) : D A := λ h,
  match dw_temp w pattern with
  | inl e => (Err e, h)
  | inr name =>
      let '(c, h') := k name (set_fs (<[name := ""]> (h_fs h)) h) in
      (c, set_fs (delete name (h_fs h')) h')
  end.

Definition MustCompile (source : string) : D (re * list string) :=
  liftR (deref (dw_compile w source)).
Definition append_file (name content : string) : D unit :=
  if decide (content = "") then mret () else WriteFile hs name content.
Definition too_long : string := "bufio.Scanner: token too long".

Definition rewrite_passwd (containerUser localUid localGid fileIn fileOut : string)
    : D passwd_user :=
  content ← ReadFile hs fileIn;
  rx ← MustCompile (passwd_regexp containerUser);
  let '(lines, err) := bufio_scan content in
  let '(out, u) :=
    passwd_lines rx containerUser localUid localGid (PasswdUser "" "" "") lines in
  _ ← append_file fileOut out;
  if err : bool then throw too_long else mret u.
Definition rewrite_group (containerGid localGid fileIn fileOut : string) : D unit :=
  content ← ReadFile hs fileIn;
  rx ← MustCompile (group_regexp containerGid);
  let '(lines, err) := bufio_scan content in
  _ ← append_file fileOut (group_lines rx localGid lines);
  if err : bool then throw too_long else mret ().

Definition wants_update (parsedConfig : DevContainerConfig) : bool :=
  bool_decide (hs_GOOS hs = "linux" ∧
    (n_containerUser (dc_nonCompose parsedConfig) ≠ "" ∨
     b_remoteUser (dc_base parsedConfig) ≠ "") ∧
    b_updateRemoteUserUID (dc_base parsedConfig) ≠ Some false).

Definition copy_ids_back (id localUid localGid home passwdOut groupOut : string) : D unit :=
  _ ← Run w d ["cp"; passwdOut; id +:+ ":/etc/passwd"];
  _ ← Run w d ["cp"; groupOut; id +:+ ":/etc/group"];
  _ ← Run w d ["exec"; "-u"; "root"; id; "chmod"; "644"; "/etc/passwd"; "/etc/group"];
  Run w d ["exec"; "-u"; "root"; id; "chown"; "-R"; localUid +:+ ":" +:+ localGid; home].

Definition update_ids (workspaceId containerUser : string) : D unit :=
  ids ← liftR (of_sum (hs_current hs));
  let '(localUid, localGid) := ids in
  container ← docker_Find workspaceId;
  match container with
  | None => mret ()
  | Some c =>
      with_temp "devpod_container_passwd_in" (λ passwdIn,
      with_temp "devpod_container_group_in" (λ groupIn,
      with_temp "devpod_container_passwd_out" (λ passwdOut,
      with_temp "devpod_container_group_out" (λ groupOut,
        _ ← Run w d ["cp"; cd_ID c +:+ ":/etc/passwd"; passwdIn];
        _ ← Run w d ["cp"; cd_ID c +:+ ":/etc/group"; groupIn];
        u ← rewrite_passwd containerUser localUid localGid passwdIn passwdOut;
        if decide (localUid = "0" ∨ pu_uid u = "0" ∨
                   (localUid = pu_uid u ∧ localGid = pu_gid u))
        then mret ()
        else
          _ ← rewrite_group (pu_gid u) localGid groupIn groupOut;
          copy_ids_back (cd_ID c) localUid localGid (pu_home u) passwdOut groupOut))))
  end.

(** [RunDockerDevContainer]; its argument [init] is not used. *)
Definition docker_Run (workspaceId : string) (options : RunOptions)
    (parsedConfig : DevContainerConfig) (init : option bool) (ide : string) : D unit :=
  _ ← EnsureImage (ro_Image options);
  args ← run_args workspaceId options parsedConfig ide;
  _ ← Run w d args;
  if wants_update parsedConfig then
    update_ids workspaceId
      (if decide (b_remoteUser (dc_base parsedConfig) = "")
       then n_containerUser (dc_nonCompose parsedConfig)
       else b_remoteUser (dc_base parsedConfig))
  else mret ().

(** ** pkg/driver/docker/build.go *)

Definition buildxExists : D bool :=
  c ← caught (Run w d ["buildx"; "version"]);
  if is_ok c then mret true else IsPodman w d.

Definition buildxBuild (platform : string) (options : ImageBuild) : D unit :=
  c ← caught (Run w d (["buildx"; "build"; "-f"; ib_Dockerfile options] ++
    (if ib_Load options then ["--load"] else []) ++
    flags "-t" (ib_Images options) ++
    flags "--build-arg" ((λ kv, kv.1 +:+ "=" +:+ kv.2) <$> hs_range hs (ib_BuildArgs options)) ++
    flags "--build-context" ((λ kv, kv.1 +:+ "=" +:+ kv.2) <$> hs_range hs (ib_Contexts options)) ++
    (if decide (ib_Target options = "") then [] else ["--target"; ib_Target options]) ++
    (if decide (platform = "") then [] else ["--platform"; platform]) ++
    flags "--cache-from" (ib_CacheFrom options) ++
    flags "--cache-to" (ib_CacheTo options) ++
    ib_CliOpts options ++ [ib_Context options]));
  liftR (wrap "build image" c).

Definition build_info (imageDetails : ImageDetails) (extendedBuildInfo : ExtendedBuildInfo)
    (imageName prebuildHash : string) (options : BuildOptions) : BuildInfo := {|
  bi_ImageDetails := Some imageDetails;
  bi_ImageMetadata := eb_MetadataConfig extendedBuildInfo;
  bi_ImageName := imageName; bi_PrebuildHash := prebuildHash;
  bi_RegistryCache := bp_RegistryCache options; bi_Tags := cli_tag (bp_cli options);
  bi_Dockerless := None |}.

Definition local_image (imageName : string) (options : BuildOptions) : D (option ImageDetails) :=
  if decide (cli_repository (bp_cli options) = "" ∧ cli_forceBuild (bp_cli options) = false)
  then
    c ← caught (InspectImage_ w d imageName false);
    match c with
    | Ok i => mret (Some i)
    | Err _ => mret None
    | c => liftR (c ≫= λ _, Err "")
    end
  else mret None.

Definition build_image (options : BuildOptions) (imageBuild : ImageBuild) : D unit :=
  buildx ← (if decide (dh_Builder d = DockerBuilderBuildKit) then mret false
            else buildxExists);
  if (buildx && negb (cli_forceInternalBuildKit (bp_cli options)))%bool then
    again ← buildxExists;
    if again : bool then
      c ← caught (buildxBuild (bp_Platform options) imageBuild);
      liftR (wrap "buildx build" c)
    else throw "buildx is not available on your host. Use buildkit builder"
  else
    c ← caught (dw_buildkit w (bp_Platform options) imageBuild);
    liftR (wrap "internal build" c).

Definition docker_Build (prebuildHash : string) (parsedConfig : SubstitutedConfig)
    (extendedBuildInfo : ExtendedBuildInfo)
    (dockerfilePath dockerfileContent localWorkspaceFolder : string) (options : BuildOptions)
    : D BuildInfo :=
  let imageName := GetImageName (dw_build w) localWorkspaceFolder prebuildHash in
  existing ← local_image imageName options;
  match existing with
  | Some imageDetails =>
      mret (build_info imageDetails extendedBuildInfo imageName prebuildHash options)
  | None =>
      if bp_NoBuild options then
        throw "you cannot build in this mode. Please run 'devpod up' to rebuild the container"
      else
        imageBuild ← NewOptions (dw_build w) dockerfilePath dockerfileContent parsedConfig
                       extendedBuildInfo imageName options prebuildHash;
        _ ← build_image options imageBuild;
        c ← caught (InspectImage_ w d imageName false);
        imageDetails ← liftR (wrap "get image details" c);
        mret (build_info imageDetails extendedBuildInfo imageName prebuildHash options)
  end.

(** ** The driver *)

Definition dockerDriver : Driver E := {|
  FindDevContainer := docker_Find;
  CommandDevContainer := docker_Command;
  RunDevContainer := λ _ _, throw "unsupported";
  TargetArchitecture := λ _, mret (hs_GOARCH hs);
  DeleteDevContainer := docker_Delete;
  StartDevContainer := docker_Start;
  StopDevContainer := docker_Stop;
  GetDevContainerLogs := docker_Logs;
  Reprovisions := None;
  AsDocker := Some {|
    InspectImage := λ image, InspectImage_ w d image true;
    GetImageTag := GetImageTag_ w d;
    RunDockerDevContainer := docker_Run;
    BuildDevContainer := docker_Build;
    PushDevContainer := docker_Push;
    TagDevContainer := docker_Tag |} |}.
End Driver.

(** [NewDockerDriver] *)
Definition NewDockerDriver (range : gmap string string → list (string * string))
    (info : AgentWorkspaceInfo) : result DockerHelper :=
  let docker := a_docker (ai_agent info) in
  builder ← DockerBuilderFromString (dd_builder docker);
  Ok {| dh_DockerCommand := if decide (dd_path docker ≠ "") then dd_path docker else "docker";
        dh_Environment := match dd_env docker with
                          | Some env => ObjectToList (range env)
                          | None => []
                          end;
        dh_ContainerID := ws_container (w_source (ai_workspace info));
        dh_Builder := builder |}.
