(* ===== verification/CustomDriver.v ===== *)
(** * pkg/driver/custom: a driver made of the provider's commands

    Every method of the driver runs the command the provider declares for it,
    in the environment of the workspace, its options and the downloaded
    binaries (pkg/driver/custom/custom.go).  Processes, the download and the
    JSON decoder are parameters. *)

From S2P Require Import Prelude GoStrings Types Config DevContainer Lifecycle Provider Options Clients Driver.
From stdpp Require Import base gmap list strings.

Local Open Scope string_scope.
Local Open Scope list_scope.

(** A single word is a script of the emulated shell. *)
Inductive process := Shell (script : string) | Process (name : string) (args : list string).

Record process_output := ProcessOutput { po_stdout : string; po_err : option string }.

Record custom_world (E : Type) := {
  cw_env : sys;
  cw_exec : process → list string → option string → M (host E) process_output;
  (** [os.Stat] of the folder of the workspace *)
  cw_folder : string → bool;
  (** [binaries.DownloadBinaries] into a folder *)
  cw_binaries : Binaries → string → string + gmap string string;
  cw_details : string → string + ContainerDetails;
  cw_marshal : option RunOptions → string + string;
}.
Arguments cw_env {_}.
Arguments cw_exec {_}.
Arguments cw_folder {_}.
Arguments cw_binaries {_}.
Arguments cw_details {_}.
Arguments cw_marshal {_}.

Section Custom.
Context {E : Type} (w : custom_world E) (info : AgentWorkspaceInfo).
Notation D := (M (host E)).
Notation custom := (a_custom (ai_agent info)).

Definition GetAgentBinariesDirFromWorkspaceDir (workspaceDir : string) : result string :=
  if cw_folder w workspaceDir then Ok (filepath_Join [workspaceDir; "binaries"])
  else Err "file does not exist".

Definition ToEnvironWithBinaries : result (list string) :=
  binariesDir ← wrap ("error getting workspace " +:+ w_id (ai_workspace info) +:+
                      " binaries dir: " +:+ ai_origin info)
                  (GetAgentBinariesDirFromWorkspaceDir (ai_origin info));
  agentBinaries ← wrap ("error downloading workspace " +:+ w_id (ai_workspace info) +:+
                        " binaries")
                    (of_sum (cw_binaries w (a_binaries (ai_agent info)) binariesDir));
  Ok (ToEnvironment (cw_env w) (Some (ai_workspace info)) (ai_machine info)
        (Some (ai_options info)) ∅ ++
      ((λ kv, kv.1 +:+ "=" +:+ kv.2) <$> s_iter (cw_env w) agentBinaries)).

Definition custom_runCommand (workspaceId : string) (command : StrArray)
    (extraEnv : list string) (stdin : option string) : D process_output :=
  match command with
  | None | Some [] => mret (ProcessOutput "" None)
  | Some (word :: words) =>
      environ ← liftR ToEnvironWithBinaries;
      let environ := environ ++ ["DEVCONTAINER_ID=" +:+ workspaceId] ++ extraEnv ++
                     (if decide (s_logLevel (cw_env w) = "debug")
                      then ["DEVPOD_DEBUG=true"] else []) in
      cw_exec w (match words with [] => Shell word | _ => Process word words end) environ stdin
  end.

(** The output of a command, or its error after the output. *)
Definition custom_output (msg workspaceId : string) (command : StrArray)
    (extraEnv : list string) (stdin : option string) : D string :=
  c ← caught (custom_runCommand workspaceId command extraEnv stdin);
  match c with
  | Ok o => match po_err o with
            | Some e => throw (msg +:+ ": " +:+ po_stdout o +:+ e)
            | None => mret (po_stdout o)
            end
  | Err e => throw (msg +:+ ": " +:+ e)
  | c => liftR (c ≫= λ _, Err "")
  end.
Definition custom_run (msg workspaceId : string) (command : StrArray)
    (extraEnv : list string) : D unit :=
  c ← caught (custom_runCommand workspaceId command extraEnv None);
  o ← liftR (wrap msg c);
  match po_err o with Some e => throw (msg +:+ ": " +:+ e) | None => mret () end.

Definition custom_Find (workspaceId : string) : D (option ContainerDetails) :=
  stdout ← custom_output "error finding dev container" workspaceId
             (cd_findDevContainer custom) [] None;
  if decide (stdout = "") then mret None
  else c ← liftR (wrap ("error parsing container details " +:+ stdout)
                    (of_sum (cw_details w (TrimSpace stdout))));
       mret (Some c).

Definition custom_Command (workspaceId user command : string) (stdin : option string)
    : D string :=
  o ← custom_runCommand workspaceId (cd_commandDevContainer custom)
        ["DEVCONTAINER_USER=" +:+ user; "DEVCONTAINER_COMMAND=" +:+ command] stdin;
  match po_err o with Some e => throw e | None => mret (po_stdout o) end.

Definition custom_TargetArchitecture (workspaceId : string) : D string :=
  stdout ← custom_output "error getting target architecture" workspaceId
             (cd_targetArchitecture custom) [] None;
  let targetArchitecture := ToLower (TrimSpace stdout) in
  if decide (targetArchitecture ≠ "amd64" ∧ targetArchitecture ≠ "arm64")
  then throw ("invalid target architecture " +:+ targetArchitecture +:+
              ", expected either arm64 or amd64")
  else mret targetArchitecture.

Definition custom_Run (workspaceId : string) (options : option RunOptions) : D unit :=
  out ← liftR (wrap "marshal run options" (of_sum (cw_marshal w options)));
  custom_run "error running devcontainer" workspaceId (cd_runDevContainer custom)
    ["DEVCONTAINER_RUN_OPTIONS=" +:+ out].

Definition custom_Logs (workspaceId : string) : D string :=
  c ← caught (custom_runCommand workspaceId (cd_getDevContainerLogs custom) [] None);
  o ← liftR (wrap "error getting devcontainer logs" c);
  match po_err o with
  | Some e => throw ("error getting devcontainer logs: " +:+ e)
  | None => mret (po_stdout o)
  end.

Definition CanReprovision : bool := bool_decide (cd_canReprovision custom = "true").

Definition customDriver : Driver E := {|
  FindDevContainer := custom_Find;
  CommandDevContainer := custom_Command;
  RunDevContainer := custom_Run;
  TargetArchitecture := custom_TargetArchitecture;
  DeleteDevContainer := λ id, custom_run "error deleting devcontainer" id
                                (cd_deleteDevContainer custom) [];
  StartDevContainer := λ id, custom_run "error starting devcontainer" id
                               (cd_startDevContainer custom) [];
  StopDevContainer := λ id, custom_run "error stopping devcontainer" id
                              (cd_stopDevContainer custom) [];
  GetDevContainerLogs := custom_Logs;
  Reprovisions := Some CanReprovision;
  AsDocker := None |}.
End Custom.
