(* ===== verification/Kubernetes.v ===== *)
(** * pkg/driver/kubernetes: dev containers as pods

    A workspace is a persistent volume claim and a pod of the same name; the
    claim has the options of the container as an annotation, so that a stopped
    workspace, whose pod is deleted, can be started again.

    The API server is a parameter ([kube_world]): for every kind of object the
    calls Get, Create and Delete, which fail with an [api_error].  Time passes
    in [kw_tick], between two polls.  Fields of a pod template that the
    driver only hands on are kept as JSON. *)

From S2P Require Import Prelude GoStrings Types Config DevContainer Substitute Lifecycle Provider Options Clients Driver.
From stdpp Require Import base gmap list strings pretty.
From Stdlib Require Import ZArith.

Local Open Scope string_scope.
Local Open Scope list_scope.

(** ** Objects of the cluster *)

Inductive api_error := NotFound | AlreadyExists | Forbidden | OtherError (text : string).
#[export] Instance api_error_eq_dec : EqDecision api_error.
Proof. solve_decision. Defined.
Definition api_text (e : api_error) : string :=
  match e with
  | NotFound => "not found" | AlreadyExists => "already exists"
  | Forbidden => "forbidden" | OtherError t => t
  end.

Record EnvVar := { ev_Name : string; ev_Value : string; ev_From : option json }.
Record VolumeMount := {
  vm_Name : string; vm_MountPath : string; vm_SubPath : string; vm_rest : option json }.
Record ResourceRequirements := {
  rr_Limits : gmap string string; rr_Requests : gmap string string }.

(** The context the driver gives a container, or the one of the template. *)
Inductive SecurityContext :=
| AsRoot (capabilities : option (list string)) (privileged : option bool)
| OfTemplate (context : json).

Record PodContainer := {
  c_Name : string;
  c_Image : string;
  c_Command : list string;
  c_Args : list string;
  c_Env : list EnvVar;
  c_EnvFrom : list json;
  c_Ports : list json;
  c_Resources : ResourceRequirements;
  c_VolumeMounts : list VolumeMount;
  c_ImagePullPolicy : string;
  c_SecurityContext : option SecurityContext;
  c_RestartPolicy : option string;
  c_rest : option json;
}.

Inductive VolumeSource := ClaimVolume (claim : string) | SecretVolume (secret : string)
| OtherVolume (source : json).
Record Volume := { v_Name : string; v_Source : VolumeSource }.

Record ContainerStatus := {
  cs_Name : string;
  (** reason and message *)
  cs_Waiting : option (string * string);
  (** exit code, reason and message *)
  cs_Terminated : option (Z * string * string);
  cs_Running : bool;
  cs_Ready : bool;
  cs_Started : option bool;
}.

Record PodSpec := {
  ps_ServiceAccountName : string;
  ps_NodeSelector : gmap string string;
  ps_InitContainers : list PodContainer;
  ps_Containers : list PodContainer;
  ps_Volumes : list Volume;
  (** [inl ()]: the group of files changes only on a mismatch at the root *)
  ps_SecurityContext : option (unit + json);
  ps_ImagePullSecrets : list string;
  ps_RestartPolicy : string;
  ps_rest : option json;
}.
Record PodStatus := {
  pst_Phase : string;
  pst_InitContainerStatuses : list ContainerStatus;
  pst_ContainerStatuses : list ContainerStatus;
}.
Record Pod := {
  p_Name : string;
  p_Labels : gmap string string;
  p_Annotations : gmap string string;
  p_Created : string;
  p_Deleted : option string;
  p_Spec : PodSpec;
  p_Status : PodStatus;
}.

Record Claim := {
  cl_Name : string;
  cl_Labels : gmap string string;
  cl_Annotations : gmap string string;
  cl_Created : string;
  cl_Deleted : option string;
  cl_AccessModes : list string;
  cl_Storage : string;
  cl_StorageClassName : option string;
}.
Record Secret := { s_Name : string; s_Type : string; s_Data : gmap string string }.
Record ServiceAccount := { sa_Name : string; sa_Labels : gmap string string }.
(** the service account and the cluster role it binds *)
Record RoleBinding := {
  rb_Name : string; rb_Labels : gmap string string; rb_Subject : string; rb_Role : string }.

(** ** Docker credentials (pkg/dockercredentials) *)

Record AuthConfig := {
  ac_Username : string; ac_Password : string; ac_IdentityToken : string;
  ac_ServerAddress : string; ac_other : string }.
#[export] Instance AuthConfig_eq_dec : EqDecision AuthConfig.
Proof. solve_decision. Defined.
Definition no_auth : AuthConfig := {|
  ac_Username := ""; ac_Password := ""; ac_IdentityToken := ""; ac_ServerAddress := "";
  ac_other := "" |}.
Record Credentials := { cr_ServerURL : string; cr_Username : string; cr_Secret : string }.

Definition AuthToken (c : Credentials) : string :=
  if decide (cr_Username c ≠ "") then cr_Username c +:+ ":" +:+ cr_Secret c else cr_Secret c.

Definition AzureContainerRegistryUsername : string := "00000000-0000-0000-0000-000000000000".

(** [GetAuthConfig], with the docker configuration and the credentials of the
    other container tools *)
Definition GetAuthConfig (docker containers : string → string + AuthConfig) (host : string)
    : result Credentials :=
  let host := if decide (host = "registry-1.docker.io") then "https://index.docker.io/v1/"
              else host in
  ac ← of_sum (docker host);
  ac ← (if decide (ac = no_auth) then
          dac ← of_sum (containers (TrimPrefix (TrimPrefix host "https://") "http://"));
          Ok {| ac_Username := ac_Username dac; ac_Password := ac_Password dac;
                ac_IdentityToken := ac_IdentityToken dac; ac_ServerAddress := host;
                ac_other := "" |}
        else Ok ac);
  let username := if decide (ac_Username ac = "" ∧ HasSuffix (ac_ServerAddress ac) "azurecr.io" = true)
                  then AzureContainerRegistryUsername else ac_Username ac in
  Ok {| cr_ServerURL := host; cr_Username := username;
        cr_Secret := if decide (ac_IdentityToken ac ≠ "") then ac_IdentityToken ac
                     else ac_Password ac |}.

(** ** The world *)

Record DevContainerInfo := { di_WorkspaceID : string; di_Options : option RunOptions }.

Record resource_api (E A : Type) := {
  api_Get : string → string → M (host E) (api_error + A);
  api_Create : string → A → M (host E) (api_error + unit);
  api_Delete : string → string → M (host E) (api_error + unit);
}.
Arguments api_Get {_ _}.
Arguments api_Create {_ _}.
Arguments api_Delete {_ _}.

Record kube_world (E : Type) := {
  kw_sys : hostsys;
  kw_pods : resource_api E Pod;
  kw_claims : resource_api E Claim;
  kw_secrets : resource_api E Secret;
  kw_serviceAccounts : resource_api E ServiceAccount;
  kw_roleBindings : resource_api E RoleBinding;
  (** namespaces are not in a namespace *)
  kw_getNamespace : string → M (host E) (option api_error);
  kw_createNamespace : string → M (host E) (option api_error);
  (** the architectures of the nodes *)
  kw_nodes : M (host E) (api_error + list string);
  kw_tick : M (host E) unit;
  (** how often a condition is polled within a time, after the first poll *)
  kw_polls : Z → nat;
  (** pod, container, command and input *)
  kw_exec : string → string → string → list string → option string → M (host E) string;
  kw_logs : string → string → string → M (host E) string;
  (** JSON and YAML.  The decoder of options returns what it leaves in the
      record, also when it fails. *)
  kw_marshalOptions : ProviderKubernetesDriverConfig → string + string;
  kw_unmarshalOptions : string → ProviderKubernetesDriverConfig;
  kw_marshalInfo : DevContainerInfo → string + string;
  kw_unmarshalInfo : string → string + DevContainerInfo;
  kw_template : string → string + Pod;
  kw_quantity : string → string + string;
  (** the auths of a docker configuration: token and email of each registry *)
  kw_marshalAuths : gmap string (string * string) → string + string;
  kw_unmarshalAuths : string → string + gmap string (string * string);
  kw_dockerAuth : string → string + AuthConfig;
  kw_containersAuth : string → string + AuthConfig;
  (** [reference.ParseNormalizedNamed]: the domain and the familiar name *)
  kw_reference : string → string + (string * string);
}.
Arguments kw_sys {_}.
Arguments kw_pods {_}.
Arguments kw_claims {_}.
Arguments kw_secrets {_}.
Arguments kw_serviceAccounts {_}.
Arguments kw_roleBindings {_}.
Arguments kw_getNamespace {_}.
Arguments kw_createNamespace {_}.
Arguments kw_nodes {_}.
Arguments kw_tick {_}.
Arguments kw_polls {_}.
Arguments kw_exec {_}.
Arguments kw_logs {_}.
Arguments kw_marshalOptions {_}.
Arguments kw_unmarshalOptions {_}.
Arguments kw_marshalInfo {_}.
Arguments kw_unmarshalInfo {_}.
Arguments kw_template {_}.
Arguments kw_quantity {_}.
Arguments kw_marshalAuths {_}.
Arguments kw_unmarshalAuths {_}.
Arguments kw_dockerAuth {_}.
Arguments kw_containersAuth {_}.
Arguments kw_reference {_}.

(** ** Names and labels *)

Definition DevContainerName : string := "devpod".
Definition InitContainerName : string := "devpod-init".
Definition DevPodCreatedLabel : string := "devpod.sh/created".
Definition DevPodWorkspaceUIDLabel : string := "devpod.sh/workspace-uid".
Definition DevPodInfoAnnotation : string := "devpod.sh/info".
Definition DevPodLastAppliedAnnotation : string := "devpod.sh/last-applied-configuration".
Definition ClusterAutoscalerSaveToEvictAnnotation : string :=
  "cluster-autoscaler.kubernetes.io/safe-to-evict".
Definition ExtraDevPodLabels : gmap string string := {[ DevPodCreatedLabel := "true" ]}.

Definition getID (workspaceID : string) : string := "devpod-" +:+ workspaceID.
Definition getPullSecretsName (workspaceID : string) : string :=
  "devpod-pull-secret-" +:+ workspaceID.
Definition getDaemonSecretName (workspaceID : string) : string :=
  "devpod-daemon-secret-" +:+ workspaceID.

(** ** helper.go *)

(** [strings.SplitN] at the first equals sign *)
Definition split2 (s : string) : option (string * string) :=
  let '(before, after, found) := Cut "=" s in
  if found : bool then Some (before, after) else None.

Fixpoint parse_labels (ret : gmap string string) (labels : list string)
    : result (gmap string string) :=
  match labels with
  | [] => Ok ret
  | label :: labels' =>
      let label := TrimSpace label in
      match split2 label with
      | Some (k, v) => parse_labels (<[k := v]> ret) labels'
      | None => Err ("invalid label '" +:+ label +:+ "', expected format label=value")
      end
  end.
Definition parseLabels (str : string) : result (gmap string string) :=
  if decide (str = "") then Ok ∅ else parse_labels ∅ (Split "," str).

Section Resources.
Context (quantity : string → string + string).

Definition parseResource (resourceName : string) : option (string * string) :=
  '(name, q) ← split2 resourceName;
  match quantity q with inr v => Some (name, v) | inl _ => None end.

(** A part that cannot be parsed is logged and skipped. *)
Definition limitsPrefix : string := "limits.".
Definition requestsPrefix : string := "requests.".
Definition add_resource (prefix : string) (l : gmap string string) (resourceName : string)
    : gmap string string :=
  if HasPrefix resourceName prefix then
    match parseResource (TrimPrefix resourceName prefix) with
    | Some (name, q) => <[name := q]> l
    | None => l
    end
  else l.
Definition parseResources (resourceString : string) : ResourceRequirements :=
  let parts := TrimSpace <$> Split "," resourceString in {|
  rr_Limits := foldl (add_resource limitsPrefix) ∅ parts;
  rr_Requests := foldl (add_resource requestsPrefix) ∅ parts |}.
End Resources.

(** ** container_status.go *)

Definition IsWaiting (s : ContainerStatus) : bool := bool_decide (is_Some (cs_Waiting s)).
Definition IsTerminated (s : ContainerStatus) : bool := bool_decide (is_Some (cs_Terminated s)).
Definition IsStarted (s : ContainerStatus) : bool := bool_decide (cs_Started s = Some true).
Definition IsRunning (s : ContainerStatus) : bool := cs_Running s.
Definition IsReady (s : ContainerStatus) : bool := cs_Ready s.
Definition Succeeded (s : ContainerStatus) : bool :=
  match cs_Terminated s with Some (code, _, _) => (code =? 0)%Z | None => false end.
Definition criticalStatus : list string :=
  ["Error"; "Unknown"; "ImagePullBackOff"; "CrashLoopBackOff"; "RunContainerError";
   "ErrImagePull"; "CreateContainerConfigError"; "InvalidImageName"].
Definition IsCritical (s : ContainerStatus) : bool :=
  match cs_Waiting s with Some (reason, _) => bool_decide (reason ∈ criticalStatus) | None => false end.

(** ** The decision of one poll (wait.go) *)

Inductive poll := Ready | Wait | DeleteIt | Failed (e : string).

Definition getContainer (containers : list PodContainer) (name : string) : option PodContainer :=
  List.find (λ c, bool_decide (c_Name c = name)) containers.
Definition restartableInitContainer (p : option string) : bool := bool_decide (p = Some "Always").

Definition status_text (id kind : string) (c : ContainerStatus) (what reason message : string)
    : string :=
  "pod '" +:+ id +:+ "' " +:+ kind +:+ " '" +:+ cs_Name c +:+ "' is " +:+ what +:+ ": " +:+
  message +:+ " (" +:+ reason +:+ ")".
Definition waiting_poll (id kind : string) (c : ContainerStatus) (reason message : string) : poll :=
  if IsCritical c then Failed (status_text id kind c "waiting to start" reason message) else Wait.

Fixpoint check_init (id : string) (init : list PodContainer) (l : list ContainerStatus) : poll :=
  match l with
  | [] => Ready
  | c :: l' =>
      match cs_Waiting c with
      | Some (reason, message) => waiting_poll id "init container" c reason message
      | None =>
          match cs_Terminated c, Succeeded c with
          | Some (_, reason, message), false =>
              Failed (status_text id "init container" c "terminated" reason message)
          | _, _ =>
              match getContainer init (cs_Name c) with
              | None => Failed ("cannot find pod container with name " +:+ cs_Name c)
              | Some container =>
                  if restartableInitContainer (c_RestartPolicy container) then
                    if IsStarted c && IsReady c then check_init id init l' else Wait
                  else if IsRunning c then Wait else check_init id init l'
              end
          end
      end
  end.

Fixpoint check_containers (id : string) (l : list ContainerStatus) : poll :=
  match l with
  | [] => Ready
  | c :: l' =>
      match cs_Terminated c, cs_Waiting c with
      | Some (code, reason, message), w =>
          if (code =? 0)%Z then DeleteIt
          else match w with
               | Some (reason, message) => waiting_poll id "container" c reason message
               | None => Failed (status_text id "container" c "terminated" reason message)
               end
      | None, Some (reason, message) => waiting_poll id "container" c reason message
      | None, None => if IsReady c then check_containers id l' else Wait
      end
  end.

Definition check_pod (id : string) (pod : Pod) : poll :=
  match p_Deleted pod with
  | Some _ => Wait
  | None =>
      if (length (pst_ContainerStatuses (p_Status pod)) <?
          length (ps_Containers (p_Spec pod)))%nat then Wait
      else
        match check_init id (ps_InitContainers (p_Spec pod))
                (pst_InitContainerStatuses (p_Status pod)) with
        | Ready => check_containers id (pst_ContainerStatuses (p_Status pod))
        | p => p
        end
  end.

(** ** The manifest of the pod (run.go, init_container.go) *)

Definition getVolumeMount (idx : nat) (mount : Mount) : VolumeMount := {|
  vm_Name := "devpod";
  vm_MountPath := mount_target mount;
  vm_SubPath := "devpod/" +:+
    (if decide (mount_type mount = "volume" ∧ mount_source mount ≠ "")
     then TrimPrefix (mount_source mount) "/" else pretty idx);
  vm_rest := None |}.

(** The containers of the template with another name, and the last one with
    this name. *)
Definition other_containers (name : string) (l : list PodContainer) : list PodContainer :=
  filter (λ c, c_Name c ≠ name) l.
Definition last_container (name : string) (l : list PodContainer) : option PodContainer :=
  last (filter (λ c, c_Name c = name) l).

(** What a container takes over from the one of the template. *)
Definition merge_container (existing : option PodContainer) (c : PodContainer) : PodContainer :=
  match existing with
  | None => c
  | Some e => {|
      c_Name := c_Name c; c_Image := c_Image c; c_Command := c_Command c; c_Args := c_Args c;
      c_Env := c_Env e ++ c_Env c; c_EnvFrom := c_EnvFrom e; c_Ports := c_Ports e;
      c_Resources := c_Resources c; c_VolumeMounts := c_VolumeMounts e ++ c_VolumeMounts c;
      c_ImagePullPolicy := c_ImagePullPolicy e;
      c_SecurityContext := match c_SecurityContext c with
                           | Some s => Some s | None => c_SecurityContext e end;
      c_RestartPolicy := c_RestartPolicy c; c_rest := c_rest c |}
  end.
Definition no_resources : ResourceRequirements := {| rr_Limits := ∅; rr_Requests := ∅ |}.

Definition trim_slashes (s : string) : string := trim_right (λ c, bool_decide (c = "/"%char)) s.
Definition init_mounts (mounts : list Mount) : list (VolumeMount * string) :=
  omap (λ '(idx, mount),
    if decide (mount_type mount = "volume") then
      let v := getVolumeMount (S idx) mount in
      let target := "/" +:+ vm_SubPath v in
      Some ({| vm_Name := vm_Name v; vm_MountPath := target; vm_SubPath := vm_SubPath v;
               vm_rest := None |},
            "cp -a " +:+ trim_slashes (vm_MountPath v) +:+ "/. " +:+ trim_slashes target +:+
            "/ || true")
    else None) (imap pair mounts).

Definition getInitContainers (strict : bool) (options : RunOptions) (init : list PodContainer)
    (initialize : bool) : list PodContainer :=
  let rest := other_containers InitContainerName init in
  let existing := last_container InitContainerName init in
  match initialize, init_mounts (ro_Mounts options) with
  | false, _ | true, [] => rest
  | true, mounts =>
      rest ++ [merge_container existing {|
        c_Name := InitContainerName; c_Image := ro_Image options; c_Command := ["sh"];
        c_Args := ["-c"; GoStrings.Join (snd <$> mounts) newline +:+ newline];
        c_Env := []; c_EnvFrom := []; c_Ports := [];
        c_Resources := match existing with Some e => c_Resources e | None => no_resources end;
        c_VolumeMounts := fst <$> mounts; c_ImagePullPolicy := "";
        c_SecurityContext := if strict then None else Some (AsRoot None None);
        c_RestartPolicy := None; c_rest := None |}]
  end.

Definition daemon_mount : VolumeMount := {|
  vm_Name := "devpod-daemon-config"; vm_MountPath := "/var/run/secrets/devpod";
  vm_SubPath := ""; vm_rest := None |}.
Definition getContainers (containers : list PodContainer) (options : RunOptions)
    (envVars : list EnvVar) (volumeMounts : list VolumeMount)
    (capabilities : option (list string)) (resources : ResourceRequirements) (strict : bool)
    (daemonConfigSecretName : string) : list PodContainer :=
  other_containers DevContainerName containers ++
  [merge_container (last_container DevContainerName containers) {|
    c_Name := DevContainerName; c_Image := ro_Image options;
    c_Command := [ro_Entrypoint options]; c_Args := ro_Cmd options; c_Env := envVars;
    c_EnvFrom := []; c_Ports := []; c_Resources := resources;
    c_VolumeMounts := volumeMounts ++
      (if decide (daemonConfigSecretName ≠ "") then [daemon_mount] else []);
    c_ImagePullPolicy := "";
    c_SecurityContext := if strict then None
                         else Some (AsRoot capabilities (ro_Privileged options));
    c_RestartPolicy := None; c_rest := None |}].

Definition getVolumes (volumes : list Volume) (id daemonConfigSecretName : string)
    : list Volume :=
  {| v_Name := "devpod"; v_Source := ClaimVolume id |} ::
  (if decide (daemonConfigSecretName ≠ "")
   then [{| v_Name := "devpod-daemon-config"; v_Source := SecretVolume daemonConfigSecretName |}]
   else []) ++ volumes.

Definition getLabels (podLabels : gmap string string) (rawLabels : string)
    : result (gmap string string) :=
  extraLabels ← wrap "parse labels" (parseLabels rawLabels);
  Ok (ExtraDevPodLabels ∪ extraLabels ∪ podLabels).
Definition getNodeSelector (podSelector : gmap string string) (rawNodeSelector : string)
    : result (gmap string string) :=
  selector ← wrap "parsing node selector" (parseLabels rawNodeSelector);
  Ok (selector ∪ podSelector).

(** The mount of the workspace; the option has to be a parent of it. *)
Definition workspace_mount (volumeMount : string) (mount : Mount) : Mount :=
  if decide (volumeMount = "") then mount
  else match filepath_Rel volumeMount (mount_target mount) with
       | None => mount
       | Some rel =>
           if HasPrefix rel ".." then mount
           else {| mount_type := mount_type mount; mount_source := mount_source mount;
                   mount_target := volumeMount; mount_external := mount_external mount;
                   mount_other := mount_other mount |}
       end.
Definition supported_mount (m : Mount) : bool :=
  bool_decide (mount_type m = "bind" ∨ mount_type m = "volume").
Definition volume_mounts (mount : Mount) (mounts : list Mount) : list VolumeMount :=
  getVolumeMount 0 mount ::
  omap (λ '(idx, m), if supported_mount m then Some (getVolumeMount (S idx) m) else None)
       (imap pair mounts).

(** The environment without the configuration of the daemon. *)
Definition env_vars (l : list (string * string)) : list EnvVar :=
  (λ kv, {| ev_Name := kv.1; ev_Value := kv.2; ev_From := None |}) <$>
  filter (λ kv, kv.1 ≠ WorkspaceDaemonConfigExtraEnvVar) l.
Definition add_capabilities (capAdd : list string) : option (list string) :=
  match capAdd with [] => None | l => Some l end.

Definition empty_spec : PodSpec := {|
  ps_ServiceAccountName := ""; ps_NodeSelector := ∅; ps_InitContainers := [];
  ps_Containers := []; ps_Volumes := []; ps_SecurityContext := None;
  ps_ImagePullSecrets := []; ps_RestartPolicy := "Never"; ps_rest := None |}.
Definition no_status : PodStatus := {|
  pst_Phase := ""; pst_InitContainerStatuses := []; pst_ContainerStatuses := [] |}.
Definition empty_pod : Pod := {|
  p_Name := ""; p_Labels := ∅; p_Annotations := ∅; p_Created := ""; p_Deleted := None;
  p_Spec := empty_spec; p_Status := no_status |}.

(** [optionsEqual]: the options that do not reach the pod are ignored. *)
Definition without_cluster (k : ProviderKubernetesDriverConfig)
    : ProviderKubernetesDriverConfig := {|
  k_kubernetesContext := ""; k_kubernetesConfig := ""; k_kubernetesNamespace := "";
  k_podTimeout := "";
  k_kubernetesPullSecretsEnabled := k_kubernetesPullSecretsEnabled k;
  k_createNamespace := k_createNamespace k; k_clusterRole := k_clusterRole k;
  k_serviceAccount := k_serviceAccount k; k_architecture := k_architecture k;
  k_inactivityTimeout := k_inactivityTimeout k; k_storageClass := k_storageClass k;
  k_diskSize := k_diskSize k; k_pvcAccessMode := k_pvcAccessMode k;
  k_pvcAnnotations := k_pvcAnnotations k; k_nodeSelector := k_nodeSelector k;
  k_resources := k_resources k; k_workspaceVolumeMount := k_workspaceVolumeMount k;
  k_podManifestTemplate := k_podManifestTemplate k; k_labels := k_labels k;
  k_strictSecurity := k_strictSecurity k |}.
Definition optionsEqual (a b : ProviderKubernetesDriverConfig) : bool :=
  bool_decide (without_cluster a = without_cluster b).

(** ** registry.go *)

Definition OfficialDockerRegistry : string := "https://index.docker.io/v1/".
Definition validateIndexName (val : string) : string :=
  if decide (val = "index.docker.io") then "docker.io" else val.
Definition GetRegistryFromImageName (parse : string → string + (string * string))
    (imageName : string) : result string :=
  ref ← of_sum (parse imageName);
  let repoInfo := validateIndexName ref.1 in
  Ok (if decide (scontains_char "/" ref.2 = false ∨ repoInfo = "hub.docker.com" ∨
                 repoInfo = "docker.io")
      then OfficialDockerRegistry else repoInfo).

(** ** The driver *)

Section Driver.
Context {E : Type} (w : kube_world E) (namespace : string).
Context (options : ProviderKubernetesDriverConfig).
Notation C := (M (host E)).

(** A call whose error is reported after a text, and one where NotFound is
    no error. *)
Definition api_call {A} (what : string) (c : C (api_error + A)) : C A :=
  r ← c;
  match r with inr a => mret a | inl e => throw (what +:+ api_text e) end.
Definition api_delete (what : string) (c : C (api_error + unit)) : C unit :=
  r ← c;
  match r with inl NotFound | inr _ => mret () | inl e => throw (what +:+ api_text e) end.

(** *** wait.go *)

Definition getPod (id : string) : C (option Pod) :=
  r ← api_Get (kw_pods w) namespace id;
  match r with
  | inr pod => mret (Some pod)
  | inl NotFound => mret None
  | inl e => throw ("find container: " +:+ api_text e)
  end.

(** [wait.PollUntilContextTimeout], at once and then every second *)
Fixpoint Poll (n : nat) (cond : C bool) : C unit :=
  done ← cond;
  if done : bool then mret ()
  else match n with
       | O => throw "context deadline exceeded"
       | S n => _ ← kw_tick w; Poll n cond
       end.

Definition pod_gone (id : string) : C bool :=
  r ← api_Get (kw_pods w) namespace id;
  mret (match r with inl _ => true | inr _ => false end).
Definition two_minutes : Z := 120000000000.
Definition waitPodDeleted (id : string) : C unit :=
  r ← api_Delete (kw_pods w) namespace id;
  match r with
  | inl NotFound => mret ()
  | inl e => throw ("delete pod: " +:+ api_text e)
  | inr _ =>
      gone ← caught (Poll (kw_polls w two_minutes) (pod_gone id));
      match gone with
      | Err _ => throw "timeout waiting for pod to be deleted"
      | c => liftR c
      end
  end.

Definition pod_running (id : string) : C bool :=
  pod ← getPod id;
  match pod with
  | None => mret true
  | Some pod =>
      match check_pod id pod with
      | Ready => mret true
      | Wait => mret false
      | Failed e => throw e
      | DeleteIt => _ ← waitPodDeleted id; mret false
      end
  end.
Definition waitPodRunning (id : string) : C unit :=
  timeoutDuration ← liftR (wrap "parse pod timeout"
    (of_option "invalid duration" (ParseDuration (k_podTimeout options))));
  Poll (kw_polls w timeoutDuration) (pod_running id).

(** *** Secrets *)

Definition secretExists (secretName : string) : C bool :=
  r ← api_Get (kw_secrets w) namespace secretName;
  mret (match r with inr _ => true | inl _ => false end).
Definition DeleteSecret (secretName : string) : C unit :=
  there ← secretExists secretName;
  if there : bool then api_delete "delete secret: " (api_Delete (kw_secrets w) namespace secretName)
  else mret ().

Definition DaemonConfigKey : string := "daemon_config".
Definition shouldRecreateDaemonConfigSecret (newData secretName : string) : C bool :=
  r ← api_Get (kw_secrets w) namespace secretName;
  mret (match r with
        | inl _ => true
        | inr secret => negb (bool_decide (s_Data secret !! DaemonConfigKey = Some newData))
        end).
Definition daemon_secret (secretName data : string) : Secret := {|
  s_Name := secretName; s_Type := "Opaque"; s_Data := {[ DaemonConfigKey := data ]} |}.
Definition EnsureDaemonConfigSecret (secretName data : string) : C unit :=
  let create := api_call "create daemon config secret: "
                  (api_Create (kw_secrets w) namespace (daemon_secret secretName data)) in
  there ← secretExists secretName;
  if there : bool then
    outdated ← shouldRecreateDaemonConfigSecret data secretName;
    if outdated : bool then _ ← DeleteSecret secretName; create else mret ()
  else create.

Definition DockerConfigJsonKey : string := ".dockerconfigjson".
Definition PreparePullSecretData (registryURL authToken email : string) : result string :=
  wrap "new pull secret" (wrap "marshal docker config"
    (of_sum (kw_marshalAuths w {[ registryURL := (EncodeToString authToken, email) ]}))).
Definition DecodeAuthTokenFromPullSecret (secret : Secret) (host : string) : result string :=
  bytes ← of_option ("could not find " +:+ DockerConfigJsonKey +:+ " in secret data")
            (s_Data secret !! DockerConfigJsonKey);
  auths ← wrap "unmarshal docker config" (of_sum (kw_unmarshalAuths w bytes));
  auth ← of_option ("no auth found for host: " +:+ host) (auths !! host);
  wrap "decode auth token" (of_option "illegal base64 data" (DecodeString auth.1)).
Definition ReadSecretContents (pullSecretName host : string) : C string :=
  secret ← api_call "get secret: " (api_Get (kw_secrets w) namespace pullSecretName);
  liftR (DecodeAuthTokenFromPullSecret secret host).
Definition shouldRecreateSecret (credentials : Credentials) (pullSecretName host : string)
    : C bool :=
  token ← caught (ReadSecretContents pullSecretName host);
  match token with
  | Ok token => mret (negb (bool_decide (token = AuthToken credentials)))
  | Err _ => mret true
  | c => liftR (c ≫= λ _, Err "")
  end.
Definition pull_secret (pullSecretName data : string) : Secret := {|
  s_Name := pullSecretName; s_Type := "kubernetes.io/dockerconfigjson";
  s_Data := {[ DockerConfigJsonKey := data ]} |}.
Definition createPullSecret (pullSecretName : string) (credentials : Credentials) : C unit :=
  data ← liftR (wrap "prepare pull secret data"
    (PreparePullSecretData (cr_ServerURL credentials) (AuthToken credentials) "noreply@loft.sh"));
  api_call "create pull secret: "
    (api_Create (kw_secrets w) namespace (pull_secret pullSecretName data)).

(** The pull secret is there afterwards, or there are no credentials. *)
Definition EnsurePullSecret (pullSecretName dockerImage : string) : C bool :=
  host ← liftR (wrap "get registry from image name"
    (GetRegistryFromImageName (kw_reference w) dockerImage));
  match GetAuthConfig (kw_dockerAuth w) (kw_containersAuth w) host with
  | Ok credentials =>
      if decide (cr_Username credentials = "" ∨ cr_Secret credentials = "") then mret false
      else
        there ← secretExists pullSecretName;
        outdated ← (if there : bool then shouldRecreateSecret credentials pullSecretName host
                    else mret true);
        if outdated : bool then
          _ ← (if there : bool then DeleteSecret pullSecretName else mret ());
          _ ← createPullSecret pullSecretName credentials;
          mret true
        else mret true
  | _ => mret false
  end.

(** *** serviceaccount.go *)

(** The object is created unless it is there; somebody else may create it in
    between. *)
Definition ensure {A} (what : string) (api : resource_api E A) (name : string) (a : A) : C unit :=
  r ← api_Get api namespace name;
  match r with
  | inr _ => mret ()
  | inl NotFound =>
      r ← api_Create api namespace a;
      match r with
      | inr _ | inl AlreadyExists => mret ()
      | inl e => throw ("create " +:+ what +:+ ": " +:+ api_text e)
      end
  | inl e => throw ("get " +:+ what +:+ ": " +:+ api_text e)
  end.
Definition createServiceAccount (id serviceAccount : string) : C unit :=
  _ ← ensure "service account" (kw_serviceAccounts w) serviceAccount
        {| sa_Name := serviceAccount; sa_Labels := ExtraDevPodLabels |};
  if decide (k_clusterRole options ≠ "") then
    ensure "role binding" (kw_roleBindings w) id
      {| rb_Name := id; rb_Labels := ExtraDevPodLabels; rb_Subject := serviceAccount;
         rb_Role := k_clusterRole options |}
  else mret ().

Definition createNamespace : C unit :=
  e ← kw_getNamespace w namespace;
  match e with
  | Some NotFound | Some Forbidden =>
      e ← kw_createNamespace w namespace;
      match e with
      | None | Some AlreadyExists | Some Forbidden => mret ()
      | Some e => throw ("create namespace: " +:+ api_text e)
      end
  | _ => mret ()
  end.

(** *** pvc.go *)

Definition access_mode (mode : string) : string :=
  if decide (mode = "ROX") then "ReadOnlyMany"
  else if decide (mode = "RWX") then "ReadWriteMany"
  else if decide (mode = "RWOP") then "ReadWriteOncePod" else "ReadWriteOnce".
Definition getDevContainerInformation (id : string) (ro : RunOptions) : result string :=
  of_sum (kw_marshalInfo w {| di_WorkspaceID := id; di_Options := Some ro |}).
(** Extra annotations that cannot be parsed are logged. *)
Definition buildPersistentVolumeClaim (id : string) (ro : RunOptions) : result Claim :=
  containerInfo ← getDevContainerInformation id ro;
  quantity ← wrap ("parse persistent volume size '" +:+ k_diskSize options +:+ "'")
               (of_sum (kw_quantity w (k_diskSize options)));
  Ok {| cl_Name := id;
        cl_Labels := ExtraDevPodLabels ∪ {[ DevPodWorkspaceUIDLabel := ro_UID ro ]};
        cl_Annotations := match parseLabels (k_pvcAnnotations options) with
                          | Ok extra => extra
                          | _ => ∅
                          end ∪ {[ DevPodInfoAnnotation := containerInfo ]};
        cl_Created := ""; cl_Deleted := None;
        cl_AccessModes := [access_mode (k_pvcAccessMode options)];
        cl_Storage := quantity;
        cl_StorageClassName := if decide (k_storageClass options ≠ "")
                               then Some (k_storageClass options) else None |}.
Definition createPersistentVolumeClaim (id : string) (ro : RunOptions) : C unit :=
  pvc ← liftR (buildPersistentVolumeClaim id ro);
  api_call "create pvc: " (api_Create (kw_claims w) namespace pvc).

(** *** run.go *)

Definition template_error {A} (inline_ file : string) : result A :=
  Err ("parsing pod tempate failed failed: " +:+ inline_ +:+ " (inline) or " +:+ file +:+
       " (file)").
Definition getPodTemplate (manifest : string) : C Pod :=
  match kw_template w manifest with
  | inr pod => mret pod
  | inl errInline =>
      match hs_Abs (kw_sys w) manifest with
      | inl e => liftR (template_error errInline e)
      | inr p =>
          body ← caught (ReadFile (kw_sys w) p);
          match body with
          | Ok body =>
              liftR (match kw_template w body with
                     | inr pod => Ok pod
                     | inl e => template_error errInline e
                     end)
          | Err e => liftR (template_error errInline e)
          | c => liftR (c ≫= λ _, Err "")
          end
      end
  end.

(** The pod with everything but its annotations. *)
Definition strict : bool := bool_decide (k_strictSecurity options = "true").
Definition pod_resources (containers : list PodContainer) : ResourceRequirements :=
  if decide (k_resources options ≠ "") then parseResources (kw_quantity w) (k_resources options)
  else match containers with c :: _ => c_Resources c | [] => no_resources end.
Definition pod_manifest (template : Pod) (id : string) (ro : RunOptions) (mount : Mount)
    (initialize : bool) (labels nodeSelector : gmap string string)
    (daemonSecret : string) (pullSecret : bool) : Pod :=
  let spec := p_Spec template in {|
  p_Name := id;
  p_Labels := <[DevPodWorkspaceUIDLabel := ro_UID ro]> labels;
  p_Annotations := p_Annotations template;
  p_Created := p_Created template; p_Deleted := p_Deleted template;
  p_Spec := {|
    ps_ServiceAccountName := k_serviceAccount options;
    ps_NodeSelector := nodeSelector;
    ps_InitContainers := getInitContainers strict ro (ps_InitContainers spec) initialize;
    ps_Containers := getContainers (ps_Containers spec) ro
      (env_vars (hs_range (kw_sys w) (ro_Env ro)))
      (volume_mounts mount (ro_Mounts ro)) (add_capabilities (ro_CapAdd ro))
      (pod_resources (ps_Containers spec)) strict daemonSecret;
    ps_Volumes := getVolumes (ps_Volumes spec) id daemonSecret;
    ps_SecurityContext := match ps_SecurityContext spec with
                          | None => Some (inl ()) | c => c end;
    ps_ImagePullSecrets := if pullSecret then [getPullSecretsName id]
                           else ps_ImagePullSecrets spec;
    ps_RestartPolicy := "Never"; ps_rest := ps_rest spec |};
  p_Status := p_Status template |}.

Definition annotated (pod : Pod) (lastApplied : string) : Pod := {|
  p_Name := p_Name pod; p_Labels := p_Labels pod;
  p_Annotations := <[ClusterAutoscalerSaveToEvictAnnotation := "false"]>
    (<[DevPodLastAppliedAnnotation := lastApplied]> (p_Annotations pod));
  p_Created := p_Created pod; p_Deleted := p_Deleted pod; p_Spec := p_Spec pod;
  p_Status := p_Status pod |}.
Definition runPod (id : string) (pod : Pod) : C unit :=
  lastApplied ← liftR (wrap "marshal last applied config" (of_sum (kw_marshalOptions w options)));
  _ ← api_call "create pod: " (api_Create (kw_pods w) namespace (annotated pod lastApplied));
  waitPodRunning id.

(** A pod that was made with the same options is left as it is. *)
Definition replace_pod (id : string) (pod : Pod) : C unit :=
  existingPod ← caught (getPod id);
  existingPod ← liftR (wrap ("get pod: " +:+ id) existingPod);
  match existingPod with
  | None => runPod id pod
  | Some existing =>
      let existingOptions := kw_unmarshalOptions w
        (default "" (p_Annotations existing !! DevPodLastAppliedAnnotation)) in
      if optionsEqual existingOptions options then mret ()
      else
        deleted ← caught (waitPodDeleted id);
        _ ← liftR (wrap ("stop devcontainer: " +:+ id) deleted);
        runPod id pod
  end.

Definition runContainer (id : string) (ro : option RunOptions) (initialize : bool) : C unit :=
  ro ← liftR (deref ro);
  mount ← liftR (deref (ro_WorkspaceMount ro));
  if decide (mount_target mount = "") then throw "workspace mount target is empty"
  else
    let mount := workspace_mount (k_workspaceVolumeMount options) mount in
    template ← (if decide (k_podManifestTemplate options = "") then mret empty_pod
                else getPodTemplate (k_podManifestTemplate options));
    let daemonConfig := default "" (ro_Env ro !! WorkspaceDaemonConfigExtraEnvVar) in
    _ ← (if decide (k_serviceAccount options ≠ "") then
           account ← caught (createServiceAccount id (k_serviceAccount options));
           liftR (wrap "create service account" account)
         else mret ());
    labels ← liftR (getLabels (p_Labels template) (k_labels options));
    nodeSelector ← liftR (getNodeSelector (ps_NodeSelector (p_Spec template))
                            (k_nodeSelector options));
    let daemonSecret := if decide (daemonConfig ≠ "") then getDaemonSecretName id else "" in
    _ ← (if decide (daemonConfig ≠ "") then EnsureDaemonConfigSecret daemonSecret daemonConfig
         else mret ());
    pullSecret ← (if decide (k_kubernetesPullSecretsEnabled options = "true")
                  then EnsurePullSecret (getPullSecretsName id) (ro_Image ro)
                  else mret false);
    replace_pod id (pod_manifest template id ro mount initialize labels nodeSelector
                      daemonSecret pullSecret).

(** *** driver.go *)

(** [NewKubernetesDriver]: the namespace of the kube config is used unless it
    is the default one or the provider names one. *)
Definition kube_namespace (configured : string) : string :=
  if decide (configured = "" ∨ configured = "default" ∨ k_kubernetesNamespace options ≠ "")
  then k_kubernetesNamespace options else configured.

Definition getDevContainerPvc (id : string) : C (option (Claim * DevContainerInfo)) :=
  r ← api_Get (kw_claims w) namespace id;
  match r with
  | inl NotFound => mret None
  | inl e => throw (api_text e)
  | inr pvc =>
      let annotation := default "" (cl_Annotations pvc !! DevPodInfoAnnotation) in
      if decide (annotation = "") then throw "pvc is missing dev container info annotation"
      else
        info ← liftR (wrap "decode dev container info" (of_sum (kw_unmarshalInfo w annotation)));
        mret (Some (pvc, info))
  end.

Definition kube_Run (workspaceId : string) (ro : option RunOptions) : C unit :=
  let id := getID workspaceId in
  _ ← (if decide (namespace ≠ "" ∧ k_createNamespace options = "true") then createNamespace
       else mret ());
  found ← getDevContainerPvc id;
  match found with
  | None =>
      match ro with
      | None => throw ("no options provided and no persistent volume claim found for workspace '"
                       +:+ id +:+ "'")
      | Some o => _ ← createPersistentVolumeClaim id o; runContainer id ro true
      end
  | Some (_, info) =>
      runContainer id (match ro with Some o => Some o | None => di_Options info end) false
  end.

Definition kube_Start (workspaceId : string) : C unit :=
  let id := getID workspaceId in
  found ← getDevContainerPvc id;
  match found with
  | None => throw ("persistent volume '" +:+ id +:+ "' not found")
  | Some (_, info) => runContainer id (di_Options info) false
  end.

Definition kube_Stop (workspaceId : string) : C unit :=
  deleted ← caught (waitPodDeleted (getID workspaceId));
  liftR (wrap "delete pod" deleted).

Definition kube_Delete (workspaceId : string) : C unit :=
  let id := getID workspaceId in
  _ ← waitPodDeleted id;
  _ ← api_delete "delete pvc: " (api_Delete (kw_claims w) namespace id);
  _ ← (if decide (k_clusterRole options ≠ "")
       then api_delete "delete role binding: " (api_Delete (kw_roleBindings w) namespace id)
       else mret ());
  there ← secretExists (getDaemonSecretName id);
  _ ← (if there : bool then DeleteSecret (getDaemonSecretName id) else mret ());
  if decide (k_kubernetesPullSecretsEnabled options ≠ "")
  then DeleteSecret (getPullSecretsName id) else mret ().

Definition kube_Command (workspaceId user command : string) (stdin : option string) : C string :=
  let args := if decide (user ≠ "" ∧ user ≠ "root") then ["su"; user; "-c"; command]
              else ["sh"; "-c"; command] in
  kw_exec w namespace (getID workspaceId) "devpod" args stdin.
Definition kube_Logs (workspaceID : string) : C string :=
  logs ← caught (kw_logs w namespace (getID workspaceID) "devpod");
  liftR (wrap "get logs" logs).

(** *** find.go *)

Definition isPodRunning (pod : Pod) : bool := bool_decide (pst_Phase (p_Status pod) = "Running").
(** An error of finding the pod is logged. *)
Definition kube_Find (workspaceId : string) : C (option ContainerDetails) :=
  found ← getDevContainerPvc (getID workspaceId);
  match found with
  | None => mret None
  | Some (pvc, info) =>
      pod ← caught (getPod (cl_Name pvc));
      let pod := match pod with Ok p => p | _ => None end in
      ro ← liftR (deref (di_Options info));
      mret (Some {|
        cd_ID := cl_Name pvc; cd_Created := cl_Created pvc;
        cd_Status := match pod with
                     | Some p => if isPodRunning p then "running" else "exited"
                     | None => "exited" end;
        cd_StartedAt := match pod with Some p => p_Created p | None => cl_Created pvc end;
        cd_Labels := ListToObject (ro_Labels ro);
        cd_WorkingDir := ""; cd_LegacyUser := "" |})
  end.

(** *** target_architecture.go *)

Fixpoint same_architecture (architecture : string) (nodes : list string) : result string :=
  match nodes with
  | [] => Ok architecture
  | n :: nodes' =>
      if decide (architecture = "") then same_architecture n nodes'
      else if decide (architecture = n) then same_architecture architecture nodes'
      else Err ("mixed architectures in the Kubernetes cluster, please set the cluster " +:+
                "architecture manually via provider options")
  end.
Definition kube_TargetArchitecture (workspaceId : string) : C string :=
  if decide (k_architecture options ≠ "") then mret (k_architecture options)
  else
    r ← kw_nodes w;
    match r with
    | inl Forbidden =>
        throw ("you don't have permission to list nodes in the Kubernetes cluster, please " +:+
               "set the cluster architecture manually via provider options")
    | inl e => throw ("list nodes: " +:+ api_text e)
    | inr nodes => liftR (same_architecture "" nodes)
    end.

Definition kubernetes_driver : Driver E := {|
  FindDevContainer := kube_Find; CommandDevContainer := kube_Command;
  RunDevContainer := kube_Run; TargetArchitecture := kube_TargetArchitecture;
  DeleteDevContainer := kube_Delete; StartDevContainer := kube_Start;
  StopDevContainer := kube_Stop; GetDevContainerLogs := kube_Logs;
  Reprovisions := Some true; AsDocker := None |}.
End Driver.
