(* ===== verification/KubernetesProps.v ===== *)
(** * Properties of the kubernetes driver

    A cluster seen as its pods, claims and secrets ([cluster]), what the API
    server documents about its calls ([ClusterOk]), and on top of it: the driver
    touches the objects of its workspace only, what each operation leaves behind,
    and what the pod of a workspace looks like. *)

From S2P Require Import Prelude GoStrings Types Config DevContainer Substitute Lifecycle Provider Options Clients Driver Kubernetes.
From stdpp Require Import base gmap list strings pretty.
From Stdlib Require Import ZArith Lia.

Local Open Scope string_scope.
Local Open Scope list_scope.

(** ** The cluster *)

(** Objects have a namespace and a name. *)
Notation key := (string * string)%type.
Record cluster := Cluster {
  c_pods : gmap key Pod;
  c_claims : gmap key Claim;
  c_secrets : gmap key Secret;
}.
Class ClusterView (E : Type) := view : E → cluster.
Notation viewed h := (view (h_eng h)).

(** A kind of object: where it is in the cluster, and what the server may
    change of an object that is created or that is being deleted. *)
Record kind (A : Type) := {
  k_get : cluster → gmap key A;
  k_set : gmap key A → cluster → cluster;
  k_name : A → string;
  k_stored : A → A → Prop;
  k_deleting : A → A → Prop;
}.
Arguments k_get {_}.
Arguments k_set {_}.
Arguments k_name {_}.
Arguments k_stored {_}.
Arguments k_deleting {_}.

(** The server may add labels and annotations, defaults and a status. *)
Definition pods : kind Pod := {|
  k_get := c_pods; k_set := λ m c, Cluster m (c_claims c) (c_secrets c); k_name := p_Name;
  k_stored := λ p q, p_Name q = p_Name p ∧ p_Labels p ⊆ p_Labels q ∧
                     p_Annotations p ⊆ p_Annotations q ∧ p_Deleted q = None;
  k_deleting := λ p q, p_Annotations q = p_Annotations p ∧ is_Some (p_Deleted q) |}.
Definition claims : kind Claim := {|
  k_get := c_claims; k_set := λ m c, Cluster (c_pods c) m (c_secrets c); k_name := cl_Name;
  k_stored := λ p q, cl_Name q = cl_Name p ∧ cl_Labels p ⊆ cl_Labels q ∧
                     cl_Annotations p ⊆ cl_Annotations q ∧ cl_Deleted q = None;
  k_deleting := λ p q, cl_Annotations q = cl_Annotations p ∧ is_Some (cl_Deleted q) |}.
Definition secrets : kind Secret := {|
  k_get := c_secrets; k_set := λ m c, Cluster (c_pods c) (c_claims c) m; k_name := s_Name;
  k_stored := λ p q, q = p; k_deleting := λ p q, False |}.

(** What time does: statuses change, and an object that is being deleted
    goes away.  Nobody else works on the namespace. *)
Definition pod_later (o o' : option Pod) : Prop :=
  match o, o' with
  | None, None => True
  | Some p, Some p' => p_Name p' = p_Name p ∧ p_Labels p' = p_Labels p ∧
      p_Annotations p' = p_Annotations p ∧ p_Spec p' = p_Spec p ∧ p_Deleted p' = p_Deleted p
  | Some p, None => is_Some (p_Deleted p)
  | None, Some _ => False
  end.
Definition claim_later (o o' : option Claim) : Prop :=
  o' = o ∨ (o' = None ∧ ∃ c, o = Some c ∧ is_Some (cl_Deleted c)).

Record later (c c' : cluster) : Prop := Later {
  later_pods : ∀ k, pod_later (c_pods c !! k) (c_pods c' !! k);
  later_claims : ∀ k, claim_later (c_claims c !! k) (c_claims c' !! k);
  later_secrets : c_secrets c' = c_secrets c;
}.

#[export] Instance pod_later_preorder : PreOrder pod_later.
Proof.
  split; [by intros [p|]|]. intros [p|] [q|] [r|]; cbn; try done.
  - intros (H1 & H2 & H3 & H4 & H5) (G1 & G2 & G3 & G4 & G5). split_and!; congruence.
  - intros (H1 & H2 & H3 & H4 & H5) H. by rewrite <- H5.
Qed.
#[export] Instance claim_later_preorder : PreOrder claim_later.
Proof.
  split; [by left|]. intros o1 o2 o3 [->|[-> H]] [->|[-> H']]; try (by left); try (by right).
Qed.

(** What is documented of the calls for one kind of object. *)
Section Api.
Context {E A : Type} `{!ClusterView E} (api : resource_api E A) (k : kind A).

Record api_ok : Prop := {
  get_ok : ∀ ns n h, ∃ r, api_Get api ns n h = (Ok r, h) ∧
    match r with
    | inr a => k_get k (viewed h) !! (ns, n) = Some a
    | inl NotFound => k_get k (viewed h) !! (ns, n) = None
    | inl _ => True
    end;
  create_ok : ∀ ns a h, ∃ r h', api_Create api ns a h = (Ok r, h') ∧
    match r with
    | inr _ => k_get k (viewed h) !! (ns, k_name k a) = None ∧ ∃ a', k_stored k a a' ∧
        viewed h' = k_set k (<[(ns, k_name k a) := a']> (k_get k (viewed h))) (viewed h)
    | inl _ => viewed h' = viewed h
    end;
  delete_ok : ∀ ns n h, ∃ r h', api_Delete api ns n h = (Ok r, h') ∧
    match r with
    | inr _ => ∃ o, viewed h' = k_set k (partial_alter (λ _, o) (ns, n) (k_get k (viewed h))) (viewed h) ∧
        match o with
        | None => True
        | Some a' => ∃ a, k_get k (viewed h) !! (ns, n) = Some a ∧ k_deleting k a a'
        end
    | inl NotFound => viewed h' = viewed h ∧ k_get k (viewed h) !! (ns, n) = None
    | inl _ => viewed h' = viewed h
    end;
}.
End Api.

Definition same_view {E} `{!ClusterView E} (h h' : host E) : Prop := viewed h' = viewed h.

Class ClusterOk {E} `{!ClusterView E} (w : kube_world E) : Prop := {
  pods_ok : api_ok (kw_pods w) pods;
  claims_ok : api_ok (kw_claims w) claims;
  secrets_ok : api_ok (kw_secrets w) secrets;
  tick_ok : ∀ h, ∃ h', kw_tick w h = (Ok (), h') ∧ later (viewed h) (viewed h');
  (** the other calls concern none of these objects *)
  getAccount_ok : ∀ ns n, stays same_view (api_Get (kw_serviceAccounts w) ns n);
  createAccount_ok : ∀ ns a, stays same_view (api_Create (kw_serviceAccounts w) ns a);
  getBinding_ok : ∀ ns n, stays same_view (api_Get (kw_roleBindings w) ns n);
  createBinding_ok : ∀ ns a, stays same_view (api_Create (kw_roleBindings w) ns a);
  deleteBinding_ok : ∀ ns n, stays same_view (api_Delete (kw_roleBindings w) ns n);
  getNamespace_ok : ∀ ns, stays same_view (kw_getNamespace w ns);
  createNamespace_ok : ∀ ns, stays same_view (kw_createNamespace w ns);
  nodes_ok : stays same_view (kw_nodes w);
  logs_ok : ∀ ns n c, stays same_view (kw_logs w ns n c);
  (** a command in a container may do something to its own pod, such as end it *)
  exec_ok : ∀ ns n c args stdin h,
    let before := viewed h in
    let after := viewed (kw_exec w ns n c args stdin h).2 in
    (∀ k, k ≠ (ns, n) → pod_later (c_pods before !! k) (c_pods after !! k)) ∧
    (∀ k, claim_later (c_claims before !! k) (c_claims after !! k)) ∧
    c_secrets after = c_secrets before;
}.

(** ** Only the objects of the workspace *)

Section Frame.
Context {E : Type} `{!ClusterView E} (w : kube_world E) `{!ClusterOk w}.
Context (namespace : string) (options : ProviderKubernetesDriverConfig).
Notation C := (M (host E)).

Definition own_secrets (id : string) : list string :=
  [getPullSecretsName id; getDaemonSecretName id].

(** The names of the objects that an operation may change.  The objects of
    other names change only with time. *)
Record footprint := Footprint {
  fp_pod : string → Prop;
  fp_claim : string → Prop;
  fp_secret : string → Prop;
}.
Record concerns (fp : footprint) (h h' : host E) : Prop := Concerns {
  other_pods : ∀ k, (k.1 = namespace → ¬ fp_pod fp k.2) →
    pod_later (c_pods (viewed h) !! k) (c_pods (viewed h') !! k);
  other_claims : ∀ k, (k.1 = namespace → ¬ fp_claim fp k.2) →
    claim_later (c_claims (viewed h) !! k) (c_claims (viewed h') !! k);
  other_secrets : ∀ k, (k.1 = namespace → ¬ fp_secret fp k.2) →
    c_secrets (viewed h') !! k = c_secrets (viewed h) !! k;
}.
Definition none : string → Prop := λ _, False.
Definition own (id : string) : footprint := Footprint (eq id) (eq id) (λ n, n ∈ own_secrets id).
Definition own_run (id : string) : footprint := Footprint (eq id) none (λ n, n ∈ own_secrets id).
Definition own_claim (id : string) : footprint := Footprint none (eq id) none.
Definition own_pod (id : string) : footprint := Footprint (eq id) none none.

#[export] Instance concerns_preorder fp : PreOrder (concerns fp).
Proof.
  split.
  - intros h. split; intros k _; [reflexivity..|done].
  - intros a b c [P1 C1 S1] [P2 C2 S2]. split; intros k Hk.
    + etrans; [by apply P1|by apply P2].
    + etrans; [by apply C1|by apply C2].
    + by rewrite S2, S1.
Qed.

Lemma view_concerns fp h h' : viewed h' = viewed h → concerns fp h h'.
Proof. intros Hv. split; intros k Hk; by rewrite Hv. Qed.
Lemma same_concerns fp {A} (c : C A) : stays same_view c → stays (concerns fp) c.
Proof. intros Hc h. apply view_concerns, Hc. Qed.
Lemma later_concerns fp h h' : later (viewed h) (viewed h') → concerns fp h h'.
Proof. intros [Hp Hc Hs]. split; intros k Hk; [done..|by rewrite Hs]. Qed.

Lemma get_concerns {A} (api : resource_api E A) k ns n fp :
  api_ok api k → stays (concerns fp) (api_Get api ns n).
Proof. intros H h. destruct (get_ok _ _ H ns n h) as (r & -> & _). reflexivity. Qed.
Lemma tick_concerns fp : stays (concerns fp) (kw_tick w).
Proof. intros h. destruct (tick_ok h) as (h' & -> & Hl). by apply later_concerns. Qed.

(** Creating and deleting an object changes the entry of its name. *)
Definition alters {A} (k : kind A) (n : string) (h h' : host E) : Prop :=
  ∃ o, viewed h' = k_set k (partial_alter (λ _, o) (namespace, n) (k_get k (viewed h))) (viewed h).
Lemma create_alters {A} (api : resource_api E A) k a h : api_ok api k →
  viewed (api_Create api namespace a h).2 = viewed h ∨
  alters k (k_name k a) h (api_Create api namespace a h).2.
Proof.
  intros H. destruct (create_ok _ _ H namespace a h) as ([e|u] & h' & -> & Hr); [by left|].
  destruct Hr as (_ & a' & _ & Hv). right. by exists (Some a').
Qed.
Lemma delete_alters {A} (api : resource_api E A) k n h : api_ok api k →
  viewed (api_Delete api namespace n h).2 = viewed h ∨
  alters k n h (api_Delete api namespace n h).2.
Proof.
  intros H. destruct (delete_ok _ _ H namespace n h) as ([e|u] & h' & -> & Hr).
  - left. by destruct e; [destruct Hr|..].
  - destruct Hr as (o & Hv & _). right. by exists o.
Qed.
Lemma altered {A} (m : gmap key A) o n k : (k.1 = namespace → k.2 ≠ n) →
  partial_alter (λ _, o) (namespace, n) m !! k = m !! k.
Proof.
  intros Hk. apply lookup_partial_alter_ne. intros <-. by apply Hk.
Qed.
Lemma alters_pod fp n h h' : fp_pod fp n → alters pods n h h' → concerns fp h h'.
Proof.
  intros Hn [o Hv]. split; intros k Hk; rewrite Hv; cbn; [|reflexivity..].
  by rewrite altered by (intros H1 H2; apply (Hk H1); by rewrite H2).
Qed.
Lemma alters_claim fp n h h' : fp_claim fp n → alters claims n h h' → concerns fp h h'.
Proof.
  intros Hn [o Hv]. split; intros k Hk; rewrite Hv; cbn; [reflexivity| |reflexivity].
  by rewrite altered by (intros H1 H2; apply (Hk H1); by rewrite H2).
Qed.
Lemma alters_secret fp n h h' : fp_secret fp n → alters secrets n h h' → concerns fp h h'.
Proof.
  intros Hn [o Hv]. split; intros k Hk; rewrite Hv; cbn; [reflexivity..|].
  by rewrite altered by (intros H1 H2; apply (Hk H1); by rewrite H2).
Qed.

Lemma create_pod_concerns fp p : fp_pod fp (p_Name p) →
  stays (concerns fp) (api_Create (kw_pods w) namespace p).
Proof.
  intros Hn h. destruct (create_alters _ _ p h pods_ok);
    [by apply view_concerns|by eapply alters_pod].
Qed.
Lemma delete_pod_concerns fp n : fp_pod fp n →
  stays (concerns fp) (api_Delete (kw_pods w) namespace n).
Proof.
  intros Hn h. destruct (delete_alters _ _ n h pods_ok);
    [by apply view_concerns|by eapply alters_pod].
Qed.
Lemma create_claim_concerns fp c : fp_claim fp (cl_Name c) →
  stays (concerns fp) (api_Create (kw_claims w) namespace c).
Proof.
  intros Hn h. destruct (create_alters _ _ c h claims_ok);
    [by apply view_concerns|by eapply alters_claim].
Qed.
Lemma delete_claim_concerns fp n : fp_claim fp n →
  stays (concerns fp) (api_Delete (kw_claims w) namespace n).
Proof.
  intros Hn h. destruct (delete_alters _ _ n h claims_ok);
    [by apply view_concerns|by eapply alters_claim].
Qed.
Lemma create_secret_concerns fp s : fp_secret fp (s_Name s) →
  stays (concerns fp) (api_Create (kw_secrets w) namespace s).
Proof.
  intros Hs h. destruct (create_alters _ _ s h secrets_ok);
    [by apply view_concerns|by eapply alters_secret].
Qed.
Lemma delete_secret_concerns fp n : fp_secret fp n →
  stays (concerns fp) (api_Delete (kw_secrets w) namespace n).
Proof.
  intros Hs h. destruct (delete_alters _ _ n h secrets_ok);
    [by apply view_concerns|by eapply alters_secret].
Qed.
Lemma get_pods_concerns ns n fp : stays (concerns fp) (api_Get (kw_pods w) ns n).
Proof. apply (get_concerns _ pods), pods_ok. Qed.
Lemma get_claims_concerns ns n fp : stays (concerns fp) (api_Get (kw_claims w) ns n).
Proof. apply (get_concerns _ claims), claims_ok. Qed.
Lemma get_secrets_concerns ns n fp : stays (concerns fp) (api_Get (kw_secrets w) ns n).
Proof. apply (get_concerns _ secrets), secrets_ok. Qed.
#[local] Hint Resolve tick_concerns create_pod_concerns delete_pod_concerns
  create_claim_concerns delete_claim_concerns create_secret_concerns delete_secret_concerns
  get_pods_concerns get_claims_concerns get_secrets_concerns : stays.
#[local] Hint Resolve getAccount_ok createAccount_ok getBinding_ok createBinding_ok
  deleteBinding_ok getNamespace_ok createNamespace_ok nodes_ok logs_ok : stays.
#[local] Hint Extern 5 (stays (concerns _) _) => apply same_concerns : stays.
#[local] Hint Extern 3 (fp_pod _ _) => assumption : stays.
#[local] Hint Extern 3 (fp_claim _ _) => assumption : stays.
#[local] Hint Extern 3 (fp_secret _ _) => assumption : stays.

Lemma Poll_concerns fp n cond : stays (concerns fp) cond → stays (concerns fp) (Poll w n cond).
Proof. intros Hc. induction n as [|n IH]; cbn [Poll]; stays. Qed.
#[local] Hint Resolve Poll_concerns : stays.
Lemma getPod_concerns fp n : stays (concerns fp) (getPod w namespace n).
Proof. unfold getPod. stays. Qed.
Lemma pod_gone_concerns fp n : stays (concerns fp) (pod_gone w namespace n).
Proof. unfold pod_gone. stays. Qed.
#[local] Hint Resolve getPod_concerns pod_gone_concerns : stays.
Lemma waitPodDeleted_concerns fp id : fp_pod fp id → stays (concerns fp) (waitPodDeleted w namespace id).
Proof. unfold waitPodDeleted. stays. Qed.
#[local] Hint Resolve waitPodDeleted_concerns : stays.
Lemma pod_running_concerns fp id : fp_pod fp id → stays (concerns fp) (pod_running w namespace id).
Proof. unfold pod_running. stays. Qed.
#[local] Hint Resolve pod_running_concerns : stays.
Lemma waitPodRunning_concerns fp id : fp_pod fp id → stays (concerns fp) (waitPodRunning w namespace options id).
Proof. unfold waitPodRunning. stays. Qed.
Lemma secretExists_concerns fp n : stays (concerns fp) (secretExists w namespace n).
Proof. unfold secretExists. stays. Qed.
Lemma api_call_concerns {A} fp what (c : C (api_error + A)) :
  stays (concerns fp) c → stays (concerns fp) (api_call what c).
Proof. unfold api_call. stays. Qed.
Lemma api_delete_concerns fp what (c : C (api_error + unit)) :
  stays (concerns fp) c → stays (concerns fp) (api_delete what c).
Proof. unfold api_delete. stays. Qed.
#[local] Hint Resolve waitPodRunning_concerns secretExists_concerns api_call_concerns
  api_delete_concerns : stays.
Lemma DeleteSecret_concerns fp n : fp_secret fp n →
  stays (concerns fp) (DeleteSecret w namespace n).
Proof. unfold DeleteSecret. stays. Qed.
#[local] Hint Resolve DeleteSecret_concerns : stays.
Lemma EnsureDaemonConfigSecret_concerns fp n data : fp_secret fp n →
  stays (concerns fp) (EnsureDaemonConfigSecret w namespace n data).
Proof. unfold EnsureDaemonConfigSecret, shouldRecreateDaemonConfigSecret. stays. Qed.
Lemma ReadSecretContents_concerns fp n host :
  stays (concerns fp) (ReadSecretContents w namespace n host).
Proof. unfold ReadSecretContents. stays. Qed.
#[local] Hint Resolve ReadSecretContents_concerns : stays.
Lemma shouldRecreateSecret_concerns fp c n host :
  stays (concerns fp) (shouldRecreateSecret w namespace c n host).
Proof. unfold shouldRecreateSecret. stays. Qed.
Lemma createPullSecret_concerns fp n c : fp_secret fp n →
  stays (concerns fp) (createPullSecret w namespace n c).
Proof. unfold createPullSecret. stays. Qed.
#[local] Hint Resolve shouldRecreateSecret_concerns createPullSecret_concerns : stays.
Lemma EnsurePullSecret_concerns fp n image : fp_secret fp n →
  stays (concerns fp) (EnsurePullSecret w namespace n image).
Proof. unfold EnsurePullSecret. stays. Qed.
Lemma createServiceAccount_concerns fp id account :
  stays (concerns fp) (createServiceAccount w namespace options id account).
Proof. unfold createServiceAccount, ensure. stays. Qed.
Lemma createNamespace_concerns fp : stays (concerns fp) (createNamespace w namespace).
Proof. unfold createNamespace. stays. Qed.
Lemma ReadFile_concerns fp hs path : stays (concerns fp) (ReadFile hs path).
Proof. unfold ReadFile. stays. Qed.
#[local] Hint Resolve ReadFile_concerns : stays.
Lemma getPodTemplate_concerns fp m : stays (concerns fp) (getPodTemplate w m).
Proof. unfold getPodTemplate. stays. Qed.
#[local] Hint Resolve EnsureDaemonConfigSecret_concerns EnsurePullSecret_concerns
  createServiceAccount_concerns createNamespace_concerns getPodTemplate_concerns : stays.
Lemma runPod_concerns fp id pod : fp_pod fp id → fp_pod fp (p_Name pod) →
  stays (concerns fp) (runPod w namespace options id pod).
Proof. unfold runPod. stays. Qed.
#[local] Hint Resolve runPod_concerns : stays.
Lemma replace_pod_concerns fp id pod : fp_pod fp id → fp_pod fp (p_Name pod) →
  stays (concerns fp) (replace_pod w namespace options id pod).
Proof. unfold replace_pod. stays. Qed.
#[local] Hint Resolve replace_pod_concerns : stays.
Lemma runContainer_concerns fp id ro i : fp_pod fp id →
  fp_secret fp (getPullSecretsName id) → fp_secret fp (getDaemonSecretName id) →
  stays (concerns fp) (runContainer w namespace options id ro i).
Proof. unfold runContainer. stays. Qed.
Lemma createClaim_concerns fp id ro : fp_claim fp id →
  stays (concerns fp) (createPersistentVolumeClaim w namespace options id ro).
Proof.
  unfold createPersistentVolumeClaim. intros Hid h. unfold mbind, M_bind, liftR.
  destruct (buildPersistentVolumeClaim w options id ro) as [c|e| |] eqn:Hc; try reflexivity.
  apply api_call_concerns, create_claim_concerns.
  unfold buildPersistentVolumeClaim in Hc. inv_ok. by simplify_eq.
Qed.
Lemma getDevContainerPvc_concerns fp n : stays (concerns fp) (getDevContainerPvc w namespace n).
Proof. unfold getDevContainerPvc. stays. Qed.
#[local] Hint Resolve runContainer_concerns createClaim_concerns getDevContainerPvc_concerns : stays.

Lemma own_secret_pull id : fp_secret (own id) (getPullSecretsName id).
Proof. left. Qed.
Lemma own_secret_daemon id : fp_secret (own id) (getDaemonSecretName id).
Proof. right. left. Qed.
#[local] Hint Extern 3 (fp_pod _ _) => reflexivity : stays.
#[local] Hint Extern 3 (fp_claim _ _) => reflexivity : stays.
#[local] Hint Extern 3 (fp_secret _ _) =>
  (reflexivity || apply own_secret_pull || apply own_secret_daemon) : stays.

Lemma kube_Command_own id user command stdin :
  stays (concerns (own (getID id))) (kube_Command w namespace id user command stdin).
Proof.
  intros h. unfold kube_Command. destruct (exec_ok namespace (getID id) "devpod"
    (if decide (user ≠ "" ∧ user ≠ "root") then ["su"; user; "-c"; command] else ["sh"; "-c"; command])
    stdin h) as (Hp & Hc & Hs).
  split; intros k Hk; [|apply Hc|by rewrite Hs].
  apply Hp. intros ->. by apply Hk.
Qed.

(** C10: The driver touches the objects of its workspace only.  Whatever an
    operation on workspace [id] does and whether it fails, the pods and claims of
    other names and the secrets of other workspaces are left to time, and the
    names of different workspaces are different; a command in the container of the
    workspace, and reading its logs, included. *)
Theorem kubernetes_isolates id ro user command stdin :
  let of_workspace := concerns (own (getID id)) in
  stays of_workspace (kube_Find w namespace id) ∧
  stays of_workspace (kube_Run w namespace options id ro) ∧
  stays of_workspace (kube_Start w namespace options id) ∧
  stays of_workspace (kube_Stop w namespace id) ∧
  stays of_workspace (kube_Delete w namespace options id) ∧
  stays of_workspace (kube_TargetArchitecture w options id) ∧
  stays of_workspace (kube_Command w namespace id user command stdin) ∧
  stays of_workspace (kube_Logs w namespace id) ∧
  ∀ id', id' ≠ id → getID id' ≠ getID id ∧
    ∀ n, n ∈ own_secrets (getID id') → n ∉ own_secrets (getID id).
Proof.
  intros R. unfold R. split_and!.
  - unfold kube_Find. stays.
  - unfold kube_Run. stays.
  - unfold kube_Start. stays.
  - unfold kube_Stop. stays.
  - unfold kube_Delete. stays.
  - unfold kube_TargetArchitecture. stays.
  - apply kube_Command_own.
  - unfold kube_Logs. stays.
  - intros id' Hne. split; [by intros [= ?]|]. unfold own_secrets.
    intros n [->|[->|[]%elem_of_nil]%elem_of_cons]%elem_of_cons;
      intros [H|[H|[]%elem_of_nil]%elem_of_cons]%elem_of_cons; cbn in H; by simplify_eq.
Qed.

(** ** What the operations leave behind *)

Notation pod_of h id := (c_pods (viewed h) !! (namespace, id)).
Notation claim_of h id := (c_claims (viewed h) !! (namespace, id)).
Notation secret_of h n := (c_secrets (viewed h) !! (namespace, n)).

(** Reading an object fails only when it is not there. *)
Definition reliable {A} (api : resource_api E A) : Prop :=
  ∀ ns n h e, (api_Get api ns n h).1 = Ok (inl e) → e = NotFound.

Lemma getPod_Ok n h o h' : getPod w namespace n h = (Ok o, h') → h' = h ∧ o = pod_of h n.
Proof.
  unfold getPod. destruct (get_ok _ _ pods_ok namespace n h) as (r & Hg & Hr).
  rewrite (run_Ok _ _ _ _ _ Hg). destruct r as [[]|p]; try done; by intros [= <- <-].
Qed.
Lemma reliable_get {A} (api : resource_api E A) k n h : api_ok api k → reliable api →
  api_Get api namespace n h =
  (Ok (match k_get k (viewed h) !! (namespace, n) with
       | Some a => inr a | None => inl NotFound end), h).
Proof.
  intros Hok Hr. destruct (get_ok _ _ Hok namespace n h) as (r & Hg & Hv). rewrite Hg.
  destruct r as [e|a]; [|by rewrite Hv].
  assert (e = NotFound) as -> by (eapply Hr; by rewrite Hg). by rewrite Hv.
Qed.

Lemma Poll_Ok n cond h h' : Poll w n cond h = (Ok (), h') → ∃ h1, cond h1 = (Ok true, h').
Proof.
  revert h. induction n as [|n IH]; intros h (b & h1 & Hc & H)%M_bind_Ok.
  - destruct b; [|done]. injection H as <-. eauto.
  - destruct b; [injection H as <-; eauto|]. apply M_bind_Ok in H as (u & h2 & _ & H). eauto.
Qed.

Lemma waitPodDeleted_Ok id h h' : reliable (kw_pods w) →
  waitPodDeleted w namespace id h = (Ok (), h') → pod_of h' id = None.
Proof.
  intros Hrel. unfold waitPodDeleted.
  destruct (delete_ok _ _ pods_ok namespace id h) as (r & h1 & Hd & Hr).
  rewrite (run_Ok _ _ _ _ _ Hd). destruct r as [[]|u]; try done.
  - intros [= <-]. destruct Hr as [-> Hn]. exact Hn.
  - intros (g & h2 & Hg & H)%M_bind_Ok. unfold caught in Hg.
    destruct (Poll w _ _ h1) as [g' h3] eqn:Hp. injection Hg as <- <-.
    destruct g' as [[]|e| |]; try done. injection H as <-.
    apply Poll_Ok in Hp as [h4 Hc]. unfold pod_gone in Hc.
    rewrite (run_Ok _ _ _ _ _ (reliable_get _ _ id h4 pods_ok Hrel)) in Hc.
    injection Hc as Hb ->. cbn in Hb. by destruct (pod_of h3 id).
Qed.
Lemma waitPodRunning_Ok id h h' : waitPodRunning w namespace options id h = (Ok (), h') →
  match pod_of h' id with None => True | Some p => check_pod id p = Ready end.
Proof.
  unfold waitPodRunning. intros (d & h1 & _ & Hp)%M_bind_Ok.
  apply Poll_Ok in Hp as [h2 Hc]. unfold pod_running in Hc.
  apply M_bind_Ok in Hc as (o & h3 & [-> ->]%getPod_Ok & Hc).
  destruct (pod_of h2 id) as [p|] eqn:Hpod.
  - destruct (check_pod id p) eqn:Hcheck; try done.
    + injection Hc as <-. by rewrite Hpod.
    + by apply M_bind_Ok in Hc as (u & h4 & _ & [= _]).
  - injection Hc as <-. by rewrite Hpod.
Qed.

Lemma kube_Stop_concerns fp id : fp_pod fp (getID id) →
  stays (concerns fp) (kube_Stop w namespace id).
Proof. unfold kube_Stop. stays. Qed.

(** Stopping a workspace.  When the call succeeds there is no pod; the
    claim with the data of the workspace is as it was, and so is everything else. *)
Theorem kube_Stop_outcome id h r h' :
  reliable (kw_pods w) → kube_Stop w namespace id h = (r, h') →
  concerns (own_pod (getID id)) h h' ∧
  (∀ c, claim_of h (getID id) = Some c → cl_Deleted c = None → claim_of h' (getID id) = Some c) ∧
  (r = Ok () → pod_of h' (getID id) = None).
Proof.
  intros Hrel Hrun.
  assert (concerns (own_pod (getID id)) h h') as Hc.
  { eapply stays_after; [by apply kube_Stop_concerns|exact Hrun]. }
  split_and!; [done|..].
  - intros c Hcl Hd. destruct (other_claims _ _ _ Hc (namespace, getID id)) as [->|[_ (c' & Hc' & Hd')]];
      [by intros _ []|done|]. rewrite Hcl in Hc'. injection Hc' as <-. by rewrite Hd in Hd'; destruct Hd'.
  - intros ->. unfold kube_Stop in Hrun. apply M_bind_Ok in Hrun as (d & h1 & Hd & Hl).
    injection Hl as ->%wrap_Ok <-. unfold caught in Hd.
    destruct (waitPodDeleted _ _ _ h) as [d' h2] eqn:Hw. injection Hd as -> ->.
    by eapply waitPodDeleted_Ok.
Qed.

Lemma secretExists_Ok n h b h' : reliable (kw_secrets w) →
  secretExists w namespace n h = (Ok b, h') → h' = h ∧ b = bool_decide (is_Some (secret_of h n)).
Proof.
  intros Hrel. unfold secretExists.
  rewrite (run_Ok _ _ _ _ _ (reliable_get _ _ n h secrets_ok Hrel)). intros [= <- <-].
  cbn. destruct (secret_of h n); [by rewrite bool_decide_true|].
  rewrite bool_decide_false; [done|by intros []].
Qed.
Definition lens_ok {A} (k : kind A) : Prop := ∀ m c, k_get k (k_set k m c) = m.
Lemma api_delete_Ok {A} what (api : resource_api E A) k n h h' : api_ok api k → lens_ok k →
  api_delete what (api_Delete api namespace n) h = (Ok (), h') →
  match k_get k (viewed h') !! (namespace, n) with
  | None => True
  | Some a' => ∃ a, k_get k (viewed h) !! (namespace, n) = Some a ∧ k_deleting k a a'
  end.
Proof.
  intros Hok Hl. unfold api_delete.
  destruct (delete_ok _ _ Hok namespace n h) as (r & h1 & Hd & Hr).
  rewrite (run_Ok _ _ _ _ _ Hd). destruct r as [[]|u]; try done; intros [= <-].
  - destruct Hr as [-> ->]. done.
  - destruct Hr as (o & -> & Ho). by rewrite Hl, lookup_partial_alter_eq.
Qed.
Lemma DeleteSecret_Ok n h h' : reliable (kw_secrets w) →
  DeleteSecret w namespace n h = (Ok (), h') → secret_of h' n = None.
Proof.
  intros Hrel. unfold DeleteSecret.
  intros (b & h1 & [-> ->]%secretExists_Ok & H)%M_bind_Ok; [|done].
  case_bool_decide as Hs.
  - apply (api_delete_Ok _ _ secrets) in H; [|apply secrets_ok|done]. cbn in H.
    destruct (secret_of h' n); [|done]. by destruct H as (a & _ & []).
  - injection H as <-. destruct (secret_of h n); [|done]. by destruct Hs.
Qed.

Definition gone_claim (o : option Claim) : Prop :=
  match o with None => True | Some c => is_Some (cl_Deleted c) end.
Lemma gone_claim_later o o' : gone_claim o → claim_later o o' → gone_claim o'.
Proof. intros Ho [->|[-> _]]; done. Qed.

(** What follows the deletion of the pod. *)
Definition after_pod (id : string) : M (host E) unit :=
  _ ← api_delete "delete pvc: " (api_Delete (kw_claims w) namespace id);
  _ ← (if decide (k_clusterRole options ≠ "")
       then api_delete "delete role binding: " (api_Delete (kw_roleBindings w) namespace id)
       else mret ());
  there ← secretExists w namespace (getDaemonSecretName id);
  _ ← (if there : bool then DeleteSecret w namespace (getDaemonSecretName id) else mret ());
  if decide (k_kubernetesPullSecretsEnabled options ≠ "")
  then DeleteSecret w namespace (getPullSecretsName id) else mret ().
Lemma after_pod_pods id :
  stays (concerns (Footprint none (eq id) (λ n, n ∈ own_secrets id))) (after_pod id).
Proof. unfold after_pod. stays. Qed.

Lemma pod_stays_gone fp id h h' : concerns fp h h' → ¬ fp_pod fp id →
  pod_of h id = None → pod_of h' id = None.
Proof.
  intros Hc Hfp Hn. pose proof (other_pods _ _ _ Hc (namespace, id)) as Hp.
  rewrite Hn in Hp. destruct (pod_of h' id); [|done]. destruct (Hp (λ _, Hfp)).
Qed.
Lemma secret_stays fp n h h' : concerns fp h h' → ¬ fp_secret fp n →
  secret_of h' n = secret_of h n.
Proof. intros Hc Hfp. by apply (other_secrets _ _ _ Hc (namespace, n)). Qed.

(** Deleting a workspace.  When the call succeeds there is no pod, the
    claim is gone or being deleted, and so are the secrets with the
    configuration of the daemon and, if they are enabled, the credentials for images. *)
Theorem kube_Delete_outcome id h h' :
  reliable (kw_pods w) → reliable (kw_secrets w) →
  kube_Delete w namespace options id h = (Ok (), h') →
  pod_of h' (getID id) = None ∧
  gone_claim (claim_of h' (getID id)) ∧
  secret_of h' (getDaemonSecretName (getID id)) = None ∧
  (k_kubernetesPullSecretsEnabled options ≠ "" →
   secret_of h' (getPullSecretsName (getID id)) = None).
Proof.
  intros Hp Hs. unfold kube_Delete. intros ([] & h1 & Hw & H)%M_bind_Ok.
  apply waitPodDeleted_Ok in Hw; [|done].
  assert (concerns _ h1 h') as Hc by (eapply stays_after; [apply after_pod_pods|exact H]).
  split; [by eapply pod_stays_gone; [exact Hc|intros []|]|].
  apply M_bind_Ok in H as ([] & h2 & Hclaim & H).
  apply (api_delete_Ok _ _ claims) in Hclaim; [|apply claims_ok|done].
  assert (gone_claim (claim_of h2 (getID id))) as Hgone.
  { cbn [k_get k_deleting claims] in Hclaim. destruct (claim_of h2 (getID id)) as [c|]; [|done]. by destruct Hclaim as (? & _ & _ & ?). }
  assert (concerns (Footprint none none (λ n, n ∈ own_secrets (getID id))) h2 h') as Hc2.
  { eapply stays_after; [|exact H]. stays. }
  split; [by eapply gone_claim_later; [exact Hgone|apply (other_claims _ _ _ Hc2 (namespace, getID id)); intros _ []]|].
  apply M_bind_Ok in H as ([] & h3 & _ & H). apply M_bind_Ok in H as (b & h4 & [-> ->]%secretExists_Ok & H); [|done].
  apply M_bind_Ok in H as ([] & h5 & Hd & H).
  assert (secret_of h5 (getDaemonSecretName (getID id)) = None) as Hdaemon.
  { case_bool_decide as Ht; [by eapply DeleteSecret_Ok|]. injection Hd as <-.
    destruct (secret_of h3 _); [by destruct Ht|done]. }
  assert (concerns (Footprint none none (eq (getPullSecretsName (getID id)))) h5 h') as Hc3.
  { eapply stays_after; [|exact H]. stays. }
  split; [by rewrite (secret_stays _ _ _ _ Hc3)|].
  intros Hen. rewrite decide_True in H by done. by eapply DeleteSecret_Ok.
Qed.

(** *** Running and starting *)

Definition pod_up (p : Pod) : Prop :=
  p_Deleted p = None ∧
  (length (ps_Containers (p_Spec p)) ≤ length (pst_ContainerStatuses (p_Status p)))%nat ∧
  Forall (λ c, cs_Terminated c = None ∧ cs_Waiting c = None ∧ cs_Ready c = true)
         (pst_ContainerStatuses (p_Status p)).
Lemma check_containers_Ready id l : check_containers id l = Ready →
  Forall (λ c, cs_Terminated c = None ∧ cs_Waiting c = None ∧ cs_Ready c = true) l.
Proof.
  induction l as [|c l IH]; [done|]. cbn.
  destruct (cs_Terminated c) as [[[code r] m]|] eqn:Ht.
  - destruct (code =? 0)%Z; [done|]. destruct (cs_Waiting c) as [[r' m']|]; [|done].
    unfold waiting_poll. by destruct (IsCritical c).
  - destruct (cs_Waiting c) as [[r m]|] eqn:Hw.
    + unfold waiting_poll. by destruct (IsCritical c).
    + unfold IsReady. destruct (cs_Ready c) eqn:Hr; [|done]. intros Hl. constructor; auto.
Qed.
Lemma check_pod_Ready id p : check_pod id p = Ready → pod_up p.
Proof.
  unfold check_pod, pod_up. destruct (p_Deleted p); [done|].
  destruct (Nat.ltb_spec (length (pst_ContainerStatuses (p_Status p)))
              (length (ps_Containers (p_Spec p)))); [done|].
  destruct (check_init _ _ _); try done. intros Hc.
  split_and!; [done|lia|by eapply check_containers_Ready].
Qed.

Definition made_with (p : Pod) : ProviderKubernetesDriverConfig :=
  kw_unmarshalOptions w (default "" (p_Annotations p !! DevPodLastAppliedAnnotation)).
(** The pod after a run: gone, up, or one from before the run that was made
    with the same options. *)
Definition ran (id : string) (h h' : host E) : Prop :=
  match pod_of h' id with
  | None => True
  | Some p => pod_up p ∨
      ∃ p0, pod_of h id = Some p0 ∧ optionsEqual (made_with p0) options = true
  end.
Lemma ran_before fp id h h1 h' : concerns fp h h1 → ¬ fp_pod fp id → ran id h1 h' → ran id h h'.
Proof.
  intros Hc Hfp. pose proof (other_pods _ _ _ Hc (namespace, id) (λ _, Hfp)) as Hl. unfold ran.
  destruct (pod_of h' id) as [p|]; [|done]. intros [?|(p1 & H1 & Heq)]; [by left|]. right.
  rewrite H1 in Hl. destruct (pod_of h id) as [p0|]; [|done]. exists p0. split; [done|].
  unfold made_with in *. destruct Hl as (_ & _ & Ha & _). by rewrite <- Ha.
Qed.
Lemma runPod_Ok id pod h0 h h' :
  runPod w namespace options id pod h = (Ok (), h') → ran id h0 h'.
Proof.
  unfold runPod. intros (l & h1 & _ & H)%M_bind_Ok. apply M_bind_Ok in H as ([] & h2 & _ & H).
  apply waitPodRunning_Ok in H. unfold ran. destruct (pod_of h' id); [|done].
  left. by eapply check_pod_Ready.
Qed.
Lemma replace_pod_Ok id pod h h' :
  replace_pod w namespace options id pod h = (Ok (), h') → ran id h h'.
Proof.
  unfold replace_pod. intros (r & h1 & Hc & H)%M_bind_Ok.
  apply M_bind_Ok in H as (o & h2 & Hl & H). injection Hl as ->%wrap_Ok <-.
  unfold caught in Hc. destruct (getPod _ _ _ h) as [o' h3] eqn:Hg. injection Hc as -> ->.
  apply getPod_Ok in Hg as [-> ->]. destruct (pod_of h id) as [p|] eqn:Hp; [|by eapply runPod_Ok].
  fold (made_with p) in H. destruct (optionsEqual (made_with p) options) eqn:Heq.
  - injection H as <-. unfold ran. rewrite Hp. right. by exists p.
  - apply M_bind_Ok in H as (d & h4 & _ & H). apply M_bind_Ok in H as (u & h5 & _ & H).
    by eapply runPod_Ok.
Qed.
(** A step of a program that does not concern the pod. *)
Lemma ran_step {A} fp id (c : C A) (k : A → C unit) h h' :
  (c ≫= k) h = (Ok (), h') → stays (concerns fp) c → ¬ fp_pod fp id →
  (∀ a h1, k a h1 = (Ok (), h') → ran id h1 h') → ran id h h'.
Proof.
  intros (a & h1 & Hc & Hk)%M_bind_Ok Hs Hfp H. eapply ran_before; [|exact Hfp|eauto].
  by eapply stays_after.
Qed.
Definition secrets_only (id : string) : footprint :=
  Footprint none none (λ n, n ∈ own_secrets id).
Lemma runContainer_Ok id ro i h h' :
  runContainer w namespace options id ro i h = (Ok (), h') → ran id h h'.
Proof.
  unfold runContainer. intros H.
  eapply (ran_step (secrets_only id)); [exact H|stays|by intros []|clear H h; intros r h H].
  eapply (ran_step (secrets_only id)); [exact H|stays|by intros []|clear H h; intros m h H].
  cbv beta in H. destruct (decide (mount_target m = "")); [done|].
  do 6 (eapply (ran_step (secrets_only id)); [exact H|stays|by intros []|clear H h; intros ? h H]).
  exact (replace_pod_Ok _ _ _ _ H).
Qed.

(** After a successful run or start, the pod of the workspace has all its
    containers ready, unless it ended and was removed, or a pod that was made with
    the same options had been there before: then its state is not looked at. *)
Theorem kube_Run_outcome id ro h h' :
  kube_Run w namespace options id ro h = (Ok (), h') ∨
  kube_Start w namespace options id h = (Ok (), h') →
  pod_of h' (getID id) = None ∨
  (∃ p, pod_of h' (getID id) = Some p ∧ pod_up p) ∨
  (∃ p, pod_of h (getID id) = Some p ∧ optionsEqual (made_with p) options = true).
Proof.
  intros Hrun. assert (ran (getID id) h h') as Hran.
  { destruct Hrun as [H|H].
    - eapply (ran_step (own_claim (getID id))); [exact H|stays|by intros []|clear H h; intros u h H].
      eapply (ran_step (own_claim (getID id))); [exact H|stays|by intros []|clear H h; intros f h H].
      destruct f as [[c i]|]; [exact (runContainer_Ok _ _ _ _ _ H)|]. destruct ro; [|done].
      eapply (ran_step (own_claim (getID id))); [exact H|stays|by intros []|].
      intros v h1 H1. exact (runContainer_Ok _ _ _ _ _ H1).
    - eapply (ran_step (own_claim (getID id))); [exact H|stays|by intros []|clear H h; intros f h H].
      destruct f as [[c i]|]; [exact (runContainer_Ok _ _ _ _ _ H)|done]. }
  unfold ran in Hran. destruct (pod_of h' (getID id)) as [p|]; naive_solver.
Qed.

(** *** The options of a workspace *)

Definition info_roundtrip : Prop := ∀ i s, kw_marshalInfo w i = inr s →
  s ≠ "" ∧ kw_unmarshalInfo w s = inr i.
(** The options a claim has in its annotation. *)
Definition claim_info (c : Claim) : string + DevContainerInfo :=
  kw_unmarshalInfo w (default "" (cl_Annotations c !! DevPodInfoAnnotation)).

Lemma claim_kept fp id h h' : concerns fp h h' → ¬ fp_claim fp id →
  (∀ c, claim_of h id = Some c → cl_Deleted c = None) → claim_of h' id = claim_of h id.
Proof.
  intros Hc Hfp Hd. destruct (other_claims _ _ _ Hc (namespace, id)) as [->|[_ (c & Hc' & Hd')]];
    [done..|]. apply Hd in Hc'. rewrite Hc' in Hd'. by destruct Hd'.
Qed.
Lemma pvc_None id h h' : getDevContainerPvc w namespace id h = (Ok None, h') →
  h' = h ∧ claim_of h id = None.
Proof.
  unfold getDevContainerPvc. destruct (get_ok _ _ claims_ok namespace id h) as (r & Hg & Hr).
  rewrite (run_Ok _ _ _ _ _ Hg). destruct r as [[]|c]; try done; [by intros [= <-]|].
  case_decide; [done|]. by intros (i & h1 & _ & [= _])%M_bind_Ok.
Qed.
Lemma pvc_Some id h c i h' : getDevContainerPvc w namespace id h = (Ok (Some (c, i)), h') →
  h' = h ∧ claim_of h id = Some c ∧ claim_info c = inr i ∧
  default "" (cl_Annotations c !! DevPodInfoAnnotation) ≠ "".
Proof.
  unfold getDevContainerPvc. destruct (get_ok _ _ claims_ok namespace id h) as (r & Hg & Hr).
  rewrite (run_Ok _ _ _ _ _ Hg). destruct r as [[]|c']; try done.
  case_decide; [done|]. intros (i' & h1 & Hu & [= -> -> <-])%M_bind_Ok. injection Hu as Hu <-.
  apply wrap_Ok in Hu. unfold claim_info. destruct (kw_unmarshalInfo w _); [done|].
  by injection Hu as ->.
Qed.
Lemma Start_runs id h c i : reliable (kw_claims w) → claim_of h (getID id) = Some c →
  default "" (cl_Annotations c !! DevPodInfoAnnotation) ≠ "" → claim_info c = inr i →
  kube_Start w namespace options id h =
  runContainer w namespace options (getID id) (di_Options i) false h.
Proof.
  intros Hrel Hc Ha Hi. unfold kube_Start, getDevContainerPvc.
  unfold claim_info in Hi. unfold mbind, M_bind at 1. unfold mbind, M_bind at 1.
  rewrite (reliable_get _ _ (getID id) h claims_ok Hrel). cbn [k_get claims]. rewrite Hc.
  rewrite decide_False by done. unfold mbind, M_bind at 1. by rewrite Hi.
Qed.
Lemma createClaim_Ok id ro h h' :
  createPersistentVolumeClaim w namespace options id ro h = (Ok (), h') →
  ∃ c s, claim_of h' id = Some c ∧ cl_Deleted c = None ∧
    kw_marshalInfo w {| di_WorkspaceID := id; di_Options := Some ro |} = inr s ∧
    ((∀ m, parseLabels (k_pvcAnnotations options) = Ok m → m !! DevPodInfoAnnotation = None) →
     cl_Annotations c !! DevPodInfoAnnotation = Some s).
Proof.
  intros (c & h1 & Hb & H)%M_bind_Ok. injection Hb as Hb <-.
  apply bind_Ok in Hb as (s & Hs & Hb). apply bind_Ok in Hb as (q & _ & Hb).
  unfold getDevContainerInformation in Hs.
  destruct (kw_marshalInfo w _) as [|s'] eqn:Hi; [done|]. injection Hs as ->. injection Hb as <-.
  unfold api_call in H. match type of H with context [api_Create _ _ ?a] => set (cl := a) in H end.
  destruct (create_ok _ _ claims_ok namespace cl h) as (r & h2 & Hc & Hr).
  rewrite (run_Ok _ _ _ _ _ Hc) in H. destruct r as [e|[]]; [done|]. injection H as <-.
  destruct Hr as (_ & c' & (Hn & _ & Ha & Hd) & Hv). exists c', s.
  rewrite Hv. cbn [k_set claims c_claims k_name cl cl_Name]. rewrite lookup_insert_eq.
  split_and!; [done..|]. intros Hm. eapply lookup_weaken; [|exact Ha]. cbn [cl cl_Annotations].
  rewrite lookup_union_r; [apply lookup_singleton_eq|].
  destruct (parseLabels _) as [m| | |] eqn:Hp; [by apply Hm|done..].
Qed.

(** A workspace is started with the options it was first run with.  They
    are kept in the annotation of the claim, which a later run with other
    options does not change. *)
Theorem kube_Start_options id ro h h1 h2 :
  reliable (kw_claims w) → info_roundtrip →
  (∀ m, parseLabels (k_pvcAnnotations options) = Ok m → m !! DevPodInfoAnnotation = None) →
  (∀ c, claim_of h (getID id) = Some c → cl_Deleted c = None) →
  kube_Run w namespace options id (Some ro) h = (Ok (), h1) →
  concerns (own_run (getID id)) h1 h2 →
  ∃ first, kube_Start w namespace options id h2 =
           runContainer w namespace options (getID id) first false h2 ∧
    match claim_of h (getID id) with
    | None => first = Some ro
    | Some c => ∃ i, claim_info c = inr i ∧ first = di_Options i
    end.
Proof.
  intros Hrel Hj Hm Hd Hrun Hc2. apply M_bind_Ok in Hrun as (u & h3 & Hn & H).
  assert (claim_of h3 (getID id) = claim_of h (getID id)) as Heq.
  { eapply (claim_kept (own_pod (getID id))); [|by intros []|done].
    eapply stays_after; [|exact Hn]. stays. }
  rewrite <- Heq in Hd |- *. clear Heq Hn. apply M_bind_Ok in H as ([[c i]|] & h4 & Hp & H).
  - apply pvc_Some in Hp as (-> & Hc & Hi & Ha). rewrite Hc. exists (di_Options i).
    split; [|by exists i]. eapply Start_runs; [done| |done..].
    rewrite (claim_kept (own_run (getID id)) (getID id) h3); [done| |by intros []|done].
    etrans; [|exact Hc2]. eapply stays_after; [|exact H]. stays.
  - apply pvc_None in Hp as [-> Hc]. rewrite Hc. exists (Some ro). split; [|done].
    apply M_bind_Ok in H as ([] & h4 & Hcreate & H).
    apply createClaim_Ok in Hcreate as (c & s & Hcl & Hdel & Hs & Ha). specialize (Ha Hm).
    destruct (Hj _ _ Hs) as [Hne Hu].
    rewrite (Start_runs id h2 c {| di_WorkspaceID := getID id; di_Options := Some ro |});
      [done|done| |by rewrite Ha|unfold claim_info; by rewrite Ha].
    rewrite (claim_kept (own_run (getID id)) (getID id) h4); [done| |by intros []|].
    + etrans; [|exact Hc2]. eapply stays_after; [|exact H]. stays.
    + intros c' Hc'. congruence.
Qed.
End Frame.

(** ** The pod of a workspace *)

Definition env_var (k v : string) : EnvVar := {| ev_Name := k; ev_Value := v; ev_From := None |}.
Lemma elem_of_env_vars l e :
  e ∈ env_vars l ↔ ∃ k v, e = env_var k v ∧ (k, v) ∈ l ∧ k ≠ WorkspaceDaemonConfigExtraEnvVar.
Proof.
  unfold env_vars. rewrite list_elem_of_fmap. split.
  - intros ([k v] & -> & [Hk Hl]%list_elem_of_filter). eauto.
  - intros (k & v & -> & Hl & Hk). exists (k, v). split; [done|]. by apply list_elem_of_filter.
Qed.
Lemma getLabels_created m raw labels : getLabels m raw = Ok labels →
  labels !! DevPodCreatedLabel = Some "true".
Proof.
  intros (x & _ & [= <-])%bind_Ok. rewrite !lookup_union_Some_raw. left. left.
  apply lookup_singleton_eq.
Qed.
Lemma filter_other name l : filter (λ c, c_Name c = name) (other_containers name l) = [].
Proof.
  unfold other_containers. induction l as [|c l IH]; [done|]. rewrite !filter_cons.
  case_decide as Hc; [|done]. rewrite filter_cons, decide_False; [done|]. by cbn in Hc.
Qed.
Definition template_env (template : Pod) : list EnvVar :=
  match last_container DevContainerName (ps_Containers (p_Spec template)) with
  | Some c => c_Env c
  | None => []
  end.
Lemma merge_container_env o c : c_Env (merge_container o c) =
  match o with Some e => c_Env e | None => [] end ++ c_Env c.
Proof. by destruct o. Qed.

(** C11: The pod of a workspace, whatever the template: exactly one container
    is named devpod, the last one, with the image of the options; the other containers are
    those of the template.  Its environment is that of the template and
    the options, without the configuration of the daemon, which is a secret.
    The pod has the labels DevPod finds it by, mounts the claim of the workspace, and is
    not restarted. *)
Theorem pod_manifest_spec {E} (w : kube_world E) options template id ro mount i labels sel ds ps :
  (∀ m, hs_range (kw_sys w) m ≡ₚ map_to_list m) →
  getLabels (p_Labels template) (k_labels options) = Ok labels →
  let pod := pod_manifest w options template id ro mount i labels sel ds ps in
  p_Name pod = id ∧
  (∃ c, ps_Containers (p_Spec pod) =
          other_containers DevContainerName (ps_Containers (p_Spec template)) ++ [c] ∧
        filter (λ c, c_Name c = DevContainerName) (ps_Containers (p_Spec pod)) = [c] ∧
        c_Image c = ro_Image ro ∧
        ∀ e, e ∈ c_Env c ↔ e ∈ template_env template ∨
          ∃ k v, e = env_var k v ∧ ro_Env ro !! k = Some v ∧ k ≠ WorkspaceDaemonConfigExtraEnvVar) ∧
  p_Labels pod !! DevPodCreatedLabel = Some "true" ∧
  p_Labels pod !! DevPodWorkspaceUIDLabel = Some (ro_UID ro) ∧
  {| v_Name := "devpod"; v_Source := ClaimVolume id |} ∈ ps_Volumes (p_Spec pod) ∧
  ps_RestartPolicy (p_Spec pod) = "Never".
Proof.
  intros Hr Hl pod. split; [done|]. split.
  { eexists. split; [reflexivity|]. unfold pod, pod_manifest, getContainers. cbn [p_Spec ps_Containers].
    split; [|split].
    - rewrite list.filter_app, filter_other. rewrite filter_cons, decide_True; [done|].
      by destruct (last_container _ _).
    - by destruct (last_container _ _).
    - intros e. rewrite merge_container_env, elem_of_app. cbn [c_Env].
      rewrite elem_of_env_vars. unfold template_env. apply or_iff_compat_l.
      apply exist_proper; intros k; apply exist_proper; intros v.
      by rewrite Hr, elem_of_map_to_list. }
  unfold pod. cbn [p_Labels pod_manifest p_Spec ps_Volumes ps_RestartPolicy getVolumes].
  rewrite lookup_insert_ne, lookup_insert_eq by done.
  split_and!; [by eapply getLabels_created|done|left|done].
Qed.

(** The claim has the options of the container, and with them the
    configuration of the daemon, which the pod takes from a secret. *)
Lemma claim_shows_daemon_config {E} (w : kube_world E) options id ro claim :
  info_roundtrip w → buildPersistentVolumeClaim w options id ro = Ok claim →
  (∀ m, parseLabels (k_pvcAnnotations options) = Ok m → m !! DevPodInfoAnnotation = None) →
  ∃ i o, claim_info w claim = inr i ∧ di_Options i = Some o ∧
    ro_Env o !! WorkspaceDaemonConfigExtraEnvVar = ro_Env ro !! WorkspaceDaemonConfigExtraEnvVar.
Proof.
  intros Hj (s & Hs & H)%bind_Ok Hm. apply bind_Ok in H as (q & _ & [= <-]).
  unfold getDevContainerInformation in Hs. destruct (kw_marshalInfo w _) as [|s'] eqn:Hi; [done|].
  injection Hs as ->. destruct (Hj _ _ Hi) as [_ Hu].
  exists {| di_WorkspaceID := id; di_Options := Some ro |}, ro. split; [|done].
  unfold claim_info. cbn [cl_Annotations]. rewrite lookup_union_r; [by rewrite lookup_singleton_eq|].
  destruct (parseLabels _) as [m| | |] eqn:Hp; [by apply Hm|done..].
Qed.
