(* ===== verification/KubernetesDemo.v ===== *)
(** * A concrete cluster

    A cluster whose API server answers every call, where a pod is up one
    second after it was created; the witnesses of KubernetesProps.v. *)

From S2P Require Import Prelude GoStrings Types Config DevContainer Substitute Lifecycle Provider Options Clients Driver Kubernetes KubernetesProps.
From stdpp Require Import base gmap list strings pretty.
From Stdlib Require Import ZArith Lia.

Local Open Scope string_scope.
Local Open Scope list_scope.

#[export] Instance cluster_view : ClusterView cluster := λ c, c.

Definition demo_api {A} (k : kind A) (store : A → A) : resource_api cluster A := {|
  api_Get ns n := λ h, (Ok (match k_get k (h_eng h) !! (ns, n) with
                            | Some a => inr a | None => inl NotFound end), h);
  api_Create ns a := λ h,
    match k_get k (h_eng h) !! (ns, k_name k a) with
    | Some _ => (Ok (inl AlreadyExists), h)
    | None => (Ok (inr ()), set_eng (k_set k (<[(ns, k_name k a) := store a]> (k_get k (h_eng h))) (h_eng h)) h)
    end;
  api_Delete ns n := λ h,
    match k_get k (h_eng h) !! (ns, n) with
    | Some _ => (Ok (inr ()), set_eng (k_set k (delete (ns, n) (k_get k (h_eng h))) (h_eng h)) h)
    | None => (Ok (inl NotFound), h)
    end |}.
Definition new_pod (p : Pod) : Pod := {|
  p_Name := p_Name p; p_Labels := p_Labels p; p_Annotations := p_Annotations p;
  p_Created := "now"; p_Deleted := None; p_Spec := p_Spec p; p_Status := no_status |}.
Definition new_claim (c : Claim) : Claim := {|
  cl_Name := cl_Name c; cl_Labels := cl_Labels c; cl_Annotations := cl_Annotations c;
  cl_Created := "now"; cl_Deleted := None; cl_AccessModes := cl_AccessModes c;
  cl_Storage := cl_Storage c; cl_StorageClassName := cl_StorageClassName c |}.
(** Objects that are not looked at. *)
Definition silent_api {A} : resource_api cluster A := {|
  api_Get ns n := mret (inl NotFound); api_Create ns a := mret (inr ());
  api_Delete ns n := mret (inr ()) |}.

Definition ready_status (c : PodContainer) : ContainerStatus := {|
  cs_Name := c_Name c; cs_Waiting := None; cs_Terminated := None; cs_Running := true;
  cs_Ready := true; cs_Started := Some true |}.
Definition up_pod (p : Pod) : Pod := {|
  p_Name := p_Name p; p_Labels := p_Labels p; p_Annotations := p_Annotations p;
  p_Created := p_Created p; p_Deleted := p_Deleted p; p_Spec := p_Spec p;
  p_Status := {| pst_Phase := "Running"; pst_InitContainerStatuses := [];
                 pst_ContainerStatuses := ready_status <$> ps_Containers (p_Spec p) |} |}.

Definition kube_options : ProviderKubernetesDriverConfig := {|
  k_kubernetesContext := ""; k_kubernetesConfig := ""; k_kubernetesNamespace := "devpod";
  k_podTimeout := "10m"; k_kubernetesPullSecretsEnabled := "true"; k_createNamespace := "true";
  k_clusterRole := ""; k_serviceAccount := ""; k_architecture := ""; k_inactivityTimeout := "";
  k_storageClass := ""; k_diskSize := "10Gi"; k_pvcAccessMode := ""; k_pvcAnnotations := "a=b";
  k_nodeSelector := ""; k_resources := "requests.cpu=1,limits.cpu=2";
  k_workspaceVolumeMount := ""; k_podManifestTemplate := ""; k_labels := "team=a";
  k_strictSecurity := "" |}.

#[local] Instance Mount_dec : EqDecision Mount.
Proof. solve_decision. Defined.
#[local] Instance RunOptions_dec : EqDecision RunOptions.
Proof. solve_decision. Defined.
#[local] Instance DevContainerInfo_dec : EqDecision DevContainerInfo.
Proof. solve_decision. Defined.

Definition kube_run_options : RunOptions := {|
  ro_UID := "uid-1"; ro_Image := "debian"; ro_User := ""; ro_Entrypoint := "/bin/sh";
  ro_Cmd := ["-c"; "sleep"];
  ro_Env := {[ "A" := "b"; WorkspaceDaemonConfigExtraEnvVar := "token" ]};
  ro_CapAdd := []; ro_SecurityOpt := []; ro_Labels := ["l=v"]; ro_Privileged := None;
  ro_WorkspaceMount := Some {| mount_type := "bind"; mount_source := "/repo";
    mount_target := "/workspaces/ws"; mount_external := false; mount_other := [] |};
  ro_Mounts := [] |}.
Definition kube_info : DevContainerInfo :=
  {| di_WorkspaceID := "devpod-ws"; di_Options := Some kube_run_options |}.

(** The codecs know the documents of the example. *)
Definition demo_kube : kube_world cluster := {|
  kw_sys := {| hs_write := λ _, None; hs_read := λ _, None; hs_Abs := inr; hs_GOOS := "linux";
               hs_GOARCH := "amd64"; hs_uid := "0"; hs_current := inr ("0", "0");
               hs_range := map_to_list |};
  kw_pods := demo_api pods new_pod; kw_claims := demo_api claims new_claim;
  kw_secrets := demo_api secrets (λ s, s);
  kw_serviceAccounts := silent_api; kw_roleBindings := silent_api;
  kw_getNamespace := λ _, mret None; kw_createNamespace := λ _, mret None;
  kw_nodes := mret (inr ["amd64"; "amd64"]);
  kw_tick := λ h, (Ok (), set_eng (Cluster (up_pod <$> c_pods (h_eng h)) (c_claims (h_eng h))
                                     (c_secrets (h_eng h))) h);
  kw_polls := λ _, 3%nat;
  kw_exec := λ _ _ _ _ _, mret ""; kw_logs := λ _ _ _, mret "";
  kw_marshalOptions := λ o, if decide (o = kube_options) then inr "options" else inl "unknown";
  kw_unmarshalOptions := λ _, kube_options;
  kw_marshalInfo := λ i, if decide (i = kube_info) then inr "info" else inl "unknown";
  kw_unmarshalInfo := λ s, if decide (s = "info") then inr kube_info else inl "unknown";
  kw_template := λ _, inl "no template"; kw_quantity := inr;
  kw_marshalAuths := λ m, inr "{}"; kw_unmarshalAuths := λ _, inr ∅;
  kw_dockerAuth := λ _, inr no_auth; kw_containersAuth := λ _, inr no_auth;
  kw_reference := λ s, inr ("docker.io", s) |}.

Lemma demo_api_ok {A} (k : kind A) store :
  (∀ a, k_stored k a (store a)) → api_ok (demo_api k store) k.
Proof.
  intros Hs. split.
  - intros ns n h. cbn. destruct (k_get k (h_eng h) !! (ns, n)) eqn:Hk;
      (eexists; split; [reflexivity|]); exact Hk.
  - intros ns a h. cbn. destruct (k_get k (h_eng h) !! (ns, k_name k a)) eqn:Hk.
    + eexists _, h. split; reflexivity.
    + eexists _, _. split; [reflexivity|]. split; [exact Hk|]. by exists (store a).
  - intros ns n h. cbn. destruct (k_get k (h_eng h) !! (ns, n)) eqn:Hk.
    + eexists _, _. split; [reflexivity|]. by exists None.
    + eexists _, h. split; [reflexivity|]. by split.
Qed.
#[export] Instance demo_cluster_ok : ClusterOk demo_kube.
Proof.
  split; try (intros; intros h; reflexivity); try (intros; split_and!; reflexivity).
  - by apply demo_api_ok.
  - by apply demo_api_ok.
  - by apply demo_api_ok.
  - intros h. eexists. split; [reflexivity|]. unfold view, cluster_view. split; cbn.
    + intros k. rewrite lookup_fmap. by destruct (c_pods (h_eng h) !! k).
    + by left.
    + done.
Qed.
Lemma demo_reliable {A} (k : kind A) store : reliable (demo_api k store).
Proof. intros ns n h e. cbn. destruct (_ !! _); [done|]. by intros [= <-]. Qed.
Lemma demo_info_roundtrip : info_roundtrip demo_kube.
Proof. intros i s. cbn. case_decide as Hi; [|done]. intros [= <-]. by rewrite Hi. Qed.
Lemma demo_annotations m : parseLabels (k_pvcAnnotations kube_options) = Ok m →
  m !! DevPodInfoAnnotation = None.
Proof. vm_compute. by intros [= <-]. Qed.

(** ** A workspace is run, stopped, started and deleted *)

Definition other_claim : Claim := {|
  cl_Name := "devpod-other"; cl_Labels := ∅; cl_Annotations := ∅; cl_Created := "";
  cl_Deleted := None; cl_AccessModes := []; cl_Storage := ""; cl_StorageClassName := None |}.
Definition kube_host : host cluster :=
  Host ∅ (Cluster ∅ {[ ("devpod", "devpod-other") := other_claim ]} ∅).
Notation run := (kube_Run demo_kube "devpod" kube_options "ws" (Some kube_run_options)).
Definition ran_host : host cluster := (run kube_host).2.
Definition stopped_host : host cluster := (kube_Stop demo_kube "devpod" "ws" ran_host).2.

Lemma ran_ok : run kube_host = (Ok (), ran_host).
Proof.
  unfold ran_host. assert ((run kube_host).1 = Ok ()) as H by (vm_compute; reflexivity).
  destruct (run kube_host). cbn in *. by subst.
Qed.
Lemma stopped_ok : kube_Stop demo_kube "devpod" "ws" ran_host = (Ok (), stopped_host).
Proof.
  unfold stopped_host.
  assert ((kube_Stop demo_kube "devpod" "ws" ran_host).1 = Ok ()) as H by (vm_compute; reflexivity).
  destruct (kube_Stop demo_kube "devpod" "ws" ran_host). cbn in *. by subst.
Qed.

Lemma kubernetes_isolates_witness :
  c_claims (h_eng ran_host) !! ("devpod", "devpod-other") = Some other_claim.
Proof.
  destruct (kubernetes_isolates demo_kube "devpod" kube_options "ws" (Some kube_run_options)
    "" "" None)
    as (_ & H & _). specialize (H kube_host). fold ran_host in H.
  destruct (other_claims _ _ _ _ H ("devpod", "devpod-other")) as [Heq|[_ (c & [= <-] & [? [=]])]];
    [by intros _ [=]|]. exact Heq.
Defined.

Lemma kube_Run_outcome_witness :
  c_pods (h_eng ran_host) !! ("devpod", "devpod-ws") ≠ None ∧
  ∀ p, c_pods (h_eng ran_host) !! ("devpod", "devpod-ws") = Some p → pod_up p.
Proof.
  assert (c_pods (h_eng ran_host) !! ("devpod", "devpod-ws") ≠ None) as Hne
    by (vm_compute; discriminate).
  split; [exact Hne|]. intros p Hp.
  destruct (kube_Run_outcome demo_kube "devpod" kube_options "ws" (Some kube_run_options)
    kube_host ran_host (or_introl ran_ok)) as [H|[(q & Hq & Hup)|(q & Hq & _)]].
  - destruct (Hne H).
  - change (c_pods (h_eng ran_host) !! ("devpod", "devpod-ws") = Some q) in Hq.
    rewrite Hp in Hq. injection Hq as ->. exact Hup.
  - vm_compute in Hq. discriminate Hq.
Defined.

Lemma kube_Stop_outcome_witness :
  c_pods (h_eng ran_host) !! ("devpod", "devpod-ws") ≠ None ∧
  c_pods (h_eng stopped_host) !! ("devpod", "devpod-ws") = None ∧
  c_claims (h_eng stopped_host) !! ("devpod", "devpod-ws") =
  c_claims (h_eng ran_host) !! ("devpod", "devpod-ws").
Proof.
  destruct (kube_Stop_outcome demo_kube "devpod" "ws" ran_host (Ok ()) stopped_host
    (demo_reliable _ _) stopped_ok) as (_ & Hc & Hp).
  split; [vm_compute; discriminate|]. split; [exact (Hp eq_refl)|].
  destruct (c_claims (h_eng ran_host) !! ("devpod", "devpod-ws")) as [c|] eqn:Hcl;
    [|vm_compute in Hcl; discriminate Hcl].
  apply (Hc c Hcl). vm_compute in Hcl. injection Hcl as <-. reflexivity.
Defined.

(** The stopped workspace is started with the options of the first run. *)
Lemma kube_Start_options_witness :
  kube_Start demo_kube "devpod" kube_options "ws" stopped_host =
  runContainer demo_kube "devpod" kube_options "devpod-ws" (Some kube_run_options) false stopped_host.
Proof.
  destruct (kube_Start_options demo_kube "devpod" kube_options "ws" kube_run_options kube_host
    ran_host stopped_host) as (first & Hs & Hf).
  - apply demo_reliable.
  - apply demo_info_roundtrip.
  - apply demo_annotations.
  - vm_compute. discriminate.
  - apply ran_ok.
  - exact (kube_Stop_concerns demo_kube "devpod" (own_run "devpod-ws") "ws" eq_refl ran_host).
  - vm_compute in Hf. rewrite Hs, Hf. reflexivity.
Defined.

Definition deleted_host : host cluster :=
  (kube_Delete demo_kube "devpod" kube_options "ws" ran_host).2.
Lemma kube_Delete_outcome_witness :
  c_secrets (h_eng ran_host) !! ("devpod", "devpod-daemon-secret-devpod-ws") ≠ None ∧
  c_secrets (h_eng deleted_host) !! ("devpod", "devpod-daemon-secret-devpod-ws") = None ∧
  c_pods (h_eng deleted_host) !! ("devpod", "devpod-ws") = None.
Proof.
  split; [vm_compute; discriminate|].
  destruct (kube_Delete demo_kube "devpod" kube_options "ws" ran_host) as [r h'] eqn:Hr.
  assert (r = Ok ()) as ->.
  { change r with (r, h').1. rewrite <- Hr. vm_compute. reflexivity. }
  destruct (kube_Delete_outcome demo_kube "devpod" kube_options "ws" ran_host h'
    (demo_reliable _ _) (demo_reliable _ _) Hr) as (Hp & _ & Hs & _).
  assert (deleted_host = h') as -> by (unfold deleted_host; rewrite Hr; reflexivity).
  split; [exact Hs|exact Hp].
Defined.

Definition first_pod : Pod := pod_manifest demo_kube kube_options empty_pod "devpod-ws"
  kube_run_options empty_mount true {[ DevPodCreatedLabel := "true"; "team" := "a" ]} ∅
  "devpod-daemon-secret-devpod-ws" false.
Lemma pod_manifest_spec_witness :
  ∃ c, ps_Containers (p_Spec first_pod) = [c] ∧ ∀ e, e ∈ c_Env c ↔ e = env_var "A" "b".
Proof.
  destruct (pod_manifest_spec demo_kube kube_options empty_pod "devpod-ws" kube_run_options
    empty_mount true {[ DevPodCreatedLabel := "true"; "team" := "a" ]} ∅
    "devpod-daemon-secret-devpod-ws" false) as (_ & (c & Hc & _ & _ & He) & _).
  - intros m. reflexivity.
  - vm_compute. reflexivity.
  - exists c. split; [exact Hc|]. intros e. rewrite He. split.
    + intros [H|(k & v & -> & Hk & Hne)]; [by apply elem_of_nil in H|].
      cbn [ro_Env kube_run_options] in Hk. apply lookup_insert_Some in Hk as [[<- <-]|[Hk1 Hk]]; [done|].
      by apply lookup_singleton_Some in Hk as [<- _].
    + intros ->. right. exists "A", "b".
      cbn [ro_Env kube_run_options]. by rewrite lookup_insert_eq.
Defined.

(** ** A pod that failed stays

    A pod that was evicted has the phase Failed.  It was made with the same
    options, so starting the workspace succeeds and leaves it as it is. *)
Definition failed_pod (p : Pod) : Pod := {|
  p_Name := p_Name p; p_Labels := p_Labels p; p_Annotations := p_Annotations p;
  p_Created := p_Created p; p_Deleted := p_Deleted p; p_Spec := p_Spec p;
  p_Status := {| pst_Phase := "Failed"; pst_InitContainerStatuses := [];
                 pst_ContainerStatuses := [] |} |}.
Definition failed_host : host cluster :=
  Host ∅ (Cluster (failed_pod <$> c_pods (h_eng ran_host)) (c_claims (h_eng ran_host))
            (c_secrets (h_eng ran_host))).
Definition status_after (h : host cluster) : result (option string) :=
  (option_map cd_Status) <$> (kube_Find demo_kube "devpod" "ws" h).1.
Example kube_Start_failed_pod :
  let started := kube_Start demo_kube "devpod" kube_options "ws" failed_host in
  status_after ran_host = Ok (Some "running") ∧ status_after failed_host = Ok (Some "exited") ∧
  started.1 = Ok () ∧ status_after started.2 = Ok (Some "exited").
Proof. vm_compute. auto. Qed.
