(* ===== verification/CredHelpers.v ===== *)
(** * Git and docker credentials in a workspace

    pkg/gitcredentials, pkg/gitsshsigning, the configuration of
    pkg/dockercredentials, the handlers of pkg/credentials/server.go and
    pkg/agent/tunnelserver, and the commands git-credentials,
    docker-credentials and credentials-server of cmd/agent.  A [machine] is the remote or the
    local one: files, environment, the commands that ran, and what was printed.  The
    JSON codecs, the docker configuration file, HTTP and the shell are parameters. *)

From S2P Require Import Prelude GoStrings SshConfig Types Lifecycle Git Names DevContainer Provider Options Home Kubernetes.
From stdpp Require Import base gmap list strings pretty.
From Stdlib Require Import ZArith.

Local Open Scope string_scope.
Local Open Scope list_scope.

(** ** Machines *)

Record command := Command {
  cmd_env : list string; cmd_args : list string; cmd_stdin : string }.
Record machine := Machine {
  m_files : gmap string string;
  m_dirs : gset string;
  m_owner : gmap string string;
  m_env : gmap string string;
  m_ran : list command;
  m_out : string;
}.
(** What the operating system of a machine answers. *)
Record msys := {
  ms_read : string → option string;
  ms_write : string → option string;
  ms_chown : string → string → option string;
  ms_remove : string → option string;
  (** [command.GetHome] *)
  ms_GetHome : string → string + string;
  ms_Executable : string + string;
  (** the output and the error of a command, and the files after it *)
  ms_exec : machine → command → string * option string * gmap string string;
}.

Definition set_files (f : gmap string string) (m : machine) : machine :=
  Machine f (m_dirs m) (m_owner m) (m_env m) (m_ran m) (m_out m).
Definition add_dir (d : string) (m : machine) : machine :=
  Machine (m_files m) ({[d]} ∪ m_dirs m) (m_owner m) (m_env m) (m_ran m) (m_out m).
Definition set_owner (path user : string) (m : machine) : machine :=
  Machine (m_files m) (m_dirs m) (<[path := user]> (m_owner m)) (m_env m) (m_ran m) (m_out m).
Definition set_env (k v : string) (m : machine) : machine :=
  Machine (m_files m) (m_dirs m) (m_owner m) (<[k := v]> (m_env m)) (m_ran m) (m_out m).
Definition add_ran (c : command) (m : machine) : machine :=
  Machine (m_files m) (m_dirs m) (m_owner m) (m_env m) (m_ran m ++ [c]) (m_out m).
Definition print (s : string) (m : machine) : machine :=
  Machine (m_files m) (m_dirs m) (m_owner m) (m_env m) (m_ran m) (m_out m +:+ s).
Definition remove_tree (dir : string) (m : machine) : machine :=
  Machine (filter (λ kv, kv.1 ≠ dir ∧ HasPrefix kv.1 (dir +:+ "/") = false) (m_files m))
    (filter (λ d, d ≠ dir ∧ HasPrefix d (dir +:+ "/") = false) (m_dirs m))
    (m_owner m) (m_env m) (m_ran m) (m_out m).

(** A JSON codec of the standard library for one type. *)
Record json (A : Type) := { j_Marshal : A → string; j_Unmarshal : string → string + A }.
Arguments j_Marshal {_}.
Arguments j_Unmarshal {_}.
Definition json_ok {A} (j : json A) : Prop := ∀ a, j_Unmarshal j (j_Marshal j a) = inr a.

Section OneMachine.
Context (ms : msys).
Notation C := (M machine).

Definition Getenv (k : string) : C string := m ← getS; mret (default "" (m_env m !! k)).
Definition Setenv (k v : string) : C unit := modifyS (set_env k v).
Definition ErrNotExist : string := "no such file or directory".
(** [os.ReadFile]; a missing file is [None] *)
Definition read_file (path : string) : C (option string) :=
  m ← getS;
  match m_files m !! path with
  | None => mret None
  | Some c => match ms_read ms path with Some e => throw e | None => mret (Some c) end
  end.
Definition write_file (path content : string) : C unit :=
  match ms_write ms path with
  | Some e => throw e
  | None => modifyS (λ m, set_files (<[path := content]> (m_files m)) m)
  end.
Definition remove_all (dir : string) : C unit :=
  match ms_remove ms dir with Some e => throw e | None => modifyS (remove_tree dir) end.
(** pkg/file *)
Definition Chown (userName target : string) : C unit :=
  if sempty userName then mret ()
  else match ms_chown ms userName target with
       | Some e => throw e
       | None => modifyS (set_owner target userName)
       end.
Definition file_MkdirAll (userName dir : string) : C unit :=
  m ← getS;
  if bool_decide (dir ∈ m_dirs m) then mret ()
  else match ms_write ms dir with
       | Some e => throw e
       | None => _ ← modifyS (add_dir dir); Chown userName dir
       end.
(** [exec.Command(...).Output] with the environment, the arguments and the input *)
Definition exec (env args : list string) (stdin : string) : C (string * option string) :=
  m ← getS;
  let c := Command env args stdin in
  let '(result, files) := ms_exec ms m c in
  _ ← modifyS (λ m, add_ran c (set_files files m));
  mret result.
Definition Output (env args : list string) (stdin : string) : C string :=
  '(out, err) ← exec env args stdin;
  match err with Some e => throw e | None => mret out end.

(** ** pkg/gitcredentials *)

Record GitCredentials := {
  gc_Protocol : string; gc_URL : string; gc_Host : string; gc_Path : string;
  gc_Username : string; gc_Password : string }.
Record GitUser := { gu_Name : string; gu_Email : string }.
Definition no_credentials : GitCredentials := {|
  gc_Protocol := ""; gc_URL := ""; gc_Host := ""; gc_Path := ""; gc_Username := "";
  gc_Password := "" |}.

Definition credential_section (line : string) : bool := bool_decide (TrimSpace line = "[credential]").
Definition section_start (line : string) : bool := HasPrefix (TrimSpace line) "[".
Fixpoint drop_credential (isCredential : bool) (lines : list string) : list string :=
  match lines with
  | [] => []
  | line :: ls =>
      if credential_section line then drop_credential true ls
      else if isCredential then
        if section_start line then line :: drop_credential false ls
        else drop_credential true ls
      else line :: drop_credential false ls
  end.
Definition removeCredentialHelper (content : string) : string :=
  GoStrings.Join (drop_credential false (log_scan content).1) newline.

Definition getGlobalGitConfigPath (userName : string) : C string :=
  xdg ← Getenv "XDG_CONFIG_HOME";
  if decide (xdg ≠ "") then mret (filepath_Join [xdg; "git"; "config"])
  else
    home ← liftR (wrap ("get homedir for " +:+ userName) (of_sum (ms_GetHome ms userName)));
    mret (filepath_Join [home; ".gitconfig"]).
Definition GetLocalGitConfigPath (repoPath : string) : string :=
  filepath_Join [repoPath; ".git"; "config"].

Definition helper_line (binaryPath : string) (port : Z) : string :=
  "helper = !'" +:+ binaryPath +:+ "' agent git-credentials" +:+
  (if decide (port ≠ (-1)%Z) then " --port " +:+ pretty port else "").
Definition with_helper (config helper : string) : string :=
  removeCredentialHelper config +:+ newline +:+ "[credential]" +:+ newline +:+
  "        " +:+ helper +:+ newline.
Definition ConfigureHelper (binaryPath userName : string) (port : Z) : C unit :=
  gitConfigPath ← getGlobalGitConfigPath userName;
  out ← read_file gitConfigPath;
  let config := default "" out in
  let helper := helper_line binaryPath port in
  if Contains config helper then mret ()
  else
    r ← caught (write_file gitConfigPath (with_helper config helper));
    _ ← liftR (wrap "write git config" r);
    Chown userName gitConfigPath.

Definition RemoveHelperFromPath (gitConfigPath : string) : C unit :=
  out ← read_file gitConfigPath;
  let config := default "" out in
  if Contains config "[credential]" then
    r ← caught (write_file gitConfigPath (removeCredentialHelper config));
    liftR (wrap "write git config" r)
  else mret ().
Definition RemoveHelper (userName : string) : C unit :=
  gitConfigPath ← getGlobalGitConfigPath userName; RemoveHelperFromPath gitConfigPath.

Definition set_field (key value : string) (c : GitCredentials) : GitCredentials :=
  if decide (key = "protocol") then
    {| gc_Protocol := value; gc_URL := gc_URL c; gc_Host := gc_Host c; gc_Path := gc_Path c;
       gc_Username := gc_Username c; gc_Password := gc_Password c |}
  else if decide (key = "host") then
    {| gc_Protocol := gc_Protocol c; gc_URL := gc_URL c; gc_Host := value; gc_Path := gc_Path c;
       gc_Username := gc_Username c; gc_Password := gc_Password c |}
  else if decide (key = "username") then
    {| gc_Protocol := gc_Protocol c; gc_URL := gc_URL c; gc_Host := gc_Host c;
       gc_Path := gc_Path c; gc_Username := value; gc_Password := gc_Password c |}
  else if decide (key = "password") then
    {| gc_Protocol := gc_Protocol c; gc_URL := gc_URL c; gc_Host := gc_Host c;
       gc_Path := gc_Path c; gc_Username := gc_Username c; gc_Password := value |}
  else if decide (key = "url") then
    {| gc_Protocol := gc_Protocol c; gc_URL := value; gc_Host := gc_Host c; gc_Path := gc_Path c;
       gc_Username := gc_Username c; gc_Password := gc_Password c |}
  else if decide (key = "path") then
    {| gc_Protocol := gc_Protocol c; gc_URL := gc_URL c; gc_Host := gc_Host c; gc_Path := value;
       gc_Username := gc_Username c; gc_Password := gc_Password c |}
  else c.
Definition parse_line (c : GitCredentials) (line : string) : GitCredentials :=
  match Split "=" (TrimSpace line) with
  | key :: ((_ :: _) as rest) => set_field key (GoStrings.Join rest "=") c
  | _ => c
  end.
Definition Parse (raw : string) : GitCredentials :=
  foldl parse_line no_credentials (Split "010" raw).

Definition request_line (key value : string) : list string :=
  if decide (value ≠ "") then [key +:+ "=" +:+ value] else [].
Definition ToString (c : GitCredentials) : string :=
  GoStrings.Join
    (request_line "protocol" (gc_Protocol c) ++ request_line "url" (gc_URL c) ++
     request_line "path" (gc_Path c) ++ request_line "host" (gc_Host c) ++
     request_line "username" (gc_Username c) ++ request_line "password" (gc_Password c))
    newline +:+ newline.

(** The value is put between double quotes of a shell command. *)
Definition set_user_command (userName key value : string) : list string :=
  let shellCommand := "git config --global " +:+ key +:+ " " +:+ quoted value in
  if decide (userName ≠ "") then ["su"; userName; "-c"; shellCommand]
  else ["sh"; "-c"; shellCommand].
Definition set_user_key (userName key value : string) : C unit :=
  if decide (value ≠ "") then
    let args := set_user_command userName key value in
    r ← caught (Output [] args "");
    _ ← liftR (wrap ("set " +:+ key +:+ " '" +:+ GoStrings.Join args " " +:+ "'") r);
    mret ()
  else mret ().
Definition SetUser (userName : string) (user : GitUser) : C unit :=
  _ ← set_user_key userName "user.name" (gu_Name user);
  set_user_key userName "user.email" (gu_Email user).

Definition GetUser (userName : string) : C GitUser :=
  scopeArgs ← (if decide (userName ≠ "") then
                 p ← caught (getGlobalGitConfigPath userName);
                 p ← liftR (wrap ("get git global dir for " +:+ userName) p);
                 mret ["config"; "--file"; p]
               else mret ["config"; "--global"]);
  '(name, _) ← exec [] ("git" :: scopeArgs ++ ["user.name"]) "";
  '(email, _) ← exec [] ("git" :: scopeArgs ++ ["user.email"]) "";
  mret {| gu_Name := TrimSpace name; gu_Email := TrimSpace email |}.

Definition GetCredentials (requestObj : GitCredentials) : C GitCredentials :=
  gitHelperPort ← Getenv "DEVPOD_GIT_HELPER_PORT";
  if decide (gitHelperPort ≠ "") then
    binaryPath ← liftR (of_sum (ms_Executable ms));
    stdout ← Output [] [binaryPath; "agent"; "git-credentials"; "--port"; gitHelperPort; "get"]
               (ToString requestObj);
    mret (Parse stdout)
  else
    stdout ← Output (GetDefaultExtraEnv false) ["git"; "credential"; "fill"] (ToString requestObj);
    mret (Parse stdout).

(** [GetHTTPPath]; [urlPath] is the path of [net/url.Parse] *)
Definition GetHTTPPath (urlPath : string → string + string)
    (host protocol currentPath repository : string) : C string :=
  if decide (currentPath ≠ "") then mret currentPath
  else
    let configKey := "credential." +:+ protocol +:+ "://" +:+ host +:+ ".useHttpPath" in
    '(out, _) ← exec (GetDefaultExtraEnv false) ["git"; "config"; "--get"; configKey] "";
    if decide (TrimSpace out ≠ "true") then mret ""
    else liftR (wrap "parse workspace repository" (of_sum (urlPath repository))).

Definition SetupGpgGitKey (gitSignKey : string) : C unit :=
  '(out, err) ← exec [] ["git"; "config"; "--global"; "user.signingKey"; gitSignKey] "";
  liftR (wrap ("git signkey: " +:+ out) (match err with Some e => Err e | None => Ok () end)).

(** ** pkg/gitsshsigning *)

Definition HelperScriptPath : string := "/usr/local/bin/devpod-ssh-signature".
Definition HelperScript : string :=
  "#!/bin/bash" +:+ newline +:+ newline +:+ "devpod agent git-ssh-signature " +:+ quoted "$@" +:+
  newline.
Definition ssh_section : string := "[gpg " +:+ quoted "ssh" +:+ "]".
Definition tab : string := String "009" "".
Definition GitConfigTemplate (gitSigningKey : string) : string :=
  newline +:+ ssh_section +:+ newline +:+ tab +:+ "program = devpod-ssh-signature" +:+ newline +:+
  "[gpg]" +:+ newline +:+ tab +:+ "format = ssh" +:+ newline +:+ "[user]" +:+ newline +:+ tab +:+
  "signingkey = " +:+ gitSigningKey +:+ newline.

Fixpoint drop_signature (isGpgSetup : bool) (lines : list string) : list string :=
  match lines with
  | [] => []
  | line :: ls =>
      if decide (TrimSpace line = ssh_section) then drop_signature true ls
      else if decide (TrimSpace line = "[gpg]") then line :: drop_signature true ls
      else if isGpgSetup then
        if section_start line then line :: drop_signature false ls
        else drop_signature true ls
      else line :: drop_signature false ls
  end.
Definition removeSignatureHelper (content : string) : string :=
  GoStrings.Join (drop_signature false (log_scan content).1) newline.

Definition createHelperScript : C unit :=
  '(_, err) ← exec [] ["sudo"; "bash"; "-c";
                       "echo '" +:+ HelperScript +:+ "' > " +:+ HelperScriptPath] "";
  match err with Some e => throw e | None => mret () end.
Definition makeScriptExecutable : C unit :=
  '(_, err) ← exec [] ["sudo"; "chmod"; "+x"; HelperScriptPath] "";
  match err with Some e => throw e | None => mret () end.
Definition getGitConfigPath (userName : string) : C string :=
  homeDir ← liftR (of_sum (ms_GetHome ms userName));
  mret (filepath_Join [homeDir; ".gitconfig"]).
Definition readGitConfig (gitConfigPath : string) : C string :=
  out ← read_file gitConfigPath; mret (default "" out).
Definition writeGitConfig (gitConfigPath content userName : string) : C unit :=
  r ← caught (write_file gitConfigPath content);
  _ ← liftR (wrap "write git config" r);
  Chown userName gitConfigPath.
Definition updateGitConfig (gitConfigPath userName gitSigningKey : string) : C unit :=
  configContent ← readGitConfig gitConfigPath;
  if Contains configContent "program = devpod-ssh-signature" then mret ()
  else writeGitConfig gitConfigPath
         (removeSignatureHelper configContent +:+ GitConfigTemplate gitSigningKey) userName.
Definition signing_ConfigureHelper (userName gitSigningKey : string) : C unit :=
  _ ← createHelperScript;
  _ ← makeScriptExecutable;
  gitConfigPath ← getGitConfigPath userName;
  updateGitConfig gitConfigPath userName gitSigningKey.
Definition removeGitConfigHelper (gitConfigPath userName : string) : C unit :=
  configContent ← readGitConfig gitConfigPath;
  writeGitConfig gitConfigPath (removeSignatureHelper configContent) userName.
Definition signing_RemoveHelper (userName : string) : C unit :=
  m ← getS;
  _ ← (match m_files m !! HelperScriptPath, ms_remove ms HelperScriptPath with
       | None, _ => mret ()
       | Some _, Some e => throw e
       | Some _, None => modifyS (λ m, set_files (delete HelperScriptPath (m_files m)) m)
       end);
  gitConfigPath ← getGitConfigPath userName;
  removeGitConfigHelper gitConfigPath userName.
End OneMachine.

(** ** pkg/dockercredentials: the credential helper of docker *)

(** The docker configuration in a directory: its credential store, and the rest
    of it in [dc_other]; reading and printing the file are parameters. *)
Record DockerConfig := { dc_CredentialsStore : string; dc_other : string }.
Record docker_codec := {
  (** [config.Load] of the contents of config.json, which may be missing *)
  dk_Load : option string → string + DockerConfig;
  dk_Save : DockerConfig → string;
}.
Record Request := { rq_ServerURL : string }.
Record ListResponse := { lr_Registries : gmap string string }.

Section Docker.
Context (ms : msys) (dk : docker_codec).
Notation C := (M machine).

Definition docker_config_file (configDir : string) : string :=
  filepath_Join [configDir; "config.json"].
Definition docker_helper_script (shebang binaryPath : string) (port : Z) : string :=
  shebang +:+ newline +:+ "'" +:+ binaryPath +:+ "' agent docker-credentials --port '" +:+
  pretty port +:+ "' " +:+ quoted "$@".
Definition configureCredentials (userName shebang targetDir configDir : string) (port : Z)
    : C unit :=
  binaryPath ← liftR (of_sum (ms_Executable ms));
  _ ← file_MkdirAll ms userName configDir;
  content ← read_file ms (docker_config_file configDir);
  dockerConfig ← liftR (of_sum (dk_Load dk content));
  r ← caught (write_file ms (filepath_Join [targetDir; "docker-credential-devpod"])
                (docker_helper_script shebang binaryPath port));
  _ ← liftR (wrap "write credential helper" r);
  _ ← write_file ms (docker_config_file configDir)
        (dk_Save dk {| dc_CredentialsStore := "devpod"; dc_other := dc_other dockerConfig |});
  Chown ms userName (docker_config_file configDir).

Definition ConfigureCredentialsContainer (userName : string) (port : Z) : C unit :=
  userHome ← liftR (of_sum (ms_GetHome ms userName));
  env ← Getenv "DOCKER_CONFIG";
  let configDir := if decide (env = "") then filepath_Join [userHome; ".docker"] else env in
  configureCredentials userName "#!/bin/sh" "/usr/local/bin" configDir port.

(** [ConfigureCredentialsMachine] and, with another shell,
    [ConfigureCredentialsDockerless]; the directory has a random name. *)
Definition configure_in (shebang dockerConfigDir : string) (port : Z) : C string :=
  r ← caught (configureCredentials "" shebang dockerConfigDir dockerConfigDir port);
  match r with
  | Err e => _ ← try_ (remove_all ms dockerConfigDir); throw e
  | Panic => liftR Panic
  | NoFuel => liftR NoFuel
  | Ok _ =>
      _ ← Setenv "DOCKER_CONFIG" dockerConfigDir;
      path ← Getenv "PATH";
      _ ← Setenv "PATH" (path +:+ ":" +:+ dockerConfigDir);
      mret dockerConfigDir
  end.
Definition ConfigureCredentialsDockerless (random6 targetFolder : string) (port : Z) : C string :=
  configure_in "#!/.dockerless/bin/sh" (filepath_Join [targetFolder; ".cache"; random6]) port.
Definition ConfigureCredentialsMachine (random12 targetFolder : string) (port : Z) : C string :=
  configure_in "#!/bin/sh" (filepath_Join [targetFolder; ".cache"; random12]) port.

(** The credentials of docker win over those of the other container tools. *)
Definition ListCredentials (containers docker : string + gmap string AuthConfig)
    : result ListResponse :=
  c ← of_sum containers;
  d ← of_sum docker;
  Ok {| lr_Registries := (ac_Username <$> d) ∪ (ac_Username <$> c) |}.
End Docker.

(** ** pkg/agent/tunnelserver: what the local machine answers *)

Record GitHttpCredential := {
  gh_Host : string; gh_User : string; gh_Password : string; gh_Path : string }.
Record PlatformOptions := {
  po_Enabled : bool;
  po_UserGitHttp : list GitHttpCredential;
  po_ProjectGitHttp : list GitHttpCredential;
}.
Record Forwarder := { fw_Forward : string → option string; fw_StopForward : string → option string }.
Record tunnelServer := {
  t_allowGitCredentials : bool;
  t_allowDockerCredentials : bool;
  t_allowKubeConfig : bool;
  t_allowPlatformOptions : bool;
  t_forwarder : option Forwarder;
  t_mounts : list Mount;
  t_workspace : option Workspace;
  t_platformOptions : option PlatformOptions;
}.

(** What the handlers ask libraries for. *)
Record tunnel_world := {
  tw_git : json GitCredentials;
  tw_user : json GitUser;
  tw_request : json Request;
  tw_credentials : json Credentials;
  tw_list : json ListResponse;
  (** the stored credentials of a registry, and all of them *)
  tw_docker : string → string + AuthConfig;
  tw_containers : string → string + AuthConfig;
  tw_all_docker : string + gmap string AuthConfig;
  tw_all_containers : string + gmap string AuthConfig;
  tw_urlPath : string → string + string;
  tw_kubeConfig : option PlatformOptions → string + string;
}.

Definition platform_enabled (t : tunnelServer) : bool :=
  match t_platformOptions t with Some p => po_Enabled p | None => false end.
Definition with_platform_credential (c : GitCredentials) (g : GitHttpCredential)
    : GitCredentials := {|
  gc_Protocol := gc_Protocol c; gc_URL := gc_URL c; gc_Host := gc_Host c;
  gc_Path := gh_Path g; gc_Username := gh_User g; gc_Password := gh_Password g |}.
Definition with_path (path : string) (c : GitCredentials) : GitCredentials := {|
  gc_Protocol := gc_Protocol c; gc_URL := gc_URL c; gc_Host := gc_Host c; gc_Path := path;
  gc_Username := gc_Username c; gc_Password := gc_Password c |}.
(** A single credential of the platform is for every host. *)
Definition platform_credentials (p : PlatformOptions) (c : GitCredentials) : GitCredentials :=
  match po_UserGitHttp p ++ po_ProjectGitHttp p with
  | [g] => with_platform_credential c g
  | l => match List.find (λ g, bool_decide (gh_Host g = gc_Host c)) l with
         | Some g => with_platform_credential c g
         | None => c
         end
  end.

Section Tunnel.
Context (ms : msys) (tw : tunnel_world) (t : tunnelServer).
Notation C := (M machine).

(** the path of the repository is asked for when the workspace is cloned *)
Definition workspace_path (c : GitCredentials) : C GitCredentials :=
  w ← liftR (deref (t_workspace t));
  if decide (ws_gitRepository (w_source w) ≠ "") then
    r ← caught (GetHTTPPath ms (tw_urlPath tw) (gc_Host c) (gc_Protocol c) (gc_Path c)
                  (ws_gitRepository (w_source w)));
    path ← liftR (wrap "get http path" r);
    mret (with_path path c)
  else mret c.
Definition local_credentials (c : GitCredentials) : C GitCredentials :=
  credentials ← workspace_path c;
  response ← caught (GetCredentials ms credentials);
  liftR (wrap "get git response" response).
Definition tunnel_GitCredentials (message : string) : C string :=
  if negb (t_allowGitCredentials t) then throw "git credentials forbidden"
  else
    credentials ← liftR (wrap "decode git credentials request"
                           (of_sum (j_Unmarshal (tw_git tw) message)));
    credentials ← (match t_platformOptions t with
                   | Some p => if po_Enabled p then mret (platform_credentials p credentials)
                               else local_credentials credentials
                   | None => local_credentials credentials
                   end);
    mret (j_Marshal (tw_git tw) credentials).

Definition tunnel_DockerCredentials (message : string) : C string :=
  if negb (t_allowDockerCredentials t) then throw "docker credentials forbidden"
  else
    request ← liftR (of_sum (j_Unmarshal (tw_request tw) message));
    if decide (rq_ServerURL request ≠ "") then
      credentials ← liftR (GetAuthConfig (tw_docker tw) (tw_containers tw) (rq_ServerURL request));
      mret (j_Marshal (tw_credentials tw) credentials)
    else
      listResponse ← liftR (ListCredentials (tw_all_containers tw) (tw_all_docker tw));
      mret (j_Marshal (tw_list tw) listResponse).

Definition tunnel_GitUser : C string :=
  gitUser ← GetUser ms ""; mret (j_Marshal (tw_user tw) gitUser).

Definition tunnel_KubeConfig : result string :=
  if negb (t_allowKubeConfig t) then Err "kube config forbidden"
  else wrap "create kube config" (of_sum (tw_kubeConfig tw (t_platformOptions t))).

Definition ForwardPort (port : string) : result unit :=
  match t_forwarder t with
  | None => Err "cannot forward ports"
  | Some f => wrap ("error forwarding port " +:+ port)
                (match fw_Forward f port with Some e => Err e | None => Ok () end)
  end.
Definition StopForwardPort (port : string) : result unit :=
  match t_forwarder t with
  | None => Err "cannot forward ports"
  | Some f => wrap ("error stop forwarding port " +:+ port)
                (match fw_StopForward f port with Some e => Err e | None => Ok () end)
  end.

(** Which folder of the local machine may be streamed. *)
Definition check_streaming (what : string) : result unit :=
  if platform_enabled t && negb (t_allowPlatformOptions t) then
    Err ("streaming " +:+ what +:+ " from local computer to platform workspace is not " +:+
         "supported. Please specify a git repository to clone instead")
  else Ok ().
Definition stream_workspace_folder : result string :=
  _ ← check_streaming "workspace";
  w ← of_option "workspace is nil" (t_workspace t);
  Ok (ws_localFolder (w_source w)).
Definition stream_mount_folder (mount : string) : result string :=
  _ ← check_streaming "mounts";
  m ← of_option ("mount " +:+ mount +:+ " is not allowed to download")
        (List.find (λ m, bool_decide (Mount_String m = mount)) (t_mounts t));
  Ok (mount_source m).
End Tunnel.

(** ** pkg/credentials: the server in the workspace *)

Record response := { rs_Status : nat; rs_Body : string }.
(** an answer, or the text of an error with status 500 *)
Definition respond (what : string) (r : result string) : response :=
  match wrap what r with
  | Ok s => {| rs_Status := 200; rs_Body := s |}
  | Err e => {| rs_Status := 500; rs_Body := e +:+ newline |}
  | Panic | NoFuel => {| rs_Status := 500; rs_Body := "" |}
  end.
Definition DefaultPort : string := "12049".
Definition CredentialsServerPortEnv : string := "DEVPOD_CREDENTIALS_SERVER_PORT".
Definition GetPort : M machine Z :=
  env ← Getenv CredentialsServerPortEnv;
  let strPort := if decide (env ≠ "") then env else DefaultPort in
  liftR (of_option ("convert port " +:+ strPort) (Atoi strPort)).

(** The workspace and the local machine. *)
Notation two := (machine * machine)%type.
Definition on_remote {A} (c : M machine A) : M two A := zoom fst (λ m p, (m, p.2)) c.
Definition on_local {A} (c : M machine A) : M two A := zoom snd (λ m p, (p.1, m)) c.
(** [defer]: the outcome of the cleanup is dropped *)
Definition deferred {S A} (cleanup : M S unit) (c : M S A) : M S A := λ s,
  let '(r, s') := c s in (r, (cleanup s').2).

(** The tunnel is made with [exitOnClose], so when it closes the process ends on the spot, with
    [os.Exit] in pkg/stdio/conn.go, and no deferred call runs.  A [server_process] returns or is ended
    in this way. *)
Definition ExitCodeIO : Z := 64.
Inductive ended (A : Type) := Returned (r : result A) | Exited (code : Z).
Arguments Returned {_} _.
Arguments Exited {_} _.
Definition server_process (A : Type) : Type := two → ended A * two.
#[export] Instance server_ret : MRet server_process := λ A a s, (Returned (Ok a), s).
#[export] Instance server_bind : MBind server_process := λ A B k c s,
  match c s with
  | (Returned (Ok a), s') => k a s'
  | (Returned (Err e), s') => (Returned (Err e), s')
  | (Returned Panic, s') => (Returned Panic, s')
  | (Returned NoFuel, s') => (Returned NoFuel, s')
  | (Exited code, s') => (Exited code, s')
  end.

(** What the process is doing when the tunnel closes, apart from serving *)
Inductive server_phase :=
| Pinging | ConfiguringDocker | ConfiguringUser | ConfiguringHelper | ConfiguringSigning
| RemovingSigning | RemovingHelper.
(** pkg/gitsshsigning/server.go; the signature is the output of ssh-keygen *)
Record GitSSHSignatureRequest := { sr_Content : string; sr_KeyPath : string }.
Record GitSSHSignatureResponse := { sr_Signature : string }.
Definition Sign (ms : msys) (req : GitSSHSignatureRequest) : M machine GitSSHSignatureResponse :=
  out ← caught (Output ms [] ["ssh-keygen"; "-Y"; "sign"; "-f"; sr_KeyPath req; "-n"; "git"]
                  (sr_Content req));
  out ← liftR (wrap "failed to sign commit" out);
  mret {| sr_Signature := out |}.

Section Server.
Context (remote local : msys) (tw : tunnel_world) (t : tunnelServer) (dk : docker_codec).
Context (jreq : json GitSSHSignatureRequest) (jsig : json GitSSHSignatureResponse).
(** the answers of the platform and of gpg, and the text of an error of the tunnel *)
Context (loftConfig : string → string + string) (gpgKeys : string + string).
Context (rpc : string → string).
Notation C := (M two).

Definition tunnel_GitSSHSignature (message : string) : M machine string :=
  request ← liftR (wrap "git ssh sign request" (of_sum (j_Unmarshal jreq message)));
  r ← caught (Sign local request);
  signature ← liftR (wrap "get git ssh signature" r);
  mret (j_Marshal jsig signature).
Definition tunnel_GPGPublicKeys : result string :=
  EncodeToString <$> wrap "get gpg host public keys" (of_sum gpgKeys).

(** A call through the tunnel. *)
Definition rpc_call {A} (c : M machine A) : C (result A) :=
  r ← caught (on_local c);
  match r with
  | Err e => mret (Err (rpc e))
  | Panic => liftR Panic
  | NoFuel => liftR NoFuel
  | Ok a => mret (Ok a)
  end.
Definition call_for (what : string) (c : M machine string) : C response :=
  r ← rpc_call c; mret (respond what r).
(** The handler of [RunCredentialsServer]. *)
Definition serve (path body : string) : C response :=
  if decide (path = "/git-credentials") then
    call_for "get git credentials response" (tunnel_GitCredentials local tw t body)
  else if decide (path = "/docker-credentials") then
    call_for "get docker credentials response" (tunnel_DockerCredentials tw t body)
  else if decide (path = "/git-ssh-signature") then
    call_for "get git ssh signature" (tunnel_GitSSHSignature body)
  else if decide (path = "/loft-platform-credentials") then
    call_for "get platform credentials" (liftR (of_sum (loftConfig body)))
  else if decide (path = "/gpg-public-keys") then
    call_for "get gpg public keys" (liftR tunnel_GPGPublicKeys)
  else mret {| rs_Status := 200; rs_Body := "" |}.

(** ** cmd/agent/container/credentials_server.go *)

Definition keep_name (own got : string) : string := if decide (own ≠ "") then "" else got.
Definition configureGitUserLocally (userName : string) : C unit :=
  localGitUser ← on_remote (GetUser remote userName);
  if decide (gu_Name localGitUser ≠ "" ∧ gu_Email localGitUser ≠ "") then mret ()
  else
    r ← rpc_call (tunnel_GitUser local tw);
    response ← liftR (wrap "retrieve git user" r);
    gitUser ← liftR (wrap "decode git user" (of_sum (j_Unmarshal (tw_user tw) response)));
    r ← caught (on_remote (SetUser remote userName
          {| gu_Name := keep_name (gu_Name localGitUser) (gu_Name gitUser);
             gu_Email := keep_name (gu_Email localGitUser) (gu_Email gitUser) |}));
    liftR (wrap "set git user & email" r).

Record CredentialsServerCmd := {
  cs_User : string;
  cs_ConfigureGitHelper : bool;
  cs_ConfigureDockerHelper : bool;
  cs_GitUserSigningKey : string;
}.
Context (closes : server_phase → bool).
Definition doing {A} (p : server_phase) (c : C A) : server_process A := λ s,
  if closes p then (Exited ExitCodeIO, s) else let '(r, s') := c s in (Returned r, s').
(** [defer]: the outcome of the cleanup is dropped *)
Definition cleaning_up (p : server_phase) (cleanup : C unit) (c : server_process unit) : server_process unit := λ s,
  match c s with
  | (Exited code, s') => (Exited code, s')
  | (Returned r, s') =>
      match doing p cleanup s' with
      | (Exited code, s'') => (Exited code, s'')
      | (Returned _, s'') => (Returned r, s'')
      end
  end.

(** [serving] is the time the server runs, with its requests, until its context is cancelled, it
    fails, or the tunnel closes; [available] says whether the port is free, [ping] what the local
    machine answers first. *)
Definition run_signing (cmd : CredentialsServerCmd) (serving : server_process unit) : server_process unit :=
  if decide (cs_GitUserSigningKey cmd ≠ "") then
    _ ← doing ConfiguringSigning (
          decodedKey ← liftR (of_option "decode git ssh signature key"
                                (DecodeString (cs_GitUserSigningKey cmd)));
          r ← caught (on_remote (signing_ConfigureHelper remote (cs_User cmd) decodedKey));
          liftR (wrap "configure git ssh signature helper" r));
    cleaning_up RemovingSigning (on_remote (signing_RemoveHelper remote (cs_User cmd))) serving
  else serving.
Definition run_git_helper (cmd : CredentialsServerCmd) (port : Z) (serving : server_process unit)
    : server_process unit :=
  if cs_ConfigureGitHelper cmd then
    _ ← doing ConfiguringHelper (
          binaryPath ← liftR (of_sum (ms_Executable remote));
          r ← caught (on_remote (ConfigureHelper remote binaryPath (cs_User cmd) port));
          liftR (wrap "configure git helper" r));
    cleaning_up RemovingHelper (on_remote (RemoveHelper remote (cs_User cmd)))
      (run_signing cmd serving)
  else run_signing cmd serving.
Definition CredentialsServer_Run (cmd : CredentialsServerCmd) (port : Z) (ping : result unit)
    (available : bool) (serving : server_process unit) : server_process unit :=
  _ ← doing Pinging (liftR (wrap "ping client" ping));
  if negb available then mret ()
  else
    _ ← doing ConfiguringDocker (
          if cs_ConfigureDockerHelper cmd then
            on_remote (ConfigureCredentialsContainer remote dk (cs_User cmd) port)
          else mret ());
    _ ← doing ConfiguringUser (configureGitUserLocally (cs_User cmd));
    run_git_helper cmd port serving.

(** ** cmd/agent: the helpers that git and docker call *)

(** the socket of the daemon of the platform is there; posting to it and to a port *)
Context (socket : bool) (post_socket post : string → string → C (string + response)).

Definition git_error_log : string := "/tmp/git-credentials-error.log".
Definition append_log (path line : string) : C unit :=
  try_ (on_remote (
    m ← getS;
    write_file remote path (default "" (m_files m !! path) +:+ line +:+ newline))).
(** [doRequest] *)
Definition do_request {A B} (jA : json A) (jB : json B) (send : string → C (string + response))
    (a : A) : C (result B) :=
  r ← send (j_Marshal jA a);
  mret (match r with
        | inl e => Err ("error retrieving credentials from credentials server: " +:+ e)
        | inr rs =>
            if decide (rs_Status rs ≠ 200%nat) then
              Err ("error reading credentials (" +:+ pretty (rs_Status rs) +:+ "): " +:+ rs_Body rs)
            else wrap "error decoding credentials" (of_sum (j_Unmarshal jB (rs_Body rs)))
        end).
Definition or_log {A} (logPath from : string) (r : result A) : C (option A) :=
  match r with
  | Ok a => mret (Some a)
  | Err e => _ ← append_log logPath ("get credentials from " +:+ from +:+ ": " +:+ e); mret None
  | Panic => liftR Panic
  | NoFuel => liftR NoFuel
  end.
Definition getCredentialsFromWorkspaceServer (c : GitCredentials) : C (option GitCredentials) :=
  if negb socket then mret None
  else
    r ← do_request (tw_git tw) (tw_git tw) (post_socket "http://runner-proxy/git-credentials") c;
    or_log git_error_log "workspace server" r.
Definition getCredentialsFromLocalMachine (c : GitCredentials) (port : Z)
    : C (option GitCredentials) :=
  r ← do_request (tw_git tw) (tw_git tw)
        (post ("http://localhost:" +:+ pretty port +:+ "/git-credentials")) c;
  or_log git_error_log "local machine" r.
Definition git_credentials_Run (port : Z) (args : list string) (stdin : string) : C unit :=
  match args with
  | "get" :: _ =>
      let credentialsReq := Parse stdin in
      credentials ← getCredentialsFromWorkspaceServer credentialsReq;
      credentials ← (match credentials with
                     | None => if decide (port ≠ 0%Z)
                               then getCredentialsFromLocalMachine credentialsReq port
                               else mret None
                     | Some c => mret (Some c)
                     end);
      match credentials with
      | None => mret ()
      | Some c => on_remote (modifyS (print (ToString c)))
      end
  | _ => mret ()
  end.

Definition docker_error_log : string := "/var/devpod/docker-credentials-error.log".
Definition docker_url (port : Z) : string :=
  "http://localhost:" +:+ pretty port +:+ "/docker-credentials".
(** an answer with status 200; other outcomes are only logged *)
Definition ask (port : Z) (body : string) : C (option string) :=
  r ← post (docker_url port) body;
  mret (match r with
        | inr rs => if decide (rs_Status rs = 200%nat) then Some (rs_Body rs) else None
        | inl _ => None
        end).
Definition docker_handleList (jmap : json (gmap string string)) (port : Z) : C unit :=
  answer ← ask port (j_Marshal (tw_request tw) {| rq_ServerURL := "" |});
  match answer with
  | None => mret ()
  | Some raw =>
      match j_Unmarshal (tw_list tw) raw with
      | inl _ => mret ()
      | inr l => on_remote (modifyS (print (j_Marshal jmap (lr_Registries l))))
      end
  end.
Definition getDockerCredentialsFromWorkspaceServer (c : Credentials) : C (option Credentials) :=
  if negb socket then mret None
  else
    r ← do_request (tw_credentials tw) (tw_credentials tw)
          (post_socket "http://runner-proxy/docker-credentials") c;
    or_log docker_error_log "workspace server" r.
Definition docker_handleGet (port : Z) (stdin : string) : C unit :=
  let url := TrimSpace stdin in
  if sempty url then throw "no credentials server URL"
  else
    credentials ← getDockerCredentialsFromWorkspaceServer
                    {| cr_ServerURL := url; cr_Username := ""; cr_Secret := "" |};
    match credentials with
    | Some c => on_remote (modifyS (print (j_Marshal (tw_credentials tw) c)))
    | None =>
        answer ← ask port (j_Marshal (tw_request tw) {| rq_ServerURL := url |});
        match answer with
        | None => mret ()
        | Some raw =>
            match j_Unmarshal (tw_credentials tw) raw with
            | inl _ => mret ()
            | inr _ => on_remote (modifyS (print raw))
            end
        end
    end.
Definition docker_credentials_Run (jmap : json (gmap string string)) (port : Z)
    (args : list string) (stdin : string) : C unit :=
  match args with
  | "get" :: _ => docker_handleGet port stdin
  | "list" :: _ => docker_handleList jmap port
  | _ => mret ()
  end.
End Server.
