(* ===== verification/CredHelpersProps.v ===== *)
(** * Properties of the credential helpers

    The protocol of git credentials round-trips; configuring and removing the helper
    leaves the rest of the git configuration alone, also when the server fails; git in a
    workspace gets what the local machine has, and only if that is allowed. *)

From S2P Require Import Prelude GoStrings SshConfig SshConfigProps Types Lifecycle Git Names DevContainer Provider Options OptionsProps Home Kubernetes CredHelpers.
From stdpp Require Import base gmap list strings pretty.
From Stdlib Require Import ZArith Lia.

Local Open Scope string_scope.
Local Open Scope list_scope.

(** ** Strings *)

Lemma Contains_spec s sub : Contains s sub = true ↔ ∃ a b, s = a +:+ sub +:+ b.
Proof.
  induction s as [|c s IH].
  - destruct sub as [|d sub]; cbn; (split; [intros H|intros (a & b & H)]); try done.
    + by exists "", "".
    + by destruct a.
  - change (Contains (String c s) sub) with (HasPrefix (String c s) sub || Contains s sub).
    rewrite orb_true_iff, IH, HasPrefix_spec. split; [intros [(r & ->)|(a & b & ->)]|intros (a & b & H)].
    + by exists "", r.
    + by exists (String c a), b.
    + destruct a as [|d a]; [left; by exists b|]. injection H as <- ->. right. by exists a, b.
Qed.
Lemma Contains_mid a sub b : Contains (a +:+ sub +:+ b) sub = true.
Proof. apply Contains_spec. by exists a, b. Qed.
Lemma Contains_app_r a b sub : Contains b sub = true → Contains (a +:+ b) sub = true.
Proof.
  rewrite !Contains_spec. intros (x & y & ->). exists (a +:+ x), y. by rewrite sapp_assoc.
Qed.

Lemma trim_right_cons p c s : p c = false → trim_right p (String c s) = String c (trim_right p s).
Proof. intros Hc. cbn. rewrite Hc. by destruct (trim_right p s). Qed.
Lemma trim_right_app p a b : trim_right p b = b → b ≠ "" → trim_right p (a +:+ b) = a +:+ b.
Proof.
  intros Hb Hne. induction a as [|c a IH]; [done|]. cbn in *. rewrite IH.
  destruct (a +:+ b) eqn:Hab; [|done]. destruct a; [by subst|done].
Qed.
Lemma TrimSpace_line key value :
  match key with String c _ => is_space c = false | "" => False end →
  value ≠ "" → trim_right is_space value = value →
  TrimSpace (key +:+ value) = key +:+ value.
Proof.
  intros Hk Hne Hv. unfold TrimSpace, trim_by. destruct key as [|c key]; [done|].
  assert (trim_left is_space (String c key +:+ value) = String c key +:+ value) as ->.
  { cbn. by rewrite Hk. }
  by apply trim_right_app.
Qed.

(** ** The protocol of git *)

(** A value that a line can hold: no newline, and no space at its end. *)
Definition line_value (v : string) : Prop := free "010" v = true ∧ trim_right is_space v = v.
Record line_values (c : GitCredentials) : Prop := {
  lv_Protocol : line_value (gc_Protocol c);
  lv_URL : line_value (gc_URL c);
  lv_Path : line_value (gc_Path c);
  lv_Host : line_value (gc_Host c);
  lv_Username : line_value (gc_Username c);
  lv_Password : line_value (gc_Password c);
}.

Definition git_keys : list string := ["protocol"; "url"; "path"; "host"; "username"; "password"].
Definition key_ok (key : string) : Prop :=
  free "=" key = true ∧ free "010" key = true ∧
  match key with String c _ => is_space c = false | "" => False end.
Lemma git_keys_ok key : key ∈ git_keys → key_ok key.
Proof.
  assert (Forall key_ok git_keys) as H by (by repeat constructor).
  rewrite Forall_forall in H. apply H.
Qed.
Lemma parse_request key value c : key ∈ git_keys → line_value value →
  foldl parse_line c (request_line key value) =
  if decide (value = "") then c else set_field key value c.
Proof.
  intros Hk [_ Ht]. unfold request_line. destruct (decide (value = "")) as [->|Hne]; [done|].
  rewrite decide_True by done. cbn [foldl]. unfold parse_line.
  destruct (git_keys_ok _ Hk) as (Hf & _ & Hs).
  change (key +:+ "=" +:+ value) with (key +:+ String "=" value).
  replace (key +:+ String "=" value) with ((key +:+ "=") +:+ value) by by rewrite sapp_assoc.
  rewrite TrimSpace_line by (first [done|destruct key; done]).
  rewrite sapp_assoc. change ("=" +:+ value) with (String "=" value).
  rewrite Split_app by done.
  destruct (Split "=" value) as [|v vs] eqn:Hv; [by apply Split_nonempty in Hv|].
  by rewrite <- Hv, Join_Split.
Qed.
Lemma request_free key value : key ∈ git_keys → free "010" value = true →
  Forall (λ l, free "010" l = true) (request_line key value).
Proof.
  intros Hk Hv. unfold request_line. case_decide; [|done]. repeat constructor.
  destruct (git_keys_ok _ Hk) as (_ & Hf & _). unfold free in *.
  by rewrite sforall_app, Hf, sforall_app, Hv.
Qed.
Lemma Join_app l k sep : l ≠ [] → k ≠ [] →
  GoStrings.Join (l ++ k) sep = GoStrings.Join l sep +:+ sep +:+ GoStrings.Join k sep.
Proof.
  intros Hl Hk. induction l as [|x [|y l] IH]; [done| |].
  - destruct k as [|y k]; [done|]. apply Join_cons2.
  - cbn [app] in *. rewrite !Join_cons2, IH by done. by rewrite !sapp_assoc.
Qed.
Lemma Join_snoc x l sep :
  GoStrings.Join ((x :: l) ++ [""]) sep = GoStrings.Join (x :: l) sep +:+ sep.
Proof. rewrite Join_app by done. cbn [GoStrings.Join String.concat]. by rewrite sapp_nil_r. Qed.
Lemma Split_lines l : Forall (λ x, free "010" x = true) l →
  ∃ k, Split "010" (GoStrings.Join l newline +:+ newline) = l ++ k ∧ Forall (eq "") k.
Proof.
  intros Hl. destruct l as [|x l]; [exists [""; ""]; by repeat constructor|].
  exists [""]. split; [|by repeat constructor].
  rewrite <- (Split_Join "010" ((x :: l) ++ [""])).
  - f_equal. by rewrite Join_snoc.
  - done.
  - apply Forall_forall, Forall_app. by split; [|repeat constructor].
Qed.

(** What is printed for git is read back unchanged, if no value has a newline or
    ends with a space. *)
Theorem git_credentials_roundtrip c : line_values c → Parse (ToString c) = c.
Proof.
  intros [Hp Hu Ha Hh Hn Hw]. unfold Parse, ToString.
  match goal with |- foldl _ _ (Split _ (GoStrings.Join ?l _ +:+ _)) = _ =>
    destruct (Split_lines l) as (k & -> & Hk) end.
  { repeat (apply Forall_app; split); apply request_free; (apply Hp || apply Hu || apply Ha ||
      apply Hh || apply Hn || apply Hw || (unfold git_keys; set_solver)). }
  assert (∀ d, foldl parse_line d k = d) as Hrest.
  { induction Hk as [|x k <- _ IH]; [done|]. intros d. cbn [foldl]. apply IH. }
  rewrite foldl_app, Hrest, !foldl_app.
  rewrite !parse_request by (done || (unfold git_keys; set_solver)).
  destruct c as [p u h a n w]. cbn. repeat case_decide; subst; reflexivity.
Qed.

(** ** The git configuration *)

Notation no_credential l := (Forall (λ x, credential_section x = false) l).

Lemma drop_credential_none b l : no_credential (drop_credential b l).
Proof.
  revert b. induction l as [|x l IH]; intros b; cbn; [done|].
  destruct (credential_section x) eqn:Hx; [done|].
  destruct b; [|by constructor]. destruct (section_start x); [by constructor|done].
Qed.
Lemma drop_credential_app l k : no_credential l →
  drop_credential false (l ++ k) = l ++ drop_credential false k.
Proof. induction 1 as [|x l Hx _ IH]; [done|]. cbn. by rewrite Hx, IH. Qed.
Lemma drop_credential_sub b l : drop_credential b l `sublist_of` l.
Proof.
  revert b. induction l as [|x l IH]; intros b; cbn; [done|].
  destruct (credential_section x); [by constructor|].
  destruct b; [destruct (section_start x)|]; by constructor.
Qed.

(** A text the scanner reads to its end. *)
Notation readable c := (Forall (fit 1048576) (text_lines c)).
Definition plain_helper (h : string) : Prop :=
  free "010" h = true ∧ fit 1048576 ("        " +:+ h) ∧
  credential_section ("        " +:+ h) = false ∧ section_start ("        " +:+ h) = false.

Lemma log_scan_fits c : readable c → (log_scan c).1 = text_lines c.
Proof. intros Hf. unfold log_scan. by rewrite scan_fits. Qed.
(** The lines of a configuration outside its credential sections. *)
Definition other_lines (c : string) : list string := drop_credential false (text_lines c).
Lemma remove_lines c : readable c → removeCredentialHelper c = GoStrings.Join (other_lines c) newline.
Proof. intros Hf. unfold removeCredentialHelper. by rewrite log_scan_fits. Qed.

Lemma with_helper_lines c h : readable c → plain_helper h →
  text_lines (with_helper c h) =
  (if decide (other_lines c = []) then [""] else other_lines c) ++
  ["[credential]"; "        " +:+ h].
Proof.
  intros Hc (Hfree & _). unfold with_helper. rewrite remove_lines by done.
  set (l := if decide (other_lines c = []) then [""] else other_lines c).
  assert (GoStrings.Join (other_lines c) newline = GoStrings.Join l newline) as ->
    by (unfold l; case_decide as Hl; [by rewrite Hl|done]).
  assert (l ≠ []) as Hl by (unfold l; by case_decide).
  assert (Forall newline_free l) as Hn.
  { unfold l. case_decide; [by repeat constructor|].
    eapply Forall_sublist; [apply drop_credential_sub|apply text_lines_newline_free]. }
  trans (text_lines (GoStrings.Join (l ++ ["[credential]"; "        " +:+ h; ""]) newline)).
  { f_equal. rewrite Join_app by done. cbn [GoStrings.Join String.concat].
    by rewrite sapp_nil_r, !sapp_assoc. }
  rewrite text_lines_Join.
  - pose proof (drop_last_empty_snoc (l ++ ["[credential]"; "        " +:+ h])) as Hd.
    by rewrite <- app_assoc in Hd.
  - apply Forall_app. split; [done|]. constructor; [done|]. constructor; [|by constructor].
    unfold newline_free, free in *. by rewrite sforall_app, Hfree.
Qed.
Lemma with_helper_readable c h : readable c → plain_helper h → readable (with_helper c h).
Proof.
  intros Hc Hh. rewrite with_helper_lines by done. apply Forall_app. split.
  - case_decide; [by repeat constructor|].
    eapply Forall_sublist; [apply drop_credential_sub|done].
  - constructor; [done|]. constructor; [|done]. apply Hh.
Qed.
Lemma remove_with_helper c h : readable c → plain_helper h →
  removeCredentialHelper (with_helper c h) = GoStrings.Join (other_lines c) newline.
Proof.
  intros Hc Hh. rewrite remove_lines by (by apply with_helper_readable).
  unfold other_lines at 1. rewrite with_helper_lines by done.
  destruct Hh as (_ & _ & Hcr & Hst).
  rewrite drop_credential_app by (case_decide; [by repeat constructor|apply drop_credential_none]).
  cbn [drop_credential]. rewrite Hcr, Hst. change (credential_section "[credential]") with true.
  cbv iota. rewrite app_nil_r. case_decide as Hl; [by rewrite Hl|done].
Qed.
Lemma with_helper_has c h : Contains (with_helper c h) h = true ∧
  Contains (with_helper c h) "[credential]" = true.
Proof.
  unfold with_helper. split.
  - do 5 apply Contains_app_r. apply Contains_spec. by exists "", newline.
  - do 2 apply Contains_app_r. apply Contains_spec. by eexists "", _.
Qed.

Section Machine.
Context (ms : msys).

Lemma path_stays userName : stays eq (getGlobalGitConfigPath ms userName).
Proof. unfold getGlobalGitConfigPath, Getenv. stays. Qed.
Lemma read_stays path : stays eq (read_file ms path).
Proof. unfold read_file. stays. Qed.
Lemma read_file_Ok path m o m' : read_file ms path m = (Ok o, m') → m' = m ∧ o = m_files m !! path.
Proof.
  unfold read_file. rewrite run_get. destruct (m_files m !! path); [|by intros [= <- <-]].
  destruct (ms_read ms path); [done|]. by intros [= <- <-].
Qed.
Lemma write_file_Ok path c m u m' : write_file ms path c m = (Ok u, m') →
  m' = set_files (<[path := c]> (m_files m)) m.
Proof. unfold write_file. destruct (ms_write ms path); [done|]. by intros [= <-]. Qed.

(** The git configuration of a user. *)
Definition config_at (userName path : string) (m : machine) : Prop :=
  (getGlobalGitConfigPath ms userName m).1 = Ok path.
Lemma config_at_run userName path m p m' : config_at userName path m →
  getGlobalGitConfigPath ms userName m = (p, m') → p = Ok path ∧ m' = m.
Proof.
  unfold config_at. intros Hp Hrun. split; [by rewrite Hrun in Hp|].
  by rewrite <- (stays_after eq _ _ _ _ (path_stays userName) Hrun).
Qed.
Lemma config_at_env userName path m m' :
  m_env m' = m_env m → config_at userName path m → config_at userName path m'.
Proof.
  intros He. unfold config_at, getGlobalGitConfigPath, Getenv, mbind, M_bind, getS, mret, M_ret.
  cbn. rewrite He. case_decide; [done|].
  unfold liftR. by destruct (wrap _ _).
Qed.
(** Only the owner of a file changes. *)
Definition chowned (m m' : machine) : Prop :=
  m_files m' = m_files m ∧ m_env m' = m_env m ∧ m_ran m' = m_ran m ∧ m_out m' = m_out m.
#[local] Instance chowned_preorder : PreOrder chowned.
Proof. split; [by intros m|]. intros a b c (?&?&?&?) (?&?&?&?). unfold chowned. naive_solver congruence. Qed.
Lemma Chown_stays userName path : stays chowned (Chown ms userName path).
Proof. unfold Chown. stays. all: intros m; done. Qed.

Lemma RemoveHelper_Ok userName path m m' : config_at userName path m →
  RemoveHelper ms userName m = (Ok (), m') →
  let c := default "" (m_files m !! path) in
  (Contains c "[credential]" = true ∧
   m' = set_files (<[path := removeCredentialHelper c]> (m_files m)) m) ∨
  (Contains c "[credential]" = false ∧ m' = m).
Proof.
  intros Hp (p & m1 & [[= ->] ->]%(config_at_run _ _ _ _ _ Hp) & H)%M_bind_Ok.
  apply M_bind_Ok in H as (o & m1 & [-> ->]%read_file_Ok & H).
  cbv zeta in *. destruct (Contains (default "" (m_files m !! path)) _) eqn:Hc;
    [left|by right; injection H as <-].
  split; [done|]. apply M_bind_Ok in H as (r & m1 & Hw & H). injection H as Hr <-.
  apply wrap_Ok in Hr as ->. unfold caught in Hw.
  destruct (write_file _ _ _ _) as [r m2] eqn:Hrun. injection Hw as -> <-.
  by apply write_file_Ok in Hrun.
Qed.

(** Configuring the credential helper of git keeps all lines outside the credential
    sections and puts the helper behind them; doing it again changes nothing, and
    removing it leaves exactly the other lines.  No other file is touched. *)
Theorem ConfigureHelper_then_Remove binaryPath userName port path c m m1 :
  let h := helper_line binaryPath port in
  readable c → plain_helper h → config_at userName path m →
  default "" (m_files m !! path) = c → Contains c h = false →
  ConfigureHelper ms binaryPath userName port m = (Ok (), m1) →
  (∃ c1, m_files m1 = <[path := c1]> (m_files m) ∧ Contains c1 h = true ∧
     text_lines c1 = (if decide (other_lines c = []) then [""] else other_lines c) ++
                     ["[credential]"; "        " +:+ h]) ∧
  (ConfigureHelper ms binaryPath userName port m1).2 = m1 ∧
  ∀ m2, RemoveHelper ms userName m1 = (Ok (), m2) →
    m_files m2 = <[path := GoStrings.Join (other_lines c) newline]> (m_files m).
Proof.
  intros h Hc Hh Hp Hfile Hno.
  intros (p & m2 & [[= ->] ->]%(config_at_run _ _ _ _ _ Hp) & H)%M_bind_Ok.
  apply M_bind_Ok in H as (o & m2 & [-> ->]%read_file_Ok & H).
  cbv zeta in H. fold h in H. rewrite Hfile, Hno in H.
  apply M_bind_Ok in H as (r & m2 & Hw & H). apply M_bind_Ok in H as ([] & m3 & Hr & H).
  injection Hr as Hr <-. apply wrap_Ok in Hr as ->. unfold caught in Hw.
  destruct (write_file _ _ _ _) as [r m3] eqn:Hrun. injection Hw as -> ->.
  apply write_file_Ok in Hrun.
  destruct (stays_after chowned _ _ _ _ (Chown_stays _ _) H) as (Hf & He & _).
  rewrite Hrun in Hf, He. cbn in Hf, He. destruct (with_helper_has c h) as [Hh1 Hh2].
  assert (config_at userName path m1) as Hp1 by (by eapply config_at_env).
  assert (default "" (m_files m1 !! path) = with_helper c h) as Hfile1
    by (by rewrite Hf, lookup_insert_eq).
  split; [|split].
  - exists (with_helper c h). split_and!; [done|done|by apply with_helper_lines].
  - unfold ConfigureHelper, mbind at 1, M_bind at 1.
    destruct (getGlobalGitConfigPath ms userName m1) as [q m4] eqn:Hq.
    apply (config_at_run _ _ _ _ _ Hp1) in Hq as [-> ->].
    unfold mbind at 1, M_bind at 1. destruct (read_file ms path m1) as [o m4] eqn:Ho.
    pose proof (stays_after eq _ _ _ _ (read_stays path) Ho) as <-.
    destruct o as [o|e| |]; try done. apply read_file_Ok in Ho as [_ ->].
    cbv zeta. fold h. by rewrite Hfile1, Hh1.
  - intros m4 Hrem. destruct (RemoveHelper_Ok _ _ _ _ Hp1 Hrem) as [[_ ->]|[Hn _]].
    + cbn [m_files set_files]. rewrite Hfile1, remove_with_helper by done.
      by rewrite Hf, insert_insert_eq.
    + by rewrite Hfile1, Hh2 in Hn.
Qed.
End Machine.

(** ** From git in the workspace to the local machine *)

Section EndToEnd.
Context (remote local : msys) (tw : tunnel_world) (t : tunnelServer).
Context (jreq : json GitSSHSignatureRequest) (jsig : json GitSSHSignatureResponse).
Context (loftConfig : string → string + string) (gpgKeys : string + string).
Context (rpc : string → string).
Context (post_socket : string → string → M (machine * machine) (string + response)).
Notation serve := (serve local tw t jreq jsig loftConfig gpgKeys rpc).

(** The network of the workspace: the server listens at the port. *)
Definition server_at (port : Z) (url body : string) : M (machine * machine) (string + response) :=
  if decide (url = "http://localhost:" +:+ pretty port +:+ "/git-credentials") then
    rs ← serve "/git-credentials" body; mret (inr rs)
  else mret (inl "connection refused").
(** [socket] says whether the server of a platform workspace is there, which is asked first. *)
Definition git_asks (socket : bool) (port : Z) (stdin : string) : M (machine * machine) unit :=
  git_credentials_Run remote tw socket post_socket (server_at port) port ["get"] stdin.
Notation from_server socket := (getCredentialsFromWorkspaceServer remote tw socket post_socket).
(** What the local machine answers to a request that it allows *)
Definition local_answer (c : GitCredentials) : M machine GitCredentials :=
  match t_platformOptions t with
  | Some p => if po_Enabled p then mret (platform_credentials p c) else local_credentials local tw t c
  | None => local_credentials local tw t c
  end.
Lemma no_server c s : from_server false c s = (Ok None, s).
Proof. done. Qed.
Lemma tunnel_GitCredentials_allowed c l : json_ok (tw_git tw) → t_allowGitCredentials t = true →
  tunnel_GitCredentials local tw t (j_Marshal (tw_git tw) c) l =
    (a ← local_answer c; mret (j_Marshal (tw_git tw) a)) l.
Proof.
  intros Hj Ha. unfold tunnel_GitCredentials, local_answer. rewrite Ha. cbn [negb]. rewrite Hj.
  cbn [of_sum wrap]. by rewrite run_lift_Ok.
Qed.

Lemma append_log_out path line r l :
  ∃ r', append_log remote path line (r, l) = (Ok (), (r', l)) ∧ m_out r' = m_out r ∧
        m_ran r' = m_ran r.
Proof.
  unfold append_log, try_, on_remote, zoom. cbn [fst snd]. rewrite run_get.
  unfold write_file. destruct (ms_write remote path); cbn; by eexists.
Qed.

Lemma or_log_Err {A} path from e r l :
  ∃ r', or_log (A := A) remote path from (Err e) (r, l) = (Ok None, (r', l)) ∧ m_out r' = m_out r.
Proof.
  unfold or_log. destruct (append_log_out path
    ("get credentials from " +:+ from +:+ ": " +:+ e) r l) as (r' & Hr & Hout & _).
  exists r'. by rewrite (run_Ok _ _ _ _ _ Hr).
Qed.

(** What the helper does once the workspace server has not answered *)
Lemma git_asks_local socket port stdin s r l :
  json_ok (tw_git tw) → port ≠ 0%Z → from_server socket (Parse stdin) s = (Ok None, (r, l)) →
  (t_allowGitCredentials t = true → ∀ c l', local_answer (Parse stdin) l = (Ok c, l') →
     git_asks socket port stdin s = (Ok (), (print (ToString c) r, l'))) ∧
  (∀ e l', tunnel_GitCredentials local tw t (j_Marshal (tw_git tw) (Parse stdin)) l = (Err e, l') →
     ∃ r', git_asks socket port stdin s = (Ok (), (r', l')) ∧ m_out r' = m_out r).
Proof.
  intros Hj Hport Hno. unfold git_asks, git_credentials_Run. rewrite (run_Ok _ _ _ _ _ Hno).
  cbv iota. rewrite decide_True by done.
  unfold getCredentialsFromLocalMachine, do_request, server_at. rewrite decide_True by done.
  unfold CredHelpers.serve. rewrite decide_True by done.
  unfold call_for, rpc_call, on_local, zoom. split.
  - intros Ha c l' Hl. unfold mbind, M_bind, fmap, liftR, caught. cbn [fst snd].
    rewrite (tunnel_GitCredentials_allowed _ _ Hj Ha). unfold mbind, M_bind. rewrite Hl.
    cbn. by rewrite Hj.
  - intros e l' Hl. unfold mbind, M_bind, fmap, liftR, caught. cbn [fst snd]. rewrite Hl.
    cbn -[or_log String.append]. rewrite decide_True by done.
    match goal with |- context [or_log remote ?p ?f (Err ?x) (r, l')] =>
      destruct (or_log_Err (A := GitCredentials) p f x r l') as (r' & Hr & Hout) end.
    exists r'. by rewrite Hr.
Qed.

(** C29: What git in the workspace is told.  When the server of a platform workspace is there and
    answers, the helper prints its answer, and the local machine is not asked.  Otherwise, if the
    credentials of the local machine may be used, it prints what the local machine answers to the
    very request of git: what its own git says, or a credential of the platform in platform mode;
    nothing if that fails.  If they may not, it prints nothing and on the local machine no command
    runs and nothing changes. *)
Theorem git_credentials_end_to_end socket port stdin s a r l :
  json_ok (tw_git tw) → port ≠ 0%Z →
  from_server socket (Parse stdin) s = (Ok a, (r, l)) →
  match a with
  | Some c => git_asks socket port stdin s = (Ok (), (print (ToString c) r, l))
  | None =>
      if t_allowGitCredentials t then
        (∀ c l', local_answer (Parse stdin) l = (Ok c, l') →
           git_asks socket port stdin s = (Ok (), (print (ToString c) r, l'))) ∧
        (∀ e l', local_answer (Parse stdin) l = (Err e, l') →
           ∃ r', git_asks socket port stdin s = (Ok (), (r', l')) ∧ m_out r' = m_out r)
      else ∃ r', git_asks socket port stdin s = (Ok (), (r', l)) ∧ m_out r' = m_out r
  end.
Proof.
  intros Hj Hport Hs. destruct a as [c|].
  { unfold git_asks, git_credentials_Run. by rewrite (run_Ok _ _ _ _ _ Hs). }
  destruct (git_asks_local _ _ _ _ _ _ Hj Hport Hs) as [Hyes Hno].
  destruct (t_allowGitCredentials t) eqn:Ha.
  - split; [by apply Hyes|]. intros e l' Hl. apply (Hno e).
    rewrite tunnel_GitCredentials_allowed by done. unfold mbind, M_bind. by rewrite Hl.
  - apply (Hno "git credentials forbidden"). unfold tunnel_GitCredentials. by rewrite Ha.
Qed.
End EndToEnd.

(** ** The credentials server cleans up *)

Section Cleanup.
Context (remote local : msys) (tw : tunnel_world).

Definition remote_env (s s' : machine * machine) : Prop := m_env s'.1 = m_env s.1.
#[local] Instance remote_env_preorder : PreOrder remote_env.
Proof. split; [by intros s|]. intros a b c H1 H2. unfold remote_env in *. congruence. Qed.
Lemma on_remote_env {A} (c : M machine A) :
  stays (λ m m', m_env m' = m_env m) c → stays remote_env (on_remote c).
Proof.
  intros Hc [r l]. unfold on_remote, zoom, remote_env. cbn. specialize (Hc r).
  by destruct (c r).
Qed.
#[local] Instance env_preorder : PreOrder (λ m m' : machine, m_env m' = m_env m).
Proof. split; [by intros m|]. intros a b c H1 H2. congruence. Qed.
Lemma exec_env env args stdin : stays (λ m m', m_env m' = m_env m) (exec remote env args stdin).
Proof.
  intros m. unfold exec. rewrite run_get. by destruct (ms_exec remote m _).
Qed.
Lemma write_env path c : stays (λ m m', m_env m' = m_env m) (write_file remote path c).
Proof. unfold write_file. stays. by intros m. Qed.
Lemma read_env path : stays (λ m m', m_env m' = m_env m) (read_file remote path).
Proof. unfold read_file. stays. Qed.
Lemma chown_env u path : stays (λ m m', m_env m' = m_env m) (Chown remote u path).
Proof. unfold Chown. stays. by intros m. Qed.
#[local] Hint Resolve exec_env write_env read_env chown_env : stays.
Lemma signing_Configure_env u key : stays remote_env (on_remote (signing_ConfigureHelper remote u key)).
Proof.
  apply on_remote_env. unfold signing_ConfigureHelper, createHelperScript, makeScriptExecutable,
    getGitConfigPath, updateGitConfig, readGitConfig, writeGitConfig. stays.
Qed.
Lemma signing_Remove_env u : stays remote_env (on_remote (signing_RemoveHelper remote u)).
Proof.
  apply on_remote_env. unfold signing_RemoveHelper, getGitConfigPath, removeGitConfigHelper,
    readGitConfig, writeGitConfig. stays. by intros m.
Qed.
(** The environment is kept by a process, however it ends. *)
Definition keeps_env (c : server_process unit) : Prop := ∀ s, remote_env s (c s).2.
Lemma doing_env closes {A} p (c : M (machine * machine) A) :
  stays remote_env c → ∀ s, remote_env s (doing closes p c s).2.
Proof.
  intros Hc s. unfold doing. destruct (closes p); [done|]. specialize (Hc s). by destruct (c s).
Qed.
Lemma process_bind_env {A} (c : server_process A) k :
  (∀ s, remote_env s (c s).2) → (∀ a, keeps_env (k a)) → keeps_env (c ≫= k).
Proof.
  intros Hc Hk s. unfold mbind, server_bind. specialize (Hc s).
  destruct (c s) as [[[a|e| |]|code] s1]; try done. etrans; [exact Hc|apply Hk].
Qed.
Lemma cleaning_up_env closes p cleanup c :
  stays remote_env cleanup → keeps_env c → keeps_env (cleaning_up closes p cleanup c).
Proof.
  intros Hu Hc s. unfold cleaning_up. specialize (Hc s).
  destruct (c s) as [[r|code] s1]; [|done]. pose proof (doing_env closes p cleanup Hu s1) as H1.
  destruct (doing closes p cleanup s1) as [[]]; (etrans; [exact Hc|exact H1]).
Qed.
Lemma run_signing_env closes cmd serving : keeps_env serving →
  keeps_env (run_signing remote closes cmd serving).
Proof.
  intros Hs. unfold run_signing. case_decide; [|done]. apply process_bind_env.
  - apply doing_env. apply stays_bind; [apply _|stays|]. intros key.
    apply stays_bind; [apply _|apply stays_caught, signing_Configure_env|]. stays.
  - intros _. by apply cleaning_up_env; [apply signing_Remove_env|].
Qed.
(** What has been cleaned up when a process returns *)
Lemma cleaning_up_returned closes p cleanup c s (r : result unit) s' :
  cleaning_up closes p cleanup c s = (Returned r, s') →
  ∃ s1, c s = (Returned r, s1) ∧ s' = (cleanup s1).2.
Proof.
  unfold cleaning_up, doing. destruct (c s) as [[r1|code] s1]; [|done].
  destruct (closes p); [done|]. destruct (cleanup s1) as [r2 s2] eqn:Hc. intros [= <- <-].
  exists s1. by rewrite Hc.
Qed.

Lemma Split_infix sep s x : x ∈ Split sep s → ∃ a b, s = a +:+ x +:+ b.
Proof.
  revert x. induction s as [|c s IH]; intros x; cbn.
  - intros ->%list_elem_of_singleton. by exists "", "".
  - case_decide as Hc.
    + intros [->|Hx]%elem_of_cons; [by exists "", (String c s)|].
      destruct (IH _ Hx) as (a & b & ->). by exists (String c a), b.
    + destruct (Split sep s) as [|y l] eqn:Hs; [by apply Split_nonempty in Hs|].
      intros [->|Hx]%elem_of_cons.
      * destruct s as [|d s]; cbn in Hs.
        -- injection Hs as <- <-. by exists "", "".
        -- assert (y ∈ y :: l) as Hy by left. pose proof (Join_Split sep (String d s)) as Hj.
           cbn [Split] in Hj. rewrite Hs in Hj. exists "".
           destruct l as [|z l]; [exists ""; rewrite <- Hj; cbn; by rewrite sapp_nil_r|].
           rewrite Join_cons2 in Hj. eexists. rewrite <- Hj. reflexivity.
      * destruct (IH x) as (a & b & ->); [by right|]. by exists (String c a), b.
Qed.
Lemma text_lines_infix s x : x ∈ text_lines s → ∃ a b, s = a +:+ x +:+ b.
Proof.
  intros Hx. apply (Split_infix "010"). eapply elem_of_sublist; [exact Hx|apply drop_last_empty_sub].
Qed.
Lemma TrimSpace_infix s : ∃ a b, s = a +:+ TrimSpace s +:+ b.
Proof.
  destruct (trim_left_spec is_space s) as (a & Ha & _).
  destruct (trim_right_spec is_space (trim_left is_space s)) as (b & Hb & _).
  exists a, b. unfold TrimSpace, trim_by. by rewrite <- Hb.
Qed.
Lemma no_header c : Contains c "[credential]" = false → no_credential (text_lines c).
Proof.
  intros Hc. apply Forall_forall. intros x Hx. unfold credential_section.
  apply bool_decide_eq_false. intros Ht. destruct (TrimSpace_infix x) as (a & b & Hab).
  rewrite Ht in Hab. destruct (text_lines_infix _ _ Hx) as (a' & b' & Hc').
  assert (Contains c "[credential]" = true) as H; [|congruence].
  apply Contains_spec. exists (a' +:+ a), (b +:+ b'). rewrite Hc', Hab. by rewrite !sapp_assoc.
Qed.
Lemma removed_no_header c : no_credential (text_lines (removeCredentialHelper c)).
Proof.
  unfold removeCredentialHelper. rewrite text_lines_Join.
  - eapply Forall_sublist; [apply drop_last_empty_sub|apply drop_credential_none].
  - eapply Forall_sublist; [apply drop_credential_sub|]. unfold log_scan.
    assert (∀ l, (scan 1048576 l).1 `sublist_of` l) as Hsub.
    { induction l as [|x l IH]; [done|]. cbn. destruct (fits 1048576 x); [|by apply sublist_nil_l].
      destruct (scan 1048576 l). cbn in *. by apply sublist_skip. }
    eapply Forall_sublist; [apply Hsub|apply text_lines_newline_free].
Qed.
Lemma RemoveHelper_clean userName path m : config_at remote userName path m →
  ms_read remote path = None → ms_write remote path = None →
  no_credential (text_lines (default "" (m_files (RemoveHelper remote userName m).2 !! path))).
Proof.
  intros Hp Hr Hw. destruct (RemoveHelper remote userName m) as [r m'] eqn:Hrun.
  assert (r = Ok ()) as ->.
  { revert Hrun. unfold RemoveHelper, mbind, M_bind.
    destruct (getGlobalGitConfigPath remote userName m) as [q m4] eqn:Hq.
    apply (config_at_run _ _ _ _ _ _ Hp) in Hq as [-> ->].
    unfold RemoveHelperFromPath, read_file, mbind, M_bind, getS, caught, write_file, liftR.
    rewrite Hr, Hw. destruct (m_files m !! path) as [c|];
      cbn -[Contains removeCredentialHelper];
      (match goal with |- context [Contains ?a ?b] => destruct (Contains a b) end;
       cbn; by intros [= <- _]). }
  destruct (RemoveHelper_Ok _ _ _ _ _ Hp Hrun) as [[_ ->]|[Hn ->]].
  - cbn. rewrite lookup_insert_eq. apply removed_no_header.
  - by apply no_header.
Qed.

(** C30: When the credentials server returns, whatever happened while it ran and whether it
    failed or was cancelled, the git configuration of the user has no credential section, so git
    does not ask a server that is gone; unless the helper could not be configured in the first
    place, which is an error.  The configuration can be read and written, and the environment is
    kept while the server runs.  When the tunnel closes the process does not return: it exits,
    and nothing is cleaned up. *)
Theorem credentials_server_cleans_up closes cmd port serving path s (r : result unit) s' :
  cs_ConfigureGitHelper cmd = true → keeps_env serving →
  config_at remote (cs_User cmd) path s.1 →
  ms_read remote path = None → ms_write remote path = None →
  run_git_helper remote closes cmd port serving s = (Returned r, s') →
  no_credential (text_lines (default "" (m_files s'.1 !! path))) ∨
  (r ≠ Ok () ∧
   ((∃ e, ms_Executable remote = inl e) ∨
    ∃ b, ms_Executable remote = inr b ∧
         (ConfigureHelper remote b (cs_User cmd) port s.1).1 ≠ Ok ())).
Proof.
  intros Hg Hs Hp Hr Hw. unfold run_git_helper. rewrite Hg. unfold mbind at 1, server_bind.
  unfold doing at 1. destruct (closes ConfiguringHelper); [done|].
  destruct (ms_Executable remote) as [e|b]; [intros [= <- <-]; right; eauto|].
  cbn [of_sum]. rewrite run_lift_Ok. unfold mbind at 1, M_bind at 1, caught.
  destruct (on_remote (ConfigureHelper remote b (cs_User cmd) port) s) as [c s1] eqn:Hc.
  assert (remote_env s s1) as He.
  { eapply stays_after; [|exact Hc]. apply on_remote_env.
    unfold ConfigureHelper, getGlobalGitConfigPath, Getenv. stays. }
  destruct c as [[]|e| |].
  2,3,4: (intros [= <- <-]; right; split; [done|]; right; exists b; split; [done|];
    unfold on_remote, zoom in Hc; destruct (ConfigureHelper remote b (cs_User cmd) port s.1) as [q ?]; by injection Hc as ->).
  cbn [wrap liftR]. intros (s2 & Hrun & ->)%cleaning_up_returned. left.
  pose proof (run_signing_env closes cmd serving Hs s1) as He'. rewrite Hrun in He'.
  cbn [snd] in He'. unfold on_remote, zoom. cbn [fst snd].
  assert (config_at remote (cs_User cmd) path s2.1) as Hp2.
  { eapply config_at_env; [|exact Hp]. unfold remote_env in *. congruence. }
  pose proof (RemoveHelper_clean _ _ _ Hp2 Hr Hw) as H.
  by destruct (RemoveHelper remote (cs_User cmd) s2.1).
Qed.
End Cleanup.

(** ** Concrete runs *)

Definition demo_ms : msys := {|
  ms_read := λ _, None; ms_write := λ _, None; ms_chown := λ _ _, None; ms_remove := λ _, None;
  ms_GetHome := λ u, inr ("/home/" +:+ u); ms_Executable := inr "/usr/local/bin/devpod";
  ms_exec := λ m c,
    (if decide (cmd_args c = ["git"; "credential"; "fill"])
     then (cmd_stdin c +:+ "username=me" +:+ newline +:+ "password=secret" +:+ newline, None)
     else ("", None), m_files m) |}.
Definition demo_gitconfig : string :=
  GoStrings.Join ["[user]"; "  name = Me"; "[credential]"; "  useHttpPath = true"; "[core]";
                  "  editor = vi"] newline.
Definition demo_machine (content : string) : machine :=
  Machine {["/home/me/.gitconfig" := content]} ∅ ∅ ∅ [] "".

Definition demo_creds : GitCredentials := {|
  gc_Protocol := "https"; gc_URL := ""; gc_Host := "github.com"; gc_Path := "";
  gc_Username := "me"; gc_Password := "a=b" |}.
Lemma git_credentials_roundtrip_witness : Parse (ToString demo_creds) = demo_creds.
Proof. apply git_credentials_roundtrip. by repeat split. Defined.

Lemma ConfigureHelper_then_Remove_witness :
  let run := ConfigureHelper demo_ms "/usr/local/bin/devpod" "me" 12049 (demo_machine demo_gitconfig) in
  run.1 = Ok () ∧
  ∃ c1, m_files run.2 !! "/home/me/.gitconfig" = Some c1 ∧
        Contains c1 "agent git-credentials --port 12049" = true.
Proof.
  intros run. destruct run as [r m1] eqn:Hrun.
  assert (r = Ok ()) as ->.
  { assert (run.1 = Ok ()) as H by (vm_compute; reflexivity). by rewrite Hrun in H. }
  destruct (ConfigureHelper_then_Remove demo_ms "/usr/local/bin/devpod" "me" 12049
    "/home/me/.gitconfig" demo_gitconfig (demo_machine demo_gitconfig) m1) as ((c1 & Hf & Hc & _) & _).
  - repeat constructor; vm_compute; reflexivity.
  - split_and!; vm_compute; reflexivity.
  - vm_compute. reflexivity.
  - vm_compute. reflexivity.
  - vm_compute. reflexivity.
  - exact Hrun.
  - split; [reflexivity|]. exists c1. cbn [snd]. split; [by rewrite Hf, lookup_insert_eq|].
    apply Contains_spec in Hc as (a & b & ->). apply Contains_spec.
    exists (a +:+ "helper = !'/usr/local/bin/devpod' "), b.
    rewrite !sapp_assoc. reflexivity.
Defined.

Definition demo_Marshal (c : GitCredentials) : string :=
  GoStrings.Join (EncodeToString <$> [gc_Protocol c; gc_URL c; gc_Host c; gc_Path c;
                                      gc_Username c; gc_Password c]) ",".
Definition demo_Unmarshal (s : string) : string + GitCredentials :=
  match mapM DecodeString (Split "," s) with
  | Some [p; u; h; a; n; w] =>
      inr {| gc_Protocol := p; gc_URL := u; gc_Host := h; gc_Path := a; gc_Username := n;
             gc_Password := w |}
  | _ => inl "invalid"
  end.
Definition demo_json : json GitCredentials := {|
  j_Marshal := demo_Marshal; j_Unmarshal := demo_Unmarshal |}.
Lemma digit_comma x : digit_of x ≠ ","%char.
Proof. destruct x as [[] [] [] [] [] []]; done. Qed.
Lemma EncodeToString_comma s : free "," (EncodeToString s) = true.
Proof.
  revert s. apply three_ind; intros; cbn [EncodeToString];
    rewrite ?free_cons; split_and?; try apply digit_comma; done.
Qed.
Lemma decode_all l : mapM DecodeString (EncodeToString <$> l) = Some l.
Proof.
  induction l as [|x l IH]; [done|]. cbn [fmap list_fmap mapM].
  rewrite DecodeString_EncodeToString. cbn [mbind option_bind]. by rewrite IH.
Qed.
Lemma demo_json_ok : json_ok demo_json.
Proof.
  intros [p u h a n w]. unfold j_Unmarshal, j_Marshal, demo_json, demo_Unmarshal, demo_Marshal.
  rewrite Split_Join; [|done|].
  - by rewrite decode_all.
  - intros x (y & -> & _)%list_elem_of_fmap. apply EncodeToString_comma.
Qed.
Definition demo_tw : tunnel_world := {|
  tw_git := demo_json;
  tw_user := {| j_Marshal := λ _, ""; j_Unmarshal := λ _, inl "" |};
  tw_request := {| j_Marshal := λ _, ""; j_Unmarshal := λ _, inl "" |};
  tw_credentials := {| j_Marshal := λ _, ""; j_Unmarshal := λ _, inl "" |};
  tw_list := {| j_Marshal := λ _, ""; j_Unmarshal := λ _, inl "" |};
  tw_docker := λ _, inl ""; tw_containers := λ _, inl ""; tw_all_docker := inl "";
  tw_all_containers := inl ""; tw_urlPath := λ _, inl ""; tw_kubeConfig := λ _, inl "" |}.
Definition demo_tunnel : tunnelServer := {|
  t_allowGitCredentials := true; t_allowDockerCredentials := false; t_allowKubeConfig := false;
  t_allowPlatformOptions := false; t_forwarder := None; t_mounts := [];
  t_workspace := Some OptionsProps.demo_workspace; t_platformOptions := None |}.
Definition demo_request : string := "protocol=https" +:+ newline +:+ "host=github.com" +:+ newline.

Definition no_json {A} : json A := {| j_Marshal := λ _, ""; j_Unmarshal := λ _, inl "" |}.
(** The workspace server is there and does not answer. *)
Definition demo_asks : result unit * (machine * machine) :=
  git_asks demo_ms demo_ms demo_tw demo_tunnel no_json no_json (λ _, inl "") (inl "") id
    (λ _ _, mret (inl "no answer")) true 12049 demo_request (demo_machine "", demo_machine "").
Lemma git_credentials_end_to_end_witness : demo_asks.1 = Ok () ∧
  m_out demo_asks.2.1 = ToString {| gc_Protocol := "https"; gc_URL := "";
    gc_Host := "github.com"; gc_Path := ""; gc_Username := "me"; gc_Password := "secret" |}.
Proof.
  destruct (local_credentials demo_ms demo_tw demo_tunnel (Parse demo_request) (demo_machine ""))
    as [c l'] eqn:Hl.
  pose proof (git_credentials_end_to_end demo_ms demo_ms demo_tw demo_tunnel no_json no_json
    (λ _, inl "") (inl "") id (λ _ _, mret (inl "no answer")) true 12049 demo_request
    (demo_machine "", demo_machine "") None
    (set_files (<[git_error_log := "get credentials from workspace server: error retrieving credentials from credentials server: no answer" +:+ newline]> (m_files (demo_machine ""))) (demo_machine ""))
    (demo_machine "") demo_json_ok ltac:(discriminate) ltac:(vm_compute; reflexivity)) as [H _].
  unfold demo_asks. vm_compute in Hl. injection Hl as <- <-. erewrite H; [|vm_compute; reflexivity].
  split; reflexivity.
Defined.

Definition demo_cmd : CredentialsServerCmd := {|
  cs_User := "me"; cs_ConfigureGitHelper := true; cs_ConfigureDockerHelper := false;
  cs_GitUserSigningKey := "" |}.
(** The server is stopped, in the second run by a lost connection. *)
Definition demo_serving : server_process unit := λ s, (Returned (Ok ()), s).
Definition demo_lost : server_process unit := λ s, (Exited ExitCodeIO, s).
Definition demo_server (serving : server_process unit) : ended unit * (machine * machine) :=
  run_git_helper demo_ms (λ _, false) demo_cmd 12049 serving
    (demo_machine demo_gitconfig, demo_machine "").
Lemma credentials_server_cleans_up_witness :
  no_credential (text_lines (default "" (m_files (demo_server demo_serving).2.1 !! "/home/me/.gitconfig"))).
Proof.
  destruct (demo_server demo_serving) as [[r|code] s'] eqn:Hrun; [|vm_compute in Hrun; discriminate].
  destruct (credentials_server_cleans_up demo_ms (λ _, false) demo_cmd 12049 demo_serving
    "/home/me/.gitconfig" (demo_machine demo_gitconfig, demo_machine "") r s') as [H|[_ [[e H]|[b [H1 H2]]]]].
  - reflexivity.
  - intros s. reflexivity.
  - vm_compute. reflexivity.
  - reflexivity.
  - reflexivity.
  - exact Hrun.
  - exact H.
  - discriminate H.
  - injection H1 as <-. exfalso. apply H2. vm_compute. reflexivity.
Defined.
Example helper_left_behind :
  (demo_server demo_lost).1 = Exited 64 ∧
  Contains (default "" (m_files (demo_server demo_lost).2.1 !! "/home/me/.gitconfig"))
    "agent git-credentials --port 12049" = true.
Proof. vm_compute. split; reflexivity. Qed.

(** A helper for another port is taken for the right one when its port starts with
    the new one. *)
Example ConfigureHelper_port_prefix :
  let config := with_helper "" (helper_line "/usr/local/bin/devpod" 12049) in
  ConfigureHelper demo_ms "/usr/local/bin/devpod" "me" 1204 (demo_machine config) =
  (Ok (), demo_machine config).
Proof. vm_compute. reflexivity. Qed.
(** The user's own settings in a credential section are lost for good. *)
Example own_settings_lost :
  other_lines demo_gitconfig = ["[user]"; "  name = Me"; "[core]"; "  editor = vi"].
Proof. vm_compute. reflexivity. Qed.
(** A single credential of the platform is handed out for every host. *)
Example platform_credential_any_host g c :
  platform_credentials {| po_Enabled := true; po_UserGitHttp := [g]; po_ProjectGitHttp := [] |} c =
  with_platform_credential c g.
Proof. reflexivity. Qed.
(** The signing helper leaves a section behind on every run. *)
Example signing_config_grows :
  let m := demo_machine ("[core]" +:+ newline) in
  let once m := (updateGitConfig demo_ms "/home/me/.gitconfig" "me" "key" ;;
                 removeGitConfigHelper demo_ms "/home/me/.gitconfig" "me") m in
  m_files (once (once m).2).2 !! "/home/me/.gitconfig" =
  Some (GoStrings.Join ["[core]"; "[gpg]"; "[user]"; tab +:+ "signingkey = key"; "[gpg]"; "[user]";
          tab +:+ "signingkey = key"] newline).
Proof. vm_compute. reflexivity. Qed.
(** A password that ends with a space arrives without it. *)
Example trailing_space_lost :
  gc_Password (Parse (ToString (with_platform_credential no_credentials
    {| gh_Host := ""; gh_User := ""; gh_Password := "secret "; gh_Path := "" |}))) = "secret".
Proof. vm_compute. reflexivity. Qed.
