(* ===== verification/FileTree.v ===== *)
(** * A file system

    Directories, files and symbolic links as a map from paths, lists of names, to
    nodes, with the system calls the code uses on them.  Links are followed as the
    kernel does, at most [max_links] of them for a path.  The root always exists.  A
    call may also fail for reasons the model does not have ([fy_fail]).  A hard link is a
    copy of the file, and owners and times are left out. *)

From S2P Require Import Prelude GoStrings Types Provider Options.
From stdpp Require Import base gmap list strings sorting.
From Stdlib Require Import ZArith.

Local Open Scope string_scope.
Local Open Scope list_scope.

Inductive node :=
| File (mode : N) (content : string)
| Dir (mode : N)
| Link (target : string).
#[export] Instance node_eq_dec : EqDecision node.
Proof. solve_decision. Defined.
Notation path := (list string).
Notation fs := (@gmap (list string) (@list_eq_dec string String.eq_dec)
  (@list_countable string String.eq_dec String.countable) node).

Inductive fsop := OpStat | OpOpen | OpCreate | OpMkdir | OpSymlink | OpLink | OpChmod | OpRemove | OpReadDir.
(** Other reasons for a call to fail. *)
Record fsys := { fy_fail : fsop → string → option string }.

(** The names of an absolute path. *)
Definition names (p : string) : path := clean_parts true [] (Split "/" p).

(** ** Lookup *)

Definition get (f : fs) (p : path) : option node :=
  match p with [] => Some (Dir 493) | _ => f !! p end.
Definition is_dir (n : option node) : bool := match n with Some (Dir _) => true | _ => false end.
Definition parent (p : path) : path := removelast p.

Definition max_links : nat := 40.
(** Follow a path from the directory [at_]; the last name may be missing. [follow] says
    whether a link at the end is followed. *)
Fixpoint resolve (links : nat) (f : fs) (follow : bool) (at_ todo : path) : option path :=
  (fix go (at_ todo : path) : option path :=
     match todo with
     | [] => Some at_
     | c :: rest =>
         if decide (c = "" ∨ c = ".") then go at_ rest
         else if decide (c = "..") then go (parent at_) rest
         else
           let here := at_ ++ [c] in
           match get f here with
           | Some (Dir _) => go here rest
           | Some (File _ _) => if decide (rest = []) then Some here else None
           | Some (Link target) =>
               if decide (rest = [] ∧ follow = false) then Some here
               else match links with
                    | 0 => None
                    | S links =>
                        resolve links f follow (if HasPrefix target "/" then [] else at_)
                          (Split "/" target ++ rest)
                    end
           | None => if decide (rest = []) then Some here else None
           end
     end) at_ todo.
Definition walk (f : fs) (follow : bool) (p : string) : option path :=
  resolve max_links f follow [] (names p).
Definition stat_node (f : fs) (follow : bool) (p : string) : option node :=
  match walk f follow p with Some q => get f q | None => None end.

(** ** System calls *)

Section Calls.
Context (fy : fsys).
Notation C := (M fs).

Definition ENOENT : string := "no such file or directory".
Definition ENOTDIR : string := "not a directory".
Definition EISDIR : string := "is a directory".
Definition EEXIST : string := "file exists".
Definition ENOTEMPTY : string := "directory not empty".

Definition call (op : fsop) (p : string) {A} (c : C A) : C A :=
  match fy_fail fy op p with Some e => throw e | None => c end.

(** [os.Stat] and [os.Lstat]; [None] when there is nothing *)
Definition stat_ (follow : bool) (p : string) : C (option node) :=
  call OpStat p (f ← getS; mret (stat_node f follow p)).
Notation Stat := (stat_ true).
Notation Lstat := (stat_ false).
(** [os.Stat] succeeds *)
Definition exists_ (p : string) : C bool :=
  r ← caught (stat_ true p);
  mret (match r with Ok (Some _) => true | _ => false end).

(** [os.MkdirAll]: create the missing directories of the path *)
Fixpoint mkdir_from (perm : N) (done todo : path) : C unit :=
  match todo with
  | [] => mret ()
  | c :: rest =>
      let here := done ++ [c] in
      f ← getS;
      match resolve max_links f true [] here with
      | None => throw ENOTDIR
      | Some q =>
          match get f q with
          | Some (Dir _) => mkdir_from perm here rest
          | Some _ => throw ENOTDIR
          | None =>
              match resolve max_links f false [] here with
              | Some q' => if decide (q = q') then
                             _ ← modifyS (<[q := Dir perm]> : fs → fs); mkdir_from perm here rest
                           else throw EEXIST
              | None => throw ENOTDIR
              end
          end
      end
  end.
Definition MkdirAll (p : string) (perm : N) : C unit :=
  call OpMkdir p (mkdir_from perm [] (names p)).

(** [os.OpenFile] for writing with O_CREATE and O_TRUNC, then the contents are written *)
Definition create (p : string) (perm : N) : C path :=
  call OpCreate p (
    f ← getS;
    match walk f true p with
    | None => throw ENOENT
    | Some q =>
        match get f q with
        | Some (Dir _) => throw EISDIR
        | Some (File mode _) => _ ← modifyS (<[q := File mode ""]> : fs → fs); mret q
        | Some (Link _) => throw ENOENT
        | None => _ ← modifyS (<[q := File perm ""]> : fs → fs); mret q
        end
    end).
Definition fill (q : path) (content : string) : C unit :=
  modifyS (λ f : fs, match f !! q with
                     | Some (File mode _) => <[q := File mode content]> f
                     | _ => f
                     end).
Definition ReadFile (p : string) : C string :=
  call OpOpen p (
    f ← getS;
    match stat_node f true p with
    | Some (File _ content) => mret content
    | Some _ => throw EISDIR
    | None => throw ENOENT
    end).
Definition Readlink (p : string) : C string :=
  f ← getS;
  match stat_node f false p with
  | Some (Link target) => mret target
  | _ => throw ENOENT
  end.
Definition Symlink (target p : string) : C unit :=
  call OpSymlink p (
    f ← getS;
    match walk f false p with
    | None => throw ENOENT
    | Some q => match get f q with
                | Some _ => throw EEXIST
                | None => modifyS (<[q := Link target]> : fs → fs)
                end
    end).
(** [os.Link]: a copy of the file *)
Definition HardLink (old p : string) : C unit :=
  call OpLink p (
    f ← getS;
    match stat_node f false old, walk f false p with
    | Some (Dir _), _ => throw "operation not permitted"
    | Some n, Some q => match get f q with
                        | Some _ => throw EEXIST
                        | None => modifyS (<[q := n]> : fs → fs)
                        end
    | _, _ => throw ENOENT
    end).
Definition Chmod (p : string) (mode : N) : C unit :=
  call OpChmod p (
    f ← getS;
    match walk f true p with
    | None => throw ENOENT
    | Some q => match f !! q with
                | Some (File _ c) => modifyS (<[q := File mode c]> : fs → fs)
                | Some (Dir _) => modifyS (<[q := Dir mode]> : fs → fs)
                | _ => throw ENOENT
                end
    end).

Definition below (q k : path) : bool := bool_decide (q `prefix_of` k).
Definition Remove (p : string) : C unit :=
  call OpRemove p (
    f ← getS;
    match walk f false p with
    | None => throw ENOENT
    | Some q =>
        match get f q with
        | None => throw ENOENT
        | Some (Dir _) =>
            if decide (filter (λ kv, kv.1 ≠ q ∧ below q kv.1 = true) f = ∅)
            then modifyS (delete q : fs → fs) else throw ENOTEMPTY
        | Some _ => modifyS (delete q : fs → fs)
        end
    end).
Definition RemoveAll (p : string) : C unit :=
  call OpRemove p (
    f ← getS;
    match walk f false p with
    | None => mret ()
    | Some q => modifyS (filter (λ kv, below q kv.1 = false) : fs → fs)
    end).

(** [os.ReadDir]: the names in a directory, sorted *)
Definition child_name (q k : path) : option string :=
  match last k with
  | Some c => if decide (k = q ++ [c]) then Some c else None
  | None => None
  end.
Definition children (f : fs) (q : path) : list string :=
  merge_sort String.le (omap (child_name q) (map_to_list f).*1).
Definition ReadDir (p : string) : C (list string) :=
  call OpReadDir p (
    f ← getS;
    match walk f true p with
    | None => throw ENOENT
    | Some q => match get f q with
                | Some (Dir _) => mret (children f q)
                | Some _ => throw ENOTDIR
                | None => throw ENOENT
                end
    end).
End Calls.
Notation Stat fy := (stat_ fy true).
Notation Lstat fy := (stat_ fy false).

(** ** Well-formedness

    Every node is in a directory. *)
Definition wf (f : fs) : Prop :=
  f !! [] = None ∧ ∀ p n, f !! p = Some n → is_dir (get f (parent p)) = true.

Example FileTree_ex :
  let f : fs := {[ ["a"] := Dir 493; ["a"; "b"] := Link "../c"; ["c"] := Dir 493;
                   ["c"; "f"] := File 420 "x" ]} in
  walk f true "/a/b/f" = Some ["c"; "f"] ∧ walk f false "/a/b" = Some ["a"; "b"] ∧
  walk f true "/a/x/y" = None ∧ children f ["a"] = ["b"].
Proof. vm_compute. done. Qed.
