(* ===== verification/FileTreeProps.v ===== *)
(** * Properties of the file system

    The names of joined paths; resolving a path that meets no link; every
    system call keeps the tree well-formed, and a call on a path below a
    directory without links changes nothing outside of it. *)

From S2P Require Import Prelude GoStrings Types Provider Options Home Paths FileTree.
From stdpp Require Import base gmap fin_sets list strings sorting.
From Stdlib Require Import ZArith Lia.

Local Open Scope string_scope.
Local Open Scope list_scope.

(** ** Names of paths *)

Lemma clean_parts_names stack ps :
  plains stack → Forall (λ p, free "/" p = true) ps → plains (clean_parts true stack ps).
Proof.
  intros Hs Hps. revert stack Hs. induction Hps as [|p ps Hp Hps IH]; intros stack Hs; cbn [clean_parts].
  - by apply Forall_reverse.
  - case_decide as H1; [by apply IH|]. case_decide as H2.
    + destruct stack as [|top rest]; [by apply IH|]. apply Forall_cons in Hs as [Ht Hr].
      pose proof (plain_not _ Ht) as (_ & _ & ?). rewrite decide_False by done. by apply IH.
    + apply IH. constructor; [|done]. unfold plain. rewrite Hp. cbn.
      apply negb_true_iff, bool_decide_eq_false. set_solver.
Qed.
Lemma names_plains p : plains (names p).
Proof. apply clean_parts_names; [constructor|]. apply Forall_forall, Split_parts_free. Qed.
Lemma names_abs l : plains l → names (abs l) = l.
Proof.
  intros Hl. unfold names. destruct l as [|x l]; [done|].
  rewrite Split_abs by done.
  change (clean_parts true [] ("" :: x :: l)) with (clean_parts true [] (x :: l)).
  by rewrite clean_parts_plain.
Qed.
Definition rooted (p : string) : Prop := HasPrefix p "/" = true.
Lemma rooted_abs l : rooted (abs l).
Proof. apply HasPrefix_spec. by eexists. Qed.
Lemma Clean_rooted p : rooted p → filepath_Clean p = abs (names p).
Proof. intros Hp. unfold filepath_Clean. by rewrite Hp. Qed.

(** The path of [r] from a directory *)
Definition under_names (base : path) (r : string) : path :=
  clean_parts true (reverse base) (Split "/" r).
Lemma clean_parts_app stack a b : plains stack → Forall (λ p, free "/" p = true) a →
  clean_parts true stack (a ++ b) = clean_parts true (reverse (clean_parts true stack a)) b.
Proof.
  intros Hs Ha. revert stack Hs. induction Ha as [|p ps Hp Hps IH]; intros stack Hs; cbn [clean_parts app].
  - by rewrite reverse_involutive.
  - case_decide as H1; [by apply IH|]. case_decide as H2.
    + destruct stack as [|top rest]; [by apply IH|]. apply Forall_cons in Hs as [Ht Hr].
      pose proof (plain_not _ Ht) as (_ & _ & ?). rewrite !decide_False by done. by apply IH.
    + apply IH. constructor; [|done]. unfold plain. rewrite Hp. cbn.
      apply negb_true_iff, bool_decide_eq_false. set_solver.
Qed.
Lemma Join_rooted d r : rooted d → filepath_Join [d; r] = abs (under_names (names d) r).
Proof.
  intros Hd. assert (d ≠ "") as Hne by (by intros ->). cbn [filepath_Join].
  unfold sempty. rewrite bool_decide_false by done.
  change (GoStrings.Join [d; r] "/") with (d +:+ "/" +:+ r).
  rewrite Clean_rooted.
  - f_equal. unfold names, under_names. change (d +:+ "/" +:+ r) with (d +:+ String "/" r).
    rewrite Split_app_sep, clean_parts_app; [done|constructor|].
    apply Forall_forall, Split_parts_free.
  - apply HasPrefix_spec in Hd as [x ->]. apply HasPrefix_spec. eexists.
    by rewrite sapp_assoc.
Qed.
Lemma under_names_plains base r : plains base → plains (under_names base r).
Proof.
  intros Hb. apply clean_parts_names; [by apply Forall_reverse|].
  apply Forall_forall, Split_parts_free.
Qed.
Lemma names_Join d r : rooted d → names (filepath_Join [d; r]) = under_names (names d) r.
Proof.
  intros Hd. rewrite Join_rooted by done. apply names_abs, under_names_plains, names_plains.
Qed.

(** A relative path that does not go up. *)
Definition tame (r : string) : Prop := Forall (λ c, c ≠ "..") (Split "/" r).
Lemma clean_parts_tame stack ps : Forall (λ c, c ≠ "..") ps →
  clean_parts true stack ps = reverse stack ++ filter (λ c, c ≠ "" ∧ c ≠ ".") ps.
Proof.
  intros Hps. revert stack. induction Hps as [|p ps Hp _ IH]; intros stack; cbn [clean_parts].
  - by rewrite app_nil_r.
  - rewrite filter_cons. case_decide as H1.
    + rewrite decide_False by naive_solver. apply IH.
    + rewrite !decide_False by done. rewrite decide_True by naive_solver.
      rewrite IH, reverse_cons, <- app_assoc. done.
Qed.
Lemma under_names_tame base r : tame r → ∃ k, under_names base r = base ++ k.
Proof.
  intros Hr. unfold under_names. rewrite clean_parts_tame by done.
  rewrite reverse_involutive. by eexists.
Qed.
Lemma under_names_plain base k : plains k → k ≠ [] →
  under_names base (GoStrings.Join k "/") = base ++ k.
Proof.
  intros Hk Hne. unfold under_names. rewrite Split_Join.
  - rewrite clean_parts_plain by done. by rewrite reverse_involutive.
  - done.
  - intros p Hp. apply plain_free. by eapply Forall_forall in Hk.
Qed.
Lemma parent_names base : plains base → under_names base ".." = parent base.
Proof.
  intros Hb. unfold under_names, parent. change (Split "/" "..") with [".."].
  destruct base as [|x base _] using rev_ind; [reflexivity|]. rewrite reverse_snoc.
  apply Forall_app in Hb as [_ [Hx _]%Forall_cons]. pose proof (plain_not _ Hx) as (_ & _ & ?).
  cbn [clean_parts]. rewrite decide_False by naive_solver. rewrite decide_True by done.
  rewrite decide_False by done. by rewrite reverse_involutive, removelast_last.
Qed.

(** ** Resolving without links *)

Definition not_link (n : option node) : Prop := ∀ t, n ≠ Some (Link t).

Lemma resolve_step links f follow at_ todo :
  resolve links f follow at_ todo =
  match todo with
  | [] => Some at_
  | c :: rest =>
      if decide (c = "" ∨ c = ".") then resolve links f follow at_ rest
      else if decide (c = "..") then resolve links f follow (parent at_) rest
      else
        match get f (at_ ++ [c]) with
        | Some (Dir _) => resolve links f follow (at_ ++ [c]) rest
        | Some (File _ _) => if decide (rest = []) then Some (at_ ++ [c]) else None
        | Some (Link target) =>
            if decide (rest = [] ∧ follow = false) then Some (at_ ++ [c])
            else match links with
                 | 0 => None
                 | S links =>
                     resolve links f follow (if HasPrefix target "/" then [] else at_)
                       (Split "/" target ++ rest)
                 end
        | None => if decide (rest = []) then Some (at_ ++ [c]) else None
        end
  end.
Proof. by destruct links, todo. Qed.

(** A path that meets no link is where it says, if it is anywhere. *)
Lemma resolve_straight links f follow at_ todo :
  plains todo → (∀ k, k `prefix_of` todo → k ≠ [] → not_link (get f (at_ ++ k))) →
  resolve links f follow at_ todo = Some (at_ ++ todo) ∨ resolve links f follow at_ todo = None.
Proof.
  intros Ht. revert at_. induction Ht as [|c rest Hc Hrest IH]; intros at_ Hl; rewrite resolve_step.
  - left. by rewrite app_nil_r.
  - apply plain_not in Hc as (? & ? & ?). rewrite !decide_False by tauto.
    assert (not_link (get f (at_ ++ [c]))) as Hc by (apply Hl; [by exists rest|done]).
    destruct (get f (at_ ++ [c])) as [[m b|m|t]|] eqn:Hg.
    + case_decide as Hr; [subst; by left|by right].
    + specialize (IH (at_ ++ [c])). rewrite <- app_assoc in IH. apply IH.
      intros k Hk Hne. rewrite <- app_assoc. apply Hl; [|done]. by apply prefix_cons.
    + by destruct (Hc t).
    + case_decide as Hr; [subst; by left|by right].
Qed.
(** It is there when the directories on the way exist. *)
Lemma resolve_dirs links f follow at_ todo c :
  plains (todo ++ [c]) → (∀ k, k `prefix_of` todo → k ≠ [] → is_dir (get f (at_ ++ k)) = true) →
  follow = false ∨ not_link (get f (at_ ++ todo ++ [c])) →
  resolve links f follow at_ (todo ++ [c]) = Some (at_ ++ todo ++ [c]).
Proof.
  revert at_. induction todo as [|x todo IH]; intros at_ Hp Hd Hn; rewrite resolve_step; cbn [app].
  - apply Forall_cons in Hp as [(? & ? & ?)%plain_not _].
    rewrite !decide_False by tauto. cbn [app] in Hn.
    destruct (get f (at_ ++ [c])) as [[m b|m|t]|]; [by rewrite decide_True|by rewrite resolve_step| |by rewrite decide_True].
    destruct Hn as [->|Hn]; [by rewrite decide_True|by destruct (Hn t)].
  - cbn [app] in Hp. apply Forall_cons in Hp as [(? & ? & ?)%plain_not Hp].
    rewrite !decide_False by tauto.
    assert (is_dir (get f (at_ ++ [x])) = true) as Hx by (apply Hd; [by exists todo|done]).
    destruct (get f (at_ ++ [x])) as [[m b|m|t]|]; try done.
    specialize (IH (at_ ++ [x]) Hp). rewrite <- !app_assoc in IH. apply IH; [|done].
    intros k Hk Hne. rewrite <- app_assoc. apply Hd; [by apply prefix_cons|done].
Qed.

(** ** Staying below a directory *)

(** No link on the way to a directory, nor below it. *)
Definition linkless (d : path) (f : fs) : Prop :=
  ∀ p t, f !! p = Some (Link t) → ¬ p `prefix_of` d ∧ ¬ d `prefix_of` p.
(** Nothing changes outside of the directory, but for the missing directories on the
    way to it. *)
Definition outside (d : path) (f f' : fs) : Prop :=
  ∀ p, ¬ d `prefix_of` p →
    f' !! p = f !! p ∨ (p `prefix_of` d ∧ f !! p = None ∧ is_dir (f' !! p) = true).
Definition inside (d : path) (f f' : fs) : Prop :=
  linkless d f → linkless d f' ∧ outside d f f'.
#[export] Instance inside_preorder d : PreOrder (inside d).
Proof.
  split.
  - intros f Hl. split; [done|]. intros p Hp. by left.
  - intros f g h Hfg Hgh Hl. destruct (Hfg Hl) as [Hg Ho]. destruct (Hgh Hg) as [Hh Ho'].
    split; [done|]. intros p Hp. destruct (Ho p Hp) as [H1|(H1 & H2 & H3)];
      destruct (Ho' p Hp) as [H4|(H4 & H5 & H6)].
    + left. congruence.
    + right. rewrite H1 in H5. done.
    + right. by rewrite H4.
    + by rewrite H5 in H3.
Qed.
Lemma eq_inside {A} (d : path) (c : M fs A) : stays eq c → stays (inside d) c.
Proof. intros Hc f. by rewrite <- (Hc f). Qed.

(** On the way to the directory, or below it. *)
Definition near (d q : path) : Prop := q `prefix_of` d ∨ d `prefix_of` q.
Lemma near_prefix d q k : near d q → k `prefix_of` q → near d k.
Proof.
  intros [H|H] Hk; [left; by etrans|]. destruct (prefix_weak_total k d q Hk H); [by left|by right].
Qed.
Lemma linkless_get d f q : linkless d f → near d q → not_link (get f q).
Proof.
  intros Hl Hn t Hq. destruct q as [|c q]; [done|]. cbn in Hq.
  destruct (Hl _ _ Hq) as [H1 H2]. by destruct Hn.
Qed.
Lemma resolve_near links d f follow q : linkless d f → near d q → plains q →
  resolve links f follow [] q = Some q ∨ resolve links f follow [] q = None.
Proof.
  intros Hl Hn Hq. apply (resolve_straight links f follow [] q Hq).
  intros k Hk _. eapply linkless_get; [done|]. by eapply near_prefix.
Qed.
Lemma walk_near d f follow p : linkless d f → near d (names p) →
  walk f follow p = Some (names p) ∨ walk f follow p = None.
Proof. intros Hl Hn. eapply resolve_near; [done..|apply names_plains]. Qed.

Lemma insert_inside d f q n : q ≠ [] → not_link (Some n) → d `prefix_of` q → inside d f (<[q := n]> f).
Proof.
  intros Hne Hn Hq Hl. split.
  - intros p t. destruct (decide (p = q)) as [->|Hp].
    + rewrite lookup_insert_eq. intros [= ->]. by destruct (Hn t).
    + rewrite lookup_insert_ne by done. apply Hl.
  - intros p Hp. left. rewrite lookup_insert_ne; [done|]. by intros <-.
Qed.
Lemma mkdir_inside d f q perm : q ≠ [] → near d q → get f q = None →
  inside d f (<[q := Dir perm]> f).
Proof.
  intros Hne [Hq|Hq] Hg Hl; [|by apply insert_inside]. split.
  - intros p t. destruct (decide (p = q)) as [->|Hp]; [by rewrite lookup_insert_eq|].
    rewrite lookup_insert_ne by done. apply Hl.
  - intros p Hp. destruct (decide (p = q)) as [->|Hpq].
    + right. rewrite lookup_insert_eq. split_and!; [done| |done]. by destruct q.
    + left. by rewrite lookup_insert_ne.
Qed.

Section Calls.
Context (fy : fsys) (d : path).

Lemma call_inside {A} (op : fsop) (p : string) (c : M fs A) : stays (inside d) c → stays (inside d) (call fy op p c).
Proof. intros Hc. unfold call. destruct (fy_fail fy op p); [stays|done]. Qed.

Lemma mkdir_from_inside perm done todo : plains (done ++ todo) → near d (done ++ todo) →
  stays (inside d) (mkdir_from perm done todo).
Proof.
  revert done. induction todo as [|c rest IH]; intros done Hp Hn; cbn [mkdir_from]; [stays|].
  intros f Hl. rewrite run_get.
  assert (near d (done ++ [c])) as Hc.
  { eapply near_prefix; [exact Hn|]. exists rest. by rewrite <- app_assoc. }
  assert (plains (done ++ [c])) as Hpc.
  { change (c :: rest) with ([c] ++ rest) in Hp. rewrite app_assoc in Hp. by apply Forall_app in Hp as [? _]. }
  specialize (IH (done ++ [c])). rewrite <- app_assoc in IH. specialize (IH Hp Hn).
  pose proof (reflexivity f : inside d f f) as Hrefl.
  destruct (resolve_near max_links d f true _ Hl Hc Hpc) as [->| ->]; [|by apply Hrefl].
  destruct (get f (done ++ [c])) as [[m b|m|t]|] eqn:Hg; [by apply Hrefl|by apply IH|by apply Hrefl|].
  destruct (resolve_near max_links d f false _ Hl Hc Hpc) as [->| ->]; [|by apply Hrefl].
  rewrite decide_True by reflexivity. rewrite run_modify.
  revert Hl. change (inside d f (mkdir_from perm (done ++ [c]) rest (<[done ++ [c]:=Dir perm]> f)).2).
  etrans; [|apply IH]. apply mkdir_inside; [by destruct done|done|done].
Qed.
Lemma MkdirAll_inside p perm : near d (names p) → stays (inside d) (MkdirAll fy p perm).
Proof. intros Hn. apply call_inside, mkdir_from_inside; [apply names_plains|done]. Qed.

(** Opening a file for writing is at its own path. *)
Lemma create_inside (p : string) perm (k : path → M fs unit) :
  d `prefix_of` names p → names p ≠ [] →
  stays (inside d) (k (names p)) → stays (inside d) (create fy p perm ≫= k).
Proof.
  intros Hd Hne Hk f Hl. pose proof (reflexivity f : inside d f f) as Hrefl.
  unfold create, call, mbind, M_bind. destruct (fy_fail fy OpCreate p); [by apply Hrefl|].
  unfold getS. destruct (walk_near d f true p Hl (or_intror Hd)) as [->| ->]; [|by apply Hrefl].
  destruct (get f (names p)) as [[m b|m|t]|] eqn:Hg; cbn; try (by apply Hrefl);
    (revert Hl; match goal with |- _ → linkless d (k _ ?g).2 ∧ _ =>
       change (inside d f (k (names p) g).2); etrans; [|apply Hk] end;
     by apply insert_inside).
Qed.
Lemma fill_inside q content : d `prefix_of` q → q ≠ [] → stays (inside d) (fill q content).
Proof.
  intros Hd Hne f. cbn. destruct (f !! q) as [[]|]; try reflexivity. by apply insert_inside.
Qed.
Lemma Chmod_inside (p : string) mode : d `prefix_of` names p → names p ≠ [] →
  stays (inside d) (Chmod fy p mode).
Proof.
  intros Hd Hne. apply call_inside. intros f Hl. rewrite run_get.
  pose proof (reflexivity f : inside d f f) as Hrefl.
  destruct (walk_near d f true p Hl (or_intror Hd)) as [->| ->]; [|by apply Hrefl].
  destruct (f !! names p) as [[]|]; try (by apply Hrefl); revert Hl; by apply insert_inside.
Qed.
Lemma RemoveAll_inside (p : string) : d `prefix_of` names p → stays (inside d) (RemoveAll fy p).
Proof.
  intros Hd. apply call_inside. intros f Hl. rewrite run_get.
  pose proof (reflexivity f : inside d f f) as Hrefl.
  destruct (walk_near d f false p Hl (or_intror Hd)) as [->| ->]; [|by apply Hrefl].
  cbn. split.
  - intros q t. rewrite map_lookup_filter_Some. intros [H _]. by eapply Hl.
  - intros q Hq. left. rewrite map_lookup_filter. destruct (f !! q) as [n|]; cbn; [|done].
    unfold below. rewrite option_guard_True; [done|]. apply bool_decide_eq_false.
    intros Hp. apply Hq. by etrans.
Qed.
End Calls.

(** ** The tree stays a tree *)

Definition keeps_wf (f f' : fs) : Prop := wf f → wf f'.
#[export] Instance keeps_wf_preorder : PreOrder keeps_wf.
Proof. unfold keeps_wf. split; [by intros f|]. intros f g h H1 H2 H. by apply H2, H1. Qed.

Lemma parent_snoc (p : path) c : parent (p ++ [c]) = p.
Proof. apply removelast_last. Qed.
Lemma wf_parent f q : wf f → is_dir (get f q) = true → is_dir (get f (parent q)) = true.
Proof. intros [_ Hw] Hq. destruct q as [|c q]; [done|]. cbn in Hq. destruct (f !! _) eqn:Hg; [|done]. by eapply Hw. Qed.
Lemma resolve_parent links f follow at_ todo q : wf f → is_dir (get f at_) = true →
  resolve links f follow at_ todo = Some q → is_dir (get f (parent q)) = true.
Proof.
  intros Hw. revert at_ todo. induction links as [|links IHl]; intros at_ todo; revert at_;
    induction todo as [|c todo IH]; intros at_ Ha; rewrite resolve_step;
    try (intros [= <-]; by apply wf_parent);
    (case_decide; [by apply IH|]; case_decide; [by apply IH, wf_parent|]);
    destruct (get f (at_ ++ [c])) as [[m b|m|t]|] eqn:Hg;
    try (case_decide; [intros [= <-]; by rewrite parent_snoc|done]);
    try (apply IH; by rewrite Hg).
  case_decide; [intros [= <-]; by rewrite parent_snoc|].
  apply IHl. by destruct (HasPrefix t "/").
Qed.
Lemma walk_parent f follow p q : wf f → walk f follow p = Some q → is_dir (get f (parent q)) = true.
Proof. intros Hw. by apply resolve_parent. Qed.

Lemma wf_insert f q n : wf f → q ≠ [] → is_dir (get f (parent q)) = true →
  (is_dir (get f q) = true → is_dir (Some n) = true) → wf (<[q := n]> f).
Proof.
  intros [Hr Hw] Hne Hp Hd. split; [by rewrite lookup_insert_ne|].
  assert (∀ k, is_dir (get f k) = true → is_dir (get (<[q := n]> f) k) = true) as Hk.
  { intros k Hk. destruct k as [|c k]; [done|]. cbn in *. destruct (decide (q = c :: k)) as [->|Hqk].
    - rewrite lookup_insert_eq. by apply Hd.
    - by rewrite lookup_insert_ne. }
  intros p n' Hn. apply Hk. destruct (decide (q = p)) as [->|Hqp]; [done|].
  rewrite lookup_insert_ne in Hn by done. by eapply Hw.
Qed.
Lemma wf_delete f q : wf f → (∀ k, f !! k ≠ None → k ≠ [] → parent k ≠ q) → wf (delete q f).
Proof.
  intros [Hr Hw] Hq. split; [by apply lookup_delete_None; right|].
  intros p n [Hne Hn]%lookup_delete_Some. pose proof (Hw p n Hn) as Hp.
  assert (p ≠ []) as Hp0 by (intros ->; congruence).
  specialize (Hq p ltac:(congruence) Hp0). destruct (parent p) as [|c k] eqn:Hpp; [done|].
  cbn in *. by rewrite lookup_delete_ne.
Qed.
Lemma prefix_parent (q k : path) : k ≠ [] → q `prefix_of` parent k → q `prefix_of` k ∧ q ≠ k.
Proof.
  intros Hk [r Hr]. destruct k as [|c k _] using rev_ind; [done|]. rewrite parent_snoc in Hr. subst k.
  split; [exists (r ++ [c]); by rewrite app_assoc|]. intros H%(f_equal length).
  rewrite !length_app in H. cbn in H. lia.
Qed.

Section Keep.
Context (fy : fsys).
Lemma call_wf {A} (op : fsop) (p : string) (c : M fs A) : stays keeps_wf c → stays keeps_wf (call fy op p c).
Proof. intros Hc. unfold call. destruct (fy_fail fy op p); [stays|done]. Qed.
Lemma mkdir_from_wf perm done todo : stays keeps_wf (mkdir_from perm done todo).
Proof.
  revert done. induction todo as [|c rest IH]; intros done; cbn [mkdir_from]; [stays|].
  intros f. rewrite run_get. destruct (resolve _ f true _ _) as [q|] eqn:Hq; [|reflexivity].
  destruct (get f q) as [[]|] eqn:Hg; [reflexivity|apply IH|reflexivity|].
  destruct (resolve _ f false _ _) as [q'|]; [|reflexivity].
  case_decide; [|reflexivity]. rewrite run_modify. etrans; [|apply IH]. intros Hw.
  apply wf_insert; [done| |exact (resolve_parent _ _ _ [] _ _ Hw eq_refl Hq)|by rewrite Hg]. intros ->. by cbn in Hg.
Qed.

(** Every call keeps the files of the system a tree: whatever exists is in a
    directory that exists. *)
Theorem calls_keep_tree (p target : string) perm content q :
  stays keeps_wf (MkdirAll fy p perm) ∧ stays keeps_wf (create fy p perm) ∧
  stays keeps_wf (fill q content) ∧ stays keeps_wf (Symlink fy target p) ∧
  stays keeps_wf (Chmod fy p perm) ∧ stays keeps_wf (Remove fy p) ∧
  stays keeps_wf (RemoveAll fy p).
Proof.
  split_and!.
  - apply call_wf, mkdir_from_wf.
  - apply call_wf. intros f. rewrite run_get. destruct (walk f true p) as [k|] eqn:Hk; [|reflexivity].
    pose proof (λ Hw, walk_parent f true p k Hw Hk) as Hp.
    destruct (get f k) as [[m b|m|t]|] eqn:Hg; try reflexivity;
      (intros Hw; apply wf_insert; [done|intros ->; by cbn in Hg|by apply Hp|by rewrite Hg]).
  - intros f. cbn. destruct (f !! q) as [[]|] eqn:Hg; try reflexivity. intros Hw.
    assert (q ≠ []) as Hne by (intros ->; destruct Hw; congruence).
    apply wf_insert; [done|done|by eapply Hw|]. destruct q; [done|]. cbn. by rewrite Hg.
  - apply call_wf. intros f. rewrite run_get. destruct (walk f false p) as [k|] eqn:Hk; [|reflexivity].
    destruct (get f k) as [n|] eqn:Hg; [reflexivity|]. intros Hw.
    apply wf_insert; [done|intros ->; by cbn in Hg|by eapply walk_parent|by rewrite Hg].
  - apply call_wf. intros f. rewrite run_get. destruct (walk f true p) as [k|] eqn:Hk; [|reflexivity].
    destruct (f !! k) as [[m b|m|t]|] eqn:Hg; try reflexivity; intros Hw;
      (assert (k ≠ []) as Hne by (intros ->; destruct Hw; congruence));
      (apply wf_insert; [done|done|exact (walk_parent f true p k Hw Hk)|destruct k; [done|]; cbn; by rewrite Hg]).
  - apply call_wf. intros f. rewrite run_get. destruct (walk f false p) as [k|] eqn:Hk; [|reflexivity].
    destruct (get f k) as [n|] eqn:Hg; [|reflexivity].
    assert (wf f → (∀ j, f !! j ≠ None → j ≠ [] → parent j ≠ k) → wf (delete k f)) as Hdel by apply wf_delete.
    destruct n as [m b|m|t].
    2: { case_decide as He; [|reflexivity]. intros Hw. apply Hdel; [done|]. intros j Hj Hne Hpj.
         destruct (f !! j) as [x|] eqn:Hx; [|done].
         assert (k `prefix_of` j ∧ k ≠ j) as [Hkj Hkne] by (apply prefix_parent; [done|by rewrite Hpj]).
         assert (filter (λ kv, kv.1 ≠ k ∧ below k kv.1 = true) f !! j = Some x) as Hf.
         { apply map_lookup_filter_Some. split; [done|]. cbn. split; [by intros ->|].
           by apply bool_decide_eq_true. }
         by rewrite He in Hf. }
    all: intros Hw; apply Hdel; [done|]; intros j Hj Hne Hpj; destruct (f !! j) as [x|] eqn:Hx;
      [|done]; destruct Hw as [_ Hw]; specialize (Hw _ _ Hx); by rewrite Hpj, Hg in Hw.
  - apply call_wf. intros f. rewrite run_get. destruct (walk f false p) as [k|]; [|reflexivity].
    intros [Hr Hw]. cbn. split; [by apply map_lookup_filter_None; left|].
    intros j n [Hj Hb]%map_lookup_filter_Some. specialize (Hw _ _ Hj).
    assert (j ≠ []) as Hne by (intros ->; congruence).
    destruct (parent j) as [|c i] eqn:Hp; [done|]. cbn in Hw |- *. rewrite map_lookup_filter.
    destruct (f !! (c :: i)); [|done]. cbn. rewrite option_guard_True; [done|].
    unfold below in *. cbn in Hb. apply bool_decide_eq_false in Hb. apply bool_decide_eq_false.
    intros H. apply Hb. rewrite <- Hp in H. by apply prefix_parent.
Qed.
End Keep.

(** ** Where things are *)

Lemma wf_prefix f p n k : wf f → get f p = Some n → k `prefix_of` p → k ≠ p →
  is_dir (get f k) = true.
Proof.
  intros Hw Hp [x ->] Hne. revert n Hp. induction x as [|c x IH] using rev_ind; intros n Hp.
  - by rewrite app_nil_r in Hne.
  - rewrite app_assoc in Hp. assert (is_dir (get f (k ++ x)) = true) as Hd.
    { destruct Hw as [_ Hw]. destruct ((k ++ x) ++ [c]) as [|y z] eqn:Hyz; [by destruct (k ++ x)|].
      cbn in Hp. apply Hw in Hp. rewrite <- Hyz in Hp. by rewrite parent_snoc in Hp. }
    destruct x as [|y x]; [by rewrite app_nil_r in Hd|].
    destruct (get f (k ++ y :: x)) as [m|] eqn:Hg; [|done]. apply (IH ltac:(intros H; apply (f_equal length) in H; rewrite length_app in H; cbn in H; lia) m eq_refl).
Qed.
Lemma walk_node f follow p q n : wf f → names p = q → get f q = Some n →
  follow = false ∨ not_link (Some n) → walk f follow p = Some q.
Proof.
  intros Hw Hp Hg Hf. unfold walk. rewrite Hp. pose proof (names_plains p) as Hpl. rewrite Hp in Hpl.
  destruct q as [|c q _] using rev_ind; [done|].
  apply (resolve_dirs max_links f follow [] q c); [done| |cbn [app]; by rewrite Hg].
  intros k Hk _. cbn [app]. eapply wf_prefix; [done|exact Hg|by apply prefix_app_r|].
  intros ->. apply prefix_length in Hk. rewrite length_app in Hk. cbn in Hk. lia.
Qed.
Lemma stat_node_at f follow p q n : wf f → names p = q → get f q = Some n →
  follow = false ∨ not_link (Some n) → stat_node f follow p = Some n.
Proof. intros Hw Hp Hg Hf. unfold stat_node. by rewrite (walk_node f follow p q n). Qed.

Lemma child_name_Some q k c : child_name q k = Some c ↔ k = q ++ [c].
Proof.
  unfold child_name. split.
  - destruct (last k); [|done]. case_decide; [|done]. by intros [= <-].
  - intros ->. rewrite last_snoc. by rewrite decide_True.
Qed.
Lemma elem_of_children f q c : c ∈ children f q ↔ is_Some (f !! (q ++ [c])).
Proof.
  unfold children. rewrite (merge_sort_Permutation String.le), list_elem_of_omap. split.
  - intros (k & Hk & ->%child_name_Some). apply list_elem_of_fmap in Hk as ([k' n] & Hkn & Hin).
    cbn in Hkn. subst k'. apply elem_of_map_to_list in Hin. by exists n.
  - intros [n Hn]. exists (q ++ [c]). split; [|by apply child_name_Some].
    apply list_elem_of_fmap. exists (q ++ [c], n). split; [done|]. by apply elem_of_map_to_list.
Qed.
Lemma children_NoDup f q : NoDup (children f q).
Proof.
  unfold children. rewrite (merge_sort_Permutation String.le).
  pose proof (NoDup_fst_map_to_list f) as Hn. induction Hn as [|k l Hk Hl IH]; [constructor|].
  cbn. destruct (child_name q k) as [c|] eqn:Hc; [|done]. constructor; [|done].
  rewrite list_elem_of_omap. intros (k' & Hk' & Hc'). apply child_name_Some in Hc, Hc'. congruence.
Qed.

(** A path is not longer than there are nodes. *)
Lemma path_length (f : fs) (p : path) n : wf f → f !! p = Some n → (length p ≤ size f)%nat.
Proof.
  intros Hw Hp. set (l := (λ k, take k p) <$> seq 1 (length p)).
  assert (length l = length p) as <- by (unfold l; by rewrite length_fmap, length_seq).
  rewrite <- size_dom. rewrite <- (size_list_to_set (C := gset (list string)) l).
  - apply subseteq_size. intros q Hq. apply elem_of_list_to_set, list_elem_of_fmap in Hq as (k & -> & Hk).
    apply elem_of_seq in Hk. apply elem_of_dom.
    destruct (decide (k = length p)) as [->|Hne]; [rewrite take_ge by lia; by exists n|].
    assert (get f p = Some n) as Hg by (destruct p; [by destruct Hw as [? _]; simplify_eq|done]).
    assert (is_dir (get f (take k p)) = true) as Hd.
    { eapply wf_prefix; [done|exact Hg|apply prefix_take|].
      intros H%(f_equal length). rewrite length_take in H. lia. }
    destruct (take k p) as [|x y] eqn:Ht.
    { apply (f_equal length) in Ht. rewrite length_take in Ht. cbn in Ht. lia. }
    cbn in Hd. by destruct (f !! (x :: y)).
  - apply NoDup_fmap_2_strong; [|apply NoDup_seq].
    intros i j Hi%elem_of_seq Hj%elem_of_seq H%(f_equal length). rewrite !length_take in H. lia.
Qed.
