(* ===== verification/Extract.v ===== *)
(** * Archives and copies

    pkg/extract and pkg/copy on the file system of FileTree.v.  A tar stream is the list of
    entries the reader of the standard library yields, and how it ends; gzip does
    not change it.  Times and owners are left out, the umask is 0 and the
    system is not Windows. *)

From S2P Require Import Prelude GoStrings Types Provider Options Lifecycle FileTree.
From stdpp Require Import base gmap list strings.
From Stdlib Require Import ZArith.

Local Open Scope string_scope.
Local Open Scope list_scope.

(** ** Archives *)

Inductive typeflag := TypeReg | TypeDir | TypeSymlink | TypeLink.
#[export] Instance typeflag_eq_dec : EqDecision typeflag.
Proof. solve_decision. Defined.
Record header := {
  h_Name : string; h_Typeflag : typeflag; h_Linkname : string; h_Mode : N }.
(** An entry: its header, its contents, and an error that ends them early. *)
Record entry := { e_Header : header; e_Body : string; e_Error : option string }.
(** What a reader holds. *)
Inductive stream :=
| Unreadable (e : string)
| Tar (entries : list entry) (e : option string).

Record Options := { x_StripLevels : nat; x_Perm : option N }.
Definition no_options : Options := {| x_StripLevels := 0; x_Perm := None |}.
Definition StripLevels (levels : nat) : Options := {| x_StripLevels := levels; x_Perm := None |}.

Definition getRelativeFromFullPath (fullpath prefix : string) : string :=
  TrimPrefix (ReplaceAll (ReplaceAll (sdrop (String.length prefix) fullpath) "\" "/") "//" "/") ".".

(** [strings.Index(s, "/")], as the text behind it *)
Fixpoint after_slash (s : string) : option string :=
  match s with
  | "" => None
  | String c s' => if decide (c = "/"%char) then Some s' else after_slash s'
  end.
Fixpoint strip (levels : nat) (relativePath : string) : string :=
  match levels with
  | 0 => relativePath
  | S n => let r := TrimPrefix relativePath "/" in
           match after_slash r with Some rest => strip n rest | None => r end
  end.
Definition relative_path (options : Options) (name : string) : string :=
  let r := getRelativeFromFullPath ("/" +:+ name) "" in
  if decide (x_StripLevels options = 0%nat) then r
  else "/" +:+ strip (x_StripLevels options) r.

Definition path_Dir (p : string) : string := filepath_Join [p; ".."].

Section Extract.
Context (fy : fsys).
Notation C := (M fs).

(** A file is opened again after five seconds when that failed. *)
Definition open_retry (p : string) (perm : N) : C path :=
  r ← caught (create fy p perm);
  match r with
  | Err _ => r ← caught (create fy p perm); liftR (wrap ("create " +:+ p) r)
  | r => liftR r
  end.
Definition extract_entry (destFolder : string) (options : Options) (x : entry) : C unit :=
  let h := e_Header x in
  let outFileName := filepath_Join [destFolder; relative_path options (h_Name h)] in
  let dirPerm := default 511%N (x_Perm options) in
  _ ← MkdirAll fy (path_Dir outFileName) dirPerm;
  match h_Typeflag h with
  | TypeDir => MkdirAll fy outFileName dirPerm
  | TypeSymlink => Symlink fy (h_Linkname h) outFileName
  | TypeLink => HardLink fy (h_Linkname h) outFileName
  | TypeReg =>
      q ← open_retry outFileName (default 420%N (x_Perm options));
      _ ← fill q (e_Body x);
      match e_Error x with
      | Some e => throw ("io copy tar reader " +:+ outFileName +:+ ": " +:+ e)
      | None =>
          match x_Perm options with
          | None => try_ (Chmod fy outFileName (N.lor (h_Mode h) 384))
          | Some _ => mret ()
          end
      end
  end.
Fixpoint extract_all (destFolder : string) (options : Options) (l : list entry)
    (e : option string) : C unit :=
  match l with
  | [] => match e with
          | Some e => throw ("decompress: tar reader next: " +:+ e)
          | None => mret ()
          end
  | x :: l' =>
      r ← caught (extract_entry destFolder options x);
      _ ← liftR (wrap "decompress" r);
      extract_all destFolder options l' e
  end.
Definition Extract (s : stream) (destFolder : string) (options : Options) : C unit :=
  match s with
  | Unreadable e => throw e
  | Tar l e => extract_all destFolder options l e
  end.

(** ** zip.go *)

Definition unzipFile (x : entry) (destination : string) : C unit :=
  let h := e_Header x in
  let filePath := filepath_Join [destination; h_Name h] in
  if negb (HasPrefix filePath (filepath_Clean destination +:+ "/")) then
    throw ("invalid file path: " +:+ filePath)
  else if decide (h_Typeflag h = TypeDir) then MkdirAll fy filePath 511
  else
    _ ← MkdirAll fy (path_Dir filePath) 511;
    q ← create fy filePath (h_Mode h);
    _ ← fill q (e_Body x);
    match e_Error x with Some e => throw e | None => mret () end.
(** [destination] is absolute *)
Definition UnzipFolder (s : stream) (destination : string) : C unit :=
  match s with
  | Unreadable e => throw e
  | Tar l _ => forM_ l (λ x, unzipFile x destination)
  end.

(** ** compress.go

    The state has the files, the entries written so far, and how many bytes of
    the last one are missing: the next header cannot be written then. *)

Record archiver := Archiver {
  ar_fs : fs; ar_entries : list entry; ar_written : gset string; ar_missing : nat }.
Notation A := (M archiver).
Definition reading {X} (c : C X) : A X := λ a, let '(r, f) := c (ar_fs a) in
  (r, Archiver f (ar_entries a) (ar_written a) (ar_missing a)).
Definition emit (x : entry) (written : gset string) (missing : nat) : A unit :=
  a ← getS;
  if decide (ar_missing a = 0%nat) then
    putS (Archiver (ar_fs a) (ar_entries a ++ [x]) (written ∪ ar_written a) missing)
  else throw "tar write header: archive/tar: missed writing bytes".
Definition clean_name (p : string) : string := filepath_Clean p.

Section Archive.
Context (basePath : string) (excludedPaths : list string).

Definition isExcluded (relativePath : string) : bool :=
  existsb (λ e, HasPrefix relativePath e) excludedPaths.
Definition tarFile (target : string) (n : node) : A unit :=
  let p := filepath_Join [basePath; target] in
  match n with
  | Link _ =>
      r ← caught (reading (Readlink p));
      match r with
      | Ok linkName =>
          emit {| e_Header := {| h_Name := target; h_Typeflag := TypeSymlink;
                    h_Linkname := linkName; h_Mode := 511 |}; e_Body := ""; e_Error := None |}
            {[target]} 0
      | _ => mret ()
      end
  | File mode content =>
      let h := {| h_Name := target; h_Typeflag := TypeReg; h_Linkname := ""; h_Mode := mode |} in
      r ← caught (reading (ReadFile fy p));
      match r with
      | Ok body => emit {| e_Header := h; e_Body := body; e_Error := None |} {[target]} 0
      | _ =>
          emit {| e_Header := h; e_Body := "";
                  e_Error := if sempty content then None else Some "unexpected EOF" |}
            ∅ (String.length content)
      end
  | Dir _ => mret ()
  end.
(** The recursion goes down the directories; [depth] bounds it. *)
Fixpoint AddToArchive (depth : nat) (relativePath : string) : A unit :=
  match depth with
  | 0 => liftR NoFuel
  | S depth =>
      a ← getS;
      if bool_decide (relativePath ∈ ar_written a) then mret ()
      else
        r ← caught (reading (stat_ fy false (filepath_Join [basePath; relativePath])));
        match r with
        | Ok (Some (Dir mode)) =>
            if isExcluded (clean_name relativePath +:+ "/") then mret ()
            else
              files ← caught (reading (ReadDir fy (filepath_Join [basePath; relativePath])));
              match files with
              | Ok files =>
                  _ ← (if decide (files = [] ∧ relativePath ≠ "") then
                         emit {| e_Header := {| h_Name := relativePath; h_Typeflag := TypeDir;
                                   h_Linkname := ""; h_Mode := mode |};
                                 e_Body := ""; e_Error := None |} {[relativePath]} 0
                       else mret ());
                  forM_ files (λ f,
                    r ← caught (AddToArchive depth (filepath_Join [relativePath; f]));
                    liftR (wrap ("recursive tar " +:+ f) r))
              | _ => mret ()
              end
        | Ok (Some n) =>
            if isExcluded (clean_name relativePath) then mret () else tarFile relativePath n
        | _ => mret ()
        end
  end.
End Archive.

(** The longest path has as many names as there are nodes at most. *)
Definition tree_depth (f : fs) : nat := S (S (size f)).
(** [WriteTarExclude] of an absolute path: the entries of the archive *)
Definition run_archiver (base target : string) (excludedPaths : list string) : C (list entry) :=
  λ f,
    let '(r, a) := AddToArchive base excludedPaths (tree_depth f) target (Archiver f [] ∅ 0) in
    (match r with
     | Ok _ => Ok (ar_entries a)
     | Err e => Err e
     | Panic => Panic
     | NoFuel => NoFuel
     end, ar_fs a).
Definition WriteTarExclude (localPath : string) (excludedPaths : list string) : C (list entry) :=
  n ← stat_ fy true localPath;
  match n with
  | None => throw ("stat: " +:+ ENOENT)
  | Some (Dir _) => run_archiver localPath "" excludedPaths
  | Some _ => run_archiver (path_Dir localPath) (default "" (last (names localPath))) excludedPaths
  end.

(** ** pkg/copy *)

(** [copy.File] *)
Definition copy_File (srcFile dstFile : string) (perm : N) : C unit :=
  q ← create fy dstFile perm;
  content ← ReadFile fy srcFile;
  fill q content.
Definition CreateIfNotExists (dir : string) (perm : N) : C unit :=
  there ← exists_ fy dir;
  if there : bool then mret ()
  else
    r ← caught (MkdirAll fy dir perm);
    match r with
    | Err e => throw ("failed to create directory: '" +:+ dir +:+ "', error: '" +:+ e +:+ "'")
    | r => liftR r
    end.
Definition node_mode (n : node) : N :=
  match n with File m _ => m | Dir m => m | Link _ => 511 end.
Definition is_link (n : option node) : bool := match n with Some (Link _) => true | _ => false end.
(** [copy.Directory]; since [os.Stat] follows links, a link is copied as what
    it points to, and the case of [copy.Symlink] never applies. *)
Fixpoint copy_Directory (depth : nat) (srcDir dest : string) : C unit :=
  match depth with
  | 0 => liftR NoFuel
  | S depth =>
      _ ← CreateIfNotExists dest 493;
      entries ← ReadDir fy srcDir;
      forM_ entries (λ e,
        let sourcePath := filepath_Join [srcDir; e] in
        let destPath := filepath_Join [dest; e] in
        info ← stat_ fy true sourcePath;
        match info with
        | None => throw ENOENT
        | Some n =>
            _ ← (match n with
                 | Dir _ => _ ← CreateIfNotExists destPath 493; copy_Directory depth sourcePath destPath
                 | _ => copy_File sourcePath destPath 420
                 end);
            f ← getS;
            match stat_node f false sourcePath with
            | Some (Link _) => mret ()
            | Some n' => Chmod fy destPath (node_mode n')
            | None => throw ENOENT
            end
        end)
  end.
Definition RenameDirectory (depth : nat) (srcDir dest : string) : C unit :=
  _ ← copy_Directory depth srcDir dest; RemoveAll fy srcDir.
End Extract.
