(* ===== verification/ExtractProps.v ===== *)
(** * Properties of archives and copies

    What extracting may touch; an archive of a folder extracts to the same tree;
    what is excluded is not archived. *)

From S2P Require Import Prelude GoStrings Types Provider Options Home Paths Lifecycle FileTree FileTreeProps Extract.
From stdpp Require Import base gmap list strings sorting.
From Stdlib Require Import ZArith Lia.

Local Open Scope string_scope.
Local Open Scope list_scope.

(** ** Staying below the destination *)

Section Inside.
Context (fy : fsys) (dest : string) (Hdest : rooted dest) (Hne : names dest ≠ []).
Notation d := (names dest).

Lemma names_Dir p : rooted p → names (path_Dir p) = parent (names p).
Proof. intros Hp. unfold path_Dir. rewrite names_Join by done. apply parent_names, names_plains. Qed.
Lemma parent_app (q k : path) : k ≠ [] → parent (q ++ k) = q ++ parent k.
Proof. intros Hk. unfold parent. by rewrite removelast_app. Qed.
Lemma near_parent q : d `prefix_of` q → near d (parent q).
Proof.
  intros [k ->]. destruct k as [|c k].
  - rewrite app_nil_r. left. unfold parent. destruct d as [|x l _] using rev_ind; [done|].
    rewrite removelast_last. by exists [x].
  - right. rewrite parent_app by done. by exists (parent (c :: k)).
Qed.
Lemma prefix_nonempty (q : path) : d `prefix_of` q → q ≠ [].
Proof. intros [k ->]. by destruct d. Qed.

Lemma open_retry_inside (p : string) perm (k : path → M fs unit) : d `prefix_of` names p →
  stays (inside d) (k (names p)) → stays (inside d) (open_retry fy p perm ≫= k).
Proof.
  intros Hp Hk f. unfold open_retry, caught, mbind, M_bind.
  pose proof (create_inside fy d p perm k Hp (prefix_nonempty _ Hp) Hk f) as H1.
  unfold mbind, M_bind in H1. destruct (create fy p perm f) as [[q|e| |] g] eqn:Hc; [exact H1| |done|done].
  cbn. pose proof (create_inside fy d p perm k Hp (prefix_nonempty _ Hp) Hk g) as H2.
  unfold mbind, M_bind in H2. etrans; [exact H1|].
  by destruct (create fy p perm g) as [[q|e'| |] h].
Qed.

(** An entry that is a file or a directory, with a name that does not go up. *)
Definition tame_entry (options : Options) (x : entry) : Prop :=
  tame (relative_path options (h_Name (e_Header x))) ∧
  (h_Typeflag (e_Header x) = TypeReg ∨ h_Typeflag (e_Header x) = TypeDir).

Lemma extract_entry_inside options x :
  tame_entry options x → stays (inside d) (extract_entry fy dest options x).
Proof.
  intros [Ht Hty]. unfold extract_entry.
  set (out := filepath_Join [dest; relative_path options (h_Name (e_Header x))]).
  assert (rooted out) as Hout by (unfold out; rewrite Join_rooted by done; apply rooted_abs).
  assert (d `prefix_of` names out) as Hp.
  { unfold out. rewrite names_Join by done. destruct (under_names_tame d _ Ht) as [k ->]. by exists k. }
  apply stays_bind; [apply _| |intros []].
  { apply MkdirAll_inside. rewrite names_Dir by done. by apply near_parent. }
  destruct Hty as [->| ->]; [|apply MkdirAll_inside; by right].
  apply open_retry_inside; [done|].
  apply stays_bind; [apply _|apply fill_inside; [done|by apply prefix_nonempty]|intros []].
  destruct (e_Error x); [stays|]. destruct (x_Perm options); [stays|].
  apply stays_try, Chmod_inside; [done|by apply prefix_nonempty].
Qed.

(** Extracting an archive of files and directories whose names do not go up changes nothing
    outside of the destination, if no link is on the way to it or below it; missing
    directories on the way are created.  This holds whether the extraction succeeds or not. *)
Theorem Extract_stays_inside s options :
  match s with Unreadable _ => True | Tar l _ => Forall (tame_entry options) l end →
  stays (inside d) (Extract fy s dest options).
Proof.
  destruct s as [e|l e]; cbn [Extract]; [stays|]. induction 1 as [|x l Hx _ IH]; cbn [extract_all].
  - destruct e; stays.
  - apply stays_bind; [apply _|by apply stays_caught, extract_entry_inside|]. intros r.
    apply stays_bind; [apply _|stays|]. by intros [].
Qed.

(** C32: Extracting a zip file changes nothing outside of the destination, whatever its
    entries are called, if no link is on the way to it or below it. *)
Theorem UnzipFolder_stays_inside s : stays (inside d) (UnzipFolder fy s dest).
Proof.
  destruct s as [e|l e]; cbn [UnzipFolder]; [stays|].
  induction l as [|x l IH]; cbn [forM_]; [stays|]. apply stays_bind; [apply _| |by intros []].
  unfold unzipFile. set (out := filepath_Join [dest; h_Name (e_Header x)]).
  destruct (HasPrefix out _) eqn:Hp; cbn [negb]; [|stays]. cbn [negb].
  assert (rooted out ∧ d `prefix_of` names out) as [Hout Hd].
  { unfold out in *. rewrite Join_rooted in * by done. split; [apply rooted_abs|].
    rewrite Clean_rooted in Hp by done.
    change (HasPrefix ?a (?b +:+ "/")) with (under b a) in Hp.
    apply under_abs in Hp as (k & _ & Hk); [|apply names_plains|apply under_names_plains, names_plains|done].
    rewrite names_abs by apply under_names_plains, names_plains. by exists k. }
  case_decide; [apply MkdirAll_inside; by right|].
  apply stays_bind; [apply _| |intros []].
  { apply MkdirAll_inside. rewrite names_Dir by done. by apply near_parent. }
  apply create_inside; [done|by apply prefix_nonempty|].
  apply stays_bind; [apply _|apply fill_inside; [done|by apply prefix_nonempty]|intros []].
  destruct (e_Error x); stays.
Qed.
End Inside.

(** ** What an archive holds *)

(** The relative path of a list of names. *)
Definition rel (r : path) : string := GoStrings.Join r "/".

Lemma rel_nonempty r : plains r → r ≠ [] → rel r ≠ "".
Proof.
  intros Hr Hne H. destruct r as [|x r]; [done|]. apply Forall_cons in Hr as [Hx _].
  apply plain_not in Hx as (Hx & _). apply Hx. destruct r as [|y r]; [done|].
  unfold rel in H. rewrite Join_cons2 in H. by destruct x.
Qed.
Lemma rel_inj r r' : plains r → plains r' → rel r = rel r' → r = r'.
Proof.
  intros Hr Hr' H. apply abs_inj; [done..|]. unfold abs, rel in *. by rewrite H.
Qed.
Lemma rel_not_rooted r : plains r → HasPrefix (rel r) "/" = false.
Proof.
  intros Hr. destruct (HasPrefix (rel r) "/") eqn:H; [|done]. apply HasPrefix_spec in H as [t H].
  destruct r as [|x r]; [done|]. apply Forall_cons in Hr as [Hx _].
  pose proof (plain_free _ Hx) as Hf. apply plain_not in Hx as (Hx & _).
  destruct x as [|c x]; [done|]. apply free_cons in Hf as [Hc _].
  unfold rel in H. destruct r as [|y r]; [|rewrite Join_cons2 in H]; cbn in H; by injection H.
Qed.
Lemma Clean_rel r : plains r → r ≠ [] → filepath_Clean (rel r) = rel r.
Proof.
  intros Hr Hne. unfold filepath_Clean. rewrite rel_not_rooted by done.
  unfold rel at 1 2. rewrite Split_Join; [|done|].
  - rewrite clean_parts_plain by done. change (GoStrings.Join (reverse [] ++ r) "/") with (rel r).
    unfold sempty. rewrite bool_decide_false; [done|by apply rel_nonempty].
  - intros p Hp. apply plain_free. by eapply Forall_forall in Hr.
Qed.
Lemma Join_rel r c : plains r → plain c = true → filepath_Join [rel r; c] = rel (r ++ [c]).
Proof.
  intros Hr Hc. assert (plains (r ++ [c])) as Hrc by (apply Forall_app; split; [done|by constructor]).
  destruct r as [|x r].
  - change (filepath_Join [rel []; c]) with (filepath_Join [c]). cbn [filepath_Join].
    apply plain_not in Hc as Hc'. unfold sempty. rewrite bool_decide_false by apply Hc'.
    apply (Clean_rel [c]); [done|done].
  - cbn [filepath_Join]. unfold sempty. rewrite bool_decide_false by by apply rel_nonempty.
    rewrite <- (Clean_rel ((x :: r) ++ [c])); [|done|by destruct r]. f_equal.
    unfold rel. clear Hr Hrc. revert x. induction r as [|y r IH]; intros x; [done|].
    cbn [app]. rewrite (Join_cons2 x y). rewrite (Join_cons2 x y (r ++ [c])). cbn [app] in IH.
    rewrite <- (IH y). change (GoStrings.Join [?a; c] "/") with (a +:+ "/" +:+ c).
    change (GoStrings.Join [x +:+ "/" +:+ GoStrings.Join (y :: r) "/"; c] "/") with
      ((x +:+ "/" +:+ GoStrings.Join (y :: r) "/") +:+ "/" +:+ c).
    change (GoStrings.Join [GoStrings.Join (y :: r) "/"; c] "/") with
      (GoStrings.Join (y :: r) "/" +:+ "/" +:+ c).
    by rewrite !sapp_assoc.
Qed.
Lemma names_base b r : rooted b → plains r → names (filepath_Join [b; rel r]) = names b ++ r.
Proof.
  intros Hb Hr. rewrite names_Join by done. destruct r as [|x r].
  - change (rel []) with "". unfold under_names. change (Split "/" "") with [""].
    change (clean_parts true (reverse (names b)) [""]) with (reverse (reverse (names b))).
    by rewrite reverse_involutive, app_nil_r.
  - by apply under_names_plain.
Qed.

(** The entry of a file, a link or an empty directory at a relative path. *)
Definition entry_of (xn : path * node) : entry :=
  match xn.2 with
  | File mode content =>
      {| e_Header := {| h_Name := rel xn.1; h_Typeflag := TypeReg; h_Linkname := "";
           h_Mode := mode |}; e_Body := content; e_Error := None |}
  | Link target =>
      {| e_Header := {| h_Name := rel xn.1; h_Typeflag := TypeSymlink; h_Linkname := target;
           h_Mode := 511 |}; e_Body := ""; e_Error := None |}
  | Dir mode =>
      {| e_Header := {| h_Name := rel xn.1; h_Typeflag := TypeDir; h_Linkname := "";
           h_Mode := mode |}; e_Body := ""; e_Error := None |}
  end.
(** What of a tree is put into an archive *)
Definition leaf (f : fs) (bs : path) (x : path) (n : node) : Prop :=
  x ≠ [] ∧ f !! (bs ++ x) = Some n ∧ (is_dir (Some n) = true → children f (bs ++ x) = []).

Section Archive.
Context (fy : fsys) (Hfy : ∀ op p, fy_fail fy op p = None).
Context (f : fs) (Hwf : wf f) (b : string) (Hb : rooted b).
Notation bs := (names b).
Context (Hplain : ∀ x, is_Some (f !! (bs ++ x)) → plains x).
Notation add := (AddToArchive fy b []).

(** What a call for the path [r] adds *)
Definition added (r : path) (a : archiver) (c : result unit * archiver) : Prop :=
  ∃ l W, c = (Ok (), Archiver f (ar_entries a ++ (entry_of <$> l)) W 0) ∧
    (∀ w, w ∈ W → w ∈ ar_written a ∨ ∃ x, plains x ∧ r `prefix_of` x ∧ w = rel x) ∧
    NoDup l.*1 ∧ ∀ x n, (x, n) ∈ l ↔ r `prefix_of` x ∧ leaf f bs x n.
(** The archive so far has nothing below [r]. *)
Definition fresh (r : path) (a : archiver) : Prop :=
  ar_fs a = f ∧ ar_missing a = 0%nat ∧
  ∀ x, plains x → r `prefix_of` x → rel x ∉ ar_written a.

Lemma reading_Ok {X} (c : M fs X) a x : ar_fs a = f → c f = (Ok x, f) → reading c a = (Ok x, a).
Proof. intros Ha Hc. unfold reading. rewrite Ha, Hc. by destruct a; cbn in *; subst. Qed.
Lemma Lstat_at r n : plains r → get f (bs ++ r) = Some n →
  stat_ fy false (filepath_Join [b; rel r]) f = (Ok (Some n), f).
Proof.
  intros Hr Hn. unfold stat_, call. rewrite Hfy. rewrite run_get. unfold mret, M_ret.
  by rewrite (stat_node_at f false _ (bs ++ r) n) by (done || (by apply names_base) || by left).
Qed.
Lemma ReadDir_at r m : plains r → get f (bs ++ r) = Some (Dir m) →
  ReadDir fy (filepath_Join [b; rel r]) f = (Ok (children f (bs ++ r)), f).
Proof.
  intros Hr Hn. unfold ReadDir, call. rewrite Hfy. rewrite run_get.
  rewrite (walk_node f true _ (bs ++ r) (Dir m)) by (done || (by apply names_base) || by right).
  by rewrite Hn.
Qed.
Lemma ReadFile_at r mode content : plains r → get f (bs ++ r) = Some (File mode content) →
  ReadFile fy (filepath_Join [b; rel r]) f = (Ok content, f).
Proof.
  intros Hr Hn. unfold ReadFile, call. rewrite Hfy. rewrite run_get.
  by rewrite (stat_node_at f true _ (bs ++ r) (File mode content))
    by (done || (by apply names_base) || by right).
Qed.
Lemma Readlink_at r target : plains r → get f (bs ++ r) = Some (Link target) →
  Readlink (filepath_Join [b; rel r]) f = (Ok target, f).
Proof.
  intros Hr Hn. unfold Readlink. rewrite run_get.
  by rewrite (stat_node_at f false _ (bs ++ r) (Link target))
    by (done || (by apply names_base) || by left).
Qed.
Lemma emit_fresh r x W a : fresh r a →
  emit x W 0 a = (Ok (), Archiver f (ar_entries a ++ [x]) (W ∪ ar_written a) 0).
Proof. intros (Hf & Hm & _). unfold emit. rewrite run_get, decide_True by done. by rewrite Hf. Qed.
Lemma dir_there p : p ≠ [] → is_dir (get f p) = true → is_Some (f !! p).
Proof. destruct p as [|c p]; [done|]. intros _ Hd. cbn [get] in Hd. by destruct (f !! (c :: p)). Qed.
Lemma below_dir r x m : f !! (bs ++ x) = Some m → r `prefix_of` x → r ≠ x →
  is_dir (get f (bs ++ r)) = true.
Proof.
  intros Hm Hp Hne. apply (wf_prefix f (bs ++ x) m); [done| |destruct Hp as [k ->]; exists k; by rewrite app_assoc|].
  - destruct (bs ++ x) eqn:Hz; [|done]. destruct Hwf as [Hr _]. congruence.
  - intros H. apply app_inv_head in H. done.
Qed.
(** Below a directory means below one of its children. *)
Lemma below_child r x m : f !! (bs ++ x) = Some m → r `prefix_of` x → r ≠ x →
  ∃ c, c ∈ children f (bs ++ r) ∧ (r ++ [c]) `prefix_of` x.
Proof.
  intros Hm [[|c k] ->] Hne; [by rewrite app_nil_r in Hne|]. exists c.
  split; [|exists k; by rewrite <- app_assoc]. apply elem_of_children.
  destruct k as [|c' k]; [exists m; by rewrite <- app_assoc|].
  assert (is_dir (get f (bs ++ r ++ [c])) = true) as Hd.
  { eapply below_dir; [exact Hm|exists (c' :: k); by rewrite <- app_assoc|].
    intros H%(f_equal length). rewrite !length_app in H. cbn in H. lia. }
  rewrite <- app_assoc. apply dir_there; [|done]. intros Hz%(f_equal length).
  rewrite !length_app in Hz. cbn in Hz. lia.
Qed.
Lemma only_leaf r n : plains r → r ≠ [] → f !! (bs ++ r) = Some n →
  (is_dir (Some n) = true → children f (bs ++ r) = []) →
  ∀ x m, (x, m) ∈ [(r, n)] ↔ r `prefix_of` x ∧ leaf f bs x m.
Proof.
  intros Hr Hne Hn Hc x m. rewrite list_elem_of_singleton. split.
  - intros [= -> ->]. by split_and!.
  - intros (Hp & Hx & Hm & _). destruct (decide (r = x)) as [<-|Hrx]; [congruence|].
    exfalso. pose proof (below_dir _ _ _ Hm Hp Hrx) as Hd.
    destruct (below_child _ _ _ Hm Hp Hrx) as (c & Hin & _).
    rewrite Hc in Hin; [by apply elem_of_nil in Hin|].
    destruct (bs ++ r) eqn:Hz; [|cbn in Hd; by rewrite Hn in Hd].
    apply (f_equal length) in Hz. rewrite length_app in Hz. by destruct r; [|cbn in Hz; lia].
Qed.
Lemma added_leaf r n a W : fresh r a → plains r → r ≠ [] → f !! (bs ++ r) = Some n →
  (is_dir (Some n) = true → children f (bs ++ r) = []) → W = {[rel r]} →
  added r a (Ok (), Archiver f (ar_entries a ++ [entry_of (r, n)]) (W ∪ ar_written a) 0).
Proof.
  intros Hf Hr Hne Hn Hc ->. exists [(r, n)]. eexists. split_and!; [reflexivity| | |].
  - intros w [->%elem_of_singleton|Hw]%elem_of_union; [right|by left]. by exists r.
  - cbn. apply NoDup_singleton.
  - by apply only_leaf.
Qed.

(** The files of a directory one after the other *)
Lemma add_files (g : string → M archiver unit) r cs : NoDup cs →
  (∀ c a, c ∈ cs → fresh (r ++ [c]) a → added (r ++ [c]) a (g c a)) →
  ∀ a, ar_fs a = f → ar_missing a = 0%nat → (∀ c, c ∈ cs → fresh (r ++ [c]) a) →
  ∃ l W, forM_ cs g a = (Ok (), Archiver f (ar_entries a ++ (entry_of <$> l)) W 0) ∧
    (∀ w, w ∈ W → w ∈ ar_written a ∨
       ∃ c x, c ∈ cs ∧ plains x ∧ (r ++ [c]) `prefix_of` x ∧ w = rel x) ∧
    NoDup l.*1 ∧ ∀ x n, (x, n) ∈ l ↔ ∃ c, c ∈ cs ∧ (r ++ [c]) `prefix_of` x ∧ leaf f bs x n.
Proof.
  induction 1 as [|c cs Hc Hnd IH]; intros Hg a Hf Hm Hfr.
  - exists [], (ar_written a). split_and!; [|by left|constructor|].
    + cbn. rewrite app_nil_r. destruct a; cbn in *; by subst.
    + intros x n. rewrite elem_of_nil. split; [done|]. by intros (c & H%elem_of_nil & _).
  - destruct (Hg c a ltac:(left) (Hfr c ltac:(left))) as (l1 & W1 & Hrun & HW1 & Hl1 & Hm1).
    set (a1 := Archiver f (ar_entries a ++ (entry_of <$> l1)) W1 0) in *.
    assert (∀ c' x, c' ∈ cs → (r ++ [c]) `prefix_of` x → ¬ (r ++ [c']) `prefix_of` x) as Hdis.
    { intros c' x Hc' [k1 ->] [k2 Hk]. rewrite <- !app_assoc in Hk.
      apply app_inv_head in Hk. by injection Hk as -> _. }
    destruct (IH (λ c' a', λ H, Hg c' a' (list_elem_of_further _ _ _ H)) a1 eq_refl eq_refl)
      as (l2 & W2 & Hrun2 & HW2 & Hl2 & Hm2).
    { intros c' Hc'. split_and!; [done..|]. intros x Hx Hpx Hin.
      destruct (HW1 _ Hin) as [Hw|(y & Hy & Hpy & Hxy)].
      - by destruct (Hfr c' ltac:(by right)) as (_ & _ & Hw'); apply (Hw' x).
      - apply rel_inj in Hxy as ->; [|done..]. by eapply Hdis. }
    exists (l1 ++ l2), W2. split_and!.
    + cbn [forM_]. rewrite (run_Ok _ _ _ _ _ Hrun), Hrun2. cbn [a1 ar_entries].
      by rewrite fmap_app, <- app_assoc.
    + intros w [Hw|(c' & x & Hc' & Hx)]%HW2; [|right; exists c', x; by split; [right|]].
      destruct (HW1 _ Hw) as [?|(x & Hx)]; [by left|right]. exists c, x. by split; [left|].
    + rewrite fmap_app. apply NoDup_app. split_and!; [done| |done].
      intros x [[y n] [-> H1%Hm1]]%list_elem_of_fmap [[z m] [Hz H2%Hm2]]%list_elem_of_fmap.
      cbn in Hz. subst z. destruct H2 as (c' & Hc' & Hp' & _). by eapply Hdis; [| |exact Hp']; [done|apply H1].
    + intros x n. rewrite elem_of_app, Hm1, Hm2. split.
      * intros [[Hp Hl]|(c' & Hc' & Hp)]; [exists c|exists c']; (split; [|done]); [left|by right].
      * intros (c' & [->|Hc']%elem_of_cons & Hp); [by left|right; by exists c'].
Qed.

Lemma get_below r : r ≠ [] → get f (bs ++ r) = f !! (bs ++ r).
Proof. destruct (bs ++ r) eqn:Hz; [|done]. apply app_eq_nil in Hz as [_ ->]. done. Qed.
Lemma tarFile_spec r n a : plains r → r ≠ [] → f !! (bs ++ r) = Some n →
  is_dir (Some n) = false → fresh r a → added r a (tarFile fy b (rel r) n a).
Proof.
  intros Hr Hne Hn Hd Hf.
  assert (get f (bs ++ r) = Some n) as Hg by by rewrite get_below.
  assert (added r a (Ok (), Archiver f (ar_entries a ++ [entry_of (r, n)]) ({[rel r]} ∪ ar_written a) 0)) as Ha.
  { apply added_leaf; [done..| |done]. by rewrite Hd. }
  unfold tarFile. destruct n as [mode content|mode|target]; [|done|].
  - rewrite (run_Ok _ _ _ _ _ (caught_Ok _ _ _ _ (reading_Ok _ _ _ (proj1 Hf) (ReadFile_at r mode content Hr Hg)))).
    by rewrite (emit_fresh r) by done.
  - rewrite (run_Ok _ _ _ _ _ (caught_Ok _ _ _ _ (reading_Ok _ _ _ (proj1 Hf) (Readlink_at r target Hr Hg)))).
    by rewrite (emit_fresh r) by done.
Qed.
(** Below a directory with files, the leaves are those below its files. *)
Lemma leaf_below r mode x n : get f (bs ++ r) = Some (Dir mode) →
  (children f (bs ++ r) = [] → r = []) →
  r `prefix_of` x ∧ leaf f bs x n ↔
  ∃ c, c ∈ children f (bs ++ r) ∧ (r ++ [c]) `prefix_of` x ∧ leaf f bs x n.
Proof.
  intros Hn Hc. split.
  - intros [Hp Hl]. destruct (decide (r = x)) as [<-|Hne].
    + exfalso. destruct Hl as (Hx & Hm & Hch). apply Hx, Hc, Hch.
      rewrite get_below in Hn by done. by assert (n = Dir mode) as -> by congruence.
    + destruct (below_child r x n) as (c & ? & ?); [apply Hl|done..|]. by exists c.
  - intros (c & _ & Hp & Hl). split; [|done]. etrans; [|exact Hp]. by exists [c].
Qed.

Lemma AddToArchive_spec depth : ∀ r n a, plains r → get f (bs ++ r) = Some n →
  (r = [] → is_dir (Some n) = true) → fresh r a → (size f < length (bs ++ r) + depth)%nat →
  added r a (add depth (rel r) a).
Proof.
  induction depth as [|depth IH]; intros r n a Hr Hn Hroot Hf Hd.
  { exfalso. destruct (bs ++ r) as [|c k] eqn:Hz; cbn in Hd; [lia|].
    pose proof (path_length f (c :: k) n Hwf Hn). cbn in *. lia. }
  cbn [AddToArchive]. rewrite run_get. destruct (Hf) as (Hfs & Hmis & Hw).
  rewrite bool_decide_false by (by apply Hw).
  rewrite (run_Ok _ _ _ _ _ (caught_Ok _ _ _ _ (reading_Ok _ _ _ Hfs (Lstat_at r n Hr Hn)))).
  destruct (decide (is_dir (Some n) = true)) as [Hdir|Hdir].
  2:{ assert (r ≠ []) as Hne by (intros ->; by apply Hdir, Hroot).
      assert (f !! (bs ++ r) = Some n) as Hn' by by rewrite <- get_below.
      pose proof (tarFile_spec r n a Hr Hne Hn' ltac:(by apply not_true_is_false) Hf).
      by destruct n. }
  destruct n as [| mode|]; try done. cbn [isExcluded existsb].
  rewrite (run_Ok _ _ _ _ _ (caught_Ok _ _ _ _ (reading_Ok _ _ _ Hfs (ReadDir_at r mode Hr Hn)))).
  case_decide as Hempty.
  - destruct Hempty as [Hc Hrel]. rewrite Hc.
    rewrite (run_Ok _ _ _ _ _ (emit_fresh r _ _ _ Hf)). cbn [forM_].
    assert (r ≠ []) as Hne by by intros ->.
    apply (added_leaf r (Dir mode)); [done..| |done|done].
    by rewrite <- get_below.
  - rewrite run_ret. destruct (add_files (λ c, r0 ← caught (add depth (filepath_Join [rel r; c]));
      liftR (wrap ("recursive tar " +:+ c) r0)) r (children f (bs ++ r))) with (a := a)
      as (l & W & Hrun & HW & Hnd & Hl); [apply children_NoDup| |done|done| |].
    + intros c a' Hc Hfr. apply elem_of_children in Hc as [m Hm]. rewrite <- app_assoc in Hm.
      assert (plains (r ++ [c])) as Hrc by by apply Hplain.
      assert (plain c = true) as Hpc by (by apply Forall_app in Hrc as [_ [? _]%Forall_cons]).
      rewrite Join_rel by done.
      destruct (IH (r ++ [c]) m a') as (l & W & Hrun & ?); try done.
      * rewrite get_below; [done|]. by intros []%app_eq_nil.
      * by intros []%app_eq_nil.
      * rewrite !length_app in *. cbn. lia.
      * exists l, W. split; [|done]. by rewrite (run_Ok _ _ _ _ _ (caught_Ok _ _ _ _ Hrun)).
    + intros c _. split_and!; [done..|]. intros x Hx Hp. apply Hw; [done|]. etrans; [|exact Hp]. by exists [c].
    + exists l, W. split_and!; [exact Hrun| |done|].
      * intros w [?|(c & x & _ & Hx & Hp & ->)]%HW; [by left|right]. exists x. split_and!; [done| |done].
        etrans; [|exact Hp]. by exists [c].
      * intros x m. rewrite Hl. symmetry. apply (leaf_below r mode); [done|].
        intros Hc. destruct (decide (r = [])) as [|Hne]; [done|]. exfalso. apply Hempty.
        split; [done|]. by apply rel_nonempty.
Qed.

(** C31: What [WriteTar] puts into the archive of a directory: every file, every link and every
    empty directory below it, each exactly once, under its path relative to the directory and
    with its contents, and nothing else; the files stay as they are. *)
Theorem WriteTar_complete mode : get f bs = Some (Dir mode) →
  ∃ l, WriteTarExclude fy b [] f = (Ok (entry_of <$> l), f) ∧ NoDup l.*1 ∧
       ∀ x n, (x, n) ∈ l ↔ leaf f bs x n.
Proof.
  intros Hn. unfold WriteTarExclude.
  assert (stat_ fy true b f = (Ok (Some (Dir mode)), f)) as Hs.
  { unfold stat_, call. rewrite Hfy, run_get. unfold mret, M_ret.
    by rewrite (stat_node_at f true _ bs (Dir mode)) by (done || by right). }
  rewrite (run_Ok _ _ _ _ _ Hs). unfold run_archiver.
  destruct (AddToArchive_spec (tree_depth f) [] (Dir mode) (Archiver f [] ∅ 0)) as (l & W & Hrun & _ & Hnd & Hl).
  - constructor.
  - by rewrite app_nil_r.
  - done.
  - split_and!; [done..|]. intros x _ _ H. by apply elem_of_empty in H.
  - rewrite length_app. unfold tree_depth. lia.
  - change (rel []) with "" in Hrun. rewrite Hrun. exists l. split_and!; [done..|].
    intros x n. rewrite Hl. split; [by intros [_ ?]|]. intros ?. split; [apply prefix_nil|done].
Qed.
End Archive.

(** ** Concrete runs *)

Definition demo_fy : fsys := {| fy_fail := λ _ _, None |}.
Definition demo_fs : fs :=
  {[ ["etc"] := Dir 493; ["etc"; "passwd"] := File 420 "root";
     ["src"] := Dir 493; ["src"; "a"] := Dir 493; ["src"; "a"; "f"] := File 493 "x";
     ["src"; "b"] := Dir 448; ["src"; "l"] := Link "a/f"; ["src"; "foobar"] := File 420 "";
     ["s"] := Link "/src"; ["gone"] := Dir 493; ["gone"; "g"] := Link "nowhere" ]}.
Definition demo_entry (name : string) (t : typeflag) (link body : string) : entry :=
  {| e_Header := {| h_Name := name; h_Typeflag := t; h_Linkname := link; h_Mode := 420 |};
     e_Body := body; e_Error := None |}.
(** What is at some paths. *)
Definition at_ (f : fs) (l : list path) : list (option node) := (λ p, get f p) <$> l.
Lemma demo_no_links : linkless ["new"] demo_fs.
Proof.
  intros p t Hp. assert (map_Forall (λ k n, bool_decide (k `prefix_of` ["new"]) ||
    bool_decide (["new"] `prefix_of` k) = false) demo_fs) as H by (eapply bool_decide_eq_true_1; vm_compute; reflexivity).
  specialize (H p _ Hp). cbn in H. apply orb_false_iff in H as [H1 H2].
  by split; eapply bool_decide_eq_false.
Qed.
Lemma Extract_stays_inside_witness :
  let f' := (Extract demo_fy (Tar [demo_entry "d/x" TypeReg "" "1"] None) "/new" no_options demo_fs).2 in
  outside ["new"] demo_fs f'.
Proof.
  intros f'. apply (Extract_stays_inside demo_fy "/new" eq_refl ltac:(done)
    (Tar [demo_entry "d/x" TypeReg "" "1"] None) no_options).
  - constructor; [|done]. split; [|by left]. repeat constructor; by intros [=].
  - apply demo_no_links.
Defined.
Lemma UnzipFolder_stays_inside_witness :
  let f' := (UnzipFolder demo_fy (Tar [demo_entry "../etc/passwd" TypeReg "" "1"] None) "/new" demo_fs).2 in
  outside ["new"] demo_fs f'.
Proof.
  intros f'. apply (UnzipFolder_stays_inside demo_fy "/new" eq_refl ltac:(done)
    (Tar [demo_entry "../etc/passwd" TypeReg "" "1"] None)).
  apply demo_no_links.
Defined.
Lemma demo_fs_wf : wf demo_fs.
Proof.
  split; [done|]. intros p n Hp.
  assert (map_Forall (λ k n, is_dir (get demo_fs (parent k)) = true) demo_fs) as H
    by (eapply bool_decide_eq_true_1; vm_compute; reflexivity).
  exact (H p n Hp).
Qed.
Lemma WriteTar_complete_witness :
  ∃ l, (WriteTarExclude demo_fy "/src" [] demo_fs).1 = Ok (entry_of <$> l) ∧ NoDup l.*1 ∧
       (["b"], Dir 448) ∈ l ∧ (["a"; "f"], File 493 "x") ∈ l.
Proof.
  destruct (WriteTar_complete demo_fy (λ _ _, eq_refl) demo_fs demo_fs_wf "/src" eq_refl) with (mode := 493%N)
    as (l & Hrun & Hnd & Hl).
  - intros x [n Hn].
    assert (map_Forall (λ k n, plains (drop 1 k)) demo_fs) as H by (eapply bool_decide_eq_true_1; vm_compute; reflexivity).
    exact (H _ n Hn).
  - reflexivity.
  - exists l. rewrite Hrun. split_and!; [reflexivity|exact Hnd| |].
    + apply Hl. split_and!; [done|reflexivity|]. intros _. vm_compute. reflexivity.
    + apply Hl. split_and!; [done|reflexivity|]. intros H. discriminate H.
Defined.

(** An archive of a folder, extracted elsewhere, is the same tree. *)
Example WriteTar_then_Extract :
  match WriteTarExclude demo_fy "/src" [] demo_fs with
  | (Ok l, f) => let '(r, f') := Extract demo_fy (Tar l None) "/new" no_options f in
      r = Ok () ∧ at_ f' [["new"; "a"; "f"]; ["new"; "b"]; ["new"; "l"]; ["new"; "foobar"]] =
        [Some (File 493 "x"); Some (Dir 511); Some (Link "a/f"); Some (File 420 "")]
  | _ => False
  end.
Proof. vm_compute. done. Qed.
(** The names of a tar archive are not checked, unlike those of a zip file. *)
Example Extract_escapes :
  at_ (Extract demo_fy (Tar [demo_entry "../etc/passwd" TypeReg "" "evil"] None) "/new" no_options
         demo_fs).2 [["etc"; "passwd"]] = [Some (File 420 "evil")].
Proof. vm_compute. reflexivity. Qed.
(** A link of the archive is followed by its later entries. *)
Example Extract_follows_link :
  at_ (Extract demo_fy (Tar [demo_entry "l" TypeSymlink "/etc" ""; demo_entry "l/passwd" TypeReg "" "evil"] None)
         "/new" no_options demo_fs).2 [["etc"; "passwd"]] = [Some (File 420 "evil")].
Proof. vm_compute. reflexivity. Qed.
(** A folder that is itself a link is archived as one link without a name. *)
Example WriteTar_link_base :
  (WriteTarExclude demo_fy "/s" [] demo_fs).1 =
  Ok [{| e_Header := {| h_Name := ""; h_Typeflag := TypeSymlink; h_Linkname := "/src"; h_Mode := 511 |};
         e_Body := ""; e_Error := None |}].
Proof. vm_compute. reflexivity. Qed.
(** Excluding foo excludes foobar as well, but not a folder that is called /foo/. *)
Example WriteTar_excludes_prefix :
  match (WriteTarExclude demo_fy "/src" ["foo"; "a"] demo_fs).1 with
  | Ok l => (λ x, h_Name (e_Header x)) <$> l = ["b"; "l"]
  | _ => False
  end.
Proof. vm_compute. reflexivity. Qed.
(** A link that leads nowhere makes the copy of its directory fail. *)
Example copy_dangling_link : (copy_Directory demo_fy 9 "/gone" "/copy" demo_fs).1 = Err ENOENT.
Proof. vm_compute. reflexivity. Qed.
