(* ===== verification/Binaries.v ===== *)
(** * Provider binaries

    pkg/binaries/download.go and pkg/download/download.go on the file system of
    FileTree.v.  HTTP, hashes, the archive formats and the names of temporary files are
    parameters ([bin_world], [dl_world]); the system is not Windows, and a retry does not wait. *)

From S2P Require Import Prelude GoStrings Substitute Types Provider Options Lifecycle FileTree Extract.
From stdpp Require Import base gmap list strings pretty.
From Stdlib Require Import ZArith.

Local Open Scope string_scope.
Local Open Scope list_scope.

(** ** pkg/download *)

Record url := { u_Scheme : string; u_Host : string; u_Path : string }.
Record request := { q_method : string; q_url : string; q_headers : list (string * string) }.
Record GithubReleaseAsset := { ga_ID : Z; ga_Name : string }.
Record GithubRelease := { gr_Assets : list GithubReleaseAsset }.
Record dl_world := {
  dw_Parse : string → string + url;
  (** the status and the body *)
  dw_http : request → string + (Z * string);
  (** the password of [gitcredentials.GetCredentials]; empty if there is none *)
  dw_password : url → option string;
  dw_release : string → string + GithubRelease;
}.

Definition parseGithubURL (path : string) : string * string * string * string :=
  match Split "/" (TrimPrefix path "/") with
  | [org; repo; s2; s3; s4; file] =>
      if decide (s2 ≠ "releases") then ("", "", "", "")
      else if decide ((s3 ≠ "latest" ∨ s4 ≠ "download") ∧ s3 ≠ "download") then ("", "", "", "")
      else if decide (s3 = "latest") then (org, repo, "", file)
      else (org, repo, s4, file)
  | _ => ("", "", "", "")
  end.

Section Download.
Context (dw : dl_world).

Definition Head (rawURL : string) : result Z :=
  '(code, _) ← wrap "download file"
    (of_sum (dw_http dw {| q_method := "HEAD"; q_url := rawURL; q_headers := [] |}));
  Ok code.
Definition status_error (code : Z) (what rawURL : string) : string :=
  "received status code " +:+ pretty code +:+ " when trying to " +:+ what +:+ " " +:+ rawURL.
Definition github_get (url accept token shownURL : string) : result string :=
  '(code, body) ← of_sum (dw_http dw {| q_method := "GET"; q_url := url;
    q_headers := [("Authorization", "Bearer " +:+ token); ("Accept", accept)] |});
  if (400 <=? code)%Z then Err (status_error code "reach" shownURL) else Ok body.
Definition downloadGithubRelease (org repo release file token : string) : result string :=
  let repoURL := "https://api.github.com/repos/" +:+ org +:+ "/" +:+ repo in
  let releaseURL := if decide (release = "") then repoURL +:+ "/releases/latest"
                    else repoURL +:+ "/releases/tags/" +:+ release in
  raw ← github_get releaseURL "application/vnd.github+json" token releaseURL;
  releaseObj ← of_sum (dw_release dw raw);
  asset ← of_option ("couldn't find asset " +:+ file +:+ " in github release (" +:+ releaseURL +:+ ")")
            (List.find (λ a, bool_decide (ga_Name a = file)) (gr_Assets releaseObj));
  github_get (repoURL +:+ "/releases/assets/" +:+ pretty (ga_ID asset))
    "application/octet-stream" token releaseURL.

Definition plain_download (rawURL : string) : result string :=
  '(code, body) ← wrap "download file"
    (of_sum (dw_http dw {| q_method := "GET"; q_url := rawURL; q_headers := [] |}));
  if (400 <=? code)%Z then Err (status_error code "download" rawURL) else Ok body.
(** The credentials are asked for only when a release of github is not found without. *)
Definition github_token (rawURL : string) (parsed : url) : result (option string) :=
  if decide (u_Host parsed = "github.com") then
    code ← Head rawURL;
    if decide (code = 404%Z) then
      let '(org, _, _, _) := parseGithubURL (u_Path parsed) in
      if decide (org ≠ "") then
        Ok (match dw_password dw parsed with
            | Some p => if decide (p ≠ "") then Some p else None
            | None => None
            end)
      else Ok None
    else Ok None
  else Ok None.
Definition download_File (rawURL : string) : result string :=
  parsed ← of_sum (dw_Parse dw rawURL);
  token ← github_token rawURL parsed;
  match token with
  | Some password =>
      let '(org, repo, release, file) := parseGithubURL (u_Path parsed) in
      downloadGithubRelease org repo release file password
  | None => plain_download rawURL
  end.
End Download.

(** ** pkg/binaries *)

Record bin_world := {
  bw_fy : fsys;
  bw_OS : string;
  bw_Arch : string;
  bw_cwd : string;
  bw_TempDir : string;
  (** the name [os.CreateTemp] chooses *)
  bw_tempFile : string;
  bw_sha256 : string → string;
  (** [os.FileInfo.Size] of a directory *)
  bw_dirSize : nat;
  bw_dl : dl_world;
  (** a body as an archive; bodies that break off are left out *)
  bw_tar : string → stream;
  bw_zip : string → stream;
}.

Section Binaries.
Context (bw : bin_world).
Notation fy := (bw_fy bw).
Notation C := (M fs).

Definition IsAbs (p : string) : bool := HasPrefix p "/".
(** A path as the system sees it *)
Definition from_cwd (p : string) : string := if IsAbs p then p else filepath_Join [bw_cwd bw; p].
Definition isRemotePath (path : string) : bool := HasPrefix path "http://" || HasPrefix path "https://".
Definition binary_name (binary : ProviderBinary) : string :=
  if decide (pb_Name binary = "") then filepath_Base (pb_Path binary) else pb_Name binary.
Definition localTargetPath (binary : ProviderBinary) (targetFolder : string) : string :=
  filepath_Join [targetFolder; binary_name binary].
Definition getBinaryPath (binary : ProviderBinary) (targetFolder : string) : string :=
  if IsAbs (pb_Path binary) then pb_Path binary
  else if negb (isRemotePath (pb_Path binary)) then localTargetPath binary targetFolder
  else if decide (pb_ArchivePath binary ≠ "") then
    filepath_Join [targetFolder; pb_ArchivePath binary]
  else filepath_Join [targetFolder; binary_name binary].
Definition getCachedBinaryPath (url : string) : string :=
  filepath_Join [bw_TempDir bw; "devpod-binaries"; stake 16 (bw_sha256 bw url)].

(** [hash.File] *)
Definition hash_File (p : string) : C string :=
  content ← ReadFile fy p; mret (bw_sha256 bw content).
Definition EqualFold (a b : string) : bool := bool_decide (ToLower a = ToLower b).
(** The checksum of a file that is there; a wrong file is removed. *)
Definition check_or_remove (binaryPath checksum : string) : C bool :=
  if decide (checksum ≠ "") then
    r ← caught (hash_File binaryPath);
    match r with
    | Ok fileHash =>
        if EqualFold fileHash checksum then mret true
        else _ ← try_ (Remove fy binaryPath); mret false
    | _ => _ ← try_ (Remove fy binaryPath); mret false
    end
  else mret true.
Definition verifyBinary (binaryPath checksum : string) : C bool :=
  there ← exists_ fy binaryPath;
  if there : bool then check_or_remove binaryPath checksum else mret false.

Definition cached_copy (binary : ProviderBinary) (targetFolder : string) : C unit :=
  let binaryPath := getBinaryPath binary targetFolder in
  _ ← MkdirAll fy (path_Dir binaryPath) 493;
  _ ← copy_File fy (getCachedBinaryPath (pb_Path binary)) binaryPath 493;
  Chmod fy binaryPath 493.
Definition fromCache (binary : ProviderBinary) (targetFolder : string) : C bool :=
  if negb (isRemotePath (pb_Path binary)) then mret false
  else
    ok ← verifyBinary (getCachedBinaryPath (pb_Path binary)) (pb_Checksum binary);
    if negb ok then mret false
    else
      r ← caught (cached_copy binary targetFolder);
      match r with Ok _ => mret true | Err _ => mret false | Panic => liftR Panic | NoFuel => liftR NoFuel end.
Definition toCache (binary : ProviderBinary) (binaryPath : string) : C unit :=
  if negb (isRemotePath (pb_Path binary)) then mret ()
  else
    let cachedBinaryPath := getCachedBinaryPath (pb_Path binary) in
    try_ (_ ← MkdirAll fy (path_Dir cachedBinaryPath) 511;
          copy_File fy binaryPath cachedBinaryPath 493).

Definition node_size (n : node) : nat :=
  match n with File _ c => String.length c | _ => bw_dirSize bw end.
(** The target of the copy is the folder, which is a directory by now. *)
Definition copyLocal (binary : ProviderBinary) (targetPath : string) : C unit :=
  r ← caught (stat_ fy true targetPath);
  let p := from_cwd (pb_Path binary) in
  same ← (match r with
          | Ok (Some target) =>
              n ← stat_ fy true p;
              n ← liftR (of_option ENOENT n);
              mret (bool_decide (node_size target = node_size n))
          | _ => mret false
          end);
  if same : bool then mret () else copy_File fy p targetPath 493.

Definition downloadFile (binary : ProviderBinary) (targetFolder : string) : C string :=
  let targetPath := filepath_Join [targetFolder; binary_name binary] in
  there ← exists_ fy targetPath;
  if there : bool then mret targetPath
  else
    body ← liftR (wrap "download binary" (download_File (bw_dl bw) (pb_Path binary)));
    q ← create fy targetPath 438;
    _ ← fill q body;
    mret targetPath.
Definition downloadToTempFile (body : string) : C string :=
  q ← create fy (bw_tempFile bw) 384;
  _ ← fill q body;
  mret (bw_tempFile bw).
Definition is_tar (path : string) : bool :=
  HasSuffix path ".gz" || HasSuffix path ".tar" || HasSuffix path ".tgz".
Definition downloadArchive (binary : ProviderBinary) (targetFolder : string) : C string :=
  let targetPath := filepath_Join [targetFolder; pb_ArchivePath binary] in
  there ← exists_ fy targetPath;
  if there : bool then mret targetPath
  else
    body ← liftR (download_File (bw_dl bw) (pb_Path binary));
    if is_tar (pb_Path binary) then
      _ ← Extract fy (bw_tar bw body) targetFolder no_options;
      mret targetPath
    else if HasSuffix (pb_Path binary) ".zip" then
      tempFile ← downloadToTempFile body;
      r ← caught (UnzipFolder fy (bw_zip bw body) targetFolder);
      _ ← try_ (Remove fy tempFile);
      _ ← liftR r;
      mret targetPath
    else throw ("unrecognized archive format " +:+ pb_Path binary).

(** After a failure the target folder is removed. *)
Definition or_clean {X} (targetFolder : string) (c : C X) : C X :=
  r ← caught c;
  match r with
  | Err e => _ ← try_ (RemoveAll fy targetFolder); throw e
  | r => liftR r
  end.
Definition create_folder (targetFolder : string) : C unit :=
  r ← caught (MkdirAll fy targetFolder 493);
  liftR (wrap "create folder" r).
Definition downloadBinary (binary : ProviderBinary) (targetFolder : string) : C string :=
  there ← exists_ fy (from_cwd (pb_Path binary));
  if there : bool then
    if IsAbs (pb_Path binary) then mret (pb_Path binary)
    else
      _ ← create_folder targetFolder;
      _ ← or_clean targetFolder (copyLocal binary targetFolder);
      mret (localTargetPath binary targetFolder)
  else if negb (isRemotePath (pb_Path binary)) then
    let targetPath := localTargetPath binary targetFolder in
    copied ← exists_ fy targetPath;
    if copied : bool then mret targetPath
    else throw ("cannot download " +:+ pb_Path binary +:+ " as scheme is missing")
  else
    _ ← create_folder targetFolder;
    targetPath ← or_clean targetFolder
      (if decide (pb_ArchivePath binary ≠ "") then downloadArchive binary targetFolder
       else downloadFile binary targetFolder);
    _ ← Chmod fy targetPath 493;
    mret targetPath.

(** At most [tries] downloads; [None] when the checksum was wrong each time. *)
Fixpoint try_download (tries : nat) (binaryName : string) (binary : ProviderBinary)
    (targetFolder : string) : C (option string) :=
  match tries with
  | 0 => mret None
  | S tries =>
      r ← caught (downloadBinary binary targetFolder);
      binaryPath ← liftR (wrap ("downloading binary " +:+ binaryName) r);
      ok ← check_or_remove binaryPath (pb_Checksum binary);
      if ok : bool then _ ← toCache binary binaryPath; mret (Some binaryPath)
      else try_download tries binaryName binary targetFolder
  end.
(** One location of a binary that is for this system *)
Definition obtain (binaryName : string) (binary : ProviderBinary) (targetFolder : string)
    : C (option string) :=
  let binaryPath := getBinaryPath binary targetFolder in
  ok ← verifyBinary binaryPath (pb_Checksum binary);
  if ok : bool then mret (Some binaryPath)
  else
    cached ← fromCache binary targetFolder;
    if cached : bool then mret (Some binaryPath)
    else try_download 3 binaryName binary targetFolder.
Definition for_system (binary : ProviderBinary) : bool :=
  bool_decide (pb_OS binary = bw_OS bw ∧ pb_Arch binary = bw_Arch bw).
Fixpoint obtain_all (binaryName : string) (locations : list (option ProviderBinary))
    (targetFolder : string) (found : option string) : C (option string) :=
  match locations with
  | [] => mret found
  | binary :: rest =>
      binary ← liftR (deref binary);
      if negb (for_system binary) then obtain_all binaryName rest targetFolder found
      else
        r ← obtain binaryName binary targetFolder;
        match (match r with Some p => Some p | None => found end) with
        | None => throw ("cannot download provider binary " +:+ binaryName +:+
                         ", because checksum check has failed")
        | found => obtain_all binaryName rest targetFolder found
        end
  end.
Definition no_location (verb binaryName : string) : string :=
  "cannot " +:+ verb +:+ " provider binary " +:+ binaryName +:+
  ", because no binary location matched OS " +:+ bw_OS bw +:+ " and ARCH " +:+ bw_Arch bw.
Definition binary_folder (folder binaryName : string) : string :=
  filepath_Join [folder; ToLower binaryName].
Fixpoint download_entries (l : list (string * option (list (option ProviderBinary))))
    (targetFolder : string) (ret : gmap string string) : C (gmap string string) :=
  match l with
  | [] => mret ret
  | (binaryName, locations) :: rest =>
      p ← obtain_all binaryName (default [] locations) (binary_folder targetFolder binaryName)
            (ret !! binaryName);
      match p with
      | None => throw (no_location "download" binaryName)
      | Some p => download_entries rest targetFolder (<[binaryName := p]> ret)
      end
  end.
Definition DownloadBinaries (binaries : Binaries) (targetFolder : string) : C (gmap string string) :=
  download_entries (default [] binaries) targetFolder ∅.

Fixpoint find_locations (binaryName : string) (locations : list (option ProviderBinary))
    (targetFolder : string) (found : option string) : C (option string) :=
  match locations with
  | [] => mret found
  | binary :: rest =>
      binary ← liftR (deref binary);
      if negb (for_system binary) then find_locations binaryName rest targetFolder found
      else
        let binaryPath := getBinaryPath binary targetFolder in
        there ← exists_ fy binaryPath;
        if there : bool then find_locations binaryName rest targetFolder (Some binaryPath)
        else throw ("error trying to find binary " +:+ binaryName)
  end.
Fixpoint find_entries (l : list (string * option (list (option ProviderBinary))))
    (binariesDir : string) (ret : gmap string string) : C (gmap string string) :=
  match l with
  | [] => mret ret
  | (binaryName, locations) :: rest =>
      p ← find_locations binaryName (default [] locations) (binary_folder binariesDir binaryName)
            (ret !! binaryName);
      match p with
      | None => throw (no_location "find" binaryName)
      | Some p => find_entries rest binariesDir (<[binaryName := p]> ret)
      end
  end.
Definition GetBinariesFrom (binaries : Binaries) (binariesDir : string) : C (gmap string string) :=
  find_entries (default [] binaries) binariesDir ∅.
End Binaries.
