(* ===== verification/BinariesProps.v ===== *)
(** * Properties of provider binaries

    A binary with a checksum is handed out only if it has that checksum. *)

From S2P Require Import Prelude GoStrings Substitute Types Provider Options Lifecycle FileTree FileTreeProps Extract ExtractProps Binaries.
From stdpp Require Import base gmap list strings.
From Stdlib Require Import ZArith Lia.

Local Open Scope string_scope.
Local Open Scope list_scope.

(** ** Where paths lead when files and directories are added *)

Definition kind_kept (n n' : option node) : Prop :=
  match n with
  | Some (Dir _) => is_dir n' = true
  | Some (Link t) => n' = Some (Link t)
  | Some (File _ _) => ∃ m c, n' = Some (File m c)
  | None => not_link n'
  end.
(** Nothing that exists changes its kind, and no link is added. *)
Definition grows (f f' : fs) : Prop := ∀ k, kind_kept (get f k) (get f' k).

Lemma kind_kept_refl n : kind_kept n n.
Proof. destruct n as [[]|]; cbn; try done. by eauto. Qed.
#[export] Instance grows_preorder : PreOrder grows.
Proof.
  split; [intros f k; apply kind_kept_refl|]. intros f g h Hfg Hgh k.
  specialize (Hfg k). specialize (Hgh k).
  destruct (get f k) as [[]|]; cbn in Hfg |- *.
  - destruct Hfg as (m & c & Hg). by rewrite Hg in Hgh.
  - by destruct (get g k) as [[]|].
  - by rewrite Hfg in Hgh.
  - destruct (get g k) as [[| |t]|]; cbn in Hgh.
    + destruct Hgh as (m & c & ->). done.
    + intros t Ht. by rewrite Ht in Hgh.
    + by destruct (Hfg t).
    + done.
Qed.

Lemma resolve_grows_step f f' links : grows f f' →
  (∀ l, links = S l → ∀ follow at_ todo q,
     resolve l f follow at_ todo = Some q → resolve l f' follow at_ todo = Some q) →
  ∀ follow todo at_ q,
    resolve links f follow at_ todo = Some q → resolve links f' follow at_ todo = Some q.
Proof.
  intros Hg Hl follow todo. induction todo as [|c rest IH]; intros at_ q; [by destruct links|].
  rewrite (resolve_step links f _ at_ (c :: rest)), (resolve_step links f' _ at_ (c :: rest)).
  case_decide; [by auto|]. case_decide; [by auto|].
  specialize (Hg (at_ ++ [c])). destruct (get f (at_ ++ [c])) as [[m c'|m|t]|]; cbn in Hg.
  - by destruct Hg as (m' & c'' & ->).
  - destruct (get f' (at_ ++ [c])) as [[]|]; try done. by apply IH.
  - rewrite Hg. case_decide; [done|]. destruct links as [|links]; [done|]. by apply Hl.
  - case_decide as Hr; [|done]. intros [= <-]. subst rest.
    destruct (get f' (at_ ++ [c])) as [[| |t]|]; try done; [by rewrite resolve_step|by destruct (Hg t)].
Qed.
Lemma resolve_grows f f' links : grows f f' → ∀ follow at_ todo q,
  resolve links f follow at_ todo = Some q → resolve links f' follow at_ todo = Some q.
Proof.
  intros Hg. induction links as [|links IH]; intros follow at_ todo q;
    apply resolve_grows_step; try done. by intros l [= ->].
Qed.
Lemma walk_grows f f' follow p q : grows f f' → walk f follow p = Some q → walk f' follow p = Some q.
Proof. intros Hg. unfold walk. by apply resolve_grows. Qed.

(** ** What a file holds *)

Definition holds (f : fs) (p content : string) : Prop :=
  ∃ q m, walk f true p = Some q ∧ get f q = Some (File m content).
(** Adding files and directories, where files keep their contents but at one place *)
Definition grows_at (o : option path) (f f' : fs) : Prop :=
  grows f f' ∧ ∀ k m c, Some k ≠ o → get f k = Some (File m c) → ∃ m', get f' k = Some (File m' c).
#[export] Instance grows_at_preorder o : PreOrder (grows_at o).
Proof.
  split; [intros f; split; [done|eauto]|]. intros f g h [H1 H2] [H3 H4].
  split; [by etrans|]. intros k m c Hk Hf. destruct (H2 _ _ _ Hk Hf) as (m' & Hg). by eapply H4.
Qed.
Lemma grows_at_holds o f f' p c : grows_at o f f' → walk f' true p ≠ o → holds f p c → holds f' p c.
Proof.
  intros [Hg Hk] Ho (q & m & Hw & Hf). pose proof (walk_grows _ _ _ _ _ Hg Hw) as Hw'.
  destruct (Hk q m c) as (m' & Hf'); [congruence|done|]. by exists q, m'.
Qed.
Lemma grows_insert f q n : q ≠ [] → kind_kept (get f q) (Some n) → grows f (<[q := n]> f).
Proof.
  intros Hq Hn k. destruct (decide (k = q)) as [->|Hk].
  - replace (get (<[q := n]> f) q) with (Some n); [done|]. destruct q; [done|]. cbn. by rewrite lookup_insert_eq.
  - replace (get (<[q := n]> f) k) with (get f k); [apply kind_kept_refl|].
    destruct k; [done|]. cbn. by rewrite lookup_insert_ne.
Qed.
Lemma grows_at_insert o f q n : q ≠ [] → kind_kept (get f q) (Some n) →
  (Some q = o ∨ ∀ m c, get f q = Some (File m c) → ∃ m', n = File m' c) →
  grows_at o f (<[q := n]> f).
Proof.
  intros Hq Hn Ho. split; [by apply grows_insert|]. intros k m c Hk Hf.
  destruct (decide (k = q)) as [->|Hne].
  - destruct Ho as [<-|Ho]; [done|]. destruct (Ho _ _ Hf) as (m' & ->). exists m'.
    destruct q; [done|]. cbn. by rewrite lookup_insert_eq.
  - exists m. destruct k; [done|]. cbn in *. by rewrite lookup_insert_ne.
Qed.

Section Calls.
Context (fy : fsys) (o : option path).

Lemma mkdir_from_grows perm done todo : stays (grows_at o) (mkdir_from perm done todo).
Proof.
  revert done. induction todo as [|c rest IH]; intros done; cbn [mkdir_from]; [stays|].
  intros f. rewrite run_get. destruct (resolve _ f true [] _) as [q|]; [|reflexivity].
  destruct (get f q) as [[m c'|m|t]|] eqn:Hq; [reflexivity|apply IH|reflexivity|].
  destruct (resolve _ f false [] _) as [q'|]; [|reflexivity]. case_decide; [|reflexivity].
  rewrite run_modify. etrans; [|apply IH]. apply grows_at_insert.
  - by intros ->.
  - rewrite Hq. by intros t.
  - right. intros m c'. by rewrite Hq.
Qed.
Lemma MkdirAll_grows (p : string) perm : stays (grows_at o) (MkdirAll fy p perm).
Proof. unfold MkdirAll, call. destruct (fy_fail _ _ _); [stays|apply mkdir_from_grows]. Qed.
Lemma get_lookup (f : fs) (q : path) n : f !! q = Some n → q ≠ [] → get f q = Some n.
Proof. by destruct q. Qed.
Lemma Chmod_grows (p : string) mode : stays (grows_at o) (Chmod fy p mode).
Proof.
  unfold Chmod, call. destruct (fy_fail _ _ _); [stays|]. intros f. rewrite run_get.
  destruct (walk f true p) as [q|]; [|reflexivity].
  destruct (decide (q = [])) as [->|Hne].
  { destruct (f !! []) as [[m c|m|t]|] eqn:Hq; try reflexivity.
    all: cbn; split; [|intros k m' c' Hk Hf; exists m'; destruct k; [done|]; cbn in *; by rewrite lookup_insert_ne].
    all: intros k; destruct k as [|x k]; [done|]; cbn; rewrite lookup_insert_ne by done; apply kind_kept_refl. }
  destruct (f !! q) as [[m c|m|t]|] eqn:Hq; try reflexivity; apply (get_lookup f) in Hq; try done;
    cbn; apply grows_at_insert; try done; rewrite Hq.
  all: first [by right; intros m' c' [= <- <-]; eauto | by cbn; eauto].
Qed.
End Calls.
#[export] Hint Resolve MkdirAll_grows Chmod_grows : stays.

Section Copy.
Context (fy : fsys).
Lemma create_spec (p : string) perm f r f' : create fy p perm f = (r, f') →
  match r with
  | Ok q => walk f true p = Some q ∧ q ≠ [] ∧ kind_kept (get f q) (Some (File perm "")) ∧
            ∃ m, f' = <[q := File m ""]> f
  | _ => f' = f
  end.
Proof.
  unfold create, call. destruct (fy_fail _ _ _); [by intros [= <- <-]|]. rewrite run_get.
  destruct (walk f true p) as [q|] eqn:Hw; [|by intros [= <- <-]].
  destruct (get f q) as [[m c|m|t]|] eqn:Hg; intros [= <- <-]; try done.
  all: assert (q ≠ []) as Hne by by (intros ->; cbn in Hg).
  all: rewrite Hg; split_and!; try done; try (by eexists); cbn.
  by eexists _, _. Qed.
Lemma fill_grows q content f m c : get f q = Some (File m c) →
  grows_at (Some q) f (fill q content f).2 ∧
  (q ≠ [] → get (fill q content f).2 q = Some (File m content)).
Proof.
  intros Hg. destruct q as [|x q]; [done|]. cbn in Hg. unfold fill, modifyS. cbn [snd]. rewrite Hg.
  split; [|intros _; cbn; by rewrite lookup_insert_eq].
  apply grows_at_insert; [done| |by left]. cbn. rewrite Hg. cbn. by eexists _, _.
Qed.
Lemma ReadFile_eq (p : string) : stays eq (ReadFile fy p).
Proof. unfold ReadFile, call. destruct (fy_fail _ _ _); stays. Qed.
Lemma ReadFile_Ok (p : string) f c f' : ReadFile fy p f = (Ok c, f') → f' = f ∧ holds f p c.
Proof.
  intros Hr. pose proof (stays_after eq _ _ _ _ (ReadFile_eq p) Hr) as <-. split; [done|].
  revert Hr. unfold ReadFile, call. destruct (fy_fail _ _ _); [done|]. rewrite run_get.
  unfold stat_node, holds. destruct (walk f true p) as [q|]; [|done].
  destruct (get f q) as [[m c'|m|t]|] eqn:Hg; try done. intros [= ->]. by exists q, m.
Qed.
Lemma holds_fun f (p c c' : string) : holds f p c → holds f p c' → c = c'.
Proof. intros (q & m & H1 & H2) (q' & m' & H3 & H4). congruence. Qed.

(** What was written can be read. *)
Lemma write_holds (p content : string) perm f f' :
  (create fy p perm ≫= λ q, fill q content) f = (Ok (), f') → holds f' p content.
Proof.
  intros (q & f1 & Hc & Hf)%M_bind_Ok.
  apply create_spec in Hc as (Hw & Hq & Hk & m & ->).
  assert (get (<[q := File m ""]> f) q = Some (File m "")) as Hg
    by (destruct q; [done|]; cbn; by rewrite lookup_insert_eq).
  destruct (fill_grows q content _ _ _ Hg) as [[Hgr _] Hnew]. rewrite Hf in Hgr, Hnew.
  exists q, m. split; [|by apply Hnew]. eapply walk_grows; [exact Hgr|].
  eapply walk_grows; [|exact Hw]. apply grows_insert; [done|].
  destruct (get f q) as [[]|]; cbn in *; try done. by eexists _, _.
Qed.
Lemma ReadFile_holds (p content : string) f : fy_fail fy OpOpen p = None → holds f p content →
  ReadFile fy p f = (Ok content, f).
Proof.
  intros Hf (q & m & Hw & Hg). unfold ReadFile, call. rewrite Hf, run_get. unfold stat_node.
  by rewrite Hw, Hg.
Qed.

(** Copying a file changes the target at most, and the target gets the contents. *)
Lemma copy_File_spec (src dst : string) perm f r f' : copy_File fy src dst perm f = (r, f') →
  grows_at (walk f' true dst) f f' ∧
  (r = Ok () → ∀ c, holds f src c → walk f' true src ≠ walk f' true dst → holds f' dst c).
Proof.
  unfold copy_File, mbind at 1, M_bind at 1. intros Hrun.
  destruct (create fy dst perm f) as [[q|e| |] f1] eqn:Hc; apply create_spec in Hc.
  2,3,4: (injection Hrun as <- <-; subst f1; split; [reflexivity|done]).
  destruct Hc as (Hw & Hne & Hk & m & ->). set (f1 := <[q := File m ""]> f) in *.
  assert (grows_at (Some q) f f1) as Hg1.
  { apply grows_at_insert; [done| |by left]. destruct (get f q) as [[]|]; try done. cbn. by eexists _, _. }
  assert (get f1 q = Some (File m "")) as Hq1 by (unfold f1; destruct q; [done|]; cbn; by rewrite lookup_insert_eq).
  pose proof (walk_grows _ _ _ _ _ (proj1 Hg1) Hw) as Hw1.
  unfold mbind, M_bind in Hrun. destruct (ReadFile fy src f1) as [r1 f2] eqn:Hr.
  pose proof (stays_after eq _ _ _ _ (ReadFile_eq src) Hr) as <-.
  destruct r1 as [content|e| |]; try (injection Hrun as <- <-; rewrite Hw1; by split).
  apply ReadFile_Ok in Hr as [_ Hsrc].
  destruct (fill_grows q content f1 m "" Hq1) as [Hg2 Hq2].
  rewrite Hrun in Hg2, Hq2. cbn [snd] in Hg2, Hq2.
  pose proof (walk_grows _ _ _ _ _ (proj1 Hg2) Hw1) as Hw2. rewrite Hw2.
  split; [by etrans|]. intros _ c Hc Hsep. exists q, m. split; [done|]. rewrite Hq2 by done.
  do 2 f_equal. apply (holds_fun f1 src); [done|].
  apply (grows_at_holds (Some q) f); [done| |done].
  intros Hws. apply Hsep. by apply (walk_grows _ _ _ _ _ (proj1 Hg2)).
Qed.
End Copy.

(** ** A binary is what its checksum says *)

Section Verified.
Context (bw : bin_world).
Notation fy := (bw_fy bw).

(** The file at a path has the checksum. *)
Definition verified (checksum : string) (f : fs) (p : string) : Prop :=
  ∃ content, holds f p content ∧ EqualFold (bw_sha256 bw content) checksum = true.

Lemma exists_eq (p : string) : stays eq (exists_ fy p).
Proof.
  unfold exists_. apply stays_bind; [apply _|apply stays_caught|intros r; stays].
  unfold stat_, call. destruct (fy_fail _ _ _); stays.
Qed.
Lemma check_or_remove_true (p checksum : string) f f' : checksum ≠ "" →
  check_or_remove bw p checksum f = (Ok true, f') → f' = f ∧ verified checksum f p.
Proof.
  intros Hne. unfold check_or_remove. rewrite decide_True by done.
  unfold mbind at 1, M_bind at 1, caught at 1.
  destruct (hash_File bw p f) as [r f1] eqn:Hh.
  destruct r as [h|e| |].
  2,3,4: intros (? & ? & _ & H)%M_bind_Ok; by injection H.
  destruct (EqualFold h checksum) eqn:He;
    [|intros (? & ? & _ & H)%M_bind_Ok; by injection H].
  intros [= <-]. unfold hash_File in Hh. apply M_bind_Ok in Hh as (c & f2 & [-> Hc]%ReadFile_Ok & H).
  injection H as <- <-. split; [done|]. by exists c.
Qed.
Lemma verifyBinary_true (p checksum : string) f f' : checksum ≠ "" →
  verifyBinary bw p checksum f = (Ok true, f') → f' = f ∧ verified checksum f p.
Proof.
  intros Hne. unfold verifyBinary. intros (b & f1 & He & H)%M_bind_Ok.
  pose proof (stays_after eq _ _ _ _ (exists_eq p) He) as <-.
  destruct b; [|done]. by apply check_or_remove_true.
Qed.
Lemma verified_grows checksum o f f' (p : string) : grows_at o f f' → walk f' true p ≠ o →
  verified checksum f p → verified checksum f' p.
Proof. intros Hg Ho (c & Hc & He). exists c. split; [|done]. by eapply grows_at_holds. Qed.

Lemma toCache_grows b (p : string) f r f' : toCache bw b p f = (r, f') →
  grows_at (walk f' true (getCachedBinaryPath bw (pb_Path b))) f f'.
Proof.
  unfold toCache. destruct (isRemotePath (pb_Path b)); cbn [negb]; [|by intros [= <- <-]].
  set (cached := getCachedBinaryPath bw (pb_Path b)). unfold try_, mbind, M_bind.
  destruct (MkdirAll fy (path_Dir cached) 511 f) as [r1 f1] eqn:Hm.
  pose proof (λ o, stays_after _ _ _ _ _ (MkdirAll_grows fy o _ _) Hm) as Hg.
  destruct r1 as [[]| | |]; [|by intros [= <- <-]; apply Hg..].
  destruct (copy_File fy p cached 493 f1) as [r2 f2] eqn:Hc.
  apply copy_File_spec in Hc as [Hg2 _]. intros H.
  injection H as _ <-. etrans; [apply Hg|done].
Qed.

(** The cache holds another file than the target. *)
Notation cache_apart b f p := (isRemotePath (pb_Path b) = true →
  walk f true p ≠ walk f true (getCachedBinaryPath bw (pb_Path b))).
Lemma try_download_verified tries name b folder f p f' : pb_Checksum b ≠ "" →
  try_download bw tries name b folder f = (Ok (Some p), f') → cache_apart b f' p →
  verified (pb_Checksum b) f' p.
Proof.
  intros Hne. revert f. induction tries as [|tries IH]; intros f; [done|]. cbn [try_download].
  intros (r & f1 & _ & H)%M_bind_Ok. apply M_bind_Ok in H as (p1 & f2 & Hr & H).
  injection Hr as Hr <-. apply M_bind_Ok in H as (ok & f3 & Hck & H).
  destruct ok; [|by apply (IH f3)]. apply check_or_remove_true in Hck as [-> Hv]; [|done].
  apply M_bind_Ok in H as (u & f4 & Ht & H). injection H as <- <-. intros Hap.
  destruct (isRemotePath (pb_Path b)) eqn:Hrem.
  - apply toCache_grows in Ht. eapply verified_grows; [exact Ht|by apply Hap|done].
  - unfold toCache in Ht. rewrite Hrem in Ht. injection Ht as _ <-. done.
Qed.
Lemma fromCache_verified b folder f f' : pb_Checksum b ≠ "" →
  fromCache bw b folder f = (Ok true, f') → cache_apart b f' (getBinaryPath b folder) →
  verified (pb_Checksum b) f' (getBinaryPath b folder).
Proof.
  intros Hne. unfold fromCache. destruct (isRemotePath (pb_Path b)) eqn:Hrem; cbn [negb]; [|done].
  set (cached := getCachedBinaryPath bw (pb_Path b)). set (p := getBinaryPath b folder).
  intros (ok & f1 & Hok & H)%M_bind_Ok Hap. specialize (Hap eq_refl).
  destruct ok; cbn [negb] in H; [|done]. apply verifyBinary_true in Hok as [-> (c & Hc & He)]; [|done].
  apply M_bind_Ok in H as (r & f2 & Hcop & H). unfold caught in Hcop.
  destruct (cached_copy bw b folder f) as [r1 f3] eqn:Hrun. injection Hcop as <- ->.
  destruct r1 as [[]| | |]; try done. injection H as <-. unfold cached_copy in Hrun. fold p cached in Hrun.
  apply M_bind_Ok in Hrun as ([] & g1 & Hm & Hrun). apply M_bind_Ok in Hrun as ([] & g2 & Hcp & Hch).
  pose proof (stays_after _ _ _ _ _ (MkdirAll_grows fy None _ _) Hm) as Hg1.
  apply copy_File_spec in Hcp as [Hg2 Hcopy].
  pose proof (stays_after _ _ _ _ _ (Chmod_grows fy None _ _) Hch) as Hg3.
  exists c. split; [|exact He]. pose proof Hc as (qc & mc & Hwc & Hgc).
  assert (walk g2 true cached = Some qc) as Hw2.
  { apply (walk_grows g1); [apply Hg2|]. apply (walk_grows f); [apply Hg1|exact Hwc]. }
  pose proof (walk_grows _ _ _ _ _ (proj1 Hg3) Hw2) as Hw3.
  assert (holds g1 cached c) as Hc1.
  { apply (grows_at_holds _ _ _ _ _ Hg1); [|exact Hc].
    rewrite (walk_grows _ _ _ _ _ (proj1 Hg1) Hwc). discriminate. }
  assert (holds g2 p c) as Hp.
  { apply Hcopy; [reflexivity|exact Hc1|]. rewrite Hw2. intros Heq. apply Hap. rewrite Hw3.
    by apply (walk_grows _ _ _ _ _ (proj1 Hg3)). }
  apply (grows_at_holds _ _ _ _ _ Hg3); [|exact Hp]. destruct Hp as (q & m & Hq & _).
  rewrite (walk_grows _ _ _ _ _ (proj1 Hg3) Hq). discriminate.
Qed.

(** C24: A binary with a checksum that is handed out, from where it was, from the cache or
    downloaded, is a file with this checksum, if the cache does not hold its file
    under the very path of the target. *)
Theorem obtain_verified name b folder f p f' : pb_Checksum b ≠ "" →
  obtain bw name b folder f = (Ok (Some p), f') → cache_apart b f' p →
  ∃ q mode content, walk f' true p = Some q ∧ get f' q = Some (File mode content) ∧
    EqualFold (bw_sha256 bw content) (pb_Checksum b) = true.
Proof.
  intros Hne Hrun Hap. assert (verified (pb_Checksum b) f' p) as (c & (q & m & Hw & Hg) & He);
    [|by exists q, m, c].
  revert Hrun. unfold obtain. intros (ok & f1 & Hok & H)%M_bind_Ok. destruct ok.
  - injection H as <- <-. by apply verifyBinary_true in Hok as [-> ?].
  - apply M_bind_Ok in H as (cached & f2 & Hcache & H). destruct cached.
    + injection H as <- <-. by eapply fromCache_verified.
    + by eapply try_download_verified.
Qed.
End Verified.

(** ** Concrete runs *)

Definition demo_dl (body : string) : dl_world := {|
  dw_Parse := λ s, inr {| u_Scheme := "https"; u_Host := "example.com"; u_Path := "/tool" |};
  dw_http := λ q, inr (200%Z, body);
  dw_password := λ _, None; dw_release := λ _, inl "none" |}.
Definition demo_bw (body : string) : bin_world := {|
  bw_fy := demo_fy; bw_OS := "linux"; bw_Arch := "amd64"; bw_cwd := "/work"; bw_TempDir := "/tmp";
  bw_tempFile := "/tmp/1"; bw_sha256 := λ s, s; bw_dirSize := 4096; bw_dl := demo_dl body;
  bw_tar := λ _, Unreadable ""; bw_zip := λ _, Unreadable "" |}.
Definition demo_bin_fs : fs :=
  {[ ["tmp"] := Dir 511; ["work"] := Dir 493; ["work"; "tool"] := File 493 "mine" ]}.
Definition demo_binary (path checksum : string) : ProviderBinary := {|
  pb_OS := "linux"; pb_Arch := "amd64"; pb_Checksum := checksum; pb_Path := path;
  pb_ArchivePath := ""; pb_Name := "" |}.

Lemma obtain_verified_witness :
  let run := obtain (demo_bw "abc") "TOOL" (demo_binary "https://example.com/tool" "ABC") "/bin/tool"
               demo_bin_fs in
  run.1 = Ok (Some "/bin/tool/tool") ∧
  ∃ q mode content, walk run.2 true "/bin/tool/tool" = Some q ∧
    get run.2 q = Some (File mode content) ∧ EqualFold content "ABC" = true.
Proof.
  intros run. split; [vm_compute; reflexivity|].
  apply (obtain_verified (demo_bw "abc") "TOOL" (demo_binary "https://example.com/tool" "ABC")
    "/bin/tool" demo_bin_fs "/bin/tool/tool" run.2).
  - discriminate.
  - vm_compute. reflexivity.
  - intros _ H. vm_compute in H. discriminate H.
Defined.

(** The second time the binary comes from the cache. *)
Example obtain_from_cache :
  let binary := demo_binary "https://example.com/tool" "abc" in
  let f := (obtain (demo_bw "abc") "TOOL" binary "/bin/tool" demo_bin_fs).2 in
  (obtain (demo_bw "offline") "TOOL" binary "/other" f).1 = Ok (Some "/other/tool").
Proof. vm_compute. reflexivity. Qed.
(** A body with another checksum is not used. *)
Example wrong_body :
  let '(r, f) := DownloadBinaries (demo_bw "evil")
    (Some [("TOOL", Some [Some (demo_binary "https://example.com/tool" "abc")])]) "/bin" demo_bin_fs in
  r = Err "cannot download provider binary TOOL, because checksum check has failed" ∧
  get f ["bin"; "tool"; "tool"] = None.
Proof. vm_compute. done. Qed.
(** A binary of the user at an absolute path is deleted when it has another checksum. *)
Example own_binary_removed :
  get (DownloadBinaries (demo_bw "")
    (Some [("TOOL", Some [Some (demo_binary "/work/tool" "abc")])]) "/bin" demo_bin_fs).2
    ["work"; "tool"] = None.
Proof. vm_compute. reflexivity. Qed.
(** A relative path never works: the file is copied onto the folder for it ... *)
Example relative_binary_fails :
  (DownloadBinaries (demo_bw "") (Some [("TOOL", Some [Some (demo_binary "tool" "")])]) "/bin"
     demo_bin_fs).1 = Err "downloading binary TOOL: is a directory".
Proof. vm_compute. reflexivity. Qed.
(** ... or, when it happens to have the size of the folder, not copied at all. *)
Example relative_binary_same_size :
  let bw := {| bw_fy := demo_fy; bw_OS := "linux"; bw_Arch := "amd64"; bw_cwd := "/work";
    bw_TempDir := "/tmp"; bw_tempFile := "/tmp/1"; bw_sha256 := λ s, s; bw_dirSize := 4;
    bw_dl := demo_dl ""; bw_tar := λ _, Unreadable ""; bw_zip := λ _, Unreadable "" |} in
  let '(r, f) := DownloadBinaries bw (Some [("TOOL", Some [Some (demo_binary "tool" "")])]) "/bin"
    demo_bin_fs in
  r = Ok {["TOOL" := "/bin/tool/tool"]} ∧ get f ["bin"; "tool"; "tool"] = None.
Proof. vm_compute. done. Qed.
Example parseGithubURL_ex :
  parseGithubURL "/org/repo/releases/download/v1/tool" = ("org", "repo", "v1", "tool") ∧
  parseGithubURL "/org/repo/releases/latest/download/tool" = ("org", "repo", "", "tool") ∧
  parseGithubURL "/org/repo/archive/v1.zip" = ("", "", "", "").
Proof. vm_compute. done. Qed.
