(* ===== verification/Agent.v ===== *)
(** * The agent on the machine of a workspace

    pkg/agent/agent.go and workspace.go, the commands of cmd/agent/workspace, and the
    daemon of cmd/agent/daemon.go that stops an idle machine, over the file system of
    FileTree.v.  The agent runs on Linux.  Git, processes, JSON, the tunnel, the runner and
    the service manager are parameters ([agent_world]). *)

From S2P Require Import Prelude GoStrings Substitute Types Git Names DevContainer Provider Options Home Clients Lifecycle FileTree Extract Binaries CredHelpers.
From stdpp Require Import base gmap list strings sorting.
From Stdlib Require Import ZArith.

Local Open Scope string_scope.
Local Open Scope list_scope.
Implicit Types (p dir : string).

(** ** Data

    The parts of an [AgentWorkspaceInfo] that the record of Clients.v leaves out: the last
    devcontainer.json, with its path, and what a clone uses of the platform options. *)
Record PlatformGit := {
  pg_sshKeys : list string;
  pg_cloneStrategy : string;
  pg_skipLFS : bool;
  pg_runnerSocket : string;
}.
Record agent_info := {
  g_info : AgentWorkspaceInfo;
  g_last : option (string * string);
  g_git : PlatformGit;
}.
Notation gw i := (ai_workspace (g_info i)).
Notation ga i := (ai_agent (g_info i)).
Notation gcli i := (ai_cliOptions (g_info i)).

Definition with_origin (origin : string) (i : agent_info) : agent_info := {|
  g_info := let a := g_info i in {|
    ai_workspaceOrigin := ai_workspaceOrigin a; ai_workspace := ai_workspace a;
    ai_machine := ai_machine a; ai_cliOptions := ai_cliOptions a; ai_agent := ai_agent a;
    ai_options := ai_options a; ai_contentFolder := ai_contentFolder a; ai_origin := origin;
    ai_injectTimeout := ai_injectTimeout a; ai_registryCache := ai_registryCache a |};
  g_last := g_last i; g_git := g_git i |}.
Definition with_content (content : string) (i : agent_info) : agent_info := {|
  g_info := let a := g_info i in {|
    ai_workspaceOrigin := ai_workspaceOrigin a; ai_workspace := ai_workspace a;
    ai_machine := ai_machine a; ai_cliOptions := ai_cliOptions a; ai_agent := ai_agent a;
    ai_options := ai_options a; ai_contentFolder := content; ai_origin := ai_origin a;
    ai_injectTimeout := ai_injectTimeout a; ai_registryCache := ai_registryCache a |};
  g_last := g_last i; g_git := g_git i |}.

(** What the agent did outside of its files. *)
Inductive event :=
| Git (c : Git.command)
| InstallGit
| RerunAsRoot
| GitCache (target : string)
| DeleteContainer (i : agent_info)
| StopContainer (i : agent_info)
| UpContainer (i : agent_info)
| BuildImage (i : agent_info) (platform : string)
| InstallDaemon (dataPath interval : string)
| RemoveDaemon
| InstallDocker
| ReloadDocker
| Shutdown (i : agent_info) (command environ : list string).

(** The files, the times the configurations were last touched, the clock, and the events. *)
Record agent := Agent {
  ag_fs : fs; ag_touched : gmap string Z; ag_now : Z; ag_events : list event }.

Record agent_world := {
  aw_bin : bin_world;
  aw_env : sys;
  aw_DEVPOD_HOME : string;
  (** the home directories of the user and of root; empty if unknown *)
  aw_userHome : string;
  aw_rootHome : string;
  aw_executable : string + string;
  aw_uid : Z;
  (** the output of a script *)
  aw_script : fs → string → string + string;
  aw_exists : string → bool;
  aw_dockerPs : string → gmap string string → option string;
  (** the error of an event, if it fails *)
  aw_fails : event → option string;
  (** what git does to the files *)
  aw_git : fs → Git.command → string + unit;
  aw_checkout : fs → list Git.command → fs;
  aw_gitcache : string → fs → fs;
  (** the names [os.CreateTemp] chooses *)
  aw_keyFile : nat → string;
  (** [shellescape.QuoteCommand] *)
  aw_QuoteCommand : list string → string;
  aw_Decompress : string → string + string;
  aw_json : json agent_info;
  (** [ignorefile.ReadAll] *)
  aw_ignore : string → string + list string;
  (** the folder that the local machine streams *)
  aw_stream : string + stream;
  aw_crane : CLIOptions → bool;
  (** [clientimplementation.DeleteWorkspaceFolder] *)
  aw_deleteFolder : agent_info → option string;
}.

Section Agent.
Context (w : agent_world).
Notation bw := (aw_bin w).
Notation fy := (bw_fy bw).
Notation A := (M agent).

Definition on_fs {X} (c : M fs X) : A X := λ a,
  let '(r, f) := c (ag_fs a) in (r, Agent f (ag_touched a) (ag_now a) (ag_events a)).
(** Something that happens, and may fail *)
Definition happen (e : event) : A unit :=
  _ ← modifyS (λ a, Agent (ag_fs a) (ag_touched a) (ag_now a) (ag_events a ++ [e]));
  match aw_fails w e with Some err => throw err | None => mret () end.
Definition touch p : A unit :=
  modifyS (λ a, Agent (ag_fs a) (<[p := ag_now a]> (ag_touched a)) (ag_now a) (ag_events a)).
(** [os.WriteFile] *)
Definition WriteFile p (content : string) (perm : N) : M fs unit :=
  q ← create fy p perm; fill q content.

(** ** Where the agent keeps its files *)

Definition extraSearchLocations : list string :=
  ["/home/devpod/.devpod/agent"; "/opt/devpod/agent"; "/var/lib/devpod/agent"; "/var/devpod/agent"].
Definition ErrFindAgentHomeFolder : string := "couldn't find devpod home directory".

Fixpoint first_valid (validate : string → M fs bool) (l : list string) : M fs string :=
  match l with
  | [] => mret ""
  | dir :: l' =>
      ok ← (if decide (dir = "") then mret false else validate dir);
      if ok : bool then mret dir else first_valid validate l'
  end.
Definition only_valid (validate : string → M fs bool) dir : M fs string :=
  ok ← validate dir; mret (if ok : bool then dir else "").
Definition in_home (home : string) : string :=
  if decide (home = "") then "" else filepath_Join [home; ".devpod"; "agent"].
Definition search_locations : list string :=
  [in_home (aw_userHome w); in_home (aw_rootHome w);
   match aw_executable w with
   | inr execDir => if decide (execDir = "") then "" else filepath_Join [path_Dir execDir; "agent"]
   | inl _ => ""
   end] ++ extraSearchLocations.
Definition findDir (agentFolder : string) (validate : string → M fs bool) : M fs string :=
  if decide (agentFolder ≠ "") then only_valid validate agentFolder
  else if decide (aw_DEVPOD_HOME w ≠ "") then
    only_valid validate (filepath_Join [aw_DEVPOD_HOME w; "agent"])
  else first_valid validate search_locations.

Definition isDevPodHome dir : M fs bool := exists_ fy (filepath_Join [dir; "contexts"]).
Definition FindAgentHomeFolder (agentFolder : string) : M fs string :=
  homeDir ← findDir agentFolder isDevPodHome;
  if decide (homeDir ≠ "") then mret homeDir else throw ErrFindAgentHomeFolder.

Definition test_script : string := "#!/bin/sh" +:+ newline +:+ "echo DevPod" +:+ newline.
Definition run_test (testFile : string) : M fs unit :=
  f ← getS;
  out ← liftR (of_sum (aw_script w f testFile));
  if decide (TrimSpace out ≠ "DevPod") then
    throw ("received " +:+ TrimSpace out +:+ ", expected DevPod")
  else mret ().
Definition isDirExecutable dir : M fs unit :=
  let dir := from_cwd bw dir in
  let testFile := filepath_Join [dir; "devpod_test.sh"] in
  _ ← MkdirAll fy dir 511;
  _ ← WriteFile testFile test_script 493;
  deferred (try_ (Remove fy testFile)) (run_test testFile).
Definition is_executable dir : M fs bool :=
  r ← caught (isDirExecutable dir); mret (is_ok r).
Definition PrepareAgentHomeFolder (agentFolder : string) : M fs string :=
  r ← caught (FindAgentHomeFolder agentFolder);
  match r with
  | Ok homeFolder => mret homeFolder
  | _ =>
      homeDir ← findDir agentFolder is_executable;
      if decide (homeDir ≠ "") then mret homeDir
      else if decide (agentFolder ≠ "") then _ ← isDirExecutable agentFolder; mret ""
      else throw "couldn't find an executable directory"
  end.

Definition GetAgentWorkspaceContentDir (workspaceDir : string) : string :=
  filepath_Join [workspaceDir; "content"].
Definition ErrNotExist : string := "file does not exist".
Definition workspace_dir (homeFolder context workspaceID : string) : string :=
  filepath_Join [homeFolder; "contexts"; context; "workspaces"; workspaceID].
Definition or_default (context : string) : string :=
  if decide (context = "") then Config.DefaultContext else context.
Definition binaries_dir_of (workspaceDir : string) : M fs string :=
  there ← exists_ fy workspaceDir;
  if there : bool then mret (filepath_Join [workspaceDir; "binaries"]) else throw ErrNotExist.
Definition GetAgentBinariesDir (agentFolder context workspaceID : string) : M fs string :=
  homeFolder ← FindAgentHomeFolder agentFolder;
  binaries_dir_of (workspace_dir homeFolder (or_default context) workspaceID).
Definition GetAgentWorkspaceDir (agentFolder context workspaceID : string) : M fs string :=
  homeFolder ← FindAgentHomeFolder agentFolder;
  let workspaceDir := workspace_dir homeFolder (or_default context) workspaceID in
  there ← exists_ fy workspaceDir;
  if there : bool then mret workspaceDir else throw ErrNotExist.
(** An empty context is not replaced by the default one here. *)
Definition CreateAgentWorkspaceDir (agentFolder context workspaceID : string) : M fs string :=
  homeFolder ← PrepareAgentHomeFolder agentFolder;
  let workspaceDir := workspace_dir homeFolder context workspaceID in
  _ ← MkdirAll fy workspaceDir 493;
  mret workspaceDir.

(** ** The configuration of a workspace on the machine *)

Definition WorkspaceConfigFile : string := "workspace.json".
Definition WorkspaceBusyFile : string := "workspace.lock".

Definition DecodeWorkspaceInfo (workspaceInfoRaw : string) : result agent_info :=
  decoded ← wrap "decode workspace info" (of_sum (aw_Decompress w workspaceInfoRaw));
  wrap "parse workspace info" (of_sum (j_Unmarshal (aw_json w) decoded)).
Definition ParseAgentWorkspaceInfo (workspaceConfigFile : string) : M fs agent_info :=
  out ← ReadFile fy workspaceConfigFile;
  info ← liftR (wrap "parse workspace info" (of_sum (j_Unmarshal (aw_json w) out)));
  mret (with_origin (path_Dir workspaceConfigFile) info).
Definition readAgentWorkspaceInfo (agentFolder context id : string) : M fs agent_info :=
  workspaceDir ← GetAgentWorkspaceDir agentFolder context id;
  ParseAgentWorkspaceInfo (filepath_Join [workspaceDir; WorkspaceConfigFile]).

(** The whole information is written, with the options of the command line: the
    cleared clone the code makes is not used. *)
Definition writeWorkspaceInfo (file : string) (workspaceInfo : agent_info) : A unit :=
  r ← caught (on_fs (WriteFile file (j_Marshal (aw_json w) workspaceInfo) 384));
  _ ← liftR (wrap "write workspace config file" r);
  touch file.

Definition CreateWorkspaceBusyFile (folder : string) : M fs unit :=
  let filePath := filepath_Join [folder; WorkspaceBusyFile] in
  there ← exists_ fy filePath;
  if there : bool then mret () else try_ (WriteFile filePath "" 384).
Definition HasWorkspaceBusyFile (folder : string) : M fs bool :=
  exists_ fy (filepath_Join [folder; WorkspaceBusyFile]).
Definition DeleteWorkspaceBusyFile (folder : string) : M fs unit :=
  try_ (Remove fy (filepath_Join [folder; WorkspaceBusyFile])).

Definition dockerReachable (dockerOverride : string) (envs : gmap string string) : result bool :=
  let docker := if decide (dockerOverride ≠ "") then dockerOverride else "docker" in
  if negb (aw_exists w docker) then
    if decide (dockerOverride ≠ "") then Err ("docker command '" +:+ dockerOverride +:+ "' not found")
    else Ok true
  else
    match aw_dockerPs w docker envs with
    | None => Ok false
    | Some e => if Contains e "permission denied" && bool_decide (dockerOverride = "") then Ok true
                else Err (docker +:+ " ps: " +:+ e)
    end.
Definition shutdown_command (i : agent_info) : list string :=
  default [] (ae_shutdown (a_exec (ga i))).
Definition docker_root_required (i : agent_info) : bool :=
  if decide (a_driver (ga i) = "" ∨ a_driver (ga i) = DockerDriver) then
    match dockerReachable (dd_path (a_docker (ga i))) (default ∅ (dd_env (a_docker (ga i)))) with
    | Ok b => b
    | _ => true
    end
  else false.
(** True when the agent ran itself again as root. *)
Definition rerunAsRoot (workspaceInfo : option agent_info) : A bool :=
  let is_local := match workspaceInfo with
                  | Some i => bool_decide (a_local (ga i) = "true") | None => false end in
  if bool_decide (bw_OS bw ≠ "linux") || bool_decide (aw_uid w = 0%Z) || is_local then mret false
  else
    let dockerRootRequired := match workspaceInfo with
                              | Some i => docker_root_required i | None => false end in
    let agentRootRequired := match workspaceInfo with
                             | Some i => bool_decide (shutdown_command i ≠ []) | None => true end in
    if negb dockerRootRequired && negb agentRootRequired then mret false
    else
      _ ← liftR (of_sum (aw_executable w));
      _ ← happen RerunAsRoot;
      mret true.
Definition may_be_root (e : string) : bool :=
  bool_decide (e = ErrFindAgentHomeFolder) || HasSuffix e "permission denied".
(** [None]: the agent ran again as root, and is done. *)
Definition ReadAgentWorkspaceInfo (agentFolder context id : string) : A (option agent_info) :=
  r ← caught (on_fs (readAgentWorkspaceInfo agentFolder context id));
  let go workspaceInfo :=
    (r ← caught (rerunAsRoot workspaceInfo);
     shouldExit ← liftR (wrap "rerun as root" r);
     if shouldExit : bool then mret None
     else match workspaceInfo with
          | None => throw ErrFindAgentHomeFolder
          | Some i => mret (Some i)
          end) in
  match r with
  | Ok i => go (Some i)
  | Err e => if may_be_root e then go None else throw e
  | Panic => liftR Panic
  | NoFuel => liftR NoFuel
  end.

(** A local folder is used as it is when the agent runs where the folder is. *)
Definition choose_content (i : agent_info) (workspaceDir : string) : M fs agent_info :=
  let localFolder := ws_localFolder (w_source (gw i)) in
  here ← (if decide (localFolder ≠ "") then
            if cli_platformEnabled (gcli i) then mret false
            else exists_ fy (ai_workspaceOrigin (g_info i))
          else mret false);
  let i := if here : bool then with_content localFolder i else i in
  mret (if decide (ai_contentFolder (g_info i) = "")
        then with_content (GetAgentWorkspaceContentDir workspaceDir) i else i).
Definition create_dir (i : agent_info) : A string :=
  on_fs (CreateAgentWorkspaceDir (a_dataPath (ga i)) (w_context (gw i)) (w_id (gw i))).
Definition delete_old (deleteWorkspace : option (agent_info → A unit)) (i : agent_info)
    (workspaceDir : string) : A string :=
  match deleteWorkspace with
  | None => mret workspaceDir
  | Some del =>
      old ← caught (on_fs (ParseAgentWorkspaceInfo (filepath_Join [workspaceDir; WorkspaceConfigFile])));
      match old with
      | Ok oldInfo =>
          if decide (w_uid (gw oldInfo) ≠ w_uid (gw i)) then
            r ← caught (del oldInfo);
            _ ← liftR (wrap "delete old workspace" r);
            create_dir i
          else mret workspaceDir
      | _ => mret workspaceDir
      end
  end.
Definition decodeWorkspaceInfoAndWrite (workspaceInfoEncoded : string) (writeInfo : bool)
    (deleteWorkspace : option (agent_info → A unit)) : A (option agent_info) :=
  i ← liftR (DecodeWorkspaceInfo workspaceInfoEncoded);
  r ← caught (rerunAsRoot (Some i));
  shouldExit ← liftR (wrap "rerun as root" r);
  if shouldExit : bool then mret None
  else
    first ← create_dir i;
    let workspaceConfig := filepath_Join [first; WorkspaceConfigFile] in
    workspaceDir ← delete_old deleteWorkspace i first;
    i ← on_fs (choose_content i workspaceDir);
    _ ← (if writeInfo then writeWorkspaceInfo workspaceConfig i else mret ());
    mret (Some (with_origin workspaceDir i)).
Definition WorkspaceInfo (encoded : string) : A (option agent_info) :=
  decodeWorkspaceInfoAndWrite encoded false None.
Definition WriteWorkspaceInfo (encoded : string) : A (option agent_info) :=
  decodeWorkspaceInfoAndWrite encoded true None.
Definition WriteWorkspaceInfoAndDeleteOld (encoded : string) (del : agent_info → A unit)
    : A (option agent_info) :=
  decodeWorkspaceInfoAndWrite encoded true (Some del).
End Agent.
