(* ===== verification/AgentWorkspace.v ===== *)
(** * The contents of a workspace on its machine, and the daemon

    The rest of pkg/agent/workspace.go (cloning), the commands of cmd/agent/workspace and
    the daemon of cmd/agent/daemon.go. *)

From S2P Require Import Prelude GoStrings Substitute Types Git Names DevContainer Provider Options Home Clients SshConfig Lifecycle FileTree Extract Binaries CredHelpers Agent.
From stdpp Require Import base gmap list strings sorting pretty.
From Stdlib Require Import ZArith.

Local Open Scope string_scope.
Local Open Scope list_scope.
Implicit Types (p dir : string).

Section Workspace.
Context (w : agent_world).
Notation bw := (aw_bin w).
Notation fy := (bw_fy bw).
Notation A := (M agent).
Notation gw i := (ai_workspace (g_info i)).
Notation ga i := (ai_agent (g_info i)).
Notation gcli i := (ai_cliOptions (g_info i)).
Notation happen := (happen w).

(** ** Cloning a repository *)

(** [RemoveHelperFromPath] of the configuration of the clone *)
Definition remove_local_helper (workspaceDir : string) : M fs unit :=
  let config := GetLocalGitConfigPath workspaceDir in
  n ← stat_ fy true config;
  out ← (match n with Some _ => ReadFile fy config | None => mret "" end);
  if Contains out "[credential]" then WriteFile w config (removeCredentialHelper out) 384
  else mret ().
Fixpoint remove_entries (dirPath : string) (l : list string) : M fs unit :=
  match l with
  | [] => mret ()
  | name :: l' =>
      let entryPath := filepath_Join [dirPath; name] in
      n ← stat_ fy false entryPath;
      _ ← (if is_dir n then RemoveAll fy entryPath else Remove fy entryPath);
      remove_entries dirPath l'
  end.
Definition removeDirContents (dirPath : string) : M fs unit :=
  entries ← ReadDir fy dirPath; remove_entries dirPath entries.

(** The key files written so far; they are removed only if all of them could be written. *)
Fixpoint write_keys (n : nat) (keys : list string) : M fs (list string) :=
  match keys with
  | [] => mret []
  | key :: keys' =>
      let keyFile := aw_keyFile w n in
      q ← create fy keyFile 384;
      data ← liftR (of_option "illegal base64 data" (DecodeString key));
      _ ← fill q data;
      _ ← Chmod fy keyFile 256;
      rest ← write_keys (S n) keys';
      mret (keyFile :: rest)
  end.
Definition ssh_env (keyFiles : list string) (agentPath : string) : list string :=
  ["GIT_TERMINAL_PROMPT=0";
   "GIT_SSH_COMMAND=" +:+
   aw_QuoteCommand w ([agentPath; "helper"; "ssh-git-clone"] ++ ((λ k, "--key-file=" +:+ k) <$> keyFiles))].
Definition remove_keys (keyFiles : list string) : M fs unit :=
  forM_ keyFiles (λ k, try_ (Remove fy k)).

(** a strategy that is not known clones as usual *)
Definition strategy_option (strategy : string) : list CloneOption :=
  if decide (strategy ≠ "") then
    [WithCloneStrategy (match CloneStrategy_Set strategy with Ok s => s | _ => FullClone end)]
  else [].
Definition getGitOptions (i : agent_info) : list CloneOption :=
  strategy_option (cli_gitCloneStrategy (gcli i)) ++ strategy_option (pg_cloneStrategy (g_git i)) ++
  (if pg_skipLFS (g_git i) then [WithSkipLFS] else []) ++
  (if cli_gitCloneRecursiveSubmodules (gcli i) then [WithRecursiveSubmodules] else []).
(** git runs on the files there are, and then the files are what it leaves *)
Definition run_clone (clone : M (list Git.command) unit) : A unit := λ a,
  let '(r, cs) := clone [] in
  (r, Agent (aw_checkout w (ag_fs a) cs) (ag_touched a) (ag_now a) (ag_events a ++ (Agent.Git <$> cs))).
Definition git_clone (i : agent_info) (extraEnv : list string) (workspaceDir helper : string) : A unit :=
  a ← getS;
  let source := w_source (gw i) in
  run_clone (CloneRepositoryWithEnv (aw_git w (ag_fs a))
    (NewGitInfo (ws_gitRepository source) (ws_gitBranch source) (ws_gitCommit source)
       (ws_gitPRReference source) (ws_gitSubPath source))
    extraEnv workspaceDir helper (cli_strictHostKeyChecking (gcli i)) (getGitOptions i)).
(** the git cache of the platform, through its socket *)
Definition platform_clone (i : agent_info) (workspaceDir : string) : A unit :=
  _ ← modifyS (λ a, Agent (aw_gitcache w workspaceDir (ag_fs a)) (ag_touched a) (ag_now a) (ag_events a));
  happen (GitCache workspaceDir).
Definition gitcache_enabled (i : agent_info) : M fs bool :=
  if cli_platformEnabled (gcli i) && bool_decide (pg_runnerSocket (g_git i) ≠ "")
  then exists_ fy (pg_runnerSocket (g_git i)) else mret false.
(** After a failure the folder is removed: a folder that is there is not cloned again. *)
Definition or_cleanup (what workspaceDir : string) (c : A unit) : A unit :=
  r ← caught c;
  match r with
  | Err e =>
      d ← caught (on_fs (RemoveAll fy workspaceDir));
      match d with
      | Err e' => throw (what +:+ ": " +:+ e +:+ ", cleanup workspace: " +:+ e')
      | _ => throw (what +:+ ": " +:+ e)
      end
  | r => liftR r
  end.
Definition clone_into (i : agent_info) (extraEnv : list string) (workspaceDir helper : string) : A unit :=
  enabled ← on_fs (gitcache_enabled i);
  if enabled : bool then
    or_cleanup "clone repository (with gitcache)" workspaceDir (platform_clone i workspaceDir)
  else or_cleanup "clone repository" workspaceDir (git_clone i extraEnv workspaceDir helper).
(** Each line of .devpodignore is removed from the clone. *)
Definition apply_ignore (workspaceDir : string) : M fs unit :=
  r ← caught (ReadFile fy (filepath_Join [workspaceDir; ".devpodignore"]));
  match r with
  | Ok text =>
      match aw_ignore w text with
      | inr excludes => forM_ excludes (λ e, try_ (RemoveAll fy (filepath_Join [workspaceDir; e])))
      | inl _ => mret ()
      end
  | _ => mret ()
  end.
Definition need_git (i : agent_info) : A unit :=
  if aw_exists w "git" then mret ()
  else match StrBool_Bool (Some (a_local (ga i))) with
       | Ok true => throw ("seems like git isn't installed on your system. Please make sure to " +:+
                           "install git and make it available in the PATH")
       | _ => happen InstallGit
       end.
Definition with_keys (i : agent_info) (c : list string → A unit) : A unit :=
  match pg_sshKeys (g_git i) with
  | [] => c []
  | keys =>
      keyFiles ← on_fs (write_keys 0 keys);
      deferred (on_fs (remove_keys keyFiles)) (c (ssh_env keyFiles (a_path (ga i))))
  end.
Definition clone_steps (i : agent_info) (workspaceDir helper : string) (overwriteContent : bool) : A unit :=
  _ ← need_git i;
  _ ← (if overwriteContent then on_fs (removeDirContents workspaceDir) else mret ());
  with_keys i (λ extraEnv,
    _ ← clone_into i extraEnv workspaceDir helper;
    on_fs (apply_ignore workspaceDir)).
Definition CloneRepositoryForWorkspace (i : agent_info) (workspaceDir helper : string)
    (overwriteContent : bool) : A unit :=
  deferred (if decide (helper ≠ "") then try_ (on_fs (remove_local_helper workspaceDir)) else mret ())
    (clone_steps i workspaceDir helper overwriteContent).

(** ** cmd/agent/workspace/up.go *)

Definition ensureLastDevContainerJson (i : agent_info) (last : string * string) : M fs unit :=
  let filePath := filepath_Join [ai_contentFolder (g_info i); last.1] in
  n ← stat_ fy true filePath;
  match n with
  | Some _ => mret ()
  | None =>
      r ← caught (MkdirAll fy (path_Dir filePath) 493);
      _ ← liftR (wrap ("create " +:+ path_Dir filePath) r);
      r ← caught (WriteFile w filePath last.2 384);
      liftR (wrap ("write " +:+ filePath) r)
  end.
Definition download_binaries (i : agent_info) : M fs unit :=
  let id := w_id (gw i) in
  r ← caught (GetAgentBinariesDir w (a_dataPath (ga i)) (w_context (gw i)) id);
  binariesDir ← liftR (wrap ("error getting workspace " +:+ id +:+ " binaries dir") r);
  r ← caught (DownloadBinaries bw (a_binaries (ga i)) binariesDir);
  _ ← liftR (wrap ("error downloading workspace " +:+ id +:+ " binaries") r);
  mret ().
(** Whether the contents were there before *)
Definition InitContentFolder (i : agent_info) : M fs bool :=
  let content := ai_contentFolder (g_info i) in
  there ← exists_ fy content;
  if there : bool then mret true
  else
    r ← caught (MkdirAll fy content 511);
    _ ← liftR (wrap "make workspace folder" r);
    r ← caught (download_binaries i);
    match r with
    | Err e => _ ← try_ (RemoveAll fy content); throw e
    | Panic => liftR Panic
    | NoFuel => liftR NoFuel
    | Ok _ =>
        match g_last i with
        | Some last => _ ← try_ (ensureLastDevContainerJson i last); mret true
        | None => mret false
        end
    end.
Definition prepareImage (workspaceDir image : string) : M fs unit :=
  WriteFile w (filepath_Join [workspaceDir; ".devcontainer.json"])
    ("{" +:+ newline +:+ "  " +:+ quoted "image" +:+ ": " +:+ quoted image +:+ newline +:+ "}") 384.
Definition downloadLocalFolder (workspaceDir : string) : M fs unit :=
  match aw_stream w with
  | inl e => throw ("read workspace: " +:+ e)
  | inr s => r ← caught (Extract fy s workspaceDir no_options); liftR (wrap "extract local folder" r)
  end.
(** In proxy mode a local folder is put into a folder that is known ahead. *)
Definition proxy_content (i : agent_info) : agent_info :=
  if cli_platformEnabled (gcli i) && bool_decide (ws_localFolder (w_source (gw i)) ≠ "")
  then with_content (GetAgentWorkspaceContentDir (ai_origin (g_info i))) i else i.
Definition prepare_git (i : agent_info) (helper : string) (there : bool) : A unit :=
  let content := ai_contentFolder (g_info i) in
  _ ← (if cli_reset (gcli i) then try_ (on_fs (RemoveAll fy content)) else mret ());
  if cli_recreate (gcli i) && negb (cli_reset (gcli i)) && there then mret ()
  else if aw_crane w (gcli i) then mret ()
  else CloneRepositoryForWorkspace i content helper false.
Definition fetch_content (i : agent_info) (helper : string) (there : bool) : A unit :=
  let content := ai_contentFolder (g_info i) in
  let source := w_source (gw i) in
  if decide (ws_gitRepository source ≠ "") then prepare_git i helper there
  else if decide (ws_localFolder source ≠ "") then
    if decide (content = ws_localFolder source) then mret () else on_fs (downloadLocalFolder content)
  else if decide (ws_image source ≠ "") then on_fs (prepareImage content (ws_image source))
  else if decide (ws_container source ≠ "") then mret ()
  else throw "either workspace repository, image, container or local-folder is required".
Definition prepareWorkspace (i : agent_info) (helper : string) : A agent_info :=
  let i := proxy_content i in
  there ← on_fs (InitContentFolder i);
  _ ← (if there && negb (cli_recreate (gcli i)) then mret () else fetch_content i helper there);
  mret i.

Definition installDaemon (i : agent_info) : A unit :=
  if decide (shutdown_command i = []) then mret ()
  else
    r ← caught (happen (InstallDaemon (a_dataPath (ga i)) (cli_daemonInterval (gcli i))));
    liftR (wrap "install daemon" r).
Definition installDocker : A unit :=
  if aw_exists w "docker" then mret () else happen InstallDocker.
Definition daemon_config : string :=
  "{" +:+ newline +:+ tab +:+ tab +:+ quoted "features" +:+ ": {" +:+ newline +:+
  tab +:+ tab +:+ tab +:+ quoted "containerd-snapshotter" +:+ ": true" +:+ newline +:+
  tab +:+ tab +:+ "}" +:+ newline +:+ tab +:+ "}".
Definition write_daemon_config : M fs unit :=
  _ ← (if decide (aw_userHome w = "") then throw "home directory is not set" else mret ());
  n ← caught (stat_ fy true (aw_userHome w +:+ "/.config/docker"));
  r ← caught (match n with
              | Ok None => throw FileTree.ENOENT
              | _ => WriteFile w (aw_userHome w +:+ "/.config/docker/daemon.json") daemon_config 420
              end);
  match r with Ok _ => mret () | _ => WriteFile w "/etc/docker/daemon.json" daemon_config 420 end.
Definition configureDockerDaemon : A unit := _ ← on_fs write_daemon_config; happen ReloadDocker.
(** docker is installed while the workspace is prepared; here after it.  The daemon
    is configured when the setting [local] cannot be read. *)
Definition initWorkspace (i : agent_info) (helper : string) (shouldInstallDaemon : bool) : A agent_info :=
  i ← prepareWorkspace i helper;
  _ ← (if shouldInstallDaemon then try_ (installDaemon i) else mret ());
  r ← caught (if negb (IsDockerDriver (ga i)) || bool_decide (dd_install (a_docker (ga i)) = "false")
              then mret () else installDocker);
  _ ← liftR (wrap "install docker" r);
  _ ← (if IsDockerDriver (ga i) && is_err (StrBool_Bool (Some (a_local (ga i))))
       then try_ configureDockerDaemon else mret ());
  mret i.

Definition removeContainer (i : agent_info) : A unit :=
  if decide (ws_container (w_source (gw i)) ≠ "") then mret () else happen (DeleteContainer i).
(** [deleteWorkspace] of build.go *)
Definition deleteWorkspace (i : agent_info) : A unit :=
  _ ← try_ (removeContainer i); try_ (on_fs (RemoveAll fy (ai_origin (g_info i)))).

Definition busy (i : agent_info) (c : A unit) : A unit :=
  _ ← on_fs (CreateWorkspaceBusyFile w (ai_origin (g_info i)));
  deferred (on_fs (DeleteWorkspaceBusyFile w (ai_origin (g_info i)))) c.
Definition up_or_delete (i : agent_info) (helper : string) : A unit :=
  r ← caught (initWorkspace i helper
                (negb (cli_platformEnabled (gcli i)) && negb (cli_disableDaemon (gcli i))));
  match r with
  | Err e =>
      match aw_deleteFolder w i with
      | Some e1 => throw (e1 +:+ ": " +:+ e)
      | None => throw e
      end
  | Panic => liftR Panic
  | NoFuel => liftR NoFuel
  | Ok i => r ← caught (happen (UpContainer i)); liftR (wrap "devcontainer up" r)
  end.
Definition UpCmd_Run (WorkspaceInfo helper : string) : A unit :=
  r ← caught (WriteWorkspaceInfoAndDeleteOld w WorkspaceInfo deleteWorkspace);
  o ← liftR (wrap "error parsing workspace info" r);
  match o with
  | None => mret ()
  | Some i =>
      if cli_platformEnabled (gcli i) then up_or_delete i helper else busy i (up_or_delete i helper)
  end.
Definition build_platforms (i : agent_info) : list string :=
  match cli_platforms (gcli i) with [] => [""] | l => l end.
Definition BuildCmd_Run (WorkspaceInfo helper : string) : A unit :=
  o ← WriteWorkspaceInfoAndDeleteOld w WorkspaceInfo deleteWorkspace;
  match o with
  | None => mret ()
  | Some i =>
      busy i (i ← initWorkspace i helper false;
              forM_ (build_platforms i) (λ platform,
                r ← caught (happen (BuildImage i platform)); liftR (wrap "build" r)))
  end.

(** ** The other commands *)

Definition removeDaemon (i : agent_info) : A unit :=
  if decide (shutdown_command i = []) then mret ()
  else r ← caught (happen RemoveDaemon); liftR (wrap "remove daemon" r).
Definition DeleteCmd_Run (WorkspaceInfo : string) (container daemon : bool) : A unit :=
  r ← caught (Agent.WorkspaceInfo w WorkspaceInfo);
  o ← liftR (wrap "error parsing workspace info" r);
  match o with
  | None => mret ()
  | Some i =>
      _ ← (if daemon then r ← caught (removeDaemon i); liftR (wrap "remove daemon" r) else mret ());
      _ ← (if container then r ← caught (removeContainer i); liftR (wrap "remove container" r)
           else mret ());
      try_ (on_fs (RemoveAll fy (ai_origin (g_info i))))
  end.
Definition StopCmd_Run (WorkspaceInfo : string) : A unit :=
  r ← caught (WriteWorkspaceInfo w WorkspaceInfo);
  o ← liftR (wrap "error parsing workspace info" r);
  match o with
  | None => mret ()
  | Some i => r ← caught (happen (StopContainer i)); liftR (wrap "stop container" r)
  end.
Definition UpdateConfigCmd_Run (WorkspaceInfo : string) : A unit :=
  _ ← WriteWorkspaceInfo w WorkspaceInfo; mret ().

(** ** The daemon that stops an idle machine *)

Definition minute : Z := 60000000000.
Definition DefaultInactivityTimeout : Z := 20 * minute.

(** The names of a directory, none if it cannot be read, as [filepath.Glob] lists them *)
Definition names_of dir : M fs (list string) :=
  r ← caught (ReadDir fy dir); mret (match r with Ok l => l | _ => [] end).
Fixpoint over_all {X} (l : list X) (f : X → M fs (list string)) : M fs (list string) :=
  match l with
  | [] => mret []
  | x :: l' => a ← f x; b ← over_all l' f; mret (a ++ b)
  end.
(** [contexts/*/workspaces/*/workspace.json] *)
Definition workspace_configs (baseFolder : string) : M fs (list string) :=
  contexts ← names_of (filepath_Join [baseFolder; "contexts"]);
  over_all contexts (λ c,
    let dir := filepath_Join [baseFolder; "contexts"; c; "workspaces"] in
    ids ← names_of dir;
    over_all ids (λ id,
      let p := filepath_Join [dir; id; WorkspaceConfigFile] in
      n ← stat_ fy false p;
      mret (match n with Some _ => [p] | None => [] end))).
(** The last use of a workspace with a shutdown command; 20 minutes are added while it is busy. *)
Definition getActivity (workspaceConfig : string) : A (option (Z * agent_info)) :=
  r ← caught (on_fs (ParseAgentWorkspaceInfo w workspaceConfig));
  match r with
  | Ok i =>
      if decide (shutdown_command i = []) then mret None
      else
        a ← getS;
        there ← on_fs (stat_ fy true workspaceConfig);
        match there with
        | None => throw FileTree.ENOENT
        | Some _ =>
            let t := default 0%Z (ag_touched a !! workspaceConfig) in
            locked ← on_fs (HasWorkspaceBusyFile w (path_Dir workspaceConfig));
            mret (Some ((if locked : bool then t + 20 * minute else t)%Z, i))
        end
  | _ => mret None
  end.
(** The later of two activities; the first one stays when they are equal. *)
Definition later (latest activity : option (Z * agent_info)) : option (Z * agent_info) :=
  match latest, activity with
  | None, x => x
  | x, None => x
  | Some (t, i), Some (t', i') => if (t <? t')%Z then Some (t', i') else Some (t, i)
  end.
Fixpoint latest_activity (matches : list string) (latest : option (Z * agent_info))
    : A (option (Z * agent_info)) :=
  match matches with
  | [] => mret latest
  | m :: rest =>
      r ← caught (getActivity m);
      latest_activity rest (match r with Ok x => later latest x | _ => latest end)
  end.
Definition timeout_of (i : agent_info) : Z :=
  if decide (a_timeout (ga i) ≠ "")
  then default DefaultInactivityTimeout (ParseDuration (a_timeout (ga i)))
  else DefaultInactivityTimeout.

Definition agent_environ (i : agent_info) : M fs (list string) :=
  let id := w_id (gw i) in
  r ← caught (binaries_dir_of w (ai_origin (g_info i)));
  binariesDir ← liftR (wrap ("error getting workspace " +:+ id +:+ " binaries dir: " +:+
                             ai_origin (g_info i)) r);
  r ← caught (DownloadBinaries bw (a_binaries (ga i)) binariesDir);
  agentBinaries ← liftR (wrap ("error downloading workspace " +:+ id +:+ " binaries") r);
  mret (ToEnvironment (aw_env w) (Some (gw i)) (ai_machine (g_info i)) (Some (ai_options (g_info i))) ∅ ++
        ((λ kv, kv.1 +:+ "=" +:+ kv.2) <$> s_iter (aw_env w) agentBinaries)).
Definition runShutdownCommand (i : agent_info) : A unit :=
  environ ← caught (on_fs (agent_environ i));
  match environ with
  | Ok environ => try_ (happen (Shutdown i (shutdown_command i) environ))
  | _ => mret ()
  end.
Definition doOnce (AgentDir : string) : A unit :=
  base ← caught (on_fs (FindAgentHomeFolder w AgentDir));
  match base with
  | Ok baseFolder =>
      matches ← on_fs (workspace_configs baseFolder);
      latest ← latest_activity matches None;
      match latest with
      | None => mret ()
      | Some (t, i) =>
          a ← getS;
          if (ag_now a <? t + timeout_of i)%Z then mret () else runShutdownCommand i
      end
  | _ => mret ()
  end.
Definition initialTouch (AgentDir : string) : A unit :=
  base ← caught (on_fs (FindAgentHomeFolder w AgentDir));
  match base with
  | Ok baseFolder => matches ← on_fs (workspace_configs baseFolder); forM_ matches touch
  | _ => mret ()
  end.
Definition parse_interval (Interval : string) : Z :=
  if decide (Interval ≠ "") then default minute (ParseDuration Interval) else minute.
Definition sleep (d : Z) : A unit :=
  modifyS (λ a, Agent (ag_fs a) (ag_touched a) (ag_now a + Z.max 0 d)%Z (ag_events a)).
(** [patrol], for some rounds *)
Fixpoint patrol_rounds (rounds : nat) (AgentDir Interval : string) : A unit :=
  match rounds with
  | 0 => mret ()
  | S n => _ ← sleep (parse_interval Interval); _ ← doOnce AgentDir; patrol_rounds n AgentDir Interval
  end.
Definition patrol (rounds : nat) (AgentDir Interval : string) : A unit :=
  _ ← initialTouch AgentDir; patrol_rounds rounds AgentDir Interval.
End Workspace.
