(* ===== verification/AgentProps.v ===== *)
(** * Properties of the agent

    When the daemon stops a machine, and that it does so only then; what is written about a
    workspace is read back; a failed clone leaves nothing behind. *)

From S2P Require Import Prelude GoStrings Substitute Types Git DevContainer Provider Options Home Clients Lifecycle FileTree FileTreeProps Extract ExtractProps Binaries BinariesProps CredHelpers Agent AgentWorkspace.
From S2P Require OptionsProps.
From stdpp Require Import base gmap list strings pretty.
From Stdlib Require Import ZArith Lia.

Local Open Scope string_scope.
Local Open Scope list_scope.

(** ** What only looks *)

Section Looks.
Context (w : agent_world).
Notation fy := (bw_fy (aw_bin w)).

Lemma on_fs_eq {X} (c : M fs X) : stays eq c → stays eq (on_fs c).
Proof. intros Hc [f t n e]. unfold on_fs. cbn. specialize (Hc f). destruct (c f). cbn in *. by subst. Qed.
Lemma stat_eq follow (p : string) : stays eq (stat_ fy follow p).
Proof. unfold stat_, call. destruct (fy_fail _ _ _); stays. Qed.
Lemma ReadDir_eq (p : string) : stays eq (ReadDir fy p).
Proof. unfold ReadDir, call. destruct (fy_fail _ _ _); stays. Qed.
Lemma there_eq (p : string) : stays eq (exists_ fy p).
Proof. apply (exists_eq (aw_bin w)). Qed.
Lemma read_eq (p : string) : stays eq (ReadFile fy p).
Proof. apply ReadFile_eq. Qed.
#[local] Hint Resolve on_fs_eq stat_eq ReadDir_eq there_eq read_eq : stays.

Lemma parse_eq (p : string) : stays eq (ParseAgentWorkspaceInfo w p).
Proof. unfold ParseAgentWorkspaceInfo. stays. Qed.
Lemma first_valid_eq validate l : (∀ d, stays eq (validate d)) → stays eq (first_valid validate l).
Proof.
  intros Hv. induction l as [|d l IH]; cbn [first_valid]; [stays|].
  apply stays_bind; [apply _|case_decide; [stays|apply Hv]|]. intros []; [stays|exact IH].
Qed.
Lemma FindAgentHomeFolder_eq (dir : string) : stays eq (FindAgentHomeFolder w dir).
Proof.
  unfold FindAgentHomeFolder, findDir, only_valid, isDevPodHome.
  apply stays_bind; [apply _| |intros h; stays].
  case_decide; [stays|]. case_decide; [stays|]. apply first_valid_eq. intros d. stays.
Qed.
Lemma over_all_eq {X} (l : list X) f : (∀ x, stays eq (f x)) → stays eq (over_all l f).
Proof. intros Hf. induction l; cbn [over_all]; stays. Qed.
Lemma workspace_configs_eq (base : string) : stays eq (workspace_configs w base).
Proof.
  unfold workspace_configs, names_of. apply stays_bind; [apply _|stays|]. intros l.
  apply over_all_eq. intros c. apply stays_bind; [apply _|stays|]. intros l'.
  apply over_all_eq. intros id. stays.
Qed.
#[local] Hint Resolve parse_eq FindAgentHomeFolder_eq workspace_configs_eq : stays.
Lemma getActivity_eq (m : string) : stays eq (getActivity w m).
Proof.
  unfold getActivity, HasWorkspaceBusyFile. apply stays_bind; [apply _|stays|].
  intros [i|e| |]; [|stays..]. case_decide; stays.
Qed.
End Looks.
#[export] Hint Resolve on_fs_eq stat_eq ReadDir_eq there_eq read_eq parse_eq FindAgentHomeFolder_eq
  workspace_configs_eq getActivity_eq : stays.

(** ** The daemon *)

Section Daemon.
Context (w : agent_world).

(** The last use of the workspace of a configuration *)
Definition activity (a : agent) (m : string) : option (Z * agent_info) :=
  match (getActivity w m a).1 with Ok o => o | _ => None end.
(** The configurations of workspaces on the machine *)
Definition configs (AgentDir : string) (a : agent) : list string :=
  match (FindAgentHomeFolder w AgentDir (ag_fs a)).1 with
  | Ok base => match (workspace_configs w base (ag_fs a)).1 with Ok l => l | _ => [] end
  | _ => []
  end.
(** The activity that counts is the latest one. *)
Definition latest_of (a : agent) (l : list string) (o : option (Z * agent_info)) : option (Z * agent_info) :=
  foldl (λ latest m, later latest (activity a m)) o l.

Lemma latest_activity_run l : ∀ o a, latest_activity w l o a = (Ok (latest_of a l o), a).
Proof.
  induction l as [|m l IH]; intros o a; cbn [latest_activity]; [done|].
  destruct (getActivity w m a) as [r a'] eqn:Hr.
  pose proof (stays_after eq _ _ _ _ (getActivity_eq w m) Hr) as <-.
  assert (activity a m = match r with Ok x => x | _ => None end) as Ha
    by (unfold activity; by rewrite Hr).
  rewrite (run_Ok _ _ _ (r : result _) a) by (unfold caught; by rewrite Hr).
  rewrite IH. unfold latest_of. cbn [foldl]. rewrite Ha.
  by destruct r, o as [[]|].
Qed.
Lemma later_max o x t i : later o x = Some (t, i) →
  (o = Some (t, i) ∨ x = Some (t, i)) ∧
  (∀ t' i', o = Some (t', i') → (t' ≤ t)%Z) ∧ (∀ t' i', x = Some (t', i') → (t' ≤ t)%Z).
Proof.
  destruct o as [[t1 i1]|], x as [[t2 i2]|]; cbn; try done.
  - destruct (Z.ltb_spec t1 t2); intros [= -> ->]; split_and!; try tauto; intros ?? [= <- <-]; lia.
  - intros [= -> ->]. split_and!; [by left|by intros ?? [= <- <-]|done].
  - intros [= -> ->]. split_and!; [by right|done|by intros ?? [= <- <-]].
Qed.
Lemma latest_of_max a l : ∀ o t i, latest_of a l o = Some (t, i) →
  (o = Some (t, i) ∨ ∃ m, m ∈ l ∧ activity a m = Some (t, i)) ∧
  (∀ t' i', o = Some (t', i') → (t' ≤ t)%Z) ∧
  ∀ m t' i', m ∈ l → activity a m = Some (t', i') → (t' ≤ t)%Z.
Proof.
  induction l as [|m l IH]; intros o t i Hl.
  - cbn in Hl. subst o. split_and!; [by left|by intros ?? [= <- <-]|].
    by intros ??? H%elem_of_nil.
  - cbn in Hl. destruct (IH _ _ _ Hl) as (H1 & H2 & H3).
    assert (∀ t' i', o = Some (t', i') ∨ activity a m = Some (t', i') → (t' ≤ t)%Z) as Hle.
    { intros t' i' Hor. destruct (later o (activity a m)) as [[tl il]|] eqn:Hlater.
      - destruct (later_max _ _ _ _ Hlater) as (_ & H4 & H5).
        specialize (H2 _ _ eq_refl). destruct Hor as [Ho|Ho]; [apply H4 in Ho|apply H5 in Ho]; lia.
      - destruct o as [[]|], (activity a m) as [[]|]; cbn in Hlater; try done; [|by destruct Hor..].
        by destruct (_ <? _)%Z. }
    split_and!.
    + destruct H1 as [H1|(m' & Hm & Ha)]; [|right; exists m'; by split; [right|]].
      apply later_max in H1 as [[->|Ha] _]; [by left|]. right. exists m. by split; [left|].
    + intros t' i' Ho. apply (Hle t' i'). by left.
    + intros m' t' i' [->|Hm]%elem_of_cons Ha; [apply (Hle t' i'); by right|by eapply H3].
Qed.
Lemma latest_of_None a l o : latest_of a l o = None → o = None ∧ ∀ m, m ∈ l → activity a m = None.
Proof.
  revert o. induction l as [|m l IH]; intros o H; [split; [done|by intros m Hm%elem_of_nil]|].
  cbn in H. apply IH in H as [H1 H2]. assert (o = None ∧ activity a m = None) as [-> Ha].
  { destruct o as [[]|], (activity a m) as [[]|]; try done. cbn in H1. by destruct (_ <? _)%Z. }
  split; [done|]. intros m' [->|Hm]%elem_of_cons; [done|by apply H2].
Qed.

(** What one round of the daemon does *)
Lemma doOnce_run AgentDir a :
  (doOnce w AgentDir a).2 =
  match latest_of a (configs AgentDir a) None with
  | Some (t, i) => if (ag_now a <? t + timeout_of i)%Z then a else (runShutdownCommand w i a).2
  | None => a
  end.
Proof.
  unfold doOnce, configs. unfold mbind at 1, M_bind at 1, caught, on_fs at 1.
  destruct (FindAgentHomeFolder w AgentDir (ag_fs a)) as [r f] eqn:Hf.
  pose proof (stays_after eq _ _ _ _ (FindAgentHomeFolder_eq w _) Hf) as <-. cbn [fst].
  assert (Agent (ag_fs a) (ag_touched a) (ag_now a) (ag_events a) = a) as -> by by destruct a.
  destruct r as [base|e| |]; try done. unfold mbind at 1, M_bind at 1, on_fs at 1.
  destruct (workspace_configs w base (ag_fs a)) as [r f] eqn:Hc.
  pose proof (stays_after eq _ _ _ _ (workspace_configs_eq w _) Hc) as <-. cbn [fst].
  assert (Agent (ag_fs a) (ag_touched a) (ag_now a) (ag_events a) = a) as -> by by destruct a.
  destruct r as [l|e| |]; try done.
  rewrite (run_Ok _ _ _ _ _ (latest_activity_run l None a)).
  destruct (latest_of a l None) as [[t i]|]; [|done]. rewrite run_get.
  by destruct (ag_now a <? t + timeout_of i)%Z.
Qed.
(** Activities are those of the files, put off to when they were last touched. *)
Definition still (f : fs) : agent := Agent f ∅ 0 [].
Lemma on_fs_run {X} (c : M fs X) a r f : c (ag_fs a) = (r, f) →
  on_fs c a = (r, Agent f (ag_touched a) (ag_now a) (ag_events a)).
Proof. intros Hc. unfold on_fs. by rewrite Hc. Qed.
Lemma look_run {X} (c : M fs X) a : stays eq c → on_fs c a = ((c (ag_fs a)).1, a).
Proof.
  intros Hc. specialize (Hc (ag_fs a)). unfold on_fs. destruct (c (ag_fs a)) as [r f].
  cbn in *. subst f. by destruct a.
Qed.
Lemma look_bind {X Y} (c : M fs X) (k : X → M agent Y) a : stays eq c →
  (on_fs c ≫= k) a = match (c (ag_fs a)).1 with
                     | Ok x => k x a | Err e => (Err e, a) | Panic => (Panic, a) | NoFuel => (NoFuel, a)
                     end.
Proof. intros Hc. unfold mbind, M_bind. rewrite (look_run c a Hc). by destruct (_.1). Qed.
Lemma activity_eq a m : activity a m =
  match (ParseAgentWorkspaceInfo w m (ag_fs a)).1 with
  | Ok i =>
      if decide (shutdown_command i = []) then None
      else match (stat_ (bw_fy (aw_bin w)) true m (ag_fs a)).1 with
           | Ok (Some _) =>
               match (HasWorkspaceBusyFile w (path_Dir m) (ag_fs a)).1 with
               | Ok locked => let t := default 0%Z (ag_touched a !! m) in
                              Some ((if locked : bool then t + 20 * minute else t)%Z, i)
               | _ => None
               end
           | _ => None
           end
  | _ => None
  end.
Proof.
  unfold activity, getActivity. unfold mbind at 1, M_bind at 1, caught.
  rewrite look_run by apply parse_eq. cbn [fst snd].
  destruct ((ParseAgentWorkspaceInfo w m (ag_fs a)).1) as [?|?| |]; [|done..].
  destruct (decide _); [done|]. rewrite run_get, look_bind by apply stat_eq.
  destruct ((stat_ _ true m (ag_fs a)).1) as [[?|]|?| |]; [|done..].
  rewrite look_bind by apply there_eq. by destruct ((HasWorkspaceBusyFile _ _ _).1).
Qed.
Lemma activity_touched a m : activity a m =
  (λ ti, ((default 0 (ag_touched a !! m) + ti.1)%Z, ti.2)) <$> activity (still (ag_fs a)) m.
Proof.
  rewrite !activity_eq. cbn [ag_fs still ag_touched].
  destruct ((ParseAgentWorkspaceInfo w m (ag_fs a)).1) as [?|?| |]; [|done..].
  destruct (decide _); [done|].
  destruct ((stat_ _ true m (ag_fs a)).1) as [[?|]|?| |]; [|done..].
  destruct ((HasWorkspaceBusyFile _ _ _).1) as [[]|?| |]; [| |done..];
    cbn; rewrite lookup_empty; cbn; do 2 f_equal; lia.
Qed.
Lemma activity_after f m t i : activity (still f) m = Some (t, i) →
  (0 ≤ t)%Z ∧ shutdown_command i ≠ [].
Proof.
  rewrite activity_eq. cbn [ag_fs still ag_touched].
  destruct ((ParseAgentWorkspaceInfo w m f).1) as [j|?| |]; [|done..].
  destruct (decide _) as [|Hs]; [done|].
  destruct ((stat_ _ true m f).1) as [[?|]|?| |]; [|done..].
  destruct ((HasWorkspaceBusyFile _ _ _).1) as [[]|?| |]; [| |done..];
    rewrite lookup_empty; cbn; intros [= <- <-]; by split.
Qed.
Lemma activity_command a m t i : activity a m = Some (t, i) → shutdown_command i ≠ [].
Proof.
  rewrite activity_touched. intros ([t0 i0] & H & [= _ ->])%fmap_Some. by eapply activity_after.
Qed.

Lemma runShutdown_events i a :
  ag_events (runShutdownCommand w i a).2 =
  match (agent_environ w i (ag_fs a)).1 with
  | Ok environ => ag_events a ++ [Shutdown i (shutdown_command i) environ]
  | _ => ag_events a
  end.
Proof.
  unfold runShutdownCommand, mbind, M_bind, caught, on_fs.
  destruct (agent_environ w i (ag_fs a)) as [[environ|?| |] f]; [|done..].
  unfold try_, happen, mbind, M_bind, modifyS. cbn.
  by destruct (aw_fails w (Shutdown i (shutdown_command i) environ)).
Qed.

(** C20: The daemon runs a shutdown command only for the workspace that was used last, and
    only when no workspace of the machine that has such a command and a readable configuration
    was used within the timeout of this one (others do not count); a workspace that is busy
    counts as used for 20 more minutes.  Nothing else
    is run. *)
Theorem daemon_stops_only_idle AgentDir a :
  let a' := (doOnce w AgentDir a).2 in
  ag_events a' = ag_events a ∨
  ∃ i environ m t, ag_events a' = ag_events a ++ [Shutdown i (shutdown_command i) environ] ∧
    shutdown_command i ≠ [] ∧ m ∈ configs AgentDir a ∧ activity a m = Some (t, i) ∧
    ∀ m' t' i', m' ∈ configs AgentDir a → activity a m' = Some (t', i') →
      (t' ≤ t)%Z ∧ (t' + timeout_of i ≤ ag_now a)%Z.
Proof.
  intros a'. unfold a'. rewrite doOnce_run.
  destruct (latest_of a (configs AgentDir a) None) as [[t i]|] eqn:Hl; [|by left].
  destruct (Z.ltb_spec (ag_now a) (t + timeout_of i)) as [|Hle]; [by left|].
  rewrite runShutdown_events. destruct (_.1) as [environ|?| |]; [right|by left..].
  apply latest_of_max in Hl as ([[=]|(m & Hm & Ha)] & _ & Hmax). exists i, environ, m, t.
  split_and!; [done|by eapply activity_command|done|done|].
  intros m' t' i' Hm' Ha'. specialize (Hmax _ _ _ Hm' Ha'). lia.
Qed.

(** When every workspace with a shutdown command was idle for its own timeout, and there is
    one, the next round of the daemon runs the shutdown command of one of them, if the environment
    of these commands can be made. *)
Theorem daemon_stops_idle AgentDir a m t i :
  m ∈ configs AgentDir a → activity a m = Some (t, i) →
  (∀ m' t' i', m' ∈ configs AgentDir a → activity a m' = Some (t', i') →
     (t' + timeout_of i' ≤ ag_now a)%Z ∧ ∃ e, (agent_environ w i' (ag_fs a)).1 = Ok e) →
  ∃ i' environ, ag_events (doOnce w AgentDir a).2 =
    ag_events a ++ [Shutdown i' (shutdown_command i') environ].
Proof.
  intros Hm Ha Hidle. rewrite doOnce_run.
  destruct (latest_of a (configs AgentDir a) None) as [[tl il]|] eqn:Hl.
  - apply latest_of_max in Hl as ([[=]|(ml & Hml & Hal)] & _ & _).
    destruct (Hidle _ _ _ Hml Hal) as [Hle (e & He)].
    destruct (Z.ltb_spec (ag_now a) (tl + timeout_of il)) as [|_]; [lia|]. exists il.
    exists e. by rewrite runShutdown_events, He.
  - apply latest_of_None in Hl as [_ Hl]. by rewrite Hl in Ha.
Qed.

(** *** After the start *)

Lemma touch_all l : ∀ a, forM_ l touch a =
  (Ok (), Agent (ag_fs a) (foldl (λ t m, <[m := ag_now a]> t) (ag_touched a) l) (ag_now a) (ag_events a)).
Proof. induction l as [|m l IH]; intros a; cbn [forM_ foldl]; [by destruct a|]. unfold touch. by rewrite run_modify, IH. Qed.
Lemma touched_lookup (l : list string) (n : Z) : ∀ (t : gmap string Z) m,
  (m ∈ l ∨ t !! m = Some n) → foldl (λ t m, <[m := n]> t) t l !! m = Some n.
Proof.
  induction l as [|x l IH]; intros t m [H|H]; cbn; [by apply elem_of_nil in H|done|..]; apply IH.
  - apply elem_of_cons in H as [->|H]; [right; by rewrite lookup_insert_eq|by left].
  - right. destruct (decide (x = m)) as [->|]; [by rewrite lookup_insert_eq|by rewrite lookup_insert_ne].
Qed.
(** The state while nothing happens: the same files, all configurations touched at [n] *)
Definition waiting (AgentDir : string) (a0 a : agent) : Prop :=
  ag_fs a = ag_fs a0 ∧ ag_events a = ag_events a0 ∧
  ∀ m, m ∈ configs AgentDir a0 → ag_touched a !! m = Some (ag_now a0).
Lemma configs_files AgentDir a a' : ag_fs a' = ag_fs a → configs AgentDir a' = configs AgentDir a.
Proof. unfold configs. by intros ->. Qed.
Lemma initialTouch_waiting AgentDir a :
  ∃ r a', initialTouch w AgentDir a = (r, a') ∧ waiting AgentDir a a' ∧ ag_now a' = ag_now a ∧
    (r = Ok () ∨ configs AgentDir a = []).
Proof.
  unfold initialTouch, waiting, configs. unfold mbind at 1, M_bind at 1, caught.
  rewrite look_run by apply FindAgentHomeFolder_eq.
  destruct ((FindAgentHomeFolder w AgentDir (ag_fs a)).1) as [base|e| |].
  2,3,4: (eexists _, a; split; [done|]; split_and!; [done|done|by intros m H%elem_of_nil|done|by right]).
  unfold mbind, M_bind. rewrite look_run by apply workspace_configs_eq.
  destruct ((workspace_configs w base (ag_fs a)).1) as [l|e| |].
  2,3,4: (eexists _, a; split; [done|]; split_and!; [done|done|by intros m H%elem_of_nil|done|by right]).
  rewrite touch_all. eexists _, _. split; [reflexivity|]. split_and!; [done|done| |done|by left].
  intros m Hm. cbn. apply touched_lookup. by left.
Qed.
Lemma doOnce_waits AgentDir a0 a : waiting AgentDir a0 a →
  (∀ m t i, m ∈ configs AgentDir a0 → activity a0 m = Some (t, i) →
     (ag_now a < ag_now a0 + timeout_of i)%Z) →
  (doOnce w AgentDir a).2 = a.
Proof.
  intros (Hf & He & Ht) Hto. rewrite doOnce_run, (configs_files AgentDir a0 a Hf).
  destruct (latest_of a (configs AgentDir a0) None) as [[t i]|] eqn:Hl; [|done].
  apply latest_of_max in Hl as ([[=]|(m & Hm & Ha)] & _). rewrite activity_touched, Hf, (Ht m Hm) in Ha.
  apply fmap_Some in Ha as ([t0 i0] & Ha & [= -> ->]). cbn [default id fst snd].
  pose proof (activity_after _ _ _ _ Ha) as [H0 _].
  assert (activity a0 m = Some ((default 0 (ag_touched a0 !! m) + t0)%Z, i0)) as Ha0
    by (rewrite activity_touched, Ha; done).
  pose proof (Hto _ _ _ Hm Ha0) as Hlt.
  destruct (Z.ltb_spec (ag_now a) (ag_now a0 + t0 + timeout_of i0)) as [|]; [done|lia].
Qed.

Lemma patrol_rounds_wait AgentDir Interval a0 n : ∀ a, waiting AgentDir a0 a →
  (∀ m t i, m ∈ configs AgentDir a0 → activity a0 m = Some (t, i) →
     (ag_now a + Z.of_nat n * Z.max 0 (parse_interval Interval) < ag_now a0 + timeout_of i)%Z) →
  ag_events (patrol_rounds w n AgentDir Interval a).2 = ag_events a0.
Proof.
  induction n as [|n IH]; intros a Hw Hto; cbn [patrol_rounds]; [by destruct Hw as (_ & ? & _)|].
  unfold sleep at 1. rewrite run_modify. set (a1 := Agent _ _ _ _).
  assert (waiting AgentDir a0 a1) as Hw1 by (destruct Hw as (? & ? & ?); by split_and!).
  assert (∀ m t i, m ∈ configs AgentDir a0 → activity a0 m = Some (t, i) →
    (ag_now a1 + Z.of_nat n * Z.max 0 (parse_interval Interval) < ag_now a0 + timeout_of i)%Z) as Hto1
    by (intros m t i Hm Ha; specialize (Hto m t i Hm Ha); cbn; lia).
  pose proof (doOnce_waits AgentDir a0 a1 Hw1) as Hd. unfold mbind, M_bind.
  assert ((doOnce w AgentDir a1).2 = a1) as Hs
    by (apply Hd; intros m t i Hm Ha; specialize (Hto1 m t i Hm Ha); lia).
  destruct (doOnce w AgentDir a1) as [r a2]. cbn in Hs. subst a2.
  destruct r as [[]|?| |]; [by apply IH|by destruct Hw1 as (_ & ? & _)..].
Qed.

(** After the daemon starts, nothing is run as long as the time that passed is less than the
    timeout of every workspace, however long ago the workspaces were used before. *)
Theorem patrol_waits AgentDir Interval n a :
  (∀ m t i, m ∈ configs AgentDir a → activity a m = Some (t, i) →
     (Z.of_nat n * Z.max 0 (parse_interval Interval) < timeout_of i)%Z) →
  ag_events (patrol w n AgentDir Interval a).2 = ag_events a.
Proof.
  intros Hto. unfold patrol, mbind, M_bind.
  destruct (initialTouch_waiting AgentDir a) as (r & a' & -> & Hw & Hnow & Hr).
  assert (ag_events a' = ag_events a) as He by (by destruct Hw as (_ & ? & _)).
  destruct r as [[]|?| |]; [|done..]. apply patrol_rounds_wait; [done|].
  intros m t i Hm Ha. specialize (Hto m t i Hm Ha). lia.
Qed.
End Daemon.

(** ** What is written is read *)

Section Info.
Context (w : agent_world).
Notation fy := (bw_fy (aw_bin w)).

Lemma with_content_same i : with_content (ai_contentFolder (g_info i)) i = i.
Proof. by destruct i as [[] ? ?]. Qed.
Lemma with_content_twice c c' i : with_content c (with_content c' i) = with_content c i.
Proof. done. Qed.
Lemma choose_content_spec i (dir : string) f r f' : choose_content w i dir f = (r, f') →
  f' = f ∧ ∀ i', r = Ok i' → ∃ c, i' = with_content c i.
Proof.
  intros Hrun. split.
  { symmetry. eapply (stays_after eq); [|exact Hrun]. unfold choose_content.
    apply stays_bind; [apply _| |intros []; stays]. case_decide; [case_match|]; stays. }
  intros i' ->. unfold choose_content in Hrun. apply M_bind_Ok in Hrun as (here & f1 & _ & [= <- _]).
  destruct here, (decide _); rewrite ?with_content_twice; [eauto..|].
  exists (ai_contentFolder (g_info i)). by rewrite with_content_same.
Qed.
Lemma WriteFile_holds (p content : string) perm f f' :
  WriteFile w p content perm f = (Ok (), f') → holds f' p content.
Proof. apply write_holds. Qed.
Lemma writeWorkspaceInfo_Ok (file : string) i a a' : writeWorkspaceInfo w file i a = (Ok (), a') →
  holds (ag_fs a') file (j_Marshal (aw_json w) i) ∧ ag_touched a' !! file = Some (ag_now a').
Proof.
  unfold writeWorkspaceInfo, mbind, M_bind, caught, on_fs.
  destruct (WriteFile w file _ 384 (ag_fs a)) as [[[]|?| |] f] eqn:Hw; [|done..].
  intros [= <-]. cbn. split; [by eapply WriteFile_holds|by rewrite lookup_insert_eq].
Qed.

Lemma on_fs_Ok {X} (c : M fs X) a x a' : on_fs c a = (Ok x, a') → ∃ f, c (ag_fs a) = (Ok x, f).
Proof. unfold on_fs. destruct (c (ag_fs a)) as [r f]. intros [= -> _]. by exists f. Qed.

(** The information apart from the options of the command line *)
Definition without_options (i : agent_info) : agent_info := {|
  g_info := let a := g_info i in {|
    ai_workspaceOrigin := ai_workspaceOrigin a; ai_workspace := ai_workspace a;
    ai_machine := ai_machine a; ai_cliOptions := no_cli; ai_agent := ai_agent a;
    ai_options := ai_options a; ai_contentFolder := ai_contentFolder a; ai_origin := ai_origin a;
    ai_injectTimeout := ai_injectTimeout a; ai_registryCache := ai_registryCache a |};
  g_last := g_last i; g_git := g_git i |}.

(** C23: The information a client sends about a workspace is on the disk after it was received,
    apart from the options of the command line, which are not meant to be stored (but are:
    [options_stored]): the configuration file, which was just touched, reads as what was sent,
    with the folder for the contents.  The encoding is assumed to be read back, and the file
    to open. *)
Theorem WriteWorkspaceInfo_reads encoded i0 a i a' :
  DecodeWorkspaceInfo w encoded = Ok i0 →
  (∀ c, j_Unmarshal (aw_json w) (j_Marshal (aw_json w) (with_content c i0)) = inr (with_content c i0)) →
  WriteWorkspaceInfo w encoded a = (Ok (Some i), a') →
  let file := filepath_Join [ai_origin (g_info i); WorkspaceConfigFile] in
  fy_fail fy OpOpen file = None →
  (∃ stored, ParseAgentWorkspaceInfo w file (ag_fs a') = (Ok stored, ag_fs a') ∧
     without_options stored = without_options (with_origin (path_Dir file) i)) ∧
  ag_touched a' !! file = Some (ag_now a') ∧
  ∃ content, i = with_origin (ai_origin (g_info i)) (with_content content i0).
Proof.
  intros Hdec Hjson Hrun. unfold WriteWorkspaceInfo, decodeWorkspaceInfoAndWrite in Hrun.
  unfold liftR in Hrun at 1. rewrite Hdec in Hrun. unfold mbind at 1, M_bind at 1 in Hrun.
  apply M_bind_Ok in Hrun as (r & a2 & _ & Hrun). apply M_bind_Ok in Hrun as (exit & a3 & _ & Hrun).
  destruct exit; [done|]. apply M_bind_Ok in Hrun as (dir & a4 & _ & Hrun).
  apply M_bind_Ok in Hrun as (dir' & a5 & [= <- <-] & Hrun).
  apply M_bind_Ok in Hrun as (i1 & a6 & Hch & Hrun). apply M_bind_Ok in Hrun as ([] & a7 & Hwr & Hi).
  injection Hi as <- <-. apply writeWorkspaceInfo_Ok in Hwr as [Hh Ht].
  apply on_fs_Ok in Hch as (fc & Hch). apply choose_content_spec in Hch as [_ Hch].
  destruct (Hch i1 eq_refl) as (c & ->). intros file Hopen.
  change file with (filepath_Join [dir; WorkspaceConfigFile]) in *. clear file. split_and!.
  - eexists. unfold ParseAgentWorkspaceInfo.
    rewrite (run_Ok _ _ _ _ _ (ReadFile_holds _ _ _ _ Hopen Hh)). by rewrite Hjson.
  - exact Ht.
  - by exists c.
Qed.
End Info.

(** ** Some machines *)

Definition demo_info (id source_folder repo timeout : string) (shutdown : StrArray)
    (binaries : Provider.Binaries) (accessKey content : string) : agent_info := {|
  g_info := {|
    ai_workspaceOrigin := "/laptop"; ai_machine := None; ai_options := ∅; ai_origin := "";
    ai_injectTimeout := 0; ai_registryCache := ""; ai_contentFolder := content;
    ai_workspace := {|
      w_id := id; w_uid := "uid-" +:+ id; w_picture := "";
      w_provider := {| wpr_name := "aws"; wpr_options := None |};
      w_machine := {| wm_id := ""; wm_autoDelete := false |};
      w_ide := {| wi_name := ""; wi_options := None |};
      w_source := {| ws_gitRepository := repo; ws_gitBranch := ""; ws_gitCommit := "";
        ws_gitPRReference := ""; ws_gitSubPath := ""; ws_localFolder := source_folder;
        ws_image := ""; ws_container := "" |};
      w_devContainerImage := ""; w_devContainerPath := ""; w_devContainerConfig := None;
      w_creationTimestamp := 0; w_lastUsedTimestamp := 0; w_context := "default";
      w_imported := false; w_origin := ""; w_pro := None; w_sshConfigPath := "" |};
    ai_cliOptions := platform_cli {| po_enabled := false; po_accessKey := accessKey;
      po_workspaceHost := ""; po_platformHost := ""; po_environmentTemplate := "";
      po_environmentTemplateVersion := ""; po_build := None |};
    ai_agent := {|
      a_local := "false"; a_path := "/usr/local/bin/devpod"; a_dataPath := "/opt/agent";
      a_downloadURL := ""; a_timeout := timeout; a_containerTimeout := "";
      a_injectGitCredentials := ""; a_injectDockerCredentials := "";
      a_exec := {| ae_shutdown := shutdown |}; a_binaries := binaries;
      a_dockerless := a_dockerless zero_agent; a_driver := ""; a_docker := a_docker zero_agent;
      a_custom := a_custom zero_agent; a_kubernetes := a_kubernetes zero_agent |} |};
  g_last := None;
  g_git := {| pg_sshKeys := []; pg_cloneStrategy := ""; pg_skipLFS := false; pg_runnerSocket := "" |} |}.
(** A machine where the agent is root, with the JSON of one kind of information *)
Definition demo_agent (j : json agent_info) (stream : string + Extract.stream)
    (git : Git.command → string + unit) (ignored : list string) : agent_world := {|
  aw_bin := demo_bw ""; aw_env := OptionsProps.demo_sys; aw_DEVPOD_HOME := "";
  aw_userHome := "/root"; aw_rootHome := "/root"; aw_executable := inr "/usr/local/bin/devpod";
  aw_uid := 0; aw_script := λ _ _, inr "DevPod"; aw_exists := λ _, true;
  aw_dockerPs := λ _ _, None; aw_fails := λ _, None; aw_git := λ _, git;
  aw_checkout := λ f _, <[["work"; "repo"] := Dir 493]> f; aw_gitcache := λ _ f, f;
  aw_keyFile := λ n, "/tmp/key" +:+ pretty n; aw_QuoteCommand := λ c, GoStrings.Join c " ";
  aw_Decompress := inr; aw_json := j; aw_ignore := λ _, inr ignored; aw_stream := stream;
  aw_crane := λ _, false; aw_deleteFolder := λ _, None |}.
(** Two workspaces: [a] may be idle for 10 minutes, [b] for two hours. *)
Definition demo_two : json agent_info := {|
  j_Marshal := λ i, w_id (ai_workspace (g_info i));
  j_Unmarshal := λ s, if decide (s = "a") then inr (demo_info "a" "" "" "10m" (Some ["stop a"]) None "" "")
                      else inr (demo_info "b" "" "" "2h" (Some ["stop b"]) None "" "") |}.
Definition demo_daemon : agent_world := demo_agent demo_two (inl "closed") (λ _, inr ()) [].
Definition base : path := ["opt"; "agent"; "contexts"; "default"; "workspaces"].
Definition demo_files : fs :=
  {[ ["opt"] := Dir 493; ["opt"; "agent"] := Dir 493; ["opt"; "agent"; "contexts"] := Dir 493;
     ["opt"; "agent"; "contexts"; "default"] := Dir 493; base := Dir 493;
     base ++ ["a"] := Dir 493; base ++ ["a"; "workspace.json"] := File 384 "a";
     base ++ ["b"] := Dir 493; base ++ ["b"; "workspace.json"] := File 384 "b" ]}.
Definition config_a : string := "/opt/agent/contexts/default/workspaces/a/workspace.json".
Definition config_b : string := "/opt/agent/contexts/default/workspaces/b/workspace.json".
(** After [minutes], where [a] and [b] were used after [used_a] and [used_b] *)
Definition demo_state (minutes used_a used_b : Z) : agent :=
  Agent demo_files {[config_a := (used_a * minute)%Z; config_b := (used_b * minute)%Z]}
    (minutes * minute)%Z [].
Definition shutdowns (a : agent) : list string :=
  omap (λ e, match e with Shutdown i _ _ => Some (w_id (ai_workspace (g_info i))) | _ => None end)
    (ag_events a).

Definition demo_late : agent := demo_state 200 30 0.
Definition info_a : agent_info := with_origin "/opt/agent/contexts/default/workspaces/a"
  (demo_info "a" "" "" "10m" (Some ["stop a"]) None "" "").
Definition info_b : agent_info := with_origin "/opt/agent/contexts/default/workspaces/b"
  (demo_info "b" "" "" "2h" (Some ["stop b"]) None "" "").
Lemma demo_activities m t i :
  m ∈ configs demo_daemon "/opt/agent" demo_late → activity demo_daemon demo_late m = Some (t, i) →
  (t = 30 * minute ∧ i = info_a ∨ t = 0 ∧ i = info_b)%Z.
Proof.
  replace (configs _ _ _) with [config_a; config_b] by (vm_compute; reflexivity).
  assert (activity demo_daemon demo_late config_a = Some (30 * minute, info_a)%Z) as Ha
    by (vm_compute; reflexivity).
  assert (activity demo_daemon demo_late config_b = Some (0%Z, info_b)) as Hb
    by (vm_compute; reflexivity).
  intros [->|[->|[]%elem_of_nil]%elem_of_cons]%elem_of_cons; rewrite ?Ha, ?Hb; intros [= <- <-]; auto.
Qed.
(** After 200 minutes both are idle. *)
Lemma daemon_stops_idle_witness : ∃ i environ,
  ag_events (doOnce demo_daemon "/opt/agent" demo_late).2 = [Shutdown i (shutdown_command i) environ].
Proof.
  apply (daemon_stops_idle demo_daemon "/opt/agent" demo_late config_a (30 * minute)%Z info_a).
  - replace (configs _ _ _) with [config_a; config_b] by (vm_compute; reflexivity). by left.
  - vm_compute. reflexivity.
  - intros m t i Hm [[-> ->]|[-> ->]]%demo_activities; [..|done];
      (split; [vm_compute; discriminate|eexists; vm_compute; reflexivity]).
Defined.
(** The daemon starts after 200 minutes, and does nothing in the next nine. *)
Lemma patrol_waits_witness : ag_events (patrol demo_daemon 9 "/opt/agent" "60s" demo_late).2 = [].
Proof.
  apply (patrol_waits demo_daemon "/opt/agent" "60s" 9 demo_late).
  intros m t i Hm [[-> ->]|[-> ->]]%demo_activities; [vm_compute; reflexivity..|done].
Defined.
(** In the tenth minute it stops the machine. *)
Example patrol_stops :
  shutdowns (patrol demo_daemon 10 "/opt/agent" "60s" demo_late).2 = ["a"].
Proof. vm_compute. reflexivity. Qed.
(** Only the timeout of the workspace used last counts: [b] was to stay for two hours. *)
Example other_timeout : shutdowns (doOnce demo_daemon "/opt/agent" (demo_state 45 30 0)).2 = ["a"].
Proof. vm_compute. reflexivity. Qed.

Definition demo_local : agent_info := demo_info "c" "/home/me/c" "" "" None None "s3cret" "".
Definition json_content : json agent_info := {|
  j_Marshal := λ i, ai_contentFolder (g_info i);
  j_Unmarshal := λ s, inr (with_content s demo_local) |}.
Definition demo_start : agent := Agent demo_files ∅ 0 [].

Lemma WriteWorkspaceInfo_reads_witness :
  let w := demo_agent json_content (inl "closed") (λ _, inr ()) [] in
  let a' := (WriteWorkspaceInfo w "" demo_start).2 in
  ∃ i, (WriteWorkspaceInfo w "" demo_start).1 = Ok (Some i) ∧
    ai_contentFolder (g_info i) = "/opt/agent/contexts/default/workspaces/c/content" ∧
    ∃ stored, (ParseAgentWorkspaceInfo w "/opt/agent/contexts/default/workspaces/c/workspace.json"
                 (ag_fs a')).1 = Ok stored ∧ without_options stored = without_options i.
Proof.
  intros w a'. destruct (WriteWorkspaceInfo w "" demo_start) as [r a1] eqn:Hrun.
  assert (∃ i, r = Ok (Some i) ∧ ai_origin (g_info i) = "/opt/agent/contexts/default/workspaces/c" ∧
    ai_contentFolder (g_info i) = "/opt/agent/contexts/default/workspaces/c/content")
    as (i & -> & Ho & Hc).
  { replace r with (WriteWorkspaceInfo w "" demo_start).1 by (by rewrite Hrun).
    eexists. split; [vm_compute; reflexivity|]. split; vm_compute; reflexivity. }
  pose proof (WriteWorkspaceInfo_reads w "" demo_local demo_start i a1 eq_refl (λ _, eq_refl) Hrun
    eq_refl) as ((stored & Hp & Hst) & _ & _).
  assert (with_origin (ai_origin (g_info i)) i = i) as Hi by (by destruct i as [[]]).
  rewrite Ho in Hp, Hst, Hi. exists i. split; [done|]. split; [done|]. exists stored.
  split; [exact (f_equal fst Hp)|]. rewrite <- Hi. exact Hst.
Defined.
(** The options of the command line are stored with the rest. *)
Example options_stored :
  let json_key := {| j_Marshal := λ i, po_accessKey (cli_platform (ai_cliOptions (g_info i)));
                     j_Unmarshal := λ _, inr demo_local |} in
  let w := demo_agent json_key (inl "closed") (λ _, inr ()) [] in
  get (ag_fs (WriteWorkspaceInfo w "" demo_start).2) (base ++ ["c"; "workspace.json"]) =
    Some (File 384 "s3cret").
Proof. vm_compute. reflexivity. Qed.

(** A local folder that could not be transferred is not transferred again by the next "up". *)
Example local_folder_lost :
  let entry := {| e_Header := {| h_Name := "main.go"; h_Typeflag := TypeReg; h_Linkname := "";
                    h_Mode := 420 |}; e_Body := "package main"; e_Error := None |} in
  let broken := demo_agent json_content (inl "closed") (λ _, inr ()) [] in
  let works := demo_agent json_content (inr (Tar [entry] None)) (λ _, inr ()) [] in
  let '(r1, a1) := UpCmd_Run broken "" "" demo_start in
  let '(r2, a2) := UpCmd_Run works "" "" a1 in
  let '(r3, a3) := UpCmd_Run works "" "" demo_start in
  r1 = Err "read workspace: closed" ∧ r2 = Ok () ∧ r3 = Ok () ∧
  get (ag_fs a2) (base ++ ["c"; "content"; "main.go"]) = None ∧
  get (ag_fs a3) (base ++ ["c"; "content"; "main.go"]) = Some (File 420 "package main").
Proof. vm_compute. split_and!; reflexivity. Qed.
(** The lines of .devpodignore may name files outside of the clone. *)
Example ignored_outside :
  let w := demo_agent json_content (inl "closed") (λ _, inr ()) ["../../b"] in
  let f := <[base ++ ["a"; "content"] := Dir 493]>
             (<[base ++ ["a"; "content"; ".devpodignore"] := File 420 "../../b"]> demo_files) in
  let '(r, f') := apply_ignore w "/opt/agent/contexts/default/workspaces/a/content" f in
  r = Ok () ∧ get f (base ++ ["b"; "workspace.json"]) = Some (File 384 "b") ∧
  get f' (base ++ ["b"]) = None.
Proof. vm_compute. split_and!; reflexivity. Qed.
(** A folder created for the empty context is not found again. *)
Example empty_context :
  let '(r, f) := CreateAgentWorkspaceDir demo_daemon "/opt/agent" "" "x" demo_files in
  r = Ok "/opt/agent/contexts/workspaces/x" ∧
  (GetAgentWorkspaceDir demo_daemon "/opt/agent" "" "x" f).1 = Err ErrNotExist.
Proof. vm_compute. split; reflexivity. Qed.
(** A key that cannot be decoded leaves the keys before it on the disk. *)
Example key_left :
  let '(r, f) := write_keys demo_daemon 0 ["aGk="; "?"] (<[["tmp"] := Dir 511]> demo_files) in
  r = Err "illegal base64 data" ∧ get f ["tmp"; "key0"] = Some (File 256 "hi").
Proof. vm_compute. split; reflexivity. Qed.
