(* ===== verification/IdeServers.v ===== *)
(** * IDE servers in a container

    pkg/single, pkg/ide and its packages vscode, openvscode, jetbrains, fleet, jupyter and
    rstudio: what is installed in the container, and what is started there.  The state has
    the files, the processes that run, and what happened.  HTTP, archives, and what commands
    print and do to the files are parameters ([box_world]); the system is Linux. *)

From S2P Require Import Prelude GoStrings GoRegexp Types Config DevContainer Provider Options Home Ide Lifecycle FileTree Extract.
From stdpp Require Import base gmap sets list strings pretty.
From Stdlib Require Import ZArith.

Local Open Scope string_scope.
Local Open Scope list_scope.

(** ** The container *)

Inductive act :=
| Ran (args : list string)
| Spawned (args : list string) (dir : string)
| Got (url : string)
| Chowned (recursive : bool) (path user : string).
#[export] Instance act_eq_dec : EqDecision act.
Proof. solve_decision. Defined.
Record box := Box { b_fs : fs; b_alive : list Z; b_acts : list act }.

Record response := {
  hr_status : Z;
  hr_length : Z;
  hr_body : string;
  (** the error that reading the body ends with *)
  hr_cut : option string;
}.
Record box_world := {
  xw_fy : fsys;
  xw_arch : string;
  xw_TempDir : string;
  (** [command.GetHome], and [util.UserHomeDir] for the empty name *)
  xw_GetHome : string → string + string;
  xw_executable : string + string;
  (** [exec.LookPath], and which as a user *)
  xw_exists : fs → string → bool;
  xw_which : fs → string → string → bool;
  xw_get : string → string + response;
  (** the archive of a content and of the error reading it ends with *)
  xw_tar : string → option string → stream;
  (** the size [os.FileInfo] gives for a directory *)
  xw_dirSize : Z;
  (** the output and the error of a command, and the files after it *)
  xw_run : fs → list string → string * option string * fs;
  (** the process id of a command that is started *)
  xw_start : list act → list string → string + Z;
  (** the lines that a command prints until it closes its output *)
  xw_lines : list string → list string;
  (** [flock.TryLock] when no other call holds the lock *)
  xw_lock : string → string + bool;
  xw_chown : bool → string → string → option string;
  (** the files after others have worked on them for three seconds *)
  xw_wait : fs → fs;
  (** encoding/json on the preferences of RStudio *)
  xw_prefs : string → string;
}.

Section Box.
Context (x : box_world).
Notation fy := (xw_fy x).
Notation X := (M box).

Definition on {A} (c : M fs A) : X A :=
  zoom b_fs (λ f b, Box f (b_alive b) (b_acts b)) c.
Definition did (a : act) : X unit := modifyS (λ b, Box (b_fs b) (b_alive b) (b_acts b ++ [a])).

(** [os.WriteFile] *)
Definition write_file (p content : string) (perm : N) : M fs unit :=
  q ← create fy p perm; fill q content.
(** The output and the error of a command *)
Definition run_cmd (args : list string) : X (string * option string) :=
  b ← getS;
  let '(out, err, f) := xw_run x (b_fs b) args in
  _ ← putS (Box f (b_alive b) (b_acts b ++ [Ran args]));
  mret (out, err).
Definition http_get (url : string) : X response := _ ← did (Got url); liftR (of_sum (xw_get x url)).
(** pkg/copy: [Chown] and [ChownR] *)
Definition chown (recursive : bool) (p user : string) : X unit :=
  if decide (user = "") then mret ()
  else match xw_chown x recursive p user with
       | Some e => throw e
       | None => did (Chowned recursive p user)
       end.

Definition as_user (userName runCommand : string) : list string :=
  if decide (userName ≠ "") then ["su"; userName; "-c"; runCommand] else ["sh"; "-c"; runCommand].
Definition as_login_user (userName runCommand : string) : list string :=
  if decide (userName ≠ "") then ["su"; userName; "-w"; "SSH_AUTH_SOCK"; "-l"; "-c"; runCommand]
  else ["sh"; "-l"; "-c"; runCommand].

(** pkg/command *)
Definition Exists (cmd : string) : X bool := b ← getS; mret (xw_exists x (b_fs b) cmd).
Definition ExistsForUser (cmd user : string) : X bool :=
  if decide (user = "") then Exists cmd else b ← getS; mret (xw_which x (b_fs b) cmd user).
Definition IsRunning (pid : string) : X bool :=
  match Atoi pid with
  | None => throw ("parsing " +:+ pid +:+ ": invalid syntax")
  | Some pid => b ← getS; mret (bool_decide (pid ∈ b_alive b))
  end.

(** ** pkg/single

    [single_] is a call that no other call interleaves with; it says whether [createCommand]
    was called, which gives the arguments and the directory of the command.  Calls that
    interleave, and the lock they share, are in [Calls] below. *)
Definition prepare_command (file : string) (createCommand : X (list string * string))
    : X (list string * string) :=
  cmd ← createCommand; _ ← on (create fy (file +:+ ".streams") 438); mret cmd.
Definition start_process (cmd : list string * string) : X Z :=
  b ← getS;
  pid ← liftR (of_sum (xw_start x (b_acts b) cmd.1));
  _ ← putS (Box (b_fs b) (pid :: b_alive b) (b_acts b ++ [Spawned cmd.1 cmd.2]));
  mret pid.
Definition write_pid (file : string) (pid : Z) : X unit := on (write_file file (pretty pid) 511).
Definition already_running (file : string) : X bool :=
  r ← caught (on (ReadFile fy file));
  match r with
  | Ok pid => IsRunning pid
  | Err e => if decide (e = ENOENT) then mret false else throw e
  | Panic => liftR Panic
  | NoFuel => liftR NoFuel
  end.
Definition single_ (file : string) (createCommand : X (list string * string)) : X bool :=
  let file := filepath_Join [xw_TempDir x; file] in
  locked ← liftR (wrap "acquire lock" (of_sum (xw_lock x (file +:+ ".lock"))));
  if negb locked then mret false
  else
    running ← already_running file;
    if running : bool then mret false
    else
      cmd ← prepare_command file createCommand;
      pid ← start_process cmd;
      _ ← write_pid file pid;
      mret true.
Definition Single (file : string) (createCommand : X (list string * string)) : X unit :=
  _ ← single_ file createCommand; mret ().

(** ** pkg/ide *)

Definition IDE_GetValue (o : gmap string IDEOption) (values : gmap string OptionValue)
    (key : string) : string :=
  let v := match values !! key with Some v => ov_value v | None => "" end in
  if decide (v ≠ "") then v else match o !! key with Some opt => io_default opt | None => "" end.
Definition ReusesAuthSock (ide : string) : bool :=
  bool_decide (ide = "openvscode" ∨ ide = "jupyternotebook").
Definition ide_option (description dflt : string) (enum : list string) : IDEOption := {|
  io_description := description; io_default := dflt; io_enum := enum;
  io_validationPattern := ""; io_validationMessage := "" |}.
Definition home_of (userName : string) : X string := liftR (of_sum (xw_GetHome x userName)).
(** The folder of a server in the home of the user *)
Definition server_location (folderName userName : string) (create_ : bool) : X string :=
  homeFolder ← home_of userName;
  let folder := filepath_Join [homeFolder; folderName] in
  _ ← (if create_ then on (MkdirAll fy folder 493) else mret ());
  mret folder.

(** ** pkg/ide/vscode *)

Definition FlavorStable : string := "stable".
Definition FlavorInsiders : string := "insiders".
Definition FlavorCursor : string := "cursor".
Definition FlavorPositron : string := "positron".
Definition FlavorCodium : string := "codium".
Definition FlavorWindsurf : string := "windsurf".

Definition alpine_release : string := "ID=alpine".
Definition apk_dependencies (os_release : string) (git bash curl : bool) : list string :=
  ["build-base"] ++ (if Contains os_release alpine_release then [] else ["gcompat"]) ++
  (if git then [] else ["git"]) ++ (if bash then [] else ["bash"]) ++
  (if curl then [] else ["curl"]).
(** Errors are only logged. *)
Definition InstallAPKRequirements : X unit :=
  apk ← Exists "apk";
  if negb apk then mret ()
  else
    all ← caught (on (ReadFile fy "/etc/os-release"));
    match all with
    | Ok all =>
        git ← Exists "git"; bash ← Exists "bash"; curl ← Exists "curl";
        _ ← run_cmd ["sh"; "-c"; "apk update && apk add " +:+
                     GoStrings.Join (apk_dependencies all git bash curl) " "];
        mret ()
    | _ => mret ()
    end.

Record VsCodeServer := {
  vc_extensions : list string;
  vc_settings : string;
  vc_userName : string;
  vc_flavor : string;
}.
Definition NewVSCodeServer (extensions : list string) (settings userName flavor : string)
    : VsCodeServer := {|
  vc_extensions := extensions; vc_settings := settings; vc_userName := userName;
  vc_flavor := if decide (flavor = "") then FlavorStable else flavor |}.

Definition vscode_folder (flavor : string) : string :=
  if decide (flavor = FlavorStable) then ".vscode-server"
  else if decide (flavor = FlavorInsiders) then ".vscode-server-insiders"
  else if decide (flavor = FlavorCursor) then ".cursor-server"
  else if decide (flavor = FlavorPositron) then ".positron-server"
  else if decide (flavor = FlavorCodium) then ".vscodium-server"
  else if decide (flavor = FlavorWindsurf) then ".windsurf-server"
  else ".vscode-server".
Definition prepareServerLocation (userName : string) (create_ : bool) (flavor : string) : X string :=
  server_location (vscode_folder flavor) userName create_.

Definition vscode_Install (o : VsCodeServer) : X unit :=
  location ← prepareServerLocation (vc_userName o) true (vc_flavor o);
  let settingsDir := filepath_Join [location; "data"; "Machine"] in
  _ ← on (MkdirAll fy settingsDir 493);
  let settingsFile := filepath_Join [settingsDir; "settings.json"] in
  installed ← on (exists_ fy settingsFile);
  if installed : bool then mret ()
  else
    _ ← InstallAPKRequirements;
    let settings := if decide (vc_settings o = "") then "{}" else vc_settings o in
    _ ← on (write_file settingsFile settings 384);
    r ← caught (chown true location (vc_userName o));
    liftR (wrap "chown" r).

(** The last directory of the listing with the prefix *)
Definition last_dir (f : fs) (dir prefix : string) (entries : list string) : string :=
  default "" (last (filter (λ p, is_dir (stat_node f false p))
    ((λ e, filepath_Join [dir; e]) <$> filter (λ e, HasPrefix e prefix) entries))).
(** A binary answers --help. *)
Definition works (binPath : string) : X bool :=
  '(_, err) ← run_cmd [binPath; "--help"]; mret (match err with None => true | Some _ => false end).
Definition findCodeServerBinary (location : string) : X string :=
  let serversDir := filepath_Join [location; "cli"; "servers"] in
  r ← caught (on (ReadDir fy serversDir));
  entries ← liftR (wrap ("read dir " +:+ serversDir) r);
  if decide (entries = []) then throw ("read dir " +:+ serversDir +:+ ": install dir is missing")
  else
    b ← getS;
    let stableDir := last_dir (b_fs b) serversDir "Stable-" entries in
    if decide (stableDir = "") then throw ("read dir " +:+ serversDir +:+ ": install dir is missing")
    else
      let binPath := filepath_Join [stableDir; "server"; "bin"; "code-server"] in
      ok ← works binPath;
      if ok : bool then mret binPath else throw ("execute " +:+ binPath).

(** One pass of a loop: whether it ends, and the path it leaves *)
Definition legacy_attempt (location binary binPath : string) : X (bool * string) :=
  let binDir := filepath_Join [location; "bin"] in
  entries ← caught (on (ReadDir fy binDir));
  match entries with
  | Ok (e :: _) =>
      let binPath := filepath_Join [binDir; e; "bin"; binary] in
      ok ← works binPath; mret (ok, binPath)
  | _ =>
      r ← caught (findCodeServerBinary location);
      match r with Ok newBinPath => mret (true, newBinPath) | _ => mret (false, binPath) end
  end.
Definition insiders_attempt (location binPath : string) : X (bool * string) :=
  let serversDir := filepath_Join [location; "cli"; "servers"] in
  entries ← caught (on (ReadDir fy serversDir));
  match entries with
  | Ok ((_ :: _) as entries) =>
      b ← getS;
      let insidersDir := last_dir (b_fs b) serversDir "Insiders-" entries in
      if decide (insidersDir = "") then mret (false, binPath)
      else
        let binPath := filepath_Join [insidersDir; "server"; "bin"; "code-server-insiders"] in
        ok ← works binPath; mret (ok, binPath)
  | _ => mret (false, binPath)
  end.
(** The deadline of ten minutes is a number of passes, with three seconds after each. *)
Fixpoint until_deadline (passes : nat) (attempt : string → X (bool * string)) (binPath : string)
    : X string :=
  match passes with
  | 0 => mret binPath
  | S passes =>
      '(ok, binPath) ← attempt binPath;
      if ok : bool then mret binPath
      else
        _ ← modifyS (λ b, Box (xw_wait x (b_fs b)) (b_alive b) (b_acts b));
        until_deadline passes attempt binPath
  end.
Definition server_binary (flavor : string) : option string :=
  if decide (flavor = FlavorStable) then Some "code-server"
  else if decide (flavor = FlavorCursor) then Some "cursor-server"
  else if decide (flavor = FlavorPositron) then Some "positron-server"
  else if decide (flavor = FlavorCodium) then Some "codium-server"
  else None.
Definition findServerBinaryPath (passes : nat) (flavor location : string) : X string :=
  match server_binary flavor with
  | Some binary => until_deadline passes (legacy_attempt location binary) ""
  | None =>
      if decide (flavor = FlavorInsiders) then until_deadline passes (insiders_attempt location) ""
      else mret ""
  end.
(** An extension that fails is only logged. *)
Definition vscode_InstallExtensions (passes : nat) (o : VsCodeServer) : X unit :=
  location ← prepareServerLocation (vc_userName o) false (vc_flavor o);
  binPath ← findServerBinaryPath passes (vc_flavor o) location;
  if decide (binPath = "") then throw "unable to locate server binary in workspace"
  else forM_ (vc_extensions o) (λ extension,
    _ ← run_cmd (as_user (vc_userName o)
      (binPath +:+ " serve-local --accept-server-license-terms --install-extension '" +:+
       extension +:+ "'"));
    mret ()).

(** ** pkg/ide/openvscode *)

Definition yes_no : list string := ["true"; "false"].
Definition OpenVSCode_Options : gmap string IDEOption := {[
  "FORWARD_PORTS" := ide_option "If DevPod should automatically do port-forwarding" "true" yes_no;
  "BIND_ADDRESS" := ide_option "The address to bind VSCode web to locally. E.g. 0.0.0.0:12345" "" [];
  "VERSION" := ide_option "The version for the open vscode binary" "v1.84.2" [];
  "OPEN" := ide_option "If DevPod should automatically open the browser" "true" yes_no;
  "DOWNLOAD_ARM64" := ide_option "The download url for the arm64 vscode server binary" "" [];
  "DOWNLOAD_AMD64" := ide_option "The download url for the amd64 vscode server binary" "" [] ]}.
Definition DefaultVSCodePort : Z := 10800.

Record OpenVSCodeServer := {
  oc_values : gmap string OptionValue;
  oc_extensions : list string;
  oc_settings : string;
  oc_userName : string;
  oc_host : string;
  oc_port : string;
}.
Definition openvscode_template (arch version : string) : string :=
  "https://github.com/gitpod-io/openvscode-server/releases/download/openvscode-server-" +:+
  version +:+ "/openvscode-server-" +:+ version +:+ "-linux-" +:+ arch +:+ ".tar.gz".
Definition getReleaseUrl (o : OpenVSCodeServer) : string :=
  let version := IDE_GetValue OpenVSCode_Options (oc_values o) "VERSION" in
  if decide (xw_arch x = "arm64") then
    let url := IDE_GetValue OpenVSCode_Options (oc_values o) "DOWNLOAD_ARM64" in
    if decide (url = "") then openvscode_template "arm64" version else url
  else
    let url := IDE_GetValue OpenVSCode_Options (oc_values o) "DOWNLOAD_AMD64" in
    if decide (url = "") then openvscode_template "x64" version else url.
Definition prepareOpenVSCodeServerLocation (userName : string) : X string :=
  server_location ".openvscode-server" userName true.
Definition installSettings (o : OpenVSCodeServer) : X unit :=
  if decide (oc_settings o = "") then mret ()
  else
    location ← prepareOpenVSCodeServerLocation (oc_userName o);
    let settingsDir := filepath_Join [location; "data"; "Machine"] in
    _ ← on (MkdirAll fy settingsDir 493);
    _ ← on (write_file (filepath_Join [settingsDir; "settings.json"]) (oc_settings o) 384);
    chown true location (oc_userName o).
(** The status of the response is not looked at. *)
Definition openvscode_Install (o : OpenVSCodeServer) : X unit :=
  location ← prepareOpenVSCodeServerLocation (oc_userName o);
  installed ← on (exists_ fy (filepath_Join [location; "bin"]));
  if installed : bool then mret ()
  else
    _ ← InstallAPKRequirements;
    resp ← http_get (getReleaseUrl o);
    r ← caught (on (Extract fy (xw_tar x (hr_body resp) (hr_cut resp)) location (StripLevels 1)));
    _ ← liftR (wrap "extract vscode" r);
    r ← caught (chown true location (oc_userName o));
    _ ← liftR (wrap "chown" r);
    r ← caught (installSettings o);
    liftR (wrap "install settings" r).
Definition openvscode_InstallExtensions (o : OpenVSCodeServer) : X unit :=
  match oc_extensions o with
  | [] => mret ()
  | extensions =>
      r ← caught (prepareOpenVSCodeServerLocation (oc_userName o));
      location ← liftR (wrap "install extensions" r);
      let binaryPath := filepath_Join [location; "bin"; "openvscode-server"] in
      forM_ extensions (λ extension,
        _ ← run_cmd (as_user (oc_userName o)
              (binaryPath +:+ " --install-extension '" +:+ extension +:+ "'"));
        mret ())
  end.
Definition openvscode_Start (o : OpenVSCodeServer) : X unit :=
  location ← prepareOpenVSCodeServerLocation (oc_userName o);
  let host := if decide (oc_host o = "") then "0.0.0.0" else oc_host o in
  let port := if decide (oc_port o = "") then pretty DefaultVSCodePort else oc_port o in
  let binaryPath := filepath_Join [location; "bin"; "openvscode-server"] in
  r ← caught (on (stat_ fy true binaryPath));
  n ← liftR (wrap "find binary" r);
  match n with
  | None => throw ("find binary: " +:+ ENOENT)
  | Some _ =>
      Single "openvscode.pid" (mret (as_user (oc_userName o)
        (binaryPath +:+ " server-local --without-connection-token --host '" +:+ host +:+
         "' --port '" +:+ port +:+ "'"), location))
  end.

(** ** pkg/ide/jetbrains *)

(** What the packages of the products differ in: the code, the templates around the
    version, and the name. *)
Record product := {
  pr_code : string;
  pr_template : string;
  pr_ID : string;
  pr_DisplayName : string;
}.
Definition jb (code template id name : string) : product := {|
  pr_code := code; pr_template := "https://download.jetbrains.com/" +:+ template;
  pr_ID := id; pr_DisplayName := name |}.
Definition GolandServer := jb "GO" "go/goland-" "goland" "Goland".
Definition CLionServer := jb "CL" "cpp/CLion-" "clion" "CLion".
Definition DataSpellServer := jb "DS" "ds/dataspell-" "dataspell" "DataSpell".
Definition Intellij := jb "IU" "idea/ideaIU-" "intellij" "Intellij".
Definition PhpStorm := jb "PS" "webide/PhpStorm-" "phpstorm" "PhpStorm".
Definition PyCharmServer := jb "PY" "python/pycharm-professional-" "pycharm" "PyCharm".
Definition RiderServer := jb "RD" "rider/JetBrains.Rider-" "rider" "Rider".
Definition RubyMineServer := jb "RM" "ruby/RubyMine-" "rubymine" "RubyMine".
Definition RustRoverServer := jb "RR" "rust/rustrover-" "rustrover" "RustRover".
Definition WebStormServer := jb "WS" "webstorm/WebStorm-" "webstorm" "WebStorm".

Definition JetBrains_Options : gmap string IDEOption := {[
  "VERSION" := ide_option "The version for the binary" "latest" [];
  "DOWNLOAD_ARM64" := ide_option "The download url for the arm64 server binary" "" [];
  "DOWNLOAD_AMD64" := ide_option "The download url for the amd64 server binary" "" [] ]}.
Definition getLatestDownloadURL (code platform : string) : string :=
  "https://download.jetbrains.com/product?code=" +:+ code +:+ "&platform=" +:+ platform.
(** The urls for amd64 and arm64 *)
Definition getDownloadURLs (p : product) (values : gmap string OptionValue) : string * string :=
  let version := IDE_GetValue JetBrains_Options values "VERSION" in
  if decide (version = "latest") then
    (getLatestDownloadURL (pr_code p) "linux", getLatestDownloadURL (pr_code p) "linuxARM64")
  else
    let amd64 := IDE_GetValue JetBrains_Options values "DOWNLOAD_AMD64" in
    let arm64 := IDE_GetValue JetBrains_Options values "DOWNLOAD_ARM64" in
    (if decide (amd64 = "") then pr_template p +:+ version +:+ ".tar.gz" else amd64,
     if decide (arm64 = "") then pr_template p +:+ version +:+ "-aarch64.tar.gz" else arm64).

Definition getDirectory (p : product) (baseFolder : string) : string :=
  filepath_Join [baseFolder; ".cache"; "JetBrains"; "RemoteDev"; "dist"; pr_ID p].
Definition getDownloadFolder (p : product) : string := "/var/devpod/" +:+ pr_ID p.
Definition size_of (n : node) : Z :=
  match n with
  | File _ content => Z.of_nat (String.length content)
  | _ => xw_dirSize x
  end.
(** A body is written to a file; what was read before an error stays there. *)
Definition save_body (what targetPath : string) (resp : response) : X unit :=
  q ← on (create fy targetPath 438);
  _ ← on (fill q (hr_body resp));
  match hr_cut resp with Some e => throw (what +:+ ": " +:+ e) | None => mret () end.
(** Whether a file is there whose size is the length of the response *)
Definition same_size (targetPath : string) (resp : response) : X bool :=
  stat ← caught (on (stat_ fy true targetPath));
  mret (match stat with Ok (Some n) => bool_decide (size_of n = hr_length resp) | _ => false end).
(** [errors.Wrapf] of no error is no error: a wrong status gives the empty path. *)
Definition jb_download (p : product) (values : gmap string OptionValue) : X string :=
  let targetFolder := getDownloadFolder p in
  _ ← on (MkdirAll fy targetFolder 511);
  let '(amd64, arm64) := getDownloadURLs p values in
  let downloadURL := if decide (xw_arch x = "arm64") then arm64 else amd64 in
  let targetPath := filepath_Join [targetFolder; pr_ID p +:+ ".tar.gz"] in
  r ← caught (http_get downloadURL);
  resp ← liftR (wrap "download binary" r);
  if decide (hr_status resp ≠ 200%Z ∧ hr_status resp ≠ 201%Z) then mret ""
  else
    same ← same_size targetPath resp;
    if same : bool then mret targetPath
    else _ ← save_body "download file" targetPath resp; mret targetPath.
Definition extractArchive (fromPath toPath : string) : X unit :=
  if decide (fromPath = "") then throw ENOENT
  else
    content ← on (ReadFile fy fromPath);
    on (Extract fy (xw_tar x content None) toPath (StripLevels 1)).
Definition jetbrains_Install (p : product) (userName : string) (values : gmap string OptionValue)
    : X unit :=
  baseFolder ← home_of userName;
  let targetLocation := getDirectory p baseFolder in
  installed ← on (exists_ fy targetLocation);
  if installed : bool then mret ()
  else
    archivePath ← jb_download p values;
    _ ← extractArchive archivePath targetLocation;
    r ← caught (chown true (filepath_Join [baseFolder; ".cache"]) userName);
    liftR (wrap "chown" r).

(** ** pkg/ide/fleet *)

Definition fleet_url (arch : string) : string :=
  "https://download.jetbrains.com/product?code=FLL&release.type=preview&release.type=eap&platform=" +:+ arch.
Definition Fleet_Options : gmap string IDEOption := {[
  "VERSION" := ide_option "The version of fleet to install" "latest" [];
  "DOWNLOAD_ARM64" := ide_option "The download url for the arm64 install script"
                        (fleet_url "linux_aarch64") [];
  "DOWNLOAD_AMD64" := ide_option "The download url for the amd64 install script"
                        (fleet_url "linux_x64") [] ]}.
Definition FleetURLFile : string := "/tmp/devpod-fleet.url.txt".
Definition fleet_command (values : gmap string OptionValue) (binaryPath location projectDir : string)
    : string :=
  let version := IDE_GetValue Fleet_Options values "VERSION" in
  binaryPath +:+ " launch workspace" +:+
  (if decide (version = "latest") then "" else " --workspace-version " +:+ version) +:+
  " -- --projectDir '" +:+ projectDir +:+ "' --cache-path '" +:+ location +:+
  "' --auth=accept-everyone --publish --enableSmartMode".
Definition startMonitor (userName : string) : X unit :=
  self ← liftR (of_sum (xw_executable x));
  Single "fleet-monitor.pid"
    (mret (as_user userName (self +:+ " helper fleet-server --workspaceid test"), "")).
(** The text from the first occurrence of [sub] *)
Fixpoint from_first (sub s : string) : option string :=
  if String.prefix sub s then Some s
  else match s with "" => None | String _ s' => from_first sub s' end.
Fixpoint first_url (lines : list string) : option string :=
  match lines with
  | [] => None
  | l :: ls => match from_first "https://fleet.jetbrains.com/" l with
               | Some u => Some (TrimSpace u)
               | None => first_url ls
               end
  end.
Definition fleet_Start (userName : string) (values : gmap string OptionValue)
    (binaryPath location projectDir : string) : X unit :=
  let args := as_user userName (fleet_command values binaryPath location projectDir) in
  wasStarted ← single_ "fleet.pid" (mret (args, location));
  if negb wasStarted then mret ()
  else match first_url (xw_lines x args) with
       | Some url => _ ← on (write_file FleetURLFile url 384); startMonitor userName
       | None => throw "seems like there was an error starting up fleet"
       end.
Definition fleet_Install (userName : string) (values : gmap string OptionValue) (projectDir : string)
    : X unit :=
  location ← server_location ".fleet-server" userName true;
  let fleetBinary := filepath_Join [location; "fleet"] in
  installed ← on (exists_ fy fleetBinary);
  if installed : bool then fleet_Start userName values fleetBinary location projectDir
  else
    let url := IDE_GetValue Fleet_Options values
      (if decide (xw_arch x = "arm64") then "DOWNLOAD_ARM64" else "DOWNLOAD_AMD64") in
    resp ← http_get url;
    if decide (hr_status resp ≠ 200%Z) then
      throw ("unexpected status code while trying to download fleet from " +:+ url +:+ ": " +:+
             pretty (hr_status resp))
    else
      q ← on (create fy fleetBinary 493);
      _ ← on (fill q (hr_body resp));
      match hr_cut resp with
      | Some e => throw ("download fleet: " +:+ e)
      | None =>
          r ← caught (chown true location userName);
          _ ← liftR (wrap "chown" r);
          fleet_Start userName values fleetBinary location projectDir
      end.

(** ** pkg/ide/jupyter *)

Definition DefaultJupyterPort : Z := 10700.
Definition installNotebook (userName : string) : X unit :=
  jupyter ← ExistsForUser "jupyter" userName;
  if jupyter : bool then mret ()
  else
    pip3 ← ExistsForUser "pip3" userName;
    pip ← (if pip3 : bool then mret false else ExistsForUser "pip" userName);
    if negb pip3 && negb pip then
      throw "seems like neither pip3 nor pip exists, please make sure to install python correctly"
    else
      '(_, err) ← run_cmd (as_user userName ((if pip3 : bool then "pip3" else "pip") +:+ " install notebook"));
      match err with
      | Some e => throw ("error installing jupyter notebook: " +:+ e)
      | None => mret ()
      end.
Definition jupyter_command (workspaceFolder : string) : string :=
  "jupyter notebook --ip='*' --NotebookApp.notebook_dir='" +:+ workspaceFolder +:+
  "' --NotebookApp.token='' --NotebookApp.password='' --no-browser --port '" +:+
  pretty DefaultJupyterPort +:+ "' --allow-root".
Definition jupyter_Start (workspaceFolder userName : string) : X unit :=
  Single "jupyter.pid"
    (mret (as_login_user userName (jupyter_command workspaceFolder), workspaceFolder)).
Definition jupyter_Install (workspaceFolder userName : string) : X unit :=
  _ ← installNotebook userName; jupyter_Start workspaceFolder userName.

(** ** pkg/ide/rstudio *)

Definition downloadFolder : string := "/var/devpod/rstudio-server".
Definition dataFolder : string := "/usr/local/share/devpod/rstudio-server/data".
Definition rstudioConfigFolder : string := "/etc/rstudio".
Definition defaultBinaryPathRStudioServer : string := "/usr/lib/rstudio-server/bin/rstudio-server".
Definition defaultBinaryPathRServer : string := "/usr/lib/rstudio-server/bin/rserver".

(** The codename between two line ends *)
Definition codenameRegEx : re :=
  Cat (chr "010") (Cat (lit "UBUNTU_CODENAME=")
    (Cat (Grp 1 (Star true (Chr (λ c, negb (bool_decide (c = "010"%char)))))) (chr "010"))).
Definition getDistroCodename : X string :=
  r ← caught (on (ReadFile fy "/etc/os-release"));
  all ← liftR (wrap "read /etc/os-release" r);
  if negb (Contains all "ID=ubuntu") then
    throw ("RStudio Server is only supported on ubuntu images, OS information is " +:+ all)
  else match FindStringSubmatch codenameRegEx all with
       | None => throw "unable to find ubuntu release codename"
       | Some m => mret (Trim (sub m 1) (String "034" ""))
       end.
Definition getDownloadURL (version ubuntuCodename architecture : string) : string :=
  "https://rstudio.org/download/latest/" +:+ version +:+ "/server/" +:+ ubuntuCodename +:+
  "/rstudio-server-latest-" +:+ architecture +:+ ".deb".
Definition deb_path : string := filepath_Join [downloadFolder; "rstudio-server.deb"].
Definition rstudio_download (downloadURL : string) : X string :=
  _ ← on (MkdirAll fy downloadFolder 511);
  r ← caught (http_get downloadURL);
  resp ← liftR (wrap "download deb" r);
  if decide (hr_status resp ≠ 200%Z ∧ hr_status resp ≠ 201%Z) then
    if decide (hr_status resp = 404%Z) then throw ("RStudio version doesn't exist: " +:+ downloadURL)
    else throw ("download binary returned status code " +:+ pretty (hr_status resp))
  else
    same ← same_size deb_path resp;
    if same : bool then mret deb_path
    else _ ← save_body "download file" deb_path resp; mret deb_path.
Definition downloadRStudioDeb (ubuntuCodename : string) : X string :=
  r ← caught (rstudio_download (getDownloadURL "stable" ubuntuCodename (xw_arch x)));
  liftR (wrap "download" r).
(** A command that has to succeed *)
Definition must (what : string) (args : list string) : X unit :=
  '(out, err) ← run_cmd args;
  match err with
  | Some e => throw (what +:+ ": " +:+ e +:+ ": " +:+ out)
  | None => mret ()
  end.
Definition ensureGdebi : X unit :=
  gdebi ← Exists "gdebi";
  if gdebi : bool then mret ()
  else
    _ ← must "apt update" ["apt"; "update"];
    must "install gdebi core" ["apt"; "-y"; "install"; "--no-install-recommends"; "gdebi-core"].
Definition link_binary (what target link : string) : X unit :=
  r ← caught (on (Symlink fy target link)); liftR (wrap ("symlink " +:+ what) r).
Definition installDeb (debPath : string) : X unit :=
  _ ← must "install deb" ["gdebi"; "--non-interactive"; debPath];
  _ ← must "stop initial RStudio process" [defaultBinaryPathRStudioServer; "stop"];
  _ ← link_binary "rstudio-server" defaultBinaryPathRStudioServer "/usr/local/bin/rstudio-server";
  link_binary "rserver" defaultBinaryPathRServer "/usr/local/bin/rserver".
Definition ensureConfigFolder (userName : string) : X unit :=
  _ ← on (MkdirAll fy dataFolder 511); chown true dataFolder userName.
Definition rserver_conf (userName configFolder : string) : string :=
  GoStrings.Join [
    "# https://docs.posit.co/ide/server-pro/access_and_security/server_permissions.html#running-without-permissions";
    "server-user=" +:+ userName; "auth-none=1"; "auth-minimum-user-id=0"; "";
    "server-data-dir=" +:+ configFolder;
    "database-config-file=" +:+ configFolder +:+ "/dbconf.conf"; ""] newline.
Definition setupSingleUserMode (configFolder userName : string) : X unit :=
  r ← caught (on (write_file (filepath_Join [configFolder; "dbconf.conf"])
        ("provider=sqlite" +:+ newline +:+ "directory=" +:+ configFolder) 511));
  _ ← liftR (wrap "save db conf" r);
  let serverConfPath := filepath_Join [rstudioConfigFolder; "rserver.conf"] in
  _ ← try_ (on (Remove fy serverConfPath));
  r ← caught (on (write_file serverConfPath (rserver_conf userName configFolder) 511));
  liftR (wrap "save rserver conf" r).
Definition setupPreferences (workspaceFolder userName : string) : X unit :=
  homeDir ← (match xw_GetHome x userName with inl _ => throw "get home dir" | inr h => mret h end);
  let prefsDir := filepath_Join [homeDir; ".config"; "rstudio"] in
  _ ← on (MkdirAll fy prefsDir 511);
  _ ← chown true prefsDir userName;
  let prefsPath := filepath_Join [prefsDir; "rstudio-prefs.json"] in
  r ← caught (on (write_file prefsPath (xw_prefs x workspaceFolder) 511));
  _ ← liftR (wrap "save preferences" r);
  chown false prefsPath userName.
Definition rstudio_Start (workspaceFolder userName : string) : X unit :=
  Single "rstudio.pid" (mret (as_login_user userName "rstudio-server start", workspaceFolder)).
(** The package is downloaded when it is not there; another error of [os.Stat] is
    left to the installer. *)
Definition rstudio_deb : X string :=
  stat ← caught (on (stat_ fy true deb_path));
  match stat with
  | Ok None => codename ← getDistroCodename; downloadRStudioDeb codename
  | _ => mret deb_path
  end.
Definition rstudio_Install (workspaceFolder userName : string) : X unit :=
  r ← ExistsForUser "R" userName;
  if negb r then throw "R has to be available in image to use RStudio"
  else
    installed ← ExistsForUser "rstudio-server" userName;
    if installed : bool then mret ()
    else
      _ ← ensureGdebi;
      debPath ← rstudio_deb;
      _ ← installDeb debPath;
      _ ← ensureConfigFolder userName;
      _ ← setupSingleUserMode dataFolder userName;
      _ ← setupPreferences workspaceFolder userName;
      rstudio_Start workspaceFolder userName.

(** ** cmd/helper/fleet_helper.go: one pass of the monitor

    It keeps the container awake while the last change says that a client is connected; a
    log without one makes it panic. *)
Definition dot : re := Chr (λ c, negb (bool_decide (c = "010"%char))).
Definition line_with (text : string) : re := Cat (Star true dot) (Cat (lit text) (Star true dot)).
Definition firstConnection : re := line_with "Received authorization request".
Definition connStatus : re := Grp 0 (line_with "Notify").
Definition ContainerActivityFile : string := "/tmp/devpod.activity".
Definition fleet_server_pass (home : string) : X unit :=
  r ← caught (on (ReadFile fy (filepath_Join [home; ".cache/JetBrains/Fleet/log/fleet.log"])));
  match r with
  | Ok log =>
      if negb (MatchString firstConnection log) then mret ()
      else match last (FindAllStringSubmatch connStatus log) with
           | None => liftR Panic
           | Some connString =>
               if Contains (sub connString 0) "is connected" then
                 try_ (_ ← on (create fy ContainerActivityFile 438); mret ())
               else mret ()
           end
  | _ => mret ()
  end.
End Box.

(** ** pkg/single: calls that interleave

    Any number of processes call [Single] with the same file.  One statement of a call runs at a
    time, in a world that may be another one each time; a call can be killed at any point, and
    the kernel then gives its lock back. *)
Module Calls.

Inductive call_at :=
| Begin                                (** at [TryLock] *)
| Locked                               (** at reading the pid file *)
| Creating                             (** at [createCommand] *)
| Starting (cmd : list string * string)
| Started (pid : Z)                    (** at writing the pid file *)
| Unlocking (r : result unit)          (** at the deferred [Unlock] *)
| Done (r : result unit).

Notation createCommand := (M box (list string * string)).
Record calls := CallsState {
  c_box : box;
  c_holder : option nat;
  c_calls : gmap nat (createCommand * call_at);
  (** the processes that run and that calls have started, without those of a call that was killed
      or failed before it wrote the pid file *)
  c_owned : gset Z;
}.
Definition with_box (b : box) (c : calls) : calls :=
  CallsState b (c_holder c) (c_calls c) (filter (λ pid, pid ∈ b_alive b) (c_owned c)).
Definition with_holder (h : option nat) (c : calls) : calls :=
  CallsState (c_box c) h (c_calls c) (c_owned c).
Definition with_owned (o : gset Z) (c : calls) : calls :=
  CallsState (c_box c) (c_holder c) (c_calls c) o.
Definition with_call (p : nat) (k : createCommand * call_at) (c : calls) : calls :=
  CallsState (c_box c) (c_holder c) (<[p := k]> (c_calls c)) (c_owned c).

Section Calls.
Context (x : box_world) (file : string).

(** A statement of the call, and where the call is if it succeeds; an error unlocks and is
    returned. *)
Definition statement {A} (s : M box A) (next : A → call_at) (c : calls) : calls * call_at :=
  let '(r, b) := s (c_box c) in
  (with_box b c,
   match r with
   | Ok a => next a
   | Err e => Unlocking (Err e)
   | Panic => Unlocking Panic
   | NoFuel => Unlocking NoFuel
   end).
Definition call_step (p : nat) (create : createCommand) (at_ : call_at) (c : calls)
    : option (calls * call_at) :=
  match at_ with
  | Begin =>
      Some match xw_lock x (file +:+ ".lock") with
           | inl e => (c, Done (wrap "acquire lock" (Err e)))
           | inr free =>
               if free && bool_decide (c_holder c = None) then (with_holder (Some p) c, Locked)
               else (c, Done (Ok ()))
           end
  | Locked =>
      Some (statement (already_running x file)
              (λ running, if running : bool then Unlocking (Ok ()) else Creating) c)
  | Creating => Some (statement (prepare_command x file create) Starting c)
  | Starting cmd =>
      let '(c', at') := statement (start_process x cmd) Started c in
      Some (match at' with Started pid => with_owned ({[pid]} ∪ c_owned c') c' | _ => c' end, at')
  | Started pid =>
      let '(c', at') := statement (write_pid x file pid) (λ _, Unlocking (Ok ())) c in
      Some (match at' with
            | Unlocking (Ok _) => c'
            | _ => with_owned (c_owned c' ∖ {[pid]}) c'
            end, at')
  | Unlocking r => Some (with_holder None c, Done r)
  | Done _ => None
  end.

Inductive call_action :=
| Call (p : nat) (create : createCommand)
| Advance (p : nat)
| Killed (p : nat)
| Others (b : box).   (** other programs, and processes that end *)

Definition perform (a : call_action) (c : calls) : option calls :=
  match a with
  | Call p create =>
      match c_calls c !! p with Some _ => None | None => Some (with_call p (create, Begin) c) end
  | Advance p =>
      '(create, at_) ← c_calls c !! p;
      '(c', at') ← call_step p create at_ c;
      Some (with_call p (create, at') c')
  | Killed p =>
      '(create, at_) ← c_calls c !! p;
      Some (CallsState (c_box c) (if decide (c_holder c = Some p) then None else c_holder c)
              (delete p (c_calls c))
              (match at_ with Started pid => c_owned c ∖ {[pid]} | _ => c_owned c end))
  | Others b => Some (with_box b c)
  end.
End Calls.
End Calls.
