(* ===== verification/IdeServersProps.v ===== *)
(** * Properties of the IDE servers in a container

    One process per pid file, whatever calls interleave ([CallsProps], with a run in
    [CallsDemo]); the settings of a user survive; what a failed or a partial
    installation leaves behind. *)

From S2P Require Import Prelude GoStrings GoRegexp Types Config DevContainer Provider Options Home Ide Lifecycle FileTree FileTreeProps Extract ExtractProps Binaries BinariesProps IdeServers.
From stdpp Require Import base gmap sets list strings pretty.
From Stdlib Require Import ZArith Lia.

Local Open Scope string_scope.
Local Open Scope list_scope.

(** ** Printed numbers *)

Lemma pretty_char_digit n : (n < 10)%N → is_digit (pretty_N_char n) = true ∧
  digit_value (pretty_N_char n) = Z.of_N n.
Proof.
  intros Hn. assert (n = 0 ∨ n = 1 ∨ n = 2 ∨ n = 3 ∨ n = 4 ∨ n = 5 ∨ n = 6 ∨ n = 7 ∨ n = 8 ∨ n = 9)%N
    as H by lia. by repeat destruct H as [->|H]; subst.
Qed.
Lemma parse_pretty_go (n : N) : ∃ k : Z, ∀ s acc,
  parse_digits acc (pretty_N_go n s) = parse_digits (acc * k + Z.of_N n)%Z s.
Proof.
  induction (N.lt_wf_0 n) as [n _ IH].
  destruct (decide (n = 0)%N) as [->|Hn].
  { exists 1%Z. intros s acc. rewrite pretty_N_go_0. f_equal. lia. }
  destruct (IH (n `div` 10)%N) as [k Hk]; [apply N.div_lt; lia|].
  exists (k * 10)%Z. intros s acc. rewrite pretty_N_go_step by lia. rewrite Hk. cbn [parse_digits].
  assert (n `mod` 10 < 10)%N as Hm by (apply N.mod_lt; lia).
  destruct (pretty_char_digit _ Hm) as [-> ->]. f_equal.
  pose proof (N.div_mod n 10 ltac:(lia)). lia.
Qed.
Lemma pretty_go_head (n : N) c s : (0 < n)%N → is_digit c = true → ∃ c' s',
  pretty_N_go n (String c s) = String c' s' ∧ is_digit c' = true.
Proof.
  revert c s. induction (N.lt_wf_0 n) as [n _ IH]; intros c s Hn Hc.
  rewrite pretty_N_go_step by done.
  assert (n `mod` 10 < 10)%N as Hm by (apply N.mod_lt; lia).
  destruct (pretty_char_digit _ Hm) as [Hd _].
  destruct (decide (n `div` 10 = 0)%N) as [->|Hq]; [rewrite pretty_N_go_0; eauto|].
  apply IH; [apply N.div_lt; lia|by apply N.neq_0_lt_0|done].
Qed.
Lemma ParseInt_digits c s v : is_digit c = true → parse_digits 0 (String c s) = Some v →
  (0 ≤ v ≤ max_int64)%Z → ParseInt (String c s) = Some v.
Proof.
  intros Hc Hp Hv. unfold ParseInt.
  assert ((match String c s with
    | String "+"%char s' => (false, s') | String "-"%char s' => (true, s')
    | _ => (false, String c s) end) = (false, String c s)) as ->.
  { destruct c as [[] [] [] [] [] [] [] []]; done. }
  rewrite Hp. cbn. rewrite !(proj2 (Z.leb_le _ _)); [done|lia|unfold min_int64; lia].
Qed.
Lemma Atoi_pretty (z : Z) : (0 ≤ z ≤ max_int64)%Z → Atoi (pretty z) = Some z.
Proof.
  intros Hz. destruct z as [|p|p]; [done| |lia].
  change (pretty (Z.pos p)) with (pretty (N.pos p)). unfold pretty, pretty_N.
  rewrite decide_False by done.
  destruct (parse_pretty_go (N.pos p)) as [k Hk]. specialize (Hk "" 0%Z).
  rewrite pretty_N_go_step in Hk |- * by done.
  assert (N.pos p `mod` 10 < 10)%N as Hm by (apply N.mod_lt; lia).
  destruct (pretty_char_digit _ Hm) as [Hd _].
  destruct (decide (N.pos p `div` 10 = 0)%N) as [Hq|Hq].
  - rewrite Hq, pretty_N_go_0 in Hk |- *. by apply ParseInt_digits.
  - destruct (pretty_go_head _ _ "" (proj1 (N.neq_0_lt_0 _) Hq) Hd) as (c & s & Heq & Hc). rewrite Heq in Hk |- *.
    by apply ParseInt_digits.
Qed.

Section Servers.
Context (x : box_world).
Notation fy := (xw_fy x).
Notation X := (M box).

Lemma on_Ok {A} (c : M fs A) b a b' : on c b = (Ok a, b') →
  ∃ f, c (b_fs b) = (Ok a, f) ∧ b' = Box f (b_alive b) (b_acts b).
Proof.
  unfold on, zoom. destruct (c (b_fs b)) as [r f] eqn:Hc. intros [= -> <-]. by exists f.
Qed.
Lemma on_eq {A} (c : M fs A) : stays eq c → stays eq (on c).
Proof.
  intros Hc b. specialize (Hc (b_fs b)). unfold on, zoom. destruct (c (b_fs b)) as [r f].
  cbn in *. subst f. by destruct b.
Qed.

(** ** pkg/single *)

Definition pid_file (file : string) : string := filepath_Join [xw_TempDir x; file].

Lemma IsRunning_eq pid : stays eq (IsRunning pid).
Proof. unfold IsRunning. stays. Qed.
Lemma already_running_eq (file : string) : stays eq (already_running x file).
Proof.
  unfold already_running. apply stays_bind; [apply _|apply stays_caught, on_eq, ReadFile_eq|].
  intros []; [apply IsRunning_eq|stays..].
Qed.
Lemma start_process_Ok cmd b pid b' : start_process x cmd b = (Ok pid, b') →
  xw_start x (b_acts b) cmd.1 = inr pid ∧
  b' = Box (b_fs b) (pid :: b_alive b) (b_acts b ++ [Spawned cmd.1 cmd.2]).
Proof.
  unfold start_process. rewrite run_get. destruct (xw_start _ _ _) as [e|p] eqn:Hs; [done|].
  intros H. apply M_bind_Ok in H as (q & b1 & [= <- <-] & H). rewrite run_put in H.
  injection H as <- <-. done.
Qed.
Lemma start_process_Err cmd b r b' : start_process x cmd b = (r, b') →
  (∀ pid, r ≠ Ok pid) → b' = b.
Proof.
  unfold start_process. rewrite run_get. destruct (xw_start _ _ _) as [e|p]; [by intros [= <- <-]|].
  intros [= <- <-] H. by destruct (H p).
Qed.
Lemma write_pid_Ok file pid b b' : write_pid x file pid b = (Ok (), b') →
  holds (b_fs b') file (pretty pid).
Proof. intros (f & Hw & ->)%on_Ok. by eapply write_holds. Qed.
Lemma write_pid_alive file pid b : b_alive (write_pid x file pid b).2 = b_alive b.
Proof. unfold write_pid, on, zoom. by destruct (write_file _ _ _ _ _). Qed.

(** A process that runs is found by its file, if the file can be read. *)
Lemma already_running_found (file : string) b pid : (0 ≤ pid ≤ max_int64)%Z → pid ∈ b_alive b →
  holds (b_fs b) file (pretty pid) → fy_fail fy OpOpen file ≠ Some ENOENT →
  (already_running x file b).1 ≠ Ok false.
Proof.
  intros Hpid Hin Hh Hopen. unfold already_running. destruct (fy_fail fy OpOpen file) as [e|] eqn:Hf.
  - assert (on (ReadFile fy file) b = (Err e, b)) as Hread.
    { unfold on, zoom, ReadFile, call. rewrite Hf. by destruct b. }
    unfold caught, mbind at 1, M_bind at 1. rewrite Hread. rewrite decide_False by congruence. done.
  - assert (on (ReadFile fy file) b = (Ok (pretty pid), b)) as Hread.
    { unfold on, zoom. rewrite (ReadFile_holds fy _ _ _ Hf Hh). by destruct b. }
    rewrite (run_Ok _ _ _ _ _ (caught_Ok _ _ _ _ Hread)).
    unfold IsRunning. rewrite Atoi_pretty by done. rewrite run_get. cbn. by rewrite bool_decide_true.
Qed.
Lemma already_running_true (file : string) b b' : already_running x file b = (Ok true, b') →
  b' = b ∧ ∃ text pid, holds (b_fs b) file text ∧ Atoi text = Some pid ∧ pid ∈ b_alive b.
Proof.
  intros H. pose proof (stays_after eq _ _ _ _ (already_running_eq file) H) as <-. split; [done|].
  unfold already_running in H. apply M_bind_Ok in H as (r & b1 & Hc & H).
  pose proof (stays_after eq _ _ _ _ (stays_caught _ _ (on_eq _ (ReadFile_eq fy file))) Hc) as <-.
  unfold caught in Hc. destruct (on (ReadFile fy file) b) as [r1 b1] eqn:Hr. injection Hc as -> ->.
  destruct r as [text|e| |]; [|by case_decide|done..].
  apply on_Ok in Hr as (f & Hr & _). unfold IsRunning in H.
  destruct (Atoi text) as [pid|] eqn:Ha; [|done]. rewrite run_get in H. injection H as H.
  apply bool_decide_eq_true in H. exists text, pid. split_and!; [|done..].
  unfold ReadFile, call in Hr. destruct (fy_fail _ _ _); [done|]. rewrite run_get in Hr.
  unfold stat_node in Hr. destruct (walk (b_fs b) true file) as [q|] eqn:Hw; [|done].
  destruct (get (b_fs b) q) as [[m c|m|l]|] eqn:Hg; try done. injection Hr as -> _. by exists q, m.
Qed.

(** ** pkg/ide/vscode *)

Lemma grows_holds f f' p c : grows_at None f f' → holds f p c → holds f' p c.
Proof.
  intros Hg Hh. apply (grows_at_holds None f); [done| |done]. destruct Hh as (q & m & Hw & _).
  by rewrite (walk_grows _ _ _ _ _ (proj1 Hg) Hw).
Qed.
Definition settings_file (o : VsCodeServer) (home : string) : string :=
  filepath_Join [filepath_Join [filepath_Join [home; vscode_folder (vc_flavor o)]; "data"; "Machine"];
                 "settings.json"].
Lemma exists_holds (p c : string) f : fy_fail fy OpStat p = None → holds f p c →
  exists_ fy p f = (Ok true, f).
Proof.
  intros Hf (q & m & Hw & Hg).
  assert (stat_ fy true p f = (Ok (Some (File m c)), f)) as H.
  { unfold stat_, call. rewrite Hf, run_get. unfold stat_node. by rewrite Hw, Hg. }
  unfold exists_. by rewrite (run_Ok _ _ _ _ _ (caught_Ok _ _ _ _ H)).
Qed.
Lemma on_MkdirAll (p : string) perm b r b' : on (MkdirAll fy p perm) b = (r, b') →
  grows_at None (b_fs b) (b_fs b') ∧ b_acts b' = b_acts b.
Proof.
  unfold on, zoom. destruct (MkdirAll fy p perm (b_fs b)) as [r' f] eqn:Hm. intros [= <- <-].
  split; [|done]. pose proof (MkdirAll_grows fy None p perm (b_fs b)) as H. by rewrite Hm in H.
Qed.

Lemma server_location_run folder userName home b r b' : xw_GetHome x userName = inr home →
  server_location x folder userName true b = (r, b') →
  grows_at None (b_fs b) (b_fs b') ∧ b_acts b' = b_acts b ∧
  ∀ l, r = Ok l → l = filepath_Join [home; folder].
Proof.
  intros Hhome. unfold server_location, home_of. rewrite Hhome. cbn [of_sum]. rewrite run_lift_Ok.
  unfold mbind, M_bind. destruct (on (MkdirAll fy (filepath_Join [home; folder]) 493) b) as [r1 b1] eqn:Hm.
  apply on_MkdirAll in Hm as [Hg Ha]. destruct r1; intros [= <- <-]; (split_and!; [done..|]); by intros l [=].
Qed.

(** The settings of an editor in a container are written once: an installation never
    changes a settings file that is there, and then does nothing else either. *)
Theorem vscode_keeps_settings (o : VsCodeServer) home c b r b' :
  xw_GetHome x (vc_userName o) = inr home →
  fy_fail fy OpStat (settings_file o home) = None →
  holds (b_fs b) (settings_file o home) c →
  vscode_Install x o b = (r, b') →
  holds (b_fs b') (settings_file o home) c ∧ b_acts b' = b_acts b.
Proof.
  intros Hhome Hstat Hh. unfold vscode_Install. unfold mbind at 1, M_bind at 1.
  destruct (prepareServerLocation x (vc_userName o) true (vc_flavor o) b) as [r1 b1] eqn:Hl.
  apply (server_location_run _ _ home) in Hl as (Hg1 & Ha1 & Hr1); [|done].
  assert (holds (b_fs b1) (settings_file o home) c) as Hh1 by (by eapply grows_holds).
  destruct r1 as [location|e| |]; try (by intros [= <- <-]).
  rewrite (Hr1 location eq_refl). unfold mbind at 1, M_bind at 1.
  set (dir := filepath_Join [_; "data"; "Machine"]).
  destruct (on (MkdirAll fy dir 493) b1) as [r2 b2] eqn:Hm2. apply on_MkdirAll in Hm2 as [Hg2 Ha2].
  assert (holds (b_fs b2) (settings_file o home) c) as Hh2 by (by eapply grows_holds).
  rewrite Ha1 in Ha2. destruct r2 as [[]|e| |]; try (by intros [= <- <-]).
  assert (on (exists_ fy (settings_file o home)) b2 = (Ok true, b2)) as Hex.
  { unfold on, zoom. rewrite (exists_holds _ _ _ Hstat Hh2). by destruct b2. }
  change (filepath_Join [dir; "settings.json"]) with (settings_file o home).
  rewrite (run_Ok _ _ _ _ _ Hex). by intros [= <- <-].
Qed.

Lemma windsurf_extensions_fail passes (o : VsCodeServer) b : vc_flavor o = FlavorWindsurf →
  (vscode_InstallExtensions x passes o b).1 ≠ Ok ().
Proof.
  intros Hf. unfold vscode_InstallExtensions, prepareServerLocation, server_location, home_of.
  rewrite Hf. destruct (xw_GetHome _ _); done.
Qed.
End Servers.

(** ** Calls of pkg/single that interleave *)

Module CallsProps.
Import Calls.

Section Calls.
Context (file : string).

(** What a call may rely on: a pid file that is there is not reported as missing, and processes
    have the ids that fit into an int. *)
Record honest (x : box_world) : Prop := {
  honest_read : fy_fail (xw_fy x) OpOpen file ≠ Some ENOENT;
  honest_pid acts args pid : xw_start x acts args = inr pid → (0 ≤ pid ≤ max_int64)%Z;
}.
(** Other programs, and the command that a call creates, leave the pid file alone. *)
Definition undisturbed (c c' : calls) : Prop :=
  ∀ text, holds (b_fs (c_box c)) file text → holds (b_fs (c_box c')) file text.
Definition outside (a : call_action) (c : calls) : Prop :=
  match a with
  | Others _ => True
  | Advance p => ∃ create, c_calls c !! p = Some (create, Creating)
  | _ => False
  end.
Inductive reachable : calls → Prop :=
| reach_start b : reachable (CallsState b None ∅ ∅)
| reach_step x a c c' : reachable c → honest x → perform x file a c = Some c' →
    (outside a c → undisturbed c c') → reachable c'.

(** *** The invariant *)

Definition inside (at_ : call_at) : bool :=
  match at_ with Begin | Done _ => false | _ => true end.
(** The processes of the pid file, by where the call is that has the lock *)
Definition owned_ok (at_ : option call_at) (owned : gset Z) (f : fs) : Prop :=
  match at_ with
  | Some Creating | Some (Starting _) => owned = ∅
  | Some (Started pid) => owned ⊆ {[pid]}
  | _ => ∀ pid, pid ∈ owned → holds f file (pretty pid)
  end.
Definition current (c : calls) : option call_at :=
  match c_holder c with Some p => snd <$> c_calls c !! p | None => None end.
Definition live (owned : gset Z) (b : box) : Prop :=
  ∀ pid, pid ∈ owned → (0 ≤ pid ≤ max_int64)%Z ∧ pid ∈ b_alive b.
Record inv (c : calls) : Prop := {
  inv_inside p k a : c_calls c !! p = Some (k, a) → inside a = true → c_holder c = Some p;
  inv_owned : owned_ok (current c) (c_owned c) (b_fs (c_box c));
  inv_live : live (c_owned c) (c_box c);
}.

Lemma owned_ok_empty a f : owned_ok a ∅ f.
Proof. destruct a as [[]|]; cbn; set_solver. Qed.
Lemma owned_ok_sub a o o' f f' : owned_ok a o f → o' ⊆ o →
  (∀ text, holds f file text → holds f' file text) → owned_ok a o' f'.
Proof.
  intros H Hs Hf. destruct a as [[]|]; cbn in *;
    try (intros pid Hp; by apply Hf, H, Hs); clear Hf; set_solver.
Qed.
Lemma live_filter o b b' : live o b → live (filter (λ pid, pid ∈ b_alive b') o) b'.
Proof. intros Hl pid [??]%elem_of_filter. split; [by apply Hl|done]. Qed.
(** Whoever is at [Begin] or [Done], or gone, does not restrict what is owned. *)
Lemma owned_ok_outside a o f : (∀ at_, a = Some at_ → inside at_ = false) →
  owned_ok None o f → owned_ok a o f.
Proof. destruct a as [[]|]; cbn; try done; intros Ha; by specialize (Ha _ eq_refl). Qed.
Lemma owned_ok_None a o f : (∀ at_, a = Some at_ → inside at_ = false) →
  owned_ok a o f → owned_ok None o f.
Proof. destruct a as [[]|]; cbn; try done; intros Ha; by specialize (Ha _ eq_refl). Qed.

(** The call that has the lock moves on. *)
Lemma inv_move p k a a' c b' o' : inv c → c_calls c !! p = Some (k, a) → inside a = true →
  owned_ok (Some a') o' (b_fs b') → live o' b' →
  inv (with_call p (k, a') (CallsState b' (c_holder c) (c_calls c) o')).
Proof.
  intros [Hi _ _] Hp Ha Ho Hl. pose proof (Hi _ _ _ Hp Ha) as Hh. split; cbn.
  - intros q k' a'' Hq Hq'. destruct (decide (q = p)) as [->|]; [done|].
    rewrite lookup_insert_ne in Hq by done. eauto.
  - unfold current. cbn. by rewrite Hh, lookup_insert_eq.
  - done.
Qed.
(** A call that does not have the lock moves on, and still has not. *)
Lemma inv_idle p k a' c : inv c → (∀ k a, c_calls c !! p = Some (k, a) → inside a = false) →
  inside a' = false → inv (with_call p (k, a') c).
Proof.
  intros [Hi Ho Hl] Hp Ha. split; cbn; [| |done].
  - intros q k' a'' Hq Hq'. destruct (decide (q = p)) as [->|].
    + rewrite lookup_insert_eq in Hq. injection Hq as <- <-. congruence.
    + rewrite lookup_insert_ne in Hq by done. eauto.
  - unfold current in *. cbn. destruct (c_holder c) as [q|]; [|done].
    destruct (decide (q = p)) as [->|]; [|by rewrite lookup_insert_ne].
    rewrite lookup_insert_eq. apply owned_ok_outside; [by intros ? [= <-]|].
    eapply owned_ok_None; [|exact Ho]. intros at_ ([k' ?] & Hk & [= <-])%fmap_Some. eauto.
Qed.

Lemma inv_lock p k c : inv c → c_calls c !! p = Some (k, Begin) → c_holder c = None →
  inv (with_call p (k, Locked) (with_holder (Some p) c)).
Proof.
  intros [Hi Ho Hl] Hp Hh. split; cbn; [| |done].
  - intros q k' a Hq Hq'. destruct (decide (q = p)) as [->|]; [done|].
    rewrite lookup_insert_ne in Hq by done. specialize (Hi _ _ _ Hq Hq'). congruence.
  - unfold current in *. cbn. rewrite lookup_insert_eq. by rewrite Hh in Ho.
Qed.
Lemma inv_unlock p k r c : inv c → c_calls c !! p = Some (k, Unlocking r) →
  inv (with_call p (k, Done r) (with_holder None c)).
Proof.
  intros [Hi Ho Hl] Hp. pose proof (Hi _ _ _ Hp eq_refl) as Hh. split; cbn; [| |done].
  - intros q k' a Hq Hq'. destruct (decide (q = p)) as [->|].
    + rewrite lookup_insert_eq in Hq. by injection Hq as <- <-.
    + rewrite lookup_insert_ne in Hq by done. specialize (Hi _ _ _ Hq Hq'). congruence.
  - unfold current in *. rewrite Hh, Hp in Ho. exact Ho.
Qed.
Lemma inv_killed p k a c : inv c → c_calls c !! p = Some (k, a) →
  inv (CallsState (c_box c) (if decide (c_holder c = Some p) then None else c_holder c)
         (delete p (c_calls c)) (match a with Started pid => c_owned c ∖ {[pid]} | _ => c_owned c end)).
Proof.
  intros [Hi Ho Hl] Hp. split; cbn.
  - intros q k' a' [Hne Hq]%lookup_delete_Some Hq'. specialize (Hi _ _ _ Hq Hq').
    rewrite decide_False by congruence. done.
  - unfold current in *. cbn. case_decide as Hd.
    + rewrite Hd, Hp in Ho. cbn in Ho. destruct a; cbn; try done; clear -Ho; set_solver.
    + destruct (c_holder c) as [q|] eqn:Hh.
      * rewrite lookup_delete_ne by congruence. destruct a; try done. by specialize (Hi _ _ _ Hp eq_refl) as [= ->].
      * destruct a; try done. by specialize (Hi _ _ _ Hp eq_refl).
  - intros q Hq. apply Hl. clear -Hq. destruct a; set_solver.
Qed.

(** *** Every step keeps it *)

Lemma with_box_eq b c : with_box b c =
  CallsState b (c_holder c) (c_calls c) (filter (λ pid, pid ∈ b_alive b) (c_owned c)).
Proof. done. Qed.
Lemma filter_no_owned b : filter (λ pid, pid ∈ b_alive b) (∅ : gset Z) = ∅.
Proof. apply leibniz_equiv. intros q. rewrite elem_of_filter. set_solver. Qed.
Lemma live_empty b : live ∅ b.
Proof. by intros pid ?%elem_of_empty. Qed.
Lemma step_locked x p k c : honest x → inv c → c_calls c !! p = Some (k, Locked) →
  let '(c', a') := statement (already_running x file)
    (λ running, if running : bool then Unlocking (Ok ()) else Creating) c in
  inv (with_call p (k, a') c').
Proof.
  intros Hx Hi Hp. unfold statement. destruct (already_running x file (c_box c)) as [r b] eqn:Hr.
  pose proof (stays_after eq _ _ _ _ (already_running_eq x file) Hr) as <-. rewrite with_box_eq.
  pose proof (inv_inside _ Hi _ _ _ Hp eq_refl) as Hh. pose proof (inv_owned _ Hi) as Ho.
  unfold current in Ho. rewrite Hh, Hp in Ho. cbn in Ho.
  apply (inv_move _ _ Locked); [done..| |by eapply live_filter, Hi].
  destruct r as [[]|e| |]; cbn; try (intros pid [_ ?]%elem_of_filter; by apply Ho).
  destruct (set_choose_or_empty (C := gset Z) (filter (λ pid, pid ∈ b_alive (c_box c)) (c_owned c)))
    as [[pid [Ha Hin]%elem_of_filter]|He]; [exfalso|by apply leibniz_equiv].
  destruct (inv_live _ Hi _ Hin) as [Hrange _].
  apply (already_running_found x file (c_box c) pid Hrange Ha (Ho _ Hin) (honest_read _ Hx)).
  by rewrite Hr.
Qed.
Lemma step_creating x p k c :
  let '(c', a') := statement (prepare_command x file k) Starting c in
  inv c → c_calls c !! p = Some (k, Creating) → inv (with_call p (k, a') c').
Proof.
  unfold statement. destruct (prepare_command x file k (c_box c)) as [r b]. intros Hi Hp.
  pose proof (inv_inside _ Hi _ _ _ Hp eq_refl) as Hh. pose proof (inv_owned _ Hi) as Ho.
  unfold current in Ho. rewrite Hh, Hp in Ho. cbn in Ho. rewrite with_box_eq, Ho, filter_no_owned.
  apply (inv_move _ _ Creating); [done..|apply owned_ok_empty|apply live_empty].
Qed.
Lemma step_starting x p k cmd c : honest x → inv c → c_calls c !! p = Some (k, Starting cmd) →
  let '(c', a') := statement (start_process x cmd) Started c in
  inv (with_call p (k, a') match a' with Started pid => with_owned ({[pid]} ∪ c_owned c') c' | _ => c' end).
Proof.
  intros Hx Hi Hp. unfold statement. destruct (start_process x cmd (c_box c)) as [r b] eqn:Hr.
  pose proof (inv_inside _ Hi _ _ _ Hp eq_refl) as Hh. pose proof (inv_owned _ Hi) as Ho.
  unfold current in Ho. rewrite Hh, Hp in Ho. cbn in Ho. rewrite with_box_eq, Ho, filter_no_owned.
  destruct r as [pid|e| |].
  - apply start_process_Ok in Hr as (Hpid & ->). unfold with_owned. cbn.
    apply (inv_move _ _ (Starting cmd)); [done..|cbn; set_solver|].
    intros q Hq. assert (q = pid) as -> by (clear -Hq; set_solver).
    split; [by eapply honest_pid|]. cbn. apply list_elem_of_here.
  - apply (inv_move _ _ (Starting cmd)); [done..|apply owned_ok_empty|apply live_empty].
  - apply (inv_move _ _ (Starting cmd)); [done..|apply owned_ok_empty|apply live_empty].
  - apply (inv_move _ _ (Starting cmd)); [done..|apply owned_ok_empty|apply live_empty].
Qed.
Lemma step_started x p k pid c : inv c → c_calls c !! p = Some (k, Started pid) →
  let '(c', a') := statement (write_pid x file pid) (λ _, Unlocking (Ok ())) c in
  inv (with_call p (k, a')
    match a' with Unlocking (Ok _) => c' | _ => with_owned (c_owned c' ∖ {[pid]}) c' end).
Proof.
  intros Hi Hp. unfold statement. destruct (write_pid x file pid (c_box c)) as [r b] eqn:Hr.
  pose proof (inv_inside _ Hi _ _ _ Hp eq_refl) as Hh. pose proof (inv_owned _ Hi) as Ho.
  unfold current in Ho. rewrite Hh, Hp in Ho. cbn in Ho. rewrite with_box_eq.
  assert (live (filter (λ q, q ∈ b_alive b) (c_owned c)) b) as Hl by (eapply live_filter, Hi).
  set (o := filter _ (c_owned c)) in *. assert (o ⊆ {[pid]}) as Hsub.
  { intros q [_ Hq]%elem_of_filter. by apply Ho. }
  destruct r as [[]|e| |]; unfold with_owned; cbn [c_owned c_box c_holder c_calls].
  - apply (inv_move p k (Started pid) _ c b o); [done|done|done| |done]. apply write_pid_Ok in Hr.
    intros q Hq%Hsub%elem_of_singleton. by subst q.
  - apply (inv_move p k (Started pid) _ c b (o ∖ {[pid]})); [done|done|done| |intros q Hq; apply Hl; clear -Hq; set_solver].
    cbn. intros q Hq. exfalso. clear -Hq Hsub. set_solver.
  - apply (inv_move p k (Started pid) _ c b (o ∖ {[pid]})); [done|done|done| |intros q Hq; apply Hl; clear -Hq; set_solver].
    cbn. intros q Hq. exfalso. clear -Hq Hsub. set_solver.
  - apply (inv_move p k (Started pid) _ c b (o ∖ {[pid]})); [done|done|done| |intros q Hq; apply Hl; clear -Hq; set_solver].
    cbn. intros q Hq. exfalso. clear -Hq Hsub. set_solver.
Qed.
Lemma inv_advance x p k a c c' a' : honest x → inv c → c_calls c !! p = Some (k, a) →
  call_step x file p k a c = Some (c', a') → inv (with_call p (k, a') c').
Proof.
  intros Hx Hi Hp H. destruct a as [| | |cmd|pid|r|r]; cbn in H.
  - assert (∀ k0 a0, c_calls c !! p = Some (k0, a0) → inside a0 = false) as Hout
      by (rewrite Hp; by intros ? ? [= _ <-]).
    destruct (xw_lock x _) as [e|free]; [injection H as <- <-; by apply inv_idle|].
    destruct (free && _) eqn:Hf; injection H as <- <-; [|by apply inv_idle].
    apply andb_true_iff in Hf as [_ Hf%bool_decide_eq_true]. by apply inv_lock.
  - pose proof (step_locked x p k c Hx Hi Hp) as Hs. injection H as H. by rewrite H in Hs.
  - pose proof (step_creating x p k c) as Hs. injection H as H. rewrite H in Hs. by apply Hs.
  - pose proof (step_starting x p k cmd c Hx Hi Hp) as Hs.
    destruct (statement _ _ _) as [c1 a1]. injection H as <- <-. exact Hs.
  - pose proof (step_started x p k pid c Hi Hp) as Hs.
    destruct (statement _ _ _) as [c1 a1]. injection H as <- <-. exact Hs.
  - injection H as <- <-. by apply inv_unlock.
  - done.
Qed.
Lemma inv_act x a c c' : honest x → inv c → perform x file a c = Some c' →
  (outside a c → undisturbed c c') → inv c'.
Proof.
  intros Hx Hi H Hout. destruct a as [p k|p|p|b]; cbn in H.
  - destruct (c_calls c !! p) eqn:Hp; [done|]. injection H as <-. apply inv_idle; [done| |done].
    by rewrite Hp.
  - apply bind_Some in H as ([k a] & Hp & H). apply bind_Some in H as ([c1 a1] & Ha & [= <-]).
    by eapply inv_advance.
  - apply bind_Some in H as ([k a] & Hp & [= <-]). by apply (inv_killed _ k).
  - injection H as <-. specialize (Hout I). destruct Hi as [Hin Ho Hl]. split; [exact Hin| |].
    + eapply owned_ok_sub; [exact Ho| |exact Hout]. intros q [_ ?]%elem_of_filter. done.
    + by eapply live_filter.
Qed.
Lemma calls_inv c : reachable c → inv c.
Proof.
  induction 1 as [b|x a c c' _ IH Hx Ha Hout]; [|by eapply inv_act].
  split; cbn; [by intros ? ? ? ?%lookup_empty_Some|apply (owned_ok_empty None)|apply live_empty].
Qed.

(** C22: Whatever calls with the same pid file interleave, and wherever they fail or are killed:
    of the processes that they start at most one is alive at a time, not counting one whose call
    was killed or failed after the start and before it wrote the pid file.  A call that got the
    lock and ends without an error leaves a pid file with the id of a process that ran when the
    call looked, or that the call has started itself. *)
Theorem Single_at_most_one c : reachable c →
  (∀ pid pid', pid ∈ c_owned c → pid' ∈ c_owned c → pid = pid') ∧
  ∀ x p k a c', perform x file (Advance p) c = Some c' → c_calls c !! p = Some (k, a) →
    c_calls c' !! p = Some (k, Unlocking (Ok ())) →
    ∃ text pid, holds (b_fs (c_box c')) file text ∧
      (Atoi text = Some pid ∧ pid ∈ b_alive (c_box c') ∨ text = pretty pid ∧ a = Started pid).
Proof.
  intros Hr%calls_inv. split.
  - intros pid pid' H1 H2. pose proof (inv_owned _ Hr) as Ho.
    destruct (current c) as [[| | | |q|r|r]|]; cbn in Ho.
    3,4: by rewrite Ho in H1; apply elem_of_empty in H1.
    3: { apply Ho, elem_of_singleton in H1 as ->. by apply Ho, elem_of_singleton in H2 as ->. }
    all: apply (inj pretty); eapply holds_fun; by apply Ho.
  - intros x p k a c' H Hp Hp'. cbn in H. rewrite Hp in H. cbn in H.
    destruct (call_step x file p k a c) as [[c1 a1]|] eqn:Ha; [|done]. injection H as <-.
    cbn in Hp'. rewrite lookup_insert_eq in Hp'. injection Hp' as ->. cbn [c_box with_call].
    destruct a as [| | |cmd|pid|r|r]; cbn in Ha.
    + by destruct (xw_lock x _); [|destruct (_ && _)].
    + unfold statement in Ha. destruct (already_running x file (c_box c)) as [r b] eqn:Hrun.
      injection Ha as <- Hok. destruct r as [[]|e| |]; try done.
      apply already_running_true in Hrun as (-> & text & pid & ? & ? & ?). exists text, pid. auto.
    + unfold statement in Ha. by destruct (prepare_command x file k (c_box c)) as [[] b].
    + unfold statement in Ha. by destruct (start_process x cmd (c_box c)) as [[] b].
    + unfold statement in Ha. destruct (write_pid x file pid (c_box c)) as [r b] eqn:Hw.
      destruct r as [[]| | |]; try done. injection Ha as <-. apply write_pid_Ok in Hw.
      exists (pretty pid), pid. auto.
    + discriminate Ha.
    + done.
Qed.
End Calls.

(** *** A call that nothing interleaves with *)

Section Alone.
Context (x : box_world) (name : string) (create : M box (list string * string)).
Notation file := (pid_file x name).

Definition alone (c c' : calls) : Prop := perform x file (Advance 0) c = Some c'.
Definition stands (c : calls) (a : call_at) (b : box) : Prop :=
  c_calls c !! 0 = Some (create, a) ∧ c_box c = b.
Lemma alone_statement {A} c a (s : M box A) next b r b1 : stands c a b →
  (∃ f, call_step x file 0 create a c = Some (f (statement s next c).1, (statement s next c).2) ∧
        ∀ c1, c_box (f c1) = c_box c1) → s b = (r, b1) →
  ∃ c', alone c c' ∧
    stands c' (match r with Ok v => next v | Err e => Unlocking (Err e) | Panic => Unlocking Panic
               | NoFuel => Unlocking NoFuel end) b1.
Proof.
  intros [Hc Hb] (f & Ha & Hf) Hs. unfold alone, perform. rewrite Hc. cbn [mbind option_bind].
  rewrite Ha. unfold statement. rewrite Hb, Hs. eexists. split; [done|].
  split; cbn; [by rewrite lookup_insert_eq|by rewrite Hf].
Qed.
Lemma alone_unlock c r b : stands c (Unlocking r) b →
  ∃ c', alone c c' ∧ stands c' (Done r) b.
Proof.
  intros [Hc Hb]. unfold alone, perform. rewrite Hc. eexists. split; [done|].
  split; cbn; [by rewrite lookup_insert_eq|done].
Qed.
(** Where a call goes from somewhere, on its own *)
Definition goes (a : call_at) (b : box) (r : result unit) (b' : box) : Prop :=
  ∀ c, stands c a b → ∃ c', rtc alone c c' ∧ stands c' (Done r) b'.
Lemma goes_unlock r b : goes (Unlocking r) b r b.
Proof. intros c (c' & ? & ?)%alone_unlock. exists c'. split; [by apply rtc_once|done]. Qed.
(** A statement and what follows it *)
Lemma goes_bind {A B} (a : call_at) (s : M box A) next (k : A → M box B) b r b' :
  (∀ c, ∃ f, call_step x file 0 create a c = Some (f (statement s next c).1, (statement s next c).2) ∧
             ∀ c1, c_box (f c1) = c_box c1) →
  (∀ v b1 r1 b2, k v b1 = (r1, b2) → goes (next v) b1 ((λ _, ()) <$> r1) b2) →
  (s ≫= k) b = (r, b') → goes a b ((λ _, ()) <$> r) b'.
Proof.
  intros Hadv Hk H c Hc. unfold mbind, M_bind in H. destruct (s b) as [v b1] eqn:Hs.
  destruct (alone_statement c a s next b v b1 Hc (Hadv c) Hs) as (c1 & Ha & Hc1).
  destruct v as [v|e| |]; [apply (Hk v b1 r b' H) in Hc1|injection H as <- <-..].
  2,3,4: apply goes_unlock in Hc1.
  all: destruct Hc1 as (c2 & ? & ?); exists c2; (split; [by eapply rtc_l|done]).
Qed.
(** After [TryLock] the statements are those of [single_]. *)
Lemma goes_locked b r b' :
  (running ← already_running x file;
   if running : bool then mret false
   else cmd ← prepare_command x file create; pid ← start_process x cmd;
        _ ← write_pid x file pid; mret true) b = (r, b') → goes Locked b ((λ _, ()) <$> r) b'.
Proof.
  apply goes_bind with (next := λ running, if running : bool then Unlocking (Ok ()) else Creating).
  { intros c. exists id. split; [by cbn; destruct (statement _ _ _)|done]. }
  intros [] b1 r1 b2; [intros [= <- <-]; apply goes_unlock|].
  apply goes_bind with (next := Starting).
  { intros c. exists id. split; [by cbn; destruct (statement _ _ _)|done]. }
  intros cmd b3 r3 b4. apply goes_bind with (next := Started).
  { intros c. exists (λ c', match (statement (start_process x cmd) Started c).2 with
      | Started pid => with_owned ({[pid]} ∪ c_owned c') c' | _ => c' end).
    cbn. destruct (statement _ _ _) as [c1 a1]. split; [done|]. intros c2. by destruct a1. }
  intros pid b5 r5 b6. apply goes_bind with (next := λ _, Unlocking (Ok ())).
  { intros c. exists (λ c', match (statement (write_pid x file pid) (λ _, Unlocking (Ok ())) c).2 with
      | Unlocking (Ok _) => c' | _ => with_owned (c_owned c' ∖ {[pid]}) c' end).
    cbn. destruct (statement _ _ _) as [c1 a1]. split; [done|].
    intros c2. by destruct a1 as [| | | | |[]|]. }
  intros [] b7 r7 b8 [= <- <-]. apply goes_unlock.
Qed.
(** A call that nothing interleaves with does what [single_] does, with its outcome. *)
Theorem single_alone b r b' : single_ x name create b = (r, b') →
  ∃ c', rtc alone (CallsState b None {[0 := (create, Begin)]} ∅) c' ∧
        stands c' (Done ((λ _, ()) <$> r)) b'.
Proof.
  unfold single_. fold file. set (c := CallsState _ _ _ _). intros H.
  assert (c_calls c !! 0 = Some (create, Begin)) as Hc by apply lookup_singleton_eq.
  destruct (xw_lock x (file +:+ ".lock")) as [e|free] eqn:Hl; cbn [of_sum wrap] in H.
  - injection H as <- <-. eexists. split.
    + apply rtc_once. unfold alone, perform. rewrite Hc. cbn [mbind option_bind call_step]. by rewrite Hl.
    + split; [apply lookup_insert_eq|done].
  - rewrite run_lift_Ok in H. destruct free; cbn [negb] in H.
    + apply goes_locked in H. destruct (H (with_call 0 (create, Locked) (with_holder (Some 0%nat) c)))
        as (c' & Hr & Hs); [split; [apply lookup_insert_eq|done]|].
      exists c'. split; [|done]. eapply rtc_l; [|exact Hr].
      unfold alone, perform. rewrite Hc. cbn [mbind option_bind call_step]. by rewrite Hl.
    + injection H as <- <-. eexists. split.
      * apply rtc_once. unfold alone, perform. rewrite Hc. cbn [mbind option_bind call_step]. by rewrite Hl.
      * split; [apply lookup_insert_eq|done].
Qed.
End Alone.
End CallsProps.

(** The musl compatibility layer is what Alpine needs; it is installed everywhere but there. *)
Lemma gcompat_not_on_alpine release git bash curl :
  "gcompat" ∈ apk_dependencies release git bash curl ↔ Contains release alpine_release = false.
Proof.
  unfold apk_dependencies. rewrite !elem_of_app, !list_elem_of_singleton.
  destruct (Contains _ _), git, bash, curl; set_solver.
Qed.

(** ** What is left behind *)

Definition demo_servers (respond : response) (archive : stream) (which : list string)
    (err : option string) : box_world := {|
  xw_fy := {| fy_fail := λ _ _, None |}; xw_arch := "amd64"; xw_TempDir := "/tmp";
  xw_GetHome := λ _, inr "/home/me"; xw_executable := inr "/usr/local/bin/devpod";
  xw_exists := λ _ _, false; xw_which := λ _ c _, bool_decide (c ∈ which);
  xw_get := λ _, inr respond; xw_tar := λ _ _, archive; xw_dirSize := 4096;
  xw_run := λ f _, ("", err, f); xw_start := λ acts _, if (length acts <? 1000)%nat then inr (100 + Z.of_nat (length acts))%Z
                        else inl "no more processes";
  xw_lines := λ _, []; xw_lock := λ _, inr true; xw_chown := λ _ _ _, None; xw_wait := λ f, f;
  xw_prefs := λ d, d |}.
Definition not_found : response := {|
  hr_status := 404; hr_length := 9; hr_body := "Not Found"; hr_cut := None |}.
Definition cut_archive : stream :=
  Tar [{| e_Header := {| h_Name := "v1/bin"; h_Typeflag := TypeDir; h_Linkname := ""; h_Mode := 493 |};
          e_Body := ""; e_Error := None |}] (Some "unexpected EOF").
Definition demo_files : fs := {[
  ["tmp"] := Dir 511; ["home"] := Dir 493; ["home"; "me"] := Dir 493;
  ["tmp"; "stale.pid"] := File 420 "" ]}.
Definition demo_state : box := Box demo_files [] [].
Definition demo_openvscode : OpenVSCodeServer := {|
  oc_values := ∅; oc_extensions := []; oc_settings := "{1}"; oc_userName := "me"; oc_host := "";
  oc_port := "" |}.

(** A download that broke off counts as an installation the next time, and the settings are
    never written. *)
Example openvscode_partial :
  let x := demo_servers not_found cut_archive [] None in
  let '(r1, b1) := openvscode_Install x demo_openvscode demo_state in
  let '(r2, b2) := openvscode_Install x demo_openvscode b1 in
  r1 = Err "extract vscode: decompress: tar reader next: unexpected EOF" ∧ r2 = Ok () ∧ b2 = b1 ∧
  stat_node (b_fs b2) true "/home/me/.openvscode-server/data" = None.
Proof. vm_compute. done. Qed.
(** A wrong status of the download is not reported; the archive without a name is not found. *)
Example jetbrains_status :
  let x := demo_servers not_found cut_archive [] None in
  (jb_download x GolandServer ∅ demo_state).1 = Ok "" ∧
  (jetbrains_Install x GolandServer "me" ∅ demo_state).1 = Err ENOENT.
Proof. vm_compute. done. Qed.
(** RStudio is started after its installation only; a notebook is started each time. *)
Example rstudio_not_started :
  let x := demo_servers not_found cut_archive ["R"; "rstudio-server"; "jupyter"] None in
  rstudio_Install x "/workspaces/app" "me" demo_state = (Ok (), demo_state) ∧
  b_acts (jupyter_Install x "/workspaces/app" "me" demo_state).2 =
    [Spawned ["su"; "me"; "-w"; "SSH_AUTH_SOCK"; "-l"; "-c"; jupyter_command "/workspaces/app"]
       "/workspaces/app"].
Proof. vm_compute. done. Qed.
(** The url of the options counts only with a version of the options. *)
Example jetbrains_url_ignored :
  getDownloadURLs GolandServer {["DOWNLOAD_AMD64" := user_value "https://mirror/goland.tar.gz"]} =
    (getLatestDownloadURL "GO" "linux", getLatestDownloadURL "GO" "linuxARM64").
Proof. vm_compute. done. Qed.
(** An empty pid file stays in the way. *)
Example single_stale :
  let x := demo_servers not_found cut_archive [] None in
  (Single x "stale.pid" (mret (["sleep"], "")) demo_state).1 = Err "parsing : invalid syntax".
Proof. vm_compute. done. Qed.

Definition demo_vscode (flavor : string) : VsCodeServer :=
  NewVSCodeServer ["golang.go"] "" "me" flavor.
(** After the deadline the last binary that was tried is used, although it did not work. *)
Example deadline_uses_broken :
  let f := <[["home"; "me"; ".vscode-server"] := Dir 493]>
           (<[["home"; "me"; ".vscode-server"; "bin"] := Dir 493]>
           (<[["home"; "me"; ".vscode-server"; "bin"; "abc"] := Dir 493]> demo_files)) in
  let x := demo_servers not_found cut_archive [] (Some "exit status 1") in
  let '(r, b) := vscode_InstallExtensions x 3 (demo_vscode "") (Box f [] []) in
  r = Ok () ∧ last (b_acts b) = Some (Ran ["su"; "me"; "-c";
    "/home/me/.vscode-server/bin/abc/bin/code-server serve-local --accept-server-license-terms" +:+
    " --install-extension 'golang.go'"]).
Proof. vm_compute. done. Qed.
Example fleet_monitor_panics :
  let f := <[["home"; "me"; ".cache"] := Dir 493]>
           (<[["home"; "me"; ".cache"; "JetBrains"] := Dir 493]>
           (<[["home"; "me"; ".cache"; "JetBrains"; "Fleet"] := Dir 493]>
           (<[["home"; "me"; ".cache"; "JetBrains"; "Fleet"; "log"] := Dir 493]>
           (<[["home"; "me"; ".cache"; "JetBrains"; "Fleet"; "log"; "fleet.log"] :=
                File 420 "INFO Received authorization request"]> demo_files)))) in
  let x := demo_servers not_found cut_archive [] None in
  (fleet_server_pass x "/home/me" (Box f [] [])).1 = Panic.
Proof. vm_compute. done. Qed.

(** Two calls at the same time, and a third one later *)
Module CallsDemo.
Import Calls CallsProps.
Definition demo_x : box_world := demo_servers not_found cut_archive [] None.
Definition demo_file : string := "/tmp/jupyter.pid".
Definition demo_create : createCommand := mret (["jupyter"], "/w").
Definition go (l : list call_action) (c : calls) : calls :=
  foldl (λ c a, default c (perform demo_x demo_file a c)) c l.
Fixpoint quiet (l : list call_action) (c : calls) : bool :=
  match l with
  | [] => true
  | a :: l =>
      match a with
      | Advance p => match c_calls c !! p with Some (_, Creating) => false | _ => true end
      | Others _ => false
      | _ => true
      end && quiet l (go [a] c)
  end.
Lemma demo_honest : honest demo_file demo_x.
Proof.
  split; [done|]. intros acts args pid. unfold demo_x, demo_servers. cbn [xw_start].
  destruct (length acts <? 1000)%nat eqn:Hl; [|done]. apply Nat.ltb_lt in Hl. intros [= <-].
  unfold max_int64. lia.
Qed.
Lemma go_reachable l c : reachable demo_file c → quiet l c = true → reachable demo_file (go l c).
Proof.
  revert c. induction l as [|a l IH]; intros c Hr Hq; [done|].
  cbn [quiet] in Hq. apply andb_true_iff in Hq as [Ha Hq]. apply (IH (go [a] c)); [|done].
  cbn. destruct (perform demo_x demo_file a c) as [c'|] eqn:Hact; [|done]. cbn.
  eapply reach_step; [done|apply demo_honest|done|]. intros Hout.
  destruct a as [p k|p|p|b]; cbn in Hout, Ha; try done. destruct Hout as [k Hk]. by rewrite Hk in Ha.
Qed.
(** The first call has read the pid file, the second one did not get the lock. *)
Definition demo_before : calls :=
  go [Call 0 demo_create; Call 1 demo_create; Advance 0; Advance 1; Advance 0]
    (CallsState demo_state None ∅ ∅).
Definition demo_created : calls := default demo_before (perform demo_x demo_file (Advance 0) demo_before).
(** The first call is over, and the third one is at reading the pid file. *)
Definition demo_after : calls :=
  go [Advance 0; Advance 0; Advance 0; Call 2 demo_create; Advance 2] demo_created.
Lemma demo_created_reachable : reachable demo_file demo_created.
Proof.
  apply (reach_step demo_file demo_x (Advance 0) demo_before demo_created);
    [|apply demo_honest|vm_compute; reflexivity|].
  - apply go_reachable; [apply reach_start|vm_compute; reflexivity].
  - intros _ text (q & m & Hw & Hg). vm_compute in Hw. injection Hw as <-. vm_compute in Hg.
    discriminate.
Qed.
Lemma demo_calls_reachable : reachable demo_file demo_after.
Proof. apply go_reachable; [apply demo_created_reachable|vm_compute; reflexivity]. Qed.
(** A call that is killed before it wrote the pid file leaves a process that the next call does
    not find, and a second one is started. *)
Example killed_before_pid_file :
  b_alive (c_box (go ([Call 0 demo_create] ++ replicate 4 (Advance 0) ++ [Killed 0; Call 1 demo_create] ++
    replicate 6 (Advance 1)) (CallsState demo_state None ∅ ∅))) = [101; 100]%Z.
Proof. vm_compute. reflexivity. Qed.
End CallsDemo.
Lemma Single_at_most_one_witness :
  let c := CallsDemo.demo_after in
  let c' := default c (Calls.perform CallsDemo.demo_x CallsDemo.demo_file (Calls.Advance 2) c) in
  elements (Calls.c_owned c) = [100%Z] ∧
  (∀ pid, pid ∈ Calls.c_owned c → pid = 100%Z) ∧
  ∃ text, holds (b_fs (Calls.c_box c')) CallsDemo.demo_file text.
Proof.
  split; [vm_compute; reflexivity|].
  destruct (CallsProps.Single_at_most_one CallsDemo.demo_file CallsDemo.demo_after CallsDemo.demo_calls_reachable) as [H1 H2].
  split.
  - intros pid Hpid. apply (H1 pid 100%Z Hpid). vm_compute. reflexivity.
  - destruct (H2 CallsDemo.demo_x 2%nat CallsDemo.demo_create Calls.Locked
      (default CallsDemo.demo_after (Calls.perform CallsDemo.demo_x CallsDemo.demo_file (Calls.Advance 2) CallsDemo.demo_after)))
      as (text & pid & Hh & _); [vm_compute; reflexivity..|]. by exists text.
Defined.
Lemma vscode_keeps_settings_witness :
  let x := demo_servers not_found cut_archive [] None in
  let o := NewVSCodeServer [] "{2}" "me" FlavorCursor in
  let b1 := (vscode_Install x (NewVSCodeServer [] "{1}" "me" FlavorCursor) demo_state).2 in
  holds (b_fs (vscode_Install x o b1).2) "/home/me/.cursor-server/data/Machine/settings.json" "{1}".
Proof.
  cbv zeta.
  apply (vscode_keeps_settings (demo_servers not_found cut_archive [] None)
    (NewVSCodeServer [] "{2}" "me" FlavorCursor) "/home/me" "{1}"
    (vscode_Install (demo_servers not_found cut_archive [] None)
       (NewVSCodeServer [] "{1}" "me" FlavorCursor) demo_state).2
    (vscode_Install (demo_servers not_found cut_archive [] None)
       (NewVSCodeServer [] "{2}" "me" FlavorCursor)
       (vscode_Install (demo_servers not_found cut_archive [] None)
          (NewVSCodeServer [] "{1}" "me" FlavorCursor) demo_state).2).1).
  - reflexivity.
  - reflexivity.
  - exists ["home"; "me"; ".cursor-server"; "data"; "Machine"; "settings.json"], 384%N.
    split; vm_compute; reflexivity.
  - vm_compute. reflexivity.
Defined.
