(* ===== verification/Tailnet.v ===== *)
(** * The tailnet: host names, and the server of a workspace

    pkg/ts.  The Tailscale client, HTTP transports and [url.Parse] are parameters; a request and
    the request a proxy sends are values.  The goroutines of [startListeners] are the
    answers that a connection can get ([socket_answers]); the connections that are tracked
    are a step relation. *)

From S2P Require Import Prelude GoStrings Types Provider Options Lifecycle FileTree Extract Binaries IdeServers.
From stdpp Require Import base gmap list strings relations pretty.
From Stdlib Require Import ZArith Lia.

Local Open Scope string_scope.
Local Open Scope list_scope.

(** ** util.go, addr.go, derp.go *)

Definition LoftTSNetDomain : string := "ts.loft".
Definition GetClientHostname (Hostname : string + string) (userName : string) : result string :=
  osHostname ← of_sum Hostname;
  Ok ("devpod." +:+ ToLower (ReplaceAll osHostname "." "-") +:+ "." +:+ userName +:+ ".client").
Definition GetWorkspaceHostname (name namespace : string) : string :=
  "devpod." +:+ name +:+ "." +:+ namespace +:+ ".workspace".
(** [strings.SplitN(s, sep, n)] *)
Fixpoint SplitN (sep : ascii) (n : nat) (s : string) : list string :=
  match n with
  | 0 => []
  | 1 => [s]
  | S n =>
      match Split sep s with
      | [] | [_] => [s]
      | part :: rest => part :: SplitN sep n (GoStrings.Join rest (String sep ""))
      end
  end.
Definition ParseWorkspaceHostname (hostname : string) : result (string * string) :=
  match SplitN "." 4 hostname with
  | [_; name; project; _] => Ok (name, project)
  | _ => Err ("invalid hostname: " +:+ hostname)
  end.
(** The server has a parser of its own. *)
Definition parseWorkspaceHostname (WorkspaceHost : string) : result (string * string) :=
  match Split "." WorkspaceHost with
  | _ :: name :: project :: _ :: _ => Ok (name, project)
  | _ => Err ("invalid workspace hostname format: " +:+ WorkspaceHost)
  end.
Definition GetURL (host : string) (port : Z) : string :=
  if decide (port = 0%Z) then host +:+ "." +:+ LoftTSNetDomain
  else host +:+ "." +:+ LoftTSNetDomain +:+ ":" +:+ pretty port.
Record Addr := { ad_host : string; ad_port : Z }.
Definition Addr_String (a : Addr) : string := GetURL (ad_host a) (ad_port a).
Definition Addr_Host (a : Addr) : string := GetURL (ad_host a) 0.

(** [dial i] and [done i]: whether the attempt succeeds, and whether the context ended after it *)
Fixpoint wait_host (dial done : nat → bool) (i tries : nat) (a : Addr) : result unit :=
  match tries with
  | 0 => Err ("host " +:+ Addr_String a +:+ " not reachable")
  | S tries =>
      if dial i then Ok ()
      else if done i then Err "context canceled"
      else wait_host dial done (S i) tries a
  end.
Definition WaitHostReachable (dial done : nat → bool) (a : Addr) (maxRetries : Z) : result unit :=
  wait_host dial done 0 (Z.to_nat maxRetries) a.

(** What the watcher of the bus yields: an error ends it; a map is known by its address. *)
Record notify := { nt_ErrMessage : option string; nt_NetMap : option nat }.
Fixpoint watch_from (netMap : option nat) (l : list notify) (e : string) : list nat * string :=
  match l with
  | [] => ([], "watch ipn: " +:+ e)
  | n :: l =>
      match nt_ErrMessage n with
      | Some msg => ([], "tailscale error: " +:+ msg)
      | None =>
          match nt_NetMap n with
          | Some m =>
              let '(calls, err) := watch_from (Some m) l e in
              if decide (Some m = netMap) then (calls, err) else (m :: calls, err)
          | None => watch_from netMap l e
          end
      end
  end.
(** The calls of [netmapChangedFn], and the error at the end *)
Definition WatchNetmap (watcher : string + list notify * string) : list nat * string :=
  match watcher with
  | inl e => ([], e)
  | inr (l, e) => watch_from None l e
  end.
Definition netMapCooldown : Z := 30000000000.
(** The maps the server writes: none within the cooldown after the last one, or after the start *)
Fixpoint written_netmaps (lastUpdate : Z) (l : list (Z * nat)) : list nat :=
  match l with
  | [] => []
  | (now, m) :: l =>
      if (now - lastUpdate <? netMapCooldown)%Z then written_netmaps lastUpdate l
      else m :: written_netmaps now l
  end.

Definition GetEnvOrDefault (env : gmap string string) (envVar defaultVal : string) : string :=
  match env !! envVar with
  | Some v => if decide (v ≠ "") then v else defaultVal
  | None => defaultVal
  end.
(** [url[strings.Index(url, "://")+3:]] *)
Definition RemoveProtocol (hostPath : string) : string :=
  match from_first "://" hostPath with Some rest => sdrop 3 rest | None => hostPath end.
Definition CheckDerpConnection (get : url → string + Z) (baseUrl : url) : result unit :=
  match get {| u_Scheme := u_Scheme baseUrl; u_Host := u_Host baseUrl; u_Path := "/derp/probe" |} with
  | inl e => Err ("failed to reach the coordinator server: " +:+ e)
  | inr code => if decide (code ≠ 200%Z) then Err "failed to reach the coordinator server: "
                else Ok ()
  end.

(** ssh.go: attempts until one succeeds, the deadline passes or the context ends *)
Fixpoint wait_ssh {C} (attempt : nat → string + C) (now : nat → Z) (done : nat → bool) (deadline : Z)
    (i tries : nat) (last : result (option C)) : result (option C) :=
  match tries with
  | 0 => NoFuel
  | S tries =>
      if negb (now i <? deadline)%Z then last
      else match attempt i with
           | inr c => Ok (Some c)
           | inl e => if done i then Err e else wait_ssh attempt now done deadline (S i) tries (Err e)
           end
  end.
(** A deadline that has passed at once gives neither a client nor an error. *)
Definition WaitForSSHClient {C} (attempt : nat → string + C) (now : nat → Z) (done : nat → bool)
    (start timeout : Z) (fuel : nat) : result (option C) :=
  wait_ssh attempt now done (start + timeout) 0 fuel (Ok None).

(** ** workspace_server.go *)

Record WorkspaceServerConfig := {
  wc_AccessKey : string;
  wc_PlatformHost : string;
  wc_WorkspaceHost : string;
  wc_RootDir : string;
}.
Record peer := { pe_HostName : string }.
Record ts_world := {
  tw_env : gmap string string;
  tw_derp : url → string + Z;
  (** [tsnet.Server.Up] at the control url *)
  tw_up : string → option string;
  (** the peers in the order of the range, [None] is a nil peer *)
  tw_peers : string + list (option peer);
  tw_Parse : string → string + url;
  (** the error of opening a listener *)
  tw_listen : string → option string;
  tw_get : string → string → string + Z;
}.
Definition TSPortForwardPort : string := "12051".
Definition DefaultUserPort : string := "12023".
Definition RunnerProxySocket : string := "runner-proxy.sock".

Section Server.
Context (w : ts_world) (config : WorkspaceServerConfig).

Definition validateConfig : result unit :=
  if decide (wc_AccessKey config = "" ∨ wc_PlatformHost config = "" ∨ wc_WorkspaceHost config = "")
  then Err "access key, host, or hostname cannot be empty" else Ok ().
Definition setupControlURL : result url :=
  let baseURL := {| u_Scheme := GetEnvOrDefault (tw_env w) "LOFT_TSNET_SCHEME" "https";
                    u_Host := wc_PlatformHost config; u_Path := "" |} in
  _ ← wrap "failed to verify DERP connection" (CheckDerpConnection (tw_derp w) baseURL);
  Ok baseURL.
Definition url_String (u : url) : string := u_Scheme u +:+ "://" +:+ u_Host u +:+ u_Path u.
Definition setupTSNet : result (string * string) :=
  _ ← validateConfig;
  baseURL ← setupControlURL;
  match tw_up w (url_String baseURL +:+ "/coordinator/") with
  | Some e => Err e
  | None => parseWorkspaceHostname (wc_WorkspaceHost config)
  end.

(** *** Listeners

    The ones that are open, and the ones [Stop] closes *)
Record listeners := Listeners { ls_open : list string; ls_known : list string }.
Definition listen (addr what : string) : M listeners unit :=
  match tw_listen w addr with
  | Some e => throw (what +:+ e)
  | None => modifyS (λ l, Listeners (ls_open l ++ [addr]) (ls_known l))
  end.
Definition ssh_addr : string := ":" +:+ DefaultUserPort.
Definition forward_addr : string := ":" +:+ TSPortForwardPort.
Definition socket_path : string := filepath_Join [wc_RootDir config; RunnerProxySocket].
Definition listen_on_port : string := "failed to create listener on TS port " +:+ TSPortForwardPort +:+ ": ".
Definition startListeners : M listeners unit :=
  _ ← listen ssh_addr ("failed to listen on " +:+ ssh_addr +:+ ": ");
  _ ← listen forward_addr (listen_on_port +:+ "failed to listen on " +:+ forward_addr +:+ ": ");
  _ ← listen socket_path listen_on_port;
  modifyS (λ l, Listeners (ls_open l) (ls_known l ++ [ssh_addr; forward_addr; socket_path])).
Definition Stop : M listeners unit :=
  modifyS (λ l, Listeners (filter (λ a, a ∉ ls_known l) (ls_open l)) (ls_known l)).

(** *** The runner *)

Definition is_runner (p : option peer) : bool :=
  match p with
  | Some p => negb (sempty (pe_HostName p)) && HasSuffix (pe_HostName p) "runner"
  | None => false
  end.
Definition discoverRunner : result string :=
  peers ← wrap "failed to get status" (of_sum (tw_peers w));
  match List.find is_runner peers with
  | Some (Some p) => Ok (pe_HostName p)
  | _ => Err "no active runner found"
  end.
Definition runner_url (runner projectName workspaceName what : string) : string :=
  "http://" +:+ runner +:+ ".ts.loft/devpod/" +:+ projectName +:+ "/" +:+ workspaceName +:+ "/" +:+ what.
Definition sendHeartbeat (projectName workspaceName : string) : result unit :=
  runner ← wrap "failed to discover runner" discoverRunner;
  let heartbeatURL := runner_url runner projectName workspaceName "heartbeat" in
  code ← wrap ("request to " +:+ heartbeatURL +:+ " failed")
    (of_sum (tw_get w heartbeatURL ("Bearer " +:+ wc_AccessKey config)));
  if decide (code ≠ 200%Z)
  then Err ("received response from " +:+ heartbeatURL +:+ " - Status: " +:+ pretty code)
  else Ok ().
(** One tick; errors are only logged *)
Definition heartbeat_tick (connections : Z) (projectName workspaceName : string) : option (result unit) :=
  if (0 <? connections)%Z then Some (sendHeartbeat projectName workspaceName) else None.

(** *** Requests and the requests that proxies send *)

Record http_request := {
  hq_url : url;
  hq_host : string;
  hq_header : gmap string string;
}.
Inductive answer := Refused (code : Z) (text : string) | Proxied (r : http_request).
Definition credentials_answer (what projectName workspaceName : string) (r : http_request) : answer :=
  match discoverRunner with
  | Ok runner =>
      match tw_Parse w (runner_url runner projectName workspaceName what) with
      | inl _ => Refused 500 "failed to parse runner URL"
      | inr u => Proxied {| hq_url := u; hq_host := u_Host u;
          hq_header := <["Authorization" := "Bearer " +:+ wc_AccessKey config]> (hq_header r) |}
      end
  | _ => Refused 500 "failed to discover runner"
  end.
Definition gitCredentialsHandler := credentials_answer "workspace-git-credentials".
Definition dockerCredentialsHandler := credentials_answer "workspace-docker-credentials".
(** The target is on this machine; the headers of the forwarding are removed. *)
Definition httpPortForwardHandler (r : http_request) : answer :=
  let targetPort := default "" (hq_header r !! "X-Loft-Forward-Port") in
  let baseForwardStr := default "" (hq_header r !! "X-Loft-Forward-Url") in
  if decide (targetPort = "" ∨ baseForwardStr = "") then Refused 400 "missing required X-Loft headers"
  else match tw_Parse w baseForwardStr with
       | inl _ => Refused 400 "invalid base forward URL"
       | inr parsed =>
           let u := {| u_Scheme := "http"; u_Host := "127.0.0.1:" +:+ targetPort; u_Path := u_Path parsed |} in
           Proxied {| hq_url := u; hq_host := u_Host u;
             hq_header := delete "X-Loft-Forward-Authorization"
               (delete "X-Loft-Forward-Url" (delete "X-Loft-Forward-Port" (hq_header r))) |}
       end.
(** [http.ServeMux] with one pattern *)
Definition mux (pattern : string) (handler : http_request → answer) (r : http_request) : answer :=
  if decide (u_Path (hq_url r) = pattern) then handler r else Refused 404 "404 page not found".
(** Two servers accept the connections of the runner socket, each with a mux of its own: a
    request gets one of these answers. *)
Definition socket_answers (projectName workspaceName : string) (r : http_request) : list answer :=
  [mux "/git-credentials" (gitCredentialsHandler projectName workspaceName) r;
   mux "/docker-credentials" (dockerCredentialsHandler projectName workspaceName) r].
End Server.

(** *** The connections that are tracked *)

Record connections := Connections { cn_open : list nat; cn_counter : Z }.
Inductive conn_step : connections → connections → Prop :=
| conn_begin s c : c ∉ cn_open s → conn_step s (Connections (c :: cn_open s) (cn_counter s + 1))
| conn_end s l1 c l2 : cn_open s = l1 ++ c :: l2 →
    conn_step s (Connections (l1 ++ l2) (cn_counter s - 1)).

(** * Properties *)

(** ** Host names *)

Lemma SplitN_cons sep n s part rest : rest ≠ [] → Split sep s = part :: rest →
  SplitN sep (S (S n)) s = part :: SplitN sep (S n) (GoStrings.Join rest (String sep "")).
Proof. intros Hr Hs. cbn [SplitN]. rewrite Hs. by destruct rest. Qed.
Lemma SplitN_single sep n s part : Split sep s = [part] → SplitN sep (S n) s = [s].
Proof. intros Hs. destruct n; [done|]. cbn [SplitN]. by rewrite Hs. Qed.

Lemma Split_tail sep s part rest : Split sep s = part :: rest → rest ≠ [] →
  Split sep (GoStrings.Join rest (String sep "")) = rest.
Proof.
  intros Hs Hr. apply Split_Join; [done|]. intros p Hp. apply (Split_parts_free sep s).
  rewrite Hs. by right.
Qed.

(** The two parsers of the host name of a workspace agree, and both read back what the
    name was made of. *)
Theorem workspace_hostname h name project :
  match parseWorkspaceHostname h with
  | Ok p => ParseWorkspaceHostname h = Ok p
  | _ => ∃ e, ParseWorkspaceHostname h = Err e
  end ∧
  (free "." name = true → free "." project = true →
   parseWorkspaceHostname (GetWorkspaceHostname name project) = Ok (name, project)).
Proof.
  split.
  - unfold parseWorkspaceHostname, ParseWorkspaceHostname.
    destruct (Split "." h) as [|a [|b l]] eqn:H1; [by apply Split_nonempty in H1| |].
    { rewrite (SplitN_single _ _ _ _ H1). by eexists. }
    pose proof (Split_tail _ _ _ _ H1 (not_eq_sym (@nil_cons _ _ _))) as H2. rewrite (SplitN_cons _ _ _ _ _ (not_eq_sym (@nil_cons _ _ _)) H1).
    destruct l as [|c l]; [rewrite (SplitN_single _ _ _ _ H2); by eexists|].
    pose proof (Split_tail _ _ _ _ H2 (not_eq_sym (@nil_cons _ _ _))) as H3. rewrite (SplitN_cons _ _ _ _ _ (not_eq_sym (@nil_cons _ _ _)) H2).
    destruct l as [|d l]; [rewrite (SplitN_single _ _ _ _ H3); by eexists|].
    by rewrite (SplitN_cons _ _ _ _ _ (not_eq_sym (@nil_cons _ _ _)) H3).
  - intros Hn Hp. unfold parseWorkspaceHostname, GetWorkspaceHostname.
    change ("devpod." +:+ name +:+ "." +:+ project +:+ ".workspace")
      with ("devpod" +:+ String "." (name +:+ String "." (project +:+ String "." "workspace"))).
    by rewrite !Split_app.
Qed.

(** ** The server *)

Section ServerProps.
Context (w : ts_world) (config : WorkspaceServerConfig).

Lemma discoverRunner_Ok runner : discoverRunner w = Ok runner →
  ∃ peers, tw_peers w = inr peers ∧ Some {| pe_HostName := runner |} ∈ peers ∧
    HasSuffix runner "runner" = true.
Proof.
  unfold discoverRunner. destruct (tw_peers w) as [e|peers]; [done|]. cbn.
  destruct (List.find is_runner peers) as [[[h]|]|] eqn:Hf; try done. intros [= <-].
  apply List.find_some in Hf as [Hin Hr]. exists peers. cbn in *. apply andb_prop in Hr as [_ Hr].
  split_and!; [done|by apply list_elem_of_In|done].
Qed.

(** Each of the two requests that the runner socket is for can be answered with 404: the
    connection may be accepted by the server of the other one. *)
Theorem socket_may_refuse projectName workspaceName r :
  u_Path (hq_url r) = "/git-credentials" ∨ u_Path (hq_url r) = "/docker-credentials" →
  ∃ a, a ∈ socket_answers w config projectName workspaceName r ∧ a = Refused 404 "404 page not found".
Proof.
  unfold socket_answers, mux. intros [-> | ->]; eexists; (split; [|done]); set_solver.
Qed.

(** A forwarded request stays on the machine: whatever its headers say it goes to the loopback
    address, in plain HTTP, without the headers of the forwarding. *)
Theorem httpPortForward_local r r' : httpPortForwardHandler w r = Proxied r' →
  u_Scheme (hq_url r') = "http" ∧ hq_host r' = u_Host (hq_url r') ∧
  (∃ port, hq_header r !! "X-Loft-Forward-Port" = Some port ∧ port ≠ "" ∧
           hq_host r' = "127.0.0.1:" +:+ port) ∧
  ∀ k, hq_header r' !! k = if decide (k ∈ ["X-Loft-Forward-Port"; "X-Loft-Forward-Url";
                                          "X-Loft-Forward-Authorization"])
                           then None else hq_header r !! k.
Proof.
  unfold httpPortForwardHandler. case_decide as Hd; [done|].
  destruct (tw_Parse w _) as [e|u]; [done|]. intros [= <-]. cbn. split_and!; try done.
  - destruct (hq_header r !! "X-Loft-Forward-Port") as [port|]; [|by destruct Hd; left].
    exists port. cbn in *. naive_solver.
  - intros k. case_decide as Hk.
    + rewrite !elem_of_cons, elem_of_nil in Hk. rewrite !lookup_delete_None. naive_solver.
    + rewrite !elem_of_cons, elem_of_nil in Hk. rewrite !lookup_delete_ne by naive_solver. done.
Qed.
End ServerProps.

(** The counter is the number of the connections that are open. *)
Lemma connections_counted s : rtc conn_step (Connections [] 0) s →
  cn_counter s = Z.of_nat (length (cn_open s)).
Proof.
  intros H. assert (cn_counter (Connections [] 0) = Z.of_nat (length (cn_open (Connections [] 0)))) as Hi by done.
  induction H as [|s1 s2 s3 H12 _ IH]; [done|]. apply IH.
  destruct H12 as [s c Hc|s l1 c l2 Hc]; cbn; [lia|].
  rewrite Hi, Hc, !length_app. cbn. lia.
Qed.

(** ** Concrete runs *)

Definition demo_ts (bad : string) : ts_world := {|
  tw_env := ∅; tw_derp := λ _, inr 200%Z; tw_up := λ _, None;
  tw_peers := inr [None; Some {| pe_HostName := "laptop" |}; Some {| pe_HostName := "eu-runner" |}];
  tw_Parse := λ u, inr {| u_Scheme := "http"; u_Host := "eu-runner.ts.loft"; u_Path := u |};
  tw_listen := λ a, if decide (a = bad) then Some "address in use" else None;
  tw_get := λ _ _, inr 200%Z |}.
Definition demo_wsc : WorkspaceServerConfig := {|
  wc_AccessKey := "key"; wc_PlatformHost := "loft.example.com";
  wc_WorkspaceHost := "devpod.app.team.workspace"; wc_RootDir := "/var/devpod" |}.
(** When the socket cannot be opened the listeners before it stay open. *)
Example listeners_leak :
  let '(r, l) := startListeners (demo_ts "/var/devpod/runner-proxy.sock") demo_wsc (Listeners [] []) in
  r = Err "failed to create listener on TS port 12051: address in use" ∧
  ls_open (Stop l).2 = [":12023"; ":12051"].
Proof. vm_compute. done. Qed.
Example setupTSNet_ex : setupTSNet (demo_ts "") demo_wsc = Ok ("app", "team") ∧
  heartbeat_tick (demo_ts "") demo_wsc 0 "team" "app" = None ∧
  heartbeat_tick (demo_ts "") demo_wsc 2 "team" "app" = Some (Ok ()).
Proof. vm_compute. done. Qed.
(** No time at all: neither a client nor an error. *)
Example WaitForSSHClient_nothing :
  WaitForSSHClient (C := unit) (λ _, inl "refused") (λ i, Z.of_nat i) (λ _, false) 0 0 5 = Ok None.
Proof. done. Qed.

Lemma socket_may_refuse_witness : ∃ a, a ∈ socket_answers (demo_ts "") demo_wsc "team" "app"
    {| hq_url := {| u_Scheme := "http"; u_Host := "runner-proxy"; u_Path := "/git-credentials" |};
       hq_host := "runner-proxy"; hq_header := ∅ |} ∧ a = Refused 404 "404 page not found".
Proof. apply socket_may_refuse. left. reflexivity. Defined.
Definition demo_forward : http_request := {|
  hq_url := {| u_Scheme := ""; u_Host := ""; u_Path := "/portforward" |}; hq_host := "x";
  hq_header := {["X-Loft-Forward-Port" := "3000"; "X-Loft-Forward-Url" := "http://a/b"; "A" := "b"]} |}.
Lemma httpPortForward_local_witness : ∃ r',
  httpPortForwardHandler (demo_ts "") demo_forward = Proxied r' ∧ hq_host r' = "127.0.0.1:3000" ∧
  hq_header r' !! "X-Loft-Forward-Url" = None.
Proof.
  eexists. split; [reflexivity|].
  destruct (httpPortForward_local (demo_ts "") demo_forward _ eq_refl) as (_ & _ & _ & H).
  split; [reflexivity|exact (H "X-Loft-Forward-Url")].
Defined.
Lemma workspace_hostname_witness :
  parseWorkspaceHostname (GetWorkspaceHostname "app" "team") = Ok ("app", "team").
Proof. by apply (workspace_hostname "" "app" "team"). Defined.
