(* ===== verification/Netstat.v ===== *)
(** * Listening ports and their forwarding

    pkg/netstat (the tables of /proc/net, read from the file system of FileTree.v, and
    the watcher that compares them), pkg/tunnel/forwarder.go, and the ports of
    pkg/tunnel/services.go.  A [Forwarder] is what the watcher uses. *)

From S2P Require Import Prelude IdeServers GoStrings SshConfig Options FileTree.
From stdpp Require Import base gmap list strings pretty.
From Stdlib Require Import ZArith.

Local Open Scope string_scope.
Local Open Scope list_scope.

(** ** strconv and strings *)

Definition alpha_value (c : ascii) : option Z :=
  if is_digit c then Some (digit_value c)
  else if is_alpha c then Some (Z.of_nat (code (lower_char c)) - 87)%Z
  else None.
Fixpoint parse_base (base acc : Z) (s : string) : option Z :=
  match s with
  | "" => Some acc
  | String c s' =>
      d ← alpha_value c;
      if (d <? base)%Z then parse_base base (acc * base + d) s' else None
  end.
(** [strconv.ParseUint(s, base, bits)] with a base that is not 0 *)
Definition ParseUint (s : string) (base bits : Z) : option Z :=
  match s with
  | "" => None
  | _ => v ← parse_base base 0 s; if (v <? 2 ^ bits)%Z then Some v else None
  end.
Definition parse_uint (s : string) (base bits : Z) : result Z :=
  of_option ("strconv.ParseUint: parsing " +:+ s) (ParseUint s base bits).

(** [strings.Fields] *)
Fixpoint fields_from (s word : string) : list string :=
  match s with
  | "" => if decide (word = "") then [] else [word]
  | String c s' =>
      if is_space c then
        if decide (word = "") then fields_from s' "" else word :: fields_from s' ""
      else fields_from s' (word +:+ String c "")
  end.
Definition Fields (s : string) : list string := fields_from s "".

(** ** netstat.go *)

Record SockAddr := { sa_IP : list Z; sa_Port : Z }.
#[export] Instance SockAddr_eq_dec : EqDecision SockAddr.
Proof. solve_decision. Defined.
Record Process := { ps_Pid : Z; ps_Name : string }.
Record SockTabEntry := {
  st_ino : string;
  st_LocalAddr : SockAddr;
  st_RemoteAddr : SockAddr;
  st_State : Z;
  st_UID : Z;
  st_Process : option Process;
}.
Definition Listen : Z := 10.
Definition skStates : list string :=
  ["UNKNOWN"; "ESTABLISHED"; "SYN_SENT"; "SYN_RECV"; "FIN_WAIT1"; "FIN_WAIT2"; "TIME_WAIT"; "";
   "CLOSE_WAIT"; "LAST_ACK"; "LISTEN"; "CLOSING"].
Definition SkState_String (s : Z) : result string := deref (skStates !! Z.to_nat s).
Definition Process_String (p : Process) : string := pretty (ps_Pid p) +:+ "/" +:+ ps_Name p.

(** ** netstat_util.go *)

Definition pathTCPTab : string := "/proc/net/tcp".
Definition pathTCP6Tab : string := "/proc/net/tcp6".
Definition ipv4StrLen : nat := 8.
Definition ipv6StrLen : nat := 32.

(** [binary.LittleEndian.PutUint32] *)
Definition little_endian (v : Z) : list Z :=
  [Z.land v 255; Z.land (Z.shiftr v 8) 255; Z.land (Z.shiftr v 16) 255; Z.land (Z.shiftr v 24) 255].
Definition parseIPv4 (s : string) : result (list Z) :=
  v ← parse_uint s 16 32; Ok (little_endian v).
(** The groups of eight digits; there are four of them. *)
Fixpoint parse_groups (n : nat) (s : string) : result (list Z) :=
  match n with
  | 0 => Ok []
  | S n =>
      u ← parse_uint (stake 8 s) 16 32;
      rest ← parse_groups n (sdrop 8 s);
      Ok (little_endian u ++ rest)
  end.
Definition parseIPv6 (s : string) : result (list Z) := parse_groups 4 s.
Definition parse_ip (s : string) : result (list Z) :=
  if decide (String.length s = ipv4StrLen) then parseIPv4 s
  else if decide (String.length s = ipv6StrLen) then parseIPv6 s
  else Err ("netstat: bad formatted string: " +:+ s).
Definition parseAddr (s : string) : result SockAddr :=
  match Split ":" s with
  | ip :: port :: _ =>
      ip ← parse_ip ip;
      v ← parse_uint port 16 16;
      Ok {| sa_IP := ip; sa_Port := v |}
  | _ => Err ("netstat: not enough fields: " +:+ s)
  end.

Definition before_comment (line : string) : string := default "" (head (Split "#" line)).
Definition parse_line (line : string) : result SockTabEntry :=
  match Fields (before_comment line) with
  | _ :: local :: remote :: state :: _ :: _ :: _ :: uid :: _ :: ino :: _ :: _ :: _ =>
      local ← parseAddr local;
      remote ← parseAddr remote;
      state ← parse_uint state 16 8;
      uid ← parse_uint uid 10 32;
      Ok {| st_ino := ino; st_LocalAddr := local; st_RemoteAddr := remote; st_State := state;
            st_UID := uid; st_Process := None |}
  | fields => Err ("netstat: not enough fields: " +:+ pretty (length fields))
  end.
Fixpoint parse_lines (lines : list string) (accept : SockTabEntry → bool) : result (list SockTabEntry) :=
  match lines with
  | [] => Ok []
  | line :: lines =>
      e ← parse_line line;
      tab ← parse_lines lines accept;
      Ok (if accept e then e :: tab else tab)
  end.
(** The first line is the title; a line that is too long ends the scan with an error. *)
Definition parseSocktab (r : string) (accept : SockTabEntry → bool) : result (list SockTabEntry) :=
  let '(lines, err) := bufio_scan r in
  tab ← parse_lines (tail lines) accept;
  if err : bool then Err "bufio.Scanner: token too long" else Ok tab.

Definition sockPrefix : string := "socket:[".
(** What is between the first opening and the last closing parenthesis *)
Definition getProcName (s : string) : string :=
  match Split "(" s with
  | _ :: (_ :: _) as rest =>
      match rev (Split ")" (GoStrings.Join rest "(")) with
      | _ :: (_ :: _) as before => GoStrings.Join (rev before) ")"
      | _ => ""
      end
  | _ => ""
  end.

Section Procs.
Context (fy : fsys).
Notation C := (M fs).

Definition with_process (p : Process) (e : SockTabEntry) : SockTabEntry := {|
  st_ino := st_ino e; st_LocalAddr := st_LocalAddr e; st_RemoteAddr := st_RemoteAddr e;
  st_State := st_State e; st_UID := st_UID e; st_Process := Some p |}.
(** The process of a directory of /proc, from the second word of its stat *)
Definition read_process (base : string) (pid : Z) : C Process :=
  buf ← ReadFile fy (filepath_Join [base; "stat"]);
  _ ← (if decide (buf = "") then throw "EOF" else mret ());
  z1 ← liftR (deref (Split " " (stake 128 buf) !! 1));
  mret {| ps_Pid := pid; ps_Name := getProcName z1 |}.
(** [None]: the process could not be read, and the walk of its files ends. *)
Fixpoint assign_process (base : string) (pid : Z) (lname : string) (sktab : list SockTabEntry)
    (p : option Process) : C (bool * list SockTabEntry * option Process) :=
  match sktab with
  | [] => mret (true, [], p)
  | sk :: rest =>
      if decide (sockPrefix +:+ st_ino sk +:+ "]" = lname) then
        r ← (match p with Some p => mret (Ok p) | None => caught (read_process base pid) end);
        match r with
        | Ok p =>
            '(go, rest, q) ← assign_process base pid lname rest (Some p);
            mret (go, with_process p sk :: rest, q)
        | Err _ => mret (false, sk :: rest, p)
        | Panic => liftR Panic
        | NoFuel => liftR NoFuel
        end
      else
        '(go, rest, q) ← assign_process base pid lname rest p;
        mret (go, sk :: rest, q)
  end.
Fixpoint iter_fds (base fddir : string) (pid : Z) (fi : list string) (sktab : list SockTabEntry)
    (p : option Process) : C (list SockTabEntry) :=
  match fi with
  | [] => mret sktab
  | file :: fi =>
      lname ← caught (Readlink (filepath_Join [fddir; file]));
      match lname with
      | Ok lname =>
          if HasPrefix lname sockPrefix then
            '(go, sktab, p) ← assign_process base pid lname sktab p;
            if go : bool then iter_fds base fddir pid fi sktab p else mret sktab
          else iter_fds base fddir pid fi sktab p
      | _ => iter_fds base fddir pid fi sktab p
      end
  end.
Definition iterFdDir (base : string) (pid : Z) (sktab : list SockTabEntry) : C (list SockTabEntry) :=
  let fddir := filepath_Join [base; "fd"] in
  fi ← caught (ReadDir fy fddir);
  match fi with Ok fi => iter_fds base fddir pid fi sktab None | _ => mret sktab end.
Fixpoint iter_procs (fi : list string) (sktab : list SockTabEntry) : C (list SockTabEntry) :=
  match fi with
  | [] => mret sktab
  | file :: fi =>
      let base := filepath_Join ["/proc"; file] in
      f ← getS;
      match is_dir (stat_node f false base), Atoi file with
      | true, Some pid => sktab ← iterFdDir base pid sktab; iter_procs fi sktab
      | _, _ => iter_procs fi sktab
      end
  end.
Definition extractProcInfo (sktab : list SockTabEntry) : C (list SockTabEntry) :=
  fi ← caught (ReadDir fy "/proc");
  match fi with Ok fi => iter_procs fi sktab | _ => mret sktab end.
Definition doNetstat (path : string) (fn : SockTabEntry → bool) : C (list SockTabEntry) :=
  content ← ReadFile fy path;
  tabs ← liftR (parseSocktab content fn);
  extractProcInfo tabs.

(** ** watcher.go *)

Definition is_listening (s : SockTabEntry) : bool := bool_decide (st_State s = Listen).
Definition keep_port (s : SockTabEntry) : option string :=
  let port := sa_Port (st_LocalAddr s) in
  if decide (port < 1024 ∨ 12000 < port)%Z then None else Some (pretty port).
Definition findPorts : C (gset string) :=
  tcpSocks ← doNetstat pathTCPTab is_listening;
  tcp6Socks ← doNetstat pathTCP6Tab is_listening;
  mret (list_to_set (omap keep_port (tcpSocks ++ tcp6Socks))).
End Procs.

(** What forwards ports, with its state [F] *)
Class Forwarder (F : Type) := {
  Forward : string → M F unit;
  StopForward : string → M F unit;
}.

Section Watcher.
Context {F : Type} `{!Forwarder F}.
(** the order of a range over a map *)
Context (iter : gset string → list string).

(** The ports the watcher has forwarded, and the forwarder *)
Notation watcher := (gset string * F)%type.
Definition on_forwarder (c : M F unit) : M watcher unit := λ w,
  let '(r, f) := c w.2 in (r, (w.1, f)).
Definition stop_port (newPorts : gset string) (port : string) : M watcher unit :=
  if decide (port ∈ newPorts) then mret ()
  else
    r ← caught (on_forwarder (StopForward port));
    liftR (wrap ("error stop forwarding port " +:+ port) r).
Definition start_port (forwardedPorts : gset string) (port : string) : M watcher unit :=
  if decide (port ∈ forwardedPorts) then mret ()
  else
    r ← caught (on_forwarder (Forward port));
    liftR (wrap ("error forwarding port " +:+ port) r).
Definition runOnce (found : result (gset string)) : M watcher unit :=
  newPorts ← liftR found;
  w ← getS;
  _ ← forM_ (iter w.1) (stop_port newPorts);
  _ ← forM_ (iter newPorts) (start_port w.1);
  modifyS (λ w, (newPorts, w.2)).
(** [Run], for what is found every three seconds; errors are logged. *)
Definition Watcher_Run (rounds : list (result (gset string))) : M watcher unit :=
  forM_ rounds (λ found, try_ (runOnce found)).
End Watcher.

(** ** tunnel/forwarder.go *)

Inductive forwarding_event := Started (port : string) | Stopped (port : string).
(** The ports that are forwarded otherwise, those of this forwarder, and what it did *)
Record forwarder := {
  f_forwardedPorts : list string;
  f_portMap : gset string;
  f_events : list forwarding_event;
}.
Definition newForwarder (forwardedPorts : list string) : forwarder :=
  {| f_forwardedPorts := forwardedPorts; f_portMap := ∅; f_events := [] |}.
Definition isExcluded (f : forwarder) (port : string) : bool :=
  bool_decide (port ∈ f_forwardedPorts f).
Definition forwarder_Forward (port : string) : M forwarder unit :=
  f ← getS;
  if isExcluded f port || bool_decide (port ∈ f_portMap f) then mret ()
  else putS {| f_forwardedPorts := f_forwardedPorts f; f_portMap := {[port]} ∪ f_portMap f;
               f_events := f_events f ++ [Started port] |}.
Definition forwarder_StopForward (port : string) : M forwarder unit :=
  f ← getS;
  if isExcluded f port || bool_decide (port ∉ f_portMap f) then mret ()
  else putS {| f_forwardedPorts := f_forwardedPorts f; f_portMap := f_portMap f ∖ {[port]};
               f_events := f_events f ++ [Stopped port] |}.
#[export] Instance local_forwarder : Forwarder forwarder :=
  {| Forward := forwarder_Forward; StopForward := forwarder_StopForward |}.

(** The forwarder of the credentials server calls the one on the local machine through the
    tunnel.  A call may get lost, or only its answer. *)
Inductive transport := Delivered | LostCall (e : string) | LostAnswer (e : string).
Section Tunnel.
Context {F : Type} `{!Forwarder F}.
Definition over_tunnel (c : M F unit) : M (F * list transport) unit := λ '(f, ts),
  match ts with
  | LostCall e :: ts => (Err e, (f, ts))
  | LostAnswer e :: ts => let '(_, f) := c f in (Err e, (f, ts))
  | Delivered :: ts | ts => let '(r, f) := c f in (r, (f, ts))
  end.
(** the handlers [ForwardPort] and [StopForwardPort] of the tunnel server wrap the errors *)
Definition remote_Forward (port : string) : M (F * list transport) unit :=
  over_tunnel (r ← caught (Forward port); liftR (wrap ("error forwarding port " +:+ port) r)).
Definition remote_StopForward (port : string) : M (F * list transport) unit :=
  over_tunnel (r ← caught (StopForward port); liftR (wrap ("error stop forwarding port " +:+ port) r)).
#[export] Instance remote_forwarder : Forwarder (F * list transport) :=
  {| Forward := remote_Forward; StopForward := remote_StopForward |}.
End Tunnel.

(** ** tunnel/services.go: the ports of devcontainer.json *)

(** A call of [PortForward]: the two addresses, and the seconds after which it ends when idle *)
Record port_forward := { pf_local : string; pf_remote : string; pf_exitAfter : Z }.

Definition parseForwardPort (port : string) : result (string * Z) :=
  match Split ":" port with
  | [p] => n ← of_option "invalid port" (ParseInt p); Ok ("localhost", n)
  | [host; p] => n ← of_option "invalid port" (ParseInt p); Ok (host, n)
  | _ => Err "invalid forwardPorts port"
  end.
(** A port that cannot be parsed is forwarded as port 0. *)
Definition forward_entry (port : string) : port_forward :=
  let '(host, n) := match parseForwardPort port with Ok x => x | _ => ("", 0%Z) end in
  {| pf_local := "localhost:" +:+ pretty n; pf_remote := host +:+ ":" +:+ pretty n; pf_exitAfter := 0 |}.

(** [nat.PortMapping], and [nat.ParsePortSpec] *)
Record PortMapping := { pm_HostIP : string; pm_HostPort : string; pm_Port : string }.
Section Services.
Context (ParsePortSpec : string → string + list PortMapping).
Definition host_port (p : PortMapping) : string :=
  if decide (pm_HostPort p = "") then pm_Port p else pm_HostPort p.
Definition forward_mapping (exitAfterTimeout : Z) (p : PortMapping) : port_forward := {|
  pf_local := (if decide (pm_HostIP p = "") then "localhost" else pm_HostIP p) +:+ ":" +:+ host_port p;
  pf_remote := "localhost:" +:+ pm_Port p;
  pf_exitAfter := exitAfterTimeout |}.
(** What is forwarded, and the local ports *)
Definition forwardPort (port : string) (exitAfterTimeout : Z) : list port_forward * list string :=
  match ParsePortSpec port with
  | inr parsed => (forward_mapping exitAfterTimeout <$> parsed, host_port <$> parsed)
  | inl _ => ([], [])
  end.
Definition all_ports (l : list (list port_forward * list string)) : list port_forward * list string :=
  (concat l.*1, concat l.*2).
Definition forwardDevContainerPorts (extraPorts appPort forwardPorts : list string)
    (exitAfterTimeout : Z) : list port_forward * list string :=
  all_ports (((λ p, forwardPort p exitAfterTimeout) <$> extraPorts) ++
             ((λ p, forwardPort p 0) <$> appPort) ++
             ((λ p, ([forward_entry p], [p])) <$> forwardPorts)).

Record services := {
  sv_user : string;
  sv_forwardPorts : bool;
  sv_configureDockerCredentials : bool;
  sv_configureGitCredentials : bool;
  sv_configureGitSSHSignatureHelper : bool;
  sv_debug : bool;
}.
(** The command that runs the credentials server in the container *)
Definition credentials_command (helper : string) (signingKey : option string) (s : services) : string :=
  "'" +:+ helper +:+ "' agent container credentials-server --user '" +:+ sv_user s +:+ "'" +:+
  (if sv_configureGitCredentials s then " --configure-git-helper" else "") +:+
  (match signingKey with
   | Some encodedKey => if sv_configureGitSSHSignatureHelper s
                        then " --git-user-signing-key " +:+ encodedKey else ""
   | None => ""
   end) +:+
  (if sv_configureDockerCredentials s then " --configure-docker-helper" else "") +:+
  (if sv_forwardPorts s then " --forward-ports" else "") +:+
  (if sv_debug s then " --debug" else "").
(** The forwarder of one attempt: every attempt has a new one. *)
Definition attempt_forwarder (forwardedPorts : list string) (s : services) : option forwarder :=
  if sv_forwardPorts s then Some (newForwarder (forwardedPorts ++ [pretty DefaultVSCodePort])) else None.
End Services.
