(* ===== verification/NetstatProps.v ===== *)
(** * Properties of listening ports and their forwarding

    What the kernel prints is parsed back, the ports found are exactly those in the tables,
    and the watcher keeps the forwarded ports in step with them. *)

From S2P Require Import Prelude GoStrings SshConfig SshConfigProps Options FileTree Netstat.
From stdpp Require Import base gmap list strings pretty.
From Stdlib Require Import ZArith Lia.

Local Open Scope string_scope.
Local Open Scope list_scope.

(** ** Numbers *)

(** [%0nX] *)
Definition hex_digit (d : Z) : ascii :=
  default "0"%char (String.get (Z.to_nat d) "0123456789ABCDEF").
Fixpoint print_hex (n : nat) (v : Z) : string :=
  match n with
  | 0 => ""
  | S n => String (hex_digit (v / 16 ^ Z.of_nat n)) (print_hex n (v mod 16 ^ Z.of_nat n))
  end.

Lemma hex_digit_cases (P : ascii → Prop) d : (0 ≤ d < 16)%Z →
  Forall P (String.list_ascii_of_string "0123456789ABCDEF") → P (hex_digit d).
Proof.
  intros Hd HP. rewrite Forall_forall in HP. apply HP.
  assert (∃ n, d = Z.of_nat n ∧ (n < 16)%nat) as (n & -> & Hn) by (exists (Z.to_nat d); lia).
  unfold hex_digit. rewrite Nat2Z.id. do 16 (destruct n as [|n]; [cbn; set_solver|]). lia.
Qed.
Lemma hex_digit_value d : (0 ≤ d < 16)%Z → alpha_value (hex_digit d) = Some d.
Proof.
  intros Hd. assert (∃ n, d = Z.of_nat n ∧ (n < 16)%nat) as (n & -> & Hn) by (exists (Z.to_nat d); lia).
  unfold hex_digit. rewrite Nat2Z.id. do 16 (destruct n as [|n]; [reflexivity|]). lia.
Qed.
Lemma print_hex_split n v : (0 ≤ v < 16 ^ Z.of_nat (S n))%Z →
  (0 ≤ v / 16 ^ Z.of_nat n < 16)%Z ∧ (0 ≤ v mod 16 ^ Z.of_nat n < 16 ^ Z.of_nat n)%Z.
Proof.
  intros Hv. assert (0 < 16 ^ Z.of_nat n)%Z by (apply Z.pow_pos_nonneg; lia).
  replace (Z.of_nat (S n)) with (Z.of_nat n + 1)%Z in Hv by lia.
  rewrite Z.pow_add_r in Hv by lia. split; [|by apply Z.mod_pos_bound].
  split; [apply Z.div_pos; lia|apply Z.div_lt_upper_bound; lia].
Qed.
Lemma print_hex_parse n : ∀ acc v, (0 ≤ v < 16 ^ Z.of_nat n)%Z →
  parse_base 16 acc (print_hex n v) = Some (acc * 16 ^ Z.of_nat n + v)%Z.
Proof.
  induction n as [|n IH]; intros acc v Hv; cbn [print_hex parse_base].
  { f_equal. cbn in *. lia. }
  destruct (print_hex_split _ _ Hv) as [Hd Hr]. rewrite hex_digit_value by done. cbn.
  destruct (Z.ltb_spec (v / 16 ^ Z.of_nat n) 16); [|lia]. rewrite IH by done. f_equal.
  assert (0 < 16 ^ Z.of_nat n)%Z by (apply Z.pow_pos_nonneg; lia).
  rewrite (Z.div_mod v (16 ^ Z.of_nat n)) at 3 by lia.
  replace (Z.of_nat (S n)) with (Z.of_nat n + 1)%Z by lia. rewrite Z.pow_add_r by lia. lia.
Qed.
Lemma print_hex_length n v : String.length (print_hex n v) = n.
Proof. revert v. induction n as [|n IH]; intros v; cbn; [done|]. by rewrite IH. Qed.
Lemma print_hex_chars p n : Forall (λ c, p c = true) (String.list_ascii_of_string "0123456789ABCDEF") →
  ∀ v, (0 ≤ v < 16 ^ Z.of_nat n)%Z → sforall p (print_hex n v) = true.
Proof.
  intros Hp. induction n as [|n IH]; intros v Hv; [done|]. cbn [print_hex sforall].
  destruct (print_hex_split _ _ Hv) as [Hd Hr]. rewrite IH by done.
  pose proof (hex_digit_cases (λ c, p c = true) _ Hd Hp) as H. cbn beta in H. by rewrite H.
Qed.
Lemma ParseUint_hex n bits v : n ≠ 0%nat → (0 ≤ v < 16 ^ Z.of_nat n)%Z → (v < 2 ^ bits)%Z →
  ParseUint (print_hex n v) 16 bits = Some v.
Proof.
  intros Hn Hv Hb. unfold ParseUint. destruct n as [|n]; [done|].
  rewrite (print_hex_parse (S n) 0 v Hv), Z.mul_0_l, Z.add_0_l. cbn [print_hex mbind option_bind].
  by rewrite (proj2 (Z.ltb_lt _ _) Hb).
Qed.

(** ** Addresses *)

Definition byte (b : Z) : Prop := (0 ≤ b < 256)%Z.
(** The kernel prints the four bytes as the number they are in memory. *)
Definition group_value (g : list Z) : Z :=
  foldr (λ b v, b + 256 * v)%Z 0%Z g.
Definition print_ip4 (g : list Z) : string := print_hex 8 (group_value g).
Definition print_ip (ip : list Z) : string :=
  match ip with
  | [_; _; _; _] => print_ip4 ip
  | _ => print_ip4 (take 4 ip) +:+ (print_ip4 (take 4 (drop 4 ip)) +:+
         (print_ip4 (take 4 (drop 8 ip)) +:+ print_ip4 (drop 12 ip)))
  end.
Definition print_addr (a : SockAddr) : string :=
  print_ip (sa_IP a) +:+ String ":" (print_hex 4 (sa_Port a)).
Definition valid_addr (a : SockAddr) : Prop :=
  Forall byte (sa_IP a) ∧ (length (sa_IP a) = 4%nat ∨ length (sa_IP a) = 16%nat) ∧
  (0 ≤ sa_Port a < 65536)%Z.

Lemma group_bound g : Forall byte g → length g = 4%nat → (0 ≤ group_value g < 16 ^ Z.of_nat 8)%Z.
Proof.
  intros Hg Hl. destruct g as [|a [|b [|c [|d []]]]]; try done. cbn.
  apply Forall_cons in Hg as [Ha Hg]; apply Forall_cons in Hg as [Hb Hg];
    apply Forall_cons in Hg as [Hc Hg]; apply Forall_cons in Hg as [Hd _]. unfold byte in *. lia.
Qed.
Lemma little_endian_group g : Forall byte g → length g = 4%nat → little_endian (group_value g) = g.
Proof.
  intros Hg Hl. destruct g as [|a [|b [|c [|d []]]]]; try done.
  apply Forall_cons in Hg as [Ha Hg]; apply Forall_cons in Hg as [Hb Hg];
    apply Forall_cons in Hg as [Hc Hg]; apply Forall_cons in Hg as [Hd _]. unfold byte in *.
  unfold little_endian. replace 255%Z with (Z.ones 8) by reflexivity.
  rewrite !Z.land_ones, !Z.shiftr_div_pow2 by lia. cbn [group_value foldr].
  replace (2 ^ 8)%Z with 256%Z by reflexivity. replace (2 ^ 16)%Z with 65536%Z by reflexivity.
  replace (2 ^ 24)%Z with 16777216%Z by reflexivity.
  repeat f_equal; Z.div_mod_to_equations; lia.
Qed.
Lemma parse_group g : Forall byte g → length g = 4%nat →
  parse_uint (print_ip4 g) 16 32 = Ok (group_value g).
Proof.
  intros Hg Hl. pose proof (group_bound _ Hg Hl) as Hb. unfold parse_uint, print_ip4.
  rewrite ParseUint_hex; [done|done|done|]. cbn in *. lia.
Qed.
Lemma print_ip4_length g : String.length (print_ip4 g) = 8%nat.
Proof. apply print_hex_length. Qed.
Lemma parse_ip_print ip : Forall byte ip → length ip = 4%nat ∨ length ip = 16%nat →
  parse_ip (print_ip ip) = Ok ip.
Proof.
  intros Hip [Hl|Hl].
  - assert (print_ip ip = print_ip4 ip) as ->
      by (destruct ip as [|a [|b [|c [|d []]]]]; done).
    unfold parse_ip, ipv4StrLen. rewrite decide_True by apply print_hex_length.
    unfold parseIPv4. rewrite parse_group by done. cbn. f_equal. by apply little_endian_group.
  - assert (print_ip ip = print_ip4 (take 4 ip) +:+ (print_ip4 (take 4 (drop 4 ip)) +:+
      (print_ip4 (take 4 (drop 8 ip)) +:+ print_ip4 (drop 12 ip)))) as ->
      by (destruct ip as [|a [|b [|c [|d []]]]]; done).
    unfold parse_ip. rewrite !slength_app, !print_ip4_length.
    rewrite decide_False by (unfold ipv4StrLen; lia). rewrite decide_True by (unfold ipv6StrLen; lia).
    unfold parseIPv6. cbn [parse_groups].
    assert (∀ g s, stake 8 (print_ip4 g +:+ s) = print_ip4 g ∧ sdrop 8 (print_ip4 g +:+ s) = s) as Hs.
    { intros g s. pose proof (stake_app (print_ip4 g) s) as H1. pose proof (sdrop_app (print_ip4 g) s) as H2.
      assert (String.length (print_ip4 g) = 8%nat) as H8 by apply print_ip4_length.
      by rewrite H8 in H1, H2. }
    assert (∀ g, stake 8 (print_ip4 g) = print_ip4 g) as Hs'.
    { intros g. rewrite <- (sapp_nil_r (print_ip4 g)) at 1. by destruct (Hs g ""). }
    repeat first [rewrite (proj1 (Hs _ _))|rewrite (proj2 (Hs _ _))]. rewrite Hs'.
    rewrite !parse_group by (try (by apply Forall_take, Forall_drop); try (by apply Forall_drop);
      try (by apply Forall_take); rewrite ?length_take, ?length_drop; lia).
    cbn [mbind result_bind]. f_equal.
    rewrite !little_endian_group by (try (by apply Forall_take, Forall_drop); try (by apply Forall_drop);
      try (by apply Forall_take); rewrite ?length_take, ?length_drop; lia).
    do 17 (destruct ip as [|? ip]; [done|]). done.
Qed.

Definition hex_char (c : ascii) : bool := is_digit c || in_range 65 70 c.
Lemma print_ip4_chars g : Forall byte g → length g = 4%nat → sforall hex_char (print_ip4 g) = true.
Proof.
  intros Hg Hl. apply print_hex_chars; [by repeat constructor|by apply group_bound].
Qed.
Lemma print_ip_chars ip : Forall byte ip → length ip = 4%nat ∨ length ip = 16%nat →
  sforall hex_char (print_ip ip) = true.
Proof.
  intros Hip Hl. assert (∀ n, (n + 4 ≤ length ip)%nat → sforall hex_char (print_ip4 (take 4 (drop n ip))) = true)
    as H4.
  { intros n Hn. apply print_ip4_chars; [by apply Forall_take, Forall_drop|].
    rewrite length_take, length_drop. lia. }
  destruct Hl as [Hl|Hl].
  - specialize (H4 0%nat). destruct ip as [|a [|b [|c [|d []]]]]; try done. apply H4. cbn. lia.
  - assert (print_ip ip = print_ip4 (take 4 (drop 0 ip)) +:+ (print_ip4 (take 4 (drop 4 ip)) +:+
      (print_ip4 (take 4 (drop 8 ip)) +:+ print_ip4 (take 4 (drop 12 ip))))) as ->.
    { do 17 (destruct ip as [|? ip]; [done|]). done. }
    rewrite !sforall_app, !H4 by lia. done.
Qed.
Lemma hex_free c s : hex_char c = false → sforall hex_char s = true → free c s = true.
Proof.
  intros Hc. induction s as [|d s IH]; [done|]. cbn [sforall]. intros [Hd Hs]%andb_prop.
  apply free_cons. split; [|by apply IH]. intros ->. congruence.
Qed.

(** An address in a table of the kernel is parsed to the address that the kernel printed, for
    IPv4 and IPv6. *)
Lemma parseAddr_print a : valid_addr a → parseAddr (print_addr a) = Ok a.
Proof.
  intros (Hip & Hl & Hp). unfold parseAddr, print_addr.
  rewrite Split_app by (by apply hex_free, print_ip_chars).
  rewrite Split_free.
  - rewrite parse_ip_print by done. cbn [mbind result_bind]. unfold parse_uint.
    rewrite ParseUint_hex; [|done|done|by destruct Hp]. by destruct a.
  - apply hex_free; [done|]. apply print_hex_chars; [by repeat constructor|done].
Qed.

(** ** Tables *)

(** A row: an entry, and the line that the kernel prints for it.  The line has at least the
    twelve columns that are read, however they are padded: the slot, the addresses and the state
    as hexadecimal numbers, three columns of queues and timers, the user, a timeout and the inode. *)
Record row := { r_entry : SockTabEntry; r_line : string }.
Definition columns (e : SockTabEntry) (l : list string) : Prop :=
  ∃ slot queues timer retransmits uid timeout rest,
    l = [slot; print_addr (st_LocalAddr e); print_addr (st_RemoteAddr e); print_hex 2 (st_State e);
         queues; timer; retransmits; uid; timeout; st_ino e] ++ rest ∧
    (2 ≤ length rest)%nat ∧ ParseUint uid 10 32 = Some (st_UID e).
Definition valid_row (r : row) : Prop :=
  let e := r_entry r in
  valid_addr (st_LocalAddr e) ∧ valid_addr (st_RemoteAddr e) ∧ (0 ≤ st_State e < 256)%Z ∧
  st_Process e = None ∧ columns e (Fields (r_line r)) ∧ fit 65536 (r_line r) ∧
  newline_free (r_line r) ∧ free "#" (r_line r) = true ∧ free "013" (r_line r) = true.
(** A title, and every line with its end *)
Definition print_table (title : string) (rows : list row) : string :=
  GoStrings.Join ((title :: (r_line <$> rows)) ++ [""]) newline.
Definition is_table (rows : list row) (text : string) : Prop :=
  ∃ title, newline_free title ∧ fit 65536 title ∧ Forall valid_row rows ∧ text = print_table title rows.

Lemma parse_line_print r : valid_row r → parse_line (r_line r) = Ok (r_entry r).
Proof.
  intros (Hl & Hr & Hs & Hp & (slot & q & t & rt & uid & to & rest & Hf & Hlen & Hu) & _ & _ & Hc & _).
  unfold parse_line, before_comment. rewrite Split_free by done. cbn [head from_option id].
  rewrite Hf. destruct rest as [|x [|y rest]]; cbn in Hlen; [lia..|]. cbn [app].
  rewrite !parseAddr_print by done. cbn [mbind result_bind]. unfold parse_uint.
  rewrite ParseUint_hex; [|done|done|by destruct Hs]. cbn [of_option mbind result_bind].
  rewrite Hu. cbn. destruct r as [[]]. cbn in *. by subst.
Qed.
Lemma parse_lines_print rows accept : Forall valid_row rows →
  parse_lines (r_line <$> rows) accept = Ok (filter (λ e, accept e = true) (r_entry <$> rows)).
Proof.
  induction 1 as [|r rows Hr _ IH]; [done|]. cbn [fmap list_fmap parse_lines].
  rewrite parse_line_print by done. cbn [mbind result_bind].
  change (list_fmap _ _ r_line rows) with (r_line <$> rows). rewrite IH. cbn [mbind result_bind].
  change (list_fmap _ _ r_entry rows) with (r_entry <$> rows). rewrite filter_cons.
  by destruct (accept (r_entry r)).
Qed.
Lemma no_cr s : free "013" s = true → dropCR s = s.
Proof.
  intros Hf. unfold dropCR, TrimSuffix. destruct (HasSuffix s _) eqn:Hs; [|done]. exfalso.
  unfold HasSuffix in Hs. apply andb_prop in Hs as [_ Hs]. apply bool_decide_eq_true in Hs.
  assert (∀ n, free "013" (sdrop n s) = true) as Hd.
  { clear Hs. intros n. revert s Hf. induction n as [|n IH]; intros [|c s] Hf; [done..|].
    cbn. apply free_cons in Hf as [_ Hf]. by apply IH. }
  specialize (Hd (String.length s - 1)%nat). cbn in Hs. rewrite Hs in Hd. done.
Qed.

Lemma parseSocktab_text rows text accept : is_table rows text →
  parseSocktab text accept = Ok (filter (λ e, accept e = true) (r_entry <$> rows)).
Proof.
  intros (title & Hn & Hfit & Hrows & ->). unfold parseSocktab, print_table.
  assert (∀ l, l ∈ r_line <$> rows → newline_free l ∧ fit 65536 l ∧ dropCR l = l) as Hv.
  { intros l (r & -> & Hr)%list_elem_of_fmap. rewrite Forall_forall in Hrows.
    destruct (Hrows r Hr) as (_ & _ & _ & _ & _ & ? & ? & _ & ?). split_and!; [done..|by apply no_cr]. }
  rewrite bufio_scan_Join.
  - rewrite drop_last_empty_snoc. cbn [fmap list_fmap tail].
    assert (dropCR <$> (r_line <$> rows) = r_line <$> rows) as Hid.
    { rewrite <- (list_fmap_id (r_line <$> rows)) at 2. apply list_fmap_ext.
      intros i l Hl. apply Hv. by eapply list_elem_of_lookup_2. }
    change (list_fmap _ _ dropCR _) with (dropCR <$> (r_line <$> rows)). rewrite Hid.
    by rewrite parse_lines_print.
  - apply Forall_app. split; [|by repeat constructor]. constructor; [done|].
    apply Forall_forall. intros l Hl. by apply Hv.
  - apply Forall_app. split; [|by repeat constructor]. constructor; [done|].
    apply Forall_forall. intros l Hl. by apply Hv.
Qed.

(** ** The ports that are found *)

Section Ports.
Context (fy : fsys) (f : fs).

(** A call that changes nothing and returns *)
Definition gives {X} (c : M fs X) (P : X → Prop) : Prop := ∃ x, c f = (Ok x, f) ∧ P x.
Lemma gives_ret {X} (x : X) (P : X → Prop) : P x → gives (mret x) P.
Proof. by exists x. Qed.
Lemma gives_bind {X Y} (c : M fs X) (k : X → M fs Y) P Q :
  gives c P → (∀ x, P x → gives (k x) Q) → gives (c ≫= k) Q.
Proof.
  intros (x & Hc & Hx) Hk. destruct (Hk x Hx) as (y & Hy & HQ). exists y.
  by rewrite (run_Ok _ _ _ _ _ Hc).
Qed.
Lemma gives_caught {X} (c : M fs X) (P : result X → Prop) :
  (c f).2 = f → P (c f).1 → gives (caught c) P.
Proof. unfold gives, caught. destruct (c f) as [r g]. cbn. intros -> HP. by exists r. Qed.
Lemma gives_impl {X} (c : M fs X) (P Q : X → Prop) : gives c P → (∀ x, P x → Q x) → gives c Q.
Proof. intros (x & Hc & Hx) HPQ. exists x. auto. Qed.

(** Every stat file that is not empty has a second word, as the kernel prints it. *)
Definition stats_ok : Prop := ∀ (p c : string),
  (ReadFile fy (filepath_Join [p; "stat"]) f).1 = Ok c → c ≠ "" →
  is_Some (Split " " (stake 128 c) !! 1%nat).
Hypothesis Hstats : stats_ok.

Lemma ReadFile_same (p : string) : (ReadFile fy p f).2 = f.
Proof. unfold ReadFile, call. destruct (fy_fail _ _ _); [done|]. rewrite run_get. by repeat case_match. Qed.
Lemma ReadFile_returns (p : string) : (ReadFile fy p f).1 ≠ Panic ∧ (ReadFile fy p f).1 ≠ NoFuel.
Proof. unfold ReadFile, call. destruct (fy_fail _ _ _); [done|]. rewrite run_get. by repeat case_match. Qed.
Lemma ReadDir_same (p : string) : (ReadDir fy p f).2 = f.
Proof. unfold ReadDir, call. destruct (fy_fail _ _ _); [done|]. rewrite run_get. by repeat case_match. Qed.
Lemma Readlink_same (p : string) : (Readlink p f).2 = f.
Proof. unfold Readlink. rewrite run_get. by repeat case_match. Qed.

Lemma read_process_gives base pid :
  gives (caught (read_process fy base pid)) (λ r, (∃ p, r = Ok p) ∨ ∃ e, r = Err e).
Proof.
  pose proof (ReadFile_same (filepath_Join [base; "stat"])) as Hs.
  pose proof (ReadFile_returns (filepath_Join [base; "stat"])) as [Hp Hn].
  pose proof (Hstats base) as Hok. unfold gives, caught, read_process, mbind, M_bind.
  destruct (ReadFile fy _ f) as [[c|e| |] g]; cbn in Hs, Hp, Hn, Hok; subst g; [|by eauto..].
  case_decide as Hc; [by eauto|]. cbn. destruct (Hok c eq_refl Hc) as (z & ->). cbn. eauto.
Qed.
Lemma keep_with_process p e : keep_port (with_process p e) = keep_port e.
Proof. done. Qed.
Lemma assign_gives base pid lname sktab : ∀ p,
  gives (assign_process fy base pid lname sktab p) (λ r, keep_port <$> r.1.2 = keep_port <$> sktab).
Proof.
  induction sktab as [|sk rest IH]; intros p; cbn [assign_process]; [by apply gives_ret|].
  case_decide.
  - eapply gives_bind with (P := λ r, (∃ p, r = Ok p) ∨ ∃ e, r = Err e).
    { destruct p; [by apply gives_ret; eauto|apply read_process_gives]. }
    intros r [(q & ->)|(e & ->)]; [|by apply gives_ret].
    eapply gives_bind; [apply IH|]. intros [[go l] q'] Hl. apply gives_ret. cbn in *. by rewrite Hl.
  - eapply gives_bind; [apply IH|]. intros [[go l] q'] Hl. apply gives_ret. cbn in *. by rewrite Hl.
Qed.
Lemma iter_fds_gives base fddir pid fi : ∀ sktab p,
  gives (iter_fds fy base fddir pid fi sktab p) (λ l, keep_port <$> l = keep_port <$> sktab).
Proof.
  induction fi as [|file fi IH]; intros sktab p; cbn [iter_fds]; [by apply gives_ret|].
  eapply gives_bind with (P := λ _, True); [by apply gives_caught; [apply Readlink_same|]|].
  intros [lname|e| |] _; try apply IH. destruct (HasPrefix lname sockPrefix); [|apply IH].
  eapply gives_bind; [apply assign_gives|]. intros [[[] l] q] Hl; cbn in Hl; [|by apply gives_ret].
  eapply gives_impl; [apply IH|]. intros l' Hl'. congruence.
Qed.
Lemma iter_procs_gives fi : ∀ sktab,
  gives (iter_procs fy fi sktab) (λ l, keep_port <$> l = keep_port <$> sktab).
Proof.
  induction fi as [|file fi IH]; intros sktab; cbn [iter_procs]; [by apply gives_ret|].
  apply gives_bind with (P := λ g, g = f); [by exists f|]. intros g ->.
  destruct (is_dir _); [|apply IH]. destruct (Atoi file) as [pid|]; [|apply IH].
  eapply gives_bind with (P := λ l, keep_port <$> l = keep_port <$> sktab).
  - unfold iterFdDir. eapply gives_bind with (P := λ _, True); [by apply gives_caught; [apply ReadDir_same|]|].
    intros [l|e| |] _; [apply iter_fds_gives|by apply gives_ret..].
  - intros l Hl. eapply gives_impl; [apply IH|]. intros l' Hl'. congruence.
Qed.
Lemma doNetstat_gives (p : string) rows text accept : is_table rows text →
  (ReadFile fy p f).1 = Ok text →
  gives (doNetstat fy p accept) (λ l,
    keep_port <$> l = keep_port <$> filter (λ e, accept e = true) (r_entry <$> rows)).
Proof.
  intros Hrows Hread. unfold doNetstat.
  apply gives_bind with (P := λ c, c = text).
  { exists text. split; [|done]. rewrite <- (ReadFile_same p) at 2. rewrite <- Hread.
    by destruct (ReadFile fy p f). }
  intros c ->. rewrite (parseSocktab_text rows) by done.
  eapply gives_bind with (P := λ l, l = _); [by eexists|]. intros l ->.
  unfold extractProcInfo. eapply gives_bind with (P := λ _, True);
    [by apply gives_caught; [apply ReadDir_same|]|].
  intros [fi|e| |] _; [apply iter_procs_gives|by apply gives_ret..].
Qed.

End Ports.

(** ** The watcher and the forwarder *)

Section Watching.
Context (iter : gset string → list string) (Hiter : ∀ X, iter X ≡ₚ elements X).
Notation watcher := (gset string * forwarder)%type.

Definition excluded (f : forwarder) : gset string := list_to_set (f_forwardedPorts f).
Lemma isExcluded_spec f p : isExcluded f p = bool_decide (p ∈ excluded f).
Proof. unfold isExcluded, excluded. by apply bool_decide_ext; rewrite elem_of_list_to_set. Qed.
Lemma elem_of_iter p X : p ∈ iter X ↔ p ∈ X.
Proof. by rewrite Hiter, elem_of_elements. Qed.

Lemma filter_in_iff {A} (P Q : A → Prop) `{!∀ x, Decision (P x), !∀ x, Decision (Q x)} (l : list A) :
  (∀ x, x ∈ l → P x ↔ Q x) → filter P l = filter Q l.
Proof.
  induction l as [|x l IH]; intros HPQ; [done|]. rewrite !filter_cons.
  rewrite IH by (intros y Hy; apply HPQ; by right). specialize (HPQ x ltac:(by left)).
  destruct (decide (P x)), (decide (Q x)); naive_solver.
Qed.
(** The forwarder after some ports were stopped, and after some were started *)
Definition stopped (l : list string) (f : forwarder) : forwarder := {|
  f_forwardedPorts := f_forwardedPorts f; f_portMap := f_portMap f ∖ list_to_set l;
  f_events := f_events f ++ (Stopped <$> l) |}.
Definition started (l : list string) (f : forwarder) : forwarder := {|
  f_forwardedPorts := f_forwardedPorts f; f_portMap := list_to_set l ∪ f_portMap f;
  f_events := f_events f ++ (Started <$> l) |}.

Definition to_stop (new : gset string) (f : forwarder) (p : string) : Prop :=
  p ∉ new ∧ p ∉ excluded f ∧ p ∈ f_portMap f.
Definition to_start (ws : gset string) (f : forwarder) (p : string) : Prop :=
  p ∉ ws ∧ p ∉ excluded f ∧ p ∉ f_portMap f.
#[local] Instance to_stop_dec new f p : Decision (to_stop new f p).
Proof. unfold to_stop. apply _. Defined.
#[local] Instance to_start_dec ws f p : Decision (to_start ws f p).
Proof. unfold to_start. apply _. Defined.

Lemma stop_port_run new p ws f : stop_port new p (ws, f) =
  (Ok (), (ws, if decide (to_stop new f p) then stopped [p] f else f)).
Proof.
  unfold stop_port, to_stop. destruct (decide (p ∈ new)); [by rewrite decide_False by tauto|].
  unfold mbind, M_bind, caught, on_forwarder. cbn [fst snd StopForward local_forwarder].
  unfold forwarder_StopForward. rewrite run_get, isExcluded_spec.
  destruct (decide (p ∈ excluded f)).
  { rewrite bool_decide_true by done. by rewrite decide_False by tauto. }
  rewrite (bool_decide_false (p ∈ _)) by done. cbn [orb]. destruct (decide (p ∈ f_portMap f)).
  - rewrite bool_decide_false by tauto. rewrite decide_True by done.
    unfold stopped. cbn. do 3 f_equal. set_solver.
  - rewrite bool_decide_true by done. by rewrite decide_False by tauto.
Qed.
Lemma start_port_run ws0 p ws f : start_port ws0 p (ws, f) =
  (Ok (), (ws, if decide (to_start ws0 f p) then started [p] f else f)).
Proof.
  unfold start_port, to_start. destruct (decide (p ∈ ws0)); [by rewrite decide_False by tauto|].
  unfold mbind, M_bind, caught, on_forwarder. cbn [fst snd Forward local_forwarder].
  unfold forwarder_Forward. rewrite run_get, isExcluded_spec.
  destruct (decide (p ∈ excluded f)).
  { rewrite bool_decide_true by done. by rewrite decide_False by tauto. }
  rewrite (bool_decide_false (p ∈ excluded f)) by done. cbn [orb].
  destruct (decide (p ∈ f_portMap f)).
  - rewrite bool_decide_true by done. by rewrite decide_False by tauto.
  - rewrite bool_decide_false by done. rewrite decide_True by done.
    unfold started. cbn. do 3 f_equal. set_solver.
Qed.
Lemma stop_ports new l : ∀ ws f, NoDup l →
  forM_ l (stop_port new) (ws, f) = (Ok (), (ws, stopped (filter (to_stop new f) l) f)).
Proof.
  induction l as [|p l IH]; intros ws f Hnd; cbn [forM_].
  { unfold stopped. cbn. rewrite difference_empty_L, app_nil_r. by destruct f. }
  apply NoDup_cons in Hnd as [Hp Hnd]. rewrite (run_Ok _ _ _ _ _ (stop_port_run _ _ _ _)), IH by done.
  rewrite filter_cons. destruct (decide (to_stop new f p)); [|done].
  assert (filter (to_stop new (stopped [p] f)) l = filter (to_stop new f) l) as ->.
  { apply filter_in_iff. intros q Hq. unfold to_stop, stopped, excluded. cbn. set_solver. }
  unfold stopped. cbn. rewrite <- app_assoc. do 3 f_equal. set_solver.
Qed.
Lemma start_ports ws0 l : ∀ ws f, NoDup l →
  forM_ l (start_port ws0) (ws, f) = (Ok (), (ws, started (filter (to_start ws0 f) l) f)).
Proof.
  induction l as [|p l IH]; intros ws f Hnd; cbn [forM_].
  { unfold started. cbn. rewrite union_empty_l_L, app_nil_r. by destruct f. }
  apply NoDup_cons in Hnd as [Hp Hnd]. rewrite (run_Ok _ _ _ _ _ (start_port_run _ _ _ _)), IH by done.
  rewrite filter_cons. destruct (decide (to_start ws0 f p)); [|done].
  assert (filter (to_start ws0 (started [p] f)) l = filter (to_start ws0 f) l) as ->.
  { apply filter_in_iff. intros q Hq. unfold to_start, started, excluded. cbn. set_solver. }
  unfold started. cbn. rewrite <- app_assoc. do 3 f_equal. set_solver.
Qed.

(** The forwarder is in step with the watcher. *)
Definition in_step (w : gset string * forwarder) : Prop := f_portMap w.2 = w.1 ∖ excluded w.2.
Definition moved (from to : gset string) (f : forwarder) : list string :=
  filter (λ p, p ∉ to ∪ excluded f) (iter from).

Lemma runOnce_run new ws f : in_step (ws, f) →
  ∃ f', runOnce iter (Ok new) (ws, f) = (Ok (), (new, f')) ∧ in_step (new, f') ∧
    f_forwardedPorts f' = f_forwardedPorts f ∧
    f_events f' = f_events f ++ (Stopped <$> moved ws new f) ++ (Started <$> moved new ws f).
Proof.
  unfold in_step. cbn [fst snd]. intros Hin. unfold runOnce. rewrite run_lift_Ok, run_get. cbn [fst].
  assert (∀ X, NoDup (iter X)) as Hnd by (intros X; rewrite Hiter; apply NoDup_elements).
  rewrite (run_Ok _ _ _ _ _ (stop_ports new (iter ws) ws f (Hnd _))).
  rewrite (run_Ok _ _ _ _ _ (start_ports ws (iter new) ws _ (Hnd _))).
  eexists. split; [reflexivity|]. cbn [fst snd f_portMap f_forwardedPorts f_events started stopped].
  assert (filter (to_stop new f) (iter ws) = moved ws new f) as ->.
  { apply filter_in_iff. intros p Hp%elem_of_iter. unfold to_stop. rewrite Hin. set_solver. }
  set (g := stopped _ f). assert (excluded g = excluded f) as He by done.
  assert (filter (to_start ws g) (iter new) = moved new ws f) as ->.
  { apply filter_in_iff. intros p Hp%elem_of_iter. unfold to_start. rewrite He. cbn. rewrite Hin. set_solver. }
  split_and!; [|done|by rewrite <- app_assoc].
  change (excluded _) with (excluded f). rewrite Hin. apply set_eq. intros p.
  rewrite elem_of_union, !elem_of_difference, !elem_of_list_to_set. unfold moved.
  rewrite !list_elem_of_filter, !elem_of_iter, !elem_of_union.
  destruct (decide (p ∈ ws)), (decide (p ∈ new)); tauto.
Qed.

(** What was found last *)
Definition last_found (rounds : list (result (gset string))) (ws : gset string) : gset string :=
  foldl (λ ws r, match r with Ok new => new | _ => ws end) ws rounds.

Definition returned {A} (r : result A) : Prop := match r with Ok _ | Err _ => True | _ => False end.
Lemma Watcher_Run_in_step rounds : ∀ ws f, Forall returned rounds → in_step (ws, f) →
  ∃ f', Watcher_Run iter rounds (ws, f) = (Ok (), (last_found rounds ws, f')) ∧
    in_step (last_found rounds ws, f') ∧ f_forwardedPorts f' = f_forwardedPorts f.
Proof.
  unfold Watcher_Run. induction rounds as [|r rounds IH]; intros ws f Hr Hin; cbn [forM_]; [by exists f|].
  apply Forall_cons in Hr as [Hr Hrs]. destruct r as [new|e| |]; [| |done..].
  - destruct (runOnce_run new ws f Hin) as (f1 & Hrun & Hin1 & Hex & _).
    assert (try_ (runOnce iter (Ok new)) (ws, f) = (Ok (), (new, f1))) as Ht
      by (unfold try_; by rewrite Hrun).
    rewrite (run_Ok _ _ _ _ _ Ht). destruct (IH new f1 Hrs Hin1) as (f2 & H2 & Hin2 & Hex2).
    exists f2. split_and!; [exact H2|exact Hin2|congruence].
  - destruct (IH ws f Hrs Hin) as (f2 & H2 & Hin2 & Hex2). exists f2. split_and!; [exact H2|done|done].
Qed.

(** *** Over the tunnel

    The watcher runs in the workspace and its forwarder calls the one on the local machine
    through the tunnel.  As long as the calls get through, it behaves like that one. *)

Definition delivered (ts : list transport) : Prop := Forall (eq Delivered) ts.
Notation far_watcher := (gset string * (forwarder * list transport))%type.
Definition like (c : M watcher unit) (c' : M far_watcher unit) : Prop :=
  ∀ ws f ts, delivered ts → ∃ ts', delivered ts' ∧
    c' (ws, (f, ts)) = (let '(r, (ws', f')) := c (ws, f) in (r, (ws', (f', ts')))).

Lemma like_ret : like (mret ()) (mret ()).
Proof. intros ws f ts H. by exists ts. Qed.
Lemma like_bind c1 c1' c2 c2' : like c1 c1' → like c2 c2' →
  like (_ ← c1; c2) (_ ← c1'; c2').
Proof.
  intros H1 H2 ws f ts Hd. destruct (H1 ws f ts Hd) as (ts1 & Hd1 & E1).
  unfold mbind, M_bind. rewrite E1. destruct (c1 (ws, f)) as [[[]|e| |] [ws1 f1]]; [|by exists ts1..].
  apply H2, Hd1.
Qed.
Lemma like_forM {A} (l : list A) k k' : (∀ x, like (k x) (k' x)) → like (forM_ l k) (forM_ l k').
Proof. intros H. induction l as [|x l IH]; cbn [forM_]; [apply like_ret|by apply like_bind]. Qed.
Lemma like_try c c' : like c c' → like (try_ c) (try_ c').
Proof.
  intros H ws f ts Hd. destruct (H ws f ts Hd) as (ts1 & Hd1 & E). exists ts1. split; [done|].
  unfold try_. rewrite E. by destruct (c (ws, f)) as [[[]|e| |] [ws1 f1]].
Qed.
Lemma over_tunnel_delivered (c : M forwarder unit) f f' ts : c f = (Ok (), f') → delivered ts →
  ∃ ts', delivered ts' ∧ over_tunnel c (f, ts) = (Ok (), (f', ts')).
Proof.
  intros Hc Hd. destruct Hd as [|t ts <- Hd]; cbn; rewrite Hc.
  - exists []. split; [constructor|done].
  - by exists ts.
Qed.
Lemma like_call (c : M forwarder unit) port msg (skip : bool) : (∀ f, ∃ f', c f = (Ok (), f')) →
  like (if skip then mret () else r ← caught (on_forwarder c); liftR (wrap msg r))
       (if skip then mret () else
        r ← caught (on_forwarder (over_tunnel (r ← caught c; liftR (wrap port r)))); liftR (wrap msg r)).
Proof.
  intros Hc ws f ts Hd. destruct skip; [by exists ts|]. destruct (Hc f) as [f' Hf].
  assert ((r ← caught c; liftR (wrap port r)) f = (Ok (), f')) as Hw
    by (unfold mbind, M_bind, caught; by rewrite Hf).
  set (c' := (r ← caught c; liftR (wrap port r))) in *. clearbody c'.
  destruct (over_tunnel_delivered c' f f' ts Hw Hd) as (ts' & Hd' & E).
  exists ts'. split; [done|]. unfold mbind, M_bind, caught, on_forwarder. cbn [fst snd].
  by rewrite Hf, E.
Qed.
Lemma forwarder_Forward_Ok port f : ∃ f', forwarder_Forward port f = (Ok (), f').
Proof. unfold forwarder_Forward. rewrite run_get. destruct (_ || _); by eexists. Qed.
Lemma forwarder_StopForward_Ok port f : ∃ f', forwarder_StopForward port f = (Ok (), f').
Proof. unfold forwarder_StopForward. rewrite run_get. destruct (_ || _); by eexists. Qed.
Lemma like_stop new port : like (stop_port new port) (stop_port new port).
Proof.
  unfold stop_port. pose proof (like_call (forwarder_StopForward port)
    ("error stop forwarding port " +:+ port) ("error stop forwarding port " +:+ port)
    (bool_decide (port ∈ new)) (forwarder_StopForward_Ok port)) as H.
  by destruct (decide (port ∈ new)); [rewrite bool_decide_true in H by done|
    rewrite bool_decide_false in H by done].
Qed.
Lemma like_start ws port : like (start_port ws port) (start_port ws port).
Proof.
  unfold start_port. pose proof (like_call (forwarder_Forward port)
    ("error forwarding port " +:+ port) ("error forwarding port " +:+ port)
    (bool_decide (port ∈ ws)) (forwarder_Forward_Ok port)) as H.
  by destruct (decide (port ∈ ws)); [rewrite bool_decide_true in H by done|
    rewrite bool_decide_false in H by done].
Qed.
Lemma like_runOnce found : like (runOnce iter found) (runOnce iter found).
Proof.
  intros ws f ts Hd. unfold runOnce. destruct found as [new|e| |]; [|by exists ts..].
  rewrite !run_lift_Ok, !run_get. cbn [fst].
  assert (like (modifyS (λ w, (new, w.2))) (modifyS (λ w, (new, w.2)))) as Hput.
  { intros ws1 f1 ts1 Hd1. by exists ts1. }
  pose proof (like_bind _ _ _ _ (like_forM (iter ws) _ _ (like_stop new))
    (like_bind _ _ _ _ (like_forM (iter new) _ _ (like_start ws)) Hput)) as H.
  exact (H ws f ts Hd).
Qed.
Lemma like_Run rounds : like (Watcher_Run iter rounds) (Watcher_Run iter rounds).
Proof. apply like_forM. intros found. apply like_try, like_runOnce. Qed.

(** C27: For the watcher in the workspace and the forwarder at the other end of the tunnel,
    while no call over the tunnel fails (when one fails this is lost:
    [failed_round_leaks], [failed_round_forgets]): however often the watcher looks, and
    whether a look fails or not, the ports that are
    forwarded are those that were found last and are not forwarded otherwise.  In the next round
    exactly the ports that are gone are stopped and the new ones started: a port that stays is left alone. *)
Theorem watcher_in_step rounds excl new ts : Forall returned rounds → delivered ts →
  let ws := last_found rounds ∅ in
  ∃ f ts1, Watcher_Run iter rounds (∅, (newForwarder excl, ts)) = (Ok (), (ws, (f, ts1))) ∧
    f_portMap f = ws ∖ list_to_set excl ∧
    ∃ f' ts2, runOnce iter (Ok new) (ws, (f, ts1)) = (Ok (), (new, (f', ts2))) ∧
      f_portMap f' = new ∖ list_to_set excl ∧
      f_events f' = f_events f ++
        (Stopped <$> filter (λ p, p ∉ new ∪ list_to_set excl) (iter ws)) ++
        (Started <$> filter (λ p, p ∉ ws ∪ list_to_set excl) (iter new)).
Proof.
  intros Hr Hd. cbv zeta.
  destruct (Watcher_Run_in_step rounds ∅ (newForwarder excl) Hr) as (f & Hrun & Hin & Hex).
  { unfold in_step. cbn. set_solver. }
  destruct (like_Run rounds ∅ (newForwarder excl) ts Hd) as (ts1 & Hd1 & E1). rewrite Hrun in E1.
  exists f, ts1. split; [exact E1|]. pose proof Hin as Hmap. unfold in_step, excluded in Hmap.
  cbn in Hmap, Hex. rewrite Hex in Hmap. split; [exact Hmap|].
  destruct (runOnce_run new _ f Hin) as (f' & Hrun' & Hin' & Hex' & Hev).
  destruct (like_runOnce (Ok new) (last_found rounds ∅) f ts1 Hd1) as (ts2 & _ & E2). rewrite Hrun' in E2.
  exists f', ts2. split; [exact E2|]. unfold in_step, excluded in Hin'. cbn in Hin'.
  rewrite Hex', Hex in Hin'. split; [exact Hin'|]. rewrite Hev. unfold moved, excluded. by rewrite Hex.
Qed.
End Watching.

(** ** Examples *)

Definition demo_row (local any : list Z) (port state : Z) (line : string) : row := {|
  r_entry := {| st_ino := "5860846"; st_LocalAddr := {| sa_IP := local; sa_Port := port |};
    st_RemoteAddr := {| sa_IP := any; sa_Port := 0 |}; st_State := state; st_UID := 1000;
    st_Process := None |};
  r_line := line |}%Z.
Definition demo_row4 : Z → Z → string → row := demo_row [127; 0; 0; 1]%Z [0; 0; 0; 0]%Z.
Definition demo_row6 : Z → Z → string → row :=
  demo_row [0; 0; 0; 0; 0; 0; 0; 0; 0; 0; 0; 0; 0; 0; 0; 1]%Z [0; 0; 0; 0; 0; 0; 0; 0; 0; 0; 0; 0; 0; 0; 0; 0]%Z.
Definition tcp_rows : list row := [
  demo_row4 8080 10 "   0: 0100007F:1F90 00000000:0000 0A 00000000:00000000 00:00000000 00000000  1000        0 5860846 1 0000000000000000 100 0 0 10 0                     ";
  demo_row4 22 10 "   1: 0100007F:0016 00000000:0000 0A 00000000:00000000 00:00000000 00000000  1000        0 5860846 1 0000000000000000 100 0 0 10 0                     ";
  demo_row4 9000 1 "   2: 0100007F:2328 00000000:0000 01 00000000:00000000 00:00000000 00000000  1000        0 5860846 1 0000000000000000 20 4 30 10 -1                    "].
Definition tcp6_rows : list row := [
  demo_row6 3000 10 "   0: 00000000000000000000000001000000:0BB8 00000000000000000000000000000000:0000 0A 00000000:00000000 00:00000000 00000000  1000        0 5860846 1 0000000000000000 100 0 0 10 0"].
Definition tcp_title : string :=
  "  sl  local_address rem_address   st tx_queue rx_queue tr tm->when retrnsmt   uid  timeout inode                                                     ".
Definition demo_proc : fs :=
  {[ ["proc"] := Dir 493; ["proc"; "net"] := Dir 493;
     ["proc"; "net"; "tcp"] := File 292 (print_table tcp_title tcp_rows);
     ["proc"; "net"; "tcp6"] := File 292 (print_table tcp_title tcp6_rows);
     ["proc"; "7"] := Dir 493; ["proc"; "7"; "stat"] := File 292 "7 (node) S 1";
     ["proc"; "7"; "fd"] := Dir 448; ["proc"; "7"; "fd"; "3"] := Link "socket:[5860846]" ]}.
Definition no_faults : fsys := {| fy_fail := λ _ _, None |}.

Lemma demo_valid local any port state line slot queues timer retr timeout x y rest :
  Forall byte local → Forall byte any → length local = 4%nat ∨ length local = 16%nat →
  length any = 4%nat ∨ length any = 16%nat → (0 ≤ port < 65536)%Z → (0 ≤ state < 256)%Z →
  Fields line = [slot; print_addr {| sa_IP := local; sa_Port := port |};
    print_addr {| sa_IP := any; sa_Port := 0 |}; print_hex 2 state; queues; timer; retr; "1000";
    timeout; "5860846"; x; y] ++ rest →
  fits 65536 line && free "010" line &&
    free "#" line && free "013" line = true →
  valid_row (demo_row local any port state line).
Proof.
  intros ?????? Hf Hl. unfold valid_row, valid_addr, columns. cbn [demo_row r_entry r_line st_LocalAddr
    sa_IP sa_Port st_RemoteAddr st_State st_Process st_ino st_UID].
  apply andb_true_iff in Hl as [[[? ?]%andb_true_iff ?]%andb_true_iff ?].
  split_and!; try done; try lia. exists slot, queues, timer, retr, "1000", timeout, (x :: y :: rest).
  rewrite Hf. split_and!; [done|cbn; lia|by vm_compute].
Qed.
Ltac demo_valid :=
  eapply demo_valid; [by repeat constructor|by repeat constructor|auto|auto|lia|lia
                     |vm_compute; reflexivity|vm_compute; reflexivity].
Lemma demo_table4 : is_table tcp_rows (print_table tcp_title tcp_rows).
Proof.
  exists tcp_title. split_and!; [by vm_compute..| |done]. unfold tcp_rows, demo_row4.
  repeat apply Forall_cons_2; [demo_valid..|apply Forall_nil_2].
Qed.
Lemma demo_table6 : is_table tcp6_rows (print_table tcp_title tcp6_rows).
Proof.
  exists tcp_title. split_and!; [by vm_compute..| |done]. unfold tcp6_rows, demo_row6.
  repeat apply Forall_cons_2; [demo_valid|apply Forall_nil_2].
Qed.
Lemma demo_stats : stats_ok no_faults demo_proc.
Proof.
  intros p c Hr _. revert Hr. unfold ReadFile, call. cbn [fy_fail no_faults]. rewrite run_get.
  unfold stat_node. destruct (walk demo_proc true _) as [q|]; [|done].
  destruct (get demo_proc q) as [[m c'|m|t]|] eqn:Hg; try done. intros [= <-].
  assert (∀ k n, demo_proc !! k = Some n → match n with File _ c => is_Some (Split " " (stake 128 c) !! 1%nat)
    | _ => True end) as Hall.
  { apply (map_Forall_to_list (λ _ n, match n with File _ c => is_Some (Split " " (stake 128 c) !! 1%nat)
    | _ => True end)). vm_compute. repeat constructor; eexists; reflexivity. }
  destruct q; [done|]. exact (Hall _ _ Hg).
Qed.

Lemma watcher_in_step_witness : ∃ f,
  (Watcher_Run elements [Ok {["80"; "90"]}; Err "too many open files"; Ok {["90"; "10800"]}]
     (∅, (newForwarder ["10800"], [Delivered; Delivered]))).2.2.1 = f ∧ f_portMap f = {["90"]}.
Proof.
  destruct (watcher_in_step elements (λ _, reflexivity _)
    [Ok {["80"; "90"]}; Err "too many open files"; Ok {["90"; "10800"]}] ["10800"] ∅ [Delivered; Delivered])
    as (f & ts & Hrun & Hmap & _); [by repeat constructor..|].
  exists f. split; [by rewrite Hrun|]. rewrite Hmap. vm_compute. reflexivity.
Defined.
(** The process of a socket *)
Example found_process :
  (st_Process <$> match (doNetstat no_faults pathTCPTab is_listening demo_proc).1 with Ok l => l | _ => [] end) =
  [Some {| ps_Pid := 7; ps_Name := "node" |}; Some {| ps_Pid := 7; ps_Name := "node" |}].
Proof. vm_compute. reflexivity. Qed.
(** A name with a space is lost. *)
Example process_name_space :
  getProcName "(node)" = "node" ∧
  (read_process no_faults "/proc/7" 7 (<[["proc"; "7"; "stat"] := File 292 "7 (tmux: server) S 1"]> demo_proc)).1 =
    Ok {| ps_Pid := 7; ps_Name := "" |}.
Proof. vm_compute. split; reflexivity. Qed.

(** *** When a call through the tunnel fails, the watcher starts over with the old ports. *)

Notation remote_rounds rounds transports :=
  (Watcher_Run elements rounds (∅, (newForwarder [], transports))).2.2.1.
(** A port that was started in a round that failed is forwarded for good. *)
Example failed_round_leaks :
  let f := remote_rounds [Ok {["80"; "90"]}; Ok {["80"]}; Ok ∅] [Delivered; LostCall "broken pipe"] in
  f_portMap f = {["90"]}.
Proof. vm_compute. reflexivity. Qed.
(** A port that was stopped in a round that failed is not forwarded when it is back. *)
Example failed_round_forgets :
  let f := remote_rounds [Ok {["80"; "90"]}; Ok ∅; Ok {["80"; "90"]}]
             [Delivered; Delivered; Delivered; LostCall "broken pipe"] in
  f_portMap f = {["80"]}.
Proof. vm_compute. reflexivity. Qed.
(** A port that cannot be parsed is forwarded as port 0 of no host. *)
Example bad_forward_port :
  forward_entry "web" = {| pf_local := "localhost:0"; pf_remote := ":0"; pf_exitAfter := 0 |} ∧
  forward_entry "db:5432" = {| pf_local := "localhost:5432"; pf_remote := "db:5432"; pf_exitAfter := 0 |}.
Proof. vm_compute. split; reflexivity. Qed.
