(* ===== verification/Inject.v ===== *)
(** * Installing the agent on another machine

    pkg/inject: the client of the protocol (inject.go) and the script it talks to
    (inject.sh), as a process that prints lines and reads its input; and
    pkg/agent/inject.go, which repeats the attempt and finds the binary to send.

    The client runs two goroutines, for the script and for the protocol.  Here the script
    runs when the client waits for it; which of the two ends is seen first is an argument. *)

From S2P Require Import Prelude GoStrings Types Provider Options Lifecycle FileTree Extract Binaries.
From stdpp Require Import base gmap list strings.
From Stdlib Require Import ZArith Lia.

Local Open Scope string_scope.
Local Open Scope list_scope.

(** ** A process with pipes *)

Inductive remote (W : Type) :=
| Print (line : string) (k : remote W)
| Warn (line : string) (k : remote W)
(** a line of the input; [None] at its end *)
| ReadLine (k : option string → remote W)
(** the input up to its end *)
| ReadAll (k : string → remote W)
| Exit (code : Z) (w : W)
(** a command takes over the pipes *)
| Attach (command : string) (w : W).
Arguments Print {W}.
Arguments Warn {W}.
Arguments ReadLine {W}.
Arguments ReadAll {W}.
Arguments Exit {W}.
Arguments Attach {W}.

(** The input of the process that it has not read, and whether it was closed *)
Record pipe := { pi_text : string; pi_closed : bool }.
Definition cut_line (s : string) : option (string * string) :=
  match Split "010" s with
  | l :: (_ :: _) as rest => Some (l, GoStrings.Join rest newline)
  | _ => None
  end.
(** What the client reads: a line, the end of the output, or nothing, for ever *)
Inductive reading (W : Type) := Line (l : string) (r : remote W) (p : pipe) | EOF | Blocks.
Arguments Line {W}.
Arguments EOF {W}.
Arguments Blocks {W}.
(** [readLine] of inject.go *)
Fixpoint readLine {W} (r : remote W) (p : pipe) : reading W :=
  match r with
  | Print l k => Line l k p
  | Warn _ k => readLine k p
  | ReadLine k =>
      match cut_line (pi_text p) with
      | Some (l, rest) => readLine (k (Some l)) {| pi_text := rest; pi_closed := pi_closed p |}
      | None => if pi_closed p then readLine (k None) {| pi_text := ""; pi_closed := true |} else Blocks
      end
  | ReadAll k =>
      if pi_closed p then readLine (k (pi_text p)) {| pi_text := ""; pi_closed := true |} else Blocks
  | Exit _ _ | Attach _ _ => EOF
  end.
(** The process runs to its end, with its input closed: its code, what it leaves behind, what it
    wrote to stderr, and the command that took over. *)
Record ending (W : Type) := { en_code : Z; en_left : W; en_stderr : list string; en_command : option string }.
Arguments en_code {W}.
Arguments en_left {W}.
Arguments en_stderr {W}.
Arguments en_command {W}.
Fixpoint run_out {W} (exec : W → string → Z * W) (r : remote W) (text : string) : ending W :=
  match r with
  | Print _ k => run_out exec k text
  | Warn l k => let e := run_out exec k text in
      {| en_code := en_code e; en_left := en_left e; en_stderr := l :: en_stderr e; en_command := en_command e |}
  | ReadLine k =>
      match cut_line text with
      | Some (l, rest) => run_out exec (k (Some l)) rest
      | None => run_out exec (k None) ""
      end
  | ReadAll k => run_out exec (k text) ""
  | Exit code w => {| en_code := code; en_left := w; en_stderr := []; en_command := None |}
  | Attach command w =>
      let '(code, w) := exec w command in
      {| en_code := code; en_left := w; en_stderr := []; en_command := Some command |}
  end.

(** ** download_urls.go and script.go *)

Record DownloadURLs := { du_Base : string; du_Amd : string; du_Arm : string }.
Definition AmdUrl : string := "devpod-linux-amd64".
Definition ArmUrl : string := "devpod-linux-arm64".
Definition BinNamePlaceholder : string := "${BIN_NAME}".
(** [strings.Replace(s, old, new, 1)] *)
Fixpoint replace_first (s old new : string) : string :=
  if HasPrefix s old then new +:+ sdrop (String.length old) s
  else match s with
       | "" => ""
       | String c s' => String c (replace_first s' old new)
       end.
(** [url.JoinPath]; empty when it fails *)
Definition NewDownloadURLs (JoinPath : string → string → string) (baseUrl : string) : DownloadURLs :=
  if Contains baseUrl BinNamePlaceholder then
    let baseUrl := TrimSuffix baseUrl "/" in
    {| du_Base := baseUrl; du_Amd := replace_first baseUrl BinNamePlaceholder AmdUrl;
       du_Arm := replace_first baseUrl BinNamePlaceholder ArmUrl |}
  else {| du_Base := baseUrl; du_Amd := JoinPath baseUrl AmdUrl; du_Arm := JoinPath baseUrl ArmUrl |}.

(** The existence check of the agent is that the file has a version. *)
Record Params := {
  p_Command : string;
  p_AgentRemotePath : string;
  p_DownloadURLs : DownloadURLs;
  p_version : string;
  p_PreferAgentDownload : bool;
  p_ShouldChmodPath : bool;
}.
Definition stripCarriageReturns (script : string) : string := ReplaceAll script (String "013" "") "".

(** ** inject.sh *)

Inductive downloader := NoTool | Tool (attempts : list (string → option string)).
(** The machine: what the script finds, and the file it installs, with its execute bit *)
Record machine := {
  i_arm : bool;
  (** the reason why the directory cannot be written, not even with sudo *)
  i_denied : option string;
  i_noexec : bool;
  i_downloader : downloader;
  (** what [cat] and [mv] leave behind of what was sent *)
  i_stored : string → string;
  i_file : option (string * bool);
  (** the commands that ran *)
  i_ran : list string;
}.
Definition with_file (file : option (string * bool)) (m : machine) : machine := {|
  i_arm := i_arm m; i_denied := i_denied m; i_noexec := i_noexec m; i_downloader := i_downloader m;
  i_stored := i_stored m; i_file := file; i_ran := i_ran m |}.
Definition with_ran (c : string) (m : machine) : machine := {|
  i_arm := i_arm m; i_denied := i_denied m; i_noexec := i_noexec m; i_downloader := i_downloader m;
  i_stored := i_stored m; i_file := i_file m; i_ran := i_ran m ++ [c] |}.

Section Script.
(** the version a binary reports *)
Context (version_of : string → string) (p : Params).

(** The file is missing or has another version. *)
Definition ExistsCheck (m : machine) : bool :=
  match i_file m with
  | Some (content, true) => negb (bool_decide (version_of content = p_version p))
  | _ => true
  end.
Definition sh_chmod (m : machine) : machine :=
  with_file ((λ f, (f.1, true)) <$> i_file m) m.
Definition chmod_path (m : machine) : machine := if p_ShouldChmodPath p then sh_chmod m else m.
(** [inject] exits the script, whether the file was written or not. *)
Definition sh_inject (m : machine) : remote machine :=
  Print ("ARM-" +:+ (if i_arm m then "true" else "false"))
    (ReadAll (λ content,
       let m := with_file (Some (i_stored m content, false)) m in
       Print "done" (Exit 0 (chmod_path m)))).
Definition download_url (m : machine) : string :=
  if i_arm m then du_Arm (p_DownloadURLs p) else du_Amd (p_DownloadURLs p).
Fixpoint sh_attempts (n : nat) (attempts : list (string → option string)) (m : machine)
    (k : machine → remote machine) : remote machine :=
  match n with
  | 0 => Warn "error: failed to download devpod" (Exit 1 m)
  | S n =>
      match match attempts with a :: _ => a (download_url m) | [] => None end with
      | Some content => k (with_file (Some (content, false)) m)
      | None => Warn "error: failed to download devpod" (sh_attempts n (tail attempts) m k)
      end
  end.
(** A failure exits the script. *)
Definition sh_download (m : machine) (k : machine → remote machine) : remote machine :=
  match i_downloader m with
  | NoTool => Print "error: no download tool found, please install curl or wget" (Exit 127 m)
  | Tool attempts => sh_attempts 3 attempts m k
  end.
Definition sh_finish (m : machine) : remote machine :=
  Print "done"
    (match stripCarriageReturns (p_Command p) with "" => Exit 0 m | c => Attach c m end).
(** [download || inject] and [inject || download]: the second one is never tried. *)
Definition sh_install (m : machine) : remote machine :=
  match i_denied m with
  | Some e => Warn e (Exit 1 m)
  | None =>
      if i_noexec m then Warn "Error: failed to install devpod, noexec filesystem detected" (Exit 1 m)
      else
        let m := with_file None m in
        if p_PreferAgentDownload p then
          sh_download m (λ m,
            let m := chmod_path m in
            if ExistsCheck m then Warn "Error: failed to install devpod" (Exit 1 m) else sh_finish m)
        else sh_inject m
  end.
Definition script (m : machine) : remote machine :=
  Print "ping"
    (ReadLine (λ answer,
       match answer with
       | None => Exit 1 m
       | Some line =>
           if decide (line ≠ "pong") then Warn "Received wrong answer for ping request" (Exit 1 m)
           else if ExistsCheck m then sh_install m else sh_finish m
       end)).

(** ** inject.go *)

Context (localFile : bool → result string).
(** how copying the pipes of a command ends *)
Context (copied : result unit).

Definition isInjectingOfBinaryNeeded (lineStr : string) : bool := HasPrefix lineStr "ARM-".
Definition getFileReader (lineStr : string) : result string :=
  localFile (bool_decide (TrimPrefix lineStr "ARM-" = "true")).
(** The result, and the process with its input *)
Notation outcome W := (result bool * (remote W * string))%type.
Definition injectBinary {W} (content : string) (r : remote W) (pi : pipe) : outcome W :=
  let pi := {| pi_text := pi_text pi +:+ content; pi_closed := true |} in
  match readLine r pi with
  | Line line r' pi' =>
      (if decide (TrimSpace line = "done") then Ok false
       else Err ("unexpected line during inject: " +:+ line), (r', pi_text pi'))
  | EOF => (Err "EOF", (r, pi_text pi))
  | Blocks => (NoFuel, (r, pi_text pi))
  end.
Definition inject {W} (r : remote W) : outcome W :=
  match readLine r {| pi_text := ""; pi_closed := false |} with
  | Blocks => (Err "context deadline exceeded", (r, ""))
  | EOF => (Err "EOF", (r, ""))
  | Line line r pi =>
      if decide (TrimSpace line ≠ "ping") then
        (Err ("unexpected start line: " +:+ line), (r, pi_text pi))
      else
        let pi := {| pi_text := pi_text pi +:+ "pong" +:+ newline; pi_closed := false |} in
        match readLine r pi with
        | Blocks => (NoFuel, (r, pi_text pi))
        | EOF => (Err "EOF", (r, pi_text pi))
        | Line line r pi =>
            let lineStr := TrimSpace line in
            if isInjectingOfBinaryNeeded lineStr then
              match getFileReader lineStr with
              | Ok content => injectBinary content r pi
              | Err e => (Err e, (r, pi_text pi))
              | Panic => (Panic, (r, pi_text pi))
              | NoFuel => (NoFuel, (r, pi_text pi))
              end
            else if decide (lineStr ≠ "done") then
              (Err ("unexpected message during inject: " +:+ lineStr), (r, pi_text pi))
            else ((_ ← copied; Ok true), (r, pi_text pi))
        end
  end.

Definition WrapCommandError {A} (stderr : list string) (r : result A) : result A :=
  match r with
  | Err e => Err (match stderr with [] => e | _ => GoStrings.Join stderr newline +:+ newline +:+ e end)
  | r => r
  end.
(** a command on the machine: its code *)
Context (run : machine → string → Z).
Definition exec_command (m : machine) (command : string) : Z * machine :=
  (run m command, with_ran command m).
Definition exit_error (code : Z) : result unit :=
  if decide (code = 0%Z) then Ok () else Err "exit status".
(** Whether the command was executed, and an error; [exec_seen]: the client sees the
    end of the script before that of the protocol. *)
Definition InjectAndExecute (exec_seen : bool) (m : machine) : bool * result unit * machine :=
  let '(res, (r, text)) := inject (script m) in
  let e := run_out exec_command r text in
  let wasExecuted := match res with Ok b => b | _ => false end in
  let result := WrapCommandError (en_stderr e) res in
  let err := if exec_seen then WrapCommandError (en_stderr e) (exit_error (en_code e)) else Ok () in
  match result, err with
  | Err e', _ => (wasExecuted, Err e', en_left e)
  | Panic, _ => (wasExecuted, Panic, en_left e)
  | NoFuel, _ => (wasExecuted, NoFuel, en_left e)
  | Ok _, Err e' => (wasExecuted, Err e', en_left e)
  | Ok _, _ =>
      if wasExecuted || bool_decide (p_Command p = "") then (wasExecuted, Ok (), en_left e)
      else
        let '(code, m) := exec_command (en_left e) (p_Command p) in
        (true, exit_error code, m)
  end.
End Script.

(** ** pkg/agent/inject.go *)

Definition waitForInstanceConnectionTimeout : Z := 300000000000.
Definition retry_pause : Z := 3000000000.
(** One attempt: how long it takes, whether the command was executed, and an error *)
Record attempt := { at_time : Z; at_executed : bool; at_result : result unit }.
Section Loop.
Context {W : Type} (once : W → attempt * W).
(** The loop of [InjectAgentAndExecute], [since] the first attempt *)
Fixpoint inject_loop (fuel : nat) (since : Z) (w : W) : result unit * W :=
  match fuel with
  | 0 => (NoFuel, w)
  | S fuel =>
      let '(a, w) := once w in
      let since := (since + at_time a)%Z in
      match at_result a with
      | Err e =>
          if (waitForInstanceConnectionTimeout <? since)%Z then
            (Err ("timeout waiting for instance connection: " +:+ e), w)
          else if at_executed a then (Err ("agent error: " +:+ e), w)
          else inject_loop fuel (since + retry_pause) w
      | r => (r, w)
      end
  end.
End Loop.
Record agent_settings := {
  as_local : bool;
  as_version : string;
  as_DefaultAgentDownloadURL : string;
  as_JoinPath : string → string → string;
}.
Definition DevVersion : string := "v0.0.0".
Definition agent_params (s : agent_settings) (remoteAgentPath downloadURL command : string)
    (preferDownload : bool) : Params := {|
  p_Command := command;
  p_AgentRemotePath := if decide (remoteAgentPath = "") then RemoteDevPodHelperLocation else remoteAgentPath;
  p_DownloadURLs := NewDownloadURLs (as_JoinPath s)
    (if decide (downloadURL = "") then as_DefaultAgentDownloadURL s else downloadURL);
  p_version := as_version s;
  p_PreferAgentDownload := if decide (as_version s = DevVersion) then false else preferDownload;
  p_ShouldChmodPath := true |}.
(** [once] is [InjectAndExecute] with the parameters, if the machine can be reached;
    [emulated] a shell on the local machine. *)
Definition InjectAgentAndExecute {W} (fuel : nat) (s : agent_settings)
    (emulated : string → W → result unit * W) (once : Params → W → attempt * W)
    (remoteAgentPath downloadURL command : string) (preferDownload : bool) (w : W) : result unit * W :=
  if as_local s then if decide (command = "") then (Ok (), w) else emulated command w
  else inject_loop (once (agent_params s remoteAgentPath downloadURL command preferDownload)) fuel 0 w.
Definition InjectAgent {W} (fuel : nat) (s : agent_settings)
    (emulated : string → W → result unit * W) (once : Params → W → attempt * W)
    (remoteAgentPath downloadURL : string) (preferDownload : bool) (w : W) : result unit * W :=
  InjectAgentAndExecute fuel s emulated once remoteAgentPath downloadURL "" preferDownload w.
(** [Tunnel] of agent.go: an ssh server in the container, as a user *)
Definition ContainerDevPodHelperLocation : string := "/usr/local/bin/devpod".
Definition tunnel_command (debug : bool) : string :=
  "'" +:+ ContainerDevPodHelperLocation +:+ "' helper ssh-server --stdio" +:+
  (if debug then " --debug" else "").
Definition Tunnel {W} (fuel : nat) (s : agent_settings) (emulated : string → W → result unit * W)
    (once : Params → W → attempt * W) (exec : string → string → W → result unit * W)
    (user : string) (debug : bool) (w : W) : result unit * W :=
  let '(r, w) := InjectAgent fuel s emulated once ContainerDevPodHelperLocation
                   (as_DefaultAgentDownloadURL s) false w in
  match r with
  | Ok _ => exec (if decide (user = "") then "root" else user) (tunnel_command debug) w
  | r => (r, w)
  end.

(** *** The binary to send *)

Record cache_world := {
  cw_fy : fsys;
  cw_GOOS : string;
  cw_GOARCH : string;
  cw_version : string;
  cw_TempDir : string;
  cw_executable : string + string;
  (** the length that is announced, and the body, whatever the status *)
  cw_Get : string → string + (Z * string);
}.
Section Cache.
Context (cw : cache_world).
Notation fy := (cw_fy cw).
Notation C := (M fs).
Definition agent_cache (targetArch : string) : string :=
  filepath_Join [cw_TempDir cw; "devpod-cache"; "devpod-linux-" +:+ targetArch].
Definition getRunnerBinary (targetArch : string) : C string :=
  let binaryPath := agent_cache targetArch in
  there ← exists_ fy binaryPath;
  mret (if there : bool then binaryPath else "").
Definition node_length (n : node) : Z :=
  match n with File _ c => Z.of_nat (String.length c) | _ => 4096 end.
Definition downloadAgentLocally (tryDownloadURL targetArch : string) : C string :=
  let agentPath := agent_cache targetArch in
  r ← caught (MkdirAll fy (path_Dir agentPath) 493);
  _ ← liftR (wrap "create agent path" r);
  stat ← caught (stat_ fy true agentPath);
  let stat := match stat with Ok (Some n) => Some n | _ => None end in
  if bool_decide (cw_version cw = DevVersion) && bool_decide (is_Some stat) then mret agentPath
  else
    '(contentLength, body) ← liftR (wrap "download devpod"
       (of_sum (cw_Get cw (tryDownloadURL +:+ "/devpod-linux-" +:+ targetArch))));
    if bool_decide (node_length <$> stat = Some contentLength) then mret agentPath
    else
      q ← (r ← caught (create fy agentPath 438); liftR (wrap "create agent binary" r));
      _ ← fill q body;
      mret agentPath.
Definition own_binary (targetArch : string) : C string :=
  if bool_decide (cw_GOOS cw = "linux") && bool_decide (cw_GOARCH cw = targetArch) then
    binaryPath ← liftR (wrap "get executable" (of_sum (cw_executable cw)));
    there ← exists_ fy binaryPath;
    mret (if there : bool then binaryPath else "")
  else mret "".
Definition agent_injectBinary (arm : bool) (tryDownloadURL : string) : C string :=
  let targetArch := if arm then "arm64" else "amd64" in
  binaryPath ← own_binary targetArch;
  binaryPath ← (if decide (binaryPath = "") then getRunnerBinary targetArch else mret binaryPath);
  binaryPath ← (if decide (binaryPath = "") then
                  r ← caught (downloadAgentLocally tryDownloadURL targetArch);
                  liftR (wrap "download agent locally" r)
                else mret binaryPath);
  r ← caught (ReadFile fy binaryPath);
  liftR (wrap "open agent binary" r).
End Cache.

(** * Properties of installing the agent

    The client and the script do not wait for each other, the binary arrives as it was sent
    and the command runs exactly once, and the attempts come to an end. *)

Lemma cut_line_app l rest : free "010" l = true → cut_line (l +:+ newline +:+ rest) = Some (l, rest).
Proof.
  intros Hl. unfold cut_line. change (newline +:+ rest) with (String "010" rest).
  rewrite Split_app by done. destruct (Split "010" rest) as [|x xs] eqn:Hs; [by apply Split_nonempty in Hs|].
  rewrite <- Hs. unfold newline. by rewrite Join_Split.
Qed.
Lemma run_out_finish p exec m text : en_left (run_out exec (sh_finish p m) text) =
  match stripCarriageReturns (p_Command p) with "" => m | c => (exec m c).2 end.
Proof.
  unfold sh_finish. cbn [run_out]. destruct (stripCarriageReturns _) as [|a c]; [done|].
  cbn [run_out]. by destruct (exec m (String a c)).
Qed.

Section Protocol.
Context (version_of : string → string) (p : Inject.Params).
Context (localFile : bool → result string) (copied : result unit) (run : machine → string → Z).

(** Where the script is once it has the answer *)
Definition answered (m : machine) : remote machine :=
  if ExistsCheck version_of p m then sh_install version_of p m else sh_finish p m.
Lemma readLine_script m :
  readLine (script version_of p m) {| pi_text := ""; pi_closed := false |} =
  Line "ping" (ReadLine (λ answer,
    match answer with
    | None => Exit 1 m
    | Some line =>
        if decide (line ≠ "pong") then Warn "Received wrong answer for ping request" (Exit 1 m)
        else answered m
    end)) {| pi_text := ""; pi_closed := false |}.
Proof. reflexivity. Qed.
Lemma readLine_pong m (k := λ answer : option string,
    match answer with
    | None => Exit 1 m
    | Some line =>
        if decide (line ≠ "pong") then Warn "Received wrong answer for ping request" (Exit 1 m)
        else answered m
    end) :
  readLine (ReadLine k) {| pi_text := "pong" +:+ newline; pi_closed := false |} =
  readLine (answered m) {| pi_text := ""; pi_closed := false |}.
Proof. reflexivity. Qed.

Lemma closed_returns {W} (r : remote W) : ∀ text, readLine r {| pi_text := text; pi_closed := true |} ≠ Blocks.
Proof.
  induction r as [l k IH|l k IH|k IH|k IH|c w|c w]; intros text; cbn [readLine pi_text pi_closed]; try done.
  destruct (cut_line text) as [[l rest]|]; apply IH.
Qed.
Lemma attempts_return pi k n : (∀ m', readLine (k m') pi ≠ Blocks) → ∀ attempts m,
  readLine (sh_attempts p n attempts m k) pi ≠ Blocks.
Proof.
  intros Hk. induction n as [|n IH]; intros attempts m; cbn [sh_attempts]; [done|].
  destruct (match attempts with a :: _ => a (download_url p m) | [] => None end); [apply Hk|apply IH].
Qed.
(** With its input open the script does not wait before the next line. *)
Lemma answered_returns m pi : readLine (answered m) pi ≠ Blocks.
Proof.
  unfold answered, sh_install. destruct (ExistsCheck version_of p m); [|done].
  destruct (i_denied m); [done|]. destruct (i_noexec m); [done|].
  destruct (p_PreferAgentDownload p); [|done]. unfold sh_download.
  destruct (i_downloader (with_file None m)); [done|]. apply attempts_return. intros m'.
  by destruct (ExistsCheck version_of p (chmod_path p m')).
Qed.
Notation no_NoFuel r := (r ≠ NoFuel).
Lemma inject_returns m : (∀ arm, no_NoFuel (localFile arm)) → no_NoFuel copied →
  no_NoFuel (inject localFile copied (script version_of p m)).1.
Proof.
  intros Hf Hc. unfold inject. rewrite readLine_script. cbn [pi_text].
  change (TrimSpace "ping") with "ping". rewrite decide_False by tauto.
  change ("" +:+ "pong" +:+ newline) with ("pong" +:+ newline). rewrite readLine_pong.
  pose proof (answered_returns m {| pi_text := ""; pi_closed := false |}) as Ha.
  destruct (readLine (answered m) _) as [line r pi| |]; [|done..].
  destruct (isInjectingOfBinaryNeeded _).
  - unfold getFileReader. specialize (Hf (bool_decide (TrimPrefix (TrimSpace line) "ARM-" = "true"))).
    destruct (localFile _) as [content|e| |]; [|done..]. unfold injectBinary.
    pose proof (closed_returns r (pi_text pi +:+ content)) as Hr.
    destruct (readLine r _); [|done..]. cbn. by case_decide.
  - case_decide; [done|]. cbn. by destruct copied.
Qed.

(** The client and the script never wait for each other: whatever the machine is like, the
    attempt to install the agent and run a command comes to an end. *)
Theorem InjectAndExecute_returns exec_seen m :
  (∀ arm, no_NoFuel (localFile arm)) → no_NoFuel copied →
  no_NoFuel (InjectAndExecute version_of p localFile copied run exec_seen m).1.2.
Proof.
  intros Hf Hc. pose proof (inject_returns m Hf Hc) as H. unfold InjectAndExecute.
  destruct (inject _ _ _) as [res [r text]]. cbn in H.
  destruct res as [b|e| |]; cbn [WrapCommandError]; [|done|done|done].
  destruct exec_seen.
  - unfold exit_error. case_decide; cbn [WrapCommandError]; [|done].
    destruct (b || _); [done|]. destruct (exec_command _ _ _). cbn. by case_decide.
  - destruct (b || _); [done|]. destruct (exec_command _ _ _). cbn. unfold exit_error. by case_decide.
Qed.

(** C25: On a machine whose target can be written to and stores what it is given, when the agent is
    sent and not downloaded, the local binary has the version that is wanted, the path is made
    executable, the command is not empty, has no carriage returns and exits with 0, and its
    streams are copied: afterwards the agent is there
    with this version, whatever was there before, and the command ran exactly once; a binary that
    has the version is not touched.  (What else can happen: the examples of this file.) *)
Theorem InjectAndExecute_installs exec_seen m content :
  i_denied m = None → i_noexec m = false → (∀ c, i_stored m c = c) →
  p_PreferAgentDownload p = false → p_ShouldChmodPath p = true →
  localFile (i_arm m) = Ok content → version_of content = p_version p →
  p_Command p ≠ "" → stripCarriageReturns (p_Command p) = p_Command p →
  (∀ m', run m' (p_Command p) = 0%Z) → copied = Ok () →
  let '(executed, r, m') := InjectAndExecute version_of p localFile copied run exec_seen m in
  executed = true ∧ r = Ok () ∧ i_ran m' = i_ran m ++ [p_Command p] ∧
  i_file m' = if ExistsCheck version_of p m then Some (content, true) else i_file m.
Proof.
  intros Hd Hn Hst Hpre Hch Hf Hv Hcmd Hcr Hrun Hcop. unfold InjectAndExecute, inject.
  rewrite readLine_script. cbn [pi_text]. change (TrimSpace "ping") with "ping".
  rewrite decide_False by tauto. change ("" +:+ "pong" +:+ newline) with ("pong" +:+ newline).
  rewrite readLine_pong. unfold answered. destruct (ExistsCheck version_of p m) eqn:Hex.
  - unfold sh_install. rewrite Hd, Hn, Hpre. unfold sh_inject. cbn [readLine i_arm with_file].
    assert (TrimSpace ("ARM-" +:+ (if i_arm m then "true" else "false")) =
      "ARM-" +:+ (if i_arm m then "true" else "false")) as -> by by destruct (i_arm m).
    assert (isInjectingOfBinaryNeeded ("ARM-" +:+ (if i_arm m then "true" else "false")) = true) as ->
      by by destruct (i_arm m).
    unfold getFileReader.
    assert (bool_decide (TrimPrefix ("ARM-" +:+ (if i_arm m then "true" else "false")) "ARM-" = "true") = i_arm m)
      as -> by by destruct (i_arm m).
    rewrite Hf. unfold injectBinary. cbn [readLine pi_text pi_closed].
    change (TrimSpace "done") with "done". rewrite decide_True by done.
    change ("" +:+ content) with content. cbn [run_out en_stderr en_code en_left WrapCommandError].
    unfold exit_error at 1. rewrite decide_True by done. cbn [WrapCommandError orb].
    assert (bool_decide (p_Command p = "") = false) as -> by by apply bool_decide_false.
    unfold exec_command, exit_error. rewrite Hrun. rewrite decide_True by done.
    destruct exec_seen; split_and!; try done.
    all: cbn; unfold chmod_path; rewrite Hch; cbn; by rewrite ?Hst.
  - unfold sh_finish at 1. cbn [readLine]. change (TrimSpace "done") with "done".
    change (isInjectingOfBinaryNeeded "done") with false. cbv iota.
    rewrite decide_False by tauto. rewrite Hcop. cbn [mbind result_bind]. rewrite Hcr.
    destruct (p_Command p) as [|a c] eqn:Hp; [done|]. cbn [run_out]. unfold exec_command.
    cbn [en_stderr en_code en_left WrapCommandError]. rewrite Hrun. unfold exit_error.
    rewrite decide_True by done. destruct exec_seen; cbn; by split_and!.
Qed.
End Protocol.

(** ** The attempts *)

Section Loop.
Context {W : Type} (once : W → attempt * W).
Hypothesis once_ok : ∀ w, (0 ≤ at_time (once w).1)%Z ∧ at_result (once w).1 ≠ NoFuel.

Lemma inject_loop_stops fuel : ∀ since w,
  (waitForInstanceConnectionTimeout - since < retry_pause * (Z.of_nat fuel - 1))%Z → fuel ≠ 0%nat →
  (inject_loop once fuel since w).1 ≠ NoFuel.
Proof.
  induction fuel as [|fuel IH]; intros since w Hf Hne; [done|]. cbn [inject_loop].
  pose proof (once_ok w) as [Ht Hr]. destruct (once w) as [a w']. cbn in Ht, Hr.
  destruct (at_result a) as [[]|e| |]; [done| |done|done].
  destruct (Z.ltb_spec waitForInstanceConnectionTimeout (since + at_time a)); [done|].
  destruct (at_executed a); [done|]. apply IH; [|intros ->; unfold retry_pause in *; lia].
  unfold retry_pause in *. lia.
Qed.
End Loop.

(** The attempts to reach a machine come to an end: after at most 102 of them, which are
    three seconds apart, the five minutes are over. *)
Theorem InjectAgentAndExecute_terminates {W} s emulated (once : Inject.Params → W → attempt * W)
    path url command prefer w :
  (∀ c w', (emulated c w').1 ≠ NoFuel) →
  (∀ p w', (0 ≤ at_time (once p w').1)%Z ∧ at_result (once p w').1 ≠ NoFuel) →
  (InjectAgentAndExecute 102 s emulated once path url command prefer w).1 ≠ NoFuel.
Proof.
  intros He Ho. unfold InjectAgentAndExecute. destruct (as_local s).
  - case_decide; [done|apply He].
  - apply inject_loop_stops; [apply Ho|by vm_compute|done].
Qed.

(** ** A machine *)

(** The version of a binary is its text. *)
Definition demo_params (prefer : bool) : Inject.Params := {|
  p_Command := "devpod helper ssh-server --stdio"; p_AgentRemotePath := "/usr/local/bin/devpod";
  p_DownloadURLs := NewDownloadURLs (λ a b, a +:+ "/" +:+ b) "https://example.com/v2";
  p_version := "v2"; p_PreferAgentDownload := prefer; p_ShouldChmodPath := true |}.
Definition demo_target (file : option (string * bool)) (downloader : downloader) : machine := {|
  i_arm := true; i_denied := None; i_noexec := false; i_downloader := downloader;
  i_stored := λ c, c; i_file := file; i_ran := [] |}.
Definition demo_local (arm : bool) : result string := if arm then Ok "v2" else Err "no binary".
Definition demo_inject (prefer : bool) (m : machine) : bool * result unit * machine :=
  InjectAndExecute (λ c, c) (demo_params prefer) demo_local (Ok ()) (λ _ _, 0%Z) true m.

Lemma InjectAndExecute_returns_witness :
  (demo_inject true (demo_target None (Tool []))).1.2 ≠ NoFuel.
Proof.
  apply (InjectAndExecute_returns (λ c, c) (demo_params true) demo_local (Ok ()) (λ _ _, 0%Z) true
    (demo_target None (Tool []))); [by intros []|done].
Defined.
Lemma InjectAndExecute_installs_witness :
  let '(executed, r, m') := demo_inject false (demo_target (Some ("v1", true)) NoTool) in
  executed = true ∧ r = Ok () ∧ i_ran m' = ["devpod helper ssh-server --stdio"] ∧
  i_file m' = Some ("v2", true).
Proof.
  exact (InjectAndExecute_installs (λ c, c) (demo_params false) demo_local (Ok ()) (λ _ _, 0%Z) true
    (demo_target (Some ("v1", true)) NoTool) "v2" eq_refl eq_refl (λ _, eq_refl) eq_refl eq_refl eq_refl
    eq_refl ltac:(discriminate) eq_refl (λ _, eq_refl) eq_refl).
Defined.
Definition demo_settings : agent_settings := {|
  as_local := false; as_version := "v2"; as_DefaultAgentDownloadURL := "https://example.com/";
  as_JoinPath := λ a b, a +:+ b |}.
(** A machine that is never there: 102 attempts are needed. *)
Definition never (p : Inject.Params) (n : nat) : attempt * nat :=
  ({| at_time := 0; at_executed := false; at_result := Err "connection refused" |}, S n).
Lemma InjectAgentAndExecute_terminates_witness :
  (InjectAgentAndExecute 102 demo_settings (λ _ n, (Ok (), n)) never "" "" "ls" false 0%nat).1 ≠ NoFuel.
Proof.
  apply (InjectAgentAndExecute_terminates demo_settings (λ _ n, (Ok (), n)) never "" "" "ls" false 0%nat);
    [done|by split].
Defined.
Example all_attempts :
  InjectAgentAndExecute 102 demo_settings (λ _ n, (Ok (), n)) never "" "" "ls" false 0%nat =
  (Err "timeout waiting for instance connection: connection refused", 102%nat).
Proof. vm_compute. reflexivity. Qed.

(** A download that fails ends the script: the agent is not sent instead. *)
Example download_no_fallback :
  demo_inject true (demo_target None (Tool [])) =
  (false, Err (GoStrings.Join ["error: failed to download devpod"; "error: failed to download devpod";
     "error: failed to download devpod"; "error: failed to download devpod"; "EOF"] newline),
   demo_target None (Tool [])).
Proof. vm_compute. reflexivity. Qed.
(** A binary that was cut off is taken for installed. *)
Example stored_partly :
  let m := {| i_arm := true; i_denied := None; i_noexec := false; i_downloader := NoTool;
              i_stored := λ _, ""; i_file := None; i_ran := [] |} in
  let '(executed, r, m') := demo_inject false m in
  executed = true ∧ i_file m' = Some ("", true) ∧ i_ran m' = ["devpod helper ssh-server --stdio"].
Proof. vm_compute. split_and!; reflexivity. Qed.
(** No binary for the machine: an empty one is installed. *)
Example no_local_file :
  let m := {| i_arm := false; i_denied := None; i_noexec := false; i_downloader := NoTool;
              i_stored := λ c, c; i_file := Some ("v1", true); i_ran := [] |} in
  let '(executed, r, m') := demo_inject false m in
  executed = false ∧ r = Err "no binary" ∧ i_file m' = Some ("", true).
Proof. vm_compute. split_and!; reflexivity. Qed.

Definition demo_cache (version body : string) : cache_world := {|
  cw_fy := {| fy_fail := λ _ _, None |}; cw_GOOS := "darwin"; cw_GOARCH := "arm64";
  cw_version := version; cw_TempDir := "/tmp"; cw_executable := inl "none";
  cw_Get := λ _, inr (Z.of_nat (String.length body), body) |}.
(** The agent that is in the cache is sent, also if it belongs to another version ... *)
Example cache_outdated :
  let f : fs := {[ ["tmp"] := Dir 511 ]} in
  let '(r1, f) := agent_injectBinary (demo_cache "v1" "agent v1") true "https://example.com/v1" f in
  let '(r2, f) := agent_injectBinary (demo_cache "v2" "agent v2") true "https://example.com/v2" f in
  r1 = Ok "agent v1" ∧ r2 = Ok "agent v1".
Proof. vm_compute. split; reflexivity. Qed.
(** ... and so is the page of an error, since the status is not looked at. *)
Example cache_error_page :
  let f : fs := {[ ["tmp"] := Dir 511 ]} in
  let '(r1, f) := agent_injectBinary (demo_cache "v1" "Not Found") true "https://example.com/v1" f in
  let '(r2, f) := agent_injectBinary (demo_cache "v1" "agent v1") true "https://example.com/v1" f in
  r1 = Ok "Not Found" ∧ r2 = Ok "Not Found".
Proof. vm_compute. split; reflexivity. Qed.
