(* ===== verification/DevContainerFile.v ===== *)
(** * devcontainer.json: finding, reading and writing it

    The search for the file and its legacy properties
    (pkg/devcontainer/config/parse.go), the configuration a workspace starts
    with (pkg/devcontainer/config.go, run.go), and the image for a project
    without a file (pkg/language).

    An error is known by its text: [ErrNotExist] is the error that
    [os.IsNotExist] recognises, and wrapping it hides it. *)

From S2P Require Import Prelude GoStrings Types Config DevContainer Substitute SshConfig Options Lifecycle Clients Driver Build.
From stdpp Require Import base gmap list strings pretty.
From Stdlib Require Import ZArith.

Local Open Scope string_scope.
Local Open Scope list_scope.

Record VSCodeCustomizations := {
  vs_settings : gmap string json;
  vs_extensions : list string;
  vs_devPort : Z;
}.
Definition no_vscode : VSCodeCustomizations := {|
  vs_settings := ∅; vs_extensions := []; vs_devPort := 0 |}.

Record file_world := {
  fw_sys : hostsys;
  (** encoding/json and jsonc on a devcontainer.json *)
  fw_decode : string → string + DevContainerConfig;
  fw_encode : DevContainerConfig → string + string;
  (** [Convert] between a customization and its record; [None] is the nil
      pointer that the JSON value null decodes to *)
  fw_vscode : json → string + option VSCodeCustomizations;
  fw_vscodeJSON : VSCodeCustomizations → json;
  (** [doublestar.FilepathGlob] *)
  fw_glob : gmap string string → string → string + list string;
  (** what [os.Stat] finds: an error, or whether it is a regular file *)
  fw_regular : string → string + bool;
  (** [detector.GetLanguage] *)
  fw_language : string → string;
  (** [crane.ShouldUse] and [crane.PullConfigFromSource] *)
  fw_crane : CLIOptions → bool;
  fw_pull : AgentWorkspaceInfo → CLIOptions → string + string;
  (** [Convert] between a configuration and its JSON value *)
  fw_toJSON : DevContainerConfig → string + json;
  fw_ofJSON : json → string + DevContainerConfig;
  fw_environ : list string;
}.

(** ** Records with a field replaced *)

Definition with_origin (c : DevContainerConfig) (origin : string) : DevContainerConfig := {|
  dc_base := dc_base c; dc_actions := dc_actions c; dc_nonCompose := dc_nonCompose c;
  dc_image := dc_image c; dc_compose := dc_compose c; dc_dockerfile := dc_dockerfile c;
  dc_containerID := dc_containerID c; dc_origin := origin |}.
Definition no_dockerfile : DockerfileContainer := {|
  df_dockerfile := ""; df_context := ""; df_build := None |}.
Definition zero_config : DevContainerConfig := {|
  dc_base := empty_base; dc_actions := no_actions; dc_nonCompose := no_nonCompose;
  dc_image := ""; dc_compose := no_compose; dc_dockerfile := no_dockerfile;
  dc_containerID := ""; dc_origin := "" |}.
Definition image_config (image : string) : DevContainerConfig := {|
  dc_base := empty_base; dc_actions := no_actions; dc_nonCompose := no_nonCompose;
  dc_image := image; dc_compose := no_compose; dc_dockerfile := no_dockerfile;
  dc_containerID := ""; dc_origin := "" |}.
Definition with_image (c : DevContainerConfig) (image : string) : DevContainerConfig := {|
  dc_base := dc_base c; dc_actions := dc_actions c; dc_nonCompose := dc_nonCompose c;
  dc_image := image; dc_compose := dc_compose c; dc_dockerfile := dc_dockerfile c;
  dc_containerID := dc_containerID c; dc_origin := dc_origin c |}.
Definition without_dockerfile (c : DevContainerConfig) : DevContainerConfig := {|
  dc_base := dc_base c; dc_actions := dc_actions c; dc_nonCompose := dc_nonCompose c;
  dc_image := dc_image c; dc_compose := dc_compose c; dc_dockerfile := no_dockerfile;
  dc_containerID := dc_containerID c; dc_origin := dc_origin c |}.
(** The legacy properties and the customizations. *)
Definition with_legacy (c : DevContainerConfig) (extensions : list string)
    (settings : gmap string json) (devPort : Z) (customizations : gmap string json)
    : DevContainerConfig :=
  let b := dc_base c in let a := dc_actions c in {|
  dc_base := {|
    b_name := b_name b; b_features := b_features b;
    b_overrideFeatureInstallOrder := b_overrideFeatureInstallOrder b;
    b_forwardPorts := b_forwardPorts b; b_portsAttributes := b_portsAttributes b;
    b_otherPortsAttributes := b_otherPortsAttributes b;
    b_updateRemoteUserUID := b_updateRemoteUserUID b; b_remoteEnv := b_remoteEnv b;
    b_remoteUser := b_remoteUser b; b_initializeCommand := b_initializeCommand b;
    b_shutdownAction := b_shutdownAction b; b_waitFor := b_waitFor b;
    b_userEnvProbe := b_userEnvProbe b; b_hostRequirements := b_hostRequirements b;
    b_overrideCommand := b_overrideCommand b; b_workspaceFolder := b_workspaceFolder b;
    b_settings := settings; b_extensions := extensions; b_devPort := devPort |};
  dc_actions := {|
    a_onCreateCommand := a_onCreateCommand a;
    a_updateContentCommand := a_updateContentCommand a;
    a_postCreateCommand := a_postCreateCommand a;
    a_postStartCommand := a_postStartCommand a;
    a_postAttachCommand := a_postAttachCommand a;
    a_customizations := customizations |};
  dc_nonCompose := dc_nonCompose c; dc_image := dc_image c; dc_compose := dc_compose c;
  dc_dockerfile := dc_dockerfile c; dc_containerID := dc_containerID c;
  dc_origin := dc_origin c |}.

(** ** Environment files *)

(** [utf8.Valid] *)
Fixpoint utf8_valid (s : string) : bool :=
  match s with
  | "" => true
  | String c s1 =>
      if in_range 0 127 c then utf8_valid s1
      else match s1 with
           | "" => false
           | String d s2 =>
               if in_range 194 223 c then in_range 128 191 d && utf8_valid s2
               else match s2 with
                    | "" => false
                    | String e s3 =>
                        if in_range 224 239 c then
                          let lo := if (code c =? 224)%nat then 160 else 128 in
                          let hi := if (code c =? 237)%nat then 159 else 191 in
                          in_range lo hi d && in_range 128 191 e && utf8_valid s3
                        else match s3 with
                             | "" => false
                             | String f s4 =>
                                 let lo := if (code c =? 240)%nat then 144 else 128 in
                                 let hi := if (code c =? 244)%nat then 143 else 191 in
                                 in_range 240 244 c && in_range lo hi d &&
                                 in_range 128 191 e && in_range 128 191 f && utf8_valid s4
                             end
                    end
           end
  end.

Fixpoint key_values (filename : string) (lineNum : nat) (lines : list string)
    : result (list string) :=
  match lines with
  | [] => Ok []
  | line :: lines' =>
      if negb (utf8_valid line) then
        Err ("env file " +:+ filename +:+ " contains invalid utf8 bytes in line " +:+
             pretty lineNum)
      else if decide (line ≠ "" ∧ HasPrefix line "#" = false) then
        let '(key, value, found) := Cut "=" line in
        if decide (key = "" ∨ scontains_char " " key = true) then
          Err ("env file " +:+ filename +:+ " contains invalid variable key in line " +:+
               pretty lineNum +:+ ": " +:+ line)
        else if decide (value = "") then
          Err ("env file " +:+ filename +:+ " contains invalid variable value in line " +:+
               pretty lineNum +:+ ": " +:+ line)
        else
          rest ← key_values filename (S lineNum) lines';
          Ok (if found : bool then line :: rest else rest)
      else key_values filename (S lineNum) lines'
  end.

Section File.
Context {E : Type} (w : file_world).
Notation B := (M (host E)).
Notation hs := (fw_sys w).

(** The error of the scanner is not read: a line that does not fit its buffer
    ends the file. *)
Definition ParseKeyValueFile (filename : string) : B (list string) :=
  content ← ReadFile hs filename;
  liftR (key_values filename 1 (bufio_scan content).1).

(** ** config/parse.go *)

Definition SaveDevContainerJSON (config : DevContainerConfig) : B unit :=
  if decide (dc_origin config = "") then throw "no origin in config"
  else
    _ ← MkdirAll hs (filepath_Dir (dc_origin config));
    out ← liftR (of_sum (fw_encode w config));
    WriteFile hs (dc_origin config) out.

Definition or_nonempty {A} (l d : list A) : list A := match l with [] => d | _ => l end.

Definition replaceLegacy (config : DevContainerConfig) : result DevContainerConfig :=
  let b := dc_base config in
  let customizations := a_customizations (dc_actions config) in
  if decide (b_extensions b = [] ∧ b_settings b = ∅ ∧ b_devPort b = 0%Z) then Ok config
  else
    vscode ← match customizations !! "vscode" with
             | Some v => c ← of_sum (fw_vscode w v); deref c
             | None => Ok no_vscode
             end;
    let newDevPort := if decide (vs_devPort vscode = 0%Z) then b_devPort b
                      else vs_devPort vscode in
    let vscode' := {|
      vs_extensions := or_nonempty (b_extensions b) (vs_extensions vscode);
      vs_settings := vs_settings vscode ∪ b_settings b;
      vs_devPort := newDevPort |} in
    Ok (with_legacy config [] ∅
          (if decide (vs_devPort vscode = 0%Z) then 0%Z else b_devPort b)
          (<["vscode" := fw_vscodeJSON w vscode']> customizations)).

(** The path of the devcontainer.json, or [None] when there is none. *)
Definition devcontainer_path (folder relativePath : string) : B (option string) :=
  if decide (relativePath ≠ "") then
    let path := filepath_Join [folder; relativePath] in
    there ← Stat path;
    if there : bool then mret (Some path)
    else throw ("devcontainer path " +:+ path +:+ " doesn't exist: " +:+ ErrNotExist)
  else
    let path := filepath_Join [folder; ".devcontainer"; "devcontainer.json"] in
    there ← Stat path;
    if there : bool then mret (Some path)
    else
      let path := filepath_Join [folder; ".devcontainer.json"] in
      there ← Stat path;
      if there : bool then mret (Some path)
      else
        h ← getS;
        matches ← liftR (of_sum (fw_glob w (h_fs h)
          (filepath_Clean folder +:+ "/.devcontainer/**/devcontainer.json")));
        (* the matches are only counted: the path stays .devcontainer.json *)
        mret (match matches with [] => None | _ => Some path end).

Definition ParseDevContainerJSON (folder relativePath : string)
    : B (option DevContainerConfig) :=
  found ← devcontainer_path folder relativePath;
  match found with
  | None => mret None
  | Some path =>
      c ← liftR (wrap "make path absolute" (of_sum (hs_Abs hs path)));
      bytes ← ReadFile hs c;
      devContainer ← liftR (of_sum (fw_decode w bytes));
      devContainer ← liftR (replaceLegacy (with_origin devContainer c));
      mret (Some devContainer)
  end.

(** ** pkg/language *)

Definition SupportedLanguages : list string :=
  ["JavaScript"; "TypeScript"; "Python"; "C"; "C++"; "C#"; "Go"; "Php"; "Java"; "Rust";
   "Ruby"; "None"].
Definition MapLanguages (language : string) : string :=
  if decide (language = "TypeScript") then "JavaScript"
  else if decide (language = "C") then "C++" else language.
Definition MapConfig : gmap string string :=
  {[ "None" := "mcr.microsoft.com/devcontainers/base:ubuntu";
     "JavaScript" := "mcr.microsoft.com/devcontainers/javascript-node";
     "Python" := "mcr.microsoft.com/devcontainers/python:3";
     "Java" := "mcr.microsoft.com/devcontainers/java";
     "Go" := "mcr.microsoft.com/devcontainers/go";
     "Rust" := "mcr.microsoft.com/devcontainers/rust:latest";
     "Ruby" := "mcr.microsoft.com/devcontainers/ruby";
     "Php" := "mcr.microsoft.com/devcontainers/php";
     "C++" := "mcr.microsoft.com/devcontainers/cpp";
     "C#" := "mcr.microsoft.com/devcontainers/dotnet" ]}.

Definition DetectLanguage (startPath : string) : result string :=
  root ← of_sum (hs_Abs hs startPath);
  regular ← of_sum (fw_regular w root);
  if regular : bool then Ok "None"
  else
    let language := fw_language w root in
    if decide (language ∉ SupportedLanguages) then Ok "None" else Ok (MapLanguages language).

Definition DefaultConfig (startPath : string) : DevContainerConfig :=
  let none := default "" (MapConfig !! "None") in
  image_config match DetectLanguage startPath with
               | Ok language => default none (MapConfig !! language)
               | _ => none
               end.

(** ** pkg/devcontainer/config.go *)

(** [r.WorkspaceConfig] and [r.LocalWorkspaceFolder], its content folder *)
Context (info : AgentWorkspaceInfo).
Notation workspace := (ai_workspace info).
Notation folder := (ai_contentFolder info).

Definition getDefaultConfig (options : CLIOptions) : B DevContainerConfig :=
  let defaultConfig := if decide (cli_fallbackImage options ≠ "")
                       then image_config (cli_fallbackImage options)
                       else DefaultConfig folder in
  let defaultConfig := with_origin defaultConfig (filepath_Join [folder; ".devcontainer.json"]) in
  c ← caught (SaveDevContainerJSON defaultConfig);
  _ ← liftR (wrap "write default devcontainer.json" c);
  mret defaultConfig.

(** [DevContainerConfigBase{WorkspaceFolder: "/"}] *)
Definition root_base : DevContainerConfigBase := {|
  b_name := ""; b_features := ∅; b_overrideFeatureInstallOrder := [];
  b_forwardPorts := []; b_portsAttributes := ∅; b_otherPortsAttributes := None;
  b_updateRemoteUserUID := None; b_remoteEnv := ∅; b_remoteUser := "";
  b_initializeCommand := ∅; b_shutdownAction := ""; b_waitFor := "";
  b_userEnvProbe := ""; b_hostRequirements := None; b_overrideCommand := None;
  b_workspaceFolder := "/"; b_settings := ∅; b_extensions := []; b_devPort := 0%Z |}.

(** A nil configuration without an error is a nil pointer for the caller. *)
Definition getRawConfig (options : CLIOptions) : B DevContainerConfig :=
  match w_devContainerConfig workspace with
  | Some c =>
      mret (with_origin c (filepath_Join [folder;
              if decide (w_devContainerPath workspace ≠ "") then w_devContainerPath workspace
              else ".devcontainer.devpod.json"]))
  | None =>
      if decide (ws_container (w_source workspace) ≠ "") then
        mret {| dc_base := root_base; dc_actions := no_actions; dc_nonCompose := no_nonCompose; dc_image := "";
                dc_compose := no_compose; dc_dockerfile := no_dockerfile;
                dc_containerID := ws_container (w_source workspace); dc_origin := "" |}
      else if fw_crane w options then
        localWorkspaceFolder ← liftR (of_sum (fw_pull w info options));
        c ← ParseDevContainerJSON localWorkspaceFolder (w_devContainerPath workspace);
        liftR (deref c)
      else
        let localWorkspaceFolder :=
          if decide (ws_gitSubPath (w_source workspace) ≠ "")
          then filepath_Join [folder; ws_gitSubPath (w_source workspace)] else folder in
        c ← caught (ParseDevContainerJSON localWorkspaceFolder (w_devContainerPath workspace));
        match c with
        | Ok (Some c) => mret c
        | Ok None => getDefaultConfig options
        | Err e => if decide (e = ErrNotExist) then getDefaultConfig options
                   else throw ("parsing devcontainer.json: " +:+ e)
        | c => liftR (c ≫= λ _, Err "")
        end
  end.

(** [getWorkspace] of run.go: the mount of the workspace and its folder in the
    container. *)
Definition getWorkspace (workspaceFolder workspaceID : string) (conf : DevContainerConfig)
    : result (string * string) :=
  let workspaceMount := n_workspaceMount (dc_nonCompose conf) in
  if decide (workspaceMount ≠ "") then
    mount ← ParseMount workspaceMount; Ok (workspaceMount, mount_target mount)
  else
    let containerMountFolder :=
      if decide (b_workspaceFolder (dc_base conf) = "") then "/workspaces/" +:+ workspaceID
      else b_workspaceFolder (dc_base conf) in
    let consistency :=
      if decide (hs_GOOS hs ≠ "linux") then ",consistency='consistent'" else "" in
    Ok ("type=bind,source=" +:+ workspaceFolder +:+ ",target=" +:+ containerMountFolder +:+
        consistency, containerMountFolder).

Definition or_default (s d : string) : string := if decide (s = "") then d else s.

(** [r.substitute] with the runner's id *)
Definition substitute (ID : string) (options : CLIOptions)
    (rawParsedConfig : DevContainerConfig)
    : result (SubstitutedConfig * SubstitutionContext) :=
  ws ← getWorkspace folder (w_id workspace) rawParsedConfig;
  let '(workspaceMount, containerWorkspaceFolder) := ws in
  let ctx := {|
    ctx_devContainerID := ID; ctx_localWorkspaceFolder := folder;
    ctx_containerWorkspaceFolder := containerWorkspaceFolder;
    ctx_env := ListToObject (fw_environ w); ctx_workspaceMount := workspaceMount |} in
  newVal ← of_sum (fw_toJSON w rawParsedConfig);
  let '(retVal, ctx) := Substitute (bool_decide (hs_GOOS hs = "windows")) ctx newVal in
  parsedConfig ← of_sum (fw_ofJSON w retVal);
  let ctx := {|
    ctx_devContainerID := ID; ctx_localWorkspaceFolder := folder;
    ctx_containerWorkspaceFolder :=
      or_default (b_workspaceFolder (dc_base parsedConfig)) (ctx_containerWorkspaceFolder ctx);
    ctx_env := ctx_env ctx;
    ctx_workspaceMount :=
      or_default (n_workspaceMount (dc_nonCompose parsedConfig)) workspaceMount |} in
  let parsedConfig :=
    if decide (cli_devContainerImage options ≠ "")
    then with_image (without_dockerfile parsedConfig) (cli_devContainerImage options)
    else parsedConfig in
  Ok ({| sc_config := with_origin parsedConfig (dc_origin rawParsedConfig);
         sc_raw := rawParsedConfig |}, ctx).

Definition getSubstitutedConfig (ID : string) (options : CLIOptions)
    : B (SubstitutedConfig * SubstitutionContext) :=
  rawConfig ← getRawConfig options;
  liftR (substitute ID options rawConfig).
End File.
