(* ===== verification/Runner.v ===== *)
(** * pkg/devcontainer: bringing up a dev container

    The runner (run.go, single.go, build.go, prebuild.go, delete.go,
    inspect.go, setup.go): it loads the configuration, finds, builds, starts
    or recreates the container through the driver, and runs the setup inside.

    It is written against the class [Driver] of Driver.v.  What the agent in
    the container, the registry, the platform and docker compose do is a
    field of [runner_world]. *)

From S2P Require Import Prelude GoStrings Types Config Names DevContainer Merge Substitute SshConfig Options Dockerfile Lifecycle Provider Clients Driver Build DevContainerFile.
From stdpp Require Import base gmap list strings.
From Stdlib Require Import ZArith.

Local Open Scope string_scope.
Local Open Scope list_scope.

(** ** Identifiers and mounts *)

Definition GetRunnerIDFromWorkspace (workspace : Workspace) : string :=
  if Encoding.IsLegacyUID (w_uid workspace) then w_id workspace else w_uid workspace.

Definition escapes (baseFolder : string) (m : Mount) : bool :=
  match filepath_Rel baseFolder (mount_source m) with
  | None => true
  | Some rel => Contains rel ".."
  end.
Definition filterWorkspaceMounts (mounts : list Mount) (baseFolder : string) : list Mount :=
  filter (λ m, escapes baseFolder m = false) mounts.

Definition getRelativeDevContainerJson (origin localWorkspaceFolder : string) : string :=
  TrimPrefix (TrimPrefix origin localWorkspaceFolder) "/".

(** ** Configurations *)

Definition isDockerFileConfig (config : DevContainerConfig) : bool :=
  negb (bool_decide (GetDockerfile (dc_dockerfile config) = "")).
Definition isDockerComposeConfig (config : DevContainerConfig) : bool :=
  match cc_dockerComposeFile (dc_compose config) with [] => false | _ => true end.
Definition getDockerComposeProject (c : ContainerDetails) : option string :=
  cd_Labels c !! "com.docker.compose.project".

Record UpOptions := {
  up_cli : CLIOptions;
  up_NoBuild : bool;
  up_ForceBuild : bool;
  up_RegistryCache : string;
}.

Definition with_folder (ctx : SubstitutionContext) (folder : string) : SubstitutionContext := {|
  ctx_devContainerID := ctx_devContainerID ctx;
  ctx_localWorkspaceFolder := ctx_localWorkspaceFolder ctx;
  ctx_containerWorkspaceFolder := folder; ctx_env := ctx_env ctx;
  ctx_workspaceMount := ctx_workspaceMount ctx |}.
Definition with_nonCompose (m : MergedDevContainerConfig) (n : NonComposeBase)
    : MergedDevContainerConfig := {|
  mc_base := mc_base m; mc_updated := mc_updated m; mc_nonCompose := n;
  mc_image := mc_image m; mc_compose := mc_compose m; mc_dockerfile := mc_dockerfile m;
  mc_containerID := mc_containerID m; DevContainer.mc_origin := DevContainer.mc_origin m |}.
Definition with_containerEnv (m : MergedDevContainerConfig) (env : gmap string string)
    : MergedDevContainerConfig :=
  let n := mc_nonCompose m in
  with_nonCompose m {|
    n_appPort := n_appPort n; n_containerEnv := env; n_containerUser := n_containerUser n;
    n_mounts := n_mounts n; n_init := n_init n; n_privileged := n_privileged n;
    n_capAdd := n_capAdd n; n_securityOpt := n_securityOpt n; n_runArgs := n_runArgs n;
    n_workspaceMount := n_workspaceMount n |}.
Definition with_mounts (m : MergedDevContainerConfig) (mounts : list Mount)
    : MergedDevContainerConfig :=
  let n := mc_nonCompose m in
  with_nonCompose m {|
    n_appPort := n_appPort n; n_containerEnv := n_containerEnv n;
    n_containerUser := n_containerUser n; n_mounts := mounts; n_init := n_init n;
    n_privileged := n_privileged n; n_capAdd := n_capAdd n;
    n_securityOpt := n_securityOpt n; n_runArgs := n_runArgs n;
    n_workspaceMount := n_workspaceMount n |}.
Definition with_config (c : SubstitutedConfig) (config : DevContainerConfig)
    : SubstitutedConfig := {| sc_config := config; sc_raw := sc_raw c |}.

(** ** pkg/daemon/agent *)

Record DaemonConfig := {
  dm_platform : PlatformOptions;
  dm_workdir : string;
  dm_user : string;
}.
(** A git sub path also moves the folder in the substitution context. *)
Definition BuildWorkspaceDaemonConfig (platformOptions : PlatformOptions)
    (workspace : Workspace) (ctx : SubstitutionContext) (merged : MergedDevContainerConfig)
    : DaemonConfig * SubstitutionContext :=
  let subPath := ws_gitSubPath (w_source workspace) in
  let ctx := if decide (subPath ≠ "")
             then with_folder ctx (filepath_Join [ctx_containerWorkspaceFolder ctx; subPath])
             else ctx in
  let workdir := if decide (subPath ≠ "") then ctx_containerWorkspaceFolder ctx else "" in
  let workdir := or_default workdir (b_workspaceFolder (mc_base merged)) in
  let workdir := or_default workdir (ctx_containerWorkspaceFolder ctx) in
  ({| dm_platform := {|
        po_enabled := po_enabled platformOptions;
        po_accessKey := po_accessKey platformOptions;
        po_workspaceHost := po_workspaceHost platformOptions;
        po_platformHost := po_platformHost platformOptions;
        po_environmentTemplate := po_environmentTemplate platformOptions;
        po_environmentTemplateVersion := po_environmentTemplateVersion platformOptions;
        po_build := None |};
      dm_workdir := workdir;
      dm_user := or_default (b_remoteUser (mc_base merged)) "root" |}, ctx).

(** ** The world of the runner *)

Record runner_world (E : Type) := {
  rw_file : file_world;
  rw_build : build_world;
  (** the buildkit parser, and the depth of Go's stack for [FindUserStatement] *)
  rw_parse : string → string + list Node;
  rw_directives : string → string + list Directive;
  rw_depth : nat;
  (** the decoders of the metadata label *)
  rw_multiple : string → option (list ImageMetadata);
  rw_single : string → option ImageMetadata;
  (** [image.GetImageConfig], [image.GetImageForArch], [CheckPushPermissions] *)
  rw_remote : string → string + ImageDetails;
  rw_forArch : string → string → string + bool;
  rw_pushable : string → option string;
  (** the prebuild repositories of [GetDevPodCustomizations] *)
  rw_prebuildRepository : DevContainerConfig → list string;
  (** [buildkit.BuildRemote] *)
  rw_buildRemote : string → SubstitutedConfig → ExtendedBuildInfo → string → string →
    string → BuildOptions → string → M (host E) BuildInfo;
  (** JSON and base64 of the daemon's configuration; JSON of build arguments *)
  rw_encodeDaemon : DaemonConfig → string + string;
  rw_marshalArgs : list string → string + string;
  (** the initialize command on the host, and the order of its parts *)
  rw_hooks : LifecycleHook → list (list string);
  rw_initialize : list string → list string → M (host E) unit;
  rw_comspec : string;
  (** [agent.InjectAgent], the compressed JSON of the result and of the
      workspace, [sshtunnel.ExecuteCommand] *)
  rw_inject : M (host E) unit;
  rw_compressResult : Result → string + string;
  rw_compressInfo : AgentWorkspaceInfo → bool → string + string;
  rw_execute : string → string → M (host E) (option Result);
  rw_reusesAuthSock : string → bool;
  rw_debug : bool;
  (** compose.go *)
  rw_runCompose : SubstitutedConfig → SubstitutionContext → UpOptions →
    M (host E) (option Result);
  rw_deleteCompose : string → M (host E) unit;
  rw_stopCompose : string → M (host E) unit;
  rw_buildCompose : SubstitutedConfig → SubstitutionContext → BuildOptions →
    M (host E) BuildInfo;
}.
Arguments rw_file {_}.
Arguments rw_build {_}.
Arguments rw_parse {_}.
Arguments rw_directives {_}.
Arguments rw_depth {_}.
Arguments rw_multiple {_}.
Arguments rw_single {_}.
Arguments rw_remote {_}.
Arguments rw_forArch {_}.
Arguments rw_pushable {_}.
Arguments rw_prebuildRepository {_}.
Arguments rw_buildRemote {_}.
Arguments rw_encodeDaemon {_}.
Arguments rw_marshalArgs {_}.
Arguments rw_hooks {_}.
Arguments rw_initialize {_}.
Arguments rw_comspec {_}.
Arguments rw_inject {_}.
Arguments rw_compressResult {_}.
Arguments rw_compressInfo {_}.
Arguments rw_execute {_}.
Arguments rw_reusesAuthSock {_}.
Arguments rw_debug {_}.
Arguments rw_runCompose {_}.
Arguments rw_deleteCompose {_}.
Arguments rw_stopCompose {_}.
Arguments rw_buildCompose {_}.

(** ** Texts *)

Definition DefaultEntrypoint : string :=
  GoStrings.Join
    [""; "while ! command -v /usr/local/bin/devpod >/dev/null 2>&1; do";
     "  echo " +:+ quoted "Waiting for devpod tool..."; "  sleep 1"; "done";
     "exec /usr/local/bin/devpod agent container daemon"; ""] newline.
Definition GetStartScript (mergedConfig : MergedDevContainerConfig) : string :=
  GoStrings.Join
    ["echo Container started"; "trap " +:+ quoted "exit 0" +:+ " 15"; "exec " +:+ quoted "$@"; ""]
    newline +:+
  GoStrings.Join (u_entrypoints (mc_updated mergedConfig)) newline +:+ DefaultEntrypoint.
Definition GetContainerEntrypointAndArgs (mergedConfig : MergedDevContainerConfig)
    (imageDetails : option ImageDetails) : string * list string :=
  ("/bin/sh",
   ["-c"; GetStartScript mergedConfig; "-"] ++
   match imageDetails with
   | Some i => if decide (b_overrideCommand (mc_base mergedConfig) = Some false)
               then img_Entrypoint i ++ img_Cmd i else []
   | None => []
   end).

(** ** The runner *)

Definition dockerlessImage : string := "ghcr.io/loft-sh/dockerless:0.2.0".
Definition ContainerDevPodHelperLocation : string := "/usr/local/bin/devpod".

Section Runner.
Context {E : Type} `{!Driver E} (w : runner_world E) (info : AgentWorkspaceInfo).
Notation R := (M (host E)).
Notation workspace := (ai_workspace info).
Notation hs := (bw_sys (rw_build w)).

(** [NewRunner] *)
Definition LocalWorkspaceFolder : string := ai_contentFolder info.
Definition runnerID : string := GetRunnerIDFromWorkspace workspace.
Notation ID := runnerID.

Definition in_step {A} (msg : string) (c : R A) : R A := r ← caught c; liftR (wrap msg r).

(** *** run.go *)

Definition Find : R (option ContainerDetails) :=
  in_step "find dev container" (FindDevContainer ID).
Definition Command (user command : string) (stdin : option string) : R string :=
  CommandDevContainer ID user command stdin.
Definition Logs : R string := GetDevContainerLogs ID.

Definition shellArgs : list string :=
  if decide (hs_GOOS hs = "windows")
  then [if decide (rw_comspec w ≠ "") then rw_comspec w else "cmd.exe"; "/c"]
  else ["sh"; "-c"].
(** An empty command has no first word. *)
Definition runInitializeCommand (config : DevContainerConfig) (extraEnvVars : list string)
    : R unit :=
  forM_ (rw_hooks w (b_initializeCommand (dc_base config))) (λ cmd,
    match cmd with
    | [] => liftR Panic
    | [script] => rw_initialize w (shellArgs ++ [script]) extraEnvVars
    | args => rw_initialize w args extraEnvVars
    end).

(** *** delete.go *)

Definition Delete : R unit :=
  containerDetails ← Find;
  match containerDetails with
  | None => mret ()
  | Some c =>
      match getDockerComposeProject c with
      | Some projectName => rw_deleteCompose w projectName
      | None =>
          _ ← (if is_running c then StopDevContainer ID else mret ());
          DeleteDevContainer ID
      end
  end.

Definition Stop : R unit :=
  containerDetails ← Find;
  match containerDetails with
  | None => mret ()
  | Some c =>
      if is_running c then
        match getDockerComposeProject c with
        | Some projectName => rw_stopCompose w projectName
        | None => StopDevContainer ID
        end
      else mret ()
  end.

(** *** inspect.go *)

Definition inspectImage (imageName : string) : R ImageDetails :=
  match AsDocker with
  | Some d => InspectImage d imageName
  | None =>
      c ← liftR (of_sum (rw_remote w imageName));
      mret {| img_ID := imageName; img_User := img_User c; img_Env := img_Env c;
              img_Labels := img_Labels c; img_Entrypoint := img_Entrypoint c;
              img_Cmd := img_Cmd c |}
  end.
Definition getImageTag (imageID : string) : R string :=
  match AsDocker with Some d => GetImageTag d imageID | None => mret "" end.

(** *** build.go *)

Definition image_metadata (ctx : SubstitutionContext) (i : ImageDetails)
    : result ImageMetadataConfig :=
  GetImageMetadata (bw_substitute (rw_build w) ctx) (rw_multiple w) (rw_single w)
    (img_Labels i !! ImageMetadataLabel).
Definition container_metadata (ctx : SubstitutionContext) (c : ContainerDetails)
    : result ImageMetadataConfig :=
  GetImageMetadata (bw_substitute (rw_build w) ctx) (rw_multiple w) (rw_single w)
    (cd_Labels c !! ImageMetadataLabel).

Definition getDockerfilePath (parsedConfig : DevContainerConfig) : R string :=
  if decide (dc_origin parsedConfig = "")
  then throw "couldn't find path where config was loaded from"
  else
    let dockerfilePath := filepath_Join [filepath_Dir (dc_origin parsedConfig);
                                         GetDockerfile (dc_dockerfile parsedConfig)] in
    there ← Stat dockerfilePath;
    if there : bool then mret dockerfilePath
    else throw ("couldn't find Dockerfile at " +:+ dockerfilePath).

(** The first of the repositories that has the prebuilt image. *)
Fixpoint find_prebuild (repositories : list string) (prebuildHash targetArch : string)
    : option string :=
  match repositories with
  | [] => None
  | repo :: rest =>
      let prebuildImage := repo +:+ ":" +:+ prebuildHash in
      match rw_forArch w prebuildImage targetArch with
      | inr true => Some prebuildImage
      | _ => find_prebuild rest prebuildHash targetArch
      end
  end.
Definition prebuild_repositories (parsedConfig : DevContainerConfig) (options : BuildOptions)
    : list string :=
  let cli := bp_cli options in
  cli_prebuildRepositories cli ++
  (if decide (cli_repository cli ≠ "") then [cli_repository cli] else []) ++
  rw_prebuildRepository w parsedConfig.

(** The repositories that are searched are the images of a later build. *)
Definition with_prebuilds (options : BuildOptions) (l : list string) : BuildOptions :=
  let c := bp_cli options in {|
  bp_cli := {|
    cli_platform := cli_platform c; cli_id := cli_id c; cli_source := cli_source c;
    cli_ide := cli_ide c; cli_ideOptions := cli_ideOptions c; cli_prebuildRepositories := l;
    cli_devContainerImage := cli_devContainerImage c;
    cli_devContainerPath := cli_devContainerPath c; cli_workspaceEnv := cli_workspaceEnv c;
    cli_workspaceEnvFile := cli_workspaceEnvFile c; cli_initEnv := cli_initEnv c;
    cli_recreate := cli_recreate c; cli_reset := cli_reset c;
    cli_disableDaemon := cli_disableDaemon c; cli_daemonInterval := cli_daemonInterval c;
    cli_gitCloneStrategy := cli_gitCloneStrategy c;
    cli_gitCloneRecursiveSubmodules := cli_gitCloneRecursiveSubmodules c;
    cli_fallbackImage := cli_fallbackImage c; cli_gitSSHSigningKey := cli_gitSSHSigningKey c;
    cli_sshAuthSockID := cli_sshAuthSockID c;
    cli_strictHostKeyChecking := cli_strictHostKeyChecking c;
    cli_repository := cli_repository c; cli_skipPush := cli_skipPush c;
    cli_platforms := cli_platforms c; cli_tag := cli_tag c; cli_forceBuild := cli_forceBuild c;
    cli_forceDockerless := cli_forceDockerless c;
    cli_forceInternalBuildKit := cli_forceInternalBuildKit c |};
  bp_Platform := bp_Platform options; bp_RegistryCache := bp_RegistryCache options;
  bp_ExportCache := bp_ExportCache options; bp_NoBuild := bp_NoBuild options |}.

(** Where an image that is in no repository is built. *)
Definition build_anew (parsedConfig : SubstitutedConfig) (ctx : SubstitutionContext)
    (buildInfo : ImageBuildInfo ImageMetadataConfig) (extendedBuildInfo : ExtendedBuildInfo)
    (dockerfilePath dockerfileContent prebuildHash targetArch : string)
    (options : BuildOptions) : R BuildInfo :=
  if cli_platformEnabled (bp_cli options) then
    in_step "(remote)" (rw_buildRemote w prebuildHash parsedConfig extendedBuildInfo
      dockerfilePath dockerfileContent LocalWorkspaceFolder options targetArch)
  else
    match AsDocker with
    | Some d =>
        if cli_forceDockerless (bp_cli options) then
          if decide (dl_disabled (a_dockerless (ai_agent info)) = "true")
          then throw "cannot build devcontainer because driver is non-docker and dockerless fallback is disabled"
          else dockerlessFallback (rw_build w) LocalWorkspaceFolder
                 (ctx_containerWorkspaceFolder ctx) parsedConfig buildInfo
                 extendedBuildInfo dockerfileContent options
        else BuildDevContainer d prebuildHash parsedConfig extendedBuildInfo dockerfilePath
               dockerfileContent LocalWorkspaceFolder options
    | None =>
        if decide (dl_disabled (a_dockerless (ai_agent info)) = "true")
        then throw "cannot build devcontainer because driver is non-docker and dockerless fallback is disabled"
        else dockerlessFallback (rw_build w) LocalWorkspaceFolder
               (ctx_containerWorkspaceFolder ctx) parsedConfig buildInfo
               extendedBuildInfo dockerfileContent options
    end.

Definition buildImage (parsedConfig : SubstitutedConfig) (ctx : SubstitutionContext)
    (buildInfo : ImageBuildInfo ImageMetadataConfig) (extendedBuildInfo : ExtendedBuildInfo)
    (dockerfilePath dockerfileContent : string) (options : BuildOptions) : R BuildInfo :=
  let cli := bp_cli options in
  targetArch ← TargetArchitecture ID;
  prebuildHash ← CalculatePrebuildHash (rw_build w) (sc_config parsedConfig)
    (bp_Platform options) targetArch (GetContextPath (sc_config parsedConfig))
    dockerfilePath dockerfileContent buildInfo;
  let build options :=
    build_anew parsedConfig ctx buildInfo extendedBuildInfo dockerfilePath
      dockerfileContent prebuildHash targetArch options in
  if decide (cli_forceDockerless cli = false ∧ cli_forceBuild cli = false) then
    let repositories := prebuild_repositories (sc_config parsedConfig) options in
    match find_prebuild repositories prebuildHash targetArch with
    | Some prebuildImage =>
        imageDetails ← in_step "get image details" (inspectImage prebuildImage);
        mret {| bi_ImageDetails := Some imageDetails;
                bi_ImageMetadata := eb_MetadataConfig extendedBuildInfo;
                bi_ImageName := prebuildImage; bi_PrebuildHash := prebuildHash;
                bi_RegistryCache := bp_RegistryCache options;
                bi_Tags := cli_tag cli; bi_Dockerless := None |}
    | None => build (with_prebuilds options repositories)
    end
  else build options.

Definition extendImage (parsedConfig : SubstitutedConfig) (ctx : SubstitutionContext)
    (options : BuildOptions) : R BuildInfo :=
  let imageBase := dc_image (sc_config parsedConfig) in
  imageBuildInfo ← in_step "get image build info"
    (getImageBuildInfoFromImage inspectImage (image_metadata ctx) imageBase);
  extendedBuildInfo ← in_step "get extended build info"
    (GetExtendedBuildInfo (rw_build w) ctx imageBuildInfo imageBase parsedConfig
       (cli_forceBuild (bp_cli options)));
  match eb_FeaturesBuildInfo extendedBuildInfo with
  | None =>
      mret {| bi_ImageDetails := ibi_ImageDetails imageBuildInfo;
              bi_ImageMetadata := eb_MetadataConfig extendedBuildInfo;
              bi_ImageName := imageBase; bi_PrebuildHash := "";
              bi_RegistryCache := bp_RegistryCache options;
              bi_Tags := cli_tag (bp_cli options); bi_Dockerless := None |}
  | Some _ =>
      buildImage parsedConfig ctx imageBuildInfo extendedBuildInfo "" "" options
  end.

Definition buildAndExtendImage (parsedConfig : SubstitutedConfig) (ctx : SubstitutionContext)
    (options : BuildOptions) : R BuildInfo :=
  let config := sc_config parsedConfig in
  let target := GetTarget (dc_dockerfile config) in
  dockerFilePath ← getDockerfilePath config;
  dockerFileContent ← ReadFile hs dockerFilePath;
  named ← (if decide (target ≠ "") then mret (target, dockerFileContent)
           else
             c ← liftR (EnsureDockerfileHasFinalStageName (rw_parse w) dockerFileContent
                          DockerfileDefaultTarget);
             let '(lastTargetName, modified) := c in
             mret (lastTargetName, if decide (modified ≠ "") then modified
                                   else dockerFileContent));
  let '(imageBase, dockerFileContent) := named in
  imageBuildInfo ← in_step "get image build info"
    (getImageBuildInfoFromDockerfile (rw_parse w) (rw_directives w) inspectImage
       (image_metadata ctx) (rw_depth w) dockerFileContent (GetArgs (dc_dockerfile config))
       target);
  extendedBuildInfo ← in_step "get extended build info"
    (GetExtendedBuildInfo (rw_build w) ctx imageBuildInfo imageBase parsedConfig
       (cli_forceBuild (bp_cli options)));
  buildImage parsedConfig ctx imageBuildInfo extendedBuildInfo dockerFilePath
    dockerFileContent options.

Definition build (parsedConfig : SubstitutedConfig) (ctx : SubstitutionContext)
    (options : BuildOptions) : R BuildInfo :=
  if isDockerFileConfig (sc_config parsedConfig) then
    buildAndExtendImage parsedConfig ctx options
  else if isDockerComposeConfig (sc_config parsedConfig) then
    rw_buildCompose w parsedConfig ctx options
  else extendImage parsedConfig ctx options.

(** *** single.go *)

Definition addExtraEnvVars (env : gmap string string) : gmap string string :=
  let env := <["REMOTE_CONTAINERS" := "true"]> (<["DEVPOD" := "true"]> env) in
  let env := if decide (w_id workspace ≠ "")
             then <["DEVPOD_WORKSPACE_ID" := w_id workspace]> env else env in
  if decide (w_uid workspace ≠ "")
  then <["DEVPOD_WORKSPACE_UID" := w_uid workspace]> env else env.

(** The labels DevPod reads back from the container. *)
Definition run_labels (marshalled user : string) : list string :=
  [ImageMetadataLabel +:+ "=" +:+ marshalled; UserLabel +:+ "=" +:+ user].

(** Without image details there is no user to read. *)
Definition getRunOptions (mergedConfig : MergedDevContainerConfig) (ctx : SubstitutionContext)
    (buildInfo : BuildInfo) : result RunOptions :=
  let n := mc_nonCompose mergedConfig in
  workspaceMountParsed ← ParseMount (ctx_workspaceMount ctx);
  marshalled ← wrap "marshal config"
    (of_sum (bw_marshalMetadata (rw_build w) (imc_raw (bi_ImageMetadata buildInfo))));
  let '(entrypoint, cmd) :=
    GetContainerEntrypointAndArgs mergedConfig (bi_ImageDetails buildInfo) in
  imageDetails ← deref (bi_ImageDetails buildInfo);
  Ok {| ro_UID := w_uid workspace; ro_Image := bi_ImageName buildInfo;
        ro_User := or_default (n_containerUser n) (img_User imageDetails);
        ro_Entrypoint := entrypoint; ro_Cmd := cmd; ro_Env := n_containerEnv n;
        ro_CapAdd := n_capAdd n; ro_SecurityOpt := n_securityOpt n;
        ro_Labels := run_labels marshalled (img_User imageDetails);
        ro_Privileged := n_privileged n; ro_WorkspaceMount := Some workspaceMountParsed;
        ro_Mounts := n_mounts n |}.

Definition dockerless_env (mergedConfig : MergedDevContainerConfig)
    (b : BuildInfoDockerless) : result (gmap string string) :=
  let env : gmap string string :=
    {[ "DOCKERLESS" := "true"; "DOCKERLESS_CONTEXT" := bd_Context b;
       "DOCKERLESS_DOCKERFILE" := bd_Dockerfile b; "GODEBUG" := "http2client=0" ]} in
  let env := n_containerEnv (mc_nonCompose mergedConfig) ∪ env in
  let env := if decide (bd_Target b ≠ "") then <["DOCKERLESS_TARGET" := bd_Target b]> env
             else env in
  if decide (bd_BuildArgs b = ∅) then Ok env
  else
    out ← wrap "marshal build args"
      (of_sum (rw_marshalArgs w (ObjectToList (hs_range hs (bd_BuildArgs b)))));
    Ok (<["DOCKERLESS_BUILD_ARGS" := out]> env).

Definition getDockerlessRunOptions (mergedConfig : MergedDevContainerConfig)
    (ctx : SubstitutionContext) (buildInfo : BuildInfo) (b : BuildInfoDockerless)
    : result RunOptions :=
  let n := mc_nonCompose mergedConfig in
  workspaceMountParsed ← ParseMount (ctx_workspaceMount ctx);
  marshalled ← wrap "marshal config"
    (of_sum (bw_marshalMetadata (rw_build w) (imc_raw (bi_ImageMetadata buildInfo))));
  env ← dockerless_env mergedConfig b;
  Ok {| ro_UID := w_uid workspace;
        ro_Image := or_default (dl_image (a_dockerless (ai_agent info))) dockerlessImage;
        ro_User := "root"; ro_Entrypoint := "/.dockerless/dockerless";
        ro_Cmd := ["start"; "--wait"; "--entrypoint"; "/.dockerless/bin/sh"; "--cmd"; "-c";
                   "--cmd"; GetStartScript mergedConfig; "--user"; bd_User b];
        ro_Env := env; ro_CapAdd := n_capAdd n; ro_SecurityOpt := [];
        ro_Labels := run_labels marshalled (bd_User b);
        ro_Privileged := n_privileged n; ro_WorkspaceMount := Some workspaceMountParsed;
        ro_Mounts := n_mounts n ++ [{| mount_type := "volume";
          mount_source := "dockerless-" +:+ ID; mount_target := "/workspaces/.dockerless";
          mount_external := false; mount_other := [] |}] |}.

Definition runContainer (parsedConfig : SubstitutedConfig) (ctx : SubstitutionContext)
    (mergedConfig : MergedDevContainerConfig) (buildInfo : BuildInfo) : R unit :=
  runOptions ← liftR match bi_Dockerless buildInfo with
    | Some b => wrap "build dockerless run options"
                  (getDockerlessRunOptions mergedConfig ctx buildInfo b)
    | None => wrap "build run options" (getRunOptions mergedConfig ctx buildInfo)
    end;
  let runOptions := with_env runOptions (addExtraEnvVars (ro_Env runOptions)) in
  match AsDocker with
  | Some d => RunDockerDevContainer d ID runOptions (sc_config parsedConfig)
                (n_init (mc_nonCompose mergedConfig)) (wi_name (w_ide workspace))
  | None => RunDevContainer ID (Some runOptions)
  end.

(** *** setup.go *)

Definition squoted (s : string) : string := "'" +:+ s +:+ "'".

Definition setup_command (compressed workspaceConfigCompressed : string) : string :=
  let agent := ai_agent info in
  let platform := cli_platform (ai_cliOptions info) in
  let isDocker := bool_decide (is_Some (AsDocker (E := E))) in
  squoted ContainerDevPodHelperLocation +:+ " agent container setup --setup-info " +:+
  squoted compressed +:+ " --container-workspace-info " +:+
  squoted workspaceConfigCompressed +:+
  (if (bool_decide (hs_GOOS hs = "linux") || negb isDocker)%bool
   then " --chown-workspace" else "") +:+
  (if isDocker then "" else " --stream-mounts") +:+
  (if decide (a_injectGitCredentials agent ≠ "false")
   then " --inject-git-credentials" else "") +:+
  (if decide (po_accessKey platform ≠ "" ∧ po_workspaceHost platform ≠ "" ∧
              po_platformHost platform ≠ "")
   then " --access-key " +:+ squoted (po_accessKey platform) +:+
        " --workspace-host " +:+ squoted (po_workspaceHost platform) +:+
        " --platform-host " +:+ squoted (po_platformHost platform) else "") +:+
  (if rw_debug w then " --debug" else "").

Definition ssh_command : string :=
  squoted ContainerDevPodHelperLocation +:+ " helper ssh-server --stdio" +:+
  (if rw_reusesAuthSock w (wi_name (w_ide workspace))
   then " --reuse-ssh-auth-sock=" +:+ cli_sshAuthSockID (ai_cliOptions info) else "") +:+
  (if rw_debug w then " --debug" else "").

Definition setup_result (rawConfig : DevContainerConfig)
    (containerDetails : option ContainerDetails) (mergedConfig : MergedDevContainerConfig)
    (ctx : SubstitutionContext) : Result := {|
  res_Config := Some (rawConfig,
    getRelativeDevContainerJson (dc_origin rawConfig) LocalWorkspaceFolder);
  res_MergedConfig := Some
    (if decide (a_local (ai_agent info) = "true" ∧
                cli_platformEnabled (ai_cliOptions info) = true)
     then with_mounts mergedConfig
            (filterWorkspaceMounts (n_mounts (mc_nonCompose mergedConfig))
               (ai_contentFolder info))
     else mergedConfig);
  res_SubstitutionContext := Some ctx;
  res_ContainerDetails := containerDetails |}.

Definition setupContainer (rawConfig : DevContainerConfig)
    (containerDetails : option ContainerDetails) (mergedConfig : MergedDevContainerConfig)
    (ctx : SubstitutionContext) : R (option Result) :=
  _ ← in_step "inject agent" (rw_inject w);
  let result := setup_result rawConfig containerDetails mergedConfig ctx in
  compressed ← liftR (of_sum (rw_compressResult w result));
  let pull := (fw_crane (rw_file w) (ai_cliOptions info) &&
               negb (bool_decide (ws_gitRepository (w_source workspace) = "")))%bool in
  workspaceConfigCompressed ← liftR (of_sum (rw_compressInfo w info pull));
  rw_execute w ssh_command (setup_command compressed workspaceConfigCompressed).

(** *** The container of a workspace *)

Definition up_build_options (options : UpOptions) : BuildOptions :=
  let cli := up_cli options in {|
  bp_cli := {|
    cli_platform := cli_platform cli; cli_id := ""; cli_source := ""; cli_ide := "";
    cli_ideOptions := []; cli_prebuildRepositories := cli_prebuildRepositories cli;
    cli_devContainerImage := ""; cli_devContainerPath := ""; cli_workspaceEnv := [];
    cli_workspaceEnvFile := []; cli_initEnv := []; cli_recreate := false; cli_reset := false;
    cli_disableDaemon := false; cli_daemonInterval := ""; cli_gitCloneStrategy := "";
    cli_gitCloneRecursiveSubmodules := false; cli_fallbackImage := "";
    cli_gitSSHSigningKey := ""; cli_sshAuthSockID := ""; cli_strictHostKeyChecking := false;
    cli_repository := ""; cli_skipPush := false; cli_platforms := []; cli_tag := [];
    cli_forceBuild := false; cli_forceDockerless := cli_forceDockerless cli;
    cli_forceInternalBuildKit := false |};
  bp_Platform := ""; bp_RegistryCache := up_RegistryCache options; bp_ExportCache := false;
  bp_NoBuild := up_NoBuild options |}.

(** A container that exists is started when it does not run; the details
    that were found before are kept. *)
Definition reuse_container (parsedConfig : SubstitutedConfig) (ctx : SubstitutionContext)
    (c : ContainerDetails)
    : R (option ContainerDetails * MergedDevContainerConfig * SubstitutionContext) :=
  _ ← (if is_running c then mret () else StartDevContainer ID);
  let ctx := if decide (dc_containerID (sc_config parsedConfig) ≠ "" ∧ cd_WorkingDir c ≠ "")
             then with_folder ctx (cd_WorkingDir c) else ctx in
  imageMetadataConfig ← liftR (container_metadata ctx c);
  mergedConfig ← liftR (wrap "merge config"
    (MergeConfiguration (sc_config parsedConfig) (imc_config imageMetadataConfig)));
  if decide (Reprovisions = Some true) then
    _ ← in_step "start dev container" (RunDevContainer ID None);
    c' ← in_step "find dev container" (FindDevContainer ID);
    mret (c', mergedConfig, ctx)
  else mret (Some c, mergedConfig, ctx).

(** The old container goes only after the new image was built. *)
Definition remove_old : R unit :=
  match AsDocker (E := E) with
  | Some _ => in_step "delete devcontainer" Delete
  | None => in_step "stop devcontainer" (StopDevContainer ID)
  end.

Definition add_daemon (options : UpOptions) (ctx : SubstitutionContext)
    (mergedConfig : MergedDevContainerConfig)
    : MergedDevContainerConfig * SubstitutionContext :=
  let platform := cli_platform (up_cli options) in
  if decide (po_accessKey platform = "") then (mergedConfig, ctx)
  else
    let '(daemon, ctx) := BuildWorkspaceDaemonConfig platform workspace ctx mergedConfig in
    match rw_encodeDaemon w daemon with
    | inl _ => (mergedConfig, ctx)
    | inr data =>
        (with_containerEnv mergedConfig
           (<[WorkspaceDaemonConfigExtraEnvVar := data]>
              (n_containerEnv (mc_nonCompose mergedConfig))), ctx)
    end.

Definition create_container (parsedConfig : SubstitutedConfig) (ctx : SubstitutionContext)
    (options : UpOptions)
    : R (option ContainerDetails * MergedDevContainerConfig * SubstitutionContext) :=
  buildInfo ← in_step "build image" (build parsedConfig ctx (up_build_options options));
  _ ← (if cli_recreate (up_cli options) then remove_old else mret ());
  mergedConfig ← liftR (wrap "merge config"
    (MergeConfiguration (sc_config parsedConfig) (imc_config (bi_ImageMetadata buildInfo))));
  let '(mergedConfig, ctx) := add_daemon options ctx mergedConfig in
  _ ← in_step "start dev container" (runContainer parsedConfig ctx mergedConfig buildInfo);
  c ← in_step "find dev container" (FindDevContainer ID);
  mret (c, mergedConfig, ctx).

Definition runSingleContainer (parsedConfig : SubstitutedConfig) (ctx : SubstitutionContext)
    (options : UpOptions) : R (option Result) :=
  containerDetails ← in_step "find dev container" (FindDevContainer ID);
  let recreate := cli_recreate (up_cli options) in
  if decide (recreate = true ∧ dc_containerID (sc_config parsedConfig) ≠ "")
  then throw "cannot recreate container not created by DevPod"
  else
    ready ← match containerDetails with
            | Some c => if recreate then create_container parsedConfig ctx options
                        else reuse_container parsedConfig ctx c
            | None => create_container parsedConfig ctx options
            end;
    let '(containerDetails, mergedConfig, ctx) := ready in
    setupContainer (sc_raw parsedConfig) containerDetails mergedConfig ctx.

(** *** Up *)

Definition no_language : string :=
  "could not detect project language and dev container config is missing one of " +:+
  quoted "image" +:+ ", " +:+ quoted "dockerFile" +:+ " or " +:+
  quoted "dockerComposeFile" +:+ " properties".
Definition runDefaultContainer (options : UpOptions) (parsedConfig : SubstitutedConfig)
    (ctx : SubstitutionContext) : R (option Result) :=
  let fallback := cli_fallbackImage (up_cli options) in
  image ← (if decide (fallback ≠ "") then mret fallback
           else
             match DetectLanguage (rw_file w) LocalWorkspaceFolder with
             | Ok lang => liftR (of_option no_language (MapConfig !! lang))
             | Panic => liftR Panic
             | _ => throw no_language
             end);
  runSingleContainer (with_config parsedConfig (with_image (sc_config parsedConfig) image))
    ctx options.

(** The deferred [cleanupBuildInformation] *)
Definition cleaning {A} (config : DevContainerConfig) (c : R A) : R A := λ h,
  let '(r, h') := c h in (r, (cleanupBuildInformation config h').2).

Definition Up (options : UpOptions) : R (option Result) :=
  substituted ← getSubstitutedConfig (rw_file w) info ID (up_cli options);
  let '(parsedConfig, ctx) := substituted in
  let config := sc_config parsedConfig in
  cleaning config
    (_ ← (if cli_platformEnabled (up_cli options) then mret ()
          else runInitializeCommand config (cli_initEnv (up_cli options)));
     if (isDockerFileConfig config || negb (bool_decide (dc_image config = "")) ||
         negb (bool_decide (dc_containerID config = "")))%bool
     then runSingleContainer parsedConfig ctx options
     else if isDockerComposeConfig config then rw_runCompose w parsedConfig ctx options
     else runDefaultContainer options parsedConfig ctx).

(** *** prebuild.go *)

Definition prebuild_image (parsedConfig : SubstitutedConfig) (options : BuildOptions)
    (prebuildHash : string) : string :=
  let repository := cli_repository (bp_cli options) in
  if decide (repository ≠ "") then repository +:+ ":" +:+ prebuildHash
  else match rw_prebuildRepository w (sc_config parsedConfig) with
       | prebuildRepo :: _ =>
           if decide (prebuildRepo ≠ "") then prebuildRepo +:+ ":" +:+ prebuildHash
           else GetImageName (rw_build w) LocalWorkspaceFolder prebuildHash
       | [] => GetImageName (rw_build w) LocalWorkspaceFolder prebuildHash
       end.

Definition push_image (d : DockerOps E) (prebuildImage : string) (tags : list string)
    : R string :=
  match rw_pushable w prebuildImage with
  | Some e => throw ("cannot push to repository " +:+ prebuildImage +:+
                     ". Please make sure you are logged into the registry and credentials are available. (Error: " +:+
                     e +:+ ")")
  | None =>
      let repoName := default "" (head (Split ":" prebuildImage)) in
      let imageRefs := prebuildImage :: ((λ tag, repoName +:+ ":" +:+ tag) <$> tags) in
      _ ← forM_ imageRefs (λ ref, in_step "tag image" (TagDevContainer d prebuildImage ref));
      _ ← forM_ imageRefs (λ ref, in_step "push image" (PushDevContainer d ref));
      mret prebuildImage
  end.

Definition Build (options : BuildOptions) : R string :=
  match AsDocker with
  | None => throw "building only supported with docker driver"
  | Some d =>
      substituted ← getSubstitutedConfig (rw_file w) info ID (bp_cli options);
      let '(parsedConfig, ctx) := substituted in
      let config := sc_config parsedConfig in
      let prebuildRepo := default "" (head (rw_prebuildRepository w config)) in
      if decide (cli_skipPush (bp_cli options) = false ∧
                 cli_repository (bp_cli options) = "" ∧ prebuildRepo = "")
      then throw "repository needs to be specified"
      else cleaning config
        (buildInfo ← in_step "build image" (build parsedConfig ctx options);
         let prebuildHash := or_default (bi_PrebuildHash buildInfo) "latest" in
         let prebuildImage := prebuild_image parsedConfig options prebuildHash in
         if decide (bi_ImageName buildInfo = prebuildImage) then mret (bi_ImageName buildInfo)
         else if cli_skipPush (bp_cli options) then mret prebuildImage
         else
           _ ← (if isDockerComposeConfig config
                then in_step "tag image"
                       (TagDevContainer d (bi_ImageName buildInfo) prebuildImage)
                else mret ());
           push_image d prebuildImage (bi_Tags buildInfo))
  end.
End Runner.
