(* ===== verification/RunnerDemo.v ===== *)
(** * Concrete worlds for the examples on drivers and the runner

    An operating system in which nothing fails, decoders that know a few
    texts, and a workspace.  The examples and witnesses of the files on the
    runner are evaluated in them. *)

From S2P Require Import Prelude GoStrings Types Config Names DevContainer Substitute SshConfig Provider Options OptionsProps Dockerfile DockerfileProps Lifecycle Clients Driver Build DevContainerFile Runner.
From stdpp Require Import base gmap list strings.
From Stdlib Require Import ZArith.

Local Open Scope string_scope.

Definition demo_hs : hostsys := {|
  hs_write := λ _, None; hs_read := λ _, None; hs_Abs := inr; hs_GOOS := "linux";
  hs_GOARCH := "amd64"; hs_uid := "1000"; hs_current := inr ("1000", "1000");
  hs_range := map_to_list |}.

Definition demo_build : build_world := {|
  bw_sys := demo_hs; bw_hash := λ _, "0123456789abcdef0123456789abcdef";
  bw_marshalConfig := λ _, inr "{}"; bw_marshalMetadata := λ _, inr "[]";
  bw_process := λ _ _ _, inl "no features"; bw_feature := λ _, inl "no features";
  bw_normalize := id; bw_fmt := λ _, ""; bw_substitute := λ _, Ok;
  bw_ignore := λ _, inr []; bw_matches := λ _ _, false;
  bw_directory := λ _ _ _ _, inr "ctx"; bw_features := map_to_list |}.

(** A file is the word image and its name, or [legacy]. *)
Definition legacy_config : DevContainerConfig :=
  with_legacy (image_config "debian") ["go"] {[ "wrap" := JBool true ]} 9000 ∅.
(** The customizations of vscode and their JSON. *)
Definition demo_vscodeJSON (v : VSCodeCustomizations) : json :=
  JObj [("settings", JObj (map_to_list (vs_settings v)));
        ("extensions", JArr (JStr <$> vs_extensions v));
        ("devPort", JNum (QArith_base.Qmake (vs_devPort v) 1))].
Definition demo_vscode (j : json) : string + option VSCodeCustomizations :=
  match j with
  | JNull => inr None
  | JObj [(_, JObj settings); (_, JArr extensions); (_, JNum port)] =>
      inr (Some {| vs_settings := list_to_map settings;
                   vs_extensions := omap (λ j, match j with JStr s => Some s | _ => None end)
                                      extensions;
                   vs_devPort := QArith_base.Qnum port |})
  | _ => inr (Some no_vscode)
  end.
Definition demo_file_world : file_world := {|
  fw_sys := demo_hs;
  fw_decode := λ s, inr (if decide (s = "legacy") then legacy_config
                         else image_config (TrimPrefix s "image "));
  fw_encode := λ c, inr ("image " +:+ dc_image c);
  fw_vscode := demo_vscode; fw_vscodeJSON := demo_vscodeJSON;
  fw_glob := λ fs _, inr (filter (λ p, HasSuffix p "/devcontainer.json" = true)
                            (map_to_list fs).*1);
  fw_regular := λ _, inr false; fw_language := λ _, "TypeScript";
  fw_crane := λ _, false; fw_pull := λ _ _, inl "no crane";
  fw_toJSON := λ c, inr (JStr (dc_image c));
  fw_ofJSON := λ j, match j with JStr s => inr (image_config s) | _ => inl "no image" end;
  fw_environ := [] |}.

Definition demo_image : ImageDetails := {|
  img_ID := "sha"; img_User := "vscode"; img_Env := []; img_Labels := ∅;
  img_Entrypoint := []; img_Cmd := ["bash"] |}.

(** The metadata that the label [hooks] decodes to. *)
Definition hooked : ImageMetadata := {|
  im_id := ""; im_entrypoint := ""; im_base := empty_base;
  im_actions := {|
    a_onCreateCommand := ∅; a_updateContentCommand := ∅; a_postCreateCommand := ∅;
    a_postStartCommand := {[ "" := ["serve"] ]}; a_postAttachCommand := {[ "" := ["status"] ]};
    a_customizations := ∅ |};
  im_nonCompose := no_nonCompose |}.

Definition demo_runner {E : Type} : runner_world E := {|
  rw_file := demo_file_world; rw_build := demo_build;
  rw_parse := λ s, if decide (s = "two stages") then inr two_stages else inl "no parser";
  rw_directives := λ _, inr []; rw_depth := 5;
  rw_multiple := λ l, Some (if decide (l = "hooks") then [hooked] else []); rw_single := λ _, None;
  rw_remote := λ image, if decide (image = "missing") then inl "manifest unknown"
                        else inr demo_image;
  rw_forArch := λ _ _, inr false;
  rw_pushable := λ _, None; rw_prebuildRepository := λ _, [];
  rw_buildRemote := λ _ _ _ _ _ _ _ _, throw "no platform";
  rw_encodeDaemon := λ _, inr "daemon"; rw_marshalArgs := λ _, inr "[]";
  rw_hooks := λ h, snd <$> map_to_list h; rw_initialize := λ _ _, mret ();
  rw_comspec := ""; rw_inject := mret (); rw_compressResult := λ _, inr "result";
  rw_compressInfo := λ _ _, inr "info"; rw_execute := λ _ _, mret None;
  rw_reusesAuthSock := λ _, false; rw_debug := false;
  rw_runCompose := λ _ _ _, throw "no compose"; rw_deleteCompose := λ _, throw "no compose";
  rw_stopCompose := λ _, throw "no compose"; rw_buildCompose := λ _ _ _, throw "no compose" |}.

Definition demo_agent : AgentWorkspaceInfo := {|
  ai_workspaceOrigin := ""; ai_workspace := demo_workspace; ai_machine := None;
  ai_cliOptions := no_cli; ai_agent := zero_agent; ai_options := ∅;
  ai_contentFolder := "/content"; ai_origin := "/agent"; ai_injectTimeout := 0;
  ai_registryCache := "" |}.
(** The uid of the workspace is a legacy one, so its id names the container. *)
Example demo_agent_id : runnerID demo_agent = "ws".
Proof. reflexivity. Qed.

Definition demo_config (image : string) : SubstitutedConfig := {|
  sc_config := with_origin (image_config image) "/content/.devcontainer.json";
  sc_raw := with_origin (image_config image) "/content/.devcontainer.json" |}.
Definition demo_ctx : SubstitutionContext := {|
  ctx_devContainerID := "ws"; ctx_localWorkspaceFolder := "/content";
  ctx_containerWorkspaceFolder := "/workspaces/ws"; ctx_env := ∅;
  ctx_workspaceMount := "type=bind,source=/content,target=/workspaces/ws" |}.
Definition with_recreate (c : CLIOptions) : CLIOptions := {|
  cli_platform := cli_platform c; cli_id := cli_id c; cli_source := cli_source c;
  cli_ide := cli_ide c; cli_ideOptions := cli_ideOptions c;
  cli_prebuildRepositories := cli_prebuildRepositories c;
  cli_devContainerImage := cli_devContainerImage c;
  cli_devContainerPath := cli_devContainerPath c; cli_workspaceEnv := cli_workspaceEnv c;
  cli_workspaceEnvFile := cli_workspaceEnvFile c; cli_initEnv := cli_initEnv c;
  cli_recreate := true; cli_reset := cli_reset c; cli_disableDaemon := cli_disableDaemon c;
  cli_daemonInterval := cli_daemonInterval c; cli_gitCloneStrategy := cli_gitCloneStrategy c;
  cli_gitCloneRecursiveSubmodules := cli_gitCloneRecursiveSubmodules c;
  cli_fallbackImage := cli_fallbackImage c; cli_gitSSHSigningKey := cli_gitSSHSigningKey c;
  cli_sshAuthSockID := cli_sshAuthSockID c;
  cli_strictHostKeyChecking := cli_strictHostKeyChecking c;
  cli_repository := cli_repository c; cli_skipPush := cli_skipPush c;
  cli_platforms := cli_platforms c; cli_tag := cli_tag c; cli_forceBuild := cli_forceBuild c;
  cli_forceDockerless := cli_forceDockerless c;
  cli_forceInternalBuildKit := cli_forceInternalBuildKit c |}.
Definition demo_up (recreate : bool) : UpOptions := {|
  up_cli := if recreate then with_recreate no_cli else no_cli; up_NoBuild := false;
  up_ForceBuild := false; up_RegistryCache := "" |}.
