(* ===== verification/DevContainerFileProps.v ===== *)
(** * Properties of reading devcontainer.json

    Which configuration a workspace is started with, that the default
    configuration is stable once it was written, and what becomes of the legacy
    properties of devcontainer.json. *)

From S2P Require Import Prelude GoStrings Types Config Names DevContainer Substitute SshConfig Options Dockerfile Lifecycle Provider Clients Driver Build DevContainerFile OptionsProps Runner RunnerDemo.
From stdpp Require Import base gmap list strings.
From Stdlib Require Import ZArith.

Local Open Scope string_scope.

Section File.
Context {E : Type} (w : file_world).
Notation hs := (fw_sys w).

(** ** Finding the file *)

Definition first_path (folder : string) : string :=
  filepath_Join [folder; ".devcontainer"; "devcontainer.json"].
Definition second_path (folder : string) : string := filepath_Join [folder; ".devcontainer.json"].
Definition glob_pattern (folder : string) : string :=
  filepath_Clean folder +:+ "/.devcontainer/**/devcontainer.json".

(** What a file says. *)
Definition file_config (path : string) (content : string) : result DevContainerConfig :=
  c ← of_sum (fw_decode w content); replaceLegacy w (with_origin c path).

Lemma file_config_decoded path content c : fw_decode w content = inr c →
  file_config path content = replaceLegacy w (with_origin c path).
Proof. unfold file_config. by intros ->. Qed.
Lemma replaceLegacy_none c :
  b_extensions (dc_base c) = [] → b_settings (dc_base c) = ∅ → b_devPort (dc_base c) = 0%Z →
  replaceLegacy w c = Ok c.
Proof. intros H1 H2 H3. unfold replaceLegacy. by rewrite decide_True. Qed.

(** Absolute and readable paths. *)
Definition plain_path (path : string) : Prop := hs_Abs hs path = inr path ∧ hs_read hs path = None.

Lemma run_Stat {A} path (k : bool → M (host E) A) h :
  (Stat path ≫= k) h = k (bool_decide (is_Some (h_fs h !! path))) h.
Proof. done. Qed.

(** A workspace whose configuration is in its folder. *)
Definition plain_workspace (info : AgentWorkspaceInfo) (options : CLIOptions) : Prop :=
  w_devContainerConfig (ai_workspace info) = None ∧
  ws_container (w_source (ai_workspace info)) = "" ∧ fw_crane w options = false ∧
  w_devContainerPath (ai_workspace info) = "" ∧ ws_gitSubPath (w_source (ai_workspace info)) = "".

Context (info : AgentWorkspaceInfo) (options : CLIOptions).
Notation folder := (ai_contentFolder info).
Context (Hplain : plain_workspace info options).
Context (Hfirst : plain_path (first_path folder)) (Hsecond : plain_path (second_path folder)).

Lemma getRawConfig_plain h :
  getRawConfig (E := E) w info options h =
  (caught (ParseDevContainerJSON w folder "") ≫= λ c,
    match c with
    | Ok (Some c) => mret c
    | Ok None => getDefaultConfig w info options
    | Err e => if decide (e = ErrNotExist) then getDefaultConfig w info options
               else throw ("parsing devcontainer.json: " +:+ e)
    | c => liftR (c ≫= λ _, Err "")
    end) h.
Proof.
  destruct Hplain as (H1 & H2 & H3 & H4 & H5). unfold getRawConfig.
  rewrite H1, decide_False by (by rewrite H2; intros []). rewrite H3, H4.
  rewrite decide_False by (by rewrite H5; intros []). done.
Qed.

Lemma devcontainer_path_plain (h : host E) :
  devcontainer_path w folder "" h =
  if decide (is_Some (h_fs h !! first_path folder)) then (Ok (Some (first_path folder)), h)
  else if decide (is_Some (h_fs h !! second_path folder))
       then (Ok (Some (second_path folder)), h)
       else match fw_glob w (h_fs h) (glob_pattern folder) with
            | inr [] => (Ok None, h)
            | inr _ => (Ok (Some (second_path folder)), h)
            | inl e => (Err e, h)
            end.
Proof.
  unfold devcontainer_path, first_path, second_path. rewrite decide_False by tauto.
  rewrite run_Stat. case_bool_decide as H1; [by rewrite decide_True|].
  rewrite decide_False by done.
  rewrite run_Stat. case_bool_decide as H2; [by rewrite decide_True|].
  rewrite decide_False by done.
  rewrite run_get. unfold glob_pattern. by destruct (fw_glob _ _ _) as [e|[|]].
Qed.

(** Reading the file at a plain path. *)
Lemma ParseDevContainerJSON_at path (h : host E) : plain_path path →
  devcontainer_path w folder "" h = (Ok (Some path), h) →
  ParseDevContainerJSON w folder "" h =
  (match h_fs h !! path with
   | Some content => Some <$> file_config path content
   | None => Err ErrNotExist
   end, h).
Proof.
  intros [Ha Hr] Hp. unfold ParseDevContainerJSON. rewrite (run_Ok _ _ _ _ _ Hp).
  rewrite Ha. cbn. unfold ReadFile, mbind, M_bind. cbn. destruct (h_fs h !! path); [|done].
  rewrite Hr. cbn. unfold file_config. destruct (fw_decode w s) as [e|c]; [done|]. cbn.
  by destruct (replaceLegacy w (with_origin c path)).
Qed.

(** The outcome of reading: an error is one of the user's file. *)
Definition read_outcome (r : result DevContainerConfig) (h : host E)
    : result DevContainerConfig * host E :=
  match r with
  | Ok c => (Ok c, h)
  | Err e => if decide (e = ErrNotExist) then getDefaultConfig w info options h
             else (Err ("parsing devcontainer.json: " +:+ e), h)
  | Panic => (Panic, h)
  | NoFuel => (NoFuel, h)
  end.

(** Which configuration a workspace is started with.  The file
    .devcontainer/devcontainer.json wins over .devcontainer.json; without both, the
    default configuration is used and written to .devcontainer.json, even when
    the search finds a devcontainer.json in a folder below .devcontainer. *)
Theorem getRawConfig_search (h : host E) :
  getRawConfig w info options h =
  match h_fs h !! first_path folder, h_fs h !! second_path folder with
  | Some content, _ => read_outcome (file_config (first_path folder) content) h
  | None, Some content => read_outcome (file_config (second_path folder) content) h
  | None, None =>
      match fw_glob w (h_fs h) (glob_pattern folder) with
      | inr _ => getDefaultConfig w info options h
      | inl e => read_outcome (Err e) h
      end
  end.
Proof.
  rewrite getRawConfig_plain. unfold caught, mbind, M_bind.
  pose proof (devcontainer_path_plain h) as Hp.
  destruct (h_fs h !! first_path folder) as [content|] eqn:H1.
  { rewrite decide_True in Hp by eauto.
    rewrite (ParseDevContainerJSON_at _ _ Hfirst Hp), H1.
    destruct (file_config (first_path folder) content); cbn; try case_decide; done. }
  rewrite decide_False in Hp by (by intros []).
  destruct (h_fs h !! second_path folder) as [content|] eqn:H2.
  { rewrite decide_True in Hp by eauto.
    rewrite (ParseDevContainerJSON_at _ _ Hsecond Hp), H2.
    destruct (file_config (second_path folder) content); cbn; try case_decide; done. }
  rewrite decide_False in Hp by (by intros []).
  destruct (fw_glob w (h_fs h) (glob_pattern folder)) as [e|[|m ms]].
  - unfold ParseDevContainerJSON, mbind, M_bind. rewrite Hp. cbn. by case_decide.
  - unfold ParseDevContainerJSON, mbind, M_bind. by rewrite Hp.
  - rewrite (ParseDevContainerJSON_at _ _ Hsecond Hp), H2. by rewrite decide_True.
Qed.

(** ** The default configuration *)

(** The JSON of a configuration does not hold where it was read from. *)
Definition json_roundtrip : Prop :=
  ∀ image o s, fw_encode w (with_origin (image_config image) o) = inr s →
    ∃ c, fw_decode w s = inr c ∧ ∀ o', with_origin c o' = with_origin (image_config image) o'.

Lemma getDefaultConfig_Ok h c h' : getDefaultConfig (E := E) w info options h = (Ok c, h') →
  ∃ image s, c = with_origin (image_config image) (second_path folder) ∧
    fw_encode w c = inr s ∧ h_fs h' = <[second_path folder := s]> (h_fs h).
Proof.
  unfold getDefaultConfig. set (d := with_origin _ _).
  assert (∃ image, d = with_origin (image_config image) (second_path folder)) as [image Hd].
  { unfold d. case_decide; eexists; reflexivity. }
  clearbody d. subst d. intros (r & h1 & Hs & H)%M_bind_Ok.
  apply M_bind_Ok in H as (u & h2 & Hw & [= <- <-]). exists image.
  injection Hw as Hw <-. apply wrap_Ok in Hw. subst r. unfold caught in Hs.
  destruct (SaveDevContainerJSON w _ h) as [r h3] eqn:Hsave. injection Hs as -> ->.
  unfold SaveDevContainerJSON in Hsave. case_decide; [done|].
  apply M_bind_Ok in Hsave as (x & h4 & Hm & Hsave).
  assert (h4 = h) as ->.
  { unfold MkdirAll in Hm. destruct (hs_write _ _); [done|]. by injection Hm. }
  apply M_bind_Ok in Hsave as (s & h5 & He & Hsave). injection He as He <-.
  exists s. split; [done|]. split; [by destruct (fw_encode w _) as [e|s']; [|injection He as ->]|].
  unfold WriteFile in Hsave. destruct (hs_write _ _); [done|]. by injection Hsave as _ <-.
Qed.

(** The default configuration is stable: once it was written, the next
    call reads the same configuration back and writes nothing. *)
Theorem default_config_stable (h : host E) c h' :
  json_roundtrip → first_path folder ≠ second_path folder →
  h_fs h !! first_path folder = None → h_fs h !! second_path folder = None →
  getRawConfig w info options h = (Ok c, h') →
  getRawConfig w info options h' = (Ok c, h').
Proof.
  intros Hj Hne H1 H2 Hrun.
  assert (getDefaultConfig w info options h = (Ok c, h')) as Hd.
  { revert Hrun. rewrite getRawConfig_plain. unfold caught, mbind, M_bind.
    pose proof (devcontainer_path_plain h) as Hp.
    rewrite !decide_False in Hp by (rewrite ?H1, ?H2; by intros []).
    destruct (fw_glob w (h_fs h) (glob_pattern folder)) as [e|[|m ms]].
    - unfold ParseDevContainerJSON, mbind, M_bind. rewrite Hp. by case_decide.
    - unfold ParseDevContainerJSON, mbind, M_bind. by rewrite Hp.
    - rewrite (ParseDevContainerJSON_at _ _ Hsecond Hp), H2. by rewrite decide_True. }
  destruct (getDefaultConfig_Ok _ _ _ Hd) as (image & s & -> & He & Hfs).
  rewrite getRawConfig_plain. unfold caught, mbind, M_bind.
  pose proof (devcontainer_path_plain h') as Hp.
  rewrite decide_False in Hp by (rewrite Hfs, lookup_insert_ne, H1 by done; by intros []).
  rewrite decide_True in Hp by (rewrite Hfs, lookup_insert_eq; eauto).
  rewrite (ParseDevContainerJSON_at _ _ Hsecond Hp), Hfs, lookup_insert_eq.
  destruct (Hj _ _ _ He) as (c' & Hc' & Ho).
  by rewrite (file_config_decoded _ _ _ Hc'), Ho, (replaceLegacy_none (with_origin _ _)).
Qed.
End File.

(** ** Legacy properties *)

Section Legacy.
Context (w : file_world).
(** The customizations of vscode survive their JSON. *)
Context (Hjson : ∀ v, fw_vscode w (fw_vscodeJSON w v) = inr (Some v)).

Definition vscode_of (c : DevContainerConfig) (v : VSCodeCustomizations) : Prop :=
  match a_customizations (dc_actions c) !! "vscode" with
  | Some j => fw_vscode w j = inr (Some v)
  | None => v = no_vscode
  end.
Definition has_legacy (c : DevContainerConfig) : Prop :=
  ¬ (b_extensions (dc_base c) = [] ∧ b_settings (dc_base c) = ∅ ∧ b_devPort (dc_base c) = 0%Z).
Definition merge_legacy (c : DevContainerConfig) (v : VSCodeCustomizations)
    : VSCodeCustomizations := {|
  vs_settings := vs_settings v ∪ b_settings (dc_base c);
  vs_extensions := or_nonempty (b_extensions (dc_base c)) (vs_extensions v);
  vs_devPort := if decide (vs_devPort v = 0%Z) then b_devPort (dc_base c) else vs_devPort v |}.

Lemma replaceLegacy_inv c c' : has_legacy c → replaceLegacy w c = Ok c' →
  ∃ v, vscode_of c v ∧
    c' = with_legacy c [] ∅ (if decide (vs_devPort v = 0%Z) then 0%Z else b_devPort (dc_base c))
           (<["vscode" := fw_vscodeJSON w (merge_legacy c v)]> (a_customizations (dc_actions c))).
Proof.
  intros Hl. unfold replaceLegacy. rewrite decide_False by done. unfold vscode_of.
  destruct (a_customizations (dc_actions c) !! "vscode") as [j|].
  - destruct (fw_vscode w j) as [e|[v|]]; [done| |done]. intros [= <-]. by exists v.
  - intros [= <-]. by exists no_vscode.
Qed.
Lemma vscode_of_new c e s p v m :
  vscode_of (with_legacy c e s p (<["vscode" := fw_vscodeJSON w v]> m)) v.
Proof. unfold vscode_of. cbn. by rewrite lookup_insert_eq. Qed.
Lemma vscode_of_unique c v v' : vscode_of c v → vscode_of c v' → v = v'.
Proof. unfold vscode_of. destruct (_ !! _); congruence. Qed.
Lemma with_legacy_again c e s p m e' s' p' m' :
  with_legacy (with_legacy c e s p m) e' s' p' m' = with_legacy c e' s' p' m'.
Proof. done. Qed.

(** Legacy properties of devcontainer.json move to the customizations of
    vscode: a setting or port there wins over the legacy one, legacy
    extensions win over those there; nothing else changes, and reading
    the result again changes nothing. *)
Theorem replaceLegacy_moves c c' :
  replaceLegacy w c = Ok c' →
  replaceLegacy w c' = Ok c' ∧
  (¬ has_legacy c → c' = c) ∧
  (has_legacy c → ∃ v v', vscode_of c v ∧ vscode_of c' v' ∧
     b_settings (dc_base c') = ∅ ∧ b_extensions (dc_base c') = [] ∧
     (∀ k, vs_settings v' !! k = match vs_settings v !! k with
                                 | Some x => Some x
                                 | None => b_settings (dc_base c) !! k
                                 end) ∧
     (vs_devPort v ≠ 0%Z → vs_devPort v' = vs_devPort v) ∧
     (b_extensions (dc_base c) ≠ [] → vs_extensions v' = b_extensions (dc_base c)) ∧
     dc_image c' = dc_image c ∧ dc_dockerfile c' = dc_dockerfile c ∧
     dc_compose c' = dc_compose c ∧ dc_nonCompose c' = dc_nonCompose c ∧
     (∀ k, k ≠ "vscode" → a_customizations (dc_actions c') !! k =
                          a_customizations (dc_actions c) !! k)).
Proof.
  intros Hr. destruct (decide (has_legacy c)) as [Hl|Hl].
  2: { assert (c' = c) as ->; [|done]. unfold has_legacy in Hl. apply dec_stable in Hl.
       destruct Hl as (H1 & H2 & H3). rewrite replaceLegacy_none in Hr by done. congruence. }
  destruct (replaceLegacy_inv c c' Hl Hr) as (v & Hv & ->). split_and!; [|done|].
  - destruct (decide (vs_devPort v = 0%Z)) as [Hp|Hp]; [by apply replaceLegacy_none|].
    destruct (decide (b_devPort (dc_base c) = 0%Z)) as [Hz|Hz]; [by apply replaceLegacy_none|].
    unfold replaceLegacy. rewrite decide_False by (cbn; tauto). cbn.
    rewrite lookup_insert_eq, Hjson. cbn. rewrite with_legacy_again, insert_insert_eq.
    rewrite !(decide_False (P := vs_devPort v = 0%Z)) by done.
    unfold merge_legacy. by rewrite (decide_False (P := vs_devPort v = 0%Z)), (right_id_L ∅ (∪)) by done.
  - intros _. exists v, (merge_legacy c v). split_and!; try done; cbn.
    + apply vscode_of_new.
    + intros k. rewrite lookup_union. by destruct (vs_settings v !! k), (b_settings (dc_base c) !! k).
    + intros Hp. by rewrite decide_False.
    + by destruct (b_extensions (dc_base c)).
    + intros k Hk. by rewrite lookup_insert_ne.
Qed.

(** The value null where the customizations of vscode are expected. *)
Lemma replaceLegacy_null c j : has_legacy c →
  a_customizations (dc_actions c) !! "vscode" = Some j → fw_vscode w j = inr None →
  replaceLegacy w c = Panic.
Proof.
  intros Hl Hj Hn. unfold replaceLegacy. rewrite decide_False by done. by rewrite Hj, Hn.
Qed.
End Legacy.

(** ** Witnesses *)

Lemma demo_plain : plain_workspace demo_file_world demo_agent no_cli.
Proof. done. Qed.
Lemma demo_roundtrip : json_roundtrip demo_file_world.
Proof.
  intros image o s [= <-]. exists (image_config image). split; [|done]. cbn.
  rewrite decide_False by done. by destruct image.
Qed.

(** A configuration in a folder below .devcontainer is not read. *)
Definition nested_host : host unit :=
  Host {[ "/content/.devcontainer/go/devcontainer.json" := "image golang" ]} ().
Lemma getRawConfig_search_witness :
  getRawConfig demo_file_world demo_agent no_cli nested_host =
  getDefaultConfig demo_file_world demo_agent no_cli nested_host.
Proof.
  rewrite (getRawConfig_search demo_file_world demo_agent no_cli demo_plain);
    [reflexivity|split; reflexivity|split; reflexivity].
Defined.

Lemma default_config_stable_witness :
  let h' := (getRawConfig demo_file_world demo_agent no_cli (Host ∅ ())).2 in
  h_fs h' !! "/content/.devcontainer.json" =
    Some "image mcr.microsoft.com/devcontainers/javascript-node" ∧
  (getRawConfig demo_file_world demo_agent no_cli h').2 = h'.
Proof.
  intros h'. split; [reflexivity|]. unfold h'.
  destruct (getRawConfig demo_file_world demo_agent no_cli (Host ∅ ())) as [r h1] eqn:Hr.
  assert (∃ c, r = Ok c) as [c ->].
  { assert (r = (getRawConfig demo_file_world demo_agent no_cli (Host ∅ ())).1) as ->
      by (by rewrite Hr). vm_compute. eauto. }
  cbn [snd]. rewrite (default_config_stable demo_file_world demo_agent no_cli demo_plain) with (h := Host ∅ ()) (c := c);
    [done|split; reflexivity|exact demo_roundtrip|done|done|done|exact Hr].
Defined.

Lemma demo_vscode_json v : fw_vscode demo_file_world (fw_vscodeJSON demo_file_world v) = inr (Some v).
Proof.
  destruct v as [settings extensions port]. cbn. rewrite list_to_map_to_list. do 3 f_equal.
  induction extensions as [|x l IH]; [done|]. cbn. by f_equal.
Qed.
Lemma replaceLegacy_moves_witness :
  ∃ c v, replaceLegacy demo_file_world legacy_config = Ok c ∧
    vscode_of demo_file_world c v ∧ vs_extensions v = ["go"] ∧
    vs_settings v !! "wrap" = Some (JBool true) ∧ replaceLegacy demo_file_world c = Ok c.
Proof.
  destruct (replaceLegacy demo_file_world legacy_config) as [c| | |] eqn:Hc.
  2-4: exfalso; vm_compute in Hc; discriminate Hc.
  destruct (replaceLegacy_moves demo_file_world demo_vscode_json legacy_config c Hc)
    as (Hagain & _ & Hmove).
  destruct Hmove as (v & v' & Hv & Hv' & _ & _ & Hs & _ & He & _); [by intros (? & _)|].
  exists c, v'. split_and!; [done|done|by apply He| |done].
  rewrite Hs. unfold vscode_of in Hv. cbn in Hv. rewrite lookup_empty in Hv. by subst v.
Defined.
