(* ===== verification/RunnerProps.v ===== *)
(** * The container of a workspace under [Up], [Stop] and [Delete]

    Theorems on the runner of Runner.v for every driver that is [Lawful]:
    building an image touches no container, a container that exists is
    reused, an old container is only removed once its image was built, and
    what becomes of the container when a step fails.  The last part follows
    the details of a restarted container into the lifecycle hooks of
    Lifecycle.v. *)

From S2P Require Import Prelude GoStrings Types Config Names DevContainer Merge Substitute SshConfig Options Dockerfile Lifecycle LifecycleProps Provider Clients Driver Build DevContainerFile Runner RunnerDemo.
From stdpp Require Import base gmap list strings.
From Stdlib Require Import ZArith.

Local Open Scope string_scope.

Section Runner.
Context {E : Type} `{!Driver E, !Containers E, !Lawful E}.
Context (w : runner_world E) (info : AgentWorkspaceInfo).
Notation ID := (runnerID info).
Notation at_ h := (container (h_eng h) ID).
Notation ok h := (engine_ok (h_eng h)).

(** What the runner needs of the code around it: the agent in the container,
    the host command and remote builds leave the containers alone, and
    removing the compose project of a container removes that container. *)
Record quiet : Prop := {
  q_inject : stays unchanged (rw_inject w);
  q_execute : ∀ ssh cmd, stays unchanged (rw_execute w ssh cmd);
  q_initialize : ∀ args env, stays unchanged (rw_initialize w args env);
  q_remote : ∀ a b c d e f g i, stays unchanged (rw_buildRemote w a b c d e f g i);
  q_compose : ∀ a b c, stays unchanged (rw_buildCompose w a b c);
  q_delete : ∀ p, stays (changes ID) (rw_deleteCompose w p);
  q_deleted : ∀ p c h h', ok h → at_ h = Some c → getDockerComposeProject c = Some p →
    rw_deleteCompose w p h = (Ok (), h') → at_ h' = None;
}.

(** ** Steps that touch no container *)

Lemma same_modify (f : host E → host E) :
  (∀ h, h_eng (f h) = h_eng h) → stays unchanged (modifyS f).
Proof. intros Hf h. unfold unchanged. cbn. by rewrite Hf. Qed.
Lemma same_WriteFile hs path content : stays unchanged (WriteFile hs path content).
Proof. unfold WriteFile. destruct (hs_write hs path); [stays|by apply same_modify]. Qed.
Lemma same_MkdirAll hs path : stays unchanged (MkdirAll hs path).
Proof. unfold MkdirAll. stays. Qed.
Lemma same_RemoveAll dir : stays unchanged (RemoveAll dir).
Proof. by apply same_modify. Qed.
Lemma same_ReadFile hs path : stays unchanged (ReadFile hs path).
Proof. unfold ReadFile. stays. Qed.
Lemma same_Stat path : stays unchanged (Stat path).
Proof. unfold Stat. stays. Qed.
Lemma step_stays {A} R `{!PreOrder R} msg (c : M (host E) A) :
  stays R c → stays R (in_step msg c).
Proof. intros Hc. unfold in_step. stays. Qed.
Lemma same_feature {A} msg f (c : M (host E) A) :
  stays unchanged c → stays unchanged (in_feature msg f c).
Proof. intros Hc. unfold in_feature. stays. Qed.
Lemma same_inspectImage image : stays unchanged (inspectImage w image).
Proof.
  unfold inspectImage. destruct AsDocker as [d|] eqn:Hd; [|stays]. by apply law_inspect.
Qed.
Hint Resolve same_WriteFile same_MkdirAll same_RemoveAll same_ReadFile same_Stat
  step_stays same_feature same_inspectImage law_find law_architecture : stays.

Lemma same_copy_features b dir : ∀ l i, stays unchanged (copy_features b dir i l).
Proof.
  assert (∀ src dst, stays unchanged (copy_directory b src dst)) as Hc.
  { intros src dst. unfold copy_directory. apply stays_bind; [exact _|auto with stays|].
    intros _. destruct (hs_read _ _); [stays|by apply same_modify]. }
  induction l as [|f l IH]; intros i; [by apply stays_ret; exact _|].
  cbn [copy_features]. repeat (apply stays_bind; [exact _|auto with stays|intros _]). apply IH.
Qed.
Hint Resolve same_copy_features : stays.

Lemma same_GetExtendedBuildInfo b ctx i target c force :
  stays unchanged (GetExtendedBuildInfo b ctx i target c force).
Proof.
  unfold GetExtendedBuildInfo, getFeatureBuildOptions, copyFeaturesToDestination. stays.
Qed.
Lemma same_RewriteDockerfile b content e : stays unchanged (RewriteDockerfile b content e).
Proof. unfold RewriteDockerfile. stays. Qed.
Lemma same_readDockerignore b dir file : stays unchanged (readDockerignore b dir file).
Proof. unfold readDockerignore. cbv zeta. stays. Qed.
Hint Resolve same_readDockerignore : stays.
Lemma same_CalculatePrebuildHash b c p a ctx path content i :
  stays unchanged (CalculatePrebuildHash b c p a ctx path content i).
Proof. unfold CalculatePrebuildHash. stays. Qed.
Hint Resolve same_GetExtendedBuildInfo same_RewriteDockerfile same_CalculatePrebuildHash : stays.
Lemma same_dockerlessFallback b f f' c i e content o :
  stays unchanged (dockerlessFallback b f f' c i e content o).
Proof. unfold dockerlessFallback. stays. Qed.
Hint Resolve same_dockerlessFallback : stays.

Lemma same_build_anew c ctx i e p content hash arch o :
  quiet → stays unchanged (build_anew w info c ctx i e p content hash arch o).
Proof.
  intros Q. unfold build_anew. destruct (cli_platformEnabled _).
  { apply step_stays; [exact _|apply Q]. }
  destruct AsDocker as [d|] eqn:Hd; [|stays].
  destruct (cli_forceDockerless _); [stays|]. by apply law_build.
Qed.
Lemma same_buildImage c ctx i e p content o :
  quiet → stays unchanged (buildImage w info c ctx i e p content o).
Proof. intros Q. pose proof same_build_anew. unfold buildImage. stays. Qed.
Lemma same_getImageBuildInfoFromImage {X} (md : _ → result X) image :
  stays unchanged (getImageBuildInfoFromImage (inspectImage w) md image).
Proof. unfold getImageBuildInfoFromImage. stays. Qed.
Lemma same_getImageBuildInfoFromDockerfile {X} p p' (md : _ → result X) n content a t :
  stays unchanged (getImageBuildInfoFromDockerfile p p' (inspectImage w) md n content a t).
Proof. unfold getImageBuildInfoFromDockerfile. stays. Qed.
Lemma same_getDockerfilePath c : stays unchanged (getDockerfilePath c).
Proof. unfold getDockerfilePath. stays. Qed.
Hint Resolve same_buildImage same_getImageBuildInfoFromImage
  same_getImageBuildInfoFromDockerfile same_getDockerfilePath : stays.

(** Building an image touches no container. *)
Lemma same_build c ctx o : quiet → stays unchanged (build w info c ctx o).
Proof.
  intros Q. unfold build.
  destruct (isDockerFileConfig _).
  { unfold buildAndExtendImage. apply stays_bind; [exact _|auto with stays|intros path].
    apply stays_bind; [exact _|auto with stays|intros content].
    apply stays_bind; [exact _| |intros []; stays].
    destruct (decide _); stays. }
  destruct (isDockerComposeConfig _); [apply Q|]. unfold extendImage. stays.
Qed.

Lemma same_setup raw c m ctx : quiet → stays unchanged (setupContainer w info raw c m ctx).
Proof.
  intros Q. unfold setupContainer.
  apply stays_bind; [exact _|apply step_stays; [exact _|apply Q]|intros _].
  do 2 (apply stays_bind; [exact _|auto with stays typeclass_instances|intros ?]). apply Q.
Qed.

(** A relation along a run. *)
Lemma unchanged_at h h' : unchanged h h' → ok h → ok h' ∧ at_ h' = at_ h.
Proof. intros Hu Hok. destruct (Hu Hok) as [? ?]. auto. Qed.

Lemma in_step_Ok {A} msg (c : M (host E) A) h a h' :
  in_step msg c h = (Ok a, h') ↔ c h = (Ok a, h').
Proof.
  unfold in_step, mbind, M_bind, caught, liftR. destruct (c h) as [r h1]. cbn.
  destruct r; cbn; naive_solver.
Qed.

(** Finding the container. *)
Lemma find_step msg h r h' : in_step msg (FindDevContainer ID) h = (r, h') → ok h →
  ok h' ∧ (∀ id, container (h_eng h') id = container (h_eng h) id) ∧
  (∀ c, r = Ok c → c = at_ h).
Proof.
  intros Hf Hok. destruct (stays_after _ _ _ _ _ (step_stays _ msg _ (law_find ID)) Hf Hok).
  split_and!; [done..|]. intros c ->. apply in_step_Ok in Hf. by eapply law_found.
Qed.

(** ** Reusing a container *)

Definition same_id (h h' : host E) : Prop :=
  changes ID h h' ∧ (ok h → cd_ID <$> at_ h' = cd_ID <$> at_ h).
#[export] Instance same_id_preorder : PreOrder same_id.
Proof.
  split; [by intros h; split|]. intros a b c [Hab H1] [Hbc H2].
  split; [by etrans|]. intros Ha. destruct (Hab Ha) as [Hb _]. by rewrite H2, H1.
Qed.
Lemma unchanged_same_id {A} (c : M (host E) A) : stays unchanged c → stays same_id c.
Proof.
  intros Hc h. split; [by apply unchanged_changes|]. intros Hok.
  by destruct (Hc h Hok) as [_ ->].
Qed.
Lemma start_same_id : stays same_id (StartDevContainer ID).
Proof.
  intros h. split; [apply law_start|]. intros Hok.
  destruct (StartDevContainer ID h) as [r h'] eqn:Hs. by destruct (law_started _ _ _ _ Hok Hs).
Qed.
Hint Resolve unchanged_same_id start_same_id unchanged_changes law_start law_run : stays.

Lemma reuse_same_id pc ctx c : Reprovisions ≠ Some true →
  stays same_id (reuse_container w info pc ctx c).
Proof.
  intros Hr. unfold reuse_container.
  apply stays_bind; [exact _|destruct (is_running c); auto with stays typeclass_instances|].
  intros _. do 2 (apply stays_bind; [exact _|auto with stays typeclass_instances|intros ?]).
  rewrite decide_False by done. auto with stays typeclass_instances.
Qed.
Lemma reuse_changes pc ctx c : stays (changes ID) (reuse_container w info pc ctx c).
Proof.
  unfold reuse_container.
  apply stays_bind; [exact _|destruct (is_running c); auto with stays typeclass_instances|].
  intros _. stays.
Qed.

(** A reused container runs; the details handed on are those that were found
    before it was started. *)
Lemma reuse_Ok pc ctx c h ready h' :
  ok h → reuse_container w info pc ctx c h = (Ok ready, h') → at_ h = Some c →
  (Reprovisions ≠ Some true → (∃ c', at_ h' = Some c' ∧ is_running c' = true) ∧
                              ready.1.1 = Some c) ∧
  is_Some (at_ h').
Proof.
  unfold reuse_container. intros Hok (u & h1 & Hs & H)%M_bind_Ok Hc.
  assert (ok h1 ∧ ∃ c', at_ h1 = Some c' ∧ is_running c' = true) as [Hok1 Hrun].
  { destruct (is_running c) eqn:Hcr; [injection Hs as <- <-; eauto|]. destruct u.
    split; [by destruct (stays_after _ _ _ _ _ (law_start ID) Hs Hok)|].
    destruct (law_started _ _ _ _ Hok Hs) as [_ Hl]. by apply Hl. }
  apply M_bind_Ok in H as (md & h2 & [= _ <-] & H).
  apply M_bind_Ok in H as (merged & h3 & [= _ <-] & H). case_decide as Hre.
  - split; [done|]. apply M_bind_Ok in H as ([] & h4 & Hr%in_step_Ok & H).
    destruct (stays_after _ _ _ _ _ (law_run ID None) Hr Hok1) as [Hok4 _].
    apply law_ran in Hr; [|done]. apply M_bind_Ok in H as (c' & h5 & Hf & [= _ <-]).
    by destruct (find_step _ _ _ _ Hf Hok4) as (_ & -> & _).
  - injection H as <- <-. split; [done|]. destruct Hrun as (c' & -> & _). eauto.
Qed.

(** ** Removing the old container *)

Lemma Find_inv h r h' : Find info h = (r, h') → ok h →
  ok h' ∧ (∀ id, container (h_eng h') id = container (h_eng h) id) ∧
  (∀ c, r = Ok c → c = at_ h).
Proof. apply find_step. Qed.

Lemma delete_changes : quiet → stays (changes ID) (Runner.Delete w info).
Proof.
  intros Q. unfold Runner.Delete. apply stays_bind; [exact _| |intros [c|]; [|stays]].
  { apply unchanged_changes, step_stays; [exact _|apply law_find]. }
  destruct (getDockerComposeProject c); [apply Q|].
  apply stays_bind; [exact _|destruct (is_running c)|intros _; apply law_delete].
  - apply law_stop.
  - auto with stays typeclass_instances.
Qed.

(** The steps of a deletion after the container was found. *)
Lemma delete_inv h r h' : ok h → Runner.Delete w info h = (r, h') →
  ∃ h1, ok h1 ∧ at_ h1 = at_ h ∧
    ((h' = h1 ∧ (r = Ok () → at_ h = None)) ∨
     ∃ c, at_ h = Some c ∧
       match getDockerComposeProject c with
       | Some p => rw_deleteCompose w p h1 = (r, h')
       | None =>
           (is_running c = true ∧ StopDevContainer ID h1 = (r, h') ∧ r ≠ Ok ()) ∨
           ∃ h2, ok h2 ∧ cd_ID <$> at_ h2 = cd_ID <$> at_ h ∧
                 DeleteDevContainer ID h2 = (r, h')
       end).
Proof.
  intros Hok. unfold Runner.Delete. unfold mbind at 1, M_bind at 1.
  destruct (Find info h) as [rf h1] eqn:Hf. destruct (Find_inv _ _ _ Hf Hok) as (Hok1 & Hs & Hc).
  intros Hrun. exists h1. split; [done|]. split; [done|].
  destruct rf as [found| | |]; [|injection Hrun as <- <-; by left..].
  rewrite (Hc found eq_refl) in Hrun. destruct (at_ h) as [c|] eqn:Hat; [|injection Hrun as <- <-; by left].
  right. exists c. split; [done|]. destruct (getDockerComposeProject c); [done|].
  unfold mbind, M_bind in Hrun. destruct (is_running c) eqn:Hcr; cbn in Hrun.
  - destruct (StopDevContainer ID h1) as [rs h2] eqn:Hst.
    destruct (law_stopped _ _ _ _ Hok1 Hst) as [Hid _].
    destruct rs; [|injection Hrun as <- <-; by left..].
    right. exists h2. split; [by destruct (stays_after _ _ _ _ _ (law_stop ID) Hst Hok1)|].
    by rewrite Hid, Hs, Hat.
  - right. exists h1. by rewrite Hs, Hat.
Qed.

Lemma delete_Ok h h' : quiet → ok h → Runner.Delete w info h = (Ok (), h') → at_ h' = None.
Proof.
  intros Q Hok Hdel. destruct (delete_inv _ _ _ Hok Hdel) as (h1 & Hok1 & Hs & [[-> Hn]|(c & Hc & H)]).
  { rewrite Hs. by apply Hn. }
  destruct (getDockerComposeProject c) eqn:Hp; [eapply q_deleted; try done; by rewrite Hs|].
  destruct H as [(_ & _ & [])|(h2 & Hok2 & _ & Hd)]; [done|].
  destruct (law_deleted _ _ _ _ Hok2 Hd) as [_ Hn]. by apply Hn.
Qed.

(** ** Creating a container *)

Lemma create_build_fails pc ctx o h :
  quiet → is_ok (build w info pc ctx (up_build_options o) h).1 = false →
  is_ok (create_container w info pc ctx o h).1 = false ∧
  unchanged h (create_container w info pc ctx o h).2.
Proof.
  intros Q Hf. pose proof (same_build pc ctx (up_build_options o) Q h) as Hs.
  unfold create_container. unfold mbind, M_bind at 1. unfold in_step, mbind, M_bind, caught, liftR.
  destruct (build w info pc ctx (up_build_options o) h) as [[] h1]; cbn in *; done.
Qed.

Lemma Cut_label k v : free "=" k = true → (Cut "=" (k +:+ "=" +:+ v)).1.1 = k.
Proof.
  induction k as [|c k IH]; [done|]. intros [Hc Hk]%free_cons. cbn.
  rewrite decide_False by done. specialize (IH Hk). cbn in IH.
  by destruct (Cut "=" (k +:+ String "=" v)) as [[] ?]; cbn in *; subst.
Qed.
Lemma run_labels_own marshalled user :
  Forall (λ l, (Cut "=" l).1.1 ≠ DockerIDLabel) (run_labels marshalled user).
Proof. repeat constructor; rewrite Cut_label; done. Qed.

(** Image names are references: none starts like a flag. *)
Definition valid_images (pc : SubstitutedConfig) (ctx : SubstitutionContext) (o : UpOptions)
    : Prop :=
  HasPrefix (dl_image (a_dockerless (ai_agent info))) "-" = false ∧
  ∀ h b h', build w info pc ctx (up_build_options o) h = (Ok b, h') →
    HasPrefix (bi_ImageName b) "-" = false.

(** The labels of the run options name no workspace. *)
Lemma run_options_own cfg m ctx b ro :
  label_free (n_runArgs (dc_nonCompose cfg)) →
  HasPrefix (dl_image (a_dockerless (ai_agent info))) "-" = false →
  HasPrefix (bi_ImageName b) "-" = false →
  match bi_Dockerless b with
  | Some bd => wrap "build dockerless run options" (getDockerlessRunOptions w info m ctx b bd)
  | None => wrap "build run options" (getRunOptions w info m ctx b)
  end = Ok ro →
  own_labels (with_env ro (addExtraEnvVars info (ro_Env ro))) cfg.
Proof.
  intros Hfree Hdl Hi. destruct (bi_Dockerless b) as [bd|]; intros H%wrap_Ok; (split; [done|]).
  - apply bind_Ok in H as (mt & _ & H). apply bind_Ok in H as (ma & _ & H).
    apply bind_Ok in H as (env & _ & [= <-]). split; [|apply run_labels_own].
    cbn. unfold or_default. by case_decide.
  - apply bind_Ok in H as (mt & _ & H). apply bind_Ok in H as (ma & _ & H).
    destruct (GetContainerEntrypointAndArgs m (bi_ImageDetails b)).
    apply bind_Ok in H as (i & _ & [= <-]). split; [done|apply run_labels_own].
Qed.

Lemma run_container pc ctx m b h r h' :
  ok h → label_free (n_runArgs (dc_nonCompose (sc_config pc))) →
  HasPrefix (dl_image (a_dockerless (ai_agent info))) "-" = false →
  HasPrefix (bi_ImageName b) "-" = false →
  (is_Some (AsDocker (E := E)) → at_ h = None) →
  runContainer w info pc ctx m b h = (r, h') →
  changes ID h h' ∧ (r = Ok () → is_Some (at_ h')).
Proof.
  intros Hok Hfree Hdl Hi Hnone. unfold runContainer. unfold mbind, M_bind, liftR.
  destruct (match bi_Dockerless b with Some _ => _ | None => _ end) as [ro| | |] eqn:Hro.
  2-4: intros [= <- <-]; split; [done|by intros].
  apply (run_options_own _ _ _ _ _ Hfree Hdl Hi) in Hro. destruct AsDocker as [d|] eqn:Hd.
  - eapply law_docker_run; [done|exact Hro|done|apply Hnone; eauto].
  - intros Hrun. split; [by eapply stays_after; [apply law_run|]|]. intros ->.
    by eapply law_ran.
Qed.

(** What precedes the run: the old container is removed under [--recreate]. *)
Lemma remove_step (recreate : bool) h r h' :
  quiet → ok h → (recreate = false → at_ h = None) →
  (if recreate then remove_old w info else mret ()) h = (r, h') →
  changes ID h h' ∧ (r = Ok () → is_Some (AsDocker (E := E)) → at_ h' = None).
Proof.
  intros Q Hok Hnone. destruct recreate.
  2: { intros [= <- <-]. split; [done|]. intros _ _. auto. }
  unfold remove_old. destruct AsDocker as [d|] eqn:Hd; intros Hrun.
  - split; [by eapply stays_after; [apply step_stays; [exact _|by apply delete_changes]|]|].
    intros -> _. apply in_step_Ok in Hrun. by eapply delete_Ok.
  - split; [by eapply stays_after; [apply step_stays; [exact _|apply law_stop]|]|].
    intros _ []. done.
Qed.
Lemma run_step msg pc ctx m b h r h' :
  ok h → label_free (n_runArgs (dc_nonCompose (sc_config pc))) →
  HasPrefix (dl_image (a_dockerless (ai_agent info))) "-" = false →
  HasPrefix (bi_ImageName b) "-" = false →
  (is_Some (AsDocker (E := E)) → at_ h = None) →
  in_step msg (runContainer w info pc ctx m b) h = (r, h') →
  changes ID h h' ∧ (r = Ok () → is_Some (at_ h')).
Proof.
  intros Hok Hfree Hdl Hi Hnone. unfold in_step, mbind, M_bind, caught, liftR.
  destruct (runContainer _ _ _ _ _ _ h) as [rc h1] eqn:Hrc. intros [= <- <-].
  destruct (run_container _ _ _ _ _ _ _ Hok Hfree Hdl Hi Hnone Hrc) as [? Hex].
  split; [done|]. intros Hw%wrap_Ok. auto.
Qed.

(** Under [--recreate] on docker, or without a container to begin with, the
    new container is the only one of the workspace. *)
Lemma create_outcome pc ctx o h r h' :
  quiet → ok h → label_free (n_runArgs (dc_nonCompose (sc_config pc))) →
  valid_images pc ctx o →
  (cli_recreate (up_cli o) = false → at_ h = None) →
  create_container w info pc ctx o h = (r, h') →
  changes ID h h' ∧ (is_ok r = true → is_Some (at_ h')).
Proof.
  intros Q Hok Hfree [Hdl Him] Hnone. unfold create_container. unfold mbind at 1, M_bind at 1.
  destruct (in_step "build image" _ h) as [rb h1] eqn:Hb.
  assert (unchanged h h1) as Hu1.
  { eapply stays_after; [apply step_stays; [exact _|by apply same_build]|exact Hb]. }
  destruct (Hu1 Hok) as [Hok1 Hs1]. assert (changes ID h h1) as Hc1. { by intros _. }
  destruct rb as [b| | |]; [|intros [= <- <-]; by split..].
  apply in_step_Ok, Him in Hb. unfold mbind at 1, M_bind at 1.
  destruct ((if cli_recreate (up_cli o) then remove_old w info else mret ()) h1)
    as [rd h2] eqn:Hd.
  destruct (remove_step _ _ _ _ Q Hok1 ltac:(by rewrite Hs1) Hd) as [Hc2 Hn2].
  assert (changes ID h h2) as Hc by (by etrans). destruct (Hc Hok) as [Hok2 _].
  destruct rd as [[]| | |]; [|intros [= <- <-]; by split..].
  unfold mbind at 1, M_bind at 1. unfold liftR at 1.
  destruct (wrap _ _) as [m| | |]; [|intros [= <- <-]; by split..].
  destruct (add_daemon w info o ctx m) as [m' ctx'].
  unfold mbind at 1, M_bind at 1.
  destruct (in_step "start dev container" _ h2) as [rr h3] eqn:Hr.
  destruct (run_step _ _ _ _ _ _ _ _ Hok2 Hfree Hdl Hb (Hn2 eq_refl) Hr) as [Hc3 Hn3].
  assert (changes ID h h3) as Hc' by (by etrans). destruct (Hc' Hok) as [Hok3 _].
  destruct rr as [[]| | |]; [|intros [= <- <-]; by split..].
  unfold mbind, M_bind. destruct (in_step "find dev container" _ h3) as [rf h4] eqn:Hf.
  destruct (find_step _ _ _ _ Hf Hok3) as (Hok4 & Hs4 & _).
  assert (changes ID h h4) as Hc4. { etrans; [exact Hc'|]. by intros _. }
  destruct rf; intros [= <- <-]; (split; [done|]); try done. intros _. rewrite Hs4. auto.
Qed.

(** ** The container of a workspace *)

(** What [runSingleContainer] does after it looked for a container. *)
Lemma runSingleContainer_steps pc ctx o h r h' :
  ok h → runSingleContainer w info pc ctx o h = (r, h') →
  ∃ h1, ok h1 ∧ (∀ id, container (h_eng h1) id = container (h_eng h) id) ∧
   ((is_ok r = false ∧ h' = h1) ∨
    (cli_recreate (up_cli o) = true → dc_containerID (sc_config pc) = "") ∧
    h1 = (FindDevContainer ID h).2 ∧
    (match at_ h with
     | Some c => if cli_recreate (up_cli o) then create_container w info pc ctx o
                 else reuse_container w info pc ctx c
     | None => create_container w info pc ctx o
     end ≫= λ ready, setupContainer w info (sc_raw pc) ready.1.1 ready.1.2 ready.2) h1 =
    (r, h')).
Proof.
  intros Hok. unfold runSingleContainer. unfold mbind at 1, M_bind at 1.
  destruct (in_step "find dev container" _ h) as [rf h1] eqn:Hf.
  assert (h1 = (FindDevContainer ID h).2) as Hh1.
  { unfold in_step, mbind, M_bind, caught, liftR in Hf.
    destruct (FindDevContainer ID h). by injection Hf as _ <-. }
  destruct (find_step _ _ _ _ Hf Hok) as (Hok1 & Hs & Hc).
  intros Hrun. exists h1. split; [done|]. split; [done|].
  destruct rf as [found| | |]; [|injection Hrun as <- <-; by left..].
  rewrite (Hc found eq_refl) in Hrun. case_decide as Hre; [injection Hrun as <- <-; by left|].
  right. split; [intros Hr; apply dec_stable; intros ?; by apply Hre|]. split; [done|].
  rewrite <-Hrun. clear Hrun. destruct (at_ h) as [c|]; [destruct (cli_recreate _)|];
    apply bind_ext; intros [[] ] ?; reflexivity.
Qed.

(** Setting the container up afterwards leaves it as it is. *)
Lemma then_setup {A} (c : M (host E) A) raw (f : A → _) h r h' :
  quiet → (c ≫= λ ready, setupContainer w info raw (f ready).1.1 (f ready).1.2 (f ready).2) h =
          (r, h') →
  unchanged (c h).2 h' ∧ (is_ok r = true → is_ok (c h).1 = true).
Proof.
  intros Q. unfold mbind, M_bind. destruct (c h) as [[a| | |] h1]; cbn.
  2-4: intros [= <- <-]; by split.
  intros Hs. split; [|done]. by eapply stays_after; [apply same_setup|].
Qed.

(** Creating a container and setting it up. *)
Lemma create_then_setup pc ctx o h r h' :
  quiet → ok h → label_free (n_runArgs (dc_nonCompose (sc_config pc))) →
  valid_images pc ctx o →
  (cli_recreate (up_cli o) = false → at_ h = None) →
  (create_container w info pc ctx o ≫= λ ready,
     setupContainer w info (sc_raw pc) ready.1.1 ready.1.2 ready.2) h = (r, h') →
  changes ID h h' ∧
  (is_ok (build w info pc ctx (up_build_options o) h).1 = false →
     is_ok r = false ∧ at_ h' = at_ h) ∧
  (is_ok r = true → is_Some (at_ h')).
Proof.
  intros Q Hok Hfree Him Hnone Hrun. destruct (then_setup _ _ id _ _ _ Q Hrun) as [Hset Hr].
  destruct (create_container w info pc ctx o h) as [rc h2] eqn:Hcr; cbn in Hset, Hr.
  destruct (create_outcome _ _ _ _ _ _ Q Hok Hfree Him Hnone Hcr) as [Hch Hex].
  destruct (Hch Hok) as [Hok2 Hoth]. destruct (Hset Hok2) as [Hok' Hs'].
  split_and!; [intros _; split; [done|]; intros i Hi; by rewrite Hs', Hoth| |intros Hk; rewrite Hs'; auto].
  intros Hb. destruct (create_build_fails pc ctx o h Q Hb) as [Hf Hu].
  rewrite Hcr in Hf, Hu. cbn in Hf, Hu. destruct (Hu Hok) as [_ Hu'].
  split; [|by rewrite Hs', Hu']. destruct (is_ok r); [|done]. by rewrite Hr in Hf.
Qed.

(** Reusing a container and setting it up. *)
Lemma reuse_then_setup pc ctx c h r h' :
  quiet → ok h → at_ h = Some c →
  (reuse_container w info pc ctx c ≫= λ ready,
     setupContainer w info (sc_raw pc) ready.1.1 ready.1.2 ready.2) h = (r, h') →
  changes ID h h' ∧
  (Reprovisions ≠ Some true → cd_ID <$> at_ h' = Some (cd_ID c) ∧
     (is_ok r = true → ∃ c', at_ h' = Some c' ∧ is_running c' = true)) ∧
  (is_ok r = true → is_Some (at_ h')).
Proof.
  intros Q Hok Hc Hrun. destruct (then_setup _ _ id _ _ _ Q Hrun) as [Hset Hr].
  destruct (reuse_container w info pc ctx c h) as [rc h2] eqn:Hcr; cbn in Hset, Hr.
  destruct (stays_after _ _ _ _ _ (reuse_changes pc ctx c) Hcr Hok) as [Hok2 Hoth].
  destruct (Hset Hok2) as [Hok' Hs'].
  split_and!; [intros _; split; [done|]; intros i Hi; by rewrite Hs', Hoth| |].
  - intros Hnr. rewrite Hs'. split.
    + destruct (stays_after _ _ _ _ _ (reuse_same_id pc ctx c Hnr) Hcr) as [_ Hi].
      by rewrite Hi, Hc.
    + intros Hk%Hr. destruct rc; [|done..].
      by destruct (reuse_Ok _ _ _ _ _ _ Hok Hcr Hc) as [[? _] _].
  - intros Hk%Hr. destruct rc; [|done..]. rewrite Hs'.
    by destruct (reuse_Ok _ _ _ _ _ _ Hok Hcr Hc).
Qed.


(** ** Stopping and deleting *)

(** C12: Stopping and deleting a container that no docker compose project owns, for every
    lawful driver.  Other containers are left alone.  After a successful [Stop] it
    does not run and is still the same container; after a successful
    [Delete] it is gone.  When the deletion fails, the container is
    the same one, or it was already removed. *)
Theorem Stop_Delete_outcome h r h' :
  quiet → ok h → (∀ c, at_ h = Some c → getDockerComposeProject c = None) →
  (Stop w info h = (r, h') →
     changes ID h h' ∧ cd_ID <$> at_ h' = cd_ID <$> at_ h ∧
     (r = Ok () → ∀ c, at_ h' = Some c → is_running c = false)) ∧
  (Runner.Delete w info h = (r, h') →
     changes ID h h' ∧ (cd_ID <$> at_ h' = cd_ID <$> at_ h ∨ at_ h' = None) ∧
     (r = Ok () → at_ h' = None)).
Proof.
  intros Q Hok Hno. split.
  - unfold Stop. unfold mbind, M_bind.
    destruct (Find info h) as [rf h1] eqn:Hf. destruct (Find_inv _ _ _ Hf Hok) as (Hok1 & Hs & Hc).
    assert (changes ID h h1) as Hch by (by intros _).
    destruct rf as [found| | |]; [|intros [= <- <-]; by rewrite Hs..].
    rewrite (Hc found eq_refl). destruct (at_ h) as [c|] eqn:Hat;
      [|intros [= <- <-]; by rewrite Hs, Hat].
    rewrite (Hno c eq_refl). destruct (is_running c) eqn:Hcr; intros Hrun.
    + destruct (law_stopped _ _ _ _ Hok1 Hrun) as [Hid Hl]. split_and!; [|by rewrite Hid, Hs, Hat|done].
      etrans; [exact Hch|]. by eapply stays_after; [apply law_stop|].
    + injection Hrun as <- <-. split_and!; [done|by rewrite Hs, Hat|].
      intros _ c'. rewrite Hs, Hat. by intros [= <-].
  - intros Hrun. split; [by eapply stays_after; [apply delete_changes|]|].
    split; [|intros ->; by eapply delete_Ok].
    destruct (delete_inv _ _ _ Hok Hrun) as (h1 & Hok1 & Hs & [[-> _]|(c & Hc & H)]).
    { left. by rewrite Hs. }
    rewrite (Hno c Hc) in H. destruct H as [(_ & Hst & _)|(h2 & Hok2 & Hid & Hd)].
    + left. destruct (law_stopped _ _ _ _ Hok1 Hst) as [-> _]. by rewrite Hs.
    + destruct (law_deleted _ _ _ _ Hok2 Hd) as [[->| ->] _]; auto.
Qed.

(** ** Restarting a container *)

(** After a restart the postStart hooks are not run.  When [Up] finds a
    container that does not run, it starts it but hands the details from
    before the start on, so the setup compares its marker with the time of
    the start before: if the setup had succeeded after that start, only the
    postAttach hooks run. *)
Theorem restart_skips_postStart pc ctx raw c h details merged ctx' h'
    w1 w2 probe1 probe2 info1 c1 c2 s s1 :
  ok h → Reprovisions ≠ Some true → at_ h = Some c → is_running c = false →
  reuse_container w info pc ctx c h = (Ok (details, merged, ctx'), h') →
  files_work w1 → files_work w2 →
  call_of probe1 info1 c1 → RunLifecycleHooks w1 probe1 info1 s = (Ok (), s1) →
  cd_Created (hc_details c1) = cd_Created c → cd_StartedAt (hc_details c1) = cd_StartedAt c →
  cd_Created c ≠ "" → cd_StartedAt c ≠ "" →
  call_of probe2 (setup_result info raw details merged ctx') c2 →
  hc_hooks c2 = hc_hooks c1 →
  (∃ c', at_ h' = Some c' ∧ is_running c' = true) ∧
  RunLifecycleHooks w2 probe2 (setup_result info raw details merged ctx') s1 =
  run_phase w2 c2 (Phase "postAttachCommands" "" (u_postAttachCommands (hc_hooks c2))) s1.
Proof.
  intros Hok Hnr Hc Hrun Hreuse Hw1 Hw2 Hcall1 Hhooks Hcr Hst Hne Hsne Hcall2 Hh.
  destruct (reuse_Ok _ _ _ _ _ _ Hok Hreuse Hc) as [(Hex & Hd) _]; [done|].
  split; [done|]. cbn in Hd. subst details.
  assert (hc_details c2 = c) as Hdet.
  { destruct Hcall2 as (m & cx & _ & _ & Hd & _). cbn in Hd. by injection Hd. }
  by apply (RunLifecycleHooks_again w1 w2 probe1 probe2 info1 _ c1 c2 s); rewrite ?Hdet, ?Hcr, ?Hst.
Qed.
End Runner.

(** ** A small driver *)

(** An engine that keeps the details of every workspace's container. *)
Notation small := (gmap string ContainerDetails).
Definition with_run (c : ContainerDetails) (status started : string) : ContainerDetails := {|
  cd_ID := cd_ID c; cd_Created := cd_Created c; cd_Status := status;
  cd_StartedAt := started; cd_Labels := cd_Labels c;
  cd_WorkingDir := cd_WorkingDir c; cd_LegacyUser := cd_LegacyUser c |}.
Definition fresh_details (id : string) : ContainerDetails := {|
  cd_ID := "container-of-" +:+ id; cd_Created := "monday"; cd_Status := "running";
  cd_StartedAt := "monday"; cd_Labels := ∅; cd_WorkingDir := ""; cd_LegacyUser := "" |}.
Definition small_update (f : small → small) : M (host small) unit :=
  modifyS (λ h, set_eng (f (h_eng h)) h).
Definition small_driver : Driver small := {|
  FindDevContainer := λ id, h ← getS; mret (h_eng h !! id);
  CommandDevContainer := λ _ _ _ _, mret "";
  RunDevContainer := λ id _, small_update (insert id (fresh_details id));
  TargetArchitecture := λ _, mret "amd64";
  DeleteDevContainer := λ id, small_update (delete id);
  StartDevContainer := λ id, h ← getS;
    match h_eng h !! id with
    | Some c => small_update (insert id (with_run c "running" "tuesday"))
    | None => throw "container not found"
    end;
  StopDevContainer := λ id, small_update (λ e,
    match e !! id with
    | Some c => <[id := with_run c "exited" (cd_StartedAt c)]> e
    | None => e
    end);
  GetDevContainerLogs := λ _, mret "";
  Reprovisions := None;
  AsDocker := None |}.
#[export] Existing Instance small_driver.

#[export] Instance small_containers : Containers small := {|
  engine_ok := λ _, True; container := λ e id, e !! id |}.
#[export] Instance small_lawful : Lawful small.
Proof.
  split; cbn; try done.
  - by intros id h c h' _ [= <- <-].
  - intros id h. unfold changes, mbind, M_bind. cbn. destruct (h_eng h !! id); cbn; [|done].
    intros _. split; [done|]. intros id' Hne. by rewrite lookup_insert_ne.
  - intros id h r h' _. unfold mbind, M_bind. cbn. destruct (h_eng h !! id) as [c|] eqn:Hc.
    + intros [= <- <-]. cbn. rewrite lookup_insert_eq. cbn. split; [done|]. eauto.
    + intros [= <- <-]. by rewrite Hc.
  - intros id h _. cbn. split; [done|]. intros id' Hne.
    destruct (h_eng h !! id); [by rewrite lookup_insert_ne|done].
  - intros id h r h' _ [= <- <-]. cbn. destruct (h_eng h !! id) as [c|] eqn:Hc.
    + rewrite lookup_insert_eq. split; [done|]. by intros _ c' [= <-].
    + by rewrite Hc.
  - intros id h _. cbn. split; [done|]. intros id' Hne. by rewrite lookup_delete_ne.
  - intros id h r h' _ [= <- <-]. cbn. rewrite lookup_delete_eq. auto.
  - intros id o h _. cbn. split; [done|]. intros id' Hne. by rewrite lookup_insert_ne.
  - intros id o h h' _ [= <-]. cbn. rewrite lookup_insert_eq. eauto.
Qed.

Lemma demo_quiet : quiet (demo_runner (E := small)) demo_agent.
Proof. split; intros; cbn in *; done. Qed.

Definition old_container : ContainerDetails := with_run (fresh_details "ws") "Exited" "sunday".
Definition demo_host (e : small) : host small := Host ∅ e.

Lemma missing_valid : valid_images (E := small) demo_runner demo_agent (demo_config "missing")
  demo_ctx (demo_up true).
Proof. split; [reflexivity|]. intros h b h' Hb. discriminate Hb. Qed.


Lemma Stop_Delete_outcome_witness :
  let h := demo_host {[ "ws" := fresh_details "ws" ]} in
  h_eng (Runner.Delete demo_runner demo_agent h).2 !! "ws" = None.
Proof.
  intros h. destruct (Runner.Delete demo_runner demo_agent h) as [r h'] eqn:Hd.
  destruct (Stop_Delete_outcome demo_runner demo_agent h r h' demo_quiet I) as [_ Hdel].
  { intros c. vm_compute. by intros [= <-]. }
  destruct (Hdel Hd) as (_ & _ & Hok). apply Hok.
  assert (r = (Runner.Delete demo_runner demo_agent h).1) as -> by (by rewrite Hd).
  vm_compute. reflexivity.
Defined.

(** A container with a postStart and a postAttach hook, set up on Sunday and
    stopped since. *)
Definition hooked_container : ContainerDetails := {|
  cd_ID := "c"; cd_Created := "saturday"; cd_Status := "exited"; cd_StartedAt := "sunday";
  cd_Labels := {[ ImageMetadataLabel := "hooks" ]}; cd_WorkingDir := ""; cd_LegacyUser := "" |}.
Definition hooked_merged : MergedDevContainerConfig :=
  match MergeConfiguration (sc_config (demo_config "debian")) [hooked] with
  | Ok m => m | _ => some_merged end.
Definition hooked_result : Result :=
  setup_result demo_agent (sc_raw (demo_config "debian")) (Some hooked_container) hooked_merged
    demo_ctx.
Definition hooked_call : hook_call :=
  HookCall "root" "/workspaces/ws" ∅ (mc_updated hooked_merged) hooked_container.
Definition set_up : Lifecycle.container :=
  (RunLifecycleHooks some_world no_probe hooked_result new_container).2.

Lemma hooked_call_of : call_of no_probe hooked_result hooked_call.
Proof. eexists _, _. by split_and!. Qed.

(** The first setup runs both hooks; the one after the restart only [status]. *)
Lemma restart_skips_postStart_witness :
  r_args <$> c_ran set_up = [["sh"; "-c"; "serve"]; ["sh"; "-c"; "status"]] ∧
  r_args <$> c_ran (RunLifecycleHooks some_world no_probe hooked_result set_up).2 =
    [["sh"; "-c"; "serve"]; ["sh"; "-c"; "status"]; ["sh"; "-c"; "status"]].
Proof.
  split; [reflexivity|].
  destruct (restart_skips_postStart demo_runner demo_agent (demo_config "debian") demo_ctx
    (sc_raw (demo_config "debian")) hooked_container (demo_host {[ "ws" := hooked_container ]})
    (Some hooked_container) hooked_merged demo_ctx
    (reuse_container demo_runner demo_agent (demo_config "debian") demo_ctx hooked_container
       (demo_host {[ "ws" := hooked_container ]})).2
    some_world some_world no_probe no_probe hooked_result hooked_call hooked_call new_container
    set_up) as [_ Hrun];
    [done|done|done|done|reflexivity|done|done|exact hooked_call_of|reflexivity|done|done|done|done
    |exact hooked_call_of|done|].
  unfold hooked_result at 1. rewrite Hrun. reflexivity.
Defined.
