(* ===== verification/DockerProps.v ===== *)
(** * The docker driver keeps its promises

    [DockerEngine] states what the documentation of the docker command line
    says of the commands DevPod runs.  Under it the driver of Docker.v is
    [Lawful]: it discharges the interface that the theorems of RunnerProps.v
    are proved against.  The other theorems are on the arguments of
    docker run, on the search for a container without label filters, and on
    the rewriting of /etc/passwd. *)

From S2P Require Import Prelude GoStrings GoRegexp Types Config Names DevContainer Dockerfile Lifecycle SshConfig SshConfigProps Substitute Provider Options Clients Driver Build Docker RunnerProps.
From stdpp Require Import base gmap list strings.
From Stdlib Require Import ZArith Lia.

Local Open Scope string_scope.
Local Open Scope list_scope.

(** ** The arguments of docker run as docker reads them *)

Section Cli.
(** which flags of [docker run] take their value from the next word *)
Context (takes_value : string → bool).

(** The labels in order; the first word that is no flag is the image. *)
Fixpoint cli_labels (args : list string) : list string :=
  match args with
  | [] => []
  | a :: rest =>
      if negb (HasPrefix a "-") then []
      else if takes_value a then
        match rest with
        | [] => []
        | v :: rest' =>
            (if decide (a = "-l" ∨ a = "--label") then [v] else []) ++ cli_labels rest'
        end
      else (if HasPrefix a "--label=" then [sdrop 8 a] else []) ++ cli_labels rest
  end.
End Cli.

(** A label that is given twice has its last value. *)
Definition add_label (m : gmap string string) (l : string) : gmap string string :=
  <[(Cut "=" l).1.1 := (Cut "=" l).1.2]> m.
Definition label_map (l : list string) : gmap string string := foldl add_label ∅ l.

(** The flags that DevPod gives values to, and those it does not. *)
Definition value_flags : list string :=
  ["-p"; "--mount"; "-u"; "-e"; "--userns"; "--cap-add"; "--security-opt"; "-l"; "--gpus";
   "--entrypoint"].
Definition plain_flags : list string := ["--sig-proxy=false"; "--privileged"; "-d"; "--gpus=all"].
Class CliFlags (takes_value : string → bool) : Prop := {
  cli_value : ∀ a, a ∈ value_flags → takes_value a = true;
  cli_plain : ∀ a, a ∈ plain_flags → takes_value a = false;
}.

Section Labels.
Context (tv : string → bool) `{!CliFlags tv}.

(** Words that docker reads as a whole, with the labels among them. *)
Definition reads (seg labels : list string) : Prop :=
  ∀ rest, cli_labels tv (seg ++ rest) = labels ++ cli_labels tv rest.

Lemma reads_nil : reads [] [].
Proof. done. Qed.
Lemma reads_app s1 l1 s2 l2 : reads s1 l1 → reads s2 l2 → reads (s1 ++ s2) (l1 ++ l2).
Proof. intros H1 H2 rest. by rewrite <-!(assoc_L app), H1, H2. Qed.
Lemma reads_value a v : a ∈ value_flags → a ≠ "-l" → reads [a; v] [].
Proof.
  intros Ha Hl rest. cbn [app cli_labels]. rewrite (cli_value (takes_value := tv) a Ha).
  assert (HasPrefix a "-" = true ∧ a ≠ "--label") as [-> ?].
  { clear Hl. unfold value_flags in Ha. repeat (apply elem_of_cons in Ha as [->|Ha]; [done|]).
    by apply elem_of_nil in Ha. }
  cbn [negb]. rewrite decide_False; [done|]. by intros [].
Qed.
Lemma reads_label v : reads ["-l"; v] [v].
Proof. intros rest. cbn. rewrite (cli_value (takes_value := tv) "-l") by set_solver. done. Qed.
Lemma reads_plain a : a ∈ plain_flags → reads [a] [].
Proof.
  intros Ha rest. cbn [app cli_labels]. rewrite (cli_plain (takes_value := tv) a Ha).
  unfold plain_flags in Ha. repeat (apply elem_of_cons in Ha as [->|Ha]; [done|]).
  by apply elem_of_nil in Ha.
Qed.
Lemma reads_bind {A} (f : A → list string) (g : A → list string) l :
  (∀ x, x ∈ l → reads (f x) (g x)) → reads (l ≫= f) (l ≫= g).
Proof.
  induction l as [|x l IH]; intros Hf; [apply reads_nil|]. cbn.
  apply reads_app; [apply Hf; left|]. apply IH. intros y Hy. apply Hf. by right.
Qed.
Lemma reads_none {A} (f : A → list string) l :
  (∀ x, x ∈ l → reads (f x) []) → reads (l ≫= f) [].
Proof.
  induction l as [|x l IH]; intros Hf; [apply reads_nil|]. cbn.
  apply (reads_app _ [] _ []); [apply Hf; left|]. apply IH. intros y Hy. apply Hf. by right.
Qed.
Lemma reads_flags name l : name ∈ value_flags → name ≠ "-l" → reads (flags name l) [].
Proof. intros Hn Hl. apply reads_none. intros v _. by apply reads_value. Qed.
Lemma reads_labels l : reads (flags "-l" l) l.
Proof.
  induction l as [|v l IH]; [apply reads_nil|]. apply (reads_app ["-l"; v] [v]); [|exact IH].
  apply reads_label.
Qed.

(** Words without a label flag: docker goes on behind them, or behind the word
    that follows and that it took for a value. *)
Lemma label_free_reads args rest : label_free args →
  cli_labels tv (args ++ rest) = [] ∨ cli_labels tv (args ++ rest) = cli_labels tv rest ∨
  cli_labels tv (args ++ rest) = cli_labels tv (tail rest).
Proof.
  remember (length args) as n eqn:Hn. revert args Hn.
  induction n as [n IH] using lt_wf_ind. intros args Hn Hfree.
  destruct args as [|a args]; [by right; left|].
  apply Forall_cons in Hfree as [[Ha Ha'] Hfree]. cbn [app cli_labels].
  destruct (negb (HasPrefix a "-")); [by left|].
  assert (a ≠ "-l" ∧ a ≠ "--label") as [Hl1 Hl2] by (split; intros ->; discriminate).
  assert (HasPrefix a "--label=" = false) as Hl3.
  { destruct (HasPrefix a "--label=") eqn:Hp; [|done].
    apply HasPrefix_spec in Hp as [x ->]. discriminate Ha'. }
  rewrite Hl3. destruct (tv a); [|by apply (IH (length args)); [cbn in Hn; lia|..]].
  destruct args as [|v args]; cbn [app].
  - destruct rest as [|x rest]; [by left|]. rewrite decide_False by (by intros []).
    by right; right.
  - rewrite decide_False by (by intros []). apply Forall_cons in Hfree as [_ ?].
    apply (IH (length args)); [cbn in Hn; lia|done..].
Qed.

Lemma label_free_none args rest : label_free args →
  cli_labels tv rest = [] → cli_labels tv (tail rest) = [] → cli_labels tv (args ++ rest) = [].
Proof. intros Hfree Hr Ht. by destruct (label_free_reads args rest Hfree) as [->|[->| ->]]. Qed.

Lemma label_map_other k l : ∀ m, Forall (λ x, (Cut "=" x).1.1 ≠ k) l →
  foldl add_label m l !! k = m !! k.
Proof.
  induction l as [|x l IH]; intros m Hl; [done|]. apply Forall_cons in Hl as [Hx Hl]. cbn.
  rewrite (IH _ Hl). unfold add_label. by rewrite lookup_insert_ne.
Qed.
Lemma Cut_key_value k v : free "=" k = true → Cut "=" (k +:+ "=" +:+ v) = (k, v, true).
Proof.
  induction k as [|c k IH]; [done|]. intros [Hc Hk]%free_cons. cbn.
  rewrite decide_False by done. specialize (IH Hk). cbn in IH. by rewrite IH.
Qed.

Lemma ide_reads ide : reads (ide_args ide) [].
Proof. unfold ide_args. case_bool_decide; [apply reads_value; [set_solver|done]|apply reads_nil]. Qed.
Lemma port_reads p : reads (port_args p) [].
Proof. unfold port_args. destruct (Atoi p); (apply reads_value; [set_solver|done]). Qed.
Lemma reads_if (P : Prop) `{!Decision P} s1 s2 :
  reads s1 [] → reads s2 [] → reads (if decide P then s1 else s2) [].
Proof. by case_decide. Qed.
Lemma reads_bool (b : bool) s1 s2 :
  reads s1 [] → reads s2 [] → reads (if b then s1 else s2) [].
Proof. by destruct b. Qed.
Lemma mount_reads {E} (w : docker_world E) d m h args h' :
  workspace_mount_args w d m h = (Ok args, h') → reads args [].
Proof.
  destruct m as [m|]; [|intros [= <- _]; apply reads_nil].
  unfold workspace_mount_args. intros (b & h1 & _ & [= <- _])%M_bind_Ok.
  apply reads_value; [set_solver|done].
Qed.
Lemma gpu_reads {E} (w : docker_world E) d req ra h args h' :
  gpu_args w d req ra h = (Ok args, h') → reads args [].
Proof.
  destruct req as [q|]; [|intros [= <- _]; apply reads_nil].
  unfold gpu_args. intros (b & h1 & _ & H)%M_bind_Ok.
  destruct (match ParseBool (hr_gpu q) with Some _ => _ | None => _ end) as [u e].
  injection H as <- _. apply (reads_app _ [] _ []); apply reads_bool;
    first [apply reads_nil|apply reads_value; [set_solver|done]|apply reads_plain; set_solver].
Qed.
Create HintDb reads.
Hint Resolve ide_reads port_reads reads_nil reads_if reads_bool : reads.

(** What follows the run arguments holds no label. *)
Lemma after_run_args o : HasPrefix (ro_Image o) "-" = false →
  let rest := (["-d"] ++ (if decide (ro_Entrypoint o = "") then []
                          else ["--entrypoint"; ro_Entrypoint o]) ++
               [ro_Image o] ++ ro_Cmd o) in
  cli_labels tv rest = [] ∧ cli_labels tv (tail rest) = [].
Proof.
  intros Hi rest. assert (cli_labels tv (tail rest) = []) as Ht.
  { subst rest. cbn [app tail]. case_decide; cbn [app].
    - cbn. by rewrite Hi.
    - etrans; [apply (reads_value "--entrypoint" (ro_Entrypoint o) ltac:(set_solver) ltac:(done)
        (ro_Image o :: ro_Cmd o))|]. cbn. by rewrite Hi. }
  split; [|done]. etrans; [exact (reads_plain "-d" ltac:(set_solver) (tail rest))|]. done.
Qed.

(** The arguments of docker run give the container exactly DevPod's labels, and
    the one that names the workspace among them. *)
Lemma run_args_labels {E} (w : docker_world E) d id o cfg ide h args h' :
  own_labels o cfg → run_args w d id o cfg ide h = (Ok args, h') →
  ∃ words, args = "run" :: words ∧
    cli_labels tv words = (DockerIDLabel +:+ "=" +:+ id) :: ro_Labels o ∧
    label_map (cli_labels tv words) !! DockerIDLabel = Some id.
Proof.
  intros (Hfree & Hi & Hown). unfold run_args.
  intros (nerd & h1 & _ & H)%M_bind_Ok. apply M_bind_Ok in H as (mount & h2 & Hm%mount_reads & H).
  apply M_bind_Ok in H as (pod & h3 & _ & H).
  apply M_bind_Ok in H as (gpu & h4 & Hg%gpu_reads & H).
  apply M_ret_Ok in H as [<- _].
  match goal with |- context [["run"] ++ ?ws] => exists ws end. split; [done|].
  match goal with |- cli_labels tv ?ws = ?ls ∧ _ => assert (cli_labels tv ws = ls) as Hl end.
  2: { split; [exact Hl|]. rewrite Hl. unfold label_map. cbn [foldl].
       rewrite label_map_other by done. unfold add_label.
       by rewrite Cut_key_value, lookup_insert_eq. }
  match goal with |- cli_labels tv (?s1 ++ ?s2 ++ mount ++ ?s3 ++ ?s4 ++ ?s5 ++ ?s6 ++ ?s7 ++
    ?s8 ++ ?s9 ++ ?s10 ++ flags "-l" ?l ++ gpu ++ ?ra ++ ?rest) = _ =>
    assert (Forall (λ s, reads s []) [s1; s2; mount; s3; s4; s5; s6; s7; s8; s9; s10])
      as Hall end.
  { repeat apply Forall_cons_2; try apply Forall_nil_2; auto with reads.
    - apply reads_bool; [apply reads_nil|apply reads_plain; set_solver].
    - apply reads_none. auto with reads.
    - apply reads_if; [apply reads_nil|apply reads_value; [set_solver|done]].
    - apply reads_none. intros kv _. apply reads_value; [set_solver|done].
    - apply reads_if; [apply reads_plain; set_solver|apply reads_nil].
    - apply reads_bool; [apply reads_value; [set_solver|done]|apply reads_nil].
    - apply reads_flags; [set_solver|done].
    - apply reads_flags; [set_solver|done].
    - apply reads_flags; [set_solver|done]. }
  repeat (apply Forall_cons in Hall as [Hs Hall]; rewrite Hs; clear Hs; cbn [app]).
  rewrite (reads_labels), Hg. cbn [app].
  destruct (after_run_args o Hi) as [Hr Ht].
  etrans; [apply (f_equal (app _)); exact (label_free_none _ _ Hfree Hr Ht)|].
  by rewrite app_nil_r.
Qed.
End Labels.

(** ** What docker does *)

(** Ids are short words of letters and digits; [ps] prints each on a line. *)
Definition container_id (s : string) : Prop :=
  s ≠ "" ∧ sforall is_alnum s = true ∧ (String.length s ≤ 64)%nat.
Definition id_lines (ids : list string) : string := GoStrings.Join (ids ++ [""]) newline.

Definition has_label (id : string) (c : ContainerDetails) : Prop :=
  cd_Labels c !! DockerIDLabel = Some id.
#[export] Instance has_label_dec id c : Decision (has_label id c).
Proof. unfold has_label. apply _. Defined.
Definition live (c : ContainerDetails) : Prop := ToLower (cd_Status c) ≠ "removing".

(** A container with the same id takes the place of the old one. *)
Definition replace_container (c : ContainerDetails) (l : list ContainerDetails)
    : list ContainerDetails :=
  (λ x, if decide (cd_ID x = cd_ID c) then c else x) <$> l.
Definition same_container (c c' : ContainerDetails) : Prop :=
  cd_ID c' = cd_ID c ∧ cd_Labels c' = cd_Labels c ∧ (live c → live c').

Section Engine.
Context {E : Type} (w : docker_world E) (d : DockerHelper) (tv : string → bool).
(** The details of all containers, in the order of [ps], and the id that [ps]
    prints for an id. *)
Context (listed : E → list ContainerDetails) (short : string → string).
Notation at_host h := (listed (h_eng h)).

Definition short_id (c : ContainerDetails) : string := short (cd_ID c).
Definition named_by (name : string) (c : ContainerDetails) : Prop :=
  name = cd_ID c ∨ name = short_id c.

(** The invariant: ids differ, and a workspace has at most one container that
    is not being removed. *)
Record containers_ok (l : list ContainerDetails) : Prop := {
  ok_nodup : NoDup (short_id <$> l);
  ok_ids : Forall container_id (short_id <$> l);
  ok_one : ∀ id c c', c ∈ l → c' ∈ l → has_label id c → has_label id c' →
    live c → live c' → cd_ID c = cd_ID c';
}.

(** Commands that concern no container, or change nothing of it that docker
    reports. *)
Definition quiet_verbs : list string :=
  ["ps"; "inspect"; "info"; "--version"; "cp"; "pull"; "buildx"; "tag"; "push"; "logs"].
Definition quiet_args (args : list string) : Prop :=
  match args with
  | verb :: rest =>
      verb ∈ quiet_verbs ∨
      (verb = "exec" ∧ (rest !! 3 = Some "chmod" ∨ rest !! 3 = Some "chown"))
  | [] => False
  end.

Class DockerEngine : Prop := {
  de_flags : CliFlags tv;
  (** a command returns, with its error among the output *)
  de_returns : ∀ args h, ∃ o h', buildCmd w d args h = (Ok o, h');
  de_quiet : ∀ args h o h', buildCmd w d args h = (Ok o, h') → quiet_args args →
    at_host h' = at_host h;
  de_buildkit : ∀ platform b h, at_host (dw_buildkit w platform b h).2 = at_host h;
  (** [ps] with a filter for a label *)
  de_ps : ∀ id h o h', containers_ok (at_host h) →
    buildCmd w d ["ps"; "-q"; "-a"; "--filter"; "label=" +:+ DockerIDLabel +:+ "=" +:+ id] h =
      (Ok o, h') →
    co_err o = None ∧ co_stdout o = id_lines (short_id <$> filter (has_label id) (at_host h));
  (** [inspect] of containers that exist prints their details *)
  de_inspect : ∀ names l h o h', containers_ok (at_host h) →
    Forall2 named_by names l → Forall (.∈ at_host h) l → l ≠ [] →
    buildCmd w d (["inspect"; "--type"; "container"] ++ names) h = (Ok o, h') →
    co_err o = None ∧ dw_containers w (co_stdout o) = inr l;
  (** [start] and [stop] change the state of one container *)
  de_start : ∀ c h o h', containers_ok (at_host h) → c ∈ at_host h →
    buildCmd w d ["start"; cd_ID c] h = (Ok o, h') →
    ∃ c', same_container c c' ∧ at_host h' = replace_container c' (at_host h) ∧
          (co_err o = None → is_running c' = true);
  de_stop : ∀ c h o h', containers_ok (at_host h) → c ∈ at_host h →
    buildCmd w d ["stop"; cd_ID c] h = (Ok o, h') →
    ∃ c', same_container c c' ∧ at_host h' = replace_container c' (at_host h) ∧
          (co_err o = None → is_running c' = false);
  (** [rm] removes one container, or fails *)
  de_rm : ∀ c h o h', containers_ok (at_host h) → c ∈ at_host h →
    buildCmd w d ["rm"; cd_ID c] h = (Ok o, h') →
    at_host h' = filter (λ x, cd_ID x ≠ cd_ID c) (at_host h) ∨
    (co_err o ≠ None ∧ at_host h' = at_host h);
  (** [run] adds one container with the labels it is given, or fails; it may
      fail after it added the container *)
  de_run : ∀ words h o h', containers_ok (at_host h) →
    buildCmd w d ("run" :: words) h = (Ok o, h') →
    (co_err o ≠ None ∧ at_host h' = at_host h) ∨
    ∃ c, at_host h' = c :: at_host h ∧ container_id (short_id c) ∧
         short_id c ∉ (short_id <$> at_host h) ∧ live c ∧
         label_map (cli_labels tv words) ⊆ cd_Labels c;
}.

(** The engine seen as the container of every workspace. *)
Definition shown (c : ContainerDetails) : ContainerDetails :=
  legacy_user (with_status c (ToLower (cd_Status c))).
Definition docker_container (l : list ContainerDetails) (id : string)
    : option ContainerDetails :=
  legacy_user <$> first_live (filter (has_label id) l).
Definition dockerContainers : Containers E := {|
  engine_ok := λ e, containers_ok (listed e);
  container := λ e, docker_container (listed e) |}.

(** *** Lists of containers *)

Lemma ToLower_idem s : ToLower (ToLower s) = ToLower s.
Proof.
  unfold ToLower. induction s as [|a s IH]; [done|]. cbn. rewrite IH. f_equal.
  destruct a as [[] [] [] [] [] [] [] []]; reflexivity.
Qed.
Lemma shown_ID c : cd_ID (shown c) = cd_ID c.
Proof. unfold shown, legacy_user. by case_decide. Qed.
Lemma shown_running c : is_running (shown c) = is_running c.
Proof.
  assert (cd_Status (shown c) = ToLower (cd_Status c)) as Hs.
  { unfold shown, legacy_user. by case_decide. }
  unfold is_running. by rewrite Hs, ToLower_idem.
Qed.

Lemma docker_container_spec l id :
  match docker_container l id with
  | Some x => ∃ c, c ∈ l ∧ has_label id c ∧ live c ∧ x = shown c
  | None => ∀ c, c ∈ l → has_label id c → ¬ live c
  end.
Proof.
  unfold docker_container, first_live, live.
  induction l as [|c l IH]; [intros c Hc; by apply elem_of_nil in Hc|].
  rewrite filter_cons. case_decide as Hl; cbn [List.find].
  - destruct (bool_decide_reflect (ToLower (cd_Status c) = "removing")) as [Hr|Hr]; cbn [negb].
    + destruct (legacy_user <$> _) as [x|].
      * destruct IH as (c' & ? & ?). exists c'. split; [by right|done].
      * intros c' [->|Hc']%elem_of_cons Hl'; [tauto|auto].
    + exists c. split; [left|done].
  - destruct (legacy_user <$> _) as [x|].
    + destruct IH as (c' & ? & ?). exists c'. split; [by right|done].
    + intros c' [->|Hc']%elem_of_cons Hl'; [tauto|auto].
Qed.
Lemma docker_container_Some l id x : docker_container l id = Some x →
  ∃ c, c ∈ l ∧ has_label id c ∧ live c ∧ x = shown c.
Proof. intros Hx. pose proof (docker_container_spec l id) as H. by rewrite Hx in H. Qed.

Lemma ok_same l c c' : containers_ok l → c ∈ l → c' ∈ l → cd_ID c = cd_ID c' → c = c'.
Proof.
  intros Hok Hc Hc' Hid. apply list_elem_of_lookup in Hc as [i Hi].
  apply list_elem_of_lookup in Hc' as [j Hj].
  assert (i = j) as ->.
  { eapply (NoDup_lookup (short_id <$> l)); [apply Hok|..]; rewrite list_lookup_fmap.
    - by rewrite Hi.
    - rewrite Hj. cbn. unfold short_id. by rewrite Hid. }
  congruence.
Qed.
Lemma docker_container_is l id c : containers_ok l → c ∈ l → has_label id c → live c →
  docker_container l id = Some (shown c).
Proof.
  intros Hok Hc Hl Hv. pose proof (docker_container_spec l id) as H.
  destruct (docker_container l id) as [x|]; [|by destruct (H c Hc Hl Hv)].
  destruct H as (c' & Hc' & Hl' & Hv' & ->).
  rewrite (ok_same l c' c Hok Hc' Hc); [done|]. by apply (ok_one l Hok id).
Qed.
Lemma docker_container_filter l l' id :
  filter (has_label id) l = filter (has_label id) l' → docker_container l id = docker_container l' id.
Proof. unfold docker_container. by intros ->. Qed.
Lemma has_label_inj id id' c : has_label id c → has_label id' c → id = id'.
Proof. unfold has_label. congruence. Qed.

(** A container changes its state. *)
Section Replace.
Context (l : list ContainerDetails) (id : string) (c c' : ContainerDetails).
Context (Hok : containers_ok l) (Hc : c ∈ l) (Hl : has_label id c) (Hv : live c).
Context (Hsame : same_container c c').

Lemma replace_elem x : x ∈ replace_container c' l → x = c' ∨ (x ∈ l ∧ cd_ID x ≠ cd_ID c).
Proof.
  intros (y & Hx & Hy)%list_elem_of_fmap. destruct Hsame as (Hid & _).
  case_decide as Hd; [by left|]. right. subst x. by rewrite <-Hid.
Qed.
Lemma replace_in : c' ∈ replace_container c' l.
Proof.
  apply list_elem_of_fmap. exists c. split; [|done]. destruct Hsame as (Hid & _).
  by rewrite decide_True.
Qed.
Lemma replace_label : has_label id c'.
Proof. unfold has_label. destruct Hsame as (_ & -> & _). done. Qed.
Lemma replace_ok : containers_ok (replace_container c' l).
Proof.
  assert (short_id <$> replace_container c' l = short_id <$> l) as Heq.
  { unfold replace_container. rewrite <-list_fmap_compose. apply list_fmap_ext. intros i x _.
    cbn. case_decide as Hd; [|done]. unfold short_id. by rewrite Hd. }
  split; [rewrite Heq; apply Hok..|]. destruct Hsame as (Hid & Hlab & _).
  assert (∀ i x, x ∈ l → has_label i x → has_label i c' → live x → cd_ID x = cd_ID c) as Hx.
  { intros i x Hx Hlx Hlc Hvx. apply (ok_one l Hok i); try done. unfold has_label in *.
    by rewrite <-Hlab. }
  intros i x y [->|[Hx1 Hx2]]%replace_elem [->|[Hy1 Hy2]]%replace_elem Hlx Hly Hvx Hvy;
    [done|symmetry; rewrite Hid; by apply (Hx i)|rewrite Hid; by apply (Hx i)|].
  by apply (ok_one l Hok i).
Qed.
Lemma replace_this : docker_container (replace_container c' l) id = Some (shown c').
Proof.
  apply docker_container_is; [apply replace_ok|apply replace_in|apply replace_label|].
  destruct Hsame as (_ & _ & H). auto.
Qed.
Lemma replace_other i : i ≠ id → docker_container (replace_container c' l) i = docker_container l i.
Proof.
  intros Hi. apply docker_container_filter. pose proof replace_label as Hl'.
  assert (∀ x, x ∈ l → cd_ID x = cd_ID c' → ¬ has_label i x) as Hno.
  { intros x Hx Hid Hlx. destruct Hsame as (Hid' & _). rewrite Hid' in Hid.
    apply (ok_same l x c Hok Hx Hc) in Hid as ->. by apply Hi, (has_label_inj _ _ c). }
  clear -Hno Hi Hl'. unfold replace_container. induction l as [|x k IH]; [done|].
  cbn [fmap list_fmap]. rewrite !filter_cons.
  rewrite (IH ltac:(intros y Hy; apply Hno; by right)).
  destruct (decide (cd_ID x = cd_ID c')) as [Hd|]; [|done].
  rewrite decide_False by (intros H; apply Hi; by apply (has_label_inj _ _ c')).
  rewrite decide_False; [done|]. apply Hno; [left|done].
Qed.
End Replace.

(** A container is removed. *)
Section Removed.
Context (l : list ContainerDetails) (id : string) (c : ContainerDetails).
Context (Hok : containers_ok l) (Hc : c ∈ l) (Hl : has_label id c) (Hv : live c).
Notation rest := (filter (λ x, cd_ID x ≠ cd_ID c) l).

Lemma removed_ok : containers_ok rest.
Proof.
  split.
  - eapply sublist_NoDup; [apply Hok|apply fmap_sublist, sublist_filter].
  - apply Forall_fmap, Forall_forall. intros x [_ Hx]%list_elem_of_filter.
    pose proof (ok_ids l Hok) as Hids. rewrite Forall_fmap, Forall_forall in Hids. by apply Hids.
  - intros i x y [_ Hx]%list_elem_of_filter [_ Hy]%list_elem_of_filter. by apply (ok_one l Hok).
Qed.
Lemma removed_this : docker_container rest id = None.
Proof.
  destruct (docker_container rest id) as [x|] eqn:Hx; [|done].
  apply docker_container_Some in Hx as (y & [Hne Hy]%list_elem_of_filter & Hly & Hvy & _).
  destruct Hne. by apply (ok_one l Hok id).
Qed.
Lemma removed_other i : i ≠ id → docker_container rest i = docker_container l i.
Proof.
  intros Hi. apply docker_container_filter. rewrite list_filter_filter.
  apply list_filter_ext_in. intros x Hx. split; [by intros []|]. intros Hlx. split; [done|]. intros Hid.
  apply (ok_same l x c Hok Hx Hc) in Hid as ->. by apply Hi, (has_label_inj _ _ c).
Qed.
End Removed.

(** A container is added. *)
Section Added.
Context (l : list ContainerDetails) (id : string) (c : ContainerDetails).
Context (Hok : containers_ok l) (Hnone : docker_container l id = None).
Context (Hid : container_id (short_id c)) (Hnew : short_id c ∉ (short_id <$> l)).
Context (Hl : has_label id c) (Hv : live c).

Lemma added_ok : containers_ok (c :: l).
Proof.
  pose proof (docker_container_spec l id) as Hspec. rewrite Hnone in Hspec.
  assert (∀ i x, x ∈ l → has_label i x → has_label i c → live x → False) as Hno.
  { intros i x Hx Hlx Hlc Hvx. rewrite (has_label_inj i id c Hlc Hl) in Hlx.
    by apply (Hspec x Hx Hlx). }
  split; [constructor; [done|apply Hok]|constructor; [done|apply Hok]|].
  intros i x y [->|Hx]%elem_of_cons [->|Hy]%elem_of_cons Hlx Hly Hvx Hvy;
    [done|by destruct (Hno i y)|by destruct (Hno i x)|]. by apply (ok_one l Hok i).
Qed.
Lemma added_this : is_Some (docker_container (c :: l) id).
Proof.
  rewrite (docker_container_is _ id c added_ok); [eauto|left|done|done].
Qed.
Lemma added_other i : i ≠ id → docker_container (c :: l) i = docker_container l i.
Proof.
  intros Hi. apply docker_container_filter. rewrite filter_cons, decide_False; [done|].
  intros Hlc. by apply Hi, (has_label_inj _ _ c).
Qed.
End Added.

(** *** Commands that leave the containers alone *)

#[local] Existing Instance dockerContainers.
Context `{!DockerEngine}.

Lemma same_listed h h' : at_host h' = at_host h → unchanged h h'.
Proof. intros Heq Hok. cbn in *. by rewrite Heq. Qed.
Lemma same_cmd args : quiet_args args → stays unchanged (buildCmd w d args).
Proof.
  intros Hq h. destruct (de_returns args h) as (o & h' & Hrun). rewrite Hrun. cbn.
  apply same_listed. by eapply de_quiet.
Qed.
Lemma same_Output args : quiet_args args → stays unchanged (Output w d args).
Proof. intros Hq. apply same_cmd in Hq. unfold Output. stays. Qed.
Lemma same_Run args : quiet_args args → stays unchanged (Docker.Run w d args).
Proof. intros Hq. apply same_cmd in Hq. unfold Docker.Run. stays. Qed.

Ltac quiet_command := cbn; unfold quiet_verbs; set_solver.
Hint Resolve same_Output same_Run : stays.
Hint Extern 1 (quiet_args _) => quiet_command : stays.

Lemma same_IsPodman : stays unchanged (IsPodman w d).
Proof. unfold IsPodman. stays. Qed.
Lemma same_IsNerdctl : stays unchanged (IsNerdctl w d).
Proof. unfold IsNerdctl. stays. Qed.
Lemma same_GPU : stays unchanged (GPUSupportEnabled w d).
Proof. unfold GPUSupportEnabled. stays. Qed.
Lemma same_Inspect {A} (decode : _ → _ + A) ids ty : stays unchanged (Inspect w d decode ids ty).
Proof. unfold Inspect. stays. Qed.
Hint Resolve same_IsPodman same_IsNerdctl same_GPU same_Inspect : stays.
Lemma same_InspectImage image remote : stays unchanged (InspectImage_ w d image remote).
Proof. unfold InspectImage_. stays. Qed.
Hint Resolve same_InspectImage : stays.
Lemma same_EnsureImage image : stays unchanged (EnsureImage w d image).
Proof. unfold EnsureImage, Pull. stays. Qed.
Lemma same_run_args id o cfg ide : stays unchanged (run_args w d id o cfg ide).
Proof.
  unfold run_args, workspace_mount_args, gpu_args. cbv zeta. stays.
Qed.
Lemma same_FindContainerByID ids : stays unchanged (FindContainerByID w d ids).
Proof. unfold FindContainerByID, InspectContainers. stays. Qed.
Hint Resolve same_EnsureImage same_run_args same_FindContainerByID : stays.

Lemma same_find_json labels : ∀ ids, stays unchanged (find_json w d labels ids).
Proof.
  induction ids as [|id ids IH]; [by apply stays_ret; exact _|]. cbn [find_json].
  unfold InspectContainers. stays.
Qed.
Hint Resolve same_find_json : stays.
Lemma same_FindContainer labels : stays unchanged (FindContainer w d labels).
Proof. unfold FindContainer, FindContainerJSON. stays. Qed.
Hint Resolve same_FindContainer : stays.
Lemma same_Find id : stays unchanged (docker_Find w d id).
Proof. unfold docker_Find, FindByLabels. stays. Qed.
Hint Resolve same_Find : stays.

Hint Resolve same_ReadFile same_WriteFile same_RewriteDockerfile : stays.
Lemma same_rewrite_passwd u uid gid i o : stays unchanged (rewrite_passwd w u uid gid i o).
Proof. unfold rewrite_passwd, MustCompile, append_file. stays. Qed.
Lemma same_rewrite_group g gid i o : stays unchanged (rewrite_group w g gid i o).
Proof. unfold rewrite_group, MustCompile, append_file. stays. Qed.
Hint Resolve same_rewrite_passwd same_rewrite_group : stays.
Lemma same_copy_ids_back id uid gid home p g :
  stays unchanged (copy_ids_back w d id uid gid home p g).
Proof. unfold copy_ids_back. stays. Qed.
Lemma same_with_temp {A} pattern (k : string → M (host E) A) :
  (∀ name, stays unchanged (k name)) → stays unchanged (with_temp w pattern k).
Proof.
  intros Hk h. unfold with_temp. destruct (dw_temp w pattern) as [e|name]; [done|].
  specialize (Hk name (set_fs (<[name := ""]> (h_fs h)) h)).
  destruct (k name _) as [r h']. exact Hk.
Qed.
Hint Resolve same_copy_ids_back same_with_temp : stays.
Lemma same_update_ids id user : stays unchanged (update_ids w d id user).
Proof.
  unfold update_ids. apply stays_bind; [exact _|auto with stays typeclass_instances|].
  intros [uid gid]. apply stays_bind; [exact _|auto with stays typeclass_instances|].
  intros [c|]; [|stays]. do 4 (apply same_with_temp; intros ?). stays.
Qed.
Lemma same_buildxBuild platform b : stays unchanged (buildxBuild w d platform b).
Proof. unfold buildxBuild. stays. Qed.
Hint Resolve same_buildxBuild : stays.
Lemma same_docker_Build hash cfg ext path content folder o :
  stays unchanged (docker_Build w d hash cfg ext path content folder o).
Proof.
  assert (∀ p b, stays unchanged (dw_buildkit w p b)) as Hb.
  { intros p b h. apply same_listed, de_buildkit. }
  unfold docker_Build, local_image, build_image, buildxExists, NewOptions. cbv zeta.
  stays.
Qed.
Hint Resolve same_update_ids same_docker_Build : stays.

(** *** Finding a container *)

Lemma trim_left_none p s : sforall (λ c, negb (p c)) s = true → trim_left p s = s.
Proof. destruct s as [|c s]; [done|]. cbn. by destruct (p c). Qed.
Lemma trim_right_none p s : sforall (λ c, negb (p c)) s = true → trim_right p s = s.
Proof.
  induction s as [|c s IH]; [done|]. cbn. intros [Hc Hs]%andb_true_iff. rewrite (IH Hs).
  apply negb_true_iff in Hc. rewrite Hc. by destruct s.
Qed.
Lemma container_id_word s : container_id s →
  TrimSpace s = s ∧ newline_free s ∧ fit 1048576 s.
Proof.
  intros (_ & Hs & Hlen). assert (sforall (λ c, negb (is_space c)) s = true) as Hsp.
  { eapply sforall_impl; [|exact Hs]. intros []. by destruct b, b0, b1, b2, b3, b4, b5, b6. }
  split_and!.
  - unfold TrimSpace, trim_by. by rewrite trim_left_none, trim_right_none.
  - unfold newline_free, free. eapply sforall_impl; [|exact Hs].
    intros []. by destruct b, b0, b1, b2, b3, b4, b5, b6.
  - unfold fit, fits. apply N.ltb_lt. lia.
Qed.
Lemma ids_scanned ids : Forall container_id ids →
  TrimSpace <$> (log_scan (id_lines ids)).1 = ids.
Proof.
  intros Hids. assert (drop_last_empty (ids ++ [""]) = ids) as Hd.
  { clear Hids. induction ids as [|x [|y l] IH]; [done..|].
    change (x :: drop_last_empty ((y :: l) ++ [""]) = x :: y :: l). by rewrite IH. }
  assert (Forall newline_free (ids ++ [""])) as Hn.
  { apply Forall_app_2; [|by repeat constructor]. eapply Forall_impl; [exact Hids|].
    intros s Hs. by apply container_id_word. }
  unfold log_scan, id_lines. rewrite text_lines_Join, Hd by done. rewrite scan_fits.
  2: { eapply Forall_impl; [exact Hids|]. intros s Hs. by apply container_id_word. }
  cbn [fst]. clear -Hids. induction Hids as [|s l Hs _ IH]; [done|]. cbn. rewrite IH.
  f_equal. by apply container_id_word.
Qed.

Lemma Output_Ok args h o h' : buildCmd w d args h = (Ok o, h') → co_err o = None →
  Output w d args h = (Ok (co_stdout o), h').
Proof. intros Hrun He. unfold Output. rewrite (run_Ok _ _ _ _ _ Hrun). by rewrite He. Qed.

Lemma inspected names l h : containers_ok (at_host h) →
  Forall2 named_by names l → Forall (.∈ at_host h) l → l ≠ [] →
  ∃ h', InspectContainers w d names h = (Ok l, h') ∧ at_host h' = at_host h.
Proof.
  intros Hok Hn Hin Hne.
  destruct (de_returns (["inspect"; "--type"; "container"] ++ names) h) as (o & h' & Hrun).
  destruct (de_inspect names l h o h' Hok Hn Hin Hne Hrun) as [He Hd]. exists h'.
  split; [|apply (de_quiet _ _ _ _ Hrun); quiet_command]. unfold InspectContainers, Inspect.
  rewrite (run_Ok _ _ _ _ _ (caught_Ok _ _ _ _ (Output_Ok _ _ _ _ Hrun He))).
  by rewrite Hd.
Qed.
Lemma FindContainerByID_Ok names l h : containers_ok (at_host h) →
  Forall2 named_by names l → Forall (.∈ at_host h) l → l ≠ [] →
  ∃ h', FindContainerByID w d names h = (Ok (first_live l), h') ∧ at_host h' = at_host h.
Proof.
  intros Hok Hn Hin Hne. destruct (inspected names l h Hok Hn Hin Hne) as (h' & Hi & Hs).
  exists h'. split; [|done]. unfold FindContainerByID. by rewrite (run_Ok _ _ _ _ _ Hi).
Qed.

(** [ps] with the filter of the workspace *)
Lemma FindContainer_Ok id h : containers_ok (at_host h) →
  ∃ h', FindContainer w d [DockerIDLabel +:+ "=" +:+ id] h =
        (Ok (short_id <$> filter (has_label id) (at_host h)), h') ∧ at_host h' = at_host h.
Proof.
  intros Hok. destruct (de_returns ["ps"; "-q"; "-a"; "--filter";
    "label=" +:+ DockerIDLabel +:+ "=" +:+ id] h) as (o & h' & Hrun).
  destruct (de_ps id h o h' Hok Hrun) as [He Ho]. exists h'.
  split; [|apply (de_quiet _ _ _ _ Hrun); quiet_command]. unfold FindContainer. cbv zeta.
  etrans; [exact (run_Ok _ _ _ _ _ (caught_Ok _ _ _ _ (Output_Ok _ _ _ _ Hrun He)))|].
  cbv beta iota. rewrite Ho, ids_scanned; [done|]. apply Forall_fmap, Forall_forall.
  intros c [_ Hc]%list_elem_of_filter. pose proof (ok_ids _ Hok) as Hids.
  rewrite Forall_fmap, Forall_forall in Hids. by apply Hids.
Qed.

Context (Hid : dh_ContainerID d = "").

Lemma Find_Ok id h : containers_ok (at_host h) →
  ∃ h', docker_Find w d id h = (Ok (docker_container (at_host h) id), h') ∧
        at_host h' = at_host h.
Proof.
  intros Hok. destruct (FindContainer_Ok id h Hok) as (h1 & Hf & Hs1).
  unfold docker_Find. rewrite decide_False by (rewrite Hid; tauto).
  assert (∀ k : _ → M (host E) (option ContainerDetails),
    (caught (FindContainer w d [DockerIDLabel +:+ "=" +:+ id]) ≫= λ c,
     liftR (wrap "docker ps" c) ≫= k) h =
    k (short_id <$> filter (has_label id) (at_host h)) h1) as Hps.
  { intros k. rewrite (run_Ok _ _ _ _ _ (caught_Ok _ _ _ _ Hf)). done. }
  assert (∃ h', FindByLabels w d [DockerIDLabel +:+ "=" +:+ id] h =
    (Ok (first_live (filter (has_label id) (at_host h))), h') ∧ at_host h' = at_host h)
    as (h' & Hb & Hs').
  { unfold FindByLabels. rewrite Hps.
    destruct (filter (has_label id) (at_host h)) as [|c l] eqn:Hfil; [by exists h1|].
    rewrite <-Hs1 in Hok.
    destruct (FindContainerByID_Ok (short_id <$> c :: l) (c :: l) h1 Hok) as (h' & Hb & Hs');
      [| |done|exists h'; split; [exact Hb|congruence]].
    - apply Forall2_fmap_l, Forall_Forall2_diag, Forall_true. by right.
    - apply Forall_forall. intros x Hx. rewrite <-Hfil in Hx.
      apply list_elem_of_filter in Hx as [_ Hx]. by rewrite Hs1. }
  exists h'. split; [|done]. by rewrite (run_Ok _ _ _ _ _ Hb).
Qed.

(** *** The operations of the driver *)

Lemma found_inv id k h r h' : containers_ok (at_host h) → found w d id k h = (r, h') →
  ∃ h1, at_host h1 = at_host h ∧
    ((docker_container (at_host h) id = None ∧ h' = h1 ∧ r ≠ Ok ()) ∨
     ∃ c, c ∈ at_host h ∧ has_label id c ∧ live c ∧ k (shown c) h1 = (r, h')).
Proof.
  intros Hok. destruct (Find_Ok id h Hok) as (h1 & Hf & Hs). unfold found.
  rewrite (run_Ok _ _ _ _ _ Hf). destruct (docker_container _ id) as [x|] eqn:Hx.
  - apply docker_container_Some in Hx as (c & Hc & Hl & Hv & ->). intros Hk. exists h1.
    split; [done|]. right. eauto.
  - intros [= <- <-]. exists h1. split; [done|]. by left.
Qed.

(** The container of one workspace is in a new state. *)
Definition moved (id : string) (h h' : host E) (P : ContainerDetails → Prop) : Prop :=
  ∃ c c', c ∈ at_host h ∧ has_label id c ∧ live c ∧ same_container c c' ∧
    at_host h' = replace_container c' (at_host h) ∧ P c'.
Lemma moved_laws id h h' P : containers_ok (at_host h) → moved id h h' P →
  changes id h h' ∧
  cd_ID <$> docker_container (at_host h') id = cd_ID <$> docker_container (at_host h) id ∧
  ∃ c', docker_container (at_host h') id = Some (shown c') ∧ P c'.
Proof.
  intros Hok (c & c' & Hc & Hl & Hv & Hsame & Heq & HP).
  pose proof (replace_this _ id c c' Hok Hc Hl Hv Hsame) as Hthis. split_and!.
  - intros _. cbn. rewrite Heq. split; [by eapply replace_ok|]. intros i Hi.
    by apply (replace_other _ id c).
  - rewrite Heq, Hthis, (docker_container_is _ id c) by done. cbn. rewrite !shown_ID.
    destruct Hsame as [-> _]. done.
  - exists c'. by rewrite Heq.
Qed.
Lemma absent_laws id h h' : docker_container (at_host h) id = None →
  at_host h' = at_host h → changes id h h' ∧ docker_container (at_host h') id = None.
Proof. intros Hn Hs. split; [|by rewrite Hs]. intros Hok. cbn in *. by rewrite Hs. Qed.

Lemma CombinedOutput_run {A} args (k : result string → M (host E) A) h o h1 :
  buildCmd w d args h = (Ok o, h1) →
  (caught (CombinedOutput w d args) ≫= k) h =
  k (match co_err o with
     | Some e => Err (co_combined o +:+ ": " +:+ e)
     | None => Ok (co_combined o)
     end) h1.
Proof.
  intros Hrun. unfold CombinedOutput, caught, mbind, M_bind. rewrite Hrun.
  by destruct (co_err o).
Qed.
Lemma CombinedOutput_unit args h o h1 : buildCmd w d args h = (Ok o, h1) →
  ∃ r, (CombinedOutput w d args ≫= λ _, mret ()) h = (r, h1) ∧ (r = Ok () ↔ co_err o = None).
Proof.
  intros Hrun. unfold CombinedOutput, mbind, M_bind. rewrite Hrun.
  destruct (co_err o); (eexists; split; [reflexivity|done]).
Qed.

Lemma Start_inv id h r h' : containers_ok (at_host h) → docker_Start w d id h = (r, h') →
  (docker_container (at_host h) id = None ∧ at_host h' = at_host h ∧ r ≠ Ok ()) ∨
  moved id h h' (λ c', r = Ok () → is_running c' = true).
Proof.
  intros Hok (h1 & Hs1 & [(Hn & -> & Hr)|(c & Hc & Hl & Hv & Hk)])%found_inv; [by left| |done].
  right. rewrite shown_ID in Hk. unfold moved. rewrite <-Hs1. rewrite <-Hs1 in Hok, Hc.
  destruct (de_returns ["start"; cd_ID c] h1) as (o & h2 & Hrun).
  destruct (de_start c h1 o h2 Hok Hc Hrun) as (c' & Hsame & Heq & Hr).
  exists c, c'. split; [done|]. split; [done|]. split; [done|]. split; [done|].
  unfold StartContainer in Hk. rewrite (CombinedOutput_run _ _ _ _ _ Hrun) in Hk.
  destruct (co_err o) as [e|]; [by injection Hk as <- <-|].
  destruct (FindContainerByID_Ok [cd_ID c] [c'] h2) as (h3 & Hf & Hs3); [| | |done|].
  - rewrite Heq. by eapply replace_ok.
  - constructor; [|done]. left. by destruct Hsame.
  - rewrite Heq. constructor; [|done]. by eapply replace_in.
  - cbn in Hk. rewrite run_lift_Ok, (run_Ok _ _ _ _ _ Hf) in Hk. cbn in Hk.
    destruct Hsame as (_ & _ & Hv'). rewrite bool_decide_false in Hk by (by apply Hv').
    injection Hk as <- <-. rewrite Hs3. auto.
Qed.
Lemma Stop_inv id h r h' : containers_ok (at_host h) → docker_Stop w d id h = (r, h') →
  (docker_container (at_host h) id = None ∧ at_host h' = at_host h ∧ r ≠ Ok ()) ∨
  moved id h h' (λ c', r = Ok () → is_running c' = false).
Proof.
  intros Hok (h1 & Hs1 & [(Hn & -> & Hr)|(c & Hc & Hl & Hv & Hk)])%found_inv; [by left| |done].
  right. rewrite shown_ID in Hk. unfold moved. rewrite <-Hs1. rewrite <-Hs1 in Hok, Hc.
  destruct (de_returns ["stop"; cd_ID c] h1) as (o & h2 & Hrun).
  destruct (de_stop c h1 o h2 Hok Hc Hrun) as (c' & Hsame & Heq & Hr).
  destruct (CombinedOutput_unit _ _ _ _ Hrun) as (r' & Hrun' & Hr').
  unfold Stop in Hk. rewrite Hrun' in Hk. injection Hk as -> ->. exists c, c'. naive_solver.
Qed.

(** The container of one workspace is gone. *)
Definition removed (id : string) (h h' : host E) : Prop :=
  ∃ c, c ∈ at_host h ∧ has_label id c ∧ live c ∧
    at_host h' = filter (λ x, cd_ID x ≠ cd_ID c) (at_host h).
Lemma removed_laws id h h' : containers_ok (at_host h) → removed id h h' →
  changes id h h' ∧ docker_container (at_host h') id = None.
Proof.
  intros Hok (c & Hc & Hl & Hv & Heq). split; [|rewrite Heq; by apply removed_this].
  intros _. cbn. rewrite Heq. split; [by apply removed_ok|]. intros i Hi.
  by apply (removed_other _ id c).
Qed.
Lemma Delete_inv id h r h' : containers_ok (at_host h) → docker_Delete w d id h = (r, h') →
  removed id h h' ∨
  (at_host h' = at_host h ∧ (r = Ok () → docker_container (at_host h) id = None)).
Proof.
  intros Hok. destruct (Find_Ok id h Hok) as (h1 & Hf & Hs1). unfold docker_Delete.
  rewrite (run_Ok _ _ _ _ _ Hf). destruct (docker_container _ id) as [x|] eqn:Hx.
  2: { intros [= <- <-]. by right. }
  apply docker_container_Some in Hx as (c & Hc & Hl & Hv & ->). rewrite shown_ID.
  unfold removed. rewrite <-Hs1. rewrite <-Hs1 in Hok, Hc.
  destruct (de_returns ["rm"; cd_ID c] h1) as (o & h2 & Hrun).
  destruct (CombinedOutput_unit _ _ _ _ Hrun) as (r' & Hrun' & Hr').
  unfold Docker.Remove. rewrite Hrun'. intros [= -> ->].
  destruct (de_rm c h1 o h' Hok Hc Hrun) as [Heq|[He Heq]]; [left; by exists c|].
  right. split; [done|]. intros Hr. by apply Hr' in Hr.
Qed.

(** The command that [run_args] builds. *)
Lemma run_cmd id o cfg ide h0 args h0' h r h' :
  own_labels o cfg → run_args w d id o cfg ide h0 = (Ok args, h0') →
  containers_ok (at_host h) → docker_container (at_host h) id = None →
  Docker.Run w d args h = (r, h') →
  changes id h h' ∧ (r = Ok () → is_Some (docker_container (at_host h') id)).
Proof.
  intros Hown Hargs Hok Hn. pose proof de_flags.
  destruct (run_args_labels tv _ _ _ _ _ _ _ _ _ Hown Hargs) as (words & -> & _ & Hlab).
  destruct (de_returns ("run" :: words) h) as (out & h1 & Hrun). unfold Docker.Run.
  rewrite (run_Ok _ _ _ _ _ Hrun). intros Hres.
  assert (h' = h1 ∧ (r = Ok () → co_err out = None)) as [-> Hr].
  { destruct (co_err out); injection Hres as <- <-; done. }
  destruct (de_run words h out h1 Hok Hrun) as [[He Hs]|(c & Heq & Hc & Hnew & Hv & Hsub)].
  - destruct (absent_laws id h h1 Hn Hs) as [? _]. split; [done|]. intros ?%Hr. done.
  - assert (has_label id c) as Hl by (by eapply lookup_weaken).
    split; [|intros _; rewrite Heq; by apply added_this].
    intros _. cbn. rewrite Heq. split; [by apply (added_ok _ id)|]. intros i Hi.
    by apply (added_other _ id).
Qed.
Lemma unchanged_container id h h' : unchanged h h' → containers_ok (at_host h) →
  containers_ok (at_host h') ∧ docker_container (at_host h') id = docker_container (at_host h) id.
Proof. intros Hu Hok. destruct (Hu Hok) as [? Hs]. split; [done|]. apply Hs. Qed.

Lemma Run_inv id o cfg init ide h r h' : own_labels o cfg → containers_ok (at_host h) →
  docker_container (at_host h) id = None →
  docker_Run w d id o cfg init ide h = (r, h') →
  changes id h h' ∧ (r = Ok () → is_Some (docker_container (at_host h') id)).
Proof.
  intros Hown Hok Hn. unfold docker_Run. unfold mbind at 1, M_bind at 1.
  pose proof (same_EnsureImage (ro_Image o) h) as Hu1.
  destruct (EnsureImage w d (ro_Image o) h) as [r1 h1]. cbn in Hu1.
  destruct (unchanged_container id _ _ Hu1 Hok) as [Hok1 Hn1].
  assert (changes id h h1) as Hc1 by (intros _; by destruct (Hu1 Hok)).
  destruct r1; [|intros [= <- <-]; by split..]. unfold mbind at 1, M_bind at 1.
  pose proof (same_run_args id o cfg ide h1) as Hu2.
  destruct (run_args w d id o cfg ide h1) as [r2 h2] eqn:Hargs. cbn in Hu2.
  destruct (unchanged_container id _ _ Hu2 Hok1) as [Hok2 Hn2].
  assert (changes id h h2) as Hc2.
  { etrans; [exact Hc1|]. intros _. by destruct (Hu2 Hok1). }
  destruct r2 as [args| | |]; [|intros [= <- <-]; by split..]. unfold mbind, M_bind.
  destruct (Docker.Run w d args h2) as [r3 h3] eqn:Hrun.
  destruct (run_cmd _ _ _ _ _ _ _ _ _ _ Hown Hargs Hok2 ltac:(congruence) Hrun) as [Hc3 Hex].
  assert (changes id h h3) as Hc by (by etrans). destruct (Hc Hok) as [Hok3 _].
  destruct r3 as [[]| | |]; [|intros [= <- <-]; by split..]. specialize (Hex eq_refl).
  destruct (wants_update w cfg); [|intros [= <- <-]; auto]. intros Hup.
  assert (unchanged h3 h') as Hu4.
  { pose proof (same_update_ids id (if decide (b_remoteUser (dc_base cfg) = "")
      then n_containerUser (dc_nonCompose cfg) else b_remoteUser (dc_base cfg)) h3) as Hu.
    by rewrite Hup in Hu. }
  destruct (unchanged_container id _ _ Hu4 Hok3) as [_ ->]. split; [|done].
  etrans; [exact Hc|]. intros _. by destruct (Hu4 Hok3).
Qed.

(** *** Finding a container without filters *)

(** [ps] without a filter prints all ids, and no container has an empty name. *)
Class ListsAll : Prop := {
  la_ps : ∀ h o h', containers_ok (at_host h) → buildCmd w d ["ps"; "-q"; "-a"] h = (Ok o, h') →
    co_err o = None ∧ co_stdout o = id_lines (short_id <$> at_host h);
  la_empty : ∀ h o h', containers_ok (at_host h) → buildCmd w d ["inspect"; "--type"; "container"; ""] h = (Ok o, h') →
    co_err o ≠ None;
}.

Lemma label_matches_id id c : id ≠ "" → free "=" id = true →
  label_matches (cd_Labels c) true (DockerIDLabel +:+ "=" +:+ id) = bool_decide (has_label id c).
Proof.
  intros Hne Hf. unfold label_matches, has_label.
  assert (Split "=" (DockerIDLabel +:+ "=" +:+ id) = [DockerIDLabel; id]) as ->.
  { change (DockerIDLabel +:+ "=" +:+ id) with (DockerIDLabel +:+ String "=" id).
    rewrite Split_app by done. by rewrite (Split_free _ _ Hf). }
  change (bool_decide (default "" (cd_Labels c !! DockerIDLabel) = id) =
          bool_decide (cd_Labels c !! DockerIDLabel = Some id)).
  apply bool_decide_ext. destruct (cd_Labels c !! DockerIDLabel) as [v|]; cbn; naive_solver.
Qed.

Lemma find_json_Ok id l h : id ≠ "" → free "=" id = true → containers_ok (at_host h) →
  Forall (.∈ at_host h) l →
  ∃ h', find_json w d [DockerIDLabel +:+ "=" +:+ id] (short_id <$> l) h =
        (Ok (short_id <$> filter (has_label id) l), h') ∧ at_host h' = at_host h.
Proof.
  clear Hid. intros Hne Hf. revert h.
  induction l as [|c l IH]; intros h Hok Hin; [by exists h|].
  apply Forall_cons in Hin as [Hc Hl]. cbn [fmap list_fmap find_json].
  assert (TrimSpace (short_id c) = short_id c) as ->.
  { apply container_id_word. pose proof (ok_ids _ Hok) as Hids.
    rewrite Forall_fmap, Forall_forall in Hids. by apply Hids. }
  destruct (inspected [short_id c] [c] h Hok) as (h1 & Hi & Hs1).
  { constructor; [by right|done]. } { by constructor. } { done. }
  destruct (IH h1) as (h2 & Hj & Hs2); [by rewrite Hs1..|]. exists h2. split; [|congruence].
  rewrite (run_Ok _ _ _ _ _ (caught_Ok _ _ _ _ Hi)).
  etrans; [apply (run_Ok _ _ _ (bool_decide (has_label id c)) h1)|].
  { etrans; [apply (run_Ok _ _ _ c h1); done|]. cbv beta. cbn [foldl].
    by rewrite label_matches_id. }
  rewrite (run_Ok _ _ _ _ _ Hj), filter_cons.
  case_bool_decide; [by rewrite decide_True|by rewrite decide_False].
Qed.

Lemma id_lines_split ids : Forall container_id ids → ids ≠ [] →
  Split "010" (TrimSuffix (id_lines ids) newline) = ids.
Proof.
  clear Hid. intros Hids Hne. assert (id_lines ids = GoStrings.Join ids newline +:+ newline) as ->.
  { unfold id_lines. clear Hids. induction ids as [|x [|y l] IH]; [done|by cbn|].
    cbn [app] in *. rewrite !Join_cons2, IH by done. by rewrite !sapp_assoc. }
  rewrite TrimSuffix_app. apply Split_Join; [done|]. intros s Hs.
  rewrite Forall_forall in Hids. by apply container_id_word, Hids.
Qed.
Context `{!ListsAll}.

(** The search without label filters, which is the way out when docker
    does not accept them, finds the containers that the filter finds: for a
    workspace both give the same ids. *)
Theorem FindContainerJSON_agrees id h : id ≠ "" → free "=" id = true → containers_ok (at_host h) →
  (FindContainerJSON w d [DockerIDLabel +:+ "=" +:+ id] h).1 =
  (FindContainer w d [DockerIDLabel +:+ "=" +:+ id] h).1.
Proof.
  clear Hid. intros Hne Hf Hok. destruct (FindContainer_Ok id h Hok) as (h' & -> & _).
  unfold FindContainerJSON. destruct (de_returns ["ps"; "-q"; "-a"] h) as (o & h1 & Hrun).
  destruct (la_ps h o h1 Hok Hrun) as [He Ho].
  assert (at_host h1 = at_host h) as Hs by (apply (de_quiet _ _ _ _ Hrun); quiet_command).
  rewrite (run_Ok _ _ _ _ _ (Output_Ok _ _ _ _ Hrun He)), Ho. rewrite <-Hs in Hok |- *.
  destruct (decide (at_host h1 = [])) as [Hl|Hl].
  - rewrite Hl. cbn. destruct (de_returns ["inspect"; "--type"; "container"; ""] h1)
      as (o1 & h2 & Hrun1). apply la_empty in Hrun1 as He1; [|done].
    unfold InspectContainers, Inspect, Output, caught, mbind, M_bind. cbn [app].
    rewrite Hrun1. by destruct (co_err o1).
  - rewrite id_lines_split; [|apply Hok|by destruct (at_host h1)].
    destruct (find_json_Ok id (at_host h1) h1 Hne Hf Hok) as (h2 & -> & _); [|done].
    by apply Forall_forall.
Qed.

(** C9: The docker driver keeps the promises of the interface that the runner
    is written against: whatever the host runs docker on, as long as docker
    does what it documents ([DockerEngine]), the driver finds, starts, stops,
    removes and runs exactly the container of the workspace it is asked for,
    and the invariant that a workspace has at most one container is kept. *)
Theorem docker_lawful : @Lawful E (dockerDriver w d) dockerContainers.
Proof.
  split; cbn.
  - apply same_Find.
  - intros id h c h' Hok Hf. destruct (Find_Ok id h Hok) as (h1 & Hf1 & _). congruence.
  - intros id h Hok. destruct (docker_Start w d id h) as [r h'] eqn:Hs.
    destruct (Start_inv _ _ _ _ Hok Hs) as [(Hn & Heq & _)|Hm]; [by apply absent_laws|].
    by eapply moved_laws.
  - intros id h r h' Hok Hs. destruct (Start_inv _ _ _ _ Hok Hs) as [(Hn & Heq & Hr)|Hm].
    { rewrite Heq. split; [done|]. by intros ?. }
    apply moved_laws in Hm as (_ & Heq & c' & Hc' & Hr); [|done]. split; [done|]. intros Hrun.
    exists (shown c'). rewrite shown_running. auto.
  - intros id h Hok. destruct (docker_Stop w d id h) as [r h'] eqn:Hs.
    destruct (Stop_inv _ _ _ _ Hok Hs) as [(Hn & Heq & _)|Hm]; [by apply absent_laws|].
    by eapply moved_laws.
  - intros id h r h' Hok Hs. destruct (Stop_inv _ _ _ _ Hok Hs) as [(Hn & Heq & Hr)|Hm].
    { rewrite Heq. split; [done|]. by intros ?. }
    apply moved_laws in Hm as (_ & Heq & c' & Hc' & Hr); [|done]. split; [done|].
    intros Hrun x. rewrite Hc'. intros [= <-]. rewrite shown_running. auto.
  - intros id h Hok. destruct (docker_Delete w d id h) as [r h'] eqn:Hs.
    destruct (Delete_inv _ _ _ _ Hok Hs) as [Hm|[Heq _]]; [by eapply removed_laws|].
    cbn. by rewrite Heq.
  - intros id h r h' Hok Hs. destruct (Delete_inv _ _ _ _ Hok Hs) as [Hm|[Heq Hr]].
    + apply removed_laws in Hm as [_ ->]; auto.
    + rewrite Heq. auto.
  - by intros id o h.
  - by intros id o h h' _ ?.
  - intros dops id o cfg init ide h r h' [= <-] Hown Hok Hn Hrun.
    exact (Run_inv id o cfg init ide h r h' Hown Hok Hn Hrun).
  - intros id. stays.
  - intros dops image [= <-]. apply same_InspectImage.
  - intros dops hash cfg ext path content folder o [= <-]. apply same_docker_Build.
Qed.
End Engine.
