(* ===== verification/DockerDemo.v ===== *)
(** * A docker for the examples

    An engine that is the list of its containers, and a docker command that
    prints, starts, stops, removes and runs them.  It satisfies
    [DockerEngine], so the theorems of DockerProps.v apply to it, and they
    are evaluated on it. *)

From S2P Require Import Prelude GoStrings GoRegexp Types Config Names DevContainer Dockerfile Lifecycle SshConfig SshConfigProps Substitute Provider Options Clients Driver Build Docker RunnerDemo RunnerProps DockerProps.
From stdpp Require Import base gmap list strings countable pretty.
From Stdlib Require Import ZArith Lia.

Local Open Scope string_scope.
Local Open Scope list_scope.

(** ** Details as text *)

Definition details_parts (c : ContainerDetails) : list string * gmap string string :=
  ([cd_ID c; cd_Created c; cd_Status c; cd_StartedAt c; cd_WorkingDir c; cd_LegacyUser c],
   cd_Labels c).
Definition parts_details (p : list string * gmap string string) : ContainerDetails :=
  let part i := default "" (p.1 !! i) in {|
  cd_ID := part 0; cd_Created := part 1; cd_Status := part 2; cd_StartedAt := part 3;
  cd_WorkingDir := part 4; cd_LegacyUser := part 5; cd_Labels := p.2 |}.
#[export] Instance details_eq_dec : EqDecision ContainerDetails.
Proof. solve_decision. Defined.
#[export] Instance details_countable : Countable ContainerDetails.
Proof. refine (inj_countable' details_parts parts_details _). by intros []. Defined.

Fixpoint bits_text (p : positive) : string :=
  match p with
  | xH => ""
  | xO p => String "0" (bits_text p)
  | xI p => String "1" (bits_text p)
  end.
Fixpoint text_bits (s : string) : positive :=
  match s with
  | "" => xH
  | String c s => if decide (c = "0"%char) then xO (text_bits s) else xI (text_bits s)
  end.
Lemma text_bits_text p : text_bits (bits_text p) = p.
Proof. induction p as [p IH|p IH|]; cbn; by rewrite ?IH. Qed.

Definition details_text (l : list ContainerDetails) : string := bits_text (encode l).
Definition text_details (s : string) : string + list ContainerDetails :=
  match decode (text_bits s) with Some l => inr l | None => inl "invalid character" end.
Lemma text_details_text l : text_details (details_text l) = inr l.
Proof. unfold text_details, details_text. by rewrite text_bits_text, decode_encode. Qed.

(** ** The command *)

Notation engine := (list ContainerDetails).
Definition short12 : string → string := stake 12.
Notation short_of := (short_id short12).
Definition demo_takes_value (a : string) : bool := bool_decide (a ∈ value_flags).

Definition printed (out : string) : cmd_output := CmdOutput out out None.
Definition refused (msg : string) : cmd_output := CmdOutput msg "" (Some "exit status 1").

Definition by_name (e : engine) (name : string) : option ContainerDetails :=
  List.find (λ c, bool_decide (short_of c = short12 name)) e.
Definition by_id (e : engine) (id : string) : option ContainerDetails :=
  List.find (λ c, bool_decide (cd_ID c = id)) e.
Definition filter_prefix : string := "label=" +:+ DockerIDLabel +:+ "=".

Definition new_container (e : engine) (words : list string) : ContainerDetails := {|
  cd_ID := "c" +:+ pretty (length e); cd_Created := "monday"; cd_Status := "running";
  cd_StartedAt := "monday"; cd_Labels := label_map (cli_labels demo_takes_value words);
  cd_WorkingDir := ""; cd_LegacyUser := "" |}.
#[export] Instance container_id_dec s : Decision (container_id s).
Proof. unfold container_id. apply _. Defined.

Definition set_status (status id : string) (e : engine) : cmd_output * engine :=
  match by_id e id with
  | Some c =>
      if decide (ToLower (cd_Status c) = "removing") then (refused "is being removed", e)
      else (printed id, replace_container (with_status c status) e)
  | None => (refused "No such container", e)
  end.

Definition demo_docker (args : list string) (e : engine) : cmd_output * engine :=
  match args with
  | ["ps"; "-q"; "-a"; "--filter"; f] =>
      (printed (id_lines (short_of <$>
         filter (has_label (sdrop (String.length filter_prefix) f)) e)), e)
  | ["ps"; "-q"; "-a"] => (printed (id_lines (short_of <$> e)), e)
  | "inspect" :: "--type" :: "container" :: names =>
      (match mapM (by_name e) names with
       | Some l => printed (details_text l)
       | None => refused "No such container"
       end, e)
  | ["start"; id] => set_status "running" id e
  | ["stop"; id] => set_status "exited" id e
  | ["rm"; id] =>
      match by_id e id with
      | Some c => if is_running c then (refused "cannot remove a running container", e)
                  else (printed id, filter (λ x, cd_ID x ≠ id) e)
      | None => (refused "No such container", e)
      end
  | "run" :: words =>
      let c := new_container e words in
      if decide (container_id (short_of c) ∧ short_of c ∉ (short_of <$> e))
      then (printed (cd_ID c), c :: e) else (refused "no id left", e)
  | _ => (printed "", e)
  end.

Definition demo_world : docker_world engine := {|
  dw_build := demo_build;
  dw_exec := λ _ args _ h, let '(o, e) := demo_docker args (h_eng h) in (Ok o, set_eng e h);
  dw_containers := text_details; dw_images := λ _, inr [demo_image];
  dw_remote := λ _, inl "no registry"; dw_compile := λ _, None; dw_temp := λ p, inr ("/tmp/" +:+ p);
  dw_buildkit := λ _ _, mret () |}.
Definition demo_helper : DockerHelper := {|
  dh_DockerCommand := "docker"; dh_ContainerID := ""; dh_Environment := [];
  dh_Builder := DockerBuilderDefault |}.

#[export] Instance demo_driver : Driver engine := dockerDriver demo_world demo_helper.

(** ** It does what docker documents *)

Lemma short12_idem s : short12 (short12 s) = short12 s.
Proof.
  unfold short12. generalize 12%nat. intros n. revert s.
  induction n as [|n IH]; intros [|c s]; cbn; by rewrite ?IH.
Qed.
Notation ok := (containers_ok short12).

Lemma find_in {A} (p : A → bool) l x : List.find p l = Some x → x ∈ l ∧ p x = true.
Proof. intros H%find_some. by rewrite list_elem_of_In. Qed.
Lemma find_unique {A} (p : A → bool) l x :
  x ∈ l → p x = true → (∀ y, y ∈ l → p y = true → y = x) → List.find p l = Some x.
Proof.
  intros Hx Hp Hu. destruct (List.find p l) as [y|] eqn:Hy.
  - apply find_in in Hy as [Hy Hpy]. f_equal. auto.
  - apply list_elem_of_In in Hx. pose proof (find_none _ _ Hy x Hx). congruence.
Qed.
Lemma ok_short e c c' : ok e → c ∈ e → c' ∈ e → short_of c = short_of c' → c = c'.
Proof.
  intros Hok [i Hi]%list_elem_of_lookup [j Hj]%list_elem_of_lookup Heq.
  assert (i = j) as ->; [|congruence]. eapply (NoDup_lookup (short_of <$> e)); [apply Hok|..];
    rewrite list_lookup_fmap; [by rewrite Hi|rewrite Hj; cbn; by f_equal].
Qed.
Lemma by_name_Some e name c : ok e → c ∈ e → named_by short12 name c → by_name e name = Some c.
Proof.
  intros Hok Hc Hn. assert (short12 name = short_of c) as Hs.
  { destruct Hn as [->| ->]; [done|]. apply short12_idem. }
  apply find_unique; [done|by apply bool_decide_eq_true|].
  intros y Hy Hb%bool_decide_eq_true. apply (ok_short e); [done..|congruence].
Qed.
Lemma by_id_Some e c : ok e → c ∈ e → by_id e (cd_ID c) = Some c.
Proof.
  intros Hok Hc. apply find_unique; [done|by apply bool_decide_eq_true|].
  intros y Hy Hb%bool_decide_eq_true. by apply (ok_same short12 e).
Qed.

Lemma set_status_spec status c e o e' : ok e → c ∈ e → ToLower status ≠ "removing" →
  set_status status (cd_ID c) e = (o, e') →
  ∃ c', same_container c c' ∧ e' = replace_container c' e ∧
    (co_err o = None → cd_Status c' = status).
Proof.
  intros Hok Hc Hs. unfold set_status. rewrite (by_id_Some e c Hok Hc).
  case_decide as Hd; intros [= <- <-].
  - exists c. split; [done|]. split; [|done]. symmetry. unfold replace_container.
    transitivity (id <$> e); [|apply list_fmap_id]. apply list_fmap_ext. intros i x Hx.
    case_decide; [|done]. apply (ok_same short12 e); [done|done|by eapply list_elem_of_lookup_2|done].
  - exists (with_status c status). done.
Qed.

(** A command on this engine. *)
Lemma demo_cmd args h o h' : buildCmd demo_world demo_helper args h = (Ok o, h') →
  demo_docker args (h_eng h) = (o, h_eng h').
Proof.
  unfold buildCmd. cbn. destruct (demo_docker args (h_eng h)) as [o1 e1].
  by intros [= <- <-].
Qed.
Lemma demo_docker_quiet args e : quiet_args args → (demo_docker args e).2 = e.
Proof.
  destruct args as [|verb rest]; [done|]. cbn [quiet_args].
  intros [Hv|[-> _]]; [|reflexivity]. unfold quiet_verbs in Hv.
  repeat (apply elem_of_cons in Hv as [->|Hv];
    [cbn; repeat (match goal with |- (match ?x with _ => _ end).2 = _ => destruct x end); done|]).
  by apply elem_of_nil in Hv.
Qed.

#[export] Instance demo_engine :
  DockerEngine demo_world demo_helper demo_takes_value (λ e, e) short12.
Proof.
  split.
  - split; intros a Ha; [by apply bool_decide_eq_true|]. unfold plain_flags in Ha.
    repeat (apply elem_of_cons in Ha as [->|Ha]; [reflexivity|]). by apply elem_of_nil in Ha.
  - intros args h. unfold buildCmd. cbn. destruct (demo_docker args (h_eng h)). eauto.
  - intros args h o h' Hrun%demo_cmd Hq. pose proof (demo_docker_quiet args (h_eng h) Hq) as Hs.
    by rewrite Hrun in Hs.
  - done.
  - intros id h o h' _ Hrun%demo_cmd. by injection Hrun as <- _.
  - intros names l h o h' Hok Hn Hin _ Hrun%demo_cmd. cbn in Hrun.
    assert (mapM (by_name (h_eng h)) names = Some l) as Hm.
    { clear Hrun. apply mapM_Some. induction Hn as [|n c names l Hnc _ IH]; [done|].
      apply Forall_cons in Hin as [? ?]. constructor; [by apply by_name_Some|by apply IH]. }
    rewrite Hm in Hrun. injection Hrun as <- _. split; [done|apply text_details_text].
  - intros c h o h' Hok Hc Hrun%demo_cmd.
    destruct (set_status_spec "running" c _ _ _ Hok Hc ltac:(done) Hrun) as (c' & ? & ? & Hs).
    exists c'. split_and!; [done..|]. intros He. unfold is_running. by rewrite (Hs He).
  - intros c h o h' Hok Hc Hrun%demo_cmd.
    destruct (set_status_spec "exited" c _ _ _ Hok Hc ltac:(done) Hrun) as (c' & ? & ? & Hs).
    exists c'. split_and!; [done..|]. intros He. unfold is_running. by rewrite (Hs He).
  - intros c h o h' Hok Hc Hrun%demo_cmd. cbn in Hrun. rewrite (by_id_Some _ c Hok Hc) in Hrun.
    destruct (is_running c); injection Hrun as <- <-; [by right|by left].
  - intros words h o h' Hok Hrun%demo_cmd. cbn in Hrun. case_decide as Hd;
      injection Hrun as <- <-; [right|by left].
    destruct Hd. by exists (new_container (h_eng h) words).
Qed.

#[export] Instance demo_lists_all : ListsAll demo_world demo_helper (λ e, e) short12.
Proof.
  split.
  - intros h o h' _ Hrun%demo_cmd. by injection Hrun as <- _.
  - intros h o h' Hok Hrun%demo_cmd. cbn in Hrun.
    destruct (by_name (h_eng h) "") as [c|] eqn:Hc; [|by injection Hrun as <- _].
    apply find_in in Hc as [Hc Hb%bool_decide_eq_true]. pose proof (ok_ids _ _ Hok) as Hids.
    rewrite Forall_fmap, Forall_forall in Hids. by destruct (Hids c Hc).
Qed.

(** ** Two workspaces *)

Definition details (id status workspace : string) : ContainerDetails := {|
  cd_ID := id; cd_Created := "monday"; cd_Status := status; cd_StartedAt := "monday";
  cd_Labels := {[ DockerIDLabel := workspace ]}; cd_WorkingDir := ""; cd_LegacyUser := "" |}.
Definition two_containers : engine := [details "c1" "exited" "ws"; details "c2" "running" "other"].
Definition two_host : host engine := Host ∅ two_containers.

Lemma two_containers_ok : ok two_containers.
Proof.
  split.
  - apply (bool_decide_unpack _). vm_compute. reflexivity.
  - repeat constructor; apply (bool_decide_unpack _); vm_compute; reflexivity.
  - intros id c c' Hc Hc'. unfold two_containers in *.
    repeat (apply elem_of_cons in Hc as [->|Hc]); try (by apply elem_of_nil in Hc);
      repeat (apply elem_of_cons in Hc' as [->|Hc']); try (by apply elem_of_nil in Hc');
      try done; intros [= <-] Heq; discriminate Heq.
Qed.

(** Starting the container that does not run: afterwards it runs, and the
    container of the other workspace is what it was. *)
Lemma docker_lawful_witness :
  let start := docker_Start demo_world demo_helper "ws" two_host in
  start.1 = Ok () ∧
  (∃ c, docker_container (h_eng start.2) "ws" = Some c ∧ is_running c = true) ∧
  docker_container (h_eng start.2) "other" = docker_container two_containers "other".
Proof.
  intros start.
  pose proof (docker_lawful demo_world demo_helper demo_takes_value (λ e, e) short12 eq_refl)
    as L.
  assert (start.1 = Ok ()) as Hok by (vm_compute; reflexivity). split; [exact Hok|].
  assert (start = (Ok (), start.2)) as Hs by (rewrite <-Hok; by destruct start).
  destruct (@law_started _ _ _ L "ws" two_host (Ok ()) start.2 two_containers_ok Hs) as [_ Hrun].
  destruct (@law_start _ _ _ L "ws" two_host two_containers_ok) as [_ Hother].
  split; [by apply Hrun|]. by apply (Hother "other").
Defined.

Lemma FindContainerJSON_agrees_witness :
  (FindContainerJSON demo_world demo_helper ["dev.containers.id=ws"] two_host).1 = Ok ["c1"].
Proof.
  pose proof (FindContainerJSON_agrees demo_world demo_helper demo_takes_value (λ e, e) short12
    "ws" two_host ltac:(done) eq_refl two_containers_ok) as H.
  etrans; [exact H|]. vm_compute. reflexivity.
Defined.

(** Only the last of several labels is looked at. *)
Example FindContainerJSON_last_label :
  (FindContainerJSON demo_world demo_helper
     ["com.docker.compose.project=none"; "dev.containers.id=ws"] two_host).1 = Ok ["c1"].
Proof. vm_compute. reflexivity. Qed.
