(* ===== verification/Compose.v ===== *)
(** * Docker compose: pkg/compose/helper.go and pkg/devcontainer/compose.go

    The helper that runs docker compose, and the runner's way to bring up, build,
    stop and delete a workspace whose devcontainer.json names compose files.
    [with_compose] puts these functions into the runner of Runner.v.

    The loader of compose files, YAML, semantic versions, the clock, the environment
    and [godotenv] are parameters ([compose_world]); docker and docker
    compose are the command of Docker.v. *)

From S2P Require Import Prelude GoStrings GoRegexp Types Config Names DevContainer Merge Substitute SshConfig SshConfigProps Provider Options Dockerfile Lifecycle LifecycleProps Clients Driver Build Docker DevContainerFile Runner RunnerDemo RunnerProps DockerProps DockerDemo.
From stdpp Require Import base gmap list strings pretty.
From Stdlib Require Import ZArith Lia.

Local Open Scope string_scope.
Local Open Scope list_scope.

(** ** Compose projects *)

Record BuildConfig := {
  bc_Dockerfile : string;
  bc_Context : string;
  bc_Target : string;
  bc_Args : gmap string (option string);
}.
Record ServiceVolume := { sv_Type : string; sv_Source : string; sv_Target : string }.

(** A command that is not given is not an empty one. *)
Record ServiceConfig := {
  svc_Name : string;
  svc_Image : string;
  svc_Build : option BuildConfig;
  svc_Entrypoint : list string;
  svc_Command : option (list string);
  svc_Environment : gmap string (option string);
  svc_Init : option bool;
  svc_CapAdd : list string;
  svc_SecurityOpt : list string;
  svc_Labels : gmap string string;
  svc_User : string;
  svc_Privileged : bool;
  (** a device reservation with the capability gpu *)
  svc_GPU : bool;
  svc_Volumes : list ServiceVolume;
}.
Record Project := {
  pj_Name : string;
  pj_Services : gmap string ServiceConfig;
  (** volumes and whether they are external *)
  pj_Volumes : gmap string bool;
}.
Definition with_name (p : Project) (name : string) : Project := {|
  pj_Name := name; pj_Services := pj_Services p; pj_Volumes := pj_Volumes p |}.

Record compose_world (E : Type) := {
  cw_docker : docker_world E;
  cw_getenv : string → string;
  (** [godotenv.Read] on the text of a file *)
  cw_dotenv : string → string + gmap string string;
  (** [LoadDockerComposeProject] *)
  cw_load : list string → list string → M (host E) Project;
  (** [NewMappingWithEquals] *)
  cw_mapping : list string → gmap string (option string);
  (** the first version is earlier than the second *)
  cw_before : string → string → string + bool;
  (** the list of [docker compose ls]: the files of each project *)
  cw_projects : string → string + list string;
  cw_yaml : Project → string + string;
  (** [time.Now().Second()] *)
  cw_second : M (host E) Z;
}.
Arguments cw_docker {_}.
Arguments cw_getenv {_}.
Arguments cw_dotenv {_}.
Arguments cw_load {_}.
Arguments cw_mapping {_}.
Arguments cw_before {_}.
Arguments cw_projects {_}.
Arguments cw_yaml {_}.
Arguments cw_second {_}.

(** ** pkg/compose/helper.go *)

Definition ComposeProjectLabel : string := "com.docker.compose.project".
Definition ServiceLabel : string := "com.docker.compose.service".

Record ComposeHelper := {
  ch_Command : string;
  ch_Version : string;
  ch_Args : list string;
}.

Section Helper.
Context {E : Type} (w : compose_world E) (docker : DockerHelper).
Notation C := (M (host E)).
Notation dw := (cw_docker w).

Definition exec_output (command : string) (args : list string) : C string :=
  o ← dw_exec dw command args [];
  match co_err o with Some e => throw e | None => mret (co_stdout o) end.

(** [ComposeHelper] of the docker driver and [NewComposeHelper] *)
Definition NewComposeHelper (dockerComposeCLI : string) : C ComposeHelper :=
  let dockerCLI := or_default (dh_DockerCommand docker) "docker" in
  let dockerComposeCLI := or_default dockerComposeCLI "docker-compose" in
  out ← caught (exec_output dockerComposeCLI ["version"; "--short"]);
  match out with
  | Ok out => mret {| ch_Command := dockerComposeCLI; ch_Version := TrimSpace out; ch_Args := [] |}
  | _ =>
      out ← exec_output dockerCLI ["compose"; "version"; "--short"];
      mret {| ch_Command := dockerCLI; ch_Version := TrimSpace out; ch_Args := ["compose"] |}
  end.

Context (h : ComposeHelper).

Definition compose_cmd (args : list string) : C cmd_output :=
  dw_exec dw (ch_Command h) (ch_Args h ++ args) [].
Definition compose_run (args : list string) : C unit :=
  o ← compose_cmd args;
  match co_err o with Some e => throw e | None => mret () end.
Definition compose_combined (args : list string) : C string :=
  o ← compose_cmd args;
  match co_err o with
  | Some e => throw (co_combined o +:+ ": " +:+ e)
  | None => mret (co_combined o)
  end.

Definition compose_Find (projectName serviceName : string) : C (option ContainerDetails) :=
  containerIDs ← FindContainer dw docker
    [ComposeProjectLabel +:+ "=" +:+ projectName; ServiceLabel +:+ "=" +:+ serviceName];
  match containerIDs with
  | [] => mret None
  | _ =>
      containerDetails ← InspectContainers dw docker containerIDs;
      mret (List.find (λ c, negb (bool_decide (cd_Status c = "removing"))) containerDetails)
  end.

Definition compose_Stop (projectName : string) (args : list string) : C unit :=
  _ ← compose_combined (["--project-name"; projectName] ++ args ++ ["stop"]); mret ().
Definition compose_Remove (projectName : string) (args : list string) : C unit :=
  _ ← compose_combined (["--project-name"; projectName] ++ args ++ ["down"]); mret ().

Definition GetDefaultImage (projectName serviceName : string) : result string :=
  earlier ← of_sum (cw_before w (TrimPrefix (ch_Version h) "v") "2.8.0");
  Ok (if earlier : bool then projectName +:+ "_" +:+ serviceName
      else projectName +:+ "-" +:+ serviceName).

(** The files of the first project that [ls] prints. *)
Definition FindProjectFiles (projectName : string) : C (list string) :=
  out ← compose_combined ["--project-name"; projectName; "ls"; "-a"; "--filter";
                          "name=" +:+ projectName; "--format"; "json"];
  projects ← liftR (wrap "parse compose output" (of_sum (cw_projects w out)));
  mret (match projects with [] => [] | files :: _ => Split "," files end).

Definition useNewProjectName : bool :=
  match cw_before w (ch_Version h) "1.12.0" with inr earlier => negb earlier | inl _ => false end.
Definition project_char (c : ascii) : bool := is_lower c || is_digit c.
Definition toProjectName (projectName : string) : string :=
  let keep := if useNewProjectName
              then λ c, project_char c || bool_decide (c = "-"%char) || bool_decide (c = "_"%char)
              else project_char in
  ReplaceAllString (Chr (λ c, negb (keep c))) (ToLower projectName) "".
Definition GetProjectName (runnerID : string) : string :=
  or_default (cw_getenv w "COMPOSE_PROJECT_NAME") (toProjectName runnerID).
End Helper.

(** ** pkg/devcontainer/compose.go *)

Definition ConfigFilesLabel : string := "com.docker.compose.project.config_files".
Definition FeaturesBuildOverrideFilePrefix : string := "docker-compose.devcontainer.build".
Definition FeaturesStartOverrideFilePrefix : string :=
  "docker-compose.devcontainer.containerFeatures".

(** The second expression of the code is [\'\'], in which the backslashes are
    part of the text. *)
Definition dollar_class : re := Chr (λ c, bool_decide (c = "$"%char)).
Definition quote_class : re := Chr (λ c, bool_decide (c = "'"%char)).
Definition escape_label (v : string) : string :=
  ReplaceAllString quote_class (ReplaceAllString dollar_class v "$$")
    (backslash +:+ "'" +:+ backslash +:+ "'").

(** [onlyRunServices]; the main service comes first. *)
Definition other_services (service : string) (runServices : list string) : list string :=
  filter (λ s, s ≠ service) runServices.
Definition run_services (service : string) (runServices : list string) : list string :=
  match runServices with [] => [] | _ => service :: other_services service runServices end.
Definition onlyRunServices (upArgs : list string) (parsedConfig : SubstitutedConfig)
    : list string :=
  let c := dc_compose (sc_config parsedConfig) in
  upArgs ++ run_services (cc_service c) (cc_runServices c).

Definition getDockerComposeFolder (workspaceOriginFolder : string) : string :=
  filepath_Join [workspaceOriginFolder; ".docker-compose"].

(** A variable without a value is a nil pointer. *)
Definition mappingToMap (mapping : gmap string (option string)) : result (gmap string string) :=
  if decide (map_Forall (λ _ v, is_Some v) mapping) then Ok (omap id mapping) else Panic.

(** The files of the host are regular. *)
Fixpoint checkForPersistedFile {E} (files : list string) (prefix : string)
    : M (host E) (bool * bool * string) :=
  match files with
  | [] => mret (false, false, "")
  | file :: files' =>
      if HasPrefix file prefix then there ← Stat file; mret (true, there, file)
      else checkForPersistedFile files' prefix
  end.

Section Runner.
Context {E : Type} `{!Driver E} (w : runner_world E) (cw : compose_world E).
Context (docker : DockerHelper) (info : AgentWorkspaceInfo).
Notation R := (M (host E)).
Notation hs := (bw_sys (rw_build w)).
Notation ID := (runnerID info).

Definition composeHelper : R ComposeHelper :=
  match AsDocker (E := E) with
  | None => throw "docker compose is not supported by this provider, please choose a different one"
  | Some _ => NewComposeHelper cw docker "docker-compose"
  end.

Definition getEnvFiles : R (list string) :=
  let envFile := filepath_Join [LocalWorkspaceFolder info; ".env"] in
  there ← Stat envFile; mret (if there : bool then [envFile] else []).

Fixpoint env_compose_file (envFiles : list string) : R string :=
  match envFiles with
  | [] => mret ""
  | envFile :: envFiles' =>
      content ← ReadFile hs envFile;
      env ← liftR (of_sum (cw_dotenv cw content));
      let file := default "" (env !! "COMPOSE_FILE") in
      if decide (file ≠ "") then mret file else env_compose_file envFiles'
  end.
Definition SplitList (s : string) : list string :=
  if decide (s = "") then []
  else if decide (hs_GOOS hs = "windows") then Split ";" s else Split ":" s.
Definition getDockerComposeFilePaths (parsedConfig : SubstitutedConfig) (envFiles : list string)
    : R (list string) :=
  let config := sc_config parsedConfig in
  let configFileDir := filepath_Dir (dc_origin config) in
  match cc_dockerComposeFile (dc_compose config) with
  | [] =>
      let env := cw_getenv cw "COMPOSE_FILE" in
      envComposeFile ← (if decide (env = "") then env_compose_file envFiles else mret env);
      mret (SplitList envComposeFile)
  | files => mret ((λ f, if HasPrefix f "/" then f else filepath_Join [configFileDir; f]) <$> files)
  end.

Definition dockerComposeProjectFiles (parsedConfig : SubstitutedConfig)
    : R (list string * list string * list string) :=
  envFiles ← in_step "get env files" getEnvFiles;
  composeFiles ← in_step "get docker compose file paths"
    (getDockerComposeFilePaths parsedConfig envFiles);
  mret (composeFiles, envFiles, flags "-f" composeFiles ++ flags "--env-file" envFiles).

Definition compose_project (k : ComposeHelper → list string → R unit) : R unit :=
  helper ← in_step "find docker compose" composeHelper;
  substituted ← in_step "get parsed config"
    (getSubstitutedConfig (rw_file w) info ID (ai_cliOptions info));
  files ← in_step "get compose/env files" (dockerComposeProjectFiles substituted.1);
  k helper files.2.
Definition stopDockerCompose (projectName : string) : R unit :=
  compose_project (λ helper args, compose_Stop cw helper projectName args).
Definition deleteDockerCompose (projectName : string) : R unit :=
  compose_project (λ helper args, compose_Remove cw helper projectName args).

(** *** Building *)

(** The Dockerfile with a name for its last stage; it is empty for a service
    with a target, as for one with an image. *)
Definition prepareComposeBuildInfo (subCtx : SubstitutionContext)
    (composeService : ServiceConfig) (buildTarget : string)
    : R (ImageBuildInfo ImageMetadataConfig * string * string) :=
  match svc_Build composeService with
  | Some b =>
      let dockerFilePath := if HasPrefix (bc_Dockerfile b) "/" then bc_Dockerfile b
                            else filepath_Join [bc_Context b; bc_Dockerfile b] in
      originalDockerfile ← ReadFile hs dockerFilePath;
      named ← (if decide (bc_Target b ≠ "") then mret ("", bc_Target b)
               else
                 c ← liftR (EnsureDockerfileHasFinalStageName (rw_parse w) originalDockerfile
                              DockerfileDefaultTarget);
                 mret (or_default c.2 originalDockerfile, c.1));
      args ← liftR (mappingToMap (bc_Args b));
      imageBuildInfo ← getImageBuildInfoFromDockerfile (rw_parse w) (rw_directives w)
        (inspectImage w) (image_metadata w subCtx) (rw_depth w) originalDockerfile args
        (bc_Target b);
      mret (imageBuildInfo, named.1, named.2)
  | None =>
      imageBuildInfo ← getImageBuildInfoFromImage (inspectImage w) (image_metadata w subCtx)
        (svc_Image composeService);
      mret (imageBuildInfo, "", buildTarget)
  end.

Definition extendedDockerfile (featureBuildInfo : FeaturesBuildInfo) (dockerfileContent : string)
    : string * string :=
  (filepath_Join [fb_FeaturesFolder featureBuildInfo; "Dockerfile-with-features"],
   TrimSpace (GoStrings.Join
     [fb_DockerfilePrefixContent featureBuildInfo;
      TrimSpace (RemoveSyntaxVersion dockerfileContent);
      fb_DockerfileContent featureBuildInfo] newline)).

Definition make_compose_folder : R unit :=
  MkdirAll hs (getDockerComposeFolder (ai_origin info)).
Definition write_compose (prefix data : string) : R string :=
  second ← cw_second cw;
  let path := filepath_Join [getDockerComposeFolder (ai_origin info);
                             prefix +:+ "-" +:+ pretty second +:+ ".yml"] in
  _ ← WriteFile hs path data;
  mret path.

Definition no_service (name : string) : ServiceConfig := {|
  svc_Name := name; svc_Image := ""; svc_Build := None; svc_Entrypoint := [];
  svc_Command := None; svc_Environment := ∅; svc_Init := None; svc_CapAdd := [];
  svc_SecurityOpt := []; svc_Labels := ∅; svc_User := ""; svc_Privileged := false;
  svc_GPU := false; svc_Volumes := [] |}.
Definition with_build (s : ServiceConfig) (b : BuildConfig) : ServiceConfig := {|
  svc_Name := svc_Name s; svc_Image := svc_Image s; svc_Build := Some b;
  svc_Entrypoint := svc_Entrypoint s; svc_Command := svc_Command s;
  svc_Environment := svc_Environment s; svc_Init := svc_Init s; svc_CapAdd := svc_CapAdd s;
  svc_SecurityOpt := svc_SecurityOpt s; svc_Labels := svc_Labels s; svc_User := svc_User s;
  svc_Privileged := svc_Privileged s; svc_GPU := svc_GPU s; svc_Volumes := svc_Volumes s |}.

Definition build_override (composeService : ServiceConfig) (dockerFilePath : string)
    (f : FeaturesBuildInfo) : Project := {|
  pj_Name := "";
  pj_Services := {[ svc_Name composeService := with_build (no_service (svc_Name composeService)) {|
    bc_Dockerfile := dockerFilePath; bc_Context := filepath_Dir (fb_FeaturesFolder f);
    bc_Target := match svc_Build composeService with
                 | Some b => if decide (bc_Target b ≠ "") then fb_OverrideTarget f else ""
                 | None => ""
                 end;
    bc_Args := (Some <$> fb_BuildArgs f) ∪ cw_mapping cw ["BUILDKIT_INLINE_CACHE=1"] |} ]};
  pj_Volumes := ∅ |}.
Definition extendedDockerComposeBuild (composeService : ServiceConfig) (dockerFilePath : string)
    (f : FeaturesBuildInfo) : R string :=
  _ ← make_compose_folder;
  data ← liftR (of_sum (cw_yaml cw (build_override composeService dockerFilePath f)));
  write_compose FeaturesBuildOverrideFilePrefix data.

(** The Dockerfile with the features and the compose file that names it.  The
    folder of the Dockerfile is removed when the caller returns. *)
Definition write_features (composeService : ServiceConfig) (buildTarget dockerfileContents : string)
    (f : FeaturesBuildInfo) : R string :=
  let '(path, content) := extendedDockerfile f
    (or_default dockerfileContents
       ("FROM " +:+ svc_Image composeService +:+ " AS " +:+ buildTarget +:+ newline)) in
  _ ← in_step "write Dockerfile with features" (WriteFile hs path content);
  extendedDockerComposeBuild composeService path f.
Definition removing_features {A} (f : option FeaturesBuildInfo) (c : R A) : R A := λ h,
  match f with
  | Some f =>
      let '(r, h') := c h in
      (r, (RemoveAll (filepath_Dir (extendedDockerfile f "").1) h').2)
  | None => c h
  end.

Definition compose_build_args (project : Project) (globalArgs : list string)
    (dockerComposeFilePath service : string) (runServices : list string) : list string :=
  ["--project-name"; pj_Name project] ++ globalArgs ++
  (if decide (dockerComposeFilePath ≠ "") then ["-f"; dockerComposeFilePath] else []) ++
  ["build"] ++ run_services service runServices.

Definition buildAndExtendDockerCompose (parsedConfig : SubstitutedConfig)
    (ctx : SubstitutionContext) (project : Project) (helper : ComposeHelper)
    (composeService : ServiceConfig) (globalArgs : list string)
    : R (string * string * ImageMetadataConfig * string) :=
  let buildImageName := or_default (svc_Image composeService)
                          (pj_Name project +:+ "-" +:+ svc_Name composeService) in
  prepared ← prepareComposeBuildInfo ctx composeService "dev_container_auto_added_stage_label";
  let '(imageBuildInfo, dockerfileContents, buildTarget) := prepared in
  extended ← GetExtendedBuildInfo (rw_build w) ctx imageBuildInfo buildTarget parsedConfig false;
  removing_features (eb_FeaturesBuildInfo extended) (
    dockerComposeFilePath ←
      match eb_FeaturesBuildInfo extended with
      | Some f => write_features composeService buildTarget dockerfileContents f
      | None => mret ""
      end;
    _ ← compose_run cw helper (compose_build_args project globalArgs dockerComposeFilePath
          (svc_Name composeService) (cc_runServices (dc_compose (sc_config parsedConfig))));
    imageMetadata ← liftR (GetDevContainerMetadata (bw_substitute (rw_build w) ctx)
      (ibi_Metadata imageBuildInfo) parsedConfig (eb_Features extended));
    mret (buildImageName, dockerComposeFilePath, imageMetadata, eb_MetadataLabel extended)).

(** *** Starting *)

(** What the compose file of the workspace says of its service, and what the
    image says where it does not. *)
Definition nil_list (l : list string) : option (list string) :=
  match l with [] => None | _ => Some l end.
Definition user_entrypoint (mergedConfig : MergedDevContainerConfig)
    (composeService : ServiceConfig) (imageDetails : ImageDetails) : list string :=
  if decide (b_overrideCommand (mc_base mergedConfig) = Some true) then []
  else match svc_Entrypoint composeService with
       | [] => img_Entrypoint imageDetails
       | l => l
       end.
Definition user_command (mergedConfig : MergedDevContainerConfig)
    (composeService : ServiceConfig) (imageDetails : ImageDetails) : option (list string) :=
  if decide (b_overrideCommand (mc_base mergedConfig) = Some true) then Some []
  else match svc_Command composeService with
       | None | Some [] => nil_list (img_Cmd imageDetails)
       | c => c
       end.

Definition compose_script (mergedConfig : MergedDevContainerConfig) : string :=
  GoStrings.Join ["echo Container started"; "trap " +:+ quoted "exit 0" +:+ " 15"; ""] newline +:+
  GoStrings.Join (u_entrypoints (mc_updated mergedConfig)) newline +:+
  GoStrings.Join [""; "exec " +:+ quoted "$$@"; ""] newline +:+ DefaultEntrypoint.

Definition mappingFromMap (m : gmap string string) : gmap string (option string) :=
  if decide (m = ∅) then ∅
  else cw_mapping cw ((λ kv, kv.1 +:+ "=" +:+ kv.2) <$> hs_range hs m).

Definition mount_volume (m : Mount) : ServiceVolume :=
  {| sv_Type := mount_type m; sv_Source := mount_source m; sv_Target := mount_target m |}.
Definition up_service (parsedConfig : SubstitutedConfig) (mergedConfig : MergedDevContainerConfig)
    (composeService : ServiceConfig) (originalImageName overrideImageName : string)
    (imageDetails : ImageDetails) (additionalLabels : gmap string string) (gpu : bool)
    : ServiceConfig :=
  let n := mc_nonCompose mergedConfig in
  let userCommand := user_command mergedConfig composeService imageDetails in {|
  svc_Name := svc_Name composeService;
  svc_Image := if decide (originalImageName ≠ overrideImageName) then overrideImageName else "";
  svc_Build := None;
  svc_Entrypoint := ["/bin/sh"; "-c"; compose_script mergedConfig; "-"] ++
    user_entrypoint mergedConfig composeService imageDetails;
  svc_Command := if decide (userCommand = svc_Command composeService) then None else userCommand;
  svc_Environment := mappingFromMap (n_containerEnv n);
  svc_Init := n_init n; svc_CapAdd := n_capAdd n; svc_SecurityOpt := n_securityOpt n;
  svc_Labels := (escape_label <$> additionalLabels) ∪ {[ DockerIDLabel := ID ]};
  svc_User := n_containerUser n;
  svc_Privileged := default false (n_privileged n);
  svc_GPU := bool_decide (hr_gpu <$> b_hostRequirements (dc_base (sc_config parsedConfig)) =
                          Some "true") && gpu;
  svc_Volumes := mount_volume <$> n_mounts n |}.
Definition up_volumes (mounts : list Mount) : gmap string bool :=
  foldl (λ m v, if decide (mount_type v = "volume")
                then <[mount_source v := mount_external v]> m else m) ∅ mounts.

Definition generateDockerComposeUpProject (parsedConfig : SubstitutedConfig)
    (mergedConfig : MergedDevContainerConfig) (composeService : ServiceConfig)
    (originalImageName overrideImageName : string) (imageDetails : ImageDetails)
    (additionalLabels : gmap string string) : R Project :=
  enabled ← caught (GPUSupportEnabled (cw_docker cw) docker);
  let gpu := match enabled with Ok b => b | _ => false end in
  mret {| pj_Name := "";
          pj_Services := {[ svc_Name composeService :=
            up_service parsedConfig mergedConfig composeService originalImageName
              overrideImageName imageDetails additionalLabels gpu ]};
          pj_Volumes := up_volumes (n_mounts (mc_nonCompose mergedConfig)) |}.

Definition extendedDockerComposeUp (parsedConfig : SubstitutedConfig)
    (mergedConfig : MergedDevContainerConfig) (composeService : ServiceConfig)
    (originalImageName overrideImageName : string) (imageDetails : ImageDetails)
    (additionalLabels : gmap string string) : R string :=
  project ← generateDockerComposeUpProject parsedConfig mergedConfig composeService
    originalImageName overrideImageName imageDetails additionalLabels;
  data ← liftR (of_sum (cw_yaml cw project));
  _ ← make_compose_folder;
  write_compose FeaturesStartOverrideFilePrefix data.

(** The override files of an earlier start, from the label of the container;
    [None] when they cannot be used. *)
Definition persisted_files (container : option ContainerDetails) : R (option (list string)) :=
  match container with
  | None => mret None
  | Some c =>
      let label := default "" (cd_Labels c !! ConfigFilesLabel) in
      if decide (label = "") then mret None
      else
        let configFiles := Split "," label in
        build ← in_step "check for persisted build override"
          (checkForPersistedFile configFiles FeaturesBuildOverrideFilePrefix);
        start ← in_step "check for persisted start override"
          (checkForPersistedFile configFiles FeaturesStartOverrideFilePrefix);
        let '(buildFound, buildExists, buildFile) := build in
        let '(_, startExists, startFile) := start in
        mret (if ((buildExists || negb buildFound) && startExists)%bool
              then Some ((if buildExists : bool then ["-f"; buildFile] else []) ++
                         ["-f"; startFile])
              else None)
  end.

Definition get_service (project : Project) (service : string) : result ServiceConfig :=
  match pj_Services project !! service with
  | Some s => Ok s
  | None => Err ("service '" +:+ service +:+
                 "' configured in devcontainer.json not found in Docker Compose configuration")
  end.
Definition original_image (helper : ComposeHelper) (project : Project)
    (composeService : ServiceConfig) (service : string) : result string :=
  if decide (svc_Image composeService = "")
  then wrap "get default image" (GetDefaultImage cw helper (pj_Name project) service)
  else Ok (svc_Image composeService).

(** The override files of a new start. *)
Definition new_files (parsedConfig : SubstitutedConfig) (ctx : SubstitutionContext)
    (project : Project) (helper : ComposeHelper) (composeService : ServiceConfig)
    (originalImageName : string) (composeGlobalArgs : list string) : R (list string) :=
  built ← in_step "build and extend docker-compose"
    (buildAndExtendDockerCompose parsedConfig ctx project helper composeService
       composeGlobalArgs);
  let '(overrideImage, overrideBuildFile, imageMetadata, metadataLabel) := built in
  imageDetails ← in_step "inspect image"
    (inspectImage w (or_default overrideImage originalImageName));
  mergedConfig ← liftR (wrap "merge configuration"
    (MergeConfiguration (sc_config parsedConfig) (imc_config imageMetadata)));
  upFile ← in_step "extend docker-compose up"
    (extendedDockerComposeUp parsedConfig mergedConfig composeService originalImageName
       overrideImage imageDetails
       {[ ImageMetadataLabel := metadataLabel; UserLabel := img_User imageDetails ]});
  mret (composeGlobalArgs ++
        (if decide (overrideBuildFile ≠ "") then ["-f"; overrideBuildFile] else []) ++
        (if decide (upFile ≠ "") then ["-f"; upFile] else [])).

Definition startContainer (parsedConfig : SubstitutedConfig) (ctx : SubstitutionContext)
    (project : Project) (helper : ComposeHelper) (composeGlobalArgs : list string)
    (container : option ContainerDetails) (options : UpOptions) : R (option ContainerDetails) :=
  let service := cc_service (dc_compose (sc_config parsedConfig)) in
  composeService ← liftR (get_service project service);
  originalImageName ← liftR (original_image helper project composeService service);
  persisted ← persisted_files container;
  args ← match persisted with
         | Some files => mret (composeGlobalArgs ++ files)
         | None => new_files parsedConfig ctx project helper composeService originalImageName
                     composeGlobalArgs
         end;
  _ ← (if decide (is_Some container ∧ cli_recreate (up_cli options) = true) then
         _ ← in_step "stop dev container" (StopDevContainer ID);
         in_step "delete dev container" (DeleteDevContainer ID)
       else mret ());
  let upArgs := ["--project-name"; pj_Name project] ++ args ++ ["up"; "-d"] ++
                match container with Some _ => ["--no-recreate"] | None => [] end in
  _ ← in_step "docker-compose run" (compose_run cw helper (onlyRunServices upArgs parsedConfig));
  in_step "find dev container"
    (compose_Find cw docker (pj_Name project) (svc_Name composeService)).

(** The project that compose knows is started with its own files; when this
    fails, or a file is gone, the container is started as a new one. *)
Fixpoint files_exist (files : list string) : R bool :=
  match files with
  | [] => mret true
  | f :: fs => there ← Stat f; if there : bool then files_exist fs else mret false
  end.
Definition start_existing (parsedConfig : SubstitutedConfig) (project : Project)
    (helper : ComposeHelper) (container : option ContainerDetails) (options : UpOptions)
    : R (option ContainerDetails * bool) :=
  existing ← caught (FindProjectFiles cw helper (pj_Name project));
  match existing with
  | Ok [] | Err _ => mret (container, false)
  | Ok files =>
      if cli_recreate (up_cli options) then mret (container, false)
      else
        all ← files_exist files;
        let container := if all : bool then container else None in
        let upArgs := ["--project-name"; pj_Name project] ++ flags "-f" files ++ ["up"; "-d"] in
        up ← caught (compose_run cw helper (onlyRunServices upArgs parsedConfig));
        match up with
        | Ok _ =>
            details ← caught (compose_Find cw docker (pj_Name project)
                                (cc_service (dc_compose (sc_config parsedConfig))));
            match details with
            | Ok details => mret (details, true)
            | Err _ => mret (container, false)
            | c => liftR (c ≫= λ _, Err "")
            end
        | Err _ => mret (container, false)
        | c => liftR (c ≫= λ _, Err "")
        end
  | c => liftR (c ≫= λ _, Err "")
  end.

Definition compose_running (container : option ContainerDetails) : bool :=
  match container with Some c => bool_decide (cd_Status c = "running") | None => false end.

Definition load_project (parsedConfig : SubstitutedConfig) (helper : ComposeHelper)
    (composeFiles envFiles : list string) : R Project :=
  project ← in_step "load docker compose project" (cw_load cw composeFiles envFiles);
  mret (with_name project (GetProjectName cw helper ID)).

Definition runDockerCompose (parsedConfig : SubstitutedConfig) (ctx : SubstitutionContext)
    (options : UpOptions) : R (option Result) :=
  helper ← in_step "find docker compose" composeHelper;
  files ← in_step "get compose/env files" (dockerComposeProjectFiles parsedConfig);
  let '(composeFiles, envFiles, composeGlobalArgs) := files in
  project ← load_project parsedConfig helper composeFiles envFiles;
  found ← in_step "find dev container"
    (compose_Find cw docker (pj_Name project) (cc_service (dc_compose (sc_config parsedConfig))));
  containerDetails ←
    (if (compose_running found && negb (cli_recreate (up_cli options)))%bool then mret found
     else
       started ← start_existing parsedConfig project helper found options;
       if started.2 : bool then mret started.1
       else
         c ← in_step "start container"
           (startContainer parsedConfig ctx project helper composeGlobalArgs started.1 options);
         match c with
         | Some _ => mret c
         | None => throw "couldn't find container after start"
         end);
  imageMetadataConfig ← liftR (wrap "get image metadata from container"
    (match containerDetails with
     | Some c => container_metadata w ctx c
     | None => Ok {| imc_raw := []; imc_config := [] |}
     end));
  mergedConfig ← liftR (wrap "merge config"
    (MergeConfiguration (sc_config parsedConfig) (imc_config imageMetadataConfig)));
  setupContainer w info (sc_raw parsedConfig) containerDetails mergedConfig ctx.

(** ** buildDevImageCompose of build.go *)

Definition buildDevImageCompose (parsedConfig : SubstitutedConfig) (ctx : SubstitutionContext)
    (options : BuildOptions) : R BuildInfo :=
  helper ← in_step "find docker compose" composeHelper;
  envFiles ← in_step "get env files" getEnvFiles;
  composeFiles ← in_step "get docker compose file paths"
    (getDockerComposeFilePaths parsedConfig envFiles);
  let composeGlobalArgs := flags "-f" composeFiles ++ flags "--env-file" envFiles in
  project ← load_project parsedConfig helper composeFiles envFiles;
  let service := cc_service (dc_compose (sc_config parsedConfig)) in
  composeService ← liftR (get_service project service);
  originalImageName ← liftR (original_image helper project composeService service);
  built ← in_step "build and extend docker-compose"
    (buildAndExtendDockerCompose parsedConfig ctx project helper composeService
       composeGlobalArgs);
  let '(overrideImage, _, imageMetadata, _) := built in
  imageDetails ← in_step "inspect image"
    (inspectImage w (or_default overrideImage originalImageName));
  imageTag ← in_step "inspect image" (getImageTag (img_ID imageDetails));
  mret {| bi_ImageDetails := Some imageDetails; bi_ImageMetadata := imageMetadata;
          bi_ImageName := overrideImage; bi_PrebuildHash := imageTag;
          bi_RegistryCache := bp_RegistryCache options; bi_Tags := cli_tag (bp_cli options);
          bi_Dockerless := None |}.
End Runner.

(** ** The runner with docker compose *)

Definition with_compose {E} `{!Driver E} (w : runner_world E) (cw : compose_world E)
    (docker : DockerHelper) (info : AgentWorkspaceInfo) : runner_world E := {|
  rw_file := rw_file w; rw_build := rw_build w; rw_parse := rw_parse w;
  rw_directives := rw_directives w; rw_depth := rw_depth w; rw_multiple := rw_multiple w;
  rw_single := rw_single w; rw_remote := rw_remote w; rw_forArch := rw_forArch w;
  rw_pushable := rw_pushable w; rw_prebuildRepository := rw_prebuildRepository w;
  rw_buildRemote := rw_buildRemote w; rw_encodeDaemon := rw_encodeDaemon w;
  rw_marshalArgs := rw_marshalArgs w; rw_hooks := rw_hooks w;
  rw_initialize := rw_initialize w; rw_comspec := rw_comspec w; rw_inject := rw_inject w;
  rw_compressResult := rw_compressResult w; rw_compressInfo := rw_compressInfo w;
  rw_execute := rw_execute w; rw_reusesAuthSock := rw_reusesAuthSock w;
  rw_debug := rw_debug w;
  rw_runCompose := runDockerCompose w cw docker info;
  rw_deleteCompose := deleteDockerCompose w cw docker info;
  rw_stopCompose := stopDockerCompose w cw docker info;
  rw_buildCompose := buildDevImageCompose w cw docker info |}.

(** * Properties of docker compose workspaces

    The labels that the container of a service gets, the names of compose projects,
    which override files an earlier start leaves to a later one, and
    what becomes of the Dockerfile of a service with a build target. *)

(** ** Labels *)

(** What docker compose reads in a text: two dollar signs stand for one, a
    single one starts a variable. *)
Fixpoint interpolate (s : string) : option string :=
  match s with
  | "" => Some ""
  | String c s' =>
      if decide (c = "$"%char) then
        match s' with
        | String d s'' => if decide (d = "$"%char) then String "$" <$> interpolate s'' else None
        | "" => None
        end
      else String c <$> interpolate s'
  end.

Definition is_quote (c : ascii) : bool := bool_decide (c = "'"%char).
Definition two_quotes : string := backslash +:+ "'" +:+ backslash +:+ "'".
(** A label as it arrives at the container. *)
Definition quoted_label (v : string) : string := sflat (replace_char is_quote two_quotes) v.

Lemma escape_label_cons c v : escape_label (String c v) =
  (if decide (c = "$"%char) then "$$"
   else if decide (c = "'"%char) then two_quotes else String c "") +:+ escape_label v.
Proof.
  unfold escape_label, dollar_class, quote_class. rewrite !ReplaceAll_chr_str. cbn [sflat].
  rewrite sflat_app. f_equal. unfold replace_char at 2. case_decide as Hd.
  - by rewrite bool_decide_true.
  - rewrite bool_decide_false by done. cbn [sflat]. rewrite sapp_nil_r. unfold replace_char.
    cbv beta. destruct (decide (c = "'"%char)) as [->|]; [done|by rewrite bool_decide_false].
Qed.
Lemma interpolate_plain a s : free "$" a = true →
  interpolate (a +:+ s) = (λ x, a +:+ x) <$> interpolate s.
Proof.
  induction a as [|c a IH]; [cbn; by destruct (interpolate s)|]. intros [Hc Ha]%free_cons. cbn.
  rewrite decide_False by done. rewrite IH by done. by destruct (interpolate s).
Qed.
Lemma interpolate_escape v : interpolate (escape_label v) = Some (quoted_label v).
Proof.
  induction v as [|c v IH]; [done|]. rewrite escape_label_cons. unfold quoted_label. cbn [sflat].
  unfold replace_char at 1, is_quote. fold (quoted_label v). case_decide as Hd.
  - subst c. change (String "$" <$> interpolate (escape_label v) = Some (String "$" (quoted_label v))).
    by rewrite IH.
  - case_decide as Hq.
    + rewrite interpolate_plain, IH by done. by rewrite bool_decide_true.
    + rewrite interpolate_plain, IH by (by apply free_cons). by rewrite bool_decide_false.
Qed.
Lemma quoted_label_exact v : quoted_label v = v ↔ free "'" v = true.
Proof.
  split.
  - intros Heq. destruct (free "'" v) eqn:Hf; [done|]. exfalso.
    assert (∀ s, String.length s ≤ String.length (quoted_label s) ∧
      (free "'" s = false → String.length s < String.length (quoted_label s)))%nat as Hlen.
    { induction s as [|c s [IH1 IH2]]; [split; [done|discriminate]|].
      assert (String.length (quoted_label (String c s)) =
        (if decide (c = "'"%char) then 4 else 1) + String.length (quoted_label s))%nat as ->.
      { unfold quoted_label. cbn [sflat]. rewrite slength_app. f_equal.
        unfold replace_char, is_quote. case_decide; [by rewrite bool_decide_true|].
        by rewrite bool_decide_false. }
      cbn [String.length]. case_decide as Hc; [split; [|intros _]; lia|]. split; [lia|].
      intros Hs. assert (free "'" s = false) as ?%IH2; [|lia].
      unfold free in *. cbn in Hs. by rewrite bool_decide_false in Hs. }
    destruct (Hlen v) as [_ H]. specialize (H Hf). rewrite Heq in H. lia.
  - intros Hf. unfold quoted_label. apply sflat_none. exact Hf.
Qed.

(** The labels of a compose container.  The container has the label that
    the docker driver finds it by, whatever its metadata; and docker compose reads
    every other label without replacing a variable of the host.  The text it
    reads is the label itself exactly when there is no apostrophe in it: each apostrophe
    arrives with a backslash and twice, so metadata with one is no longer JSON. *)
Theorem compose_labels {E} (w : runner_world E) (cw : compose_world E) info pc m svc oi i d labels gpu :
  labels !! DockerIDLabel = None →
  let got := svc_Labels (up_service w cw info pc m svc oi i d labels gpu) in
  got !! DockerIDLabel = Some (runnerID info) ∧
  dom got = dom labels ∪ {[ DockerIDLabel ]} ∧
  ∀ k v, labels !! k = Some v →
    ∃ text, got !! k = Some text ∧ interpolate text = Some (quoted_label v) ∧
            (quoted_label v = v ↔ free "'" v = true).
Proof.
  intros Hid got. unfold got. cbn [svc_Labels up_service]. split_and!.
  - rewrite lookup_union_r; [apply lookup_singleton_eq|]. by rewrite lookup_fmap, Hid.
  - by rewrite dom_union_L, dom_fmap_L, dom_singleton_L.
  - intros k v Hk. exists (escape_label v).
    split_and!; [|apply interpolate_escape|apply quoted_label_exact].
    apply lookup_union_Some_l. by rewrite lookup_fmap, Hk.
Qed.

(** ** Names of projects *)

Definition id_char (c : ascii) : bool := is_lower c || is_digit c || bool_decide (c = "-"%char).

Lemma ToLower_id s : sforall id_char s = true → ToLower s = s.
Proof.
  unfold ToLower. induction s as [|c s IH]; [done|]. cbn. intros [Hc Hs]%andb_true_iff.
  rewrite (IH Hs). f_equal. revert Hc. destruct c as [[] [] [] [] [] [] [] []]; done.
Qed.
Lemma sfilter_ext p q s : (∀ c, p c = q c) → sfilter p s = sfilter q s.
Proof. intros Hpq. induction s as [|c s IH]; [done|]. cbn. by rewrite Hpq, IH. Qed.

(** The compose project of a workspace.  With a docker compose whose version
    is understood, a workspace id is the name of its project, so two workspaces
    never share one.  With a version that is not ([v2.2.3] as well as one before 1.12),
    the dashes are dropped, and workspaces whose ids differ in them share a
    project. *)
Theorem toProjectName_spec {E} (w : compose_world E) h id :
  sforall id_char id = true →
  toProjectName w h id =
  if useNewProjectName w h then id else sfilter project_char id.
Proof.
  intros Hid. unfold toProjectName. rewrite (ToLower_id id Hid).
  destruct (useNewProjectName w h); rewrite (ReplaceAll_class_empty _ _ _ (or_introl eq_refl)).
  - apply sfilter_id. eapply sforall_impl; [|exact Hid]. intros c Hc.
    rewrite negb_involutive. unfold id_char, project_char in *.
    by rewrite !orb_true_iff in *; destruct Hc as [[|]|]; auto.
  - apply sfilter_ext. intros c. by rewrite negb_involutive.
Qed.

(** ** Override files *)

Lemma check_absolute {E} files prefix (h : host E) :
  Forall (λ f, HasPrefix f "/" = true) files → HasPrefix prefix "d" = true →
  checkForPersistedFile files prefix h = (Ok (false, false, ""), h).
Proof.
  intros Hf Hp. induction Hf as [|f files Hf _ IH]; [done|]. cbn.
  assert (HasPrefix f prefix = false) as ->; [|done].
  apply HasPrefix_spec in Hf as [a ->]. apply HasPrefix_spec in Hp as [b ->]. reflexivity.
Qed.

(** The override files of an earlier start are never found.  Docker compose
    labels a container with the absolute paths of its files, and the paths are
    compared with the names of the override files, so a container that is
    started again is always built again first. *)
Theorem persisted_files_absolute {E} (c : ContainerDetails) (h : host E) :
  Forall (λ f, HasPrefix f "/" = true) (Split "," (default "" (cd_Labels c !! ConfigFilesLabel))) →
  persisted_files (Some c) h = (Ok None, h).
Proof.
  intros Hf. unfold persisted_files. case_decide; [done|].
  unfold in_step, caught, mbind, M_bind, liftR.
  by rewrite !check_absolute by done.
Qed.

(** A compose service with a build target loses its Dockerfile.  For such a
    service no Dockerfile is handed on, as for a service with an image, and the
    features are put on top of FROM with the image of the service, which is empty. *)
Theorem prepareComposeBuildInfo_target {E} `{!Driver E} (w : runner_world E) ctx svc b t h i c t' h' :
  svc_Build svc = Some b → bc_Target b ≠ "" →
  prepareComposeBuildInfo w ctx svc t h = (Ok (i, c, t'), h') →
  c = "" ∧ t' = bc_Target b ∧
  ∀ f, (extendedDockerfile f (or_default c ("FROM " +:+ svc_Image svc +:+ " AS " +:+ t' +:+ newline))).2 =
       TrimSpace (GoStrings.Join
         [fb_DockerfilePrefixContent f;
          TrimSpace (RemoveSyntaxVersion ("FROM " +:+ svc_Image svc +:+ " AS " +:+ bc_Target b +:+ newline));
          fb_DockerfileContent f] newline).
Proof.
  intros Hb Ht. unfold prepareComposeBuildInfo. rewrite Hb.
  intros (d & h1 & _ & H)%M_bind_Ok. rewrite decide_True in H by done.
  apply M_bind_Ok in H as (named & h2 & [<- _]%M_ret_Ok & H).
  apply M_bind_Ok in H as (args & h3 & _ & H). apply M_bind_Ok in H as (info & h4 & _ & H).
  apply M_ret_Ok in H as [[= _ <- <-] _]. done.
Qed.

(** ** A concrete project *)

Definition demo_compose : compose_world engine := {|
  cw_docker := demo_world; cw_getenv := λ _, ""; cw_dotenv := λ _, inr ∅;
  cw_load := λ _ _, throw "no project";
  cw_mapping := λ l, list_to_map ((λ s, ((Cut "=" s).1.1, Some (Cut "=" s).1.2)) <$> l);
  cw_before := λ v _, if HasPrefix v "v" then inl "invalid character" else inr false;
  cw_projects := λ _, inr []; cw_yaml := λ _, inr "services: {}"; cw_second := mret 7%Z |}.
Definition helper_of (version : string) : ComposeHelper :=
  {| ch_Command := "docker"; ch_Version := version; ch_Args := ["compose"] |}.

Lemma toProjectName_spec_witness :
  toProjectName demo_compose (helper_of "2.20.0") "a-b" = "a-b" ∧
  toProjectName demo_compose (helper_of "v2.2.3") "a-b" = "ab" ∧
  toProjectName demo_compose (helper_of "v2.2.3") "ab" = "ab".
Proof.
  split_and!.
  - rewrite (toProjectName_spec demo_compose (helper_of "2.20.0") "a-b"); reflexivity.
  - rewrite (toProjectName_spec demo_compose (helper_of "v2.2.3") "a-b"); reflexivity.
  - rewrite (toProjectName_spec demo_compose (helper_of "v2.2.3") "ab"); reflexivity.
Defined.

Definition persisted : ContainerDetails :=
  with_labels (details "c1" "exited" "ws")
    {[ ConfigFilesLabel := "/repo/compose.yml,/agent/.docker-compose/" +:+
                           FeaturesStartOverrideFilePrefix +:+ "-7.yml" ]}.
Lemma persisted_files_absolute_witness :
  let file := "/agent/.docker-compose/" +:+ FeaturesStartOverrideFilePrefix +:+ "-7.yml" in
  persisted_files (Some persisted) (Host {[ file := "services: {}" ]} two_containers) =
  (Ok None, Host {[ file := "services: {}" ]} two_containers).
Proof.
  apply persisted_files_absolute. apply (bool_decide_unpack _). vm_compute. reflexivity.
Defined.

(** The metadata of a container whose user writes an apostrophe. *)
Lemma compose_labels_witness :
  let got := svc_Labels (up_service demo_runner demo_compose demo_agent (demo_config "debian")
    some_merged (no_service "app") "debian" "debian" demo_image
    {[ ImageMetadataLabel := "echo 'hi'" ]} false) in
  got !! DockerIDLabel = Some "ws" ∧
  (got !! ImageMetadataLabel) ≫= interpolate = Some (quoted_label "echo 'hi'") ∧
  quoted_label "echo 'hi'" ≠ "echo 'hi'".
Proof.
  destruct (compose_labels demo_runner demo_compose demo_agent (demo_config "debian")
    some_merged (no_service "app") "debian" "debian" demo_image
    {[ ImageMetadataLabel := "echo 'hi'" ]} false ltac:(by rewrite lookup_singleton_ne)) as (Hid & _ & Hall).
  destruct (Hall ImageMetadataLabel "echo 'hi'" ltac:(apply lookup_singleton_eq)) as (text & Ht & Hi & Hq).
  intros got. split; [exact Hid|]. split; [unfold got; rewrite Ht; exact Hi|].
  intros Heq. apply Hq in Heq. discriminate Heq.
Defined.

Definition target_service : ServiceConfig :=
  with_build (no_service "app")
    {| bc_Dockerfile := "Dockerfile"; bc_Context := "/content"; bc_Target := "base"; bc_Args := ∅ |}.

Lemma prepareComposeBuildInfo_target_witness :
  let h := Host {[ "/content/Dockerfile" := "two stages" ]} two_containers in
  let prepared := prepareComposeBuildInfo demo_runner demo_ctx target_service "" h in
  is_ok prepared.1 = true ∧
  ∀ i c t, prepared.1 = Ok (i, c, t) →
    ∀ f, fb_DockerfilePrefixContent f = "" → fb_DockerfileContent f = "RUN install" →
    (extendedDockerfile f (or_default c ("FROM " +:+ svc_Image target_service +:+ " AS " +:+ t +:+ newline))).2 =
    "FROM  AS base" +:+ newline +:+ "RUN install".
Proof.
  intros h prepared. split; [vm_compute; reflexivity|]. intros i c t Hp f Hf1 Hf2.
  destruct prepared as [r h'] eqn:Hr. cbn in Hp. subst r.
  destruct (prepareComposeBuildInfo_target demo_runner demo_ctx target_service
    {| bc_Dockerfile := "Dockerfile"; bc_Context := "/content"; bc_Target := "base"; bc_Args := ∅ |}
    "" h i c t h' eq_refl ltac:(done) Hr) as (_ & _ & Hall).
  rewrite Hall, Hf1, Hf2. vm_compute. reflexivity.
Defined.
