(* ===== verification/ContainerDaemon.v ===== *)
(** * The daemon of a container

    cmd/agent/container/daemon.go.  Its goroutines and the channel of errors are a step
    relation: every goroutine has a state, a send waits for room in the channel, and
    [Run] waits for the first error, cancels the others and waits for the members of
    its wait group.  A tick of the timer that finds activity changes nothing and is no
    step.  The Tailscale server, JSON and processes are parameters or choices of the relation. *)

From S2P Require Import Prelude GoStrings Types Provider Options Driver Clients Lifecycle FileTree Extract IdeServers DevContainerFile Runner.
From stdpp Require Import base gmap list strings relations.
From Stdlib Require Import ZArith Lia.

Local Open Scope string_scope.
Local Open Scope list_scope.

(** ** The configuration *)

Definition DaemonConfigPath : string := "/var/run/secrets/devpod/daemon_config".
(** [agentd.DaemonConfig] with the timeout *)
Record daemon_cfg := { dn_config : DaemonConfig; dn_Timeout : string }.

Section Load.
Context (x : box_world) (unmarshal : string → string + daemon_cfg).

(** The file, or the environment variable if there is no file *)
Definition encoded_config (env : gmap string string) : M fs string :=
  r ← caught (ReadFile (xw_fy x) DaemonConfigPath);
  match r with
  | Ok content => mret content
  | Err e => if decide (e = ENOENT) then mret (default "" (env !! WorkspaceDaemonConfigExtraEnvVar))
             else throw ("get daemon config file " +:+ DaemonConfigPath +:+ ": " +:+ e)
  | Panic => liftR Panic
  | NoFuel => liftR NoFuel
  end.
(** [cmd] is what the flags gave. *)
Definition decode_config (encodedCfg : string) (cmd : daemon_cfg) : result daemon_cfg :=
  if decide (TrimSpace encodedCfg = "") then Ok cmd
  else
    decoded ← wrap "error decoding daemon config"
      (of_option "illegal base64 data" (DecodeString encodedCfg));
    cfg ← wrap "error unmarshalling daemon config" (of_sum (unmarshal decoded));
    Ok (if decide (dn_Timeout cmd = "") then cfg
        else {| dn_config := dn_config cfg; dn_Timeout := dn_Timeout cmd |}).
Definition loadConfig (env : gmap string string) (cmd : daemon_cfg) : M fs daemon_cfg :=
  encodedCfg ← encoded_config env; liftR (decode_config encodedCfg cmd).

Definition shouldRunNetworkServer (c : daemon_cfg) : bool :=
  let p := dm_platform (dn_config c) in
  bool_decide (po_accessKey p ≠ "" ∧ po_platformHost p ≠ "" ∧ po_workspaceHost p ≠ "").
Definition shouldRunSsh (c : daemon_cfg) : bool :=
  bool_decide (dm_workdir (dn_config c) ≠ "" ∨ dm_user (dn_config c) ≠ "").
Definition setupActivityFile : M fs unit :=
  _ ← write_file x ContainerActivityFile "" 511; Chmod (xw_fy x) ContainerActivityFile 511.
Definition ssh_server_args (binaryPath : string) (c : daemon_cfg) : list string :=
  [binaryPath; "agent"; "container"; "ssh-server"] ++
  (if decide (dm_workdir (dn_config c) ≠ "") then ["--workdir"; dm_workdir (dn_config c)] else []) ++
  (if decide (dm_user (dn_config c) ≠ "") then ["--remote-user"; dm_user (dn_config c)] else []).
(** The timeout in nanoseconds; the file of the activity is written if there is one. *)
Definition prepare_timeout (c : daemon_cfg) : M fs Z :=
  if decide (dn_Timeout c = "") then mret 0%Z
  else
    d ← liftR (wrap "failed to parse timeout duration"
          (of_option "invalid duration" (ParseDuration (dn_Timeout c))));
    _ ← (if (0 <? d)%Z then setupActivityFile else mret ());
    mret d.
End Load.
(** One tick of the monitor: no activity for the duration. [mtime] is [None] without a file. *)
Definition timeout_reached (mtime : option Z) (duration now : Z) : bool :=
  match mtime with
  | None => false
  | Some m => negb (now <? m + duration)%Z
  end.

(** ** Goroutines *)

(** [Watcher] is the goroutine of [runSshServer] that stops the server. *)
Inductive goroutine := Reaper | Network | Timeout | Ssh | Watcher | Idle | Signals.
#[export] Instance goroutine_eq_dec : EqDecision goroutine.
Proof. solve_decision. Defined.
Inductive status := Off | Running | Sending (e : option string) | Ended.
#[export] Instance status_eq_dec : EqDecision status.
Proof. solve_decision. Defined.
Inductive main := Waiting | Joining (e : option string) | Exited (code : Z).
Record daemon := Daemon {
  d_main : main;
  d_chan : list (option string);
  d_task : goroutine → status;
}.
Definition capacity : nat := 4.
Definition cancelled (s : daemon) : Prop := d_main s ≠ Waiting.
Definition set_task (g : goroutine) (t : status) (f : goroutine → status) : goroutine → status :=
  λ h, if decide (h = g) then t else f h.
Definition move (g : goroutine) (t : status) (s : daemon) : daemon :=
  Daemon (d_main s) (d_chan s) (set_task g t (d_task s)).
(** The wait group *)
Definition joined : list goroutine := [Reaper; Network; Timeout; Ssh; Idle].
Definition quiet (t : status) : Prop := t = Off ∨ t = Ended.
Definition exit_code (e : option string) : Z := match e with Some _ => 1 | None => 0 end.

(** Who may meet an error, and who may return: the process of the ssh server ends when it
    wants to, because of the signal of its watcher or without one. *)
Definition may_fail (g : goroutine) (s : daemon) : Prop :=
  match g with
  | Network | Timeout | Ssh | Signals => True
  | Watcher => cancelled s
  | Reaper | Idle => False
  end.
Definition may_return (g : goroutine) (s : daemon) : Prop :=
  match g with
  | Ssh => True
  | Watcher => cancelled s ∨ d_task s Ssh = Ended
  | _ => cancelled s
  end.

Inductive step : daemon → daemon → Prop :=
| step_fail s g e : d_task s g = Running → may_fail g s → step s (move g (Sending (Some e)) s)
| step_send s g e : d_task s g = Sending e → length (d_chan s) < capacity →
    step s (Daemon (d_main s) (d_chan s ++ [e]) (set_task g Ended (d_task s)))
| step_return s g : d_task s g = Running → may_return g s → step s (move g Ended s)
| step_receive s e l : d_main s = Waiting → d_chan s = e :: l →
    step s (Daemon (Joining e) l (d_task s))
| step_exit s e : d_main s = Joining e → Forall (λ g, quiet (d_task s g)) joined →
    step s (Daemon (Exited (exit_code e)) (d_chan s) (d_task s)).

(** [Run] after the configuration was read *)
Definition on_if (b : bool) : status := if b then Running else Off.
Definition start (c : daemon_cfg) (pid1 : bool) (duration : Z) : daemon :=
  let network := shouldRunNetworkServer c in
  let timeout := (0 <? duration)%Z in
  let ssh := shouldRunSsh c in
  Daemon Waiting [] (λ g, match g with
    | Reaper => on_if pid1
    | Network => on_if network
    | Timeout => on_if timeout
    | Ssh | Watcher => on_if ssh
    | Idle => on_if (negb (network || timeout || ssh))
    | Signals => Running
    end).
Definition DaemonCmd_Run (x : box_world) (unmarshal : string → string + daemon_cfg)
    (env : gmap string string) (cmd : daemon_cfg) (pid1 : bool) : M fs daemon :=
  c ← loadConfig x unmarshal env cmd;
  duration ← prepare_timeout x c;
  mret (start c pid1 duration).

(** ** No send blocks *)

Local Open Scope nat_scope.

Definition active (s : daemon) (g : goroutine) : nat :=
  match d_task s g with Running | Sending _ => 1 | _ => 0 end.
Definition sending (t : status) : Prop := ∃ e, t = Sending e.
(** The messages in the channel and those that may still come *)
Definition weight (s : daemon) : nat :=
  length (d_chan s) + active s Network + active s Timeout + active s Ssh + active s Signals.
Record inv (s : daemon) : Prop := {
  inv_room : (weight s + match d_main s with Waiting => 0 | _ => active s Watcher end ≤ capacity)%nat;
  inv_watcher : d_main s = Waiting → ¬ sending (d_task s Watcher);
  inv_errors : ∀ g e, d_task s g = Sending e → e ≠ None;
  inv_chan : Forall (λ e, e ≠ None) (d_chan s);
  inv_main : match d_main s with Joining e => e ≠ None | Exited c => c = 1%Z | Waiting => True end;
  inv_silent : ¬ sending (d_task s Reaper) ∧ ¬ sending (d_task s Idle);
  (** until the first error the signals are listened to *)
  inv_signals : d_main s = Waiting → d_chan s = [] → d_task s Signals ≠ Off ∧ d_task s Signals ≠ Ended;
}.
Lemma task_set g h t f : set_task g t f h = if decide (h = g) then t else f h.
Proof. done. Qed.
Lemma active_quiet s g : quiet (d_task s g) → active s g = 0.
Proof. unfold active. by intros [->| ->]. Qed.
Lemma active_le s g : active s g ≤ 1.
Proof. unfold active. destruct (d_task s g); lia. Qed.

Lemma inv_start c pid1 duration : inv (start c pid1 duration).
Proof.
  split; unfold weight, active, start, on_if, capacity, sending, quiet; cbn.
  - destruct (shouldRunNetworkServer c), (shouldRunSsh c), (0 <? duration)%Z; cbn; lia.
  - intros _ [e H]. by destruct (shouldRunSsh c).
  - intros g e H. destruct g; try done; by destruct (shouldRunNetworkServer c), (shouldRunSsh c), (0 <? duration)%Z, pid1.
  - constructor.
  - done.
  - split; intros [e H]; [by destruct pid1|].
    by destruct (shouldRunNetworkServer c), (shouldRunSsh c), (0 <? duration)%Z.
  - done.
Qed.

Ltac split_task := repeat match goal with
  | H : context [set_task _ _ _ _] |- _ => rewrite task_set in H
  | |- context [set_task _ _ _ _] => rewrite task_set
  | H : context [if decide (?a = ?b) then _ else _] |- _ => destruct (decide (a = b)); try done; subst
  | |- context [if decide (?a = ?b) then _ else _] => destruct (decide (a = b)); try done; subst
  end.
Ltac weigh g Hg := unfold weight, active, move in *; cbn in *; destruct g; cbn in *;
  rewrite ?Hg in *; unfold set_task;
  repeat (case_decide; try done); try lia.
Lemma inv_fail s g e : inv s → d_task s g = Running → may_fail g s →
  inv (move g (Sending (Some e)) s).
Proof.
  intros [I1 I2 I3 I4 I5 I6 I7] Hg Hf. split; cbn; try done.
  - destruct (d_main s) eqn:Hm; weigh g Hg; try done; by destruct Hf.
  - intros Hm [e' H]. split_task; [by destruct Hf|]. apply I2; [done|]. by exists e'.
  - intros h e' H. split_task; [by injection H as <-|by eapply I3].
  - split; intros [e' H]; split_task;
      first [by destruct (proj1 I6); exists e'|by destruct (proj2 I6); exists e'].
  - intros Hm Hc. split_task. by apply I7.
Qed.
Lemma inv_send s g e : inv s → d_task s g = Sending e →
  inv (Daemon (d_main s) (d_chan s ++ [e]) (set_task g Ended (d_task s))).
Proof.
  intros [I1 I2 I3 I4 I5 I6 I7] Hg.
  assert (g ≠ Reaper ∧ g ≠ Idle) as [Hr Hi]
    by (split; intros ->; [destruct (proj1 I6)|destruct (proj2 I6)]; by exists e).
  split; cbn; try done.
  - destruct (d_main s) eqn:Hm; unfold weight in *; rewrite ?length_app; weigh g Hg; try done.
    destruct (I2 eq_refl). by exists e.
  - intros Hm [e' H]. split_task. apply I2; [done|]. by exists e'.
  - intros h e' H. split_task. by eapply I3.
  - apply Forall_app. split; [done|]. constructor; [by eapply I3|constructor].
  - split; intros [e' H]; split_task;
      first [by destruct (proj1 I6); exists e'|by destruct (proj2 I6); exists e'].
  - intros _ H. by destruct (d_chan s).
Qed.
Lemma inv_return s g : inv s → d_task s g = Running → may_return g s → inv (move g Ended s).
Proof.
  intros [I1 I2 I3 I4 I5 I6 I7] Hg Hr. split; cbn; try done.
  - destruct (d_main s) eqn:Hm; weigh g Hg.
  - intros Hm [e' H]. split_task. apply I2; [done|]. by exists e'.
  - intros h e' H. split_task. by eapply I3.
  - split; intros [e' H]; split_task;
      first [by destruct (proj1 I6); exists e'|by destruct (proj2 I6); exists e'].
  - intros Hm Hc. split_task; [by destruct Hr|]. by apply I7.
Qed.
Lemma step_inv s s' : inv s → step s s' → inv s'.
Proof.
  intros Hi Hs. destruct Hs as [s g e Hg Hf|s g e Hg Hl|s g Hg Hr|s e l Hm Hc|s e Hm Hq].
  - by apply inv_fail.
  - by apply inv_send.
  - by apply inv_return.
  - destruct Hi as [I1 I2 I3 I4 I5 I6 I7]. rewrite Hc in I4. apply Forall_cons in I4 as [He I4].
    split; cbn; try done. unfold weight in *. rewrite Hm, Hc in I1. cbn in *.
    pose proof (active_le s Watcher). unfold active in *. cbn. lia.
  - destruct Hi as [I1 I2 I3 I4 I5 I6 I7]. rewrite Hm in I5, I1. split; cbn; try done.
    by destruct e.
Qed.
Lemma inv_reachable c pid1 duration s : rtc step (start c pid1 duration) s → inv s.
Proof.
  intros H. assert (inv (start c pid1 duration)) as Hi by apply inv_start.
  induction H as [|s1 s2 s3 H12 _ IH]; [done|]. apply IH. by eapply step_inv.
Qed.

(** Everything in the daemon moves forward. *)
Definition rank (t : status) : nat := match t with Running => 2 | Sending _ => 1 | _ => 0 end.
Definition main_rank (m : main) : nat := match m with Waiting => 2 | Joining _ => 1 | Exited _ => 0 end.
Definition goroutines : list goroutine := [Reaper; Network; Timeout; Ssh; Watcher; Idle; Signals].
Definition remaining (s : daemon) : nat :=
  main_rank (d_main s) + list_sum ((λ g, rank (d_task s g)) <$> goroutines).
Lemma remaining_step s s' : step s s' → remaining s' < remaining s.
Proof.
  intros Hs. destruct Hs as [s g e Hg Hf|s g e Hg Hl|s g Hg Hr|s e l Hm Hc|s e Hm Hq];
    unfold remaining, move, set_task; cbn.
  1,2,3: destruct g; cbn; repeat (case_decide; try done); rewrite Hg; cbn; lia.
  all: rewrite Hm; cbn; lia.
Qed.
Lemma step_sn s : sn step s.
Proof.
  remember (remaining s) as n eqn:Hn. revert s Hn.
  induction (lt_wf n) as [n _ IH]. intros s ->. constructor. intros s' Hs.
  eapply IH; [by apply remaining_step|done].
Qed.
Lemma room s g e : inv s → d_task s g = Sending e → length (d_chan s) < capacity.
Proof.
  intros [I1 I2 I3 I4 I5 I6 I7] Hg. destruct g.
  1: by destruct (proj1 I6); exists e.
  5: by destruct (proj2 I6); exists e.
  all: unfold weight, active in I1; rewrite Hg in I1; try lia.
  destruct (d_main s) eqn:Hm; [|lia..]. destruct (I2 eq_refl). by exists e.
Qed.

(** C21: The daemon always comes to an end once something happened, and the channel of errors is
    large enough for that: no goroutine ever waits for room in it, every run is finite, and
    a run that cannot go on has left the process with the code 1. *)
Theorem daemon_terminates c pid1 duration s : rtc step (start c pid1 duration) s →
  (∀ g e, d_task s g = Sending e → length (d_chan s) < capacity) ∧
  sn step s ∧ (nf step s → d_main s = Exited 1).
Proof.
  intros Hi%inv_reachable. split_and!; [intros; by eapply room|apply step_sn|]. intros Hnf.
  pose proof Hi as [_ _ _ _ I5 I6 I7].
  assert (∀ g e, d_task s g ≠ Sending e) as Hsend.
  { intros g e Hg. apply Hnf. eexists. eapply step_send; [done|]. by eapply room. }
  destruct (d_main s) as [|e|code] eqn:Hm; [| |by rewrite I5].
  - destruct (d_chan s) as [|e l] eqn:Hc; [|exfalso; apply Hnf; eexists; by eapply step_receive].
    destruct (I7 eq_refl eq_refl) as [Hoff Hend]. destruct (d_task s Signals) as [| |e|] eqn:Hs; try done.
    + exfalso. apply Hnf. eexists. by apply (step_fail s Signals "").
    + by destruct (Hsend Signals e).
  - exfalso. apply Hnf. eexists. apply (step_exit _ e); [done|].
    assert (∀ g, g ∈ joined → quiet (d_task s g)) as Hq; [|by apply Forall_forall].
    intros g Hg. destruct (d_task s g) as [| |e'|] eqn:Ht; [by left| | |by right].
    + exfalso. apply Hnf. eexists. apply (step_return s g); [done|].
      assert (cancelled s) as Hcan by (unfold cancelled; by rewrite Hm).
      unfold joined in Hg. destruct g; try done. set_solver.
    + by destruct (Hsend g e').
Qed.

(** A daemon with a timeout only *)
Definition demo_cfg : daemon_cfg := {|
  dn_config := {| dm_platform := no_platform; dm_workdir := ""; dm_user := "" |}; dn_Timeout := "10m" |}.
Definition demo_end : daemon :=
  let s := start demo_cfg false 600 in
  Daemon (Exited 1) [] (set_task Timeout Ended (set_task Timeout (Sending (Some "timeout reached")) (d_task s))).
Lemma daemon_terminates_witness :
  rtc step (start demo_cfg false 600) demo_end ∧ sn step demo_end.
Proof.
  assert (rtc step (start demo_cfg false 600) demo_end) as H.
  { eapply rtc_l; [apply (step_fail _ Timeout "timeout reached"); [reflexivity|exact I]|].
    eapply rtc_l; [apply (step_send _ Timeout (Some "timeout reached")); [reflexivity|cbn; unfold capacity; lia]|].
    eapply rtc_l; [eapply step_receive; reflexivity|].
    apply rtc_once.
    refine (step_exit (Daemon (Joining (Some "timeout reached")) [] _) (Some "timeout reached") eq_refl _).
    repeat constructor; vm_compute; first [left; reflexivity|right; reflexivity]. }
  split; [exact H|]. apply (daemon_terminates demo_cfg false 600 demo_end H).
Defined.
Example timeout_reached_ex :
  timeout_reached (Some 100%Z) 60 159 = false ∧ timeout_reached (Some 100%Z) 60 160 = true ∧
  timeout_reached None 60 1000 = false.
Proof. done. Qed.
