(* ===== verification/ContainerSetup.v ===== *)
(** * The setup of a container

    The command of cmd/agent/container/setup.go, and the rest of
    pkg/devcontainer/setup/setup.go: what the agent does in a container after it started.  The
    state is the box of IdeServers.v (files and processes), the container of Lifecycle.v
    (markers, environment, hooks), the machine of CredHelpers.v (the configuration of git) and
    what was sent to the client.  The tunnel, encoding/json, the Kubernetes client and the
    commands are parameters ([setup_world]). *)

From S2P Require Import Prelude GoStrings Types Tailnet Config Git Names DevContainer Substitute Provider Options Home Clients Driver DevContainerFile Lifecycle FileTree Extract Binaries CredHelpers Agent AgentWorkspace IdeServers.
From stdpp Require Import base gmap sets list strings sorting pretty.
From Stdlib Require Import ZArith.

Local Open Scope string_scope.
Local Open Scope list_scope.
Implicit Types (p : string).

(** ** Data *)

(** What the setup uses of the platform options, less the part of Clients.v. *)
Record platform_info := {
  pi_InstanceName : string;
  pi_InstanceNamespace : string;
  pi_GitUser : string;
  pi_GitEmail : string;
  pi_GitHttp : list GitHttpCredential;
  pi_GitSsh : list string;
}.
(** [ContainerWorkspaceInfo] *)
Record container_info := {
  ci_ide : WorkspaceIDEConfig;
  ci_cli : CLIOptions;
  ci_platform : platform_info;
  ci_git : PlatformGit;
  ci_dockerless : ProviderDockerlessOptions;
  ci_containerTimeout : string;
  ci_source : WorkspaceSource;
  ci_contentFolder : string;
  ci_pullFromInsideContainer : string;
  ci_agent : ProviderAgentConfig;
}.
(** A configuration of kubectl *)
Record kube := {
  kc_clusters : gmap string string;
  kc_authInfos : gmap string string;
  kc_contexts : gmap string string;
  kc_current : string;
}.

Record setup := Setup {
  su_box : box;
  su_c : Lifecycle.container;
  su_git : machine;
  su_cloned : list event;
  su_sent : list string;
}.
Record setup_world := {
  sw_box : box_world;
  sw_life : Lifecycle.world;
  sw_git : msys;
  sw_docker : docker_codec;
  sw_agent : agent_world;
  (** the environment of the user (ProbeUserEnv) *)
  sw_probe : string → string → result (gmap string string);
  sw_Decompress : string → string + string;
  sw_result : CredHelpers.json Result;
  sw_info : CredHelpers.json container_info;
  sw_toJSON : MergedDevContainerConfig → string + Types.json;
  sw_ofJSON : Types.json → string + MergedDevContainerConfig;
  sw_vscode : Types.json → string + VSCodeCustomizations;
  sw_settings : gmap string Types.json → string;
  (** the tunnel: the ping, the archive of a mount, the result *)
  sw_ping : option string;
  sw_stream : string → string + stream;
  sw_send : string → option string;
  (** the download of a folder from the platform, for a token *)
  sw_download : string → string → string + response;
  (** [credentials.StartCredentialsServer] *)
  sw_serve : string + Z;
  (** the configuration the client answers with; [None] without a client *)
  sw_kubeConfig : option (string + string);
  sw_loadKube : string → string + kube;
  sw_writeKube : kube → string;
  (** the environment of the image that was built *)
  sw_imageEnv : string → string + list string;
  sw_random : string;
}.

Section Setup.
Context (w : setup_world).
Notation x := (sw_box w).
Notation fy := (xw_fy x).
Notation S := (M setup).

Definition on_box {A} (c : M box A) : S A :=
  zoom su_box (λ b s, Setup b (su_c s) (su_git s) (su_cloned s) (su_sent s)) c.
Definition on_files {A} (c : M fs A) : S A := on_box (on c).
Definition on_container {A} (c : M Lifecycle.container A) : S A :=
  zoom su_c (λ c s, Setup (su_box s) c (su_git s) (su_cloned s) (su_sent s)) c.
Definition set_cenv (env : gmap string string) (c : Lifecycle.container) : Lifecycle.container :=
  Container (c_markers c) (c_envfile c) env (c_chowns c) (c_ran c).
(** The environment of the process is in the container. *)
Definition on_machine {A} (c : M machine A) : S A := λ s,
  let m := su_git s in
  let '(r, m) := c (Machine (m_files m) (m_dirs m) (m_owner m) (c_env (su_c s)) (m_ran m) (m_out m)) in
  (r, Setup (su_box s) (set_cenv (m_env m) (su_c s)) m (su_cloned s) (su_sent s)).
Definition on_agent {A} (c : M agent A) : S A := λ s,
  let '(r, a) := c (Agent (b_fs (su_box s)) ∅ 0 []) in
  (r, Setup (Box (ag_fs a) (b_alive (su_box s)) (b_acts (su_box s))) (su_c s) (su_git s)
        (su_cloned s ++ ag_events a) (su_sent s)).

Definition getenv (k : string) : S string :=
  s ← getS; mret (default "" (c_env (su_c s) !! k)).
Definition setenv (k v : string) : S unit :=
  on_container (modifyS (λ c, set_cenv (<[k := v]> (c_env c)) c)).
Definition unsetenv (k : string) : S unit :=
  on_container (modifyS (λ c, set_cenv (delete k (c_env c)) c)).
(** [os.Stat] succeeds *)
Definition there p : S bool := on_files (exists_ fy p).
(** The entries of a directory; none if it cannot be read *)
Definition entries_of p : S (list string) :=
  r ← caught (on_files (ReadDir fy p)); mret (match r with Ok l => l | _ => [] end).
Definition executable : S string := liftR (of_sum (xw_executable x)).

(** ** pkg/devcontainer/setup/setup.go *)

Definition ResultLocation : string := "/var/run/devpod/result.json".
(** Errors are only logged. *)
Definition WriteResult (setupInfo : Result) : M fs unit :=
  let rawBytes := j_Marshal (sw_result w) setupInfo in
  r ← caught (ReadFile fy ResultLocation);
  let existing := match r with Ok content => content | _ => "" end in
  if decide (rawBytes = existing) then mret ()
  else try_ (_ ← MkdirAll fy (filepath_Dir ResultLocation) 511;
             write_file x ResultLocation rawBytes 384).

Definition LinkRootHome (setupInfo : Result) : S unit :=
  let user := GetRemoteUser (Some setupInfo) in
  if decide (user ≠ "root") then mret ()
  else
    home ← liftR (wrap "find root home" (of_sum (xw_GetHome x user)));
    if decide (home = "/home/root") then mret ()
    else
      linked ← there "/home/root";
      if linked : bool then mret ()
      else
        r ← caught (on_files (MkdirAll fy "/home" 511));
        _ ← liftR (wrap "create /home folder" r);
        r ← caught (on_files (Symlink fy home "/home/root"));
        liftR (wrap "create symlink" r).

Definition profile_patch : list string :=
  ["sh"; "-c"; "sed -i -E 's/((^|\s)PATH=)([^\$]*)$/\1${PATH:-\3}/g' /etc/profile || true"].
Definition PatchEtcProfile : S unit :=
  exists_ ← on_container (markerFileExists (sw_life w) "patchEtcProfile" "");
  if exists_ : bool then mret ()
  else
    '(out, err) ← on_box (run_cmd x profile_patch);
    match err with
    | Some e => throw ("create remote environment: " +:+ out +:+ ": " +:+ e)
    | None => mret ()
    end.

Definition ChownAgentSock (setupInfo : Result) : S unit :=
  agentSockFile ← getenv "SSH_AUTH_SOCK";
  if decide (agentSockFile = "") then mret ()
  else
    r ← caught (on_box (chown x true (filepath_Dir agentSockFile) (GetRemoteUser (Some setupInfo))));
    match r with
    | Err e => if decide (e = ENOENT) then mret () else throw e
    | r => liftR r
    end.

(** [os.Mkdir] *)
Definition Mkdir p (perm : N) : M fs unit :=
  call fy OpMkdir p (
    f ← getS;
    match walk f false p with
    | None => throw ENOENT
    | Some q => match get f q with
                | Some _ => throw EEXIST
                | None => modifyS (<[q := Dir perm]> : fs → fs)
                end
    end).
Definition merge_kube (existing new : kube) : kube := {|
  kc_clusters := kc_clusters new ∪ kc_clusters existing;
  kc_authInfos := kc_authInfos new ∪ kc_authInfos existing;
  kc_contexts := kc_contexts new ∪ kc_contexts existing;
  kc_current := kc_current new |}.
Definition no_kube : kube := {|
  kc_clusters := ∅; kc_authInfos := ∅; kc_contexts := ∅; kc_current := "" |}.
(** [clientcmd.LoadFromFile]; a missing file is the empty configuration *)
Definition load_kube configPath : S kube :=
  r ← caught (on_files (ReadFile fy configPath));
  match r with
  | Ok content => liftR (of_sum (sw_loadKube w content))
  | Err e => if decide (e = ENOENT) then mret no_kube else throw e
  | Panic => liftR Panic
  | NoFuel => liftR NoFuel
  end.
Definition write_kube (message user : string) : S unit :=
  homeDir ← liftR (of_sum (xw_GetHome x user));
  let kubeDir := filepath_Join [homeDir; ".kube"] in
  r ← caught (on_files (Mkdir kubeDir 493));
  _ ← (match r with
       | Err e => if decide (e = EEXIST) then mret () else throw e
       | r => liftR r
       end);
  let configPath := filepath_Join [kubeDir; "config"] in
  existingConfig ← load_kube configPath;
  kubeConfig ← liftR (of_sum (sw_loadKube w message));
  _ ← on_files (write_file x configPath (sw_writeKube w (merge_kube existingConfig kubeConfig)) 384);
  on_box (chown x true kubeDir user).
Definition SetupKubeConfig (setupInfo : Result) : S unit :=
  exists_ ← on_container (markerFileExists (sw_life w) "setupKubeConfig" "");
  match sw_kubeConfig w with
  | None => mret ()
  | Some answer =>
      if exists_ : bool then mret ()
      else
        message ← liftR (of_sum answer);
        if decide (message = "") then mret ()
        else write_kube message (GetRemoteUser (Some setupInfo))
  end.

Definition key_prefix : string := "platform_git_ssh_".
Definition key_file (sshFolder : string) (i : nat) : string :=
  filepath_Join [sshFolder; key_prefix +:+ pretty i].
(** A key with an index of the new ones is removed before they are written; others stay. *)
Definition outdated_key (count : nat) (name : string) : bool :=
  HasPrefix name key_prefix &&
  match Atoi (TrimPrefix name key_prefix) with
  | Some index => (index <? Z.of_nat count)%Z
  | None => false
  end.
Definition remove_old_keys (sshFolder : string) (count : nat) : S unit :=
  files ← on_files (ReadDir fy sshFolder);
  forM_ (filter (λ f, outdated_key count f = true) files) (λ f,
    try_ (on_files (Remove fy (filepath_Join [sshFolder; f])))).
(** Errors of a key are only logged. *)
Definition write_key (sshFolder userName : string) (i : nat) (key : string) : S unit :=
  match DecodeString key with
  | None => mret ()
  | Some decoded =>
      try_ (_ ← on_files (write_file x (key_file sshFolder i) decoded 384);
            on_box (chown x false (key_file sshFolder i) userName))
  end.
Fixpoint write_new_keys (sshFolder userName : string) (i : nat) (keys : list string) : S unit :=
  match keys with
  | [] => mret ()
  | key :: keys =>
      _ ← write_key sshFolder userName i key;
      write_new_keys sshFolder userName (Datatypes.S i) keys
  end.
Definition setupPlatformGitSSHKeys (userName : string) (enabled : bool) (keys : list string) : S unit :=
  if negb enabled || bool_decide (keys = []) then mret ()
  else
    homeFolder ← liftR (of_sum (xw_GetHome x userName));
    let sshFolder := filepath_Join [homeFolder; ".ssh"] in
    r ← caught (on_files (MkdirAll fy sshFolder 448));
    _ ← (match r with
         | Err e => if decide (e = EEXIST) then mret () else throw e
         | r => liftR r
         end);
    _ ← try_ (on_box (chown x false sshFolder userName));
    _ ← remove_old_keys sshFolder (length keys);
    write_new_keys sshFolder userName 0 keys.
Definition setupPlatformGitHTTPCredentials (userName : string) (enabled : bool)
    (http : list GitHttpCredential) : S unit :=
  if negb enabled || bool_decide (length http = 0) then mret ()
  else
    binaryPath ← executable;
    r ← caught (on_machine (ConfigureHelper (sw_git w) binaryPath userName (-1)));
    liftR (wrap "configure git helper" r).
Definition setup_git_user (userName : string) (pl : platform_info) : S unit :=
  if decide (pi_GitUser pl ≠ "" ∧ pi_GitEmail pl ≠ "") then
    gitUser ← caught (on_machine (GetUser (sw_git w) userName));
    match gitUser with
    | Ok u =>
        if decide (gu_Name u = "" ∧ gu_Email u = "") then
          r ← caught (on_machine (SetUser (sw_git w) userName
                {| gu_Name := pi_GitUser pl; gu_Email := pi_GitEmail pl |}));
          liftR (wrap "set git user" r)
        else mret ()
    | _ => mret ()
    end
  else mret ().
Definition setupPlatformGitCredentials (userName : string) (enabled : bool) (pl : platform_info)
    : S unit :=
  if negb enabled then mret ()
  else
    _ ← setup_git_user userName pl;
    _ ← try_ (setupPlatformGitHTTPCredentials userName enabled (pi_GitHttp pl));
    try_ (setupPlatformGitSSHKeys userName enabled (pi_GitSsh pl)).

Definition SetupContainer (setupInfo : Result) (extraWorkspaceEnv : list string)
    (chownProjects enabled : bool) (pl : platform_info) : S unit :=
  _ ← on_files (WriteResult setupInfo);
  r ← caught (on_container (ChownWorkspace (sw_life w) setupInfo chownProjects));
  _ ← liftR (wrap "chown workspace" r);
  mergedConfig ← liftR (deref (res_MergedConfig setupInfo));
  r ← caught (on_container (PatchEtcEnvironment (sw_life w) mergedConfig));
  _ ← liftR (wrap "patch etc environment" r);
  r ← caught (on_container (PatchEtcEnvironmentFlags (sw_life w) extraWorkspaceEnv));
  _ ← liftR (wrap "patch etc environment from flags" r);
  r ← caught PatchEtcProfile;
  _ ← liftR (wrap "patch etc profile" r);
  _ ← try_ (LinkRootHome setupInfo);
  r ← caught (ChownAgentSock setupInfo);
  _ ← liftR (wrap "chown ssh agent sock file" r);
  _ ← try_ (SetupKubeConfig setupInfo);
  _ ← try_ (setupPlatformGitCredentials (GetRemoteUser (Some setupInfo)) enabled pl);
  r ← caught (on_container (RunLifecycleHooks (sw_life w) (sw_probe w) setupInfo));
  liftR (wrap "lifecycle hooks" r).

(** ** cmd/agent/container/setup.go: mounts *)

(** The mount of the workspace, and the bind mounts of the configuration *)
Definition GetMounts (result : Result) : Prelude.result (list Mount) :=
  ctx ← deref (res_SubstitutionContext result);
  workspaceMount ← ParseMount (ctx_workspaceMount ctx);
  merged ← deref (res_MergedConfig result);
  Ok (workspaceMount :: filter (λ m, mount_type m = "bind") (n_mounts (mc_nonCompose merged))).

Definition hex (n : nat) : ascii := ascii_of_nat (if (n <? 10)%nat then 48 + n else 55 + n).
(** [url.QueryEscape] *)
Definition escape_char (c : ascii) : string :=
  if is_alnum c || scontains_char c "-_.~" then String c ""
  else if bool_decide (c = " "%char) then "+"
  else String "%" (String (hex (code c / 16)) (String (hex (code c mod 16)) "")).
Fixpoint QueryEscape (s : string) : string :=
  match s with
  | "" => ""
  | String c s => escape_char c +:+ QueryEscape s
  end.
Definition download_url (info : container_info) (m : Mount) : string :=
  "https://" +:+ RemoveProtocol (po_platformHost (cli_platform (ci_cli info))) +:+
  "/kubernetes/management/apis/management.loft.sh/v1/namespaces/" +:+
  pi_InstanceNamespace (ci_platform info) +:+ "/devpodworkspaceinstances/" +:+
  pi_InstanceName (ci_platform info) +:+ "/download?path=" +:+ QueryEscape (mount_source m).
Definition extract_mount (m : Mount) (archive : stream) : S unit :=
  r ← caught (on_files (Extract fy archive (mount_target m) no_options));
  liftR (wrap ("stream mount " +:+ Mount_String m) r).
Definition streamMount (info : container_info) (m : Mount) : S unit :=
  if cli_platformEnabled (ci_cli info) then
    let url := download_url info m in
    _ ← on_box (did (Got url));
    resp ← liftR (wrap "download workspace"
             (of_sum (sw_download w (po_accessKey (cli_platform (ci_cli info))) url)));
    if decide (hr_status resp ≠ 200%Z) then
      throw ("download workspace: body = " +:+ hr_body resp +:+ ", status = " +:+ pretty (hr_status resp))
    else extract_mount m (xw_tar x (hr_body resp) (hr_cut resp))
  else
    archive ← liftR (wrap ("init stream mount " +:+ Mount_String m)
                (of_sum (sw_stream w (Mount_String m))));
    extract_mount m archive.
(** A mount that is not empty is skipped, unless the workspace is reset. *)
Definition stream_one (info : container_info) (m : Mount) : S unit :=
  if cli_reset (ci_cli info) then streamMount info m
  else
    files ← entries_of (mount_target m);
    if decide (files ≠ []) then mret () else streamMount info m.
Definition stream_mounts (info : container_info) (setupInfo : Result) : S unit :=
  mounts ← liftR (GetMounts setupInfo); forM_ mounts (stream_one info).

(** ** The environment *)

Definition with_merged (r : Result) (m : MergedDevContainerConfig) : Result := {|
  res_Config := res_Config r; res_MergedConfig := Some m;
  res_SubstitutionContext := res_SubstitutionContext r;
  res_ContainerDetails := res_ContainerDetails r |}.
Definition with_remoteEnv (m : MergedDevContainerConfig) (env : gmap string string)
    : MergedDevContainerConfig := {|
  DevContainer.mc_base := let b := DevContainer.mc_base m in {|
    b_name := b_name b; b_features := b_features b;
    b_overrideFeatureInstallOrder := b_overrideFeatureInstallOrder b;
    b_forwardPorts := b_forwardPorts b; b_portsAttributes := b_portsAttributes b;
    b_otherPortsAttributes := b_otherPortsAttributes b;
    b_updateRemoteUserUID := b_updateRemoteUserUID b; b_remoteEnv := env;
    b_remoteUser := b_remoteUser b; b_initializeCommand := b_initializeCommand b;
    b_shutdownAction := b_shutdownAction b; b_waitFor := b_waitFor b;
    b_userEnvProbe := b_userEnvProbe b; b_hostRequirements := b_hostRequirements b;
    b_overrideCommand := b_overrideCommand b; b_workspaceFolder := b_workspaceFolder b;
    b_settings := b_settings b; b_extensions := b_extensions b; b_devPort := b_devPort b |};
  DevContainer.mc_updated := DevContainer.mc_updated m; DevContainer.mc_nonCompose := DevContainer.mc_nonCompose m; DevContainer.mc_image := DevContainer.mc_image m;
  DevContainer.mc_compose := DevContainer.mc_compose m; DevContainer.mc_dockerfile := DevContainer.mc_dockerfile m;
  DevContainer.mc_containerID := DevContainer.mc_containerID m; DevContainer.mc_origin := DevContainer.mc_origin m |}.
Definition default_path (env : gmap string string) : gmap string string :=
  match env !! "PATH" with
  | Some _ => env
  | None => <["PATH" := "${containerEnv:PATH}"]> env
  end.
Definition fillContainerEnv (setupInfo : Result) : S Result :=
  merged ← liftR (deref (res_MergedConfig setupInfo));
  let merged := with_remoteEnv merged (default_path (b_remoteEnv (mc_base merged))) in
  s ← getS;
  let substituted :=
    newVal ← of_sum (sw_toJSON w merged);
    of_sum (sw_ofJSON w (SubstituteContainerEnv (c_env (su_c s)) newVal)) in
  newMerged ← liftR (wrap "substitute container env" substituted);
  mret (with_merged setupInfo newMerged).

(** ** Building inside of the container *)

Definition DockerlessImageConfigOutput : string := "/.dockerless/image.json".
Definition DevPodDockerlessBuildInfoFolder : string := "/workspaces/.dockerless".
Definition parseIgnorePaths (ignorePaths : string) : list string :=
  if decide (TrimSpace ignorePaths = "") then []
  else Split "," ignorePaths ≫= λ s, ["--ignore-path"; TrimSpace s].
Definition rename_directory (srcDir dest : string) : M fs unit :=
  f ← getS; RenameDirectory fy (tree_depth f) srcDir dest.
(** The folder with the information for the build, which is moved there if it is missing *)
Definition find_build_info (fallbackDir buildInfoDir : string) : S unit :=
  here ← there buildInfoDir;
  if here : bool then mret ()
  else
    r ← caught (on_files (rename_directory fallbackDir buildInfoDir));
    _ ← liftR (wrap "rename dir" r);
    here ← there buildInfoDir;
    if here : bool then mret () else throw ("couldn't find build dir " +:+ buildInfoDir).
Definition configureDockerCredentials : S string :=
  serverPort ← liftR (of_sum (sw_serve w));
  on_machine (ConfigureCredentialsDockerless (sw_git w) (sw_docker w) (sw_random w)
                "/.dockerless/.docker" serverPort).
(** The variable and the directory are removed when the build is over. *)
Definition with_docker_credentials (d : ProviderDockerlessOptions) (build : S unit) : S unit :=
  if decide (dl_disableDockerCredentials d = "true") then build
  else
    r ← caught configureDockerCredentials;
    match r with
    | Ok dir => deferred (_ ← unsetenv "DOCKER_CONFIG"; on_machine (try_ (remove_all (sw_git w) dir))) build
    | Err _ => build
    | Panic => liftR Panic
    | NoFuel => liftR NoFuel
    end.
Fixpoint ignore_mounts (mounts : list Mount) : S (list string) :=
  match mounts with
  | [] => mret []
  | m :: mounts =>
      files ← entries_of (mount_target m);
      rest ← ignore_mounts mounts;
      mret ((if decide (files ≠ []) then ["--ignore-path"; mount_target m] else []) ++ rest)
  end.
Definition build_args (d : ProviderDockerlessOptions) (binaryPath folder : string)
    (mounts : list string) : list string :=
  ["build"; "--ignore-path"; binaryPath] ++ parseIgnorePaths (dl_ignorePaths d) ++
  ["--build-arg"; "TARGETOS=linux"; "--build-arg"; "TARGETARCH=" +:+ xw_arch x] ++
  (if decide (dl_registryCache d ≠ "") then ["--registry-cache"; dl_registryCache d] else []) ++
  ["--ignore-path"; folder] ++ mounts.
Definition run_dockerless (setupInfo : Result) (d : ProviderDockerlessOptions)
    (binaryPath fallbackDir buildInfoDir : string) : S unit :=
  ctx ← liftR (deref (res_SubstitutionContext setupInfo));
  merged ← liftR (deref (res_MergedConfig setupInfo));
  mounts ← ignore_mounts (n_mounts (mc_nonCompose merged));
  '(_, err) ← on_box (run_cmd x ("/.dockerless/dockerless" ::
      build_args d binaryPath (ctx_containerWorkspaceFolder ctx) mounts));
  match err with
  | Some e => throw e
  | None =>
      rawConfig ← on_files (ReadFile fy DockerlessImageConfigOutput);
      env ← liftR (wrap "parse container config" (of_sum (sw_imageEnv w rawConfig)));
      _ ← on_container (MergeAndApply (sw_life w) (ListToObject env));
      _ ← try_ (on_files (RemoveAll fy fallbackDir));
      try_ (on_files (rename_directory buildInfoDir fallbackDir))
  end.
Definition dockerlessBuild (setupInfo : Result) (d : ProviderDockerlessOptions) : S unit :=
  dockerless ← getenv "DOCKERLESS";
  if decide (dockerless ≠ "true") then mret ()
  else
    built ← there DockerlessImageConfigOutput;
    if built : bool then mret ()
    else
      buildContext ← getenv "DOCKERLESS_CONTEXT";
      if decide (buildContext = "") then mret ()
      else
        let fallbackDir := filepath_Join [DevPodDockerlessBuildInfoFolder; DevPodContextFeatureFolder] in
        let buildInfoDir := filepath_Join [buildContext; DevPodContextFeatureFolder] in
        _ ← find_build_info fallbackDir buildInfoDir;
        binaryPath ← executable;
        with_docker_credentials d (run_dockerless setupInfo d binaryPath fallbackDir buildInfoDir).

(** ** Git credentials during the setup *)

Definition configureSystemGitCredentials : S unit :=
  git ← on_box (IdeServers.Exists x "git");
  if negb git then throw "git not found"
  else
    serverPort ← liftR (of_sum (sw_serve w));
    binaryPath ← executable;
    _ ← setenv "DEVPOD_GIT_HELPER_PORT" (pretty serverPort);
    '(_, err) ← on_box (run_cmd x ["git"; "config"; "--system"; "--add"; "credential.helper";
      "!'" +:+ binaryPath +:+ "' agent git-credentials --port " +:+ pretty serverPort]);
    match err with Some e => throw ("add git credential helper: " +:+ e) | None => mret () end.
Definition unset_helper : list string := ["git"; "config"; "--system"; "--unset"; "credential.helper"].
(** An error is only logged; the helper is removed when the setup is over. *)
Definition with_git_credentials {A} (inject : bool) (rest : S A) : S A :=
  if inject then
    r ← caught configureSystemGitCredentials;
    match r with
    | Ok () => deferred (_ ← on_box (run_cmd x unset_helper); mret ()) rest
    | Err _ => rest
    | Panic => liftR Panic
    | NoFuel => liftR NoFuel
    end
  else rest.

(** ** The IDE *)

Definition add_extension (l : list string) (e : string) : list string :=
  if decide (e ∈ l) then l else l ++ [e].
Definition merge_vscode (ret : VSCodeCustomizations) (customization : Types.json)
    : VSCodeCustomizations :=
  match sw_vscode w customization with
  | inl _ => ret
  | inr vsCode => {|
      vs_settings := vs_settings vsCode ∪ vs_settings ret;
      vs_extensions := foldl add_extension (vs_extensions ret) (vs_extensions vsCode);
      vs_devPort := vs_devPort ret |}
  end.
Definition GetVSCodeConfiguration (merged : MergedDevContainerConfig) : VSCodeCustomizations :=
  match u_customizations (mc_updated merged) !! "vscode" with
  | None => no_vscode
  | Some l => foldl merge_vscode no_vscode l
  end.
Definition settings_text (c : VSCodeCustomizations) : string :=
  if decide (vs_settings c = ∅) then "" else sw_settings w (vs_settings c).

Definition setupVSCode (SetupInfo : string) (setupInfo : Result) (flavor : string) : S unit :=
  merged ← liftR (deref (res_MergedConfig setupInfo));
  let c := GetVSCodeConfiguration merged in
  let user := GetRemoteUser (Some setupInfo) in
  _ ← on_box (vscode_Install x (NewVSCodeServer (vs_extensions c) (settings_text c) user flavor));
  if decide (vs_extensions c = []) then mret ()
  else on_box (Single x (flavor +:+ "-async.pid")
    (binaryPath ← liftR (of_sum (xw_executable x));
     mret ([binaryPath; "agent"; "container"; "vscode-async"; "--setup-info"; SetupInfo;
            "--release-channel"; flavor], ""))).
Definition setupOpenVSCode (SetupInfo : string) (setupInfo : Result)
    (ideOptions : gmap string OptionValue) : S unit :=
  merged ← liftR (deref (res_MergedConfig setupInfo));
  let c := GetVSCodeConfiguration merged in
  let o := {| oc_values := ideOptions; oc_extensions := vs_extensions c;
              oc_settings := settings_text c; oc_userName := GetRemoteUser (Some setupInfo);
              oc_host := "0.0.0.0"; oc_port := pretty DefaultVSCodePort |} in
  _ ← on_box (openvscode_Install x o);
  _ ← (if decide (vs_extensions c = []) then mret ()
       else
         r ← caught (on_box (Single x "openvscode-async.pid"
           (binaryPath ← liftR (of_sum (xw_executable x));
            mret ([binaryPath; "agent"; "container"; "openvscode-async"; "--setup-info"; SetupInfo], ""))));
         liftR (wrap "install extensions" r));
  on_box (openvscode_Start x o).

(** The flavor of an editor, and the product of a JetBrains IDE, by the name of the IDE *)
Definition vscode_flavor (name : string) : option string :=
  if decide (name = "vscode") then Some FlavorStable
  else if decide (name = "vscode-insiders") then Some FlavorInsiders
  else if decide (name = "cursor") then Some FlavorCursor
  else if decide (name = "positron") then Some FlavorPositron
  else if decide (name = "codium") then Some FlavorCodium
  else if decide (name = "windsurf") then Some FlavorWindsurf
  else None.
Definition jetbrains_product (name : string) : option product :=
  List.find (λ q, bool_decide (pr_ID q = name))
    [GolandServer; RustRoverServer; PyCharmServer; PhpStorm; Intellij; CLionServer; RiderServer;
     RubyMineServer; WebStormServer; DataSpellServer].
Definition installIDE (SetupInfo : string) (setupInfo : Result) (ide : WorkspaceIDEConfig) : S unit :=
  let name := wi_name ide in
  let options := default ∅ (wi_options ide) in
  let user := GetRemoteUser (Some setupInfo) in
  let folder := ctx ← liftR (deref (res_SubstitutionContext setupInfo));
                mret (ctx_containerWorkspaceFolder ctx) in
  match vscode_flavor name, jetbrains_product name with
  | Some flavor, _ => setupVSCode SetupInfo setupInfo flavor
  | None, Some p => on_box (jetbrains_Install x p user options)
  | None, None =>
      if decide (name = "openvscode") then setupOpenVSCode SetupInfo setupInfo options
      else if decide (name = "fleet") then
        folder ← folder; on_box (fleet_Install x user options folder)
      else if decide (name = "jupyternotebook") then
        folder ← folder; on_box (jupyter_Install x folder user)
      else if decide (name = "rstudio") then
        folder ← folder; try_ (on_box (rstudio_Install x folder user))
      else mret ()
  end.

(** ** The command *)

Record SetupContainerCmd := {
  sc_ChownWorkspace : bool;
  sc_StreamMounts : bool;
  sc_InjectGitCredentials : bool;
  sc_ContainerWorkspaceInfo : string;
  sc_SetupInfo : string;
}.
(** pkg/agent/agent.go *)
Definition DecodeContainerWorkspaceInfo (workspaceInfoRaw : string) : result container_info :=
  decoded ← wrap "decode workspace info" (of_sum (sw_Decompress w workspaceInfoRaw));
  wrap "parse workspace info" (of_sum (j_Unmarshal (sw_info w) decoded)).
Definition decode_setup (SetupInfo : string) : result Result :=
  decompressed ← of_sum (sw_Decompress w SetupInfo);
  of_sum (j_Unmarshal (sw_result w) decompressed).

(** The workspace that is cloned in the container, as the agent describes it *)
Definition clone_info (info : container_info) : agent_info := {|
  g_info := {|
    ai_workspaceOrigin := "";
    ai_workspace := {|
      w_id := ""; w_uid := ""; w_picture := "";
      w_provider := {| wpr_name := ""; wpr_options := None |};
      w_machine := {| wm_id := ""; wm_autoDelete := false |};
      w_ide := ci_ide info; w_source := ci_source info; w_devContainerImage := "";
      w_devContainerPath := ""; w_devContainerConfig := None; w_creationTimestamp := 0;
      w_lastUsedTimestamp := 0; w_context := ""; w_imported := false; w_origin := "";
      w_pro := None; w_sshConfigPath := "" |};
    ai_machine := None; ai_cliOptions := ci_cli info; ai_agent := ci_agent info;
    ai_options := ∅; ai_contentFolder := ci_contentFolder info; ai_origin := "";
    ai_injectTimeout := 0; ai_registryCache := "" |};
  g_last := None; g_git := ci_git info |}.
(** The repository is cloned unless there is one already. *)
Definition pull_inside (info : container_info) (setupInfo : Result) : S unit :=
  match StrBool_Bool (Some (ci_pullFromInsideContainer info)) with
  | Ok true =>
      ctx ← liftR (deref (res_SubstitutionContext setupInfo));
      let folder := ctx_containerWorkspaceFolder ctx in
      cloned ← there (filepath_Join [folder; ".git"]);
      if (cloned : bool) && negb (cli_recreate (ci_cli info)) then mret ()
      else on_agent (CloneRepositoryForWorkspace (sw_agent w) (clone_info info) folder "" true)
  | _ => mret ()
  end.
Definition start_container_daemon (info : container_info) : S unit :=
  if negb (cli_platformEnabled (ci_cli info)) && negb (cli_disableDaemon (ci_cli info)) &&
     bool_decide (ci_containerTimeout info ≠ "") then
    on_box (Single x "devpod.daemon.pid"
      (binaryPath ← liftR (of_sum (xw_executable x));
       mret ([binaryPath; "agent"; "container"; "daemon"; "--timeout"; ci_containerTimeout info], "")))
  else mret ().
Definition send_result (setupInfo : Result) : S unit :=
  let out := j_Marshal (sw_result w) setupInfo in
  match sw_send w out with
  | Some e => throw ("send result: " +:+ e)
  | None => modifyS (λ s, Setup (su_box s) (su_c s) (su_git s) (su_cloned s) (su_sent s ++ [out]))
  end.
(** What is done while the credentials of git are there *)
Definition setup_steps (cmd : SetupContainerCmd) (info : container_info) (setupInfo : Result) : S unit :=
  _ ← pull_inside info setupInfo;
  _ ← SetupContainer setupInfo (cli_workspaceEnv (ci_cli info)) (sc_ChownWorkspace cmd)
        (cli_platformEnabled (ci_cli info)) (ci_platform info);
  _ ← installIDE (sc_SetupInfo cmd) setupInfo (ci_ide info);
  _ ← start_container_daemon info;
  send_result setupInfo.
Definition SetupContainerCmd_Run (cmd : SetupContainerCmd) : S unit :=
  match sw_ping w with
  | Some e => throw ("ping client: " +:+ e)
  | None =>
      info ← liftR (DecodeContainerWorkspaceInfo (sc_ContainerWorkspaceInfo cmd));
      setupInfo ← liftR (decode_setup (sc_SetupInfo cmd));
      _ ← (if sc_StreamMounts cmd then stream_mounts info setupInfo else mret ());
      r ← caught (dockerlessBuild setupInfo (ci_dockerless info));
      _ ← liftR (wrap "dockerless build" r);
      setupInfo ← fillContainerEnv setupInfo;
      with_git_credentials (sc_InjectGitCredentials cmd) (setup_steps cmd info setupInfo)
  end.

(** *** The background commands vscode-async and openvscode-async *)

Definition VSCodeAsync_Run (passes : nat) (SetupInfo flavor : string) : S unit :=
  setupInfo ← liftR (decode_setup SetupInfo);
  merged ← liftR (deref (res_MergedConfig setupInfo));
  on_box (vscode_InstallExtensions x passes
    (NewVSCodeServer (vs_extensions (GetVSCodeConfiguration merged)) ""
       (GetRemoteUser (Some setupInfo)) flavor)).
Definition OpenVSCodeAsync_Run (SetupInfo : string) : S unit :=
  setupInfo ← liftR (decode_setup SetupInfo);
  merged ← liftR (deref (res_MergedConfig setupInfo));
  on_box (openvscode_InstallExtensions x {|
    oc_values := ∅; oc_extensions := vs_extensions (GetVSCodeConfiguration merged);
    oc_settings := ""; oc_userName := GetRemoteUser (Some setupInfo); oc_host := ""; oc_port := "" |}).
End Setup.
