(* ===== verification/ContainerSetupProps.v ===== *)
(** * Properties of the setup of a container

    Setting up a container again, what a mount or a key leaves, and the helper of git. *)

From S2P Require Import Prelude GoStrings Types Config Git Names DevContainer Substitute Provider Options Home Clients Driver DevContainerFile Lifecycle LifecycleProps FileTree FileTreeProps Extract ExtractProps Binaries BinariesProps CredHelpers CredHelpersProps Agent AgentWorkspace AgentProps IdeServers IdeServersProps ContainerSetup.
From stdpp Require Import base gmap sets list strings sorting pretty.
From Stdlib Require Import ZArith Lia.

Local Open Scope string_scope.
Local Open Scope list_scope.

(** ** What keeps the container *)

Notation same_env := (λ m m' : machine, m_env m' = m_env m).
#[local] Instance same_env_preorder : PreOrder same_env.
Proof. split; [done|]. intros ? ? ? H1 H2. congruence. Qed.

Section GitEnv.
Context (ms : msys).
Lemma Getenv_env k : stays same_env (Getenv k).
Proof. unfold Getenv. stays. Qed.
#[local] Hint Resolve Getenv_env read_env write_env chown_env exec_env : stays.
Lemma path_env (user : string) : stays same_env (getGlobalGitConfigPath ms user).
Proof. unfold getGlobalGitConfigPath. stays. Qed.
#[local] Hint Resolve path_env : stays.
Lemma ConfigureHelper_env binaryPath user port : stays same_env (ConfigureHelper ms binaryPath user port).
Proof. unfold ConfigureHelper. stays. Qed.
Lemma Output_env env args stdin : stays same_env (Output ms env args stdin).
Proof. unfold Output. stays. Qed.
#[local] Hint Resolve Output_env : stays.
Lemma set_user_key_env user k v : stays same_env (set_user_key ms user k v).
Proof. unfold set_user_key. stays. Qed.
#[local] Hint Resolve set_user_key_env : stays.
Lemma SetUser_env user u : stays same_env (SetUser ms user u).
Proof. unfold SetUser. stays. Qed.
Lemma GetUser_env user : stays same_env (GetUser ms user).
Proof. unfold GetUser. stays. Qed.
End GitEnv.

Definition same_c (s s' : setup) : Prop := su_c s' = su_c s.
#[export] Instance same_c_preorder : PreOrder same_c.
Proof. split; unfold same_c; [done|]. intros ? ? ? -> ->. done. Qed.

Section Keep.
Context (w : setup_world).
Notation x := (sw_box w).

Lemma on_box_c {A} (c : M box A) : stays same_c (on_box c).
Proof. intros s. unfold on_box, zoom. by destruct (c (su_box s)). Qed.
Lemma on_machine_c {A} (c : M machine A) : stays same_env c → stays same_c (on_machine c).
Proof.
  intros Hc s. unfold on_machine. set (m := Machine _ _ _ _ _ _). specialize (Hc m).
  destruct (c m) as [r m']. cbn in Hc |- *. unfold same_c. cbn. rewrite Hc.
  by destruct (su_c s).
Qed.
Lemma on_files_c {A} (c : M fs A) : stays same_c (on_files c).
Proof. apply on_box_c. Qed.
Lemma getenv_c k : stays same_c (getenv k).
Proof. unfold getenv. stays. Qed.
Lemma there_c (p : string) : stays same_c (there w p).
Proof. apply on_files_c. Qed.
End Keep.
#[export] Hint Resolve on_box_c on_files_c getenv_c there_c on_machine_c ConfigureHelper_env
  SetUser_env GetUser_env : stays.

Section KeepMore.
Context (w : setup_world).
Lemma LinkRootHome_c info : stays same_c (LinkRootHome w info).
Proof. unfold LinkRootHome. stays. Qed.
Lemma ChownAgentSock_c info : stays same_c (ChownAgentSock w info).
Proof. unfold ChownAgentSock. stays. Qed.
Lemma load_kube_c (p : string) : stays same_c (load_kube w p).
Proof. unfold load_kube. stays. Qed.
#[local] Hint Resolve load_kube_c : stays.
Lemma write_kube_c message user : stays same_c (write_kube w message user).
Proof. unfold write_kube. stays. Qed.
Lemma remove_old_keys_c folder n : stays same_c (remove_old_keys w folder n).
Proof.
  unfold remove_old_keys. apply stays_bind; [apply _|apply on_files_c|]. intros files s.
  apply (forM_rel same_c). intros f s1 _. apply stays_try, on_files_c.
Qed.
Lemma write_new_keys_c folder user i keys : stays same_c (write_new_keys w folder user i keys).
Proof.
  revert i. induction keys as [|key keys IH]; intros i; cbn [write_new_keys]; [stays|].
  apply stays_bind; [apply _|unfold write_key|intros; apply IH].
  destruct (DecodeString key); [apply stays_try|]; stays.
Qed.
#[local] Hint Resolve remove_old_keys_c write_new_keys_c : stays.
Lemma ssh_keys_c user enabled keys : stays same_c (setupPlatformGitSSHKeys w user enabled keys).
Proof. unfold setupPlatformGitSSHKeys. stays. Qed.
Lemma http_c user enabled http : stays same_c (setupPlatformGitHTTPCredentials w user enabled http).
Proof. unfold setupPlatformGitHTTPCredentials, executable. stays. Qed.
Lemma git_user_c user pl : stays same_c (setup_git_user w user pl).
Proof. unfold setup_git_user. stays. Qed.
#[local] Hint Resolve ssh_keys_c http_c git_user_c : stays.
Lemma platform_c user enabled pl : stays same_c (setupPlatformGitCredentials w user enabled pl).
Proof. unfold setupPlatformGitCredentials. stays. Qed.
End KeepMore.
#[export] Hint Resolve LinkRootHome_c ChownAgentSock_c write_kube_c platform_c : stays.

(** ** Steps that a marker stops the second time *)

Definition has_marker (name content : string) (c : container) : Prop :=
  ∃ t, c_markers c !! marker_path name = Some t ∧ (content = "" ∨ t = content).
Definition same_marker (name : string) (c c' : container) : Prop :=
  c_markers c' !! marker_path name = c_markers c !! marker_path name.
Lemma has_marker_same name content c c' : same_marker name c c' → has_marker name content c →
  has_marker name content c'.
Proof. intros Hs (t & Ht & ?). exists t. by rewrite Hs. Qed.

Section Markers.
Context (l : world) (Hl : files_work l).

Lemma markerFileExists_run name content c r c' : markerFileExists l name content c = (r, c') →
  has_marker name content c' ∧ (r = Ok true ∧ c' = c ∧ has_marker name content c ∨
    r = Ok false ∧ c' = with_marker (marker_path name) content c).
Proof.
  unfold markerFileExists. destruct (Hl (marker_path name)) as [-> ->]. rewrite run_get.
  assert (has_marker name content (with_marker (marker_path name) content c)) as Hm.
  { exists content. cbn. rewrite lookup_insert_eq. auto. }
  destruct (c_markers c !! marker_path name) as [t|] eqn:Ht.
  - case_decide as Hc; intros [= <- <-]; [|by auto].
    assert (has_marker name content c) by (by exists t). auto.
  - intros [= <- <-]. auto.
Qed.
Lemma markerFileExists_there name content c : has_marker name content c →
  markerFileExists l name content c = (Ok true, c).
Proof.
  intros (t & Ht & Hc). unfold markerFileExists. destruct (Hl (marker_path name)) as [-> _].
  rewrite run_get, Ht. by rewrite decide_True.
Qed.
Lemma other_marker name name' content c : name' ≠ name →
  same_marker name' c (with_marker (marker_path name) content c).
Proof.
  intros Hne. unfold same_marker. cbn. rewrite lookup_insert_ne; [done|].
  intros H%marker_path_inj. done.
Qed.

(** A step of [name]: it does not touch the other markers; it settles [Q] when it succeeds, which
    its own marker decides; and then it does nothing. *)
Record settles (name : string) (Q : container → Prop) (c : M container unit) : Prop := {
  st_others : ∀ s r s' n, n ≠ name → c s = (r, s') → same_marker n s s';
  st_done : ∀ s s', c s = (Ok (), s') → Q s';
  st_again : ∀ s, Q s → c s = (Ok (), s);
  st_same : ∀ s s', same_marker name s s' → Q s → Q s';
}.
Lemma settles_nothing name : settles name (λ _, True) (mret ()).
Proof. split; [|done..]. by intros s r s' n _ [= <- <-]. Qed.
(** A step that asks its marker first *)
Lemma settles_marked name content (body : M container unit) :
  (∀ s n, same_marker n s (body s).2) →
  settles name (has_marker name content)
    (exists_ ← markerFileExists l name content; if exists_ : bool then mret () else body).
Proof.
  intros Hb.
  assert (∀ s r s', (exists_ ← markerFileExists l name content;
                     if exists_ : bool then mret () else body) s = (r, s') →
    (∀ n, n ≠ name → same_marker n s s') ∧ has_marker name content s') as Hrun.
  { intros s r s' H. unfold mbind, M_bind in H.
    destruct (markerFileExists l name content s) as [r1 s1] eqn:Hm.
    apply markerFileExists_run in Hm as [Hm [(-> & -> & _)|[-> ->]]].
    - injection H as <- <-. done.
    - pose proof (λ n, Hb (with_marker (marker_path name) content s) n) as H2. rewrite H in H2.
      cbn [snd] in H2. split; [|exact (has_marker_same _ _ _ _ (H2 name) Hm)].
      intros n Hn. unfold same_marker. rewrite H2. by apply other_marker. }
  split.
  - intros s r s' n Hn H. by apply (Hrun _ _ _ H).
  - intros s s' H. by apply (Hrun _ _ _ H).
  - intros s Hs. by rewrite (run_Ok _ _ _ _ _ (markerFileExists_there _ _ _ Hs)).
  - intros s s' Hs. by apply has_marker_same.
Qed.

Lemma MergeAndApply_markers env s n : same_marker n s (MergeAndApply l env s).2.
Proof.
  unfold MergeAndApply. case_decide; [done|]. rewrite run_get.
  destruct (c_envfile s); try done; (destruct (w_write l _); [done|]); by rewrite run_modify.
Qed.
End Markers.

Section Again.
Context (w : setup_world) (Hl : files_work (sw_life w)).
Notation x := (sw_box w).
Notation life := (sw_life w).

(** When each step is done, in the words of its marker *)
Definition env_done (merged : MergedDevContainerConfig) (c : container) : Prop :=
  let remoteEnv := b_remoteEnv (mc_base merged) in
  remoteEnv = ∅ ∨ has_marker "patchEtcEnvironment"
    (GoStrings.Join (merge_sort String.le (quoted_entry <$> map_to_list remoteEnv)) newline) c.
Definition flags_done (env : list string) (c : container) : Prop :=
  env = [] ∨ has_marker "patchEtcEnvironmentFlags" (GoStrings.Join (merge_sort String.le env) newline) c.

Lemma chown_settles info recursive ctx : res_SubstitutionContext info = Some ctx →
  settles "chownWorkspace" (has_marker "chownWorkspace" "") (ChownWorkspace life info recursive).
Proof.
  intros Hctx. apply (settles_marked life Hl "chownWorkspace" ""). intros s n.
  rewrite Hctx. cbn [deref]. rewrite run_lift_Ok. unfold mbind, M_bind.
  case_decide; destruct recursive; done.
Qed.
Lemma env_settles merged : settles "patchEtcEnvironment" (env_done merged)
  (PatchEtcEnvironment life merged).
Proof.
  unfold PatchEtcEnvironment, env_done. destruct (decide _) as [He|He].
  - destruct (settles_nothing "patchEtcEnvironment") as [H1 H2 H3 H4].
    split; auto.
  - destruct (settles_marked life Hl "patchEtcEnvironment"
      (GoStrings.Join (merge_sort String.le (quoted_entry <$> map_to_list (b_remoteEnv (mc_base merged)))) newline)
      (MergeAndApply life (b_remoteEnv (mc_base merged)))) as [H1 H2 H3 H4].
    { intros. apply MergeAndApply_markers. }
    split; [done|eauto|intros s [|]; [done|auto]|intros s s' Hs [|]; [by left|right; eauto]].
Qed.
Lemma flags_settles env : settles "patchEtcEnvironmentFlags" (flags_done env)
  (PatchEtcEnvironmentFlags life env).
Proof.
  unfold PatchEtcEnvironmentFlags, flags_done. destruct env as [|e env].
  - destruct (settles_nothing "patchEtcEnvironmentFlags") as [H1 H2 H3 H4]. split; auto.
  - destruct (settles_marked life Hl "patchEtcEnvironmentFlags"
      (GoStrings.Join (merge_sort String.le (e :: env)) newline)
      (MergeAndApply life (ListToObject (merge_sort String.le (e :: env))))) as [H1 H2 H3 H4].
    { intros. apply MergeAndApply_markers. }
    split; [done|eauto|intros s [|]; [done|auto]|intros s s' Hs [|]; [by left|right; eauto]].
Qed.

Lemma on_container_run {A} (c : M container A) s r s' : on_container c s = (r, s') →
  c (su_c s) = (r, su_c s').
Proof. unfold on_container, zoom. destruct (c (su_c s)) as [r1 c1] eqn:Hc. by intros [= -> <-]. Qed.
Lemma on_container_id {A} (c : M container A) s r : c (su_c s) = (r, su_c s) →
  on_container c s = (r, s).
Proof. unfold on_container, zoom. intros ->. by destruct s. Qed.

Notation on_marker name s := (same_marker name (su_c s)).
(** A step of the setup that asks its marker first, and then keeps the container *)
Lemma marked_step {A} name (k : bool → M setup A) s r s' :
  (∀ b, stays same_c (k b)) →
  (exists_ ← on_container (markerFileExists life name ""); k exists_) s = (r, s') →
  has_marker name "" (su_c s') ∧ ∀ n, n ≠ name → on_marker n s (su_c s').
Proof.
  intros Hk. unfold mbind, M_bind.
  destruct (on_container (markerFileExists life name "") s) as [r1 s1] eqn:Hm. intros H.
  apply on_container_run in Hm. apply markerFileExists_run in Hm as [Hm Hr]; [|done].
  assert (su_c s' = su_c s1) as ->.
  { destruct Hr as [(-> & _)|(-> & _)].
    - pose proof (Hk true s1) as H1. by rewrite H in H1.
    - pose proof (Hk false s1) as H1. by rewrite H in H1. }
  split; [done|]. intros n Hn. destruct Hr as [(_ & -> & _)|(_ & ->)]; [done|]. by apply other_marker.
Qed.
Lemma marked_step_again {A} name (k : bool → M setup A) s : has_marker name "" (su_c s) →
  (exists_ ← on_container (markerFileExists life name ""); k exists_) s = k true s.
Proof.
  intros Hm. apply run_Ok, on_container_id. by apply markerFileExists_there.
Qed.
Lemma profile_run s r s' : PatchEtcProfile w s = (r, s') →
  has_marker "patchEtcProfile" "" (su_c s') ∧ ∀ n, n ≠ "patchEtcProfile" → on_marker n s (su_c s').
Proof. apply marked_step. intros []; stays. Qed.
Lemma kube_run info s r s' : SetupKubeConfig w info s = (r, s') →
  has_marker "setupKubeConfig" "" (su_c s') ∧ ∀ n, n ≠ "setupKubeConfig" → on_marker n s (su_c s').
Proof.
  apply (marked_step "setupKubeConfig" (λ exists_, match sw_kubeConfig w with
    | None => mret () | Some answer => if exists_ then mret () else _ end)).
  intros []; stays.
Qed.
Lemma profile_again s : has_marker "patchEtcProfile" "" (su_c s) → PatchEtcProfile w s = (Ok (), s).
Proof. intros Hm. unfold PatchEtcProfile. by rewrite marked_step_again. Qed.
Lemma kube_again info s : has_marker "setupKubeConfig" "" (su_c s) → SetupKubeConfig w info s = (Ok (), s).
Proof.
  intros Hm. unfold SetupKubeConfig. rewrite marked_step_again by done. by destruct (sw_kubeConfig w).
Qed.
Lemma hooks_others probe info c cs r cs' n : call_of probe info c →
  n ∉ (ph_name <$> phases (hc_hooks c) (hc_details c)) →
  RunLifecycleHooks life probe info cs = (r, cs') → same_marker n cs cs'.
Proof.
  intros Hc Hn. rewrite (RunLifecycleHooks_phases _ _ _ _ _ Hc). intros H.
  pose proof (forM_invariant (λ c', same_marker n cs c') (run_phase life c)
    (phases (hc_hooks c) (hc_details c)) cs) as Hinv.
  rewrite H in Hinv. apply Hinv; [|done]. intros p c1 Hp H1.
  destruct (run_phase life c p c1) as [r1 c2] eqn:Hrun. cbn.
  apply run_marks in Hrun as (Hother & _); [|done]. unfold same_marker. rewrite Hother; [done|].
  intros ->%marker_path_inj. apply Hn. by apply list_elem_of_fmap_2.
Qed.

(** A step whose error is wrapped *)
Lemma wrapped_Ok {St A B} (c : M St A) what (k : M St B) s b s' :
  (r ← caught c; _ ← liftR (wrap what r); k) s = (Ok b, s') →
  ∃ a s1, c s = (Ok a, s1) ∧ k s1 = (Ok b, s').
Proof.
  unfold mbind, M_bind, caught. destruct (c s) as [[a|e| |] s1]; try done. cbn. eauto.
Qed.
Lemma wrapped_run {St A B} (c : M St A) what (k : M St B) s a s1 : c s = (Ok a, s1) →
  (r ← caught c; _ ← liftR (wrap what r); k) s = k s1.
Proof. unfold mbind, M_bind, caught. by intros ->. Qed.
Lemma settled_run {B} name Q (step : M container unit) what (k : M setup B) s : settles name Q step →
  Q (su_c s) → (r ← caught (on_container step); _ ← liftR (wrap what r); k) s = k s.
Proof. intros Hs HQ. eapply wrapped_run, on_container_id. by eapply st_again. Qed.
Lemma settled_Ok {B} name Q (step : M container unit) what (k : M setup B) s b s' : settles name Q step →
  (r ← caught (on_container step); _ ← liftR (wrap what r); k) s = (Ok b, s') →
  ∃ s1, Q (su_c s1) ∧ (∀ n, n ≠ name → on_marker n s (su_c s1)) ∧ k s1 = (Ok b, s').
Proof.
  intros Hs ([] & s1 & H & Hk)%wrapped_Ok. apply on_container_run in H. exists s1.
  split_and!; [by eapply st_done| |done]. intros n Hn. by eapply st_others.
Qed.

(** Everything that is done once is done. *)
Record settled (merged : MergedDevContainerConfig) (env : list string) (c : container) : Prop := {
  se_chown : has_marker "chownWorkspace" "" c;
  se_env : env_done merged c;
  se_flags : flags_done env c;
  se_profile : has_marker "patchEtcProfile" "" c;
  se_kube : has_marker "setupKubeConfig" "" c;
}.
Lemma try_run {A} (c : M setup A) s r s' : try_ c s = (r, s') → ∃ r', c s = (r', s').
Proof. unfold try_. destruct (c s) as [r1 s1]. intros [= _ <-]. by exists r1. Qed.
Ltac marker_chain := intros; unfold same_marker, same_c in *;
  repeat match goal with
  | E : su_c ?t = _ |- context [su_c ?t] => rewrite E
  | K : ∀ n, n ≠ _ → c_markers (su_c ?t) !! _ = _ |- context [c_markers (su_c ?t) !! _] =>
      rewrite K by done
  end; try reflexivity.

Lemma SetupContainer_settles info env ch en pl c s s1 : call_of (sw_probe w) info c →
  SetupContainer w info env ch en pl s = (Ok (), s1) →
  ∃ merged cs, res_MergedConfig info = Some merged ∧ settled merged env (su_c s1) ∧
    RunLifecycleHooks life (sw_probe w) info cs = (Ok (), su_c s1).
Proof.
  intros Hc. pose proof Hc as (merged & ctx & Hm & Hctx & _). unfold SetupContainer.
  intros ([] & t1 & H1 & H)%M_bind_Ok.
  pose proof (chown_settles _ ch _ Hctx) as S1. pose proof (env_settles merged) as S2.
  pose proof (flags_settles env) as S3.
  eapply (settled_Ok _ _ _ _ _ _ _ _ S1) in H as (t2 & Q1 & K1 & H).
  rewrite Hm in H. cbn [deref] in H. rewrite run_lift_Ok in H.
  eapply (settled_Ok _ _ _ _ _ _ _ _ S2) in H as (t3 & Q2 & K2 & H).
  eapply (settled_Ok _ _ _ _ _ _ _ _ S3) in H as (t4 & Q3 & K3 & H).
  apply wrapped_Ok in H as ([] & t5 & [Q4 K4]%profile_run & H).
  apply M_bind_Ok in H as ([] & t6 & E6 & H). apply (stays_after same_c) in E6; [|stays].
  apply wrapped_Ok in H as ([] & t7 & E7 & H). apply (stays_after same_c) in E7; [|stays].
  apply M_bind_Ok in H as ([] & t8 & H8 & H). apply try_run in H8 as (r8 & [Q5 K5]%kube_run).
  apply M_bind_Ok in H as ([] & t9 & E9 & H). apply (stays_after same_c) in E9; [|stays].
  apply M_bind_Ok in H as (r & t10 & H10 & H). unfold caught in H10.
  destruct (on_container _ t9) as [r' t10'] eqn:Hh. injection H10 as <- <-.
  destruct r' as [[]|e| |]; try done. injection H as <-. apply on_container_run in Hh.
  pose proof (λ n Hn, hooks_others _ _ _ _ _ _ n Hc Hn Hh) as K10. exists merged, (su_c t9).
  assert (∀ n, n ∉ (ph_name <$> phases (hc_hooks c) (hc_details c)) → on_marker n t9 (su_c t10')) as K by exact K10.
  assert (∀ n, n ≠ "onCreateCommands" → n ≠ "updateContentCommands" → n ≠ "postCreateCommands" →
    n ≠ "postStartCommands" → n ≠ "postAttachCommands" → on_marker n t9 (su_c t10')) as K'.
  { intros n ? ? ? ? ?. apply K. cbn. set_solver. }
  clear K K10. split_and!; [done| |done]. split.
  - eapply st_same, Q1; [exact S1|]. unfold same_marker. rewrite K' by done. marker_chain.
  - eapply st_same, Q2; [exact S2|]. unfold same_marker. rewrite K' by done. marker_chain.
  - eapply st_same, Q3; [exact S3|]. unfold same_marker. rewrite K' by done. marker_chain.
  - eapply has_marker_same, Q4. unfold same_marker. rewrite K' by done. marker_chain.
  - eapply has_marker_same, Q5. unfold same_marker. rewrite K' by done. marker_chain.
Qed.

Lemma same_c_step {A} (c : M setup A) (k : A → M setup unit) s r s' : stays same_c c →
  (c ≫= k) s = (r, s') →
  (r ≠ Ok () ∧ same_c s s') ∨ ∃ a s1, same_c s s1 ∧ k a s1 = (r, s').
Proof.
  intros Hc. specialize (Hc s). unfold mbind, M_bind. destruct (c s) as [[a|e| |] s1]; cbn in Hc.
  - intros H. right. by exists a, s1.
  - intros [= <- <-]. by left.
  - intros [= <- <-]. by left.
  - intros [= <- <-]. by left.
Qed.

(** C13: What a container is set up with once is not done again: after a setup succeeded, a later
    one with the same arguments leaves the markers, /etc/environment, the environment, the owner
    of the folder of the workspace and the record of the commands that ran alone, and runs the
    postAttach commands only, or stops with an error before them.  The call of the hooks is
    defined, the container has a creation and a start time, and its marker files can be read and
    written.  The result file, the owner of the directory of the agent's socket and the
    credentials of a platform are not among what is kept: these are written each time. *)
Theorem SetupContainer_again info env ch en pl c s s1 r s2 :
  call_of (sw_probe w) info c →
  cd_Created (hc_details c) ≠ "" → cd_StartedAt (hc_details c) ≠ "" →
  SetupContainer w info env ch en pl s = (Ok (), s1) →
  SetupContainer w info env ch en pl s1 = (r, s2) →
  let attach := Phase "postAttachCommands" "" (u_postAttachCommands (hc_hooks c)) in
  (r ≠ Ok () ∧ su_c s2 = su_c s1) ∨
  ∃ r0, run_phase life c attach (su_c s1) = (r0, su_c s2) ∧ r = wrap "lifecycle hooks" r0.
Proof.
  intros Hc Hcr Hst H1 H2. apply (SetupContainer_settles _ _ _ _ _ _ _ _ Hc) in H1
    as (merged & cs & Hm & [Q1 Q2 Q3 Q4 Q5] & Hhooks).
  pose proof Hc as (merged' & ctx & Hm' & Hctx & _).
  pose proof (RunLifecycleHooks_again _ _ _ _ _ _ _ _ _ _ Hl Hl Hc Hc eq_refl eq_refl eq_refl
    Hcr Hst Hhooks) as Hagain.
  intros attach. fold attach in Hagain. unfold SetupContainer in H2.
  apply same_c_step in H2 as [[? E]|([] & t1 & E1 & H)]; [by left| |apply on_files_c].
  rewrite <- E1 in Q1, Q2, Q3, Q4, Q5, Hagain |- *. clear E1 Hhooks cs s1.
  rewrite (settled_run _ _ _ _ _ _ (chown_settles _ ch _ Hctx) Q1) in H.
  rewrite Hm in H. cbn [deref] in H. rewrite run_lift_Ok in H.
  rewrite (settled_run _ _ _ _ _ _ (env_settles merged) Q2) in H.
  rewrite (settled_run _ _ _ _ _ _ (flags_settles env) Q3) in H.
  rewrite (wrapped_run _ _ _ _ _ _ (profile_again _ Q4)) in H.
  apply same_c_step in H as [[? E]|([] & t2 & E2 & H)]; [by left| |stays].
  rewrite <- E2 in Q5, Hagain |- *. clear E2 t1 Q1 Q2 Q3 Q4.
  apply same_c_step in H as [[? E]|(r1 & t3 & E3 & H)]; [by left| |stays].
  rewrite <- E3 in Q5, Hagain |- *. clear E3 t2.
  apply same_c_step in H as [[? E]|([] & t4 & E4 & H)]; [by left| |stays].
  rewrite <- E4 in Q5, Hagain |- *. clear E4 t3.
  assert (try_ (SetupKubeConfig w info) t4 = (Ok (), t4)) as Hk.
  { unfold try_. by rewrite (kube_again _ _ Q5). }
  rewrite (run_Ok _ _ _ _ _ Hk) in H.
  apply same_c_step in H as [[? E]|([] & t5 & E5 & H)]; [by left| |stays].
  rewrite <- E5 in Hagain |- *. clear E5 t4 Q5 Hk. right.
  unfold mbind, M_bind, caught in H. destruct (on_container _ t5) as [r5 t6] eqn:Hh.
  apply on_container_run in Hh. rewrite Hagain in Hh.
  exists r5. injection H as <- <-. done.
Qed.
End Again.

(** ** Keys, the configuration of kubectl, and what an outcome leaves *)

(** The marker is written before the configuration is fetched: an error is the last try. *)
Lemma SetupKubeConfig_gives_up (w : setup_world) info s e s1 : files_work (sw_life w) →
  SetupKubeConfig w info s = (Err e, s1) → SetupKubeConfig w info s1 = (Ok (), s1).
Proof. intros Hl [Hm _]%kube_run; [|done]. by apply kube_again. Qed.

(** The helper that was added to the configuration of the system is removed, whatever the
    setup comes to. *)
Lemma helper_removed (w : setup_world) {A} (rest : M setup A) s s0 r s' :
  configureSystemGitCredentials w s = (Ok (), s0) →
  with_git_credentials w true rest s = (r, s') → last (b_acts (su_box s')) = Some (Ran unset_helper).
Proof.
  intros Hc. unfold with_git_credentials. rewrite (run_Ok _ _ _ _ _ (caught_Ok _ _ _ _ Hc)).
  unfold deferred. destruct (rest s0) as [r1 s1]. intros [= <- <-].
  unfold mbind, M_bind, on_box, on, zoom, run_cmd, mbind, M_bind. cbn.
  destruct (xw_run _ _ _) as [[out err] f]. cbn. by rewrite last_snoc.
Qed.

Definition demo_setup (stream : string → string + stream) (gone : list string) : setup_world := {|
  sw_box := demo_servers not_found (Tar [] None) gone None; sw_life := some_world;
  sw_git := CredHelpersProps.demo_ms;
  sw_docker := {| dk_Load := λ _, inr {| dc_CredentialsStore := ""; dc_other := "" |};
                  dk_Save := λ d, dc_CredentialsStore d |};
  sw_agent := AgentProps.demo_daemon; sw_probe := no_probe; sw_Decompress := inr;
  sw_result := {| j_Marshal := λ _, "{}"; j_Unmarshal := λ _, inr some_info |};
  sw_info := {| j_Marshal := λ _, ""; j_Unmarshal := λ _, inl "no information" |};
  sw_toJSON := λ _, inl "no json"; sw_ofJSON := λ _, inl "no json"; sw_vscode := λ _, inl "no json";
  sw_settings := λ _, "{}"; sw_ping := None; sw_stream := stream; sw_send := λ _, None;
  sw_download := λ _ _, inl "offline"; sw_serve := inr 12049%Z; sw_kubeConfig := Some (inl "offline");
  sw_loadKube := λ _, inr no_kube; sw_writeKube := λ _, ""; sw_imageEnv := λ _, inr [];
  sw_random := "abc123" |}.
Definition demo_machine : machine := Machine ∅ ∅ ∅ ∅ [] "".
Definition setup_state (f : fs) (env : gmap string string) : setup :=
  Setup (Box f [] []) (Lifecycle.Container ∅ EnvAbsent env [] []) demo_machine [] [].
Definition no_stream (m : string) : string + stream := inl "offline".
Definition no_pl : platform_info := {|
  pi_InstanceName := ""; pi_InstanceNamespace := ""; pi_GitUser := ""; pi_GitEmail := "";
  pi_GitHttp := []; pi_GitSsh := [] |}.

Lemma SetupContainer_again_witness :
  let w := demo_setup no_stream [] in
  let s1 := (SetupContainer w some_info ["A=1"] true false no_pl (setup_state demo_files ∅)).2 in
  let s2 := (SetupContainer w some_info ["A=1"] true false no_pl s1).2 in
  (r_args <$> c_ran (su_c s1)) = [["sh"; "-c"; "make deps"]; ["sh"; "-c"; "make"];
    ["sh"; "-c"; "serve"]; ["sh"; "-c"; "status"]] ∧
  ((SetupContainer w some_info ["A=1"] true false no_pl s1).1 ≠ Ok () ∧ su_c s2 = su_c s1 ∨
   ∃ r0, run_phase some_world some_call (Phase "postAttachCommands" "" [hook "status"]) (su_c s1) =
           (r0, su_c s2) ∧
         (SetupContainer w some_info ["A=1"] true false no_pl s1).1 = wrap "lifecycle hooks" r0).
Proof.
  split; [vm_compute; reflexivity|].
  eapply (SetupContainer_again (demo_setup no_stream []) (λ _, conj eq_refl eq_refl) some_info ["A=1"]
    true false no_pl some_call (setup_state demo_files ∅)).
  - exact some_call_of.
  - discriminate.
  - discriminate.
  - vm_compute. reflexivity.
  - apply surjective_pairing.
Defined.

Definition demo_info : container_info := {|
  ci_ide := {| wi_name := "none"; wi_options := None |}; ci_cli := no_cli; ci_platform := no_pl;
  ci_git := {| pg_sshKeys := []; pg_cloneStrategy := ""; pg_skipLFS := false; pg_runnerSocket := "" |};
  ci_dockerless := {| dl_disabled := ""; dl_image := ""; dl_ignorePaths := ""; dl_registryCache := "";
                      dl_disableDockerCredentials := "" |};
  ci_containerTimeout := ""; ci_source := empty_source; ci_contentFolder := "";
  ci_pullFromInsideContainer := ""; ci_agent := zero_agent |}.
Definition demo_mount : Mount := {|
  mount_type := "bind"; mount_source := "/src"; mount_target := "/workspaces/app";
  mount_external := false; mount_other := [] |}.
(** A mount that broke off is skipped the next time. *)
Example partial_mount_skipped :
  let archive := Tar [{| e_Header := {| h_Name := "a.txt"; h_Typeflag := TypeReg; h_Linkname := "";
                                        h_Mode := 420 |};
                         e_Body := "a"; e_Error := None |}] (Some "unexpected EOF") in
  let w := demo_setup (λ _, inr archive) [] in
  let '(r1, s1) := stream_one w demo_info demo_mount (setup_state demo_files ∅) in
  let '(r2, s2) := stream_one w demo_info demo_mount s1 in
  r1 = Err "stream mount type=bind,src=/src,dst=/workspaces/app: decompress: tar reader next: unexpected EOF" ∧
  r2 = Ok () ∧ s2 = s1.
Proof. vm_compute. done. Qed.
(** With one key left, the second key of before stays. *)
Example old_key_stays :
  let f := <[["home"; "me"; ".ssh"] := Dir 448]>
           (<[["home"; "me"; ".ssh"; "platform_git_ssh_0"] := File 384 "old 0"]>
           (<[["home"; "me"; ".ssh"; "platform_git_ssh_1"] := File 384 "old 1"]> demo_files)) in
  let w := demo_setup no_stream [] in
  let '(r, s) := setupPlatformGitSSHKeys w "me" true ["bmV3"] (setup_state f ∅) in
  r = Ok () ∧ stat_node (b_fs (su_box s)) true "/home/me/.ssh/platform_git_ssh_0" = Some (File 384 "new") ∧
  stat_node (b_fs (su_box s)) true "/home/me/.ssh/platform_git_ssh_1" = Some (File 384 "old 1").
Proof. vm_compute. done. Qed.
(** The directory of the credentials is removed after the build, but it stays on the path. *)
Example credentials_stay_on_path :
  let f := <[["ctx"] := Dir 493]> (<[["ctx"; ".devpod-internal"] := Dir 493]>
           (<[[".dockerless"] := Dir 493]> demo_files)) in
  let env := {["DOCKERLESS" := "true"; "DOCKERLESS_CONTEXT" := "/ctx"; "PATH" := "/bin"]} in
  let w := demo_setup no_stream [] in
  let '(_, s) := dockerlessBuild w some_info (ci_dockerless demo_info) (setup_state f env) in
  c_env (su_c s) !! "PATH" = Some "/bin:/.dockerless/.docker/.cache/abc123" ∧
  c_env (su_c s) !! "DOCKER_CONFIG" = None ∧ m_files (su_git s) = ∅.
Proof. vm_compute. done. Qed.
