(* ===== verification/Up.v ===== *)
(** * devpod up

    The command of cmd/up.go, from the flags to the opened editor, with the editors of
    pkg/ide/vscode/open.go, pkg/ide/zed and pkg/ide/jetbrains, the free port of
    pkg/port/port.go and the result of a workspace in pkg/provider/dir.go.  The state [session]
    is the configuration and the home directory, the locks the process holds, the results on the
    disk and what was done outside ([up_act]).  The agent at the other end, the platform, the
    terminal and the programs of the local machine are parameters ([up_world]). *)

From S2P Require Import Prelude GoStrings Inject Types Config Git Names DevContainer Substitute Provider Options SshConfig Home Clients Ide Workspaces Commands Driver DevContainerFile Lifecycle IdeServers Tailnet ContainerSetup.
From stdpp Require Import base gmap sets list strings pretty.
From Stdlib Require Import ZArith.

Local Open Scope string_scope.
Local Open Scope list_scope.

(** ** pkg/port/port.go *)

(** [net.SplitHostPort] *)
Definition split_error (addr why : string) : string := "address " +:+ addr +:+ ": " +:+ why.
Definition SplitHostPort (hostport : string) : result (string * string) :=
  match before_last ":" hostport, after_last ":" hostport with
  | Some before, Some port =>
      '(host, rest) ←
        (if HasPrefix hostport "[" then
           match Cut "]" (sdrop 1 hostport) with
           | (_, _, false) => Err (split_error hostport "missing ']' in address")
           | (host, rest, true) =>
               if decide (rest = ":" +:+ port) then Ok (host, rest)
               else if HasPrefix rest ":" then
                 Err (split_error hostport "too many colons in address")
               else Err (split_error hostport "missing port in address")
           end
         else if scontains_char ":" before then
           Err (split_error hostport "too many colons in address")
         else Ok (before, hostport));
      if scontains_char "[" (if HasPrefix hostport "[" then sdrop 1 hostport else hostport) then
        Err (split_error hostport "unexpected '[' in address")
      else if scontains_char "]" rest then
        Err (split_error hostport "unexpected ']' in address")
      else Ok (host, port)
  | _, _ => Err (split_error hostport "missing port in address")
  end.

(** [dial] and [listen]: whether the address answers, and the error of opening it *)
Definition IsAvailable (dial : Z → bool) (listen : Z → option string) (port : Z) : result bool :=
  if dial port then Ok false
  else match listen port with Some e => Err e | None => Ok true end.
Fixpoint find_port (dial : Z → bool) (listen : Z → option string) (tries : nat) (port : Z)
    : result Z :=
  match tries with
  | O => Err "couldn't find an available port"
  | S n =>
      available ← IsAvailable dial listen port;
      if available : bool then Ok port else find_port dial listen n (port + 1)
  end.
Definition FindAvailablePort (dial : Z → bool) (listen : Z → option string) (start : Z) : result Z :=
  find_port dial listen 1000 start.

(** ** Data *)

Record UpCmd := {
  uc_CLIOptions : CLIOptions;
  uc_UID : string;
  uc_Machine : string;
  uc_ProviderOptions : list string;
  uc_ConfigureSSH : bool;
  uc_GPGAgentForwarding : bool;
  uc_OpenIDE : bool;
  uc_SSHConfigPath : string;
  uc_DotfilesSource : string;
  uc_DotfilesScript : string;
  uc_DotfilesScriptEnv : list string;
  uc_DotfilesScriptEnvFile : list string;
}.
Definition with_options (o : CLIOptions) (cmd : UpCmd) : UpCmd := {|
  uc_CLIOptions := o; uc_UID := uc_UID cmd; uc_Machine := uc_Machine cmd;
  uc_ProviderOptions := uc_ProviderOptions cmd; uc_ConfigureSSH := uc_ConfigureSSH cmd;
  uc_GPGAgentForwarding := uc_GPGAgentForwarding cmd; uc_OpenIDE := uc_OpenIDE cmd;
  uc_SSHConfigPath := uc_SSHConfigPath cmd; uc_DotfilesSource := uc_DotfilesSource cmd;
  uc_DotfilesScript := uc_DotfilesScript cmd; uc_DotfilesScriptEnv := uc_DotfilesScriptEnv cmd;
  uc_DotfilesScriptEnvFile := uc_DotfilesScriptEnvFile cmd |}.
Definition with_ssh_config (p : string) (cmd : UpCmd) : UpCmd := {|
  uc_CLIOptions := uc_CLIOptions cmd; uc_UID := uc_UID cmd; uc_Machine := uc_Machine cmd;
  uc_ProviderOptions := uc_ProviderOptions cmd; uc_ConfigureSSH := uc_ConfigureSSH cmd;
  uc_GPGAgentForwarding := uc_GPGAgentForwarding cmd; uc_OpenIDE := uc_OpenIDE cmd;
  uc_SSHConfigPath := p; uc_DotfilesSource := uc_DotfilesSource cmd;
  uc_DotfilesScript := uc_DotfilesScript cmd; uc_DotfilesScriptEnv := uc_DotfilesScriptEnv cmd;
  uc_DotfilesScriptEnvFile := uc_DotfilesScriptEnvFile cmd |}.

(** The fields that the command replaces *)
Definition cli_set (c : CLIOptions) (platform : PlatformOptions)
    (workspaceEnv initEnv prebuild ideOptions : list string) (recreate strict : bool)
    (authSock : string) : CLIOptions := {|
  cli_platform := platform; cli_id := cli_id c; cli_source := cli_source c; cli_ide := cli_ide c;
  cli_ideOptions := ideOptions; cli_prebuildRepositories := prebuild;
  cli_devContainerImage := cli_devContainerImage c; cli_devContainerPath := cli_devContainerPath c;
  cli_workspaceEnv := workspaceEnv; cli_workspaceEnvFile := cli_workspaceEnvFile c;
  cli_initEnv := initEnv; cli_recreate := recreate; cli_reset := cli_reset c;
  cli_disableDaemon := cli_disableDaemon c; cli_daemonInterval := cli_daemonInterval c;
  cli_gitCloneStrategy := cli_gitCloneStrategy c;
  cli_gitCloneRecursiveSubmodules := cli_gitCloneRecursiveSubmodules c;
  cli_fallbackImage := cli_fallbackImage c; cli_gitSSHSigningKey := cli_gitSSHSigningKey c;
  cli_sshAuthSockID := authSock; cli_strictHostKeyChecking := strict;
  cli_repository := cli_repository c; cli_skipPush := cli_skipPush c;
  cli_platforms := cli_platforms c; cli_tag := cli_tag c; cli_forceBuild := cli_forceBuild c;
  cli_forceDockerless := cli_forceDockerless c;
  cli_forceInternalBuildKit := cli_forceInternalBuildKit c |}.
Definition with_env (env : list string) (c : CLIOptions) : CLIOptions :=
  cli_set c (cli_platform c) env (cli_initEnv c) (cli_prebuildRepositories c) (cli_ideOptions c)
    (cli_recreate c) (cli_strictHostKeyChecking c) (cli_sshAuthSockID c).
Definition with_cli_platform (p : PlatformOptions) (c : CLIOptions) : CLIOptions :=
  cli_set c p (cli_workspaceEnv c) (cli_initEnv c) (cli_prebuildRepositories c) (cli_ideOptions c)
    (cli_recreate c) (cli_strictHostKeyChecking c) (cli_sshAuthSockID c).
Definition with_strict (c : CLIOptions) : CLIOptions :=
  cli_set c (cli_platform c) (cli_workspaceEnv c) (cli_initEnv c) (cli_prebuildRepositories c)
    (cli_ideOptions c) (cli_recreate c) true (cli_sshAuthSockID c).
Definition with_session (recreate : bool) (authSock : string) (c : CLIOptions) : CLIOptions :=
  cli_set c (cli_platform c) (cli_workspaceEnv c) (cli_initEnv c) (cli_prebuildRepositories c)
    (cli_ideOptions c) recreate (cli_strictHostKeyChecking c) authSock.

(** The locks this process holds *)
Record locks := Locks { lk_workspace : bool; lk_machine : bool }.
Definition no_locks : locks := Locks false false.

(** What is done outside of the home directory, with the locks held at that time *)
Inductive up_act :=
| Exec (args environ : list string)
| Background (args : list string)
| OpenURL (url : string)
| OpenLater (url : string)
| AgentUp (locked : locks) (ssh_command command : string)
| PlatformUp (locked : locks) (opts : CLIOptions)
| RemoteUp (locked : locks) (opts : CLIOptions)
| Services (ssh_args : option (list string)) (user : string) (forwardPorts : bool)
    (extraPorts : list string) (docker git signing : bool).

Record session := Session {
  se_c : cstate;
  se_locked : locks;
  (** [workspace_result.json] by the folder of the workspace *)
  se_results : gmap string (option Result);
  se_acts : list up_act;
}.

Record up_world := {
  pw_env : gmap string string;
  pw_environ : list string;
  pw_GOOS : string;
  pw_version : string;
  pw_files : host ();
  pw_fw : file_world;
  pw_executable : string + string;
  pw_random10 : string;
  pw_dial : Z → bool;
  pw_listen : Z → option string;
  pw_LookPath : string → bool;
  (** encoding/json into given options *)
  pw_cli : string → CLIOptions → string + CLIOptions;
  pw_platform : string → PlatformOptions → string + PlatformOptions;
  (** a command of the local machine after what was done before it: output and error *)
  pw_exec : list up_act → list string → list string → string * option string;
  pw_open : list up_act → string → option string;
  (** what the agent, the platform, the proxy or the daemon client sends back *)
  pw_agent : list up_act → string → string + option Result;
  pw_onPlatform : list up_act → CLIOptions → string + option Result;
  pw_remote : list up_act → Provider.ProviderConfig → Workspace → CLIOptions → string + option Result;
  (** [SSHClients] and [GetWorkspace] of the daemon client: whether docker and git credentials
      are disabled on the instance *)
  pw_daemon : Workspace → string + option (option bool * option bool);
  (** why the lock of a machine is not obtained *)
  pw_machineLock : Machine → option string;
  (** how the tunnel to the workspace ended *)
  pw_tunnel : list up_act → option string;
  (** the version of a platform, and versions up to their comparison *)
  pw_platformVersion : string → string + string;
  pw_semver : string → string + string;
}.

Section Up.
Context (o : osys) (rm : remote) (compress : AgentWorkspaceInfo → string + string).
Context (AllowedIDEs : list AllowedIDE) (compile : string → string + (string → bool)).
Context (has_code : bool) (origin : string).
Context (resolve : string → string + (result Provider.ProviderConfig * ProviderSource)).
Context (proInstances : string → string + list (string * string)).
Context (w : up_world).
Notation s := (o_sys o).
Notation U := (M session).

Definition did (a : up_act) : U unit :=
  modifyS (λ u, Session (se_c u) (se_locked u) (se_results u) (se_acts u ++ [a])).
(** A result goes with the folder of its workspace. *)
Definition kept_results (h : home) (m : gmap string (option Result)) : gmap string (option Result) :=
  filter (λ kv, kv.1 ∈ h_dirs h) m.
Definition on_c {A} (c : M cstate A) : U A := λ u,
  let '(r, c') := c (se_c u) in
  (r, Session c' (se_locked u) (kept_results (st_home c') (se_results u)) (se_acts u)).
Definition on_home {A} (c : M home A) : U A := on_c (in_home c).

Definition run_local (args environ : list string) : U (string * option string) :=
  u ← getS; _ ← did (Exec args environ); mret (pw_exec w (se_acts u) args environ).
(** [exec.Command(args...).Run()] *)
Definition run (args : list string) : U unit :=
  '(_, err) ← run_local args (pw_environ w);
  match err with Some e => throw e | None => mret () end.
Definition getenv (k : string) : string := default "" (pw_env w !! k).
Definition debug : bool := bool_decide (s_logLevel s = "debug").
Definition debug_flag : list string := if debug then ["--debug"] else [].
Definition execPath : U string := liftR (of_sum (pw_executable w)).

(** ** Options *)

(** [json.Unmarshal] writes the elements of an array into the slice it is given, so the old
    slice, which shares them, has the new values where the arrays overlap. *)
Definition overwritten (old new : list string) : list string :=
  take (length old) (new ++ drop (length new) old).
Definition merge_slice (old new : list string) : list string := overwritten old new ++ new.
Definition merge_up (old new : CLIOptions) : CLIOptions :=
  cli_set new (cli_platform new)
    (merge_slice (cli_workspaceEnv old) (cli_workspaceEnv new))
    (merge_slice (cli_initEnv old) (cli_initEnv new))
    (merge_slice (cli_prebuildRepositories old) (cli_prebuildRepositories new))
    (merge_slice (cli_ideOptions old) (cli_ideOptions new))
    (cli_recreate new) (cli_strictHostKeyChecking new) (cli_sshAuthSockID new).
Definition DevPodFlagsUp : string := "DEVPOD_FLAGS_UP".
Definition DevPodPlatformOptions : string := "DEVPOD_PLATFORM_OPTIONS".
(** [None]: the variable is not set. *)
Definition DecodeOptionsFromEnv (into : CLIOptions) : result (option CLIOptions) :=
  let raw := getenv DevPodFlagsUp in
  if decide (raw = "") then Ok None else Some <$> of_sum (pw_cli w raw into).
Definition DecodePlatformOptionsFromEnv (into : PlatformOptions) : result PlatformOptions :=
  let raw := getenv DevPodPlatformOptions in
  if decide (raw = "") then Ok into else of_sum (pw_platform w raw into).
Definition mergeDevPodUpOptions (baseOptions : CLIOptions) : result CLIOptions :=
  found ← wrap "decode up options" (DecodeOptionsFromEnv baseOptions);
  let merged := match found with Some new => merge_up baseOptions new | None => baseOptions end in
  p ← wrap "decode platform options" (DecodePlatformOptionsFromEnv (cli_platform merged));
  Ok (with_cli_platform p merged).

Fixpoint key_value_files (files : list string) : result (list string) :=
  match files with
  | [] => Ok []
  | file :: files' =>
      env ← (ParseKeyValueFile (pw_fw w) file (pw_files w)).1;
      rest ← key_value_files files';
      Ok (env ++ rest)
  end.
Definition mergeEnvFromFiles (baseOptions : CLIOptions) : result CLIOptions :=
  variables ← key_value_files (cli_workspaceEnvFile baseOptions);
  Ok (with_env (cli_workspaceEnv baseOptions ++ variables) baseOptions).

Definition FindProviderProInstance (instances : list (string * string)) (providerName : string)
    : option (string * string) :=
  List.find (λ i, bool_decide (i.1 = providerName)) instances.
Definition getProInstance (c : Config) (providerName : string) : option (string * string) :=
  match proInstances (c_defaultContext c) with
  | inl _ => None
  | inr instances => FindProviderProInstance instances providerName
  end.
Definition parse_version (v : string) : result string :=
  wrap ("parse version " +:+ v) (of_sum (pw_semver w (TrimPrefix v "v"))).
Definition checkProviderUpdate (c : Config) (proInstance : option (string * string)) : U unit :=
  match proInstance with
  | None => mret ()
  | Some (provider, host) =>
      if decide (pw_version w = DevVersion) then mret ()
      else
        newVersion ← liftR (wrap ("version for pro instance " +:+ host)
                              (of_sum (pw_platformVersion w host)));
        r ← caught (on_home (FindProvider o c provider));
        p ← liftR (wrap ("get provider config for pro provider " +:+ provider) r);
        let version := p_version (pwo_config p) in
        if decide (version = DevVersion) then mret ()
        else if ps_internal (p_source (pwo_config p)) then mret ()
        else
          v1 ← liftR (parse_version newVersion);
          v2 ← liftR (parse_version version);
          if decide (v1 = v2) then mret ()
          else
            r ← caught (on_home (ResolveProviderSource o c provider));
            providerSource ← liftR (wrap ("resolve provider source " +:+ provider) r);
            let '(before, _, _) := Cut "@" providerSource in
            r ← caught (on_c (UpdateProvider o rm origin resolve c provider
                                (before +:+ "@" +:+ newVersion)));
            _ ← liftR (wrap ("update provider " +:+ provider) r);
            mret ()
  end.

(** In platform mode the options of the context that are not set come from the environment. *)
Definition context_from_env (c : Config) : result Config :=
  match Current c with
  | None => _ ← MergeContextOptions None (pw_environ w) (o_now o); Ok c
  | Some ctx =>
      opts ← MergeContextOptions (cc_options ctx) (pw_environ w) (o_now o);
      Ok match opts with
         | Some opts => put_context c (c_defaultContext c) (with_context_options opts ctx)
         | None => c
         end
  end.
Definition check_source (cmd : UpCmd) : result (option WorkspaceSource) :=
  let opts := uc_CLIOptions cmd in
  if decide (cli_source opts = "") then Ok None
  else match ParseWorkspaceSource (cli_source opts) with
  | None => Err "workspace source is missing"
  | Some src =>
      if decide (ws_localFolder src ≠ "" ∧ cli_platformEnabled opts = true)
      then Err ("local folder is not supported in platform mode. Please specify a git repository "
                +:+ "instead")
      else Ok (Some src)
  end.
Definition default_ssh_config (c : Config) (cmd : UpCmd) : result UpCmd :=
  if decide (uc_SSHConfigPath cmd ≠ "") then Ok cmd
  else p ← ContextOption c "SSH_CONFIG_PATH"; Ok (with_ssh_config p cmd).

Definition prepareClient (c : Config) (cmd : UpCmd) (args : list string)
    : U (BaseWorkspaceClient * Config * UpCmd) :=
  opts ← liftR (mergeDevPodUpOptions (uc_CLIOptions cmd));
  let enabled := cli_platformEnabled opts in
  c ← liftR (if enabled then context_from_env c else Ok c);
  opts ← liftR (mergeEnvFromFiles opts);
  let cmd := with_options opts cmd in
  source ← liftR (check_source cmd);
  cmd ← liftR (default_ssh_config c cmd);
  client ← on_home (Resolve_workspace o rm c AllowedIDEs compile has_code (cli_ide opts)
    (cli_ideOptions opts) args (cli_id opts) (uc_Machine cmd) (uc_ProviderOptions cmd)
    (cli_devContainerImage opts) (cli_devContainerPath opts) (uc_SSHConfigPath cmd) source
    (uc_UID cmd) true);
  _ ← (if enabled then mret ()
       else checkProviderUpdate c (getProInstance c (client_provider client)));
  mret (client, c, cmd).

(** ** Bringing the workspace up *)

(** [startWait] of cmd/ssh.go: it asks again every two seconds while the workspace is busy, for
    [passes] times here. *)
Fixpoint startWait (c : Config) (passes : nat) (client : workspaceClient) (create_ : bool)
    : M home unit :=
  match passes with
  | O => liftR NoFuel
  | S n =>
      status ← workspace_Status o c compress client false;
      match status with
      | StatusBusy => startWait c n client create_
      | StatusStopped =>
          if create_ then r ← caught (Start o c client); liftR (wrap "start workspace" r)
          else throw "DevPod workspace is stopped"
      | StatusNotFound =>
          if create_ then Create o c client else throw "DevPod workspace wasn't found"
      | StatusRunning => mret ()
      end
  end.

Definition WorkspaceResultFile : string := "workspace_result.json".
Definition SaveWorkspaceResult (wk : Workspace) (result : option Result) : U unit :=
  workspaceDir ← liftR (GetWorkspaceDir s (w_context wk) (w_id wk));
  _ ← on_home (Home.MkdirAll o workspaceDir);
  match o_write o (filepath_Join [workspaceDir; WorkspaceResultFile]) with
  | Some e => throw e
  | None => modifyS (λ u, Session (se_c u) (se_locked u) (<[workspaceDir := result]> (se_results u))
                            (se_acts u))
  end.
Definition LoadWorkspaceResult (context workspaceID : string) : U (option Result) :=
  workspaceDir ← liftR (GetWorkspaceDir s context workspaceID);
  u ← getS; mret (mjoin (se_results u !! workspaceDir)).

Definition set_locks (l : locks) : U unit :=
  modifyS (λ u, Session (se_c u) l (se_results u) (se_acts u)).
(** The machine whose lock a client takes after that of the workspace *)
Definition client_machine (client : BaseWorkspaceClient) : option Machine :=
  match client with LocalClient client => wc_machine client | RemoteClient _ _ => None end.
(** The client of a daemon takes no lock at all. *)
Definition takes_no_lock (client : BaseWorkspaceClient) : bool :=
  match client with LocalClient _ => false | RemoteClient provider _ => IsDaemonProvider provider end.
(** When the lock of the machine is not obtained, that of the workspace is kept. *)
Definition Lock (client : BaseWorkspaceClient) : U unit :=
  if takes_no_lock client then mret ()
  else match rm_lock rm (client_workspace client) with
  | Some e => throw e
  | None =>
      _ ← set_locks (Locks true false);
      match client_machine client with
      | None => mret ()
      | Some machine =>
          match pw_machineLock w machine with
          | Some e => throw ("error locking machine: " +:+ e)
          | None => set_locks (Locks true true)
          end
      end
  end.
Definition Unlock : U unit := set_locks no_locks.
(** [defer client.Unlock()], after the lock was obtained *)
Definition with_lock {A} (client : BaseWorkspaceClient) (c : U A) : U A :=
  _ ← Lock client; r ← caught c; _ ← Unlock; liftR r.

Definition ssh_server_command (agentPath : string) : string :=
  "'" +:+ agentPath +:+ "' helper ssh-server --stdio" +:+ (if debug then " --debug" else "").
Definition agent_up_command (agentPath workspaceInfo : string) : string :=
  "'" +:+ agentPath +:+ "' agent workspace up --workspace-info '" +:+ workspaceInfo +:+ "'" +:+
  (if debug then " --debug" else "").
Definition devPodUpMachine (c : Config) (passes : nat) (opts : CLIOptions) (client : workspaceClient)
    : U (option Result) :=
  _ ← on_home (startWait c passes client true);
  '(workspaceInfo, wInfo) ← liftR (compressedAgentInfo o c compress client opts);
  u ← getS;
  if cli_platformEnabled opts then
    _ ← did (PlatformUp (se_locked u) opts);
    liftR (of_sum (pw_onPlatform w (se_acts u) opts))
  else
    let path := a_path (ai_agent wInfo) in
    _ ← did (AgentUp (se_locked u) (ssh_server_command path) (agent_up_command path workspaceInfo));
    liftR (of_sum (pw_agent w (se_acts u) workspaceInfo)).

(** What a proxy or a daemon is told *)
Definition remote_options (wk : Workspace) (opts : CLIOptions) : CLIOptions := {|
  cli_platform := cli_platform opts; cli_id := w_id wk;
  cli_source := WorkspaceSource_String (w_source wk); cli_ide := wi_name (w_ide wk);
  cli_ideOptions := (λ kv, kv.1 +:+ "=" +:+ ov_value kv.2) <$>
    s_iter s (default ∅ (wi_options (w_ide wk)));
  cli_prebuildRepositories := cli_prebuildRepositories opts;
  cli_devContainerImage := w_devContainerImage wk; cli_devContainerPath := w_devContainerPath wk;
  cli_workspaceEnv := cli_workspaceEnv opts; cli_workspaceEnvFile := cli_workspaceEnvFile opts;
  cli_initEnv := cli_initEnv opts; cli_recreate := cli_recreate opts; cli_reset := cli_reset opts;
  cli_disableDaemon := cli_disableDaemon opts; cli_daemonInterval := cli_daemonInterval opts;
  cli_gitCloneStrategy := cli_gitCloneStrategy opts;
  cli_gitCloneRecursiveSubmodules := cli_gitCloneRecursiveSubmodules opts;
  cli_fallbackImage := cli_fallbackImage opts; cli_gitSSHSigningKey := cli_gitSSHSigningKey opts;
  cli_sshAuthSockID := cli_sshAuthSockID opts;
  cli_strictHostKeyChecking := cli_strictHostKeyChecking opts;
  cli_repository := cli_repository opts; cli_skipPush := cli_skipPush opts;
  cli_platforms := cli_platforms opts; cli_tag := cli_tag opts;
  cli_forceBuild := cli_forceBuild opts; cli_forceDockerless := cli_forceDockerless opts;
  cli_forceInternalBuildKit := cli_forceInternalBuildKit opts |}.
Definition devPodUpRemote (opts : CLIOptions) (provider : Provider.ProviderConfig) (wk : Workspace)
    : U (option Result) :=
  u ← getS;
  let opts := remote_options wk opts in
  _ ← did (RemoteUp (se_locked u) opts);
  liftR (of_sum (pw_remote w (se_acts u) provider wk opts)).

Definition up_client (c : Config) (passes : nat) (opts : CLIOptions) (client : BaseWorkspaceClient)
    : U (option Result) :=
  result ← match client with
           | LocalClient client => devPodUpMachine c passes opts client
           | RemoteClient provider wk => devPodUpRemote opts provider wk
           end;
  r ← caught (SaveWorkspaceResult (client_workspace client) result);
  _ ← liftR (wrap "save workspace result" r);
  mret result.
Definition devPodUp (c : Config) (passes : nat) (opts : CLIOptions) (client : BaseWorkspaceClient)
    : U (option Result) :=
  if cli_platformEnabled opts then up_client c passes opts client
  else with_lock client (up_client c passes opts client).

(** ** SSH, dotfiles and signatures *)

Definition configureSSH (client : BaseWorkspaceClient) (sshConfigPath user workdir : string)
    (gpgagent : bool) (devPodHome : string) : U unit :=
  let wk := client_workspace client in
  path ← liftR (wrap "Invalid ssh config path" (ResolveSSHConfigPath o sshConfigPath));
  on_home (zoom (ssh_file_at path) (set_ssh_file path)
    (ConfigureSSHConfig (bool_decide (pw_GOOS w = "windows")) (pw_executable w) (o_write o path)
       (w_context wk) (w_id wk) user workdir gpgagent devPodHome)).

(** The user of the section of the workspace, or root *)
Definition remote_user (wk : Workspace) : U string :=
  u ← getS;
  mret match ResolveSSHConfigPath o (w_sshConfigPath wk) with
       | Ok path => match GetUser (ssh_file_at path (st_home (se_c u))) (w_id wk) with
                    | Ok user => user
                    | _ => "root"
                    end
       | _ => "root"
       end.

Definition extractKeysFromEnvKeyValuePairs (envKeyValuePairs : list string) : list string :=
  omap (λ env, let '(key, _, found) := Cut "=" env in if found : bool then Some key else None)
    envKeyValuePairs.
Definition context_flag (c : Config) (option : string) : result bool :=
  v ← ContextOption c option; Ok (bool_decide (v = "true")).
Definition buildDotCmdAgentArguments (c : Config) (dotfilesRepo dotfilesScript : string)
    : result (list string) :=
  strict ← context_flag c "SSH_STRICT_HOST_KEY_CHECKING";
  Ok (["agent"; "workspace"; "install-dotfiles"; "--repository"; dotfilesRepo] ++
      (if strict : bool then ["--strict-host-key-checking"] else []) ++ debug_flag ++
      (if decide (dotfilesScript ≠ "") then ["--install-script"; dotfilesScript] else [])).
(** The command and the additions to its environment *)
Definition buildDotCmd (c : Config) (dotfilesRepo dotfilesScript : string)
    (envFiles envKeyValuePairs : list string) (wk : Workspace) : U (list string * list string) :=
  envFilesKeyValuePairs ← liftR (key_value_files envFiles);
  let all := envFilesKeyValuePairs ++ envKeyValuePairs in
  remoteUser ← remote_user wk;
  agentArguments ← liftR (buildDotCmdAgentArguments c dotfilesRepo dotfilesScript);
  path ← execPath;
  mret ([path; "ssh"; "--agent-forwarding=true"; "--start-services=true"] ++
        (extractKeysFromEnvKeyValuePairs all ≫= λ key, ["--send-env"; key]) ++
        ["--user"; remoteUser; "--context"; w_context wk; w_id wk; "--log-output=raw"; "--command";
         Inject.ContainerDevPodHelperLocation +:+ " " +:+ GoStrings.Join agentArguments " "], all).
Definition or_else (flag dflt : string) : string := if decide (flag ≠ "") then flag else dflt.
Definition setupDotfiles (c : Config) (dotfiles script : string)
    (envFiles envKeyValuePairs : list string) (wk : Workspace) : U unit :=
  url ← liftR (ContextOption c "DOTFILES_URL");
  scr ← liftR (ContextOption c "DOTFILES_SCRIPT");
  if decide (or_else dotfiles url = "") then mret ()
  else
    '(args, env) ← buildDotCmd c (or_else dotfiles url) (or_else script scr) envFiles
                     envKeyValuePairs wk;
    '(_, err) ← run_local (args ++ debug_flag) (pw_environ w ++ env);
    match err with Some e => throw e | None => mret () end.

(** A failure of the command is only logged. *)
Definition setupGitSSHSignature (signingKey : string) (wk : Workspace) : U unit :=
  path ← execPath;
  remoteUser ← remote_user wk;
  try_ (run [path; "ssh"; "--agent-forwarding=true"; "--start-services=true"; "--user"; remoteUser;
             "--context"; w_context wk; w_id wk; "--command";
             "devpod agent git-ssh-signature-helper " +:+ signingKey]).

(** ** Opening an editor *)

Definition open_url (url : string) : U unit :=
  u ← getS; _ ← did (OpenURL url);
  match pw_open w (se_acts u) url with Some e => throw e | None => mret () end.

(** pkg/ide/vscode/open.go *)
Definition vscode_protocol (flavor : string) : option string :=
  if decide (flavor = FlavorStable) then Some "vscode://"
  else if decide (flavor = FlavorInsiders) then Some "vscode-insiders://"
  else if decide (flavor = FlavorCursor) then Some "cursor://"
  else if decide (flavor = FlavorPositron) then Some "positron://"
  else if decide (flavor = FlavorCodium) then Some "codium://"
  else if decide (flavor = FlavorWindsurf) then Some "windsurf://"
  else None.
Definition openViaBrowser (workspace folder : string) (newWindow : bool) (flavor : string) : U unit :=
  match vscode_protocol flavor with
  | None => throw ("unknown flavor " +:+ flavor)
  | Some protocol =>
      open_url (protocol +:+ "vscode-remote/ssh-remote+" +:+ workspace +:+ ".devpod/" +:+ folder +:+
                (if newWindow then "?windowId=_blank" else ""))
  end.
(** The binary on the path, and the application on a Mac *)
Definition cli_names (flavor : string) : option (string * string) :=
  if decide (flavor = FlavorStable) then Some ("code", "Visual Studio Code")
  else if decide (flavor = FlavorInsiders) then Some ("code-insiders", "Visual Studio Code - Insiders")
  else if decide (flavor = FlavorCursor) then Some ("cursor", "Cursor")
  else if decide (flavor = FlavorPositron) then Some ("positron", "Positron")
  else if decide (flavor = FlavorCodium) then Some ("codium", "Codium")
  else if decide (flavor = FlavorWindsurf) then Some ("windsurf", "Windsurf")
  else None.
Definition application_binary (flavor app binary : string) : string :=
  "/Applications/" +:+ app +:+ ".app/Contents/Resources/app/bin/" +:+
  (if decide (flavor = FlavorInsiders) then "code" else binary).
Definition findCLI (flavor : string) : string :=
  match cli_names flavor with
  | None => ""
  | Some (binary, app) =>
      let mac := application_binary flavor app binary in
      if pw_LookPath w binary then binary
      else if bool_decide (pw_GOOS w = "darwin") && pw_LookPath w mac then mac
      else ""
  end.
Definition sshExtension (flavor : string) : string :=
  if decide (flavor = FlavorCodium) then "jeanp413.open-remote-ssh" else "ms-vscode-remote.remote-ssh".
Definition has_extension (out extension : string) : bool :=
  existsb (λ line, bool_decide (TrimSpace line = extension)) (Split "010" out).
(** A command whose output goes into its error *)
Definition checked (args : list string) : U string :=
  '(out, err) ← run_local args (pw_environ w);
  match err with
  | Some e => liftR (WrapCommandError (if decide (out = "") then [] else [out]) (Err e))
  | None => mret out
  end.
Definition openViaCLI (workspace folder : string) (newWindow : bool) (flavor : string) : U unit :=
  let codePath := findCLI flavor in
  if decide (codePath = "") then throw ("couldn't find the " +:+ flavor +:+ " binary")
  else
    out ← checked [codePath; "--list-extensions"];
    _ ← (if has_extension out (sshExtension flavor) then mret ()
         else r ← caught (checked [codePath; "--install-extension"; sshExtension flavor]);
              _ ← liftR (wrap "install ssh extension" r); mret ());
    _ ← checked ([codePath] ++
      (if has_extension out "ms-vscode-remote.remote-containers"
       then ["--disable-extension"; "ms-vscode-remote.remote-containers"] else []) ++
      [(if newWindow then "--new-window" else "--reuse-window");
       "--folder-uri=vscode-remote://ssh-remote+" +:+ workspace +:+ ".devpod/" +:+ folder]);
    mret ().
Definition vscode_Open (workspace folder : string) (newWindow : bool) (flavor : string) : U unit :=
  r1 ← caught (openViaCLI workspace folder newWindow flavor);
  match r1 with
  | Err e1 =>
      r2 ← caught (openViaBrowser workspace folder newWindow flavor);
      match r2 with
      | Err e2 => throw (e1 +:+ newline +:+ e2)
      | r2 => liftR r2
      end
  | r1 => liftR r1
  end.

(** pkg/ide/zed *)
Definition zed_Open (workspaceFolder workspaceID : string) : U unit :=
  let folder := if HasPrefix workspaceFolder "/" then workspaceFolder else "/" +:+ workspaceFolder in
  let openURL := "zed://ssh/" +:+ workspaceID +:+ ".devpod" +:+ folder in
  if decide (pw_GOOS w = "linux") then run ["xdg-open"; openURL] else open_url openURL.

(** [GenericJetBrainsServer.OpenGateway] *)
Definition OpenGateway (p : product) (userName workspaceFolder workspaceID : string) : U unit :=
  open_url ("jetbrains-gateway://connect#idePath=" +:+
    QueryEscape (getDirectory p (filepath_Join ["/"; "home"; userName])) +:+
    "&projectPath=" +:+ QueryEscape workspaceFolder +:+ "&host=" +:+ workspaceID +:+
    ".devpod&port=22&user=" +:+ QueryEscape userName +:+ "&type=ssh&deploy=false").

Definition createSSHCommand (wk : Workspace) (extraArgs : list string) : U (list string) :=
  path ← execPath;
  mret ([path; "ssh"; "--user=root"; "--agent-forwarding=false"; "--start-services=false";
         "--context"; w_context wk; w_id wk] ++ debug_flag ++ extraArgs).
Definition startFleet (wk : Workspace) : U unit :=
  args ← createSSHCommand wk ["--command"; "cat " +:+ FleetURLFile];
  out ← checked args;
  let url := TrimSpace out in
  if decide (url = "") then throw "seems like fleet is not running within the container"
  else open_url url.

(** ** Editors in the browser *)

Definition parseAddressAndPort (bindAddressOption : string) (defaultPort : Z) : result (string * Z) :=
  if decide (bindAddressOption = "") then
    portName ← FindAvailablePort (pw_dial w) (pw_listen w) defaultPort;
    Ok (pretty portName, portName)
  else
    '(_, port) ← wrap "parse host:port" (SplitHostPort bindAddressOption);
    if decide (port = "") then
      Err ("parse ADDRESS: expected host:port, got " +:+ bindAddressOption)
    else match Atoi port with
    | None => Err "parse host:port: invalid syntax"
    | Some portName => Ok (bindAddressOption, portName)
    end.
Definition performGpgForwarding (wk : Workspace) : U unit :=
  path ← execPath;
  remoteUser ← remote_user wk;
  did (Background [path; "ssh"; "--gpg-agent-forwarding=true"; "--agent-forwarding=true";
    "--start-services=true"; "--user"; remoteUser; "--context"; w_context wk; w_id wk;
    "--log-output=raw"; "--command"; "sleep infinity"]).
(** It runs in the background, so its error is only logged. *)
Definition setupBackhaul (wk : Workspace) (authSockId : string) : U unit :=
  path ← execPath;
  remoteUser ← remote_user wk;
  did (Background ([path; "ssh"; "--agent-forwarding=true";
    "--reuse-ssh-auth-sock=" +:+ authSockId; "--start-services=false"; "--user"; remoteUser;
    "--context"; w_context wk; w_id wk; "--log-output=raw"; "--command";
    "while true; do sleep 6000000; done"] ++ debug_flag)).
(** What a client of the daemon forwards: the context, unless the instance says otherwise *)
Definition daemon_flags (docker git signing : bool) (forwarding : option (option bool * option bool))
    : bool * bool * bool :=
  match forwarding with
  | None => (docker, git, signing)
  | Some (d, g) =>
      let docker := match d with Some disabled => negb disabled | None => docker end in
      match g with
      | Some disabled => (docker, negb disabled, negb disabled)
      | None => (docker, git, signing)
      end
  end.
Definition tunnel_end : U unit :=
  u ← getS; match pw_tunnel w (se_acts u) with Some e => throw e | None => mret () end.
Definition startBrowserTunnel (c : Config) (client : BaseWorkspaceClient) (user : string)
    (forwardPorts : bool) (extraPorts : list string) (authSockID : string) : U unit :=
  let wk := client_workspace client in
  _ ← (if decide (authSockID ≠ "") then try_ (setupBackhaul wk authSockID) else mret ());
  docker ← liftR (context_flag c "SSH_INJECT_DOCKER_CREDENTIALS");
  git ← liftR (context_flag c "SSH_INJECT_GIT_CREDENTIALS");
  signing ← liftR (context_flag c "GIT_SSH_SIGNATURE_FORWARDING");
  if match client with RemoteClient p _ => IsDaemonProvider p | LocalClient _ => false end then
    forwarding ← liftR (of_sum (pw_daemon w wk));
    if decide (user = "") then mret ()
    else
      let '(docker, git, signing) := daemon_flags docker git signing forwarding in
      _ ← did (Services None user forwardPorts extraPorts docker git signing);
      tunnel_end
  else
    args ← createSSHCommand wk ["--log-output=raw"; "--reuse-ssh-auth-sock=" +:+ authSockID; "--stdio"];
    _ ← did (Services (Some args) user forwardPorts extraPorts docker git signing);
    tunnel_end.

(** The servers an editor in the browser talks to: the port they have in the container, what
    follows the address in the url, and whether all ports are forwarded *)
Definition start_in_browser (c : Config) (forwardGpg : bool) (client : BaseWorkspaceClient)
    (user bindAddress : string) (opens : bool) (defaultPort : Z) (path : string) (forwardPorts : bool)
    (authSockID : string) : U unit :=
  _ ← (if forwardGpg then performGpgForwarding (client_workspace client) else mret ());
  '(address, port) ← liftR (parseAddressAndPort bindAddress defaultPort);
  let targetURL := "http://localhost:" +:+ pretty port +:+ path in
  _ ← (if opens then did (OpenLater targetURL) else mret ());
  startBrowserTunnel c client user forwardPorts [address +:+ ":" +:+ pretty defaultPort] authSockID.
Definition BrowserIDE_Options : gmap string IDEOption := {[
  "BIND_ADDRESS" := ide_option "The address to bind the server to locally. E.g. 0.0.0.0:12345" "" [];
  "OPEN" := ide_option "If DevPod should automatically open the browser" "true" yes_no ]}.
Definition DefaultRStudioPort : Z := 8787.
Definition browser_value (options : gmap string OptionValue) (key : string) : string :=
  IDE_GetValue BrowserIDE_Options options key.
Definition startJupyterNotebookInBrowser (c : Config) (forwardGpg : bool)
    (client : BaseWorkspaceClient) (user : string) (options : gmap string OptionValue)
    (authSockID : string) : U unit :=
  start_in_browser c forwardGpg client user (browser_value options "BIND_ADDRESS")
    (bool_decide (browser_value options "OPEN" = "true")) DefaultJupyterPort "/lab" false authSockID.
Definition startRStudioInBrowser (c : Config) (forwardGpg : bool)
    (client : BaseWorkspaceClient) (user : string) (options : gmap string OptionValue)
    (authSockID : string) : U unit :=
  start_in_browser c forwardGpg client user (browser_value options "BIND_ADDRESS")
    (bool_decide (browser_value options "OPEN" = "true")) DefaultRStudioPort "" false authSockID.
Definition startVSCodeInBrowser (c : Config) (forwardGpg : bool)
    (client : BaseWorkspaceClient) (workspaceFolder user : string)
    (options : gmap string OptionValue) (authSockID : string) : U unit :=
  let value := IDE_GetValue OpenVSCode_Options options in
  start_in_browser c forwardGpg client user (value "BIND_ADDRESS")
    (bool_decide (value "OPEN" = "true")) DefaultVSCodePort ("/?folder=" +:+ workspaceFolder)
    (bool_decide (value "FORWARD_PORTS" = "true")) authSockID.

Definition VSCode_Options : gmap string IDEOption := {[
  "OPEN_NEW_WINDOW" := ide_option "If true, DevPod will open the project in a new window" "true"
                         ["false"; "true"] ]}.
Definition open_ide (c : Config) (forwardGpg : bool) (client : BaseWorkspaceClient)
    (user : string) (folder : result string) (authSockID : string) : U unit :=
  let wk := client_workspace client in
  let name := wi_name (w_ide wk) in
  let options := default ∅ (wi_options (w_ide wk)) in
  match vscode_flavor name, jetbrains_product name with
  | Some flavor, _ =>
      folder ← liftR folder;
      vscode_Open (w_id wk) folder
        (bool_decide (IDE_GetValue VSCode_Options options "OPEN_NEW_WINDOW" = "true")) flavor
  | None, Some p => folder ← liftR folder; OpenGateway p user folder (w_id wk)
  | None, None =>
      if decide (name = "openvscode")
      then folder ← liftR folder;
           startVSCodeInBrowser c forwardGpg client folder user options authSockID
      else if decide (name = "fleet") then startFleet wk
      else if decide (name = "zed") then folder ← liftR folder; zed_Open folder (w_id wk)
      else if decide (name = "jupyternotebook")
      then startJupyterNotebookInBrowser c forwardGpg client user options authSockID
      else if decide (name = "rstudio")
      then startRStudioInBrowser c forwardGpg client user options authSockID
      else mret ()
  end.

(** ** The command *)

Definition session_options (opts : CLIOptions) (wk : Workspace) : CLIOptions :=
  let targetIDE := or_else (cli_ide opts) (wi_name (w_ide wk)) in
  with_session (cli_recreate opts || cli_reset opts)
    (if negb (cli_platformEnabled opts) && ReusesAuthSock targetIDE then pw_random10 w
     else cli_sshAuthSockID opts) opts.
(** The folder in the container, and the working directory for SSH *)
Definition container_folder (wk : Workspace) (result : Result) : Prelude.result (option string * string) :=
  let workdir := match res_MergedConfig result with
                 | Some m => b_workspaceFolder (DevContainer.mc_base m)
                 | None => ""
                 end in
  let subPath := ws_gitSubPath (w_source wk) in
  if decide (subPath ≠ "") then
    ctx ← deref (res_SubstitutionContext result);
    let folder := filepath_Join [ctx_containerWorkspaceFolder ctx; subPath] in
    Ok (Some folder, folder)
  else Ok (ctx_containerWorkspaceFolder <$> res_SubstitutionContext result, workdir).

(** What follows when the container runs *)
Definition after_up (c : Config) (cmd : UpCmd) (client : BaseWorkspaceClient) (result : Result)
    : U unit :=
  let opts := uc_CLIOptions cmd in
  let wk := client_workspace client in
  let user := GetRemoteUser (Some result) in
  '(folder, workdir) ← liftR (container_folder wk result);
  _ ← (if uc_ConfigureSSH cmd then
         gpg ← liftR (if uc_GPGAgentForwarding cmd then Ok true else context_flag c "GPG_AGENT_FORWARDING");
         configureSSH client (uc_SSHConfigPath cmd) user workdir gpg (getenv "DEVPOD_HOME")
       else mret ());
  _ ← (if decide (cli_gitSSHSigningKey opts ≠ "")
       then setupGitSSHSignature (cli_gitSSHSigningKey opts) wk else mret ());
  _ ← setupDotfiles c (uc_DotfilesSource cmd) (uc_DotfilesScript cmd) (uc_DotfilesScriptEnvFile cmd)
        (uc_DotfilesScriptEnv cmd) wk;
  if uc_OpenIDE cmd
  then open_ide c (uc_GPGAgentForwarding cmd) client user (deref folder) (cli_sshAuthSockID opts)
  else mret ().
Definition UpCmd_run (c : Config) (passes : nat) (cmd : UpCmd) (client : BaseWorkspaceClient) : U unit :=
  let opts := session_options (uc_CLIOptions cmd) (client_workspace client) in
  result ← devPodUp c passes opts client;
  match result with
  | None => throw "didn't receive a result back from agent"
  | Some result =>
      if cli_platformEnabled opts then mret ()
      else after_up c (with_options opts cmd) client result
  end.

Definition up_command (context provider : string) (passes : nat) (cmd : UpCmd) (args : list string)
    : U unit :=
  c ← on_c (load_config origin context provider);
  strict ← liftR (context_flag c "SSH_STRICT_HOST_KEY_CHECKING");
  let cmd := if strict : bool then with_options (with_strict (uc_CLIOptions cmd)) cmd else cmd in
  r ← caught (prepareClient c cmd args);
  '(client, c, cmd) ← liftR (wrap "prepare workspace client" r);
  UpCmd_run c passes cmd client.
End Up.
