(* ===== verification/UpProps.v ===== *)
(** * What devpod up promises

    The lock, the result on the disk, the section of the ssh config, and what happens when the
    workspace does not come up. *)

From S2P Require Import Prelude GoStrings Types Config Provider Options SshConfig Inject Home Clients Ide Workspaces OptionsProps RegistryProps WorkspacesProps ClientsProps Commands Driver DevContainerFile Lifecycle LifecycleProps RunnerDemo IdeServers Tailnet ContainerSetup Up.
From stdpp Require Import base gmap sets list strings.
From Stdlib Require Import ZArith.

Local Open Scope string_scope.
Local Open Scope list_scope.

(** ** What only acts on the outside *)

Definition only_acts (u u' : session) : Prop :=
  se_c u' = se_c u ∧ se_locked u' = se_locked u ∧ se_results u' = se_results u ∧
  se_acts u `prefix_of` se_acts u'.
#[export] Instance only_acts_preorder : PreOrder only_acts.
Proof.
  split; [by intros u; split_and!|].
  intros u1 u2 u3 (?&?&?&?) (?&?&?&?). split_and!; [congruence..|by etrans].
Qed.
Lemma did_only a : stays only_acts (did a).
Proof. intros u. split_and!; try done. by exists [a]. Qed.
#[export] Hint Resolve did_only : stays.

Section Acts.
Context (o : osys) (w : up_world).

Lemma run_local_only args env : stays only_acts (run_local w args env).
Proof. unfold run_local. stays. Qed.
#[local] Hint Resolve run_local_only : stays.
Lemma run_only args : stays only_acts (run w args).
Proof. unfold run. stays. Qed.
#[local] Hint Resolve run_only : stays.
Lemma checked_only args : stays only_acts (checked w args).
Proof. unfold checked. stays. Qed.
#[local] Hint Resolve checked_only : stays.
Lemma execPath_only : stays only_acts (execPath w).
Proof. unfold execPath. stays. Qed.
#[local] Hint Resolve execPath_only : stays.
Lemma remote_user_only wk : stays only_acts (remote_user o wk).
Proof. unfold remote_user. stays. Qed.
#[local] Hint Resolve remote_user_only : stays.
Lemma open_url_only url : stays only_acts (open_url w url).
Proof. unfold open_url. stays. Qed.
#[local] Hint Resolve open_url_only : stays.

Lemma setupGitSSHSignature_only key wk : stays only_acts (setupGitSSHSignature o w key wk).
Proof. unfold setupGitSSHSignature. stays. Qed.
Lemma setupDotfiles_only c dotfiles script files env wk :
  stays only_acts (setupDotfiles o w c dotfiles script files env wk).
Proof. unfold setupDotfiles, buildDotCmd. stays. Qed.

Lemma vscode_Open_only ws folder new flavor : stays only_acts (vscode_Open w ws folder new flavor).
Proof.
  assert (stays only_acts (openViaCLI w ws folder new flavor)) by (unfold openViaCLI; stays).
  assert (stays only_acts (openViaBrowser w ws folder new flavor)) by (unfold openViaBrowser; stays).
  unfold vscode_Open. stays.
Qed.
Lemma createSSHCommand_only wk args : stays only_acts (createSSHCommand o w wk args).
Proof. unfold createSSHCommand. stays. Qed.
#[local] Hint Resolve vscode_Open_only createSSHCommand_only : stays.
Lemma tunnel_end_only : stays only_acts (tunnel_end w).
Proof. unfold tunnel_end. stays. Qed.
Lemma setupBackhaul_only wk id : stays only_acts (setupBackhaul o w wk id).
Proof. unfold setupBackhaul. stays. Qed.
Lemma performGpgForwarding_only wk : stays only_acts (performGpgForwarding o w wk).
Proof. unfold performGpgForwarding. stays. Qed.
#[local] Hint Resolve tunnel_end_only setupBackhaul_only performGpgForwarding_only : stays.
Lemma startBrowserTunnel_only c client user fwd ports id :
  stays only_acts (startBrowserTunnel o w c client user fwd ports id).
Proof. unfold startBrowserTunnel. stays. Qed.
#[local] Hint Resolve startBrowserTunnel_only : stays.
Lemma start_in_browser_only c gpg client user bind opens port path fwd id :
  stays only_acts (start_in_browser o w c gpg client user bind opens port path fwd id).
Proof. unfold start_in_browser. stays. Qed.
#[local] Hint Resolve start_in_browser_only : stays.
Lemma open_ide_only c gpg client user folder id :
  stays only_acts (open_ide o w c gpg client user folder id).
Proof.
  unfold open_ide, startVSCodeInBrowser, startJupyterNotebookInBrowser, startRStudioInBrowser,
    startFleet, zed_Open, OpenGateway. stays.
Qed.
End Acts.
#[export] Hint Resolve setupGitSSHSignature_only setupDotfiles_only open_ide_only : stays.

(** ** The lock *)

Section Up.
Context (o : osys) (rm : remote) (compress : AgentWorkspaceInfo → string + string) (w : up_world).
Notation s := (o_sys o).

(** A message to the agent, the platform or a client, sent while these locks were held *)
Definition contact (locked : locks) (a : up_act) : Prop :=
  match a with
  | AgentUp l _ _ | PlatformUp l _ | RemoteUp l _ => l = locked
  | _ => False
  end.
Definition contacted (u u' : session) : Prop :=
  se_locked u' = se_locked u ∧ h_ssh (st_home (se_c u')) = h_ssh (st_home (se_c u)) ∧
  ∃ l, se_acts u' = se_acts u ++ l ∧ Forall (contact (se_locked u)) l.
#[local] Instance contacted_preorder : PreOrder contacted.
Proof.
  split; [intros u; split_and!; [done..|exists []; by rewrite app_nil_r]|].
  intros u1 u2 u3 (Hl1 & Hs1 & l1 & E1 & F1) (Hl2 & Hs2 & l2 & E2 & F2).
  split_and!; [congruence..|]. exists (l1 ++ l2). rewrite E2, E1, (assoc_L (++)). split; [done|].
  apply Forall_app. rewrite Hl1 in F2. done.
Qed.

Definition ssh_kept (h h' : home) : Prop := h_ssh h' = h_ssh h.
#[local] Instance ssh_kept_preorder : PreOrder ssh_kept.
Proof. split; [done|]. intros h1 h2 h3 H1 H2. unfold ssh_kept in *. congruence. Qed.
Lemma on_home_contacted {A} (c : M home A) : stays ssh_kept c → stays contacted (on_home c).
Proof.
  intros Hc u. unfold on_home, on_c, in_home, zoom. specialize (Hc (st_home (se_c u))).
  destruct (c (st_home (se_c u))) as [r h]. split_and!; [done..|]. exists []. cbn. by rewrite app_nil_r.
Qed.
Lemma ran_only_ssh {A} (c : M home A) : stays ran_only c → stays ssh_kept c.
Proof. intros Hc h. by destruct (Hc h) as (_ & ? & _). Qed.

Lemma Start_ran c client : stays ran_only (Start o c client).
Proof. unfold Start, machine_Start. stays. Qed.
Lemma Create_ran c client : stays ran_only (Create o c client).
Proof. unfold Create, machine_Create. stays. Qed.
#[local] Hint Resolve Start_ran Create_ran : stays.
Lemma startWait_ran c passes client create_ : stays ran_only (startWait o compress c passes client create_).
Proof.
  induction passes as [|n IH]; cbn [startWait]; [stays|].
  apply stays_bind; [exact _|auto with stays|]. intros []; [stays|done|stays|stays].
Qed.

(** Whoever brings the workspace up is asked in the state of the lock at that time. *)
Lemma asked_contacted {A} (f : session → up_act) (g : session → result A) :
  (∀ u, contact (se_locked u) (f u)) →
  stays contacted (u ← getS; _ ← did (f u); liftR (g u)).
Proof.
  intros Hf u. split_and!; [done..|]. exists [f u]. split; [done|]. repeat constructor. apply Hf.
Qed.
Lemma devPodUpMachine_contacted c passes opts client :
  stays contacted (devPodUpMachine o compress w c passes opts client).
Proof.
  unfold devPodUpMachine. apply stays_bind; [exact _| |intros _].
  { apply on_home_contacted, ran_only_ssh, startWait_ran. }
  apply stays_bind; [exact _|stays|]. intros [info wInfo].
  destruct (cli_platformEnabled opts); by apply asked_contacted.
Qed.
Lemma devPodUpRemote_contacted opts provider wk :
  stays contacted (devPodUpRemote o w opts provider wk).
Proof. by apply asked_contacted. Qed.

Lemma MkdirAll_ssh dir : stays ssh_kept (Home.MkdirAll o dir).
Proof. unfold Home.MkdirAll. intros h. by destruct (o_write o dir). Qed.
Lemma SaveWorkspaceResult_contacted wk res : stays contacted (SaveWorkspaceResult o wk res).
Proof.
  unfold SaveWorkspaceResult. apply stays_bind; [exact _|stays|]. intros dir.
  apply stays_bind; [exact _|apply on_home_contacted, MkdirAll_ssh|]. intros _.
  destruct (o_write _ _); [stays|]. intros u. split_and!; [done..|]. exists [].
  by rewrite app_nil_r.
Qed.
Lemma up_client_contacted c passes opts client :
  stays contacted (up_client o compress w c passes opts client).
Proof.
  unfold up_client. apply stays_bind; [exact _| |intros res].
  - destruct client; [apply devPodUpMachine_contacted|apply devPodUpRemote_contacted].
  - apply stays_bind; [exact _|apply stays_caught, SaveWorkspaceResult_contacted|]. stays.
Qed.

(** The locks a client takes, and the one case in which one of them is kept: that of the machine
    is refused after that of the workspace was obtained. *)
Definition client_locks (client : BaseWorkspaceClient) : locks :=
  if takes_no_lock client then no_locks
  else Locks true (bool_decide (is_Some (client_machine client))).
Definition machine_refused (client : BaseWorkspaceClient) : Prop :=
  takes_no_lock client = false ∧ rm_lock rm (client_workspace client) = None ∧
  ∃ machine e, client_machine client = Some machine ∧ pw_machineLock w machine = Some e.
Definition holding (l : locks) (u : session) : session :=
  Session (se_c u) l (se_results u) (se_acts u).

Lemma Lock_cases client u r u' : Lock rm w client u = (r, u') → se_locked u = no_locks →
  (r = Ok () ∧ u' = holding (client_locks client) u) ∨
  ∃ e, r = Err e ∧ (u' = u ∨ machine_refused client ∧ u' = holding (Locks true false) u).
Proof.
  unfold Lock, client_locks, machine_refused, set_locks. intros H Hu.
  destruct (takes_no_lock client).
  { injection H as <- <-. left. split; [done|]. rewrite <-Hu. by destruct u. }
  destruct (rm_lock _ _) as [e|]; [injection H as <- <-; eauto|].
  rewrite run_modify in H. destruct (client_machine client) as [m|].
  2: { injection H as <- <-. by left. }
  destruct (pw_machineLock w m) as [e|] eqn:He; injection H as <- <-; [right|by left].
  eexists. split; [done|]. right. eauto 10.
Qed.
Lemma with_lock_cases {A} client (c : M session A) u r u' :
  with_lock rm w client c u = (r, u') → se_locked u = no_locks →
  (∃ e, r = Err e ∧ (u' = u ∨ machine_refused client ∧ u' = holding (Locks true false) u)) ∨
  ∃ u1, c (holding (client_locks client) u) = (r, u1) ∧ u' = holding no_locks u1.
Proof.
  unfold with_lock. intros H Hu. unfold mbind at 1, M_bind at 1 in H.
  destruct (Lock rm w client u) as [r1 u1] eqn:Hl.
  apply Lock_cases in Hl as [[-> ->]|(e & -> & Hc)]; [|injection H as <- <-; eauto|done].
  right. unfold caught, mbind at 1, M_bind at 1 in H. cbv beta iota in H.
  destruct (c (holding _ u)) as [r2 u2] eqn:Hc. unfold Unlock, set_locks in H.
  rewrite run_modify in H. injection H as <- <-. eauto.
Qed.

(** Bringing a workspace up is done under the locks of its client, which are given back whatever
    happens, unless the second is refused; a platform, which has locks of its own, is asked
    without. *)
Lemma devPodUp_run_locked c passes opts client u r u' :
  devPodUp o rm compress w c passes opts client u = (r, u') → se_locked u = no_locks →
  (se_locked u' = no_locks ∨
   cli_platformEnabled opts = false ∧ machine_refused client ∧ se_locked u' = Locks true false) ∧
  h_ssh (st_home (se_c u')) = h_ssh (st_home (se_c u)) ∧
  ∃ l, se_acts u' = se_acts u ++ l ∧
       Forall (contact (if cli_platformEnabled opts then no_locks else client_locks client)) l.
Proof.
  intros H Hu. unfold devPodUp in H. destruct (cli_platformEnabled opts).
  - apply (stays_after _ _ _ _ _ (up_client_contacted _ _ _ _)) in H as (Hl & Hs & l & Ha & Hf).
    rewrite Hu in *. split_and!; eauto.
  - apply with_lock_cases in H as [(e & -> & Hc)|(u1 & Hc & ->)]; [| |done].
    + destruct Hc as [->|[Hm ->]]; (split_and!; [|done|exists []; by rewrite app_nil_r]).
      * by left.
      * by right.
    + apply (stays_after _ _ _ _ _ (up_client_contacted _ _ _ _)) in Hc as (_ & Hs & l & Ha & Hf).
      split_and!; [by left|done|]. eauto.
Qed.

(** ** When the workspace does not come up *)

(** C15: Started without a lock: when the workspace does not come up, or sends no result, the command fails and nothing
    else is done: the ssh config is as before, no dotfiles are installed and no editor is opened.
    Whoever was asked outside was asked under the locks of the client, that of the workspace and
    that of its machine if it has one (the client of a daemon has none, and in platform mode none
    is taken), and no lock is held in the end.  Only when the lock of the machine is refused that
    of the workspace is kept. *)
Theorem up_failure_harmless c passes cmd client u r u' :
  let opts := session_options w (uc_CLIOptions cmd) (client_workspace client) in
  (∀ res, (devPodUp o rm compress w c passes opts client u).1 ≠ Ok (Some res)) →
  UpCmd_run o rm compress w c passes cmd client u = (r, u') → se_locked u = no_locks →
  r ≠ Ok () ∧
  (se_locked u' = no_locks ∨
   cli_platformEnabled opts = false ∧ machine_refused client ∧ se_locked u' = Locks true false) ∧
  h_ssh (st_home (se_c u')) = h_ssh (st_home (se_c u)) ∧
  ∃ l, se_acts u' = se_acts u ++ l ∧
       Forall (contact (if cli_platformEnabled opts then no_locks else client_locks client)) l.
Proof.
  intros opts Hno H Hl. unfold UpCmd_run in H. fold opts in H.
  destruct (devPodUp o rm compress w c passes opts client u) as [r1 u1] eqn:Hup.
  assert (r ≠ Ok () ∧ u' = u1) as [Hr ->].
  { unfold mbind, M_bind in H. rewrite Hup in H. destruct r1 as [[res|]|e| |]; cbn in H.
    - by destruct (Hno res).
    - by injection H as <- <-.
    - by injection H as <- <-.
    - by injection H as <- <-.
    - by injection H as <- <-. }
  split; [done|]. by apply devPodUp_run_locked in Hup.
Qed.

(** ** When it does *)

Definition saved_at (dir : string) (res : option Result) (u : session) : Prop :=
  se_results u !! dir = Some res ∧ dir ∈ h_dirs (st_home (se_c u)).
Lemma SaveWorkspaceResult_Ok wk res u u' : SaveWorkspaceResult o wk res u = (Ok (), u') →
  ∃ dir, GetWorkspaceDir s (w_context wk) (w_id wk) = Ok dir ∧ saved_at dir res u'.
Proof.
  unfold SaveWorkspaceResult. intros (dir & u1 & Hdir & H)%M_bind_Ok.
  injection Hdir as Hdir <-. apply M_bind_Ok in H as ([] & u2 & Hm & H).
  destruct (o_write _ _); [done|]. injection H as <-. exists dir.
  split; [done|]. split; cbn; [by rewrite lookup_insert_eq|].
  unfold on_home, on_c, in_home, zoom, Home.MkdirAll in Hm.
  destruct (o_write o dir); cbn in Hm; [done|]. injection Hm as <-. cbn. set_solver.
Qed.
Lemma up_client_Ok c passes opts client u res u' :
  up_client o compress w c passes opts client u = (Ok res, u') →
  ∃ dir, GetWorkspaceDir s (w_context (client_workspace client)) (w_id (client_workspace client)) = Ok dir ∧
         saved_at dir res u'.
Proof.
  unfold up_client. intros (res' & u1 & _ & H)%M_bind_Ok.
  apply M_bind_Ok in H as (r & u2 & Hc & H). apply M_bind_Ok in H as ([] & u3 & Hw & H).
  injection Hw as Hw ->. injection H as <- <-. apply wrap_Ok in Hw. subst r.
  unfold caught in Hc. destruct (SaveWorkspaceResult o _ _ u1) as [r1 u4] eqn:Hs.
  injection Hc as -> ->. by apply SaveWorkspaceResult_Ok in Hs.
Qed.

(** The section of the workspace is in the file. *)
Lemma configured_section windows executable fail ctx ws user workdir gpg home file file' :
  ConfigureSSHConfig windows executable fail ctx ws user workdir gpg home file = (Ok (), file') →
  ∃ exec before after, executable = inr exec ∧
    file' = Content (GoStrings.Join
      (before ++ host_section exec (ws +:+ ".devpod") user ctx ws workdir "" gpg home ++ after)
      (if windows then String "013" newline else newline)).
Proof.
  unfold ConfigureSSHConfig. rewrite run_get. intros (text & u1 & Ht & H)%M_bind_Ok.
  injection Ht as Ht <-. apply wrap_Ok in Ht. unfold writeSSHConfig in H.
  destruct fail; [done|]. injection H as <-. unfold addHost in Ht.
  apply bind_Ok in Ht as (conf & _ & Ht). apply bind_Ok in Ht as (exec & He & Ht).
  destruct executable as [|exec']; [done|]. injection He as ->. unfold addHostSection in Ht.
  destruct (bufio_scan conf) as [lines []]; [done|].
  apply bind_Ok in Ht as (l & Hl & [= <-]). unfold slices_Insert in Hl. case_decide; [|done].
  injection Hl as <-. eauto.
Qed.
Definition has_section (exec ctx ws user workdir : string) (gpg : bool) (home : string)
    (windows : bool) (file : ssh_file) : Prop :=
  ∃ before after, file = Content (GoStrings.Join
    (before ++ host_section exec (ws +:+ ".devpod") user ctx ws workdir "" gpg home ++ after)
    (if windows then String "013" newline else newline)).
Lemma ssh_file_set path f h c : f = Content c → ssh_file_at path (set_ssh_file path f h) = f.
Proof. intros ->. unfold ssh_file_at, set_ssh_file. cbn. by rewrite lookup_insert_eq. Qed.
Lemma set_ssh_file_dirs path f h : h_dirs (set_ssh_file path f h) = h_dirs h.
Proof. by destruct f. Qed.

Lemma configureSSH_Ok client sshConfigPath user workdir gpg home u u' :
  let wk := client_workspace client in
  configureSSH o w client sshConfigPath user workdir gpg home u = (Ok (), u') →
  se_locked u' = se_locked u ∧ se_acts u' = se_acts u ∧
  (∀ dir res, saved_at dir res u → saved_at dir res u') ∧
  ∃ exec path, pw_executable w = inr exec ∧ ResolveSSHConfigPath o sshConfigPath = Ok path ∧
    has_section exec (w_context wk) (w_id wk) user workdir gpg home
      (bool_decide (pw_GOOS w = "windows")) (ssh_file_at path (st_home (se_c u'))).
Proof.
  intros wk H. unfold configureSSH in H. apply M_bind_Ok in H as (path & u1 & Hp & H).
  injection Hp as Hp <-. apply wrap_Ok in Hp. unfold on_home, on_c, in_home, zoom in H.
  destruct (ConfigureSSHConfig _ _ _ _ _ _ _ _ _ _) as [r f] eqn:Hc. injection H as -> <-.
  apply configured_section in Hc as (exec & b & a & He & Hf). cbn.
  split_and!; [done|done| |].
  - intros dir res [Hr Hd]. split; cbn; [|by rewrite set_ssh_file_dirs].
    unfold kept_results. rewrite set_ssh_file_dirs. by apply map_lookup_filter_Some.
  - exists exec, path. split_and!; [done..|]. exists b, a. by rewrite (ssh_file_set _ _ _ _ Hf).
Qed.

Lemma only_acts_saved dir res u u' : only_acts u u' → saved_at dir res u → saved_at dir res u'.
Proof. intros (Hc & _ & Hr & _) [? ?]. split; congruence. Qed.
Lemma after_up_Ok c cmd client res u u' :
  let wk := client_workspace client in
  after_up o w c cmd client res u = (Ok (), u') → uc_ConfigureSSH cmd = true →
  se_locked u' = se_locked u ∧ (∀ dir r, saved_at dir r u → saved_at dir r u') ∧
  ∃ folder workdir gpg exec path,
    container_folder wk res = Ok (folder, workdir) ∧ pw_executable w = inr exec ∧
    ResolveSSHConfigPath o (uc_SSHConfigPath cmd) = Ok path ∧
    has_section exec (w_context wk) (w_id wk) (GetRemoteUser (Some res)) workdir gpg
      (getenv w "DEVPOD_HOME") (bool_decide (pw_GOOS w = "windows"))
      (ssh_file_at path (st_home (se_c u'))).
Proof.
  intros wk H Hcfg. unfold after_up in H. fold wk in H. rewrite Hcfg in H.
  apply M_bind_Ok in H as ([folder workdir] & u1 & Hf & H). injection Hf as Hf <-.
  apply M_bind_Ok in H as ([] & u2 & Hs & H). apply M_bind_Ok in Hs as (gpg & u3 & Hg & Hs).
  injection Hg as _ <-.
  apply configureSSH_Ok in Hs as (Hl & _ & Hk & exec & path & He & Hp & Hsec).
  assert (only_acts u2 u') as Hrest.
  { apply M_bind_Ok in H as ([] & u4 & H4 & H). apply M_bind_Ok in H as ([] & u5 & H5 & H).
    apply (stays_after only_acts) in H4; [|case_decide; stays].
    apply (stays_after only_acts) in H5; [|apply setupDotfiles_only].
    apply (stays_after only_acts) in H; [|destruct (uc_OpenIDE cmd); stays].
    etrans; [exact H4|]. by etrans. }
  split_and!; [destruct Hrest as (_ & -> & _); done|intros; eapply only_acts_saved; eauto|].
  exists folder, workdir, gpg, exec, path. split_and!; [done..|].
  destruct Hrest as (-> & _). exact Hsec.
Qed.

(** C16: After devpod up, started without a lock, succeeded outside of platform mode and with --configure-ssh, which is
    the default, the result of the workspace is on the disk, no lock is held, and the ssh
    config has the section of the workspace: with the user of the result and the working
    directory in its container, of the sub path if the source has one. *)
Theorem up_success c passes cmd client u u' :
  let opts := session_options w (uc_CLIOptions cmd) (client_workspace client) in
  let wk := client_workspace client in
  UpCmd_run o rm compress w c passes cmd client u = (Ok (), u') → se_locked u = no_locks →
  cli_platformEnabled opts = false → uc_ConfigureSSH cmd = true →
  se_locked u' = no_locks ∧
  ∃ res dir folder workdir gpg exec path,
    (devPodUp o rm compress w c passes opts client u).1 = Ok (Some res) ∧
    GetWorkspaceDir s (w_context wk) (w_id wk) = Ok dir ∧ se_results u' !! dir = Some (Some res) ∧
    container_folder wk res = Ok (folder, workdir) ∧ pw_executable w = inr exec ∧
    ResolveSSHConfigPath o (uc_SSHConfigPath cmd) = Ok path ∧
    has_section exec (w_context wk) (w_id wk) (GetRemoteUser (Some res)) workdir gpg
      (getenv w "DEVPOD_HOME") (bool_decide (pw_GOOS w = "windows"))
      (ssh_file_at path (st_home (se_c u'))).
Proof.
  intros opts wk H Hu Hp Hcfg. unfold UpCmd_run in H. cbv zeta in H. fold opts in H.
  apply M_bind_Ok in H as (res & u1 & Hup & H). destruct res as [res|]; [|done]. cbv beta iota in H. rewrite Hp in H.
  pose proof Hup as Hup'. unfold devPodUp in Hup'. rewrite Hp in Hup'.
  apply with_lock_cases in Hup' as [(e & He & _)|(u2 & Hc & ->)]; [done| |done].
  apply up_client_Ok in Hc as (dir & Hdir & Hsaved).
  apply after_up_Ok in H as (Hl & Hk & folder & workdir & gpg & exec & path & Hf & He & Hpa & Hsec);
    [|done].
  split; [by rewrite Hl|]. exists res, dir, folder, workdir, gpg, exec, path.
  split_and!; [by rewrite Hup|done| |done..|exact Hsec].
  apply Hk. exact Hsaved.
Qed.
End Up.

(** ** Options that are merged *)

(** With at least as many values in the environment variable as on the command line, nothing of
    the command line is left: its slice has been overwritten before it is appended to. *)
Lemma merge_slice_forgets old new : (length old ≤ length new)%nat →
  merge_slice old new = take (length old) new ++ new.
Proof. intros Hl. unfold merge_slice, overwritten. rewrite take_app_le by lia. done. Qed.
(** Without a value in the variable every value of the command line is there twice. *)
Lemma merge_slice_twice old : merge_slice old old = old ++ old.
Proof. rewrite merge_slice_forgets by done. by rewrite take_ge. Qed.
Lemma merge_slice_nil new : merge_slice [] new = new.
Proof. done. Qed.
Example merge_slice_loses : merge_slice ["TOKEN=1"] ["HOST=a"] = ["HOST=a"; "HOST=a"].
Proof. reflexivity. Qed.

(** ** Ports *)

(** The first port of a thousand that nothing answers on and that can be opened; a port that
    neither answers nor can be opened ends the search. *)
Theorem FindAvailablePort_first dial listen start p : FindAvailablePort dial listen start = Ok p →
  (start ≤ p < start + 1000)%Z ∧ dial p = false ∧ listen p = None ∧
  ∀ q, (start ≤ q < p)%Z → dial q = true.
Proof.
  unfold FindAvailablePort. replace 1000%Z with (Z.of_nat 1000) by done.
  generalize 1000%nat. intros n. revert start. induction n as [|n IH]; intros start; [done|].
  cbn [find_port]. unfold IsAvailable at 1. destruct (dial start) eqn:Hd; cbn.
  - intros (Hr & ? & ? & Hq)%IH. split_and!; [lia|lia|done..|]. intros q Hs.
    destruct (decide (q = start)) as [->|]; [done|]. apply Hq. lia.
  - destruct (listen start) eqn:Hl; [done|]. intros [= <-]. split_and!; [lia|lia|done..|]. lia.
Qed.

(** ** Waiting for the workspace *)

Section Wait.
Context (o : osys) (compress : AgentWorkspaceInfo → string + string) (c : Config).

(** The workspace is busy for [n] questions, after which the home directory is [h']. *)
Inductive busy_for (client : workspaceClient) : nat → home → home → Prop :=
| busy_for_none h : busy_for client 0 h h
| busy_for_more n h h1 h2 : workspace_Status o c compress client false h = (Ok StatusBusy, h1) →
    busy_for client n h1 h2 → busy_for client (S n) h h2.
Lemma busy_next client n h h1 create_ passes : busy_for client n h h1 →
  startWait o compress c (n + passes) client create_ h = startWait o compress c passes client create_ h1.
Proof.
  induction 1 as [|n h h1 h2 Hs _ IH]; [done|]. cbn [startWait plus]. by rewrite (run_Ok _ _ _ _ _ Hs).
Qed.
(** A connection is made to a workspace that runs, as soon as it is not busy any more, and it
    fails when the workspace is stopped or gone; nothing is started. *)
Theorem startWait_connects client n h h1 status h2 passes : busy_for client n h h1 →
  workspace_Status o c compress client false h1 = (Ok status, h2) → status ≠ StatusBusy →
  startWait o compress c (n + S passes) client false h =
    (match status with
     | StatusStopped => Err "DevPod workspace is stopped"
     | StatusNotFound => Err "DevPod workspace wasn't found"
     | _ => Ok ()
     end, h2).
Proof.
  intros Hb Hs Hn. rewrite (busy_next _ _ _ _ _ _ Hb). cbn [startWait].
  rewrite (run_Ok _ _ _ _ _ Hs). by destruct status.
Qed.
End Wait.

(** ** Dotfiles *)

Section Dotfiles.
Context (o : osys) (w : up_world).
Lemma run_local_acts args env u r u' : run_local w args env u = (r, u') →
  se_acts u' = se_acts u ++ [Exec args env].
Proof. unfold run_local. rewrite run_get. by intros [= _ <-]. Qed.

(** Without a repository nothing is done for the dotfiles. *)
Lemma setupDotfiles_none c script files env wk u :
  ContextOption c "DOTFILES_URL" = Ok "" → (∃ v, ContextOption c "DOTFILES_SCRIPT" = Ok v) →
  setupDotfiles o w c "" script files env wk u = (Ok (), u).
Proof. intros Hu [v Hs]. unfold setupDotfiles. rewrite Hu, run_lift_Ok, Hs, run_lift_Ok. done. Qed.

Lemma app_around {A} (pre m1 x m2 post : list A) :
  ∃ l1 l2, pre ++ (m1 ++ x ++ m2) ++ post = l1 ++ x ++ l2.
Proof. exists (pre ++ m1), (m2 ++ post). by rewrite <-!(assoc_L (++)). Qed.
(** The variables of the files and of the command line are sent to the workspace: each is in the
    environment of the command, which is told to pass on its name. *)
Theorem dotfiles_variables c repo script files env wk u args all u' kv k v :
  buildDotCmd o w c repo script files env wk u = (Ok (args, all), u') →
  (kv ∈ env ∨ ∃ l, key_value_files w files = Ok l ∧ kv ∈ l) → Cut "=" kv = (k, v, true) →
  kv ∈ all ∧ ∃ l1 l2, args = l1 ++ ["--send-env"; k] ++ l2.
Proof.
  unfold buildDotCmd. intros (l & u1 & Hl & H)%M_bind_Ok Hin Hcut. injection Hl as Hl <-.
  apply M_bind_Ok in H as (user & u2 & _ & H). apply M_bind_Ok in H as (rest & u3 & _ & H).
  apply M_bind_Ok in H as (path & u4 & _ & H). injection H as <- <- <-.
  assert (kv ∈ l ++ env) as Hall.
  { apply elem_of_app. destruct Hin as [?|(l' & Hl' & ?)]; [by right|]. rewrite Hl in Hl'.
    injection Hl' as ->. by left. }
  split; [done|]. apply list_elem_of_split in Hall as (a & b & ->).
  unfold extractKeysFromEnvKeyValuePairs. rewrite omap_app, bind_app. cbn [omap list_omap].
  rewrite Hcut. cbn [mbind list_bind].
  apply (app_around [path; "ssh"; "--agent-forwarding=true"; "--start-services=true"]).
Qed.
End Dotfiles.

(** ** An example *)

Definition up_demo (sends : option Result) : up_world := {|
  pw_env := ∅; pw_environ := []; pw_GOOS := "linux"; pw_version := "v0.0.0";
  pw_files := Host ∅ (); pw_fw := demo_file_world; pw_executable := inr "/usr/bin/devpod";
  pw_random10 := "a1b2c3d4e5"; pw_dial := λ _, false; pw_listen := λ _, None;
  pw_LookPath := λ _, true; pw_cli := λ _ c, inr c; pw_platform := λ _ p, inr p;
  pw_exec := λ _ _ _, ("", None); pw_open := λ _ _, None; pw_agent := λ _ _, inr sends;
  pw_onPlatform := λ _ _, inl "no platform"; pw_remote := λ _ _ _ _, inl "no platform";
  pw_daemon := λ _, inl "no daemon"; pw_machineLock := λ _, None; pw_tunnel := λ _, None;
  pw_platformVersion := λ _, inl "no platform"; pw_semver := inr |}.
Definition up_demo_cmd : UpCmd := {|
  uc_CLIOptions := no_cli; uc_UID := ""; uc_Machine := ""; uc_ProviderOptions := [];
  uc_ConfigureSSH := true; uc_GPGAgentForwarding := false; uc_OpenIDE := true;
  uc_SSHConfigPath := "/home/me/.ssh/config"; uc_DotfilesSource := "github.com/me/dotfiles";
  uc_DotfilesScript := ""; uc_DotfilesScriptEnv := ["EDITOR=vi"]; uc_DotfilesScriptEnvFile := [] |}.
Definition up_demo_start : session := Session (CState NoFile demo_home) no_locks ∅ [].
Definition up_demo_run (sends : option Result) : result unit * session :=
  UpCmd_run RegistryProps.demo_osys WorkspacesProps.demo_remote (λ _, inr "info") (up_demo sends)
    OptionsProps.demo_config 1 up_demo_cmd (LocalClient demo_client) up_demo_start.

Lemma up_failure_harmless_witness :
  let run := up_demo_run None in
  run.1 ≠ Ok () ∧ se_locked run.2 = no_locks ∧ h_ssh (st_home (se_c run.2)) = h_ssh demo_home.
Proof.
  cbv zeta. destruct (up_demo_run None) as [r u'] eqn:E.
  destruct (up_failure_harmless RegistryProps.demo_osys WorkspacesProps.demo_remote
    (λ _, inr "info") (up_demo None) OptionsProps.demo_config 1 up_demo_cmd
    (LocalClient demo_client) up_demo_start r u') as (? & [?|(_ & (_ & _ & m & e & _ & He) & _)] & ? & _);
    [intros res; vm_compute; discriminate|exact E|reflexivity| |discriminate He].
  split_and!; assumption.
Defined.

Lemma up_success_witness :
  let run := up_demo_run (Some some_info) in
  se_locked run.2 = no_locks ∧
  se_results run.2 !! "/home/me/.devpod/contexts/default/workspaces/ws" = Some (Some some_info).
Proof.
  cbv zeta. destruct (up_demo_run (Some some_info)) as [r u'] eqn:E.
  assert (r = Ok ()) as ->.
  { change ((r, u').1 = Ok ()). rewrite <-E. vm_compute. reflexivity. }
  destruct (up_success RegistryProps.demo_osys WorkspacesProps.demo_remote
    (λ _, inr "info") (up_demo (Some some_info)) OptionsProps.demo_config 1 up_demo_cmd
    (LocalClient demo_client) up_demo_start u' E eq_refl eq_refl eq_refl)
    as (Hl & res & dir & _ & _ & _ & _ & _ & Hres & Hdir & Hr & _).
  split; [exact Hl|]. vm_compute in Hres, Hdir. injection Hdir as <-. injection Hres as <-.
  exact Hr.
Defined.
